(* ===== verification/_CoqProject ===== *)
-Q . S2P
Prelude.v
JsNum.v
Schema.v
Admission.v
Gateway.v
GatewayFacts.v
GatewayViews.v
Deployments.v
DeploymentFacts.v
StatusFacts.v
Recipes.v
RecipeFacts.v
Routes.v
RouteFacts.v
DeployRoute.v
DeployRouteFacts.v
AgentHub.v
AgentHubFacts.v
FineTune.v
FineTuneFacts.v
NodeOps.v
NodeOpsFacts.v
NodeRoutes.v
NodeRoutesFacts.v
LaunchArgs.v
LaunchArgsFacts.v
AgentLaunch.v
AgentLaunchFacts.v
AgentHealth.v
AgentHealthFacts.v
Jobs.v
JobsFacts.v
RemoteRun.v
RemoteFacts.v
BenchParse.v
BenchParseFacts.v
BenchConfig.v
Bench.v
BenchFacts.v
BenchBootFacts.v
BenchConfigFacts.v
BenchExamples.v
TrainParse.v
AgentTrain.v
AgentTrainFacts.v
AgentTrainStops.v
TrainFacts.v
HfCache.v
HfCacheFacts.v
Firewall.v
Updater.v
UpdaterFacts.v
TrainRecipes.v
TrainRecipesFacts.v
Sparkrun.v
SparkrunFacts.v
OllamaRuntime.v
OllamaRuntimeFacts.v
PeerHealth.v
PeerHealthFacts.v
KnownHosts.v
KnownHostsFacts.v
OllamaCatalog.v
OllamaCatalogFacts.v
Registries.v
RegistriesFacts.v
AgentTools.v
AgentToolsFacts.v
SysInfo.v
SysInfoFacts.v
AgentLink.v
AgentLinkFacts.v
Admin.v
AdminFacts.v
Provision.v
ProvisionFacts.v
NodeAdmin.v
NodeAdminFacts.v
Dashboard.v
DashboardFacts.v
