(* ===== verification/Prelude.v ===== *)
(** * DGX Manager: a model of the manager server and its properties

    The program is a manager for a cluster of GPU nodes.  An Express server
    ([packages/server]) keeps nodes, deployments, models, fine-tune jobs and join tokens
    in a database, talks over WebSockets to one agent per node ([packages/agent]), and
    exposes an OpenAI-compatible gateway that forwards a request naming a model to
    one of the deployments that serve it.  A dashboard ([packages/dashboard]) shows it.
    This development models the server's core: what decides whether a workload may
    start, what happens to its row over its life, which requests reach it, and what an
    agent's messages do to the shared state; what an agent does with the orders to launch
    and stop a container and how it judges the container's health; how it trains, merges
    and quantizes a model, up to the rows its messages leave; and benchmark runs, from the
    request over the job on the eval node to the score; and what an agent and the manager keep
    around that: caches, catalogs, recipes, the firewall, updates, known hosts; and what the
    dashboard's pages make of the events they hear.

    ** How the code is represented

    A handler is a function from the tables (and its request) to the tables after it,
    with the messages it sends, in order; a refusal is an [Err] of a [result] whose
    constructors are the handler's early returns, and a throw nobody catches is one
    of them.  The tables are the rows of [prisma/schema.prisma] ([Schema]): lists in
    scan order, with the columns modelled code reads or writes.  A handler is one
    atomic step, except where the code awaits between reading and writing and that
    matters: publishing a name, redeeming a join token, the wait of an offboarding, a
    capability request, a request to provision a node, the requests of the registries'
    table, the manager's reconciliation of benchmark runs after a boot, and a gateway
    request, whose accounting outlives it; those are split, and their interleavings are
    stated; likewise a benchmark's end and its cancel, and an agent's launches and
    teardowns.  An agent's messages go through [sendMsg], which drops them while the socket
    is not open: the machines of [AgentLaunch], [AgentHealth] and [AgentTrain] hold the
    link and keep what was dropped apart from what was sent; [Sparkrun] and [OllamaRuntime]
    record what was handed to it.
    JavaScript numbers are [NaN], the infinities or exact rationals ([JsNum]): rounding
    to doubles is not modelled, the 32-bit width of integer columns is ([as_int32], a
    write outside it throws), and so is the wrap-around of the bit operators ([Wol]).
    Strings are the bytes of their text; where a stream of bytes is decoded chunk by chunk
    and the cuts show ([OllamaRuntime]), the decoding is modelled.  Request bodies are
    parsed JSON; the fields a handler does not check at run time have the types TypeScript
    declares.

    What the repository does not contain is a parameter with what the code relies on:
    the HTTP client that probes a runtime ([fetch]), the file system, the YAML parser,
    SSH, generated ids and the clock.

    ** Parts, files and sources

    - [Prelude]: nullish values, the error monad, strings, grouping, association lists,
      stable sorting; [JsNum]: numbers, [Number(s)], JSON; [Schema]: the tables and
      their queries.
    - [Admission] (admission/vram.ts, admission/recipe-arch.ts, nodes/role.ts): module
      [Vram], the share arithmetic, shortfalls, the holders of a node's memory and the
      orchestrator [checkVllmVramAdmission]; [Arch] and [Role], the other two rules.
    - [Gateway] (gateway/*.ts, routes/gateway.ts): [Modality], [Pool] (who is eligible,
      who is chosen, the pool view, the model list), [Inflight] (the counts, the
      rotation), [Router] (the handler up to and around the hop), [Proxy] (body limit,
      headers), [Hop] (the hop as a machine over the events of the HTTP client and the
      response, alone and for all requests at once).  [GatewayFacts], [GatewayViews].
    - [Deployments] (deployments/display-name.ts, published-name.ts, dgxrun-dispatch.ts,
      teardown-decision.ts, dgxrun-teardown.ts, benchmarks/endpoint.ts,
      ws/deployment-status.ts, ws/deployment-status-handler.ts): [Names], [Dispatch],
      [Status].  [DeploymentFacts], [StatusFacts].
    - [Recipes] (deployments/recipe-path.ts, dgxrun-catalog.ts, dgxrun-recipe.ts,
      recipe-inline.ts, maxoutmem.ts, claude-launch.ts): [Path], [Recipe], [MaxOutMem],
      [Launch].  [RecipeFacts].
    - [Routes] (routes/deployments.ts, DELETE and restart): [Delete], [Restart].
      [RouteFacts].
    - [DeployRoute] (routes/deployments.ts, POST; ollama/vram-estimate.ts): the stages of a
      deploy, [planDeploy], [createRows], [postRoute].  [DeployRouteFacts].
    - [AgentHub] (ws/agent-hub.ts, ws/node-ip.ts, ws/staleness.ts, nodes/power.ts): the
      sockets, the map from node to socket, every message that changes state, the
      close, the sweep, and runs of all of these ([step], [reachable]).
      [AgentHubFacts].
    - [FineTune] (routes/finetune.ts): jobs from creation to the deployment of the
      trained model, and the clean-ups.  [FineTuneFacts].

    - [NodeOps] (nodes/power.ts, nodes/wol.ts, nodes/agent-update.ts, caps/cap-client.ts):
      [Power], [Wol], [Update], [Cap].  [NodeOpsFacts].
    - [NodeRoutes] (routes/nodes.ts: power, wake, agent updates, offboarding), over the
      hub's world.  [NodeRoutesFacts].

    - [LaunchArgs] (agent: jobs/sh-quote.ts, runtime/dgxrun/dgxrun-args.ts): [Shell], [Args].
      [LaunchArgsFacts].
    - [AgentLaunch] (agent: runtime/dgxrun/dgxrun.ts, runtime/deploy-cancel.ts,
      runtime/deployment-store.ts, runtime/deploy-phase.ts and the handlers of index.ts):
      [Phase], [Store], [Cancel], and [Machine], the launches and teardowns of a node as a
      step relation.  [AgentLaunchFacts].
    - [AgentHealth] (agent: runtime/dgxrun/dgxrun-metrics.ts, dgxrun-reconcile.ts, the
      deploy-*.ts reports, ollama-reconcile.ts): [Lines], [Inspect], [Health], [Ollama].
      [AgentHealthFacts].
    - [Jobs] (agent: jobs/*.ts, caps/job-cap.ts, caps/registry.ts): [Spec], [JobCap].
      [JobsFacts].
    - [RemoteRun] (benchmarks/remote-runner.ts, orchestrator.ts): [Poll], the manager's loop
      over the class [Channel]; [Node], the instance made of [Jobs] behind a transport that
      loses calls; [Runner], the class both runners are instances of.  [RemoteFacts].
    - [BenchParse] (benchmarks/parser.ts, lm-eval-parser.ts, tool-eval-parser.ts,
      finalize-outcome.ts, null-completions.ts, extraction-failure.ts, proxy-loss.ts,
      reasoning.ts), a module per file.  [BenchParseFacts].
    - [BenchConfig] (benchmarks/presets.ts, args.ts, tool-eval-args.ts, lm-eval-args.ts,
      eval-node.ts): [Presets], [Args], [EvalNode].  [BenchConfigFacts].
    - [Bench] (benchmarks/execute.ts, reconcile.ts, boot-reconcile.ts, routes/benchmarks.ts):
      [Tools], [Execute], [Post], and [Runs], the table of runs as a step relation with
      crashes and restarts.  [BenchFacts], [BenchBootFacts], [BenchExamples].
    - [TrainParse] (agent: runtime/finetune.ts, the output of a training): [Speed], [Parse],
      [Output].  [AgentTrain] (agent: runtime/finetune.ts, finetune-quantize.ts and the
      fine-tune cases of index.ts): [Args], [Merge], [Quantize], and [Machine], the
      launches, ticks, stops and restarts of a node as a step relation over the containers
      of the node and its workers.  [AgentTrainFacts] (what a step comes to, no launch is
      forgotten), [AgentTrainStops] (how jobs end, up to the manager's rows), [TrainFacts]
      (lines, arguments, merge and quantization).

    - [HfCache] (agent: runtime/hf-cache.ts; server: hf-cache/*.ts, routes/hf-cache.ts):
      [Repo], [Disk], [CacheId], [Grouping], [CacheRoute].  [HfCacheFacts].
    - [Firewall] (agent: firewall.ts): the steps over the class [Netfilter]; module [Table]
      is an instance.
    - [Updater] (agent: updater.ts, update-launch.ts): the updater as a monadic program over
      disk, services and markers.  [UpdaterFacts].
    - [TrainRecipes] (agent: training-recipes.ts, runtime/inference-template.ts): [Yaml],
      [Template], [Discover].  [TrainRecipesFacts].
    - [Sparkrun] (agent: runtime/sparkrun*.ts, recipe-arch.ts, recipes.ts and the sparkrun
      cases of index.ts): [Args], [Parse], [Crash], and [Machine], launches and stops as
      steps over launchers that end when they like.  [SparkrunFacts].
    - [OllamaRuntime] (agent: runtime/ollama.ts and its cases of index.ts): [Utf8], [Pull],
      [Ready], [Loaded], and [Machine], deploys and stops as steps.  [OllamaRuntimeFacts].
    - [PeerHealth] (health/peer-throughput.ts, eval/*.ts, dashboard/lib/peer-throughput.ts):
      [Pool], [View], [Verbose].  [PeerHealthFacts].
    - [KnownHosts] (ssh/known-hosts.ts, known-hosts-trigger.ts): [Hosts], [Guard].
      [KnownHostsFacts].
    - [OllamaCatalog] (ollama/catalog-*.ts, routes/ollama-catalog.ts): [Cards], [Catalog].
      [OllamaCatalogFacts].
    - [Registries] (registries/*.ts, routes/registries.ts; agent: registries.ts): [Rules],
      [Render], [Routes_], the requests as tasks from one access to the database to the next.
      [RegistriesFacts].
    - [AgentTools] (agent: runtime/exec-capture.ts, caps/exec-cap.ts, runtime/power.ts,
      runtime/undeploy-policy.ts, runtime/dgxrun/dgxrun-dropcache.ts, self-audit.ts):
      [Capture], [Exec], [DropCache], [Audit], [Shared], [PowerCmd].  [AgentToolsFacts].
    - [SysInfo] (agent: sysinfo/*.ts, metrics.ts; server: metrics-buffer.ts,
      metric-retention.ts): [Proc], [Rates], [Sample], [Buffer], [Retention].  [SysInfoFacts].
    - [AgentLink] (agent: index.ts): [Identity], [FastIp], [Link] (the socket and its
      reconnects as steps), [Tick], [PowerDown].  [AgentLinkFacts].
    - [Admin] (routes/tokens.ts, settings.ts, datasets.ts, models.ts, recipes.ts,
      training-recipes.ts; sse.ts, ws/dashboard-hub.ts): [Tokens], [Settings], [Datasets],
      [Models], [Lists], [Sinks].  [AdminFacts].
    - [Provision] (ssh/executor.ts, ssh/provisioner.ts, ssh/eval-profile.ts,
      ollama/dropin.ts): [Ssh], [DropIn], [Prereq].  [ProvisionFacts].
    - [NodeAdmin] (routes/nodes.ts: creation, renaming, provisioning, lists, diag, exec),
      requests and background tasks as steps over the table, a request to provision being
      two.  [NodeAdminFacts].
    - [Dashboard] (packages/dashboard: the deployments and fine-tuning pages, the pickers,
      forms and helpers of lib): [Text], [Live], [Train], [Forms], [Stream], [Lists].
      [DashboardFacts].

    How they interact: the gateway and the hub share [isAgentOnline] (the pool rules
    take it as an argument; [sweep_exact] instantiates it); the three routes that start
    a workload call the one admission check; reports from the hub end in
    [Status.handleDeploymentStatus], which resolves published names, which the gateway
    reads; a dgxrun deploy, its restart and its teardown share [Dispatch], whose orders
    are what [AgentLaunch] receives and [LaunchArgs] turns into a command line; a
    benchmark's loop in [RemoteRun] asks the handlers of [Jobs], and what it returns is
    parsed by [BenchParse] and recorded by [Bench]; what [AgentTrain] sends are the messages
    of [AgentHub], so that its theorems speak of the job's row in the manager; the effects of
    [Status.handleDeploymentStatus] and of the hub's job handlers are the events the pages of
    [Dashboard] hear.

    A file named after another with [Facts] at its end holds the theorems about it, followed,
    where there is no file of [Examples], by the model on concrete inputs and the witnesses.

    ** What the theorems show

    - Starting a workload: no row is created, restarted or re-served unless every node
      has room for the share it asks for on top of what its reading leaves, and what a
      restart may credit itself with is bounded by what it was granted
      ([post_creates_admitted], [restart_is_admitted], [ftDeploy_spec],
      [admission_no_shortfall_iff], [reclaimForRestart_bounded]).
    - What a caller cannot write: the authorised share, the identity of a deployment, a
      path outside the storage root, a word of a generated script
      ([post_config_authority], [restart_keeps_identity], [resolveRecipePath_contained],
      [tokenize_shellQuote]).
    - The gateway: a forwarded request goes to a live, eligible, least loaded member that
      publishes the name, every refusal has its reason, and the counts equal the
      requests in flight over every interleaving ([proxyInference_forwards_safely],
      [proxyInference_refusals], [inflight_accounting], and with real hops [traffic_accounted]);
      what a client is left with however the member or the client itself goes away
      ([relay_outcome], [hangup_stops_upstream], [serve_end_to_end]).
    - A deployment's life: one report on every branch, errors that survive the teardown,
      the fan-out to ranks, what a delete leaves ([handleDeploymentStatus_row],
      [crash_error_survives], [coordinatedDgxrunTeardown_spec], [deleteRoute_completes]).
    - The hub: orders go out on an open socket that identified itself as their node, the sweep is
      exact and the gateway follows it, a heartbeat repairs what a late close broke
      ([orders_reach_their_node], [sweep_exact], [late_close_until_heartbeat]).
    - A node's agent: no ordered stop is lost, its store stays one entry per deployment,
      launches and stops end, the ranks of a deployment agree, the mods script runs the
      same serve command, a rank is failed on docker's evidence ([no_stop_is_lost],
      [store_well_formed], [launches_and_stops_end], [dgxrun_ranks_agree],
      [dgxrun_mods_equivalence], [rank_failed_on_evidence]).
    - Benchmarks: the remote loop refines looking at the node ([remote_refines]), ends
      ([remote_run_ends]) and delivers the log once ([log_delivered_once]) from an agent
      that concludes on evidence only ([status_evidence]); completed runs have their data
      and runs in flight are attended, or await the turn of a boot, over every interleaving
      with cancels, deletes and restarts ([runs_invariant], [cancel_sticks_or_is_lost]); what a
      boot no request comes between makes of them, and when it goes down ([boot_spec]); limits
      and scores ([accuracy_limits], [lmeval_headline], [strip_no_tags]).
    - Fine-tune jobs: deploy, delete, rename, quantize and clean-up on the manager; on the
      agent, no launch is forgotten and set-ups end ([no_launch_forgotten], [setups_end]), a
      stop removes what it names ([stop_cleans]) but does not stick during a set-up and can
      end a resumed job ([stopped_setup_reported_failed], [stale_launch_ends_resumed]), a
      lost worker is told once ([lost_worker_told_once]), what a training prints reaches the
      tables in bounded numbers ([train_line_becomes_row], [updates_bounded]) except for one
      form of evaluation loss ([eval_dict_is_lost]) and the end of a training that outlived
      its agent ([reattached_completion_lost]), workers train with the head's words
      ([worker_runs_heads_arguments]), merges tell their end once and quantizations unless
      docker refuses ([merge_ends_once], [quantize_failed_run_untold]).
    - Nodes: an offboarding ends, and leaves tables whose foreign keys resolve whether or
      not it completes; a power request goes out once and is recorded as answered; the
      magic packet and the broadcast address are right to the bit; a capability request
      is answered once ([deleteNodeRecords_spec], [offboard_waits], [powerRoute_spec],
      [wakeRoute_spec], [broadcastFor_spec], [cap_settles_once]).
    - Caches and files: an order to delete a cached model touches the listed directory and
      nothing else ([delete_contained]), and is refused while a node uses it, as far as the
      manager has heard ([deleteRepo_guarded], [deleteRepo_unreported]); directory names,
      recipes and settings come back as they were written ([repoDirName_roundtrip],
      [recipe_roundtrip], [settings_roundtrip]); which templates and tags are offered
      ([variant_found], [substitution_spec], [available_iff], [catalog_keeps_local_models]).
    - An agent's own safety: a green check means that only the manager reaches Ollama
      ([green_means_closed], [applyFamily_spec]); an update that survives the restart ends, loses
      no agent, and its outcome tells what is in place and what runs, whichever commands are
      refused or throw after having acted ([runUpdate_keeps_agent]); one that is killed with
      it checks nothing ([killed_updater_checks_nothing]).
    - sparkrun and Ollama on a node: what is tracked is recorded and alive over every run, and
      whose end is reported ([sparkrun_runs_sound], [ollama_tracked_recorded]); how a pull ends
      does not depend on how its stream is cut between characters ([pull_outcome]); waits are bounded ([ensureOllamaRunning_spec]); what
      stops leave behind ([cut_cluster_id_sticks], [stopped_launch_comes_back],
      [late_exit_disarms_stop], [launch_outlives_its_stop], [late_failure_forgets]).
    - Keeping the cluster together: which addresses are trusted and what reaches a shell
      ([reseed_spec]), one reseed at a time and five minutes apart ([reseed_guarded]), a burst
      of reconnects makes one ([debounce_spec]); who counts as slower than its peers, never
      everybody ([suspect_iff], [not_all_suspect], [assessed_in_own_pool], [median_halves]).
    - What a node says and runs: a docker that does not answer is not a container that is gone
      ([timed_out_inspect_unknown]); an operator's command is answered and recorded once
      ([exec_answers_once]); rates add up to what the counters moved, each way ([rates_add_up]), fields
      are the kernel's ([meminfo_field]), the window and the table hold the last samples
      ([buffer_window], [retention_exact]).
    - Joining and leaving: an accepted agent never spends its token again if it could write its
      id down ([token_sent_once], [unwritten_id_is_lost]), it is back within thirty seconds
      ([reconnects_in_time]), its address on the fast fabric is one of its own in the first
      subnet that has one ([fast_ip_spec]), going down is acknowledged when it was launched
      ([power_acknowledged]).
    - The manager's smaller tables: the list of tokens keeps the secrets and agrees with what
      registration does ([tokens_listed]), a dataset's row says what its file holds and its
      delete touches nothing else ([post_describes], [delete_own_files]), registries stay valid
      over every interleaving and are what the agents were sent last, and never empty unless two
      deletes cross ([registries_kept], [deletes_interleaved_empty]).
    - Setting a node up: an Ollama the manager did not install is never taken over and one it
      did stays its own ([ownership_kept]), provisioning again restarts nothing
      ([rerun_quiet]), only what an audit found missing is installed, and nothing that hosts
      models on an eval node ([provision_only_missing], [provision_spec]), the table of nodes
      keeps its keys and shows its report ([node_table_kept]), what can end the process and
      what can never be retried ([crash_iff], [failed_installation_is_final]).
    - The dashboard: a page that hears every event shows the deployment table
      ([page_mirrors_reports]) and follows the job table ([page_follows_jobs]); its curves stay
      drawable ([curves_stay_drawable]); logs do not depend on their chunks
      ([chunks_are_immaterial]); what its forms suggest and send is what the routes take
      ([suggestion_accepted], [cluster_request_nodes], [unedited_restart_repeats]); its
      judgement of versions is the server's ([isOutdated_versionGte]); lists and labels
      ([sortRepos_deterministic], [parseLaunchConfig_spec], [placeholder_matches_button],
      [ticks_are_saved]).
    Some theorems state a defect as the behaviour it is ([overlapping_stop_leaves_stale_name],
    [late_close_until_heartbeat], [token_admission], [cleanupOrphanModels_blocked],
    [restart_display_name_uniqueness], [path_recipe_lost_on_restart],
    [deleteNodeRecords_spec], [powerRoute_spec], [restart_during_stop_untracked],
    [vanished_rank_by_parity], [coming_up_reported_failed], [malformed_config_poisons],
    [delete_running_crashes], [lost_result_fails_run], [chunk_splits_line],
    [stopped_setup_reported_failed], [stale_launch_ends_resumed], [eval_dict_is_lost],
    [reattached_completion_lost], [quantize_failed_run_untold], [deleteRepo_unreported],
    [empty_marker_is_final], [killed_updater_checks_nothing], [unseen_agent_is_rolled_back],
    [cut_cluster_id_sticks], [stopped_launch_comes_back], [late_exit_disarms_stop],
    [sparkrun_stop_confirmed], [launch_outlives_its_stop], [late_failure_forgets],
    [longer_name_hides_eviction], [forced_call_swallowed], [verboseness_gate],
    [default_drop_never_skips], [drops_overlap], [unwritten_id_is_lost], [preview_reads_any_file],
    [missed_restart_stays], [refused_stays_provisioning], [failed_installation_is_final],
    [relay_outcome], [collapsed_logs_never_rewind], [one_stream]); their comments say so.

    ** Loops and fuel

    [nextFreePort] (free port) and [freeName] (free node name) get one step more than
    there are ports or nodes in use, and are proved to find a free one
    ([nextFreePort_free], [freeName_fresh]).  The wait of an offboarding has a fuel of
    two polls more than the tens of milliseconds in its deadline, which is proved
    enough ([offboard_waits]): a poll is at least ten milliseconds after the last or
    past the deadline.  The polling of a benchmark has a fuel of rounds, enough when it
    exceeds the instants until the status gets through ([remote_run_ends]); without an end
    of the job the loop goes on, as the code does.  The removal of thinking blocks and the
    search for the last closing tag have the length of the text, each step removing a tag
    ([strip_no_tags]).  The updater's wait has a fuel of one look per millisecond of
    its window, proved enough; splitting a listing into columns, reading addresses out of
    [ip addr] and the substitution of a placeholder have the length of the text, each step
    taking a character at least.  Every other recursion is structural.

    ** Not modelled

    Of the dashboard the rendering, the body of the deploy form and the pages that only show
    lists; of the agent the lists it sends after
    registering, the tailing of logs and the log texts of a training; the HTTP piping of the
    reasoning proxy, the install script and the agent's archive, the HTML parser of the
    catalog, the read-only routes of deployments, benchmarks and fine-tune jobs, log files, and
    the reading of the audit table, whose rows are only kept by node; also the buffering and back-pressure of the gateway's pipe, what Express
    adds to the headers of an answer, the bytes of the reasoning proxy, and the double
    rounding of numbers. *)
(** This file: what the other files share. *)
From Stdlib Require Export Ascii ZArith Lia.
From stdpp Require Export base gmap sets list strings pretty sorting.

Declare Scope js_scope.
Delimit Scope js_scope with js.
Create HintDb js discriminated.
Create Rewrite HintDb js_rw.

(** * Nullish and truthy values *)

(** JavaScript's [o ?? d] on a nullable value. *)
Notation "o ?? d" := (default d o) (at level 60, right associativity, only parsing) : js_scope.

(** A nullable string used as a condition: the empty string is falsy. *)
Definition truthy (o : option string) : option string :=
  match o with Some "" => None | _ => o end.

(** JavaScript's [o || d] on a nullable string. *)
Definition js_or (o : option string) (d : string) : string := default d (truthy o).

Lemma truthy_Some o s : truthy o = Some s <-> o = Some s /\ s <> "".
Proof. destruct o as [[|c s']|]; simpl; split; intros; naive_solver. Qed.

Lemma truthy_None o : truthy o = None <-> o = None \/ o = Some "".
Proof. destruct o as [[|c s']|]; simpl; naive_solver. Qed.

(** * Fallible code *)

(** [Err e] models an exception or an early return carrying [e]. *)
Inductive result (E A : Type) : Type :=
  | Ok (a : A)
  | Err (e : E).
Arguments Ok {E A} a.
Arguments Err {E A} e.

#[export] Instance result_ret E : MRet (result E) := fun A a => Ok a.
#[export] Instance result_bind E : MBind (result E) :=
  fun A B f m => match m with Ok a => f a | Err e => Err e end.
#[export] Instance result_fmap E : FMap (result E) :=
  fun A B f m => match m with Ok a => Ok (f a) | Err e => Err e end.

(** [guard_or b e]: go on when [b] holds, otherwise stop with [e]. *)
Definition guard_or {E} (b : bool) (e : E) : result E () := if b then Ok () else Err e.

Definition of_option {E A} (o : option A) (e : E) : result E A :=
  match o with Some a => Ok a | None => Err e end.

Lemma Ok_inj {E A} (a b : A) : @Ok E A a = Ok b -> a = b.
Proof. by intros [=]. Qed.

Lemma bind_Ok {E A B} (m : result E A) (f : A -> result E B) b :
  (m ≫= f) = Ok b <-> exists a, m = Ok a /\ f a = Ok b.
Proof. destruct m; unfold mbind, result_bind; naive_solver. Qed.

Lemma guard_or_Ok {E} b (e : E) u : guard_or b e = Ok u <-> b = true.
Proof. destruct b, u; simpl; naive_solver. Qed.

Lemma of_option_Ok {E A} (o : option A) (e : E) a : of_option o e = Ok a <-> o = Some a.
Proof. destruct o; simpl; naive_solver. Qed.

Definition is_ok {E A} (m : result E A) : Prop := exists a, m = Ok a.

(** Invert a chain of successful binds. *)
Ltac ok_inv :=
  repeat match goal with
    | H : (_ ≫= _) = Ok _ |- _ =>
        let a := fresh "v" in let Ha := fresh "H" in
        apply bind_Ok in H; destruct H as (a & Ha & H)
    | H : guard_or _ _ = Ok _ |- _ => apply guard_or_Ok in H
    | H : of_option _ _ = Ok _ |- _ => apply of_option_Ok in H
    | H : Ok _ = Ok _ |- _ => injection H as H
    | H : Err _ = Ok _ |- _ => discriminate H
    | H : Ok _ = Err _ |- _ => discriminate H
    end; try subst.

(** * Strings *)

(** [s.includes(sub)] *)
Fixpoint str_includes (sub s : string) : bool :=
  String.prefix sub s ||
  match s with EmptyString => false | String _ s' => str_includes sub s' end.

(** [xs.join(sep)] *)
Definition str_join (sep : string) (xs : list string) : string := String.concat sep xs.

(** [s.slice(0, n)] *)
Fixpoint str_take (n : nat) (s : string) : string :=
  match n, s with
  | S n', String c s' => String c (str_take n' s')
  | _, _ => EmptyString
  end.

(** [s.slice(n)] *)
Fixpoint str_drop (n : nat) (s : string) : string :=
  match n, s with
  | S n', String _ s' => str_drop n' s'
  | 0, _ => s
  | _, _ => EmptyString
  end.

(** Every character of [s] satisfies [p]. *)
Fixpoint str_all (p : ascii -> bool) (s : string) : bool :=
  match s with EmptyString => true | String c s' => p c && str_all p s' end.

Fixpoint str_map (f : ascii -> ascii) (s : string) : string :=
  match s with EmptyString => EmptyString | String c s' => String (f c) (str_map f s') end.

Definition code (c : ascii) : N := N_of_ascii c.
Definition in_range (lo hi : N) (c : ascii) : bool := (lo <=? code c)%N && (code c <=? hi)%N.
Definition is_digit : ascii -> bool := in_range 48 57.
Definition is_upper : ascii -> bool := in_range 65 90.
Definition is_lower : ascii -> bool := in_range 97 122.
Definition is_alnum (c : ascii) : bool := is_digit c || is_upper c || is_lower c.
(** Tab, line feed, vertical tab, form feed, carriage return, space: what
    [trim] and a regular expression's [\s] match below 128. *)
Definition is_ws (c : ascii) : bool := in_range 9 13 c || (code c =? 32)%N.
Definition lower_char (c : ascii) : ascii :=
  if is_upper c then ascii_of_N (code c + 32) else c.

(** [s.toLowerCase()] *)
Definition str_lower : string -> string := str_map lower_char.

Fixpoint trim_left (s : string) : string :=
  match s with
  | String c s' => if is_ws c then trim_left s' else s
  | EmptyString => EmptyString
  end.

Fixpoint trim_right (s : string) : string :=
  match s with
  | EmptyString => EmptyString
  | String c s' =>
      match trim_right s' with
      | EmptyString => if is_ws c then EmptyString else String c EmptyString
      | r => String c r
      end
  end.

(** [s.trim()] *)
Definition str_trim (s : string) : string := trim_right (trim_left s).

(** [s.split(c)] for a one-character separator. *)
Fixpoint str_split (sep : ascii) (s : string) : list string :=
  match s with
  | EmptyString => [EmptyString]
  | String c s' =>
      if Ascii.eqb c sep then EmptyString :: str_split sep s'
      else match str_split sep s' with
           | w :: ws => String c w :: ws
           | [] => [String c EmptyString]
           end
  end.

Definition nl : ascii := ascii_of_nat 10.
Definition sq : ascii := ascii_of_nat 39.
Definition dq : ascii := ascii_of_nat 34.
Definition bs : ascii := ascii_of_nat 92.

Lemma app_String c s t : (String c s +:+ t) = String c (s +:+ t).
Proof. reflexivity. Qed.

Lemma str_app_inj_l a b c : (a +:+ b) = (a +:+ c) -> b = c.
Proof. induction a as [|x a IH]; [done|]. intros [= H]. by apply IH. Qed.

Lemma app_empty_l s : (EmptyString +:+ s) = s.
Proof. reflexivity. Qed.

Lemma app_empty_r s : (s +:+ EmptyString) = s.
Proof. induction s as [|c s IH]; [done|]. by rewrite app_String, IH. Qed.

Lemma str_app_assoc s t u : ((s +:+ t) +:+ u) = (s +:+ (t +:+ u)).
Proof. induction s as [|c s IH]; [done|]. by rewrite !app_String, IH. Qed.

Lemma str_length_app s t : String.length (s +:+ t) = (String.length s + String.length t)%nat.
Proof. induction s as [|c s IH]; [done|]. rewrite app_String. simpl. by rewrite IH. Qed.

#[export] Hint Rewrite app_String app_empty_l app_empty_r : js_rw.

Lemma prefix_app s t : String.prefix s (s +:+ t) = true.
Proof.
  induction s as [|c s IH]; [by destruct t|].
  rewrite app_String. simpl. destruct (ascii_dec c c); [done|congruence].
Qed.

Lemma prefix_spec s t : String.prefix s t = true <-> exists u, t = s +:+ u.
Proof.
  split; [|intros [u ->]; apply prefix_app].
  revert t; induction s as [|c s IH]; intros t H; [by exists t|].
  destruct t as [|d t]; [done|]. simpl in H.
  destruct (ascii_dec c d) as [->|]; [|done].
  destruct (IH t H) as [u ->]. exists u. by rewrite app_String.
Qed.

Lemma str_includes_spec sub s :
  str_includes sub s = true <-> exists a b, s = a +:+ sub +:+ b.
Proof.
  split.
  - induction s as [|c s IH]; cbn -[String.prefix]; intros H.
    + rewrite orb_false_r in H. apply prefix_spec in H as [u ->].
      by exists EmptyString, u.
    + apply orb_prop in H as [H|H].
      * apply prefix_spec in H as [u ->]. by exists EmptyString, u.
      * destruct (IH H) as (a & b & ->). by exists (String c a), b.
  - intros (a & b & ->). induction a as [|c a IH].
    + rewrite app_empty_l. destruct (sub +:+ b) eqn:E; cbn -[String.prefix];
        rewrite <- E, prefix_app; done.
    + rewrite app_String. cbn -[String.prefix]. rewrite IH. apply orb_true_r.
Qed.

Lemma str_includes_app_l sub s t : str_includes sub s = true -> str_includes sub (s +:+ t) = true.
Proof.
  rewrite !str_includes_spec. intros (a & b & ->). exists a, (b +:+ t).
  by rewrite !str_app_assoc.
Qed.

Lemma str_includes_app_r sub s t : str_includes sub t = true -> str_includes sub (s +:+ t) = true.
Proof.
  rewrite !str_includes_spec. intros (a & b & ->). exists (s +:+ a), b.
  by rewrite !str_app_assoc.
Qed.

Lemma str_includes_refl s : str_includes s s = true.
Proof. apply str_includes_spec. exists EmptyString, EmptyString. by rewrite app_empty_r. Qed.

Lemma str_includes_trans a b c :
  str_includes a b = true -> str_includes b c = true -> str_includes a c = true.
Proof.
  intros H (u & v & ->)%str_includes_spec.
  by apply str_includes_app_r, str_includes_app_l.
Qed.

(** Every joined piece occurs in the joined string. *)
Lemma str_join_includes sep x xs : x ∈ xs -> str_includes x (str_join sep xs) = true.
Proof.
  unfold str_join. intros Hx. induction xs as [|y [|z zs] IH].
  - by apply elem_of_nil in Hx.
  - apply list_elem_of_singleton in Hx as ->. apply str_includes_refl.
  - change (String.concat sep (y :: z :: zs))
      with (y +:+ sep +:+ String.concat sep (z :: zs)).
    apply elem_of_cons in Hx as [->|Hx].
    + by apply str_includes_app_l, str_includes_refl.
    + by apply str_includes_app_r, str_includes_app_r, IH.
Qed.

Lemma str_all_app p s t : str_all p (s +:+ t) = str_all p s && str_all p t.
Proof.
  induction s as [|c s IH]; [done|]. rewrite app_String. simpl.
  by rewrite IH, andb_assoc.
Qed.

Definition not_char (d c : ascii) : bool := negb (Ascii.eqb c d).

Lemma str_split_word sep w : str_all (not_char sep) w = true -> str_split sep w = [w].
Proof.
  induction w as [|c w IH]; [done|]. cbn [str_all]. intros [Hc Hw]%andb_prop. simpl. rewrite (IH Hw).
  unfold not_char in Hc. by destruct (Ascii.eqb c sep).
Qed.

Lemma str_split_app sep w t :
  str_all (not_char sep) w = true -> str_split sep (w +:+ String sep t) = w :: str_split sep t.
Proof.
  induction w as [|c w IH]; simpl.
  - intros _. by rewrite Ascii.eqb_refl.
  - intros [Hc Hw]%andb_prop. rewrite (IH Hw). unfold not_char in Hc. by destruct (Ascii.eqb c sep).
Qed.

Lemma str_join_cons sep w v ws : str_join sep (w :: v :: ws) = w +:+ (sep +:+ str_join sep (v :: ws)).
Proof. done. Qed.

Lemma concat_cons x xs : String.concat "" (x :: xs) = (x +:+ String.concat "" xs).
Proof. destruct xs; [cbn; by rewrite app_empty_r|done]. Qed.

(** Splitting what was joined gives the words back. *)
Lemma str_split_join sep ws :
  ws <> [] -> Forall (fun w => str_all (not_char sep) w = true) ws ->
  str_split sep (str_join (String sep "") ws) = ws.
Proof.
  intros Hne H. induction H as [|w ws Hw Hws IH]; [done|]. destruct ws as [|v ws].
  - by apply str_split_word.
  - rewrite str_join_cons, app_String, app_empty_l, str_split_app by done. by rewrite IH.
Qed.

Lemma str_all_impl (p q : ascii -> bool) s :
  (forall c, p c = true -> q c = true) -> str_all p s = true -> str_all q s = true.
Proof.
  intros Hpq. induction s as [|c s IH]; [done|]. simpl.
  rewrite !andb_true_iff. intros [Hc Hs]. auto.
Qed.

#[export] Hint Resolve str_includes_app_l str_includes_app_r str_includes_refl str_join_includes : js.

(** * Grouping by key in insertion order

    The code's way of grouping rows with a [Map]: look the key up, push on the
    existing array or insert a new one; a [Map] iterates in insertion order. *)
Section Group.
Context {K V : Type} `{EqDecision K} (key : V -> K).

Fixpoint group_add (k : K) (v : V) (gs : list (K * list V)) : list (K * list V) :=
  match gs with
  | [] => [(k, [v])]
  | (k', vs) :: gs' =>
      if decide (k = k') then (k', vs ++ [v]) :: gs' else (k', vs) :: group_add k v gs'
  end.

Definition group_by (rows : list V) : list (K * list V) :=
  foldl (fun gs r => group_add (key r) r gs) [] rows.

Lemma group_add_keys k v gs j : j ∈ (group_add k v gs).*1 <-> j = k \/ j ∈ gs.*1.
Proof.
  induction gs as [|[k' vs] gs IH]; simpl; [set_solver|].
  case_decide; subst; simpl; set_solver.
Qed.

Lemma group_add_NoDup k v gs : NoDup gs.*1 -> NoDup (group_add k v gs).*1.
Proof.
  induction gs as [|[k' vs] gs IH]; simpl; [intros; apply NoDup_singleton|].
  intros [Hk Hg]%NoDup_cons. case_decide; simpl; apply NoDup_cons; [done|].
  rewrite group_add_keys. naive_solver.
Qed.

Lemma group_add_elem k v gs j ws :
  NoDup gs.*1 ->
  (j, ws) ∈ group_add k v gs <->
  (j <> k /\ (j, ws) ∈ gs) \/
  (j = k /\ ((exists vs, (k, vs) ∈ gs /\ ws = vs ++ [v]) \/ (k ∉ gs.*1 /\ ws = [v]))).
Proof.
  induction gs as [|[k' vs] gs IH]; simpl; intros Hnd.
  - rewrite list_elem_of_singleton. set_solver.
  - apply NoDup_cons in Hnd as [Hk Hg]. specialize (IH Hg).
    assert (Hin : forall us, (k', us) ∈ gs -> False).
    { intros us Hus. apply Hk, list_elem_of_fmap. by exists (k', us). }
    destruct (decide (k = k')) as [<-|Hd]; rewrite elem_of_cons; [|rewrite IH]; clear IH; split.
    + intros [[= -> ->]|H].
      * right. split; [done|]. left. exists vs. split; [left|done].
      * left. split; [|by right]. intros ->. by apply (Hin ws).
    + intros [[Hj [[= -> ->]|H]%elem_of_cons]|[-> [(us & [[= ->]|H]%elem_of_cons & ->)|[Hn _]]]].
      * done.
      * by right.
      * by left.
      * by destruct (Hin us).
      * destruct Hn. left.
    + intros [[= -> ->]|[[Hj H]|[-> [(us & H & ->)|[Hn ->]]]]].
      * left. split; [done|left].
      * left. split; [done|by right].
      * right. split; [done|]. left. exists us. split; [by right|done].
      * right. split; [done|]. right. split; [|done]. by intros [?|?]%elem_of_cons.
    + intros [[Hj [[= -> ->]|H]%elem_of_cons]|[-> [(us & [[= -> ->]|H]%elem_of_cons & ->)|[Hn ->]]]].
      * by left.
      * right; left. done.
      * done.
      * right; right. split; [done|]. left. by exists us.
      * right; right. split; [done|]. right. split; [|done].
        intros ?. apply Hn. by right.
Qed.

Lemma group_by_snoc rows r : (group_by (rows ++ [r])) = group_add (key r) r (group_by rows).
Proof. unfold group_by. by rewrite foldl_app. Qed.

Lemma group_add_concat k v gs : concat (group_add k v gs).*2 ≡ₚ concat gs.*2 ++ [v].
Proof.
  induction gs as [|[k' vs] gs IH]; cbn; [done|]. case_decide; cbn; [|by rewrite IH, app_assoc].
  rewrite <- !app_assoc. f_equiv. apply Permutation_app_comm.
Qed.

(** Every row is in one group, once. *)
Lemma group_by_concat rows : concat (group_by rows).*2 ≡ₚ rows.
Proof.
  induction rows as [|r rows IH] using rev_ind; [done|]. by rewrite group_by_snoc, group_add_concat, IH.
Qed.

Lemma group_by_NoDup rows : NoDup (group_by rows).*1.
Proof.
  induction rows as [|r rows IH] using rev_ind; [apply NoDup_nil_2|].
  rewrite group_by_snoc. by apply group_add_NoDup.
Qed.

Lemma group_by_keys rows k : k ∈ (group_by rows).*1 <-> exists r, r ∈ rows /\ key r = k.
Proof.
  induction rows as [|r rows IH] using rev_ind; [simpl; set_solver|].
  rewrite group_by_snoc, group_add_keys, IH. set_solver.
Qed.

(** A group is exactly the rows with its key, in their order. *)
Lemma group_by_elem rows k vs :
  (k, vs) ∈ group_by rows <-> vs = filter (fun r => key r = k) rows /\ vs <> [].
Proof.
  revert k vs. induction rows as [|r rows IH] using rev_ind; intros k vs.
  - simpl. split; [by intros ?%elem_of_nil|by intros [-> ?]].
  - rewrite group_by_snoc, (group_add_elem _ _ _ _ _ (group_by_NoDup rows)), filter_app,
      filter_cons, filter_nil.
    destruct (decide (key r = k)) as [Hd|Hd].
    + split; [intros [[? _]|[_ [(us & [-> _]%IH & ->)|[Hn ->]]]]|].
      * congruence.
      * subst. split; [done|by destruct (filter _ rows)].
      * split; [|done]. destruct (filter _ rows) as [|x xs] eqn:E; [done|].
        assert (x ∈ filter (fun r0 => key r0 = k) rows) as Hf by (rewrite E; left).
        apply list_elem_of_filter in Hf as [Hk Hx].
        destruct Hn. apply group_by_keys. exists x. split; [done|congruence].
      * intros [-> _]. right. split; [done|].
        destruct (filter (fun r0 => key r0 = k) rows) as [|x xs] eqn:E.
        -- right. split; [|done]. intros (x & Hx & Hk)%group_by_keys.
           assert (x ∈ filter (fun r0 => key r0 = k) rows) as Hf.
           { apply list_elem_of_filter. split; [congruence|done]. }
           rewrite E in Hf. by apply elem_of_nil in Hf.
        -- left. exists (x :: xs). split; [|done]. apply IH. subst k.
           by rewrite E.
    + rewrite app_nil_r, IH. split.
      * by intros [[_ H]|[-> _]].
      * intros H. left. split; [congruence|done].
Qed.
End Group.

(** * Insertion-ordered maps

    A [Map], or an object used as one: a new key goes last, a key that is set
    again keeps its place. *)
Section AList.
Context {K V : Type} `{EqDecision K}.

Fixpoint al_get (l : list (K * V)) (k : K) : option V :=
  match l with
  | [] => None
  | (k', v) :: l' => if decide (k = k') then Some v else al_get l' k
  end.

Fixpoint al_set (l : list (K * V)) (k : K) (v : V) : list (K * V) :=
  match l with
  | [] => [(k, v)]
  | (k', v') :: l' => if decide (k = k') then (k', v) :: l' else (k', v') :: al_set l' k v
  end.

Lemma al_get_set l k v j : al_get (al_set l k v) j = if decide (j = k) then Some v else al_get l j.
Proof.
  induction l as [|[k' v'] l IH]; simpl; [done|].
  destruct (decide (k = k')) as [<-|Hk]; simpl.
  - by destruct (decide (j = k)).
  - rewrite IH. destruct (decide (j = k')) as [->|]; [|done].
    destruct (decide (k' = k)); congruence.
Qed.

Lemma al_set_keys l k v j : j ∈ (al_set l k v).*1 <-> j = k \/ j ∈ l.*1.
Proof.
  induction l as [|[k' v'] l IH]; simpl; [set_solver|].
  destruct (decide (k = k')); simpl; set_solver.
Qed.

Lemma al_set_NoDup l k v : NoDup l.*1 -> NoDup (al_set l k v).*1.
Proof.
  induction l as [|[k' v'] l IH]; simpl; [intros; apply NoDup_singleton|].
  intros [Hk Hl]%NoDup_cons. destruct (decide (k = k')); simpl; apply NoDup_cons; [done|].
  split; [|by apply IH]. rewrite al_set_keys. by intros [<-|].
Qed.

Lemma al_get_elem l k v : NoDup l.*1 -> (k, v) ∈ l <-> al_get l k = Some v.
Proof.
  induction l as [|[k' v'] l IH]; simpl; intros Hnd; [split; [by intros ?%elem_of_nil|done]|].
  apply NoDup_cons in Hnd as [Hk Hl]. rewrite elem_of_cons, (IH Hl).
  destruct (decide (k = k')) as [<-|Hkk]; split.
  - intros [[= ->]|H]; [done|]. apply IH in H; [|done].
    destruct Hk. apply list_elem_of_fmap. by exists (k, v).
  - intros [= ->]. by left.
  - intros [[= -> _]|H]; done.
  - by right.
Qed.

Lemma al_get_None l k : al_get l k = None <-> k ∉ l.*1.
Proof.
  induction l as [|[k' v'] l IH]; simpl; [set_solver|].
  destruct (decide (k = k')); set_solver.
Qed.
End AList.

(** * [Array.prototype.sort]

    Stable, so modelled by insertion sort: an element is placed before the
    first later element it does not come after. *)
Section Sort.
Context {A : Type} (le : A -> A -> bool).

Fixpoint sort_insert (x : A) (l : list A) : list A :=
  match l with
  | [] => [x]
  | y :: l' => if le x y then x :: l else y :: sort_insert x l'
  end.

Definition js_sort (l : list A) : list A := foldr sort_insert [] l.

Lemma sort_insert_perm x l : sort_insert x l ≡ₚ x :: l.
Proof.
  induction l as [|y l IH]; simpl; [done|]. destruct (le x y); [done|].
  rewrite IH. constructor.
Qed.

Lemma js_sort_perm l : js_sort l ≡ₚ l.
Proof. induction l as [|x l IH]; simpl; [done|]. by rewrite sort_insert_perm, IH. Qed.

Lemma elem_of_js_sort x l : x ∈ js_sort l <-> x ∈ l.
Proof. by rewrite js_sort_perm. Qed.

Lemma js_sort_length l : length (js_sort l) = length l.
Proof. by rewrite js_sort_perm. Qed.

Context (le_total : forall x y, le x y = true \/ le y x = true).
Context (le_trans : forall x y z, le x y = true -> le y z = true -> le x z = true).

Lemma sort_insert_sorted x l :
  StronglySorted (fun a b => le a b = true) l ->
  StronglySorted (fun a b => le a b = true) (sort_insert x l).
Proof.
  induction l as [|y l IH]; simpl; intros Hs; [repeat constructor|].
  apply StronglySorted_inv in Hs as [Hs Hy].
  destruct (le x y) eqn:E.
  - constructor; [by constructor|]. constructor; [done|].
    eapply Forall_impl; [exact Hy|]. intros z Hz. by apply (le_trans x y z).
  - constructor; [by apply IH|].
    rewrite sort_insert_perm. constructor; [|done].
    destruct (le_total x y); congruence.
Qed.

Lemma js_sort_sorted l : StronglySorted (fun a b => le a b = true) (js_sort l).
Proof. induction l as [|x l IH]; simpl; [constructor|]. by apply sort_insert_sorted. Qed.
End Sort.

(** Comparison of strings by code unit, as [<] on JavaScript strings. *)
Definition str_le (a b : string) : bool := String.leb a b.
Definition str_lt (a b : string) : bool := String.ltb a b.

Lemma str_le_total a b : str_le a b = true \/ str_le b a = true.
Proof. apply String.leb_total. Qed.

Lemma str_le_trans a b c : str_le a b = true -> str_le b c = true -> str_le a c = true.
Proof.
  unfold str_le. intros H1 H2.
  assert (String.le a c) as H; [|by apply Is_true_true in H].
  etrans; [apply Is_true_true, H1|apply Is_true_true, H2].
Qed.

Lemma str_le_antisym a b : str_le a b = true -> str_le b a = true -> a = b.
Proof. apply String.leb_antisym. Qed.

(** * Lists *)

(** [xs.find(p)] *)
Fixpoint js_find {A} (p : A -> bool) (l : list A) : option A :=
  match l with
  | [] => None
  | x :: l' => if p x then Some x else js_find p l'
  end.

Lemma js_find_Some {A} (p : A -> bool) l x : js_find p l = Some x -> x ∈ l /\ p x = true.
Proof.
  induction l as [|y l IH]; simpl; [done|].
  destruct (p y) eqn:E; intros H; [|set_solver].
  injection H as ->. split; [left|done].
Qed.

Lemma js_find_None {A} (p : A -> bool) l :
  js_find p l = None <-> forall x, x ∈ l -> p x = false.
Proof.
  induction l as [|y l IH]; simpl; [set_solver|].
  destruct (p y) eqn:E; [split; [done|intros H; rewrite (H y) in E; set_solver]|].
  rewrite IH. set_solver.
Qed.

(** Filling a map by a loop: the last entry of a key wins. *)
Lemma al_get_foldl {K V} `{EqDecision K} (key : V -> K) xs k :
  al_get (foldl (fun m x => al_set m (key x) x) [] xs) k =
  js_find (fun x => bool_decide (key x = k)) (rev xs).
Proof.
  induction xs as [|x xs IH] using rev_ind; [done|].
  rewrite foldl_app, rev_app_distr. simpl. rewrite al_get_set, IH.
  destruct (decide (k = key x)) as [->|Hk].
  - by rewrite bool_decide_true.
  - rewrite bool_decide_false; [done|congruence].
Qed.

Lemma split_at {A} (l : list A) i x :
  l !! i = Some x ->
  exists l1 l2, l = l1 ++ x :: l2 /\ delete i l = l1 ++ l2 /\
                forall y, <[i := y]> l = l1 ++ y :: l2.
Proof.
  intros H. exists (take i l), (drop (S i) l). split; [by rewrite take_drop_middle|].
  split; [by rewrite delete_take_drop|]. intros y.
  by rewrite insert_take_drop by (by eapply lookup_lt_Some).
Qed.

Lemma elem_of_delete_or {A} (l : list A) i x y :
  l !! i = Some x -> y ∈ l -> y = x \/ y ∈ delete i l.
Proof. intros (l1 & l2 & -> & -> & _)%split_at Hy. set_solver. Qed.

Lemma elem_of_delete {A} (l : list A) i y : y ∈ delete i l -> y ∈ l.
Proof.
  rewrite delete_take_drop, elem_of_app. intros [H|H].
  - by apply (subseteq_take i).
  - by apply (subseteq_drop (S i)).
Qed.

Lemma elem_of_insert_or {A} (l : list A) i x y z :
  l !! i = Some x -> y ∈ l -> y = x \/ y ∈ <[i := z]> l.
Proof. intros (l1 & l2 & -> & _ & ->)%split_at Hy. set_solver. Qed.

Lemma elem_of_insert_inv {A} (l : list A) i y z : y ∈ <[i := z]> l -> y = z \/ y ∈ l.
Proof.
  intros Hy. destruct (l !! i) as [x|] eqn:E; [|rewrite list_insert_ge in Hy; [auto|]].
  - destruct (split_at _ _ _ E) as (l1 & l2 & -> & _ & Hi). rewrite Hi in Hy. set_solver.
  - by apply lookup_ge_None.
Qed.

Lemma elem_of_rev {A} (l : list A) x : x ∈ rev l <-> x ∈ l.
Proof. by rewrite !list_elem_of_In, <- in_rev. Qed.

Lemma js_find_exists {A} (p : A -> bool) l x : x ∈ l -> p x = true -> is_Some (js_find p l).
Proof.
  intros Hx Hp. destruct (js_find p l) eqn:E; [done|].
  rewrite js_find_None in E. apply E in Hx. congruence.
Qed.

Lemma filter_length_perm {A} (p : A -> bool) l k :
  l ≡ₚ k -> length (List.filter p l) = length (List.filter p k).
Proof.
  induction 1 as [|x l k H IH|x y l|l k m H1 IH1 H2 IH2]; simpl; [done| | |congruence].
  - destruct (p x); simpl; congruence.
  - by destruct (p x), (p y).
Qed.

Lemma filter_length_map {A B} (f : A -> B) (p : B -> bool) l :
  length (List.filter p (map f l)) = length (List.filter (fun x => p (f x)) l).
Proof. induction l as [|x l IH]; simpl; [done|]. destruct (p (f x)); simpl; congruence. Qed.

Lemma filter_ext_in_length {A} (p q : A -> bool) l :
  (forall x, x ∈ l -> p x = q x) -> length (List.filter p l) = length (List.filter q l).
Proof.
  intros H. rewrite (List.filter_ext_in p q); [done|].
  intros x Hx. apply H. by apply list_elem_of_In.
Qed.

Lemma elem_of_filter_bool {A} (p : A -> bool) l x : x ∈ List.filter p l <-> x ∈ l /\ p x = true.
Proof. by rewrite !list_elem_of_In, filter_In. Qed.

(** The code's [filter] and stdpp's. *)
Lemma filter_decide_eq {A} (P : A -> Prop) `{forall x, Decision (P x)} l :
  filter P l = List.filter (fun x => bool_decide (P x)) l.
Proof.
  induction l as [|x l IH]; [done|]. rewrite filter_cons. simpl.
  destruct (decide (P x)).
  - rewrite bool_decide_true by done. by rewrite IH.
  - rewrite bool_decide_false by done. done.
Qed.

Lemma NoDup_map_filter {A B} (f : A -> B) (p : A -> bool) l :
  NoDup (map f l) -> NoDup (map f (List.filter p l)).
Proof.
  induction l as [|x l IH]; simpl; [done|]. intros [Hx Hl]%NoDup_cons.
  destruct (p x); simpl; [|by apply IH]. apply NoDup_cons. split; [|by apply IH].
  intros (y & Hy & [Hin _]%elem_of_filter_bool)%list_elem_of_fmap. apply Hx.
  apply list_elem_of_fmap. by exists y.
Qed.

Lemma NoDup_map_inj {A B} (f : A -> B) l x y :
  NoDup (map f l) -> x ∈ l -> y ∈ l -> f x = f y -> x = y.
Proof.
  induction l as [|z l IH]; simpl; [by intros _ ?%elem_of_nil|].
  intros [Hz Hl]%NoDup_cons [->|Hx]%elem_of_cons [->|Hy]%elem_of_cons E; [done| | |by apply IH].
  - destruct Hz. rewrite E. apply list_elem_of_fmap. by exists y.
  - destruct Hz. rewrite <- E. apply list_elem_of_fmap. by exists x.
Qed.

(** Membership of a string in a constant list, [xs.includes(s)]. *)
Definition mem_str (s : string) (l : list string) : bool := bool_decide (s ∈ l).

Lemma mem_str_spec s l : mem_str s l = true <-> s ∈ l.
Proof. apply bool_decide_eq_true. Qed.

(** The tactic of the development for goals decided by case analysis on the
    conditions of the code. *)
Ltac cases :=
  repeat (case_match; simplify_eq/=); try done; try congruence; try naive_solver.
