(* ===== verification/JsNum.v ===== *)
(** JavaScript numbers and JSON values.

    A number is [NaN], an infinity or a rational: the arithmetic of the code
    on memory figures and shares is modelled exactly, the rounding of a double
    product to 53 bits is not.  Negative zero is not distinguished from zero.
    A text column or a request body that the code passes to [JSON.parse] is
    modelled by what the parse yields ([jtext]). *)
From Stdlib Require Export QArith Qround.
From S2P Require Import Prelude.
#[global] Close Scope Q_scope.

(** Stdlib's rationals put their notations in [Q_scope], which stays closed. *)
Inductive num : Type :=
  | NaN
  | Inf (negative : bool)
  | Fin (q : Q).

(** An integer as a number. *)
Definition zn (z : Z) : num := Fin (inject_Z z).

Definition num_add (a b : num) : num :=
  match a, b with
  | NaN, _ | _, NaN => NaN
  | Inf s, Inf t => if Bool.eqb s t then Inf s else NaN
  | Inf s, Fin _ | Fin _, Inf s => Inf s
  | Fin p, Fin q => Fin (p + q)%Q
  end.

Definition q_neg (q : Q) : bool := negb (Qle_bool 0 q).

Definition num_mul (a b : num) : num :=
  match a, b with
  | NaN, _ | _, NaN => NaN
  | Inf s, Inf t => Inf (xorb s t)
  | Inf s, Fin q | Fin q, Inf s => if Qeq_bool q 0 then NaN else Inf (xorb s (q_neg q))
  | Fin p, Fin q => Fin (p * q)%Q
  end.

(** [a <= b]: false as soon as one side is [NaN]. *)
Definition num_le (a b : num) : bool :=
  match a, b with
  | NaN, _ | _, NaN => false
  | Inf true, _ | _, Inf false => true
  | Inf false, _ | _, Inf true => false
  | Fin p, Fin q => Qle_bool p q
  end.

Definition num_lt (a b : num) : bool :=
  match a, b with
  | NaN, _ | _, NaN => false
  | _, _ => negb (num_le b a)
  end.

(** [Math.max] and [Math.min] of two numbers. *)
Definition num_max (a b : num) : num :=
  match a, b with
  | NaN, _ | _, NaN => NaN
  | _, _ => if num_le a b then b else a
  end.

Definition num_min (a b : num) : num :=
  match a, b with
  | NaN, _ | _, NaN => NaN
  | _, _ => if num_le a b then a else b
  end.

(** [Math.round]: the nearest integer, a half going up. *)
Definition round_q (q : Q) : Z := Qfloor (q + (1 # 2)).

Definition num_round (a : num) : num :=
  match a with Fin q => zn (round_q q) | _ => a end.

(** [Number.isFinite] *)
Definition is_finite (a : num) : bool := match a with Fin _ => true | _ => false end.

(** [v || d] on a number: zero and [NaN] are falsy. *)
Definition num_truthy (a : num) : bool :=
  match a with NaN => false | Inf _ => true | Fin q => negb (Qeq_bool q 0) end.

(** At most [k] decimals of [n / d], for [0 <= n < d]. *)
Fixpoint decimals (k : nat) (n d : Z) : string :=
  match k with
  | O => ""
  | S k' => if (n =? 0)%Z then ""
            else String (ascii_of_N (48 + Z.to_N (10 * n / d))) (decimals k' (10 * n mod d) d)
  end.

(** A fraction in positional notation; exact when it has at most 17 decimals. *)
Definition frac_str (q : Q) : string :=
  let n := Z.abs (Qnum q) in let d := Zpos (Qden q) in
  (if (Qnum q <? 0)%Z then "-" else "") +:+ pretty (n / d)%Z +:+ "." +:+ decimals 17 (n mod d) d.

(** [String(n)] of a number JavaScript prints without an exponent. *)
Definition num_str (a : num) : string :=
  match a with
  | NaN => "NaN"
  | Inf true => "-Infinity"
  | Inf false => "Infinity"
  | Fin q => if Qeq_bool q (inject_Z (Qfloor q)) then pretty (Qfloor q) else frac_str q
  end.

Example num_str_ex :
  map num_str [zn 8; Fin (17 # 20); Fin (-1 # 4); zn (-3)] = ["8"; "0.85"; "-0.25"; "-3"].
Proof. by vm_compute. Qed.

(** ** Integers inside the numbers *)

Lemma zn_add a b : num_add (zn a) (zn b) = zn (a + b).
Proof.
  unfold zn, inject_Z. simpl. unfold Qplus. simpl. by rewrite !Z.mul_1_r.
Qed.

Lemma zn_le a b : num_le (zn a) (zn b) = (a <=? b)%Z.
Proof. simpl. unfold Qle_bool. simpl. by rewrite !Z.mul_1_r. Qed.

Lemma zn_lt a b : num_lt (zn a) (zn b) = (a <? b)%Z.
Proof.
  unfold num_lt. change (negb (num_le (zn b) (zn a)) = (a <? b)%Z).
  rewrite zn_le. by rewrite Z.ltb_antisym.
Qed.

Lemma zn_max a b : num_max (zn a) (zn b) = zn (Z.max a b).
Proof.
  change (num_max (zn a) (zn b)) with (if num_le (zn a) (zn b) then zn b else zn a).
  rewrite zn_le. destruct (Z.leb_spec a b); f_equal; f_equal; lia.
Qed.

Lemma zn_min a b : num_min (zn a) (zn b) = zn (Z.min a b).
Proof.
  change (num_min (zn a) (zn b)) with (if num_le (zn a) (zn b) then zn a else zn b).
  rewrite zn_le. destruct (Z.leb_spec a b); f_equal; f_equal; lia.
Qed.

Lemma zn_inj a b : zn a = zn b -> a = b.
Proof. by intros [=]. Qed.

Lemma num_truthy_zn z : num_truthy (zn z) = negb (z =? 0)%Z.
Proof. simpl. unfold Qeq_bool. simpl. by rewrite Z.mul_1_r. Qed.

#[export] Hint Rewrite zn_add zn_le zn_lt zn_max zn_min num_truthy_zn : js_rw.

(** ** Rounding *)

Lemma round_q_mono p q : (p <= q)%Q -> (round_q p <= round_q q)%Z.
Proof. intros H. apply Qfloor_resp_le. by apply Qplus_le_compat; [|apply Qle_refl]. Qed.

Lemma round_q_Z z : round_q (inject_Z z) = z.
Proof.
  change (round_q (inject_Z z)) with ((z * 2 + 1) `div` 2)%Z.
  rewrite Z.add_comm, Z.div_add by lia. done.
Qed.

Global Instance round_q_proper : Proper (Qeq ==> eq) round_q.
Proof. intros p q H. unfold round_q. by rewrite H. Qed.

(** A share of at most a whole keeps a figure within the whole. *)
Lemma round_share_bounds t q :
  (0 <= t)%Z -> (0 <= q)%Q -> (q <= 1)%Q ->
  (0 <= round_q (inject_Z t * q) <= t)%Z.
Proof.
  intros Ht H0 H1.
  assert (0 <= inject_Z t)%Q as Ht' by (change 0%Q with (inject_Z 0); by rewrite <- Zle_Qle).
  split.
  - rewrite <- (round_q_Z 0). apply round_q_mono. change (inject_Z 0) with 0%Q.
    by apply Qmult_le_0_compat.
  - rewrite <- (round_q_Z t) at 2. apply round_q_mono.
    rewrite <- (Qmult_1_r (inject_Z t)) at 2. rewrite !(Qmult_comm (inject_Z t)).
    by apply Qmult_le_compat_r.
Qed.

Lemma round_share_mono t p q :
  (0 <= t)%Z -> (p <= q)%Q -> (round_q (inject_Z t * p) <= round_q (inject_Z t * q))%Z.
Proof.
  intros Ht H. apply round_q_mono. rewrite !(Qmult_comm (inject_Z t)).
  apply Qmult_le_compat_r; [done|].
  change 0%Q with (inject_Z 0). by rewrite <- Zle_Qle.
Qed.

(** * [Number(s)] *)

Definition digit_val (c : ascii) : option Z :=
  let n := Z.of_N (code c) in
  if is_digit c then Some (n - 48)%Z
  else if is_lower c then Some (n - 87)%Z
  else if is_upper c then Some (n - 55)%Z
  else None.

(** The leading run of digits in a base: value, how many, and the rest. *)
Fixpoint digits (base : Z) (acc : Z) (len : nat) (s : string) : Z * nat * string :=
  match s with
  | String c r =>
      match digit_val c with
      | Some d => if (d <? base)%Z then digits base (acc * base + d)%Z (S len) r else (acc, len, s)
      | None => (acc, len, s)
      end
  | EmptyString => (acc, len, s)
  end.

Definition q_pow10 (e : Z) : Q :=
  if (0 <=? e)%Z then inject_Z (10 ^ e) else Qinv (inject_Z (10 ^ (- e))).

(** An exponent part, or nothing; [None] when malformed or trailing. *)
Definition exponent (s : string) : option Z :=
  match s with
  | EmptyString => Some 0%Z
  | String c r =>
      if Ascii.eqb (lower_char c) "e" then
        let '(sign, r') := match r with
          | String "+" t => (1%Z, t) | String "-" t => ((-1)%Z, t) | _ => (1%Z, r) end in
        match digits 10 0 0 r' with
        | (_, O, _) => None
        | (v, S _, EmptyString) => Some (sign * v)%Z
        | _ => None
        end
      else None
  end.

(** An unsigned decimal literal. *)
Definition decimal (s : string) : option Q :=
  let '(i, ni, r) := digits 10 0 0 s in
  let '(f, nf, r') := match r with
    | String "." t => digits 10 0 0 t | _ => (0%Z, 0, r) end in
  if (ni + nf =? 0)%nat then None
  else e ← exponent r';
       Some (Qmult (Qplus (inject_Z i) (Qmult (inject_Z f) (q_pow10 (- Z.of_nat nf)))) (q_pow10 e)).

Definition prefixed (base : Z) (s : string) : num :=
  match digits base 0 0 s with
  | (v, S _, EmptyString) => zn v
  | _ => NaN
  end.

(** [Number(s)] on ASCII text. *)
Definition number_of_string (s : string) : num :=
  match str_trim s with
  | EmptyString => zn 0
  | String "0" (String "x" r) | String "0" (String "X" r) => prefixed 16 r
  | String "0" (String "o" r) | String "0" (String "O" r) => prefixed 8 r
  | String "0" (String "b" r) | String "0" (String "B" r) => prefixed 2 r
  | String "-" r => if String.eqb r "Infinity" then Inf true
                    else match decimal r with Some q => Fin (Qopp q) | None => NaN end
  | String "+" r => if String.eqb r "Infinity" then Inf false
                    else match decimal r with Some q => Fin q | None => NaN end
  | t => if String.eqb t "Infinity" then Inf false
         else match decimal t with Some q => Fin q | None => NaN end
  end.

(** An integral number within a 32-bit integer column. *)
Definition as_int32 (n : num) : option Z :=
  match n with
  | Fin q => let z := Qfloor q in
      if Qeq_bool q (inject_Z z) && (-2147483648 <=? z)%Z && (z <=? 2147483647)%Z
      then Some z else None
  | _ => None
  end.

Lemma as_int32_zn z : (-2147483648 <= z <= 2147483647)%Z -> as_int32 (zn z) = Some z.
Proof.
  intros H. unfold as_int32, zn. rewrite Qfloor_Z.
  replace (Qeq_bool (inject_Z z) (inject_Z z)) with true by (symmetry; by apply Qeq_bool_iff).
  destruct (Z.leb_spec (-2147483648) z); [|lia]. destruct (Z.leb_spec z 2147483647); [done|lia].
Qed.

Lemma as_int32_inv n z :
  as_int32 n = Some z -> (-2147483648 <= z <= 2147483647)%Z.
Proof.
  unfold as_int32. destruct n as [| |q]; [done..|].
  destruct (_ && _ && _) eqn:E; [|done]. intros [= <-].
  rewrite !andb_true_iff, !Z.leb_le in E. lia.
Qed.

Example number_of_string_ex :
  as_int32 <$> map number_of_string ["12"; " 0x1F "; "1.5"; ""; "abc"; "1e2"; "-7"] =
  [Some 12%Z; Some 31%Z; None; Some 0%Z; None; Some 100%Z; Some (-7)%Z].
Proof. by vm_compute. Qed.

(** * JSON *)

Inductive json : Type :=
  | JNull
  | JBool (b : bool)
  | JNum (n : num)
  | JStr (s : string)
  | JArr (l : list json)
  | JObj (l : list (string * json)).

(** What [JSON.parse] makes of a text: a throw, or a value. *)
Definition jtext := option json.

(** The entries of an object, in order; [None] is [undefined]. *)
Definition obj_get : list (string * json) -> string -> option json := al_get.
Definition obj_set : list (string * json) -> string -> json -> list (string * json) := al_set.

(** [{ ...a, ...b }] *)
Definition obj_spread (a b : list (string * json)) : list (string * json) :=
  foldl (fun acc kv => obj_set acc kv.1 kv.2) a b.

(** [v?.[k]]: [undefined] on [null], on [undefined] and on a value without [k]. *)
Definition jget (v : option json) (k : string) : option json :=
  match v with Some (JObj l) => obj_get l k | _ => None end.

Definition jtruthy (v : option json) : bool :=
  match v with
  | None | Some JNull => false
  | Some (JBool b) => b
  | Some (JNum n) => num_truthy n
  | Some (JStr s) => negb (String.eqb s "")
  | Some (JArr _) | Some (JObj _) => true
  end.

(** [a || b] on values. *)
Definition jor (a b : option json) : option json := if jtruthy a then a else b.

(** [a ?? b] on values. *)
Definition jnullish (a b : option json) : option json :=
  match a with None | Some JNull => b | _ => a end.

(** [typeof v === "string"] *)
Definition jstr (v : option json) : option string :=
  match v with Some (JStr s) => Some s | _ => None end.

Definition jnum (v : option json) : option num :=
  match v with Some (JNum n) => Some n | _ => None end.

(** The entries of a value that is an object and not an array. *)
Definition jobj (v : option json) : option (list (string * json)) :=
  match v with Some (JObj l) => Some l | _ => None end.

Lemma obj_get_set l k v j :
  obj_get (obj_set l k v) j = if decide (j = k) then Some v else obj_get l j.
Proof. apply al_get_set. Qed.

Lemma obj_get_spread a b k :
  obj_get (obj_spread a b) k =
  match obj_get (rev b) k with Some v => Some v | None => obj_get a k end.
Proof.
  unfold obj_spread. induction b as [|[k' v'] b IH] using rev_ind; [done|].
  rewrite foldl_app, rev_app_distr. simpl. rewrite obj_get_set.
  destruct (decide (k = k')); [done|apply IH].
Qed.
