(* ===== verification/Schema.v ===== *)
(** The tables of [prisma/schema.prisma] that the modelled handlers read and
    write, and the Prisma queries they use.

    A table is the list of its rows in the order a scan returns them.  A
    [where] on the id is [tbl_find]; [findMany] is [filter], followed by
    [js_sort] when the query has an [orderBy]; [update] on a row that does not
    exist throws ([None]), [updateMany] does not.  Columns no modelled code
    reads are left out; a JSON text column is an [option jtext], [None] being
    SQL's [NULL] or the empty text, both of which the code treats as absent. *)
From S2P Require Import Prelude JsNum.

(** What makes a record a row: its primary key. *)
Class HasId (A : Type) := row_id : A -> string.

Section Table.
Context {A : Type} `{HasId A}.

Definition tbl_find (id : string) (t : list A) : option A :=
  js_find (fun r => String.eqb (row_id r) id) t.

Definition tbl_update (id : string) (f : A -> A) (t : list A) : list A :=
  map (fun r => if String.eqb (row_id r) id then f r else r) t.

Definition tbl_delete (id : string) (t : list A) : list A :=
  List.filter (fun r => negb (String.eqb (row_id r) id)) t.

Lemma tbl_find_Some id t r : tbl_find id t = Some r -> r ∈ t /\ row_id r = id.
Proof. intros [? ?%String.eqb_eq]%js_find_Some. done. Qed.

Lemma tbl_find_None id t : tbl_find id t = None <-> forall r, r ∈ t -> row_id r <> id.
Proof.
  unfold tbl_find. rewrite js_find_None.
  split; intros Hn r Hr; specialize (Hn r Hr); [by apply String.eqb_neq|by apply String.eqb_neq].
Qed.

Lemma elem_of_tbl_delete id t r : r ∈ tbl_delete id t <-> r ∈ t /\ row_id r <> id.
Proof.
  unfold tbl_delete. rewrite !list_elem_of_In, filter_In, negb_true_iff, String.eqb_neq. done.
Qed.

Lemma tbl_find_delete id t j :
  j <> id -> tbl_find j (tbl_delete id t) = tbl_find j t.
Proof.
  intros Hj. unfold tbl_find, tbl_delete. induction t as [|r t IH]; [done|]. simpl.
  destruct (String.eqb (row_id r) id) eqn:E; simpl; rewrite IH; [|done].
  apply String.eqb_eq in E. assert (String.eqb (row_id r) j = false) as ->; [|done].
  apply String.eqb_neq. congruence.
Qed.

(** The primary key identifies a row. *)
Lemma tbl_find_row t r : NoDup (map row_id t) -> r ∈ t -> tbl_find (row_id r) t = Some r.
Proof.
  unfold tbl_find. induction t as [|x t IH]; simpl; [by intros _ ?%elem_of_nil|].
  intros [Hx Hnd]%NoDup_cons [->|Hr]%elem_of_cons; [by rewrite String.eqb_refl|].
  destruct (String.eqb (row_id x) (row_id r)) eqn:E; [|by apply IH].
  apply String.eqb_eq in E. destruct Hx. rewrite E. apply list_elem_of_fmap. by exists r.
Qed.

Lemma row_id_inj t a b :
  NoDup (map row_id t) -> a ∈ t -> b ∈ t -> row_id a = row_id b -> a = b.
Proof.
  intros Hnd Ha Hb E. apply (tbl_find_row _ _ Hnd) in Ha, Hb. rewrite E in Ha. congruence.
Qed.

Section Update.
Context (id : string) (f : A -> A) (f_id : forall r, row_id (f r) = row_id r).

Lemma tbl_find_update t j :
  tbl_find j (tbl_update id f t) =
  if String.eqb j id then f <$> tbl_find j t else tbl_find j t.
Proof using f_id.
  unfold tbl_find. induction t as [|r t IH]; [by destruct (String.eqb j id)|]. simpl.
  destruct (String.eqb (row_id r) id) eqn:E; simpl; rewrite ?f_id, ?IH.
  - apply String.eqb_eq in E. destruct (String.eqb (row_id r) j) eqn:F.
    + apply String.eqb_eq in F. assert (String.eqb j id = true) as ->; [|done].
      apply String.eqb_eq. congruence.
    + done.
  - destruct (String.eqb (row_id r) j) eqn:F; [|done].
    apply String.eqb_eq in F. apply String.eqb_neq in E.
    assert (String.eqb j id = false) as ->; [|done]. apply String.eqb_neq. congruence.
Qed.

Lemma tbl_update_ids t : map row_id (tbl_update id f t) = map row_id t.
Proof using f_id.
  unfold tbl_update. rewrite map_map. apply map_ext. intros r.
  by destruct (String.eqb (row_id r) id).
Qed.
End Update.

Lemma elem_of_tbl_update id f t r :
  r ∈ tbl_update id f t <->
  exists r0, r0 ∈ t /\ r = if String.eqb (row_id r0) id then f r0 else r0.
Proof.
  unfold tbl_update. rewrite list_elem_of_fmap. naive_solver.
Qed.
End Table.

#[export] Hint Rewrite @tbl_find_update using done : js_rw.

(** ** Rows *)

Record node := Node {
  n_id : string; n_name : string; n_ipAddress : option string;
  n_status : string; n_powerState : string; n_role : option string;
  n_vramTotal : option Z; n_arch : option string; n_gpuModel : option string;
  n_agentVersion : option string; n_lastSeen : option Z;
  n_fastIpAddress : option string; n_provisionStatus : string; n_dockerAvailable : bool;
  n_ollamaInstalled : bool; n_macAddress : option string }.

Record model_row := ModelRow {
  m_id : string; m_name : string; m_runtime : string; m_finetuneJobId : option string }.

Record deployment := Deployment {
  d_id : string; d_displayName : option string; d_nodeId : string; d_modelId : string;
  d_status : string; d_error : option string; d_port : option Z;
  d_publishedName : option string; d_config : option jtext; d_clusterMode : bool;
  d_vramEstimate : option Z; d_vramActual : option Z; d_createdAt : Z }.

Record cluster_node := ClusterNode {
  cn_id : string; cn_deploymentId : string; cn_nodeId : string;
  cn_role : string; cn_status : string }.

Record metric_row := MetricRow {
  mt_id : string; mt_nodeId : string; mt_vramUsed : Z; mt_tps : option Q; mt_timestamp : Z;
  mt_sshdConns : option Z; mt_tempC : option Z }.

Record finetune_job := FineTuneJob {
  f_id : string; f_nodeId : string; f_displayName : option string; f_status : string;
  f_mergeStatus : option string; f_quantizationStatus : option string;
  f_clusterNodeIds : list string; f_recipeFile : option string; f_baseModel : string;
  f_method : string; f_dataset : string; f_config : option jtext;
  f_progress : option num; f_outputDir : option string; f_outputPath : option string;
  f_logs : option string; f_completedAt : option Z; f_mergedPath : option string;
  f_quantizedPath : option string; f_quantizationLog : option string; f_quantizedAt : option Z;
  f_deploymentId : option string }.

#[export] Instance node_hasid : HasId node := n_id.
#[export] Instance model_hasid : HasId model_row := m_id.
#[export] Instance deployment_hasid : HasId deployment := d_id.
#[export] Instance cluster_node_hasid : HasId cluster_node := cn_id.
#[export] Instance metric_hasid : HasId metric_row := mt_id.
#[export] Instance finetune_hasid : HasId finetune_job := f_id.

Record db := Db {
  nodes : list node; models : list model_row; deployments : list deployment;
  clusterNodes : list cluster_node; metrics : list metric_row;
  finetuneJobs : list finetune_job }.

(** Replace one table. *)
Definition db_deployments (f : list deployment -> list deployment) (s : db) : db :=
  Db (nodes s) (models s) (f (deployments s)) (clusterNodes s) (metrics s) (finetuneJobs s).
Definition db_nodes (f : list node -> list node) (s : db) : db :=
  Db (f (nodes s)) (models s) (deployments s) (clusterNodes s) (metrics s) (finetuneJobs s).
Definition db_models (f : list model_row -> list model_row) (s : db) : db :=
  Db (nodes s) (f (models s)) (deployments s) (clusterNodes s) (metrics s) (finetuneJobs s).
Definition db_clusterNodes (f : list cluster_node -> list cluster_node) (s : db) : db :=
  Db (nodes s) (models s) (deployments s) (f (clusterNodes s)) (metrics s) (finetuneJobs s).
Definition db_jobs (f : list finetune_job -> list finetune_job) (s : db) : db :=
  Db (nodes s) (models s) (deployments s) (clusterNodes s) (metrics s) (f (finetuneJobs s)).
Definition db_metrics (f : list metric_row -> list metric_row) (s : db) : db :=
  Db (nodes s) (models s) (deployments s) (clusterNodes s) (f (metrics s)) (finetuneJobs s).

(** One column of the [data] of an update of a job. *)
Inductive job_col :=
  | JobName (v : option string) | JobStatus (v : string) | JobMergeStatus (v : option string)
  | JobQuantStatus (v : option string) | JobCluster (v : list string) | JobProgress (v : num)
  | JobOutputDir (v : string) | JobOutputPath (v : option string) | JobLogs (v : string)
  | JobCompletedAt (v : Z) | JobMergedPath (v : option string) | JobQuantPath (v : option string)
  | JobQuantLog (v : option string) | JobQuantAt (v : option Z) | JobDeployment (v : string).

Definition job_set (c : job_col) (j : finetune_job) : finetune_job :=
  let 'FineTuneJob i n dn st ms qs cl rf bm me ds cf pr od op lg ca mp qp ql qa de := j in
  match c with
  | JobName v => FineTuneJob i n v st ms qs cl rf bm me ds cf pr od op lg ca mp qp ql qa de
  | JobStatus v => FineTuneJob i n dn v ms qs cl rf bm me ds cf pr od op lg ca mp qp ql qa de
  | JobMergeStatus v => FineTuneJob i n dn st v qs cl rf bm me ds cf pr od op lg ca mp qp ql qa de
  | JobQuantStatus v => FineTuneJob i n dn st ms v cl rf bm me ds cf pr od op lg ca mp qp ql qa de
  | JobCluster v => FineTuneJob i n dn st ms qs v rf bm me ds cf pr od op lg ca mp qp ql qa de
  | JobProgress v => FineTuneJob i n dn st ms qs cl rf bm me ds cf (Some v) od op lg ca mp qp ql qa de
  | JobOutputDir v => FineTuneJob i n dn st ms qs cl rf bm me ds cf pr (Some v) op lg ca mp qp ql qa de
  | JobOutputPath v => FineTuneJob i n dn st ms qs cl rf bm me ds cf pr od v lg ca mp qp ql qa de
  | JobLogs v => FineTuneJob i n dn st ms qs cl rf bm me ds cf pr od op (Some v) ca mp qp ql qa de
  | JobCompletedAt v => FineTuneJob i n dn st ms qs cl rf bm me ds cf pr od op lg (Some v) mp qp ql qa de
  | JobMergedPath v => FineTuneJob i n dn st ms qs cl rf bm me ds cf pr od op lg ca v qp ql qa de
  | JobQuantPath v => FineTuneJob i n dn st ms qs cl rf bm me ds cf pr od op lg ca mp v ql qa de
  | JobQuantLog v => FineTuneJob i n dn st ms qs cl rf bm me ds cf pr od op lg ca mp qp v qa de
  | JobQuantAt v => FineTuneJob i n dn st ms qs cl rf bm me ds cf pr od op lg ca mp qp ql v de
  | JobDeployment v => FineTuneJob i n dn st ms qs cl rf bm me ds cf pr od op lg ca mp qp ql qa (Some v)
  end.

Definition patch_job (cs : list job_col) (j : finetune_job) : finetune_job :=
  foldl (fun j c => job_set c j) j cs.

Lemma job_set_id c j : f_id (job_set c j) = f_id j.
Proof. by destruct c, j. Qed.

Lemma patch_job_id cs j : row_id (patch_job cs j) = row_id j.
Proof.
  unfold row_id, finetune_hasid, patch_job. revert j.
  induction cs as [|c cs IH]; intros j; simpl; [done|]. by rewrite IH, job_set_id.
Qed.

(** The [data] of an update of a deployment: [None] leaves the column. *)
Record dep_patch := DepPatch {
  p_status : option string; p_error : option (option string); p_port : option Z;
  p_publishedName : option (option string); p_config : option jtext;
  p_vramActual : option (option Z); p_displayName : option (option string) }.

Definition no_patch : dep_patch := DepPatch None None None None None None None.

Definition patch_deployment (p : dep_patch) (d : deployment) : deployment :=
  Deployment (d_id d) (default (d_displayName d) (p_displayName p)) (d_nodeId d) (d_modelId d)
    (default (d_status d) (p_status p))
    (default (d_error d) (p_error p))
    (match p_port p with Some v => Some v | None => d_port d end)
    (default (d_publishedName d) (p_publishedName p))
    (match p_config p with Some v => Some v | None => d_config d end)
    (d_clusterMode d) (d_vramEstimate d)
    (default (d_vramActual d) (p_vramActual p)) (d_createdAt d).

Lemma patch_deployment_id p d : row_id (patch_deployment p d) = row_id d.
Proof. done. Qed.

(** [prisma.deployment.update({ where: { id }, data })] *)
Definition deployment_update (id : string) (p : dep_patch) (s : db) : option db :=
  match tbl_find id (deployments s) with
  | Some _ => Some (db_deployments (tbl_update id (patch_deployment p)) s)
  | None => None
  end.

Lemma deployment_update_find id p s s' j :
  deployment_update id p s = Some s' ->
  tbl_find j (deployments s') =
  if String.eqb j id then patch_deployment p <$> tbl_find j (deployments s)
  else tbl_find j (deployments s).
Proof.
  unfold deployment_update. destruct (tbl_find id _); intros [= <-]. simpl.
  by rewrite tbl_find_update.
Qed.

(** Rows referenced by a foreign key. *)
Definition node_of (s : db) (d : deployment) : option node := tbl_find (d_nodeId d) (nodes s).
Definition model_of (s : db) (d : deployment) : option model_row :=
  tbl_find (d_modelId d) (models s).
