(* ===== verification/Admission.v ===== *)
(** VRAM, architecture and role admission.

    [Module Vram] is [admission/vram.ts]: the pure decision on one node's
    snapshot, the reclaim a restart is credited with, the refusal message and
    the orchestrator that reads the tables.  [Module Arch] is
    [admission/recipe-arch.ts], [Module Role] is [nodes/role.ts].  Memory
    figures are whole megabytes ([Z]: they come from integer columns and from
    [Math.round]); a share is a [num], since a request body can carry any. *)
From Stdlib Require Import Qminmax.
From S2P Require Import Prelude JsNum Schema.

Module Vram.

Record VramConflict := {
  vc_id : string; vc_name : option string; vc_status : string; vc_finetune : bool;
  vc_vramActualMB : option Z; vc_vramEstimateMB : option Z }.

Record RestartingDeployment := {
  deploymentId : string; authorisedGpuMemUtil : num }.

Record VramShortfall := {
  vs_nodeId : string; vs_nodeName : option string; vs_vramTotalMB : Z;
  vs_vramUsedMB : Z; vs_vramAvailableMB : Z; vs_vramRequestedMB : num;
  vs_vramThresholdMB : num; vs_vramSafetyMarginMB : num; vs_conflicts : list VramConflict }.

Record NodeSnapshot := {
  ns_nodeId : string; ns_nodeName : option string; ns_vramTotalMB : Z; ns_vramUsedMB : Z;
  ns_reclaimableMB : option Z; ns_conflicts : list VramConflict }.

Definition SAFETY_MARGIN_FRACTION : num := Fin (5 # 100).
Definition DEFAULT_VRAM_TOTAL_MB : Z := 128000.
Definition DEFAULT_GPU_MEM_UTIL : num := Fin (85 # 100).

Definition ACTIVE_DEPLOYMENT_STATUSES : list string :=
  ["pending"; "running"; "starting"; "building"; "downloading"; "launching"; "loading";
   "restarting"].

Definition FINETUNE_HOLDING_STATUSES : list string :=
  ["pending"; "starting"; "running"; "stopping"].

Definition opt_is (o : option string) (s : string) : bool :=
  match o with Some x => String.eqb x s | None => false end.

Definition fineTuneHoldingStatus (job : finetune_job) : option string :=
  if opt_is (f_mergeStatus job) "running" then Some "merging"
  else if opt_is (f_quantizationStatus job) "quantizing" then Some "quantizing"
  else if mem_str (f_status job) FINETUNE_HOLDING_STATUSES then Some (f_status job)
  else None.

Definition isUsableShare (value : option json) : bool :=
  match value with
  | Some (JNum n) => is_finite n && num_lt (zn 0) n && num_le n (zn 1)
  | _ => false
  end.

Fixpoint firstUsableShare (candidates : list (option json)) : num :=
  match candidates with
  | [] => DEFAULT_GPU_MEM_UTIL
  | candidate :: rest =>
      match candidate with
      | Some (JNum n) => if isUsableShare candidate then n else firstUsableShare rest
      | _ => firstUsableShare rest
      end
  end.

(** [Math.round(total * share)] for a share already known to be finite. *)
Definition share_MB (total : Z) (q : Q) : Z := round_q (inject_Z total * q).

(** [Math.min(1, Math.max(0, q))] *)
Definition clamp01 (q : Q) : Q :=
  let q' := if Qle_bool 0 q then q else 0%Q in
  if Qle_bool 1 q' then 1%Q else q'.

Definition reclaimForRestart (nodeReadingMB vramTotalMB : Z) (util : num) : Z :=
  match util with
  | Fin q => Z.max 0 (Z.min (share_MB vramTotalMB (clamp01 q)) nodeReadingMB)
  | _ => 0
  end.

Definition computeVramShortfall (snapshot : NodeSnapshot) (gpuMemUtil : num)
    (safetyMarginFraction : num) : option VramShortfall :=
  let vramTotal := ns_vramTotalMB snapshot in
  let reclaimable := Z.max 0 (default 0%Z (ns_reclaimableMB snapshot)) in
  let vramUsed := Z.max 0 (ns_vramUsedMB snapshot - reclaimable) in
  let vramAvailable := Z.max 0 (vramTotal - vramUsed) in
  let vramRequested := num_round (num_mul (zn vramTotal) gpuMemUtil) in
  let safetyMargin := num_round (num_mul (zn vramTotal) safetyMarginFraction) in
  let vramThreshold := num_add vramRequested safetyMargin in
  if num_le vramThreshold (zn vramAvailable) then None
  else Some {| vs_nodeId := ns_nodeId snapshot; vs_nodeName := ns_nodeName snapshot;
               vs_vramTotalMB := vramTotal; vs_vramUsedMB := vramUsed;
               vs_vramAvailableMB := vramAvailable; vs_vramRequestedMB := vramRequested;
               vs_vramThresholdMB := vramThreshold; vs_vramSafetyMarginMB := safetyMargin;
               vs_conflicts := ns_conflicts snapshot |}.

(** [c.name || c.id.slice(0, 8)] *)
Definition holder_label (c : VramConflict) : string :=
  js_or (vc_name c) (str_take 8 (vc_id c)).

Definition describeHolder (c : VramConflict) : string :=
  if vc_finetune c
  then holder_label c +:+ " (" +:+ vc_status c +:+ ", fine-tune job)"
  else holder_label c +:+ " (" +:+ vc_status c +:+ ")".

(** [Math.round(x / 1024)], printed. *)
Definition gb (x : num) : string := num_str (num_round (num_mul x (Fin (1 # 1024)))).

(** The em dash of the message, in UTF-8. *)
Definition em_dash : string :=
  String (ascii_of_nat 226) (String (ascii_of_nat 128) (String (ascii_of_nat 148) "")).

Definition shortfallText (s : VramShortfall) : string :=
  let nodeLabel := js_or (vs_nodeName s) (str_take 12 (vs_nodeId s)) in
  let conflictPart :=
    match vs_conflicts s with
    | [] => ""
    | cs => " " +:+ em_dash +:+ " held by: " +:+ str_join ", " (map describeHolder cs)
    end in
  nodeLabel +:+ ": needs " +:+ gb (vs_vramThresholdMB s) +:+ " GB free (" +:+
  gb (vs_vramRequestedMB s) +:+ " GB requested + " +:+ gb (vs_vramSafetyMarginMB s) +:+
  " GB safety margin) but only " +:+ gb (zn (vs_vramAvailableMB s)) +:+ " GB free of " +:+
  gb (zn (vs_vramTotalMB s)) +:+ " GB" +:+ conflictPart.

Definition vramShortfallMessage (shortfalls : list VramShortfall) : string :=
  match shortfalls with
  | [] => ""
  | _ => str_join "; " (map shortfallText shortfalls) +:+
         ". Free memory on the node (stop a holder), or ask for a smaller share with config.gpuMem"
  end.

(** ** What holds a node *)

(** [status in ACTIVE], and not the deployment the caller excludes. *)
Definition active_other (exclude : option string) (d : deployment) : bool :=
  mem_str (d_status d) ACTIVE_DEPLOYMENT_STATUSES &&
  match truthy exclude with Some x => negb (String.eqb (d_id d) x) | None => true end.

Definition soloConflicts (s : db) (nodeId : string) (exclude : option string) : list deployment :=
  List.filter (fun d => String.eqb (d_nodeId d) nodeId && active_other exclude d) (deployments s).

(** The deployments of the node's cluster rows, a row at a time. *)
Definition clusterConflicts (s : db) (nodeId : string) (exclude : option string) : list deployment :=
  omap (fun cn =>
          if String.eqb (cn_nodeId cn) nodeId then
            match tbl_find (cn_deploymentId cn) (deployments s) with
            | Some d => if active_other exclude d then Some d else None
            | None => None
            end
          else None) (clusterNodes s).

Definition deploymentConflict (s : db) (d : deployment) : VramConflict :=
  {| vc_id := d_id d; vc_name := m_name <$> model_of s d; vc_status := d_status d;
     vc_finetune := false; vc_vramActualMB := d_vramActual d;
     vc_vramEstimateMB := d_vramEstimate d |}.

(** The body of both loops over deployments: [seen] and [conflicts]. *)
Definition pushUnseen (s : db) (acc : list string * list VramConflict) (d : deployment) :
    list string * list VramConflict :=
  if mem_str (d_id d) acc.1 then acc
  else (d_id d :: acc.1, acc.2 ++ [deploymentConflict s d]).

Definition jobConflict (job : finetune_job) : option VramConflict :=
  holding ← fineTuneHoldingStatus job;
  if String.eqb holding "" then None
  else Some {| vc_id := f_id job;
               vc_name := Some (js_or (f_displayName job) ("finetune-" +:+ str_take 8 (f_id job)));
               vc_status := holding; vc_finetune := true;
               vc_vramActualMB := None; vc_vramEstimateMB := None |}.

Definition jobsOnNode (s : db) (nodeId : string) : list finetune_job :=
  List.filter (fun j => String.eqb (f_nodeId j) nodeId || mem_str nodeId (f_clusterNodeIds j))
    (finetuneJobs s).

Definition loadConflicts (s : db) (nodeId : string) (exclude : option string) :
    list VramConflict :=
  let pushed := foldl (pushUnseen s) ([], [])
                  (soloConflicts s nodeId exclude ++ clusterConflicts s nodeId exclude) in
  pushed.2 ++ omap jobConflict (jobsOnNode s nodeId).

(** ** The orchestrator *)

(** The node's newest metric row. *)
Definition latestMetric (s : db) (nid : string) : option metric_row :=
  head (js_sort (fun a b => (mt_timestamp b <=? mt_timestamp a)%Z)
          (List.filter (fun m => String.eqb (mt_nodeId m) nid) (metrics s))).

(** [node.vramTotal || DEFAULT_VRAM_TOTAL_MB] *)
Definition nodeTotalMB (n : node) : Z :=
  match n_vramTotal n with Some z => if (z =? 0)%Z then DEFAULT_VRAM_TOTAL_MB else z
                         | None => DEFAULT_VRAM_TOTAL_MB end.

(** [latestMetric?.vramUsed || 0] *)
Definition nodeReadingMB (s : db) (nid : string) : Z :=
  match latestMetric s nid with Some m => mt_vramUsed m | None => 0 end.

(** [restarting ? reclaimForRestart(...) : 0] *)
Definition restartReclaim (used total : Z) (restarting : option RestartingDeployment) : Z :=
  match restarting with
  | Some r => reclaimForRestart used total (authorisedGpuMemUtil r)
  | None => 0%Z
  end.

Definition admissionSnapshot (s : db) (n : node) (nid : string)
    (restarting : option RestartingDeployment) : NodeSnapshot :=
  let total := nodeTotalMB n in
  let used := nodeReadingMB s nid in
  {| ns_nodeId := nid; ns_nodeName := Some (n_name n); ns_vramTotalMB := total;
     ns_vramUsedMB := used;
     ns_reclaimableMB := Some (restartReclaim used total restarting);
     ns_conflicts := loadConflicts s nid (deploymentId <$> restarting) |}.

Definition checkNode (s : db) (requested : num) (restarting : option RestartingDeployment)
    (nid : string) : option VramShortfall :=
  n ← tbl_find nid (nodes s);
  computeVramShortfall (admissionSnapshot s n nid restarting) requested SAFETY_MARGIN_FRACTION.

Definition checkVllmVramAdmission (s : db) (nodeIds : list string) (requested : num)
    (restarting : option RestartingDeployment) : list VramShortfall :=
  omap (checkNode s requested restarting) nodeIds.

(** ** The share arithmetic *)

Lemma clamp01_bounds q : (0 <= clamp01 q)%Q /\ (clamp01 q <= 1)%Q.
Proof.
  unfold clamp01. destruct (Qle_bool 0 q) eqn:E0.
  - apply Qle_bool_iff in E0. destruct (Qle_bool 1 q) eqn:E1; [done|].
    split; [done|]. apply Qnot_lt_le. intros H%Qlt_le_weak.
    apply Qle_bool_iff in H. congruence.
  - destruct (Qle_bool 1 0) eqn:E; done.
Qed.

Lemma clamp01_share q : (0 <= q)%Q -> (q <= 1)%Q -> (clamp01 q == q)%Q.
Proof.
  intros H0 H1. unfold clamp01. apply Qle_bool_iff in H0 as ->.
  destruct (Qle_bool 1 q) eqn:E; [|done]. apply Qle_bool_iff in E. by apply Qle_antisym.
Qed.

(** The figures a finite share gives. *)
Lemma round_share t q : num_round (num_mul (zn t) (Fin q)) = zn (share_MB t q).
Proof. done. Qed.

Lemma isUsableShare_spec v :
  isUsableShare v = true <-> exists q, v = Some (JNum (Fin q)) /\ (0 < q)%Q /\ (q <= 1)%Q.
Proof.
  destruct v as [[| |[|b|q]| | |]|]; simpl; split; try done; try (by intros (?&[=]&_)).
  - intros [H0 H1]%andb_prop. exists q. split; [done|]. split.
    + apply Qnot_le_lt. intros H. apply Qle_bool_iff in H.
      change (negb (Qle_bool q 0) = true) in H0. by rewrite H in H0.
    + by apply Qle_bool_iff.
  - intros (r & [= <-] & H0 & H1). apply andb_true_iff. split.
    + change (negb (Qle_bool q 0) = true). apply negb_true_iff, not_true_iff_false. intros H.
      apply Qle_bool_iff in H. by apply Qle_not_lt in H.
    + by apply Qle_bool_iff.
Qed.

(** ** The deployments pushed by the two loops *)

Lemma pushUnseen_foldl s ds acc :
  let r := foldl (pushUnseen s) acc ds in
  (forall x, x ∈ r.1 <-> x ∈ acc.1 \/ x ∈ map d_id ds) /\
  (forall c, c ∈ r.2 -> c ∈ acc.2 \/ exists d, d ∈ ds /\ c = deploymentConflict s d) /\
  (NoDup (map vc_id acc.2) -> (forall x, x ∈ map vc_id acc.2 <-> x ∈ acc.1) ->
   NoDup (map vc_id r.2) /\ (forall x, x ∈ map vc_id r.2 <-> x ∈ r.1)).
Proof.
  revert acc. induction ds as [|d ds IH]; intros acc; simpl.
  { split; [set_solver|]. split; [by left|done]. }
  destruct (IH (pushUnseen s acc d)) as (H1 & H2 & H3). clear IH.
  unfold pushUnseen in H1, H2, H3 |- *.
  destruct (mem_str (d_id d) acc.1) eqn:E; simpl in *.
  - apply mem_str_spec in E. split; [|split; [|done]].
    + intros x. rewrite H1, elem_of_cons. naive_solver.
    + intros c [Hc|(d' & Hd & ->)]%H2; [by left|]. right. exists d'. set_solver.
  - split; [|split].
    + intros x. rewrite H1, !elem_of_cons. naive_solver.
    + intros c [[Hc|Hc%list_elem_of_singleton]%elem_of_app|(d' & Hd & ->)]%H2;
        [by left| |]; right; [exists d|exists d']; set_solver.
    + intros Hnd Hids. apply H3.
      * rewrite map_app. simpl. apply NoDup_app. split; [done|]. split; [|apply NoDup_singleton].
        intros x Hx ->%list_elem_of_singleton. apply Hids, mem_str_spec in Hx. congruence.
      * intros x. rewrite map_app, elem_of_app, elem_of_cons, Hids. simpl.
        rewrite list_elem_of_singleton. naive_solver.
Qed.

Lemma elem_of_soloConflicts s nid ex d :
  d ∈ soloConflicts s nid ex <->
  d ∈ deployments s /\ d_nodeId d = nid /\ active_other ex d = true.
Proof.
  unfold soloConflicts. rewrite !list_elem_of_In, filter_In, andb_true_iff, String.eqb_eq. done.
Qed.

Lemma elem_of_clusterConflicts s nid ex d :
  d ∈ clusterConflicts s nid ex <->
  exists cn, cn ∈ clusterNodes s /\ cn_nodeId cn = nid /\
             tbl_find (cn_deploymentId cn) (deployments s) = Some d /\ active_other ex d = true.
Proof.
  unfold clusterConflicts. rewrite list_elem_of_omap. split.
  - intros (cn & Hcn & H). destruct (String.eqb (cn_nodeId cn) nid) eqn:E; [|done].
    apply String.eqb_eq in E. destruct (tbl_find _ _) as [d'|] eqn:F; [|done].
    destruct (active_other ex d') eqn:G; [|done]. injection H as ->. by exists cn.
  - intros (cn & Hcn & E & F & G). exists cn. split; [done|].
    apply String.eqb_eq in E. by rewrite E, F, G.
Qed.

(** [computeVramShortfall] admits exactly when the free memory clears
    request plus margin.  For a finite share it returns null iff
    [available >= round(total * share) + round(total * margin)], where
    [available] discounts the (non-negative) reclaim and never goes below zero;
    otherwise the shortfall carries those very figures and the snapshot's
    holders.  A share that is [NaN] is always refused. *)
Theorem computeVramShortfall_spec snapshot share margin :
  let total := ns_vramTotalMB snapshot in
  let used := Z.max 0 (ns_vramUsedMB snapshot - Z.max 0 (default 0%Z (ns_reclaimableMB snapshot))) in
  let available := Z.max 0 (total - used) in
  let requested := share_MB total share in
  let threshold := (requested + share_MB total margin)%Z in
  computeVramShortfall snapshot (Fin share) (Fin margin) =
    (if (threshold <=? available)%Z then None
     else Some (Build_VramShortfall (ns_nodeId snapshot) (ns_nodeName snapshot) total used
                  available (zn requested) (zn threshold) (zn (share_MB total margin))
                  (ns_conflicts snapshot))) /\
  (forall v, computeVramShortfall snapshot (Fin share) (Fin margin) = Some v ->
     num_lt (zn (vs_vramAvailableMB v)) (vs_vramThresholdMB v) = true) /\
  is_Some (computeVramShortfall snapshot NaN (Fin margin)).
Proof.
  intros total used available requested threshold.
  assert (computeVramShortfall snapshot (Fin share) (Fin margin) =
    (if (threshold <=? available)%Z then None
     else Some (Build_VramShortfall (ns_nodeId snapshot) (ns_nodeName snapshot) total used
                  available (zn requested) (zn threshold) (zn (share_MB total margin))
                  (ns_conflicts snapshot)))) as Heq.
  { unfold computeVramShortfall. by rewrite !round_share, zn_add, zn_le. }
  split; [done|]. split; [|by eexists].
  intros v. rewrite Heq. destruct (Z.leb_spec threshold available) as [|Hlt]; intros [= <-].
  simpl vs_vramAvailableMB. simpl vs_vramThresholdMB. rewrite zn_lt. by apply Z.ltb_lt.
Qed.

(** The reclaim of a restart never exceeds what the deployment could have
    been holding: it is at most the node reading, at most the authorised share
    and at most the node; it is never negative, zero for a share that is not
    finite, grows with the share, and is exactly
    [min(round(total * share), reading)] for a usable share. *)
Theorem reclaimForRestart_bounded reading total util :
  (0 <= reading)%Z -> (0 <= total)%Z ->
  (0 <= reclaimForRestart reading total util <= reading)%Z /\
  (reclaimForRestart reading total util <= total)%Z /\
  (is_finite util = false -> reclaimForRestart reading total util = 0%Z) /\
  (isUsableShare (Some (JNum util)) = true ->
   exists q, util = Fin q /\
     reclaimForRestart reading total util = Z.min (share_MB total q) reading) /\
  (forall p q, (0 <= p)%Q -> (p <= q)%Q -> (q <= 1)%Q ->
     (reclaimForRestart reading total (Fin p) <= reclaimForRestart reading total (Fin q))%Z).
Proof.
  intros Hr Ht.
  assert (forall q, (0 <= share_MB total (clamp01 q) <= total)%Z) as Hb.
  { intros q. destruct (clamp01_bounds q). by apply round_share_bounds. }
  assert (forall q, (0 <= q)%Q -> (q <= 1)%Q ->
            share_MB total (clamp01 q) = share_MB total q) as Hc.
  { intros q H0 H1. unfold share_MB. by rewrite clamp01_share. }
  repeat split.
  - destruct util as [| |q]; simpl; lia.
  - destruct util as [| |q]; simpl; try lia. 
  - destruct util as [| |q]; simpl; try lia. specialize (Hb q). lia.
  - by destruct util.
  - intros (q & [= ->] & H0 & H1)%isUsableShare_spec. exists q. split; [done|].
    simpl. apply Qlt_le_weak in H0. specialize (Hb q). rewrite Hc in Hb |- * by done. lia.
  - intros p q H0 Hpq H1. simpl.
    rewrite !Hc by (done || by eapply Qle_trans).
    assert (share_MB total p <= share_MB total q)%Z by (by apply round_share_mono). lia.
Qed.

Lemma restartReclaim_nonneg used total restarting : (0 <= restartReclaim used total restarting)%Z.
Proof. destruct restarting as [[? [| |]]|]; simpl; lia. Qed.

Lemma checkNode_None s share restarting nid n :
  tbl_find nid (nodes s) = Some n ->
  checkNode s (Fin share) restarting nid = None <->
  (share_MB (nodeTotalMB n) share + share_MB (nodeTotalMB n) (5 # 100) <=
   Z.max 0 (nodeTotalMB n - Z.max 0 (nodeReadingMB s nid -
     restartReclaim (nodeReadingMB s nid) (nodeTotalMB n) restarting)))%Z.
Proof.
  intros Hn. unfold checkNode. rewrite Hn. unfold mbind, option_bind.
  unfold computeVramShortfall, SAFETY_MARGIN_FRACTION.
  rewrite !round_share, zn_add, zn_le. unfold admissionSnapshot.
  cbn [ns_vramTotalMB ns_vramUsedMB ns_reclaimableMB from_option id].
  rewrite (Z.max_r 0 _ (restartReclaim_nonneg _ _ _)).
  match goal with |- context [(?a <=? ?b)%Z] => destruct (Z.leb_spec a b) end;
    split; (done || lia).
Qed.

(** The credit spelled out: [min(max(0, share), 1)] of the node, no more than its
    reading, never negative, nothing for a share that is not finite or without a
    restart. *)
Lemma restartReclaim_eq used total restarting :
  restartReclaim used total restarting =
  match authorisedGpuMemUtil <$> restarting with
  | Some (Fin q) => Z.max 0 (Z.min used (round_q (inject_Z total * Qmin 1 (Qmax 0 q))))
  | _ => 0%Z
  end.
Proof.
  destruct restarting as [[i [| |q]]|]; try done. unfold restartReclaim, reclaimForRestart.
  cbn [authorisedGpuMemUtil fmap option_fmap option_map]. rewrite Z.min_comm. do 2 f_equal.
  unfold share_MB. apply round_q_proper, Qmult_comp; [reflexivity|]. unfold clamp01.
  destruct (Qle_bool 0 q) eqn:E0.
  - apply Qle_bool_iff in E0. rewrite (Q.max_r 0 q E0).
    destruct (Qle_bool 1 q) eqn:E1; [apply Qle_bool_iff in E1; by rewrite Q.min_l|].
    rewrite Q.min_r; [reflexivity|]. apply Qnot_lt_le. intros H%Qlt_le_weak%Qle_bool_iff. congruence.
  - rewrite (Q.max_l 0 q); [by rewrite Q.min_r|]. apply Qnot_lt_le.
    intros H%Qlt_le_weak%Qle_bool_iff. congruence.
Qed.

Lemma admission_iff_reclaim s ids share restarting :
  checkVllmVramAdmission s ids (Fin share) restarting = [] <->
  forall nid n, nid ∈ ids -> tbl_find nid (nodes s) = Some n ->
    (share_MB (nodeTotalMB n) share + share_MB (nodeTotalMB n) (5 # 100) <=
     Z.max 0 (nodeTotalMB n - Z.max 0 (nodeReadingMB s nid -
       restartReclaim (nodeReadingMB s nid) (nodeTotalMB n) restarting)))%Z.
Proof.
  pose proof (checkNode_None s share restarting) as Hnode.
  unfold checkVllmVramAdmission. split.
  - intros H nid n Hin Hn. apply Hnode; [done|].
    destruct (checkNode s (Fin share) restarting nid) as [v|] eqn:E; [|done].
    assert (v ∈ omap (checkNode s (Fin share) restarting) ids) as Hv.
    { apply list_elem_of_omap. by exists nid. }
    rewrite H in Hv. by apply elem_of_nil in Hv.
  - intros H. destruct (omap _ ids) as [|v vs] eqn:E; [done|].
    assert (v ∈ omap (checkNode s (Fin share) restarting) ids) as Hv by (rewrite E; left).
    apply list_elem_of_omap in Hv as (nid & Hin & Hv).
    destruct (tbl_find nid (nodes s)) as [n|] eqn:Hn.
    + assert (checkNode s (Fin share) restarting nid = None) by (apply (Hnode _ _ Hn), H; done). congruence.
    + unfold checkNode in Hv. by rewrite Hn in Hv.
Qed.

(** C8: What admission guarantees about a restart (ADR 0004): when
    [checkVllmVramAdmission] reports no shortfall, every node named in the
    request has room for the requested share and the margin of 5% on top of ALL the
    memory its reading leaves beyond the credit: the authorised share cut to between
    nothing and the whole node, and to the reading.  Unattributed memory is never
    credited; a fresh deploy, or a restart whose authorised share is not a finite
    number, is charged for the whole reading.  Conversely a node that has the room is
    not reported. *)
Theorem admission_no_shortfall_iff s ids share restarting :
  checkVllmVramAdmission s ids (Fin share) restarting = [] <->
  forall nid n, nid ∈ ids -> tbl_find nid (nodes s) = Some n ->
    let total := nodeTotalMB n in
    let reading := nodeReadingMB s nid in
    let credit :=
      match authorisedGpuMemUtil <$> restarting with
      | Some (Fin q) => Z.max 0 (Z.min reading (round_q (inject_Z total * Qmin 1 (Qmax 0 q))))
      | _ => 0%Z
      end in
    (round_q (inject_Z total * share) + round_q (inject_Z total * (5 # 100)) <=
     Z.max 0 (total - Z.max 0 (reading - credit)))%Z.
Proof.
  rewrite admission_iff_reclaim. cbv zeta.
  split; intros H nid n Hin Hn; specialize (H nid n Hin Hn);
    [by rewrite restartReclaim_eq in H|by rewrite restartReclaim_eq].
Qed.

(** The list of holders of a node is exact.  It names every active
    deployment hosted on the node or having a cluster row there, except the one
    being restarted, and every fine-tune job that runs, merges or quantizes with
    the node as head or worker, and nothing else; no deployment is named twice. *)
Theorem loadConflicts_exact s nid exclude :
  NoDup (map d_id (deployments s)) ->
  (forall c, c ∈ loadConflicts s nid exclude <->
    (exists d, d ∈ deployments s /\ active_other exclude d = true /\
       (d_nodeId d = nid \/
        exists cn, cn ∈ clusterNodes s /\ cn_nodeId cn = nid /\ cn_deploymentId cn = d_id d) /\
       c = deploymentConflict s d) \/
    (exists j, j ∈ finetuneJobs s /\ (f_nodeId j = nid \/ nid ∈ f_clusterNodeIds j) /\
       jobConflict j = Some c)) /\
  NoDup (map vc_id (List.filter (fun c => negb (vc_finetune c)) (loadConflicts s nid exclude))).
Proof.
  intros Hnd. unfold loadConflicts.
  set (ds := soloConflicts s nid exclude ++ clusterConflicts s nid exclude).
  assert (forall d, d ∈ ds <-> d ∈ deployments s /\ active_other exclude d = true /\
       (d_nodeId d = nid \/
        exists cn, cn ∈ clusterNodes s /\ cn_nodeId cn = nid /\ cn_deploymentId cn = d_id d)) as Hds.
  { intros d. unfold ds. rewrite elem_of_app, elem_of_soloConflicts, elem_of_clusterConflicts.
    split.
    - intros [(?&?&?)|(cn & ? & ? & [Hd E]%tbl_find_Some & ?)]; [by auto|].
      split; [done|]. split; [done|]. right. by exists cn.
    - intros (Hd & Ha & [?|(cn & ? & ? & Hid)]); [by left|]. right. exists cn.
      rewrite Hid. pose proof (tbl_find_row _ _ Hnd Hd). auto. }
  destruct (pushUnseen_foldl s ds ([], [])) as (H1 & H2 & H3).
  set (pushed := foldl (pushUnseen s) ([], []) ds) in *.
  destruct H3 as [H3 H4]; [apply NoDup_nil_2|simpl; set_solver|].
  assert (forall c, c ∈ pushed.2 -> vc_finetune c = false) as Hdep.
  { intros c [Hc|(d & _ & ->)]%H2; [by apply elem_of_nil in Hc|done]. }
  assert (forall l, List.filter (fun c => negb (vc_finetune c)) (omap jobConflict l) = []) as Hjob.
  { induction l as [|j l IH]; [done|]. simpl. destruct (jobConflict j) as [c|] eqn:E; [|done].
    simpl. assert (vc_finetune c = true) as ->; [|done]. unfold jobConflict in E.
    destruct (fineTuneHoldingStatus j); [|done]. simpl in E.
    by destruct (String.eqb _ _); [|injection E as <-]. }
  split.
  - intros c. rewrite elem_of_app, list_elem_of_omap. apply Morphisms_Prop.or_iff_morphism.
    + split.
      * intros [Hc|(d & Hd & ->)]%H2; [by apply elem_of_nil in Hc|]. apply Hds in Hd. naive_solver.
      * intros (d & Hd & Ha & Hw & ->). assert (d_id d ∈ pushed.1) as Hin.
        { apply H1. right. apply list_elem_of_fmap. exists d. by rewrite Hds. }
        apply H4, list_elem_of_fmap in Hin as (c & Hid & Hc).
        destruct (H2 _ Hc) as [?%elem_of_nil|(d' & Hd' & ->)]; [done|].
        apply Hds in Hd' as [Hd' _].
        by rewrite (row_id_inj _ d d' Hnd Hd Hd' Hid).
    + split; intros (j & Hj & Hw).
      * apply list_elem_of_In, filter_In in Hj as [Hj Hon]. apply list_elem_of_In in Hj.
        apply orb_true_iff in Hon. rewrite String.eqb_eq, mem_str_spec in Hon.
        exists j. naive_solver.
      * exists j. destruct Hw as [Hw ?]. split; [|done].
        apply list_elem_of_In, filter_In. split; [by apply list_elem_of_In|].
        by rewrite orb_true_iff, String.eqb_eq, mem_str_spec.
  - rewrite List.filter_app, Hjob, app_nil_r, forallb_filter_id; [done|].
    apply forallb_forall. intros c Hc. apply list_elem_of_In in Hc. by rewrite Hdep.
Qed.

(** A refusal always says what can be done about it: the message is empty
    exactly when nothing is short, and otherwise carries, for every node that is
    short, every holder found there as [label (what it is doing)], a fine-tune job
    marked as one, and closes with the two ways through. *)
Theorem vramShortfallMessage_names_holders shortfalls v c :
  v ∈ shortfalls -> c ∈ vs_conflicts v ->
  str_includes (describeHolder c) (vramShortfallMessage shortfalls) = true /\
  str_includes (" (" +:+ vc_status c) (describeHolder c) = true /\
  (vc_finetune c = true -> str_includes ", fine-tune job)" (describeHolder c) = true) /\
  str_includes "stop a holder" (vramShortfallMessage shortfalls) = true /\
  vramShortfallMessage [] = "".
Proof.
  intros Hv Hc. repeat split.
  - destruct shortfalls as [|v0 vs0]; [by apply elem_of_nil in Hv|].
    apply (str_includes_trans _ (shortfallText v)).
    + unfold shortfallText. do 12 apply str_includes_app_r.
      destruct (vs_conflicts v) as [|c0 cs] eqn:E; [by apply elem_of_nil in Hc|].
      do 3 apply str_includes_app_r. apply str_join_includes, list_elem_of_fmap. by exists c.
    + apply str_includes_app_l, str_join_includes, list_elem_of_fmap. by exists v.
  - unfold describeHolder. destruct (vc_finetune c); apply str_includes_app_r;
      rewrite <- str_app_assoc; auto with js.
  - unfold describeHolder. intros ->. do 3 apply str_includes_app_r. apply str_includes_refl.
  - destruct shortfalls as [|v0 vs0]; [by apply elem_of_nil in Hv|].
    apply str_includes_app_r. by vm_compute.
Qed.

(** ** A small cluster, for the examples *)

Definition exNode : node :=
  Node "n1" "spark-1" (Some "10.0.0.1") "online" "on" (Some "gpu") (Some 100000%Z) (Some "arm64")
    None None None None "agent-deployed" true false None.
Definition exDeployment : deployment :=
  Deployment "d1" None "n1" "m1" "running" None (Some 8000%Z) (Some "qwen") None false None None 0.
Definition exJob : finetune_job :=
  FineTuneJob "job-12345678" "n1" None "completed" (Some "running") None [] None "base"
    "lora" "ds" None None None None None None None None None None None.
Definition exDb : db :=
  Db [exNode] [ModelRow "m1" "qwen" "vllm" None] [exDeployment]
     [ClusterNode "c1" "d1" "n1" "head" "running"] [MetricRow "s1" "n1" 90000 None 5 None None] [exJob].

(** A share of 0.5 is refused on the busy node, and by a restart of the
    deployment authorised for 0.3; admitted for one authorised for 0.5. *)
Example admission_refuses : length (checkVllmVramAdmission exDb ["n1"] (Fin (1 # 2)) None) = 1.
Proof. by vm_compute. Qed.

Lemma computeVramShortfall_example :
  vs_vramUsedMB <$> checkNode exDb (Fin (1 # 2)) (Some (Build_RestartingDeployment "d1" (Fin (3 # 10)))) "n1"
  = Some 60000%Z /\
  checkNode exDb (Fin (1 # 2)) (Some (Build_RestartingDeployment "d1" (Fin (1 # 2)))) "n1" = None.
Proof. by vm_compute. Qed.

Lemma reclaimForRestart_bounded_witness :
  (0 <= reclaimForRestart 90000 100000 (Fin (1 # 2)) <= 90000)%Z.
Proof. apply (reclaimForRestart_bounded 90000 100000 (Fin (1 # 2))); done. Defined.

Lemma loadConflicts_exact_witness :
  deploymentConflict exDb exDeployment ∈ loadConflicts exDb "n1" None.
Proof.
  apply (loadConflicts_exact exDb "n1" None); [by apply NoDup_singleton|].
  left. exists exDeployment. split; [by left|]. split; [done|]. split; [by left|done].
Defined.

Lemma vramShortfallMessage_names_holders_witness :
  exists v c, v ∈ checkVllmVramAdmission exDb ["n1"] (Fin (1 # 2)) None /\ c ∈ vs_conflicts v /\
  str_includes (describeHolder c)
    (vramShortfallMessage (checkVllmVramAdmission exDb ["n1"] (Fin (1 # 2)) None)) = true.
Proof.
  destruct (checkVllmVramAdmission exDb ["n1"] (Fin (1 # 2)) None) as [|v vs] eqn:E; [done|].
  exists v, (deploymentConflict exDb exDeployment).
  assert (v ∈ v :: vs) as Hv by left.
  assert (deploymentConflict exDb exDeployment ∈ vs_conflicts v) as Hc.
  { vm_compute in E. injection E as <- <-. by left. }
  split; [done|]. split; [done|]. by apply (vramShortfallMessage_names_holders _ v).
Defined.

End Vram.

Module Arch.

Inductive RecipeArch := Amd64 | Arm64 | AnyArch.

#[export] Instance RecipeArch_eq_dec : EqDecision RecipeArch.
Proof. solve_decision. Defined.

Definition checkRecipeArchAdmission (recipeArch nodeArch : RecipeArch) : bool :=
  bool_decide (recipeArch = AnyArch) || bool_decide (recipeArch = nodeArch).

Definition arch_str (a : RecipeArch) : string :=
  match a with Amd64 => "amd64" | Arm64 => "arm64" | AnyArch => "any" end.

Definition recipeArchMismatchMessage (recipeArch nodeArch : RecipeArch) : string :=
  "Recipe targets " +:+ arch_str recipeArch +:+ " but node is " +:+ arch_str nodeArch +:+
  " " +:+ Vram.em_dash +:+ " architecture mismatch.".

End Arch.

Module Role.

Definition RUNTIMES_ALLOWED_ON_EVAL : list string := [].

Definition isEvalNode (role : option string) : bool := Vram.opt_is role "eval".

Definition runtimeAllowedOnNode (role : option string) (runtime : string) : bool :=
  if isEvalNode role then mem_str runtime RUNTIMES_ALLOWED_ON_EVAL else true.

Definition evalNodeRejectionMessage (nodeName runtime : string) : string :=
  let allowed := match RUNTIMES_ALLOWED_ON_EVAL with
                 | [] => "It cannot host any deployment."
                 | rs => "Allowed runtimes: " +:+ str_join ", " rs +:+ "."
                 end in
  "Node " +:+ String dq (nodeName +:+ String dq (" has role " +:+ String dq ("eval" +:+ String dq
  (" and cannot host a " +:+ String dq (runtime +:+ String dq (" deployment. " +:+ allowed +:+
  " Eval nodes run benchmarks; GPU nodes host models."))))))
.

End Role.
