(* ===== verification/Gateway.v ===== *)
(** The inference gateway ([gateway/*.ts]).

    [Modality] and [Pool] hold the routing rules: what a deployment serves, who
    of a pool can take a request, which member is chosen.  [Inflight] is the
    request accounting and the per-name rotation, [Proxy] the body limit and the
    header filter, [Router] the handler of an inference request.  [GatewayFacts.Machine]
    interleaves any number of requests: a request picks a member and is counted
    against it in one step (nothing awaits in between), and releases it when the
    hop settles.  [Hop] is that later step in full: what the HTTP client and the
    response emit, what the client of the gateway has then been sent, and any number
    of requests interleaved. *)
From S2P Require Import Prelude JsNum Schema.

Definition HEALTHY_STATUS : string := "running".

Module Modality.

Inductive Modality := Text | Image.

#[export] Instance Modality_eq_dec : EqDecision Modality.
Proof. solve_decision. Defined.

Definition modality_str (m : Modality) : string :=
  match m with Text => "text" | Image => "image" end.

Definition MODALITIES : list Modality := [Text; Image].

(** [isModality] narrows a value: it yields the modality. *)
Definition isModality (v : option json) : option Modality :=
  match v with
  | Some (JStr s) => js_find (fun m => String.eqb (modality_str m) s) MODALITIES
  | _ => None
  end.

Definition deploymentModality (config : option jtext) : Modality :=
  match config with
  | None | Some None => Text
  | Some (Some parsed) => default Text (isModality (jget (Some parsed) "modality"))
  end.

Inductive ForwardedPath := ChatCompletions | Embeddings | ImagesGenerations.

Definition FORWARDED_PATHS (p : ForwardedPath) : string :=
  match p with
  | ChatCompletions => "/v1/chat/completions"
  | Embeddings => "/v1/embeddings"
  | ImagesGenerations => "/v1/images/generations"
  end.

Definition PATH_MODALITY (p : ForwardedPath) : Modality :=
  match p with ChatCompletions | Embeddings => Text | ImagesGenerations => Image end.

Definition servingPathFor (modality : Modality) : string :=
  match js_find (fun p => bool_decide (PATH_MODALITY p = modality))
          [ChatCompletions; Embeddings; ImagesGenerations] with
  | Some p => "POST " +:+ FORWARDED_PATHS p
  | None => "no path this gateway serves"
  end.

Definition partitionByModality {T} (members : list T) (modalityOf : T -> Modality)
    (required : Modality) : list T * list T :=
  foldl (fun acc m => if bool_decide (modalityOf m = required)
                      then (acc.1 ++ [m], acc.2) else (acc.1, acc.2 ++ [m])) ([], []) members.

End Modality.

Module Pool.

Record MemberCandidate := {
  mc_id : string; mc_status : string; mc_port : option Z; mc_nodeId : string;
  mc_nodeIp : option string }.

Record EligibleMember := { em_deploymentId : string; em_nodeId : string; em_baseUrl : string }.

Inductive ExclusionReason := NotRunning | NoPort | NoNodeAddress | AgentOffline.

#[export] Instance ExclusionReason_eq_dec : EqDecision ExclusionReason.
Proof. solve_decision. Defined.

Definition reason_str (r : ExclusionReason) : string :=
  match r with
  | NotRunning => "not-running" | NoPort => "no-port"
  | NoNodeAddress => "no-node-address" | AgentOffline => "agent-offline"
  end.

Record ExcludedMember := {
  xm_deploymentId : string; xm_nodeId : string; xm_reason : ExclusionReason; xm_detail : string }.

Record PoolAssessment := { eligible : list EligibleMember; excluded : list ExcludedMember }.

Definition quoted (s : string) : string := String sq (s +:+ String sq "").

Definition exclude (c : MemberCandidate) (reason : ExclusionReason) (detail : string) :
    EligibleMember + ExcludedMember :=
  inr {| xm_deploymentId := mc_id c; xm_nodeId := mc_nodeId c; xm_reason := reason;
         xm_detail := detail |}.

(** One iteration of [assessPool]'s loop. *)
Definition assessMember (isNodeOnline : string -> bool) (c : MemberCandidate) :
    EligibleMember + ExcludedMember :=
  if negb (String.eqb (mc_status c) HEALTHY_STATUS) then
    exclude c NotRunning
      ("deployment is " +:+ quoted (mc_status c) +:+ ", not " +:+ quoted HEALTHY_STATUS)
  else match mc_port c with
  | None => exclude c NoPort "deployment has no port bound"
  | Some port =>
      match truthy (mc_nodeIp c) with
      | None => exclude c NoNodeAddress "node has no known address"
      | Some ip =>
          if negb (isNodeOnline (mc_nodeId c))
          then exclude c AgentOffline "node has no live agent connection"
          else inl {| em_deploymentId := mc_id c; em_nodeId := mc_nodeId c;
                      em_baseUrl := "http://" +:+ ip +:+ ":" +:+ pretty port |}
      end
  end.

Definition assessPool (candidates : list MemberCandidate) (isNodeOnline : string -> bool) :
    PoolAssessment :=
  foldl (fun acc c => match assessMember isNodeOnline c with
                      | inl m => Build_PoolAssessment (eligible acc ++ [m]) (excluded acc)
                      | inr x => Build_PoolAssessment (eligible acc) (excluded acc ++ [x])
                      end) (Build_PoolAssessment [] []) candidates.

(** [min] starts at [Infinity]: [None]. *)
Definition minOutstanding (outstanding : string -> Z) (members : list EligibleMember) : option Z :=
  foldl (fun mn m => let n := outstanding (em_deploymentId m) in
                     match mn with None => Some n
                                 | Some v => if (n <? v)%Z then Some n else mn end) None members.

Definition tiedMembers (outstanding : string -> Z) (members : list EligibleMember) :
    list EligibleMember :=
  List.filter (fun m => match minOutstanding outstanding members with
                        | Some v => (outstanding (em_deploymentId m) =? v)%Z
                        | None => false
                        end) members.

(** JavaScript's [%] truncates: [Z.rem]. *)
Definition selectLeastOutstanding (members : list EligibleMember) (outstanding : string -> Z)
    (rotation : Z) : option EligibleMember :=
  match members with
  | [] => None
  | _ =>
      let tied := tiedMembers outstanding members in
      let n := Z.of_nat (length tied) in
      let index := Z.rem (Z.rem rotation n + n) n in
      tied !! Z.to_nat index
  end.

(** ** The pool view *)

Record PoolViewRow := {
  pr_member : MemberCandidate; pr_publishedName : string; pr_nodeName : string;
  pr_runtime : option string }.

Record PoolViewMember := {
  pm_deploymentId : string; pm_node : string; pm_runtime : option string; pm_port : option Z;
  pm_inflight : Z; pm_serving : bool; pm_why : option (ExclusionReason * string) }.

Record PoolView := {
  pv_publishedName : string; pv_members : list PoolViewMember; pv_servingCount : nat }.

Definition viewMember (pool : PoolAssessment) (outstanding : string -> Z) (row : PoolViewRow) :
    PoolViewMember :=
  let id := mc_id (pr_member row) in
  let eligibleIds := map em_deploymentId (eligible pool) in
  let excludedById := foldl (fun m x => al_set m (xm_deploymentId x) x) [] (excluded pool) in
  let serving := mem_str id eligibleIds in
  {| pm_deploymentId := id; pm_node := pr_nodeName row; pm_runtime := pr_runtime row;
     pm_port := mc_port (pr_member row); pm_inflight := outstanding id; pm_serving := serving;
     pm_why := if serving then None
               else (fun x => (xm_reason x, xm_detail x)) <$> al_get excludedById id |}.

Definition viewPool (isNodeOnline : string -> bool) (outstanding : string -> Z)
    (g : string * list PoolViewRow) : PoolView :=
  let pool := assessPool (map pr_member g.2) isNodeOnline in
  let members :=
    js_sort (fun a b => pm_serving a || negb (pm_serving b))
      (map (viewMember pool outstanding)
         (js_sort (fun a b => str_le (mc_id (pr_member a)) (mc_id (pr_member b))) g.2)) in
  {| pv_publishedName := g.1; pv_members := members; pv_servingCount := length (eligible pool) |}.

Definition buildPoolView (rows : list PoolViewRow) (isNodeOnline : string -> bool)
    (outstanding : string -> Z) : list PoolView :=
  js_sort (fun a b => str_le (pv_publishedName a) (pv_publishedName b))
    (map (viewPool isNodeOnline outstanding) (group_by pr_publishedName rows)).

(** ** The model list *)

Record ModelListCandidate := { ml_publishedName : option string; ml_createdAtMs : Z }.
Record OpenAiModel := { om_id : string; om_created : Z; om_owned_by : string }.

Definition OWNER : string := "dgx-manager".

(** One row of [toModelList]'s loop over the [earliest] map. *)
Definition noteEarliest (earliest : list (string * Z)) (d : ModelListCandidate) :
    list (string * Z) :=
  match truthy (ml_publishedName d) with
  | None => earliest
  | Some name =>
      let created := (ml_createdAtMs d / 1000)%Z in
      match al_get earliest name with
      | None => al_set earliest name created
      | Some seen => if (created <? seen)%Z then al_set earliest name created else earliest
      end
  end.

Definition toModelList (ds : list ModelListCandidate) : list OpenAiModel :=
  map (fun e => {| om_id := e.1; om_created := e.2; om_owned_by := OWNER |})
    (js_sort (fun a b => str_le a.1 b.1) (foldl noteEarliest [] ds)).

End Pool.

Module Inflight.

(** [counts] and [rotations] as maps from a key to a number. *)
Definition outstandingFor (counts : gmap string Z) (id : string) : Z := default 0%Z (counts !! id).

(** The closure [acquire] returns: whose count it holds, and whether it ran. *)
Record token := { tk_deploymentId : string; tk_released : bool }.

Definition acquire (counts : gmap string Z) (id : string) : gmap string Z * token :=
  (<[id := (outstandingFor counts id + 1)%Z]> counts,
   {| tk_deploymentId := id; tk_released := false |}).

Definition release (counts : gmap string Z) (t : token) : gmap string Z * token :=
  if tk_released t then (counts, t)
  else
    let id := tk_deploymentId t in
    let next := (outstandingFor counts id - 1)%Z in
    ((if (0 <? next)%Z then <[id := next]> counts else delete id counts),
     {| tk_deploymentId := id; tk_released := true |}).

Definition nextRotation (rotations : gmap string Z) (publishedName : string) :
    gmap string Z * Z :=
  let next := (default 0%Z (rotations !! publishedName) + 1)%Z in
  (<[publishedName := Z.rem next 1000000]> rotations, next).

End Inflight.

Module Proxy.

Definition MAX_BODY_BYTES : Z := 64 * 1024 * 1024.

(** What the request stream does, in order. *)
Inductive bodyEvent := Data (chunk : string) | End | StreamError.

Inductive bodyOutcome := BodyTooLarge (limit : Z) | Body (bytes : string) | BodyError.

Record bodyState := { chunks : list string; size : Z; settled : option bodyOutcome }.

Definition bodyStep (limit : Z) (st : bodyState) (e : bodyEvent) : bodyState :=
  match settled st with
  | Some _ => st   (* our listeners are detached *)
  | None =>
      match e with
      | Data chunk =>
          let size' := (size st + Z.of_nat (String.length chunk))%Z in
          if (limit <? size')%Z
          then {| chunks := chunks st; size := size'; settled := Some (BodyTooLarge limit) |}
          else {| chunks := chunks st ++ [chunk]; size := size'; settled := None |}
      | End => {| chunks := chunks st; size := size st;
                  settled := Some (Body (str_join "" (chunks st))) |}
      | StreamError => {| chunks := chunks st; size := size st; settled := Some BodyError |}
      end
  end.

(** The promise of [readBodyWithLimit] after these events; [None]: pending. *)
Definition readBodyWithLimit (limit : Z) (events : list bodyEvent) : option bodyOutcome :=
  settled (foldl (bodyStep limit) {| chunks := []; size := 0; settled := None |} events).

Definition HEADERS_NEVER_FORWARDED : list string :=
  ["authorization"; "cookie"; "host"; "content-length"; "connection"; "keep-alive";
   "transfer-encoding"; "upgrade"; "proxy-authorization"].

Definition HOP_BY_HOP_RESPONSE_HEADERS : list string :=
  ["transfer-encoding"; "connection"; "keep-alive"; "proxy-authenticate"; "trailer"; "upgrade"].

(** A header's value: absent, one string, or several. *)
Inductive headerValue := Undefined | One (v : string) | Many (vs : list string).

Definition forwardHeader (out : list (string * string)) (h : string * headerValue) :
    list (string * string) :=
  match h.2 with
  | Undefined => out
  | _ =>
      if mem_str (str_lower h.1) HEADERS_NEVER_FORWARDED then out
      else al_set out h.1 (match h.2 with Many vs => str_join ", " vs | One v => v
                                        | Undefined => "" end)
  end.

Definition forwardableHeaders (headers : list (string * headerValue)) : list (string * string) :=
  foldl forwardHeader [] headers.

(** What the upstream request carries. *)
Definition upstreamHeaders (headers : list (string * headerValue)) (body : string) :
    list (string * string) :=
  al_set (forwardableHeaders headers) "content-length" (pretty (Z.of_nat (String.length body))).

(** The response headers relayed to the client. *)
Definition relayedHeaders (headers : list (string * headerValue)) :
    list (string * headerValue) :=
  List.filter (fun h => match h.2 with Undefined => false | _ => true end &&
                        negb (mem_str (str_lower h.1) HOP_BY_HOP_RESPONSE_HEADERS)) headers.

End Proxy.

Module Router.
Import Modality Pool Inflight Proxy.

(** An OpenAI-shaped refusal. *)
Record Refusal := {
  rf_status : Z; rf_code : string; rf_type : string; rf_message : string;
  rf_members : list (string * ExclusionReason * string) }.

Definition openAiError (status : Z) (message type code : string) : Refusal :=
  {| rf_status := status; rf_code := code; rf_type := type; rf_message := message;
     rf_members := [] |}.

(** A row of the candidates query: the deployment and its node. *)
Definition candidate := (deployment * node)%type.

Definition candidates (s : db) (requested : string) : list candidate :=
  js_sort (fun a b => str_le (d_id a.1) (d_id b.1))
    (omap (fun d => if decide (d_publishedName d = Some requested)
                    then (fun n => (d, n)) <$> node_of s d else None) (deployments s)).

Definition memberOf (c : candidate) : MemberCandidate :=
  {| mc_id := d_id c.1; mc_status := d_status c.1; mc_port := d_port c.1;
     mc_nodeId := n_id c.2; mc_nodeIp := n_ipAddress c.2 |}.

(** [JSON.parse(body).model], which throws on [null]; then the two guards. *)
Definition requestedModel (body : jtext) : result Refusal string :=
  match body with
  | None | Some JNull =>
      Err (openAiError 400 "Request body is not valid JSON." "invalid_request_error" "bad_request")
  | Some j =>
      match jget (Some j) "model" with
      | Some (JStr (String c r)) => Ok (String c r)
      | _ => Err (openAiError 400 "Missing required field: 'model'." "invalid_request_error"
                    "missing_model")
      end
  end.

(** Everything between the body and the hop: who may serve [requested]. *)
Definition resolvePool (s : db) (online : string -> bool) (path : ForwardedPath)
    (requested : string) : result Refusal (list candidate * PoolAssessment) :=
  let cs := candidates s requested in
  match cs with
  | [] => Err (openAiError 404 ("The model " +:+ quoted requested +:+ " does not exist.")
                 "invalid_request_error" "model_not_found")
  | c0 :: _ =>
      let required := PATH_MODALITY path in
      let '(matching, mismatched) :=
        partitionByModality cs (fun c => deploymentModality (d_config c.1)) required in
      match matching with
      | [] =>
          let served := deploymentModality (d_config (List.hd c0 mismatched).1) in
          Err (openAiError 400
                 ("The model " +:+ quoted requested +:+ " serves " +:+ modality_str served +:+
                  ", not " +:+ modality_str required +:+ ". Send this model to " +:+
                  servingPathFor served +:+ " instead.")
                 "invalid_request_error" "modality_mismatch")
      | _ => Ok (matching, assessPool (map memberOf matching) online)
      end
  end.

Definition nodeNameOf (matching : list candidate) (nodeId : string) : string :=
  default nodeId (al_get (foldl (fun m c => al_set m (n_id c.2) (n_name c.2)) [] matching) nodeId).

Definition noEligibleMember (requested : string) (matching : list candidate)
    (pool : PoolAssessment) : Refusal :=
  let members := map (fun m => (nodeNameOf matching (xm_nodeId m), xm_reason m, xm_detail m))
                   (excluded pool) in
  let summary := str_join "; " (map (fun m => m.1.1 +:+ ": " +:+ m.2) members) in
  {| rf_status := 503; rf_code := "no_eligible_member"; rf_type := "api_error";
     rf_message := "No deployment serving " +:+ quoted requested +:+
                   " can take a request right now. " +:+ summary;
     rf_members := members |}.

(** The gateway's module state. *)
Record gateway := { counts : gmap string Z; rotations : gmap string Z }.

(** The synchronous part of [proxyInference] after the body was read: refuse,
    or choose a member, count the request against it and forward. *)
Definition proxyInference (g : gateway) (s : db) (online : string -> bool)
    (path : ForwardedPath) (body : jtext) :
    gateway * result Refusal (string * EligibleMember * token) :=
  match requestedModel body with
  | Err e => (g, Err e)
  | Ok requested =>
      match resolvePool s online path requested with
      | Err e => (g, Err e)
      | Ok (matching, pool) =>
          let '(rotations', rotation) := nextRotation (rotations g) requested in
          match selectLeastOutstanding (eligible pool) (outstandingFor (counts g)) rotation with
          | None => ({| counts := counts g; rotations := rotations' |},
                     Err (noEligibleMember requested matching pool))
          | Some target =>
              let '(counts', t) := acquire (counts g) (em_deploymentId target) in
              ({| counts := counts'; rotations := rotations' |}, Ok (requested, target, t))
          end
      end
  end.

(** How the hop can settle, and what the client is answered after it. *)
Inductive hop := Relayed | FailedBeforeHeaders | FailedMidStream.

Definition afterHop (requested : string) (h : hop) : option Refusal :=
  match h with
  | Relayed | FailedMidStream => None
  | FailedBeforeHeaders =>
      Some (openAiError 502 ("The deployment serving " +:+ quoted requested +:+
              " could not be reached.") "api_error" "upstream_unreachable")
  end.

(** [GET /v1/models] *)
Definition getModels (s : db) : list OpenAiModel :=
  toModelList
    (omap (fun d => if String.eqb (d_status d) HEALTHY_STATUS &&
                       match d_publishedName d with Some _ => true | None => false end
                    then Some (Build_ModelListCandidate (d_publishedName d) (d_createdAt d))
                    else None) (deployments s)).

(** [GET /api/gateway]: the rows behind the pool view. *)
Definition viewRows (s : db) : list PoolViewRow :=
  omap (fun d =>
          match d_publishedName d, node_of s d with
          | Some name, Some n =>
              Some {| pr_member := memberOf (d, n); pr_publishedName := name;
                      pr_nodeName := n_name n; pr_runtime := m_runtime <$> model_of s d |}
          | _, _ => None
          end) (js_sort (fun a b => str_le (d_id a) (d_id b)) (deployments s)).

End Router.

Module Hop.
Import Modality Pool Inflight Proxy Router.

(** The client's response object: [rs_sent] is [headersSent], [rs_ended] is
    [writableEnded], [rs_closed] a closed connection, whose writes are dropped.
    What Express adds to the headers of a JSON answer is not recorded. *)
Record response := {
  rs_status : Z; rs_headers : list (string * headerValue); rs_sent : bool;
  rs_body : list string; rs_error : option Refusal; rs_ended : bool; rs_closed : bool }.

Definition noResponse : response :=
  {| rs_status := 200; rs_headers := []; rs_sent := false; rs_body := []; rs_error := None;
     rs_ended := false; rs_closed := false |}.

(** [res.status], then [res.setHeader] per relayed header, whose names are
    case-insensitive; nothing is sent yet. *)
Definition writeHead (r : response) (statusCode : option Z)
    (headers : list (string * headerValue)) : response :=
  {| rs_status := default 502%Z statusCode;
     rs_headers := foldl (fun out h => al_set out (str_lower h.1) h.2) (rs_headers r)
                     (relayedHeaders headers);
     rs_sent := rs_sent r; rs_body := rs_body r; rs_error := rs_error r;
     rs_ended := rs_ended r; rs_closed := rs_closed r |}.

(** The pipe's [res.write]; a closed response is unpiped. *)
Definition writeChunk (r : response) (chunk : string) : response :=
  if rs_closed r then r
  else {| rs_status := rs_status r; rs_headers := rs_headers r; rs_sent := true;
          rs_body := rs_body r ++ [chunk]; rs_error := rs_error r;
          rs_ended := rs_ended r; rs_closed := false |}.

(** [res.end()] *)
Definition endResponse (r : response) : response :=
  if rs_closed r then r
  else {| rs_status := rs_status r; rs_headers := rs_headers r; rs_sent := true;
          rs_body := rs_body r; rs_error := rs_error r; rs_ended := true; rs_closed := false |}.

(** [openAiError]: [res.status(status).json(...)]; headers set before stay set. *)
Definition sendError (r : response) (e : Refusal) : response :=
  if rs_closed r then r
  else {| rs_status := rf_status e; rs_headers := rs_headers r; rs_sent := true;
          rs_body := rs_body r; rs_error := Some e; rs_ended := true; rs_closed := false |}.

Definition closeResponse (r : response) : response :=
  {| rs_status := rs_status r; rs_headers := rs_headers r; rs_sent := rs_sent r;
     rs_body := rs_body r; rs_error := rs_error r; rs_ended := rs_ended r; rs_closed := true |}.

(** The upstream request: no answer yet, an answer with its body under way, or
    nothing more to come. *)
Inductive upstream := Requested | Responding | Over.

#[export] Instance upstream_eq_dec : EqDecision upstream.
Proof. solve_decision. Defined.

(** One forwarded request: [hp_destroyed] after [upstream.destroy()];
    [hp_settled] is the promise of [forwardToMember] as the handler saw it. *)
Record hopState := {
  hp_name : string; hp_upstream : upstream; hp_destroyed : bool; hp_settled : option hop;
  hp_res : response; hp_token : token }.

(** What reaches the hop's listeners. *)
Inductive hopEvent :=
  | UpResponse (statusCode : option Z) (headers : list (string * headerValue))
  | UpData (chunk : string) | UpEnd | UpError | ClientClosed.

(** Which events the HTTP client and the response can emit here.  After
    [destroy()] the client emits the error and nothing else; a response closes once. *)
Definition enabled (st : hopState) (e : hopEvent) : bool :=
  match e, hp_upstream st with
  | UpResponse _ _, Requested => negb (hp_destroyed st)
  | UpData _, Responding | UpEnd, Responding => negb (hp_destroyed st)
  | UpError, Requested | UpError, Responding => true
  | ClientClosed, _ => negb (rs_closed (hp_res st))
  | _, _ => false
  end.

(** The rest of the handler once the promise settles, [finally] included; a
    second settlement of the promise does nothing. *)
Definition settle (counts : gmap string Z) (st : hopState) (rejected : bool) :
    gmap string Z * hopState :=
  match hp_settled st with
  | Some _ => (counts, st)
  | None =>
      let h := if rejected
               then if rs_sent (hp_res st) then FailedMidStream else FailedBeforeHeaders
               else Relayed in
      let res' := match h, afterHop (hp_name st) h with
                  | FailedMidStream, _ => endResponse (hp_res st)
                  | _, Some e => sendError (hp_res st) e
                  | _, None => hp_res st
                  end in
      let '(counts', t) := release counts (hp_token st) in
      (counts',
       {| hp_name := hp_name st; hp_upstream := hp_upstream st; hp_destroyed := hp_destroyed st;
          hp_settled := Some h; hp_res := res'; hp_token := t |})
  end.

Definition withUpstream (st : hopState) (u : upstream) (r : response) : hopState :=
  {| hp_name := hp_name st; hp_upstream := u; hp_destroyed := hp_destroyed st;
     hp_settled := hp_settled st; hp_res := r; hp_token := hp_token st |}.

(** One event of one hop, against the counts every request shares. *)
Definition hopStep (counts : gmap string Z) (st : hopState) (e : hopEvent) :
    gmap string Z * hopState :=
  if negb (enabled st e) then (counts, st) else
  match e with
  | UpResponse statusCode headers =>
      (counts, withUpstream st Responding (writeHead (hp_res st) statusCode headers))
  | UpData chunk => (counts, withUpstream st Responding (writeChunk (hp_res st) chunk))
  | UpEnd => settle counts (withUpstream st Over (endResponse (hp_res st))) false
  | UpError => settle counts (withUpstream st Over (hp_res st)) true
  | ClientClosed =>
      (counts,
       {| hp_name := hp_name st; hp_upstream := hp_upstream st;
          hp_destroyed := hp_destroyed st || negb (rs_ended (hp_res st));
          hp_settled := hp_settled st; hp_res := closeResponse (hp_res st);
          hp_token := hp_token st |})
  end.

(** [forwardToMember] called, from the acquired token on. *)
Definition startHop (name : string) (t : token) (r : response) : hopState :=
  {| hp_name := name; hp_upstream := Requested; hp_destroyed := false; hp_settled := None;
     hp_res := r; hp_token := t |}.

Definition forwardToMember (counts : gmap string Z) (name : string) (t : token) (r : response)
    (events : list hopEvent) : gmap string Z * hopState :=
  foldl (fun acc e => hopStep acc.1 acc.2 e) (counts, startHop name t r) events.

(** *** A whole inference request *)

(** What the client of a request is left with: nothing yet, a refusal (with the
    upload cut or not), Express's own 500, or the hop. *)
Inductive served :=
  | Pending
  | Refused (r : response) (cut : bool)
  | Unhandled
  | Forwarded (target : EligibleMember) (bytes : string) (st : hopState).

Definition bodyRefusal (o : bodyOutcome) : option (Refusal * bool) :=
  match o with
  | Body _ => None
  | BodyTooLarge limit =>
      Some (openAiError 413 ("Request body exceeds the gateway's " +:+ pretty limit +:+
              "-byte limit.") "invalid_request_error" "request_too_large", true)
  | BodyError =>
      Some (openAiError 400 "Could not read the request body." "invalid_request_error"
              "bad_request", false)
  end.

(** [POST] on one of the served paths.  [parse] is [JSON.parse] of the bytes;
    [rows] the candidates query, [None] when it rejects, which no [try] of the
    handler covers.  The gateway's state is the one at the end of the hop. *)
Definition serveInference (parse : string -> jtext) (limit : Z) (g : gateway)
    (rows : option db) (online : string -> bool) (path : ForwardedPath)
    (body : list bodyEvent) (events : list hopEvent) : gateway * served :=
  match readBodyWithLimit limit body with
  | None => (g, Pending)
  | Some o =>
      match o, bodyRefusal o with
      | Body bytes, _ =>
          match requestedModel (parse bytes), rows with
          | Err e, _ => (g, Refused (sendError noResponse e) false)
          | Ok _, None => (g, Unhandled)
          | Ok _, Some s =>
              match proxyInference g s online path (parse bytes) with
              | (g', Err e) => (g', Refused (sendError noResponse e) false)
              | (g', Ok (requested, target, t)) =>
                  let '(counts', st) :=
                    forwardToMember (counts g') requested t noResponse events in
                  ({| counts := counts'; rotations := rotations g' |},
                   Forwarded target bytes st)
              end
          end
      | _, Some (e, cut) => (g, Refused (sendError noResponse e) cut)
      | _, None => (g, Pending)
      end
  end.

(** *** Every request of the gateway, interleaved *)

Record traffic := { tr_gateway : gateway; tr_hops : list hopState }.

Inductive trafficEvent :=
  | Arrive (s : db) (online : string -> bool) (path : ForwardedPath) (body : jtext)
  | HopEvent (i : nat) (e : hopEvent).

Definition trafficStep (st : traffic) (ev : trafficEvent) : traffic :=
  match ev with
  | Arrive s online path body =>
      match proxyInference (tr_gateway st) s online path body with
      | (g', Err _) => {| tr_gateway := g'; tr_hops := tr_hops st |}
      | (g', Ok (requested, _, t)) =>
          {| tr_gateway := g'; tr_hops := startHop requested t noResponse :: tr_hops st |}
      end
  | HopEvent i e =>
      match tr_hops st !! i with
      | None => st
      | Some h =>
          let '(c, h') := hopStep (counts (tr_gateway st)) h e in
          {| tr_gateway := {| counts := c; rotations := rotations (tr_gateway st) |};
             tr_hops := <[i := h']> (tr_hops st) |}
      end
  end.

Definition runTraffic (evs : list trafficEvent) : traffic :=
  foldl trafficStep {| tr_gateway := {| counts := ∅; rotations := ∅ |}; tr_hops := [] |} evs.

End Hop.
