(* ===== verification/GatewayFacts.v ===== *)
(** What the gateway guarantees: its pools, its choice of a member, its
    request accounting under any interleaving, and its refusals. *)
From S2P Require Import Prelude JsNum Schema Gateway.
Import Modality Pool Inflight Proxy Router.

(** * Partition and assessment *)

Lemma partitionByModality_filter {T} (f : T -> Modality) req ms :
  partitionByModality ms f req =
  (List.filter (fun m => bool_decide (f m = req)) ms,
   List.filter (fun m => negb (bool_decide (f m = req))) ms).
Proof.
  unfold partitionByModality. induction ms as [|m ms IH] using rev_ind; [done|].
  rewrite foldl_app, IH, !List.filter_app. simpl.
  case_bool_decide; simpl; by rewrite ?app_nil_r.
Qed.

Definition memberIn (x : EligibleMember + ExcludedMember) : option EligibleMember :=
  match x with inl m => Some m | inr _ => None end.
Definition memberOut (x : EligibleMember + ExcludedMember) : option ExcludedMember :=
  match x with inl _ => None | inr m => Some m end.

Lemma assessPool_omap cs online :
  assessPool cs online =
  {| eligible := omap (fun c => memberIn (assessMember online c)) cs;
     excluded := omap (fun c => memberOut (assessMember online c)) cs |}.
Proof.
  unfold assessPool. induction cs as [|c cs IH] using rev_ind; [done|].
  rewrite foldl_app, IH, !omap_app. simpl.
  destruct (assessMember online c); simpl; by rewrite ?app_nil_r.
Qed.

Lemma assessMember_eligible online c m :
  assessMember online c = inl m <->
  mc_status c = HEALTHY_STATUS /\
  exists port ip, mc_port c = Some port /\ mc_nodeIp c = Some ip /\ ip <> "" /\
    online (mc_nodeId c) = true /\
    m = {| em_deploymentId := mc_id c; em_nodeId := mc_nodeId c;
           em_baseUrl := "http://" +:+ ip +:+ ":" +:+ pretty port |}.
Proof.
  unfold assessMember. destruct (String.eqb (mc_status c) HEALTHY_STATUS) eqn:E; cbn [negb].
  2:{ apply String.eqb_neq in E. split; [done|by intros [? _]]. }
  apply String.eqb_eq in E. destruct (mc_port c) as [port|]; [|split; [done|naive_solver]].
  destruct (truthy (mc_nodeIp c)) as [ip|] eqn:T.
  - apply truthy_Some in T as [-> Hip]. destruct (online (mc_nodeId c)); cbn [negb].
    + split; [intros [= <-]; split; [done|by exists port, ip]|].
      by intros (_ & ? & ? & [= ->] & [= ->] & _ & _ & ->).
    + split; [done|]. by intros (_ & ? & ? & _ & _ & _ & ? & _).
  - apply truthy_None in T. split; [done|].
    intros (_ & ? & ? & _ & Hip & ? & _). destruct T; congruence.
Qed.

(** The first condition of the code that fails, in the code's order. *)
Definition firstFailing (online : string -> bool) (c : MemberCandidate) : option ExclusionReason :=
  if negb (String.eqb (mc_status c) HEALTHY_STATUS) then Some NotRunning
  else if bool_decide (mc_port c = None) then Some NoPort
  else if bool_decide (mc_nodeIp c = None \/ mc_nodeIp c = Some "") then Some NoNodeAddress
  else if negb (online (mc_nodeId c)) then Some AgentOffline
  else None.

Lemma assessMember_reason online c :
  match assessMember online c with
  | inl m => firstFailing online c = None /\ em_deploymentId m = mc_id c
  | inr x => firstFailing online c = Some (xm_reason x) /\ xm_deploymentId x = mc_id c /\
             xm_nodeId x = mc_nodeId c
  end.
Proof.
  unfold assessMember, firstFailing.
  destruct (negb (String.eqb (mc_status c) HEALTHY_STATUS)); [done|].
  destruct (mc_port c); [|done]. rewrite (bool_decide_eq_false_2 (Some _ = None)) by done.
  destruct (truthy (mc_nodeIp c)) as [ip|] eqn:T.
  - rewrite bool_decide_eq_false_2.
    + by destruct (negb (online (mc_nodeId c))).
    + apply truthy_Some in T as [-> ?]. intros [|]; congruence.
  - apply truthy_None in T. by rewrite bool_decide_eq_true_2.
Qed.

Lemma assessPool_split cs online :
  let pool := assessPool cs online in
  (forall m, m ∈ eligible pool <-> exists c port ip, c ∈ cs /\
     mc_status c = "running" /\ mc_port c = Some port /\ mc_nodeIp c = Some ip /\ ip <> "" /\
     online (mc_nodeId c) = true /\
     m = {| em_deploymentId := mc_id c; em_nodeId := mc_nodeId c;
            em_baseUrl := "http://" +:+ ip +:+ ":" +:+ pretty port |}) /\
  map em_deploymentId (eligible pool) =
    map mc_id (List.filter (fun c => bool_decide (firstFailing online c = None)) cs) /\
  map (fun x => (xm_deploymentId x, Some (xm_reason x))) (excluded pool) =
    map (fun c => (mc_id c, firstFailing online c))
      (List.filter (fun c => negb (bool_decide (firstFailing online c = None))) cs) /\
  (length (eligible pool) + length (excluded pool) = length cs)%nat.
Proof.
  intros pool. unfold pool. rewrite assessPool_omap. simpl. split; [|split; [|split]].
  - intros m. rewrite list_elem_of_omap. split.
    + intros (c & Hc & Hm). exists c. destruct (assessMember online c) eqn:E; [|done].
      injection Hm as ->. apply assessMember_eligible in E as (? & port & ip & ?). by exists port, ip.
    + intros (c & port & ip & Hc & Hs & Hr). exists c. split; [done|].
      assert (assessMember online c = inl m) as ->; [|done].
      apply assessMember_eligible. split; [done|]. by exists port, ip.
  - induction cs as [|c cs IH]; [done|]. simpl. pose proof (assessMember_reason online c) as H.
    destruct (assessMember online c); simpl.
    + destruct H as [-> ->]. simpl. f_equal. apply IH.
    + destruct H as [-> _]. simpl. apply IH.
  - induction cs as [|c cs IH]; [done|]. simpl. pose proof (assessMember_reason online c) as H.
    destruct (assessMember online c); simpl.
    + destruct H as [-> _]. simpl. apply IH.
    + destruct H as (Hf & Hid & _). rewrite Hf. simpl. rewrite Hid, Hf. f_equal. apply IH.
  - induction cs as [|c cs IH]; [done|]. simpl.
    destruct (assessMember online c); simpl; [f_equal; apply IH|].
    rewrite Nat.add_succ_r. f_equal. apply IH.
Qed.

(** A pool is split exactly.  A member is eligible iff its deployment is
    running, has a port and a node address and the node's agent is connected, and
    it then carries [http://<ip>:<port>]; every other candidate is excluded with
    the first condition that fails; nobody is lost, nobody is in both lists, and
    both lists keep the candidates' order. *)
Theorem assessPool_partition cs online :
  let pool := assessPool cs online in
  (forall m, m ∈ eligible pool <-> exists c port ip, c ∈ cs /\
     mc_status c = "running" /\ mc_port c = Some port /\ mc_nodeIp c = Some ip /\ ip <> "" /\
     online (mc_nodeId c) = true /\
     m = {| em_deploymentId := mc_id c; em_nodeId := mc_nodeId c;
            em_baseUrl := "http://" +:+ ip +:+ ":" +:+ pretty port |}) /\
  map em_deploymentId (eligible pool) =
    map mc_id (List.filter (fun c => bool_decide (firstFailing online c = None)) cs) /\
  map (fun x => (xm_deploymentId x, Some (xm_reason x))) (excluded pool) =
    map (fun c => (mc_id c, firstFailing online c))
      (List.filter (fun c => negb (bool_decide (firstFailing online c = None))) cs) /\
  (length (eligible pool) + length (excluded pool) = length cs)%nat.
Proof. exact (assessPool_split cs online). Qed.

(** * Choosing a member *)

Section Select.
Context (outstanding : string -> Z).
Let out (m : EligibleMember) : Z := outstanding (em_deploymentId m).

Lemma minOutstanding_spec ms :
  match minOutstanding outstanding ms with
  | None => ms = []
  | Some v => (exists m, m ∈ ms /\ out m = v) /\ forall m, m ∈ ms -> (v <= out m)%Z
  end.
Proof.
  unfold minOutstanding. induction ms as [|m ms IH] using rev_ind; [done|].
  rewrite foldl_app. simpl. destruct (foldl _ None ms) as [v|].
  - destruct IH as [(m0 & Hm0 & Hv) Hle]. fold (out m).
    destruct (Z.ltb_spec (out m) v) as [Hlt|Hge]; split.
    + exists m. split; [apply elem_of_app; right; by left|done].
    + intros m' [Hm'%Hle| ->%list_elem_of_singleton]%elem_of_app; lia.
    + exists m0. split; [apply elem_of_app; by left|done].
    + intros m' [Hm'%Hle| ->%list_elem_of_singleton]%elem_of_app; [lia|done].
  - subst ms. simpl. split; [exists m; split; [by left|done]|].
    intros m' ->%list_elem_of_singleton. done.
Qed.

Lemma tiedMembers_spec ms m :
  m ∈ tiedMembers outstanding ms <-> m ∈ ms /\ forall m', m' ∈ ms -> (out m <= out m')%Z.
Proof.
  unfold tiedMembers. rewrite !list_elem_of_In, filter_In, <- !list_elem_of_In.
  pose proof (minOutstanding_spec ms) as Hmin.
  destruct (minOutstanding outstanding ms) as [v|].
  - destruct Hmin as [(m0 & Hm0 & Hv) Hle]. rewrite Z.eqb_eq. fold (out m). split.
    + intros [Hm Ho]. split; [done|]. intros m' Hm'%Hle. lia.
    + intros [Hm Hall]. split; [done|]. specialize (Hall _ Hm0). specialize (Hle _ Hm). lia.
  - subst ms. split; by intros [?%elem_of_nil _].
Qed.

Lemma tiedMembers_nonempty ms : ms <> [] -> tiedMembers outstanding ms <> [].
Proof.
  intros Hne Ht. pose proof (minOutstanding_spec ms) as Hmin.
  destruct (minOutstanding outstanding ms) as [v|]; [|done].
  destruct Hmin as [(m0 & Hm0 & Hv) Hle].
  assert (m0 ∈ tiedMembers outstanding ms) as H.
  { apply tiedMembers_spec. split; [done|]. intros m' ?%Hle. lia. }
  rewrite Ht in H. by apply elem_of_nil in H.
Qed.

Lemma js_index_bounds r n : (0 < n)%Z -> (0 <= Z.rem (Z.rem r n + n) n < n)%Z.
Proof.
  intros Hn. pose proof (Z.rem_bound_abs r n ltac:(lia)).
  apply Z.rem_bound_pos; lia.
Qed.

Lemma js_index_mod r n : (0 <= r)%Z -> (0 < n)%Z -> Z.rem (Z.rem r n + n) n = (r mod n)%Z.
Proof.
  intros Hr Hn. rewrite (Z.rem_mod_nonneg r n) by lia.
  pose proof (Z.mod_pos_bound r n Hn). rewrite Z.rem_mod_nonneg by lia.
  rewrite <- (Z.mul_1_l n) at 2. rewrite Z.mod_add by lia. apply Z.mod_mod. lia.
Qed.

Lemma select_tied ms r :
  match selectLeastOutstanding ms outstanding r with
  | Some m => m ∈ tiedMembers outstanding ms
  | None => ms = []
  end.
Proof.
  unfold selectLeastOutstanding. destruct ms as [|m0 ms]; [done|].
  set (tied := tiedMembers outstanding (m0 :: ms)).
  assert (tied <> []) as Hne by (by apply tiedMembers_nonempty).
  assert (0 < Z.of_nat (length tied))%Z as Hlen by (destruct tied; [done|simpl; lia]).
  pose proof (js_index_bounds r _ Hlen) as Hi.
  destruct (lookup_lt_is_Some_2 tied (Z.to_nat (Z.rem (Z.rem r (Z.of_nat (length tied)) +
    Z.of_nat (length tied)) (Z.of_nat (length tied))))) as [m Hm]; [lia|].
  rewrite Hm. by apply list_elem_of_lookup_2 in Hm.
Qed.

(** Consecutive rotations walk the tied members round. *)
Lemma select_consecutive ms k :
  (0 <= k)%Z ->
  map (fun i => selectLeastOutstanding ms outstanding (k + Z.of_nat i))
    (seq 0 (length (tiedMembers outstanding ms))) =
  Some <$> rotate (Z.to_nat k) (tiedMembers outstanding ms).
Proof.
  intros Hk. destruct ms as [|m0 ms].
  { unfold rotate. change (tiedMembers outstanding []) with (@nil EligibleMember).
    by rewrite drop_nil, take_nil. }
  unfold selectLeastOutstanding. set (tied := tiedMembers outstanding (m0 :: ms)).
  apply list_eq. intros i. rewrite !list_lookup_fmap.
  destruct (decide (i < length tied)%nat) as [Hi|Hi].
  - rewrite lookup_seq_lt by done. simpl. rewrite lookup_rotate_r by done.
    rewrite js_index_mod by lia. unfold rotate_nat_add.
    rewrite Z2Nat.id by lia.
    destruct (lookup_lt_is_Some_2 tied
      (Z.to_nat ((k + Z.of_nat i) mod Z.of_nat (length tied)))) as [m Hm].
    { pose proof (Z.mod_pos_bound (k + Z.of_nat i) (Z.of_nat (length tied)) ltac:(lia)). lia. }
    by rewrite Hm.
  - rewrite lookup_seq_ge by lia. simpl.
    rewrite lookup_ge_None_2 by (rewrite length_rotate; lia). done.
Qed.
End Select.

(** The rotations a name sees on [n] consecutive requests. *)
Fixpoint rotationRun (rotations : gmap string Z) (name : string) (n : nat) : list Z :=
  match n with
  | O => []
  | S n' => let '(rotations', r) := nextRotation rotations name in r :: rotationRun rotations' name n'
  end.

Lemma rotationRun_seq rots name v n :
  rots !! name = Some v -> (0 <= v)%Z -> (v + Z.of_nat n < 1000000)%Z ->
  rotationRun rots name n = map (fun i => (v + 1 + Z.of_nat i)%Z) (seq 0 n).
Proof.
  revert rots v. induction n as [|n IH]; intros rots v Hv H0 Hb; [done|].
  cbn [rotationRun nextRotation]. rewrite Hv. cbn [from_option id default seq map].
  f_equal; [lia|]. rewrite (IH _ (v + 1)%Z).
  - rewrite <- seq_shift, map_map. apply map_ext. intros i. lia.
  - rewrite lookup_insert_eq. f_equal. apply Z.rem_small. lia.
  - lia.
  - lia.
Qed.

(** The chosen member is in the pool and holds no more requests than any
    other; an empty pool is the only way to choose nobody.  Ties are broken
    fairly: while the loads do not change, as many consecutive requests as there
    are tied members, with the rotation kept for that name, pick each of them
    exactly once. *)
Theorem selection_least_and_fair ms outstanding rotations name v r :
  rotations !! name = Some v -> (0 <= v)%Z ->
  (v + Z.of_nat (length (tiedMembers outstanding ms)) < 1000000)%Z ->
  match selectLeastOutstanding ms outstanding r with
  | Some m => m ∈ ms /\
      forall m', m' ∈ ms -> (outstanding (em_deploymentId m) <= outstanding (em_deploymentId m'))%Z
  | None => ms = []
  end /\
  map (selectLeastOutstanding ms outstanding)
    (rotationRun rotations name (length (tiedMembers outstanding ms)))
  ≡ₚ map Some (tiedMembers outstanding ms).
Proof.
  intros Hv H0 Hb. split.
  - pose proof (select_tied outstanding ms r) as H.
    destruct (selectLeastOutstanding ms outstanding r); [|done]. by apply tiedMembers_spec.
  - rewrite (rotationRun_seq _ _ _ _ Hv H0 Hb), map_map.
    pose proof (select_consecutive outstanding ms (v + 1) ltac:(lia)) as E.
    rewrite E. change (map Some) with (fmap (M := list) (@Some EligibleMember)).
    apply fmap_Permutation. unfold rotate.
    rewrite Permutation_app_comm. by rewrite take_drop.
Qed.

(** * The inference handler *)

Lemma elem_of_candidates s name c :
  c ∈ candidates s name <->
  c.1 ∈ deployments s /\ d_publishedName c.1 = Some name /\ node_of s c.1 = Some c.2.
Proof.
  unfold candidates. rewrite elem_of_js_sort, list_elem_of_omap. destruct c as [d n]. simpl. split.
  - intros (d' & Hd & H). destruct (decide _) as [Hp|]; [|done].
    destruct (node_of s d') as [n'|] eqn:En; [|done]. by injection H as -> ->.
  - intros (Hd & Hp & Hn). exists d. split; [done|]. rewrite decide_True by done. by rewrite Hn.
Qed.

Lemma requestedModel_Ok body name :
  requestedModel body = Ok name <->
  name <> "" /\ exists j, body = Some j /\ jget (Some j) "model" = Some (JStr name).
Proof.
  unfold requestedModel. destruct body as [j|]; [|naive_solver].
  assert (match jget (Some j) "model" with
          | Some (JStr (String c r)) => @Ok Refusal _ (String c r)
          | _ => Err (openAiError 400 "Missing required field: 'model'." "invalid_request_error"
                    "missing_model")
          end = Ok name <-> name <> "" /\ exists j0, Some j = Some j0 /\
            jget (Some j0) "model" = Some (JStr name)) as H.
  { split.
    - destruct (jget (Some j) "model") as [[| | |[|c r]| |]|] eqn:E; try done.
      intros [= <-]. split; [done|]. by exists j.
    - intros (Hne & j0 & [= <-] & ->). by destruct name. }
  destruct j; [|exact H..]. split; [done|]. by intros (_ & j0 & [= <-] & ?).
Qed.

(** The candidates whose modality is the one the path needs. *)
Definition matchingFor (s : db) (path : ForwardedPath) (name : string) : list candidate :=
  List.filter (fun c => bool_decide (deploymentModality (d_config c.1) = PATH_MODALITY path))
    (candidates s name).

Lemma resolvePool_spec s online path name :
  match resolvePool s online path name with
  | Ok (m, p) => m = matchingFor s path name /\ m <> [] /\ p = assessPool (map memberOf m) online
  | Err e =>
      matchingFor s path name = [] /\
      ((candidates s name = [] /\ rf_status e = 404%Z /\ rf_code e = "model_not_found") \/
       (candidates s name <> [] /\ rf_status e = 400%Z /\ rf_code e = "modality_mismatch"))
  end.
Proof.
  unfold resolvePool, matchingFor. rewrite partitionByModality_filter.
  destruct (candidates s name) as [|c cs]; [split; [done|by left]|].
  destruct (List.filter _ (c :: cs)) as [|m ms] eqn:E; [|done].
  split; [done|]. right. done.
Qed.

Lemma elem_of_matchingFor s path name c :
  c ∈ matchingFor s path name <->
  c ∈ candidates s name /\ deploymentModality (d_config c.1) = PATH_MODALITY path.
Proof.
  unfold matchingFor. by rewrite !list_elem_of_In, filter_In, bool_decide_eq_true.
Qed.

(** C1: The gateway never sends a request anywhere it should not.  When
    [proxyInference] forwards, the body named a model, and the target is a
    deployment that publishes exactly that name, whose recipe serves the modality
    of the path, that is running on a node with a live agent, at that node's
    address and that deployment's port; it is the least loaded such member, and
    exactly one request has been counted against it. *)
Theorem proxyInference_forwards_safely g s online path body g' name target t :
  proxyInference g s online path body = (g', Ok (name, target, t)) ->
  requestedModel body = Ok name /\
  (exists d n port ip, d ∈ deployments s /\ n ∈ nodes s /\ d_nodeId d = n_id n /\
     d_publishedName d = Some name /\ deploymentModality (d_config d) = PATH_MODALITY path /\
     d_status d = "running" /\ d_port d = Some port /\ n_ipAddress n = Some ip /\ ip <> "" /\
     online (n_id n) = true /\
     target = {| em_deploymentId := d_id d; em_nodeId := n_id n;
                 em_baseUrl := "http://" +:+ ip +:+ ":" +:+ pretty port |}) /\
  (forall m, m ∈ eligible (assessPool (map memberOf (matchingFor s path name)) online) ->
     (outstandingFor (counts g) (em_deploymentId target) <=
      outstandingFor (counts g) (em_deploymentId m))%Z) /\
  t = {| tk_deploymentId := em_deploymentId target; tk_released := false |} /\
  counts g' = <[em_deploymentId target :=
                  (outstandingFor (counts g) (em_deploymentId target) + 1)%Z]> (counts g).
Proof.
  unfold proxyInference. destruct (requestedModel body) as [req|e]; [|done].
  pose proof (resolvePool_spec s online path req) as Hres.
  destruct (resolvePool s online path req) as [[m p]|e]; [|done].
  destruct Hres as (-> & _ & ->).
  destruct (nextRotation (rotations g) req) as [rots r].
  pose proof (select_tied (outstandingFor (counts g))
    (eligible (assessPool (map memberOf (matchingFor s path req)) online)) r) as Hsel.
  destruct (selectLeastOutstanding _ _ _) as [tg|]; [|done].
  intros [= <- <- <- <-]. apply tiedMembers_spec in Hsel as [Hin Hmin].
  split; [done|]. split; [|split; [exact Hmin|done]].
  rewrite assessPool_omap in Hin. apply list_elem_of_omap in Hin as (c & Hc & Hm).
  destruct (assessMember online c) eqn:E; [|done]. injection Hm as ->.
  apply assessMember_eligible in E as (Hs & port & ip & Hp & Hip & Hne & Ho & ->).
  apply list_elem_of_fmap in Hc as ([d n] & -> & Hc).
  apply elem_of_matchingFor in Hc as [Hc Hmod]. apply elem_of_candidates in Hc as (Hd & Hpub & Hn).
  apply tbl_find_Some in Hn as [Hn Hid]. simpl in *. by exists d, n, port, ip.
Qed.

(** C3: Every refusal says which of the four things is wrong, and a refused
    request is never counted.  For a body naming a model, the answer is 404
    [model_not_found] exactly when no deployment publishes the name; 400
    [modality_mismatch] exactly when some do but none serves the path's modality;
    503 [no_eligible_member] exactly when some serve it but none can take a
    request now, and that answer lists every one of them with its reason; otherwise
    the request is forwarded. *)
Theorem proxyInference_refusals g s online path body name :
  requestedModel body = Ok name ->
  let r := proxyInference g s online path body in
  let pool := assessPool (map memberOf (matchingFor s path name)) online in
  (candidates s name = [] /\ counts r.1 = counts g /\
     exists e, r.2 = Err e /\ rf_status e = 404%Z /\ rf_code e = "model_not_found") \/
  (candidates s name <> [] /\ matchingFor s path name = [] /\ counts r.1 = counts g /\
     exists e, r.2 = Err e /\ rf_status e = 400%Z /\ rf_code e = "modality_mismatch") \/
  (matchingFor s path name <> [] /\ eligible pool = [] /\ counts r.1 = counts g /\
     exists e, r.2 = Err e /\ rf_status e = 503%Z /\ rf_code e = "no_eligible_member" /\
       length (rf_members e) = length (matchingFor s path name) /\
       map (fun m => Some m.1.2) (rf_members e) =
         map (fun c => firstFailing online (memberOf c)) (matchingFor s path name)) \/
  (eligible pool <> [] /\ exists target t, r.2 = Ok (name, target, t)).
Proof.
  intros Hreq r pool. unfold r, proxyInference. rewrite Hreq.
  pose proof (resolvePool_spec s online path name) as Hres.
  destruct (resolvePool s online path name) as [[m p]|e].
  - destruct Hres as (-> & Hne & ->). fold pool.
    destruct (nextRotation (rotations g) name) as [rots rot].
    pose proof (select_tied (outstandingFor (counts g)) (eligible pool) rot) as Hsel.
    destruct (selectLeastOutstanding _ _ _) as [tg|].
    + right; right; right. split; [|by eexists _, _].
      apply tiedMembers_spec in Hsel as [Hin _]. intros E. rewrite E in Hin.
      by apply elem_of_nil in Hin.
    + right; right; left. split; [done|]. split; [done|]. split; [done|].
      eexists. split; [done|]. split; [done|]. split; [done|].
      unfold noEligibleMember. cbn [rf_members].
      rewrite length_map.
      destruct (assessPool_split (map memberOf (matchingFor s path name)) online)
        as (_ & He & Hx & Hlen). fold pool in He, Hx, Hlen.
      rewrite Hsel in Hlen, He. rewrite length_map in Hlen. split; [done|].
      rewrite map_map. simpl.
      assert (map (fun x => Some (xm_reason x)) (excluded pool) =
              map snd (map (fun x => (xm_deploymentId x, Some (xm_reason x))) (excluded pool))) as ->
        by (by rewrite map_map).
      rewrite Hx, map_map. simpl.
      rewrite forallb_filter_id; [by rewrite map_map|].
      apply forallb_forall. intros c Hc. apply negb_true_iff, bool_decide_eq_false.
      intros Hf. assert (In c (List.filter (fun c => bool_decide (firstFailing online c = None))
        (map memberOf (matchingFor s path name)))) as Hin.
      { apply filter_In. by rewrite bool_decide_eq_true. }
      destruct (List.filter _ (map memberOf (matchingFor s path name))); [done|discriminate He].
  - destruct Hres as [Hm [(Hc & Hst & Hcode)|(Hc & Hst & Hcode)]].
    + left. split; [done|]. split; [done|]. by exists e.
    + right; left. split; [done|]. split; [done|]. split; [done|]. by exists e.
Qed.

(** * Accounting under interleaving *)

Module Machine.

(** The gateway and the release closures handed out so far. *)
Record mstate := { m_gateway : gateway; m_tokens : list token }.

Definition m_init : mstate := {| m_gateway := {| counts := ∅; rotations := ∅ |}; m_tokens := [] |}.

(** A request is refused, or picks a member and holds a token; a held closure
    may be called at any time, any number of times. *)
Inductive mstep : mstate -> mstate -> Prop :=
  | step_refuse g ts s online path body g' e :
      proxyInference g s online path body = (g', Err e) ->
      mstep {| m_gateway := g; m_tokens := ts |} {| m_gateway := g'; m_tokens := ts |}
  | step_forward g ts s online path body g' name target t :
      proxyInference g s online path body = (g', Ok (name, target, t)) ->
      mstep {| m_gateway := g; m_tokens := ts |} {| m_gateway := g'; m_tokens := t :: ts |}
  | step_release g ts1 t ts2 c' t' :
      release (counts g) t = (c', t') ->
      mstep {| m_gateway := g; m_tokens := ts1 ++ t :: ts2 |}
            {| m_gateway := {| counts := c'; rotations := rotations g |};
               m_tokens := ts1 ++ t' :: ts2 |}.

Inductive reachable : mstate -> Prop :=
  | reach_init : reachable m_init
  | reach_step st st' : reachable st -> mstep st st' -> reachable st'.

(** Tokens still held against a deployment. *)
Definition held (ts : list token) (id : string) : Z :=
  Z.of_nat (length (List.filter (fun t => negb (tk_released t) &&
                                          String.eqb (tk_deploymentId t) id) ts)).

Definition accounted (c : gmap string Z) (ts : list token) : Prop :=
  forall id, c !! id = (if (held ts id =? 0)%Z then None else Some (held ts id)).

Lemma held_cons t ts id :
  held (t :: ts) id =
  ((if negb (tk_released t) && String.eqb (tk_deploymentId t) id then 1 else 0) + held ts id)%Z.
Proof. unfold held. simpl. destruct (_ && _); simpl; lia. Qed.

Lemma held_app ts1 ts2 id : held (ts1 ++ ts2) id = (held ts1 id + held ts2 id)%Z.
Proof. unfold held. rewrite List.filter_app, length_app. lia. Qed.

Lemma held_nonneg ts id : (0 <= held ts id)%Z.
Proof. unfold held. lia. Qed.

Lemma accounted_outstanding c ts id : accounted c ts -> outstandingFor c id = held ts id.
Proof.
  intros H. unfold outstandingFor. rewrite H. destruct (Z.eqb_spec (held ts id) 0); simpl; lia.
Qed.

Lemma acquire_accounted c ts id :
  accounted c ts -> let '(c', t) := acquire c id in accounted c' (t :: ts).
Proof.
  intros H j. simpl. rewrite held_cons. simpl. rewrite (accounted_outstanding _ _ _ H).
  pose proof (held_nonneg ts j). destruct (String.eqb_spec id j) as [->|Hne].
  - rewrite lookup_insert_eq. destruct (Z.eqb_spec (1 + held ts j) 0); [lia|]. f_equal. lia.
  - rewrite lookup_insert_ne by done. rewrite H. done.
Qed.

Lemma release_accounted c ts1 t ts2 c' t' :
  accounted c (ts1 ++ t :: ts2) -> release c t = (c', t') -> accounted c' (ts1 ++ t' :: ts2).
Proof.
  intros H. unfold release. destruct (tk_released t) eqn:R; [by intros [= <- <-]|].
  intros [= <- <-] j. rewrite (accounted_outstanding _ _ _ H).
  rewrite !held_app, !held_cons. simpl. rewrite R. simpl. rewrite String.eqb_refl.
  pose proof (held_nonneg ts1 j). pose proof (held_nonneg ts2 j).
  pose proof (held_nonneg ts1 (tk_deploymentId t)). pose proof (held_nonneg ts2 (tk_deploymentId t)).
  specialize (H j). rewrite held_app, held_cons, R in H. simpl in H.
  destruct (String.eqb_spec (tk_deploymentId t) j) as [E|Hne]; [subst j|].
  - destruct (Z.ltb_spec 0 (held ts1 (tk_deploymentId t) +
      (1 + held ts2 (tk_deploymentId t)) - 1)).
    + rewrite lookup_insert_eq.
      destruct (Z.eqb_spec (held ts1 (tk_deploymentId t) + (0 + held ts2 (tk_deploymentId t))) 0);
        [lia|]. f_equal. lia.
    + rewrite lookup_delete_eq.
      destruct (Z.eqb_spec (held ts1 (tk_deploymentId t) + (0 + held ts2 (tk_deploymentId t))) 0);
        [done|lia].
  - rewrite <- H.
    match goal with |- context [if (0 <? ?x)%Z then _ else _] => destruct (0 <? x)%Z end.
    + by rewrite lookup_insert_ne.
    + by rewrite lookup_delete_ne.
Qed.

(** The handler touches the counts by at most one [acquire]. *)
Lemma proxyInference_counts g s online path body :
  match proxyInference g s online path body with
  | (g', Err _) => counts g' = counts g
  | (g', Ok (_, target, t)) => (counts g', t) = acquire (counts g) (em_deploymentId target)
  end.
Proof.
  unfold proxyInference. destruct (requestedModel body) as [req|]; [|done].
  destruct (resolvePool s online path req) as [[m p]|]; [|done]. simpl.
  by destruct (selectLeastOutstanding _ _ _).
Qed.

Definition rotationsOk (rots : gmap string Z) : Prop :=
  forall name v, rots !! name = Some v -> (0 <= v < 1000000)%Z.

Lemma nextRotation_ok rots name :
  rotationsOk rots -> rotationsOk (nextRotation rots name).1.
Proof.
  intros H n v. unfold nextRotation. simpl. destruct (decide (n = name)) as [->|].
  - rewrite lookup_insert_eq. intros [= <-].
    assert (0 <= default 0%Z (rots !! name))%Z.
    { destruct (rots !! name) eqn:E; simpl; [|lia]. apply H in E. lia. }
    apply Z.rem_bound_pos; lia.
  - rewrite lookup_insert_ne by done. apply H.
Qed.

Lemma proxyInference_rotations g s online path body :
  rotationsOk (rotations g) -> rotationsOk (rotations (proxyInference g s online path body).1).
Proof.
  unfold proxyInference. destruct (requestedModel body) as [req|]; [|done].
  destruct (resolvePool s online path req) as [[m p]|]; [|done].
  intros H. apply (nextRotation_ok _ req) in H. simpl in *.
  by destruct (selectLeastOutstanding _ _ _).
Qed.

Lemma reachable_invariant st :
  reachable st ->
  accounted (counts (m_gateway st)) (m_tokens st) /\ rotationsOk (rotations (m_gateway st)).
Proof.
  induction 1 as [|st st' _ [IHa IHr] Hstep].
  { split; [intros id; apply lookup_empty|intros n v H]. simpl in H. by rewrite lookup_empty in H. }
  destruct Hstep as [g ts s online path body g' e Hp|g ts s online path body g' name tg t Hp|
    g ts1 t ts2 c' t' Hrel]; simpl in *.
  - pose proof (proxyInference_counts g s online path body) as Hc.
    pose proof (proxyInference_rotations g s online path body IHr) as Hr.
    rewrite Hp in Hc, Hr. by rewrite Hc.
  - pose proof (proxyInference_counts g s online path body) as Hc.
    pose proof (proxyInference_rotations g s online path body IHr) as Hr.
    rewrite Hp in Hc, Hr. split; [|done].
    pose proof (acquire_accounted _ _ (em_deploymentId tg) IHa) as Ha. by rewrite <- Hc in Ha.
  - split; [|done]. by eapply release_accounted.
Qed.

(** The accounting never leaks.  In every state the gateway can reach, by
    any interleaving of refused requests, forwarded requests and (possibly
    repeated) releases, the count kept for a deployment is exactly the number of
    its requests not yet released, an idle deployment has no entry at all, and
    every rotation stays below a million; so once every request has settled the
    counts are empty. *)
Theorem inflight_accounting st :
  reachable st ->
  (forall id, outstandingFor (counts (m_gateway st)) id = held (m_tokens st) id /\
              (held (m_tokens st) id = 0%Z -> counts (m_gateway st) !! id = None)) /\
  (forall name v, rotations (m_gateway st) !! name = Some v -> (0 <= v < 1000000)%Z) /\
  (Forall (fun t => tk_released t = true) (m_tokens st) -> counts (m_gateway st) = ∅).
Proof.
  intros [Ha Hr]%reachable_invariant. split; [|split; [exact Hr|]].
  - intros id. split; [by apply accounted_outstanding|]. intros H0. by rewrite Ha, H0.
  - intros Hall. apply map_eq. intros id. rewrite lookup_empty, Ha.
    assert (held (m_tokens st) id = 0%Z) as ->; [|done].
    clear Ha Hr. unfold held. induction (m_tokens st) as [|t ts IH]; [done|].
    apply Forall_cons in Hall as [Ht Hts]. simpl. rewrite Ht. simpl. auto.
Qed.

End Machine.
