(* ===== verification/GatewayViews.v ===== *)
(** The lists the gateway shows: the pool view, the model list; and what
    crosses it: the request body and the headers; and, in [Relay], the hop. *)
From S2P Require Import Prelude JsNum Schema Gateway GatewayFacts.
Import Modality Pool Inflight Proxy Router.

Lemma serving_total (a b : PoolViewMember) :
  pm_serving a || negb (pm_serving b) = true \/ pm_serving b || negb (pm_serving a) = true.
Proof. destruct (pm_serving a), (pm_serving b); auto. Qed.

Lemma serving_trans (a b c : PoolViewMember) :
  pm_serving a || negb (pm_serving b) = true -> pm_serving b || negb (pm_serving c) = true ->
  pm_serving a || negb (pm_serving c) = true.
Proof. destruct (pm_serving a), (pm_serving b), (pm_serving c); auto. Qed.

Section View.
Context (isNodeOnline : string -> bool) (outstanding : string -> Z).
Let row_key (r : PoolViewRow) : string := mc_id (pr_member r).

Lemma viewMember_spec group r :
  NoDup (map row_key group) -> r ∈ group ->
  let m := viewMember (assessPool (map pr_member group) isNodeOnline) outstanding r in
  pm_serving m = bool_decide (firstFailing isNodeOnline (pr_member r) = None) /\
  fst <$> pm_why m = firstFailing isNodeOnline (pr_member r).
Proof.
  intros Hnd Hr m. unfold m, viewMember. simpl. rewrite assessPool_omap. simpl.
  assert (forall r', r' ∈ group -> row_key r' = row_key r -> r' = r) as Huniq.
  { intros r' Hr' E. by eapply NoDup_map_inj. }
  pose proof (assessMember_reason isNodeOnline (pr_member r)) as Hrow.
  set (el := omap _ _). set (ex := omap (fun c => memberOut _) _).
  assert (forall x, x ∈ ex -> exists r', r' ∈ group /\ row_key r' = xm_deploymentId x /\
            assessMember isNodeOnline (pr_member r') = inr x) as Hex.
  { intros x (c & (r' & -> & Hr')%list_elem_of_fmap & Hx)%list_elem_of_omap. exists r'.
    pose proof (assessMember_reason isNodeOnline (pr_member r')) as H.
    destruct (assessMember isNodeOnline (pr_member r')); [done|]. injection Hx as ->.
    by destruct H as (_ & -> & _). }
  destruct (assessMember isNodeOnline (pr_member r)) as [e|x] eqn:E.
  - destruct Hrow as [-> Hid]. rewrite bool_decide_true by done.
    assert (mem_str (mc_id (pr_member r)) (map em_deploymentId el) = true) as ->; [|done].
    apply mem_str_spec, list_elem_of_fmap. exists e. split; [done|].
    apply list_elem_of_omap. exists (pr_member r). rewrite E.
    split; [|done]. apply list_elem_of_fmap. by exists r.
  - destruct Hrow as (-> & Hid & _). rewrite bool_decide_false by done.
    assert (mem_str (mc_id (pr_member r)) (map em_deploymentId el) = false) as ->.
    { apply not_true_is_false. intros (e & He & Hin)%mem_str_spec%list_elem_of_fmap.
      apply list_elem_of_omap in Hin as (c & (r' & -> & Hr')%list_elem_of_fmap & Hm).
      pose proof (assessMember_reason isNodeOnline (pr_member r')) as H'.
      destruct (assessMember isNodeOnline (pr_member r')) eqn:E'; [|done].
      injection Hm as ->. destruct H' as [_ H'].
      rewrite (Huniq r') in E'; [congruence|done|unfold row_key in *; congruence]. }
    split; [done|]. rewrite al_get_foldl.
    assert (x ∈ ex) as Hx.
    { apply list_elem_of_omap. exists (pr_member r). rewrite E. split; [|done].
      apply list_elem_of_fmap. by exists r. }
    destruct (js_find_exists (fun y => bool_decide (xm_deploymentId y = mc_id (pr_member r)))
      (rev ex) x) as [y Hy].
    { by apply elem_of_rev. }
    { by apply bool_decide_true. }
    rewrite Hy. apply js_find_Some in Hy as [Hin Hk%bool_decide_eq_true].
    rewrite elem_of_rev in Hin.
    destruct (Hex _ Hin) as (r' & Hr' & Hk' & E').
    rewrite (Huniq r') in E'; [|done|unfold row_key in *; congruence].
    simpl. congruence.
Qed.

(** The pool view is the published deployments regrouped, nothing more or
    less.  One pool per published name, sorted by name; a pool's members are
    exactly the rows with its name, each once, serving ones first; a member is
    marked serving iff a request could go to it and otherwise carries the first
    condition that fails; and [servingCount] is the number of members so marked. *)
Theorem buildPoolView_exact rows :
  NoDup (map row_key rows) ->
  let views := buildPoolView rows isNodeOnline outstanding in
  NoDup (map pv_publishedName views) /\
  StronglySorted (fun a b => str_le (pv_publishedName a) (pv_publishedName b) = true) views /\
  (forall name, name ∈ map pv_publishedName views <->
     exists r, r ∈ rows /\ pr_publishedName r = name) /\
  forall v, v ∈ views ->
    map pm_deploymentId (pv_members v) ≡ₚ
      map row_key (List.filter (fun r => bool_decide (pr_publishedName r = pv_publishedName v)) rows) /\
    pv_servingCount v = length (List.filter pm_serving (pv_members v)) /\
    StronglySorted (fun a b => pm_serving a || negb (pm_serving b) = true) (pv_members v) /\
    forall m, m ∈ pv_members v -> exists r, r ∈ rows /\
      pr_publishedName r = pv_publishedName v /\ pm_deploymentId m = row_key r /\
      pm_serving m = bool_decide (firstFailing isNodeOnline (pr_member r) = None) /\
      fst <$> pm_why m = firstFailing isNodeOnline (pr_member r).
Proof.
  intros Hnd views.
  assert (map pv_publishedName views ≡ₚ (group_by pr_publishedName rows).*1) as Hnames.
  { unfold views, buildPoolView. rewrite js_sort_perm, map_map. done. }
  split; [rewrite Hnames; apply group_by_NoDup|]. split.
  { apply js_sort_sorted; intros; [apply str_le_total|by eapply str_le_trans]. }
  split; [intros name; rewrite Hnames; apply group_by_keys|].
  intros v Hv. unfold views, buildPoolView in Hv. rewrite elem_of_js_sort in Hv.
  apply list_elem_of_fmap in Hv as ([name group] & -> & Hg).
  apply group_by_elem in Hg as [Hg _]. rewrite filter_decide_eq in Hg.
  assert (NoDup (map row_key group)) as Hndg by (subst group; by apply NoDup_map_filter).
  unfold viewPool. cbn [pv_publishedName pv_members pv_servingCount fst snd].
  set (mk := viewMember _ _).
  set (members := js_sort _ _).
  assert (members ≡ₚ map mk group) as Hperm.
  { unfold members. rewrite js_sort_perm.
    change (map mk) with (fmap (M := list) mk). by rewrite js_sort_perm. }
  rewrite <- Hg. split; [|split; [|split]].
  - change (map pm_deploymentId) with (fmap (M := list) pm_deploymentId). rewrite Hperm.
    change (fmap (M := list) pm_deploymentId (map mk group)) with (map pm_deploymentId (map mk group)).
    by rewrite map_map.
  - rewrite (filter_length_perm _ _ _ Hperm), filter_length_map.
    destruct (assessPool_split (map pr_member group) isNodeOnline) as (_ & He & _ & _).
    apply (f_equal (@length string)) in He. rewrite !length_map in He. rewrite He.
    rewrite filter_length_map. apply filter_ext_in_length. intros r Hr.
    symmetry. by apply viewMember_spec.
  - apply js_sort_sorted; [apply serving_total|apply serving_trans].
  - intros m Hm. rewrite Hperm in Hm. apply list_elem_of_fmap in Hm as (r & -> & Hr).
    exists r. destruct (viewMember_spec group r Hndg Hr) as [H1 H2].
    rewrite Hg in Hr. apply elem_of_filter_bool in Hr as [Hr Hn%bool_decide_eq_true]. done.
Qed.
End View.

(** * The model list *)

Lemma noteEarliest_NoDup ds : NoDup (foldl noteEarliest [] ds).*1.
Proof.
  induction ds as [|d ds IH] using rev_ind; [apply NoDup_nil_2|].
  rewrite foldl_app. simpl. unfold noteEarliest at 1. cases; by apply al_set_NoDup.
Qed.

(** The dates of the deployments listed under a name. *)
Definition datesOf (ds : list ModelListCandidate) (name : string) : list Z :=
  omap (fun d => if decide (truthy (ml_publishedName d) = Some name)
                 then Some (ml_createdAtMs d / 1000)%Z else None) ds.

Lemma noteEarliest_min ds name :
  match al_get (foldl noteEarliest [] ds) name with
  | Some z => z ∈ datesOf ds name /\ forall y, y ∈ datesOf ds name -> (z <= y)%Z
  | None => datesOf ds name = []
  end.
Proof.
  unfold datesOf. induction ds as [|d ds IH] using rev_ind; [done|].
  rewrite foldl_app, omap_app. cbn [foldl]. unfold noteEarliest at 1.
  set (m := foldl noteEarliest [] ds) in *. set (o := omap _ ds) in *.
  simpl omap. destruct (truthy (ml_publishedName d)) as [n|].
  2:{ rewrite decide_False by done. by rewrite app_nil_r. }
  destruct (decide (Some n = Some name)) as [[= ->]|Hn].
  - destruct (al_get m name) as [z|] eqn:E.
    + destruct IH as [Hz Hmin]. destruct (Z.ltb_spec (ml_createdAtMs d / 1000) z).
      * rewrite al_get_set, decide_True by done. split; [set_solver|].
        intros y [Hy%Hmin| ->%list_elem_of_singleton]%elem_of_app; lia.
      * rewrite E. split; [set_solver|].
        intros y [Hy%Hmin| ->%list_elem_of_singleton]%elem_of_app; lia.
    + rewrite al_get_set, decide_True by done. rewrite IH. simpl.
      split; [by left|]. intros y ->%list_elem_of_singleton. done.
  - rewrite app_nil_r. assert (name <> n) by congruence.
    destruct (al_get m n) as [z|]; [destruct (_ <? _)%Z|];
      rewrite ?al_get_set, ?(decide_False (P := name = n)) by done; exact IH.
Qed.

(** [GET /v1/models] lists what is deployed and only that.  The ids are
    distinct and sorted; an id is listed iff some running deployment publishes
    that non-empty name, and [created] is the second the earliest of them was
    created. *)
Theorem getModels_lists_published s :
  let l := getModels s in
  NoDup (map om_id l) /\
  StronglySorted (fun a b => str_le (om_id a) (om_id b) = true) l /\
  forall id created, (exists owner, Build_OpenAiModel id created owner ∈ l) <->
    id <> "" /\
    (exists d, d ∈ deployments s /\ d_status d = "running" /\ d_publishedName d = Some id /\
       created = (d_createdAt d / 1000)%Z) /\
    forall d, d ∈ deployments s -> d_status d = "running" -> d_publishedName d = Some id ->
      (created <= d_createdAt d / 1000)%Z.
Proof.
  intros l. unfold l, getModels. set (ds := omap _ (deployments s)).
  assert (forall id y, y ∈ datesOf ds id <-> id <> "" /\ exists d, d ∈ deployments s /\
    d_status d = "running" /\ d_publishedName d = Some id /\ y = (d_createdAt d / 1000)%Z) as Hds.
  { intros id y. unfold datesOf, ds. rewrite list_elem_of_omap. split.
    - intros (c & (d & Hd & Hc)%list_elem_of_omap & Hy).
      destruct (String.eqb (d_status d) HEALTHY_STATUS) eqn:Es; [|done].
      apply String.eqb_eq in Es. destruct (d_publishedName d) as [n|] eqn:Ep; [|done].
      injection Hc as <-. cbn [ml_publishedName ml_createdAtMs] in Hy.
      destruct (decide _) as [Ht|]; [|done]. injection Hy as <-.
      apply truthy_Some in Ht as [[= ->] Hne]. split; [done|]. by exists d.
    - intros (Hne & d & Hd & Hs & Hp & ->).
      exists (Build_ModelListCandidate (Some id) (d_createdAt d)). split.
      + apply list_elem_of_omap. exists d. split; [done|]. rewrite Hs, Hp. done.
      + simpl ml_publishedName. rewrite decide_True; [done|]. by apply truthy_Some. }
  unfold toModelList. set (m := foldl noteEarliest [] ds).
  pose proof (noteEarliest_NoDup ds) as Hnd. fold m in Hnd.
  split; [|split].
  - rewrite map_map. simpl. change (map (fun x : string * Z => x.1)) with (fmap (M := list) (@fst string Z)).
    by rewrite js_sort_perm.
  - assert (StronglySorted (fun a b : string * Z => str_le a.1 b.1 = true)
      (js_sort (fun a b : string * Z => str_le a.1 b.1) m)) as Hs.
    { apply js_sort_sorted; intros; [apply str_le_total|by eapply str_le_trans]. }
    induction Hs as [|e es Hs IH He]; simpl; constructor; [done|].
    rewrite Forall_map. exact He.
  - intros id created.
    assert ((exists owner, Build_OpenAiModel id created owner ∈
      map (fun e => {| om_id := e.1; om_created := e.2; om_owned_by := OWNER |})
        (js_sort (fun a b : string * Z => str_le a.1 b.1) m)) <-> al_get m id = Some created) as ->.
    { rewrite <- (al_get_elem _ _ _ Hnd), <- (elem_of_js_sort (fun a b => str_le a.1 b.1)). split.
      - intros (o & ([i c] & [= -> -> ->] & H)%list_elem_of_fmap). done.
      - intros H. exists OWNER. apply list_elem_of_fmap. by exists (id, created). }
    pose proof (noteEarliest_min ds id) as Hmin. fold m in Hmin. split.
    + intros E. rewrite E in Hmin. destruct Hmin as [Hin Hle].
      apply Hds in Hin as [Hne Hex]. split; [done|]. split; [done|].
      intros d Hd Hs Hp. apply Hle, Hds. split; [done|]. by exists d.
    + intros (Hne & Hex & Hall). destruct (al_get m id) as [z|].
      * destruct Hmin as [Hz Hle]. f_equal. apply Z.le_antisymm.
        -- apply Hle, Hds. done.
        -- apply Hds in Hz as (_ & d & Hd & Hs & Hp & ->). by apply Hall.
      * assert (created ∈ datesOf ds id) as H by (by apply Hds). rewrite Hmin in H.
        by apply elem_of_nil in H.
Qed.

(** * What crosses the gateway *)

Definition bytes (cs : list string) : Z := foldr (fun c n => (Z.of_nat (String.length c) + n)%Z) 0%Z cs.

Lemma bytes_app xs ys : bytes (xs ++ ys) = (bytes xs + bytes ys)%Z.
Proof. induction xs as [|x xs IH]; simpl; [done|]. rewrite IH. lia. Qed.

Lemma bytes_nonneg xs : (0 <= bytes xs)%Z.
Proof. induction xs as [|x xs IH]; simpl; lia. Qed.

Definition emptyBody : bodyState := {| chunks := []; size := 0; settled := None |}.

Lemma bodyStep_settled limit st o events :
  settled st = Some o -> foldl (bodyStep limit) st events = st.
Proof.
  intros H. induction events as [|e events IH]; [done|]. simpl.
  unfold bodyStep at 2. by rewrite H.
Qed.

Lemma bodyStep_chunks limit cs :
  (bytes cs <= limit)%Z ->
  foldl (bodyStep limit) emptyBody (map Data cs) =
  {| chunks := cs; size := bytes cs; settled := None |}.
Proof.
  induction cs as [|c cs IH] using rev_ind; intros Hl; [done|].
  rewrite bytes_app in *. simpl in Hl |- *. rewrite map_app, foldl_app. rewrite IH by lia. simpl.
  destruct (Z.ltb_spec limit (bytes cs + Z.of_nat (String.length c))); [lia|].
  unfold bodyStep. simpl. destruct (Z.ltb_spec limit (bytes cs + Z.of_nat (String.length c))); [lia|].
  f_equal. lia.
Qed.

(** The body is read under the limit.  While the chunks received so far fit,
    the read stays pending, and it resolves to exactly their concatenation when
    the stream ends and fails when the stream does; the first chunk that goes over
    the limit rejects at once, whatever would have followed; and the chunks held in
    memory never add up to more than the limit. *)
Theorem readBodyWithLimit_spec limit cs rest :
  (bytes cs <= limit)%Z ->
  readBodyWithLimit limit (map Data cs) = None /\
  readBodyWithLimit limit (map Data cs ++ End :: rest) = Some (Body (str_join "" cs)) /\
  readBodyWithLimit limit (map Data cs ++ StreamError :: rest) = Some BodyError /\
  (forall c, (limit < bytes (cs ++ [c]))%Z ->
     readBodyWithLimit limit (map Data cs ++ Data c :: rest) = Some (BodyTooLarge limit)) /\
  (forall events, (bytes (chunks (foldl (bodyStep limit) emptyBody events)) <= limit)%Z).
Proof.
  intros Hl. unfold readBodyWithLimit. fold emptyBody.
  rewrite !foldl_app. simpl. rewrite bodyStep_chunks by done. simpl.
  repeat split.
  - by erewrite bodyStep_settled.
  - by erewrite bodyStep_settled.
  - intros c Hc. rewrite bytes_app in Hc. simpl in Hc.
    rewrite foldl_app. simpl. rewrite bodyStep_chunks by done. unfold bodyStep at 2. simpl.
    destruct (Z.ltb_spec limit (bytes cs + Z.of_nat (String.length c))); [|lia].
    by erewrite bodyStep_settled.
  - intros events.
    assert (forall st, (bytes (chunks st) <= size st)%Z -> (bytes (chunks st) <= limit)%Z ->
      (bytes (chunks (foldl (bodyStep limit) st events)) <= limit)%Z) as H.
    { induction events as [|e events IH]; intros st Hs Hb; [done|]. simpl. apply IH.
      - unfold bodyStep. destruct (settled st); [done|]. destruct e; simpl; [|done..].
        destruct (_ <? _)%Z; simpl; rewrite ?bytes_app; simpl; lia.
      - unfold bodyStep. destruct (settled st); [done|]. destruct e; simpl; [|done..].
        destruct (Z.ltb_spec limit (size st + Z.of_nat (String.length chunk))); simpl;
          rewrite ?bytes_app; simpl; lia. }
    apply H; simpl; [lia|]. pose proof (bytes_nonneg cs). lia.
Qed.

Definition renderHeader (v : headerValue) : option string :=
  match v with Undefined => None | One s => Some s | Many ss => Some (str_join ", " ss) end.

Lemma forwardHeader_foldl hs out k v :
  (k, v) ∈ foldl forwardHeader out hs ->
  (k, v) ∈ out \/ exists hv, (k, hv) ∈ hs /\ renderHeader hv = Some v /\
                             str_lower k ∉ HEADERS_NEVER_FORWARDED.
Proof.
  revert out. induction hs as [|[k' hv] hs IH]; intros out H; [by left|]. simpl in H.
  apply IH in H as [H|(hv' & H & Hr & Hn)]; [|right; exists hv'; set_solver].
  unfold forwardHeader in H. simpl in H.
  assert (forall s, renderHeader hv = Some s ->
    (k, v) ∈ (if mem_str (str_lower k') HEADERS_NEVER_FORWARDED then out else al_set out k' s) ->
    (k, v) ∈ out \/ exists hv0, (k, hv0) ∈ (k', hv) :: hs /\ renderHeader hv0 = Some v /\
                               str_lower k ∉ HEADERS_NEVER_FORWARDED) as Hset.
  { intros s Hs Hin. destruct (mem_str _ _) eqn:E; [by left|].
    apply not_true_iff_false in E. rewrite mem_str_spec in E.
    clear IH H. induction out as [|[k0 v0] out IHo]; simpl in Hin.
    - apply list_elem_of_singleton in Hin as [= -> ->]. right. exists hv. split; [by left|done].
    - destruct (decide (k' = k0)) as [<-|].
      + apply elem_of_cons in Hin as [[= -> ->]|Hin]; [|left; by right].
        right. exists hv. split; [by left|done].
      + apply elem_of_cons in Hin as [Heq|Hin]; [left; rewrite Heq; by left|].
        destruct (IHo Hin) as [?|?]; [left; by right|by right]. }
  destruct hv as [|s|ss]; [by left|exact (Hset s eq_refl H)|exact (Hset (str_join ", " ss) eq_refl H)].
Qed.

Lemma forwardHeader_get hs out k hv :
  NoDup hs.*1 -> k ∉ out.*1 -> (k, hv) ∈ hs -> str_lower k ∉ HEADERS_NEVER_FORWARDED ->
  al_get (foldl forwardHeader out hs) k = renderHeader hv.
Proof.
  assert (forall h out j, j <> h.1 -> al_get (forwardHeader out h) j = al_get out j) as Hother.
  { intros [k' hv'] o j Hj. unfold forwardHeader. simpl in *.
    destruct hv'; [done|..]; destruct (mem_str _ _); try done; by rewrite al_get_set, decide_False. }
  assert (forall hs out j, j ∉ hs.*1 -> al_get (foldl forwardHeader out hs) j = al_get out j) as Hrest.
  { intros l. induction l as [|h l IH]; intros o j Hj; [done|]. simpl in *.
    rewrite IH, Hother by set_solver. done. }
  revert out. induction hs as [|[k' hv'] hs IH]; intros out Hnd Hk Hin Hn; [by apply elem_of_nil in Hin|].
  apply NoDup_cons in Hnd as [Hk' Hnd]. simpl. apply elem_of_cons in Hin as [[= -> ->]|Hin].
  - rewrite Hrest by done. unfold forwardHeader. simpl.
    assert (mem_str (str_lower k') HEADERS_NEVER_FORWARDED = false) as ->.
    { apply not_true_iff_false. by rewrite mem_str_spec. }
    apply al_get_None in Hk. destruct hv'; [done|..]; simpl; by rewrite al_get_set, decide_True.
  - apply IH; [done| |done|done]. apply al_get_None. rewrite Hother; [by apply al_get_None|].
    simpl. intros ->. apply Hk'. apply list_elem_of_fmap. by exists (k', hv).
Qed.

(** A client's credential never reaches a node.  Every header of the upstream
    request is either the recomputed [content-length] of the exact bytes forwarded,
    or a header the client sent, with its value, whose name is not (in any case)
    [authorization], [cookie], [host] or another of the never-forwarded ones; and
    every such header with a value is forwarded. *)
Theorem upstreamHeaders_exact hs body :
  NoDup hs.*1 ->
  (forall k v, (k, v) ∈ upstreamHeaders hs body ->
     (k = "content-length" /\ v = pretty (Z.of_nat (String.length body))) \/
     (str_lower k ∉ HEADERS_NEVER_FORWARDED /\
      exists hv, (k, hv) ∈ hs /\ renderHeader hv = Some v)) /\
  al_get (upstreamHeaders hs body) "content-length" = Some (pretty (Z.of_nat (String.length body))) /\
  (forall k hv, (k, hv) ∈ hs -> str_lower k ∉ HEADERS_NEVER_FORWARDED ->
     al_get (upstreamHeaders hs body) k = renderHeader hv).
Proof.
  intros Hnd. unfold upstreamHeaders, forwardableHeaders.
  assert (forall l (k v k' v' : string), (k, v) ∈ al_set l k' v' -> (k = k' /\ v = v') \/ (k, v) ∈ l) as Hset.
  { intros l k v k' v'. induction l as [|[k0 v0] l IH]; simpl.
    - intros [= -> ->]%list_elem_of_singleton. by left.
    - destruct (decide (k' = k0)) as [<-|].
      + intros [[= -> ->]|H]%elem_of_cons; [by left|right; by right].
      + intros [Heq|H]%elem_of_cons; [right; rewrite Heq; by left|].
        destruct (IH H); [by left|right; by right]. }
  split; [|split].
  - intros k v [?|H]%Hset; [by left|].
    apply forwardHeader_foldl in H as [?%elem_of_nil|(hv & H & Hr & Hn)]; [done|].
    right. split; [done|]. by exists hv.
  - by rewrite al_get_set, decide_True.
  - intros k hv Hin Hn. rewrite al_get_set, decide_False.
    + apply forwardHeader_get; [done|apply not_elem_of_nil|done|done].
    + intros ->. apply Hn. by apply mem_str_spec.
Qed.

(** ** Concrete runs *)


Definition gwNode (id ip : string) : node :=
  Node id ("spark-" +:+ id) (Some ip) "online" "on" (Some "gpu") None None None None None None
    "agent-deployed" true false None.
Definition gwDeployment (id nodeId status : string) (config : option jtext) : deployment :=
  Deployment id None nodeId "m1" status None (Some 8000%Z) (Some "qwen") config false None None 5000.
Definition gwDb : db :=
  Db [gwNode "n1" "10.0.0.1"; gwNode "n2" "10.0.0.2"] [ModelRow "m1" "qwen" "vllm" None]
     [gwDeployment "d1" "n1" "running" None; gwDeployment "d2" "n2" "running" None;
      gwDeployment "d3" "n2" "failed" None] [] [] [].
Definition gwBody : jtext := Some (JObj [("model", JStr "qwen")]).
Definition gwIdle : gateway := {| counts := ∅; rotations := {[ "qwen" := 0%Z ]} |}.
Definition gwOnline (id : string) : bool := true.

(** The first request of an idle pool goes to the second of the two members. *)
Example gateway_first_request :
  (fun r => match r with (_, Ok (_, t, _)) => em_baseUrl t | _ => "" end)
    (proxyInference gwIdle gwDb gwOnline ChatCompletions gwBody) = "http://10.0.0.2:8000".
Proof. by vm_compute. Qed.

(** An image deployment is refused on the chat path. *)
Example gateway_modality :
  (fun r => match r with (_, Err e) => rf_code e | _ => "" end)
    (proxyInference gwIdle
       (db_deployments (fun _ => [gwDeployment "d1" "n1" "running"
          (Some (Some (JObj [("modality", JStr "image")])))]) gwDb)
       gwOnline ChatCompletions gwBody) = "modality_mismatch".
Proof. by vm_compute. Qed.

Definition gwMembers : list EligibleMember :=
  [{| em_deploymentId := "d1"; em_nodeId := "n1"; em_baseUrl := "http://10.0.0.1:8000" |};
   {| em_deploymentId := "d2"; em_nodeId := "n2"; em_baseUrl := "http://10.0.0.2:8000" |}].

Lemma selection_least_and_fair_witness :
  map (selectLeastOutstanding gwMembers (outstandingFor ∅))
    (rotationRun {[ "qwen" := 0%Z ]} "qwen" (length (tiedMembers (outstandingFor ∅) gwMembers)))
  ≡ₚ map Some (tiedMembers (outstandingFor ∅) gwMembers).
Proof.
  apply (selection_least_and_fair gwMembers (outstandingFor ∅) {[ "qwen" := 0%Z ]} "qwen" 0 0);
    [by vm_compute|lia|by vm_compute].
Defined.

Lemma proxyInference_forwards_safely_witness :
  exists g' name target t,
    proxyInference gwIdle gwDb gwOnline ChatCompletions gwBody = (g', Ok (name, target, t)) /\
    counts g' = <[em_deploymentId target := 1%Z]> ∅.
Proof.
  destruct (proxyInference gwIdle gwDb gwOnline ChatCompletions gwBody)
    as [g' [[[name target] t]|e]] eqn:E; [|vm_compute in E; discriminate E].
  exists g', name, target, t. split; [done|].
  exact (proj2 (proj2 (proj2 (proj2
    (proxyInference_forwards_safely gwIdle gwDb gwOnline ChatCompletions gwBody g' name target t E))))).
Defined.

Lemma proxyInference_refusals_witness :
  requestedModel gwBody = Ok "qwen" /\
  exists e, (proxyInference gwIdle gwDb (fun _ => false) ChatCompletions gwBody).2 = Err e /\
            rf_status e = 503%Z /\ length (rf_members e) = 3%nat.
Proof.
  assert (requestedModel gwBody = Ok "qwen") as Hb by reflexivity.
  split; [exact Hb|].
  destruct (proxyInference_refusals gwIdle gwDb (fun _ => false) ChatCompletions gwBody "qwen" Hb)
    as [(H & _)|[(_ & H & _)|[(_ & _ & _ & e & He & Hs & _ & Hl & _)|(H & _)]]].
  - vm_compute in H. discriminate H.
  - vm_compute in H. discriminate H.
  - exists e. split; [exact He|]. split; [exact Hs|]. rewrite Hl. by vm_compute.
  - exfalso. apply H. by vm_compute.
Defined.

(** One request forwarded and released. *)
Lemma inflight_accounting_witness :
  exists st, Machine.reachable st /\ length (Machine.m_tokens st) = 1%nat /\
             counts (Machine.m_gateway st) = ∅.
Proof.
  destruct (proxyInference (Machine.m_gateway Machine.m_init) gwDb gwOnline ChatCompletions gwBody)
    as [g' [[[name target] t]|e]] eqn:E; [|vm_compute in E; discriminate E].
  destruct (release (counts g') t) as [c' t'] eqn:R.
  set (st := {| Machine.m_gateway := {| counts := c'; rotations := rotations g' |};
                Machine.m_tokens := [] ++ t' :: [] |}).
  assert (Machine.reachable st) as Hst.
  { eapply Machine.reach_step; [eapply Machine.reach_step; [apply Machine.reach_init|]|].
    - eapply Machine.step_forward. exact E.
    - by apply (Machine.step_release g' [] t []). }
  exists st. split; [exact Hst|]. split; [done|].
  apply (Machine.inflight_accounting st Hst). apply Forall_singleton.
  unfold release in R. destruct (tk_released t) eqn:T; by injection R as <- <-.
Defined.

Definition gwRows : list PoolViewRow := viewRows gwDb.

Lemma buildPoolView_exact_witness :
  NoDup (map pv_publishedName (buildPoolView gwRows gwOnline (outstandingFor ∅))) /\
  map pv_servingCount (buildPoolView gwRows gwOnline (outstandingFor ∅)) = [2%nat].
Proof.
  split; [|by vm_compute].
  apply (buildPoolView_exact gwOnline (outstandingFor ∅) gwRows).
  change (map (fun r : PoolViewRow => mc_id (pr_member r)) gwRows) with ["d1"; "d2"; "d3"].
  by apply (bool_decide_unpack _).
Defined.

Lemma readBodyWithLimit_spec_witness :
  readBodyWithLimit 4 (map Data ["ab"; "cd"] ++ [End]) = Some (Body "abcd") /\
  readBodyWithLimit 4 (map Data ["ab"; "cd"] ++ [Data "e"]) = Some (BodyTooLarge 4).
Proof.
  destruct (readBodyWithLimit_spec 4 ["ab"; "cd"] []) as (_ & H1 & _ & H2 & _); [done|].
  split; [exact H1|]. by apply (H2 "e").
Defined.

Lemma upstreamHeaders_exact_witness :
  al_get (upstreamHeaders [("Authorization", One "Bearer k"); ("accept", One "x")] "abc")
    "content-length" = Some "3".
Proof.
  apply (upstreamHeaders_exact [("Authorization", One "Bearer k"); ("accept", One "x")] "abc").
  by apply (bool_decide_unpack _).
Defined.

(** ** The hop: one request, then all of them *)
Module Relay.
Import Hop.

(** What holds of a hop at any time: its promise settles exactly when nothing
    more comes from the member, the release closure ran exactly then, an error
    body goes out only before the member's first byte, and the upstream is torn
    down only under a client that hung up early. *)
Record hopOk (st : hopState) : Prop := {
  ok_settled : hp_settled st = None <-> hp_upstream st <> Over;
  ok_token : tk_released (hp_token st) = bool_decide (hp_upstream st = Over);
  ok_sent : hp_upstream st = Requested -> rs_sent (hp_res st) = false;
  ok_error : forall e, rs_error (hp_res st) = Some e ->
             hp_settled st = Some FailedBeforeHeaders /\ rs_body (hp_res st) = [];
  ok_body : rs_sent (hp_res st) = false -> rs_body (hp_res st) = [];
  ok_ended : rs_ended (hp_res st) = true -> hp_upstream st = Over;
  ok_over : hp_upstream st = Over -> rs_closed (hp_res st) = false -> rs_ended (hp_res st) = true;
  ok_destroyed : hp_destroyed st = true -> rs_closed (hp_res st) = true }.

Lemma startHop_ok name t : tk_released t = false -> hopOk (startHop name t noResponse).
Proof. intros H. by split. Qed.

Lemma release_token c t :
  tk_released (release c t).2 = true /\ tk_deploymentId (release c t).2 = tk_deploymentId t.
Proof. unfold release. by destruct (tk_released t) eqn:E. Qed.

(** Settling a hop whose member just went [Over]. *)
Lemma settle_ok c st r rejected :
  hopOk st -> hp_upstream st <> Over ->
  rs_error r = None -> (rs_sent r = false -> rs_body r = []) ->
  (rejected = false -> rs_closed r = false -> rs_ended r = true) ->
  (rs_closed r = false -> hp_destroyed st = false) ->
  let st' := settle c (withUpstream st Over r) rejected in
  hopOk st'.2 /\ st'.1 = (release c (hp_token st)).1 /\
  hp_token st'.2 = (release c (hp_token st)).2.
Proof.
  intros [Hs Ht _ _ _ _ _ _] Ho Hre Hrb Hend Hrc. unfold settle. simpl.
  rewrite (proj2 Hs Ho).
  destruct (release_token c (hp_token st)) as [Hrel _].
  destruct (release c (hp_token st)) as [c' t']. simpl in *.
  split; [|done]. split; simpl; try done.
  - intros e. destruct rejected; [|congruence]. destruct (rs_sent r) eqn:S; simpl.
    + unfold endResponse. destruct (rs_closed r); simpl; congruence.
    + unfold sendError. destruct (rs_closed r); simpl; [congruence|]. eauto.
  - destruct rejected; [|done]. destruct (rs_sent r) eqn:S; simpl.
    + unfold endResponse. destruct (rs_closed r); simpl; [congruence|done].
    + unfold sendError. destruct (rs_closed r); simpl; [auto|done].
  - intros _. destruct rejected; [|auto]. destruct (rs_sent r); simpl;
      unfold endResponse, sendError; by destruct (rs_closed r) eqn:C; simpl; try congruence.
  - intros Hd. assert (rs_closed r = true) as Hc.
    { destruct (rs_closed r); [done|]. by rewrite Hrc in Hd. }
    destruct rejected; [|done]. destruct (rs_sent r); simpl;
      unfold endResponse, sendError; by rewrite Hc.
Qed.

(** One event keeps it, and touches the counts by at most the release of the
    hop's own token. *)
Lemma hopStep_ok c st e :
  hopOk st ->
  hopOk (hopStep c st e).2 /\
  ((hopStep c st e).1 = c /\ hp_token (hopStep c st e).2 = hp_token st \/
   (hopStep c st e).1 = (release c (hp_token st)).1 /\
   hp_token (hopStep c st e).2 = (release c (hp_token st)).2).
Proof.
  intros Hok. unfold hopStep. destruct (enabled st e) eqn:En; simpl; [|by split; [|left]].
  assert (forall e', hp_upstream st <> Over -> rs_error (hp_res st) <> Some e') as Hne.
  { intros e' Ho He. destruct (ok_error _ Hok _ He) as [Hse _].
    by rewrite (proj2 (ok_settled _ Hok) Ho) in Hse. }
  pose proof Hok as [Hs Ht Hsent Herr Hbody Hended Hover Hdes].
  assert (hp_upstream st <> Over -> hp_settled st = None) as Hnone by (intros; by apply Hs).
  assert (hp_upstream st <> Over -> rs_error (hp_res st) = None) as Hnoerr.
  { intros Ho. apply eq_None_not_Some. intros [e' He]. by apply (Hne e'). }
  assert (hp_upstream st <> Over -> rs_ended (hp_res st) = false) as Hopen.
  { intros Ho. destruct (rs_ended (hp_res st)); [|done]. by destruct (Ho (Hended eq_refl)). }
  assert (rs_closed (hp_res st) = false -> hp_destroyed st = false) as Hcl.
  { intros Hc. destruct (hp_destroyed st); [|done]. by rewrite Hdes in Hc. }
  destruct e as [code hs|chunk| | |]; simpl in En.
  - split; [|by left]. destruct (hp_upstream st) eqn:U; try done.
    split; simpl; try done; try (by rewrite Hnoerr); try (by rewrite Hopen).
    split; [done|]. by intros _; apply Hnone.
  - split; [|by left]. destruct (hp_upstream st) eqn:U; try done.
    unfold writeChunk. split; simpl; try done; destruct (rs_closed (hp_res st)) eqn:C; simpl;
      try done; try (by rewrite Hnoerr); try (by rewrite Hopen); try (by rewrite Hcl).
    all: try (split; [done|]; by intros _; apply Hnone).
  - destruct (hp_upstream st) eqn:U; try done.
    edestruct (settle_ok c st (endResponse (hp_res st)) false Hok) as (? & ? & ?); [by rewrite U|..].
    + unfold endResponse. destruct (rs_closed _); simpl; by apply Hnoerr.
    + unfold endResponse. destruct (rs_closed _); simpl; done || auto.
    + intros _. unfold endResponse. by destruct (rs_closed _) eqn:C; simpl; try congruence.
    + intros _. by destruct (hp_destroyed st).
    + split; [done|]. by right.
  - assert (hp_upstream st <> Over) as Ho by by destruct (hp_upstream st).
    edestruct (settle_ok c st (hp_res st) true Hok) as (? & ? & ?); by auto.
  - split; [|by left]. split; simpl; done.
Qed.

(** The interleaved hops refine the token machine: a hop holds its token until
    it settles. *)
Definition tokensOf (st : traffic) : Machine.mstate :=
  {| Machine.m_gateway := tr_gateway st; Machine.m_tokens := map hp_token (tr_hops st) |}.

Lemma trafficStep_ok st ev :
  Machine.reachable (tokensOf st) -> Forall hopOk (tr_hops st) ->
  Machine.reachable (tokensOf (trafficStep st ev)) /\ Forall hopOk (tr_hops (trafficStep st ev)).
Proof.
  intros Hr Hok. destruct st as [g hops], ev as [s online path body|i e]; simpl in *.
  - destruct (proxyInference g s online path body) as [g' [[[name target] t]|err]] eqn:E.
    + split.
      * eapply Machine.reach_step; [exact Hr|]. eapply Machine.step_forward. exact E.
      * constructor; [|done]. apply startHop_ok.
        pose proof (Machine.proxyInference_counts g s online path body) as Hc.
        rewrite E in Hc. by injection Hc as _ ->.
    + split; [|done]. eapply Machine.reach_step; [exact Hr|]. eapply Machine.step_refuse. exact E.
  - destruct (hops !! i) as [h|] eqn:E; [|done].
    assert (hopOk h) as Hh by by eapply Forall_lookup_1.
    destruct (hopStep_ok (counts g) h e Hh) as [Hok' Hcase].
    destruct (hopStep (counts g) h e) as [c h']. simpl in *.
    split; [|by apply Forall_insert]. unfold tokensOf in *; simpl in *.
    change (map hp_token (<[i:=h']> hops)) with (hp_token <$> <[i:=h']> hops).
    rewrite list_fmap_insert. destruct Hcase as [[-> Ht]|[Hc Ht]].
    + rewrite list_insert_id; [by destruct g|]. rewrite list_lookup_fmap, E, Ht. done.
    + assert ((hp_token <$> hops) !! i = Some (hp_token h)) as Hi by by rewrite list_lookup_fmap, E.
      eapply Machine.reach_step; [exact Hr|].
      change (map hp_token hops) with (hp_token <$> hops).
      rewrite insert_take_drop by (by eapply lookup_lt_Some).
      rewrite <- (take_drop_middle _ _ _ Hi) at 1.
      apply Machine.step_release. rewrite Hc, Ht. by destruct (release _ _).
Qed.

Lemma runTraffic_ok evs :
  Machine.reachable (tokensOf (runTraffic evs)) /\ Forall hopOk (tr_hops (runTraffic evs)).
Proof.
  unfold runTraffic. induction evs as [|ev evs IH] using rev_ind.
  { split; [apply Machine.reach_init|constructor]. }
  rewrite foldl_app. destruct IH as [IHr IHo]. by apply trafficStep_ok.
Qed.

(** Requests under way to a member. *)
Definition underWay (hops : list hopState) (id : string) : nat :=
  length (List.filter (fun h => bool_decide (hp_settled h = None) &&
                                String.eqb (tk_deploymentId (hp_token h)) id) hops).

Lemma held_underWay hops id :
  Forall hopOk hops -> Machine.held (map hp_token hops) id = Z.of_nat (underWay hops id).
Proof.
  unfold Machine.held, underWay. intros H. f_equal.
  induction H as [|h hops Hh _ IH]; [done|]. simpl.
  rewrite (ok_token _ Hh). pose proof (ok_settled _ Hh) as Hs.
  replace (negb (bool_decide (hp_upstream h = Over))) with (bool_decide (hp_settled h = None)).
  2: { rewrite <- bool_decide_not. by apply bool_decide_ext. }
  destruct (_ && _); simpl; by rewrite IH.
Qed.

(** C2: The gateway's load figures are exact with real hops.  In any
    interleaving of requests, upstream answers, chunks, ends, failures and
    clients hanging up, the count of a deployment is the number of its hops
    still under way; a hop is under way exactly as long as its member may still
    send something; and once none is, no count is left. *)
Theorem traffic_accounted evs :
  let st := runTraffic evs in
  (forall id, outstandingFor (counts (tr_gateway st)) id = Z.of_nat (underWay (tr_hops st) id)) /\
  (forall h, h ∈ tr_hops st ->
     (hp_settled h = None <-> hp_upstream h <> Over) /\
     tk_released (hp_token h) = bool_decide (hp_upstream h = Over)) /\
  (Forall (fun h => hp_upstream h = Over) (tr_hops st) -> counts (tr_gateway st) = ∅).
Proof.
  destruct (runTraffic_ok evs) as [Hr Ho]. simpl.
  apply Machine.reachable_invariant in Hr as [Ha _].
  assert (forall id, outstandingFor (counts (tr_gateway (runTraffic evs))) id =
                     Z.of_nat (underWay (tr_hops (runTraffic evs)) id)) as Hout.
  { intros id. rewrite <- held_underWay by done. by apply Machine.accounted_outstanding. }
  split; [exact Hout|]. rewrite Forall_forall in Ho. split.
  - intros h Hh. specialize (Ho h Hh). split; [apply (ok_settled _ Ho)|apply (ok_token _ Ho)].
  - intros Hall. apply map_eq. intros id. rewrite lookup_empty, Ha. simpl.
    rewrite held_underWay by by rewrite Forall_forall.
    assert (underWay (tr_hops (runTraffic evs)) id = 0%nat) as ->; [|done].
    unfold underWay. rewrite Forall_forall in Hall.
    assert (forall h, h ∈ tr_hops (runTraffic evs) -> hp_settled h <> None) as Hset.
    { intros h Hh He. by apply (ok_settled _ (Ho h Hh)) in He; destruct (He (Hall h Hh)). }
    clear Hall Ho Ha Hout. induction (tr_hops (runTraffic evs)) as [|h hs IH]; [done|].
    simpl. rewrite bool_decide_false by (apply Hset; left). simpl. apply IH.
    intros h' Hh'. apply Hset. by right.
Qed.

(** The chunks of an answer, against a response whose head is written. *)
Lemma run_chunks c st chunks :
  hp_upstream st = Responding -> hp_destroyed st = false -> rs_closed (hp_res st) = false ->
  foldl (fun acc e => hopStep acc.1 acc.2 e) (c, st) (map UpData chunks) =
  (c, withUpstream st Responding (foldl writeChunk (hp_res st) chunks)).
Proof.
  revert st. induction chunks as [|x chunks IH]; intros st Hu Hd Hc.
  { simpl. destruct st; simpl in *. by subst. }
  simpl. replace (hopStep c st (UpData x))
    with (c, withUpstream st Responding (writeChunk (hp_res st) x)).
  2: { unfold hopStep. simpl. by rewrite Hu, Hd. }
  rewrite IH; try done. simpl. unfold writeChunk. by rewrite Hc.
Qed.

Lemma writeChunks r chunks :
  rs_closed r = false ->
  foldl writeChunk r chunks =
  {| rs_status := rs_status r; rs_headers := rs_headers r;
     rs_sent := rs_sent r || negb (bool_decide (chunks = [])); rs_body := rs_body r ++ chunks;
     rs_error := rs_error r; rs_ended := rs_ended r; rs_closed := false |}.
Proof.
  intros Hc. induction chunks as [|x chunks IH] using rev_ind.
  - rewrite app_nil_r, orb_false_r. destruct r; simpl in *. by rewrite Hc.
  - rewrite foldl_app. simpl. rewrite IH. unfold writeChunk. simpl. rewrite app_assoc.
    rewrite bool_decide_false by (by destruct chunks). simpl. by rewrite orb_true_r.
Qed.

(** The client's view of an answer that ran to its end. *)
Definition relayed (statusCode : option Z) (headers : list (string * headerValue))
    (chunks : list string) : response :=
  {| rs_status := default 502%Z statusCode;
     rs_headers := foldl (fun out h => al_set out (str_lower h.1) h.2) [] (relayedHeaders headers);
     rs_sent := true; rs_body := chunks; rs_error := None; rs_ended := true;
     rs_closed := false |}.

(** C26: What the client of a forwarded request receives.  A complete answer is
    relayed with the member's status, its headers but the hop-by-hop ones, and
    its bytes in order.  A member that fails before any answer gives the 502
    refusal.  One that fails after its first byte leaves the very response a
    member that stopped there would have: the stream is ended, so a truncated
    completion reads as a complete one.  One that fails between its headers and
    its first byte gives the 502 body under the member's own headers. *)
Theorem relay_outcome c name t statusCode headers chunks :
  let head := UpResponse statusCode headers in
  let run := fun events => (forwardToMember c name t noResponse events).2 in
  let unreachable := openAiError 502 ("The deployment serving " +:+ quoted name +:+
                       " could not be reached.") "api_error" "upstream_unreachable" in
  (hp_settled (run (head :: map UpData chunks ++ [UpEnd])) = Some Relayed /\
   hp_res (run (head :: map UpData chunks ++ [UpEnd])) = relayed statusCode headers chunks) /\
  (hp_settled (run [UpError]) = Some FailedBeforeHeaders /\
   hp_res (run [UpError]) = sendError noResponse unreachable) /\
  (chunks <> [] ->
   hp_settled (run (head :: map UpData chunks ++ [UpError])) = Some FailedMidStream /\
   hp_res (run (head :: map UpData chunks ++ [UpError])) = relayed statusCode headers chunks) /\
  (rs_error (hp_res (run [head; UpError])) = Some unreachable /\
   rs_status (hp_res (run [head; UpError])) = 502%Z /\
   rs_headers (hp_res (run [head; UpError])) = rs_headers (relayed statusCode headers [])).
Proof.
  intros head run unreachable.
  set (st1 := withUpstream (startHop name t noResponse) Responding
                (writeHead noResponse statusCode headers)).
  assert (forall last, run (head :: map UpData chunks ++ [last]) =
    (hopStep c (withUpstream st1 Responding (foldl writeChunk (hp_res st1) chunks)) last).2)
    as Hrun.
  { intros last. unfold run, forwardToMember. simpl. rewrite foldl_app.
    change (hopStep c (startHop name t noResponse) head) with (c, st1).
    by rewrite run_chunks. }
  rewrite writeChunks in Hrun by done. simpl in Hrun.
  split; [|split; [|split]].
  - rewrite Hrun. unfold hopStep. simpl. unfold settle. simpl. by destruct (release c t).
  - unfold run, forwardToMember. simpl. unfold hopStep. simpl. unfold settle. simpl.
    by destruct (release c t).
  - intros Hne. rewrite Hrun. rewrite bool_decide_false by done.
    unfold hopStep. simpl. unfold settle. simpl. by destruct (release c t).
  - unfold run, forwardToMember. simpl. unfold hopStep. simpl. unfold settle. simpl.
    by destruct (release c t).
Qed.

Lemma hop_run_ok c name t events :
  tk_released t = false -> hopOk (forwardToMember c name t noResponse events).2.
Proof.
  intros Ht. unfold forwardToMember. induction events as [|e events IH] using rev_ind.
  { by apply startHop_ok. }
  rewrite foldl_app. simpl. by apply hopStep_ok.
Qed.

(** What follows a hang-up before the end: only the torn-down request's error. *)
Lemma hungUp_step c st e :
  hp_destroyed st = true -> rs_closed (hp_res st) = true ->
  let st' := (hopStep c st e).2 in
  hp_destroyed st' = true /\ hp_res st' = hp_res st /\
  (hp_upstream st' = Over <-> hp_upstream st = Over \/ e = UpError).
Proof.
  intros Hd Hc. unfold hopStep.
  destruct e, (hp_upstream st) eqn:U; simpl; rewrite ?U, ?Hd, ?Hc; simpl; rewrite ?U, ?Hd;
    try (split; [done|]; split; [done|]; by split; [auto|intros [?|?]]).
  all: unfold settle; simpl; destruct (hp_settled st); simpl;
    [split; [done|]; split; [done|]; by split; auto|].
  all: destruct (release c (hp_token st)) as [c' t']; simpl.
  all: destruct (rs_sent (hp_res st)); simpl; unfold endResponse, sendError; rewrite Hc.
  all: split; [done|]; split; [done|]; by split; auto.
Qed.

Lemma hungUp_run c st events :
  hp_destroyed st = true -> rs_closed (hp_res st) = true ->
  let st' := (foldl (fun acc e => hopStep acc.1 acc.2 e) (c, st) events).2 in
  hp_destroyed st' = true /\ hp_res st' = hp_res st /\
  (hp_upstream st' = Over <-> hp_upstream st = Over \/ UpError ∈ events).
Proof.
  revert c st. induction events as [|e events IH]; intros c st Hd Hc.
  { simpl. split; [done|]. split; [done|]. split; [auto|]. by intros [?|?%elem_of_nil]. }
  destruct (hungUp_step c st e Hd Hc) as (Hd1 & Hr1 & Hu1). simpl.
  destruct (hopStep c st e) as [c1 st1]. simpl in *.
  destruct (IH c1 st1 Hd1) as (Hd2 & Hr2 & Hu2); [by rewrite Hr1|].
  split; [done|]. split; [by rewrite Hr2|]. rewrite Hu2, Hu1, elem_of_cons.
  split; [intros [[?|?]|?]|intros [?|[?|?]]]; subst; auto.
Qed.

(** A client that hangs up stops the member's work.  Once it closes before
    the end of its answer the upstream request is torn down, nothing is written
    any more, no refusal either, and the request leaves the member's count with
    the error Node raises on the torn-down request, not before. *)
Theorem hangup_stops_upstream c name t before after :
  tk_released t = false ->
  let st := (forwardToMember c name t noResponse before).2 in
  let st' := (forwardToMember c name t noResponse (before ++ ClientClosed :: after)).2 in
  rs_closed (hp_res st) = false -> rs_ended (hp_res st) = false ->
  hp_destroyed st' = true /\ rs_body (hp_res st') = rs_body (hp_res st) /\
  rs_error (hp_res st') = None /\
  (tk_released (hp_token st') = true <-> UpError ∈ after).
Proof.
  intros Ht st st' Hc He. pose proof (hop_run_ok c name t before Ht) as Hok. fold st in Hok.
  assert (hp_upstream st <> Over) as Ho.
  { intros HO. by rewrite (ok_over _ Hok HO Hc) in He. }
  assert (forwardToMember c name t noResponse (before ++ ClientClosed :: after) =
          foldl (fun acc e => hopStep acc.1 acc.2 e)
            (hopStep (forwardToMember c name t noResponse before).1 st ClientClosed) after) as Hrun.
  { unfold forwardToMember. by rewrite foldl_app. }
  pose proof (hop_run_ok c name t (before ++ ClientClosed :: after) Ht) as Hok'. fold st' in Hok'.
  set (st1 := {| hp_name := hp_name st; hp_upstream := hp_upstream st; hp_destroyed := true;
                 hp_settled := hp_settled st; hp_res := closeResponse (hp_res st);
                 hp_token := hp_token st |}).
  assert (hopStep (forwardToMember c name t noResponse before).1 st ClientClosed =
          ((forwardToMember c name t noResponse before).1, st1)) as H1.
  { unfold hopStep, st1. simpl. rewrite Hc, He. simpl. by rewrite orb_true_r. }
  rewrite H1 in Hrun.
  destruct (hungUp_run (forwardToMember c name t noResponse before).1 st1 after eq_refl eq_refl)
    as (Hd & Hr & Hu).
  rewrite (ok_token _ Hok'), bool_decide_eq_true. unfold st'. rewrite Hrun, Hr.
  split; [exact Hd|]. split; [done|]. split; [|rewrite Hu; simpl; naive_solver].
  simpl. apply eq_None_not_Some. intros [e' He'].
  destruct (ok_error _ Hok _ He') as [Hs _]. by rewrite (proj2 (ok_settled _ Hok) Ho) in Hs.
Qed.

(** A release undoes its acquire, on counts without stale entries. *)
Lemma release_acquire c id :
  (forall v, c !! id = Some v -> (0 < v)%Z) ->
  (release (acquire c id).1 (acquire c id).2).1 = c.
Proof.
  intros Hpos. unfold release, acquire, outstandingFor. simpl. rewrite lookup_insert_eq. simpl.
  replace (default 0%Z (c !! id) + 1 - 1)%Z with (default 0%Z (c !! id)) by lia.
  destruct (c !! id) as [v|] eqn:E; simpl.
  - specialize (Hpos v eq_refl). destruct (Z.ltb_spec 0 v); [|lia].
    rewrite insert_insert_eq. by apply insert_id.
  - by rewrite delete_insert_id.
Qed.

(** A hop changes the counts once, when it settles. *)
Lemma run_counts c name t events :
  tk_released t = false ->
  let run := forwardToMember c name t noResponse events in
  (hp_upstream run.2 <> Over -> run.1 = c /\ hp_token run.2 = t) /\
  (hp_upstream run.2 = Over -> run.1 = (release c t).1).
Proof.
  intros Ht. unfold forwardToMember. induction events as [|e events IH] using rev_ind; [done|].
  rewrite foldl_app. simpl. pose proof (hop_run_ok c name t events Ht) as Hok.
  unfold forwardToMember in Hok. destruct (foldl _ _ events) as [c1 st1]. simpl in *.
  destruct (hopStep_ok c1 st1 e Hok) as [Hok' Hcase].
  pose proof (ok_token _ Hok) as T1. pose proof (ok_token _ Hok') as T2.
  destruct (decide (hp_upstream st1 = Over)) as [O1|O1].
  - assert (hopStep c1 st1 e = (c1, (hopStep c1 st1 e).2) /\
            hp_upstream (hopStep c1 st1 e).2 = Over) as [-> ->].
    { unfold hopStep. destruct e; simpl; rewrite O1; simpl; try done. by destruct (negb _). }
    split; [done|]. intros _. by apply IH.
  - destruct (proj1 IH O1) as [-> Htk]. rewrite bool_decide_false in T1 by done.
    rewrite Htk in Hcase. split; intros O2.
    + rewrite bool_decide_false in T2 by done. destruct Hcase as [?|[_ Hr]]; [done|].
      rewrite Hr in T2. by rewrite (proj1 (release_token _ _)) in T2.
    + rewrite bool_decide_true in T2 by done. destruct Hcase as [[_ Hr]|[-> _]]; [|done].
      congruence.
Qed.

(** Who a hop is for never changes. *)
Lemma run_identity c name t events :
  let st := (forwardToMember c name t noResponse events).2 in
  hp_name st = name /\ tk_deploymentId (hp_token st) = tk_deploymentId t.
Proof.
  unfold forwardToMember. induction events as [|e events IH] using rev_ind; [done|].
  rewrite foldl_app. simpl. destruct (foldl _ _ events) as [c1 st1]. simpl in *.
  assert (forall u r b, let s := (settle c1 (withUpstream st1 u r) b).2 in
    hp_name s = hp_name st1 /\ tk_deploymentId (hp_token s) = tk_deploymentId (hp_token st1))
    as Hsettle.
  { intros u r b. unfold settle. simpl. destruct (hp_settled st1); [done|].
    pose proof (release_token c1 (hp_token st1)) as [_ Hid].
    by destruct (release c1 (hp_token st1)). }
  destruct IH as [<- <-]. unfold hopStep. destruct (negb _); [done|]. destruct e; try done;
    apply Hsettle.
Qed.

Lemma tooLarge_limit limit body n :
  readBodyWithLimit limit body = Some (BodyTooLarge n) -> n = limit.
Proof.
  unfold readBodyWithLimit. induction body as [|e body IH] using rev_ind; [done|].
  rewrite foldl_app. simpl. unfold bodyStep at 1. destruct (settled (foldl _ _ body)) eqn:S; [by rewrite S|].
  destruct e; simpl; [|done..]. destruct (_ <? _)%Z; simpl; by intros [= <-].
Qed.

(** A request through the gateway, end to end.  A body over the limit is
    answered 413 and its upload cut, an unreadable one 400; what is forwarded
    is the very bytes received; only a failing database leaves the client
    without an OpenAI error, with Express's own page; and whatever happens,
    once the request is not under way the load figures are what they were. *)
Theorem serve_end_to_end parse limit g rows online path body events :
  (forall id v, counts g !! id = Some v -> (0 < v)%Z) ->
  let '(g', out) := serveInference parse limit g rows online path body events in
  match out with
  | Pending => readBodyWithLimit limit body = None
  | Refused r cut =>
      rs_error r <> None /\ rs_ended r = true /\
      (cut = true <-> readBodyWithLimit limit body = Some (BodyTooLarge limit)) /\
      (cut = true -> rs_status r = 413%Z) /\
      (readBodyWithLimit limit body = Some BodyError -> rs_status r = 400%Z)
  | Unhandled => rows = None
  | Forwarded target bytes st =>
      readBodyWithLimit limit body = Some (Body bytes) /\
      requestedModel (parse bytes) = Ok (hp_name st) /\
      tk_deploymentId (hp_token st) = em_deploymentId target
  end /\
  (match out with Forwarded _ _ st => hp_settled st <> None | _ => True end ->
   counts g' = counts g).
Proof.
  intros Hpos. unfold serveInference.
  destruct (readBodyWithLimit limit body) as [[n|bytes|]|] eqn:B; simpl; [|..|done].
  - apply tooLarge_limit in B as ->. naive_solver.
  - destruct (requestedModel (parse bytes)) as [requested|e] eqn:M; simpl; [|naive_solver].
    destruct rows as [s|]; [|done].
    pose proof (Machine.proxyInference_counts g s online path (parse bytes)) as Hc.
    destruct (proxyInference g s online path (parse bytes)) as [g' [[[name target] t]|e]] eqn:P;
      [|naive_solver].
    assert (name = requested) as ->.
    { unfold proxyInference in P. rewrite M in P.
      destruct (resolvePool _ _ _ _) as [[m p]|]; [|done]. simpl in P.
      destruct (selectLeastOutstanding _ _ _); congruence. }
    assert (tk_released t = false) as Ht by by injection Hc as _ ->.
    pose proof (run_identity (counts g') requested t events) as [Hn Hid].
    pose proof (run_counts (counts g') requested t events Ht) as [_ Hrun].
    pose proof (hop_run_ok (counts g') requested t events Ht) as Hok.
    destruct (forwardToMember (counts g') requested t noResponse events) as [c' st]. simpl in *.
    split.
    + rewrite Hn, Hid. injection Hc as _ ->. done.
    + intros Hset. rewrite Hrun.
      * pose proof (release_acquire (counts g) (em_deploymentId target) (Hpos _)) as Hra.
        by rewrite <- Hc in Hra.
      * destruct (decide (hp_upstream st = Over)) as [|Ho]; [done|].
        by apply (ok_settled _ Hok) in Ho.
  - naive_solver.
Qed.

(** One request on the database of three members: its answer relayed, its
    member's count back to nothing. *)
Lemma serve_end_to_end_witness :
  exists g' target bytes st,
    serveInference (fun _ => gwBody) 64 gwIdle (Some gwDb) gwOnline ChatCompletions
      [Data "{}"; End] [UpResponse (Some 200%Z) []; UpData "x"; UpEnd] =
    (g', Forwarded target bytes st) /\
    bytes = "{}" /\ hp_settled st = Some Relayed /\ counts g' = ∅.
Proof.
  pose proof (serve_end_to_end (fun _ => gwBody) 64 gwIdle (Some gwDb) gwOnline ChatCompletions
    [Data "{}"; End] [UpResponse (Some 200%Z) []; UpData "x"; UpEnd]) as H.
  destruct (serveInference _ _ _ _ _ _ _ _) as [g' out] eqn:E.
  assert (match out with Forwarded _ _ st => hp_settled st = Some Relayed | _ => False end) as Hf.
  { replace out with (serveInference (fun _ => gwBody) 64 gwIdle (Some gwDb) gwOnline
      ChatCompletions [Data "{}"; End] [UpResponse (Some 200%Z) []; UpData "x"; UpEnd]).2
      by by rewrite E. by vm_compute. }
  destruct out as [| | |target bytes st]; try done.
  destruct H as [(Hb & _) Hc]; [by intros id v|].
  exists g', target, bytes, st. split; [done|]. vm_compute in Hb. injection Hb as <-.
  split; [done|]. split; [done|]. apply Hc. by rewrite Hf.
Defined.

Lemma relay_outcome_witness :
  let events := [UpResponse None []; UpData "ab"; UpData "c"; UpError] in
  let st := (forwardToMember ∅ "qwen" (acquire ∅ "d1").2 noResponse events).2 in
  hp_settled st = Some FailedMidStream /\ hp_res st = relayed None [] ["ab"; "c"].
Proof.
  destruct (relay_outcome ∅ "qwen" (acquire ∅ "d1").2 None [] ["ab"; "c"]) as (_ & _ & H & _).
  by apply H.
Defined.

Lemma hangup_stops_upstream_witness :
  let st' := (forwardToMember (acquire ∅ "d1").1 "qwen" (acquire ∅ "d1").2 noResponse
                ([UpResponse None []; UpData "ab"] ++ ClientClosed :: [UpData "c"; UpError])).2 in
  hp_destroyed st' = true /\ rs_body (hp_res st') = ["ab"] /\
  tk_released (hp_token st') = true.
Proof.
  destruct (hangup_stops_upstream (acquire ∅ "d1").1 "qwen" (acquire ∅ "d1").2
    [UpResponse None []; UpData "ab"] [UpData "c"; UpError]) as (H1 & H2 & _ & H3);
    [reflexivity..|].
  split; [exact H1|]. split; [exact H2|]. apply H3. right. left.
Defined.

End Relay.
