(* ===== verification/Deployments.v ===== *)
(** Deployments outside the routes: their names, the agent's status reports and
    what follows from one, and the fan-out of a multi-node deploy.

    [Names]: [deployments/display-name.ts], [deployments/published-name.ts],
    [benchmarks/endpoint.ts].  [Dispatch]: [deployments/dgxrun-dispatch.ts],
    [deployments/teardown-decision.ts], [deployments/dgxrun-teardown.ts].
    [Status]: [ws/deployment-status.ts] and [ws/deployment-status-handler.ts].
    The HTTP client is the parameter [fetch]: what a GET of a URL yields, [None]
    when it throws, otherwise whether the answer is ok and its body.  A handler
    returns the new tables and the messages it emits, in order. *)
From S2P Require Import Prelude JsNum Schema Gateway.

Module Names.

Inductive DisplayNameError := TooLong (length : nat) | Disallowed (rejected : string).

Definition name_char (c : ascii) : bool :=
  is_alnum c || mem_str (String c "") ["."; "_"; ":"; "-"].

(** [/^[A-Za-z0-9._:-]+$/.test(s)] *)
Definition ALLOWED (s : string) : bool := negb (String.eqb s "") && str_all name_char s.

Definition MAX_LENGTH : nat := 128.

Definition normalizeDisplayName (raw : option string) : result DisplayNameError (option string) :=
  match raw with
  | None => Ok None
  | Some raw =>
      let trimmed := str_trim raw in
      if (String.length trimmed =? 0)%nat then Ok None
      else if (MAX_LENGTH <? String.length trimmed)%nat then Err (TooLong (String.length trimmed))
      else if negb (ALLOWED trimmed) then Err (Disallowed trimmed)
      else Ok (Some trimmed)
  end.

Definition ACTIVE_DEPLOYMENT_STATUSES : list string :=
  ["pending"; "running"; "starting"; "building"; "downloading"; "launching"; "loading";
   "restarting"].

(** The id of the deployment that holds the name, if any. *)
Definition validateDisplayNameUnique (s : db) (name : option string)
    (excludeDeploymentId : option string) : option string :=
  match name with
  | None => None
  | Some name =>
      d_id <$> js_find (fun d =>
        bool_decide (d_displayName d = Some name) &&
        mem_str (d_status d) ACTIVE_DEPLOYMENT_STATUSES &&
        match truthy excludeDeploymentId with
        | Some x => negb (String.eqb (d_id d) x) | None => true end) (deployments s)
  end.

(** ** The published name *)

Definition response := (bool * jtext)%type.

Definition deploymentEndpointUrl (nodeIp : option string) (port : option Z) :
    result string string :=
  ip ← of_option (truthy nodeIp) "deployment.node.ipAddress is required";
  p ← of_option port "deployment.port is required";
  _ ← guard_or (negb (p =? 0)%Z) "deployment.port is required";
  Ok ("http://" +:+ ip +:+ ":" +:+ pretty p).

(** [v?.[0]] *)
Definition jfirst (v : option json) : option json :=
  match v with
  | Some (JArr l) => head l
  | Some (JObj l) => obj_get l "0"
  | _ => None
  end.

Definition firstServedModelId (body : jtext) : option string :=
  match body with
  | None => None
  | Some parsed =>
      match jget (jfirst (jget (Some parsed) "data")) "id" with
      | Some (JStr id) => truthy (Some id)
      | _ => None
      end
  end.

Definition resolveServedModelName (endpointUrl fallback : string)
    (fetch : string -> option response) : string :=
  match fetch (endpointUrl +:+ "/models") with
  | Some (true, body) => default fallback (firstServedModelId body)
  | _ => fallback
  end.

Definition ALLOCATION_INDUCING_RUNTIMES : list string := ["ollama"].

Definition isAllocationInducingRuntime (runtime : option string) : bool :=
  mem_str (str_lower (default "" runtime)) ALLOCATION_INDUCING_RUNTIMES.

Definition resolvePublishedName (runtime : option string) (modelName : string)
    (displayName endpointUrl : option string) (fetch : string -> option response) : string :=
  if isAllocationInducingRuntime runtime then modelName
  else
    let fallback := default modelName displayName in
    match truthy endpointUrl with
    | None => fallback
    | Some url => resolveServedModelName (url +:+ "/v1") fallback fetch
    end.

End Names.

Module Dispatch.

Definition DEFAULT_MASTER_PORT : Z := 29500.

Record DgxrunNodeDeploy (recipe params : Type) := {
  dp_nodeId : string; dp_deploymentId : string; dp_recipe : recipe; dp_rank : nat;
  dp_nnodes : nat; dp_masterAddr : string; dp_masterPort : Z; dp_headless : bool;
  dp_params : params }.
Arguments Build_DgxrunNodeDeploy {recipe params}.
Arguments dp_nodeId {recipe params}. Arguments dp_rank {recipe params}.
Arguments dp_masterAddr {recipe params}. Arguments dp_headless {recipe params}.
Arguments dp_nnodes {recipe params}. Arguments dp_masterPort {recipe params}.
Arguments dp_deploymentId {recipe params}. Arguments dp_recipe {recipe params}.
Arguments dp_params {recipe params}.

Section Build.
Context {recipe params : Type}.

Definition buildDgxrunDeploys (deploymentId : string) (r : recipe) (ids ips : list string)
    (masterPort : option Z) (ps : params) :
    result string (list (DgxrunNodeDeploy recipe params)) :=
  _ ← guard_or (negb (length ids =? 0)%nat) "dgxrun deploy needs at least one node";
  _ ← guard_or (length ips =? length ids)%nat
        "dgxrun deploy: clusterNodeIps must align 1:1 with clusterNodeIds";
  masterAddr ← of_option (truthy (head ips)) "dgxrun deploy: head node has no management IP";
  let port := default DEFAULT_MASTER_PORT masterPort in
  Ok (imap (fun rank nodeId =>
        {| dp_nodeId := nodeId; dp_deploymentId := deploymentId; dp_recipe := r; dp_rank := rank;
           dp_nnodes := length ids; dp_masterAddr := masterAddr; dp_masterPort := port;
           dp_headless := (0 <? rank)%nat; dp_params := ps |}) ids).

End Build.

Inductive TeardownDecision :=
  | Skip (reason : string)
  | Fan (nodeIds : list string) (preserveContainer : bool).

Definition decideTeardown (runner : option json) (nodeIds : list string) (triggerFailed : bool) :
    TeardownDecision :=
  if negb (bool_decide (jstr runner = Some "dgxrun")) then Skip "not a dgxrun deployment"
  else match nodeIds with
  | [] => Skip "no nodes to tear down"
  | [_] => Skip ("single-rank deployment: the agent's own health path stops it, and " +:+
                 "coordinated teardown would only destroy the evidence")
  | _ => Fan nodeIds triggerFailed
  end.

(** A [cmd:undeploy] sent to a node. *)
Record undeploy := {
  ud_node : string; ud_deploymentId : string; ud_deleteAfter : bool; ud_kind : option string;
  ud_preserveContainer : bool }.

(** The cluster rows of a deployment, in scan order. *)
Definition clusterNodesOf (s : db) (deploymentId : string) : list cluster_node :=
  List.filter (fun c => String.eqb (cn_deploymentId c) deploymentId) (clusterNodes s).

Definition rankNodes (s : db) (d : deployment) : list string :=
  match clusterNodesOf s (d_id d) with
  | [] => [d_nodeId d]
  | cs => map cn_nodeId cs
  end.

(** [dep.config ? JSON.parse(dep.config) : {}], a throw giving [{}]; then
    [cfg.runner], which throws (no teardown) when the text is [null]. *)
Definition runnerOf (d : deployment) : option json :=
  match d_config d with
  | Some (Some j) => jget (Some j) "runner"
  | _ => None
  end.

Definition coordinatedDgxrunTeardown (s : db) (deploymentId : string) (triggerFailed : bool) :
    list undeploy :=
  match tbl_find deploymentId (deployments s) with
  | None => []
  | Some dep =>
      match decideTeardown (runnerOf dep) (rankNodes s dep) triggerFailed with
      | Skip _ => []
      | Fan nodeIds preserve =>
          map (fun nid => {| ud_node := nid; ud_deploymentId := deploymentId;
                             ud_deleteAfter := false; ud_kind := Some "dgxrun";
                             ud_preserveContainer := preserve |}) nodeIds
      end
  end.

End Dispatch.

Module Status.
Import Names Dispatch.

Definition TERMINAL_STATUSES : list string := ["stopped"; "failed"; "evicted"].
Definition isTerminalDeploymentStatus (status : string) : bool := mem_str status TERMINAL_STATUSES.
Definition UNPUBLISHING_STATUSES : list string := ["stopped"; "failed"].
Definition isUnpublishingStatus (status : string) : bool := mem_str status UNPUBLISHING_STATUSES.

(** [vramActual] of a report: a number, or text. *)
Inductive numOrText := ANum (n : num) | AText (t : string).

Definition toNumber (v : numOrText) : num :=
  match v with ANum n => n | AText t => number_of_string t end.

Record DeploymentStatusMessage := {
  ms_deploymentId : string; ms_status : string; ms_port : option num; ms_error : option string;
  ms_deleteAfter : bool; ms_vramActual : option numOrText }.

(** The patch: [None] is an absent key. *)
Record DeploymentStatusUpdate := {
  su_status : string; su_port : option num; su_error : option (option string);
  su_vramActual : option num; su_clearPublishedName : bool }.

Definition deploymentStatusUpdate (msg : DeploymentStatusMessage) : DeploymentStatusUpdate :=
  let terminal := isTerminalDeploymentStatus (ms_status msg) in
  {| su_status := ms_status msg;
     su_port := ms_port msg;
     su_vramActual :=
       if terminal then Some (zn 0)
       else match ms_vramActual msg with
            | None | Some (AText EmptyString) => None
            | Some v => let n := toNumber v in if is_finite n then Some n else None
            end;
     su_clearPublishedName := isUnpublishingStatus (ms_status msg);
     su_error :=
       match truthy (ms_error msg) with
       | Some e => Some (Some e)
       | None => if String.eqb (ms_status msg) HEALTHY_STATUS then Some None else None
       end |}.

(** The client rejects a number that does not fit the integer column. *)
Definition int_column (v : option num) : option (option Z) :=
  match v with
  | None => Some None
  | Some n => z ← as_int32 n; Some (Some z)
  end.

Definition statusPatch (u : DeploymentStatusUpdate) : option dep_patch :=
  port ← int_column (su_port u);
  vram ← int_column (su_vramActual u);
  Some {| p_status := Some (su_status u); p_error := su_error u; p_port := port;
          p_publishedName := if su_clearPublishedName u then Some None else None;
          p_config := None; p_vramActual := Some <$> vram; p_displayName := None |}.

Inductive effect :=
  | BroadcastStatus (deploymentId status : string) (port : option num) (error : option string)
      (vramActual : option num)
  | BroadcastDeleted (deploymentId : string)
  | SendUndeploy (u : undeploy).

(** ** Publishing a name *)

(** What [publishName] decides from the row it read, before and after the
    probe: [None] when it returns without writing. *)
Definition publishDecision (s : db) (deploymentId : string) (fetch : string -> option response) :
    option string :=
  match tbl_find deploymentId (deployments s) with
  | None => None
  | Some d =>
      match node_of s d, model_of s d with
      | Some n, Some m =>
          let named := truthy (d_publishedName d) in
          if match named with Some _ => isAllocationInducingRuntime (Some (m_runtime m))
                            | None => false end then None
          else
            let fallback := default (m_name m) (d_displayName d) in
            if match named with Some p => negb (String.eqb p fallback) | None => false end
            then None
            else
              let endpointUrl := match deploymentEndpointUrl (n_ipAddress n) (d_port d) with
                                 | Ok url => Some url | Err _ => None end in
              let publishedName := resolvePublishedName (Some (m_runtime m)) (m_name m)
                                     (d_displayName d) endpointUrl fetch in
              if String.eqb publishedName "" then None
              else if bool_decide (d_publishedName d = Some publishedName) then None
              else Some publishedName
      | _, _ => None
      end
  end.

(** The write that follows the probe; a row gone meanwhile is logged. *)
Definition publishWrite (s : db) (deploymentId : string) (publishedName : string) : db :=
  default s (deployment_update deploymentId
    (DepPatch None None None (Some (Some publishedName)) None None None) s).

(** [publishName] with nothing in between. *)
Definition publishName (s : db) (deploymentId : string) (fetch : string -> option response) : db :=
  match publishDecision s deploymentId fetch with
  | Some name => publishWrite s deploymentId name
  | None => s
  end.

Definition publishNamesForNode (s : db) (nodeId : string) (fetch : string -> option response) : db :=
  let unnamed := List.filter (fun d => String.eqb (d_nodeId d) nodeId &&
                                       String.eqb (d_status d) HEALTHY_STATUS &&
                                       bool_decide (d_publishedName d = None)) (deployments s) in
  foldl (fun s d => publishName s (d_id d) fetch) s unnamed.

(** ** The report handler *)

Definition setClusterStatus (deploymentId status : string) (s : db) : db :=
  db_clusterNodes (map (fun c => if String.eqb (cn_deploymentId c) deploymentId
    then ClusterNode (cn_id c) (cn_deploymentId c) (cn_nodeId c) (cn_role c) status else c)) s.

Definition deleteDeployment (deploymentId : string) (s : db) : db :=
  db_deployments (tbl_delete deploymentId)
    (db_clusterNodes (List.filter (fun c => negb (String.eqb (cn_deploymentId c) deploymentId))) s).

Definition statusBroadcast (msg : DeploymentStatusMessage) : effect :=
  BroadcastStatus (ms_deploymentId msg) (ms_status msg) (ms_port msg) (ms_error msg)
    (if isTerminalDeploymentStatus (ms_status msg) then Some (zn 0)
     else match ms_vramActual msg with
          | Some (ANum n) => if num_truthy n then Some n else None
          | Some (AText t) => if String.eqb t "" then None else Some (number_of_string t)
          | None => None
          end).

(** What follows a persisted report. *)
Definition afterStatus (s : db) (msg : DeploymentStatusMessage)
    (fetch : string -> option response) : db * list effect :=
  let id := ms_deploymentId msg in
  let status := ms_status msg in
  let s1 := if String.eqb status HEALTHY_STATUS then publishName s id fetch else s in
  let s2 := if mem_str status ["stopped"; "failed"; HEALTHY_STATUS]
            then setClusterStatus id status s1 else s1 in
  let sends := if String.eqb status "failed"
               then map SendUndeploy (coordinatedDgxrunTeardown s2 id true) else [] in
  if String.eqb status "stopped" && ms_deleteAfter msg
  then (deleteDeployment id s2, statusBroadcast msg :: sends ++ [BroadcastDeleted id])
  else (s2, statusBroadcast msg :: sends).

Definition handleDeploymentStatus (s : db) (msg : DeploymentStatusMessage)
    (fetch : string -> option response) : db * list effect :=
  match statusPatch (deploymentStatusUpdate msg) with
  | None => (s, [])
  | Some patch =>
      match deployment_update (ms_deploymentId msg) patch s with
      | None => (s, [])
      | Some s1 => afterStatus s1 msg fetch
      end
  end.

End Status.
