(* ===== verification/DeploymentFacts.v ===== *)
(** Names, fan-out and status reports: what they guarantee. *)
From S2P Require Import Prelude JsNum Schema Gateway Deployments.
Import Names Dispatch Status.

(** * Display names *)

Lemma trim_left_head s c r : trim_left s = String c r -> is_ws c = false.
Proof.
  induction s as [|d s IH]; [done|]. simpl. destruct (is_ws d) eqn:E; [exact IH|].
  by intros [= <- <-].
Qed.

Lemma trim_left_id s : (forall c r, s = String c r -> is_ws c = false) -> trim_left s = s.
Proof. destruct s as [|c s]; [done|]. intros H. simpl. by rewrite (H c s eq_refl). Qed.

Lemma trim_right_head s c r : trim_right s = String c r -> exists r', s = String c r'.
Proof.
  destruct s as [|d s]; [done|]. simpl. destruct (trim_right s); [destruct (is_ws d)|];
    by intros [= <- <-]; eauto || (intros [= <- <-]; eauto).
Qed.

Lemma trim_right_idem s : trim_right (trim_right s) = trim_right s.
Proof.
  induction s as [|c s IH]; [done|]. simpl. destruct (trim_right s) as [|d r] eqn:E.
  - destruct (is_ws c) eqn:W; [done|]. simpl. by rewrite W.
  - change (trim_right (String c (String d r))) with
      (match trim_right (String d r) with
       | EmptyString => if is_ws c then EmptyString else String c EmptyString
       | r' => String c r' end). by rewrite IH.
Qed.

Lemma str_trim_idem s : str_trim (str_trim s) = str_trim s.
Proof.
  unfold str_trim. rewrite (trim_left_id (trim_right (trim_left s))); [apply trim_right_idem|].
  intros c r H. apply trim_right_head in H as [r' H]. by eapply trim_left_head.
Qed.

(** Display names are normalized to a safe alphabet.  A stored name has 1 to
    128 characters, all letters, digits, dot, dash, underscore or colon (so no
    slash, no blank), and normalizing it again gives it back; blank or absent input
    is no name; and every other input is refused for its length first, then for
    its characters. *)
Theorem normalizeDisplayName_spec raw :
  match normalizeDisplayName raw with
  | Ok (Some name) =>
      (exists r, raw = Some r /\ name = str_trim r) /\
      (1 <= String.length name <= 128)%nat /\ str_all name_char name = true /\
      normalizeDisplayName (Some name) = Ok (Some name)
  | Ok None => raw = None \/ exists r, raw = Some r /\ str_trim r = ""
  | Err (TooLong n) => exists r, raw = Some r /\ n = String.length (str_trim r) /\ (128 < n)%nat
  | Err (Disallowed t) => exists r, raw = Some r /\ t = str_trim r /\
      (1 <= String.length t <= 128)%nat /\ str_all name_char t = false
  end.
Proof.
  destruct raw as [r|]; [|by left]. unfold normalizeDisplayName, MAX_LENGTH, ALLOWED.
  remember (str_trim r) as t eqn:Ht.
  destruct (Nat.eqb_spec (String.length t) 0) as [E0|E0].
  { right. exists r. split; [done|]. by destruct t. }
  destruct (Nat.ltb_spec 128 (String.length t)) as [El|El]; [exists r; by subst t|].
  assert (String.eqb t "" = false) as Hne by (apply String.eqb_neq; intros ->; by apply E0).
  rewrite Hne. cbn [negb andb]. destruct (str_all name_char t) eqn:Ea; cbn [negb].
  - assert (str_trim t = t) as -> by (by rewrite Ht, str_trim_idem).
    destruct (Nat.eqb_spec (String.length t) 0); [done|].
    destruct (Nat.ltb_spec 128 (String.length t)); [lia|].
    split; [by exists r|]. split; [lia|]. rewrite Hne, Ea. done.
  - exists r. split; [done|]. split; [done|]. split; [lia|done].
Qed.

(** The uniqueness check finds exactly the deployments in the way. *)
Lemma validateDisplayNameUnique_None s name ex :
  validateDisplayNameUnique s (Some name) ex = None <->
  forall d, d ∈ deployments s -> d_displayName d = Some name ->
    d_status d ∈ ACTIVE_DEPLOYMENT_STATUSES -> truthy ex = Some (d_id d).
Proof.
  unfold validateDisplayNameUnique. rewrite fmap_None, js_find_None. split.
  - intros H d Hd Hn Hs. specialize (H d Hd).
    rewrite bool_decide_true in H by done. apply mem_str_spec in Hs. rewrite Hs in H. simpl in H.
    destruct (truthy ex) as [x|]; [|done]. apply negb_false_iff, String.eqb_eq in H. congruence.
  - intros H d Hd. case_bool_decide as Hn; [|done]. simpl.
    destruct (mem_str (d_status d) _) eqn:Hs; [|done]. apply mem_str_spec in Hs.
    rewrite (H d Hd Hn Hs). simpl. by rewrite String.eqb_refl.
Qed.

(** * The fan-out of a multi-node deploy *)

(** Ranks are dealt out head first.  A deploy is built iff there is a node,
    the addresses align and the head has one; there is then one order per node, in
    order, with rank = position, [nnodes] = the number of nodes, everybody
    rendezvousing at the head's address, and exactly the head not headless. *)
Theorem buildDgxrunDeploys_spec {recipe params} id (r : recipe) ids ips port (ps : params) :
  (is_ok (buildDgxrunDeploys id r ids ips port ps) <->
     ids <> [] /\ length ips = length ids /\ exists ip, head ips = Some ip /\ ip <> "") /\
  (forall ds, buildDgxrunDeploys id r ids ips port ps = Ok ds ->
     map dp_nodeId ds = ids /\
     forall rank d, ds !! rank = Some d ->
       dp_rank d = rank /\ dp_nnodes d = length ids /\ Some (dp_masterAddr d) = head ips /\
       dp_masterPort d = default 29500%Z port /\ (dp_headless d = false <-> rank = 0%nat) /\
       dp_deploymentId d = id /\ dp_recipe d = r).
Proof.
  assert (forall ds, buildDgxrunDeploys id r ids ips port ps = Ok ds ->
    ids <> [] /\ length ips = length ids /\ exists ip, head ips = Some ip /\ ip <> "" /\
    ds = imap (fun rank nodeId =>
        {| dp_nodeId := nodeId; dp_deploymentId := id; dp_recipe := r; dp_rank := rank;
           dp_nnodes := length ids; dp_masterAddr := ip;
           dp_masterPort := default DEFAULT_MASTER_PORT port;
           dp_headless := (0 <? rank)%nat; dp_params := ps |}) ids) as Hinv.
  { intros ds H. unfold buildDgxrunDeploys in H.
    destruct (negb (length ids =? 0)%nat) eqn:E1; [|done].
    destruct (length ips =? length ids)%nat eqn:E2; [|done].
    destruct (truthy (head ips)) as [ip|] eqn:E3; [|done]. injection H as <-.
    apply truthy_Some in E3 as [Hh Hne]. apply Nat.eqb_eq in E2.
    split; [by destruct ids|]. split; [done|]. by exists ip. }
  split.
  - split.
    + intros [ds Hds]. destruct (Hinv ds Hds) as (? & ? & ip & ? & ? & _). eauto 6.
    + intros (Hne & Hlen & ip & Hh & Hip). unfold buildDgxrunDeploys.
      destruct ids as [|i ids]; [done|]. simpl length. rewrite Hlen. simpl.
      rewrite Nat.eqb_refl. simpl. rewrite Hh. destruct ip; [done|]. by eexists.
  - intros ds Hds. destruct (Hinv ds Hds) as (_ & _ & ip & Hh & _ & ->). split.
    + apply list_eq. intros i. rewrite list_lookup_fmap, list_lookup_imap.
      by destruct (ids !! i).
    + intros rank d Hd. rewrite list_lookup_imap in Hd.
      destruct (ids !! rank) as [nid|]; [|done]. injection Hd as <-. simpl.
      rewrite Hh. repeat split; try done; destruct rank; done.
Qed.

(** An automatic teardown reaches every rank or nobody.  It is sent exactly
    when the row exists, its config says [dgxrun] and it spans more than one node;
    it then goes to each of its nodes once per cluster row, keeps the container
    exactly when the trigger was a failure, and never asks for the record to be
    deleted. *)
Theorem coordinatedDgxrunTeardown_spec s id failed :
  let sent := coordinatedDgxrunTeardown s id failed in
  (sent <> [] <-> exists d, tbl_find id (deployments s) = Some d /\
                   jstr (runnerOf d) = Some "dgxrun" /\ (2 <= length (clusterNodesOf s id))%nat) /\
  (sent <> [] -> map ud_node sent = map cn_nodeId (clusterNodesOf s id) /\
     Forall (fun u => ud_deploymentId u = id /\ ud_deleteAfter u = false /\
                      ud_kind u = Some "dgxrun" /\ ud_preserveContainer u = failed) sent).
Proof.
  intros sent. unfold sent, coordinatedDgxrunTeardown.
  destruct (tbl_find id (deployments s)) as [d|] eqn:Hd;
    [|split; [split; [done|naive_solver]|done]].
  apply tbl_find_Some in Hd as Hid. destruct Hid as [_ Hid]. change (d_id d = id) in Hid.
  unfold decideTeardown, rankNodes. rewrite Hid.
  destruct (bool_decide (jstr (runnerOf d) = Some "dgxrun")) eqn:R; cbn [negb].
  2:{ apply bool_decide_eq_false in R. split; [split; [done|naive_solver]|done]. }
  apply bool_decide_eq_true in R.
  destruct (clusterNodesOf s id) as [|c1 [|c2 cs]]; simpl.
  - split; [split; [done|intros (? & ? & ? & ?); lia]|done].
  - split; [split; [done|intros (? & ? & ? & ?); lia]|done].
  - split; [split; [|done]|].
    + intros _. exists d. split; [done|]. split; [done|lia].
    + intros _. rewrite map_map. simpl. split; [by rewrite map_id|].
      repeat constructor. rewrite Forall_map. by apply Forall_forall.
Qed.
