(* ===== verification/StatusFacts.v ===== *)
(** The agent's status reports: what the tables hold after one, after a
    sequence of them, and when two handlers interleave. *)
From S2P Require Import Prelude JsNum Schema Gateway Deployments DeploymentFacts.
Import Names Dispatch Status.

(** * Publishing a name *)

Definition set_published (name : string) : deployment -> deployment :=
  patch_deployment (DepPatch None None None (Some (Some name)) None None None).

Lemma publishWrite_find s id name j :
  tbl_find j (deployments (publishWrite s id name)) =
  if String.eqb j id then set_published name <$> tbl_find j (deployments s)
  else tbl_find j (deployments s).
Proof.
  unfold publishWrite, deployment_update. destruct (tbl_find id (deployments s)) as [d|] eqn:E; simpl.
  - by rewrite tbl_find_update.
  - destruct (String.eqb j id) eqn:Ej; [|done]. apply String.eqb_eq in Ej as ->. by rewrite E.
Qed.

Lemma publishName_find s id fetch j :
  tbl_find j (deployments (publishName s id fetch)) =
  match publishDecision s id fetch with
  | Some name => if String.eqb j id then set_published name <$> tbl_find j (deployments s)
                 else tbl_find j (deployments s)
  | None => tbl_find j (deployments s)
  end.
Proof. unfold publishName. destruct (publishDecision s id fetch); [apply publishWrite_find|done]. Qed.

Lemma publishName_tables s id fetch :
  nodes (publishName s id fetch) = nodes s /\ models (publishName s id fetch) = models s /\
  clusterNodes (publishName s id fetch) = clusterNodes s.
Proof.
  unfold publishName, publishWrite, deployment_update.
  destruct (publishDecision s id fetch); [|done].
  by destruct (tbl_find id (deployments s)).
Qed.

(** What the runtime answers on a deployment's endpoint. *)
Definition runtimeAnswers (n : node) (d : deployment) (fetch : string -> option response)
    (id : string) : Prop :=
  exists url body, deploymentEndpointUrl (n_ipAddress n) (d_port d) = Ok url /\
    fetch (url +:+ "/v1/models") = Some (true, body) /\ firstServedModelId body = Some id.

(** The name a deployment is published under is a name its runtime answers
    to.  [publishName] touches nothing but that column of that row.  It leaves an
    allocation-inducing runtime's name and any name that differs from the local
    guess alone, never writes an empty name, and otherwise writes the model tag
    for an allocation-inducing runtime, what the runtime reports when it answers,
    and the display name or model name as a guess when it does not. *)
Theorem publishName_spec s id fetch d n m :
  tbl_find id (deployments s) = Some d -> node_of s d = Some n -> model_of s d = Some m ->
  let guess := default (m_name m) (d_displayName d) in
  let s' := publishName s id fetch in
  exists d', tbl_find id (deployments s') = Some d' /\
    d_status d' = d_status d /\ d_error d' = d_error d /\
    (forall j, j <> id -> tbl_find j (deployments s') = tbl_find j (deployments s)) /\
    (forall p, d_publishedName d = Some p -> p <> "" -> p <> guess -> d_publishedName d' = Some p) /\
    (d_publishedName d' = d_publishedName d \/ exists p, d_publishedName d' = Some p /\ p <> "" /\
       ((isAllocationInducingRuntime (Some (m_runtime m)) = true /\ p = m_name m) \/
        (isAllocationInducingRuntime (Some (m_runtime m)) = false /\
         (runtimeAnswers n d fetch p \/
          (p = guess /\ forall q, ~ runtimeAnswers n d fetch q))))).
Proof.
  intros Hd Hn Hm guess s'. unfold s'. rewrite !publishName_find.
  destruct (publishDecision s id fetch) as [name|] eqn:Hdec.
  2:{ exists d. split; [done|]. split; [done|]. split; [done|].
      split; [intros j _; by rewrite publishName_find, Hdec|]. split; [done|by left]. }
  rewrite String.eqb_refl, Hd. exists (set_published name d). split; [done|]. split; [done|].
  split; [done|]. split.
  { intros j Hj. rewrite publishName_find, Hdec. by apply String.eqb_neq in Hj as ->. }
  unfold publishDecision in Hdec. rewrite Hd, Hn, Hm in Hdec. fold guess in Hdec.
  destruct (match truthy (d_publishedName d) with Some _ => _ | None => false end) eqn:E1; [done|].
  destruct (match truthy (d_publishedName d) with Some p => negb (String.eqb p guess) | None => false end) eqn:E2; [done|].
  split.
  { intros p Hp Hne Hg. exfalso. rewrite Hp in E2. destruct p; [done|]. cbn [truthy] in E2.
    apply negb_false_iff, String.eqb_eq in E2. by apply Hg. }
  right. exists name. split; [done|].
  set (url := match deploymentEndpointUrl (n_ipAddress n) (d_port d) with
              | Ok u => Some u | Err _ => None end) in Hdec.
  destruct (String.eqb _ "") eqn:Hne; [done|]. apply String.eqb_neq in Hne.
  destruct (bool_decide _) eqn:Hsame; [done|]. injection Hdec as Hname.
  split; [by rewrite <- Hname|]. clear Hne Hsame E1 E2.
  unfold resolvePublishedName in Hname.
  destruct (isAllocationInducingRuntime (Some (m_runtime m))); [by left|]. right. split; [done|].
  fold guess in Hname. unfold runtimeAnswers, url in *.
  destruct (deploymentEndpointUrl (n_ipAddress n) (d_port d)) as [u|e] eqn:Eu.
  2:{ right. split; [done|]. intros q (? & ? & ? & _). done. }
  assert (truthy (Some u) = Some u) as Ht.
  { unfold deploymentEndpointUrl in Eu.
    destruct (truthy (n_ipAddress n)); [|done]. destruct (d_port d); [|done]. simpl in Eu.
    destruct (negb _); [|done]. injection Eu as <-. done. }
  rewrite Ht in Hname. unfold resolveServedModelName in Hname.
  rewrite str_app_assoc in Hname. change ("/v1" +:+ "/models") with "/v1/models" in Hname.
  destruct (fetch (u +:+ "/v1/models")) as [[[] body]|] eqn:Ef.
  - destruct (firstServedModelId body) as [q|] eqn:Eb.
    + left. simpl in Hname. subst q. by exists u, body.
    + right. split; [done|]. intros q (u' & b' & [= <-] & Hf & Hb). congruence.
  - right. split; [done|]. intros q (u' & b' & [= <-] & Hf & Hb). congruence.
  - right. split; [done|]. intros q (u' & b' & [= <-] & Hf & Hb). congruence.
Qed.

(** * One report *)

(** The error column after a report. *)
Definition errorAfter (old reported : option string) (status : string) : option string :=
  match truthy reported with
  | Some e => Some e
  | None => if String.eqb status HEALTHY_STATUS then None else old
  end.

(** The integer a figure is, when its column takes it. *)
Definition integer (n : num) (z : Z) : Prop :=
  (exists q, n = Fin q /\ Qeq q (inject_Z z)) /\ (- 2 ^ 31 <= z < 2 ^ 31)%Z.

Lemma as_int32_integer n z : as_int32 n = Some z <-> integer n z.
Proof.
  unfold as_int32, integer. destruct n as [|b|q]; [by split; [|intros ((? & ? & _) & _)]..|].
  split.
  - destruct (Qeq_bool q (inject_Z (Qfloor q)) && _ && _) eqn:E; [|done]. intros [= <-].
    apply andb_true_iff in E as [[E1%Qeq_bool_iff E2%Z.leb_le]%andb_true_iff E3%Z.leb_le].
    split; [by exists q|lia].
  - intros ((q' & [= <-] & Hq) & Hz). assert (Qfloor q = z) as -> by (rewrite Hq; apply Qfloor_Z).
    apply Qeq_bool_iff in Hq. rewrite Hq, (proj2 (Z.leb_le _ _)), (proj2 (Z.leb_le _ _)) by lia. done.
Qed.

(** The memory a report gives: none when it has none, when it is an empty text or not a
    finite number. *)
Definition liveFigure (v : option numOrText) : option num :=
  match v with
  | None => None
  | Some (ANum n) => if is_finite n then Some n else None
  | Some (AText t) =>
      if String.eqb t "" then None
      else let n := number_of_string t in if is_finite n then Some n else None
  end.

(** What a report says of the memory: nothing is used by a deployment that ended. *)
Definition figureOf (msg : DeploymentStatusMessage) : option num :=
  if bool_decide (ms_status msg ∈ ["stopped"; "failed"; "evicted"]) then Some (zn 0)
  else liveFigure (ms_vramActual msg).

(** A figure fits when there is none, or an integer its column takes; a fitting one is what
    the column holds afterwards, over what it held. *)
Definition fits (v : option num) : Prop := match v with Some n => exists z, integer n z | None => True end.
Definition holds (v : option num) (old new : option Z) : Prop :=
  match v with Some n => exists z, integer n z /\ new = Some z | None => new = old end.

Lemma int_column_spec v :
  match int_column v with
  | Some c => fits v /\ forall old, holds v old (match c with Some z => Some z | None => old end)
  | None => ~ fits v
  end.
Proof.
  unfold int_column, fits, holds. destruct v as [n|]; [|done].
  destruct (as_int32 n) as [z|] eqn:E; cbn [mbind option_bind].
  - apply as_int32_integer in E. split; [by exists z|]. intros _. by exists z.
  - intros [z Hz%as_int32_integer]. congruence.
Qed.

Lemma update_figure msg : su_vramActual (deploymentStatusUpdate msg) = figureOf msg.
Proof.
  unfold figureOf, deploymentStatusUpdate. cbn [su_vramActual].
  destruct (isTerminalDeploymentStatus (ms_status msg)) eqn:E.
  - apply mem_str_spec in E. by rewrite bool_decide_true.
  - rewrite bool_decide_false by (intros H; apply mem_str_spec in H;
      unfold isTerminalDeploymentStatus, TERMINAL_STATUSES in E; congruence).
    unfold liveFigure, toNumber. destruct (ms_vramActual msg) as [[n|[|c t]]|]; done.
Qed.


Lemma patch_error msg p d :
  statusPatch (deploymentStatusUpdate msg) = Some p ->
  d_status (patch_deployment p d) = ms_status msg /\
  d_error (patch_deployment p d) = errorAfter (d_error d) (ms_error msg) (ms_status msg) /\
  d_publishedName (patch_deployment p d) =
    (if isUnpublishingStatus (ms_status msg) then None else d_publishedName d) /\
  holds (figureOf msg) (d_vramActual d) (d_vramActual (patch_deployment p d)) /\
  holds (ms_port msg) (d_port d) (d_port (patch_deployment p d)).
Proof.
  intros H. unfold statusPatch in H. rewrite update_figure in H. change (su_port _) with (ms_port msg) in H.
  pose proof (int_column_spec (ms_port msg)) as Hp. pose proof (int_column_spec (figureOf msg)) as Hv.
  destruct (int_column (ms_port msg)) as [port|]; [|discriminate H]. cbn [mbind option_bind] in H.
  destruct (int_column (figureOf msg)) as [vram|]; [|discriminate H].
  injection H as <-. destruct Hp as [_ Hp], Hv as [_ Hv]. split; [done|]. split.
  { unfold errorAfter. simpl. destruct (truthy (ms_error msg)); [done|].
    by destruct (String.eqb (ms_status msg) HEALTHY_STATUS). }
  split; [simpl; by destruct (isUnpublishingStatus (ms_status msg))|]. split.
  - specialize (Hv (d_vramActual d)). by destruct vram.
  - specialize (Hp (d_port d)). by destruct port.
Qed.

Lemma afterStatus_deployments s msg fetch j :
  (String.eqb (ms_status msg) "stopped" && ms_deleteAfter msg) = false ->
  tbl_find j (deployments (afterStatus s msg fetch).1) =
  if String.eqb (ms_status msg) HEALTHY_STATUS
  then tbl_find j (deployments (publishName s (ms_deploymentId msg) fetch))
  else tbl_find j (deployments s).
Proof.
  intros H. unfold afterStatus. rewrite H. simpl.
  destruct (mem_str _ _); by destruct (String.eqb (ms_status msg) HEALTHY_STATUS).
Qed.

(** The row of the report, when it is not being deleted. *)
Lemma handle_self s msg fetch p d :
  statusPatch (deploymentStatusUpdate msg) = Some p ->
  tbl_find (ms_deploymentId msg) (deployments s) = Some d ->
  (String.eqb (ms_status msg) "stopped" && ms_deleteAfter msg) = false ->
  exists d', tbl_find (ms_deploymentId msg) (deployments (handleDeploymentStatus s msg fetch).1) = Some d' /\
    (d' = patch_deployment p d \/
     (ms_status msg = HEALTHY_STATUS /\ exists name, d' = set_published name (patch_deployment p d) /\
      exists s1, deployment_update (ms_deploymentId msg) p s = Some s1 /\
                 publishDecision s1 (ms_deploymentId msg) fetch = Some name)).
Proof.
  intros Hp Hd Hdel. unfold handleDeploymentStatus. rewrite Hp. unfold deployment_update. rewrite Hd.
  set (s1 := db_deployments _ s).
  assert (tbl_find (ms_deploymentId msg) (deployments s1) = Some (patch_deployment p d)) as Hs1.
  { unfold s1. simpl. by rewrite tbl_find_update, String.eqb_refl, Hd. }
  rewrite afterStatus_deployments by done.
  destruct (String.eqb (ms_status msg) HEALTHY_STATUS) eqn:Er; [|by eauto].
  apply String.eqb_eq in Er. rewrite publishName_find, String.eqb_refl, Hs1.
  destruct (publishDecision s1 (ms_deploymentId msg) fetch) as [nm|] eqn:Hdec; [|by eauto].
  eexists. split; [done|]. right. split; [done|]. exists nm. split; [done|]. by exists s1.
Qed.

Lemma handle_other s msg fetch j :
  j <> ms_deploymentId msg ->
  tbl_find j (deployments (handleDeploymentStatus s msg fetch).1) = tbl_find j (deployments s).
Proof.
  intros Hj. unfold handleDeploymentStatus.
  destruct (statusPatch (deploymentStatusUpdate msg)) as [p|]; [|done].
  destruct (deployment_update (ms_deploymentId msg) p s) as [s1|] eqn:Hs1; [|done].
  apply (deployment_update_find _ _ _ _ j) in Hs1.
  apply String.eqb_neq in Hj as Hj'. rewrite Hj' in Hs1. rewrite <- Hs1. clear Hs1.
  destruct (String.eqb (ms_status msg) "stopped" && ms_deleteAfter msg) eqn:Hdel.
  - unfold afterStatus. rewrite Hdel. apply andb_prop in Hdel as [->%String.eqb_eq _]. simpl.
    by apply tbl_find_delete.
  - rewrite afterStatus_deployments by done.
    destruct (String.eqb (ms_status msg) HEALTHY_STATUS); [|done].
    rewrite publishName_find, Hj'. by destruct (publishDecision _ _ _).
Qed.



(** * Sequences of reports *)

Definition handleReports (fetch : string -> option response) (s : db)
    (msgs : list DeploymentStatusMessage) : db :=
  foldl (fun s msg => (handleDeploymentStatus s msg fetch).1) s msgs.

(** The reason a deployment died outlives the teardown that follows.  Once a
    row carries an error, any number of later reports, about this or any other
    deployment, leave it there, as long as none about this one says [running],
    brings a newer error, or deletes the record. *)
Theorem crash_error_survives fetch s msgs id d e :
  tbl_find id (deployments s) = Some d -> d_error d = Some e ->
  Forall (fun msg => ms_deploymentId msg = id ->
    ms_status msg <> "running" /\ truthy (ms_error msg) = None /\
    (ms_status msg = "stopped" -> ms_deleteAfter msg = false)) msgs ->
  exists d', tbl_find id (deployments (handleReports fetch s msgs)) = Some d' /\ d_error d' = Some e.
Proof.
  intros Hd He Hall. unfold handleReports. revert s d Hd He.
  induction Hall as [|msg msgs Hmsg _ IH]; intros s d Hd He; [by exists d|]. simpl.
  destruct (decide (ms_deploymentId msg = id)) as [<-|Hne].
  2:{ apply (IH _ d); [|done]. by rewrite handle_other. }
  destruct (Hmsg eq_refl) as (Hrun & Hnoerr & Hkeep). clear Hmsg.
  destruct (statusPatch (deploymentStatusUpdate msg)) as [p|] eqn:Hp.
  2:{ apply (IH _ d); [|done]. unfold handleDeploymentStatus. by rewrite Hp. }
  assert ((String.eqb (ms_status msg) "stopped" && ms_deleteAfter msg) = false) as Hdel.
  { destruct (String.eqb_spec (ms_status msg) "stopped") as [E|]; [|done]. by rewrite Hkeep. }
  destruct (handle_self s msg fetch p d Hp Hd Hdel) as (d' & Hd' & [->|[Hr _]]); [|done].
  apply (IH _ _ Hd'). destruct (patch_error msg p d Hp) as (_ & -> & _).
  unfold errorAfter. rewrite Hnoerr. change HEALTHY_STATUS with "running".
  apply String.eqb_neq in Hrun. by rewrite Hrun.
Qed.

(** Undeploys follow a report only when they must.  A report of any status but
    [failed] sends none; a [failed] one about an existing row with figures that fit
    sends exactly the coordinated teardown of the deployment, computed on the
    tables after the report, asking every rank to keep its container. *)
Theorem handleDeploymentStatus_teardown s msg fetch :
  let '(s', effects) := handleDeploymentStatus s msg fetch in
  let sent := omap (fun e => match e with SendUndeploy u => Some u | _ => None end) effects in
  (ms_status msg <> "failed" -> sent = []) /\
  (ms_status msg = "failed" ->
     is_Some (tbl_find (ms_deploymentId msg) (deployments s)) ->
     is_Some (statusPatch (deploymentStatusUpdate msg)) ->
     sent = coordinatedDgxrunTeardown s' (ms_deploymentId msg) true).
Proof.
  destruct (handleDeploymentStatus s msg fetch) as [s' effects] eqn:Hh.
  unfold handleDeploymentStatus in Hh.
  destruct (statusPatch (deploymentStatusUpdate msg)) as [p|] eqn:Hp;
    [|injection Hh as <- <-; split; [done|by intros _ _ [? ?]]].
  unfold deployment_update in Hh.
  destruct (tbl_find _ _) as [d|] eqn:Hd;
    [|injection Hh as <- <-; split; [done|by intros _ [? ?]]].
  unfold afterStatus in Hh. split.
  - intros Hne. apply String.eqb_neq in Hne. rewrite Hne in Hh.
    by destruct (_ && _); injection Hh as <- <-.
  - intros Hst _ _. rewrite Hst in Hh. injection Hh as <- <-. simpl.
    induction (coordinatedDgxrunTeardown _ _ _) as [|u us IH]; simpl; [done|]. by f_equal.
Qed.

(** * Interleaved handlers *)

(** A serving report and a stop of the same deployment whose handlers overlap:
    the first has read the row and is waiting for the runtime's answer when the
    second runs to its end. *)
Definition overlapped (fetch : string -> option response) (s : db)
    (running stopped : DeploymentStatusMessage) : db :=
  match statusPatch (deploymentStatusUpdate running) with
  | None => s
  | Some p =>
      match deployment_update (ms_deploymentId running) p s with
      | None => s
      | Some s1 =>
          let decision := publishDecision s1 (ms_deploymentId running) fetch in
          let s2 := (handleDeploymentStatus s1 stopped fetch).1 in
          match decision with
          | Some name => publishWrite s2 (ms_deploymentId running) name
          | None => s2
          end
      end
  end.

Lemma handle_tables s msg fetch :
  nodes (handleDeploymentStatus s msg fetch).1 = nodes s /\
  models (handleDeploymentStatus s msg fetch).1 = models s.
Proof.
  unfold handleDeploymentStatus. destruct (statusPatch _) as [p|]; [|done].
  destruct (deployment_update _ p s) as [s1|] eqn:E; [|done].
  assert (nodes s1 = nodes s /\ models s1 = models s) as [<- <-].
  { unfold deployment_update in E. by destruct (tbl_find _ _); [injection E as <-|]. }
  destruct (publishName_tables s1 (ms_deploymentId msg) fetch) as (H1 & H2 & _).
  unfold afterStatus.
  destruct (String.eqb (ms_status msg) HEALTHY_STATUS); destruct (mem_str _ _);
    destruct (_ && _); simpl; rewrite ?H1, ?H2; done.
Qed.

(** A stored name that is not the local guess is never asked for again. *)
Lemma publishDecision_named s id fetch d p :
  tbl_find id (deployments s) = Some d -> d_publishedName d = Some p -> p <> "" ->
  (forall m, model_of s d = Some m -> p <> default (m_name m) (d_displayName d)) ->
  publishDecision s id fetch = None.
Proof.
  intros Hd Hp Hne Hg. unfold publishDecision. rewrite Hd, Hp.
  destruct (node_of s d); [|done]. destruct (model_of s d) as [m|]; [|done].
  destruct p as [|c p]; [done|]. cbn [truthy].
  destruct (isAllocationInducingRuntime _); [done|].
  assert (String.eqb (String c p) (default (m_name m) (d_displayName d)) = false) as ->; [|done].
  apply String.eqb_neq. by apply Hg.
Qed.

(** What an unnamed serving deployment is published under when its runtime answers. *)
Lemma publishDecision_answer s id fetch d n m name port url body :
  tbl_find id (deployments s) = Some d -> node_of s d = Some n -> model_of s d = Some m ->
  isAllocationInducingRuntime (Some (m_runtime m)) = false ->
  d_publishedName d = None -> d_port d = Some port ->
  deploymentEndpointUrl (n_ipAddress n) (Some port) = Ok url ->
  fetch (url +:+ "/v1/models") = Some (true, body) -> firstServedModelId body = Some name ->
  publishDecision s id fetch = Some name /\ name <> "".
Proof.
  intros Hd Hn Hm Hrt Hp Hport Hurl Hf Hb.
  assert (name <> "") as Hne.
  { unfold firstServedModelId in Hb. destruct body as [j|]; [|done].
    destruct (jget _ _) as [[| | |t| |]|]; try done. by apply truthy_Some in Hb as [[= ->] ?]. }
  split; [|done]. unfold publishDecision. rewrite Hd, Hn, Hm, Hp, Hport, Hurl.
  cbn [truthy]. unfold resolvePublishedName. rewrite Hrt.
  assert (truthy (Some url) = Some url) as ->.
  { unfold deploymentEndpointUrl in Hurl. destruct (truthy (n_ipAddress n)); [|done].
    simpl in Hurl. destruct (negb _); [|done]. by injection Hurl as <-. }
  unfold resolveServedModelName. rewrite str_app_assoc.
  change ("/v1" +:+ "/models") with "/v1/models". rewrite Hf, Hb. simpl.
  apply String.eqb_neq in Hne. by rewrite Hne.
Qed.

(** The published name can outlive the serving lifetime.  When the stop report
    of a deployment is handled while its [running] report waits for the runtime's
    answer, the name that answer carries is written after the stop cleared it: the
    row ends [stopped] and published, and because it differs from the local guess
    the next start will not ask the runtime again. *)
Theorem overlapping_stop_leaves_stale_name fetch s id d n m name port url body :
  tbl_find id (deployments s) = Some d -> node_of s d = Some n -> model_of s d = Some m ->
  isAllocationInducingRuntime (Some (m_runtime m)) = false ->
  d_publishedName d = None -> d_port d = Some port ->
  deploymentEndpointUrl (n_ipAddress n) (Some port) = Ok url ->
  fetch (url +:+ "/v1/models") = Some (true, body) -> firstServedModelId body = Some name ->
  name <> default (m_name m) (d_displayName d) ->
  let report status := Build_DeploymentStatusMessage id status None None false None in
  let s' := overlapped fetch s (report "running") (report "stopped") in
  (exists d', tbl_find id (deployments s') = Some d' /\ d_status d' = "stopped" /\
              d_publishedName d' = Some name) /\
  forall fetch', publishDecision (handleDeploymentStatus s' (report "running") fetch').1 id fetch' = None.
Proof.
  intros Hd Hn Hm Hrt Hp Hport Hurl Hf Hb Hg report s'.
  set (p1 := DepPatch (Some "running") (Some None) None None None None None).
  set (p2 := DepPatch (Some "stopped") None None (Some None) None (Some (Some 0%Z)) None).
  assert (statusPatch (deploymentStatusUpdate (report "running")) = Some p1) as Hp1 by reflexivity.
  assert (statusPatch (deploymentStatusUpdate (report "stopped")) = Some p2) as Hp2 by reflexivity.
  assert (exists s1, deployment_update id p1 s = Some s1 /\ nodes s1 = nodes s /\ models s1 = models s /\
    tbl_find id (deployments s1) = Some (patch_deployment p1 d)) as (s1 & Hs1 & Hns & Hms & Hd1).
  { unfold deployment_update. rewrite Hd. eexists. split; [done|]. split; [done|]. split; [done|].
    simpl. by rewrite tbl_find_update, String.eqb_refl, Hd. }
  destruct (publishDecision_answer s1 id fetch (patch_deployment p1 d) n m name port url body)
    as [Hdec Hne]; try done.
  { unfold node_of. by rewrite Hns. }
  { unfold model_of. by rewrite Hms. }
  unfold s', overlapped. rewrite Hp1. cbn [ms_deploymentId report]. rewrite Hs1, Hdec.
  destruct (handle_self s1 (report "stopped") fetch p2 (patch_deployment p1 d) Hp2 Hd1 eq_refl)
    as (d2 & Hd2 & [->|[? _]]); [|done].
  destruct (handle_tables s1 (report "stopped") fetch) as [_ Hm2]. rewrite Hms in Hm2.
  set (s2 := (handleDeploymentStatus s1 (report "stopped") fetch).1) in *.
  set (dd := set_published name (patch_deployment p2 (patch_deployment p1 d))).
  assert (tbl_find id (deployments (publishWrite s2 id name)) = Some dd) as Hd3.
  { rewrite publishWrite_find, String.eqb_refl. cbn [ms_deploymentId report] in Hd2. by rewrite Hd2. }
  split; [by exists dd|]. intros fetch'.
  set (s3 := publishWrite s2 id name) in *.
  assert (models s3 = models s) as Hm3.
  { unfold s3, publishWrite, deployment_update. by destruct (tbl_find id (deployments s2)). }
  destruct (handle_self s3 (report "running") fetch' p1 dd Hp1 Hd3 eq_refl) as (d4 & Hd4 & Hshape).
  destruct (handle_tables s3 (report "running") fetch') as [_ Hm4].
  apply (publishDecision_named _ _ _ d4 name); [exact Hd4| |done|].
  - destruct Hshape as [->|(_ & nm & -> & s4 & Hs4 & Hdec4)]; [done|]. exfalso.
    change (deployment_update id p1 s3 = Some s4) in Hs4.
    change (publishDecision s4 id fetch' = Some nm) in Hdec4.
    apply (deployment_update_find _ _ _ _ id) in Hs4 as Hd5. rewrite String.eqb_refl, Hd3 in Hd5.
    assert (models s4 = models s) as Hm5.
    { rewrite <- Hm3. unfold deployment_update in Hs4. rewrite Hd3 in Hs4. by injection Hs4 as <-. }
    rewrite (publishDecision_named s4 id fetch' (patch_deployment p1 dd) name) in Hdec4;
      [done|exact Hd5|done|done|].
    intros m' Hm'. unfold model_of in Hm', Hm. rewrite Hm5 in Hm'. simpl in Hm'.
    assert (m' = m) as -> by congruence. exact Hg.
  - intros m' Hm'. assert (m' = m) as ->; [|].
    { unfold model_of in Hm', Hm. rewrite Hm4, Hm3 in Hm'. destruct Hshape as [->|(_ & nm & -> & _)];
        simpl in Hm'; congruence. }
    destruct Hshape as [->|(_ & nm & -> & _)]; exact Hg.
Qed.

(** ** Concrete runs *)


Definition exN : node :=
  Node "n1" "spark-1" (Some "10.0.0.1") "online" "on" None None None None None None None
    "agent-deployed" true false None.
Definition exM : model_row := ModelRow "m1" "qwen" "vllm" None.
Definition exD (status : string) (error : option string) : deployment :=
  Deployment "d1" None "n1" "m1" status error (Some 8000%Z) None
    (Some (Some (JObj [("runner", JStr "dgxrun")]))) true None None 0.
Definition exS (d : deployment) : db :=
  Db [exN] [exM] [d] [ClusterNode "c1" "d1" "n1" "head" "running";
                      ClusterNode "c2" "d1" "n2" "worker" "running"] [] [].
Definition exBody : json := JObj [("data", JArr [JObj [("id", JStr "qwen-served")]])].
Definition exFetch (url : string) : option response :=
  if String.eqb url "http://10.0.0.1:8000/v1/models" then Some (true, Some exBody) else None.
Definition exReport (status : string) (error : option string) : DeploymentStatusMessage :=
  Build_DeploymentStatusMessage "d1" status None error false None.

(** A failed rank takes down both nodes. *)
Example failed_tears_down :
  omap (fun e => match e with SendUndeploy u => Some (ud_node u) | _ => None end)
    (handleDeploymentStatus (exS (exD "running" None)) (exReport "failed" (Some "oom")) exFetch).2
  = ["n1"; "n2"].
Proof. by vm_compute. Qed.

Lemma publishName_spec_witness :
  exists d', tbl_find "d1" (deployments (publishName (exS (exD "running" None)) "d1" exFetch)) = Some d' /\
             d_publishedName d' = Some "qwen-served".
Proof.
  destruct (publishName_spec (exS (exD "running" None)) "d1" exFetch (exD "running" None) exN exM
    eq_refl eq_refl eq_refl) as (d' & Hd' & _). exists d'. split; [exact Hd'|].
  vm_compute in Hd'. by injection Hd' as <-.
Defined.


Lemma crash_error_survives_witness :
  exists d', tbl_find "d1" (deployments (handleReports exFetch (exS (exD "failed" (Some "oom")))
    [exReport "stopped" None; exReport "stopped" None])) = Some d' /\ d_error d' = Some "oom".
Proof.
  apply (crash_error_survives exFetch (exS (exD "failed" (Some "oom")))
    [exReport "stopped" None; exReport "stopped" None] "d1" (exD "failed" (Some "oom")) "oom");
    [reflexivity|reflexivity|].
  repeat constructor; discriminate.
Defined.

Lemma overlapping_stop_leaves_stale_name_witness :
  exists d', tbl_find "d1" (deployments (overlapped exFetch (exS (exD "loading" None))
    (exReport "running" None) (exReport "stopped" None))) = Some d' /\
    d_status d' = "stopped" /\ d_publishedName d' = Some "qwen-served".
Proof.
  apply (overlapping_stop_leaves_stale_name exFetch (exS (exD "loading" None)) "d1"
    (exD "loading" None) exN exM "qwen-served" 8000 "http://10.0.0.1:8000" (Some exBody));
    (reflexivity || discriminate).
Defined.
