(* ===== verification/Recipes.v ===== *)
(** Recipe texts, paths and catalogs, and what is read off them before a deploy.

    [Path] is what [node:path] does on POSIX paths and [Lines] the multi-line
    regular expressions of the code, as matchers tried at every line start.
    [Recipe] is [deployments/recipe-path.ts], [recipe-inline.ts],
    [dgxrun-catalog.ts] and [dgxrun-recipe.ts]; the YAML parser is a parameter.
    [MaxOutMem] is [deployments/maxoutmem.ts] with the SSH client as a parameter,
    [Launch] is [deployments/claude-launch.ts].  Texts are ASCII. *)
From S2P Require Import Prelude JsNum Schema Gateway.
Import Modality.

Definition dquoted (s : string) : string := String dq (s +:+ String dq "").

Definition str_ends_with (suffix s : string) : bool :=
  bool_decide (suffix = str_drop (String.length s - String.length suffix) s).

(** [s.endsWith(x) ? s without x : s], for [s.replace(/x$/, "")]. *)
Definition strip_suffix (suffix s : string) : string :=
  if str_ends_with suffix s then str_take (String.length s - String.length suffix) s else s.

Definition strip_prefix (p s : string) : option string :=
  if String.prefix p s then Some (str_drop (String.length p) s) else None.

Module Path.

(** Collapse the segments of an absolute path; [acc] is the result reversed. *)
Fixpoint collapse (acc : list string) (segs : list string) : list string :=
  match segs with
  | [] => rev acc
  | seg :: rest =>
      if String.eqb seg "" || String.eqb seg "." then collapse acc rest
      else if String.eqb seg ".." then collapse (tail acc) rest
      else collapse (seg :: acc) rest
  end.

Definition isAbsolute (p : string) : bool := String.prefix "/" p.

(** The segments of [resolve(cwd, p)]. *)
Definition resolveSegs (cwd : list string) (p : string) : list string :=
  if isAbsolute p then collapse [] (str_split "/" p) else collapse (rev cwd) (str_split "/" p).

Definition pathOf (segs : list string) : string := String "/" (str_join "/" segs).

(** [full === base || full.startsWith(base + sep)] *)
Definition resolveRecipePath (cwd : list string) (rel root : string) : result string string :=
  let base := resolveSegs cwd root in
  let full := resolveSegs base rel in
  if negb (String.eqb (pathOf full) (pathOf base)) &&
     negb (String.prefix (pathOf base +:+ "/") (pathOf full))
  then Err ("recipePath resolves outside shared storage: " +:+ rel)
  else Ok (pathOf full).

End Path.

Module Lines.

Definition is_eol (c : ascii) : bool := Ascii.eqb c nl || Ascii.eqb c (ascii_of_nat 13).
Definition is_blank (c : ascii) : bool := Ascii.eqb c " " || Ascii.eqb c (ascii_of_nat 9).

(** The text from each line start on, in order: where [^] matches. *)
Fixpoint line_starts_from (s : string) : list string :=
  match s with
  | EmptyString => []
  | String c r => if is_eol c then r :: line_starts_from r else line_starts_from r
  end.
Definition line_starts (s : string) : list string := s :: line_starts_from s.

Fixpoint skip (p : ascii -> bool) (s : string) : string :=
  match s with String c r => if p c then skip p r else s | EmptyString => EmptyString end.

Fixpoint take_while (p : ascii -> bool) (s : string) : string :=
  match s with String c r => if p c then String c (take_while p r) else EmptyString
             | EmptyString => EmptyString end.

(** [$] with the [m] flag. *)
Definition at_eol (s : string) : bool :=
  match s with EmptyString => true | String c _ => is_eol c end.

Definition is_quote (c : ascii) : bool := Ascii.eqb c dq || Ascii.eqb c sq.
Definition skip_quote (s : string) : string :=
  match s with String c r => if is_quote c then r else s | EmptyString => EmptyString end.

(** [re.exec(text)] for a pattern anchored at a line start. *)
Fixpoint first_line {A} (m : string -> option A) (starts : list string) : option A :=
  match starts with
  | [] => None
  | s :: rest => match m s with Some a => Some a | None => first_line m rest end
  end.

Definition exec_lines {A} (m : string -> option A) (text : string) : option A :=
  first_line m (line_starts text).

End Lines.

Module Recipe.
Import Path Lines.

(** ** [modality:] *)

Definition modality_value_char (c : ascii) : bool :=
  is_alnum c || Ascii.eqb c "_" || Ascii.eqb c "-".

(** [/^modality[ \t]*:[ \t]*["']?([A-Za-z0-9_-]+)["']?[ \t]*$/m] *)
Definition match_modality (s : string) : option string :=
  r ← strip_prefix "modality" s;
  r ← strip_prefix ":" (skip is_blank r);
  let r := skip_quote (skip is_blank r) in
  let v := take_while modality_value_char r in
  let tail := skip is_blank (skip_quote (skip modality_value_char r)) in
  if negb (String.eqb v "") && at_eol tail then Some v else None.

(** [Err] carries the unrecognised value. *)
Definition parseModalityYaml (text : string) : result string Modality :=
  match exec_lines match_modality text with
  | None => Ok Text
  | Some value => of_option (isModality (Some (JStr value))) value
  end.

(** ** The catalog *)

Record CatalogRecipe := {
  cr_file : string; cr_name : string; cr_description : option string; cr_model : option string;
  cr_arch : string; cr_modality : Modality; cr_cluster_only : bool;
  cr_defaults : list (string * json) }.

(** [o[k] ?? d] *)
Definition default_of (o : option json) (k : string) (d : json) : string * json :=
  (k, default d (jnullish (jget o k) None)).

(** One file of the directory: the recipe, or a logged skip. *)
Definition loadRecipe (doc : option json) (base : string) : option CatalogRecipe :=
  o ← jobj doc;
  let get k := jget (Some (JObj o)) k in
  if negb (bool_decide (jstr (get "runner") = Some "dgxrun")) then None
  else
    arch ← match get "arch" with None => Some "arm64" | v => jstr v end;
    if negb (mem_str arch ["amd64"; "arm64"]) then None
    else
      modality ← match get "modality" with None => Some Text | v => isModality v end;
      let d := match get "defaults" with Some (JObj l) => Some (JObj l) | _ => Some (JObj []) end in
      Some {| cr_file := "@dgxrun/" +:+ base;
              cr_name := default base (jstr (get "name"));
              cr_description := jstr (get "description");
              cr_model := jstr (get "model");
              cr_arch := arch; cr_modality := modality;
              cr_cluster_only := match get "cluster_only" with
                                 | None => true | Some (JBool b) => b | Some _ => false end;
              cr_defaults :=
                [default_of d "tensor_parallel" (JNum (zn 4));
                 default_of d "gpu_memory_utilization" (JNum (Fin (85 # 100)));
                 default_of d "port" (JNum (zn 8000));
                 default_of d "max_model_len" (JStr "")] |}.

Definition is_yaml (f : string) : bool := str_ends_with ".yaml" f || str_ends_with ".yml" f.

(** [f.replace(/\.ya?ml$/, "")] *)
Definition recipe_base (f : string) : string :=
  if str_ends_with ".yaml" f then strip_suffix ".yaml" f else strip_suffix ".yml" f.

(** [readDir]: [None] when the directory cannot be read; [parseFile]: [None]
    when the file cannot be read or parsed. *)
Definition loadDgxrunCatalog (readDir : option (list string)) (parseFile : string -> option json) :
    list CatalogRecipe :=
  match readDir with
  | None => []
  | Some all => omap (fun f => loadRecipe (parseFile f) (recipe_base f))
                  (js_sort str_le (List.filter is_yaml all))
  end.

Definition DGXRUN_PREFIX : string := "@dgxrun/".

(** [dir] as its segments. *)
Definition resolveDgxrunRecipeFile (recipeFile : string) (dir : list string) : option string :=
  name ← strip_prefix DGXRUN_PREFIX recipeFile;
  if String.eqb name "" || str_includes "/" name || str_includes (String bs "") name ||
     str_includes ".." name
  then None
  else Some (pathOf (collapse (rev dir) (str_split "/" (name +:+ ".yaml")))).

(** ** A dgxrun recipe *)

Record DgxrunResolvedRecipe := {
  rr_model : option string; rr_container : string; rr_command : string;
  rr_env : option (list (string * json)); rr_defaults : option (list (string * json));
  rr_cluster_only : bool; rr_mods : option (list string) }.

Definition mod_char (c : ascii) : bool :=
  is_alnum c || Ascii.eqb c "." || Ascii.eqb c "_" || Ascii.eqb c "-".

(** [/^[A-Za-z0-9][A-Za-z0-9._-]*$/] *)
Definition MOD_NAME_RE (s : string) : bool :=
  match s with String c r => is_alnum c && str_all mod_char r | EmptyString => false end.

(** [String(v)] *)
Fixpoint string_of (v : json) : string :=
  match v with
  | JNull => "null"
  | JBool true => "true"
  | JBool false => "false"
  | JNum n => num_str n
  | JStr s => s
  | JArr l => str_join "," (map (fun x => match x with JNull => "" | _ => string_of x end) l)
  | JObj _ => "[object Object]"
  end.

Definition asEnv (raw : option json) : option (list (string * json)) :=
  match jobj raw with
  | None => None
  | Some o =>
      Some (omap (fun kv : string * json => match kv.2 with
                            | JStr _ | JNum _ | JBool _ => Some kv
                            | JNull => None
                            | v => Some (kv.1, JStr (string_of v))
                            end) o)
  end.

Inductive dgxrunError := MissingContainer | MissingCommand | ModsNotList | BadMod (m : json).

(** The mods of the document: absent, or all single path segments. *)
Fixpoint checkMods (l : list json) : result dgxrunError (list string) :=
  match l with
  | [] => Ok []
  | JStr m :: rest =>
      if MOD_NAME_RE m then ms ← checkMods rest; Ok (m :: ms) else Err (BadMod (JStr m))
  | v :: _ => Err (BadMod v)
  end.

(** [None]: not a dgxrun recipe. *)
Definition resolveDgxrunRecipe (doc : option json) :
    option (result dgxrunError DgxrunResolvedRecipe) :=
  o ← jobj doc;
  let get k := jget (Some (JObj o)) k in
  if negb (bool_decide (jstr (get "runner") = Some "dgxrun")) then None
  else Some (
    let container := default "" (jstr (get "container")) in
    let command := default "" (jstr (get "command")) in
    _ ← guard_or (negb (String.eqb container "")) MissingContainer;
    _ ← guard_or (negb (String.eqb (str_trim command) "")) MissingCommand;
    mods ← match get "mods" with
           | None | Some JNull => Ok None
           | Some (JArr l) => ms ← checkMods l; Ok (Some ms)
           | Some _ => Err ModsNotList
           end;
    Ok {| rr_model := jstr (get "model"); rr_container := container; rr_command := command;
          rr_env := asEnv (get "env"); rr_defaults := jobj (get "defaults");
          rr_cluster_only := match get "cluster_only" with Some (JBool b) => b | _ => false end;
          rr_mods := mods |}).

(** ** Inline recipes *)

Definition MAX_INLINE_RECIPE_BYTES : nat := 512 * 1024.

(** [/^\s*(model|command|runtime)\s*:/m] *)
Definition match_recipe_key (s : string) : option () :=
  let r := skip is_ws s in
  r' ← match strip_prefix "model" r with
       | Some t => Some t
       | None => match strip_prefix "command" r with
                 | Some t => Some t | None => strip_prefix "runtime" r end
       end;
  match strip_prefix ":" (skip is_ws r') with Some _ => Some () | None => None end.

Inductive inlineError := EmptyRecipe | RecipeTooLarge | NotARecipe.

Definition validateInlineRecipe (yaml : string) : result inlineError () :=
  _ ← guard_or (negb (String.eqb (str_trim yaml) "")) EmptyRecipe;
  _ ← guard_or (Z.of_nat (String.length yaml) <=? 512 * 1024)%Z RecipeTooLarge;
  guard_or (match exec_lines match_recipe_key yaml with Some _ => true | None => false end)
    NotARecipe.

(** [v.indexOf(c, 1)] as the text before it. *)
Fixpoint before_char (c : ascii) (s : string) : option string :=
  match s with
  | EmptyString => None
  | String d r => if Ascii.eqb c d then Some EmptyString else String d <$> before_char c r
  end.

Fixpoint before_comment (s : string) : option string :=
  if String.prefix " #" s then Some EmptyString
  else match s with EmptyString => None | String d r => String d <$> before_comment r end.

(** The scalar of a YAML line: unquoted, trailing comment dropped. *)
Definition scalar (raw : option string) : option string :=
  raw ← raw;
  match str_trim raw with
  | EmptyString => None
  | String q r as v =>
      let unquoted := truthy (Some (match before_comment v with Some t => str_trim t | None => v end)) in
      if is_quote q then
        match before_char q r with Some inside => truthy (Some inside) | None => unquoted end
      else unquoted
  end.

(** [key:[ \t]*(.+)$] after the key's indentation. *)
Definition match_scalar (indented : bool) (key s : string) : option string :=
  r ← strip_prefix key (if indented then skip is_blank s else s);
  let rest := take_while (fun c => negb (is_eol c)) r in
  match skip is_blank rest with
  | EmptyString => if String.eqb rest "" then None else Some " "
  | v => Some v
  end.

Definition parseInlineRecipeModel (yaml : string) : option string * option string :=
  (scalar (exec_lines (match_scalar false "model:") yaml),
   scalar (exec_lines (match_scalar true "served_model_name:") yaml)).

End Recipe.

Module MaxOutMem.
Import Lines.

Definition token_char (c : ascii) : bool :=
  is_alnum c || Ascii.eqb c "." || Ascii.eqb c "_" || Ascii.eqb c "-".

Definition SAFE_TOKEN (s : string) : bool := negb (String.eqb s "") && str_all token_char s.

(** The text before the first slash, and after it. *)
Fixpoint split_slash (s : string) : option (string * string) :=
  match s with
  | EmptyString => None
  | String c r => if Ascii.eqb c "/" then Some ("", r)
                  else (fun p => (String c p.1, p.2)) <$> split_slash r
  end.

Definition parseRecipeRef (ref : string) : result string (string * string) :=
  rest ← of_option (strip_prefix "@" ref)
           ("Malformed recipe ref (expected '@<registry>/<basename>'): " +:+ ref);
  p ← of_option (split_slash rest) ("Malformed recipe ref (missing '/'): " +:+ ref);
  _ ← guard_or (SAFE_TOKEN p.1) ("Unsafe recipe registry in ref: " +:+ ref);
  _ ← guard_or (SAFE_TOKEN p.2) ("Unsafe recipe basename in ref: " +:+ ref);
  Ok p.

Definition readMaxOutMemCmd (ref : string) : result string string :=
  p ← parseRecipeRef ref;
  let dir := "$HOME/.cache/sparkrun/registries/" +:+ p.1 +:+ "/recipes" in
  Ok ("f=$(find " +:+ dquoted dir +:+ " -name '" +:+ p.2 +:+ ".yaml' 2>/dev/null | head -1); " +:+
      "if [ -n " +:+ dquoted "$f" +:+
      " ] && grep -qiE '^[[:space:]]*maxoutmem[[:space:]]*:[[:space:]]*true([[:space:]]|$)' " +:+
      dquoted "$f" +:+ "; then echo true; else echo false; fi").

Definition parseMaxOutMem (stdout : string) : bool := String.eqb (str_trim stdout) "true".

(** [/^[ \t]*maxoutmem[ \t]*:[ \t]*true[ \t]*$/im] *)
Definition match_maxoutmem (s : string) : option () :=
  r ← strip_prefix "maxoutmem" (skip is_blank s);
  r ← strip_prefix ":" (skip is_blank r);
  r ← strip_prefix "true" (skip is_blank r);
  if at_eol (skip is_blank r) then Some () else None.

Definition parseMaxOutMemYaml (text : string) : bool :=
  match exec_lines match_maxoutmem (str_lower text) with Some _ => true | None => false end.

(** [s.match(/key(group)/)]: the text after the first occurrence for which the
    group matches. *)
Fixpoint find_group (key : string) (group : string -> option string) (s : string) : option string :=
  match (r ← strip_prefix key s; group r) with
  | Some g => Some g
  | None => match s with EmptyString => None | String _ r => find_group key group r end
  end.

(** [-?\d+] *)
Definition signed_digits (s : string) : option string :=
  let '(sign, r) := match s with String "-" t => ("-", t) | _ => ("", s) end in
  match take_while is_digit r with EmptyString => None | d => Some (sign +:+ d) end.

(** [\S+] *)
Definition non_space (s : string) : option string :=
  truthy (Some (take_while (fun c => negb (is_ws c)) s)).

Definition parseReclaimDetail (stdout : string) : string :=
  let kibMatch := find_group "freed_kib=" signed_digits stdout in
  let gdmMatch := find_group "gdm=" non_space stdout in
  match kibMatch, gdmMatch with
  | None, None => str_trim stdout
  | _, _ =>
      let kib := match kibMatch with
                 | Some k => ["freed " +:+ num_str (num_round (num_mul (number_of_string k)
                                (Fin (1 # 1024)))) +:+ " MiB"]
                 | None => [] end in
      let gdm := match gdmMatch with Some g => ["gdm=" +:+ g] | None => [] end in
      str_join ", " (kib ++ gdm)
  end.

(** What an SSH command yields: a throw with its message, or code and output. *)
Definition ssh_result := result string (Z * string * string).

Record MaxOutMemoryResult := { applied : bool; perNode : list (string * bool * string) }.

Definition notApplied : MaxOutMemoryResult := {| applied := false; perNode := [] |}.

Section Orchestrator.
(** [flagRead]: the flag command on the head; [reclaim]: the reclaim command. *)
Context (flagRead : string -> string -> ssh_result) (reclaim : string -> ssh_result).

Definition reclaimNode (ip : string) : string * bool * string :=
  match reclaim ip with
  | Ok (code, stdout, stderr) =>
      (ip, (code =? 0)%Z, parseReclaimDetail (js_or (Some stdout) stderr))
  | Err detail => (ip, false, detail)
  end.

Definition maxOutMemoryForDeploy (recipeRef headIp : string) (nodeIps : list string)
    (enabled : option bool) : MaxOutMemoryResult :=
  let flag :=
    match enabled with
    | Some b => Some b
    | None =>
        match readMaxOutMemCmd recipeRef with
        | Err _ => None
        | Ok cmd => match flagRead headIp cmd with
                    | Ok (_, stdout, _) => Some (parseMaxOutMem stdout)
                    | Err _ => None
                    end
        end
    end in
  match flag with
  | Some true => {| applied := true; perNode := map reclaimNode nodeIps |}
  | _ => notApplied
  end.

End Orchestrator.

End MaxOutMem.

Module Launch.

Definition CLAUDE_AUTH_TOKEN : string := "dgx-local".

Definition envPairs (baseUrl model authToken : string) (maxModelLen : option num) :
    list (string * string) :=
  [("ANTHROPIC_BASE_URL", baseUrl); ("ANTHROPIC_AUTH_TOKEN", authToken);
   ("ANTHROPIC_DEFAULT_OPUS_MODEL", model); ("ANTHROPIC_DEFAULT_SONNET_MODEL", model);
   ("ANTHROPIC_DEFAULT_HAIKU_MODEL", model)] ++
  match maxModelLen with
  | Some n => if num_lt (zn 0) n && num_lt n (zn 1000000)
              then [("CLAUDE_CODE_DISABLE_1M_CONTEXT", "1")] else []
  | None => []
  end.

Definition quote1 : string := String sq "".

(** [v.split("'").join(r)]: every single quote replaced. *)
Fixpoint replace_sq (r : string) (v : string) : string :=
  match v with
  | EmptyString => EmptyString
  | String c t => if Ascii.eqb c sq then r +:+ replace_sq r t else String c (replace_sq r t)
  end.

Definition bashQuote (v : string) : string :=
  quote1 +:+ replace_sq (quote1 +:+ String bs (quote1 +:+ quote1)) v +:+ quote1.

Definition pwshQuote (v : string) : string :=
  quote1 +:+ replace_sq (quote1 +:+ quote1) v +:+ quote1.

Definition buildClaudeLaunchSnippet (baseUrl model authToken : string) (bash : bool)
    (maxModelLen : option num) : string :=
  let pairs := envPairs baseUrl model authToken maxModelLen in
  let lines := if bash
    then map (fun kv => "export " +:+ kv.1 +:+ "=" +:+ bashQuote kv.2) pairs
    else map (fun kv => "$env:" +:+ kv.1 +:+ " = " +:+ pwshQuote kv.2) pairs in
  str_join (String nl "") (lines ++ ["# then run: claude"]).

End Launch.
