(* ===== verification/RecipeFacts.v ===== *)
(** Recipes: where a path can lead, and what a resolved recipe guarantees. *)
From S2P Require Import Prelude JsNum Schema Gateway Recipes.
Import Modality Path Lines Recipe MaxOutMem Launch.

(** * Paths *)

Definition no_slash (c : ascii) : bool := negb (Ascii.eqb c "/").

(** A real segment: not empty, no slash, neither dot nor dot-dot. *)
Definition seg_ok (s : string) : Prop :=
  s <> "" /\ s <> "." /\ s <> ".." /\ str_all no_slash s = true.

Lemma str_split_no_slash s : Forall (fun w => str_all no_slash w = true) (str_split "/" s).
Proof.
  induction s as [|c s IH]; simpl; [by constructor|].
  destruct (Ascii.eqb c "/") eqn:E; [by constructor|].
  destruct (str_split "/" s) as [|w ws]; [constructor; [|done]|].
  - simpl. unfold no_slash at 1. by rewrite E.
  - apply Forall_cons in IH as [Hw Hws]. constructor; [|done]. simpl. unfold no_slash at 1.
    by rewrite E, Hw.
Qed.

Lemma collapse_ok acc segs :
  Forall seg_ok acc -> Forall (fun w => str_all no_slash w = true) segs ->
  Forall seg_ok (collapse acc segs).
Proof.
  intros Hacc Hs. revert acc Hacc. induction Hs as [|w ws Hw _ IH]; intros acc Hacc; simpl.
  - by apply Forall_rev.
  - destruct (String.eqb w "" || String.eqb w ".") eqn:E1; [by apply IH|].
    apply orb_false_iff in E1 as [?%String.eqb_neq ?%String.eqb_neq].
    destruct (String.eqb w "..") eqn:E2; apply IH.
    + destruct Hacc; [constructor|done].
    + apply String.eqb_neq in E2. by constructor.
Qed.

Lemma resolveSegs_ok cwd p : Forall seg_ok cwd -> Forall seg_ok (resolveSegs cwd p).
Proof.
  intros H. unfold resolveSegs. destruct (isAbsolute p); apply collapse_ok;
    try apply str_split_no_slash; [constructor|by apply Forall_rev].
Qed.

(** The segments, each after its slash. *)
Definition flat (segs : list string) : string := foldr (fun w s => String "/" (w +:+ s)) "" segs.

Lemma pathOf_flat segs : segs <> [] -> pathOf segs = flat segs.
Proof.
  destruct segs as [|w segs]; [done|]. intros _. unfold pathOf, str_join.
  revert w. induction segs as [|v segs IH]; intros w.
  - simpl. by rewrite app_empty_r.
  - change (String.concat "/" (w :: v :: segs)) with (w +:+ String "/" (String.concat "/" (v :: segs))).
    by rewrite IH.
Qed.

(** A slash-free word followed by a slash is recognised wherever it occurs. *)
Lemma word_prefix b f rb rf :
  str_all no_slash b = true -> str_all no_slash f = true ->
  (rf = "" \/ exists t, rf = String "/" t) ->
  String.prefix (b +:+ String "/" rb) (f +:+ rf) = true ->
  b = f /\ String.prefix (String "/" rb) rf = true.
Proof.
  revert f. induction b as [|c b IH]; intros f Hb Hf Hrf H.
  - destruct f as [|d f]; [done|]. exfalso. rewrite app_empty_l, app_String in H.
    cbn [String.prefix] in H. cbn [str_all] in Hf.
    destruct (ascii_dec "/" d) as [<-|]; [|discriminate H].
    unfold no_slash in Hf. simpl in Hf. discriminate Hf.
  - rewrite app_String in H. cbn [str_all] in Hb. apply andb_prop in Hb as [Hc Hb].
    destruct f as [|d f].
    + exfalso. rewrite app_empty_l in H. destruct Hrf as [->|[t ->]]; [done|].
      cbn [String.prefix] in H.
      destruct (ascii_dec c "/") as [->|]; [|discriminate H].
      unfold no_slash in Hc. simpl in Hc. discriminate Hc.
    + rewrite app_String in H. cbn [String.prefix] in H. cbn [str_all] in Hf. apply andb_prop in Hf as [_ Hf].
      destruct (ascii_dec c d) as [->|]; [|done].
      destruct (IH f Hb Hf Hrf H) as [-> ?]. done.
Qed.

Lemma flat_shape segs : flat segs = "" \/ exists t, flat segs = String "/" t.
Proof. destruct segs; [by left|right; by eexists]. Qed.

Lemma flat_prefix bs fs :
  Forall seg_ok bs -> Forall seg_ok fs ->
  String.prefix (flat bs +:+ "/") (flat fs) = true -> exists rest, fs = bs ++ rest /\ rest <> [].
Proof.
  intros Hb. revert fs. induction Hb as [|b bs (_ & _ & _ & Hb) _ IH]; intros fs Hf H.
  - exists fs. split; [done|]. by intros ->.
  - destruct Hf as [|f fs (_ & _ & _ & Hf) Hfs]; [done|].
    cbn [flat foldr] in H. fold (flat bs) (flat fs) in H.
    rewrite app_String, str_app_assoc in H. simpl in H.
    assert (exists rb, flat bs +:+ "/" = String "/" rb) as [rb Hrb].
    { destruct (flat_shape bs) as [->|[t ->]]; [by eexists|]. rewrite app_String. by eexists. }
    rewrite Hrb in H. apply word_prefix in H as [-> H]; [|done|done|apply flat_shape].
    rewrite <- Hrb in H. destruct (IH fs Hfs H) as (rest & -> & Hr). by exists rest.
Qed.

Lemma flat_app xs ys : flat (xs ++ ys) = flat xs +:+ flat ys.
Proof.
  induction xs as [|x xs IH]; [done|]. cbn [flat foldr app]. fold (flat xs) (flat (xs ++ ys)).
  by rewrite IH, app_String, str_app_assoc.
Qed.

Lemma flat_inj xs ys : Forall seg_ok xs -> Forall seg_ok ys -> flat xs = flat ys -> xs = ys.
Proof.
  intros Hx Hy E.
  assert (forall zs ws, Forall seg_ok zs -> Forall seg_ok ws -> flat zs = flat ws ->
    exists rest, ws = zs ++ rest) as H.
  { clear. intros zs ws Hz Hw E.
    assert (String.prefix (flat zs +:+ "/") (flat (ws ++ ["x"])) = true) as Hp.
    { rewrite flat_app, E. apply prefix_spec. exists "x". by rewrite str_app_assoc. }
    apply flat_prefix in Hp as (rest & Hr & Hne); [|done|].
    - destruct rest as [|r rest] using rev_ind; [done|]. rewrite app_assoc in Hr.
      apply app_inj_tail in Hr as [-> _]. by eexists.
    - apply Forall_app. split; [done|]. constructor; [|constructor]. by vm_compute. }
  destruct (H xs ys Hx Hy E) as [r1 ->]. destruct (H (xs ++ r1) xs Hy Hx (eq_sym E)) as [r2 H2].
  rewrite <- (app_nil_r xs) in H2 at 1. rewrite <- app_assoc in H2. apply app_inv_head in H2.
  symmetry in H2. apply app_eq_nil in H2 as [-> _]. by rewrite app_nil_r.
Qed.

(** C28: A recipe path cannot leave shared storage.  For a storage root below [/],
    [resolveRecipePath] accepts exactly the paths whose segments, after every
    [.] and [..] is resolved, extend the root's; the path it returns is made of
    real segments only, so it names the root or something inside it. *)
Theorem resolveRecipePath_contained cwd rel root :
  Forall seg_ok cwd -> resolveSegs cwd root <> [] ->
  let base := resolveSegs cwd root in
  let full := resolveSegs base rel in
  Forall seg_ok full /\
  (is_ok (resolveRecipePath cwd rel root) <-> exists rest, full = base ++ rest) /\
  (forall p, resolveRecipePath cwd rel root = Ok p -> p = pathOf full).
Proof.
  intros Hcwd Hne base full.
  assert (Forall seg_ok base) as Hb by (by apply resolveSegs_ok).
  assert (Forall seg_ok full) as Hf by (by apply resolveSegs_ok).
  split; [done|]. unfold resolveRecipePath. fold base. fold full.
  assert (base <> []) as Hne0 by exact Hne. clear Hne. clearbody base full.
  destruct (negb _ && negb _) eqn:E; (split; [split|]); try done.
  - by intros [? ?].
  - intros [rest Hr]. exfalso. apply andb_prop in E as [E1 E2].
    apply negb_true_iff in E1, E2. apply String.eqb_neq in E1.
    destruct rest as [|r rest]; [apply E1; by rewrite Hr, app_nil_r|].
    rewrite Hr in E2. rewrite (pathOf_flat base) in E2 by done.
    rewrite pathOf_flat in E2 by (by destruct base). rewrite flat_app in E2.
    apply not_true_iff_false in E2. apply E2, prefix_spec. cbn [flat foldr].
    exists (r +:+ flat rest). by rewrite str_app_assoc.
  - intros _. rewrite andb_false_iff, !negb_false_iff, String.eqb_eq in E. destruct E as [E|E].
    + exists []. rewrite app_nil_r. destruct (decide (full = [])) as [Hf0|Hf0].
      * rewrite Hf0 in E. rewrite (pathOf_flat base) in E by done. destruct base as [|b bs]; [done|].
        unfold pathOf in E. cbn in E. injection E as E. apply Forall_cons in Hb as [(Hb0 & _) _].
        destruct b; [exfalso; by apply Hb0|discriminate E].
      * rewrite !pathOf_flat in E by done. by apply flat_inj.
    + rewrite (pathOf_flat base) in E by done. destruct (decide (full = [])) as [Hf0|Hf0].
      * exfalso. rewrite Hf0 in E. destruct base as [|b bs]; [done|]. cbn -[String.prefix] in E.
        apply Forall_cons in Hb as [(Hb0 & _) _].
        destruct b; [exfalso; by apply Hb0|discriminate E].
      * rewrite pathOf_flat in E by done.
        apply flat_prefix in E as (rest & -> & _); [by exists rest|done|done].
  - intros _. by eexists.
  - by intros p [= <-].
Qed.

Lemma str_split_single s : str_all no_slash s = true -> s <> "" -> str_split "/" s = [s].
Proof.
  induction s as [|c s IH]; [done|]. intros H _. cbn [str_all] in H. apply andb_prop in H as [Hc Hs].
  cbn [str_split]. apply negb_true_iff in Hc. rewrite Hc.
  destruct s as [|d s]; [done|]. by rewrite IH.
Qed.

Lemma no_slash_includes s : str_includes "/" s = false -> str_all no_slash s = true.
Proof.
  induction s as [|c s IH]; [done|]. cbn [str_includes String.prefix str_all]. intros H.
  apply orb_false_iff in H as [Hc Hs]. rewrite IH by done. unfold no_slash.
  destruct (ascii_dec "/" c) as [<-|Hne]; [by destruct s|].
  assert (Ascii.eqb c "/" = false) as ->; [|done]. apply Ascii.eqb_neq. congruence.
Qed.

(** A catalog reference names a file directly in the catalog directory. *)
Lemma resolveDgxrunRecipeFile_inside ref dir p :
  resolveDgxrunRecipeFile ref dir = Some p ->
  exists name, ref = DGXRUN_PREFIX +:+ name /\ str_all no_slash name = true /\
               p = pathOf (dir ++ [name +:+ ".yaml"]).
Proof.
  unfold resolveDgxrunRecipeFile, strip_prefix.
  destruct (String.prefix DGXRUN_PREFIX ref) eqn:Hp; [|done]. cbn [mbind option_bind].
  apply prefix_spec in Hp as [name ->].
  assert (str_drop (String.length DGXRUN_PREFIX) (DGXRUN_PREFIX +:+ name) = name) as -> by reflexivity.
  destruct (_ || _) eqn:E; [done|]. intros [= <-]. rewrite !orb_false_iff in E.
  destruct E as [[[E1 E2] _] _]. apply no_slash_includes in E2.
  exists name. split; [done|]. split; [done|].
  rewrite str_split_single.
  - cbn [collapse]. assert (forall x, String.eqb x ".yaml" = false -> True) as _ by done.
    destruct name as [|c name]; [done|].
    assert (String.eqb (String c name +:+ ".yaml") "" = false) as -> by done.
    assert (forall n, (3 <= String.length n)%nat ->
              String.eqb n "." = false /\ String.eqb n ".." = false) as Hlen.
    { intros n Hn. split; apply String.eqb_neq; intros ->; simpl in Hn; lia. }
    assert (3 <= String.length (String c name +:+ ".yaml"))%nat as H3.
    { rewrite app_String. clear. simpl. induction name as [|d n IH]; simpl in *; lia. }
    destruct (Hlen _ H3) as [-> ->]. simpl. by rewrite rev_involutive.
  - by rewrite str_all_app, E2.
  - by destruct name.
Qed.

(** * dgxrun recipes *)

Lemma checkMods_spec l ms :
  checkMods l = Ok ms -> l = map JStr ms /\ Forall (fun m => MOD_NAME_RE m = true) ms.
Proof.
  revert ms. induction l as [|v l IH]; intros ms; simpl; [by intros [= <-]|].
  destruct v as [| | |m| |]; try done. destruct (MOD_NAME_RE m) eqn:E; [|done].
  destruct (checkMods l) as [ms'|]; [|done]. intros [= <-].
  destruct (IH ms' eq_refl) as [-> ?]. split; [done|by constructor].
Qed.

Lemma MOD_NAME_RE_segment m : MOD_NAME_RE m = true -> seg_ok m.
Proof.
  destruct m as [|c r]; [done|]. cbn [MOD_NAME_RE]. intros [Hc Hr]%andb_prop.
  split; [done|]. split; [intros [= -> ->]; done|]. split; [intros [= -> ->]; done|].
  cbn [str_all]. apply andb_true_iff. split.
  - unfold no_slash. destruct (Ascii.eqb c "/") eqn:E; [|done].
    apply Ascii.eqb_eq in E as ->. done.
  - apply (str_all_impl mod_char); [|done]. intros d Hd. unfold no_slash.
    destruct (Ascii.eqb d "/") eqn:E; [|done]. apply Ascii.eqb_eq in E as ->. done.
Qed.

(** A recipe is taken for dgxrun only when it says so, and only when it can be
    launched.  [resolveDgxrunRecipe] answers at all iff the document is a mapping
    with [runner: dgxrun]; a recipe it returns has a container and a command that
    is not blank, and every mod it names is a single real path segment, so the
    bind mount it becomes cannot leave the mods directory. *)
Theorem resolveDgxrunRecipe_launchable doc :
  (is_Some (resolveDgxrunRecipe doc) <->
     exists o, doc = Some (JObj o) /\ jstr (jget doc "runner") = Some "dgxrun") /\
  (forall r, resolveDgxrunRecipe doc = Some (Ok r) ->
     rr_container r <> "" /\ str_trim (rr_command r) <> "" /\
     jstr (jget doc "container") = Some (rr_container r) /\
     jstr (jget doc "command") = Some (rr_command r) /\
     Forall seg_ok (default [] (rr_mods r)) /\
     (rr_mods r = None -> jget doc "mods" = None \/ jget doc "mods" = Some JNull)).
Proof.
  unfold resolveDgxrunRecipe. destruct doc as [[| | | | |o]|];
    try (split; [split; [by intros [? ?]|by intros (? & ? & _)]|done]).
  cbn [jobj mbind option_bind].
  destruct (bool_decide (jstr (jget (Some (JObj o)) "runner") = Some "dgxrun")) eqn:R; cbn [negb].
  2:{ apply bool_decide_eq_false in R. split; [|done].
      split; [by intros [? ?]|]. by intros (? & [= <-] & ?). }
  apply bool_decide_eq_true in R. split; [split; [intros _; by exists o|by eexists]|].
  intros r [= H]. cbn [jget].
  destruct (jstr (obj_get o "container")) as [ct|] eqn:Ec; simpl in H; [|discriminate H].
  destruct (String.eqb ct "") eqn:E1; [discriminate H|]. apply String.eqb_neq in E1.
  destruct (jstr (obj_get o "command")) as [cmd|] eqn:Ed; simpl in H; [|discriminate H].
  destruct (String.eqb (str_trim cmd) "") eqn:E2; [discriminate H|]. apply String.eqb_neq in E2.
  destruct (obj_get o "mods") as [v|] eqn:Em.
  2:{ injection H as <-. repeat split; try done. by left. }
  destruct v as [| | | |l|]; try discriminate H.
  - injection H as <-. repeat split; try done. by right.
  - destruct (checkMods l) as [ms|] eqn:Hms; [|discriminate H]. injection H as <-.
    apply checkMods_spec in Hms as [_ Hms]. repeat split; try done. simpl.
    eapply Forall_impl; [exact Hms|]. apply MOD_NAME_RE_segment.
Qed.

(** * The flag probe *)

(** What [parseRecipeRef] accepts, exactly. *)
Lemma parseRecipeRef_Ok ref registry basename :
  parseRecipeRef ref = Ok (registry, basename) <->
  ref = "@" +:+ registry +:+ "/" +:+ basename /\ SAFE_TOKEN registry = true /\ SAFE_TOKEN basename = true.
Proof.
  assert (forall s p, split_slash s = Some p -> s = p.1 +:+ "/" +:+ p.2) as Hsplit.
  { induction s as [|c s IH]; intros p H; [done|]. cbn [split_slash] in H.
    destruct (Ascii.eqb c "/") eqn:E.
    - injection H as <-. apply Ascii.eqb_eq in E as ->. done.
    - destruct (split_slash s) as [q|]; [|done]. injection H as <-. simpl.
      by rewrite (IH q eq_refl) at 1. }
  assert (forall r b, SAFE_TOKEN r = true -> split_slash (r +:+ "/" +:+ b) = Some (r, b)) as Hjoin.
  { intros r b Hr. unfold SAFE_TOKEN in Hr. apply andb_prop in Hr as [_ Hr].
    induction r as [|c r IH]; [done|]. cbn [str_all] in Hr. apply andb_prop in Hr as [Hc Hr].
    rewrite app_String. cbn [split_slash].
    assert (Ascii.eqb c "/" = false) as ->.
    { destruct (Ascii.eqb c "/") eqn:E; [|done]. apply Ascii.eqb_eq in E as ->. done. }
    by rewrite (IH Hr). }
  unfold parseRecipeRef, strip_prefix. split.
  - destruct (String.prefix "@" ref) eqn:Hp; [|done]. apply prefix_spec in Hp as [t ->].
    change (str_drop (String.length "@") ("@" +:+ t)) with t. cbn [of_option mbind result_bind].
    destruct (split_slash t) as [p|] eqn:Hs; [|done]. cbn [of_option mbind result_bind].
    destruct (SAFE_TOKEN p.1) eqn:E1; [|done]. destruct (SAFE_TOKEN p.2) eqn:E2; [|done].
    intros [= ->]. apply Hsplit in Hs as ->. done.
  - intros (-> & E1 & E2). rewrite prefix_app.
    change (str_drop (String.length "@") ("@" +:+ registry +:+ "/" +:+ basename))
      with (registry +:+ "/" +:+ basename). cbn [of_option mbind result_bind].
    rewrite (Hjoin _ _ E1). cbn [of_option mbind result_bind fst snd]. by rewrite E1, E2.
Qed.

(** The memory reclaim never blocks a deploy, and reads the flag it was told
    to.  The orchestrator returns a result whatever the reference and the SSH
    client do; it reclaims exactly when the flag the manager already read is true
    or, without one, when the reference is [@registry/basename] over the safe
    alphabet and the head answers [true]; it then reports every node once, in
    order, an SSH failure included.  The safe alphabet still admits [..] as a
    registry. *)
Theorem maxOutMemoryForDeploy_total flagRead reclaim ref head ips enabled :
  let r := maxOutMemoryForDeploy flagRead reclaim ref head ips enabled in
  (applied r = true <->
     enabled = Some true \/
     (enabled = None /\ exists registry basename cmd code out err,
        ref = "@" +:+ registry +:+ "/" +:+ basename /\
        SAFE_TOKEN registry = true /\ SAFE_TOKEN basename = true /\
        readMaxOutMemCmd ref = Ok cmd /\ flagRead head cmd = Ok (code, out, err) /\
        str_trim out = "true")) /\
  map (fun n => n.1.1) (perNode r) = (if applied r then ips else []) /\
  (forall ip, reclaim ip = Err "unreachable" -> applied r = true -> ip ∈ ips ->
     (ip, false, "unreachable") ∈ perNode r) /\
  parseRecipeRef "@../x" = Ok ("..", "x").
Proof.
  intros r. unfold r, maxOutMemoryForDeploy.
  set (flag := match enabled with Some b => Some b | None => _ end).
  assert (map (fun n : string * bool * string => n.1.1) (map (reclaimNode reclaim) ips) = ips) as Hmap.
  { rewrite map_map. rewrite <- (map_id ips) at 2. apply map_ext. intros ip.
    unfold reclaimNode. by destruct (reclaim ip) as [[[? ?] ?]|]. }
  assert (flag = Some true <-> enabled = Some true \/
     (enabled = None /\ exists registry basename cmd code out err,
        ref = "@" +:+ registry +:+ "/" +:+ basename /\
        SAFE_TOKEN registry = true /\ SAFE_TOKEN basename = true /\
        readMaxOutMemCmd ref = Ok cmd /\ flagRead head cmd = Ok (code, out, err) /\
        str_trim out = "true")) as Hflag.
  { unfold flag. destruct enabled as [b|]; [naive_solver|].
    destruct (readMaxOutMemCmd ref) as [cmd|] eqn:Hcmd.
    2:{ split; [done|]. intros [?|(_ & ? & ? & ? & ? & ? & ? & _ & _ & _ & ? & _)]; done. }
    assert (exists registry basename, parseRecipeRef ref = Ok (registry, basename)) as (rg & bn & Href).
    { unfold readMaxOutMemCmd in Hcmd. destruct (parseRecipeRef ref) as [[rg bn]|]; [by eauto|done]. }
    apply parseRecipeRef_Ok in Href as (Href & H1 & H2).
    destruct (flagRead head cmd) as [[[code out] err]|] eqn:Hf.
    2:{ split; [done|].
        intros [?|(_ & ? & ? & ? & ? & ? & ? & _ & _ & _ & [= <-] & ? & _)]; [done|congruence]. }
    unfold parseMaxOutMem. split.
    - intros [= Ht%String.eqb_eq]. right. split; [done|]. by exists rg, bn, cmd, code, out, err.
    - intros [?|(_ & ? & ? & ? & ? & ? & ? & _ & _ & _ & [= <-] & Hf' & Ht)]; [done|].
      rewrite Hf in Hf'. injection Hf' as <- <- <-. f_equal. by apply String.eqb_eq. }
  destruct flag as [[|]|]; simpl.
  - split; [rewrite <- Hflag; done|]. split; [exact Hmap|]. split; [|by vm_compute].
    intros ip Hip _ Hin. apply list_elem_of_fmap. exists ip. split; [|done].
    unfold reclaimNode. by rewrite Hip.
  - split; [rewrite <- Hflag; done|]. done.
  - split; [rewrite <- Hflag; done|]. done.
Qed.

(** * Quoting for a shell *)

(** The value of a POSIX shell word made of quoted runs and escapes; [None] when
    it is unterminated or contains an unquoted special character. *)
Fixpoint sh_word (inside : bool) (s : string) : option string :=
  match s with
  | EmptyString => if inside then None else Some ""
  | String c r =>
      if Ascii.eqb c sq then sh_word (negb inside) r
      else if inside then String c <$> sh_word true r
      else if Ascii.eqb c bs then
        match r with EmptyString => None | String d r' => String d <$> sh_word false r' end
      else if is_alnum c then String c <$> sh_word false r
      else None
  end.

(** The value of a PowerShell single-quoted literal after its opening quote. *)
Fixpoint pwsh_literal (s : string) : option string :=
  match s with
  | EmptyString => None
  | String c r =>
      if Ascii.eqb c sq then
        match r with
        | EmptyString => Some ""
        | String d r' => if Ascii.eqb d sq then String sq <$> pwsh_literal r' else None
        end
      else String c <$> pwsh_literal r
  end.

(** The launch snippet's quoting is a round trip: a POSIX shell reads the
    bash-quoted value back, and PowerShell the other, whatever characters the
    value holds. *)
Theorem launch_quoting_roundtrip v :
  sh_word false (bashQuote v) = Some v /\
  exists rest, pwshQuote v = String sq rest /\ pwsh_literal rest = Some v.
Proof.
  split.
  - unfold bashQuote. change (quote1 +:+ ?x) with (String sq x). cbn [sh_word].
    rewrite Ascii.eqb_refl. cbn [negb].
    induction v as [|c v IH]; [done|]. cbn [replace_sq].
    destruct (Ascii.eqb c sq) eqn:E.
    + apply Ascii.eqb_eq in E as ->. rewrite str_app_assoc.
      change (sh_word true (String sq (String bs (String sq (String sq
        (replace_sq (quote1 +:+ String bs (quote1 +:+ quote1)) v +:+ quote1))))) = Some (String sq v)).
      cbn [sh_word]. rewrite Ascii.eqb_refl. cbn [negb].
      assert (Ascii.eqb bs sq = false) as -> by reflexivity. rewrite !Ascii.eqb_refl. cbn [negb].
      change (fmap (String sq) (sh_word true
        (replace_sq (quote1 +:+ String bs (quote1 +:+ quote1)) v +:+ quote1)) = Some (String sq v)).
      by rewrite IH.
    + rewrite app_String. cbn [sh_word]. rewrite E. by rewrite IH.
  - eexists. split; [reflexivity|].
    induction v as [|c v IH]; [done|]. cbn [replace_sq].
    destruct (Ascii.eqb c sq) eqn:E.
    + apply Ascii.eqb_eq in E as ->. rewrite str_app_assoc.
      change (pwsh_literal (String sq (String sq (replace_sq (quote1 +:+ quote1) v +:+ quote1)))
        = Some (String sq v)).
      cbn [pwsh_literal]. rewrite !Ascii.eqb_refl. by rewrite IH.
    + rewrite app_String. cbn [pwsh_literal]. rewrite E. by rewrite IH.
Qed.

Lemma resolveRecipePath_contained_witness :
  resolveRecipePath [] "sub/../a.yaml" "/srv/shared" = Ok "/srv/shared/a.yaml" /\
  is_ok (resolveRecipePath [] "sub/../a.yaml" "/srv/shared") /\
  ~ is_ok (resolveRecipePath [] "../../etc/passwd" "/srv/shared").
Proof.
  split; [by vm_compute|]. split.
  - apply (resolveRecipePath_contained [] "sub/../a.yaml" "/srv/shared"); [constructor|done|].
    by exists ["a.yaml"].
  - intros [p Hp]. vm_compute in Hp. discriminate Hp.
Defined.
