(* ===== verification/Routes.v ===== *)
(** The deployment routes that act on an existing deployment:
    [DELETE /api/deployments/:id] and [POST /api/deployments/:id/restart]
    ([routes/deployments.ts]).

    A handler takes the tables, the request and the agent catalogs, and yields a
    refusal or the new tables with the messages sent, in order.  The body of a
    request is its parsed JSON.  What the agents reported (recipes, training
    recipes) is a list of records; [localeCompare] on ids, which are lower-case
    alphanumeric, is the order of code units. *)
From S2P Require Import Prelude JsNum Schema Admission Gateway Deployments Recipes.
Import Vram Names Dispatch Status.

Record agentRecipe := {
  ar_file : string; ar_model : option string; ar_arch : Arch.RecipeArch; ar_defaults : option json }.
Record trainingRecipe := {
  tr_file : string; tr_deploy : option json; tr_baseModel : string; tr_method : string;
  tr_merge : option string; tr_quantize : option string }.
Record catalogs := { cat_recipes : list agentRecipe; cat_training : list trainingRecipe }.

(** [deployment.config ? JSON.parse(deployment.config) : {}], and the property
    accesses that follow, which throw on [null]. *)
Definition savedConfigOf (d : deployment) : option json :=
  match d_config d with
  | None => Some (JObj [])
  | Some None | Some (Some JNull) => None
  | Some (Some j) => Some j
  end.

(** The own entries that [...v] copies. *)
Definition entriesOf (v : option json) : list (string * json) :=
  match v with
  | Some (JObj l) => l
  | Some (JArr l) => imap (fun i x => (pretty i, x)) l
  | _ => []
  end.

(** The cluster rows joined with their nodes. *)
Definition membersOf (s : db) (d : deployment) : list (cluster_node * node) :=
  omap (fun c => (fun n => (c, n)) <$> tbl_find (cn_nodeId c) (nodes s)) (clusterNodesOf s (d_id d)).

Definition clusterIps (s : db) (d : deployment) : option (list (option string)) :=
  if d_clusterMode d then Some (map (fun m => n_ipAddress m.2) (membersOf s d)) else None.

Module Delete.

Record undeployMsg := {
  um_node : string; um_deploymentId : string; um_deleteAfter : bool;
  um_clusterNodes : option (list (option string)); um_runtime : option json;
  um_modelName : option json; um_dgxrun : bool }.

Inductive deleteReply := Deleted | Removing.
Inductive deleteRefusal := NotFound | BadConfig.

Definition undeployTargets (s : db) (d : deployment) (isDgxrun : bool) : list string :=
  match membersOf s d with
  | [] => [d_nodeId d]
  | ms => if isDgxrun then map (fun m => n_id m.2) ms else [d_nodeId d]
  end.

Definition undeployTo (s : db) (d : deployment) (cfg : json) (isDgxrun deleteAfter : bool)
    (target : string) : undeployMsg :=
  {| um_node := target; um_deploymentId := d_id d; um_deleteAfter := deleteAfter;
     um_clusterNodes := clusterIps s d;
     um_runtime := jor (jget (Some cfg) "runtime") (Some (JStr "vllm"));
     um_modelName := jget (Some cfg) "modelName"; um_dgxrun := isDgxrun |}.

Definition deleteRoute (s : db) (online : string -> bool) (id : string) (wantDelete : bool) :
    result deleteRefusal (db * list undeployMsg * list effect * deleteReply) :=
  d ← of_option (tbl_find id (deployments s)) NotFound;
  cfg ← of_option (savedConfigOf d) BadConfig;
  let isDgxrun := bool_decide (jstr (jget (Some cfg) "runner") = Some "dgxrun") in
  let targets := undeployTargets s d isDgxrun in
  if wantDelete && mem_str (d_status d) TERMINAL_STATUSES then
    let sends := map (undeployTo s d cfg isDgxrun false) (List.filter online targets) in
    Ok (deleteDeployment id s, sends, [BroadcastDeleted id], Deleted)
  else
    let sends := map (undeployTo s d cfg isDgxrun wantDelete) targets in
    let s1 := db_deployments (tbl_update id
                (patch_deployment (DepPatch (Some "removing") None None None None None None))) s in
    let s2 := if d_clusterMode d then setClusterStatus id "stopping" s1 else s1 in
    Ok (s2, sends, [], Removing).

End Delete.

Module Restart.

Definition RESERVED : list string :=
  ["recipeFile"; "runtime"; "modelName"; "modelType"; "modality"; "authorisedGpuMem"].

(** The caller's overrides, reserved keys deleted. *)
Definition overridesOf (body : option json) : list (string * json) :=
  let raw := match jget body "config" with
             | Some (JObj l) => entriesOf (Some (JObj l))
             | Some (JArr l) => entriesOf (Some (JArr l))
             | _ => [] end in
  List.filter (fun kv => negb (mem_str kv.1 RESERVED)) raw.

(** [/^[a-z0-9][a-z0-9-]{0,31}$/] *)
Definition isValidVariantSlug (v : option json) : bool :=
  match v with
  | Some (JStr (String c r)) =>
      (is_lower c || is_digit c) && (String.length r <=? 31)%nat &&
      str_all (fun d => is_lower d || is_digit d || Ascii.eqb d "-") r
  | _ => false
  end.

Inductive restartRefusal :=
  | NotFound
  | Unhandled                                   (** a throw nobody catches: 500 *)
  | InvalidGpuMem (v : json)
  | InvalidArtifactVariant (v : json)
  | InvalidDisplayName (e : DisplayNameError)
  | NameConflict (name conflictId : string)
  | Shortfall (shortfalls : list VramShortfall) (gpuMemoryUtilization : num)
  | NoDgxrunRecipe
  | MissingIps (nodeIds : list string)
  | DispatchFailed (e : string).

Definition refusal_status (r : restartRefusal) : Z :=
  match r with
  | NotFound => 404
  | Unhandled => 500
  | InvalidGpuMem _ | InvalidArtifactVariant _ | InvalidDisplayName _ => 400
  | _ => 409
  end.

(** The display name after the restart. *)
Definition restartDisplayName (s : db) (d : deployment) (body : option json) :
    result restartRefusal (option string) :=
  match jget body "displayName" with
  | None => Ok (d_displayName d)
  | Some raw =>
      raw' ← match raw with JNull => Ok None | JStr r => Ok (Some r) | _ => Err Unhandled end;
      name ← match normalizeDisplayName raw' with
             | Ok n => Ok n | Err e => Err (InvalidDisplayName e) end;
      match truthy name with
      | None => Ok name
      | Some n =>
          match validateDisplayNameUnique s (Some n) (Some (d_id d)) with
          | Some conflict => Err (NameConflict n conflict)
          | None => Ok name
          end
      end
  end.

Definition finetuneJobOf (s : db) (d : deployment) : option finetune_job :=
  m ← model_of s d; jid ← m_finetuneJobId m; tbl_find jid (finetuneJobs s).

Definition findRecipe (cat : catalogs) (file : option json) : option agentRecipe :=
  match file with
  | Some (JStr f) => if String.eqb f "" then None
                     else js_find (fun r => String.eqb (ar_file r) f) (cat_recipes cat)
  | _ => None
  end.

Definition trainingRecipeOf (cat : catalogs) (job : option finetune_job) : option trainingRecipe :=
  j ← job; f ← truthy (f_recipeFile j);
  js_find (fun r => String.eqb (tr_file r) f) (cat_training cat).

(** The shares the recipe sources declare, in the order the launch honours them. *)
Definition recipeDeclaredShares (s : db) (cat : catalogs) (d : deployment) (saved : json)
    (config : list (string * json)) : list (option json) :=
  [jget (jget (jget (Some saved) "dgxrunRecipe") "defaults") "gpu_memory_utilization";
   jget (t ← trainingRecipeOf cat (finetuneJobOf s d); tr_deploy t) "gpu_memory_utilization";
   jget (r ← findRecipe cat (obj_get config "recipeFile"); ar_defaults r) "gpu_memory_utilization"].

Definition requestedShare (s : db) (cat : catalogs) (d : deployment) (saved : json)
    (config : list (string * json)) : num :=
  firstUsableShare (obj_get config "gpuMem" :: recipeDeclaredShares s cat d saved config).

Definition authorisedShare (s : db) (cat : catalogs) (d : deployment) (saved : json)
    (config : list (string * json)) : num :=
  firstUsableShare (jget (Some saved) "authorisedGpuMem" :: jget (Some saved) "gpuMem" ::
                    recipeDeclaredShares s cat d saved config).

Definition checkNodeIds (s : db) (d : deployment) : list string :=
  if d_clusterMode d then map cn_nodeId (clusterNodesOf s (d_id d)) else [d_nodeId d].

(** Admission of a restart: the config to go on with, and whether it is dirty. *)
Definition admitRestart (s : db) (cat : catalogs) (d : deployment) (saved : json)
    (overrides config : list (string * json)) :
    result restartRefusal (list (string * json) * bool) :=
  let dirty := negb (length overrides =? 0)%nat in
  let requested := requestedShare s cat d saved config in
  let authorised := authorisedShare s cat d saved config in
  match checkVllmVramAdmission s (checkNodeIds s d) requested
          (Some {| deploymentId := d_id d; authorisedGpuMemUtil := authorised |}) with
  | [] =>
      match obj_get overrides "gpuMem" with
      | Some _ => Ok (obj_set config "authorisedGpuMem" (JNum requested), true)
      | None => Ok (config, dirty)
      end
  | shortfalls => Err (Shortfall shortfalls requested)
  end.

Definition BOOKKEEPING : list string :=
  ["runner"; "masterPort"; "dgxrunRecipe"; "recipeFile"; "modality"; "authorisedGpuMem"].

(** The recipe placeholders forwarded to the ranks. *)
Definition dgxrunParams (skip : list string) (config : list (string * json))
    (displayName : option string) : list (string * json) :=
  let params := List.filter (fun kv => negb (mem_str kv.1 skip) &&
                  match kv.2 with JStr _ | JNum _ => true | _ => false end) config in
  match truthy displayName with
  | Some n => obj_set params "servedModelName" (JStr n)
  | None => params
  end.

(** The rows of a cluster, head first, the workers sorted by node id. *)
Definition headFirst (d : deployment) (ms : list (cluster_node * node)) :
    list (cluster_node * node) :=
  let head := js_find (fun m => String.eqb (cn_role m.1) "head" ||
                                String.eqb (cn_nodeId m.1) (d_nodeId d)) ms in
  let workers :=
    js_sort (fun a b => str_le (cn_nodeId a.1) (cn_nodeId b.1))
      (List.filter (fun m => negb (bool_decide (Some (cn_nodeId m.1) =
                                                ((fun h => cn_nodeId h.1) <$> head)))) ms) in
  match head with Some h => h :: workers | None => workers end.

Inductive agentMsg :=
  | DeployRank (d : DgxrunNodeDeploy json (list (string * json)))
  | Deploy (deploymentId runtime : string) (modelName modelType recipeFile recipeRef : option json)
      (inlineRecipeYaml : option string) (servedModelName : option string) (config : list (string * json))
      (clusterNodes fastIps : option (list (option string)))
  | FinetuneDeploy (jobId deploymentId : string) (modelPath : option json) (baseModel : string)
      (deployContainer : option json) (modelName : string) (recipeFile : option string)
      (artifactVariant : json) (config : list (string * json))
      (clusterNodes fastIps : option (list (option string))).

Definition dgxrunRestart (s : db) (d : deployment) (config : list (string * json))
    (displayName : option string) : result restartRefusal (list (string * agentMsg)) :=
  let recipe := obj_get config "dgxrunRecipe" in
  if negb (jtruthy recipe) then Err NoDgxrunRecipe
  else
    let ordered := headFirst d (membersOf s d) in
    let '(nodeIds, rawIps) :=
      match ordered with
      | [] => ([d_nodeId d], [n ← node_of s d; n_ipAddress n])
      | _ => (map (fun m => cn_nodeId m.1) ordered, map (fun m => n_ipAddress m.2) ordered)
      end in
    let missing := omap (fun p : string * option string =>
                           match truthy p.2 with None => Some p.1 | Some _ => None end)
                     (combine nodeIds rawIps) in
    match missing with
    | _ :: _ => Err (MissingIps missing)
    | [] =>
        let masterPort := match obj_get config "masterPort" with
                          | Some (JNum (Fin q)) => Qfloor q | _ => DEFAULT_MASTER_PORT end in
        match buildDgxrunDeploys (d_id d) (default JNull recipe) nodeIds (omap truthy rawIps)
                (Some masterPort) (dgxrunParams BOOKKEEPING config displayName) with
        | Err e => Err (DispatchFailed e)
        | Ok deploys => Ok (map (fun x => (dp_nodeId x, DeployRank x)) deploys)
        end
    end.

Definition fastIps (s : db) (d : deployment) : option (list (option string)) :=
  if d_clusterMode d then Some (map (fun m => n_fastIpAddress m.2) (membersOf s d)) else None.

(** The single order of a restart that is not dgxrun. *)
Definition singleRestart (s : db) (cat : catalogs) (d : deployment)
    (config : list (string * json)) (displayName : option string) (isOllama : bool) :
    string * agentMsg :=
  match finetuneJobOf s d, isOllama with
  | Some job, false =>
      let container := jnullish (jget (t ← trainingRecipeOf cat (Some job); tr_deploy t) "container")
                         (Some (JStr "vllm-node")) in
      let variant := match obj_get config "artifactVariant" with
                     | Some v => if isValidVariantSlug (Some v) then v else JStr "default"
                     | None => JStr "default" end in
      (d_nodeId d,
       FinetuneDeploy (f_id job) (d_id d) (obj_get config "localModelPath") (f_baseModel job)
         container (default (default "" (m_name <$> model_of s d)) displayName) (f_recipeFile job)
         variant config (clusterIps s d) (fastIps s d))
  | _, _ =>
      (d_nodeId d,
       Deploy (d_id d) (if isOllama then "ollama" else "vllm")
         (if isOllama then obj_get config "modelName" else None)
         (if isOllama then jor (obj_get config "modelType") (Some (JStr "chat")) else None)
         (if isOllama then None else obj_get config "recipeFile")
         (if isOllama then None else obj_get config "recipeFile") None
         displayName config (clusterIps s d) (fastIps s d))
  end.

Definition restartPatch (d : deployment) (config : list (string * json)) (dirty : bool)
    (displayName : option string) : dep_patch :=
  {| p_status := Some "restarting"; p_error := Some None; p_port := None;
     p_publishedName := Some None;
     p_config := if dirty then Some (Some (JObj config)) else None;
     p_vramActual := None;
     p_displayName := if bool_decide (displayName = d_displayName d) then None
                      else Some displayName |}.

Definition mergedConfig (saved : json) (body : option json) : list (string * json) :=
  obj_spread (entriesOf (Some saved)) (overridesOf body).

Definition isOllamaConfig (config : list (string * json)) : bool :=
  bool_decide (jstr (obj_get config "runtime") = Some "ollama").

(** What the restart sends, and the patch of the row. *)
Definition planRestart (s : db) (cat : catalogs) (d : deployment) (body : option json) :
    result restartRefusal (list (string * agentMsg) * dep_patch * bool) :=
  saved ← of_option (savedConfigOf d) Unhandled;
  let overrides := overridesOf body in
  let config := mergedConfig saved body in
  _ ← match obj_get config "gpuMem" with
      | Some v => guard_or (isUsableShare (Some v)) (InvalidGpuMem v) | None => Ok () end;
  _ ← match obj_get overrides "artifactVariant" with
      | Some v => guard_or (isValidVariantSlug (Some v)) (InvalidArtifactVariant v)
      | None => Ok () end;
  displayName ← restartDisplayName s d body;
  let isOllama := isOllamaConfig config in
  cd ← (if isOllama then Ok (config, negb (length overrides =? 0)%nat)
        else admitRestart s cat d saved overrides config);
  let isDgxrun := bool_decide (jstr (obj_get cd.1 "runner") = Some "dgxrun") in
  let patch := restartPatch d cd.1 cd.2 displayName in
  if isDgxrun && negb isOllama then
    sends ← dgxrunRestart s d cd.1 displayName; Ok (sends, patch, true)
  else Ok ([singleRestart s cat d cd.1 displayName isOllama], patch, false).

(** The route.  Only the dgxrun branch announces the status itself. *)
Definition restartRoute (s : db) (cat : catalogs) (id : string) (body : option json) :
    result restartRefusal (db * list (string * agentMsg) * list effect) :=
  d ← of_option (tbl_find id (deployments s)) NotFound;
  p ← planRestart s cat d body;
  Ok (db_deployments (tbl_update id (patch_deployment p.1.2)) s, p.1.1,
      if p.2 : bool then [BroadcastStatus id "restarting" None None None] else []).

End Restart.
