(* ===== verification/RouteFacts.v ===== *)
(** Restarting and deleting a deployment: what is re-admitted, what a caller can
    change, who is told, and what the row holds afterwards. *)
From S2P Require Import Prelude JsNum Schema Admission Gateway Deployments DeploymentFacts StatusFacts Recipes Routes.
Import Vram Names Dispatch Status.

Import Restart.

(** * Overrides *)

Lemma overridesOf_reserved body k : k ∈ RESERVED -> obj_get (rev (overridesOf body)) k = None.
Proof.
  intros Hk. apply al_get_None. intros ([k' v] & -> & Hin)%list_elem_of_fmap.
  rewrite elem_of_rev in Hin. unfold overridesOf in Hin.
  apply elem_of_filter_bool in Hin as [_ Hn]. simpl in *. apply negb_true_iff in Hn.
  apply mem_str_spec in Hk. congruence.
Qed.

(** A reserved key of the merged config is the saved one. *)
Lemma mergedConfig_reserved saved body k :
  k ∈ RESERVED -> obj_get (mergedConfig saved body) k = obj_get (entriesOf (Some saved)) k.
Proof.
  intros Hk. unfold mergedConfig. by rewrite obj_get_spread, overridesOf_reserved.
Qed.

(** The pieces of a successful plan. *)
Lemma planRestart_Ok s cat d body sends patch dg :
  planRestart s cat d body = Ok (sends, patch, dg) ->
  exists saved name cd,
    savedConfigOf d = Some saved /\ restartDisplayName s d body = Ok name /\
    (forall v, obj_get (mergedConfig saved body) "gpuMem" = Some v -> isUsableShare (Some v) = true) /\
    (if isOllamaConfig (mergedConfig saved body)
     then cd = (mergedConfig saved body, negb (length (overridesOf body) =? 0)%nat)
     else admitRestart s cat d saved (overridesOf body) (mergedConfig saved body) = Ok cd) /\
    patch = restartPatch d cd.1 cd.2 name /\
    (if bool_decide (jstr (obj_get cd.1 "runner") = Some "dgxrun") &&
        negb (isOllamaConfig (mergedConfig saved body))
     then dgxrunRestart s d cd.1 name = Ok sends /\ dg = true
     else sends = [singleRestart s cat d cd.1 name (isOllamaConfig (mergedConfig saved body))] /\
          dg = false).
Proof.
  unfold planRestart. intros H.
  destruct (savedConfigOf d) as [saved|]; [|discriminate H]. cbn [of_option mbind result_bind] in H.
  exists saved. set (config := mergedConfig saved body) in *.
  destruct (match obj_get config "gpuMem" with Some v => _ | None => _ end) as [[]|] eqn:Hg; [|discriminate H].
  cbn [mbind result_bind] in H.
  destruct (match obj_get (overridesOf body) "artifactVariant" with Some v => _ | None => _ end)
    as [[]|]; [|discriminate H]. cbn [mbind result_bind] in H.
  destruct (restartDisplayName s d body) as [name|]; [|discriminate H]. cbn [mbind result_bind] in H.
  exists name.
  destruct (if isOllamaConfig config then _ else _) as [cd|] eqn:Hcd; [|discriminate H].
  cbn [mbind result_bind] in H. exists cd.
  split; [done|]. split; [done|]. split; [|split; [|]].
  - intros v Hv. rewrite Hv in Hg. by apply guard_or_Ok in Hg.
  - destruct (isOllamaConfig config); [by injection Hcd as <-|exact Hcd].
  - destruct (_ && _).
    + destruct (dgxrunRestart s d cd.1 name) as [ss|]; [|discriminate H].
      by injection H as <- <- <-.
    + by injection H as <- <- <-.
Qed.

Lemma admitRestart_Ok s cat d saved ov config cd :
  admitRestart s cat d saved ov config = Ok cd ->
  checkVllmVramAdmission s (checkNodeIds s d) (requestedShare s cat d saved config)
    (Some {| deploymentId := d_id d; authorisedGpuMemUtil := authorisedShare s cat d saved config |}) = [] /\
  (obj_get ov "gpuMem" = None -> cd.1 = config) /\
  (is_Some (obj_get ov "gpuMem") ->
     cd = (obj_set config "authorisedGpuMem" (JNum (requestedShare s cat d saved config)), true)).
Proof.
  unfold admitRestart. intros H.
  destruct (checkVllmVramAdmission _ _ _ _); [|discriminate H]. split; [done|].
  destruct (obj_get ov "gpuMem"); injection H as <-; split; try done; by intros [? ?].
Qed.

(** What a caller may change by restarting.  In the config a restart persists,
    the keys that identify the deployment ([recipeFile], [runtime], [modelName],
    [modelType], [modality]) are the saved ones whatever the request says; and
    [authorisedGpuMem] is the saved one too, unless the request overrides [gpuMem]
    on a deployment that is not Ollama's, in which case it becomes the share just
    admitted. *)
Theorem restart_keeps_identity s cat d body sends patch dg saved cfg :
  planRestart s cat d body = Ok (sends, patch, dg) ->
  savedConfigOf d = Some saved -> p_config patch = Some (Some (JObj cfg)) ->
  (forall k, k ∈ ["recipeFile"; "runtime"; "modelName"; "modelType"; "modality"] ->
     obj_get cfg k = obj_get (entriesOf (Some saved)) k) /\
  (obj_get cfg "authorisedGpuMem" = obj_get (entriesOf (Some saved)) "authorisedGpuMem" \/
   (is_Some (obj_get (overridesOf body) "gpuMem") /\
    isOllamaConfig (mergedConfig saved body) = false /\
    obj_get cfg "authorisedGpuMem" =
      Some (JNum (requestedShare s cat d saved (mergedConfig saved body))))).
Proof.
  intros (saved' & name & cd & Hs' & _ & _ & Hcd & -> & _)%planRestart_Ok Hs Hp.
  assert (saved' = saved) as -> by congruence. clear Hs'.
  assert (cd.1 = cfg) as <-.
  { unfold restartPatch in Hp. simpl in Hp. destruct (cd.2); [by injection Hp|discriminate Hp]. }
  assert (forall k, k ∈ RESERVED -> k <> "authorisedGpuMem" ->
    obj_get cd.1 k = obj_get (entriesOf (Some saved)) k) as Hid.
  { intros k Hk Hne. rewrite <- (mergedConfig_reserved saved body k Hk).
    destruct (isOllamaConfig _); [by subst cd|]. apply admitRestart_Ok in Hcd as (_ & H1 & H2).
    destruct (obj_get (overridesOf body) "gpuMem") eqn:E.
    - rewrite H2 by done. simpl. rewrite obj_get_set. by rewrite decide_False.
    - by rewrite H1. }
  split.
  - intros k Hk. apply Hid; [|set_solver]. unfold RESERVED. set_solver.
  - destruct (isOllamaConfig _) eqn:Ho.
    + left. subst cd. simpl. apply mergedConfig_reserved. unfold RESERVED. set_solver.
    + apply admitRestart_Ok in Hcd as (_ & H1 & H2).
      destruct (obj_get (overridesOf body) "gpuMem") eqn:E.
      * right. split; [done|]. split; [done|]. rewrite H2 by done. simpl.
        by rewrite obj_get_set, decide_True.
      * left. rewrite H1 by done. apply mergedConfig_reserved. unfold RESERVED. set_solver.
Qed.

(** ** The share of a restart *)

(** A share a node can be asked for: a number above 0 and at most 1. *)
Definition usableShare (v : option json) (r : num) : Prop :=
  exists q, v = Some (JNum (Fin q)) /\ (0 < q)%Q /\ (q <= 1)%Q /\ r = Fin q.

(** [r] is the first usable share of the list, 0.85 when it has none. *)
Inductive firstUsable : list (option json) -> num -> Prop :=
  | fu_default : firstUsable [] (Fin (85 # 100))
  | fu_here v l r : usableShare v r -> firstUsable (v :: l) r
  | fu_next v l r : (forall r', ~ usableShare v r') -> firstUsable l r -> firstUsable (v :: l) r.

Lemma firstUsableShare_first l : firstUsable l (firstUsableShare l).
Proof.
  induction l as [|v l IH]; [constructor|].
  destruct (isUsableShare v) eqn:E.
  - pose proof E as (q & -> & H0 & H1)%isUsableShare_spec. cbn [firstUsableShare]. rewrite E.
    constructor. by exists q.
  - assert (firstUsableShare (v :: l) = firstUsableShare l) as ->.
    { cbn [firstUsableShare]. destruct v as [[]|]; try done. by rewrite E. }
    apply fu_next; [|done]. intros r' (q & Hv & H0 & H1 & _).
    assert (isUsableShare v = true); [|congruence]. apply isUsableShare_spec. by exists q.
Qed.

Lemma admission_each s ids requested r nid :
  checkVllmVramAdmission s ids requested r = [] -> nid ∈ ids -> checkNode s requested r nid = None.
Proof.
  intros H Hin. destruct (checkNode s requested r nid) as [v|] eqn:E; [|done].
  assert (v ∈ checkVllmVramAdmission s ids requested r) as Hv by (apply list_elem_of_omap; eauto).
  rewrite H in Hv. by apply elem_of_nil in Hv.
Qed.

(** C5: Every restart of a deployment that is not Ollama's is admitted, for the
    share it asks for, against the share it was granted.  When a plan succeeds no
    node of the deployment is short of the requested share: the first usable one of
    the merged config's [gpuMem] and of what the recipes declare (the saved dgxrun
    recipe, the training recipe of the model's job, the catalog entry of the saved
    recipe file, in this order), 0.85 when there is none.  The credit is bounded by
    the first usable one of the saved [authorisedGpuMem], the saved [gpuMem] and the
    same three, none of which the request can change, so asking for more never
    widens it. *)
Theorem restart_is_admitted s cat d body sends patch dg saved :
  planRestart s cat d body = Ok (sends, patch, dg) ->
  savedConfigOf d = Some saved ->
  isOllamaConfig (mergedConfig saved body) = false ->
  let declared :=
    [jget (jget (jget (Some saved) "dgxrunRecipe") "defaults") "gpu_memory_utilization";
     jget (j ← finetuneJobOf s d; f ← truthy (f_recipeFile j);
           t ← js_find (fun r => String.eqb (tr_file r) f) (cat_training cat); tr_deploy t)
       "gpu_memory_utilization";
     jget (f ← jstr (obj_get (entriesOf (Some saved)) "recipeFile"); f' ← truthy (Some f);
           r ← js_find (fun r => String.eqb (ar_file r) f') (cat_recipes cat); ar_defaults r)
       "gpu_memory_utilization"] in
  exists requested authorised,
    firstUsable (obj_get (mergedConfig saved body) "gpuMem" :: declared) requested /\
    (forall v, obj_get (mergedConfig saved body) "gpuMem" = Some v -> v = JNum requested) /\
    firstUsable (jget (Some saved) "authorisedGpuMem" :: jget (Some saved) "gpuMem" :: declared)
      authorised /\
    forall nid,
      (if d_clusterMode d
       then exists c, c ∈ clusterNodes s /\ cn_deploymentId c = d_id d /\ cn_nodeId c = nid
       else nid = d_nodeId d) ->
      checkNode s requested
        (Some {| deploymentId := d_id d; authorisedGpuMemUtil := authorised |}) nid = None.
Proof.
  intros (saved' & name & cd & Hs' & _ & Hg & Hcd & _)%planRestart_Ok Hs Ho declared.
  assert (saved' = saved) as -> by congruence. rewrite Ho in Hcd.
  apply admitRestart_Ok in Hcd as (Hadm & _).
  assert (recipeDeclaredShares s cat d saved (mergedConfig saved body) = declared) as Hdecl.
  { unfold recipeDeclaredShares, declared, trainingRecipeOf.
    rewrite (mergedConfig_reserved saved body "recipeFile") by (unfold RESERVED; set_solver).
    f_equal. f_equal; [|f_equal].
    - f_equal. destruct (finetuneJobOf s d) as [j|]; [|done]. cbn [mbind option_bind].
      by destruct (truthy (f_recipeFile j)).
    - f_equal. unfold findRecipe.
      destruct (obj_get (entriesOf (Some saved)) "recipeFile") as [[| | |f| |]|]; try done.
      unfold jstr. cbn [mbind option_bind]. by destruct f. }
  exists (requestedShare s cat d saved (mergedConfig saved body)),
    (authorisedShare s cat d saved (mergedConfig saved body)).
  split; [unfold requestedShare; rewrite Hdecl; apply firstUsableShare_first|].
  split; [|split; [unfold authorisedShare; rewrite Hdecl; apply firstUsableShare_first|]].
  - intros v Hv. specialize (Hg v Hv). unfold requestedShare. rewrite Hv. cbn [firstUsableShare].
    destruct v; try discriminate Hg. by rewrite Hg.
  - intros nid Hnid. eapply admission_each; [exact Hadm|]. unfold checkNodeIds.
    destruct (d_clusterMode d); [|subst; by apply list_elem_of_singleton].
    destruct Hnid as (c & Hc & Hd & <-). apply list_elem_of_fmap. exists c. split; [done|].
    apply elem_of_filter_bool. split; [done|]. by apply String.eqb_eq.
Qed.

(** * Names *)

Lemma restartDisplayName_given s d body raw name :
  restartDisplayName s d body = Ok name -> jget body "displayName" = Some raw ->
  forall n, truthy name = Some n ->
  forall d', d' ∈ deployments s -> d_displayName d' = Some n ->
    d_status d' ∈ Names.ACTIVE_DEPLOYMENT_STATUSES -> d_id d' = d_id d.
Proof.
  intros H Hraw n Hn d' Hd' Hname Hst. unfold restartDisplayName in H. rewrite Hraw in H.
  destruct raw as [| | |r| |]; try discriminate H; cbn [mbind result_bind] in H.
  - injection H as <-. discriminate Hn.
  - destruct (normalizeDisplayName (Some r)) as [nm|]; [|discriminate H]. cbn [mbind result_bind] in H.
    destruct (truthy nm) as [m|] eqn:Hm; [|injection H as <-; congruence].
    destruct (validateDisplayNameUnique s (Some m) (Some (d_id d))) eqn:Hv; [discriminate H|].
    injection H as <-. rewrite Hm in Hn. injection Hn as <-.
    rewrite validateDisplayNameUnique_None in Hv. specialize (Hv d' Hd' Hname Hst).
    apply truthy_Some in Hv as [Hv _]. by injection Hv.
Qed.

(** Uniqueness of display names among active deployments is kept by a restart
    that names one and lost by a restart that does not.  When the body carries
    [displayName] no other active deployment has the name the row gets.  When it does
    not, the name is not checked: restarting a stopped deployment whose name another
    active one has taken meanwhile leaves two active deployments under one name. *)
Theorem restart_display_name_uniqueness s cat id body s' sends effects d :
  restartRoute s cat id body = Ok (s', sends, effects) ->
  tbl_find id (deployments s) = Some d ->
  exists d', tbl_find id (deployments s') = Some d' /\ d_status d' = "restarting" /\
    d_error d' = None /\ d_publishedName d' = None /\
    (is_Some (jget body "displayName") ->
       forall n o, truthy (d_displayName d') = Some n -> o ∈ deployments s ->
         d_displayName o = Some n -> d_status o ∈ Names.ACTIVE_DEPLOYMENT_STATUSES -> d_id o = id) /\
    (jget body "displayName" = None ->
       d_displayName d' = d_displayName d /\
       forall j o, j <> id -> tbl_find j (deployments s) = Some o ->
         d_status o ∈ Names.ACTIVE_DEPLOYMENT_STATUSES -> d_displayName o = d_displayName d ->
         exists o', tbl_find j (deployments s') = Some o' /\
           d_status o' ∈ Names.ACTIVE_DEPLOYMENT_STATUSES /\
           d_status d' ∈ Names.ACTIVE_DEPLOYMENT_STATUSES /\ d_displayName o' = d_displayName d').
Proof.
  intros H Hd. unfold restartRoute in H. rewrite Hd in H. cbn [of_option mbind result_bind] in H.
  destruct (planRestart s cat d body) as [[[ss patch] dg]|] eqn:Hp; [|discriminate H].
  injection H as <- _ _.
  apply planRestart_Ok in Hp as (saved & name & cd & _ & Hname & _ & _ & -> & _).
  exists (patch_deployment (restartPatch d cd.1 cd.2 name) d).
  assert (d_displayName (patch_deployment (restartPatch d cd.1 cd.2 name) d) = name) as Hdn.
  { simpl. case_bool_decide; simpl; congruence. }
  split; [simpl; by rewrite tbl_find_update, String.eqb_refl, Hd|].
  split; [done|]. split; [done|]. split; [done|]. rewrite Hdn. split.
  - intros [raw Hraw] n o Hn Ho Hon Hst.
    rewrite (restartDisplayName_given s d body raw name Hname Hraw n Hn o Ho Hon Hst).
    by apply tbl_find_Some in Hd as [_ Hd].
  - intros Hno. unfold restartDisplayName in Hname. rewrite Hno in Hname. injection Hname as <-.
    split; [done|]. intros j o Hj Hjo Hst Hsame. exists o.
    split; [simpl; apply String.eqb_neq in Hj; by rewrite tbl_find_update, Hj|].
    split; [done|]. split; [|done]. simpl. unfold Names.ACTIVE_DEPLOYMENT_STATUSES. set_solver.
Qed.

(** * Re-fanning a dgxrun deployment *)

Lemma headFirst_perm d ms h :
  NoDup (map (fun m => cn_nodeId m.1) ms) ->
  js_find (fun m => String.eqb (cn_role m.1) "head" || String.eqb (cn_nodeId m.1) (d_nodeId d)) ms = Some h ->
  headFirst d ms ≡ₚ ms /\ head (headFirst d ms) = Some h.
Proof.
  intros Hnd Hh. unfold headFirst. rewrite Hh. split; [|done].
  rewrite js_sort_perm. apply js_find_Some in Hh as [Hin _]. cbn [fmap option_fmap option_map].
  induction ms as [|m ms IH]; [by apply elem_of_nil in Hin|].
  apply NoDup_cons in Hnd as [Hm Hnd]. cbn [List.filter].
  apply elem_of_cons in Hin as [->|Hin].
  - rewrite bool_decide_true by done. cbn [negb]. f_equiv.
    rewrite forallb_filter_id; [done|]. apply forallb_forall. intros x Hx.
    rewrite bool_decide_false; [done|]. intros [= E]. apply Hm, list_elem_of_fmap.
    exists x. by rewrite list_elem_of_In.
  - rewrite bool_decide_false.
    + cbn [negb]. rewrite Permutation_swap. f_equiv. by apply IH.
    + intros [= E]. apply Hm, list_elem_of_fmap. by exists h.
Qed.

(** The addresses of the nodes of an ordered cluster. *)
Notation idsOf := (map (fun m : cluster_node * node => cn_nodeId m.1)).
Notation ipsOf := (map (fun m : cluster_node * node => n_ipAddress m.2)).
Definition missingOf (ms : list (cluster_node * node)) : list string :=
  omap (fun p : string * option string => match truthy p.2 with None => Some p.1 | Some _ => None end)
    (combine (idsOf ms) (ipsOf ms)).

Lemma missingOf_nil ms : missingOf ms = [] <-> forall m, m ∈ ms -> is_Some (truthy (n_ipAddress m.2)).
Proof.
  unfold missingOf. induction ms as [|m o IH]; simpl; [split; [by intros _ m ?%elem_of_nil|done]|].
  destruct (truthy (n_ipAddress m.2)) eqn:E.
  - rewrite IH. split; [intros H m' [->|Hm']%elem_of_cons; [done|by apply H]|].
    intros H m' Hm'. apply H. by right.
  - split; [done|]. intros H. destruct (H m) as [? ?]; [by left|congruence].
Qed.

Lemma all_addressed ms h :
  (forall m, m ∈ ms -> is_Some (truthy (n_ipAddress m.2))) -> head ms = Some h ->
  length (omap truthy (ipsOf ms)) = length (idsOf ms) /\ head (omap truthy (ipsOf ms)) = n_ipAddress h.2 /\
  exists ip, n_ipAddress h.2 = Some ip /\ ip <> "".
Proof.
  intros Hall Hh. rewrite length_map. split.
  - clear Hh. induction ms as [|m o IH]; [done|]. simpl.
    destruct (Hall m) as [ip ->]; [by left|]. simpl. f_equal. apply IH.
    intros m' Hm'. apply Hall. by right.
  - destruct ms as [|m o]; [done|]. injection Hh as ->. simpl.
    destruct (Hall h) as [ip Hip]; [by left|]. rewrite Hip. simpl.
    apply truthy_Some in Hip as [-> Hne]. split; [done|by exists ip].
Qed.

(** A restart with members, in terms of the fan-out. *)
Lemma dgxrunRestart_members s d config name :
  headFirst d (membersOf s d) <> [] ->
  let ms := headFirst d (membersOf s d) in
  dgxrunRestart s d config name =
  if negb (jtruthy (obj_get config "dgxrunRecipe")) then Err NoDgxrunRecipe
  else match missingOf ms with
  | _ :: _ => Err (MissingIps (missingOf ms))
  | [] =>
      match buildDgxrunDeploys (d_id d) (default JNull (obj_get config "dgxrunRecipe")) (idsOf ms)
        (omap truthy (ipsOf ms))
        (Some (match obj_get config "masterPort" with
               | Some (JNum (Fin q)) => Qfloor q | _ => DEFAULT_MASTER_PORT end))
        (dgxrunParams BOOKKEEPING config name) with
      | Err e => Err (DispatchFailed e)
      | Ok deploys => Ok (map (fun x => (dp_nodeId x, DeployRank x)) deploys)
      end end.
Proof. intros Hne. unfold dgxrunRestart. by destruct (headFirst d (membersOf s d)). Qed.

(** A dgxrun restart reaches every rank again, head first.  It is refused
    exactly when the row has no recipe or a node has no address; otherwise each node
    of the cluster gets exactly one order, rank 0 goes to the head, and everybody is
    told to rendezvous at the head's address. *)
Theorem dgxrunRestart_refans s d config name h :
  NoDup (map (fun m => cn_nodeId m.1) (membersOf s d)) ->
  js_find (fun m => String.eqb (cn_role m.1) "head" || String.eqb (cn_nodeId m.1) (d_nodeId d))
    (membersOf s d) = Some h ->
  (is_ok (dgxrunRestart s d config name) <->
     jtruthy (obj_get config "dgxrunRecipe") = true /\
     forall m, m ∈ membersOf s d -> is_Some (truthy (n_ipAddress m.2))) /\
  (forall sends, dgxrunRestart s d config name = Ok sends ->
     map fst sends ≡ₚ map (fun m => cn_nodeId m.1) (membersOf s d) /\
     forall rank nid msg, sends !! rank = Some (nid, msg) -> exists x,
       msg = DeployRank x /\ dp_nodeId x = nid /\ dp_rank x = rank /\
       dp_nnodes x = length (membersOf s d) /\ dp_deploymentId x = d_id d /\
       Some (dp_masterAddr x) = n_ipAddress h.2 /\ (rank = 0%nat -> nid = cn_nodeId h.1)).
Proof.
  intros Hnd Hh. destruct (headFirst_perm d _ h Hnd Hh) as [Hperm Hhead].
  set (ms := headFirst d (membersOf s d)) in *.
  assert (ms <> []) as Hne by (intros E; by rewrite E in Hhead).
  rewrite dgxrunRestart_members by done. fold ms. setoid_rewrite <- Hperm. rewrite <- missingOf_nil.
  destruct (jtruthy (obj_get config "dgxrunRecipe")); cbn [negb].
  2:{ split; [|done]. split; [by intros [? ?]|by intros [? _]]. }
  destruct (missingOf ms) as [|x xs] eqn:Em.
  2:{ split; [|done]. split; [by intros [? ?]|by intros [_ ?]]. }
  destruct (all_addressed ms h) as (Hlen & Hhip & ip & Hip & Hipne); [by apply missingOf_nil|done|].
  destruct (buildDgxrunDeploys_spec (d_id d) (default JNull (obj_get config "dgxrunRecipe")) (idsOf ms)
    (omap truthy (ipsOf ms)) (Some (match obj_get config "masterPort" with
       | Some (JNum (Fin q)) => Qfloor q | _ => DEFAULT_MASTER_PORT end))
    (dgxrunParams BOOKKEEPING config name)) as [Hok Hds].
  destruct Hok as [_ [ds Hb]]; [split; [by destruct ms|]; rewrite Hhip; eauto|].
  rewrite Hb. split; [split; [done|]; intros _; by eexists|].
  intros sends [= <-]. destruct (Hds ds Hb) as [Hids Hrank]. split.
  - rewrite map_map. simpl. change (map (fun x => dp_nodeId x)) with
      (map (dp_nodeId (recipe := json) (params := list (string * json)))). by rewrite Hids.
  - intros rank nid msg (x & [= -> ->] & Hx)%list_lookup_fmap_Some.
    destruct (Hrank rank x Hx) as (H1 & H2 & H3 & _ & _ & H4 & _).
    exists x. split; [done|]. split; [done|]. split; [done|]. split; [by rewrite H2, length_map|].
    split; [done|]. split; [by rewrite H3, Hhip|]. intros ->.
    assert (head (idsOf ms) = Some (dp_nodeId x)) as Hhd.
    { rewrite <- Hids. destruct ds; [done|]. by injection Hx as ->. }
    destruct ms as [|m o]; [done|]. injection Hhead as ->. simpl in Hhd. congruence.
Qed.

(** ** Concrete runs *)


Lemma deleteDeployment_gone id s :
  tbl_find id (deployments (deleteDeployment id s)) = None /\
  clusterNodesOf (deleteDeployment id s) id = [] /\
  forall j, j <> id -> tbl_find j (deployments (deleteDeployment id s)) = tbl_find j (deployments s).
Proof.
  split; [|split].
  - apply tbl_find_None. by intros r [_ Hr]%elem_of_tbl_delete.
  - unfold clusterNodesOf. simpl. induction (clusterNodes s) as [|c l IH]; [done|]. simpl.
    destruct (String.eqb (cn_deploymentId c) id) eqn:E; simpl; rewrite ?E; exact IH.
  - intros j Hj. by apply tbl_find_delete.
Qed.

(** A delete finishes.  A deployment that is already over is removed at once
    with its cluster rows, telling only the agents that are connected.  Any other is
    marked [removing] and every rank of a dgxrun deployment (the head alone,
    otherwise) is told to stop, with the caller's wish in [deleteAfter]; and when the
    wish was to delete, the stop report that carries it back removes the row.  No
    other row is touched; the only refusals are an unknown id and a config that
    cannot be read. *)
Theorem deleteRoute_completes s online id want d :
  tbl_find id (deployments s) = Some d ->
  match Delete.deleteRoute s online id want with
  | Err e => e = Delete.BadConfig /\ savedConfigOf d = None
  | Ok (s', sends, effects, reply) =>
      exists cfg, savedConfigOf d = Some cfg /\
      let isDgxrun := bool_decide (jstr (jget (Some cfg) "runner") = Some "dgxrun") in
      let targets := Delete.undeployTargets s d isDgxrun in
      (forall j, j <> id -> tbl_find j (deployments s') = tbl_find j (deployments s)) /\
      ((reply = Delete.Deleted /\ want = true /\ d_status d ∈ TERMINAL_STATUSES /\
        tbl_find id (deployments s') = None /\ clusterNodesOf s' id = [] /\
        effects = [BroadcastDeleted id] /\
        map Delete.um_node sends = List.filter online targets) \/
       (reply = Delete.Removing /\ effects = [] /\
        d_status <$> tbl_find id (deployments s') = Some "removing" /\
        map Delete.um_node sends = targets /\
        Forall (fun u => Delete.um_deleteAfter u = want /\ Delete.um_dgxrun u = isDgxrun) sends /\
        (want = true -> forall fetch,
           tbl_find id (deployments (handleDeploymentStatus s'
             (Build_DeploymentStatusMessage id "stopped" None None true None) fetch).1) = None)))
  end.
Proof.
  intros Hd. unfold Delete.deleteRoute. rewrite Hd. cbn [of_option mbind result_bind].
  destruct (savedConfigOf d) as [cfg|] eqn:Hc; [|done]. cbn [of_option mbind result_bind].
  set (dg := bool_decide _). destruct (want && mem_str (d_status d) TERMINAL_STATUSES) eqn:E.
  - apply andb_prop in E as [-> E]. apply mem_str_spec in E. exists cfg. split; [done|].
    destruct (deleteDeployment_gone id s) as (H1 & H2 & H3).
    split; [exact H3|]. left. repeat split; try done. rewrite map_map. by rewrite map_id.
  - exists cfg. split; [done|].
    set (s1 := db_deployments _ s). set (s2 := if d_clusterMode d then _ else s1).
    assert (deployments s2 = deployments s1) as Hs2 by (unfold s2; by destruct (d_clusterMode d)).
    assert (forall j, tbl_find j (deployments s2) = if String.eqb j id then
      patch_deployment (DepPatch (Some "removing") None None None None None None) <$>
        tbl_find j (deployments s) else tbl_find j (deployments s)) as Hf.
    { intros j. rewrite Hs2. unfold s1. simpl. by rewrite tbl_find_update. }
    split.
    { intros j Hj. rewrite Hf. by apply String.eqb_neq in Hj as ->. }
    right. split; [done|]. split; [done|]. rewrite Hf, String.eqb_refl, Hd. split; [done|].
    split; [by rewrite map_map, map_id|]. split.
    { rewrite Forall_map. by apply Forall_forall. }
    intros -> fetch. unfold handleDeploymentStatus.
    set (msg := Build_DeploymentStatusMessage id "stopped" None None true None).
    assert (is_Some (statusPatch (deploymentStatusUpdate msg))) as [p ->] by (by vm_compute; eexists).
    unfold deployment_update. cbn [msg ms_deploymentId]. rewrite Hf, String.eqb_refl, Hd.
    cbn [fmap option_fmap option_map]. unfold afterStatus. cbn [msg ms_deploymentId ms_status
      ms_deleteAfter]. apply (deleteDeployment_gone id).
Qed.

(** ** A two-node dgxrun deployment *)

Definition rtNode (id ip : string) : node :=
  Node id id (Some ip) "online" "on" None (Some 100000%Z) None None None None None
    "agent-deployed" true false None.
Definition rtConfig : json :=
  JObj [("recipeFile", JStr "@dgxrun/glm"); ("runner", JStr "dgxrun");
        ("dgxrunRecipe", JObj [("container", JStr "img")]); ("gpuMem", JNum (Fin (1 # 2)));
        ("authorisedGpuMem", JNum (Fin (1 # 2)))].
Definition rtDeployment (id : string) (status : string) : deployment :=
  Deployment id (Some "glm") "n1" "m1" status None (Some 8000%Z) None (Some (Some rtConfig)) true
    None None 0.
Definition rtDb (status : string) : db :=
  Db [rtNode "n1" "10.0.0.1"; rtNode "n2" "10.0.0.2"] [ModelRow "m1" "glm" "vllm" None]
     [rtDeployment "d1" status; rtDeployment "d2" "running"]
     [ClusterNode "c2" "d1" "n2" "worker" status; ClusterNode "c1" "d1" "n1" "head" status] [] [].
Definition rtCat : catalogs := {| cat_recipes := []; cat_training := [] |}.
Definition rtBody : option json :=
  Some (JObj [("config", JObj [("gpuMem", JNum (Fin (3 # 5))); ("modality", JStr "text");
                               ("authorisedGpuMem", JNum (Fin 1))])]).

Definition rtPlan := Restart.planRestart (rtDb "stopped") rtCat (rtDeployment "d1" "stopped") rtBody.

(** The override of [gpuMem] is honoured, the reserved ones are not. *)
Example restart_plan_example :
  match rtPlan with
  | Ok (sends, patch, _) => (map fst sends,
      match p_config patch with Some (Some (JObj c)) => obj_get c "authorisedGpuMem" | _ => None end)
  | Err _ => ([], None)
  end = (["n1"; "n2"], Some (JNum (Fin (3 # 5)))).
Proof. by vm_compute. Qed.

Lemma deleteRoute_completes_witness :
  exists s' sends effects reply,
    Delete.deleteRoute (rtDb "running") (fun _ => true) "d1" true = Ok (s', sends, effects, reply) /\
    map Delete.um_node sends = ["n2"; "n1"].
Proof.
  pose proof (deleteRoute_completes (rtDb "running") (fun _ => true) "d1" true
    (rtDeployment "d1" "running") eq_refl) as H.
  destruct (Delete.deleteRoute (rtDb "running") (fun _ => true) "d1" true)
    as [[[[s' sends] effects] reply]|e] eqn:E.
  - exists s', sends, effects, reply. split; [done|]. vm_compute in E. by injection E as <- <- <- <-.
  - destruct H as [_ H]. discriminate H.
Defined.

Lemma restart_keeps_identity_witness :
  exists sends patch dg cfg, rtPlan = Ok (sends, patch, dg) /\ p_config patch = Some (Some (JObj cfg)) /\
    obj_get cfg "recipeFile" = Some (JStr "@dgxrun/glm") /\ obj_get cfg "modality" = None.
Proof.
  destruct rtPlan as [[[sends patch] dg]|e] eqn:E; [|vm_compute in E; discriminate E].
  assert (exists cfg, p_config patch = Some (Some (JObj cfg))) as [cfg Hcfg].
  { vm_compute in E. injection E as <- <- <-. by eexists. }
  exists sends, patch, dg, cfg. split; [done|]. split; [done|].
  destruct (restart_keeps_identity (rtDb "stopped") rtCat (rtDeployment "d1" "stopped") rtBody sends
    patch dg rtConfig cfg E eq_refl Hcfg) as [H _].
  split; [rewrite (H "recipeFile")|rewrite (H "modality")]; try done; set_solver.
Defined.

Lemma restart_is_admitted_witness :
  exists authorised,
    checkNode (rtDb "stopped") (Fin (3 # 5))
      (Some {| deploymentId := "d1"; authorisedGpuMemUtil := authorised |}) "n2" = None /\
    authorised = Fin (1 # 2).
Proof.
  destruct rtPlan as [[[sends patch] dg]|e] eqn:E; [|vm_compute in E; discriminate E].
  destruct (restart_is_admitted (rtDb "stopped") rtCat (rtDeployment "d1" "stopped") rtBody sends
    patch dg rtConfig E eq_refl eq_refl) as (r & a & _ & Hr & Ha & Hall).
  exists a. specialize (Hr (JNum (Fin (3 # 5))) eq_refl). injection Hr as <-. split.
  - apply Hall. exists (ClusterNode "c2" "d1" "n2" "worker" "stopped"). split; [by left|done].
  - inversion Ha as [|v l r (q & Hq & _ & _ & ->)|v l r Hno]; subst.
    + by injection Hq as <-.
    + destruct (Hno (Fin (1 # 2))). exists (1 # 2)%Q. done.
Defined.

(** [d1] is restarted while [d2] already serves under its name. *)
Lemma restart_display_name_uniqueness_witness :
  exists s' sends effects d',
    Restart.restartRoute (rtDb "stopped") rtCat "d1" None = Ok (s', sends, effects) /\
    tbl_find "d1" (deployments s') = Some d' /\
    d_displayName d' = Some "glm" /\ d_status d' = "restarting" /\
    (d_displayName <$> tbl_find "d2" (deployments s')) = Some (Some "glm") /\
    (d_status <$> tbl_find "d2" (deployments s')) = Some "running".
Proof.
  destruct (Restart.restartRoute (rtDb "stopped") rtCat "d1" None) as [[[s' sends] effects]|e] eqn:E;
    [|vm_compute in E; discriminate E].
  destruct (restart_display_name_uniqueness (rtDb "stopped") rtCat "d1" None s' sends effects
    (rtDeployment "d1" "stopped") E eq_refl) as (d' & Hd' & Hst & _ & _ & _ & Hno).
  exists s', sends, effects, d'. split; [done|]. split; [exact Hd'|].
  destruct (Hno eq_refl) as [Hn _]. split; [exact Hn|]. split; [exact Hst|].
  vm_compute in E. injection E as <- <- <-. by vm_compute.
Defined.

Lemma dgxrunRestart_refans_witness :
  exists sends, Restart.dgxrunRestart (rtDb "stopped") (rtDeployment "d1" "stopped")
    (entriesOf (Some rtConfig)) None = Ok sends /\ map fst sends ≡ₚ ["n2"; "n1"].
Proof.
  destruct (dgxrunRestart_refans (rtDb "stopped") (rtDeployment "d1" "stopped")
    (entriesOf (Some rtConfig)) None (ClusterNode "c1" "d1" "n1" "head" "stopped", rtNode "n1" "10.0.0.1"))
    as [Hok Hsends].
  - change (NoDup ["n2"; "n1"]). by apply (bool_decide_unpack _).
  - by vm_compute.
  - destruct (proj2 Hok) as [sends Hs].
    { split; [done|]. intros m Hm.
      change (m ∈ [(ClusterNode "c2" "d1" "n2" "worker" "stopped", rtNode "n2" "10.0.0.2");
                   (ClusterNode "c1" "d1" "n1" "head" "stopped", rtNode "n1" "10.0.0.1")]) in Hm.
      apply elem_of_cons in Hm as [->|Hm%list_elem_of_singleton]; [by eexists|]. rewrite Hm. by eexists. }
    exists sends. split; [done|]. exact (proj1 (Hsends sends Hs)).
Defined.
