(* ===== verification/DeployRoute.v ===== *)
(** [POST /api/deployments] ([routes/deployments.ts]), stage by stage: the recipe
    source, the name, the nodes, the role, the sizing and the port, admission, the
    rows that are created and the orders that are sent.

    The file system, the YAML parser, the agent and server catalogs, the Ollama
    catalog file and the model sizes agents report are parameters; ids and the clock
    are arguments.  [fastIpAddress], the
    repo timestamps and the memory reclaim over SSH (see [MaxOutMem]) do not feed
    back into the result. *)
From S2P Require Import Prelude JsNum Schema Admission Gateway Deployments Recipes Routes.
Import Vram Names Dispatch Status.

(** [ToNumber] of a value used in arithmetic; arrays and objects give [NaN]
    (JavaScript also reads a number out of an array of one element). *)
Definition toNum (v : option json) : num :=
  match v with
  | Some (JNum n) => n
  | Some (JStr s) => number_of_string s
  | Some (JBool b) => zn (if b then 1 else 0)
  | Some JNull => zn 0
  | _ => NaN
  end.

Module Ollama.

Record catalogEntry := { ce_name : string; ce_sizes : list string }.
Record modelInfo := { mi_name : string; mi_size : string }.

Definition is_num_char (c : ascii) : bool := is_digit c || Ascii.eqb c ".".

Fixpoint span (p : ascii -> bool) (s : string) : string * string :=
  match s with
  | String c r => if p c then let '(a, b) := span p r in (String c a, b) else (EmptyString, s)
  | EmptyString => (EmptyString, EmptyString)
  end.

(** [parseFloat] on a text of digits and dots: the longest numeric prefix. *)
Definition parseFloat (s : string) : num :=
  let '(i, ni, r) := digits 10 0 0 s in
  let '(f, nf) := match r with
    | String "." t => let '(f, nf, _) := digits 10 0 0 t in (f, nf) | _ => (0%Z, 0%nat) end in
  if (ni + nf =? 0)%nat then NaN
  else Fin (Qplus (inject_Z i) (Qmult (inject_Z f) (q_pow10 (- Z.of_nat nf)))).

(** [\d+(\.\d+)?] at the front: the value and the rest. *)
Definition decimalPrefix (s : string) : option (num * string) :=
  let '(w, rest) := span is_digit s in
  if String.eqb w "" then None
  else match rest with
  | String "." t =>
      let '(f, rest') := span is_digit t in
      if String.eqb f "" then Some (parseFloat w, rest)
      else Some (parseFloat (w +:+ String "." f), rest')
  | _ => Some (parseFloat w, rest)
  end.

(** [/^e?(\d+(?:\.\d+)?)\s*([bm])$/] on the trimmed, lower-cased tag. *)
Definition ollamaVramEstimateMB (rawSize : option string) : option num :=
  raw ← truthy rawSize;
  let t := str_lower (str_trim raw) in
  vr ← decimalPrefix (default t (strip_prefix "e" t));
  let perBillion := fun v => num_round (num_mul (num_mul v (Fin (55 # 100))) (zn 1024)) in
  match trim_left vr.2 with
  | String "b" EmptyString => Some (perBillion vr.1)
  | String "m" EmptyString => Some (perBillion (num_mul vr.1 (Fin (1 # 1000))))
  | _ => None
  end.

(** [/([\d.]+)\s*GB/i]: the first match's number. *)
Fixpoint legacyGB (s : string) : option string :=
  let '(w, rest) := span is_num_char s in
  if negb (String.eqb w "") && String.prefix "gb" (str_lower (trim_left rest)) then Some w
  else match s with EmptyString => None | String _ r => legacyGB r end.

(** The size tag of a pull tag, from the catalog. *)
Definition catalogSize (catalog : list catalogEntry) (modelName : string) : option string :=
  let '(bare, requested) := match str_split ":" modelName with
    | bare :: size :: _ => (bare, Some size) | _ => (modelName, None) end in
  e ← js_find (fun m => String.eqb (ce_name m) bare) catalog;
  match truthy requested with
  | Some r => if mem_str r (ce_sizes e) then Some r else head (ce_sizes e)
  | None => head (ce_sizes e)
  end.

Definition estimate (catalog : list catalogEntry) (reported : list modelInfo)
    (modelName : string) : num :=
  match ollamaVramEstimateMB (catalogSize catalog modelName) with
  | Some e => num_round (num_mul e (Fin (11 # 10)))
  | None =>
      match legacy ← js_find (fun m => String.eqb (mi_name m) modelName) reported;
            truthy (Some (mi_size legacy)) with
      | Some size =>
          match legacyGB size with
          | Some w => num_round (num_mul (num_mul (parseFloat w) (zn 1024)) (Fin (11 # 10)))
          | None => zn 0
          end
      | None => zn 0
      end
  end.

Example estimate_ex :
  map (estimate [{| ce_name := "llama3.1"; ce_sizes := ["8b"; "70b"] |}]
         [{| mi_name := "q"; mi_size := "4.5 GB" |}]) ["llama3.1:70b"; "llama3.1"; "q"; "x"] =
  [zn 43366; zn 4957; zn 5069; zn 0].
Proof. by vm_compute. Qed.

End Ollama.

Inductive nodeIdsSel := NoIds | AutoIds | Ids (l : list string).

Record deployRequest := {
  rq_nodeId : option string; rq_nodeIds : nodeIdsSel; rq_recipeFile : option string;
  rq_recipePath : option string; rq_recipeYaml : option string;
  rq_config : option (list (string * json)); rq_runtime : option string;
  rq_modelName : option string; rq_modelType : option json; rq_displayName : option string }.

Inductive postRefusal :=
  | ModelNameRequired
  | BadInlineRecipe (e : Recipe.inlineError)
  | BadRecipePath (e : string)
  | RecipeSourceRequired
  | RecipeNotFound (ref : string)
  | BadModality (value : string)
  | BadDgxrun (e : Recipe.dgxrunError)
  | PostBadName (e : DisplayNameError)
  | NameNotSupported
  | PostNameConflict (name conflictId : string)
  | NoOnlineNodes
  | TooFewNodes (needed : num) (online : nat)
  | NodeRequired
  | RoleRefused (nodeName runtime : string)
  | ArchMismatch (recipeArch nodeArch : string)
  | PostShortfall (shortfalls : list VramShortfall) (share : num)
  | PostUnhandled.

Definition post_status (r : postRefusal) : Z :=
  match r with
  | RecipeNotFound _ => 404
  | PostNameConflict _ _ | NoOnlineNodes | TooFewNodes _ _ | PostShortfall _ _ => 409
  | PostUnhandled => 500
  | _ => 400
  end.

Record source := {
  src_ref : option string; src_inline : option string;
  src_dgxrun : option Recipe.DgxrunResolvedRecipe; src_maxOutMem : option bool;
  src_modality : Modality.Modality }.

Section Post.
Context (readFile : string -> option string) (parseYaml : string -> option json).
Context (cwd : list string) (sharedStorage : string) (dgxrunDir : list string).
Context (agentRecipes : list agentRecipe) (dgxrunCatalog : list Recipe.CatalogRecipe).
Context (ollamaCatalog : list Ollama.catalogEntry) (ollamaModels : list Ollama.modelInfo).

Definition isOllamaRq (rq : deployRequest) : bool := bool_decide (rq_runtime rq = Some "ollama").

(** ** The recipe source *)

Definition noSource : source :=
  {| src_ref := None; src_inline := None; src_dgxrun := None; src_maxOutMem := None;
     src_modality := Modality.Text |}.

(** Registry ref or path, and inline body. *)
Definition recipeSource (rq : deployRequest) :
    result postRefusal (option string * option string) :=
  match truthy (rq_recipeYaml rq), truthy (rq_recipePath rq), truthy (rq_recipeFile rq) with
  | Some yaml, _, _ =>
      match Recipe.validateInlineRecipe yaml with
      | Ok _ => Ok (None, Some yaml) | Err e => Err (BadInlineRecipe e) end
  | None, Some path, _ =>
      match Path.resolveRecipePath cwd path sharedStorage with
      | Ok p => Ok (Some p, None) | Err e => Err (BadRecipePath e) end
  | None, None, Some file => Ok (Some file, None)
  | None, None, None => Err RecipeSourceRequired
  end.

(** The recipe text the manager can read itself, if any. *)
Definition recipeText (rq : deployRequest) (ref inline : option string) :
    result postRefusal (option string) :=
  match inline, truthy (rq_recipePath rq), ref, truthy (rq_recipeFile rq) with
  | Some yaml, _, _, _ => Ok (Some yaml)
  | None, Some _, Some p, _ => Ok (readFile p)
  | None, _, _, Some file =>
      match Recipe.resolveDgxrunRecipeFile file dgxrunDir with
      | None => Ok None
      | Some p => match readFile p with Some t => Ok (Some t) | None => Err (RecipeNotFound file) end
      end
  | _, _, _, _ => Ok None
  end.

Definition resolveSource (rq : deployRequest) : result postRefusal source :=
  if isOllamaRq rq then
    _ ← guard_or (match truthy (rq_modelName rq) with Some _ => true | None => false end)
          ModelNameRequired;
    Ok noSource
  else
    ri ← recipeSource rq;
    text ← recipeText rq ri.1 ri.2;
    match truthy text with
    | None => Ok {| src_ref := ri.1; src_inline := ri.2; src_dgxrun := None;
                    src_maxOutMem := None; src_modality := Modality.Text |}
    | Some t =>
        modality ← match Recipe.parseModalityYaml t with
                   | Ok m => Ok m | Err v => Err (BadModality v) end;
        dgx ← match Recipe.resolveDgxrunRecipe (parseYaml t) with
              | None => Ok None
              | Some (Ok r) => Ok (Some r)
              | Some (Err e) => Err (BadDgxrun e)
              end;
        Ok {| src_ref := ri.1; src_inline := ri.2; src_dgxrun := dgx;
              src_maxOutMem := Some (MaxOutMem.parseMaxOutMemYaml t); src_modality := modality |}
    end.

Definition effectiveRuntime (rq : deployRequest) (src : source) : string :=
  if isOllamaRq rq then "ollama"
  else match src_dgxrun src with Some _ => "dgxrun" | None => "vllm" end.

(** ** The name *)

Definition postDisplayName (s : db) (rq : deployRequest) : result postRefusal (option string) :=
  name ← match normalizeDisplayName (rq_displayName rq) with
         | Ok n => Ok n | Err e => Err (PostBadName e) end;
  match truthy name with
  | None => Ok name
  | Some n =>
      if isOllamaRq rq then Err NameNotSupported
      else match validateDisplayNameUnique s (Some n) None with
           | Some conflict => Err (PostNameConflict n conflict)
           | None => Ok name
           end
  end.

(** ** The nodes *)

Definition onlineNodes (s : db) (runtime : string) : list node :=
  List.filter (fun n => Role.runtimeAllowedOnNode (n_role n) runtime)
    (js_sort (fun a b => str_le (n_name a) (n_name b))
       (List.filter (fun n => String.eqb (n_status n) "online") (nodes s))).

Definition cfgGet (rq : deployRequest) (k : string) : option json :=
  match rq_config rq with Some c => obj_get c k | None => None end.

Definition recipeOf (rq : deployRequest) : option agentRecipe :=
  match rq_recipeFile rq with
  | Some f => js_find (fun r => String.eqb (ar_file r) f) agentRecipes
  | None => None
  end.

(** [config.x || dgxrun default || recipe default || 1] *)
Definition parallel (rq : deployRequest) (src : source) (cfgKey key : string) : num :=
  let dgx := d ← src_dgxrun src; JObj <$> Recipe.rr_defaults d in
  let rec_ := r ← recipeOf rq; ar_defaults r in
  toNum (jor (cfgGet rq cfgKey) (jor (jget dgx key) (jor (jget rec_ key) (Some (JNum (zn 1)))))).

(** The end of [slice(0, n)] over [len] elements. *)
Definition slice_end (n : num) (len : nat) : nat :=
  match n with
  | NaN | Inf true => 0
  | Inf false => len
  | Fin q =>
      let z := if Qle_bool 0 q then Qfloor q else Qceiling q in
      if (z <? 0)%Z then Z.to_nat (Z.max 0 (Z.of_nat len + z)) else Nat.min (Z.to_nat z) len
  end.

(** [nodeId] and [nodeIds] after the automatic choice. *)
Definition autoPick (s : db) (rq : deployRequest) (src : source) :
    result postRefusal (option string * nodeIdsSel) :=
  let auto := bool_decide (rq_nodeId rq = Some "auto") ||
              match rq_nodeIds rq with AutoIds => true | _ => false end in
  if negb auto then Ok (rq_nodeId rq, rq_nodeIds rq)
  else
    let idle := onlineNodes s (effectiveRuntime rq src) in
    match idle with
    | [] => Err NoOnlineNodes
    | first :: _ =>
        match rq_nodeIds rq with
        | AutoIds =>
            let needed := num_mul (parallel rq src "tensorParallel" "tensor_parallel")
                            (parallel rq src "pipelineParallel" "pipeline_parallel") in
            if num_lt (zn (Z.of_nat (length idle))) needed
            then Err (TooFewNodes needed (length idle))
            else Ok (rq_nodeId rq, Ids (map n_id (take (slice_end needed (length idle)) idle)))
        | ids => Ok (Some (n_id first), ids)
        end
    end.

Record picked := { pk_ids : nodeIdsSel; pk_isCluster : bool; pk_head : string }.

Definition pickNodes (s : db) (rq : deployRequest) (src : source) : result postRefusal picked :=
  sel ← autoPick s rq src;
  let isCluster := match sel.2 with Ids l => (1 <? length l)%nat | _ => false end in
  let head := if isCluster then match sel.2 with Ids l => head l | _ => None end else sel.1 in
  h ← of_option (truthy head) NodeRequired;
  Ok {| pk_ids := sel.2; pk_isCluster := isCluster; pk_head := h |}.

Definition targetIds (p : picked) : list string :=
  match pk_ids p, pk_isCluster p with Ids l, true => l | _, _ => [pk_head p] end.

Definition roleCheck (s : db) (rq : deployRequest) (src : source) (p : picked) :
    result postRefusal () :=
  let runtime := effectiveRuntime rq src in
  match js_find (fun n => negb (Role.runtimeAllowedOnNode (n_role n) runtime))
          (List.filter (fun n => mem_str (n_id n) (targetIds p)) (nodes s)) with
  | Some n => Err (RoleRefused (n_name n) runtime)
  | None => Ok ()
  end.

(** ** Sizing and the port *)

Definition headTotalMB (s : db) (p : picked) : Z :=
  match tbl_find (pk_head p) (nodes s) with Some n => nodeTotalMB n | None => DEFAULT_VRAM_TOTAL_MB end.

Definition sizeEstimate (s : db) (rq : deployRequest) (p : picked) : num :=
  if pk_isCluster p then zn 0
  else if isOllamaRq rq then Ollama.estimate ollamaCatalog ollamaModels (default "" (rq_modelName rq))
  else num_round (num_mul (zn (headTotalMB s p))
         (toNum (jor (cfgGet rq "gpuMem")
                   (jor (jget (r ← recipeOf rq; ar_defaults r) "gpu_memory_utilization")
                      (Some (JNum DEFAULT_GPU_MEM_UTIL)))))).

(** Ports of the node's active deployments. *)
Definition usedPorts (s : db) (nodeId : string) : list Z :=
  omap d_port (List.filter (fun d => String.eqb (d_nodeId d) nodeId &&
                                     mem_str (d_status d) Names.ACTIVE_DEPLOYMENT_STATUSES)
                 (deployments s)).

(** [while (used.has(p)) p++]: [fuel] steps at most. *)
Fixpoint nextFreePort (fuel : nat) (used : list Z) (p : Z) : Z :=
  match fuel with
  | O => p
  | S fuel' => if bool_decide (p ∈ used) then nextFreePort fuel' used (p + 1) else p
  end.

(** The config with its port bumped when the requested one is taken. *)
Definition bumpPort (s : db) (rq : deployRequest) (p : picked) :
    result postRefusal (option (list (string * json))) :=
  if pk_isCluster p || isOllamaRq rq then Ok (rq_config rq)
  else
    requested ← of_option (match jor (cfgGet rq "port") (Some (JNum (zn 8000))) with
                           | Some (JNum n) => as_int32 n | _ => None end) PostUnhandled;
    let used := usedPorts s (pk_head p) in
    if bool_decide (requested ∈ used) then
      let next := nextFreePort (S (length used)) used requested in
      Ok (Some (obj_set (default [] (rq_config rq)) "port" (JNum (zn next))))
    else Ok (rq_config rq).

(** ** Admission *)

(** The catalog entry of the recipe: agent-reported, else server-side. *)
Definition catalogEntry (rq : deployRequest) : option (string * option json) :=
  match recipeOf rq with
  | Some r => Some (Arch.arch_str (ar_arch r), ar_defaults r)
  | None =>
      match rq_recipeFile rq with
      | Some f => (fun r => (Recipe.cr_arch r, Some (JObj (Recipe.cr_defaults r)))) <$>
                  js_find (fun r => String.eqb (Recipe.cr_file r) f) dgxrunCatalog
      | None => None
      end
  end.

(** [checkRecipeArchAdmission] on the spelled architectures. *)
Definition archAllowed (recipeArch nodeArch : string) : bool :=
  String.eqb recipeArch "any" || String.eqb recipeArch nodeArch.

Definition archCheck (s : db) (entry : option (string * option json)) (ids : list string) :
    result postRefusal () :=
  match entry with
  | None => Ok ()
  | Some (arch, _) =>
      match omap (fun nid => n ← tbl_find nid (nodes s); na ← truthy (n_arch n);
                             if archAllowed arch na then None else Some na) ids with
      | na :: _ => Err (ArchMismatch arch na)
      | [] => Ok ()
      end
  end.

(** [config.gpuMem || dgxrun default || catalog default || 0.85] *)
Definition requestedShareValue (rq : deployRequest) (config : option (list (string * json)))
    (src : source) : option json :=
  let dgx := d ← src_dgxrun src; JObj <$> Recipe.rr_defaults d in
  let cat := e ← catalogEntry rq; e.2 in
  jor (c ← config; obj_get c "gpuMem")
    (jor (jget dgx "gpu_memory_utilization")
       (jor (jget cat "gpu_memory_utilization") (Some (JNum DEFAULT_GPU_MEM_UTIL)))).

(** The share authorised; [None] for Ollama, which is not admitted at all. *)
Definition admitDeploy (s : db) (rq : deployRequest) (config : option (list (string * json)))
    (src : source) (p : picked) : result postRefusal (option json) :=
  if isOllamaRq rq then Ok None
  else
    _ ← archCheck s (catalogEntry rq) (targetIds p);
    let share := requestedShareValue rq config src in
    match checkVllmVramAdmission s (targetIds p) (toNum share) None with
    | [] => Ok share
    | shortfalls => Err (PostShortfall shortfalls (toNum share))
    end.

(** ** The rows *)

(** [s.replace(/.*\//, "")] *)
Fixpoint basename_acc (acc s : string) : string :=
  match s with
  | EmptyString => acc
  | String c r => if Ascii.eqb c "/" then basename_acc r r else basename_acc acc r
  end.

Definition modelKey (rq : deployRequest) (src : source) (now : Z) : string :=
  if isOllamaRq rq then default "" (rq_modelName rq)
  else match truthy (rq_recipeFile rq) with
  | Some f => strip_suffix ".yaml" (default f (strip_prefix "recipes/" f))
  | None =>
      match truthy (src_ref src) with
      | Some p => strip_suffix ".yaml" (basename_acc p p)
      | None =>
          let meta := match src_inline src with
                      | Some y => Recipe.parseInlineRecipeModel y | None => (None, None) end in
          match meta with
          | (Some m, _) => m
          | (None, Some m) => m
          | (None, None) => "inline-" +:+ pretty now
          end
      end
  end.

Definition entry (k : string) (v : option json) : list (string * json) :=
  match v with Some j => [(k, j)] | None => [] end.

(** The recipe as it is persisted. *)
Definition recipeJson (r : Recipe.DgxrunResolvedRecipe) : json :=
  JObj ([("runner", JStr "dgxrun")] ++ entry "model" (JStr <$> Recipe.rr_model r) ++
        [("container", JStr (Recipe.rr_container r)); ("command", JStr (Recipe.rr_command r))] ++
        entry "env" (JObj <$> Recipe.rr_env r) ++ entry "defaults" (JObj <$> Recipe.rr_defaults r) ++
        [("cluster_only", JBool (Recipe.rr_cluster_only r))] ++
        entry "mods" ((fun ms => JArr (map JStr ms)) <$> Recipe.rr_mods r)).

Definition masterPortOf (config : option (list (string * json))) : option json :=
  jor (c ← config; obj_get c "masterPort") (Some (JNum (zn DEFAULT_MASTER_PORT))).

(** The config blob of the row. *)
Definition storedConfig (rq : deployRequest) (config : option (list (string * json)))
    (src : source) (authorised : option json) : list (string * json) :=
  let c := default [] config in
  if isOllamaRq rq then
    obj_spread ([("runtime", JStr "ollama"); ("modelName", JStr (default "" (rq_modelName rq)))] ++
                entry "modelType" (jor (rq_modelType rq) (Some (JStr "chat")))) c
  else
    let head := entry "recipeFile" (JStr <$> rq_recipeFile rq) ++
      match src_dgxrun src with
      | Some r => [("runner", JStr "dgxrun")] ++ entry "masterPort" (masterPortOf config) ++
                  [("dgxrunRecipe", recipeJson r)]
      | None => []
      end in
    let tail := (match src_modality src with
                 | Modality.Text => []
                 | m => [("modality", JStr (Modality.modality_str m))] end) ++
                entry "authorisedGpuMem" authorised in
    obj_spread (obj_spread head c) tail.

(** The model row: found by name, or created. *)
Definition ensureModel (s : db) (name runtime newId : string) : db * string :=
  match js_find (fun m => String.eqb (m_name m) name) (models s) with
  | Some m => (s, m_id m)
  | None => (db_models (fun l => l ++ [ModelRow newId name runtime None]) s, newId)
  end.

Definition recordNodeIds (p : picked) : list string :=
  match pk_ids p with Ids (x :: l) => x :: l | _ => [pk_head p] end.

(** The cluster rows, ids [<deployment>-<position>]. *)
Definition clusterRows (depId : string) (p : picked) : list cluster_node :=
  imap (fun i nid => ClusterNode (depId +:+ "-" +:+ pretty i) depId nid
          (if String.eqb nid (pk_head p) then "head" else "worker") "pending") (recordNodeIds p).

(** The addresses known for the recorded nodes; the unknown ones are dropped. *)
Definition recordedIps (s : db) (p : picked) : list string :=
  omap (fun nid => n ← tbl_find nid (nodes s); truthy (n_ipAddress n)) (recordNodeIds p).

Definition vramEstimateColumn (n : num) : option (option Z) :=
  if num_truthy n then z ← as_int32 n; Some (Some z) else Some None.

(** ** The orders *)

Definition deployOrders (rq : deployRequest) (config : option (list (string * json)))
    (src : source) (p : picked) (depId : string) (displayName : option string)
    (ips : list string) : result postRefusal (list (string * Restart.agentMsg)) :=
  match src_dgxrun src with
  | Some r =>
      let port := match masterPortOf config with
                  | Some (JNum (Fin q)) => Qfloor q | _ => DEFAULT_MASTER_PORT end in
      match buildDgxrunDeploys depId (recipeJson r) (recordNodeIds p) ips (Some port)
              (Restart.dgxrunParams [] (default [] config) displayName) with
      | Ok ds => Ok (map (fun x => (dp_nodeId x, Restart.DeployRank x)) ds)
      | Err _ => Err PostUnhandled
      end
  | None =>
      let ollama := isOllamaRq rq in
      Ok [(pk_head p,
           Restart.Deploy depId (if ollama then "ollama" else "vllm")
             (if ollama then JStr <$> rq_modelName rq else None)
             (if ollama then jor (rq_modelType rq) (Some (JStr "chat")) else None)
             (if ollama then None else JStr <$> rq_recipeFile rq)
             (if ollama then None else JStr <$> src_ref src)
             (if ollama then None else src_inline src)
             displayName (default [] config)
             (if pk_isCluster p then Some (map Some ips) else None) None)]
  end.

(** What is known when the deployment row is about to be created. *)
Record plan := {
  pl_source : source; pl_name : option string; pl_picked : picked;
  pl_config : option (list (string * json)); pl_authorised : option json;
  pl_estimate : option Z }.

Definition planDeploy (s : db) (rq : deployRequest) : result postRefusal plan :=
  src ← resolveSource rq;
  name ← postDisplayName s rq;
  p ← pickNodes s rq src;
  _ ← roleCheck s rq src p;
  config ← bumpPort s rq p;
  authorised ← admitDeploy s rq config src p;
  estimate ← of_option (vramEstimateColumn (sizeEstimate s rq p)) PostUnhandled;
  Ok {| pl_source := src; pl_name := name; pl_picked := p; pl_config := config;
        pl_authorised := authorised; pl_estimate := estimate |}.

Definition usesCluster (pl : plan) : bool :=
  pk_isCluster (pl_picked pl) ||
  match src_dgxrun (pl_source pl) with Some _ => true | None => false end.

Definition newRow (rq : deployRequest) (pl : plan) (depId modelId : string) (now : Z) : deployment :=
  Deployment depId (pl_name pl) (pk_head (pl_picked pl)) modelId "pending" None None None
    (Some (Some (JObj (storedConfig rq (pl_config pl) (pl_source pl) (pl_authorised pl)))))
    (usesCluster pl) (pl_estimate pl) None now.

(** [prisma.clusterNode.create] per node: the foreign key stops the loop at the
    first unknown node, and the rows before it stay.  [ClusterNode] has no unique
    constraint beside its generated key ([prisma/schema.prisma]: the
    [@@unique([jobId, nodeId])] is [FineTuneClusterNode]'s), so a node named twice
    gets two rows. *)
Fixpoint insertClusterRows (s : db) (rows : list cluster_node) : db * bool :=
  match rows with
  | [] => (s, true)
  | r :: rest =>
      match tbl_find (cn_nodeId r) (nodes s) with
      | Some _ => insertClusterRows (db_clusterNodes (fun l => l ++ [r]) s) rest
      | None => (s, false)
      end
  end.

(** The rows of the deployment, and whether all of them could be written. *)
Definition createRows (s : db) (rq : deployRequest) (pl : plan) (depId modelId : string) (now : Z) :
    db * bool :=
  let p := pl_picked pl in
  let '(s1, mid) := ensureModel s (modelKey rq (pl_source pl) now)
                      (if isOllamaRq rq then "ollama" else "vllm") modelId in
  match tbl_find (pk_head p) (nodes s1) with
  | None => (s1, false)
  | Some _ =>
      let s2 := db_deployments (fun l => l ++ [newRow rq pl depId mid now]) s1 in
      if usesCluster pl then insertClusterRows s2 (clusterRows depId p) else (s2, true)
  end.

(** The route: the tables after it, whatever it answers, and the answer. *)
Definition postRoute (s : db) (rq : deployRequest) (depId modelId : string) (now : Z) :
    db * result postRefusal (list (string * Restart.agentMsg)) :=
  match planDeploy s rq with
  | Err e => (s, Err e)
  | Ok pl =>
      let '(s', complete) := createRows s rq pl depId modelId now in
      if complete then
        (s', deployOrders rq (pl_config pl) (pl_source pl) (pl_picked pl) depId (pl_name pl)
               (recordedIps s (pl_picked pl)))
      else (s', Err PostUnhandled)
  end.

End Post.
