(* ===== verification/DeployRouteFacts.v ===== *)
(** Creating a deployment: what is checked before a row exists, what the row holds
    whatever the caller wrote, which port it gets, and the two requests that go
    wrong. *)
From S2P Require Import Prelude JsNum Schema Admission Gateway Deployments DeploymentFacts Recipes Routes RouteFacts DeployRoute.
Import Vram Names Dispatch Status.

Section Facts.
Context (readFile : string -> option string) (parseYaml : string -> option json).
Context (cwd : list string) (sharedStorage : string) (dgxrunDir : list string).
Context (agentRecipes : list agentRecipe) (dgxrunCatalog : list Recipe.CatalogRecipe).
Context (ollamaCatalog : list Ollama.catalogEntry) (ollamaModels : list Ollama.modelInfo).

Notation resolve := (resolveSource readFile parseYaml cwd sharedStorage dgxrunDir).
Notation pick := (pickNodes agentRecipes).
Notation share := (requestedShareValue agentRecipes dgxrunCatalog).
Notation plan_of := (planDeploy readFile parseYaml cwd sharedStorage dgxrunDir agentRecipes
                       dgxrunCatalog ollamaCatalog ollamaModels).
Notation post := (postRoute readFile parseYaml cwd sharedStorage dgxrunDir agentRecipes
                    dgxrunCatalog ollamaCatalog ollamaModels).

(** The stages of a plan that succeeds. *)
Lemma planDeploy_Ok s rq pl :
  plan_of s rq = Ok pl ->
  resolve rq = Ok (pl_source pl) /\
  postDisplayName s rq = Ok (pl_name pl) /\
  pick s rq (pl_source pl) = Ok (pl_picked pl) /\
  roleCheck s rq (pl_source pl) (pl_picked pl) = Ok () /\
  bumpPort s rq (pl_picked pl) = Ok (pl_config pl) /\
  admitDeploy agentRecipes dgxrunCatalog s rq (pl_config pl) (pl_source pl) (pl_picked pl) =
    Ok (pl_authorised pl).
Proof.
  unfold planDeploy. intros H. ok_inv. simpl. 
  repeat match goal with u : () |- _ => destruct u end. done.
Qed.

Lemma admit_Ok s rq config src p a :
  isOllamaRq rq = false ->
  admitDeploy agentRecipes dgxrunCatalog s rq config src p = Ok a ->
  a = share rq config src /\
  checkVllmVramAdmission s (targetIds p) (toNum a) None = [].
Proof.
  unfold admitDeploy. intros -> H. ok_inv.
  destruct (checkVllmVramAdmission _ _ _ _) eqn:E; [|done]. by injection H as <-.
Qed.

(** ** The config of the row *)

Lemma jor_is_Some a b : is_Some b -> is_Some (jor a b).
Proof. unfold jor. intros Hb. destruct a as [j|]; [|done]. by destruct (jtruthy (Some j)). Qed.

Lemma share_is_Some rq config src : is_Some (share rq config src).
Proof. do 3 (apply jor_is_Some). by eexists. Qed.

Definition storedOf (rq : deployRequest) (pl : plan) : list (string * json) :=
  storedConfig rq (pl_config pl) (pl_source pl) (pl_authorised pl).

Lemma storedConfig_authorised rq config src v :
  isOllamaRq rq = false ->
  obj_get (storedConfig rq config src (Some v)) "authorisedGpuMem" = Some v.
Proof.
  unfold storedConfig. intros ->. rewrite obj_get_spread.
  by destruct (src_modality src).
Qed.

Lemma storedConfig_modality rq config src a :
  isOllamaRq rq = false ->
  obj_get (storedConfig rq config src a) "modality" =
  match src_modality src with
  | Modality.Text => obj_get (obj_spread [] (default [] config)) "modality"
  | m => Some (JStr (Modality.modality_str m)) end.
Proof.
  unfold storedConfig. intros ->. rewrite !obj_get_spread.
  destruct (src_modality src), a; simpl; try done.
  all: destruct (obj_get (rev _) _); [done|].
  all: by destruct (rq_recipeFile rq), (src_dgxrun src), (masterPortOf config).
Qed.

(** What the row records is the manager's, not the caller's.  In the config of a
    vLLM deployment [authorisedGpuMem] is the very share the admission check was run
    for, and it found no node short, whatever [authorisedGpuMem] the caller's config
    carries.  The gateway reads the modality of an image recipe as image whatever
    the caller's config says; but for a text recipe it reads what the caller wrote. *)
Theorem post_config_authority s rq pl :
  plan_of s rq = Ok pl -> isOllamaRq rq = false ->
  (exists v, obj_get (storedOf rq pl) "authorisedGpuMem" = Some v /\
     share rq (pl_config pl) (pl_source pl) = Some v /\
     checkVllmVramAdmission s (targetIds (pl_picked pl)) (toNum (Some v)) None = []) /\
  Modality.deploymentModality (Some (Some (JObj (storedOf rq pl)))) =
    match src_modality (pl_source pl) with
    | Modality.Text => default Modality.Text (Modality.isModality
        (obj_get (obj_spread [] (default [] (pl_config pl))) "modality"))
    | m => m end.
Proof.
  intros (_ & _ & _ & _ & _ & Ha)%planDeploy_Ok Ho.
  destruct (admit_Ok _ _ _ _ _ _ Ho Ha) as [Hs Hc].
  destruct (share_is_Some rq (pl_config pl) (pl_source pl)) as [v Hv]. rewrite Hs, Hv in Hc.
  split.
  - exists v. split; [|done]. unfold storedOf. rewrite Hs, Hv. by apply storedConfig_authorised.
  - unfold Modality.deploymentModality, storedOf. cbn [jget]. rewrite storedConfig_modality by done.
    by destruct (src_modality (pl_source pl)).
Qed.

(** ** The port *)

Lemma nextFreePort_spec used fuel p :
  let r := nextFreePort fuel used p in
  (p <= r)%Z /\ (forall q, (p <= q < r)%Z -> q ∈ used) /\
  (r ∉ used \/ (r = p + Z.of_nat fuel)%Z).
Proof.
  revert p. induction fuel as [|fuel IH]; intros p; simpl.
  - split; [lia|]. split; [lia|]. right. lia.
  - case_bool_decide as Hp; [|split; [lia|]; split; [lia|by left]].
    destruct (IH (p + 1)%Z) as (H1 & H2 & H3). split; [lia|]. split.
    + intros q Hq. destruct (decide (q = p)) as [->|]; [done|]. apply H2. lia.
    + destruct H3 as [H3|H3]; [by left|right; lia].
Qed.

(** The ports [p], ..., [p + n - 1]. *)
Lemma range_in_list (used : list Z) (n : nat) p :
  (forall q, (p <= q < p + Z.of_nat n)%Z -> q ∈ used) -> (n <= length used)%nat.
Proof.
  intros H. transitivity (length (seqZ p (Z.of_nat n))); [by rewrite length_seqZ; lia|].
  apply submseteq_length, NoDup_submseteq; [apply NoDup_seqZ|].
  intros q Hq%elem_of_seqZ. by apply H.
Qed.

(** One step more than there are used ports always reaches a free one. *)
Lemma nextFreePort_free used p : nextFreePort (S (length used)) used p ∉ used.
Proof.
  destruct (nextFreePort_spec used (S (length used)) p) as (H1 & H2 & [H3|H3]); [done|].
  exfalso. assert (S (length used) <= length used)%nat; [|lia].
  apply (range_in_list used _ p). intros q Hq. apply H2. lia.
Qed.

(** A solo deployment never takes a port another active deployment of its node
    holds.  The search ends, at the least free port from the requested one on; the
    config is left alone when that is the requested port itself. *)
Theorem bumpPort_least_free s rq p config :
  pk_isCluster p = false -> isOllamaRq rq = false -> bumpPort s rq p = Ok config ->
  exists n requested port,
    jor (cfgGet rq "port") (Some (JNum (zn 8000))) = Some (JNum n) /\ as_int32 n = Some requested /\
    (requested <= port)%Z /\ port ∉ usedPorts s (pk_head p) /\
    (forall q, (requested <= q < port)%Z -> q ∈ usedPorts s (pk_head p)) /\
    (if bool_decide (port = requested) then config = rq_config rq
     else exists c, config = Some c /\ obj_get c "port" = Some (JNum (zn port)) /\
          forall k, k <> "port" -> obj_get c k = obj_get (default [] (rq_config rq)) k).
Proof.
  unfold bumpPort. intros -> ->. cbn [orb]. intros H. ok_inv. rename v into requested.
  destruct (jor (cfgGet rq "port") (Some (JNum (zn 8000)))) as [[| |n| | |]|] eqn:En; try discriminate H0.
  exists n, requested. set (used := usedPorts s (pk_head p)) in *.
  pose proof (nextFreePort_free used requested) as Hf.
  destruct (nextFreePort_spec used (S (length used)) requested) as (H1 & H2 & _).
  case_bool_decide as Hin; injection H as <-.
  - exists (nextFreePort (S (length used)) used requested). do 5 (split; [done|]).
    rewrite bool_decide_false by congruence. eexists. split; [done|]. split.
    + by rewrite obj_get_set, decide_True.
    + intros k Hk. by rewrite obj_get_set, decide_False.
  - exists requested. do 2 (split; [done|]). split; [lia|]. split; [done|]. split; [lia|].
    by rewrite bool_decide_true.
Qed.

(** ** The rows *)

Lemma ensureModel_frame s name runtime newId s1 mid :
  ensureModel s name runtime newId = (s1, mid) ->
  deployments s1 = deployments s /\ nodes s1 = nodes s /\ clusterNodes s1 = clusterNodes s.
Proof. unfold ensureModel. destruct (js_find _ _); by intros [= <- <-]. Qed.

Lemma insertClusterRows_spec rows s s' ok :
  insertClusterRows s rows = (s', ok) ->
  deployments s' = deployments s /\ nodes s' = nodes s /\
  exists written, clusterNodes s' = clusterNodes s ++ written /\ written `prefix_of` rows /\
    (ok = true -> written = rows /\ forall r, r ∈ rows -> is_Some (tbl_find (cn_nodeId r) (nodes s))).
Proof.
  revert s. induction rows as [|r rows IH]; intros s; simpl.
  - intros [= <- <-]. split; [done|]. split; [done|]. exists []. rewrite app_nil_r.
    split; [done|]. split; [by exists []|]. split; [done|]. by intros r ?%elem_of_nil.
  - destruct (tbl_find (cn_nodeId r) (nodes s)) as [n|] eqn:En.
    + intros (Hd & Hn & w & Hw & Hp & Hok)%IH. cbn in Hd, Hn, Hw. split; [done|]. split; [done|].
      exists (r :: w). split; [by rewrite Hw, <- app_assoc|]. split; [by apply prefix_cons|].
      intros [-> Hall]%Hok. split; [done|]. intros x [->|Hx]%elem_of_cons; [by rewrite En|].
      by apply Hall.
    + intros [= <- <-]. split; [done|]. split; [done|]. exists []. rewrite app_nil_r.
      split; [done|]. split; [apply prefix_nil|done].
Qed.

(** What creating the rows changes: nothing of the deployments, or one row more. *)
Lemma createRows_spec s rq pl depId modelId now s' ok :
  createRows s rq pl depId modelId now = (s', ok) ->
  nodes s' = nodes s /\
  (deployments s' = deployments s /\ clusterNodes s' = clusterNodes s /\ ok = false \/
   exists mid written,
     deployments s' = deployments s ++ [newRow rq pl depId mid now] /\
     is_Some (tbl_find (pk_head (pl_picked pl)) (nodes s)) /\
     clusterNodes s' = clusterNodes s ++ written /\
     written `prefix_of` (if usesCluster pl then clusterRows depId (pl_picked pl) else []) /\
     (ok = true -> usesCluster pl = true -> written = clusterRows depId (pl_picked pl))).
Proof.
  unfold createRows. destruct (ensureModel _ _ _ _) as [s1 mid] eqn:Em.
  apply ensureModel_frame in Em as (Hd & Hn & Hc).
  destruct (tbl_find (pk_head (pl_picked pl)) (nodes s1)) as [n|] eqn:Eh.
  - assert (is_Some (tbl_find (pk_head (pl_picked pl)) (nodes s))) as Hh by (by rewrite <- Hn, Eh).
    destruct (usesCluster pl).
    + intros (Hd' & Hn' & w & Hw & Hp & Hok)%insertClusterRows_spec. cbn in Hd', Hn', Hw.
      split; [congruence|]. right. exists mid, w. rewrite Hd', Hw, Hd, Hc.
      do 4 (split; [done|]). by intros [-> _]%Hok _.
    + intros [= <- <-]. cbn. split; [done|]. right. exists mid, []. rewrite Hd, Hc, app_nil_r. done.
  - intros [= <- <-]. split; [done|]. by left.
Qed.

(** When all rows could be written, every node that was asked for exists. *)
Lemma createRows_nodes s rq pl depId modelId now s' nid :
  createRows s rq pl depId modelId now = (s', true) ->
  nid ∈ targetIds (pl_picked pl) -> is_Some (tbl_find nid (nodes s)).
Proof.
  unfold createRows. destruct (ensureModel _ _ _ _) as [s1 mid] eqn:Em.
  apply ensureModel_frame in Em as (_ & Hn & _). rewrite Hn.
  destruct (tbl_find (pk_head (pl_picked pl)) (nodes s)) as [n|] eqn:Eh; [|done].
  intros H Hnid. unfold targetIds in Hnid.
  destruct (pk_isCluster (pl_picked pl)) eqn:Ec.
  - unfold usesCluster in H. rewrite Ec in H. cbn [orb] in H.
    apply insertClusterRows_spec in H as (_ & _ & w & _ & _ & Hok).
    destruct (Hok eq_refl) as [_ Hall]. cbn in Hall. rewrite Hn in Hall.
    assert (nid ∈ recordNodeIds (pl_picked pl)) as Hr.
    { unfold recordNodeIds. destruct (pk_ids (pl_picked pl)) as [| |[|x l]]; try done.
      by apply elem_of_nil in Hnid. }
    apply list_elem_of_lookup in Hr as [i Hi].
    apply (Hall (ClusterNode (depId +:+ "-" +:+ pretty i) depId nid
      (if String.eqb nid (pk_head (pl_picked pl)) then "head" else "worker") "pending")).
    unfold clusterRows. apply elem_of_lookup_imap. by exists i, nid.
  - assert (nid = pk_head (pl_picked pl)) as ->; [|by rewrite Eh].
    by destruct (pk_ids _); apply list_elem_of_singleton in Hnid.
Qed.

Lemma postDisplayName_Ok s rq name n :
  postDisplayName s rq = Ok name -> truthy name = Some n ->
  isOllamaRq rq = false /\
  forall d, d ∈ deployments s -> d_displayName d = Some n ->
    d_status d ∉ Names.ACTIVE_DEPLOYMENT_STATUSES.
Proof.
  unfold postDisplayName. intros H Hn. ok_inv.
  destruct (normalizeDisplayName _) as [x|]; [|discriminate H0]. injection H0 as ->.
  destruct (truthy v) as [m|] eqn:Em; [|by injection H as <-; congruence].
  destruct (isOllamaRq rq); [done|]. split; [done|].
  destruct (validateDisplayNameUnique s (Some m) None) eqn:Eu; [done|]. injection H as <-.
  assert (m = n) as -> by congruence. intros d Hd Hdn Hs.
  by apply (proj1 (validateDisplayNameUnique_None s n None) Eu d Hd Hdn) in Hs.
Qed.

Lemma roleCheck_Ok s rq src p n :
  roleCheck s rq src p = Ok () -> n ∈ nodes s -> n_id n ∈ targetIds p ->
  Role.runtimeAllowedOnNode (n_role n) (effectiveRuntime rq src) = true.
Proof.
  unfold roleCheck. destruct (js_find _ _) eqn:E; [done|]. intros _ Hn Ht.
  apply negb_false_iff, (proj1 (js_find_None _ _) E n), elem_of_filter_bool.
  split; [done|]. by apply mem_str_spec.
Qed.

Lemma pickNodes_head s rq src p : pick s rq src = Ok p -> pk_head p ∈ targetIds p.
Proof.
  unfold pickNodes. intros H. ok_inv. unfold targetIds. cbn [pk_ids pk_isCluster pk_head].
  apply truthy_Some in H1 as [H1 _].
  destruct (v.2) as [| |l]; try (by apply list_elem_of_singleton).
  destruct (1 <? length l)%nat; [|by apply list_elem_of_singleton].
  destruct l as [|x l]; [done|]. injection H1 as ->. by left.
Qed.

(** C4: Everything is checked before a row exists.  A request either leaves the
    deployments and the cluster rows as they were and is refused, or appends exactly
    one row: pending, unpublished, under no other active deployment's display name,
    on a head that exists.  Every target the manager knows has a role that allows the
    runtime; every target exists when the request is answered with success (an
    unknown worker is only found out when its cluster row is written: the row stays
    and the request fails).  Unless it is Ollama's, which is not admitted at all, no
    target is short of the share that the row records. *)
Theorem post_creates_admitted s rq depId modelId now s' res :
  post s rq depId modelId now = (s', res) ->
  nodes s' = nodes s /\
  (deployments s' = deployments s /\ clusterNodes s' = clusterNodes s /\ (exists e, res = Err e) \/
   exists pl row,
     plan_of s rq = Ok pl /\ deployments s' = deployments s ++ [row] /\
     d_id row = depId /\ d_status row = "pending" /\ d_publishedName row = None /\
     d_nodeId row ∈ targetIds (pl_picked pl) /\ is_Some (node_of s row) /\
     ((exists sends, res = Ok sends) ->
        forall nid, nid ∈ targetIds (pl_picked pl) -> is_Some (tbl_find nid (nodes s))) /\
     (forall n, truthy (d_displayName row) = Some n -> forall d, d ∈ deployments s ->
        d_displayName d = Some n -> d_status d ∉ Names.ACTIVE_DEPLOYMENT_STATUSES) /\
     (forall n, n ∈ nodes s -> n_id n ∈ targetIds (pl_picked pl) ->
        Role.runtimeAllowedOnNode (n_role n) (effectiveRuntime rq (pl_source pl)) = true) /\
     (isOllamaRq rq = false -> exists cfg v,
        d_config row = Some (Some (JObj cfg)) /\ obj_get cfg "authorisedGpuMem" = Some v /\
        share rq (pl_config pl) (pl_source pl) = Some v /\
        checkVllmVramAdmission s (targetIds (pl_picked pl)) (toNum (Some v)) None = [])).
Proof.
  unfold postRoute. destruct (plan_of s rq) as [pl|e] eqn:Hpl.
  2: { intros [= <- <-]. split; [done|]. left. eauto. }
  destruct (createRows s rq pl depId modelId now) as [s1 ok] eqn:Ec.
  pose proof Ec as Ec'.
  apply createRows_spec in Ec as (Hn & [(Hd & Hc & ->)|(mid & w & Hd & Hh & _)]).
  { intros [= <- <-]. split; [done|]. left. eauto. }
  intros H. assert (s' = s1) as -> by (destruct ok; by injection H as <- <-).
  split; [done|]. right. exists pl, (newRow rq pl depId mid now).
  apply planDeploy_Ok in Hpl as Hst.
  destruct Hst as (_ & Hname & Hpick & Hrole & _ & Hadm).
  do 5 (split; [done|]). split; [|split; [exact Hh|split; [|split; [|split]]]].
  - by eapply pickNodes_head.
  - intros [sends ->] nid. destruct ok; [|done]. by eapply createRows_nodes.
  - intros n Hn'. by destruct (postDisplayName_Ok _ _ _ _ Hname Hn').
  - intros n Hin Ht. by eapply roleCheck_Ok.
  - intros Ho. destruct (admit_Ok _ _ _ _ _ _ Ho Hadm) as [Hs Hck].
    destruct (share_is_Some rq (pl_config pl) (pl_source pl)) as [v Hv].
    rewrite Hs, Hv in Hck. exists (storedOf rq pl), v. split; [done|]. split; [|done].
    unfold storedOf. rewrite Hs, Hv. by apply storedConfig_authorised.
Qed.

(** ** Two requests that go wrong *)

(** Asking for as many nodes as the recipe needs, when it needs one, is refused. *)
Theorem single_node_cluster_refused s rq src :
  truthy (rq_nodeId rq) = None -> rq_nodeIds rq = AutoIds ->
  num_mul (parallel agentRecipes rq src "tensorParallel" "tensor_parallel")
    (parallel agentRecipes rq src "pipelineParallel" "pipeline_parallel") = zn 1 ->
  onlineNodes s (effectiveRuntime rq src) <> [] ->
  pick s rq src = Err NodeRequired.
Proof.
  intros Hid Hids Hn Hon. unfold pickNodes, autoPick. rewrite Hids, Hn, orb_true_r. cbn [negb].
  destruct (onlineNodes _ _) as [|n l] eqn:E; [done|]. rewrite zn_lt.
  assert (Z.of_nat (length (n :: l)) <? 1 = false)%Z as -> by (apply Z.ltb_ge; cbn [length]; lia).
  cbn [mbind result_bind snd fst]. 
  assert (slice_end (zn 1) (length (n :: l)) = 1%nat) as -> by done. simpl. by rewrite Hid.
Qed.

Lemma omap_length_lt {A B} (f : A -> option B) l x :
  x ∈ l -> f x = None -> (length (omap f l) < length l)%nat.
Proof.
  intros Hx Hf. assert (forall l', length (omap f l') <= length l')%nat as Hle.
  { induction l' as [|y l' IH]; csimpl; [done|]. destruct (f y); csimpl; lia. }
  induction Hx as [x l|x y l Hx IH]; csimpl.
  - rewrite Hf. specialize (Hle l). lia.
  - specialize (IH Hf). destruct (f y); csimpl; lia.
Qed.

(** A multi-rank recipe on a node without an address: the request fails, nothing is
    sent, and the pending row stays. *)
Theorem dgxrun_without_address_strands s rq pl r depId modelId now s' nid :
  plan_of s rq = Ok pl -> src_dgxrun (pl_source pl) = Some r ->
  createRows s rq pl depId modelId now = (s', true) ->
  nid ∈ recordNodeIds (pl_picked pl) ->
  (n ← tbl_find nid (nodes s); truthy (n_ipAddress n)) = None ->
  post s rq depId modelId now = (s', Err PostUnhandled) /\
  exists row, row ∈ deployments s' /\ d_id row = depId /\ d_status row = "pending".
Proof.
  intros Hpl Hr Hc Hnid Hip. unfold postRoute. rewrite Hpl, Hc. clear Hpl. split.
  - f_equal. unfold deployOrders. rewrite Hr.
    pose proof (omap_length_lt (fun nid => n ← tbl_find nid (nodes s); truthy (n_ipAddress n)) _ nid Hnid Hip) as Hlt.
    unfold buildDgxrunDeploys. destruct (length (recordNodeIds _) =? 0)%nat; [done|]. cbn [negb guard_or mbind result_bind].
    fold (recordedIps s (pl_picked pl)) in Hlt.
    assert (length (recordedIps s (pl_picked pl)) =? length (recordNodeIds (pl_picked pl)) = false)%nat
      as -> by (apply Nat.eqb_neq; lia). done.
  - apply createRows_spec in Hc as (_ & [(_ & _ & ?)|(mid & w & Hd & _)]); [done|].
    exists (newRow rq pl depId mid now). rewrite Hd. split; [|done]. set_solver.
Qed.

(** ** Restarting what was deployed from a path or a body *)

(** A vLLM source is a reference, a body, or both are absent only for Ollama. *)
Lemma resolveSource_source rq src :
  isOllamaRq rq = false -> resolve rq = Ok src -> is_Some (src_ref src) \/ is_Some (src_inline src).
Proof.
  unfold resolveSource. intros -> H. ok_inv. assert (is_Some (v.1) \/ is_Some (v.2)) as Hs.
  { unfold recipeSource in H0. destruct (truthy (rq_recipeYaml rq)) as [y|].
    - destruct (Recipe.validateInlineRecipe y); [|done]. injection H0 as <-. right. by eexists.
    - destruct (truthy (rq_recipePath rq)) as [p|].
      + destruct (Path.resolveRecipePath _ _ _); [|done]. injection H0 as <-. left. by eexists.
      + destruct (truthy (rq_recipeFile rq)) as [f|]; [|done]. injection H0 as <-. left. by eexists. }
  destruct (truthy v0) as [t|]; [|by injection H as <-]. ok_inv. exact Hs.
Qed.

Lemma storedConfig_recipeFile rq config src a :
  isOllamaRq rq = false -> src_dgxrun src = None -> rq_recipeFile rq = None ->
  obj_get (rev (default [] config)) "recipeFile" = None ->
  obj_get (storedConfig rq config src a) "recipeFile" = None.
Proof.
  unfold storedConfig. intros -> -> -> Hc. rewrite !obj_get_spread.
  assert (obj_get (rev (match src_modality src with Modality.Text => []
    | m => [("modality", JStr (Modality.modality_str m))] end ++ entry "authorisedGpuMem" a)) "recipeFile" = None) as ->
    by (by destruct (src_modality src), a).
  by rewrite Hc.
Qed.

(** A deployment launched by sparkrun from a path or an inline recipe cannot be
    restarted.  The order that deploys it carries the reference or the recipe's text.
    The row keeps neither: the order of every later restart has no recipe source at
    all, which the agent answers with a failure. *)
Theorem path_recipe_lost_on_restart s rq pl depId name ips s' cat d body sends patch :
  plan_of s rq = Ok pl -> isOllamaRq rq = false -> src_dgxrun (pl_source pl) = None ->
  rq_recipeFile rq = None -> obj_get (rev (default [] (pl_config pl))) "recipeFile" = None ->
  d_config d = Some (Some (JObj (storedOf rq pl))) -> Restart.finetuneJobOf s' d = None ->
  Restart.planRestart s' cat d body = Ok (sends, patch, false) ->
  (exists n m, deployOrders rq (pl_config pl) (pl_source pl) (pl_picked pl) depId name ips = Ok [(n, m)] /\
     match m with
     | Restart.Deploy _ _ _ _ _ ref inline _ _ _ _ => is_Some ref \/ is_Some inline
     | _ => False end) /\
  exists n m, sends = [(n, m)] /\
     match m with
     | Restart.Deploy _ _ _ _ file ref inline _ _ _ _ => file = None /\ ref = None /\ inline = None
     | _ => False end.
Proof.
  intros (Hsrc & _)%planDeploy_Ok Ho Hdg Hf Hc Hcfg Hft Hre. split.
  - unfold deployOrders. rewrite Hdg, Ho. eexists _, _. split; [reflexivity|]. cbn.
    destruct (resolveSource_source rq _ Ho Hsrc) as [[x ->]|[x ->]]; [left|right]; by eexists.
  - apply planRestart_Ok in Hre as (saved & nm & cd & Hs & _ & _ & Hcd & _ & Hsend).
    unfold savedConfigOf in Hs. rewrite Hcfg in Hs. injection Hs as <-.
    assert (obj_get cd.1 "recipeFile" = None) as Hcf.
    { pose proof (storedConfig_recipeFile rq _ (pl_source pl) (pl_authorised pl) Ho Hdg Hf Hc) as Hst.
      assert (obj_get (Restart.mergedConfig (JObj (storedOf rq pl)) body) "recipeFile" = None) as Hm.
      { rewrite mergedConfig_reserved; [exact Hst|]. unfold Restart.RESERVED. by left. }
      destruct (Restart.isOllamaConfig _); [by rewrite Hcd|].
      apply admitRestart_Ok in Hcd as (_ & H1 & H2).
      destruct (obj_get (Restart.overridesOf body) "gpuMem") eqn:E.
      - rewrite H2 by done. cbn [fst]. by rewrite obj_get_set, decide_False.
      - by rewrite H1. }
    destruct (_ && _); [by destruct Hsend|]. destruct Hsend as [-> _].
    unfold Restart.singleRestart. rewrite Hft, Hcf. eexists _, _. split; [reflexivity|].
    by destruct (Restart.isOllamaConfig _).
Qed.

End Facts.

(** ** Concrete runs *)


(** An image recipe of the in-repo catalog, on a node that already serves on 8000. *)
Definition pxRead (path : string) : option string := Some "modality: image".
Definition pxYaml (text : string) : option json :=
  Some (JObj [("runner", JStr "dgxrun"); ("container", JStr "img"); ("command", JStr "serve");
              ("defaults", JObj [("gpu_memory_utilization", JNum (Fin (1 # 2)))])]).
Definition pxNode (id : string) (ip : option string) : node :=
  Node id id ip "online" "on" None (Some 100000%Z) None None None None None
    "agent-deployed" true false None.
Definition pxDb (ip : option string) : db :=
  Db [pxNode "n1" ip; pxNode "n2" (Some "10.0.0.2")] [ModelRow "m1" "glm" "vllm" None]
     [Deployment "d1" (Some "glm") "n1" "m1" "running" None (Some 8000%Z) (Some "glm") None false
        None None 0] [] [] [].
Definition pxRq (nodeId : option string) (ids : nodeIdsSel) : deployRequest :=
  {| rq_nodeId := nodeId; rq_nodeIds := ids; rq_recipeFile := Some "@dgxrun/flux";
     rq_recipePath := None; rq_recipeYaml := None;
     rq_config := Some [("modality", JStr "text"); ("authorisedGpuMem", JNum (zn 1))];
     rq_runtime := None; rq_modelName := None; rq_modelType := None;
     rq_displayName := Some "flux" |}.
Definition pxPlan (s : db) (rq : deployRequest) : result postRefusal plan :=
  planDeploy pxRead pxYaml [] "/mnt/shared" ["repo"; "recipes"] [] [] [] [] s rq.
Definition pxPost (s : db) (rq : deployRequest) : db * result postRefusal (list (string * Restart.agentMsg)) :=
  postRoute pxRead pxYaml [] "/mnt/shared" ["repo"; "recipes"] [] [] [] [] s rq "d9" "m9" 0%Z.
Definition pxSolo : deployRequest := pxRq (Some "n1") NoIds.

Example post_solo_example :
  let '(s', res) := pxPost (pxDb (Some "10.0.0.1")) pxSolo in
  (map d_id (deployments s'), match res with Ok l => map fst l | Err _ => [] end) =
  (["d1"; "d9"], ["n1"]).
Proof. by vm_compute. Qed.

Lemma post_config_authority_witness :
  exists pl, pxPlan (pxDb (Some "10.0.0.1")) pxSolo = Ok pl /\
    obj_get (storedOf pxSolo pl) "authorisedGpuMem" = Some (JNum (Fin (1 # 2))) /\
    Modality.deploymentModality (Some (Some (JObj (storedOf pxSolo pl)))) = Modality.Image.
Proof.
  destruct (pxPlan (pxDb (Some "10.0.0.1")) pxSolo) as [pl|e] eqn:E; [|vm_compute in E; discriminate E].
  exists pl. split; [done|].
  destruct (post_config_authority _ _ _ _ _ _ _ _ _ _ _ _ E eq_refl) as [(v & Hv & Hs & _) Hm].
  rewrite Hv, Hm, <- Hs. vm_compute in E. injection E as <-. split; reflexivity.
Defined.

Definition pxPicked : picked := {| pk_ids := NoIds; pk_isCluster := false; pk_head := "n1" |}.

Lemma bumpPort_least_free_witness :
  exists p c, bumpPort (pxDb None) pxSolo p = Ok (Some c) /\ obj_get c "port" = Some (JNum (zn 8001)).
Proof.
  exists pxPicked.
  destruct (bumpPort (pxDb None) pxSolo pxPicked)
    as [config|e] eqn:E; [|vm_compute in E; discriminate E].
  destruct (bumpPort_least_free (pxDb None) pxSolo pxPicked config eq_refl eq_refl E)
    as (n & requested & port & Hj & Hr & _ & _ & _ & Hc).
  vm_compute in E. injection E as <-. injection Hj as <-. vm_compute in Hr. injection Hr as <-.
  case_bool_decide; [discriminate Hc|]. destruct Hc as (c & [= <-] & Hp & _).
  eexists. split; [reflexivity|]. reflexivity.
Defined.

Lemma post_creates_admitted_witness :
  exists row, deployments (pxPost (pxDb (Some "10.0.0.1")) pxSolo).1 =
    deployments (pxDb (Some "10.0.0.1")) ++ [row] /\ d_id row = "d9" /\ d_status row = "pending".
Proof.
  destruct (pxPost (pxDb (Some "10.0.0.1")) pxSolo) as [s' res] eqn:E.
  destruct (post_creates_admitted _ _ _ _ _ _ _ _ _ _ _ _ _ _ _ _ E)
    as [_ [(Hd & _)|(pl & row & _ & Hd & Hid & Hst & _)]].
  - exfalso. assert (length (deployments s') = 2%nat) as Hl by (vm_compute in E; by injection E as <- <-).
    rewrite Hd in Hl. discriminate Hl.
  - exists row. split; [exact Hd|]. split; [exact Hid|exact Hst].
Defined.

(** [nodeIds: "auto"] with a recipe that needs one node. *)
Example auto_one_node_refused :
  (pxPost (pxDb (Some "10.0.0.1")) (pxRq None AutoIds)).2 = Err NodeRequired.
Proof. by vm_compute. Qed.

(** The node has no address: a pending row stays, and nothing is sent. *)
Example missing_address_strands :
  let '(s', res) := pxPost (pxDb None) pxSolo in
  (map (fun d => (d_id d, d_status d)) (deployments s'), res) =
  ([("d1", "running"); ("d9", "pending")], Err PostUnhandled).
Proof. by vm_compute. Qed.

(** A text recipe keeps the caller's [modality]; and an Ollama row keeps the
    caller's [authorisedGpuMem], which no admission check has seen. *)
Example caller_keys_survive :
  Modality.deploymentModality (Some (Some (JObj (storedConfig pxSolo
    (Some [("modality", JStr "image")]) noSource None)))) = Modality.Image /\
  obj_get (storedConfig {| rq_nodeId := Some "n1"; rq_nodeIds := NoIds; rq_recipeFile := None;
      rq_recipePath := None; rq_recipeYaml := None;
      rq_config := None; rq_runtime := Some "ollama"; rq_modelName := Some "q"; rq_modelType := None;
      rq_displayName := None |} (Some [("authorisedGpuMem", JNum (zn 1))]) noSource None)
    "authorisedGpuMem" = Some (JNum (zn 1)).
Proof. by vm_compute. Qed.

(** A negative share is admitted on a node whose memory is all in use. *)
Example negative_share_admitted :
  checkVllmVramAdmission
    (Db [pxNode "n1" None] [] [] [] [MetricRow "x" "n1" 100000 None 0 None None] []) ["n1"]
    (toNum (Some (JNum (zn (-1))))) None = [].
Proof. by vm_compute. Qed.

(** ** A sparkrun recipe given by path *)

Definition pathRq : deployRequest :=
  {| rq_nodeId := Some "n2"; rq_nodeIds := NoIds; rq_recipeFile := None;
     rq_recipePath := Some "/mnt/shared/recipes/a.yaml"; rq_recipeYaml := None; rq_config := None;
     rq_runtime := None; rq_modelName := None; rq_modelType := None; rq_displayName := None |}.
Definition pathPlan : result postRefusal plan :=
  planDeploy (fun _ => Some "model: x") (fun _ => None) [] "/mnt/shared" ["repo"; "recipes"] [] [] [] []
    (pxDb None) pathRq.
Definition pathRow (pl : plan) : deployment := newRow pathRq pl "d9" "m1" 0%Z.

Lemma path_recipe_lost_on_restart_witness :
  exists pl n m, pathPlan = Ok pl /\
    Restart.planRestart (pxDb None) {| cat_recipes := []; cat_training := [] |} (pathRow pl) None =
      Ok ([(n, m)], Restart.restartPatch (pathRow pl) (storedOf pathRq pl) false None, false) /\
    match m with
    | Restart.Deploy _ _ _ _ file ref inline _ _ _ _ => file = None /\ ref = None /\ inline = None
    | _ => False end.
Proof.
  destruct pathPlan as [pl|e] eqn:E; [|vm_compute in E; discriminate E].
  destruct (Restart.planRestart (pxDb None) {| cat_recipes := []; cat_training := [] |} (pathRow pl) None)
    as [[[sends patch] dg]|e] eqn:Er; [|vm_compute in E; injection E as <-; vm_compute in Er; discriminate Er].
  assert (dg = false) as -> by (vm_compute in E; injection E as <-; vm_compute in Er; by injection Er as _ _ <-).
  destruct (path_recipe_lost_on_restart (fun _ => Some "model: x") (fun _ => None) [] "/mnt/shared"
    ["repo"; "recipes"] [] [] [] [] (pxDb None) pathRq pl "d9" None [] (pxDb None)
    {| cat_recipes := []; cat_training := [] |} (pathRow pl) None sends patch) as [_ (n & m & Hs & Hm)];
    try (vm_compute in E; injection E as <-; reflexivity); try exact Er; try exact E; try reflexivity.
  exists pl, n, m. split; [reflexivity|]. split; [|exact Hm]. rewrite Hs in Er. rewrite Er.
  do 3 f_equal. vm_compute in E. injection E as <-. vm_compute in Er. injection Er as _ <-. by vm_compute.
Defined.
