(* ===== verification/AgentHub.v ===== *)
(** The agents' side of the manager ([ws/agent-hub.ts], [ws/node-ip.ts],
    [ws/staleness.ts], [nodes/power.ts]): sockets that identify themselves, the map
    from node to socket, heartbeats, the staleness sweep, join tokens, and the
    reports that end in a table.

    A message handler is one step.  The two places where its [await]s let another
    handler in and that matters, the join token and the publishing of names, are split
    into phases.  A Prisma call that throws ends the handler in the state reached so
    far, as the [catch] around the switch does.  Payload fields have the types their
    TypeScript declarations give them. *)
From S2P Require Import Prelude JsNum Schema Admission Gateway Deployments Recipes Routes DeployRoute.
Import Vram Names Dispatch Status.

Module NodeIp.

Definition octet (s : string) : bool :=
  (1 <=? String.length s)%nat && (String.length s <=? 3)%nat && str_all is_digit s &&
  ((digits 10 0 0 s).1.1 <=? 255)%Z.

Definition isValidIpv4 (ip : option string) : bool :=
  match truthy ip with
  | None => false
  | Some s => match str_split "." s with
              | [a; b; c; d] => octet a && octet b && octet c && octet d
              | _ => false end
  end.

Definition resolveNodeIp (advertiseIp remoteIp : option string) : option string :=
  if isValidIpv4 advertiseIp then advertiseIp
  else if isValidIpv4 remoteIp then remoteIp
  else None.

(** [s.replace(sub, "")]: the first occurrence. *)
Fixpoint remove_first (sub s : string) : string :=
  match strip_prefix sub s with
  | Some r => r
  | None => match s with String c r => String c (remove_first sub r) | EmptyString => EmptyString end
  end.

End NodeIp.

Module Mac.

Definition is_hex (c : ascii) : bool := is_digit c || in_range 97 102 c.

Definition octet2 (s : string) : bool := (String.length s =? 2)%nat && str_all is_hex s.

(** [/^([0-9a-f]{2}:){5}[0-9a-f]{2}$/] *)
Definition MAC_RE (s : string) : bool :=
  (length (str_split ":" s) =? 6)%nat && forallb octet2 (str_split ":" s).

Definition normalizeMac (raw : string) : option string :=
  let m := str_lower (str_trim raw) in if MAC_RE m then Some m else None.

End Mac.

Module Staleness.

Definition STALE_THRESHOLD_MS : Z := 30000.

Definition isStale (now threshold : Z) (n : node) : bool :=
  String.eqb (n_status n) "online" &&
  match n_lastSeen n with Some t => (threshold <? now - t)%Z | None => false end.

Definition selectStaleNodes (ns : list node) (nowMs thresholdMs : Z) : list string :=
  map n_id (List.filter (isStale nowMs thresholdMs) ns).

End Staleness.

(** The [data] of an update of a node: [None] leaves the column. *)
Record node_patch := NodePatch {
  q_ip : option string; q_status : option string; q_power : option string;
  q_vramTotal : option (option Z); q_arch : option string; q_gpuModel : option (option string);
  q_agentVersion : option (option string); q_lastSeen : option Z;
  q_fastIp : option (option string); q_provision : option string; q_docker : option bool;
  q_ollama : option bool; q_mac : option string }.

Definition no_node_patch : node_patch :=
  NodePatch None None None None None None None None None None None None None.

Definition keep {A} (old : option A) (new : option A) : option A :=
  match new with Some v => Some v | None => old end.

Definition patch_node (p : node_patch) (n : node) : node :=
  Node (n_id n) (n_name n) (keep (n_ipAddress n) (q_ip p)) (default (n_status n) (q_status p))
    (default (n_powerState n) (q_power p)) (n_role n)
    (default (n_vramTotal n) (q_vramTotal p)) (keep (n_arch n) (q_arch p))
    (default (n_gpuModel n) (q_gpuModel p)) (default (n_agentVersion n) (q_agentVersion p))
    (keep (n_lastSeen n) (q_lastSeen p)) (default (n_fastIpAddress n) (q_fastIp p))
    (default (n_provisionStatus n) (q_provision p)) (default (n_dockerAvailable n) (q_docker p))
    (default (n_ollamaInstalled n) (q_ollama p)) (keep (n_macAddress n) (q_mac p)).

(** [prisma.node.update]; [None] when the row does not exist. *)
Definition node_update (id : string) (p : node_patch) (s : db) : option db :=
  match tbl_find id (nodes s) with
  | Some _ => Some (db_nodes (tbl_update id (patch_node p)) s)
  | None => None
  end.

Record join_token := JoinToken {
  jt_id : string; jt_token : string; jt_expiresAt : option Z; jt_usedAt : option Z;
  jt_usedByNodeId : option string; jt_revokedAt : option Z }.
#[export] Instance join_token_hasid : HasId join_token := jt_id.

Record training_metric := TrainingMetric {
  tm_jobId : string; tm_step : Z; tm_loss : num; tm_lr : option num; tm_evalLoss : option num }.

(** [AuditEvent] *)
Record audit_event := AuditEvent {
  au_id : string; au_nodeId : string; au_cap : string; au_cmd : option string;
  au_reason : option string; au_code : option Z; au_ts : Z }.

(** One accepted WebSocket: the closure variables of its handlers. *)
Record conn := Conn {
  c_node : option string; c_advertise : option string; c_remote : option string; c_open : bool }.

(** A registration by token that passed its checks and awaits the row writes. *)
Record tokenMsg := {
  tk_token : string; tk_hostname : option string; tk_gpuModel : option string;
  tk_vramTotal : option Z; tk_agentVersion : option string; tk_arch : option string;
  tk_fastIp : option json; tk_advertiseIp : option string }.

Record world := World {
  agents : gmap string nat; sweptOffline : gset string; conns : gmap nat conn;
  recipes : list agentRecipe; trainingRecipes : list trainingRecipe;
  ollamaModels : list Ollama.modelInfo; hfCacheInventories : gmap string json;
  w_db : db; w_tokens : list join_token; w_training : list training_metric;
  w_pending : list (nat * join_token * tokenMsg); w_audits : list audit_event }.

Definition set_agents (f : gmap string nat -> gmap string nat) (w : world) : world :=
  World (f (agents w)) (sweptOffline w) (conns w) (recipes w) (trainingRecipes w) (ollamaModels w)
    (hfCacheInventories w) (w_db w) (w_tokens w) (w_training w) (w_pending w) (w_audits w).
Definition set_swept (f : gset string -> gset string) (w : world) : world :=
  World (agents w) (f (sweptOffline w)) (conns w) (recipes w) (trainingRecipes w) (ollamaModels w)
    (hfCacheInventories w) (w_db w) (w_tokens w) (w_training w) (w_pending w) (w_audits w).
Definition set_conns (f : gmap nat conn -> gmap nat conn) (w : world) : world :=
  World (agents w) (sweptOffline w) (f (conns w)) (recipes w) (trainingRecipes w) (ollamaModels w)
    (hfCacheInventories w) (w_db w) (w_tokens w) (w_training w) (w_pending w) (w_audits w).
Definition set_catalogs (rs : list agentRecipe) (ts : list trainingRecipe)
    (ms : list Ollama.modelInfo) (w : world) : world :=
  World (agents w) (sweptOffline w) (conns w) rs ts ms
    (hfCacheInventories w) (w_db w) (w_tokens w) (w_training w) (w_pending w) (w_audits w).
Definition set_hf (f : gmap string json -> gmap string json) (w : world) : world :=
  World (agents w) (sweptOffline w) (conns w) (recipes w) (trainingRecipes w) (ollamaModels w)
    (f (hfCacheInventories w)) (w_db w) (w_tokens w) (w_training w) (w_pending w) (w_audits w).
Definition set_db (s : db) (w : world) : world :=
  World (agents w) (sweptOffline w) (conns w) (recipes w) (trainingRecipes w) (ollamaModels w)
    (hfCacheInventories w) s (w_tokens w) (w_training w) (w_pending w) (w_audits w).
Definition set_tokens (f : list join_token -> list join_token) (w : world) : world :=
  World (agents w) (sweptOffline w) (conns w) (recipes w) (trainingRecipes w) (ollamaModels w)
    (hfCacheInventories w) (w_db w) (f (w_tokens w)) (w_training w) (w_pending w) (w_audits w).
Definition set_training (f : list training_metric -> list training_metric) (w : world) : world :=
  World (agents w) (sweptOffline w) (conns w) (recipes w) (trainingRecipes w) (ollamaModels w)
    (hfCacheInventories w) (w_db w) (w_tokens w) (f (w_training w)) (w_pending w) (w_audits w).
Definition set_pending (f : list (nat * join_token * tokenMsg) -> list (nat * join_token * tokenMsg))
    (w : world) : world :=
  World (agents w) (sweptOffline w) (conns w) (recipes w) (trainingRecipes w) (ollamaModels w)
    (hfCacheInventories w) (w_db w) (w_tokens w) (w_training w) (f (w_pending w)) (w_audits w).

Definition set_audits (f : list audit_event -> list audit_event) (w : world) : world :=
  World (agents w) (sweptOffline w) (conns w) (recipes w) (trainingRecipes w) (ollamaModels w)
    (hfCacheInventories w) (w_db w) (w_tokens w) (w_training w) (w_pending w) (f (w_audits w)).

Inductive event :=
  | NodeStatus (nodeId : string) (status powerState : option string)
  | NodeCreated (nodeId name : string)
  | Rejected (ws : nat) (error : string)
  | Accepted (ws : nat) (nodeId : string)
  | Reseed | PushRegistries (nodeId : string) | PublishNames (nodeId : string)
  | PublishName (deploymentId : string)
  | Provisioned (nodeId : string)
  | NodeMetrics (nodeId : string) (timestamp : Z)
  | Evicted (deploymentId : string)
  | Report (e : effect)
  | JobEvent (kind jobId : string).

(** * Who is connected *)

Definition isAgentOnline (w : world) (nodeId : string) : bool :=
  match agents w !! nodeId with
  | Some ws => match conns w !! ws with Some c => c_open c | None => false end
  | None => false
  end.

(** The socket a message to a node goes out on; [None]: it is dropped. *)
Definition sendToAgent (w : world) (nodeId : string) : option nat :=
  if isAgentOnline w nodeId then agents w !! nodeId else None.

Definition getConnectedNodeIds (w : world) : gset string := dom (agents w).

(** The handlers of one socket. *)
Section Socket.
Context (w : world) (ws : nat) (c : conn) (now : Z).

Definition remoteIp : option string := NodeIp.remove_first "::ffff:" <$> c_remote c.

Definition archValue (a : option string) : option string :=
  match a with
  | Some a => if String.eqb a "amd64" || String.eqb a "arm64" then Some a else None
  | None => None
  end.

Definition validAdvertise (a : option string) : option string :=
  if NodeIp.isValidIpv4 a then a else None.

(** The socket says which node it is. *)
Definition identify (nodeId : string) (advertise : option string) (w : world) : world :=
  set_conns (<[ws := Conn (Some nodeId) advertise (c_remote c) (c_open c)]>)
    (set_agents (<[nodeId := ws]>) w).

(** ** [agent:register] *)

Record registerMsg := {
  rg_nodeId : string; rg_agentVersion : option string; rg_arch : option string;
  rg_fastIp : option json; rg_advertiseIp : option string; rg_gpuModel : option (option string);
  rg_vramTotal : option (option Z) }.

Definition fastIpUpdate (v : option json) : option (option string) :=
  match v with None => None | Some (JStr s) => Some (Some s) | Some _ => Some None end.

Definition registerPatch (m : registerMsg) : node_patch :=
  NodePatch (NodeIp.resolveNodeIp (validAdvertise (rg_advertiseIp m)) remoteIp) (Some "online")
    (Some "on") (rg_vramTotal m) (archValue (rg_arch m)) (rg_gpuModel m)
    (Some (truthy (rg_agentVersion m))) (Some now) (fastIpUpdate (rg_fastIp m)) None None None None.

Definition onRegister (m : registerMsg) : world * list event :=
  let id := rg_nodeId m in
  let w1 := identify id (validAdvertise (rg_advertiseIp m)) w in
  match node_update id (registerPatch m) (w_db w1) with
  | None => (w1, [])
  | Some s => (set_db s w1, [NodeStatus id (Some "online") None; Reseed; PushRegistries id; PublishNames id])
  end.

(** ** [agent:register-token] *)

Definition tokenRefusal (t : join_token) : option string :=
  if bool_decide (is_Some (jt_revokedAt t)) then Some "Token has been revoked"
  else if bool_decide (is_Some (jt_usedAt t)) then Some "Token has already been used"
  else match jt_expiresAt t with
       | Some e => if (e <? now)%Z then Some "Token has expired" else None
       | None => None
       end.

Definition checkToken (token : string) : result string join_token :=
  t ← of_option (js_find (fun t => String.eqb (jt_token t) token) (w_tokens w)) "Invalid token";
  match tokenRefusal t with Some e => Err e | None => Ok t end.

(** The checks: a refusal closes the socket, otherwise the writes follow. *)
Definition onRegisterToken (m : tokenMsg) : world * list event :=
  match checkToken (tk_token m) with
  | Err e => (set_conns (<[ws := Conn (c_node c) (c_advertise c) (c_remote c) false]>) w, [Rejected ws e])
  | Ok t => (set_pending (fun l => l ++ [(ws, t, m)]) w, [])
  end.

(** [while (true)] over the suffixes: [fuel] tries at most. *)
Definition nameCandidate (base : string) (suffix : nat) : string :=
  if (suffix =? 0)%nat then base else base +:+ "-" +:+ pretty suffix.

Fixpoint freeName (fuel : nat) (ns : list node) (base : string) (suffix : nat) : string :=
  match fuel with
  | O => nameCandidate base suffix
  | S f => if bool_decide (nameCandidate base suffix ∈ map n_name ns)
           then freeName f ns base (S suffix) else nameCandidate base suffix
  end.

Definition nodeName (m : tokenMsg) : string :=
  freeName (S (length (nodes (w_db w)))) (nodes (w_db w)) (js_or (tk_hostname m) "node") 0.

Definition tokenNode (m : tokenMsg) (newId : string) : node :=
  Node newId (nodeName m) (NodeIp.resolveNodeIp (validAdvertise (tk_advertiseIp m)) remoteIp)
    "online" "on" (Some "gpu")
    (match tk_vramTotal m with Some 0%Z => None | v => v end)
    (archValue (tk_arch m)) (truthy (tk_gpuModel m)) (truthy (tk_agentVersion m)) (Some now)
    (match tk_fastIp m with Some (JStr s) => Some s | _ => None end) "agent-deployed" true false None.

(** The writes of an accepted token. *)
Definition commitToken (t : join_token) (m : tokenMsg) (newId : string) : world * list event :=
  let n := tokenNode m newId in
  let w1 := set_db (db_nodes (fun l => l ++ [n]) (w_db w)) w in
  match tbl_find (jt_id t) (w_tokens w1) with
  | None => (set_conns (<[ws := Conn (c_node c) (validAdvertise (tk_advertiseIp m)) (c_remote c) (c_open c)]>) w1, [])
  | Some _ =>
      let use t := JoinToken (jt_id t) (jt_token t) (jt_expiresAt t) (Some now) (Some newId) (jt_revokedAt t) in
      (identify newId (validAdvertise (tk_advertiseIp m)) (set_tokens (tbl_update (jt_id t) use) w1),
       [Accepted ws newId; NodeCreated newId (n_name n); NodeStatus newId (Some "online") None;
        Reseed; PushRegistries newId])
  end.

(** ** Reports about the node itself *)

Record auditCheck := { ac_name : string; ac_status : string }.

(** [checks.find(...)?.status === "green"]: a missing check is not green. *)
Definition checkGreen (checks : list auditCheck) (name : string) : bool :=
  match js_find (fun ch => String.eqb (ac_name ch) name) checks with
  | Some ch => String.eqb (ac_status ch) "green"
  | None => false
  end.

(** An update whose failure is swallowed ([.catch(() => {})]). *)
Definition node_update_quiet (id : string) (p : node_patch) (w : world) : world :=
  match node_update id p (w_db w) with Some s => set_db s w | None => w end.

Definition onSelfAudit (nodeId : string) (checks : list auditCheck) : world * list event :=
  (node_update_quiet nodeId
     (NodePatch None None None None None None None None None (Some "agent-deployed")
        (Some (checkGreen checks "Docker")) (Some (checkGreen checks "Ollama")) None) w,
   [Provisioned nodeId]).

Definition onPowerAccepted (nodeId : string) (mac : string) : world * list event :=
  match Mac.normalizeMac mac with
  | Some m => (node_update_quiet nodeId
      (NodePatch None None None None None None None None None None None None (Some m)) w, [])
  | None => (w, [])
  end.

Definition onPowerError (nodeId : string) : world * list event :=
  (node_update_quiet nodeId
     (NodePatch None None (Some "on") None None None None None None None None None None) w,
   [NodeStatus nodeId None (Some "on")]).

(** ** Catalogs: the last report wins, whoever sends it *)

Record incomingRecipe := {
  in_file : string; in_model : option string; in_arch : option string; in_defaults : option json }.

Definition recipeArchOf (a : option string) : Arch.RecipeArch :=
  match a with
  | Some "amd64" => Arch.Amd64 | Some "arm64" => Arch.Arm64 | Some "any" => Arch.AnyArch
  | _ => Arch.Arm64
  end.

Definition onRecipes (rs : list incomingRecipe) : world * list event :=
  (set_catalogs (map (fun r => {| ar_file := in_file r; ar_model := in_model r;
                                  ar_arch := recipeArchOf (in_arch r); ar_defaults := in_defaults r |}) rs)
     (trainingRecipes w) (ollamaModels w) w, []).
Definition onTrainingRecipes (rs : list trainingRecipe) : world * list event :=
  (set_catalogs (recipes w) rs (ollamaModels w) w, []).
Definition onOllamaModels (ms : list Ollama.modelInfo) : world * list event :=
  (set_catalogs (recipes w) (trainingRecipes w) ms w, []).
Definition onHfCache (nodeId : string) (inventory : json) : world * list event :=
  (set_hf (<[nodeId := inventory]>) w, []).

(** ** [agent:ollama-status] *)

Definition activeOllama (s : db) (nodeId : string) : list (deployment * model_row) :=
  omap (fun d => m ← model_of s d;
          if String.eqb (d_nodeId d) nodeId && mem_str (d_status d) ["running"; "evicted"] &&
             String.eqb (m_runtime m) "ollama" then Some (d, m) else None) (deployments s).

(** What the report of loaded models makes of one deployment. *)
Definition ollamaPatch (loaded : list (string * Z)) (dm : deployment * model_row) :
    option (dep_patch * event) :=
  let d := dm.1 in
  match js_find (fun l : string * Z => String.prefix (m_name dm.2) l.1) loaded with
  | Some (_, vramMB) =>
      if bool_decide (d_vramActual d = Some vramMB) then None
      else Some (DepPatch (Some "running") None None None None (Some (Some vramMB)) None,
                 PublishName (d_id d))
  | None =>
      if String.eqb (d_status d) "running"
      then Some (DepPatch (Some "evicted") None None None None (Some (Some 0%Z)) None, Evicted (d_id d))
      else None
  end.

Definition onOllamaStatus (nodeId : string) (loaded : list (string * Z)) : world * list event :=
  let step := fun (acc : db * list event) (dm : deployment * model_row) =>
    match ollamaPatch loaded dm with
    | Some (p, e) => (db_deployments (tbl_update (d_id dm.1) (patch_deployment p)) acc.1, acc.2 ++ [e])
    | None => acc
    end in
  let acc := foldl step (w_db w, []) (activeOllama (w_db w) nodeId) in
  (set_db acc.1 w, acc.2).

(** ** [agent:metrics] *)

Record metricsMsg := {
  mm_vramUsed : Z; mm_tps : option Q; mm_vramTotal : option num;
  mm_sshd : option (list (string * Z)); mm_thermalsC : list Z }.

Definition sshdConns (sshd : option (list (string * Z))) : option Z :=
  (foldl (fun n kv => n + (if String.eqb kv.1 "LISTEN" then 0 else kv.2))%Z 0%Z) <$> sshd.

Definition tempC (thermals : list Z) : option Z :=
  match thermals with [] => None | t :: ts => Some (foldl Z.max t ts) end.

Definition tickPatch (m : metricsMsg) : option node_patch :=
  total ← match mm_vramTotal m with
          | Some n => if num_lt (zn 0) n then z ← as_int32 n; Some (Some (Some z)) else Some None
          | None => Some None end;
  Some (NodePatch (NodeIp.resolveNodeIp (c_advertise c) remoteIp) (Some "online") None total None
          None None (Some now) None None None None None).

(** A heartbeat: the sample, the map entry, the row, the announced recovery. *)
Definition onMetrics (nodeId : string) (m : metricsMsg) (newId : string) : world * list event :=
  match tbl_find nodeId (nodes (w_db w)) with
  | None => (w, [])                       (* the sample's foreign key *)
  | Some _ =>
      let row := MetricRow newId nodeId (mm_vramUsed m) (mm_tps m) now (sshdConns (mm_sshd m))
                   (tempC (mm_thermalsC m)) in
      let w1 := set_db (db_metrics (fun l => l ++ [row]) (w_db w)) w in
      let w2 := set_agents (<[nodeId := ws]>) w1 in
      match p ← tickPatch m; node_update nodeId p (w_db w2) with
      | None => (w2, [])
      | Some s =>
          let recovered := bool_decide (nodeId ∈ sweptOffline w2) in
          (set_swept (fun x => x ∖ {[nodeId]}) (set_db s w2),
           (if recovered then [NodeStatus nodeId (Some "online") None] else []) ++
           [NodeMetrics nodeId now])
      end
  end.

(** ** Fine-tune jobs *)

Definition job_update (id : string) (cs : list job_col) (w : world) : option world :=
  match tbl_find id (finetuneJobs (w_db w)) with
  | Some _ => Some (set_db (db_jobs (tbl_update id (patch_job cs)) (w_db w)) w)
  | None => None
  end.

Record progressMsg := {
  pm_jobId : string; pm_phase : string; pm_phaseProgress : option num; pm_step : option Z;
  pm_loss : option num; pm_lr : option num; pm_evalLoss : option num }.

(** A truncated id (12 characters) is resolved to the job it begins. *)
Definition resolveJobId (jobId : string) : string :=
  if (String.length jobId <? 20)%nat
  then default jobId (f_id <$> js_find (fun j => String.prefix jobId (f_id j)) (finetuneJobs (w_db w)))
  else jobId.

(** [upsert] on [(jobId, step)]; the foreign key refuses an unknown job. *)
Definition upsertMetric (jobId : string) (step : Z) (loss : num) (lr : option num) (w : world) : world :=
  match tbl_find jobId (finetuneJobs (w_db w)) with
  | None => w
  | Some _ =>
      let at_step t := String.eqb (tm_jobId t) jobId && (tm_step t =? step)%Z in
      set_training (fun l =>
        if existsb at_step l
        then map (fun t => if at_step t
                           then TrainingMetric (tm_jobId t) (tm_step t) loss (keep (tm_lr t) lr) (tm_evalLoss t)
                           else t) l
        else l ++ [TrainingMetric jobId step loss lr None]) w
  end.

(** The metric of the job's highest step takes the evaluation loss. *)
Definition attachEvalLoss (jobId : string) (evalLoss : num) (w : world) : world :=
  let mine := List.filter (fun t => String.eqb (tm_jobId t) jobId) (w_training w) in
  match mine with
  | [] => w
  | t :: ts =>
      let latest := foldl Z.max (tm_step t) (map tm_step ts) in
      set_training (map (fun t => if String.eqb (tm_jobId t) jobId && (tm_step t =? latest)%Z
        then TrainingMetric (tm_jobId t) (tm_step t) (tm_loss t) (tm_lr t) (Some evalLoss) else t)) w
  end.

Definition onFinetuneProgress (m : progressMsg) : world * list event :=
  let jobId := resolveJobId (pm_jobId m) in
  let training := String.eqb (pm_phase m) "training" in
  let w1 := match pm_phaseProgress m with
            | Some p => if training && num_lt (zn 0) p
                        then default w (job_update jobId [JobProgress p] w) else w
            | None => w end in
  let w2 := match pm_step m, pm_loss m with
            | Some st, Some loss => if training then upsertMetric jobId st loss (pm_lr m) w1 else w1
            | _, _ => w1 end in
  let w3 := match pm_evalLoss m with Some e => attachEvalLoss jobId e w2 | None => w2 end in
  (w3, [JobEvent "finetune:log" jobId]).

Definition jobReport (kind jobId : string) (cs : list job_col) : world * list event :=
  match job_update jobId cs w with
  | Some w' => (w', [JobEvent kind jobId])
  | None => (w, [])
  end.

Definition onFinetuneComplete (jobId status : string) (outputPath error : option string) :=
  jobReport "finetune:status" jobId
    ([JobStatus status; JobOutputPath outputPath; JobCompletedAt now] ++
     match error with Some e => [JobLogs e] | None => [] end).
Definition onMergeComplete (jobId : string) (status mergedPath : option string) :=
  jobReport "finetune:merge-status" jobId [JobMergeStatus status; JobMergedPath mergedPath].
Definition onQuantizeComplete (jobId status : string) (quantizedPath error : option string) :=
  let completed := String.eqb status "completed" in
  jobReport "finetune:quantize-status" jobId
    [JobQuantStatus (Some (if completed then "quantized" else "failed"));
     JobQuantPath (if completed then quantizedPath else None); JobQuantLog error;
     JobQuantAt (if completed then Some now else None)].

(** [agent:audit]: the row is refused, and nothing said, when there is no such node or the
    code is no integer the column takes. *)
Record auditMsg := {
  am_cap : string; am_cmd : option string; am_args : option (list string);
  am_reason : option string; am_code : option num }.

Definition onAudit (nodeId : string) (m : auditMsg) (newId : string) : world * list event :=
  let cmd := c ← am_cmd m; Some (str_join " " (c :: default [] (am_args m))) in
  match tbl_find nodeId (nodes (w_db w)), int_column (am_code m) with
  | Some _, Some code =>
      (set_audits (fun t => t ++ [AuditEvent newId nodeId (am_cap m) cmd (am_reason m) code now]) w, [])
  | _, _ => (w, [])
  end.

End Socket.

(** * The switch *)

Inductive message :=
  | Register (m : registerMsg)
  | RegisterToken (m : tokenMsg)
  | SelfAudit (checks : list auditCheck)
  | UpdateStatus
  | PowerAccepted (mac : string)
  | PowerError
  | Recipes (rs : list incomingRecipe)
  | TrainingRecipes (rs : list trainingRecipe)
  | OllamaModels (ms : list Ollama.modelInfo)
  | HfCache (inventory : json)
  | OllamaStatus (loaded : list (string * Z))
  | Metrics (m : metricsMsg)
  | DeploymentStatus (m : DeploymentStatusMessage)
  | DeploymentLog | DeploymentProgress | PullProgress
  | FinetuneProgress (m : progressMsg)
  | FinetuneComplete (jobId status : string) (outputPath error : option string)
  | MergeProgress (jobId : string)
  | MergeComplete (jobId : string) (status mergedPath : option string)
  | QuantizeProgress (jobId : string)
  | QuantizeComplete (jobId status : string) (quantizedPath error : option string)
  | AuditReport (m : auditMsg).

(** [if (!nodeId) break;] *)
Definition identified (w : world) (c : conn) (k : string -> world * list event) : world * list event :=
  match truthy (c_node c) with Some n => k n | None => (w, []) end.

Definition onMessage (w : world) (ws : nat) (msg : message) (now : Z) (newId : string)
    (fetch : string -> option response) : world * list event :=
  match conns w !! ws with
  | None => (w, [])
  | Some c =>
      match msg with
      | Register m => onRegister w ws c now m
      | RegisterToken m => onRegisterToken w ws c now m
      | SelfAudit checks => identified w c (fun n => onSelfAudit w n checks)
      | PowerAccepted mac => identified w c (fun n => onPowerAccepted w n mac)
      | PowerError => identified w c (fun n => onPowerError w n)
      | Recipes rs => onRecipes w rs
      | TrainingRecipes rs => onTrainingRecipes w rs
      | OllamaModels ms => onOllamaModels w ms
      | HfCache inv => identified w c (fun n => onHfCache w n inv)
      | OllamaStatus loaded => identified w c (fun n => onOllamaStatus w n loaded)
      | Metrics m => identified w c (fun n => onMetrics w ws c now n m newId)
      | DeploymentStatus m =>
          let '(s, es) := handleDeploymentStatus (w_db w) m fetch in (set_db s w, map Report es)
      | FinetuneProgress m => onFinetuneProgress w m
      | FinetuneComplete j st o e => onFinetuneComplete w now j st o e
      | MergeComplete j st p => onMergeComplete w j st p
      | QuantizeComplete j st p e => onQuantizeComplete w now j st p e
      | AuditReport m => identified w c (fun n => onAudit w now n m newId)
      | UpdateStatus | DeploymentLog | DeploymentProgress | PullProgress | MergeProgress _
      | QuantizeProgress _ => (w, [])
      end
  end.

(** The socket closed. *)
Definition offlinePatch : node_patch :=
  NodePatch None (Some "offline") None None None None None None None None None None None.

Definition onClose (w : world) (ws : nat) : world * list event :=
  match conns w !! ws with
  | None => (w, [])
  | Some c =>
      let w1 := set_conns (<[ws := Conn (c_node c) (c_advertise c) (c_remote c) false]>) w in
      match truthy (c_node c) with
      | None => (w1, [])
      | Some n => (node_update_quiet n offlinePatch (set_agents (delete n) w1),
                   [NodeStatus n (Some "offline") None])
      end
  end.

(** ** The staleness sweep *)

Definition sweepOne (acc : world * list event) (id : string) : world * list event :=
  (set_swept (fun x => {[id]} ∪ x) (set_agents (delete id) (node_update_quiet id offlinePatch acc.1)),
   acc.2 ++ [NodeStatus id (Some "offline") None]).

Definition sweepStale (w : world) (now : Z) : world * list event :=
  foldl sweepOne (w, [])
    (Staleness.selectStaleNodes (nodes (w_db w)) now Staleness.STALE_THRESHOLD_MS).

(** * Runs *)

(** What can happen next: a socket connects, says anything while it is open (it may
    register again, as another node: nothing in the hub forbids it), the writes of a
    token that passed its checks, a close, a sweep. *)
Inductive step : world -> world -> Prop :=
  | step_connect w ws remote :
      conns w !! ws = None ->
      step w (set_conns (<[ws := Conn None None remote true]>) w)
  | step_message w ws c msg now newId fetch :
      conns w !! ws = Some c -> c_open c = true ->
      step w (onMessage w ws msg now newId fetch).1
  | step_commit w ws c t m now newId l1 l2 :
      w_pending w = l1 ++ (ws, t, m) :: l2 -> conns w !! ws = Some c ->
      step w (commitToken (set_pending (fun _ => l1 ++ l2) w) ws c now t m newId).1
  | step_close w ws : step w (onClose w ws).1
  | step_sweep w now : step w (sweepStale w now).1.

(** A step that leaves every socket the node it said it was, as every agent process
    does. *)
Definition faithful (w w' : world) : Prop :=
  step w w' /\
  forall ws c n, conns w !! ws = Some c -> c_node c = Some n ->
    exists c', conns w' !! ws = Some c' /\ c_node c' = Some n.

Definition reachable (w0 w : world) : Prop := rtc step w0 w.

(** The manager just started: no sockets (and no audit rows yet). *)
Definition started (s : db) (tokens : list join_token) (training : list training_metric) : world :=
  World ∅ ∅ ∅ [] [] [] ∅ s tokens training [] [].
