(* ===== verification/AgentHubFacts.v ===== *)
(** The agents' map and the tables over whole runs: who an order reaches, what a
    heartbeat repairs, what the sweep does to the gateway, and what a join token
    admits. *)
From S2P Require Import Prelude JsNum Schema Admission Gateway GatewayFacts Deployments Recipes Routes DeployRoute AgentHub.
Import Vram Names Dispatch Status.

(** * Orders reach the socket of their node *)

(** Socket [ws] says it is node [n]. *)
Definition identified_as (w : world) (ws : nat) (n : string) : Prop :=
  exists c, conns w !! ws = Some c /\ c_node c = Some n.

(** What a step may add to the map: an entry for a socket that says it is that node. *)
Definition sound_entries (w w' : world) : Prop :=
  forall n ws, agents w' !! n = Some ws -> agents w !! n = Some ws \/ identified_as w' ws n.

Lemma sound_same w w' : agents w' = agents w -> sound_entries w w'.
Proof. intros E n ws. rewrite E. by left. Qed.

Lemma sound_delete w w' n : agents w' = delete n (agents w) -> sound_entries w w'.
Proof. intros E m ws. rewrite E. intros [_ H]%lookup_delete_Some. by left. Qed.

Lemma sound_identify w0 w ws c id adv :
  agents w = agents w0 -> sound_entries w0 (identify ws c id adv w).
Proof.
  intros E n ws' Ha. simpl in Ha. rewrite E in Ha.
  apply lookup_insert_Some in Ha as [[<- <-]|[_ Ha]]; [right|by left].
  eexists. simpl. by rewrite lookup_insert_eq.
Qed.

Lemma node_update_quiet_frame n p w :
  agents (node_update_quiet n p w) = agents w /\ conns (node_update_quiet n p w) = conns w.
Proof. unfold node_update_quiet. by destruct (node_update n p (w_db w)). Qed.

Lemma job_update_frame id f w w' :
  job_update id f w = Some w' -> agents w' = agents w.
Proof. unfold job_update. destruct (tbl_find _ _); by intros [= <-]. Qed.

Lemma jobReport_frame w kind id f : agents (jobReport w kind id f).1 = agents w.
Proof. unfold jobReport. destruct (job_update id f w) eqn:E; [by apply job_update_frame in E|done]. Qed.

Lemma upsertMetric_frame j st l lr w : agents (upsertMetric j st l lr w) = agents w.
Proof. unfold upsertMetric. by destruct (tbl_find _ _). Qed.

Lemma attachEvalLoss_frame j e w : agents (attachEvalLoss j e w) = agents w.
Proof. unfold attachEvalLoss. by destruct (List.filter _ _). Qed.

Lemma progress_frame w m : agents (onFinetuneProgress w m).1 = agents w.
Proof.
  unfold onFinetuneProgress. cbn [fst]. set (j := resolveJobId w (pm_jobId m)).
  set (w1 := match pm_phaseProgress m with Some p => _ | None => w end).
  assert (agents w1 = agents w) as <-.
  { unfold w1. destruct (pm_phaseProgress m) as [p|]; [|done]. destruct (_ && _); [|done].
    destruct (job_update j _ w) eqn:E; [by apply job_update_frame in E|done]. }
  clearbody w1. destruct (pm_evalLoss m); [rewrite attachEvalLoss_frame|];
    destruct (pm_step m), (pm_loss m); try done; destruct (String.eqb _ _); try done;
    apply upsertMetric_frame.
Qed.

Lemma identified_sound w c k :
  (forall n, c_node c = Some n -> sound_entries w (k n).1) -> sound_entries w (identified w c k).1.
Proof.
  unfold identified. intros Hk. destruct (truthy (c_node c)) as [n|] eqn:E; [|by apply sound_same].
  apply truthy_Some in E as [E _]. by apply Hk.
Qed.

Lemma onMetrics_sound w ws c now n m newId :
  conns w !! ws = Some c -> c_node c = Some n -> sound_entries w (onMetrics w ws c now n m newId).1.
Proof.
  intros Hc Hn. unfold onMetrics. destruct (tbl_find _ _); [|by apply sound_same].
  set (w2 := set_agents _ _).
  assert (forall w', agents w' = agents w2 -> conns w' = conns w2 -> sound_entries w w') as H.
  { intros w' Ea Ec k ws' Hk. rewrite Ea in Hk. unfold w2 in Hk. simpl in Hk.
    apply lookup_insert_Some in Hk as [[<- <-]|[_ Hk]]; [right|by left].
    exists c. by rewrite Ec. }
  destruct (tickPatch _ _ _ ≫= _); by apply H.
Qed.

Lemma onMessage_sound w ws c msg now newId fetch :
  conns w !! ws = Some c -> sound_entries w (onMessage w ws msg now newId fetch).1.
Proof.
  intros Hc. unfold onMessage. rewrite Hc.
  destruct msg; cbn [fst]; try (by apply sound_same);
    try (apply sound_same, jobReport_frame);
    try (apply identified_sound; intros n Hn; try (by apply sound_same)).
  - unfold onRegister. pose proof (sound_identify w w ws c (rg_nodeId m)
      (validAdvertise (rg_advertiseIp m)) eq_refl) as H1. by destruct (node_update _ _ _).
  - unfold onRegisterToken. by destruct (checkToken _ _ _); apply sound_same.
  - apply sound_same, node_update_quiet_frame.
  - unfold onPowerAccepted. destruct (Mac.normalizeMac mac); apply sound_same; [|done].
    apply node_update_quiet_frame.
  - apply sound_same, node_update_quiet_frame.
  - by apply onMetrics_sound.
  - destruct (handleDeploymentStatus _ _ _). by apply sound_same.
  - apply sound_same, progress_frame.
  - apply sound_same. unfold onAudit. by destruct (tbl_find _ _), (int_column (am_code m)).
Qed.

Lemma sweep_agents ids acc n ws :
  agents (foldl sweepOne acc ids).1 !! n = Some ws -> agents acc.1 !! n = Some ws.
Proof.
  revert acc. induction ids as [|id ids IH]; intros acc; [done|]. cbn [foldl]. intros H%IH.
  unfold sweepOne in H. simpl in H. rewrite (proj1 (node_update_quiet_frame _ _ _)) in H.
  by apply lookup_delete_Some in H as [_ H].
Qed.

Lemma step_entries w w' : step w w' -> sound_entries w w'.
Proof.
  intros [w0 ws remote Hn|w0 ws c msg now newId fetch Hc _|w0 ws c t m now newId l1 l2 Hp Hc|w0 ws|w0 now].
  - by apply sound_same.
  - by eapply onMessage_sound.
  - unfold commitToken. destruct (tbl_find _ _); [by apply sound_identify|by apply sound_same].
  - unfold onClose. destruct (conns w0 !! ws) as [c|]; [|by apply sound_same].
    destruct (truthy (c_node c)) as [n|]; [|by apply sound_same].
    eapply sound_delete. cbn [fst]. by rewrite (proj1 (node_update_quiet_frame _ _ _)).
  - intros n ws H. left. by eapply (sweep_agents _ (w0, [])).
Qed.

(** Every entry was made for a socket that said, then, that it was that node. *)
Lemma entries_earned s tokens training w :
  reachable (started s tokens training) w -> forall n ws, agents w !! n = Some ws ->
  exists w1, reachable (started s tokens training) w1 /\ rtc step w1 w /\ identified_as w1 ws n.
Proof.
  revert w. refine (rtc_ind_r _ _ _ _); [intros n ws Ha|intros w w' Hr Hst IH n ws Ha].
  - done.
  - destruct (step_entries _ _ Hst n ws Ha) as [Hold|Hid].
    + destruct (IH n ws Hold) as (w1 & H1 & H2 & H3). exists w1. split; [done|].
      split; [by eapply rtc_r|done].
    + exists w'. split; [by eapply rtc_r|]. split; [apply rtc_refl|done].
Qed.

Lemma entries_kept s tokens training w :
  rtc faithful (started s tokens training) w ->
  forall n ws, agents w !! n = Some ws -> identified_as w ws n.
Proof.
  revert w. refine (rtc_ind_r _ _ _ _); [intros n ws Ha|intros w w' Hr [Hst Hk] IH n ws Ha].
  - done.
  - destruct (step_entries _ _ Hst n ws Ha) as [Hold|Hid]; [|done].
    destruct (IH n ws Hold) as (c & Hc & Hn). by eapply Hk.
Qed.

(** C6: Orders reach their own node.  In every state a run of the manager reaches,
    whatever messages arrive in whatever order, sockets close, tokens are redeemed and
    sweeps happen: a message sent to a node goes out on a socket that is open and that
    identified itself as that very node at some point of the run, or is dropped.  The
    hub does not stop a socket from registering again as another node, and then keeps
    both entries; in a run in which no socket does so the socket still is that node's. *)
Theorem orders_reach_their_node s tokens training w n ws :
  reachable (started s tokens training) w -> sendToAgent w n = Some ws ->
  exists c, conns w !! ws = Some c /\ c_open c = true /\
    (exists w1, reachable (started s tokens training) w1 /\ rtc step w1 w /\ identified_as w1 ws n) /\
    (rtc faithful (started s tokens training) w -> c_node c = Some n).
Proof.
  intros Hr. unfold sendToAgent, isAgentOnline. destruct (agents w !! n) as [ws'|] eqn:Ha; [|done].
  destruct (conns w !! ws') as [c|] eqn:Hc; [|done]. destruct (c_open c) eqn:Ho; [|done].
  intros [= <-]. exists c. split; [done|]. split; [done|]. split; [by apply entries_earned|].
  intros Hf. destruct (entries_kept _ _ _ _ Hf _ _ Ha) as (c' & Hc' & Hn). congruence.
Qed.

(** * Heartbeats *)

Lemma patch_node_id p n : row_id (patch_node p n) = row_id n.
Proof. done. Qed.

Lemma node_update_find id p s s' j :
  node_update id p s = Some s' ->
  tbl_find j (nodes s') =
  if String.eqb j id then patch_node p <$> tbl_find j (nodes s) else tbl_find j (nodes s).
Proof.
  unfold node_update. destruct (tbl_find id (nodes s)); intros [= <-]. simpl.
  by rewrite tbl_find_update.
Qed.

(** The close of a socket, for the node it identified itself as. *)
Lemma onClose_spec w ws c n :
  conns w !! ws = Some c -> truthy (c_node c) = Some n ->
  let w' := (onClose w ws).1 in
  agents w' = delete n (agents w) /\ isAgentOnline w' n = false /\
  (forall ws', ws' <> ws -> conns w' !! ws' = conns w !! ws') /\
  tbl_find n (nodes (w_db w')) = patch_node offlinePatch <$> tbl_find n (nodes (w_db w)).
Proof.
  intros Hc Hn. unfold onClose. rewrite Hc, Hn. cbn [fst].
  set (w1 := set_agents _ _). destruct (node_update_quiet_frame n offlinePatch w1) as [Ha Hcn].
  split; [by rewrite Ha|]. split; [|split].
  - unfold isAgentOnline. rewrite Ha. simpl. by rewrite lookup_delete_eq.
  - intros ws' Hne. rewrite Hcn. simpl. by rewrite lookup_insert_ne.
  - unfold node_update_quiet. destruct (node_update n offlinePatch (w_db w1)) as [s|] eqn:E; simpl.
    + rewrite (node_update_find _ _ _ _ n E), String.eqb_refl. done.
    + unfold node_update in E. simpl in E. by destruct (tbl_find n (nodes (w_db w))) eqn:F.
Qed.

(** A heartbeat over the socket that is the node's makes it reachable. *)
Lemma onMetrics_spec w ws c n m now newId row p fetch :
  conns w !! ws = Some c -> c_open c = true -> truthy (c_node c) = Some n ->
  tbl_find n (nodes (w_db w)) = Some row -> tickPatch c now m = Some p ->
  let '(w', es) := onMessage w ws (Metrics m) now newId fetch in
  agents w' = <[n := ws]> (agents w) /\ sendToAgent w' n = Some ws /\
  tbl_find n (nodes (w_db w')) = Some (patch_node p row) /\
  sweptOffline w' = sweptOffline w ∖ {[n]} /\
  es = (if bool_decide (n ∈ sweptOffline w) then [NodeStatus n (Some "online") None] else []) ++
       [NodeMetrics n now].
Proof.
  intros Hc Ho Hn Hr Hp. unfold onMessage, identified, onMetrics. rewrite Hc, Hn, Hr.
  destruct (p' ← tickPatch c now m; _) as [s|] eqn:E.
  - rewrite Hp in E. cbn [mbind option_bind] in E.
    split; [done|]. split; [|split; [|done]].
    + unfold sendToAgent, isAgentOnline. simpl. by rewrite lookup_insert_eq, Hc, Ho.
    + simpl. rewrite (node_update_find _ _ _ _ n E), String.eqb_refl. simpl. by rewrite Hr.
  - rewrite Hp in E. cbn [mbind option_bind] in E. unfold node_update in E. simpl in E.
    by rewrite Hr in E.
Qed.

Lemma tickPatch_Some c now m p n :
  tickPatch c now m = Some p ->
  n_status (patch_node p n) = "online" /\ n_lastSeen (patch_node p n) = Some now /\
  n_ipAddress (patch_node p n) = keep (n_ipAddress n) (NodeIp.resolveNodeIp (c_advertise c) (remoteIp c)).
Proof. unfold tickPatch. destruct (match mm_vramTotal m with Some _ => _ | None => _ end); by intros [= <-]. Qed.

(** A late close cuts off a live agent, and the next heartbeat brings it back.
    When a node's agent has reconnected on a new socket and the old one closes
    afterwards, the node is dropped from the map and its row goes offline although
    the new socket is open: until its next heartbeat orders to it are lost.  That
    heartbeat restores the map entry, the row and the time last seen. *)
Theorem late_close_until_heartbeat w old new c c' n row m now newId p fetch :
  old <> new ->
  conns w !! old = Some c -> truthy (c_node c) = Some n ->
  conns w !! new = Some c' -> c_open c' = true -> truthy (c_node c') = Some n ->
  sendToAgent w n = Some new ->
  tbl_find n (nodes (w_db w)) = Some row -> tickPatch c' now m = Some p ->
  let w1 := (onClose w old).1 in
  (sendToAgent w1 n = None /\ conns w1 !! new = Some c' /\
   n_status <$> tbl_find n (nodes (w_db w1)) = Some "offline") /\
  let w2 := (onMessage w1 new (Metrics m) now newId fetch).1 in
  sendToAgent w2 n = Some new /\
  exists row', tbl_find n (nodes (w_db w2)) = Some row' /\ n_status row' = "online" /\
    n_lastSeen row' = Some now.
Proof.
  intros Hne Hc Hn Hc' Ho Hn' Hsend Hrow Hp.
  destruct (onClose_spec w old c n Hc Hn) as (Ha & Hoff & Hconns & Hrow').
  set (w1 := (onClose w old).1) in *. rewrite Hrow in Hrow'. cbn in Hrow'.
  split; [split; [|split]|].
  - unfold sendToAgent. by rewrite Hoff.
  - by rewrite Hconns.
  - by rewrite Hrow'.
  - rewrite <- (Hconns new) in Hc' by done.
    pose proof (onMetrics_spec w1 new c' n m now newId _ p fetch Hc' Ho Hn' Hrow' Hp) as H.
    destruct (onMessage w1 new (Metrics m) now newId fetch) as [w2 es].
    destruct H as (_ & Hs & Hr & _). split; [done|]. eexists. split; [exact Hr|].
    by destruct (tickPatch_Some c' now m p (patch_node offlinePatch row) Hp) as (? & ? & _).
Qed.

(** * The staleness sweep *)

Lemma tbl_find_quiet n p w j :
  tbl_find j (nodes (w_db (node_update_quiet n p w))) =
  if String.eqb j n then patch_node p <$> tbl_find j (nodes (w_db w))
  else tbl_find j (nodes (w_db w)).
Proof.
  unfold node_update_quiet. destruct (node_update n p (w_db w)) as [s|] eqn:E.
  - exact (node_update_find _ _ _ _ j E).
  - unfold node_update in E. destruct (tbl_find n (nodes (w_db w))) eqn:F; [done|].
    destruct (String.eqb j n) eqn:Ej; [|done]. apply String.eqb_eq in Ej as ->. by rewrite F.
Qed.

Lemma offlinePatch_idem n : patch_node offlinePatch (patch_node offlinePatch n) = patch_node offlinePatch n.
Proof. done. Qed.

Lemma sweep_fold_out ids acc n :
  n ∉ ids -> let r := foldl sweepOne acc ids in
  agents r.1 !! n = agents acc.1 !! n /\
  tbl_find n (nodes (w_db r.1)) = tbl_find n (nodes (w_db acc.1)).
Proof.
  revert acc. induction ids as [|id ids IH]; intros acc; [done|].
  intros [Hne Hout]%not_elem_of_cons. cbn [foldl]. destruct (IH (sweepOne acc id) Hout) as [-> ->].
  destruct (node_update_quiet_frame id offlinePatch acc.1) as [Hqa _].
  unfold sweepOne. cbn [fst agents set_swept set_agents w_db].
  rewrite Hqa, tbl_find_quiet, lookup_delete_ne by done. by apply String.eqb_neq in Hne as ->.
Qed.

Lemma sweep_fold_in ids acc n :
  n ∈ ids -> let r := foldl sweepOne acc ids in
  agents r.1 !! n = None /\
  tbl_find n (nodes (w_db r.1)) = patch_node offlinePatch <$> tbl_find n (nodes (w_db acc.1)).
Proof.
  revert acc. induction ids as [|id ids IH] using rev_ind; intros acc; [by intros ?%elem_of_nil|].
  intros Hn. rewrite foldl_app. cbn [foldl]. set (r := foldl sweepOne acc ids) in *.
  destruct (node_update_quiet_frame id offlinePatch r.1) as [Hqa _].
  unfold sweepOne. cbn [fst agents set_swept set_agents w_db]. rewrite Hqa, tbl_find_quiet.
  destruct (String.eqb n id) eqn:E.
  - apply String.eqb_eq in E as ->. rewrite lookup_delete_eq. split; [done|].
    destruct (decide (id ∈ ids)) as [Hin|Hout].
    + destruct (IH acc Hin) as [_ H]. fold r in H. rewrite H.
      by destruct (tbl_find id (nodes (w_db acc.1))).
    + destruct (sweep_fold_out ids acc id Hout) as [_ H]. fold r in H. by rewrite H.
  - apply String.eqb_neq in E. apply elem_of_app in Hn as [Hn|Hn%list_elem_of_singleton]; [|done].
    rewrite lookup_delete_ne by done. by apply IH.
Qed.

Lemma sweep_fold_frame ids acc :
  let r := foldl sweepOne acc ids in
  conns r.1 = conns acc.1 /\ map n_id (nodes (w_db r.1)) = map n_id (nodes (w_db acc.1)) /\
  sweptOffline r.1 = list_to_set ids ∪ sweptOffline acc.1 /\
  r.2 = acc.2 ++ map (fun id => NodeStatus id (Some "offline") None) ids.
Proof.
  revert acc. induction ids as [|id ids IH]; intros acc; cbn zeta.
  - cbn [foldl list_to_set map]. rewrite app_nil_r, (left_id_L ∅ (∪)). done.
  - cbn [foldl]. destruct (IH (sweepOne acc id)) as (-> & -> & -> & ->).
    destruct (node_update_quiet_frame id offlinePatch acc.1) as [_ Hqc].
    unfold sweepOne. cbn [fst snd conns set_swept set_agents w_db sweptOffline].
    assert (sweptOffline (node_update_quiet id offlinePatch acc.1) = sweptOffline acc.1) as ->.
    { unfold node_update_quiet. by destruct (node_update _ _ _). }
    split; [done|]. split; [|split].
    + unfold node_update_quiet, node_update. destruct (tbl_find _ _); [|done].
      apply (tbl_update_ids (A:=node)). intros r. apply patch_node_id.
    + rewrite (assoc_L (∪)), (comm_L (∪) (list_to_set ids)). done.
    + by rewrite <- app_assoc.
Qed.

Lemma elem_of_stale ns now thr id :
  id ∈ Staleness.selectStaleNodes ns now thr <->
  exists row t, row ∈ ns /\ n_id row = id /\ n_status row = "online" /\ n_lastSeen row = Some t /\
    (now - t > thr)%Z.
Proof.
  unfold Staleness.selectStaleNodes. rewrite list_elem_of_fmap. split.
  - intros (row & -> & [Hr Hs]%elem_of_filter_bool). unfold Staleness.isStale in Hs.
    apply andb_true_iff in Hs as [Ho%String.eqb_eq Hs].
    destruct (n_lastSeen row) as [t|] eqn:Ht; [|done]. exists row, t. repeat split; try done. lia.
  - intros (row & t & Hr & <- & Ho & Ht & Hgt). exists row. split; [done|].
    apply elem_of_filter_bool. split; [done|]. unfold Staleness.isStale. rewrite Ho, Ht. simpl. lia.
Qed.

(** C7: The staleness sweep is exact, and the gateway follows it.  The nodes it acts on
    are those marked online whose last heartbeat is more than 30 seconds old; each of
    them leaves the map, goes offline and is announced once; nobody else changes, a
    node that never had a heartbeat included; a second sweep at the same instant
    finds nothing; and from then on no member of any pool on such a node is eligible
    for a request. *)
Theorem sweep_exact w now :
  NoDup (map n_id (nodes (w_db w))) ->
  let stale := Staleness.selectStaleNodes (nodes (w_db w)) now Staleness.STALE_THRESHOLD_MS in
  let '(w', es) := sweepStale w now in
  (forall id, id ∈ stale <-> exists row t, row ∈ nodes (w_db w) /\ n_id row = id /\
     n_status row = "online" /\ n_lastSeen row = Some t /\ (now - t > 30000)%Z) /\
  (forall id, id ∈ stale -> isAgentOnline w' id = false /\
     n_status <$> tbl_find id (nodes (w_db w')) = Some "offline" /\ id ∈ sweptOffline w') /\
  (forall id, id ∉ stale -> isAgentOnline w' id = isAgentOnline w id /\
     tbl_find id (nodes (w_db w')) = tbl_find id (nodes (w_db w))) /\
  es = map (fun id => NodeStatus id (Some "offline") None) stale /\
  Staleness.selectStaleNodes (nodes (w_db w')) now Staleness.STALE_THRESHOLD_MS = [] /\
  (forall candidates em, em ∈ Pool.eligible (Pool.assessPool candidates (isAgentOnline w')) ->
     Pool.em_nodeId em ∉ stale).
Proof.
  intros Hnd stale. destruct (sweepStale w now) as [w' es] eqn:E.
  unfold sweepStale in E. fold stale in E.
  destruct (sweep_fold_frame stale (w, [])) as (Hc & Hids & Hsw & He).
  pose proof (sweep_fold_in stale (w, [])) as Hin. pose proof (sweep_fold_out stale (w, [])) as Hout.
  rewrite E in *. cbn [fst snd] in *.
  assert (forall id, id ∈ stale -> isAgentOnline w' id = false) as Hoff.
  { intros id Hid. unfold isAgentOnline. by destruct (Hin id Hid) as [-> _]. }
  assert (forall id, id ∈ stale -> n_status <$> tbl_find id (nodes (w_db w')) = Some "offline") as Hst.
  { intros id Hid. destruct (Hin id Hid) as [_ ->].
    apply elem_of_stale in Hid as (row & t & Hr & <- & _).
    change (n_id row) with (row_id row). by rewrite (@tbl_find_row node node_hasid _ row Hnd Hr). }
  split; [intros id; apply elem_of_stale|]. split; [|split; [|split; [|split]]].
  - intros id Hid. split; [by apply Hoff|]. split; [by apply Hst|].
    rewrite Hsw. apply elem_of_union_l. by apply elem_of_list_to_set.
  - intros id Hid. destruct (Hout id Hid) as [Ha ->]. split; [|done].
    unfold isAgentOnline. by rewrite Ha, Hc.
  - by rewrite He.
  - destruct (Staleness.selectStaleNodes (nodes (w_db w')) _ _) as [|id ids] eqn:Es; [done|].
    exfalso. assert (id ∈ Staleness.selectStaleNodes (nodes (w_db w')) now Staleness.STALE_THRESHOLD_MS)
      as (row & t & Hr & Hid & Ho & Ht & Hgt)%elem_of_stale by (rewrite Es; left).
    assert (tbl_find id (nodes (w_db w')) = Some row) as Hf.
    { rewrite <- Hid. change (n_id row) with (row_id row). apply tbl_find_row; [|done].
      change (NoDup (map n_id (nodes (w_db w')))). by rewrite Hids. }
    destruct (decide (id ∈ stale)) as [Hs|Hs].
    + specialize (Hst id Hs). rewrite Hf in Hst. injection Hst as Hst. congruence.
    + destruct (Hout id Hs) as [_ Hf']. rewrite Hf in Hf'. symmetry in Hf'.
      apply tbl_find_Some in Hf' as [Hrow _]. apply Hs, elem_of_stale. by exists row, t.
  - intros candidates em Hem Hs. destruct (assessPool_split candidates (isAgentOnline w')) as [Hel _].
    apply Hel in Hem as (c & port & ip & _ & _ & _ & _ & _ & Hon & ->). cbn in Hs.
    rewrite (Hoff _ Hs) in Hon. discriminate Hon.
Qed.

(** * Join tokens *)

Lemma nameCandidate_inj base i j : nameCandidate base i = nameCandidate base j -> i = j.
Proof.
  assert (forall k, base = base +:+ "-" +:+ pretty (S k) -> False) as Hne.
  { intros k H. apply (f_equal String.length) in H. rewrite str_length_app in H. simpl in H. lia. }
  unfold nameCandidate. destruct i as [|i], j as [|j]; cbn [Nat.eqb]; intros H; [done| | |].
  - by apply Hne in H.
  - symmetry in H. by apply Hne in H.
  - apply (inj (String.append base)), (inj (String.append "-")) in H. by apply (inj pretty) in H.
Qed.

Lemma freeName_spec fuel ns base k :
  let r := freeName fuel ns base k in
  (exists j, (k <= j <= k + fuel)%nat /\ r = nameCandidate base j) /\
  (r ∉ map n_name ns \/ forall j, (k <= j < k + fuel)%nat -> nameCandidate base j ∈ map n_name ns).
Proof.
  revert k. induction fuel as [|fuel IH]; intros k; cbn [freeName].
  - split; [exists k; split; [lia|done]|]. right. lia.
  - case_bool_decide as Hk.
    + destruct (IH (S k)) as [(j & Hj & Hr) H]. split; [exists j; split; [lia|done]|].
      destruct H as [H|H]; [by left|right]. intros i Hi.
      destruct (decide (i = k)) as [->|]; [done|]. apply H. lia.
    + split; [exists k; split; [lia|done]|by left].
Qed.

(** One more candidate than there are nodes: one of them is free. *)
Lemma freeName_fresh ns base : freeName (S (length ns)) ns base 0 ∉ map n_name ns.
Proof.
  destruct (freeName_spec (S (length ns)) ns base 0) as [_ [H|H]]; [done|]. exfalso.
  assert (length (map (nameCandidate base) (seq 0 (S (length ns)))) <= length (map n_name ns))%nat as Hl.
  { apply submseteq_length, NoDup_submseteq.
    - apply (NoDup_fmap_2_strong (nameCandidate base)); [|apply NoDup_seq].
      intros i j _ _. apply nameCandidate_inj.
    - intros x (j & -> & Hj%elem_of_seq)%list_elem_of_fmap. apply H. lia. }
  rewrite !length_map, length_seq in Hl. lia.
Qed.

Definition freshToken (now : Z) (t : join_token) : Prop :=
  jt_revokedAt t = None /\ jt_usedAt t = None /\ forall e, jt_expiresAt t = Some e -> (now <= e)%Z.

Lemma tokenRefusal_None now t : tokenRefusal now t = None <-> freshToken now t.
Proof.
  unfold tokenRefusal, freshToken. destruct (jt_revokedAt t), (jt_usedAt t); simpl;
    try (split; [discriminate|intros (? & ? & _); discriminate]).
  destruct (jt_expiresAt t) as [e|].
  - destruct (Z.ltb_spec e now); split; try done.
    + intros (_ & _ & H'). specialize (H' e eq_refl). lia.
    + intros _. repeat split. intros ? [= <-]. done.
  - by split.
Qed.

Lemma checkToken_Ok w now token t :
  checkToken w now token = Ok t <->
  js_find (fun t => String.eqb (jt_token t) token) (w_tokens w) = Some t /\ freshToken now t.
Proof.
  unfold checkToken. rewrite <- tokenRefusal_None. destruct (js_find _ _) as [t0|]; simpl.
  - destruct (tokenRefusal now t0) eqn:E; split; try done; intros H.
    + destruct H as [[= ->] H]. congruence.
    + injection H as ->. by split.
    + destruct H as [[= ->] _]. done.
  - by split; intros; destruct_and?.
Qed.

(** What the writes of an accepted token do. *)
Lemma commitToken_spec w ws c now t m newId :
  tbl_find (jt_id t) (w_tokens w) <> None ->
  let w' := (commitToken w ws c now t m newId).1 in
  nodes (w_db w') = nodes (w_db w) ++ [tokenNode w c now m newId] /\
  agents w' !! newId = Some ws /\ conns w' !! ws = Some (Conn (Some newId) (validAdvertise (tk_advertiseIp m)) (c_remote c) (c_open c)) /\
  w_tokens w' = tbl_update (jt_id t) (fun t => JoinToken (jt_id t) (jt_token t) (jt_expiresAt t) (Some now)
     (Some newId) (jt_revokedAt t)) (w_tokens w).
Proof.
  intros Ht. unfold commitToken. cbn [set_db w_tokens].
  destruct (tbl_find (jt_id t) (w_tokens w)) eqn:E; [|done]. simpl.
  by rewrite !lookup_insert_eq.
Qed.

Lemma js_find_unique {A} (f : A -> string) l x :
  NoDup (map f l) -> x ∈ l -> js_find (fun y => String.eqb (f y) (f x)) l = Some x.
Proof.
  intros Hnd Hx. destruct (js_find _ l) as [y|] eqn:E.
  - apply js_find_Some in E as [Hy Hf%String.eqb_eq]. by rewrite (NoDup_map_inj f l y x Hnd Hy Hx Hf).
  - rewrite js_find_None in E. specialize (E x Hx). by rewrite String.eqb_refl in E.
Qed.

(** C29: A join token admits one node, if its checks and its writes are not interleaved
    with another's.  A token passes exactly when it exists, is not revoked, not used
    and not expired.  Its writes add one node, online, reachable on the socket,
    under a name no node has (the search for one ends); the token is then refused
    for ever, and other tokens are unaffected.  But a second socket that passed the
    checks before those writes is admitted as well. *)
Theorem token_admission w ws c now m newId :
  NoDup (map jt_id (w_tokens w)) -> NoDup (map jt_token (w_tokens w)) -> c_open c = true ->
  (forall t, checkToken w now (tk_token m) = Ok t <->
     t ∈ w_tokens w /\ jt_token t = tk_token m /\ jt_revokedAt t = None /\ jt_usedAt t = None /\
     forall e, jt_expiresAt t = Some e -> (now <= e)%Z) /\
  forall t, checkToken w now (tk_token m) = Ok t ->
  let w' := (commitToken w ws c now t m newId).1 in
  (exists n, nodes (w_db w') = nodes (w_db w) ++ [n] /\ n_id n = newId /\ n_status n = "online" /\
     n_name n ∉ map n_name (nodes (w_db w))) /\
  sendToAgent w' newId = Some ws /\
  (forall now', ~ is_ok (checkToken w' now' (tk_token m))) /\
  (forall now' token, token <> tk_token m -> checkToken w' now' token = checkToken w now' token) /\
  (forall ws2 c2 m2 newId2, exists n n2,
     nodes (w_db (commitToken w' ws2 c2 now t m2 newId2).1) = nodes (w_db w) ++ [n; n2]).
Proof.
  intros Hid Htok Ho. split.
  { intros t. rewrite checkToken_Ok. split.
    - intros [Hf (H1 & H2 & H3)]. by apply js_find_Some in Hf as [Hin Htk%String.eqb_eq].
    - intros (Hin & <- & H). split; [by apply js_find_unique|exact H]. }
  intros t [Hf Hfresh]%checkToken_Ok w'.
  apply js_find_Some in Hf as Hin. destruct Hin as [Hin Htk%String.eqb_eq].
  assert (tbl_find (jt_id t) (w_tokens w) = Some t) as Ht.
  { change (jt_id t) with (row_id t). by apply (@tbl_find_row join_token join_token_hasid). }
  destruct (commitToken_spec w ws c now t m newId) as (Hn & Ha & Hc & Hw'); [by rewrite Ht|].
  fold w' in Hn, Ha, Hc, Hw'.
  set (use := fun t => JoinToken (jt_id t) (jt_token t) (jt_expiresAt t) (Some now) (Some newId) (jt_revokedAt t)) in *.
  assert (forall token, js_find (fun t => String.eqb (jt_token t) token) (w_tokens w') =
    (fun x => if String.eqb (jt_id x) (jt_id t) then use x else x) <$>
    js_find (fun t => String.eqb (jt_token t) token) (w_tokens w)) as Hfind.
  { intros token. rewrite Hw'. unfold tbl_update. generalize (w_tokens w). intros l.
    induction l as [|x l IH]; [done|]. cbn [map js_find]. unfold row_id, join_token_hasid in *.
    destruct (String.eqb (jt_id x) (jt_id t)) eqn:E; cbn [use jt_token];
      destruct (String.eqb (jt_token x) token); try (by rewrite IH); cbn; by rewrite E. }
  split; [|split; [|split; [|split]]].
  - eexists. split; [exact Hn|]. split; [done|]. split; [done|]. apply freeName_fresh.
  - unfold sendToAgent, isAgentOnline. by rewrite Ha, Hc, Ho.
  - intros now' [t' [Hf' (_ & Hu & _)]%checkToken_Ok]. rewrite Hfind, Hf in Hf'. cbn in Hf'.
    rewrite String.eqb_refl in Hf'. injection Hf' as <-. discriminate Hu.
  - intros now' token Hne. unfold checkToken. rewrite Hfind.
    destruct (js_find (fun t => String.eqb (jt_token t) token) (w_tokens w)) as [x|] eqn:Ex; [|done].
    apply js_find_Some in Ex as [Hx Hxt%String.eqb_eq].
    cbn [fmap option_fmap option_map]. destruct (String.eqb (jt_id x) (jt_id t)) eqn:E; [|reflexivity].
    apply String.eqb_eq, (NoDup_map_inj jt_id (w_tokens w)) in E as ->; try done. congruence.
  - intros ws2 c2 m2 newId2. eexists _, _.
    destruct (commitToken_spec w' ws2 c2 now t m2 newId2) as (Hn2 & _).
    + rewrite Hw', tbl_find_update by done. by rewrite String.eqb_refl, Ht.
    + rewrite Hn2, Hn. by rewrite <- app_assoc.
Qed.

(** * The report of loaded Ollama models *)

Lemma NoDup_omap_keys {A B} (f : A -> option B) (h : A -> string) (g : B -> string) l :
  (forall a b, f a = Some b -> g b = h a) -> NoDup (map h l) -> NoDup (map g (omap f l)).
Proof.
  intros Hk. induction l as [|a l IH]; [done|]. cbn [map]. intros [Ha Hnd]%NoDup_cons. csimpl.
  destruct (f a) as [b|] eqn:E; [|by apply IH]. cbn [map]. apply NoDup_cons. split; [|by apply IH].
  rewrite (Hk a b E). intros (y & Hy & (a' & Ha' & E')%list_elem_of_omap)%list_elem_of_fmap.
  apply Ha, list_elem_of_fmap. exists a'. split; [|done]. by rewrite Hy, (Hk a' y E').
Qed.

Section OllamaReport.
Context (loaded : list (string * Z)).

Definition ollamaStep (acc : db * list event) (dm : deployment * model_row) : db * list event :=
  match ollamaPatch loaded dm with
  | Some (p, e) => (db_deployments (tbl_update (d_id dm.1) (patch_deployment p)) acc.1, acc.2 ++ [e])
  | None => acc
  end.

Definition patched (dm : deployment * model_row) (d : deployment) : deployment :=
  match ollamaPatch loaded dm with Some (p, _) => patch_deployment p d | None => d end.

Lemma ollamaStep_find acc dm id :
  tbl_find id (deployments (ollamaStep acc dm).1) =
  if String.eqb id (d_id dm.1) then patched dm <$> tbl_find id (deployments acc.1)
  else tbl_find id (deployments acc.1).
Proof.
  unfold ollamaStep, patched. destruct (ollamaPatch loaded dm) as [[p e]|]; simpl.
  - by rewrite tbl_find_update.
  - destruct (String.eqb id (d_id dm.1)); [|done]. by destruct (tbl_find id _).
Qed.

Lemma ollama_fold_out dms acc id :
  (forall dm, dm ∈ dms -> d_id dm.1 <> id) ->
  tbl_find id (deployments (foldl ollamaStep acc dms).1) = tbl_find id (deployments acc.1).
Proof.
  revert acc. induction dms as [|dm dms IH]; intros acc H; [done|]. cbn [foldl].
  rewrite IH by (intros x Hx; apply H; by right). rewrite ollamaStep_find.
  assert (String.eqb id (d_id dm.1) = false) as ->; [|done].
  apply String.eqb_neq. intros E. by apply (H dm ltac:(by left)).
Qed.

Lemma ollama_fold_in dms acc dm :
  NoDup (map (fun x => d_id x.1) dms) -> dm ∈ dms ->
  tbl_find (d_id dm.1) (deployments (foldl ollamaStep acc dms).1) =
  patched dm <$> tbl_find (d_id dm.1) (deployments acc.1).
Proof.
  revert acc. induction dms as [|x dms IH]; intros acc; [by intros _ ?%elem_of_nil|].
  cbn [map foldl]. intros [Hx Hnd]%NoDup_cons [->|Hin]%elem_of_cons.
  - rewrite ollama_fold_out, ollamaStep_find, String.eqb_refl; [done|].
    intros y Hy E. apply Hx, list_elem_of_fmap. by exists y.
  - rewrite IH by done. rewrite ollamaStep_find.
    assert (String.eqb (d_id dm.1) (d_id x.1) = false) as ->; [|done].
    apply String.eqb_neq. intros E. apply Hx, list_elem_of_fmap. by exists dm.
Qed.

Lemma ollama_fold_frame dms acc :
  let s := (foldl ollamaStep acc dms).1 in
  nodes s = nodes acc.1 /\ models s = models acc.1 /\
  map d_id (deployments s) = map d_id (deployments acc.1).
Proof.
  revert acc. induction dms as [|dm dms IH]; intros acc; [done|]. cbn [foldl].
  destruct (IH (ollamaStep acc dm)) as (-> & -> & ->). unfold ollamaStep.
  destruct (ollamaPatch loaded dm) as [[p e]|]; [|done]. split; [done|]. split; [done|]. simpl.
  apply (tbl_update_ids (A:=deployment)). intros r. apply patch_deployment_id.
Qed.

Lemma elem_of_activeOllama s nodeId dm :
  dm ∈ activeOllama s nodeId <->
  dm.1 ∈ deployments s /\ model_of s dm.1 = Some dm.2 /\ d_nodeId dm.1 = nodeId /\
  d_status dm.1 ∈ ["running"; "evicted"] /\ m_runtime dm.2 = "ollama".
Proof.
  unfold activeOllama. rewrite list_elem_of_omap. split.
  - intros (d & Hd & H). destruct (model_of s d) as [m|] eqn:Em; [|done]. cbn in H.
    destruct (_ && _) eqn:E; [|done]. injection H as <-.
    apply andb_true_iff in E as [[En%String.eqb_eq Es%mem_str_spec]%andb_true_iff Er%String.eqb_eq].
    done.
  - destruct dm as [d m]. cbn. intros (Hd & Hm & Hn & Hs & Hr). exists d. split; [done|].
    rewrite Hm. cbn. apply String.eqb_eq in Hn, Hr. apply mem_str_spec in Hs.
    by rewrite Hn, Hs, Hr.
Qed.

Lemma activeOllama_NoDup s nodeId :
  NoDup (map d_id (deployments s)) -> NoDup (map (fun x => d_id x.1) (activeOllama s nodeId)).
Proof.
  apply (NoDup_omap_keys _ d_id (fun x : deployment * model_row => d_id x.1)).
  intros d x H. destruct (model_of s d) as [m|]; [|done]. cbn in H.
  destruct (_ && _); [|done]. by injection H as <-.
Qed.

(** What a report of loaded models makes of the rows.  Only deployments of the
    reporting node, running or evicted, of an Ollama model are touched.  One for which
    a loaded model's name begins with its own takes that model's memory and is running
    (it is left alone when it holds that figure already); one without is evicted with
    no memory, if it was running; every other row is as it was. *)
Theorem onOllamaStatus_rows w nodeId :
  NoDup (map d_id (deployments (w_db w))) ->
  let s := w_db w in
  let s' := w_db (onOllamaStatus w nodeId loaded).1 in
  map d_id (deployments s') = map d_id (deployments s) /\
  forall d, d ∈ deployments s -> exists d', tbl_find (d_id d) (deployments s') = Some d' /\
    match model_of s d with
    | Some m =>
        if String.eqb (d_nodeId d) nodeId && mem_str (d_status d) ["running"; "evicted"] &&
           String.eqb (m_runtime m) "ollama"
        then match js_find (fun l => String.prefix (m_name m) l.1) loaded with
             | Some (_, mb) => d_vramActual d' = Some mb /\
                 (d' = d \/ d_status d' = "running" /\ d_vramActual d <> Some mb)
             | None => (d_status d' = "evicted" /\ (d' = d \/ d_status d = "running" /\ d_vramActual d' = Some 0%Z))
             end
        else d' = d
    | None => d' = d
    end.
Proof.
  intros Hnd s s'. change (NoDup (map d_id (deployments s))) in Hnd.
  assert (s' = (foldl ollamaStep (s, []) (activeOllama s nodeId)).1) as -> by done.
  destruct (ollama_fold_frame (activeOllama s nodeId) (s, [])) as (_ & _ & Hids).
  split; [exact Hids|]. intros d Hd.
  assert (tbl_find (d_id d) (deployments s) = Some d) as Hf.
  { change (d_id d) with (row_id d). by apply (@tbl_find_row deployment deployment_hasid). }
  assert (forall dm, dm ∈ activeOllama s nodeId -> d_id dm.1 = d_id d -> dm.1 = d) as Huniq.
  { intros dm (Hin & _)%elem_of_activeOllama E. by apply (NoDup_map_inj d_id (deployments s)). }
  destruct (model_of s d) as [m|] eqn:Em.
  2: { exists d. split; [|done]. rewrite ollama_fold_out; [done|]. intros dm Hdm E.
       apply Huniq in E; [|done]. apply elem_of_activeOllama in Hdm as (_ & Hm & _). congruence. }
  destruct (_ && _) eqn:Ec.
  2: { exists d. split; [|done]. rewrite ollama_fold_out; [done|]. intros dm Hdm E.
       apply Huniq in E; [|done]. apply elem_of_activeOllama in Hdm as (_ & Hm & Hn & Hs & Hr).
       rewrite E, Em in Hm. injection Hm as Hm. rewrite <- Hm in Hr. rewrite E in Hn, Hs.
       apply String.eqb_eq in Hn, Hr. apply mem_str_spec in Hs. by rewrite Hn, Hs, Hr in Ec. }
  apply andb_true_iff in Ec as [[En%String.eqb_eq Es%mem_str_spec]%andb_true_iff Er%String.eqb_eq].
  exists (patched (d, m) d). split.
  - assert ((d, m) ∈ activeOllama s nodeId) as Hin by (by apply elem_of_activeOllama).
    pose proof (ollama_fold_in _ (s, []) (d, m) (activeOllama_NoDup _ _ Hnd) Hin) as H.
    cbn [fst] in H. fold s in H. by rewrite H, Hf.
  - unfold patched, ollamaPatch. cbn [fst snd].
    destruct (js_find _ loaded) as [[nm mb]|].
    + case_bool_decide; [by split; [|left]|]. split; [done|]. right. by split.
    + destruct (String.eqb (d_status d) "running") eqn:E.
      * apply String.eqb_eq in E. split; [done|]. right. by split.
      * split; [|by left]. apply elem_of_cons in Es as [Es|Es%list_elem_of_singleton]; [|done].
        by rewrite Es in E.
Qed.
End OllamaReport.

(** ** Concrete runs *)


Definition hxNode (id : string) (seen : Z) : node :=
  Node id id (Some "10.0.0.1") "online" "on" None (Some 100000%Z) None None None (Some seen) None
    "agent-deployed" true false None.
Definition hxDeployment (id model : string) : deployment :=
  Deployment id None "n1" model "running" None (Some 11434%Z) (Some model) None false None (Some 6000%Z) 0.
Definition hxDb : db :=
  Db [hxNode "n1" 100000%Z; hxNode "n2" 10000%Z] [ModelRow "m1" "llama3" "ollama" None]
     [hxDeployment "d1" "m1"] [] [] [].
Definition hxTokens : list join_token := [JoinToken "t1" "secret" (Some 200000%Z) None None None].
Definition hxStart : world := started hxDb hxTokens [].
Definition hxRegister (n : string) : message :=
  Register {| rg_nodeId := n; rg_agentVersion := Some "1.0"; rg_arch := Some "arm64"; rg_fastIp := None;
              rg_advertiseIp := None; rg_gpuModel := Some (Some "GB10"); rg_vramTotal := None |}.
Definition hxMetrics : metricsMsg :=
  {| mm_vramUsed := 1000; mm_tps := None; mm_vramTotal := Some (zn 128000);
     mm_sshd := Some [("LISTEN", 2%Z); ("ESTABLISHED", 3%Z)]; mm_thermalsC := [41%Z; 57%Z] |}.
Definition hxFetch (url : string) : option response := None.
Definition hxConnect (ws : nat) (w : world) : world :=
  set_conns (<[ws := Conn None None (Some "::ffff:10.0.0.7") true]>) w.
Definition hxSay (ws : nat) (m : message) (w : world) : world :=
  (onMessage w ws m 100500%Z "x1" hxFetch).1.

(** The agent of [n1] connects, then reconnects on a second socket. *)
Definition hxOne : world := hxSay 1 (hxRegister "n1") (hxConnect 1 hxStart).
Definition hxTwo : world := hxSay 2 (hxRegister "n1") (hxConnect 2 hxOne).

Example metrics_columns :
  (sshdConns (mm_sshd hxMetrics), tempC (mm_thermalsC hxMetrics),
   NodeIp.resolveNodeIp (Some "300.1.1.1") (Some "10.0.0.7"), Mac.normalizeMac " AA:bb:0C:11:22:3f ") =
  (Some 3%Z, Some 57%Z, Some "10.0.0.7", Some "aa:bb:0c:11:22:3f").
Proof. by vm_compute. Qed.

Lemma orders_reach_their_node_witness :
  sendToAgent hxOne "n1" = Some 1%nat /\
  exists c, conns hxOne !! 1%nat = Some c /\ c_open c = true /\ c_node c = Some "n1".
Proof.
  split; [by vm_compute|].
  assert (faithful hxStart (hxConnect 1 hxStart)) as H1.
  { split; [by apply step_connect|]. intros ws c n Hc. simpl in Hc. by rewrite lookup_empty in Hc. }
  assert (faithful (hxConnect 1 hxStart) hxOne) as H2.
  { split.
    - unfold hxOne, hxSay.
      by apply (step_message _ 1%nat (Conn None None (Some "::ffff:10.0.0.7") true)).
    - intros ws c n Hc. unfold hxConnect, set_conns, hxStart, started in Hc. simpl in Hc.
      apply lookup_insert_Some in Hc as [[_ <-]|[_ Hc]]; [done|by rewrite lookup_empty in Hc]. }
  assert (rtc faithful hxStart hxOne) as Hf by (eapply rtc_l; [exact H1|by apply rtc_once]).
  destruct (orders_reach_their_node hxDb hxTokens [] hxOne "n1" 1%nat) as (c & Hc & Ho & _ & Hn).
  - eapply rtc_l; [exact (proj1 H1)|]. apply rtc_once. exact (proj1 H2).
  - by vm_compute.
  - exists c. split; [exact Hc|]. split; [exact Ho|exact (Hn Hf)].
Defined.

(** A socket that registers a second time, as [n2], gets the orders of both. *)
Example reregistered_socket_gets_both :
  let w := hxSay 1 (hxRegister "n2") hxOne in
  (sendToAgent w "n1", sendToAgent w "n2", conns w !! 1%nat ≫= c_node) =
  (Some 1%nat, Some 1%nat, Some "n2").
Proof. by vm_compute. Qed.

Lemma late_close_until_heartbeat_witness :
  sendToAgent hxTwo "n1" = Some 2%nat /\
  sendToAgent (onClose hxTwo 1).1 "n1" = None /\
  sendToAgent (onMessage (onClose hxTwo 1).1 2 (Metrics hxMetrics) 101000%Z "x2" hxFetch).1 "n1" = Some 2%nat.
Proof.
  split; [by vm_compute|].
  destruct (tbl_find "n1" (nodes (w_db hxTwo))) as [row|] eqn:Hrow; [|vm_compute in Hrow; discriminate Hrow].
  destruct (tickPatch (Conn (Some "n1") None (Some "::ffff:10.0.0.7") true) 101000%Z hxMetrics) as [p|] eqn:Hp;
    [|vm_compute in Hp; discriminate Hp].
  destruct (late_close_until_heartbeat hxTwo 1%nat 2%nat
    (Conn (Some "n1") None (Some "::ffff:10.0.0.7") true)
    (Conn (Some "n1") None (Some "::ffff:10.0.0.7") true) "n1" row hxMetrics 101000%Z "x2" p hxFetch)
    as [(H1 & _) [H2 _]]; try done; try (by vm_compute).
Defined.

Lemma sweep_exact_witness :
  let '(w', es) := sweepStale hxTwo 100600%Z in
  isAgentOnline w' "n2" = false /\ es = [NodeStatus "n2" (Some "offline") None].
Proof.
  pose proof (sweep_exact hxTwo 100600%Z) as H.
  destruct (sweepStale hxTwo 100600%Z) as [w' es].
  destruct H as (_ & H2 & _ & H4 & _).
  - apply (bool_decide_unpack _). by vm_compute.
  - split; [|rewrite H4; by vm_compute]. apply H2. apply (bool_decide_unpack _). by vm_compute.
Defined.

Definition hxToken : tokenMsg :=
  {| tk_token := "secret"; tk_hostname := Some "n1"; tk_gpuModel := None; tk_vramTotal := None;
     tk_agentVersion := None; tk_arch := None; tk_fastIp := None; tk_advertiseIp := None |}.
Definition hxConn : conn := Conn None None None true.

Lemma token_admission_witness :
  let w' := (commitToken (hxConnect 3 hxTwo) 3 hxConn 100600%Z
               (JoinToken "t1" "secret" (Some 200000%Z) None None None) hxToken "n9").1 in
  sendToAgent w' "n9" = Some 3%nat /\ ~ is_ok (checkToken w' 100700%Z "secret").
Proof.
  destruct (token_admission (hxConnect 3 hxTwo) 3%nat hxConn 100600%Z hxToken "n9") as [Hiff H].
  - apply (bool_decide_unpack _). by vm_compute.
  - apply (bool_decide_unpack _). by vm_compute.
  - done.
  - destruct (H (JoinToken "t1" "secret" (Some 200000%Z) None None None)) as (_ & H1 & H2 & _).
    { apply Hiff. repeat split; [|intros e [= <-]; done]. apply list_elem_of_singleton. by vm_compute. }
    split; [exact H1|exact (H2 100700%Z)].
Defined.

(** [llama3] is not loaded, [llama3.1:8b] is: the deployment of [llama3] counts as
    running, with the other model's memory. *)
Lemma onOllamaStatus_rows_witness :
  exists d', tbl_find "d1" (deployments (w_db (onOllamaStatus hxTwo "n1" [("llama3.1:8b", 7000%Z)]).1)) = Some d' /\
    d_status d' = "running" /\ d_vramActual d' = Some 7000%Z.
Proof.
  destruct (onOllamaStatus_rows [("llama3.1:8b", 7000%Z)] hxTwo "n1") as [_ H].
  - apply (bool_decide_unpack _). by vm_compute.
  - destruct (H (hxDeployment "d1" "m1")) as (d' & Hd' & Hrow); [by left|].
    exists d'. split; [exact Hd'|]. vm_compute in Hrow. destruct Hrow as [Hv [Hd|[Hs _]]].
    + by rewrite Hd in Hv.
    + by split.
Defined.
