(* ===== verification/FineTune.v ===== *)
(** The fine-tune routes ([routes/finetune.ts]): create and resume, rename, stop,
    merge, quantize, deploy, delete, and the two clean-ups.

    A handler takes the tables and the request and yields the tables after it with
    the orders sent, or a refusal with the tables as they then are.  The shared
    storage root, the catalog of training recipes and the outcome of file operations
    are parameters; ids and the clock are arguments. *)
From S2P Require Import Prelude JsNum Schema Admission Gateway Deployments Recipes Routes DeployRoute.
Import Vram Names Dispatch Status.

Inductive ftOrder :=
  | FtStart (jobId recipeFile dataset outputDir : string) (config : list (string * json))
      (clusterNodeIps : option (list string)) (resumeFromCheckpoint : bool)
  | FtStop (jobId : string)
  | FtMerge (jobId baseModel : string) (adapterPath : option string) (mergedOutputDir mergeScript : string)
  | FtQuantize (jobId mergedPath quantizedOutputDir quantizeScript : string)
  | FtDeploy (m : Restart.agentMsg)
  | FtRescan.

Inductive ftRefusal :=
  | JobNotFound
  | ResumeNotFound
  | NoOutputDir
  | MissingFields
  | FtNodeRequired
  | BadDisplayNameType
  | NoFields
  | ModelNameTaken
  | NotCompleted
  | NotMerged
  | NoQuantizeScript
  | QuantizeInProgress
  | BadVariant (v : json)
  | FtShortfall (shortfalls : list VramShortfall) (share : num)
  | FtBadName (e : DisplayNameError)
  | FtNameConflict (name conflictId : string)
  | ActiveDeployments (ids : list string)
  | FtUnhandled.

Definition ft_status (r : ftRefusal) : Z :=
  match r with
  | JobNotFound | ResumeNotFound => 404
  | ModelNameTaken | QuantizeInProgress | FtShortfall _ _ | FtNameConflict _ _ | ActiveDeployments _ => 409
  | NoQuantizeScript => 501
  | FtUnhandled => 500
  | _ => 400
  end.

(** What a handler leaves behind: the tables, and its answer. *)
Definition outcome (A : Type) : Type := db * result ftRefusal A.
Definition refuse {A} (s : db) (e : ftRefusal) : outcome A := (s, Err e).

Definition job_write (id : string) (cs : list job_col) (s : db) : db :=
  db_jobs (tbl_update id (patch_job cs)) s.

(** The model row of a job. *)
Definition linkedModel (s : db) (jobId : string) : option model_row :=
  js_find (fun m => bool_decide (m_finetuneJobId m = Some jobId)) (models s).

Definition stableName (jobId : string) : string := "finetune-" +:+ str_take 8 jobId.

(** [Model.name] is unique: another row than [self] has it. *)
Definition nameTaken (s : db) (name : string) (self : option string) : bool :=
  existsb (fun m => String.eqb (m_name m) name && negb (bool_decide (Some (m_id m) = self))) (models s).

Definition renameModel (id name : string) (s : db) : db :=
  db_models (map (fun m => if String.eqb (m_id m) id
                           then ModelRow (m_id m) name (m_runtime m) (m_finetuneJobId m) else m)) s.

Section Routes.
Context (SHARED_STORAGE : string) (training : list trainingRecipe).

Definition recipeOfJob (job : finetune_job) : option trainingRecipe :=
  f ← truthy (f_recipeFile job); js_find (fun r => String.eqb (tr_file r) f) training.

(** ** [POST /api/finetune] *)

Record ftRequest := {
  fr_nodeId : option string; fr_nodeIds : option (list string); fr_recipeFile : option string;
  fr_dataset : option string; fr_config : option (list (string * json));
  fr_resumeFromJobId : option string; fr_displayName : option string }.

Definition isMultiNode (ids : option (list string)) : bool :=
  match ids with Some l => (1 <? length l)%nat | None => false end.

Definition headNode (nodeId : option string) (ids : option (list string)) : option string :=
  if isMultiNode ids then ids ≫= head else nodeId.

Definition trimmedName (v : option string) : option string :=
  match v with
  | Some n => if String.eqb (str_trim n) "" then None else Some (str_trim n)
  | None => None
  end.

(** The addresses known for the nodes, the others dropped. *)
Definition nodeIps (s : db) (ids : list string) : list string :=
  omap (fun id => n ← tbl_find id (nodes s); truthy (n_ipAddress n)) ids.

(** The job a request resumes. *)
Definition resumedJob (s : db) (rq : ftRequest) : result ftRefusal (option finetune_job) :=
  match truthy (fr_resumeFromJobId rq) with
  | None => Ok None
  | Some id =>
      j ← of_option (tbl_find id (finetuneJobs s)) ResumeNotFound;
      _ ← of_option (truthy (f_outputDir j)) NoOutputDir;
      Ok (Some j)
  end.

Record jobPlan := {
  jp_head : option string; jp_recipeFile : string; jp_dataset : string; jp_baseModel : string;
  jp_method : string; jp_config : list (string * json); jp_resume : option finetune_job }.

Definition planJob (s : db) (rq : ftRequest) : result ftRefusal jobPlan :=
  resume ← resumedJob s rq;
  let recipeFile := match truthy (fr_recipeFile rq) with Some f => Some f
                    | None => j ← resume; truthy (f_recipeFile j) end in
  let dataset := match truthy (fr_dataset rq) with Some d => Some d
                 | None => j ← resume; truthy (Some (f_dataset j)) end in
  _ ← guard_or (bool_decide (is_Some (truthy (fr_nodeId rq)) \/ is_Some (fr_nodeIds rq))) MissingFields;
  file ← of_option recipeFile MissingFields;
  ds ← of_option dataset MissingFields;
  let recipe := js_find (fun r => String.eqb (tr_file r) file) training in
  prev ← match resume with
         | Some j => match f_config j with
                     | Some (Some c) => Ok (entriesOf (Some c)) | Some None => Err FtUnhandled | None => Ok [] end
         | None => Ok [] end;
  Ok {| jp_head := headNode (fr_nodeId rq) (fr_nodeIds rq); jp_recipeFile := file; jp_dataset := ds;
        jp_baseModel := js_or (tr_baseModel <$> recipe) file;
        jp_method := js_or (tr_method <$> recipe) "lora";
        jp_config := obj_spread prev (default [] (fr_config rq)); jp_resume := resume |}.

Definition outputDirOf (p : jobPlan) (jobId : string) : string :=
  default (SHARED_STORAGE +:+ "/outputs/" +:+ jobId) (j ← jp_resume p; truthy (f_outputDir j)).

Definition newJob (rq : ftRequest) (p : jobPlan) (head jobId : string) : finetune_job :=
  FineTuneJob jobId head (trimmedName (fr_displayName rq)) "pending" None None []
    (Some (jp_recipeFile p)) (jp_baseModel p) (jp_method p) (jp_dataset p)
    (match jp_config p with [] => None | c => Some (Some (JObj c)) end)
    None (Some (outputDirOf p jobId)) None None None None None None None None.

(** A row whose head is unknown is not created; unknown workers fail the membership
    insert, and leave the pending row. *)
Definition createJob (s : db) (rq : ftRequest) (jobId : string) : outcome (string * ftOrder) :=
  match planJob s rq with
  | Err e => refuse s e
  | Ok p =>
      match (h ← jp_head p; (fun n => (h, n)) <$> tbl_find h (nodes s)) with
      | None => refuse s FtUnhandled
      | Some (head, _) =>
          let s1 := db_jobs (fun l => l ++ [newJob rq p head jobId]) s in
          let ids := default [] (fr_nodeIds rq) in
          let multi := isMultiNode (fr_nodeIds rq) in
          if multi && negb (forallb (fun id => bool_decide (is_Some (tbl_find id (nodes s)))) ids)
          then refuse s1 FtUnhandled
          else
            let s2 := if multi then job_write jobId [JobCluster ids] s1 else s1 in
            let dir := outputDirOf p jobId in
            (job_write jobId [JobStatus "starting"] s2,
             Ok (head, FtStart jobId (jp_recipeFile p) (jp_dataset p)
                         ("/workspace/outputs/" +:+ basename_acc dir dir) (jp_config p)
                         (if multi then Some (nodeIps s ids) else None)
                         (bool_decide (is_Some (jp_resume p)))))
      end
  end.

(** ** [PATCH /api/finetune/:id] *)

(** [body.displayName]: absent, or a value. *)
Definition newDisplayName (v : option json) : result ftRefusal (option string) :=
  match v with
  | None => Err NoFields
  | Some JNull => Ok None
  | Some (JStr r) => Ok (trimmedName (Some r))
  | Some _ => Err BadDisplayNameType
  end.

(** Both writes, or neither. *)
Definition renameJob (s : db) (id : string) (displayName : option json) : outcome () :=
  match tbl_find id (finetuneJobs s) with
  | None => refuse s JobNotFound
  | Some job =>
      match newDisplayName displayName with
      | Err e => refuse s e
      | Ok name =>
          let s1 := job_write id [JobName name] s in
          match linkedModel s id with
          | None => (s1, Ok ())
          | Some m =>
              let modelName := js_or name (stableName id) in
              if String.eqb (m_name m) modelName then (s1, Ok ())
              else if nameTaken s modelName (Some (m_id m)) then refuse s ModelNameTaken
              else (renameModel (m_id m) modelName s1, Ok ())
          end
      end
  end.

(** ** Stop, merge, quantize *)

Definition stopJob (s : db) (id : string) : outcome (string * ftOrder) :=
  match tbl_find id (finetuneJobs s) with
  | None => refuse s JobNotFound
  | Some job => (job_write id [JobStatus "stopping"] s, Ok (f_nodeId job, FtStop id))
  end.

Definition mergeJob (s : db) (id : string) : outcome (string * ftOrder) :=
  match tbl_find id (finetuneJobs s) with
  | None => refuse s JobNotFound
  | Some job =>
      if negb (String.eqb (f_status job) "completed") then refuse s NotCompleted
      else
        let adapter := match truthy (f_outputDir job) with
                       | Some d => Some (d +:+ "/lora_adapter") | None => f_outputPath job end in
        (job_write id [JobMergeStatus (Some "running")] s,
         Ok (f_nodeId job,
             FtMerge id (f_baseModel job) adapter (SHARED_STORAGE +:+ "/outputs/" +:+ id +:+ "/merged")
               (js_or (r ← recipeOfJob job; tr_merge r) "scripts/merge.py")))
  end.

Inductive quantizeReply :=
  | AlreadyQuantized (path : string)
  | Quantizing (path node : string) (order : ftOrder).

Definition quantizeJob (s : db) (id : string) : outcome quantizeReply :=
  match tbl_find id (finetuneJobs s) with
  | None => refuse s JobNotFound
  | Some job =>
      match truthy (f_mergedPath job), bool_decide (f_mergeStatus job = Some "completed") with
      | Some merged, true =>
          match truthy (r ← recipeOfJob job; tr_quantize r) with
          | None => refuse s NoQuantizeScript
          | Some script =>
              match opt_is (f_quantizationStatus job) "quantized", truthy (f_quantizedPath job) with
              | true, Some path => (s, Ok (AlreadyQuantized path))
              | _, _ =>
                  if opt_is (f_quantizationStatus job) "quantizing" then refuse s QuantizeInProgress
                  else
                    let dir := default (SHARED_STORAGE +:+ "/outputs/" +:+ id) (f_outputDir job) +:+ "/merged-fp8" in
                    (job_write id [JobQuantStatus (Some "quantizing"); JobQuantPath (Some dir)] s,
                     Ok (Quantizing dir (f_nodeId job) (FtQuantize id merged dir script)))
              end
          end
      | _, _ => refuse s NotMerged
      end
  end.

(** ** [POST /api/finetune/:id/deploy] *)

Record ftDeployRequest := {
  fd_nodeId : option string; fd_nodeIds : option (list string);
  fd_config : option (list (string * json)); fd_artifactVariant : option json;
  fd_displayName : option string }.

Definition deployOf (job : finetune_job) : option json := r ← recipeOfJob job; tr_deploy r.

(** [config.gpuMem || deploy.gpu_memory_utilization || 0.85] *)
Definition gpuMemForAdmission (rq : ftDeployRequest) (job : finetune_job) : option json :=
  jor (c ← fd_config rq; obj_get c "gpuMem")
    (jor (jget (deployOf job) "gpu_memory_utilization") (Some (JNum (Fin (85 # 100))))).

Definition modelPathOf (job : finetune_job) : option string :=
  match truthy (f_mergedPath job) with
  | Some p => Some p
  | None => (fun d => d +:+ "/merged") <$> truthy (f_outputDir job)
  end.

Definition deployHead (rq : ftDeployRequest) (job : finetune_job) : string :=
  if isMultiNode (fd_nodeIds rq) then default "" (fd_nodeIds rq ≫= head)
  else js_or (fd_nodeId rq) (f_nodeId job).

Definition deployTargets (rq : ftDeployRequest) (job : finetune_job) : list string :=
  if isMultiNode (fd_nodeIds rq) then default [] (fd_nodeIds rq) else [deployHead rq job].

(** Everything checked before a row is written. *)
Record ftPlan := {
  fp_path : string; fp_variant : json; fp_share : option json; fp_name : option string }.

Definition planFtDeploy (s : db) (rq : ftDeployRequest) (job : finetune_job) : result ftRefusal ftPlan :=
  _ ← guard_or (negb (String.eqb (deployHead rq job) "")) FtNodeRequired;
  _ ← match fd_artifactVariant rq with
      | Some v => guard_or (Restart.isValidVariantSlug (Some v)) (BadVariant v)
      | None => Ok () end;
  path ← of_option (modelPathOf job) NotMerged;
  _ ← guard_or (bool_decide (f_mergeStatus job = Some "completed")) NotMerged;
  let share := gpuMemForAdmission rq job in
  _ ← match checkVllmVramAdmission s (deployTargets rq job) (toNum share) None with
      | [] => Ok () | sh => Err (FtShortfall sh (toNum share)) end;
  name ← match normalizeDisplayName (fd_displayName rq) with
         | Ok n => Ok n | Err e => Err (FtBadName e) end;
  _ ← match truthy name with
      | Some n => match validateDisplayNameUnique s (Some n) None with
                  | Some c => Err (FtNameConflict n c) | None => Ok () end
      | None => Ok () end;
  Ok {| fp_path := path; fp_variant := default (JStr "default") (fd_artifactVariant rq);
        fp_share := share; fp_name := name |}.

Definition ftStoredConfig (rq : ftDeployRequest) (p : ftPlan) : list (string * json) :=
  obj_spread (default [] (fd_config rq))
    ([("localModelPath", JStr (fp_path p)); ("artifactVariant", fp_variant p)] ++
     entry "authorisedGpuMem" (fp_share p)).

(** [model.upsert] on [finetuneJobId]; [None] when the name is another row's. *)
Definition upsertModel (s : db) (job : finetune_job) (newId : string) : option (db * string) :=
  let name := js_or (f_displayName job) (stableName (f_id job)) in
  match linkedModel s (f_id job) with
  | Some m => if nameTaken s name (Some (m_id m)) then None
              else Some (renameModel (m_id m) name s, m_id m)
  | None => if nameTaken s name None then None
            else Some (db_models (fun l => l ++ [ModelRow newId name "vllm" (Some (f_id job))]) s, newId)
  end.

Definition ftClusterRows (depId : string) (ids : list string) : list cluster_node :=
  imap (fun i nid => ClusterNode (depId +:+ "-" +:+ pretty i) depId nid
          (if (i =? 0)%nat then "head" else "worker") "pending") ids.

Definition ftRow (rq : ftDeployRequest) (job : finetune_job) (p : ftPlan) (depId modelId : string) (now : Z) :
    deployment :=
  Deployment depId (fp_name p) (deployHead rq job) modelId "pending" None None None
    (Some (Some (JObj (ftStoredConfig rq p)))) (isMultiNode (fd_nodeIds rq)) None None now.

Definition ftDeployOrder (s : db) (rq : ftDeployRequest) (job : finetune_job) (p : ftPlan) (depId : string) :
    Restart.agentMsg :=
  let multi := isMultiNode (fd_nodeIds rq) in
  let ids := default [] (fd_nodeIds rq) in
  let served := js_or (fp_name p) (js_or (f_displayName job) (stableName (f_id job))) in
  Restart.FinetuneDeploy (f_id job) depId (Some (JStr (fp_path p))) (f_baseModel job)
    (jor (jget (deployOf job) "container") (Some (JStr "vllm-node"))) served (f_recipeFile job)
    (fp_variant p)
    (obj_spread (entry "gpuMem" (jget (deployOf job) "gpu_memory_utilization") ++
                 entry "maxModelLen" (jget (deployOf job) "max_model_len")) (default [] (fd_config rq)))
    (if multi then Some (map Some (nodeIps s ids)) else None)
    (if multi then Some (map (fun id => n ← tbl_find id (nodes s); n_fastIpAddress n) ids) else None).

Definition deployJob (s : db) (id : string) (rq : ftDeployRequest) (depId modelId : string) (now : Z) :
    outcome (string * Restart.agentMsg) :=
  match tbl_find id (finetuneJobs s) with
  | None => refuse s JobNotFound
  | Some job =>
      match planFtDeploy s rq job with
      | Err e => refuse s e
      | Ok p =>
          match upsertModel s job modelId with
          | None => refuse s ModelNameTaken
          | Some (s1, mid) =>
              match tbl_find (deployHead rq job) (nodes s1) with
              | None => refuse s1 FtUnhandled
              | Some _ =>
                  let s2 := db_deployments (fun l => l ++ [ftRow rq job p depId mid now]) s1 in
                  let '(s3, ok) := if isMultiNode (fd_nodeIds rq)
                    then insertClusterRows s2 (ftClusterRows depId (default [] (fd_nodeIds rq)))
                    else (s2, true) in
                  if ok then (job_write id [JobDeployment depId] s3,
                              Ok (deployHead rq job, ftDeployOrder s rq job p depId))
                  else refuse s3 FtUnhandled
              end
          end
      end
  end.

End Routes.

(** ** [DELETE /api/finetune/:id] *)

Definition FT_TERMINAL : list string := ["stopped"; "failed"; "removed"].

Definition deploymentsOf (s : db) (m : model_row) : list deployment :=
  List.filter (fun d => String.eqb (d_modelId d) (m_id m)) (deployments s).

Definition activeOf (s : db) (m : model_row) : list deployment :=
  List.filter (fun d => negb (mem_str (d_status d) FT_TERMINAL)) (deploymentsOf s m).

(** [deployment.deleteMany], cluster rows cascading. *)
Definition deleteDeployments (ids : list string) (s : db) : db :=
  db_deployments (List.filter (fun d => negb (mem_str (d_id d) ids)))
    (db_clusterNodes (List.filter (fun c => negb (mem_str (cn_deploymentId c) ids))) s).

(** [fineTuneJob.delete], its model cascading. *)
Definition deleteJobRow (id : string) (s : db) : db :=
  db_jobs (tbl_delete id)
    (db_models (List.filter (fun m => negb (bool_decide (m_finetuneJobId m = Some id)))) s).

Inductive filesOutcome := FilesUntouched | FilesRemoved | FilesKept | FilesFailed.

Record deleteJobReply := {
  dj_files : filesOutcome; dj_recipeRemoved : bool; dj_orders : list (string * ftOrder);
  dj_removedDir : option string }.

(** Other jobs that use the directory. *)
Definition otherRefs (s : db) (dir id : string) : nat :=
  length (List.filter (fun j => bool_decide (f_outputDir j = Some dir) && negb (String.eqb (f_id j) id))
            (finetuneJobs s)).

Section Delete.
Context (removeDir : string -> bool) (unlinkRecipe : bool) (connected : list string).

Definition cleanDir (s : db) (job : finetune_job) (cleanFiles : bool) : filesOutcome * option string :=
  match truthy (f_outputDir job), cleanFiles with
  | Some dir, true =>
      if (0 <? otherRefs s dir (f_id job))%nat then (FilesKept, None)
      else if removeDir dir then (FilesRemoved, Some dir) else (FilesFailed, Some dir)
  | _, _ => (FilesUntouched, None)
  end.

Definition deleteJob (s : db) (id : string) (cleanFiles : bool) : outcome deleteJobReply :=
  match tbl_find id (finetuneJobs s) with
  | None => refuse s JobNotFound
  | Some job =>
      match (m ← linkedModel s id; match activeOf s m with [] => None | l => Some l end) with
      | Some active => refuse s (ActiveDeployments (map d_id active))
      | None =>
          let s1 := match linkedModel s id with
                    | Some m => deleteDeployments (map d_id (deploymentsOf s m)) s
                    | None => s end in
          let stop := if mem_str (f_status job) ["pending"; "starting"; "running"]
                      then [(f_nodeId job, FtStop id)] else [] in
          let '(files, dir) := cleanDir s1 job cleanFiles in
          (deleteJobRow id s1,
           Ok {| dj_files := files; dj_recipeRemoved := unlinkRecipe; dj_removedDir := dir;
                 dj_orders := stop ++ (if unlinkRecipe then map (fun n => (n, FtRescan)) connected else []) |})
      end
  end.
End Delete.

(** ** The clean-ups *)

(** [/^finetune-([0-9a-z]{n})<suffix>$/]: the group. *)
Definition generatedName (n : nat) (suffix name : string) : option string :=
  r ← strip_prefix "finetune-" name;
  let id := str_take n r in
  if (String.length id =? n)%nat && str_all (fun c => is_digit c || is_lower c) id &&
     String.eqb (str_drop n r) suffix then Some id else None.

Record cleanupCounts := { backlinked : nat; deleted : nat; keptDueToDeployment : nat }.

(** One candidate: [None] when the unique constraint throws. *)
Definition cleanupOne (acc : db * cleanupCounts) (m : model_row) : option (db * cleanupCounts) :=
  let '(s, n) := acc in
  match generatedName 8 "" (m_name m) with
  | None => Some acc
  | Some prefix =>
      match js_find (fun j => String.prefix prefix (f_id j)) (finetuneJobs s) with
      | Some job =>
          match linkedModel s (f_id job) with
          | Some _ => None
          | None =>
              Some (db_models (map (fun x => if String.eqb (m_id x) (m_id m)
                      then ModelRow (m_id x) (m_name x) (m_runtime x) (Some (f_id job)) else x)) s,
                    {| backlinked := S (backlinked n); deleted := deleted n;
                       keptDueToDeployment := keptDueToDeployment n |})
          end
      | None =>
          match activeOf s m with
          | _ :: _ => Some (s, {| backlinked := backlinked n; deleted := deleted n;
                                  keptDueToDeployment := S (keptDueToDeployment n) |})
          | [] =>
              match deploymentsOf s m with
              | _ :: _ => None           (* deployments still refer to the row *)
              | [] => Some (db_models (tbl_delete (m_id m)) s,
                            {| backlinked := backlinked n; deleted := S (deleted n);
                               keptDueToDeployment := keptDueToDeployment n |})
              end
          end
      end
  end.

(** The loop, up to the first throw: the tables and counts so far, and whether it got
    to the end. *)
Fixpoint cleanupLoop (acc : db * cleanupCounts) (ms : list model_row) : db * cleanupCounts * bool :=
  match ms with
  | [] => (acc, true)
  | m :: rest => match cleanupOne acc m with
                 | None => (acc, false)
                 | Some acc' => cleanupLoop acc' rest
                 end
  end.

Definition orphanCandidates (s : db) : list model_row :=
  List.filter (fun m => bool_decide (m_finetuneJobId m = None) && String.prefix "finetune-" (m_name m))
    (models s).

Definition cleanupOrphanModels (s : db) : db * cleanupCounts * bool :=
  cleanupLoop (s, {| backlinked := 0; deleted := 0; keptDueToDeployment := 0 |}) (orphanCandidates s).

Inductive recipeFate := Unparseable | LiveRecipe | Removed | RemoveFailed.

(** What happens to one file of the recipes directory. *)
Definition recipeFateOf (s : db) (unlink : string -> bool) (name : string) : recipeFate :=
  match generatedName 12 ".yaml" name with
  | None => Unparseable
  | Some prefix =>
      if mem_str prefix (map (fun j => str_take 12 (f_id j)) (finetuneJobs s)) then LiveRecipe
      else if unlink name then Removed else RemoveFailed
  end.

Definition cleanupOrphanRecipes (s : db) (unlink : string -> bool) (entries connected : list string) :
    list (string * recipeFate) * list (string * ftOrder) :=
  let fates := map (fun n => (n, recipeFateOf s unlink n)) entries in
  (fates, if existsb (fun f => match f.2 with Removed => true | _ => false end) fates
          then map (fun n => (n, FtRescan)) connected else []).
