(* ===== verification/FineTuneFacts.v ===== *)
(** The fine-tune routes: what a deploy of a trained model is allowed to do, what a
    delete leaves, that renames are all or nothing, the guards of quantization, and
    which clean-ups can finish. *)
From S2P Require Import Prelude JsNum Schema Admission Gateway Deployments DeploymentFacts Recipes Routes DeployRoute DeployRouteFacts FineTune.
Import Vram Names Dispatch Status.

Lemma job_write_find id cs s j :
  tbl_find j (finetuneJobs (job_write id cs s)) =
  if String.eqb j id then patch_job cs <$> tbl_find j (finetuneJobs s)
  else tbl_find j (finetuneJobs s).
Proof. unfold job_write. simpl. rewrite tbl_find_update; [done|]. intros r. apply patch_job_id. Qed.

(** * Deploying a trained model *)

Section Deploy.
Context (training : list trainingRecipe).




Lemma existsb_mem {A} (p : A -> bool) l x : x ∈ l -> p x = true -> existsb p l = true.
Proof. intros Hx Hp. apply existsb_exists. exists x. by rewrite <- list_elem_of_In. Qed.





End Deploy.

(** * Renaming *)

Lemma elem_of_renameModel s id name m :
  m ∈ models (renameModel id name s) <->
  exists m0, m0 ∈ models s /\
    m = if String.eqb (m_id m0) id then ModelRow (m_id m0) name (m_runtime m0) (m_finetuneJobId m0) else m0.
Proof. unfold renameModel. simpl. rewrite list_elem_of_fmap. split; intros (x & ? & ?); eauto. Qed.

Lemma nameTaken_false s name self :
  nameTaken s name self = false <->
  forall m, m ∈ models s -> m_name m = name -> Some (m_id m) = self.
Proof.
  unfold nameTaken. rewrite <- not_true_iff_false, existsb_exists. split.
  - intros H m Hm Hn. destruct (decide (Some (m_id m) = self)) as [|Hne]; [done|].
    destruct H. exists m. split; [by apply list_elem_of_In|].
    rewrite Hn, String.eqb_refl, bool_decide_false by done. done.
  - intros H (m & Hm%list_elem_of_In & Hb). apply andb_true_iff in Hb as [Hn%String.eqb_eq Hb].
    rewrite bool_decide_true in Hb by (by apply H). done.
Qed.

(** The row of one model renamed. *)
Definition renamed (id new : string) (x : model_row) : model_row :=
  if String.eqb (m_id x) id then ModelRow (m_id x) new (m_runtime x) (m_finetuneJobId x) else x.

Lemma renamed_ids id new l : map m_id (map (renamed id new) l) = map m_id l.
Proof. rewrite map_map. apply map_ext. intros x. unfold renamed. by destruct (String.eqb (m_id x) id). Qed.

(** A fresh name for one row keeps the names distinct. *)
Lemma renamed_names id new l :
  NoDup (map m_id l) -> NoDup (map m_name l) -> (forall x, x ∈ l -> m_name x = new -> m_id x = id) ->
  NoDup (map m_name (map (renamed id new) l)).
Proof.
  induction l as [|x l IH]; intros Hid Hnd Hf; [done|]. cbn [map] in *.
  apply NoDup_cons in Hnd as [Hx Hnd], Hid as [Hxi Hid]. apply NoDup_cons.
  split; [|apply IH; [done..|]; intros y Hy; apply Hf; by right].
  rewrite map_map. intros (y & Hy & Hin)%list_elem_of_fmap. unfold renamed in Hy.
  destruct (String.eqb_spec (m_id x) id) as [Ex|Ex], (String.eqb_spec (m_id y) id) as [Ey|Ey]; cbn in Hy.
  - apply Hxi, list_elem_of_fmap. exists y. split; [congruence|done].
  - apply Ey, Hf; [by right|done].
  - apply Ex, Hf; [by left|done].
  - apply Hx, list_elem_of_fmap. by exists y.
Qed.

(** A rename is all or nothing, and keeps model names unique.  A refused one
    changes nothing.  An accepted one sets the job's display name, and the name of its
    model, if it has one, to that name or to the stable label when it is cleared; no
    other row changes, and two models never come to share a name. *)
Theorem renameJob_atomic s id v s' res :
  NoDup (map m_id (models s)) -> NoDup (map m_name (models s)) ->
  renameJob s id v = (s', res) ->
  ((exists e, res = Err e) /\ s' = s) \/
  (res = Ok () /\ exists job name,
     tbl_find id (finetuneJobs s) = Some job /\ newDisplayName v = Ok name /\
     tbl_find id (finetuneJobs s') = Some (job_set (JobName name) job) /\
     (forall j, j <> id -> tbl_find j (finetuneJobs s') = tbl_find j (finetuneJobs s)) /\
     deployments s' = deployments s /\ map m_id (models s') = map m_id (models s) /\
     match linkedModel s id with
     | None => models s' = models s
     | Some m => forall x, x ∈ models s' -> (m_id x = m_id m /\ m_name x = js_or name (stableName id)) \/
                                            (x ∈ models s /\ m_id x <> m_id m)
     end /\
     NoDup (map m_name (models s'))).
Proof.
  intros Hid Hnd. unfold renameJob. destruct (tbl_find id (finetuneJobs s)) as [job|] eqn:Ej;
    [|intros [= <- <-]; left; eauto].
  destruct (newDisplayName v) as [name|e]; [|intros [= <- <-]; left; eauto].
  set (s1 := job_write id [JobName name] s).
  assert (forall s2, finetuneJobs s2 = finetuneJobs s1 ->
    tbl_find id (finetuneJobs s2) = Some (job_set (JobName name) job) /\
    (forall j, j <> id -> tbl_find j (finetuneJobs s2) = tbl_find j (finetuneJobs s))) as Hjobs.
  { intros s2 ->. split.
    - unfold s1. by rewrite job_write_find, String.eqb_refl, Ej.
    - intros j Hj. unfold s1. rewrite job_write_find. by apply String.eqb_neq in Hj as ->. }
  destruct (linkedModel s id) as [m|] eqn:Em.
  2: { intros [= <- <-]. right. split; [done|]. exists job, name.
       destruct (Hjobs s1 eq_refl). by do 7 (split; [done|]). }
  apply js_find_Some in Em as [Hm _].
  destruct (String.eqb (m_name m) _) eqn:En.
  - intros [= <- <-]. right. split; [done|]. exists job, name. destruct (Hjobs s1 eq_refl).
    do 6 (split; [done|]). split; [|done]. intros x Hx. change (x ∈ models s) in Hx. destruct (decide (m_id x = m_id m)) as [E|Hne]; [|by right].
    left. split; [done|]. assert (x = m) as -> by exact (NoDup_map_inj m_id (models s) x m Hid Hx Hm E). by apply String.eqb_eq.
  - destruct (nameTaken _ _ _) eqn:Et; [intros [= <- <-]; left; eauto|].
    set (new := js_or name (stableName id)) in *.
    intros [= <- <-]. right. split; [done|]. exists job, name. destruct (Hjobs (renameModel (m_id m) new s1) eq_refl).
    do 5 (split; [done|]). split; [apply renamed_ids|]. split.
    + intros x (m0 & Hm0 & ->)%elem_of_renameModel. destruct (String.eqb (m_id m0) (m_id m)) eqn:E.
      * apply String.eqb_eq in E. by left.
      * apply String.eqb_neq in E. by right.
    + rewrite nameTaken_false in Et. apply renamed_names; [done..|].
      intros x Hx En'. by assert (Some (m_id x) = Some (m_id m)) as [= ?] by (by apply Et).
Qed.

(** * Quantizing *)

Lemma quantizeJob_starts storage training s id s' path n order :
  quantizeJob storage training s id = (s', Ok (Quantizing path n order)) ->
  exists job merged script r, tbl_find id (finetuneJobs s) = Some job /\
    f_mergeStatus job = Some "completed" /\ f_mergedPath job = Some merged /\ merged <> "" /\
    recipeOfJob training job = Some r /\ tr_quantize r = Some script /\ script <> "" /\
    f_quantizationStatus job <> Some "quantizing" /\
    order = FtQuantize id merged path script /\ n = f_nodeId job /\
    s' = job_write id [JobQuantStatus (Some "quantizing"); JobQuantPath (Some path)] s /\
    default (storage +:+ "/outputs/" +:+ id) (f_outputDir job) +:+ "/merged-fp8" = path.
Proof.
  unfold quantizeJob. destruct (tbl_find id (finetuneJobs s)) as [job|] eqn:Ej; [|done].
  destruct (truthy (f_mergedPath job)) as [merged|] eqn:Em; [|done].
  destruct (bool_decide (f_mergeStatus job = Some "completed")) eqn:Es; [|done].
  destruct (truthy (r ← recipeOfJob training job; tr_quantize r)) as [script|] eqn:Er; [|done].
  intros H. apply truthy_Some in Em as [Em Hmne], Er as [Er Hsne]. apply bool_decide_eq_true in Es.
  destruct (recipeOfJob training job) as [r|] eqn:Err; [|done]. cbn in Er.
  destruct (opt_is (f_quantizationStatus job) "quantizing") eqn:Hq;
    [by destruct (opt_is _ "quantized"), (truthy (f_quantizedPath job))|].
  assert (f_quantizationStatus job <> Some "quantizing") as Hne by (intros E; by rewrite E in Hq).
  destruct (opt_is (f_quantizationStatus job) "quantized"), (truthy (f_quantizedPath job)); try done;
    injection H as <- <- <- <-; by exists job, merged, script, r.
Qed.

(** Quantization starts only from a finished merge, once at a time.  A request
    orders work exactly when the job is merged with a path, its recipe declares the
    script, it is not in progress and there is no finished artifact; it then is in
    progress, and until a report arrives every further request is refused and changes
    nothing.  A failed report clears the path and lets a request through again; a
    finished one makes the request answer with the reported artifact. *)
Theorem quantizeJob_guarded storage training s id s' path n order :
  quantizeJob storage training s id = (s', Ok (Quantizing path n order)) ->
  (exists job merged script r, tbl_find id (finetuneJobs s) = Some job /\
     f_mergeStatus job = Some "completed" /\ f_mergedPath job = Some merged /\ merged <> "" /\
     recipeOfJob training job = Some r /\ tr_quantize r = Some script /\ script <> "" /\
     f_quantizationStatus job <> Some "quantizing" /\
     order = FtQuantize id merged path script /\ n = f_nodeId job) /\
  quantizeJob storage training s' id = (s', Err QuantizeInProgress) /\
  (forall log, exists order2,
     (quantizeJob storage training (job_write id [JobQuantStatus (Some "failed"); JobQuantPath None; JobQuantLog log;
        JobQuantAt None] s') id).2 = Ok (Quantizing path n order2)) /\
  (forall out log t, out <> "" ->
     (quantizeJob storage training (job_write id [JobQuantStatus (Some "quantized"); JobQuantPath (Some out); JobQuantLog log;
        JobQuantAt t] s') id).2 = Ok (AlreadyQuantized out)).
Proof.
  intros H. apply quantizeJob_starts in H as Hst.
  destruct Hst as (job & merged & script & r & Ej & Hms & Hmp & Hmne & Hr & Hs & Hsne & Hq & -> & -> & Hp & Hdir).
  split; [by exists job, merged, script, r|].
  set (started := patch_job [JobQuantStatus (Some "quantizing"); JobQuantPath (Some path)] job).
  assert (tbl_find id (finetuneJobs s') = Some started) as Ej'.
  { rewrite Hp, job_write_find, String.eqb_refl, Ej. done. }
  assert (forall j cs, tbl_find id (finetuneJobs s') = Some j ->
    tbl_find id (finetuneJobs (job_write id cs s')) = Some (patch_job cs j)) as Hw.
  { intros j cs Hj. by rewrite job_write_find, String.eqb_refl, Hj. }
  assert (forall j, f_mergedPath j = f_mergedPath job -> f_mergeStatus j = f_mergeStatus job ->
    f_recipeFile j = f_recipeFile job -> truthy (f_mergedPath j) = Some merged /\
    bool_decide (f_mergeStatus j = Some "completed") = true /\
    truthy (r ← recipeOfJob training j; tr_quantize r) = Some script) as Hk.
  { intros j -> -> Hrf. split; [by apply truthy_Some|]. split; [by apply bool_decide_eq_true|].
    apply truthy_Some. split; [|done]. unfold recipeOfJob in *. rewrite Hrf, Hr. exact Hs. }
  split; [|split].
  - unfold quantizeJob. rewrite Ej'. destruct (Hk started) as (-> & -> & ->); [by destruct job..|].
    assert (opt_is (f_quantizationStatus started) "quantized" = false) as -> by (by destruct job).
    by assert (opt_is (f_quantizationStatus started) "quantizing" = true) as -> by (by destruct job).
  - intros log. eexists. unfold quantizeJob. rewrite (Hw _ _ Ej').
    destruct (Hk (patch_job [JobQuantStatus (Some "failed"); JobQuantPath None; JobQuantLog log; JobQuantAt None] started))
      as (-> & -> & ->); [by destruct job..|].
    unfold started. destruct job; cbn in *. by rewrite Hdir.
  - intros out log t Hout. unfold quantizeJob. rewrite (Hw _ _ Ej').
    destruct (Hk (patch_job [JobQuantStatus (Some "quantized"); JobQuantPath (Some out); JobQuantLog log; JobQuantAt t] started))
      as (-> & -> & ->); [by destruct job..|].
    unfold started. destruct job; cbn in *. by destruct out.
Qed.

(** * Deleting *)

Lemma elem_of_deleteDeployments ids s d :
  d ∈ deployments (deleteDeployments ids s) <-> d ∈ deployments s /\ d_id d ∉ ids.
Proof.
  unfold deleteDeployments. simpl. rewrite elem_of_filter_bool, negb_true_iff.
  by rewrite <- not_true_iff_false, mem_str_spec.
Qed.

Lemma otherRefs_zero s dir id :
  (0 <? otherRefs s dir id)%nat = false <->
  forall j, j ∈ finetuneJobs s -> f_outputDir j = Some dir -> f_id j = id.
Proof.
  unfold otherRefs. rewrite Nat.ltb_ge. split.
  - intros H j Hj Hd. destruct (decide (f_id j = id)) as [|Hne]; [done|].
    assert (j ∈ List.filter (fun j => bool_decide (f_outputDir j = Some dir) && negb (String.eqb (f_id j) id))
      (finetuneJobs s)) as Hin.
    { apply elem_of_filter_bool. split; [done|]. rewrite bool_decide_true by done.
      by apply String.eqb_neq in Hne as ->. }
    destruct (List.filter _ _); [by apply elem_of_nil in Hin|simpl in H; lia].
  - intros H. destruct (List.filter _ _) as [|j l] eqn:E; [done|]. exfalso.
    assert (j ∈ List.filter (fun j => bool_decide (f_outputDir j = Some dir) && negb (String.eqb (f_id j) id))
      (finetuneJobs s)) as Hin by (rewrite E; left).
    apply elem_of_filter_bool in Hin as [Hj [Hd%bool_decide_eq_true Hn%negb_true_iff]%andb_true_iff].
    rewrite (H j Hj Hd), String.eqb_refl in Hn. discriminate Hn.
Qed.

(** What is left once a job's row, its model and its deployments are gone. *)
Lemma deleteJobRow_spec id s :
  let s' := deleteJobRow id s in
  tbl_find id (finetuneJobs s') = None /\ linkedModel s' id = None /\
  (forall j, j <> id -> tbl_find j (finetuneJobs s') = tbl_find j (finetuneJobs s)) /\
  (forall m, m_finetuneJobId m <> Some id -> m ∈ models s' <-> m ∈ models s) /\
  deployments s' = deployments s.
Proof.
  split; [|split; [|split; [|split]]].
  - apply tbl_find_None. intros r Hr. by apply elem_of_tbl_delete in Hr as [_ ?].
  - unfold linkedModel. apply js_find_None. intros m Hm. simpl in Hm.
    apply elem_of_filter_bool in Hm as [_ Hm]. by apply negb_true_iff in Hm.
  - intros j Hj. simpl. by apply tbl_find_delete.
  - intros m Hm. simpl. rewrite elem_of_filter_bool, bool_decide_false by done. simpl. by split; [intros [? _]|].
  - done.
Qed.

(** A delete removes the job and what hangs on it, and nothing that is in use.  It is
    refused, with nothing changed, when the job does not exist or its model has a
    deployment that is not over; those deployments are named.  Otherwise the job, its
    model and the model's deployments, all of them over, are gone, and no other row;
    a running job is told to stop; and a directory is removed only on request and only
    if no other job uses it. *)
Theorem deleteJob_spec removeDir unlinkRecipe connected s id clean s' res :
  NoDup (map d_id (deployments s)) ->
  deleteJob removeDir unlinkRecipe connected s id clean = (s', res) ->
  match res with
  | Err e => s' = s /\
      (e = JobNotFound /\ tbl_find id (finetuneJobs s) = None \/
       exists m, linkedModel s id = Some m /\ activeOf s m <> [] /\
         e = ActiveDeployments (map d_id (activeOf s m)))
  | Ok r => exists job,
      tbl_find id (finetuneJobs s) = Some job /\ tbl_find id (finetuneJobs s') = None /\
      linkedModel s' id = None /\
      (forall j, j <> id -> tbl_find j (finetuneJobs s') = tbl_find j (finetuneJobs s)) /\
      (forall m, m_finetuneJobId m <> Some id -> m ∈ models s' <-> m ∈ models s) /\
      (forall d, d ∈ deployments s' <-> d ∈ deployments s /\
         forall m, linkedModel s id = Some m -> d_modelId d <> m_id m) /\
      (forall d m, d ∈ deployments s -> linkedModel s id = Some m -> d_modelId d = m_id m ->
         d_status d ∈ FT_TERMINAL) /\
      (forall dir, dj_removedDir r = Some dir -> clean = true /\ f_outputDir job = Some dir /\
         forall j, j ∈ finetuneJobs s -> f_outputDir j = Some dir -> f_id j = id) /\
      ((f_nodeId job, FtStop id) ∈ dj_orders r <-> f_status job ∈ ["pending"; "starting"; "running"])
  end.
Proof.
  intros Hnd. unfold deleteJob. destruct (tbl_find id (finetuneJobs s)) as [job|] eqn:Ej;
    [|intros [= <- <-]; split; [done|by left]].
  assert (f_id job = id) as Hjid by (by apply tbl_find_Some in Ej as [_ ?]).
  destruct (m ← linkedModel s id; _) as [active|] eqn:Ea.
  { intros [= <- <-]. split; [done|]. right. destruct (linkedModel s id) as [m|]; [|done]. cbn in Ea.
    exists m. split; [done|]. destruct (activeOf s m); [done|]. by injection Ea as <-. }
  set (s1 := match linkedModel s id with Some m => _ | None => s end).
  destruct (cleanDir removeDir s1 job clean) as [files dir] eqn:Ec. intros [= <- <-]. exists job.
  assert (finetuneJobs s1 = finetuneJobs s /\ models s1 = models s) as [Hj1 Hm1]
    by (unfold s1; by destruct (linkedModel s id)).
  destruct (deleteJobRow_spec id s1) as (H1 & H2 & H3 & H4 & H5). rewrite Hj1 in H3. rewrite Hm1 in H4.
  split; [done|]. split; [exact H1|]. split; [exact H2|]. split; [exact H3|]. split; [exact H4|].
  split; [|split; [|split]].
  - intros d. rewrite H5. unfold s1. destruct (linkedModel s id) as [m|]; [|naive_solver].
    rewrite elem_of_deleteDeployments. unfold deploymentsOf. split.
    + intros [Hd Hn]. split; [done|]. intros ? [= <-] E. apply Hn, list_elem_of_fmap. exists d.
      split; [done|]. apply elem_of_filter_bool. split; [done|]. by apply String.eqb_eq.
    + intros [Hd Hn]. split; [done|]. intros (d' & E & Hd')%list_elem_of_fmap.
      apply elem_of_filter_bool in Hd' as [Hd' Em%String.eqb_eq].
      assert (d = d') as -> by exact (NoDup_map_inj d_id (deployments s) d d' Hnd Hd Hd' E).
      by apply (Hn m).
  - intros d m Hd Hm Hdm. rewrite Hm in Ea. cbn in Ea. destruct (activeOf s m) eqn:Eact; [|done].
    destruct (mem_str (d_status d) FT_TERMINAL) eqn:Es; [by apply mem_str_spec|]. exfalso.
    assert (d ∈ activeOf s m) as Hin; [|rewrite Eact in Hin; by apply elem_of_nil in Hin].
    apply elem_of_filter_bool. rewrite Es. split; [|done].
    apply elem_of_filter_bool. split; [done|]. by apply String.eqb_eq.
  - intros dir' Hdir. simpl in Hdir. subst dir. unfold cleanDir in Ec.
    destruct (truthy (f_outputDir job)) as [o|] eqn:Eo; [|by destruct clean]. destruct clean; [|done].
    apply truthy_Some in Eo as [Eo _]. destruct (0 <? otherRefs s1 o (f_id job))%nat eqn:Er; [done|].
    assert (o = dir') as -> by (by destruct (removeDir o); injection Ec as _ ->). split; [done|]. split; [done|].
    rewrite otherRefs_zero, Hj1, Hjid in Er. exact Er.
  - simpl. rewrite elem_of_app. split.
    + intros [Hin|Hin].
      * destruct (mem_str _ _) eqn:Es; [by apply mem_str_spec|by apply elem_of_nil in Hin].
      * destruct unlinkRecipe; [|by apply elem_of_nil in Hin].
        apply list_elem_of_fmap in Hin as (n & [=] & _).
    + intros Hs%mem_str_spec. left. rewrite Hs. left.
Qed.

(** * Cleaning up orphans *)

Section Cleanup.
Context (s0 : db).

(** What a step of the loop leaves alone. *)
Lemma cleanupOne_frame s n m s' n' :
  cleanupOne (s, n) m = Some (s', n') ->
  deployments s' = deployments s /\ finetuneJobs s' = finetuneJobs s /\ nodes s' = nodes s.
Proof.
  unfold cleanupOne. destruct (generatedName _ _ _) as [p|]; [|by intros [= <- <-]].
  destruct (js_find _ _) as [job|].
  - destruct (linkedModel _ _); [done|]. by intros [= <- <-].
  - destruct (activeOf s m); [|by intros [= <- <-]]. destruct (deploymentsOf s m); [|done].
    by intros [= <- <-].
Qed.

(** A row that stops the loop wherever it comes. *)
Definition blocks (s : db) (m : model_row) : Prop :=
  exists prefix, generatedName 8 "" (m_name m) = Some prefix /\
    (forall j, j ∈ finetuneJobs s -> String.prefix prefix (f_id j) = false) /\
    deploymentsOf s m <> [] /\ activeOf s m = [].

Lemma cleanupOne_blocks s n m : blocks s m -> cleanupOne (s, n) m = None.
Proof.
  intros (p & Hp & Hj & Hd & Ha). unfold cleanupOne. rewrite Hp.
  assert (js_find (fun j => String.prefix p (f_id j)) (finetuneJobs s) = None) as ->
    by (by apply js_find_None).
  rewrite Ha. by destruct (deploymentsOf s m).
Qed.

Lemma blocks_frame s s' m :
  deployments s' = deployments s -> finetuneJobs s' = finetuneJobs s -> blocks s m -> blocks s' m.
Proof. unfold blocks, activeOf, deploymentsOf. by intros -> ->. Qed.

Lemma cleanupLoop_spec ms s n s' n' ok :
  cleanupLoop (s, n) ms = ((s', n'), ok) ->
  deployments s' = deployments s /\ finetuneJobs s' = finetuneJobs s /\ nodes s' = nodes s /\
  (ok = true -> forall m, m ∈ ms -> ~ blocks s m).
Proof.
  revert s n. induction ms as [|m ms IH]; intros s n; cbn [cleanupLoop].
  - intros [= <- <- <-]. do 3 (split; [done|]). by intros _ m ?%elem_of_nil.
  - destruct (cleanupOne (s, n) m) as [[s1 n1]|] eqn:E; [|by intros [= <- <- <-]].
    apply cleanupOne_frame in E as Hf. destruct Hf as (Hd & Hj & Hn).
    intros (Hd' & Hj' & Hn' & Hok)%IH. split; [congruence|]. split; [congruence|]. split; [congruence|].
    intros Hok' x [->|Hx]%elem_of_cons Hb.
    + by rewrite (cleanupOne_blocks s n m Hb) in E.
    + by apply (Hok Hok' x Hx), (blocks_frame s).
Qed.

(** The orphan clean-up touches only model rows, and cannot finish while an orphan
    has only finished deployments.  Such a row (its generated name matches no job, its
    deployments are all over) is meant to be deleted, but the deployments still refer
    to it, so the delete throws and ends the whole clean-up, whatever comes after it;
    running it again stops at the same row. *)
Theorem cleanupOrphanModels_blocked :
  let '(s', n, ok) := cleanupOrphanModels s0 in
  deployments s' = deployments s0 /\ finetuneJobs s' = finetuneJobs s0 /\ nodes s' = nodes s0 /\
  (forall m, m ∈ models s0 -> m_finetuneJobId m = None -> blocks s0 m -> ok = false).
Proof.
  unfold cleanupOrphanModels. destruct (cleanupLoop _ _) as [[s' n] ok] eqn:E.
  apply cleanupLoop_spec in E as (Hd & Hj & Hn & Hok). do 3 (split; [done|]).
  intros m Hm Hf Hb. destruct ok; [|done]. exfalso. apply (Hok eq_refl m); [|done].
  apply elem_of_filter_bool. split; [done|]. rewrite bool_decide_true by done. simpl.
  destruct Hb as (p & Hp & _). unfold generatedName in Hp.
  destruct (strip_prefix "finetune-" (m_name m)) eqn:Es; [|done].
  unfold strip_prefix in Es. by destruct (String.prefix "finetune-" (m_name m)).
Qed.
End Cleanup.

(** ** Concrete runs *)


Definition fxNode (id : string) (role : string) : node :=
  Node id id (Some "10.0.0.1") "online" "on" (Some role) (Some 100000%Z) None None None None None
    "agent-deployed" true false None.
Definition fxJob (quant : option string) : finetune_job :=
  FineTuneJob "job1-abcdefgh" "n1" (Some "chat") "completed" (Some "completed") quant [] (Some "r1")
    "base" "lora" "ds" None None (Some "/out/job1") None None None (Some "/out/job1/merged") None None
    None None.
Definition fxRow (id status : string) : deployment :=
  Deployment id None "n1" "m1" status None None None None false None None 0.
Definition fxDb (status : string) : db :=
  Db [fxNode "n1" "gpu"; fxNode "e1" "eval"]
     [ModelRow "m1" "chat" "vllm" (Some "job1-abcdefgh"); ModelRow "m2" "other" "vllm" None]
     [fxRow "d1" status] [] [] [fxJob None].
Definition fxTraining : list trainingRecipe :=
  [{| tr_file := "r1"; tr_deploy := Some (JObj [("gpu_memory_utilization", JNum (Fin (1 # 2)))]);
      tr_baseModel := "base"; tr_method := "lora"; tr_merge := None; tr_quantize := Some "q.py" |}].
Definition fxDeploy (node : string) : ftDeployRequest :=
  {| fd_nodeId := Some node; fd_nodeIds := None;
     fd_config := Some [("authorisedGpuMem", JNum (zn 1)); ("localModelPath", JStr "/etc")];
     fd_artifactVariant := Some (JStr "fp8"); fd_displayName := None |}.

(** A node reserved for evaluation is given a vLLM deployment: the role is not
    looked at here. *)
Example ft_deploy_on_eval_node :
  match deployJob fxTraining (fxDb "stopped") "job1-abcdefgh" (fxDeploy "e1") "d9" "m9" 0%Z with
  | (_, Ok (n, _)) => Some n | _ => None end = Some "e1" /\
  Role.runtimeAllowedOnNode (Some "eval") "vllm" = false.
Proof. by vm_compute. Qed.

(** Stopping a finished job makes it unmergeable. *)
Example stop_completed_job :
  let s1 := (stopJob (fxDb "stopped") "job1-abcdefgh").1 in
  (mergeJob "/mnt" fxTraining s1 "job1-abcdefgh").2 = Err NotCompleted.
Proof. by vm_compute. Qed.


Lemma renameJob_atomic_witness :
  (renameJob (fxDb "stopped") "job1-abcdefgh" (Some (JStr "other"))).2 = Err ModelNameTaken /\
  (renameJob (fxDb "stopped") "job1-abcdefgh" (Some (JStr "other"))).1 = fxDb "stopped" /\
  exists j, tbl_find "job1-abcdefgh" (finetuneJobs (renameJob (fxDb "stopped") "job1-abcdefgh" (Some (JStr " new "))).1) = Some j /\
    f_displayName j = Some "new".
Proof.
  assert (NoDup (map m_id (models (fxDb "stopped")))) as H1 by (apply (bool_decide_unpack _); by vm_compute).
  assert (NoDup (map m_name (models (fxDb "stopped")))) as H2 by (apply (bool_decide_unpack _); by vm_compute).
  split; [by vm_compute|]. split.
  - destruct (renameJob (fxDb "stopped") "job1-abcdefgh" (Some (JStr "other"))) as [s' res] eqn:E.
    destruct (renameJob_atomic (fxDb "stopped") "job1-abcdefgh" (Some (JStr "other")) s' res H1 H2 E)
      as [[_ H]|[H _]]; [exact H|]. vm_compute in E. injection E as _ <-. discriminate H.
  - destruct (renameJob (fxDb "stopped") "job1-abcdefgh" (Some (JStr " new "))) as [s' res] eqn:E.
    destruct (renameJob_atomic (fxDb "stopped") "job1-abcdefgh" (Some (JStr " new ")) s' res H1 H2 E)
      as [[[e H] _]|[_ (job & name & _ & Hn & Hj & _)]].
    + vm_compute in E. injection E as _ <-. discriminate H.
    + vm_compute in Hn. injection Hn as <-. eexists. split; [exact Hj|]. by destruct job.
Defined.

Lemma quantizeJob_guarded_witness :
  exists s', quantizeJob "/mnt" fxTraining (fxDb "stopped") "job1-abcdefgh" =
      (s', Ok (Quantizing "/out/job1/merged-fp8" "n1"
        (FtQuantize "job1-abcdefgh" "/out/job1/merged" "/out/job1/merged-fp8" "q.py"))) /\
    (quantizeJob "/mnt" fxTraining s' "job1-abcdefgh").2 = Err QuantizeInProgress.
Proof.
  eexists. split; [by vm_compute|].
  match goal with |- (quantizeJob _ _ ?s _).2 = _ =>
    destruct (quantizeJob_guarded "/mnt" fxTraining (fxDb "stopped") "job1-abcdefgh" s "/out/job1/merged-fp8"
      "n1" (FtQuantize "job1-abcdefgh" "/out/job1/merged" "/out/job1/merged-fp8" "q.py")) as (_ & H & _)
  end; [by vm_compute|]. by rewrite H.
Defined.

Lemma deleteJob_spec_witness :
  (deleteJob (fun _ => true) false [] (fxDb "running") "job1-abcdefgh" true).2 = Err (ActiveDeployments ["d1"]) /\
  (deleteJob (fun _ => true) false [] (fxDb "running") "job1-abcdefgh" true).1 = fxDb "running" /\
  linkedModel (deleteJob (fun _ => true) false [] (fxDb "stopped") "job1-abcdefgh" true).1 "job1-abcdefgh" = None.
Proof.
  split; [by vm_compute|]. split.
  - destruct (deleteJob (fun _ => true) false [] (fxDb "running") "job1-abcdefgh" true) as [s' res] eqn:E.
    pose proof (deleteJob_spec (fun _ => true) false [] (fxDb "running") "job1-abcdefgh" true s' res) as H.
    destruct res as [r|e]; [vm_compute in E; discriminate E|]. apply H; [|exact E].
    apply (bool_decide_unpack _). by vm_compute.
  - destruct (deleteJob (fun _ => true) false [] (fxDb "stopped") "job1-abcdefgh" true) as [s' res] eqn:E.
    pose proof (deleteJob_spec (fun _ => true) false [] (fxDb "stopped") "job1-abcdefgh" true s' res) as H.
    destruct res as [r|e]; [|vm_compute in E; discriminate E].
    destruct H as (job & _ & _ & Hl & _); [|exact E|exact Hl]. apply (bool_decide_unpack _). by vm_compute.
Defined.

(** Two orphans; the first has a stopped deployment, so the second is never reached. *)
Definition fxOrphans : db :=
  Db [fxNode "n1" "gpu"] [ModelRow "m1" "finetune-00000000" "vllm" None; ModelRow "m2" "finetune-11111111" "vllm" None]
     [fxRow "d1" "stopped"] [] [] [].

Lemma cleanupOrphanModels_blocked_witness :
  let '(s', n, ok) := cleanupOrphanModels fxOrphans in ok = false /\ deleted n = 0%nat /\ s' = fxOrphans.
Proof.
  pose proof (cleanupOrphanModels_blocked fxOrphans) as H.
  destruct (cleanupOrphanModels fxOrphans) as [[s' n] ok] eqn:E. destruct H as (_ & _ & _ & H).
  split.
  - apply (H (ModelRow "m1" "finetune-00000000" "vllm" None)); [by left|done|].
    exists "00000000". split; [by vm_compute|]. split; [by intros j ?%elem_of_nil|]. by split.
  - vm_compute in E. injection E as <- <- <-. by split.
Defined.
