(* ===== verification/NodeOps.v ===== *)
(** Operations on nodes: power commands and agent versions ([nodes/power.ts]), Wake-on-LAN
    ([nodes/wol.ts]), the plan of a bulk agent update ([nodes/agent-update.ts]), and the
    requests the manager makes of an agent ([caps/cap-client.ts]). *)
From S2P Require Import Prelude JsNum Schema AgentHub.

Module Power.

Inductive PowerAction := Reboot | Shutdown | Sleep.

Definition COMMANDS (a : PowerAction) : string :=
  match a with
  | Reboot => "sudo systemctl --no-block reboot"
  | Shutdown => "sudo systemctl --no-block poweroff"
  | Sleep => "sudo systemctl suspend"
  end.

Definition powerCommand (a : PowerAction) (force : bool) : string :=
  match a, force with
  | Reboot, true => "sudo systemctl --force --force reboot"
  | Shutdown, true => "sudo systemctl --force --force poweroff"
  | _, _ => COMMANDS a
  end.

Definition MIN_AGENT_POWER_VERSION : string := "0.5.645".

(** [parseInt(n, 10) || 0] *)
Definition segment (s : string) : Z :=
  let t := trim_left s in
  match t with
  | String "-" r => (- (digits 10 0 0 r).1.1)%Z
  | String "+" r => (digits 10 0 0 r).1.1
  | _ => (digits 10 0 0 t).1.1
  end.

Definition segments (v : string) : list Z := map segment (str_split "." v).

(** The loop over the positions of the longer list, absent ones reading zero. *)
Fixpoint gteFrom (fuel : nat) (a b : list Z) : bool :=
  match fuel with
  | O => true
  | S f =>
      let x := default 0%Z (head a) in
      let y := default 0%Z (head b) in
      if (y <? x)%Z then true else if (x <? y)%Z then false else gteFrom f (tail a) (tail b)
  end.

Definition versionGte (version : option string) (min : string) : bool :=
  match truthy version with
  | None => false
  | Some v => gteFrom (Nat.max (length (segments v)) (length (segments min))) (segments v) (segments min)
  end.

Definition agentSupportsPower (version : option string) : bool :=
  versionGte version MIN_AGENT_POWER_VERSION.

(** The remote commands that embed an address; [None] when the code throws. *)
Definition dquote : string := String dq "".
Definition findInterface (ip : string) : string :=
  "ifc=$(ip -o -4 addr show | awk -v ip=" +:+ dquote +:+ ip +:+ dquote +:+ " '$4 ~ " +:+ dquote +:+ "^" +:+
  dquote +:+ "ip" +:+ dquote +:+ "/" +:+ dquote +:+ " {print $2; exit}'); ".

Definition macCaptureCmd (ip : string) : option string :=
  if NodeIp.isValidIpv4 (Some ip)
  then Some (findInterface ip +:+ "cat /sys/class/net/" +:+ dquote +:+ "$ifc" +:+ dquote +:+
             "/address 2>/dev/null")
  else None.

Definition wolArmCmd (ip : string) : option string :=
  if NodeIp.isValidIpv4 (Some ip)
  then Some (findInterface ip +:+ "[ -n " +:+ dquote +:+ "$ifc" +:+ dquote +:+ " ] && sudo ethtool -s " +:+
             dquote +:+ "$ifc" +:+ dquote +:+ " wol g")
  else None.

End Power.

Module Update.

Record AgentUpdatePlan := { toUpdate : list node; skipped : list node; offline : list node }.

Definition planOne (targetVersion : string) (isOnline : string -> bool) (force : bool) (p : AgentUpdatePlan) (n : node) :
    AgentUpdatePlan :=
  if negb (isOnline (n_id n))
  then {| toUpdate := toUpdate p; skipped := skipped p; offline := offline p ++ [n] |}
  else if negb force && bool_decide (n_agentVersion n = Some targetVersion)
  then {| toUpdate := toUpdate p; skipped := skipped p ++ [n]; offline := offline p |}
  else {| toUpdate := toUpdate p ++ [n]; skipped := skipped p; offline := offline p |}.

Definition planAgentUpdate (ns : list node) (targetVersion : string) (isOnline : string -> bool)
    (force : bool) : AgentUpdatePlan :=
  foldl (planOne targetVersion isOnline force) {| toUpdate := []; skipped := []; offline := [] |} ns.

Definition bundleArchQuery (arch : option string) : string :=
  match arch with
  | Some "amd64" => "?arch=amd64" | Some "arm64" => "?arch=arm64" | _ => ""
  end.

End Update.

Module Wol.

(** [parseInt(h, 16)] of two hexadecimal digits. *)
Definition hexByte (h : string) : Z := (digits 16 0 0 h).1.1.

(** [macBytes.copy(packet, off)]: inside the buffer. *)
Definition copyAt (off : nat) (bytes packet : list Z) : list Z :=
  take off packet ++ bytes ++ drop (off + length bytes) packet.

Definition buildMagicPacket (mac : string) : result string (list Z) :=
  let m := str_lower (str_trim mac) in
  if negb (Mac.MAC_RE m) then Err ("Invalid MAC: " +:+ mac)
  else
    let macBytes := map hexByte (str_split ":" m) in
    Ok (foldl (fun packet i => copyAt (6 + i * 6) macBytes packet) (repeat 255%Z 102) (seq 0 16)).

(** [ToInt32] and [ToUint32]. *)
Definition to_uint32 (z : Z) : Z := z mod 2 ^ 32.
Definition to_int32 (z : Z) : Z :=
  let u := to_uint32 z in if (u <? 2 ^ 31)%Z then u else (u - 2 ^ 32)%Z.

(** [a << n], [a >>> n] and [~a] on 32-bit operands. *)
Definition shl (a n : Z) : Z := to_int32 (Z.shiftl (to_int32 a) (n mod 32)).
Definition ushr (a n : Z) : Z := Z.shiftr (to_uint32 a) (n mod 32).
Definition bnot (a : Z) : Z := Z.lnot (to_int32 a).
Definition bor (a b : Z) : Z := Z.lor (to_int32 a) (to_int32 b).

Definition octetOf (o : string) : Z := Z.land (Power.segment o) 255.

Definition ipNum (ip : string) : Z :=
  ushr (foldl (fun acc o => shl acc 8 + octetOf o)%Z 0%Z (str_split "." ip)) 0.

Definition maskOf (prefix : Z) : Z :=
  if (prefix =? 0)%Z then 0%Z else ushr (shl 4294967295 (32 - prefix)) 0.

Definition broadcastNum (ip : Z) (prefix : Z) : Z := ushr (bor ip (ushr (bnot (maskOf prefix)) 0)) 0.

Definition dotted (b : Z) : string :=
  str_join "." (map pretty [ushr b 24; Z.land (ushr b 16) 255; Z.land (ushr b 8) 255; Z.land b 255]).

Definition broadcastFor (ip : string) (prefix : Z) : string := dotted (broadcastNum (ipNum ip) prefix).

(** Where the packet is sent. *)
Definition targets (broadcast : string) : list (string * Z) :=
  flat_map (fun t => map (fun p => (t, p)) [9%Z; 7%Z]) [broadcast; "255.255.255.255"].

(** The completion callbacks in the order they arrive: the promise settles when the
    count reaches zero, with the last error seen. *)
Fixpoint countdown (pending : nat) (failed : option string) (callbacks : list (option string)) :
    option (result string ()) :=
  match callbacks with
  | [] => None
  | err :: rest =>
      let failed' := match err with Some e => Some e | None => failed end in
      if (pending - 1 =? 0)%nat
      then Some (match failed' with Some e => Err e | None => Ok () end)
      else countdown (pending - 1) failed' rest
  end.

(** The datagrams that leave, and how the promise settles. *)
Definition sendMagicPacket (mac broadcast : string) (callbacks : list (option string)) :
    list (list Z * (string * Z)) * option (result string ()) :=
  match buildMagicPacket mac with
  | Err e => ([], Some (Err e))
  | Ok packet => (map (fun t => (packet, t)) (targets broadcast),
                  countdown (length (targets broadcast)) None callbacks)
  end.

Example broadcast_ex :
  map (fun p => broadcastFor "192.168.44.17" p) [24; 16; 30; 32; 0]%Z =
  ["192.168.44.255"; "192.168.255.255"; "192.168.44.19"; "192.168.44.17"; "255.255.255.255"].
Proof. by vm_compute. Qed.

End Wol.

Module Cap.

Inductive settled := TimedOut | Answered (ok : bool) (data : option json) (error : option string).

(** [pending], [seq], and what the promises were settled with, oldest first. *)
Record client := Client {
  pending : gmap string string; seq : nat; history : list (string * settled) }.

Definition capId (n : nat) : string := "cap-" +:+ pretty n.

Inductive capEvent :=
  | Invoke (nodeId name : string)
  | Timeout (id : string)
  | OnResult (id : string) (ok : bool) (data : option json) (error : option string)
  | OnChunk (id stream data : string).

(** What leaves the client: a request for the agent, a chunk for the caller. *)
Inductive output := Request (nodeId id name : string) | Chunk (id stream data : string).

Definition settle (c : client) (id : string) (v : settled) : client :=
  Client (delete id (pending c)) (seq c) (history c ++ [(id, v)]).

Definition onEvent (c : client) (e : capEvent) : client * list output :=
  match e with
  | Invoke nodeId name =>
      let id := capId (S (seq c)) in
      (Client (<[id := nodeId]> (pending c)) (S (seq c)) (history c), [Request nodeId id name])
  | Timeout id =>
      (* the timer is cleared when the request is settled *)
      match pending c !! id with Some _ => (settle c id TimedOut, []) | None => (c, []) end
  | OnResult id ok data error =>
      match pending c !! id with Some _ => (settle c id (Answered ok data error), []) | None => (c, []) end
  | OnChunk id stream data =>
      match pending c !! id with Some _ => (c, [Chunk id stream data]) | None => (c, []) end
  end.

Definition runEvents (es : list capEvent) : client :=
  foldl (fun c e => (onEvent c e).1) (Client ∅ 0 []) es.

End Cap.
