(* ===== verification/NodeOpsFacts.v ===== *)
(** Wake-on-LAN in 32-bit arithmetic, version comparison, the update plan, and the
    settling of capability requests. *)
From S2P Require Import Prelude JsNum Schema AgentHub NodeOps.

(** * 32-bit operations *)

Section Bits.
Import Wol.
Local Open Scope Z_scope.

Lemma to_int32_mod z : to_int32 z mod 2 ^ 32 = z mod 2 ^ 32.
Proof.
  unfold to_int32, to_uint32. destruct (z mod 2 ^ 32 <? 2 ^ 31); [by rewrite Z.mod_mod|].
  rewrite Zminus_mod, Z.mod_same, Z.sub_0_r, !Z.mod_mod by done. done.
Qed.

Lemma ushr_0 z : ushr z 0 = z mod 2 ^ 32.
Proof. done. Qed.

Lemma shl8_mod z : shl z 8 mod 2 ^ 32 = (z * 256) mod 2 ^ 32.
Proof.
  unfold shl. change (8 mod 32) with 8. rewrite to_int32_mod, Z.shiftl_mul_pow2 by done.
  change (2 ^ 8) with 256. by rewrite Zmult_mod, to_int32_mod, <- Zmult_mod.
Qed.

Lemma shl8_add_mod z o : (shl z 8 + o) mod 2 ^ 32 = (z * 256 + o) mod 2 ^ 32.
Proof. by rewrite Zplus_mod, shl8_mod, <- Zplus_mod. Qed.

Lemma bor_mod a b :
  0 <= a < 2 ^ 32 -> 0 <= b < 2 ^ 32 -> bor a b mod 2 ^ 32 = Z.lor a b.
Proof.
  intros Ha Hb. unfold bor.
  rewrite <- Z.land_ones, Z.land_lor_distr_l, !Z.land_ones, !to_int32_mod by done.
  by rewrite !Z.mod_small.
Qed.

(** Setting the [k] low bits. *)
Lemma lor_low_ones a k : 0 <= k -> Z.lor a (2 ^ k - 1) = a - a mod 2 ^ k + (2 ^ k - 1).
Proof.
  intros Hk. replace (2 ^ k - 1) with (Z.ones k) by (rewrite Z.ones_equiv; lia).
  pose proof (Z.add_lor_land a (Z.ones k)) as H. rewrite Z.land_ones in H by done. lia.
Qed.

(** The complement of the mask: every prefix length is checked. *)
Lemma host_bits p : 0 <= p <= 32 -> ushr (bnot (maskOf p)) 0 = 2 ^ (32 - p) - 1.
Proof.
  intros Hp. assert (forallb (fun p => ushr (bnot (maskOf p)) 0 =? 2 ^ (32 - p) - 1) (seqZ 0 33) = true) as H
    by (by vm_compute).
  apply Z.eqb_eq, (proj1 (forallb_forall _ _) H), list_elem_of_In, elem_of_seqZ. lia.
Qed.

Lemma broadcastNum_spec ip p :
  0 <= ip < 2 ^ 32 -> 0 <= p <= 32 ->
  broadcastNum ip p = ip - ip mod 2 ^ (32 - p) + (2 ^ (32 - p) - 1).
Proof.
  intros Hip Hp. unfold broadcastNum. rewrite host_bits, ushr_0 by done.
  assert (1 <= 2 ^ (32 - p) <= 2 ^ 32).
  { split; [apply (Z.pow_le_mono_r 2 0); lia|apply Z.pow_le_mono_r; lia]. }
  rewrite (bor_mod ip (2 ^ (32 - p) - 1)); [apply lor_low_ones; lia|done|].
  generalize dependent (2 ^ (32 - p)). intros h Hh. lia.
Qed.

Lemma octetOf_range o : 0 <= octetOf o <= 255.
Proof.
  unfold octetOf. change 255 with (Z.ones 8) at 1 2. rewrite Z.land_ones by done.
  change (2 ^ 8) with 256. pose proof (Z.mod_pos_bound (Power.segment o) 256 eq_refl). lia.
Qed.

Lemma ipNum_spec ip a b c d :
  str_split "." ip = [a; b; c; d] ->
  ipNum ip = octetOf a * 2 ^ 24 + octetOf b * 2 ^ 16 + octetOf c * 2 ^ 8 + octetOf d.
Proof.
  intros E. unfold ipNum. rewrite E, ushr_0. cbn [foldl].
  pose proof (octetOf_range a). pose proof (octetOf_range b).
  pose proof (octetOf_range c). pose proof (octetOf_range d).
  set (x := octetOf a) in *. set (y := octetOf b) in *. set (z := octetOf c) in *. set (t := octetOf d) in *.
  change (shl 0 8 + x) with (0 + x). rewrite Z.add_0_l.
  assert (forall u v w, u mod 2 ^ 32 = v mod 2 ^ 32 -> (shl u 8 + w) mod 2 ^ 32 = (v * 256 + w) mod 2 ^ 32) as Hs.
  { intros u v w Huv. rewrite shl8_add_mod, Zplus_mod, (Zmult_mod u), Huv, <- (Zmult_mod v), <- Zplus_mod. done. }
  rewrite (Hs _ ((x * 256 + y) * 256 + z) t).
  - rewrite Z.mod_small by lia. lia.
  - rewrite (Hs _ (x * 256 + y) z); [done|]. by rewrite (Hs _ x y).
Qed.

Lemma dotted_spec n :
  0 <= n < 2 ^ 32 ->
  dotted n = str_join "." (map pretty [n / 2 ^ 24; n / 2 ^ 16 mod 256; n / 2 ^ 8 mod 256; n mod 256]).
Proof.
  intros Hn. unfold dotted, ushr, to_uint32. rewrite (Z.mod_small n) by done.
  change (24 mod 32) with 24. change (16 mod 32) with 16. change (8 mod 32) with 8.
  change 255 with (Z.ones 8). rewrite !Z.land_ones, !Z.shiftr_div_pow2 by done. done.
Qed.

(** The broadcast address is computed right in 32-bit arithmetic.  For a dotted
    address of four parts and any prefix length from 0 to 32, JavaScript's shifts, its
    signed intermediate values and its complement yield the address whose host bits
    are all ones, spelled as four octets. *)
Theorem broadcastFor_spec ip a b c d p :
  str_split "." ip = [a; b; c; d] -> 0 <= p <= 32 ->
  let n := octetOf a * 2 ^ 24 + octetOf b * 2 ^ 16 + octetOf c * 2 ^ 8 + octetOf d in
  let r := n - n mod 2 ^ (32 - p) + (2 ^ (32 - p) - 1) in
  0 <= r < 2 ^ 32 /\ r / 2 ^ (32 - p) = n / 2 ^ (32 - p) /\
  broadcastFor ip p = str_join "." (map pretty [r / 2 ^ 24; r / 2 ^ 16 mod 256; r / 2 ^ 8 mod 256; r mod 256]).
Proof.
  intros E Hp n r. pose proof (octetOf_range a). pose proof (octetOf_range b).
  pose proof (octetOf_range c). pose proof (octetOf_range d).
  assert (0 <= n < 2 ^ 32) as Hn by (unfold n; lia).
  set (k := 32 - p) in *. assert (0 < 2 ^ k) as Hk by (apply Z.pow_pos_nonneg; unfold k; lia).
  pose proof (Z.div_mod n (2 ^ k)) as Hdm. pose proof (Z.mod_pos_bound n (2 ^ k) Hk) as Hmb.
  assert (r / 2 ^ k = n / 2 ^ k) as Hdiv.
  { symmetry. apply (Z.div_unique r (2 ^ k) _ (2 ^ k - 1)); unfold r; lia. }
  assert (0 <= r < 2 ^ 32) as Hr.
  { assert (n / 2 ^ k < 2 ^ p) as Hq.
    { apply Z.div_lt_upper_bound; [done|]. rewrite <- Z.pow_add_r by (unfold k; lia).
      replace (k + p) with 32 by (unfold k; lia). lia. }
    assert (2 ^ 32 = 2 ^ p * 2 ^ k) as Hpk.
    { rewrite <- Z.pow_add_r by (unfold k; lia). f_equal. unfold k. lia. }
    rewrite Hpk. assert (r = n / 2 ^ k * 2 ^ k + (2 ^ k - 1)) as -> by (unfold r; lia).
    pose proof (Z.div_pos n (2 ^ k)). nia. }
  split; [done|]. split; [done|]. unfold broadcastFor.
  rewrite (ipNum_spec ip a b c d E). fold n. rewrite broadcastNum_spec by done. fold k r.
  by apply dotted_spec.
Qed.

Lemma broadcastFor_spec_witness :
  broadcastFor "192.168.44.17" 20 = "192.168.47.255".
Proof.
  destruct (broadcastFor_spec "192.168.44.17" "192" "168" "44" "17" 20) as (_ & _ & ->).
  - reflexivity.
  - lia.
  - reflexivity.
Defined.
End Bits.

(** * The magic packet *)

Section Magic.
Import Wol.

Lemma hex_digit c : Mac.is_hex c = true -> exists d, digit_val c = Some d /\ (0 <= d < 16)%Z.
Proof.
  intros H. assert (match digit_val c with Some d => (0 <=? d) && (d <? 16) | None => false end = true)%Z as Hd.
  { revert H. destruct c as [[] [] [] [] [] [] [] []]; vm_compute; done. }
  destruct (digit_val c) as [d|]; [|done]. exists d. split; [done|]. lia.
Qed.

Lemma octet2_byte h : Mac.octet2 h = true -> (0 <= hexByte h <= 255)%Z.
Proof.
  unfold Mac.octet2. destruct h as [|a [|b [|c r]]]; try done. cbn [str_all].
  rewrite !andb_true_iff. intros (_ & Ha & Hb & _).
  destruct (hex_digit a Ha) as (x & Hx & ?), (hex_digit b Hb) as (y & Hy & ?).
  unfold hexByte. cbn [digits]. rewrite Hx, Hy.
  rewrite (proj2 (Z.ltb_lt x 16)), (proj2 (Z.ltb_lt y 16)) by lia. cbn [fst]. lia.
Qed.

(** What a packet for these address bytes holds. *)
Definition magicBytes (mac : list Z) : list Z := repeat 255%Z 6 ++ concat (repeat mac 16).

Lemma copies_fill mac :
  length mac = 6%nat ->
  foldl (fun packet i => copyAt (6 + i * 6) mac packet) (repeat 255%Z 102) (seq 0 16) = magicBytes mac.
Proof. intros H. destruct mac as [|a [|b [|c [|d [|e [|f [|g r]]]]]]]; try discriminate H. reflexivity. Qed.

(** The buffer is exactly the header and sixteen copies of an address of six bytes. *)
Lemma buildMagicPacket_spec mac :
  match buildMagicPacket mac with
  | Ok packet => exists bytes, packet = magicBytes bytes /\ length bytes = 6%nat /\
      (forall b, b ∈ bytes -> (0 <= b <= 255)%Z) /\
      bytes = map hexByte (str_split ":" (str_lower (str_trim mac))) /\ length packet = 102%nat
  | Err _ => Mac.normalizeMac mac = None
  end.
Proof.
  unfold buildMagicPacket, Mac.normalizeMac.
  destruct (Mac.MAC_RE (str_lower (str_trim mac))) eqn:E; cbn [negb]; [|done].
  unfold Mac.MAC_RE in E. apply andb_true_iff in E as [Hl%Nat.eqb_eq Ho].
  exists (map hexByte (str_split ":" (str_lower (str_trim mac)))).
  rewrite copies_fill by (by rewrite length_map). repeat split; [by rewrite length_map| | |].
  - apply list_elem_of_fmap in H as (h & -> & Hh). apply octet2_byte.
    by apply (proj1 (forallb_forall _ _) Ho), list_elem_of_In.
  - apply list_elem_of_fmap in H as (h & -> & Hh). apply octet2_byte.
    by apply (proj1 (forallb_forall _ _) Ho), list_elem_of_In.
  - unfold magicBytes. rewrite length_app, repeat_length, length_concat.
    set (bytes := map hexByte _). assert (length bytes = 6%nat) as Hb by (unfold bytes; by rewrite length_map).
    cbn. rewrite Hb. done.
Qed.

(** The promise settles at the last of the callbacks it waits for, and fails exactly
    when one of them did. *)
Lemma countdown_spec callbacks failed :
  callbacks <> [] ->
  exists r, countdown (length callbacks) failed callbacks = Some r /\
    (r = Ok () <-> failed = None /\ forall c, c ∈ callbacks -> c = None).
Proof.
  revert failed. induction callbacks as [|c cs IH]; intros failed Hne; [done|].
  cbn [countdown length]. rewrite Nat.sub_succ, Nat.sub_0_r.
  set (f' := match c with Some e => Some e | None => failed end).
  assert (f' = None <-> c = None /\ failed = None) as Hf by (unfold f'; destruct c; naive_solver).
  destruct cs as [|c2 cs].
  - cbn. eexists. split; [done|]. destruct f'; split; try done.
    + intros [-> Hc]. destruct Hf as [_ Hf]. discriminate Hf. split; [apply Hc; set_solver|done].
    + intros _. destruct Hf as [Hf _]. destruct (Hf eq_refl) as [-> ->]. split; [done|].
      intros x ->%list_elem_of_singleton. done.
  - destruct (IH f') as (r & -> & Hr); [done|]. exists r. cbn [length Nat.eqb]. split; [done|].
    rewrite Hr, Hf. split.
    + intros [[-> ->] Hc]. split; [done|]. intros x [->|Hx]%elem_of_cons; auto.
    + intros [-> Hc]. repeat split; [apply Hc; by left|]. intros x Hx. apply Hc. by right.
Qed.
End Magic.

(** * Capability requests *)

Section Capabilities.
Import Cap.

#[local] Instance capId_inj : Inj (=) (=) capId.
Proof. intros a b H. by simplify_eq. Qed.

(** Every id handed out is waiting or answered, never both. *)
Record accounted (c : client) : Prop := {
  acc_once : NoDup (map fst (history c));
  acc_apart : forall id, id ∈ dom (pending c) -> id ∉ map fst (history c);
  acc_ids : forall id, id ∈ dom (pending c) \/ id ∈ map fst (history c) <->
    exists n, (1 <= n <= seq c)%nat /\ id = capId n }.

Lemma settle_accounted c id v : id ∈ dom (pending c) -> accounted c -> accounted (settle c id v).
Proof.
  intros Hid [Ho Ha Hi]. split; unfold settle; cbn [pending seq history].
  - rewrite map_app. apply NoDup_app. repeat split; [done| |apply NoDup_singleton].
    intros x Hx ->%list_elem_of_singleton. by apply (Ha id).
  - intros x. rewrite dom_delete, elem_of_difference, not_elem_of_singleton, map_app, elem_of_app.
    intros [Hx Hne] [Hh| ->%list_elem_of_singleton]; [by apply (Ha x)|done].
  - intros x. rewrite <- Hi, dom_delete, elem_of_difference, elem_of_singleton, map_app, elem_of_app. cbn [map fst].
    rewrite list_elem_of_singleton. destruct (decide (x = id)) as [->|]; tauto.
Qed.

Lemma onEvent_accounted c e : accounted c -> accounted (onEvent c e).1.
Proof.
  intros Hc. destruct e as [nodeId name|id|id ok data error|id stream data]; cbn [onEvent].
  - destruct Hc as [Ho Ha Hi]. split; cbn [fst pending seq history]; [done| |].
    + intros x. rewrite dom_insert, elem_of_union, elem_of_singleton. intros [->|Hx]; [|by apply Ha].
      intros Hh. destruct (proj1 (Hi _) (or_intror Hh)) as (n & Hn & E%capId_inj). lia.
    + intros x. rewrite dom_insert, elem_of_union, elem_of_singleton. specialize (Hi x). split.
      * intros Hx. assert (x = capId (S (seq c)) \/ exists n, (1 <= n <= seq c)%nat /\ x = capId n) as [->|(n & Hn & ->)]
          by (rewrite <- Hi; tauto); eexists; (split; [|done]); lia.
      * intros (n & Hn & ->). destruct (decide (n = S (seq c))) as [->|]; [by left; left|].
        assert (capId n ∈ dom (pending c) \/ capId n ∈ map fst (history c)) by (apply Hi; exists n; split; [lia|done]).
        tauto.
  - destruct (pending c !! id) eqn:E; [|done]. apply settle_accounted; [by apply elem_of_dom|done].
  - destruct (pending c !! id) eqn:E; [|done]. apply settle_accounted; [by apply elem_of_dom|done].
  - by destruct (pending c !! id).
Qed.

Lemma runFrom_accounted es c : accounted c -> accounted (foldl (fun c e => (onEvent c e).1) c es).
Proof. revert c. induction es as [|e es IH]; intros c Hc; [done|]. by apply IH, onEvent_accounted. Qed.

Lemma timeouts_clear ids c :
  let c' := foldl (fun c e => (onEvent c e).1) c (map Timeout ids) in
  seq c' = seq c /\ forall id, id ∈ dom (pending c') <-> id ∈ dom (pending c) /\ id ∉ ids.
Proof.
  revert c. induction ids as [|i ids IH]; intros c; cbn [map foldl]; [set_solver|].
  destruct (IH (onEvent c (Timeout i)).1) as [Hs Hd].
  assert (seq (onEvent c (Timeout i)).1 = seq c /\
    forall id, id ∈ dom (pending (onEvent c (Timeout i)).1) <-> id ∈ dom (pending c) /\ id <> i) as [Hs' Hd'].
  { cbn [onEvent]. destruct (pending c !! i) eqn:E; cbn [fst settle seq pending]; (split; [done|]); intros id.
    - by rewrite dom_delete, elem_of_difference, not_elem_of_singleton.
    - apply not_elem_of_dom in E. split; [|tauto]. intros Hp. split; [done|]. by intros ->. }
  split; [by rewrite Hs|]. intros id. rewrite Hd, Hd', not_elem_of_cons. tauto.
Qed.

(** Every capability request is answered exactly once.  Over any interleaving of
    requests, agent results (late, duplicated or for unknown ids), chunks and timers,
    the ids handed out are distinct, each is either waiting or settled, none is
    settled twice, and once the timers of all of them have fired none is waiting. *)
Theorem cap_settles_once es :
  let c := runEvents es in
  NoDup (map fst (history c)) /\
  (forall id, id ∈ dom (pending c) -> id ∉ map fst (history c)) /\
  (forall id, id ∈ dom (pending c) \/ id ∈ map fst (history c) <->
              exists n, (1 <= n <= seq c)%nat /\ id = capId n) /\
  pending (runEvents (es ++ map (fun n => Timeout (capId n)) (List.seq 1 (seq c)))) = ∅.
Proof.
  intros c. assert (accounted (Client ∅ 0 [])) as H0.
  { split; cbn [pending seq history map]; [apply NoDup_nil_2|set_solver|].
    intros id. rewrite dom_empty. split; [set_solver|]. intros (n & Hn & _). lia. }
  pose proof (runFrom_accounted es _ H0) as Hc. fold (runEvents es) in Hc. fold c in Hc.
  pose proof Hc as [Ho Ha Hi]. repeat split; [done|done|apply Hi|apply Hi|].
  unfold runEvents. rewrite foldl_app. fold (runEvents es). fold c.
  rewrite <- (map_map capId Timeout). apply map_empty. intros id. apply not_elem_of_dom.
  destruct (timeouts_clear (map capId (List.seq 1 (seq c))) c) as [_ ->].
  intros [Hp Hn]. apply Hn. destruct (proj1 (Hi id) (or_introl Hp)) as (n & Hb & ->).
  apply list_elem_of_fmap. exists n. split; [done|]. apply elem_of_seq. lia.
Qed.
End Capabilities.

(** * Versions and the update plan *)

Section Versions.
Import Power.

Definition segmentAt (l : list Z) (i : nat) : Z := default 0%Z (l !! i).

(** The order of dotted versions: the first position that differs decides. *)
Definition versionGe (a b : list Z) : Prop :=
  (forall i, segmentAt a i = segmentAt b i) \/
  exists i, (segmentAt b i < segmentAt a i)%Z /\ forall j, (j < i)%nat -> segmentAt a j = segmentAt b j.

Lemma segmentAt_tail l i : segmentAt (tail l) i = segmentAt l (S i).
Proof. by destruct l. Qed.

Lemma segmentAt_head l : default 0%Z (head l) = segmentAt l 0.
Proof. by destruct l. Qed.

Lemma versionGe_cons a b :
  versionGe a b <->
  (segmentAt b 0 < segmentAt a 0)%Z \/ segmentAt a 0 = segmentAt b 0 /\ versionGe (tail a) (tail b).
Proof.
  unfold versionGe. split.
  - intros [He|([|i] & Hi & Hj)].
    + right. split; [done|]. left. intros i. by rewrite !segmentAt_tail.
    + by left.
    + right. split; [apply Hj; lia|]. right. exists i. rewrite !segmentAt_tail. split; [done|].
      intros j Hlt. rewrite !segmentAt_tail. apply Hj. lia.
  - intros [Hlt|[H0 [He|(i & Hi & Hj)]]].
    + right. exists 0%nat. split; [done|]. intros j Hj. lia.
    + left. intros [|i]; [done|]. specialize (He i). by rewrite !segmentAt_tail in He.
    + right. exists (S i). rewrite !segmentAt_tail in Hi. split; [done|].
      intros [|j] Hlt; [done|]. specialize (Hj j). rewrite !segmentAt_tail in Hj. apply Hj. lia.
Qed.

Lemma gteFrom_spec fuel a b :
  (length a <= fuel)%nat -> (length b <= fuel)%nat -> gteFrom fuel a b = true <-> versionGe a b.
Proof.
  revert a b. induction fuel as [|f IH]; intros a b Ha Hb.
  - destruct a, b; cbn in *; try lia. split; [|done]. intros _. left. done.
  - cbn [gteFrom]. rewrite !segmentAt_head, versionGe_cons.
    destruct (Z.ltb_spec (segmentAt b 0) (segmentAt a 0)); [split; [by left|done]|].
    destruct (Z.ltb_spec (segmentAt a 0) (segmentAt b 0)).
    + split; [done|]. intros [?|[? _]]; lia.
    + rewrite IH by (destruct a, b; cbn in *; lia). split; [|intros [?|[_ ?]]; [lia|done]].
      intros Hv. right. split; [lia|done].
Qed.

(** [versionGte] compares dotted numbers lexicographically, absent positions reading
    zero; an absent or empty version is below everything. *)
Lemma versionGte_spec version min :
  versionGte version min = true <->
  exists v, version = Some v /\ v <> "" /\ versionGe (segments v) (segments min).
Proof.
  unfold versionGte. destruct (truthy version) as [v|] eqn:E.
  - apply truthy_Some in E as [-> Hv]. rewrite gteFrom_spec by lia. split; [by exists v|].
    by intros (v' & [= <-] & _ & H).
  - apply truthy_None in E. split; [done|]. intros (v & -> & Hv & _). destruct E; congruence.
Qed.

(** Unreadable segments count as zero, so text that is no version passes a low minimum. *)
Example version_garbage :
  (versionGte (Some "garbage") "0.0", agentSupportsPower (Some "0.5.644"), agentSupportsPower (Some "0.5.645-rc1"),
   agentSupportsPower (Some "1")) = (true, false, true, true).
Proof. by vm_compute. Qed.
End Versions.

Section Plans.
Import Update.

Lemma planFrom_spec target online force ns p :
  let p' := foldl (planOne target online force) p ns in
  let current n := negb force && bool_decide (n_agentVersion n = Some target) in
  toUpdate p' = toUpdate p ++ List.filter (fun n => online (n_id n) && negb (current n)) ns /\
  skipped p' = skipped p ++ List.filter (fun n => online (n_id n) && current n) ns /\
  offline p' = offline p ++ List.filter (fun n => negb (online (n_id n))) ns.
Proof.
  revert p. induction ns as [|n ns IH]; intros p p' current; unfold p'; cbn [foldl List.filter].
  - by rewrite !app_nil_r.
  - destruct (IH (planOne target online force p n)) as (-> & -> & ->). unfold planOne, current.
    destruct (online (n_id n)); cbn [negb andb toUpdate skipped offline]; [|by rewrite <- !app_assoc].
    destruct force, (bool_decide (n_agentVersion n = Some target)); cbn; by rewrite <- ?app_assoc.
Qed.

(** The three lists of a bulk update are the offline nodes, the current ones and the
    rest, each in the order of the table. *)
Lemma planAgentUpdate_spec ns target online force :
  let p := planAgentUpdate ns target online force in
  let current n := negb force && bool_decide (n_agentVersion n = Some target) in
  toUpdate p = List.filter (fun n => online (n_id n) && negb (current n)) ns /\
  skipped p = List.filter (fun n => online (n_id n) && current n) ns /\
  offline p = List.filter (fun n => negb (online (n_id n))) ns.
Proof. apply planFrom_spec. Qed.
End Plans.
