(* ===== verification/NodeRoutes.v ===== *)
(** The node routes that act on a machine ([routes/nodes.ts]): power, wake, agent
    updates, and offboarding.

    A handler takes the world of the hub and yields the world after it, what left the
    manager in order, and its answer.  SSH, the network and the timer are parameters;
    [sshExec] resolves with the exit code of the command and rejects when the
    connection fails ([ssh/executor.ts]). *)
From S2P Require Import Prelude JsNum Schema Routes AgentHub NodeOps.
Import Power.

Inductive nodeOrder :=
  | CmdPower (a : PowerAction) (force : bool)
  | CmdUpdate (bundleUrl version : string)
  | CmdUndeploy (deploymentId : string)
  | CmdFinetuneCancel (jobId : string)
  | CmdDeprovision.

Inductive nodeEffect :=
  | Sent (ws : nat) (o : nodeOrder)
  | Ssh (ip cmd : string)
  | Datagram (packet : list Z) (dest : string * Z)
  | PowerEvent (nodeId powerState : string)
  | BufferRemoved (nodeId : string).

(** [agentHub.sendToAgent]: dropped when the agent is not connected. *)
Definition nodeSend (w : world) (nodeId : string) (o : nodeOrder) : list nodeEffect :=
  match sendToAgent w nodeId with Some ws => [Sent ws o] | None => [] end.

Definition writeNode (id : string) (p : node_patch) (w : world) : world :=
  set_db (db_nodes (tbl_update id (patch_node p)) (w_db w)) w.

Definition powerPatch (powerState : string) (mac : option string) : node_patch :=
  NodePatch None None (Some powerState) None None None None None None None None None mac.

(** * Power *)

Definition powerStateOf (a : PowerAction) : string :=
  match a with Reboot => "rebooting" | Sleep => "asleep" | Shutdown => "off" end.

Definition actionOf (v : option json) : option PowerAction :=
  match v with
  | Some (JStr "reboot") => Some Reboot | Some (JStr "shutdown") => Some Shutdown
  | Some (JStr "sleep") => Some Sleep | _ => None
  end.

Inductive sshResult := Exited (code : Z) (stdout : string) | Threw (msg : string).

Inductive powerReply :=
  | InvalidAction
  | NodeNotFound
  | NoIpAddress
  | NoMac
  | PowerFailed (msg : string)
  | WolFailed (msg : string)
  | PowerOk (powerState via : string).

Definition power_status (r : powerReply) : Z :=
  match r with
  | InvalidAction | NoIpAddress => 400 | NodeNotFound => 404 | NoMac => 409
  | PowerFailed _ | WolFailed _ => 502 | PowerOk _ _ => 200
  end.

(** [/timed out|econnreset|econnaborted|closed|disconnect|not connected/i] *)
Definition severed (msg : string) : bool :=
  existsb (fun s => str_includes s (str_lower msg))
    ["timed out"; "econnreset"; "econnaborted"; "closed"; "disconnect"; "not connected"].

Section PowerRoute.
Context (sshExec : string -> string -> sshResult).

(** The address capture and the arming of Wake-on-LAN: the commands run, and the
    address found. *)
Definition captureAndArm (ip : string) (a : PowerAction) : list nodeEffect * option string :=
  match a with
  | Reboot => ([], None)
  | _ =>
      (match macCaptureCmd ip with Some c => [Ssh ip c] | None => [] end ++
       match wolArmCmd ip with Some c => [Ssh ip c] | None => [] end,
       c ← macCaptureCmd ip;
       match sshExec ip c with Exited _ out => Mac.normalizeMac out | Threw _ => None end)
  end.

Definition powerRoute (w : world) (id : string) (action : option json) (force : bool) :
    world * list nodeEffect * powerReply :=
  match actionOf action with
  | None => (w, [], InvalidAction)
  | Some a =>
      match tbl_find id (nodes (w_db w)) with
      | None => (w, [], NodeNotFound)
      | Some n =>
          let ps := powerStateOf a in
          if isAgentOnline w id && agentSupportsPower (n_agentVersion n) then
            (writeNode id (powerPatch ps None) w,
             nodeSend w id (CmdPower a force) ++ [PowerEvent id ps], PowerOk ps "agent")
          else
            match truthy (n_ipAddress n) with
            | None => (w, [], NoIpAddress)
            | Some ip =>
                let '(effs, mac) := captureAndArm ip a in
                let effs' := effs ++ [Ssh ip (powerCommand a force)] in
                let proceed :=
                  (writeNode id (powerPatch ps (truthy (match mac with Some m => Some m | None => n_macAddress n end))) w,
                   effs' ++ [PowerEvent id ps], PowerOk ps "ssh") in
                match sshExec ip (powerCommand a force) with
                | Exited _ _ => proceed
                | Threw msg => if force && severed msg then proceed else (w, effs', PowerFailed msg)
                end
            end
      end
  end.
End PowerRoute.

(** * Wake *)

(** [callbacks]: the completions of the sends.  [None]: the promise never settles. *)
Definition wakeRoute (w : world) (id : string) (callbacks : list (option string)) :
    option (world * list nodeEffect * powerReply) :=
  match tbl_find id (nodes (w_db w)) with
  | None => Some (w, [], NodeNotFound)
  | Some n =>
      match truthy (n_macAddress n), truthy (n_ipAddress n) with
      | None, _ => Some (w, [], NoMac)
      | Some _, None => Some (w, [], NoIpAddress)
      | Some mac, Some ip =>
          let '(sent, r) := Wol.sendMagicPacket mac (Wol.broadcastFor ip 24) callbacks in
          let effs := map (fun d => Datagram d.1 d.2) sent in
          r' ← r;
          Some match r' with
               | Err e => (w, effs, WolFailed e)
               | Ok _ => (writeNode id (powerPatch "waking" None) w, effs ++ [PowerEvent id "waking"],
                          PowerOk "waking" "wol")
               end
      end
  end.

(** * Agent updates *)

Section Updates.
Context (base version : string).

Definition updateOrder (arch : option string) : nodeOrder :=
  CmdUpdate (base +:+ "/api/agent/bundle" +:+ Update.bundleArchQuery arch) version.

Inductive updateReply := UpdateNotFound | UpdateOffline | Updating.

Definition updateAgent (w : world) (id : string) : list nodeEffect * updateReply :=
  match tbl_find id (nodes (w_db w)) with
  | None => ([], UpdateNotFound)
  | Some n => if isAgentOnline w id then (nodeSend w id (updateOrder (n_arch n)), Updating)
              else ([], UpdateOffline)
  end.

Definition updateAgentAll (w : world) (force : bool) : list nodeEffect * Update.AgentUpdatePlan :=
  let p := Update.planAgentUpdate (nodes (w_db w)) version (isAgentOnline w) force in
  (flat_map (fun n => nodeSend w (n_id n) (updateOrder (n_arch n))) (Update.toUpdate p), p).
End Updates.

(** * Offboarding *)

(** [deleteNodeRecords], statement by statement; [false]: a statement threw, the ones
    before it stand.  A model row may not go while a deployment refers to it.  The runs of
    benchmarks, whose link to a deployment is only set to null, are not in these tables. *)
Definition onNode (nodeId : string) (d : deployment) : bool := String.eqb (d_nodeId d) nodeId.
Definition jobOnNode (nodeId : string) (j : finetune_job) : bool := String.eqb (f_nodeId j) nodeId.

Definition deleteMetrics (nodeId : string) : db -> db :=
  db_metrics (List.filter (fun m => negb (String.eqb (mt_nodeId m) nodeId))).

Definition deleteMemberships (nodeId : string) (s : db) : db :=
  db_clusterNodes (List.filter (fun c =>
    negb (String.eqb (cn_nodeId c) nodeId) &&
    negb (mem_str (cn_deploymentId c) (map d_id (List.filter (onNode nodeId) (deployments s)))))) s.

Definition leaveJobs (nodeId : string) : db -> db :=
  db_jobs (map (fun j => patch_job [JobCluster
    (if jobOnNode nodeId j then [] else List.filter (fun n => negb (String.eqb n nodeId)) (f_clusterNodeIds j))] j)).

Definition deleteAudits (nodeId : string) : world -> world :=
  set_audits (List.filter (fun a => negb (String.eqb (au_nodeId a) nodeId))).

Definition deleteOwnDeployments (nodeId : string) : db -> db :=
  db_deployments (List.filter (fun d => negb (onNode nodeId d))).

Definition ownJobs (nodeId : string) (s : db) : list string :=
  map f_id (List.filter (jobOnNode nodeId) (finetuneJobs s)).

(** The models that go with the node's jobs. *)
Definition ofJobs (ids : list string) (m : model_row) : bool :=
  match m_finetuneJobId m with Some j => mem_str j ids | None => false end.

(** A deployment refers to a model that would go. *)
Definition modelsHeld (nodeId : string) (s : db) : bool :=
  existsb (fun d => mem_str (d_modelId d) (map m_id (List.filter (ofJobs (ownJobs nodeId s)) (models s))))
    (deployments s).

Definition deleteOwnJobs (nodeId : string) (s : db) : db :=
  db_jobs (List.filter (fun j => negb (jobOnNode nodeId j)))
    (db_models (List.filter (fun m => negb (ofJobs (ownJobs nodeId s) m))) s).

Definition dropTraining (ids : list string) : world -> world :=
  set_training (List.filter (fun t => negb (mem_str (tm_jobId t) ids))).

Definition deleteNodeRecords (nodeId : string) (w : world) : world * bool :=
  let w := deleteAudits nodeId
             (set_db (leaveJobs nodeId (deleteMemberships nodeId (deleteMetrics nodeId (w_db w)))) w) in
  let s := deleteOwnDeployments nodeId (w_db w) in
  if modelsHeld nodeId s then (set_db s w, false)
  else
    let s' := deleteOwnJobs nodeId s in
    let w' := dropTraining (ownJobs nodeId s) (set_db s' w) in
    match tbl_find nodeId (nodes s') with
    | None => (w', false)
    | Some _ => (set_db (db_nodes (tbl_delete nodeId) s') w', true)
    end.

Inductive offboardReply :=
  | OffboardNotFound
  | OffboardForced (stoppedDeployments : nat)
  | OffboardWasOffline (stoppedDeployments : nat)
  | Offboarded (stoppedDeployments : nat)
  | OffboardTimedOut
  | OffboardThrew.

(** [deleteNodeRecords] followed by [metricsBuffer.remove]. *)
Definition removeNode (w : world) (id : string) (reply : offboardReply) :
    world * list nodeEffect * offboardReply :=
  let '(w', ok) := deleteNodeRecords id w in
  if ok then (w', [BufferRemoved id], reply) else (w', [], OffboardThrew).

Definition OFFBOARD_STOPPED : list string := ["pending"; "running"; "starting"; "restarting"].

(** The orders of the graceful path, [cmd:deprovision] apart. *)
Definition windDown (w : world) (id : string) : list nodeEffect :=
  flat_map (fun d => if mem_str (d_status d) OFFBOARD_STOPPED then nodeSend w id (CmdUndeploy (d_id d)) else [])
    (List.filter (onNode id) (deployments (w_db w))) ++
  flat_map (fun j => nodeSend w id (CmdFinetuneCancel (f_id j)))
    (List.filter (fun j => jobOnNode id j && mem_str (f_status j) ["pending"; "running"]) (finetuneJobs (w_db w))).

Section Offboard.
(** [view t]: the world [t] ms after the wait began, as other handlers leave it;
    [late t]: how late the timer armed then fires. *)
Context (id : string) (deadline : Z) (view : Z -> world) (late : Z -> Z).

Definition pollMs : Z := Z.min 1000 (Z.max 10 deadline).

Definition nextPoll (elapsed : Z) : Z :=
  (elapsed + Z.max 0 (Z.min pollMs (deadline - elapsed)) + late elapsed)%Z.

(** Whether the agent went offline, and when the wait ended. *)
Fixpoint offboardWait (fuel : nat) (elapsed : Z) : option (bool * Z) :=
  match fuel with
  | O => None
  | S f =>
      if (elapsed <? deadline)%Z then
        if negb (isAgentOnline (view elapsed) id) then Some (true, elapsed)
        else offboardWait f (nextPoll elapsed)
      else Some (false, elapsed)
  end.

Definition offboard (fuel : nat) (w : world) (force : bool) :
    option (world * list nodeEffect * offboardReply) :=
  match tbl_find id (nodes (w_db w)) with
  | None => Some (w, [], OffboardNotFound)
  | Some _ =>
      let n := length (List.filter (onNode id) (deployments (w_db w))) in
      if force then Some (removeNode w id (OffboardForced n))
      else if negb (isAgentOnline w id) then
        let '(w', effs, r) := removeNode w id (OffboardWasOffline n) in Some (w', windDown w id ++ effs, r)
      else
        let sent := windDown w id ++ nodeSend w id CmdDeprovision in
        out ← offboardWait fuel 0;
        Some match out with
             | (false, t) => (view t, sent, OffboardTimedOut)
             | (true, t) => let '(w', effs, r) := removeNode (view t) id (Offboarded n) in
                            (w', sent ++ effs, r)
             end
  end.
End Offboard.
