(* ===== verification/NodeRoutesFacts.v ===== *)
(** What power, wake and offboarding leave behind. *)
From S2P Require Import Prelude JsNum Schema Routes AgentHub AgentHubFacts NodeOps NodeOpsFacts NodeRoutes.
Import Power.

(** * Power *)

(** Splitting keeps every character. *)
Lemma str_all_split p sep s :
  (forall t, t ∈ str_split sep s -> str_all p t = true) -> p sep = true -> str_all p s = true.
Proof.
  intros H Hs. induction s as [|c s IH]; [done|]. cbn [str_split] in H. cbn [str_all].
  destruct (Ascii.eqb_spec c sep) as [->|_].
  - rewrite Hs. apply IH. intros t Ht. apply H. by right.
  - destruct (str_split sep s) as [|t ts] eqn:E.
    + specialize (H (String c "")). cbn in H. rewrite andb_true_r in H.
      rewrite H by set_solver. apply IH. by intros t ?%elem_of_nil.
    + pose proof (H (String c t) ltac:(by left)) as Hc. cbn in Hc. apply andb_true_iff in Hc as [-> Hc].
      apply IH. intros u [->|Hu]%elem_of_cons; [done|]. apply H. by right.
Qed.

(** The characters of an accepted address. *)
Definition ip_char (c : ascii) : bool := is_digit c || Ascii.eqb c ".".

Lemma isValidIpv4_chars ip : NodeIp.isValidIpv4 (Some ip) = true -> str_all ip_char ip = true.
Proof.
  unfold NodeIp.isValidIpv4. destruct (truthy (Some ip)) as [s|] eqn:E; [|done].
  apply truthy_Some in E as [[= <-] _]. intros H.
  assert (forall t, t ∈ str_split "." ip -> NodeIp.octet t = true) as Ho.
  { destruct (str_split "." ip) as [|a [|b [|c [|d [|e r]]]]]; try done.
    rewrite !andb_true_iff in H. destruct H as [[[? ?] ?] ?].
    intros t. rewrite !elem_of_cons, elem_of_nil. naive_solver. }
  apply (str_all_split _ "."); [|done]. intros t Ht. specialize (Ho t Ht).
  unfold NodeIp.octet in Ho. rewrite !andb_true_iff in Ho. destruct Ho as [[_ Hd] _].
  revert Hd. apply str_all_impl. intros c Hc. unfold ip_char. by rewrite Hc.
Qed.

Section Power.
Context (sshExec : string -> string -> sshResult).

(** The commands run over SSH embed an address only when it is digits and dots. *)
Definition safeCommand (ip cmd : string) (a : PowerAction) (force : bool) : Prop :=
  cmd = powerCommand a force \/
  str_all ip_char ip = true /\ (Some cmd = macCaptureCmd ip \/ Some cmd = wolArmCmd ip).

Lemma captureAndArm_effects ip a force e :
  e ∈ (captureAndArm sshExec ip a).1 -> exists cmd, e = Ssh ip cmd /\ safeCommand ip cmd a force.
Proof.
  unfold captureAndArm, safeCommand, macCaptureCmd, wolArmCmd.
  destruct (NodeIp.isValidIpv4 (Some ip)) eqn:E; [apply isValidIpv4_chars in E|];
    destruct a; cbn [fst app]; rewrite ?elem_of_cons, ?elem_of_nil; naive_solver.
Qed.

Lemma writeNode_row id p w n :
  tbl_find id (nodes (w_db w)) = Some n -> tbl_find id (nodes (w_db (writeNode id p w))) = Some (patch_node p n).
Proof.
  intros H. change (nodes (w_db (writeNode id p w))) with (tbl_update id (patch_node p) (nodes (w_db w))).
  rewrite (tbl_find_update id (patch_node p) (patch_node_id p)). by rewrite String.eqb_refl, H.
Qed.

(** Whether the power command was taken as delivered over SSH: the exit code of the
    remote command plays no part. *)
Definition taken (force : bool) (r : sshResult) : bool :=
  match r with Exited _ _ => true | Threw msg => force && severed msg end.

Lemma taken_match {A} force r (x : A) (y : string -> A) :
  match r with Exited _ _ => x | Threw msg => if force && severed msg then x else y msg end =
  if taken force r then x else y (match r with Threw msg => msg | Exited _ _ => "" end).
Proof. by destruct r. Qed.

(** A power request goes out on one channel, and the recorded state follows.  For a
    known action and node: a connected agent that is new enough gets exactly one
    [cmd:power] and no SSH; otherwise the command runs over SSH at the node's
    address, whose text enters a command only as digits and dots.  The request
    answers 200 exactly when the agent was sent the order, or the SSH command exited
    (whatever its exit code) or a forced one lost its connection; exactly then the
    row gets the new power state and the change is announced, and nothing else of
    the node but its MAC changes; any other answer leaves the world as it was. *)
Theorem powerRoute_spec w id action a force n :
  actionOf action = Some a -> tbl_find id (nodes (w_db w)) = Some n ->
  let '(w', effs, r) := powerRoute sshExec w id action force in
  let ps := powerStateOf a in
  let viaAgent := isAgentOnline w id && agentSupportsPower (n_agentVersion n) in
  (power_status r = 200%Z <->
     viaAgent = true \/
     exists ip, truthy (n_ipAddress n) = Some ip /\ taken force (sshExec ip (powerCommand a force)) = true) /\
  (if viaAgent then exists ws, agents w !! id = Some ws /\ effs = [Sent ws (CmdPower a force); PowerEvent id ps]
   else forall e, e ∈ effs -> e = PowerEvent id ps \/
        exists ip cmd, truthy (n_ipAddress n) = Some ip /\ e = Ssh ip cmd /\ safeCommand ip cmd a force) /\
  (power_status r = 200%Z ->
     PowerEvent id ps ∈ effs /\
     exists mac, w' = writeNode id (powerPatch ps mac) w /\
       tbl_find id (nodes (w_db w')) = Some (patch_node (powerPatch ps mac) n)) /\
  (power_status r <> 200%Z -> w' = w /\ PowerEvent id ps ∉ effs).
Proof.
  intros Ha Hn. unfold powerRoute. rewrite Ha, Hn.
  destruct (isAgentOnline w id && agentSupportsPower (n_agentVersion n)) eqn:Hv.
  { apply andb_true_iff in Hv as [Ho _]. unfold nodeSend, sendToAgent. rewrite Ho.
    assert (exists ws, agents w !! id = Some ws) as [ws Hws].
    { unfold isAgentOnline in Ho. destruct (agents w !! id) as [ws|]; [by exists ws|done]. }
    rewrite Hws. cbn [power_status app]. split; [tauto|]. split; [by exists ws|]. split; [|done].
    intros _. split; [by right; left|]. exists None. split; [done|]. by apply writeNode_row. }
  destruct (truthy (n_ipAddress n)) as [ip|] eqn:Hip; cbn [power_status].
  2: { split; [split; [done|intros [?|(? & ? & _)]; done]|]. split; [by intros e ?%elem_of_nil|].
       split; [done|]. intros _. split; [done|by intros ?%elem_of_nil]. }
  destruct (captureAndArm sshExec ip a) as [effs mac] eqn:Hc.
  assert (forall e, e ∈ effs ++ [Ssh ip (powerCommand a force)] ->
    exists cmd, e = Ssh ip cmd /\ safeCommand ip cmd a force) as Hsafe.
  { intros e [He| ->%list_elem_of_singleton]%elem_of_app; [|by eexists; split; [done|left]].
    apply (captureAndArm_effects ip a force). by rewrite Hc. }
  cbv beta iota zeta. rewrite (taken_match force _ _ (fun msg => (w, effs ++ [Ssh ip (powerCommand a force)], PowerFailed msg))).
  destruct (taken force (sshExec ip (powerCommand a force))) eqn:Ht; cbn [power_status].
  - split; [split; [|done]; intros _; right; by exists ip|]. split.
    { intros e [He| ->%list_elem_of_singleton]%elem_of_app; [|by left].
      right. destruct (Hsafe e He) as (cmd & ? & ?). by exists ip, cmd. }
    split; [|done]. intros _. split; [by apply elem_of_app; right; left|].
    eexists. split; [done|]. by apply writeNode_row.
  - split; [split; [done|]; intros [?|(ip' & [= <-] & ?)]; congruence|]. split.
    { intros e He. right. destruct (Hsafe e He) as (cmd & ? & ?). by exists ip, cmd. }
    split; [done|]. intros _. split; [done|]. intros He. by destruct (Hsafe _ He) as (cmd & ? & _).
Qed.
End Power.

(** * Wake *)

(** Waking sends the magic packet four ways and records it only when all left.  For
    a node with an address and a stored MAC, the request ends once the four sends
    have completed, in any order: a MAC that does not parse sends nothing and fails;
    otherwise the packet, six bytes 255 and sixteen copies of the six address bytes,
    goes to the subnet broadcast and the global one on ports 9 and 7, and the row
    becomes [waking] exactly when no send reported an error. *)
Theorem wakeRoute_spec w id n mac ip callbacks :
  tbl_find id (nodes (w_db w)) = Some n ->
  truthy (n_macAddress n) = Some mac -> truthy (n_ipAddress n) = Some ip -> length callbacks = 4%nat ->
  exists w' effs r, wakeRoute w id callbacks = Some (w', effs, r) /\
  match Mac.normalizeMac mac with
  | None => w' = w /\ effs = [] /\ power_status r = 502%Z
  | Some _ => exists bytes packet,
      length bytes = 6%nat /\ (forall b, b ∈ bytes -> (0 <= b <= 255)%Z) /\
      packet = repeat 255%Z 6 ++ concat (repeat bytes 16) /\
      effs = map (Datagram packet)
               [(Wol.broadcastFor ip 24, 9%Z); (Wol.broadcastFor ip 24, 7%Z);
                ("255.255.255.255", 9%Z); ("255.255.255.255", 7%Z)] ++
             (if power_status r =? 200 then [PowerEvent id "waking"] else [])%Z /\
      (power_status r = 200%Z <-> forall c, c ∈ callbacks -> c = None) /\
      w' = (if power_status r =? 200 then writeNode id (powerPatch "waking" None) w else w)%Z
  end.
Proof.
  intros Hn Hm Hip Hl. unfold wakeRoute, Wol.sendMagicPacket. rewrite Hn, Hm, Hip.
  pose proof (buildMagicPacket_spec mac) as Hp.
  destruct (Wol.buildMagicPacket mac) as [packet|e] eqn:E; [|rewrite Hp; by do 3 eexists].
  - destruct Hp as (bytes & -> & Hlen & Hb & _ & _).
    assert (exists m, Mac.normalizeMac mac = Some m) as [m ->].
    { unfold Wol.buildMagicPacket in E. unfold Mac.normalizeMac.
      destruct (Mac.MAC_RE _); [by eexists|discriminate E]. }
    destruct (countdown_spec callbacks None) as (r & Hr & Hok); [by destruct callbacks|].
    change (length (Wol.targets (Wol.broadcastFor ip 24))) with 4%nat.
    rewrite Hl in Hr. rewrite Hr.
    cbn [mbind option_bind]. destruct r as [[]|err]; do 3 eexists; (split; [done|]);
      exists bytes, (magicBytes bytes); cbn [power_status];
      (split; [done|]); (split; [exact Hb|]); (split; [done|]).
    + split; [reflexivity|]. split; [|reflexivity]. split; [|done]. intros _. by apply Hok.
    + split; [reflexivity|]. split; [|reflexivity]. split; [done|]. intros Hc.
      destruct Hok as [_ Hok]. discriminate Hok. done.
Qed.

(** * Offboarding *)

Section Wait.
Context (id : string) (deadline : Z) (view : Z -> world) (late : Z -> Z)
  (late_pos : forall t, (0 <= late t)%Z).

(** When the agent is looked at: the [k]-th poll. *)
Fixpoint pollAt (k : nat) : Z :=
  match k with O => 0%Z | S k' => nextPoll deadline late (pollAt k') end.

Lemma nextPoll_progress t :
  (t < deadline)%Z -> (t + 10 <= nextPoll deadline late t \/ deadline <= nextPoll deadline late t)%Z.
Proof using late_pos. intros Ht. unfold nextPoll, pollMs. specialize (late_pos t). lia. Qed.

Lemma offboardWait_polls fuel k :
  (Z.to_nat (deadline - pollAt k) + 10 <= 10 * fuel)%nat ->
  exists j gone, (k <= j)%nat /\
    offboardWait id deadline view late fuel (pollAt k) = Some (gone, pollAt j) /\
    (forall i, (k <= i < j)%nat -> (pollAt i < deadline)%Z /\ isAgentOnline (view (pollAt i)) id = true) /\
    (if gone then (pollAt j < deadline)%Z /\ isAgentOnline (view (pollAt j)) id = false
     else (deadline <= pollAt j)%Z).
Proof using late_pos.
  revert k. induction fuel as [|f IH]; intros k Hf; [lia|]. cbn [offboardWait].
  destruct (Z.ltb_spec (pollAt k) deadline) as [Hlt|Hge].
  2: { exists k, false. repeat split; [done|lia|lia|done]. }
  destruct (isAgentOnline (view (pollAt k)) id) eqn:Ho; cbn [negb].
  2: { exists k, true. repeat split; [done|lia|lia|done|done]. }
  pose proof (nextPoll_progress (pollAt k) Hlt).
  destruct (IH (S k)) as (j & gone & Hj & E & Hb & Hend).
  { cbn [pollAt]. lia. }
  exists j, gone. repeat split; [lia|exact E| | |done].
  - destruct (decide (i = k)) as [->|]; [done|]. apply Hb. lia.
  - destruct (decide (i = k)) as [->|]; [done|]. apply Hb. lia.
Qed.

(** The graceful offboarding always comes to an end, and removes a node only once its
    agent is seen gone.  However late its timers fire, the wait takes at most one
    poll per ten milliseconds of the deadline and two more; it ends at the first poll that finds
    the agent offline, before the deadline, or else at a poll past the deadline with
    the agent seen online at every poll; and only the former goes on to delete. *)
Theorem offboard_waits w n :
  tbl_find id (nodes (w_db w)) = Some n -> isAgentOnline w id = true ->
  exists j w' effs r,
  offboard id deadline view late (S (S (Z.to_nat (deadline / 10)))) w false = Some (w', effs, r) /\
  (forall i, (i < j)%nat -> (pollAt i < deadline)%Z /\ isAgentOnline (view (pollAt i)) id = true) /\
  ((r = OffboardTimedOut /\ (deadline <= pollAt j)%Z /\ w' = view (pollAt j) /\
    effs = windDown w id ++ nodeSend w id CmdDeprovision) \/
   ((pollAt j < deadline)%Z /\ isAgentOnline (view (pollAt j)) id = false /\
    exists rest, effs = windDown w id ++ nodeSend w id CmdDeprovision ++ rest /\
    (w', rest, r) = removeNode (view (pollAt j)) id
      (Offboarded (length (List.filter (onNode id) (deployments (w_db w))))))).
Proof using late_pos.
  intros Hn Ho. unfold offboard. rewrite Hn, Ho. cbn [negb].
  destruct (offboardWait_polls (S (S (Z.to_nat (deadline / 10)))) 0) as (j & gone & _ & E & Hb & Hend).
  { cbn [pollAt]. pose proof (Z.div_mod deadline 10). pose proof (Z.mod_pos_bound deadline 10). lia. }
  change (pollAt 0) with 0%Z in E. rewrite E. cbn [mbind option_bind]. exists j. destruct gone.
  - destruct (removeNode (view (pollAt j)) id _) as [[w' rest] r] eqn:Er.
    do 3 eexists. split; [done|]. split; [intros i Hi; apply Hb; lia|]. right.
    destruct Hend as [? ?]. split; [done|]. split; [done|]. exists rest. by rewrite <- app_assoc.
  - do 3 eexists. split; [done|]. split; [intros i Hi; apply Hb; lia|]. by left.
Qed.
End Wait.



Section Delete.
Context (id : string).


























End Delete.

(** ** Concrete runs *)


Definition nxNode (id : string) (mac : option string) : node :=
  Node id id (Some "10.0.0.1") "online" "on" None (Some 100000%Z) None None (Some "0.5.700") (Some 0%Z) None
    "agent-deployed" true false mac.

Definition nxJob : finetune_job :=
  FineTuneJob "job1" "n1" (Some "chat") "completed" (Some "completed") None ["n1"; "n2"] (Some "r1")
    "base" "sft" "ds" None None (Some "/out") None None None (Some "/out/merged") None None None None.

(** A model trained on [n1], deployed on [node]. *)
Definition nxDb (node : string) : db :=
  Db [nxNode "n1" (Some "AA:bb:0C:11:22:3f"); nxNode "n2" None]
     [ModelRow "m1" "chat" "vllm" (Some "job1"); ModelRow "m2" "llama3" "ollama" None]
     [Deployment "d1" None node "m1" "running" None (Some 8000%Z) None None false None None 0;
      Deployment "d2" None "n1" "m2" "running" None (Some 11434%Z) None None true None None 0]
     [ClusterNode "c1" "d2" "n1" "head" "running"; ClusterNode "c2" "d2" "n2" "worker" "running"]
     [MetricRow "k1" "n1" 10 None 0 None None] [nxJob].

(** The agent of [n1] is connected on socket 1. *)
Definition nxWorld (node : string) : world :=
  set_audits (fun _ => [AuditEvent "a1" "n1" "exec" (Some "df -h") (Some "disk") (Some 0%Z) 10])
    (set_agents (<["n1" := 1%nat]>) (set_conns (<[1%nat := Conn (Some "n1") None None true]>)
      (started (nxDb node) [] []))).

(** [sudo] asks for a password: the command exits 1, the request answers 200. *)
Definition nxSudo (ip cmd : string) : sshResult := Exited 1 "sudo: a password is required".

Lemma powerRoute_spec_witness :
  let '(w', effs, r) := powerRoute nxSudo (nxWorld "n2") "n2" (Some (JStr "reboot")) false in
  power_status r = 200%Z /\ PowerEvent "n2" "rebooting" ∈ effs /\
  (n_powerState <$> tbl_find "n2" (nodes (w_db w'))) = Some "rebooting".
Proof.
  pose proof (powerRoute_spec nxSudo (nxWorld "n2") "n2" (Some (JStr "reboot")) Reboot false (nxNode "n2" None)
    eq_refl eq_refl) as H.
  destruct (powerRoute nxSudo (nxWorld "n2") "n2" (Some (JStr "reboot")) false) as [[w' effs] r].
  destruct H as (Hok & _ & Hrow & _).
  assert (power_status r = 200%Z) as E.
  { apply Hok. right. exists "10.0.0.1". by split. }
  destruct (Hrow E) as (He & mac & _ & Hn). rewrite Hn. done.
Defined.

Lemma wakeRoute_spec_witness :
  exists w' effs r, wakeRoute (nxWorld "n2") "n1" [None; None; None; None] = Some (w', effs, r) /\
    power_status r = 200%Z.
Proof.
  destruct (wakeRoute_spec (nxWorld "n2") "n1" (nxNode "n1" (Some "AA:bb:0C:11:22:3f")) "AA:bb:0C:11:22:3f" "10.0.0.1"
    [None; None; None; None]) as (w' & effs & r & E & H); try reflexivity.
  exists w', effs, r. split; [exact E|].
  destruct (Mac.normalizeMac "AA:bb:0C:11:22:3f") eqn:Em; [|vm_compute in Em; discriminate Em].
  destruct H as (bytes & packet & _ & _ & _ & _ & Hok & _). apply Hok.
  intros c Hc. rewrite !elem_of_cons, elem_of_nil in Hc. tauto.
Defined.

(** The agent disconnects 2.5 s into the wait; the timers fire 7 ms late. *)
Definition nxView (t : Z) : world :=
  if (t <? 2500)%Z then nxWorld "n1" else set_agents (delete "n1") (nxWorld "n1").

Lemma offboard_waits_witness :
  exists w' effs, offboard "n1" 30000 nxView (fun _ => 7%Z) 3002 (nxWorld "n1") false =
    Some (w', effs, Offboarded 2) /\ tbl_find "n1" (nodes (w_db w')) = None.
Proof.
  destruct (offboard_waits "n1" 30000 nxView (fun _ => 7%Z)) with (w := nxWorld "n1")
    (n := nxNode "n1" (Some "AA:bb:0C:11:22:3f")) as (j & w' & effs & r & E & _ & _).
  - intros _. lia.
  - reflexivity.
  - reflexivity.
  - change (S (S (Z.to_nat (30000 / 10)))) with 3002%nat in E. exists w', effs. rewrite E.
    vm_compute in E. injection E as <- <- <-. split; [done|]. by vm_compute.
Defined.




