(* ===== verification/LaunchArgs.v ===== *)
(** The arguments a node's agent launches a rank with: quoting and splitting
    shell words (jobs/sh-quote.ts and the tokenizer of
    runtime/dgxrun/dgxrun-args.ts), in module [Shell], and the [docker run]
    argument list of runtime/dgxrun/dgxrun-args.ts, in module [Args].  The
    recipe has been parsed from JSON; the order of an object's entries is their
    order in the list. *)
From S2P Require Import Prelude JsNum Recipes.

Module Shell.

(** [s.replaceAll("'", "'\\''")] in quotes. *)
Definition escaped_sq : string := String sq (String bs (String sq (String sq ""))).

Definition shQuote (s : string) : string :=
  String sq (Launch.replace_sq escaped_sq s +:+ String sq "").

Definition shellQuote (argv : list string) : string := str_join " " (map shQuote argv).

(** Where the tokenizer stands: outside quotes, or in one of the inner loops. *)
Inductive mode := Plain | Single | Double.

Definition is_sep (c : ascii) : bool :=
  Ascii.eqb c " " || Ascii.eqb c (ascii_of_nat 9) || Ascii.eqb c nl || Ascii.eqb c (ascii_of_nat 13).

Definition snoc (s : string) (c : ascii) : string := s +:+ String c "".

(** The loop over [cmd]: [cur] and [has] are its variables, the rest of the
    string its index. *)
Fixpoint tokens (m : mode) (cur : string) (has : bool) (s : string) : list string :=
  match s with
  | EmptyString => if has then [cur] else []
  | String c r =>
      match m with
      | Plain =>
          if is_sep c then
            if has then cur :: tokens Plain "" false r else tokens Plain cur has r
          else if Ascii.eqb c sq then tokens Single cur true r
          else if Ascii.eqb c dq then tokens Double cur true r
          else if Ascii.eqb c bs then
            match r with
            | String d r' =>
                if Ascii.eqb d nl then tokens Plain cur (negb (String.eqb cur "")) r'
                else tokens Plain (snoc cur d) true r'
            | EmptyString => [snoc cur c]
            end
          else tokens Plain (snoc cur c) true r
      | Single =>
          if Ascii.eqb c sq then tokens Plain cur has r else tokens Single (snoc cur c) has r
      | Double =>
          if Ascii.eqb c dq then tokens Plain cur has r
          else if Ascii.eqb c bs then
            match r with
            | String d r' =>
                if Ascii.eqb d nl then tokens Double cur has r'
                else if Ascii.eqb d dq || Ascii.eqb d bs then tokens Double (snoc cur d) has r'
                else tokens Double (snoc cur c) has r
            | EmptyString => [snoc cur c]
            end
          else tokens Double (snoc cur c) has r
      end
  end.

Definition tokenizeCommand (cmd : string) : list string := tokens Plain "" false cmd.

End Shell.

Module Args.
Import Shell.

Record DgxrunRecipe := {
  ar_model : option string; ar_container : string; ar_env : option (list (string * json));
  ar_command : string; ar_defaults : option (list (string * json));
  ar_mods : option (list string) }.

Record DgxrunLaunchOptions := {
  lo_containerName : string; lo_weightsDir : string; lo_rank : Z; lo_nnodes : Z;
  lo_masterAddr : string; lo_masterPort : Z; lo_headless : option bool;
  lo_params : option (list (string * json)); lo_shmSize : option string;
  lo_modsDir : option string; lo_hasInfiniband : option bool }.

Definition DEFAULT_MODS_DIR : string := "/opt/dgx-agent/mods".
Definition CONTAINER_MODS_ROOT : string := "/mods".

Definition FABRIC_ENV_DEFAULTS : list (string * string) :=
  [("NCCL_NET", "IB"); ("NCCL_IB_DISABLE", "0"); ("NCCL_IB_HCA", "rocep1s0f0,roceP2p1s0f0");
   ("NCCL_SOCKET_IFNAME", "enP7s7,enp1s0f0np0,enP2p1s0f0np0"); ("NCCL_IB_GID_INDEX", "3");
   ("NCCL_CROSS_NIC", "1"); ("NCCL_CUMEM_ENABLE", "0"); ("NCCL_IGNORE_CPU_AFFINITY", "1");
   ("NCCL_DEBUG", "WARN"); ("GLOO_SOCKET_IFNAME", "enp1s0f0np0"); ("OMP_NUM_THREADS", "4");
   ("TRANSFORMERS_OFFLINE", "1")].

Definition IB_FABRIC_ENV_KEYS : list string :=
  ["NCCL_NET"; "NCCL_IB_DISABLE"; "NCCL_IB_HCA"; "NCCL_SOCKET_IFNAME"; "NCCL_IB_GID_INDEX";
   "NCCL_CROSS_NIC"; "GLOO_SOCKET_IFNAME"].

(** [/^[A-Za-z0-9][A-Za-z0-9._-]*$/] *)
Definition modNameOk (m : string) : bool :=
  match m with
  | String c r => is_alnum c && str_all (fun d => is_alnum d || Ascii.eqb d "." ||
                                           Ascii.eqb d "_" || Ascii.eqb d "-") r
  | EmptyString => false
  end.

Definition missingModDirs (mods : option (list string)) (modsDir : string)
    (exists_ : string -> bool) : list string :=
  List.filter (fun m => negb (exists_ (modsDir +:+ "/" +:+ m))) (default [] mods).

Definition OVERRIDE_ALIASES : list (string * string) :=
  [("tensorParallel", "tensor_parallel"); ("pipelineParallel", "pipeline_parallel");
   ("gpuMem", "gpu_memory_utilization"); ("maxModelLen", "max_model_len");
   ("servedModelName", "served_model_name")].

(** [v == null || v === ""] *)
Definition blank (v : json) : bool :=
  match v with JNull | JStr "" => true | _ => false end.

Definition fromDefault (subs : list (string * string)) (kv : string * json) :=
  if blank kv.2 then subs else al_set subs kv.1 (Recipe.string_of kv.2).

Definition fromParam (subs : list (string * string)) (kv : string * json) :=
  if blank kv.2 then subs
  else
    let v := Recipe.string_of kv.2 in
    let subs := al_set subs kv.1 v in
    match al_get OVERRIDE_ALIASES kv.1 with Some alias => al_set subs alias v | None => subs end.

Definition buildSubstitutions (r : DgxrunRecipe) (params : option (list (string * json))) :
    list (string * string) :=
  let subs := foldl fromDefault [] (default [] (ar_defaults r)) in
  let subs := match truthy (ar_model r) with Some m => al_set subs "model" m | None => subs end in
  foldl fromParam subs (default [] params).

Definition ident_start (c : ascii) : bool := is_upper c || is_lower c || Ascii.eqb c "_".
Definition ident_char (c : ascii) : bool := is_alnum c || Ascii.eqb c "_".

(** One left-to-right pass: [pend] is the identifier read since an opening
    brace.  A character that cannot continue a placeholder gives back what was
    read; an opening brace starts again. *)
Fixpoint fill (subs : list (string * string)) (pend : option string) (s : string) : string :=
  let back := match pend with Some k => String "{" k | None => "" end in
  match s with
  | EmptyString => back
  | String c r =>
      if Ascii.eqb c "{" then back +:+ fill subs (Some "") r
      else match pend with
        | None => String c (fill subs None r)
        | Some k =>
            if Ascii.eqb c "}" && negb (String.eqb k "") then
              default (back +:+ "}") (al_get subs k) +:+ fill subs None r
            else if (if String.eqb k "" then ident_start c else ident_char c) then
              fill subs (Some (snoc k c)) r
            else back +:+ String c (fill subs None r)
        end
  end.

Definition fillPlaceholders (template : string) (subs : list (string * string)) : string :=
  fill subs None template.

Definition EXECUTOR_FLAG : string := "--distributed-executor-backend".

(** [out.indexOf(x)] as a position, and [out[idx + 1] = "mp"]. *)
Fixpoint forceMpExecutor (argv : list string) : list string :=
  match argv with
  | [] => [EXECUTOR_FLAG; "mp"]
  | x :: rest =>
      if String.eqb x EXECUTOR_FLAG then
        match rest with
        | _ :: rest' => x :: "mp" :: rest'
        | [] => [x; EXECUTOR_FLAG; "mp"]
        end
      else x :: forceMpExecutor rest
  end.

Inductive argsError := MissingContainer | MissingCommand | InvalidModName (m : string).

(** The loop that checks every declared mod. *)
Definition checkModNames (mods : list string) : result argsError () :=
  match js_find (fun m => negb (modNameOk m)) mods with
  | Some m => Err (InvalidModName m)
  | None => Ok ()
  end.

Definition isHeadless (o : DgxrunLaunchOptions) : bool := default (0 <? lo_rank o)%Z (lo_headless o).
Definition infiniband (o : DgxrunLaunchOptions) : bool := default true (lo_hasInfiniband o).

Definition containerFlags (o : DgxrunLaunchOptions) : list string :=
  ["run"; "-d"; "--name"; lo_containerName o; "--network"; "host"; "--ipc"; "host";
   "--gpus"; "all"] ++
  (if infiniband o then ["--device"; "/dev/infiniband:/dev/infiniband"] else []) ++
  ["--cap-add"; "IPC_LOCK"; "--ulimit"; "memlock=-1:-1"; "--ulimit"; "stack=67108864:67108864";
   "--shm-size"; default "32gb" (lo_shmSize o);
   "-v"; lo_weightsDir o +:+ ":/cache/huggingface"].

Definition modMounts (o : DgxrunLaunchOptions) (mods : list string) : list string :=
  concat (map (fun m =>
    ["-v"; default DEFAULT_MODS_DIR (lo_modsDir o) +:+ "/" +:+ m +:+ ":" +:+
           CONTAINER_MODS_ROOT +:+ "/" +:+ m +:+ ":ro"]) mods).

Definition fabricEnv (o : DgxrunLaunchOptions) : list (string * string) :=
  if infiniband o then FABRIC_ENV_DEFAULTS
  else List.filter (fun kv : string * string => negb (bool_decide (kv.1 ∈ IB_FABRIC_ENV_KEYS)))
         FABRIC_ENV_DEFAULTS.

(** The environment in the order it is passed: defaults, then the recipe's. *)
Definition envPairs (r : DgxrunRecipe) (o : DgxrunLaunchOptions) : list (string * string) :=
  ("HF_HOME", "/cache/huggingface") :: ("HF_HUB_OFFLINE", "1") :: fabricEnv o ++
  map (fun kv : string * json => (kv.1, Recipe.string_of kv.2)) (default [] (ar_env r)).

Definition envFlags (kvs : list (string * string)) : list string :=
  concat (map (fun kv : string * string => ["-e"; kv.1 +:+ "=" +:+ kv.2]) kvs).

Definition rankFlags (o : DgxrunLaunchOptions) : list string :=
  ["--nnodes"; pretty (lo_nnodes o); "--node-rank"; pretty (lo_rank o);
   "--master-addr"; lo_masterAddr o; "--master-port"; pretty (lo_masterPort o)] ++
  (if isHeadless o then ["--headless"] else []).

(** What the container serves with, before the rank's own flags. *)
Definition serveCommand (r : DgxrunRecipe) (params : option (list (string * json))) : list string :=
  forceMpExecutor (tokenizeCommand (fillPlaceholders (ar_command r) (buildSubstitutions r params))).

Definition serveArgv (r : DgxrunRecipe) (o : DgxrunLaunchOptions) : list string :=
  serveCommand r (lo_params o) ++ rankFlags o.

Definition modScript (mods : list string) (argv : list string) : string :=
  String.concat "" (map (fun m => "bash " +:+ CONTAINER_MODS_ROOT +:+ "/" +:+ m +:+ "/run.sh && ")
                      mods) +:+ "exec " +:+ shellQuote argv.

Definition buildDgxrunDockerArgs (r : DgxrunRecipe) (o : DgxrunLaunchOptions) :
    result argsError (list string) :=
  _ ← guard_or (negb (String.eqb (ar_container r) "")) MissingContainer;
  _ ← guard_or (negb (String.eqb (str_trim (ar_command r)) "")) MissingCommand;
  let mods := default [] (ar_mods r) in
  _ ← checkModNames mods;
  let args := containerFlags o ++ modMounts o mods ++ envFlags (envPairs r o) ++
              [ar_container r] in
  Ok (args ++ match mods with
              | [] => serveArgv r o
              | _ => ["bash"; "-c"; modScript mods (serveArgv r o)]
              end).

(** [dgxrunContainerName] and the options [launchDgxrun] (runtime/dgxrun/dgxrun.ts)
    fills from an order: one rank's, with this node's weights directory and
    whether it has the fabric. *)
Definition dgxrunContainerName (deploymentId : string) : string := "dgxrun_" +:+ deploymentId.

Definition launchOptions (deploymentId : string) (rank nnodes : Z) (masterAddr : string)
    (masterPort : Z) (params : option (list (string * json))) (weightsDir : string)
    (hasInfiniband : bool) : DgxrunLaunchOptions :=
  {| lo_containerName := dgxrunContainerName deploymentId; lo_weightsDir := weightsDir;
     lo_rank := rank; lo_nnodes := nnodes; lo_masterAddr := masterAddr;
     lo_masterPort := masterPort; lo_headless := None; lo_params := params; lo_shmSize := None;
     lo_modsDir := None; lo_hasInfiniband := Some hasInfiniband |}.

End Args.
