(* ===== verification/LaunchArgsFacts.v ===== *)
(** Facts of [LaunchArgs]: quoting is undone by splitting; the mods wrapper
    runs the same serve command; the environment a container ends with; the
    ranks of one deployment. *)
From S2P Require Import Prelude JsNum Recipes Deployments LaunchArgs.
Import Shell Args.

(** * Splitting quoted words *)

Lemma snoc_app s c t : (snoc s c +:+ t) = (s +:+ String c t).
Proof. unfold snoc. by rewrite str_app_assoc. Qed.

Lemma tokens_single v : forall cur rest,
  tokens Single cur true (Launch.replace_sq escaped_sq v +:+ String sq rest) =
  tokens Plain (cur +:+ v) true rest.
Proof.
  induction v as [|c v IH]; intros cur rest; simpl Launch.replace_sq.
  - by rewrite app_empty_l, app_empty_r.
  - destruct (Ascii.eqb c sq) eqn:E.
    + apply Ascii.eqb_eq in E as ->. rewrite str_app_assoc.
      change (tokens Single (snoc cur sq) true (Launch.replace_sq escaped_sq v +:+ String sq rest)
              = tokens Plain (cur +:+ String sq v) true rest).
      by rewrite IH, snoc_app.
    + rewrite app_String. cbn [tokens]. by rewrite E, IH, snoc_app.
Qed.

Lemma tokens_shQuote v cur has rest :
  tokens Plain cur has (shQuote v +:+ rest) = tokens Plain (cur +:+ v) true rest.
Proof.
  unfold shQuote. rewrite app_String, str_app_assoc.
  change (tokens Single cur true (Launch.replace_sq escaped_sq v +:+ String sq rest) =
          tokens Plain (cur +:+ v) true rest).
  apply tokens_single.
Qed.

Lemma tokens_quoted argv : tokens Plain "" false (shellQuote argv) = argv.
Proof.
  unfold shellQuote, str_join.
  induction argv as [|v [|w argv] IH]; [done| |].
  - change (tokens Plain "" false (shQuote v) = [v]).
    by rewrite <- (app_empty_r (shQuote v)), tokens_shQuote.
  - change (String.concat " " (map shQuote (v :: w :: argv)))
      with (shQuote v +:+ String " " (String.concat " " (map shQuote (w :: argv)))).
    rewrite tokens_shQuote. cbn [tokens]. simpl is_sep. cbn [orb]. by rewrite IH.
Qed.

(** A character that stands for itself outside quotes. *)
Definition plain_char (c : ascii) : bool :=
  negb (is_sep c || Ascii.eqb c sq || Ascii.eqb c dq || Ascii.eqb c bs).

Lemma tokens_plain w : forall cur has rest,
  str_all plain_char w = true -> w <> "" ->
  tokens Plain cur has (w +:+ rest) = tokens Plain (cur +:+ w) true rest.
Proof.
  induction w as [|c w IH]; intros cur has rest Hw Hne; [done|].
  cbn [str_all] in Hw. apply andb_true_iff in Hw as [Hc Hw]. rewrite app_String.
  unfold plain_char in Hc. rewrite negb_true_iff, !orb_false_iff in Hc.
  destruct Hc as [[[H1 H2] H3] H4]. cbn [tokens]. rewrite H1, H2, H3, H4.
  destruct w as [|d w]; [by rewrite app_empty_l|].
  rewrite IH by done. by rewrite snoc_app.
Qed.

Lemma tokens_word w rest :
  str_all plain_char w = true -> w <> "" ->
  tokens Plain "" false (w +:+ String " " rest) = w :: tokens Plain "" false rest.
Proof. intros Hw Hne. by rewrite tokens_plain. Qed.

(** C13: Quoting an argument list and splitting the result gives the list back,
    whatever characters the arguments hold, empty arguments included; so a word
    of a generated script can neither vanish nor break out of its place. *)
Theorem tokenize_shellQuote argv : tokenizeCommand (shellQuote argv) = argv.
Proof. apply tokens_quoted. Qed.

(** * The script that applies the mods *)

Lemma mod_name_plain m : modNameOk m = true -> str_all plain_char m = true /\ m <> "".
Proof.
  destruct m as [|c m]; [done|]. intros H. split; [|done].
  assert (Hk : forall d, is_alnum d || Ascii.eqb d "." || Ascii.eqb d "_" || Ascii.eqb d "-" = true ->
                    plain_char d = true).
  { intros d. destruct d as [[] [] [] [] [] [] [] []]; vm_compute; congruence. }
  cbn [modNameOk] in H. apply andb_true_iff in H as [Hc H].
  cbn [str_all]. rewrite (Hk c), (str_all_impl _ _ m Hk H); [done|]. by rewrite Hc.
Qed.

Definition modPreamble (mods : list string) : list string :=
  concat (map (fun m => ["bash"; CONTAINER_MODS_ROOT +:+ "/" +:+ m +:+ "/run.sh"; "&&"]) mods).

Lemma tokens_modScript mods argv :
  Forall (fun m => modNameOk m = true) mods ->
  tokenizeCommand (modScript mods argv) = modPreamble mods ++ "exec" :: argv.
Proof.
  unfold tokenizeCommand, modScript, modPreamble. induction mods as [|m mods IH]; intros Hm.
  - change (tokens Plain "" false ("exec" +:+ String " " (shellQuote argv)) = "exec" :: argv).
    rewrite tokens_word by done. by rewrite tokens_quoted.
  - apply Forall_cons in Hm as [[Hp Hne]%mod_name_plain Hm]. specialize (IH Hm).
    set (rest := String.concat "" (map _ mods) +:+ "exec " +:+ shellQuote argv) in *.
    replace (String.concat "" _ +:+ "exec " +:+ shellQuote argv)
      with ("bash" +:+ String " " ((CONTAINER_MODS_ROOT +:+ "/" +:+ m +:+ "/run.sh") +:+
              String " " ("&&" +:+ String " " rest))).
    + rewrite !tokens_word; [|done|done| |done|done|done].
      * cbn [map concat]. by rewrite IH.
      * unfold CONTAINER_MODS_ROOT. rewrite !str_all_app, Hp. done.
    + unfold rest. cbn [map]. destruct mods as [|m' mods]; cbn [map];
        [|change (String.concat "" (?a :: ?b :: ?l)) with (a +:+ "" +:+ String.concat "" (b :: l))];
        change (String.concat "" [?a]) with a; unfold CONTAINER_MODS_ROOT;
        rewrite ?str_app_assoc; reflexivity.
Qed.

(** * The argument list *)

Definition declaredMods (r : DgxrunRecipe) : list string := default [] (ar_mods r).

Definition withoutMods (r : DgxrunRecipe) : DgxrunRecipe :=
  {| ar_model := ar_model r; ar_container := ar_container r; ar_env := ar_env r;
     ar_command := ar_command r; ar_defaults := ar_defaults r; ar_mods := None |}.

(** What [buildDgxrunDockerArgs] asks of a recipe. *)
Definition launchable (r : DgxrunRecipe) : Prop :=
  ar_container r <> "" /\ str_trim (ar_command r) <> "" /\
  Forall (fun m => modNameOk m = true) (declaredMods r).

Lemma checkModNames_spec mods :
  match checkModNames mods with
  | Ok _ => Forall (fun m => modNameOk m = true) mods
  | Err e => exists m, m ∈ mods /\ modNameOk m = false /\ e = InvalidModName m
  end.
Proof.
  unfold checkModNames. destruct (js_find _ mods) as [m|] eqn:E.
  - apply js_find_Some in E as [Hm Hb%negb_true_iff]. by exists m.
  - rewrite js_find_None in E. apply Forall_forall. intros m Hm. by apply negb_false_iff, E.
Qed.

Definition containerCommand (r : DgxrunRecipe) (o : DgxrunLaunchOptions) : list string :=
  match declaredMods r with
  | [] => serveArgv r o
  | _ => ["bash"; "-c"; modScript (declaredMods r) (serveArgv r o)]
  end.

Lemma build_launchable r o :
  launchable r ->
  buildDgxrunDockerArgs r o =
  Ok ((containerFlags o ++ modMounts o (declaredMods r) ++ envFlags (envPairs r o) ++
       [ar_container r]) ++ containerCommand r o).
Proof.
  intros (Hc & Ht & Hm). unfold buildDgxrunDockerArgs, containerCommand, declaredMods in *.
  apply String.eqb_neq in Hc, Ht. rewrite Hc, Ht. simpl mbind.
  pose proof (checkModNames_spec (default [] (ar_mods r))) as H.
  destruct (checkModNames _) as [|e]; [done|].
  destruct H as (m & Hin & Hb & _). rewrite Forall_forall in Hm. apply Hm in Hin. congruence.
Qed.

Lemma build_not_launchable r o :
  ~ launchable r ->
  buildDgxrunDockerArgs r o =
  Err (if String.eqb (ar_container r) "" then MissingContainer
       else if String.eqb (str_trim (ar_command r)) "" then MissingCommand
       else InvalidModName (default "" (js_find (fun m => negb (modNameOk m)) (declaredMods r)))).
Proof.
  intros Hn. unfold buildDgxrunDockerArgs.
  destruct (String.eqb_spec (ar_container r) "") as [|Hc]; [done|].
  destruct (String.eqb_spec (str_trim (ar_command r)) "") as [|Ht]; [done|]. simpl mbind.
  unfold declaredMods. pose proof (checkModNames_spec (default [] (ar_mods r))) as H.
  unfold checkModNames in *. destruct (js_find _ _) as [m|] eqn:E; [done|].
  by destruct Hn.
Qed.

Lemma modMounts_spelt o mods :
  modMounts o mods =
  flat_map (fun m => ["-v"; default "/opt/dgx-agent/mods" (lo_modsDir o) +:+ "/" +:+ m +:+
                            ":/mods/" +:+ m +:+ ":ro"]) mods.
Proof. unfold modMounts. by rewrite flat_map_concat_map. Qed.

Lemma modPreamble_spelt mods :
  modPreamble mods = flat_map (fun m => ["bash"; "/mods/" +:+ m +:+ "/run.sh"; "&&"]) mods.
Proof. unfold modPreamble. by rewrite flat_map_concat_map. Qed.

(** A mod's name is one segment of a path, and stays where it is put. *)
Definition segment (m : string) : Prop :=
  m <> "" /\ m <> "." /\ m <> ".." /\
  str_all (fun c => negb (Ascii.eqb c "/") && negb (Ascii.eqb c ":")) m = true.

Lemma mod_name_segment m : modNameOk m = true -> segment m.
Proof.
  intros H. destruct m as [|c m]; [done|]. cbn [modNameOk] in H.
  split_and!; [done|by intros [= -> ->]|by intros [= -> ->]|].
  apply andb_true_iff in H as [Hc Hm]. apply (str_all_impl (fun d => is_alnum d || Ascii.eqb d "." ||
    Ascii.eqb d "_" || Ascii.eqb d "-")).
  - intros d. destruct d as [[] [] [] [] [] [] [] []]; vm_compute; congruence.
  - cbn [str_all]. by rewrite Hc, Hm.
Qed.

(** C12: Applying mods changes how a rank is started and nothing else: a recipe
    is accepted exactly when its image and command are not blank and every mod
    name is accepted, and an accepted name is a single path segment; its
    argument list with mods is the one without them plus, for each mod, the
    read-only mount of its directory in the node's mods directory on
    [/mods/<mod>], and instead of the serve command a shell script whose words
    are [bash /mods/<mod>/run.sh &&] for each mod, in order, and an [exec] of
    the very same serve command. *)
Theorem dgxrun_mods_equivalence r o :
  (is_ok (buildDgxrunDockerArgs r o) <-> launchable r) /\
  forall args, buildDgxrunDockerArgs r o = Ok args ->
    Forall segment (declaredMods r) /\
    exists flags env cmd,
      buildDgxrunDockerArgs (withoutMods r) o = Ok (flags ++ env ++ [ar_container r] ++ serveArgv r o) /\
      args = flags ++
             flat_map (fun m => ["-v"; default "/opt/dgx-agent/mods" (lo_modsDir o) +:+ "/" +:+ m +:+
                                       ":/mods/" +:+ m +:+ ":ro"]) (declaredMods r) ++
             env ++ [ar_container r] ++ cmd /\
      (declaredMods r = [] -> cmd = serveArgv r o) /\
      (declaredMods r <> [] -> exists script,
         cmd = ["bash"; "-c"; script] /\
         tokenizeCommand script =
           flat_map (fun m => ["bash"; "/mods/" +:+ m +:+ "/run.sh"; "&&"]) (declaredMods r) ++
           "exec" :: serveArgv r o).
Proof.
  assert (Hdec : launchable r \/ ~ launchable r).
  { destruct (decide (ar_container r = "")), (decide (str_trim (ar_command r) = "")),
      (decide (Forall (fun m => modNameOk m = true) (declaredMods r)));
      unfold launchable; tauto. }
  split.
  - split; [|intros H; eexists; by apply build_launchable].
    intros [args Ha]. destruct Hdec as [H|H]; [done|].
    by rewrite (build_not_launchable _ _ H) in Ha.
  - intros args Ha. destruct Hdec as [H|H]; [|by rewrite (build_not_launchable _ _ H) in Ha].
    rewrite (build_launchable _ _ H) in Ha. apply Ok_inj in Ha as <-.
    destruct H as (Hc & Ht & Hm). split; [by eapply Forall_impl; [exact Hm|apply mod_name_segment]|].
    exists (containerFlags o), (envFlags (envPairs r o)), (containerCommand r o).
    rewrite <- modMounts_spelt, <- modPreamble_spelt. split_and!.
    + rewrite build_launchable by (split; [done|split; [done|constructor]]).
      simpl modMounts. by rewrite app_nil_l, <- !app_assoc.
    + by rewrite <- !app_assoc.
    + unfold containerCommand. by intros ->.
    + intros Hne. exists (modScript (declaredMods r) (serveArgv r o)).
      split; [|by apply tokens_modScript].
      unfold containerCommand. by destruct (declaredMods r).
Qed.

(** * The environment and the executor *)

(** Docker's rule for repeated [-e] flags: the last one of a name counts. *)
Definition effectiveEnv (kvs : list (string * string)) (k : string) : option string :=
  al_get (rev kvs) k.

Lemma al_get_app {K V} `{EqDecision K} (a b : list (K * V)) k :
  al_get (a ++ b) k = match al_get a k with Some v => Some v | None => al_get b k end.
Proof. induction a as [|[k' v] a IH]; simpl; [done|]. by destruct (decide (k = k')). Qed.

Lemma effectiveEnv_app a b k :
  effectiveEnv (a ++ b) k =
  match effectiveEnv b k with Some v => Some v | None => effectiveEnv a k end.
Proof. unfold effectiveEnv. by rewrite rev_app_distr, al_get_app. Qed.

Lemma effectiveEnv_None kvs k : effectiveEnv kvs k = None <-> k ∉ kvs.*1.
Proof.
  unfold effectiveEnv. rewrite al_get_None, !list_elem_of_fmap.
  split; intros H (x & Hk & Hx); apply H; exists x; by rewrite ?elem_of_rev in *.
Qed.

Definition recipeEnv (r : DgxrunRecipe) : list (string * string) :=
  map (fun kv : string * json => (kv.1, Recipe.string_of kv.2)) (default [] (ar_env r)).

Definition defaultEnv (o : DgxrunLaunchOptions) : list (string * string) :=
  ("HF_HOME", "/cache/huggingface") :: ("HF_HUB_OFFLINE", "1") :: fabricEnv o.

(** The recipe has the last word on every variable, and the defaults fill the
    rest. *)
Lemma effectiveEnv_launch r o k :
  effectiveEnv (envPairs r o) k =
  match effectiveEnv (recipeEnv r) k with
  | Some v => Some v
  | None => effectiveEnv (defaultEnv o) k
  end.
Proof. apply (effectiveEnv_app (defaultEnv o) (recipeEnv r)). Qed.

Lemma no_fabric_env o k :
  infiniband o = false -> k ∈ IB_FABRIC_ENV_KEYS -> effectiveEnv (defaultEnv o) k = None.
Proof.
  intros Hib Hk. apply effectiveEnv_None. unfold defaultEnv, fabricEnv. rewrite Hib.
  revert k Hk. apply Forall_forall. apply (bool_decide_unpack _). by vm_compute.
Qed.

(** What the serve command's parser takes for an option given several times:
    the last value. *)
Fixpoint executorOf (argv : list string) : option string :=
  match argv with
  | x :: ((v :: _) as rest) =>
      match executorOf rest with
      | Some w => Some w
      | None => if String.eqb x EXECUTOR_FLAG then Some v else None
      end
  | _ => None
  end.

Lemma executorOf_None argv : EXECUTOR_FLAG ∉ argv -> executorOf argv = None.
Proof.
  induction argv as [|x argv IH]; [done|]. rewrite not_elem_of_cons. intros [Hx Hr].
  simpl. destruct argv as [|v argv]; [done|]. rewrite IH by done.
  by destruct (String.eqb_spec x EXECUTOR_FLAG).
Qed.

Lemma executorOf_cons x argv w : executorOf argv = Some w -> executorOf (x :: argv) = Some w.
Proof. intros H. destruct argv; [done|]. cbn [executorOf] in *. by rewrite H. Qed.

Lemma executorOf_forced argv :
  (count_occ String.string_dec argv EXECUTOR_FLAG <= 1)%nat ->
  executorOf (forceMpExecutor argv) = Some "mp".
Proof.
  induction argv as [|x argv IH]; [done|]. cbn [forceMpExecutor count_occ].
  destruct (String.eqb_spec x EXECUTOR_FLAG) as [->|Hx].
  - destruct (String.string_dec EXECUTOR_FLAG EXECUTOR_FLAG) as [_|]; [|done]. intros Hc.
    destruct argv as [|v argv]; [done|].
    assert (EXECUTOR_FLAG ∉ argv) as Hn.
    { rewrite list_elem_of_In, (count_occ_not_In String.string_dec).
      cbn [count_occ] in Hc. destruct (String.string_dec v EXECUTOR_FLAG); lia. }
    cbn [executorOf]. destruct argv as [|w argv].
    + done.
    + rewrite (executorOf_None (w :: argv)) by done. done.
  - destruct (String.string_dec x EXECUTOR_FLAG); [done|]. intros Hc.
    apply executorOf_cons, IH. lia.
Qed.

(** With the flag given twice the first value is replaced and the last, which
    counts, is kept. *)
Example executor_twice :
  executorOf (forceMpExecutor [EXECUTOR_FLAG; "ray"; EXECUTOR_FLAG; "ray"]) = Some "ray".
Proof. reflexivity. Qed.

(** * The ranks of one deployment *)

(** The command line of an order's rank, on a node with its own weights
    directory and fabric. *)
Definition orderOptions (d : Dispatch.DgxrunNodeDeploy DgxrunRecipe (list (string * json)))
    (weightsDir : string) (ib : bool) : DgxrunLaunchOptions :=
  launchOptions (Dispatch.dp_deploymentId d) (Z.of_nat (Dispatch.dp_rank d))
    (Z.of_nat (Dispatch.dp_nnodes d)) (Dispatch.dp_masterAddr d) (Dispatch.dp_masterPort d)
    (Some (Dispatch.dp_params d)) weightsDir ib.

(** The ranks of one deployment agree: each order of the fan-out, launched
    on its own node, serves the same command with the executor [mp] (unless the
    recipe gives that flag more than once), as rank [i] of as many ranks as
    there are nodes, with the head's address and the one port, headless exactly
    beyond the head; a variable the recipe sets has its value on every node, and
    a fabric variable it does not set is absent where there is no fabric. *)
Theorem dgxrun_ranks_agree id r ids ips port ps ds :
  Dispatch.buildDgxrunDeploys id r ids ips port ps = Ok ds ->
  launchable r ->
  length ds = length ids /\
  ((count_occ String.string_dec (tokenizeCommand (fillPlaceholders (ar_command r)
      (buildSubstitutions r (Some ps)))) EXECUTOR_FLAG <= 1)%nat ->
   executorOf (serveCommand r (Some ps)) = Some "mp") /\
  forall i d weightsDir ib, ds !! i = Some d ->
    let o := orderOptions d weightsDir ib in
    exists flags,
      buildDgxrunDockerArgs (Dispatch.dp_recipe d) o =
        Ok (flags ++ ar_container r :: containerCommand r o) /\
      lo_containerName o = "dgxrun_" +:+ id /\
      serveArgv r o = serveCommand r (Some ps) ++
        ["--nnodes"; pretty (Z.of_nat (length ids)); "--node-rank"; pretty (Z.of_nat i);
         "--master-addr"; default "" (head ips);
         "--master-port"; pretty (default Dispatch.DEFAULT_MASTER_PORT port)] ++
        (if decide (i = 0) then [] else ["--headless"]) /\
      (forall k v, effectiveEnv (recipeEnv r) k = Some v -> effectiveEnv (envPairs r o) k = Some v) /\
      (forall k, k ∈ IB_FABRIC_ENV_KEYS -> k ∉ (recipeEnv r).*1 ->
         effectiveEnv (envPairs r o) k = None <-> ib = false).
Proof.
  intros Hb Hr. unfold Dispatch.buildDgxrunDeploys in Hb.
  apply bind_Ok in Hb as (? & Hn%guard_or_Ok & Hb).
  apply bind_Ok in Hb as (? & Hl%guard_or_Ok & Hb).
  apply bind_Ok in Hb as (addr & Ha%of_option_Ok & Hb). apply Ok_inj in Hb as <-.
  apply truthy_Some in Ha as [Ha _].
  split; [apply length_imap|]. split; [apply executorOf_forced|].
  intros i d w ib Hd. rewrite list_lookup_imap in Hd.
  destruct (ids !! i) as [nodeId|] eqn:Ei; [|done]. injection Hd as <-. intros o.
  exists (containerFlags o ++ modMounts o (declaredMods r) ++ envFlags (envPairs r o)).
  split; [|split; [done|split; [|split]]].
  - cbn [Dispatch.dp_recipe]. rewrite (build_launchable r o Hr). by rewrite <- !app_assoc.
  - rewrite Ha. unfold serveArgv, rankFlags, isHeadless. cbn. f_equal. do 8 f_equal.
    by destruct i.
  - intros k v Hk. by rewrite effectiveEnv_launch, Hk.
  - intros k Hk Hne%effectiveEnv_None. rewrite effectiveEnv_launch, Hne. split.
    + intros Hz%effectiveEnv_None. destruct ib; [|done]. destruct Hz.
      clear Hne. revert k Hk. apply Forall_forall. apply (bool_decide_unpack _). by vm_compute.
    + intros ->. by apply no_fabric_env.
Qed.

(** * A recipe with a mod, quoted JSON and a continuation line *)

Definition demo : DgxrunRecipe :=
  {| ar_model := Some "org/m"; ar_container := "img:1"; ar_env := Some [("NCCL_DEBUG", JStr "INFO")];
     ar_command := "vllm serve {model} --port {port} " +:+ String bs (String nl
       ("  --tensor-parallel-size {tensor_parallel} --x '{" +:+ String dq ("a" +:+ String dq ": 1}'")));
     ar_defaults := Some [("port", JNum (zn 8000)); ("tensor_parallel", JNum (zn 2))];
     ar_mods := Some ["fix-it"] |}.

Definition demoOptions : DgxrunLaunchOptions :=
  launchOptions "d1" 1 2 "10.0.0.1" 29500 (Some [("tensorParallel", JNum (zn 4))]) "/hf" false.

Example demo_serve :
  serveCommand demo (lo_params demoOptions) =
  ["vllm"; "serve"; "org/m"; "--port"; "8000"; "--tensor-parallel-size"; "4"; "--x";
   "{" +:+ String dq ("a" +:+ String dq ": 1}"); EXECUTOR_FLAG; "mp"].
Proof. by vm_compute. Qed.

Lemma demo_launchable : launchable demo.
Proof. split; [done|]. split; [by vm_compute|]. by repeat constructor. Qed.

Lemma dgxrun_mods_equivalence_witness :
  exists script, tokenizeCommand script =
    ["bash"; "/mods/fix-it/run.sh"; "&&"] ++ "exec" :: serveArgv demo demoOptions.
Proof.
  destruct (proj2 (dgxrun_mods_equivalence demo demoOptions) _ (build_launchable demo demoOptions demo_launchable))
    as (_ & ? & ? & ? & _ & _ & _ & H).
  destruct (H ltac:(by vm_compute)) as (script & _ & Hs).
  exists script. exact Hs.
Defined.

Lemma dgxrun_ranks_agree_witness :
  exists d1, executorOf (serveCommand demo (Some [])) = Some "mp" /\
  effectiveEnv (envPairs demo (orderOptions d1 "/hf" false)) "NCCL_DEBUG" = Some "INFO".
Proof.
  destruct (dgxrun_ranks_agree "d1" demo ["a"; "b"] ["10.0.0.1"; "10.0.0.2"] None [] _ eq_refl
              demo_launchable) as (_ & H & Hd).
  eexists. split; [apply H; vm_compute; lia|].
  destruct (Hd 1 _ "/hf" false eq_refl) as (_ & _ & _ & _ & He & _).
  apply (He "NCCL_DEBUG" "INFO"). by vm_compute.
Defined.
