(* ===== verification/AgentLaunch.v ===== *)
(** A dgxrun rank on its node, from the order to launch it to the end of its
    teardown: module [Phase] (runtime/deploy-phase.ts and [reportPhase] of
    agent/src/index.ts), [Store] (runtime/deployment-store.ts), [Cancel]
    (runtime/deploy-cancel.ts) and [Machine], the interleaving of the command
    handlers of agent/src/index.ts with [launchDgxrun] and [stopDgxrun]
    (runtime/dgxrun/dgxrun.ts).

    A handler runs without interruption up to its next [await]; what it awaits
    is a task, and an event moves one task past one of its awaits.  The docker
    daemon acts between the two: a command takes effect and its process ends in
    separate events, so that a removal can have happened without the agent
    having learnt of it.  A command whose process is killed at its deadline has
    no effect afterwards.  The file behind the store is readable and writable. *)
From S2P Require Import Prelude JsNum Recipes LaunchArgs.

Module Phase.

Definition PHASE_ORDER : list string :=
  ["starting"; "building"; "launching"; "downloading"; "loading"; "compiling"; "running"].

(** [indexOf]: the first position, or -1. *)
Fixpoint indexOf (xs : list string) (x : string) : Z :=
  match xs with
  | [] => -1
  | y :: ys => if String.eqb y x then 0
               else let i := indexOf ys x in if (i <? 0)%Z then -1 else i + 1
  end%Z.

Definition phaseRank (phase : string) : Z := indexOf PHASE_ORDER phase.

Definition isForwardPhase (from to : string) : bool :=
  (0 <=? phaseRank to)%Z && (phaseRank from <? phaseRank to)%Z.

Definition detectPhase (line : string) : option string :=
  let l := str_lower line in
  let has s := str_includes s l in
  if has "building" || has "=== building" then Some "building"
  else if has "copying" && has "image to" then Some "building"
  else if has "downloading model" || has "=== downloading" then Some "downloading"
  else if has "fetching" && has "files" then Some "downloading"
  else if has "starting head node" || has "applying mod" then Some "launching"
  else if has "starting ray" || has "ray worker" || has "starting worker node" then Some "launching"
  else if has "loading safetensors" || has "loading model" || has "loading weights"
    then Some "loading"
  else if has "torch.compile" || has "compiling a graph" || has "torch_compile_cache"
    then Some "compiling"
  else if has "capturing cuda graph" || has "graph capturing" || has "capturing model for speculator"
    then Some "compiling"
  else if has "application startup complete" then Some "running"
  else None.

(** [reportPhase]: the ranks reached so far, and whether the status goes out. *)
Definition reportPhase (ranks : gmap string Z) (id phase : string) : gmap string Z * bool :=
  let r := phaseRank phase in
  if (r <? 0)%Z then (ranks, true)
  else if (r <=? default (-1)%Z (ranks !! id))%Z then (ranks, false)
  else (<[id := r]> ranks, true).

Definition clearPhaseTracking (ranks : gmap string Z) (id : string) : gmap string Z :=
  delete id ranks.

End Phase.

Module Store.

Inductive kind := KSparkrun | KVllm | KDgxrun | KOllama.
#[export] Instance kind_eq_dec : EqDecision kind.
Proof. solve_decision. Defined.

Record TrackedDeployment := {
  td_deploymentId : string; td_recipeFile : string; td_recipeName : string; td_port : num;
  td_startedAt : string; td_clusterNodes : option (list string); td_clusterId : option string;
  td_tp : option Z; td_kind : option kind; td_rank : option Z; td_masterAddr : option string;
  td_masterPort : option Z; td_stopping : option bool; td_starting : option bool }.

Definition store := list TrackedDeployment.

Definition isEntry (id : string) (d : TrackedDeployment) : bool := String.eqb (td_deploymentId d) id.

(** [loadDeployments().find((d) => d.deploymentId === id)] *)
Definition tracked (s : store) (id : string) : option TrackedDeployment := js_find (isEntry id) s.

Definition removeDeployment (s : store) (id : string) : store :=
  List.filter (fun d => negb (isEntry id d)) s.

Definition saveDeployment (s : store) (d : TrackedDeployment) : store :=
  removeDeployment s (td_deploymentId d) ++ [d].

Definition clearDeployments (s : store) : store := [].

Definition set_starting (b : bool) (d : TrackedDeployment) : TrackedDeployment :=
  Build_TrackedDeployment (td_deploymentId d) (td_recipeFile d) (td_recipeName d) (td_port d)
    (td_startedAt d) (td_clusterNodes d) (td_clusterId d) (td_tp d) (td_kind d) (td_rank d)
    (td_masterAddr d) (td_masterPort d) (td_stopping d) (Some b).

Definition set_stopping (b : bool) (d : TrackedDeployment) : TrackedDeployment :=
  Build_TrackedDeployment (td_deploymentId d) (td_recipeFile d) (td_recipeName d) (td_port d)
    (td_startedAt d) (td_clusterNodes d) (td_clusterId d) (td_tp d) (td_kind d) (td_rank d)
    (td_masterAddr d) (td_masterPort d) (Some b) (td_starting d).

Definition clearStarting (s : store) (id : string) : store :=
  match tracked s id with Some d => saveDeployment s (set_starting false d) | None => s end.

End Store.

Module Cancel.

(** [cancels]: from a deployment to the [deleteAfter] of its record. *)
Definition registry := gmap string bool.

Definition beginDeploy (r : registry) (id : string) : registry := delete id r.
Definition requestCancel (r : registry) (id : string) (deleteAfter : bool) : registry :=
  <[id := deleteAfter]> r.
Definition pendingCancel (r : registry) (id : string) : option bool := r !! id.
Definition forget (r : registry) (id : string) : registry := delete id r.

Inductive LaunchExitAction :=
  | Cancelled (deleteAfter : bool)
  | Failed (error : string)
  | Running.

Definition code_text (code : option Z) : string :=
  match code with Some c => pretty c | None => "null" end.

Definition launchExitAction (code : option Z) (rank : Z) (cancel : option bool) : LaunchExitAction :=
  match cancel with
  | Some deleteAfter => Cancelled deleteAfter
  | None =>
      match code with
      | Some 0%Z => Running
      | _ => Failed ("dgxrun rank " +:+ pretty rank +:+ " launch failed (exit " +:+
                     code_text code +:+ ")")
      end
  end.

End Cancel.

Module Machine.
Import Args Store.

(** ** Orders *)

Record deployPayload := {
  pl_id : string; pl_recipe : option DgxrunRecipe; pl_rank : option Z; pl_nnodes : option Z;
  pl_masterAddr : option string; pl_masterPort : option Z;
  pl_params : option (list (string * json)) }.

Record order := {
  o_id : string; o_recipe : DgxrunRecipe; o_rank : Z; o_nnodes : Z; o_masterAddr : string;
  o_masterPort : Z; o_port : num; o_params : option (list (string * json)) }.

(** [Number(v)] *)
Definition js_Number (v : json) : num :=
  match v with
  | JNum n => n
  | JBool b => zn (if b then 1 else 0)
  | JNull => zn 0
  | _ => number_of_string (Recipe.string_of v)
  end.

(** [Number(params?.port ?? recipe.defaults?.port ?? 8000)] *)
Definition deployPort (r : DgxrunRecipe) (params : option (list (string * json))) : num :=
  let port o := match o with Some l => obj_get l "port" | None => None end in
  js_Number (default (JNum (zn 8000)) (jnullish (jnullish (port params) (port (ar_defaults r)))
                                         (Some (JNum (zn 8000))))).

(** The check at the head of the dgxrun branch of [cmd:deploy]. *)
Definition readOrder (p : deployPayload) : option order :=
  match pl_recipe p, pl_rank p, pl_nnodes p, truthy (pl_masterAddr p), pl_masterPort p with
  | Some r, Some rank, Some n, Some addr, Some mp =>
      if (n =? 0)%Z then None
      else Some {| o_id := pl_id p; o_recipe := r; o_rank := rank; o_nnodes := n;
                   o_masterAddr := addr; o_masterPort := mp;
                   o_port := deployPort r (pl_params p); o_params := pl_params p |}
  | _, _, _, _, _ => None
  end.

(** What [launchDgxrun] persists before [docker run]. *)
Definition launchEntry (o : order) (now : string) : TrackedDeployment :=
  {| td_deploymentId := o_id o; td_recipeFile := ar_container (o_recipe o);
     td_recipeName := default (o_id o) (ar_model (o_recipe o)); td_port := o_port o;
     td_startedAt := now; td_clusterNodes := None; td_clusterId := None;
     td_tp := Some (o_nnodes o); td_kind := Some KDgxrun; td_rank := Some (o_rank o);
     td_masterAddr := Some (o_masterAddr o); td_masterPort := Some (o_masterPort o);
     td_stopping := None; td_starting := Some true |}.

(** ** What is in flight *)

(** Where a launch waits: for [docker image inspect]; for [docker rm -f], which
    the daemon has carried out or not; for the page cache; for [docker run],
    which the daemon has carried out (and the container started or not) or not. *)
Inductive launchPc :=
  | AtInspect
  | AtClear (cleared : bool)
  | AtDrop
  | AtRun (outcome : option bool).

(** Who called [stopDgxrun]. *)
Inductive caller := ByUndeploy (deleteAfter : bool) | ByLaunch (deleteAfter : bool) | ByHealth.

(** A launch, or a [stopDgxrun] whose docker command has acted or not. *)
Inductive task :=
  | TLaunch (o : order) (pc : launchPc)
  | TStop (id : string) (by_ : caller) (preserve acted : bool).

Definition task_id (t : task) : string :=
  match t with TLaunch o _ => o_id o | TStop id _ _ _ => id end.

(** An [agent:deployment:status] message. *)
Record report := { rp_id : string; rp_status : string; rp_error : option string;
                   rp_deleteAfter : option bool }.

(** [a_docker]: the containers of deployments, and whether each runs.  [a_open]: whether
    [ws.readyState] is [OPEN]; [a_sent] went out on the link, [a_lost] was dropped by
    [sendMsg] while the link was down (nothing in the program keeps the latter). *)
Record agent := {
  a_store : store; a_cancels : Cancel.registry; a_docker : gmap string bool;
  a_tasks : list task; a_phases : gmap string Z; a_sent : list report;
  a_lost : list report; a_open : bool }.

Definition init : agent :=
  {| a_store := []; a_cancels := ∅; a_docker := ∅; a_tasks := []; a_phases := ∅; a_sent := [];
     a_lost := []; a_open := true |}.

Definition set_store f a := Build_agent (f (a_store a)) (a_cancels a) (a_docker a) (a_tasks a) (a_phases a) (a_sent a) (a_lost a) (a_open a).
Definition set_cancels f a := Build_agent (a_store a) (f (a_cancels a)) (a_docker a) (a_tasks a) (a_phases a) (a_sent a) (a_lost a) (a_open a).
Definition set_docker f a := Build_agent (a_store a) (a_cancels a) (f (a_docker a)) (a_tasks a) (a_phases a) (a_sent a) (a_lost a) (a_open a).
Definition set_tasks f a := Build_agent (a_store a) (a_cancels a) (a_docker a) (f (a_tasks a)) (a_phases a) (a_sent a) (a_lost a) (a_open a).
Definition set_phases f a := Build_agent (a_store a) (a_cancels a) (a_docker a) (a_tasks a) (f (a_phases a)) (a_sent a) (a_lost a) (a_open a).
(** The socket opens or closes. *)
Definition set_open (up : bool) a := Build_agent (a_store a) (a_cancels a) (a_docker a) (a_tasks a) (a_phases a) (a_sent a) (a_lost a) up.

(** [sendMsg]: only an open socket takes the message, otherwise it is dropped. *)
Definition send (r : report) a :=
  Build_agent (a_store a) (a_cancels a) (a_docker a) (a_tasks a) (a_phases a)
    (if a_open a then a_sent a ++ [r] else a_sent a)
    (if a_open a then a_lost a else a_lost a ++ [r]) (a_open a).

Definition status (id s : string) : report := Build_report id s None None.
Definition failure (id e : string) : report := Build_report id "failed" (Some e) None.
Definition stopped (id : string) (deleteAfter : bool) : report :=
  Build_report id "stopped" None (Some deleteAfter).

Definition spawn (t : task) : agent -> agent := set_tasks (fun ts => ts ++ [t]).
Definition settle (i : nat) : agent -> agent := set_tasks (delete i).
Definition advance (i : nat) (t : task) : agent -> agent := set_tasks <[i := t]>.

(** ** Handlers *)

(** [reportPhase] *)
Definition announce (id phase : string) (a : agent) : agent :=
  let '(ranks, out) := Phase.reportPhase (a_phases a) id phase in
  let a := set_phases (fun _ => ranks) a in
  if out then send (status id phase) a else a.

(** The [onExit] callback of a launch. *)
Definition onExit (o : order) (code : option Z) (a : agent) : agent :=
  match Cancel.launchExitAction code (o_rank o) (Cancel.pendingCancel (a_cancels a) (o_id o)) with
  | Cancel.Running => a
  | Cancel.Failed e => send (failure (o_id o) e) a
  | Cancel.Cancelled deleteAfter => spawn (TStop (o_id o) (ByLaunch deleteAfter) false false) a
  end.

Section Node.
(** The mods installed on this node, its weights directory and its fabric. *)
Context (modExists : string -> bool) (weightsDir : string) (ib : bool).

(** [cmd:deploy] of kind dgxrun, up to the first [await] of [launchDgxrun]. *)
Definition onDeploy (p : deployPayload) (a : agent) : agent :=
  match readOrder p with
  | None => send (failure (pl_id p) "dgxrun deploy missing recipe/rank/nnodes/masterAddr/masterPort") a
  | Some o =>
      let id := o_id o in
      let a := set_cancels (fun r => Cancel.beginDeploy r id) a in
      let a := if (o_rank o =? 0)%Z then announce id "starting" a else a in
      match missingModDirs (ar_mods (o_recipe o)) DEFAULT_MODS_DIR modExists with
      | [] => spawn (TLaunch o AtInspect) a
      | _ => onExit o (Some 1%Z) a
      end
  end.

(** A dgxrun [cmd:undeploy], up to the first [await] of [stopDgxrun]; an entry of
    another runtime takes another branch. *)
Definition onUndeploy (id : string) (deleteAfter preserve : bool) (a : agent) : option agent :=
  let a := send (status id "stopping") a in
  let a := set_phases (fun ranks => Phase.clearPhaseTracking ranks id) a in
  let a := set_cancels (fun r => Cancel.requestCancel r id deleteAfter) a in
  let stop := TStop id (ByUndeploy deleteAfter) preserve false in
  match tracked (a_store a) id with
  | Some d =>
      if decide (td_kind d = Some KDgxrun)
      then Some (spawn stop (set_store (fun s => saveDeployment s (set_stopping true d)) a))
      else None
  | None => Some (spawn stop a)
  end.

(** The health loop's answer to a rank that died: report it, stop the container. *)
Definition onHealthFailure (id error : string) (a : agent) : option agent :=
  match tracked (a_store a) id with
  | Some d =>
      if decide (td_stopping d = Some true) then None
      else Some (spawn (TStop id ByHealth true false) (send (failure id error) a))
  | None => None
  end.

(** ** The daemon *)

(** [docker rm -f], or [docker stop] of a container to keep. *)
Definition dockerStop (id : string) (preserve : bool) (docker : gmap string bool) : gmap string bool :=
  if preserve then match docker !! id with Some _ => <[id := false]> docker | None => docker end
  else delete id docker.

(** [docker run -d --name]: refused when the name is taken; otherwise the
    container exists, started or not. *)
Definition dockerRun (id : string) (starts : bool) (docker : gmap string bool) :
    gmap string bool * bool :=
  match docker !! id with
  | Some _ => (docker, false)
  | None => (<[id := starts]> docker, starts)
  end.

(** ** Events *)

Inductive event :=
  | Deploy (p : deployPayload)
  | Undeploy (id : string) (deleteAfter preserve : bool)
  | HealthFailed (id error : string)
  | Dies (id : string)
  | Inspected (i : nat) (present : bool)
  | Acted (i : nat)
  | Cleared (i : nat) (now : string)
  | Dropped (i : nat)
  | Created (i : nat) (starts : bool)
  | RunExited (i : nat) (code : option Z)
  | StopEnded (i : nat)
  | Link (up : bool).

(** The image was inspected: refuse, or build the arguments and clear the name. *)
Definition inspected (i : nat) (o : order) (present : bool) (a : agent) : agent :=
  if present then
    match buildDgxrunDockerArgs (o_recipe o)
            (launchOptions (o_id o) (o_rank o) (o_nnodes o) (o_masterAddr o) (o_masterPort o)
               (o_params o) weightsDir ib) with
    | Ok _ => advance i (TLaunch o (AtClear false)) a
    | Err _ => onExit o (Some 1%Z) (settle i a)
    end
  else onExit o (Some 1%Z) (settle i a).

(** [docker run] ended: with 0 the container provably exists and runs. *)
Definition runExited (i : nat) (o : order) (code : option Z) (a : agent) : agent :=
  let a := settle i a in
  let a := if decide (code = Some 0%Z)
           then set_store (fun s => clearStarting s (o_id o)) a else a in
  onExit o code a.

(** [stopDgxrun] ended: the entry goes, whoever asked goes on. *)
Definition stopEnded (i : nat) (id : string) (by_ : caller) (a : agent) : agent :=
  let a := set_store (fun s => removeDeployment s id) (settle i a) in
  match by_ with
  | ByUndeploy deleteAfter => send (stopped id deleteAfter) a
  | ByLaunch deleteAfter =>
      send (stopped id deleteAfter) (set_cancels (fun r => Cancel.forget r id) a)
  | ByHealth => a
  end.

Definition step (a : agent) (e : event) : option agent :=
  match e with
  | Deploy p => Some (onDeploy p a)
  | Undeploy id da pr => onUndeploy id da pr a
  | HealthFailed id e => onHealthFailure id e a
  | Dies id =>
      match a_docker a !! id with
      | Some true => Some (set_docker <[id := false]> a)
      | _ => None
      end
  | Inspected i present =>
      match a_tasks a !! i with
      | Some (TLaunch o AtInspect) => Some (inspected i o present a)
      | _ => None
      end
  | Acted i =>
      match a_tasks a !! i with
      | Some (TLaunch o (AtClear false)) =>
          Some (advance i (TLaunch o (AtClear true)) (set_docker (dockerStop (o_id o) false) a))
      | Some (TStop id b pr false) =>
          Some (advance i (TStop id b pr true) (set_docker (dockerStop id pr) a))
      | _ => None
      end
  | Cleared i now =>
      match a_tasks a !! i with
      | Some (TLaunch o (AtClear _)) =>
          Some (advance i (TLaunch o AtDrop)
                  (set_store (fun s => saveDeployment s (launchEntry o now)) a))
      | _ => None
      end
  | Dropped i =>
      match a_tasks a !! i with
      | Some (TLaunch o AtDrop) => Some (advance i (TLaunch o (AtRun None)) a)
      | _ => None
      end
  | Created i starts =>
      match a_tasks a !! i with
      | Some (TLaunch o (AtRun None)) =>
          let '(docker, ok) := dockerRun (o_id o) starts (a_docker a) in
          Some (advance i (TLaunch o (AtRun (Some ok))) (set_docker (fun _ => docker) a))
      | _ => None
      end
  | RunExited i code =>
      match a_tasks a !! i with
      | Some (TLaunch o (AtRun out)) =>
          if decide (code = Some 0%Z /\ out <> Some true) then None
          else Some (runExited i o code a)
      | _ => None
      end
  | StopEnded i =>
      match a_tasks a !! i with
      | Some (TStop id b _ _) => Some (stopEnded i id b a)
      | _ => None
      end
  | Link up => Some (set_open up a)
  end.

Fixpoint run (a : agent) (es : list event) : option agent :=
  match es with
  | [] => Some a
  | e :: es => a' ← step a e; run a' es
  end.

End Node.
End Machine.
