(* ===== verification/AgentLaunchFacts.v ===== *)
(** Facts of [AgentLaunch]: phases only move forward; the store holds a
    deployment once; no stop is lost while orders do not overlap teardowns; every
    launch and stop ends; and the run in which an overlapping restart leaves a
    container nothing tracks. *)
From S2P Require Import Prelude JsNum Recipes LaunchArgs LaunchArgsFacts AgentLaunch.
Import Args Store Machine.

(** * The store *)

Lemma isEntry_eq id d : isEntry id d = true <-> td_deploymentId d = id.
Proof. unfold isEntry. by rewrite String.eqb_eq. Qed.

Lemma tracked_id s id d : tracked s id = Some d -> td_deploymentId d = id.
Proof. intros [_ H]%js_find_Some. by apply isEntry_eq. Qed.

Lemma tracked_app s t id :
  tracked (s ++ t) id = match tracked s id with Some d => Some d | None => tracked t id end.
Proof. unfold tracked. induction s as [|d s IH]; [done|]. simpl. by destruct (isEntry id d). Qed.

Lemma tracked_remove s id j :
  tracked (removeDeployment s id) j = if decide (id = j) then None else tracked s j.
Proof.
  unfold tracked, removeDeployment. induction s as [|d s IH]; [by destruct (decide _)|].
  simpl. destruct (isEntry id d) eqn:E; simpl.
  - rewrite IH. destruct (decide (id = j)) as [|Hj]; [done|].
    destruct (isEntry j d) eqn:Ej; [|done]. apply isEntry_eq in E, Ej. congruence.
  - rewrite IH. destruct (isEntry j d) eqn:Ej; [|done].
    destruct (decide (id = j)) as [->|]; [congruence|done].
Qed.

Lemma tracked_save s d j :
  tracked (saveDeployment s d) j = if decide (td_deploymentId d = j) then Some d else tracked s j.
Proof.
  unfold saveDeployment. rewrite tracked_app, tracked_remove. unfold tracked at 2. simpl.
  destruct (decide (td_deploymentId d = j)) as [<-|Hj].
  - by rewrite (proj2 (isEntry_eq _ _) eq_refl).
  - destruct (isEntry j d) eqn:E; [by apply isEntry_eq in E|]. by destruct (tracked s j).
Qed.

Lemma tracked_clearStarting s id j :
  tracked (clearStarting s id) j =
  if decide (id = j) then set_starting false <$> tracked s j else tracked s j.
Proof.
  unfold clearStarting. destruct (tracked s id) as [d|] eqn:E.
  - rewrite tracked_save. simpl. rewrite (tracked_id _ _ _ E).
    destruct (decide (id = j)) as [<-|]; [by rewrite E|done].
  - destruct (decide (id = j)) as [<-|]; [by rewrite E|done].
Qed.

(** Every entry of the store has its own id. *)
Definition wf_store (s : store) : Prop := NoDup (map td_deploymentId s).

Lemma wf_remove s id : wf_store s -> wf_store (removeDeployment s id).
Proof. apply NoDup_map_filter. Qed.

Lemma wf_save s d : wf_store s -> wf_store (saveDeployment s d).
Proof.
  intros H. unfold wf_store, saveDeployment. rewrite map_app. apply NoDup_app.
  split; [by apply wf_remove|]. split; [|apply NoDup_singleton].
  intros x (y & -> & [Hy Hn]%elem_of_filter_bool)%list_elem_of_fmap Hx.
  apply list_elem_of_singleton in Hx. unfold isEntry in Hn. simpl in Hx.
  rewrite Hx, String.eqb_refl in Hn. done.
Qed.

Lemma wf_clearStarting s id : wf_store s -> wf_store (clearStarting s id).
Proof. unfold clearStarting. destruct (tracked s id); auto using wf_save. Qed.

Lemma pending_begin r id j :
  Cancel.pendingCancel (Cancel.beginDeploy r id) j =
  if decide (id = j) then None else Cancel.pendingCancel r j.
Proof. destruct (decide (id = j)) as [->|]; [apply lookup_delete_eq|by apply lookup_delete_ne]. Qed.

Lemma pending_forget r id j :
  Cancel.pendingCancel (Cancel.forget r id) j =
  if decide (id = j) then None else Cancel.pendingCancel r j.
Proof. apply pending_begin. Qed.

Lemma pending_request r id b j :
  Cancel.pendingCancel (Cancel.requestCancel r id b) j =
  if decide (id = j) then Some b else Cancel.pendingCancel r j.
Proof. destruct (decide (id = j)) as [->|]; [apply lookup_insert_eq|by apply lookup_insert_ne]. Qed.

(** * What concerns one deployment *)

Definition launchOf (id : string) (t : task) : option launchPc :=
  match t with TLaunch o pc => if decide (o_id o = id) then Some pc else None | _ => None end.

(** A stop: whether a launch called it, and whether docker acted. *)
Definition stopOf (id : string) (t : task) : option (bool * bool) :=
  match t with
  | TStop j b _ acted =>
      if decide (j = id) then Some (match b with ByLaunch _ => true | _ => false end, acted) else None
  | _ => None
  end.

Definition launches (id : string) (a : agent) : list launchPc := omap (launchOf id) (a_tasks a).
Definition stops (id : string) (a : agent) : list (bool * bool) := omap (stopOf id) (a_tasks a).
Definition entryOf (id : string) (a : agent) : option TrackedDeployment := tracked (a_store a) id.
Definition cancelOf (id : string) (a : agent) : option bool := Cancel.pendingCancel (a_cancels a) id.
Definition runningOf (id : string) (a : agent) : Prop := a_docker a !! id = Some true.

(** Nothing about [id] is in flight. *)
Definition quiet (id : string) (a : agent) : Prop := launches id a = [] /\ stops id a = [].

(** ** The invariant

    An entry that no stop has claimed. *)
Definition live (e : option TrackedDeployment) : Prop :=
  exists d, e = Some d /\ td_stopping d <> Some true /\ td_kind d = Some KDgxrun.

Definition launch_inv (pc : launchPc) (up : option bool) (e : option TrackedDeployment) : Prop :=
  match pc with
  | AtInspect | AtClear _ => up = Some true -> live e
  | AtDrop | AtRun _ => live e
  end.

(** In terms of the launches and stops in flight, the container, the pending
    cancel and the entry of one deployment. *)
Definition tracked_inv (L : list launchPc) (S : list (bool * bool)) (up cancel : option bool)
    (e : option TrackedDeployment) : Prop :=
  match L, S with
  | [], [] => (up = Some true -> cancel = None /\ live e) /\ (cancel <> None -> e = None)
  | [], _ => up = Some true -> false ∈ S.*2
  | [pc], _ => (cancel = None -> S = [] /\ launch_inv pc up e) /\ Forall (fun s => s.1 = false) S
  | _, _ => False
  end.

(** A teardown was ordered and no launch since. *)
Definition condemned_inv (L : list launchPc) (S : list (bool * bool)) (up cancel : option bool)
    (e : option TrackedDeployment) : Prop :=
  match L, S with
  | [], [] => up <> Some true /\ e = None
  | [], _ => up = Some true -> false ∈ S.*2
  | [pc], _ => cancel <> None /\ Forall (fun s => s.1 = false) S
  | _, _ => False
  end.

Definition Inv (P : list launchPc -> list (bool * bool) -> option bool -> option bool ->
                    option TrackedDeployment -> Prop) (id : string) (a : agent) : Prop :=
  P (launches id a) (stops id a) (a_docker a !! id) (cancelOf id a) (entryOf id a).

(** ** Orders that do not overlap

    A deploy is ordered only when nothing about its deployment is in flight, a
    health failure is handled outside launches, and a stop ends only after
    docker acted. *)
Definition calm (a : agent) (e : event) : Prop :=
  match e with
  | Deploy p => quiet (pl_id p) a
  | HealthFailed id _ => launches id a = []
  | StopEnded i => forall id b pr acted, a_tasks a !! i = Some (TStop id b pr acted) -> acted = true
  | _ => True
  end.

(** * Preservation *)

Lemma launches_spawn id t a :
  launches id (spawn t a) = launches id a ++ match launchOf id t with Some p => [p] | None => [] end.
Proof. unfold launches. cbn [spawn set_tasks a_tasks]. rewrite omap_app. simpl. by destruct (launchOf id t). Qed.

Lemma stops_spawn id t a :
  stops id (spawn t a) = stops id a ++ match stopOf id t with Some p => [p] | None => [] end.
Proof. unfold stops. cbn [spawn set_tasks a_tasks]. rewrite omap_app. simpl. by destruct (stopOf id t). Qed.

(** The launches and stops around task [i]. *)
Definition around (id : string) (i : nat) (a : agent) (t : task)
    (L1 L2 : list launchPc) (S1 S2 : list (bool * bool)) : Prop :=
  launches id a = L1 ++ option_list (launchOf id t) ++ L2 /\
  stops id a = S1 ++ option_list (stopOf id t) ++ S2 /\
  (launches id (settle i a) = L1 ++ L2 /\ stops id (settle i a) = S1 ++ S2) /\
  forall u, launches id (advance i u a) = L1 ++ option_list (launchOf id u) ++ L2 /\
            stops id (advance i u a) = S1 ++ option_list (stopOf id u) ++ S2.

Lemma omap_cons_list {A B} (f : A -> option B) x l : omap f (x :: l) = option_list (f x) ++ omap f l.
Proof. simpl. by destruct (f x). Qed.

Lemma around_task id i a t :
  a_tasks a !! i = Some t -> exists L1 L2 S1 S2, around id i a t L1 L2 S1 S2.
Proof.
  intros (l1 & l2 & Hl & Hd & Hi)%split_at.
  exists (omap (launchOf id) l1), (omap (launchOf id) l2), (omap (stopOf id) l1), (omap (stopOf id) l2).
  unfold around, launches, stops, settle, advance. cbn [set_tasks a_tasks].
  rewrite Hl at 1 2. rewrite Hd, !omap_app, !omap_cons_list. split; [done|]. split; [done|].
  split; [done|]. intros u. by rewrite Hi, !omap_app, !omap_cons_list.
Qed.

Lemma one_launch L1 pc L2 S up c e :
  tracked_inv (L1 ++ pc :: L2) S up c e -> L1 = [] /\ L2 = [].
Proof. destruct L1 as [|? [|? L1]], L2, S; simpl; tauto. Qed.

Lemma one_launch' L1 pc L2 S up c e :
  condemned_inv (L1 ++ pc :: L2) S up c e -> L1 = [] /\ L2 = [].
Proof. destruct L1 as [|? [|? L1]], L2, S; simpl; tauto. Qed.

(** What the agent's operations leave of one deployment's view. *)
Lemma Inv_ext P id a b :
  launches id a = launches id b -> stops id a = stops id b ->
  a_docker a !! id = a_docker b !! id -> cancelOf id a = cancelOf id b ->
  entryOf id a = entryOf id b -> Inv P id a -> Inv P id b.
Proof. unfold Inv. by intros -> -> -> -> ->. Qed.

Definition view (id : string) (a : agent) :=
  (launches id a, stops id a, a_docker a !! id, cancelOf id a, entryOf id a).

Lemma Inv_view P id a b : view id a = view id b -> Inv P id a -> Inv P id b.
Proof. intros [= H1 H2 H3 H4 H5]. by apply Inv_ext. Qed.

Lemma Inv_of_view (P : list launchPc -> list (bool * bool) -> option bool -> option bool ->
                    option TrackedDeployment -> Prop) id a L S u c e :
  view id a = (L, S, u, c, e) -> P L S u c e -> Inv P id a.
Proof. unfold view, Inv. by intros [= -> -> -> -> ->]. Qed.

Lemma view_send id r a : view id (send r a) = view id a.
Proof. reflexivity. Qed.

Lemma view_announce id j ph a : view id (announce j ph a) = view id a.
Proof. unfold announce. destruct (Phase.reportPhase _ _ _) as [ranks []]; reflexivity. Qed.

Lemma launchOf_other id t : task_id t <> id -> launchOf id t = None.
Proof. destruct t; simpl; [|done]. intros ?. by rewrite decide_False. Qed.

Lemma stopOf_other id t : task_id t <> id -> stopOf id t = None.
Proof. destruct t; simpl; [done|]. intros ?. by rewrite decide_False. Qed.

Lemma view_spawn id t a :
  view id (spawn t a) =
  (launches id a ++ option_list (launchOf id t), stops id a ++ option_list (stopOf id t),
   a_docker a !! id, cancelOf id a, entryOf id a).
Proof.
  unfold view. rewrite launches_spawn, stops_spawn.
  by destruct (launchOf id t), (stopOf id t).
Qed.

(** An operation on another deployment is not seen. *)
Lemma view_onExit id o code a :
  view id (onExit o code a) =
  match Cancel.launchExitAction code (o_rank o) (cancelOf (o_id o) a) with
  | Cancel.Cancelled d => (launches id a,
      stops id a ++ (if decide (o_id o = id) then [(true, false)] else []),
      a_docker a !! id, cancelOf id a, entryOf id a)
  | _ => view id a
  end.
Proof.
  unfold onExit, cancelOf. destruct (Cancel.launchExitAction _ _ _); [|done..].
  rewrite view_spawn. simpl. rewrite app_nil_r. by destruct (decide (o_id o = id)).
Qed.

Lemma view_exit_settled id o code a :
  launches id a = [] ->
  (cancelOf id a = None -> Inv tracked_inv id a) ->
  (cancelOf id a = None -> stops id a = []) ->
  o_id o = id ->
  Inv tracked_inv id (onExit o code a).
Proof.
  intros HL Hn Hs <-. pose proof (view_onExit (o_id o) o code a) as Hv.
  unfold Cancel.launchExitAction in Hv.
  destruct (cancelOf (o_id o) a) as [d|] eqn:Ec.
  - rewrite decide_True in Hv by done. unfold view in Hv. injection Hv as H1 H2 H3 H4 H5.
    unfold Inv. rewrite H1, H2, HL. simpl.
    destruct (stops (o_id o) a) as [|s S]; simpl; intros _; [left|].
    rewrite fmap_app. apply elem_of_cons. right. apply elem_of_app. right. left.
  - eapply Inv_view; [|by apply Hn]. symmetry.
    by destruct code as [[]|].
Qed.

Lemma condemned_exit_settled id o code a :
  launches id a = [] -> is_Some (cancelOf id a) -> o_id o = id ->
  Inv condemned_inv id (onExit o code a).
Proof.
  intros HL [d Ec] <-. pose proof (view_onExit (o_id o) o code a) as Hv.
  unfold Cancel.launchExitAction in Hv. rewrite Ec, decide_True in Hv by done.
  unfold view in Hv. injection Hv as H1 H2 H3 H4 H5.
  unfold Inv. rewrite H1, H2, HL. simpl.
  destruct (stops (o_id o) a) as [|s S]; simpl; intros _; [left|].
  rewrite fmap_app. apply elem_of_cons. right. apply elem_of_app. right. left.
Qed.

(** The deployment an event is about. *)
Definition subject (a : agent) (e : event) : option string :=
  match e with
  | Deploy p => Some (pl_id p)
  | Undeploy id _ _ | HealthFailed id _ | Dies id => Some id
  | Inspected i _ | Acted i | Cleared i _ | Dropped i | Created i _ | RunExited i _ | StopEnded i =>
      task_id <$> a_tasks a !! i
  | Link _ => None
  end.

Lemma readOrder_id p o : readOrder p = Some o -> o_id o = pl_id p.
Proof.
  unfold readOrder. intros H. repeat case_match; try done. by injection H as <-.
Qed.

Lemma view_settle id i a t :
  a_tasks a !! i = Some t -> task_id t <> id -> view id (settle i a) = view id a.
Proof.
  intros Ht Hne. destruct (around_task id i a t Ht) as (L1 & L2 & S1 & S2 & HL & HS & [HL' HS'] & _).
  rewrite (launchOf_other _ _ Hne) in HL. rewrite (stopOf_other _ _ Hne) in HS.
  unfold view. by rewrite HL, HS, HL', HS'.
Qed.

Lemma view_advance id i a t u :
  a_tasks a !! i = Some t -> task_id t <> id -> task_id u = task_id t ->
  view id (advance i u a) = view id a.
Proof.
  intros Ht Hne Hu. destruct (around_task id i a t Ht) as (L1 & L2 & S1 & S2 & HL & HS & _ & HA).
  destruct (HA u) as [HL' HS'].
  rewrite (launchOf_other _ _ Hne) in HL. rewrite (stopOf_other _ _ Hne) in HS.
  rewrite (launchOf_other id u) in HL' by congruence. rewrite (stopOf_other id u) in HS' by congruence.
  unfold view. by rewrite HL, HS, HL', HS'.
Qed.

Lemma dockerStop_other id j pr (d : gmap string bool) : id <> j -> dockerStop j pr d !! id = d !! id.
Proof.
  intros H. unfold dockerStop. destruct pr; [|by rewrite lookup_delete_ne by congruence].
  destruct (d !! j); [|done]. by rewrite lookup_insert_ne by congruence.
Qed.

Lemma dockerStop_same id pr (d : gmap string bool) : dockerStop id pr d !! id <> Some true.
Proof.
  unfold dockerStop. destruct pr; [|by rewrite lookup_delete_eq].
  destruct (d !! id) eqn:E; [by rewrite lookup_insert_eq|congruence].
Qed.

Lemma view_onExit_other id o code a : o_id o <> id -> view id (onExit o code a) = view id a.
Proof.
  intros H. rewrite view_onExit. destruct (Cancel.launchExitAction _ _ _); [|done..].
  rewrite decide_False by done. by rewrite app_nil_r.
Qed.

Section Steps.
Context (modExists : string -> bool) (weightsDir : string) (ib : bool).
Local Notation step := (step modExists weightsDir ib).
Local Notation run := (run modExists weightsDir ib).

Lemma view_onDeploy_other id p a : pl_id p <> id -> view id (onDeploy modExists p a) = view id a.
Proof.
  intros Hne. unfold onDeploy. destruct (readOrder p) as [o|] eqn:Eo; [|done].
  apply readOrder_id in Eo. rewrite <- Eo in Hne.
  set (b := if (o_rank o =? 0)%Z then _ else _).
  assert (view id b = view id a) as Hb.
  { transitivity (view id (set_cancels (fun r => Cancel.beginDeploy r (o_id o)) a)).
    - unfold b. destruct (o_rank o =? 0)%Z; by rewrite ?view_announce.
    - unfold view, cancelOf. cbn [set_cancels a_cancels].
      by rewrite pending_begin, decide_False. }
  destruct (missingModDirs _ _ _).
  - rewrite view_spawn. simpl. rewrite decide_False by done. by rewrite !app_nil_r.
  - by rewrite view_onExit_other.
Qed.

Lemma view_onUndeploy_other id j da pr a a' :
  onUndeploy j da pr a = Some a' -> j <> id -> view id a' = view id a.
Proof.
  intros H Hne. unfold onUndeploy in H. destruct (tracked _ j) as [d|] eqn:Ed.
  - destruct (decide _); [|done]. injection H as <-. rewrite view_spawn. simpl.
    rewrite decide_False by done. rewrite !app_nil_r. unfold view, cancelOf, entryOf, launches, stops.
    cbn [set_store set_cancels set_phases send a_cancels a_store a_tasks a_docker].
    rewrite pending_request, decide_False, tracked_save by done. simpl.
    apply tracked_id in Ed. by rewrite decide_False by congruence.
  - injection H as <-. rewrite view_spawn. simpl.
    rewrite decide_False by done. rewrite !app_nil_r. unfold view, cancelOf, entryOf, launches, stops.
    cbn [set_store set_cancels set_phases send a_cancels a_store a_tasks a_docker].
    by rewrite pending_request, decide_False by done.
Qed.

Lemma view_set_docker_other id j f a :
  j <> id -> (forall d : gmap string bool, f d !! id = d !! id) -> view id (set_docker f a) = view id a.
Proof. intros _ H. unfold view. cbn [set_docker a_docker]. by rewrite H. Qed.

Lemma view_other id a e a' : step a e = Some a' -> subject a e <> Some id -> view id a' = view id a.
Proof.
  intros Hs Hne. destruct e as [p|j da pr|j er|j|i pre|i|i now|i|i st|i code|i|up]; cbn [step Machine.step] in Hs;
    cbn [subject] in Hne.
  - injection Hs as <-. apply view_onDeploy_other. congruence.
  - eapply view_onUndeploy_other; [done|congruence].
  - unfold onHealthFailure in Hs. destruct (tracked _ _); [|done]. destruct (decide _); [done|].
    injection Hs as <-. rewrite view_spawn. simpl. rewrite decide_False by congruence.
    by rewrite !app_nil_r.
  - destruct (a_docker a !! j) as [[]|]; [|done..]. injection Hs as <-.
    eapply (view_set_docker_other id j); [congruence|]. intros d. by rewrite lookup_insert_ne by congruence.
  - destruct (a_tasks a !! i) as [[o []|]|] eqn:Et; try done. injection Hs as <-. simpl in Hne.
    assert (o_id o <> id) as Ho by congruence. unfold inspected.
    destruct pre; [destruct (buildDgxrunDockerArgs _ _)|].
    + by eapply view_advance.
    + rewrite view_onExit_other by done. by eapply view_settle.
    + rewrite view_onExit_other by done. by eapply view_settle.
  - destruct (a_tasks a !! i) as [[o [|[]| |]|j b pr []]|] eqn:Et; try done; injection Hs as <-; simpl in Hne.
    + etransitivity; [by eapply (view_advance id i (set_docker _ a)); [exact Et|simpl; congruence|]|].
      apply (view_set_docker_other id (o_id o)); [congruence|]. intros d. apply dockerStop_other. congruence.
    + etransitivity; [by eapply (view_advance id i (set_docker _ a)); [exact Et|simpl; congruence|]|].
      apply (view_set_docker_other id j); [congruence|]. intros d. apply dockerStop_other. congruence.
  - destruct (a_tasks a !! i) as [[o []|]|] eqn:Et; try done. injection Hs as <-. simpl in Hne.
    etransitivity; [eapply view_advance; [exact Et|simpl; congruence|done]|].
    unfold view, entryOf. simpl. rewrite tracked_save. simpl. by rewrite decide_False by congruence.
  - destruct (a_tasks a !! i) as [[o []|]|] eqn:Et; try done. injection Hs as <-. simpl in Hne.
    eapply view_advance; [exact Et|simpl; congruence|done].
  - destruct (a_tasks a !! i) as [[o [| | |[]]|]|] eqn:Et; try done. simpl in Hne.
    destruct (dockerRun _ _ _) as [dk ok] eqn:Er. injection Hs as <-.
    etransitivity; [eapply view_advance; [exact Et|simpl; congruence|done]|].
    unfold view. simpl. unfold dockerRun in Er. destruct (a_docker a !! o_id o); injection Er as <- <-; [done|].
    by rewrite lookup_insert_ne by congruence.
  - destruct (a_tasks a !! i) as [[o [| | |out]|]|] eqn:Et; try done. simpl in Hne.
    destruct (decide _); [done|]. injection Hs as <-. unfold runExited.
    rewrite view_onExit_other by congruence.
    etransitivity; [|eapply view_settle; [exact Et|simpl; congruence]].
    destruct (decide (code = Some 0%Z)); [|done]. unfold view, entryOf. simpl.
    rewrite tracked_clearStarting. by rewrite decide_False by congruence.
  - destruct (a_tasks a !! i) as [[|j b pr ac]|] eqn:Et; try done. injection Hs as <-. simpl in Hne.
    etransitivity; [|eapply view_settle; [exact Et|simpl; congruence]].
    assert (j <> id) as Hj by congruence.
    unfold stopEnded, view, entryOf, cancelOf, launches, stops.
    destruct b; cbn [set_store set_cancels set_tasks settle send a_cancels a_store a_tasks a_docker];
      rewrite ?pending_forget, tracked_remove, ?decide_False by done; done.
  - by injection Hs as <-.
Qed.

(** ** The deployment an event is about *)

Lemma elem_snd_snoc (S : list (bool * bool)) x : x.2 = false -> false ∈ (S ++ [x]).*2.
Proof. intros <-. rewrite fmap_app. apply elem_of_app. right. left. Qed.

(** A fresh stop settles either invariant when no launch is in flight. *)
Lemma fresh_stop_tracked S x up c e : x.2 = false -> tracked_inv [] (S ++ [x]) up c e.
Proof.
  intros Hx. pose proof (elem_snd_snoc S x Hx) as H. destruct (S ++ [x]) eqn:E; [by destruct S|].
  intros _. exact H.
Qed.

Lemma fresh_stop_condemned S x up c e : x.2 = false -> condemned_inv [] (S ++ [x]) up c e.
Proof.
  intros Hx. pose proof (elem_snd_snoc S x Hx) as H. destruct (S ++ [x]) eqn:E; [by destruct S|].
  intros _. exact H.
Qed.

Lemma tracked_onDeploy id p a :
  pl_id p = id -> quiet id a -> Inv tracked_inv id a -> Inv tracked_inv id (onDeploy modExists p a).
Proof.
  intros Hid [HL HS] HI. unfold onDeploy. destruct (readOrder p) as [o|] eqn:Eo.
  2: { by eapply Inv_view; [symmetry; apply view_send|]. }
  pose proof (readOrder_id _ _ Eo) as Ho. rewrite Hid in Ho.
  set (b := if (o_rank o =? 0)%Z then _ else _).
  assert (view id b = view id (set_cancels (fun r => Cancel.beginDeploy r (o_id o)) a)) as Hb.
  { unfold b. destruct (o_rank o =? 0)%Z; by rewrite ?view_announce. }
  unfold Inv in HI. rewrite HL, HS in HI. destruct HI as [Hup Hc].
  unfold view in Hb. injection Hb as B1 B2 B3 B4 B5. unfold cancelOf in B4 at 2.
  cbn [set_cancels a_cancels] in B4. rewrite pending_begin, decide_True in B4 by done.
  assert (launches id b = []) as BL by (by rewrite B1).
  assert (stops id b = []) as BS by (by rewrite B2).
  destruct (missingModDirs _ _ _).
  - eapply Inv_of_view; [apply view_spawn|]. rewrite BL, BS, B3, B5.
    simpl. rewrite decide_True by done. simpl. split; [|done]. intros _. split; [done|].
    intros Hr. by apply Hup.
  - apply view_exit_settled; try done. intros _. unfold Inv. rewrite BL, BS, B3, B4, B5.
    split; [|done]. intros Hr. split; [done|]. by apply Hup.
Qed.

Lemma view_onUndeploy id da pr a a' :
  onUndeploy id da pr a = Some a' ->
  launches id a' = launches id a /\ stops id a' = stops id a ++ [(false, false)] /\
  cancelOf id a' = Some da /\ a_docker a' = a_docker a.
Proof.
  intros H. unfold onUndeploy in H. destruct (tracked _ id) as [d|] eqn:Ed; [destruct (decide _); [|done]|];
    injection H as <-; rewrite launches_spawn, stops_spawn; simpl; rewrite decide_True, app_nil_r by done;
    (split; [done|]; split; [done|]; split; [|done]); unfold cancelOf;
    cbn [spawn set_tasks set_store set_cancels set_phases send a_cancels];
    by rewrite pending_request, decide_True.
Qed.

Lemma onUndeploy_inv id da pr a a' :
  onUndeploy id da pr a = Some a' -> Inv tracked_inv id a ->
  Inv tracked_inv id a' /\ Inv condemned_inv id a'.
Proof.
  intros H HI. apply view_onUndeploy in H as (HL & HS & HC & _). unfold Inv in *.
  rewrite HL, HS, HC in *. destruct (launches id a) as [|pc [|pc' L]].
  - split; [by apply fresh_stop_tracked|by apply fresh_stop_condemned].
  - simpl in HI. destruct HI as [_ HF]. simpl.
    assert (Forall (fun s : bool * bool => s.1 = false) (stops id a ++ [(false, false)])).
    { apply Forall_app. split; [done|]. by constructor. }
    done.
  - by destruct (stops id a).
Qed.

Lemma view_onHealthFailure id er a a' :
  onHealthFailure id er a = Some a' ->
  view id a' = (launches id a, stops id a ++ [(false, false)], a_docker a !! id, cancelOf id a, entryOf id a).
Proof.
  unfold onHealthFailure. destruct (tracked _ _); [|done]. destruct (decide _); [done|].
  intros [= <-]. rewrite view_spawn. simpl. by rewrite decide_True, app_nil_r.
Qed.

(** A task of [id]: how the view reads around it. *)
Lemma launch_view id i a o pc :
  a_tasks a !! i = Some (TLaunch o pc) -> o_id o = id ->
  exists L1 L2,
    launches id a = L1 ++ pc :: L2 /\ launches id (settle i a) = L1 ++ L2 /\
    stops id (settle i a) = stops id a /\
    forall pc', launches id (advance i (TLaunch o pc') a) = L1 ++ pc' :: L2 /\
                stops id (advance i (TLaunch o pc') a) = stops id a.
Proof.
  intros Ht Ho. destruct (around_task id i a _ Ht) as (L1 & L2 & S1 & S2 & HL & HS & [HL' HS'] & HA).
  exists L1, L2. simpl in HL, HS. rewrite decide_True in HL by done.
  split; [done|]. split; [done|]. split; [congruence|]. intros pc'.
  destruct (HA (TLaunch o pc')) as [HL2 HS2]. simpl in HL2, HS2.
  rewrite decide_True in HL2 by done. split; [done|congruence].
Qed.

Lemma stop_view id i a b pr ac :
  a_tasks a !! i = Some (TStop id b pr ac) ->
  exists S1 S2 x, x = (match b with ByLaunch _ => true | _ => false end) /\
    stops id a = S1 ++ (x, ac) :: S2 /\ stops id (settle i a) = S1 ++ S2 /\
    launches id (settle i a) = launches id a /\
    forall ac', stops id (advance i (TStop id b pr ac') a) = S1 ++ (x, ac') :: S2 /\
                launches id (advance i (TStop id b pr ac') a) = launches id a.
Proof.
  intros Ht. destruct (around_task id i a _ Ht) as (L1 & L2 & S1 & S2 & HL & HS & [HL' HS'] & HA).
  exists S1, S2. eexists. split; [reflexivity|]. simpl in HL, HS. rewrite decide_True in HS by done.
  split; [done|]. split; [done|]. split; [congruence|]. intros ac'.
  destruct (HA (TStop id b pr ac')) as [HL2 HS2]. simpl in HL2, HS2.
  rewrite decide_True in HS2 by done. split; [done|congruence].
Qed.

(** A launch moves on: what both invariants ask of the new view. *)
Lemma launch_moves id i a b o pc pc' :
  a_tasks a !! i = Some (TLaunch o pc) -> o_id o = id ->
  a_tasks b = a_tasks a -> a_cancels b = a_cancels a ->
  (launch_inv pc (a_docker a !! id) (entryOf id a) ->
   launch_inv pc' (a_docker b !! id) (entryOf id b)) ->
  (Inv tracked_inv id a -> Inv tracked_inv id (advance i (TLaunch o pc') b)) /\
  (Inv condemned_inv id a -> Inv condemned_inv id (advance i (TLaunch o pc') b)).
Proof.
  intros Ht Ho Hb Hc Hpc. destruct (launch_view id i a o pc Ht Ho) as (L1 & L2 & HL & _ & _ & HA).
  destruct (HA pc') as [HL' HS']. unfold launches, stops, advance in HL', HS'.
  cbn [set_tasks a_tasks] in HL', HS'.
  assert (view id (advance i (TLaunch o pc') b) =
          (L1 ++ pc' :: L2, stops id a, a_docker b !! id, cancelOf id a, entryOf id b)) as Hv.
  { unfold view, launches, stops, advance, cancelOf. cbn [set_tasks a_tasks a_docker a_cancels].
    rewrite Hb, HL', HS', Hc. reflexivity. }
  split; intros HI; eapply Inv_of_view; try exact Hv; unfold Inv in HI; rewrite HL in HI.
  - pose proof (one_launch _ _ _ _ _ _ _ HI) as [-> ->]. simpl in HI |- *.
    destruct HI as [HI HF]. split; [|done]. intros Hn. destruct (HI Hn). auto.
  - pose proof (one_launch' _ _ _ _ _ _ _ HI) as [-> ->]. done.
Qed.

(** A launch ends. *)
Lemma launch_ends id i a b o pc code :
  a_tasks a !! i = Some (TLaunch o pc) -> o_id o = id ->
  a_tasks b = delete i (a_tasks a) -> a_cancels b = a_cancels a ->
  (launch_inv pc (a_docker a !! id) (entryOf id a) ->
   a_docker b !! id = Some true -> live (entryOf id b)) ->
  (Inv tracked_inv id a -> Inv tracked_inv id (onExit o code b)) /\
  (Inv condemned_inv id a -> Inv condemned_inv id (onExit o code b)).
Proof.
  intros Ht Ho Hb Hc Hpc. destruct (launch_view id i a o pc Ht Ho) as (L1 & L2 & HL & HL' & HS' & _).
  unfold launches, stops, settle in HL', HS'. cbn [set_tasks a_tasks] in HL', HS'.
  assert (launches id b = L1 ++ L2) as BL by (unfold launches; by rewrite Hb).
  assert (stops id b = stops id a) as BS by (unfold stops; by rewrite Hb).
  assert (cancelOf id b = cancelOf id a) as Hcb by (unfold cancelOf; by rewrite Hc).
  split; intros HI; unfold Inv in HI; rewrite HL in HI.
  - pose proof (one_launch _ _ _ _ _ _ _ HI) as [-> ->]. simpl in HI. destruct HI as [HI HF].
    apply view_exit_settled; [exact BL| | |done]; rewrite Hcb; intros Hn; destruct (HI Hn) as [Hs Hl].
    + unfold Inv. rewrite Hcb, Hn, BL, BS, Hs. simpl. split; [|done]. intros Hr. split; [done|]. auto.
    + by rewrite BS.
  - pose proof (one_launch' _ _ _ _ _ _ _ HI) as [-> ->]. simpl in HI.
    apply condemned_exit_settled; [exact BL| |done].
    rewrite Hcb. destruct HI as [HI _]. by destruct (cancelOf id a).
Qed.

(** Docker acts on a stop. *)
Lemma stop_acts id i a b cl pr :
  a_tasks a !! i = Some (TStop id cl pr false) ->
  a_tasks b = a_tasks a -> a_cancels b = a_cancels a -> a_docker b !! id <> Some true ->
  (Inv tracked_inv id a -> Inv tracked_inv id (advance i (TStop id cl pr true) b)) /\
  (Inv condemned_inv id a -> Inv condemned_inv id (advance i (TStop id cl pr true) b)).
Proof.
  intros Ht Hb Hc Hd. destruct (stop_view id i a cl pr false Ht) as (S1 & S2 & x & _ & HS & _ & _ & HA).
  destruct (HA true) as [HS' HL']. unfold launches, stops, advance in HL', HS'.
  cbn [set_tasks a_tasks] in HL', HS'.
  set (u := a_docker b !! id) in *.
  assert (view id (advance i (TStop id cl pr true) b) =
          (launches id a, S1 ++ (x, true) :: S2, u, cancelOf id a, entryOf id b)) as Hv.
  { unfold view, launches, stops, advance, cancelOf. cbn [set_tasks a_tasks a_docker a_cancels].
    rewrite Hb, HL', HS', Hc. reflexivity. }
  assert (forall T : list (bool * bool), Forall (fun s => s.1 = false) (S1 ++ (x, false) :: S2) ->
            Forall (fun s : bool * bool => s.1 = false) (S1 ++ (x, true) :: S2)) as HF.
  { intros _. rewrite !Forall_app, !Forall_cons. simpl. tauto. }
  split; intros HI; eapply Inv_of_view; try exact Hv; unfold Inv in HI; rewrite HS in HI;
    destruct (launches id a) as [|pc [|? ?]]; simpl in HI |- *.
  - destruct S1; simpl; intros ?; by destruct Hd.
  - destruct HI as [HI HI2]. split; [|by apply (HF [])]. intros Hn. destruct (HI Hn) as [Hz _].
    by destruct S1.
  - done.
  - destruct S1; simpl; intros ?; by destruct Hd.
  - destruct HI as [HI HI2]. split; [done|by apply (HF [])].
  - done.
Qed.

(** A stop ends, after docker acted. *)
Lemma stop_ends id i a b cl pr :
  a_tasks a !! i = Some (TStop id cl pr true) ->
  a_tasks b = delete i (a_tasks a) -> a_docker b = a_docker a -> entryOf id b = None ->
  (cancelOf id b = cancelOf id a \/ exists d, cl = ByLaunch d) ->
  (Inv tracked_inv id a -> Inv tracked_inv id b) /\
  (Inv condemned_inv id a -> Inv condemned_inv id b).
Proof.
  intros Ht Hb Hd He Hc. destruct (stop_view id i a cl pr true Ht) as (S1 & S2 & x & Hx & HS & HS' & HL' & _).
  unfold launches, stops, settle in HL', HS'. cbn [set_tasks a_tasks] in HL', HS'.
  assert (view id b = (launches id a, S1 ++ S2, a_docker a !! id, cancelOf id b, None)) as Hv.
  { unfold view, launches, stops. by rewrite Hb, HL', HS', Hd, He. }
  assert (Hmem : false ∈ (S1 ++ (x, true) :: S2).*2 -> false ∈ (S1 ++ S2).*2).
  { rewrite !fmap_app, fmap_cons, !elem_of_app, elem_of_cons. simpl. naive_solver. }
  assert (Hcx : Forall (fun s => s.1 = false) (S1 ++ (x, true) :: S2) ->
            Forall (fun s : bool * bool => s.1 = false) (S1 ++ S2) /\ cancelOf id b = cancelOf id a).
  { rewrite !Forall_app, Forall_cons. simpl. intros (? & -> & ?). split; [done|].
    destruct Hc as [Hc|[d ->]]; [done|done]. }
  assert (Hne : forall P : Prop, S1 ++ (x, true) :: S2 = [] -> P) by (intros P; by destruct S1).
  split; intros HI; eapply Inv_of_view; try exact Hv; unfold Inv in HI; rewrite HS in HI;
    destruct (launches id a) as [|pc [|? ?]]; try done.
  - assert (a_docker a !! id = Some true -> false ∈ (S1 ++ S2).*2) as Hup.
    { intros Hu. apply Hmem. by destruct S1; apply HI. }
    destruct (S1 ++ S2); simpl; [|done]. split; [|done]. intros Hu.
    apply Hup in Hu. by apply elem_of_nil in Hu.
  - destruct HI as [HI HF]. destruct (Hcx HF) as [HF' Hcc]. simpl. split; [|done]. rewrite Hcc.
    intros Hn. destruct (HI Hn) as [Hz _]. by apply Hne.
  - assert (a_docker a !! id = Some true -> false ∈ (S1 ++ S2).*2) as Hup.
    { intros Hu. apply Hmem. by destruct S1; apply HI. }
    destruct (S1 ++ S2); simpl; [|done]. split; [|done]. intros Hu.
    apply Hup in Hu. by apply elem_of_nil in Hu.
  - destruct HI as [HI HF]. destruct (Hcx HF) as [HF' Hcc]. simpl. by rewrite Hcc.
Qed.

(** An event that does not order [id] to be deployed. *)
Definition not_deploy (id : string) (e : event) : Prop :=
  match e with Deploy p => pl_id p <> id | _ => True end.

Lemma dies_inv id a :
  a_docker a !! id = Some true ->
  (Inv tracked_inv id a -> Inv tracked_inv id (set_docker <[id := false]> a)) /\
  (Inv condemned_inv id a -> Inv condemned_inv id (set_docker <[id := false]> a)).
Proof.
  intros Hu. split; intros HI; unfold Inv in *; rewrite Hu in HI; cbn [set_docker a_docker];
    rewrite lookup_insert_eq; cbn [set_docker];
    change (launches id (set_docker _ a)) with (launches id a);
    change (stops id (set_docker _ a)) with (stops id a);
    destruct (launches id a) as [|pc [|? ?]]; destruct (stops id a) as [|s S]; simpl in HI |- *; try done.
  - destruct HI as [_ HI]. split; [by intros [=]|exact HI].
  - destruct HI as [HI HF]. split; [|done]. intros Hn. destruct (HI Hn) as [_ Hl].
    split; [done|]. by destruct pc.
  - destruct HI as [HI HF]. split; [|done]. intros Hn. by destruct (HI Hn).
  - destruct HI as [HI _]. done.
Qed.

Lemma health_inv id er a a' :
  onHealthFailure id er a = Some a' -> launches id a = [] ->
  Inv tracked_inv id a' /\ Inv condemned_inv id a'.
Proof.
  intros Hv%view_onHealthFailure HL. rewrite HL in Hv.
  split; eapply Inv_of_view; try exact Hv; [by apply fresh_stop_tracked|by apply fresh_stop_condemned].
Qed.

Lemma live_launchEntry o now : live (Some (launchEntry o now)).
Proof. by eexists. Qed.

Lemma live_clearStarting e : live e -> live (set_starting false <$> e).
Proof. intros (d & -> & Hs & Hk). by eexists. Qed.

Lemma step_same id a e a' :
  step a e = Some a' -> calm a e -> subject a e = Some id -> Inv tracked_inv id a ->
  Inv tracked_inv id a' /\ (not_deploy id e -> Inv condemned_inv id a -> Inv condemned_inv id a').
Proof.
  intros Hs Hcalm Hid HI.
  destruct e as [p|j da pr|j er|j|i pre|i|i now|i|i st|i code|i|up]; cbn [Machine.step] in Hs; cbn [subject] in Hid.
  - injection Hs as <-. injection Hid as Hid. subst id. split; [|by intros []].
    by apply tracked_onDeploy.
  - injection Hid as ->. split; [|intros _ _]; eapply onUndeploy_inv; eauto.
  - injection Hid as ->. split; [|intros _ _]; by eapply health_inv.
  - injection Hid as ->. destruct (a_docker a !! id) as [[]|] eqn:Eu; [|done..]. injection Hs as <-.
    split; [|intros _]; by apply dies_inv.
  - destruct (a_tasks a !! i) as [[o []|]|] eqn:Et; try done. injection Hs as <-.
    injection Hid as Ho. unfold inspected.
    pose proof (launch_ends id i a (settle i a) o _ (Some 1%Z) Et Ho eq_refl eq_refl (fun H => H)).
    pose proof (launch_moves id i a a o _ (AtClear false) Et Ho eq_refl eq_refl (fun H => H)).
    destruct pre; [destruct (buildDgxrunDockerArgs _ _)|]; tauto.
  - destruct (a_tasks a !! i) as [[o [|[]| |]|j b pr []]|] eqn:Et; try done; injection Hs as <-.
    + injection Hid as Ho.
      pose proof (launch_moves id i a (set_docker (dockerStop (o_id o) false) a) o _ (AtClear true) Et Ho
        eq_refl eq_refl) as Hm. cbn [launch_inv set_docker a_docker] in Hm.
      rewrite Ho in Hm. destruct Hm as [H1 H2]; [|rewrite Ho; tauto].
      intros _ Hu. by apply dockerStop_same in Hu.
    + injection Hid as ->.
      pose proof (stop_acts id i a (set_docker (dockerStop id pr) a) b pr Et eq_refl eq_refl
        (dockerStop_same _ _ _)). tauto.
  - destruct (a_tasks a !! i) as [[o []|]|] eqn:Et; try done. injection Hs as <-. injection Hid as Ho.
    pose proof (launch_moves id i a (set_store (fun s => saveDeployment s (launchEntry o now)) a) o _ AtDrop Et Ho
        eq_refl eq_refl) as Hm.
    destruct Hm as [H1 H2]; [|tauto]. intros _. unfold entryOf. simpl. rewrite tracked_save. simpl.
    rewrite decide_True by done. apply live_launchEntry.
  - destruct (a_tasks a !! i) as [[o []|]|] eqn:Et; try done. injection Hs as <-. injection Hid as Ho.
    pose proof (launch_moves id i a a o _ (AtRun None) Et Ho eq_refl eq_refl (fun H => H)). tauto.
  - destruct (a_tasks a !! i) as [[o [| | |[]]|]|] eqn:Et; try done.
    destruct (dockerRun _ _ _) as [dk ok]. injection Hs as <-. injection Hid as Ho.
    pose proof (launch_moves id i a (set_docker (fun _ => dk) a) o _ (AtRun (Some ok)) Et Ho eq_refl eq_refl (fun H => H)).
    tauto.
  - destruct (a_tasks a !! i) as [[o [| | |out]|]|] eqn:Et; try done.
    destruct (decide _); [done|]. injection Hs as <-. injection Hid as Ho. unfold runExited.
    set (b := if decide (code = Some 0%Z) then _ else _).
    assert (Hb : a_tasks b = delete i (a_tasks a) /\ a_cancels b = a_cancels a /\
                 (live (entryOf id a) -> live (entryOf id b))).
    { unfold b. destruct (decide (code = Some 0%Z)); [|done]. split; [done|]. split; [done|].
      unfold entryOf. simpl. rewrite tracked_clearStarting, decide_True by done. apply live_clearStarting. }
    destruct Hb as (B1 & B2 & B3).
    pose proof (launch_ends id i a b o _ code Et Ho B1 B2 (fun H _ => B3 H)). tauto.
  - destruct (a_tasks a !! i) as [[|j b pr ac]|] eqn:Et; try done. injection Hs as <-. injection Hid as ->.
    assert (ac = true) as -> by (by eapply Hcalm).
    pose proof (stop_ends id i a (stopEnded i id b a) b pr Et) as Hm. unfold stopEnded, entryOf, cancelOf in *.
    destruct Hm as [H1 H2]; [by destruct b..| | |tauto].
    + destruct b; simpl; by rewrite tracked_remove, decide_True.
    + destruct b; [by left|right; eauto|by left].
  - done.
Qed.

Lemma step_inv id a e a' :
  step a e = Some a' -> calm a e -> Inv tracked_inv id a ->
  Inv tracked_inv id a' /\ (not_deploy id e -> Inv condemned_inv id a -> Inv condemned_inv id a').
Proof.
  intros Hs Hc HI. destruct (decide (subject a e = Some id)) as [Hd|Hd]; [by eapply step_same|].
  apply (view_other id) in Hs; [|done]. symmetry in Hs.
  split; [by eapply Inv_view|]. intros _. by apply Inv_view.
Qed.

(** * Runs *)

Inductive calm_run : agent -> list event -> agent -> Prop :=
  | calm_nil a : calm_run a [] a
  | calm_cons a e b es c : calm a e -> step a e = Some b -> calm_run b es c -> calm_run a (e :: es) c.

Lemma calm_run_app a es1 es2 c :
  calm_run a (es1 ++ es2) c -> exists b, calm_run a es1 b /\ calm_run b es2 c.
Proof.
  revert a. induction es1 as [|e es1 IH]; intros a H; [by exists a; split; [constructor|]|].
  inversion H as [|? ? b ? ? Hc Hs Hr]; subst. destruct (IH _ Hr) as (d & Hd & He).
  exists d. split; [by econstructor|done].
Qed.

Lemma init_inv id : Inv tracked_inv id init.
Proof. unfold Inv. simpl. split; [|done]. unfold init. simpl. by rewrite lookup_empty. Qed.

Lemma run_tracked id a es b : calm_run a es b -> Inv tracked_inv id a -> Inv tracked_inv id b.
Proof. induction 1 as [|a e b es c Hc Hs Hr IH]; [done|]. intros HI. apply IH. by eapply step_inv. Qed.

Lemma run_condemned id a es b :
  calm_run a es b -> Forall (not_deploy id) es ->
  Inv tracked_inv id a -> Inv condemned_inv id a -> Inv condemned_inv id b.
Proof.
  induction 1 as [|a e b es c Hc Hs Hr IH]; [done|]. intros [He Hes]%Forall_cons HI HC.
  pose proof (step_inv _ _ _ _ Hs Hc HI) as [HI' HC']. by apply IH; auto.
Qed.

(** ** A stop answers *)

(** [r] was given to [sendMsg]: it went out, or the link was down. *)
Definition told (r : report) (a : agent) : Prop := r ∈ a_sent a \/ r ∈ a_lost a.

(** The stop is in flight, or its report was told. *)
Definition answering (id : string) (da : bool) (a : agent) : Prop :=
  (exists pr ac, TStop id (ByUndeploy da) pr ac ∈ a_tasks a) \/ told (stopped id da) a.

(** What a step may do to the messages: nothing is taken back. *)
Definition tells (a b : agent) : Prop :=
  (exists ms, a_sent b = a_sent a ++ ms) /\ (exists ms, a_lost b = a_lost a ++ ms).

(** What a step may do to the tasks and the messages. *)
Definition grows (a b : agent) : Prop := (exists ts, a_tasks b = a_tasks a ++ ts) /\ tells a b.

Lemma tells_told a b r : tells a b -> told r a -> told r b.
Proof.
  intros [[ms Hs] [ns Hl]] [H|H]; [left; rewrite Hs|right; rewrite Hl]; apply elem_of_app; by left.
Qed.

Lemma tells_refl a b : a_sent b = a_sent a -> a_lost b = a_lost a -> tells a b.
Proof. intros H1 H2. split; exists []; by rewrite app_nil_r. Qed.

Lemma tells_send r a : tells a (send r a).
Proof. unfold tells, send; simpl. destruct (a_open a); split; eauto; exists []; by rewrite app_nil_r. Qed.

Lemma told_send r a : told r (send r a).
Proof. unfold told, send; simpl. destruct (a_open a); [left|right]; apply elem_of_app; right; left. Qed.

Lemma grows_answering id da a b : grows a b -> answering id da a -> answering id da b.
Proof.
  intros ([ts Ht] & Hm) [(pr & ac & H)|H]; [left; exists pr, ac|right; by eapply tells_told].
  rewrite Ht. apply elem_of_app. by left.
Qed.

Lemma grows_refl a b :
  a_tasks b = a_tasks a -> a_sent b = a_sent a -> a_lost b = a_lost a -> grows a b.
Proof. intros H1 H2 H3. split; [exists []; by rewrite app_nil_r|by apply tells_refl]. Qed.

Lemma grows_trans a b c : grows a b -> grows b c -> grows a c.
Proof.
  intros ([t1 H1] & [m1 H2] & [n1 H3]) ([t2 H4] & [m2 H5] & [n2 H6]).
  split; [exists (t1 ++ t2)|split; [exists (m1 ++ m2)|exists (n1 ++ n2)]].
  - by rewrite H4, H1, app_assoc.
  - by rewrite H5, H2, app_assoc.
  - by rewrite H6, H3, app_assoc.
Qed.

Lemma grows_send r a : grows a (send r a).
Proof. split; [exists []; symmetry; apply app_nil_r|apply tells_send]. Qed.

Lemma grows_spawn t a : grows a (spawn t a).
Proof. split; [by exists [t]|by apply tells_refl]. Qed.

Lemma grows_onExit o code a : grows a (onExit o code a).
Proof.
  unfold onExit. destruct (Cancel.launchExitAction _ _ _).
  - apply grows_spawn.
  - apply grows_send.
  - by apply grows_refl.
Qed.

Lemma grows_announce id ph a : grows a (announce id ph a).
Proof.
  unfold announce. destruct (Phase.reportPhase _ _ _) as [r []]; [|by apply grows_refl].
  eapply grows_trans; [|apply grows_send]. by apply grows_refl.
Qed.

Lemma grows_onDeploy p a : grows a (onDeploy modExists p a).
Proof.
  unfold onDeploy. destruct (readOrder p) as [o|]; [|apply grows_send].
  set (b := if (o_rank o =? 0)%Z then _ else _).
  assert (grows a b) as Hb.
  { unfold b. destruct (o_rank o =? 0)%Z; [eapply grows_trans; [|apply grows_announce]|];
      by apply grows_refl. }
  eapply grows_trans; [exact Hb|]. destruct (missingModDirs _ _ _); [apply grows_spawn|apply grows_onExit].
Qed.

Lemma answering_task id da i a b t :
  a_tasks a !! i = Some t ->
  (a_tasks b = delete i (a_tasks a) \/ exists u, a_tasks b = <[i := u]> (a_tasks a) /\
     forall pr ac, t = TStop id (ByUndeploy da) pr ac -> exists ac', u = TStop id (ByUndeploy da) pr ac') ->
  tells a b ->
  (forall pr ac, t = TStop id (ByUndeploy da) pr ac -> a_tasks b = delete i (a_tasks a) ->
     told (stopped id da) b) ->
  answering id da a -> answering id da b.
Proof.
  intros (l1 & l2 & Hl & Hd & Hi)%split_at Hb Hm Hst [(pr & ac & H)|H].
  2: { right. by eapply tells_told. }
  assert (Hin : forall u, u ∈ l1 ++ l2 -> u ∈ a_tasks b).
  { intros u [Hu|Hu]%elem_of_app; destruct Hb as [->|(v & -> & _)]; rewrite ?Hd, ?Hi;
      apply elem_of_app; auto; right; by right. }
  rewrite Hl in H. apply elem_of_app in H as [H|[Heq|H]%elem_of_cons].
  - left. exists pr, ac. apply Hin, elem_of_app. by left.
  - destruct Hb as [Hb|(u & Hu & Hk)]; [right; by eapply Hst|].
    destruct (Hk pr ac) as [ac' ->]; [done|]. left. exists pr, ac'. rewrite Hu, Hi.
    apply elem_of_app. right. left.
  - left. exists pr, ac. apply Hin, elem_of_app. by right.
Qed.

(** A task that is not the stop may end or move. *)
Lemma answering_launch id da i a b o pc :
  a_tasks a !! i = Some (TLaunch o pc) ->
  (a_tasks b = delete i (a_tasks a) \/ exists u, a_tasks b = <[i := u]> (a_tasks a)) ->
  a_sent b = a_sent a -> a_lost b = a_lost a -> answering id da a -> answering id da b.
Proof.
  intros Ht Hb Hs Hm. eapply answering_task; [exact Ht| |by apply tells_refl|done].
  destruct Hb as [|[u Hu]]; [by left|]. right. by exists u.
Qed.

Lemma stopEnded_sent id da i a b pr ac j :
  a_tasks a !! i = Some (TStop j b pr ac) -> answering id da a -> answering id da (stopEnded i j b a).
Proof.
  intros Ht. eapply answering_task; [exact Ht| | |].
  - left. by destruct b.
  - destruct b as [d|d|]; [exact (tells_send (stopped j d) a)|exact (tells_send (stopped j d) a)|by apply tells_refl].
  - intros pr' ac' [= -> -> _ _] _. apply told_send.
Qed.

Lemma step_answering id da a e b : step a e = Some b -> answering id da a -> answering id da b.
Proof.
  intros Hs HA. destruct e as [p|j d pr|j er|j|i pre|i|i now|i|i st|i code|i|up]; cbn [Machine.step] in Hs.
  - injection Hs as <-. eapply grows_answering; [apply grows_onDeploy|done].
  - eapply grows_answering; [|exact HA]. unfold onUndeploy in Hs.
    destruct (tracked _ j); [destruct (decide _); [|done]|]; injection Hs as <-;
      (eapply grows_trans; [|apply grows_spawn]); (eapply grows_trans; [apply grows_send|]);
      by apply grows_refl.
  - eapply grows_answering; [|exact HA]. unfold onHealthFailure in Hs.
    destruct (tracked _ j); [|done]. destruct (decide _); [done|]. injection Hs as <-.
    eapply grows_trans; [apply grows_send|apply grows_spawn].
  - destruct (a_docker a !! j) as [[]|]; [|done..]. injection Hs as <-.
    eapply grows_answering; [by apply grows_refl|done].
  - destruct (a_tasks a !! i) as [[o []|]|] eqn:Et; try done. injection Hs as <-. unfold inspected.
    assert (answering id da (settle i a)) as Hz by (eapply answering_launch; eauto).
    destruct pre; [destruct (buildDgxrunDockerArgs _ _)|].
    + eapply answering_launch; eauto.
    + eapply grows_answering; [apply grows_onExit|done].
    + eapply grows_answering; [apply grows_onExit|done].
  - destruct (a_tasks a !! i) as [[o [|[]| |]|j bb pr []]|] eqn:Et; try done; injection Hs as <-.
    + eapply answering_launch; eauto.
    + eapply answering_task; [exact Et| |by apply tells_refl| |exact HA].
      * right. eexists. split; [reflexivity|]. intros pr' ac' [= -> -> -> _]. by eexists.
      * intros pr' ac' _ Hd. exfalso. apply (f_equal length) in Hd. simpl in Hd.
        rewrite length_insert, length_delete in Hd by done. apply lookup_lt_Some in Et. lia.
  - destruct (a_tasks a !! i) as [[o []|]|] eqn:Et; try done. injection Hs as <-.
    eapply answering_launch; eauto.
  - destruct (a_tasks a !! i) as [[o []|]|] eqn:Et; try done. injection Hs as <-.
    eapply answering_launch; eauto.
  - destruct (a_tasks a !! i) as [[o [| | |[]]|]|] eqn:Et; try done.
    destruct (dockerRun _ _ _) as [dk ok]. injection Hs as <-. eapply answering_launch; eauto.
  - destruct (a_tasks a !! i) as [[o [| | |out]|]|] eqn:Et; try done.
    destruct (decide _); [done|]. injection Hs as <-. unfold runExited.
    eapply grows_answering; [apply grows_onExit|].
    eapply answering_launch; [exact Et|left|..|exact HA]; by destruct (decide (code = Some 0%Z)).
  - destruct (a_tasks a !! i) as [[|j bb pr ac]|] eqn:Et; try done. injection Hs as <-.
    by eapply stopEnded_sent.
  - injection Hs as <-. eapply grows_answering; [by apply grows_refl|done].
Qed.

Lemma run_answering id da a es b : calm_run a es b -> answering id da a -> answering id da b.
Proof. induction 1 as [|a e b es c Hc Hs Hr IH]; [done|]. intros HA. apply IH. by eapply step_answering. Qed.

Lemma quiet_no_stop id da a : quiet id a -> answering id da a -> told (stopped id da) a.
Proof.
  intros [_ HS] [(pr & ac & H)|H]; [|done]. exfalso. unfold stops in HS.
  apply list_elem_of_split in H as (l1 & l2 & Hl). rewrite Hl, omap_app in HS. simpl in HS.
  rewrite decide_True in HS by done. by destruct (omap _ l1).
Qed.

(** ** The link stays up *)

Definition keeps_link (e : event) : Prop := e <> Link false.

(** Nothing was dropped. *)
Definition linked (a : agent) : Prop := a_open a = true /\ a_lost a = [].

Lemma linked_send r a : linked a -> linked (send r a).
Proof. intros [Ho Hl]. unfold linked, send; simpl. by rewrite Ho. Qed.

Lemma linked_onExit o code a : linked a -> linked (onExit o code a).
Proof. unfold onExit. destruct (Cancel.launchExitAction _ _ _); auto using linked_send. Qed.

Lemma linked_onDeploy p a : linked a -> linked (onDeploy modExists p a).
Proof.
  intros Ha. unfold onDeploy. destruct (readOrder p) as [o|]; [|by apply linked_send].
  set (b := if (o_rank o =? 0)%Z then _ else _). assert (linked b) as Hb.
  { unfold b, announce. destruct (o_rank o =? 0)%Z; [|done].
    destruct (Phase.reportPhase _ _ _) as [r []]; [by apply linked_send|done]. }
  destruct (missingModDirs _ _ _); [done|by apply linked_onExit].
Qed.

Lemma step_linked a e b : step a e = Some b -> keeps_link e -> linked a -> linked b.
Proof.
  intros Hs He Ha. destruct e as [p|j d pr|j er|j|i pre|i|i now|i|i st|i code|i|up]; cbn [Machine.step] in Hs.
  - injection Hs as <-. by apply linked_onDeploy.
  - unfold onUndeploy in Hs. pose proof (linked_send (status j "stopping") a Ha).
    destruct (tracked _ j); [destruct (decide _); [|done]|]; by injection Hs as <-.
  - unfold onHealthFailure in Hs. destruct (tracked _ j); [|done]. destruct (decide _); [done|].
    injection Hs as <-. exact (linked_send _ a Ha).
  - destruct (a_docker a !! j) as [[]|]; [|done..]. by injection Hs as <-.
  - destruct (a_tasks a !! i) as [[o []|]|]; try done. injection Hs as <-. unfold inspected.
    destruct pre; [destruct (buildDgxrunDockerArgs _ _)|]; [done|by apply linked_onExit..].
  - by destruct (a_tasks a !! i) as [[o [|[]| |]|j bb pr []]|]; try done; injection Hs as <-.
  - by destruct (a_tasks a !! i) as [[o []|]|]; try done; injection Hs as <-.
  - by destruct (a_tasks a !! i) as [[o []|]|]; try done; injection Hs as <-.
  - destruct (a_tasks a !! i) as [[o [| | |[]]|]|]; try done.
    destruct (dockerRun _ _ _) as [dk ok]. by injection Hs as <-.
  - destruct (a_tasks a !! i) as [[o [| | |out]|]|]; try done.
    destruct (decide _); [done|]. injection Hs as <-. unfold runExited. apply linked_onExit.
    by destruct (decide (code = Some 0%Z)).
  - destruct (a_tasks a !! i) as [[|j bb pr ac]|]; try done. injection Hs as <-.
    destruct bb; [exact (linked_send _ a Ha)..|done].
  - injection Hs as <-. destruct up; [split; [done|apply Ha]|by destruct He].
Qed.

Lemma run_linked a es b : calm_run a es b -> Forall keeps_link es -> linked a -> linked b.
Proof.
  induction 1 as [|a e b es c Hc Hs Hr IH]; [done|]. intros [He Hes]%Forall_cons Ha.
  apply IH; [done|]. by eapply step_linked.
Qed.

(** C9: No stop is lost and nothing is left running unseen, over every
    interleaving of orders, teardowns, launches, the daemon's actions and deaths
    and losses of the link in which a deployment is not ordered while something
    about it is in flight, a failure the health loop found is not handled during a
    launch of its deployment, and a docker stop that returns has acted.  Once
    nothing about a deployment is in flight, a container that runs has an entry no
    stop has claimed and no pending cancel; and if a teardown was ordered and no
    launch since, whenever it arrived during the launch, no container runs, no
    entry is left, and the stop was reported with its [deleteAfter], or the report
    was dropped because the link was down; while the link stays up nothing is
    dropped. *)
Theorem no_stop_is_lost es a :
  calm_run init es a ->
  (forall id, quiet id a -> runningOf id a -> live (entryOf id a) /\ cancelOf id a = None) /\
  (forall id da pr es1 es2,
     es = es1 ++ Undeploy id da pr :: es2 -> Forall (not_deploy id) es2 -> quiet id a ->
     ~ runningOf id a /\ entryOf id a = None /\
     (stopped id da ∈ a_sent a \/ stopped id da ∈ a_lost a)) /\
  (Forall (fun e => e <> Link false) es -> a_lost a = []).
Proof.
  intros Hr. split; [|split].
  - intros id [HL HS] Hup. pose proof (run_tracked id _ _ _ Hr (init_inv id)) as HI.
    unfold Inv in HI. rewrite HL, HS in HI. destruct HI as [HI _]. destruct (HI Hup). done.
  - intros id da pr es1 es2 -> Hes Hq.
    apply calm_run_app in Hr as (b & Hr1 & Hr2). inversion Hr2 as [|? ? c ? ? Hc Hs Hr3]; subst.
    pose proof (run_tracked id _ _ _ Hr1 (init_inv id)) as HIb. simpl in Hs.
    destruct (onUndeploy_inv id _ _ _ _ Hs HIb) as [HIc HCc].
    pose proof (run_condemned id _ _ _ Hr3 Hes HIc HCc) as HC.
    destruct Hq as [HL HS]. unfold Inv in HC. rewrite HL, HS in HC. destruct HC as [Hup He].
    split; [done|]. split; [done|]. apply (quiet_no_stop id); [done|].
    eapply run_answering; [exact Hr3|]. left. exists pr, false.
    unfold onUndeploy in Hs. destruct (tracked _ id); [destruct (decide _); [|done]|];
      injection Hs as <-; apply elem_of_app; right; left.
  - intros Hes. by destruct (run_linked _ _ _ Hr Hes) as [_ ?].
Qed.

(** * The store, whatever the order of events *)

(** An entry as [launchDgxrun] writes it, up to the two flags. *)
Definition dgxrun_entry (d : TrackedDeployment) : Prop :=
  td_kind d = Some KDgxrun /\ is_Some (td_rank d) /\ is_Some (td_tp d) /\
  is_Some (td_masterPort d) /\ (exists addr, td_masterAddr d = Some addr /\ addr <> "").

Definition store_ok (s : store) : Prop := wf_store s /\ Forall dgxrun_entry s.

Lemma store_ok_remove s id : store_ok s -> store_ok (removeDeployment s id).
Proof.
  intros [H1 H2]. split; [by apply wf_remove|]. rewrite Forall_forall in *.
  intros d [Hd _]%elem_of_filter_bool. auto.
Qed.

Lemma store_ok_save s d : dgxrun_entry d -> store_ok s -> store_ok (saveDeployment s d).
Proof.
  intros Hd Hs. split; [apply wf_save, Hs|]. apply Forall_app.
  split; [by apply store_ok_remove|by constructor].
Qed.

Lemma store_ok_tracked s id d : store_ok s -> tracked s id = Some d -> dgxrun_entry d.
Proof. intros [_ H] [Hd _]%js_find_Some. rewrite Forall_forall in H. auto. Qed.

Lemma store_ok_clearStarting s id : store_ok s -> store_ok (clearStarting s id).
Proof.
  intros H. unfold clearStarting. destruct (tracked s id) as [d|] eqn:E; [|done].
  apply store_ok_save; [|done]. by apply store_ok_tracked in E.
Qed.

(** The orders in flight passed the check of [cmd:deploy]. *)
Definition orders_ok (ts : list task) : Prop :=
  forall o pc, TLaunch o pc ∈ ts -> o_masterAddr o <> "".

Lemma readOrder_addr p o : readOrder p = Some o -> o_masterAddr o <> "".
Proof.
  unfold readOrder. intros H. repeat case_match; try done. injection H as <-. simpl.
  match goal with E : truthy _ = Some _ |- _ => by apply truthy_Some in E as [_ ?] end.
Qed.

Lemma orders_app ts us : orders_ok (ts ++ us) <-> orders_ok ts /\ orders_ok us.
Proof.
  unfold orders_ok. split; [intros H; split; intros o pc Hin; apply (H o pc), elem_of_app; auto|].
  intros [H1 H2] o pc [?|?]%elem_of_app; eauto.
Qed.

Lemma orders_one t : orders_ok [t] <-> forall o pc, t = TLaunch o pc -> o_masterAddr o <> "".
Proof.
  unfold orders_ok. split; intros H o pc Ht; apply (H o pc); [by subst; left|].
  by apply list_elem_of_singleton in Ht.
Qed.

Lemma orders_delete ts i : orders_ok ts -> orders_ok (delete i ts).
Proof. intros H o pc Hin. apply (H o pc). by eapply list_elem_of_delete_inv. Qed.

Lemma orders_advance ts i o pc pc' :
  ts !! i = Some (TLaunch o pc) -> orders_ok ts -> orders_ok (<[i := TLaunch o pc']> ts).
Proof.
  intros (l1 & l2 & -> & _ & Hi)%split_at. rewrite Hi.
  change (TLaunch o pc :: l2) with ([TLaunch o pc] ++ l2).
  change (TLaunch o pc' :: l2) with ([TLaunch o pc'] ++ l2). rewrite !orders_app, !orders_one.
  intros (H1 & H2 & H3). split; [done|]. split; [|done]. intros o' p' [= <- <-]. by eapply H2.
Qed.

Lemma orders_stop ts i id b pr ac :
  orders_ok ts -> orders_ok (<[i := TStop id b pr ac]> ts).
Proof.
  intros H o pc (j & Hj)%list_elem_of_lookup. apply list_lookup_insert_Some in Hj as [(_ & ? & _)|[_ Hj]];
    [done|]. apply (H o pc). by eapply list_elem_of_lookup_2.
Qed.

Definition agent_ok (a : agent) : Prop := store_ok (a_store a) /\ orders_ok (a_tasks a).

Lemma agent_ok_spawn t a :
  (forall o pc, t = TLaunch o pc -> o_masterAddr o <> "") -> agent_ok a -> agent_ok (spawn t a).
Proof. intros Ht [H1 H2]. split; [done|]. apply orders_app. by rewrite orders_one. Qed.

Lemma agent_ok_onExit o code a : agent_ok a -> agent_ok (onExit o code a).
Proof.
  unfold onExit. destruct (Cancel.launchExitAction _ _ _); try done. by apply agent_ok_spawn.
Qed.

Lemma agent_ok_onDeploy p a : agent_ok a -> agent_ok (onDeploy modExists p a).
Proof.
  intros Ha. unfold onDeploy. destruct (readOrder p) as [o|] eqn:Eo; [|done].
  set (b := if (o_rank o =? 0)%Z then _ else _).
  assert (agent_ok b) as Hb.
  { unfold b, announce. destruct (o_rank o =? 0)%Z; [|done]. by destruct (Phase.reportPhase _ _ _) as [? []]. }
  destruct (missingModDirs _ _ _); [|by apply agent_ok_onExit].
  apply agent_ok_spawn; [|done]. intros o' pc [= <- <-]. by eapply readOrder_addr.
Qed.

Lemma agent_ok_step a e b : step a e = Some b -> agent_ok a -> agent_ok b.
Proof.
  intros Hs Ha. pose proof Ha as [H1 H2].
  destruct e as [p|j d pr|j er|j|i pre|i|i now|i|i st|i code|i|up]; cbn [Machine.step] in Hs.
  - injection Hs as <-. by apply agent_ok_onDeploy.
  - unfold onUndeploy in Hs. destruct (tracked _ j) as [t|] eqn:Et; [destruct (decide _); [|done]|];
      injection Hs as <-; (apply agent_ok_spawn; [done|]); split; [|done..]; simpl.
    apply store_ok_save; [|done]. by apply (store_ok_tracked _ j t H1) in Et.
  - unfold onHealthFailure in Hs. destruct (tracked _ j); [|done]. destruct (decide _); [done|].
    injection Hs as <-. by apply agent_ok_spawn.
  - destruct (a_docker a !! j) as [[]|]; [|done..]. by injection Hs as <-.
  - destruct (a_tasks a !! i) as [[o []|]|] eqn:Et; try done. injection Hs as <-. unfold inspected.
    assert (agent_ok (settle i a)) by (split; [done|by apply orders_delete]).
    destruct pre; [destruct (buildDgxrunDockerArgs _ _)|]; try by apply agent_ok_onExit.
    split; [done|]. by eapply orders_advance.
  - destruct (a_tasks a !! i) as [[o [|[]| |]|j bb pr []]|] eqn:Et; try done; injection Hs as <-;
      (split; [done|]); [by eapply orders_advance|by apply orders_stop].
  - destruct (a_tasks a !! i) as [[o []|]|] eqn:Et; try done. injection Hs as <-.
    split; [|by eapply orders_advance]. apply store_ok_save; [|done].
    assert (o_masterAddr o <> "") by (eapply H2; by eapply list_elem_of_lookup_2).
    split; [done|]. repeat (split; [by eexists|]). by eexists.
  - destruct (a_tasks a !! i) as [[o []|]|] eqn:Et; try done. injection Hs as <-.
    split; [done|by eapply orders_advance].
  - destruct (a_tasks a !! i) as [[o [| | |[]]|]|] eqn:Et; try done.
    destruct (dockerRun _ _ _) as [dk ok]. injection Hs as <-. split; [done|by eapply orders_advance].
  - destruct (a_tasks a !! i) as [[o [| | |out]|]|] eqn:Et; try done.
    destruct (decide _); [done|]. injection Hs as <-. unfold runExited. apply agent_ok_onExit.
    destruct (decide (code = Some 0%Z)); (split; [|by apply orders_delete]); [|done].
    by apply store_ok_clearStarting.
  - destruct (a_tasks a !! i) as [[|j bb pr ac]|] eqn:Et; try done. injection Hs as <-.
    destruct bb; (split; [by apply store_ok_remove|by apply orders_delete]).
  - by injection Hs as <-.
Qed.

(** C14: Whatever the order of events, overlapping or not, the store stays well
    formed: one entry per deployment, each with its rank, the number of ranks,
    and the head's address and port, so that a reconnect can tell every rank
    what it is. *)
Theorem store_well_formed es a :
  run init es = Some a ->
  NoDup (map td_deploymentId (a_store a)) /\ Forall dgxrun_entry (a_store a).
Proof.
  assert (forall es b, agent_ok b -> run b es = Some a -> agent_ok a) as H.
  { clear es. induction es as [|e es IH]; intros b Hb Hr; [by injection Hr as <-|].
    cbn in Hr. apply bind_Some in Hr as (c & Hc & Hr). eapply IH; [|exact Hr].
    by eapply agent_ok_step. }
  intros Hr. apply (H es init) in Hr as [Hs _]; [exact Hs|].
  split; [split; [constructor|constructor]|]. intros o pc Hin. by apply elem_of_nil in Hin.
Qed.

(** * Every launch and every stop ends *)

(** Everything but new orders, failures and deaths. *)
Definition internal (e : event) : Prop :=
  match e with
  | Deploy _ | Undeploy _ _ _ | HealthFailed _ _ | Dies _ | Link _ => False
  | _ => True end.

Definition task_weight (t : task) : nat :=
  match t with
  | TLaunch _ AtInspect => 8
  | TLaunch _ (AtClear false) => 7
  | TLaunch _ (AtClear true) => 6
  | TLaunch _ AtDrop => 5
  | TLaunch _ (AtRun None) => 4
  | TLaunch _ (AtRun (Some _)) => 3
  | TStop _ _ _ false => 2
  | TStop _ _ _ true => 1
  end.

Definition weight (a : agent) : nat := sum_list_with task_weight (a_tasks a).

Lemma weight_at a i t :
  a_tasks a !! i = Some t ->
  weight (settle i a) + task_weight t = weight a /\
  forall u, weight (advance i u a) + task_weight t = weight a + task_weight u.
Proof.
  intros (l1 & l2 & Hl & Hd & Hi)%split_at. unfold weight, settle, advance. cbn [set_tasks a_tasks].
  rewrite Hl at 2. rewrite Hd. split; [rewrite !sum_list_with_app; simpl; lia|].
  intros u. rewrite Hi, Hl, !sum_list_with_app. simpl. lia.
Qed.

Lemma weight_onExit o code a : weight (onExit o code a) <= weight a + 2.
Proof.
  unfold onExit. destruct (Cancel.launchExitAction _ _ _); [|unfold weight; simpl; lia..].
  unfold weight, spawn. cbn [set_tasks a_tasks]. rewrite sum_list_with_app. simpl. lia.
Qed.

Lemma internal_decreases a e b : step a e = Some b -> internal e -> weight b < weight a.
Proof.
  intros Hs Hi. destruct e as [p|j d pr|j er|j|i pre|i|i now|i|i st|i code|i|up]; try done;
    cbn [Machine.step] in Hs.
  - destruct (a_tasks a !! i) as [[o []|]|] eqn:Et; try done. injection Hs as <-. unfold inspected.
    destruct (weight_at _ _ _ Et) as [W1 W2]. pose proof (weight_onExit o (Some 1%Z) (settle i a)).
    specialize (W2 (TLaunch o (AtClear false))). simpl in W1, W2.
    destruct pre; [destruct (buildDgxrunDockerArgs _ _)|]; lia.
  - destruct (a_tasks a !! i) as [[o [|[]| |]|j bb pr []]|] eqn:Et; try done; injection Hs as <-;
      destruct (weight_at _ _ _ Et) as [_ W].
    + specialize (W (TLaunch o (AtClear true))). simpl in W. unfold weight in *. simpl in *. lia.
    + specialize (W (TStop j bb pr true)). simpl in W. unfold weight in *. simpl in *. lia.
  - destruct (a_tasks a !! i) as [[o []|]|] eqn:Et; try done. injection Hs as <-.
    destruct (weight_at _ _ _ Et) as [_ W]. specialize (W (TLaunch o AtDrop)).
    unfold weight in *. simpl in *. destruct cleared; lia.
  - destruct (a_tasks a !! i) as [[o []|]|] eqn:Et; try done. injection Hs as <-.
    destruct (weight_at _ _ _ Et) as [_ W]. specialize (W (TLaunch o (AtRun None))). simpl in W. lia.
  - destruct (a_tasks a !! i) as [[o [| | |[]]|]|] eqn:Et; try done.
    destruct (dockerRun _ _ _) as [dk ok]. injection Hs as <-.
    destruct (weight_at _ _ _ Et) as [_ W]. specialize (W (TLaunch o (AtRun (Some ok)))).
    unfold weight in *. simpl in *. lia.
  - destruct (a_tasks a !! i) as [[o [| | |out]|]|] eqn:Et; try done.
    destruct (decide _); [done|]. injection Hs as <-. unfold runExited.
    destruct (weight_at _ _ _ Et) as [W _]. simpl in W.
    set (b := if decide (code = Some 0%Z) then _ else _).
    assert (weight b = weight (settle i a)) as Hb by (unfold b; by destruct (decide (code = Some 0%Z))).
    pose proof (weight_onExit o code b). destruct out; lia.
  - destruct (a_tasks a !! i) as [[|j bb pr ac]|] eqn:Et; try done. injection Hs as <-.
    destruct (weight_at _ _ _ Et) as [W _].
    assert (weight (stopEnded i j bb a) = weight (settle i a)) as -> by (by destruct bb).
    destruct ac; simpl in W; lia.
Qed.

Lemma internal_enabled a t ts :
  a_tasks a = t :: ts -> exists e b, internal e /\ calm a e /\ step a e = Some b.
Proof.
  intros Ht. assert (a_tasks a !! 0 = Some t) as H0 by (by rewrite Ht).
  destruct t as [o [| | |[ok|]]|id cl pr []].
  - exists (Inspected 0 true). eexists. split; [done|]. split; [done|]. cbn. by rewrite H0.
  - exists (Cleared 0 ""). eexists. split; [done|]. split; [done|]. cbn. by rewrite H0.
  - exists (Dropped 0). eexists. split; [done|]. split; [done|]. cbn. by rewrite H0.
  - exists (RunExited 0 (Some 1%Z)). eexists. split; [done|]. split; [done|]. cbn. rewrite H0.
    by rewrite decide_False by (by intros [? _]).
  - destruct (dockerRun (o_id o) true (a_docker a)) as [d ok] eqn:E.
    exists (Created 0 true). eexists. split; [done|]. split; [done|]. cbn. rewrite H0, E. done.
  - exists (StopEnded 0). eexists. split; [done|]. split; [|cbn; by rewrite H0].
    intros id' b' pr' ac'. rewrite H0. by intros [= _ _ _ <-].
  - exists (Acted 0). eexists. split; [done|]. split; [done|]. cbn. by rewrite H0.
Qed.

(** C15: Launches and stops end: from any state the agent takes at most eight
    internal steps per task in flight, in whatever order they happen, and as
    long as a task is in flight one of them can be taken; so with no new orders
    everything settles. *)
Theorem launches_and_stops_end a :
  (forall es b, Forall internal es -> run a es = Some b -> length es + weight b <= weight a) /\
  weight a <= 8 * length (a_tasks a) /\
  (a_tasks a <> [] -> exists e b, internal e /\ calm a e /\ step a e = Some b) /\
  (weight a = 0 <-> a_tasks a = []).
Proof.
  split; [|split; [|split]].
  - intros es. revert a. induction es as [|e es IH]; intros a b Hi Hr.
    + injection Hr as <-. simpl. lia.
    + apply Forall_cons in Hi as [He Hi]. cbn in Hr. apply bind_Some in Hr as (c & Hc & Hr).
      apply internal_decreases in Hc; [|done]. specialize (IH _ _ Hi Hr). simpl. lia.
  - unfold weight. induction (a_tasks a) as [|t ts IH]; simpl; [lia|].
    assert (task_weight t <= 8) by (destruct t as [? [|[]| |[]]|? ? ? []]; simpl; lia). lia.
  - intros Ht. destruct (a_tasks a) as [|t ts] eqn:E; [done|]. by eapply internal_enabled.
  - unfold weight. destruct (a_tasks a) as [|t ts]; [done|]. simpl. split; [|done].
    destruct t as [? [|[]| |[]]|? ? ? []]; simpl; lia.
Qed.
End Steps.

(** ** Concrete runs *)
Import Args Store Machine.

Definition payload : deployPayload :=
  {| pl_id := "d1"; pl_recipe := Some demo; pl_rank := Some 0%Z; pl_nnodes := Some 2%Z;
     pl_masterAddr := Some "10.0.0.1"; pl_masterPort := Some 29500%Z; pl_params := None |}.

Definition demoRun : agent -> list event -> option agent := run (fun _ => true) "/hf" true.

(** From the order to the running container, as task [i]. *)
Definition launching (i : nat) : list event :=
  [Inspected i true; Acted i; Cleared i "now"; Dropped i; Created i true; RunExited i (Some 0%Z)].

(** A teardown that keeps the container is ordered and docker stops it; the
    deployment is ordered again before the agent learns that; the end of the
    teardown then erases the entry of the new launch. *)
Definition overlapping : list event :=
  Deploy payload :: launching 0 ++
  [Undeploy "d1" false true; Acted 0; Deploy payload;
   Inspected 1 true; Acted 1; Cleared 1 "later"; StopEnded 0;
   Dropped 0; Created 0 true; RunExited 0 (Some 0%Z)].

(** A restart that overlaps a teardown of the same deployment leaves its
    container running with no entry in the store and no pending cancel, nothing
    in flight, and [stopped] as the last report: nothing on the node or in the
    manager knows of it.  [stopDgxrun] removes whatever entry it finds, also one
    that a newer launch wrote.  A later teardown order still removes the
    container, because the orphan sweep runs without an entry. *)
Theorem restart_during_stop_untracked :
  exists a b,
    demoRun init overlapping = Some a /\ a_tasks a = [] /\ runningOf "d1" a /\
    entryOf "d1" a = None /\ cancelOf "d1" a = None /\
    last (a_sent a) = Some (stopped "d1" false) /\
    demoRun a [Undeploy "d1" true false; Acted 0; StopEnded 0] = Some b /\
    a_docker b !! "d1" = None.
Proof.
  eexists _, _. do 7 (split; [vm_compute; reflexivity|]). vm_compute. reflexivity.
Qed.

(** The stop that raced the launch: ordered before the container exists, it
    finds nothing, and the launch tears its own container down. *)
Definition raced : list event :=
  [Inspected 0 true; Acted 0; Cleared 0 "now"; Dropped 0;
   Undeploy "d1" true false; Acted 1; StopEnded 1;
   Created 0 true; RunExited 0 (Some 0%Z); Acted 0; StopEnded 0].

Ltac run_calm :=
  repeat first
    [ apply calm_nil
    | eapply calm_cons;
      [ first [ exact I | split; reflexivity | reflexivity
              | let id := fresh in let b := fresh in let pr := fresh in let ac := fresh in
                intros id b pr ac; vm_compute; congruence ]
      | vm_compute; reflexivity
      | ] ].

Lemma no_stop_is_lost_witness :
  exists a, a_docker a !! "d1" = None /\ stopped "d1" true ∈ a_sent a /\ entryOf "d1" a = None.
Proof.
  assert (exists a, calm_run (fun _ => true) "/hf" true init (Deploy payload :: raced) a /\
                    quiet "d1" a /\ a_docker a !! "d1" = None) as (a & Hr & Hq & Hd).
  { eexists. split; [unfold raced; run_calm|]. split; [split; reflexivity|reflexivity]. }
  exists a. split; [exact Hd|].
  destruct (no_stop_is_lost _ _ _ _ _ Hr) as (_ & H & Hlost).
  destruct (H "d1" true false (Deploy payload :: firstn 4 raced) (skipn 5 raced) eq_refl
              ltac:(repeat constructor) Hq) as (_ & He & [Hs|Hs]).
  - split; [exact Hs|exact He].
  - rewrite Hlost in Hs; [by apply elem_of_nil in Hs|]. by repeat constructor.
Defined.

(** With the link down the end of the stop is dropped. *)
Example stop_report_dropped :
  (fun a => (a_sent a, a_lost a)) <$>
    demoRun init [Undeploy "d1" true false; Link false; Acted 0; StopEnded 0; Link true] =
  Some ([status "d1" "stopping"], [stopped "d1" true]).
Proof. by vm_compute. Qed.

Lemma store_well_formed_witness :
  exists a, demoRun init (Deploy payload :: launching 0) = Some a /\ length (a_store a) = 1 /\
            NoDup (map td_deploymentId (a_store a)).
Proof.
  destruct (demoRun init (Deploy payload :: launching 0)) as [a|] eqn:E; [|by vm_compute in E].
  exists a. split; [reflexivity|]. split; [vm_compute in E; by injection E as <-|].
  apply (store_well_formed _ _ _ _ _ E).
Defined.

Lemma launches_and_stops_end_witness :
  exists a, demoRun init [Deploy payload] = Some a /\ weight a = 8 /\
    exists e b, internal e /\ step (fun _ => true) "/hf" true a e = Some b.
Proof.
  eexists. split; [vm_compute; reflexivity|]. split; [reflexivity|].
  destruct (launches_and_stops_end (fun _ => true) "/hf" true
              (default init (demoRun init [Deploy payload]))) as (_ & _ & H & _).
  destruct H as (e & b & Hi & _ & Hs); [by vm_compute|]. exists e, b. split; [exact Hi|exact Hs].
Defined.
