(* ===== verification/AgentHealth.v ===== *)
(** How an agent watches what runs on its node: what it reads in logs and
    metrics, in module [Lines] (runtime/sparkrun-metrics.ts and the progress
    parsers of agent/src/index.ts); what docker says of a container, in [Inspect]
    (runtime/dgxrun/dgxrun.ts, dgxrun-reconcile.ts, runtime/deploy-status.ts);
    the health checks of dgxrun ranks and sparkrun workloads and the loop that
    reports them, in [Health] (runtime/dgxrun/dgxrun-metrics.ts,
    runtime/sparkrun-metrics.ts, runtime/deploy-report.ts, agent/src/index.ts);
    and Ollama's, in [Ollama] (runtime/ollama-reconcile.ts, runtime/ollama.ts).

    Docker, the log capture, the HTTP scrape, the node's memory reading and the
    clock are parameters.  One call of a check is one step: its awaits only ask. *)
From S2P Require Import Prelude JsNum LaunchArgs AgentLaunch.
Import Store.

Module Lines.

(** ** Matching *)

(** [lit] at the head of [s]. *)
Definition eat (lit s : string) : option string :=
  if String.prefix lit s then Some (str_drop (String.length lit) s) else None.

(** The longest run of characters of a class, and the rest. *)
Fixpoint span (p : ascii -> bool) (s : string) : string * string :=
  match s with
  | String c r => if p c then let '(a, b) := span p r in (String c a, b) else (EmptyString, s)
  | EmptyString => (EmptyString, EmptyString)
  end.

(** One or more characters of a class. *)
Definition span1 (p : ascii -> bool) (s : string) : option (string * string) :=
  match span p s with (EmptyString, _) => None | r => Some r end.

(** The leftmost position at which [f] matches. *)
Fixpoint leftmost {A} (f : string -> option A) (s : string) : option A :=
  match f s with
  | Some a => Some a
  | None => match s with String _ r => leftmost f r | EmptyString => None end
  end.

(** [\d+(?:\.\d+)?] *)
Definition decimal_text (s : string) : option (string * string) :=
  '(a, r) ← span1 is_digit s;
  match r with
  | String "." t =>
      match span1 is_digit t with Some (b, u) => Some (a +:+ "." +:+ b, u) | None => Some (a, r) end
  | _ => Some (a, r)
  end.

Record progress := { pg_percent : num; pg_current : num; pg_total : num;
                     pg_elapsed : option string; pg_eta : option string }.

(** [(\d+)\/(\d+)] *)
Definition ratio (s : string) : option (string * string * string) :=
  '(a, s) ← span1 is_digit s; s ← eat "/" s; '(b, s) ← span1 is_digit s; Some (a, b, s).

(** [LOADING_SHARDS_RE] *)
Definition loadingAt (s : string) : option progress :=
  s ← eat "Loading safetensors checkpoint shards:" s;
  '(_, s) ← span1 is_ws s; '(p, s) ← decimal_text s; s ← eat "%" s;
  '(_, s) ← span1 is_ws s; s ← eat "Completed" s;
  let '(_, s) := span is_ws s in s ← eat "|" s;
  let '(_, s) := span is_ws s in '(a, b, _) ← ratio s;
  Some {| pg_percent := number_of_string p; pg_current := number_of_string a;
          pg_total := number_of_string b; pg_elapsed := None; pg_eta := None |}.

Definition parseLoadingShards (line : string) : option progress := leftmost loadingAt line.

(** [FETCHING_RE] *)
Definition fetchingAt (s : string) : option progress :=
  s ← eat "Fetching" s; '(_, s) ← span1 is_ws s; '(_, s) ← span1 is_digit s;
  '(_, s) ← span1 is_ws s; s ← eat "files:" s; '(_, s) ← span1 is_ws s;
  '(p, s) ← decimal_text s; s ← eat "%|" s;
  let '(_, s) := span (fun c => negb (Ascii.eqb c "|")) s in s ← eat "|" s;
  let '(_, s) := span is_ws s in '(a, b, s) ← ratio s;
  let '(_, s) := span is_ws s in s ← eat "[" s;
  '(e, s) ← span1 (fun c => negb (Ascii.eqb c "<" || Ascii.eqb c "]")) s; s ← eat "<" s;
  '(t, _) ← span1 (fun c => negb (Ascii.eqb c "," || Ascii.eqb c "]")) s;
  Some {| pg_percent := number_of_string p; pg_current := number_of_string a;
          pg_total := number_of_string b; pg_elapsed := Some (str_trim e);
          pg_eta := Some (str_trim t) |}.

Definition parseFetchingProgress (line : string) : option progress := leftmost fetchingAt line.

Definition cr : ascii := ascii_of_nat 13.

(** Within one line, the last non-empty piece between carriage returns. *)
Definition lastPiece (segment : string) : string :=
  if str_includes (String cr "") segment
  then default "" (last (List.filter (fun p => negb (String.eqb p "")) (str_split cr segment)))
  else segment.

Definition collapseCarriageReturns (chunk : string) : string :=
  if str_includes (String cr "") chunk
  then str_join (String nl "") (map lastPiece (str_split nl chunk)) else chunk.

(** [emitDeploymentProgress]: the times of the last emissions, and whether this
    one goes out. *)
Definition emitProgress (times : gmap string Z) (id : string) (p : option progress) (now : Z) :
    gmap string Z * bool :=
  match p with
  | None => (times, false)
  | Some p =>
      let last := default 0%Z (times !! id) in
      if (now - last <? 1000)%Z && num_lt (pg_percent p) (zn 100) then (times, false)
      else (<[id := now]> times, true)
  end.

Definition ERROR_WORDS : list string :=
  ["error"; "invalid"; "traceback"; "exception"; "keyerror"; "raise "; "fatal"; "not found"].

Definition firstErrorLine (text : string) : option string :=
  str_trim <$> js_find (fun l => existsb (fun w => str_includes w (str_lower l)) ERROR_WORDS)
                 (str_split nl text).

(** ** Prometheus text *)

Definition gauge_char (c : ascii) : bool :=
  is_digit c || Ascii.eqb c "." || Ascii.eqb c "e" || Ascii.eqb c "E" || Ascii.eqb c "+" ||
  Ascii.eqb c "-".

(** One match of [^key(\{[^}]*\})?\s+([0-9.eE+-]+)] at a line's start. *)
Definition gaugeAt (key s : string) : option num :=
  s ← eat key s;
  s ← match s with
      | String "{" t => let '(_, u) := span (fun c => negb (Ascii.eqb c "}")) t in eat "}" u
      | _ => Some s
      end;
  '(_, s) ← span1 is_ws s; '(v, _) ← span1 gauge_char s; Some (number_of_string v).

(** The leftmost match, tried at the start of each line. *)
Fixpoint gauge (key : string) (at_start : bool) (s : string) : option num :=
  match (if at_start then gaugeAt key s else None) with
  | Some v => Some v
  | None =>
      match s with
      | String c r => gauge key (Ascii.eqb c nl || Ascii.eqb c cr) r
      | EmptyString => None
      end
  end.

Record VllmMetrics := { vm_running : option num; vm_kvCache : option num; vm_tokens : option num }.

Definition option_or {A} (a b : option A) : option A := match a with Some _ => a | None => b end.

Definition parseVllmMetrics (text : string) : VllmMetrics :=
  {| vm_running := gauge "vllm:num_requests_running" true text;
     vm_kvCache := option_or (gauge "vllm:kv_cache_usage_perc" true text)
                     (gauge "vllm:gpu_cache_usage_perc" true text);
     vm_tokens := gauge "vllm:generation_tokens_total" true text |}.

(** A reading of the counter, and when (milliseconds). *)
Definition TokenSample := (num * Z)%type.

Definition num_sub (a b : num) : num := num_add a (num_mul (zn (-1)) b).
Definition num_abs (a : num) : num := if num_lt a (zn 0) then num_mul (zn (-1)) a else a.

Definition computeTps (prev : option TokenSample) (curr : TokenSample) : option num :=
  match prev with
  | None => None
  | Some (total, time) =>
      let dt := (curr.2 - time)%Z in
      if (dt <=? 0)%Z then None
      else
        let delta := num_sub curr.1 total in
        if num_lt delta (zn 0) then None
        else Some (num_mul (num_round (num_mul delta (Fin (Qmake 10000 (Z.to_pos dt)))))
                     (Fin (1 # 10)))
  end.

End Lines.

Module Inspect.

Inductive DgxrunInspect :=
  | Found (name state : string) (restartCount : num)
  | Absent
  | Unknown (reason : string).

Definition classifyDockerInspect (status : option Z) (stdout stderr name : string)
    (error : option string) : DgxrunInspect :=
  match status with
  | Some 0%Z =>
      match List.filter (fun w => negb (String.eqb w "")) (str_split " " (str_map
              (fun c => if is_ws c then " "%char else c) (str_trim stdout))) with
      | [] => Unknown "docker inspect returned empty output"
      | [state] => Found name state (zn 0)
      | state :: rc :: _ =>
          let n := number_of_string rc in Found name state (if num_truthy n then n else zn 0)
      end
  | _ =>
      let blob := str_lower (stderr +:+ " " +:+ default "" error) in
      if str_includes "no such object" blob || str_includes "no such container" blob then Absent
      else match status with
        | None => Unknown (js_or error "docker inspect timed out")
        | Some c => Unknown (js_or (Some (str_trim stderr)) ("docker inspect exited " +:+ pretty c))
        end
  end.

Inductive DgxrunReconcileAction :=
  | Skip (reason : string)
  | Report (status : string) (error : option string)
  | Announce.

Definition reconcileDgxrunAction (inspect : DgxrunInspect) (rank : Z) : DgxrunReconcileAction :=
  match inspect with
  | Unknown reason => Skip ("docker inspect inconclusive (" +:+ reason +:+ ")")
  | Found _ "running" _ => if (rank =? 0)%Z then Announce else Report "running" None
  | _ => Report "failed" (Some "dgxrun rank not running after agent restart")
  end.

(** [classifyDeadContainer] *)
Definition classifyDeadContainer (intentional : bool) (lastError : option string) :
    string * option string :=
  if intentional then ("stopped", None)
  else ("failed", Some (js_or lastError "Container stopped unexpectedly")).

Definition reconcileDeployStatus (launcherAlive listed : bool) : string :=
  if listed then "running" else if launcherAlive then "deploying" else "failed".

(** What [reconcile] of a reconnect does for the tracked dgxrun ranks, in the
    order of the store. *)
Definition reconnectDgxrun (inspect : string -> DgxrunInspect) (s : store) :
    list (string * DgxrunReconcileAction) :=
  map (fun d => (td_deploymentId d,
                 reconcileDgxrunAction (inspect (td_deploymentId d)) (default 0%Z (td_rank d))))
    (List.filter (fun d => bool_decide (td_kind d = Some KDgxrun)) s).

End Inspect.

Module Health.
Import Lines Inspect.

Record VllmStatus := {
  vs_id : string; vs_recipeName : string; vs_port : num; vs_alive : bool;
  vs_containerRunning : bool; vs_apiReady : option bool; vs_requestsRunning : option num;
  vs_kvCacheUsage : option num; vs_tps : option num; vs_error : option string;
  vs_crashLoop : option bool; vs_restartCount : option num; vs_capturedLog : option string;
  vs_rank : option Z }.

Definition CRASH_LOOP_THRESHOLD : num := zn 2.
Definition ABSENT_TICKS_TO_FAIL : nat := 2.

(** What the checks remember: consecutive [absent] sightings, counter samples. *)
Record checks := { ck_absent : gmap string nat; ck_tokens : gmap string TokenSample }.

Definition forget_absent (id : string) (k : checks) : checks :=
  {| ck_absent := delete id (ck_absent k); ck_tokens := ck_tokens k |}.

(** A status without readings. *)
Definition blankStatus (d : TrackedDeployment) (up : bool) (rank : option Z) : VllmStatus :=
  {| vs_id := td_deploymentId d; vs_recipeName := td_recipeName d; vs_port := td_port d;
     vs_alive := up; vs_containerRunning := up; vs_apiReady := None; vs_requestsRunning := None;
     vs_kvCacheUsage := None; vs_tps := None; vs_error := None; vs_crashLoop := None;
     vs_restartCount := None; vs_capturedLog := None; vs_rank := rank |}.

Definition deadStatus (d : TrackedDeployment) (rank : option Z) (error : string) : VllmStatus :=
  {| vs_id := td_deploymentId d; vs_recipeName := td_recipeName d; vs_port := td_port d;
     vs_alive := false; vs_containerRunning := false; vs_apiReady := None;
     vs_requestsRunning := None; vs_kvCacheUsage := None; vs_tps := None; vs_error := Some error;
     vs_crashLoop := None; vs_restartCount := None; vs_capturedLog := None; vs_rank := rank |}.

Definition crashedStatus (d : TrackedDeployment) (rank : option Z) (state : string) (rc : num)
    (snap : string) : VllmStatus :=
  {| vs_id := td_deploymentId d; vs_recipeName := td_recipeName d; vs_port := td_port d;
     vs_alive := false; vs_containerRunning := false; vs_apiReady := None;
     vs_requestsRunning := None; vs_kvCacheUsage := None; vs_tps := None;
     vs_error := Some (default ("container " +:+ state +:+ " (restart #" +:+ num_str rc +:+ ")")
                         (firstErrorLine snap));
     vs_crashLoop := Some (num_le CRASH_LOOP_THRESHOLD rc); vs_restartCount := Some rc;
     vs_capturedLog := truthy (Some snap); vs_rank := rank |}.

Definition failing (state : string) (rc : num) : bool :=
  num_le CRASH_LOOP_THRESHOLD rc ||
  (negb (String.eqb state "running") && negb (String.eqb state "created")).

Definition isSet (b : option bool) : bool := default false b.

Section Node.
(** Docker's answer about a deployment's container; the log [captureCrashed…]
    returns after stopping it; [GET /metrics] on a port ([None]: no answer, else
    whether 2xx, and the text); the time of the reading. *)
Context (inspect : string -> DgxrunInspect) (capture : string -> string)
  (scrape : num -> option (bool * string)) (now : Z).

(** The scrape of a running head or workload. *)
Definition readMetrics (d : TrackedDeployment) (s : VllmStatus) (k : checks) : VllmStatus * checks :=
  match scrape (td_port d) with
  | None => (s, k)
  | Some (ok, text) =>
      let ready tps m := {| vs_id := vs_id s; vs_recipeName := vs_recipeName s; vs_port := vs_port s;
        vs_alive := vs_alive s; vs_containerRunning := vs_containerRunning s;
        vs_apiReady := Some ok; vs_requestsRunning := vm_running m;
        vs_kvCacheUsage := vm_kvCache m; vs_tps := tps; vs_error := vs_error s;
        vs_crashLoop := vs_crashLoop s; vs_restartCount := vs_restartCount s;
        vs_capturedLog := vs_capturedLog s; vs_rank := vs_rank s |} in
      if ok then
        let m := parseVllmMetrics text in
        match vm_tokens m with
        | Some total =>
            let id := td_deploymentId d in
            (ready (computeTps (ck_tokens k !! id) (total, now)) m,
             {| ck_absent := ck_absent k; ck_tokens := <[id := (total, now)]> (ck_tokens k) |})
        | None => (ready None m, k)
        end
      else (ready None {| vm_running := None; vm_kvCache := None; vm_tokens := None |}, k)
  end.

Definition workerReady (s : VllmStatus) : VllmStatus :=
  {| vs_id := vs_id s; vs_recipeName := vs_recipeName s; vs_port := vs_port s;
     vs_alive := vs_alive s; vs_containerRunning := vs_containerRunning s;
     vs_apiReady := Some true; vs_requestsRunning := vs_requestsRunning s;
     vs_kvCacheUsage := vs_kvCacheUsage s; vs_tps := vs_tps s; vs_error := vs_error s;
     vs_crashLoop := vs_crashLoop s; vs_restartCount := vs_restartCount s;
     vs_capturedLog := vs_capturedLog s; vs_rank := vs_rank s |}.

(** One rank in the loop of [checkDgxrunDeployments]. *)
Definition checkRank (d : TrackedDeployment) (k : checks) : option VllmStatus * checks :=
  let id := td_deploymentId d in
  match inspect id with
  | Unknown _ => (None, k)
  | Absent =>
      if isSet (td_stopping d) || isSet (td_starting d) then (None, forget_absent id k)
      else
        let n := S (default 0 (ck_absent k !! id)) in
        if n <? ABSENT_TICKS_TO_FAIL then
          (None, {| ck_absent := <[id := n]> (ck_absent k); ck_tokens := ck_tokens k |})
        else (Some (deadStatus d (td_rank d) "container missing"), forget_absent id k)
  | Found _ state rc =>
      let k := forget_absent id k in
      if isSet (td_stopping d) && negb (String.eqb state "running") then (None, k)
      else if failing state rc && negb (isSet (td_stopping d)) then
        (Some (crashedStatus d (td_rank d) state rc (capture id)), k)
      else
        let running := String.eqb state "running" in
        let s := blankStatus d running (td_rank d) in
        if negb running then (Some s, k)
        else if (default 0 (td_rank d) =? 0)%Z then
          let '(s, k) := readMetrics d s k in (Some s, k)
        else (Some (workerReady s), k)
  end.

(** The loop over the tracked entries of a kind, collecting results. *)
Fixpoint checkAll (check : TrackedDeployment -> checks -> option VllmStatus * checks)
    (ds : list TrackedDeployment) (k : checks) : list VllmStatus * checks :=
  match ds with
  | [] => ([], k)
  | d :: ds =>
      let '(r, k) := check d k in
      let '(rs, k) := checkAll check ds k in
      (match r with Some s => s :: rs | None => rs end, k)
  end.

(** Baselines of deployments no longer tracked are dropped. *)
Definition prune (ds : list TrackedDeployment) (k : checks) : checks :=
  {| ck_absent := ck_absent k;
     ck_tokens := filter (fun kv => kv.1 ∈ map td_deploymentId ds) (ck_tokens k) |}.

Definition isDgxrun (d : TrackedDeployment) : bool := bool_decide (td_kind d = Some KDgxrun).

Definition checkDgxrunDeployments (s : store) (k : checks) : list VllmStatus * checks :=
  let ds := List.filter isDgxrun s in
  let '(rs, k) := checkAll checkRank ds k in (rs, prune ds k).

(** ** Sparkrun workloads *)

(** [check-job]'s answer for an entry, and its container when one is found. *)
Context (isWorkloadRunning : TrackedDeployment -> bool)
  (inspectSparkrun : string -> option (string * num)).

(** One entry in the loop of [checkSparkrunDeployments]; the memory of samples is
    the module's own. *)
Definition checkWorkload (d : TrackedDeployment) (k : checks) : option VllmStatus * checks :=
  match truthy (td_clusterId d) with
  | None => (None, k)
  | Some cluster =>
      let running := isWorkloadRunning d in
      if isSet (td_stopping d) && negb running then (None, k)
      else
        match inspectSparkrun cluster with
        | Some (state, rc) =>
            if failing state rc && negb (isSet (td_stopping d)) then
              (Some (crashedStatus d None state rc (capture cluster)), k)
            else if running then let '(s, k) := readMetrics d (blankStatus d true None) k in (Some s, k)
            else (Some (blankStatus d false None), k)
        | None =>
            if running then let '(s, k) := readMetrics d (blankStatus d true None) k in (Some s, k)
            else (Some (blankStatus d false None), k)
        end
  end.

Definition checkSparkrunDeployments (s : store) (k : checks) : list VllmStatus * checks :=
  let '(rs, k) := checkAll checkWorkload s k in (rs, prune s k).

End Node.

(** ** Reporting *)

Definition sparkrunRunningStatus (s : VllmStatus) : string :=
  if vs_containerRunning s && isSet (vs_apiReady s) then "running" else "starting".

Definition shouldReportStatus (lastStatus : option string) (status : string) (lastVram : option num)
    (vramUsed : num) : bool :=
  if negb (bool_decide (Some status = lastStatus)) then true
  else if num_lt (zn 0) vramUsed then
    match lastVram with
    | None => true
    | Some v => num_lt (num_mul v (Fin (1 # 100))) (num_abs (num_sub vramUsed v))
    end
  else false.

Inductive message :=
  | MLog (id log : string)
  | MStatus (id status : string) (error : option string) (port : option num) (vram : option num).

(** What the loop remembers between ticks, and what it did to the node. *)
Record loop := { lp_last : gmap string string; lp_vram : gmap string num;
                 lp_sent : list message; lp_stopped : list string }.

(** [sendMsg]: only an open socket takes the message, otherwise it is dropped. *)
Definition say (up : bool) (m : message) (l : loop) : loop :=
  {| lp_last := lp_last l; lp_vram := lp_vram l;
     lp_sent := if up then lp_sent l ++ [m] else lp_sent l; lp_stopped := lp_stopped l |}.

(** [deployLastStatus.delete(id)], and the [stopDgxrun] before it. *)
Definition disown (id : string) (l : loop) : loop :=
  {| lp_last := delete id (lp_last l); lp_vram := lp_vram l; lp_sent := lp_sent l;
     lp_stopped := lp_stopped l ++ [id] |}.

(** The report of a live workload: due on a change of status or of memory, and
    remembered as made whether or not the link takes it. *)
Definition reportLive (up : bool) (vramUsed : num) (s : VllmStatus) (l : loop) : loop :=
  let id := vs_id s in
  let st := sparkrunRunningStatus s in
  if shouldReportStatus (lp_last l !! id) st (lp_vram l !! id) vramUsed then
    let known := num_lt (zn 0) vramUsed in
    say up (MStatus id st None (if String.eqb st "running" then Some (vs_port s) else None)
           (if known then Some vramUsed else None))
      {| lp_last := <[id := st]> (lp_last l);
         lp_vram := if known then <[id := vramUsed]> (lp_vram l) else lp_vram l;
         lp_sent := lp_sent l; lp_stopped := lp_stopped l |}
  else l.

Definition rankOf (s : VllmStatus) : Z := default 0%Z (vs_rank s).

Definition crashHeader (who : string) (s : VllmStatus) (looping exited : string) : string :=
  if isSet (vs_crashLoop s)
  then who +:+ " " +:+ looping +:+ " (restart #" +:+
       (match vs_restartCount s with Some n => num_str n | None => "undefined" end) +:+ ")"
  else who +:+ " " +:+ exited.

(** One status of a dgxrun rank in the health loop, which starts on an open link and
    may lose it at its awaits between two statuses; the [up] of a deployment is the state
    of the link when its turn comes. *)
Definition onRankStatus (vramUsed : num) (link : string -> bool) (l : loop) (s : VllmStatus) : loop :=
  let id := vs_id s in let up := link id in
  let who := "[agent] dgxrun rank " +:+ pretty (rankOf s) in
  if negb (vs_containerRunning s) && negb (vs_alive s) then
    let l := match vs_capturedLog s, isSet (vs_crashLoop s) with
             | None, false => l
             | log, _ => say up (MLog id (crashHeader who s "crash-looping" "exited" +:+
                                       " — container output:" +:+ String nl (default "" log) +:+
                                       String nl "")) l
             end in
    let l := say up (MStatus id "failed"
                    (Some (default ("dgxrun rank " +:+ pretty (rankOf s) +:+ " died") (vs_error s)))
                    None None) l in
    disown id l
  else if vs_containerRunning s && (rankOf s =? 0)%Z then reportLive up vramUsed s l
  else l.

(** One status of a sparkrun workload in the health loop. *)
Definition onWorkloadStatus (vramUsed : num) (link : string -> bool) (l : loop) (s : VllmStatus) : loop :=
  let id := vs_id s in let up := link id in
  let health l := match truthy (vs_error s) with
                  | Some e => say up (MLog id ("[HEALTH] " +:+ e +:+ String nl "")) l
                  | None => l
                  end in
  if negb (vs_containerRunning s) && negb (vs_alive s) then
    let l := match vs_capturedLog s, isSet (vs_crashLoop s) with
             | None, false => l
             | log, _ => say up (MLog id (crashHeader "[agent] container" s "is crash-looping" "exited" +:+
                                       " — capturing container output:" +:+
                                       String nl (default "" log) +:+ String nl "")) l
             end in
    let l := say up (MStatus id "failed"
                    (Some (default "Container stopped unexpectedly" (vs_error s))) None None) l in
    disown id l
  else if vs_containerRunning s then health (reportLive up vramUsed s l)
  else health l.

Definition dgxrunHealth (vramUsed : num) (link : string -> bool) (rs : list VllmStatus) (l : loop) : loop :=
  foldl (onRankStatus vramUsed link) l rs.

Definition sparkrunHealth (vramUsed : num) (link : string -> bool) (rs : list VllmStatus) (l : loop) : loop :=
  foldl (onWorkloadStatus vramUsed link) l rs.

(** What the metrics loop makes of the same checks: only what runs counts. *)
Definition activeRequests (rs : list VllmStatus) : num :=
  foldl (fun acc s => num_add acc (default (zn 0) (vs_requestsRunning s))) (zn 0)
    (List.filter vs_containerRunning rs).

End Health.

Module Ollama.

Inductive action := Restore (reason : string) | Serving (reason : string) | Idle (reason : string)
  | SkipIt (reason : string).

Definition reconcileOllamaAction (serviceRunning modelLoaded : bool) (stopping : option bool) : action :=
  if default false stopping then SkipIt "undeploy in progress"
  else if negb serviceRunning then Restore "Ollama is not running"
  else if negb modelLoaded then Idle "model not resident; Ollama loads it on demand"
  else Serving "model resident".

Definition shouldRetryOllamaReconcile (pendingRestores : nat) (inFlight : bool) : bool :=
  (0 <? pendingRestores)%nat && negb inFlight.

Definition decideOllamaStateTransition (loaded : bool) (prev : option string) : option string :=
  if negb loaded && bool_decide (prev = Some "running") then Some "evicted"
  else if loaded && bool_decide (prev = None \/ prev = Some "evicted") then Some "running"
  else None.

(** The tracked models, the queue of failed restores, and what was reported. *)
Record state := { ol_active : gmap string string; ol_pending : gset string;
                  ol_sent : list (string * string) }.

Section Reconcile.
(** The store at the time an entry is re-read; whether the service answers,
    whether a model is loaded, and whether a start succeeds ([Err]: why not). *)
Context (reread : string -> option TrackedDeployment) (serviceRunning : string -> bool)
  (modelLoaded : string -> bool) (start : string -> result string ()).

(** One entry of [runOllamaReconcile]. *)
Definition reconcileOne (st : state) (d : TrackedDeployment) : state :=
  let id := td_deploymentId d in
  let drop := {| ol_active := ol_active st; ol_pending := ol_pending st ∖ {[id]}; ol_sent := ol_sent st |} in
  match reread id with
  | None => drop
  | Some current =>
      if default false (td_stopping current) then drop
      else
        let active := <[id := td_recipeFile d]> (ol_active st) in
        let up := serviceRunning id in
        let serving := {| ol_active := active; ol_pending := ol_pending st ∖ {[id]};
                          ol_sent := ol_sent st ++ [(id, "running")] |} in
        match reconcileOllamaAction up (up && modelLoaded id) (td_stopping current) with
        | SkipIt _ => {| ol_active := active; ol_pending := ol_pending st; ol_sent := ol_sent st |}
        | Restore _ =>
            match start id with
            | Ok _ => serving
            | Err _ => {| ol_active := active; ol_pending := {[id]} ∪ ol_pending st;
                          ol_sent := ol_sent st ++ [(id, "failed")] |}
            end
        | _ => serving
        end
  end.

Definition isOllama (d : TrackedDeployment) : bool := bool_decide (td_kind d = Some KOllama).

Definition runOllamaReconcile (s : store) (st : state) : state :=
  foldl reconcileOne st (List.filter isOllama s).

End Reconcile.

(** The eviction check of the health loop for one tracked model. *)
Definition onHealth (loaded : bool) (id : string) (last : gmap string string) :
    gmap string string * option string :=
  match decideOllamaStateTransition loaded (last !! id) with
  | Some t => (<[id := t]> last, Some t)
  | None => (last, None)
  end.

End Ollama.
