(* ===== verification/AgentHealthFacts.v ===== *)
(** Facts of [AgentHealth]: a rank is failed only on evidence, an inconclusive
    answer decides nothing, the two loops that share the absent counter can hide
    a vanished container from each other, a container still being created and a
    launch caught by a reconnect are reported failed, phases and Ollama's
    transitions only move as they should. *)
From S2P Require Import Prelude JsNum Recipes LaunchArgs LaunchArgsFacts AgentLaunch AgentLaunchFacts AgentHealth.
Import Store Lines Inspect Health.

(** * Phases *)

Lemma indexOf_bound xs x : (-1 <= Phase.indexOf xs x < Z.of_nat (length xs))%Z.
Proof.
  induction xs as [|y xs IH]; simpl; [lia|]. destruct (String.eqb y x); [lia|].
  destruct (Z.ltb_spec (Phase.indexOf xs x) 0); lia.
Qed.

(** The statuses that a sequence of [reportPhase] calls sends. *)
Fixpoint announced (ranks : gmap string Z) (rs : list (string * string)) : list (string * string) :=
  match rs with
  | [] => []
  | (id, ph) :: rs =>
      let '(ranks, out) := Phase.reportPhase ranks id ph in
      if out then (id, ph) :: announced ranks rs else announced ranks rs
  end.

(** The progression phases among them for one deployment, as ranks. *)
Definition progression (id : string) (l : list (string * string)) : list Z :=
  List.filter (fun r => (0 <=? r)%Z)
    (omap (fun kv : string * string => if decide (kv.1 = id) then Some (Phase.phaseRank kv.2) else None) l).

Lemma progression_cons id j ph l :
  progression id ((j, ph) :: l) =
  if decide (j = id) then
    if (0 <=? Phase.phaseRank ph)%Z then Phase.phaseRank ph :: progression id l else progression id l
  else progression id l.
Proof. unfold progression. simpl. by destruct (decide (j = id)). Qed.

Lemma announced_above id rs : forall ranks,
  StronglySorted Z.lt (progression id (announced ranks rs)) /\
  Forall (fun r => (default (-1) (ranks !! id) < r)%Z) (progression id (announced ranks rs)).
Proof.
  induction rs as [|[j ph] rs IH]; intros ranks; [repeat constructor|].
  cbn [announced]. unfold Phase.reportPhase.
  destruct (Z.ltb_spec (Phase.phaseRank ph) 0) as [Hn|Hn].
  - rewrite progression_cons. destruct (Z.leb_spec 0 (Phase.phaseRank ph)); [lia|].
    destruct (decide (j = id)); apply IH.
  - destruct (Z.leb_spec (Phase.phaseRank ph) (default (-1)%Z (ranks !! j))) as [Hle|Hlt]; [apply IH|].
    rewrite progression_cons. destruct (IH (<[j := Phase.phaseRank ph]> ranks)) as [Hs Hf].
    destruct (decide (j = id)) as [->|Hj].
    + rewrite lookup_insert_eq in Hf. simpl in Hf.
      destruct (Z.leb_spec 0 (Phase.phaseRank ph)); [|lia]. split; [by constructor|].
      constructor; [done|]. eapply Forall_impl; [exact Hf|]. simpl. lia.
    + by rewrite lookup_insert_ne in Hf by done.
Qed.

(** The phases a deployment's status goes through are reported strictly
    forward: whatever order log lines, reconnects and other deployments come in,
    the progression statuses sent for one deployment between two teardowns have
    strictly increasing ranks, each above the rank already reached, so there are
    at most seven of them; any other status is always sent. *)
Theorem phases_move_forward id ranks rs :
  StronglySorted Z.lt (progression id (announced ranks rs)) /\
  Forall (fun r => (default (-1) (ranks !! id) < r < 7)%Z) (progression id (announced ranks rs)) /\
  length (progression id (announced ranks rs)) <= 7 /\
  (forall j ph, (Phase.phaseRank ph < 0)%Z -> announced ranks ((j, ph) :: rs) = (j, ph) :: announced ranks rs).
Proof.
  destruct (announced_above id rs ranks) as [Hs Hf].
  assert (Forall (fun r => (0 <= r < 7)%Z) (progression id (announced ranks rs))) as Hb.
  { apply Forall_forall. intros r [Hr H0]%elem_of_filter_bool. apply Z.leb_le in H0.
    apply list_elem_of_omap in Hr as ([j ph] & _ & Hr). simpl in Hr.
    destruct (decide (j = id)); [|done]. injection Hr as <-.
    pose proof (indexOf_bound Phase.PHASE_ORDER ph). unfold Phase.phaseRank in *. simpl in *. lia. }
  split; [done|]. split; [|split].
  - apply Forall_forall. intros r Hr. rewrite Forall_forall in Hf, Hb. specialize (Hf _ Hr).
    specialize (Hb _ Hr). simpl in *. lia.
  - assert (forall n l, StronglySorted Z.lt l -> Forall (fun r => (n <= r < 7)%Z) l ->
              Z.of_nat (length l) <= Z.max 0 (7 - n))%Z as H.
    { clear. intros n l. revert n. induction l as [|x l IH]; intros n Hs Hb; simpl; [lia|].
      apply StronglySorted_inv in Hs as [Hs Hx]. apply Forall_cons in Hb as [Hx7 Hb].
      assert (Forall (fun r => (x + 1 <= r < 7)%Z) l) as Hb'.
      { apply Forall_forall. intros r Hr. rewrite Forall_forall in Hx, Hb. specialize (Hx _ Hr).
        specialize (Hb _ Hr). simpl in *. lia. }
      specialize (IH _ Hs Hb'). lia. }
    specialize (H 0%Z _ Hs Hb). lia.
  - intros j ph Hp. cbn [announced]. unfold Phase.reportPhase.
    by destruct (Z.ltb_spec (Phase.phaseRank ph) 0); [|lia].
Qed.

(** * Evidence for a failure *)

(** What one look does to the absent counter of the entry it looks at. *)
Definition absent_step (d : TrackedDeployment) (o : DgxrunInspect) (n : option nat) : option nat :=
  match o with
  | Unknown _ => n
  | Found _ _ _ => None
  | Absent =>
      if isSet (td_stopping d) || isSet (td_starting d) then None
      else if S (default 0 n) <? ABSENT_TICKS_TO_FAIL then Some (S (default 0 n)) else None
  end.

Lemma readMetrics_absent scrape now d s k :
  ck_absent (readMetrics scrape now d s k).2 = ck_absent k.
Proof.
  unfold readMetrics. destruct (scrape (td_port d)) as [[[] text]|]; [|done..].
  by destruct (vm_tokens (parseVllmMetrics text)).
Qed.


Lemma readMetrics_id scrape now d s k : vs_id (readMetrics scrape now d s k).1 = vs_id s.
Proof.
  unfold readMetrics. destruct (scrape (td_port d)) as [[[] text]|]; [|done..].
  by destruct (vm_tokens (parseVllmMetrics text)).
Qed.

(** One call of the check, and everything it asks of the node. *)
Record call := {
  c_store : store; c_inspect : string -> DgxrunInspect; c_capture : string -> string;
  c_scrape : num -> option (bool * string); c_now : Z }.

Definition checkOf (c : call) : TrackedDeployment -> checks -> option VllmStatus * checks :=
  checkRank (c_inspect c) (c_capture c) (c_scrape c) (c_now c).

Definition callChecks (c : call) (k : checks) : list VllmStatus * checks :=
  checkDgxrunDeployments (c_inspect c) (c_capture c) (c_scrape c) (c_now c) (c_store c) k.

Lemma checkRank_absent c d k j :
  ck_absent (checkOf c d k).2 !! j =
  if decide (td_deploymentId d = j)
  then absent_step d (c_inspect c (td_deploymentId d)) (ck_absent k !! td_deploymentId d)
  else ck_absent k !! j.
Proof.
  unfold checkOf, checkRank, absent_step.
  destruct (c_inspect c (td_deploymentId d)) as [nm state rc| |reason].
  - set (k' := forget_absent (td_deploymentId d) k).
    assert (ck_absent k' !! j = if decide (td_deploymentId d = j) then None else ck_absent k !! j) as Hk.
    { unfold k', forget_absent. simpl. destruct (decide _) as [->|]; [apply lookup_delete_eq|].
      by apply lookup_delete_ne. }
    destruct (isSet (td_stopping d) && _); [done|]. destruct (failing state rc && _); [done|].
    destruct (negb (String.eqb state "running")); [done|].
    destruct (default 0%Z (td_rank d) =? 0)%Z; [|exact Hk].
    pose proof (readMetrics_absent (c_scrape c) (c_now c) d
                  (blankStatus d (String.eqb state "running") (td_rank d)) k') as Hr.
    destruct (readMetrics _ _ _ _ _) as [s k2]. simpl in *. by rewrite Hr.
  - destruct (isSet (td_stopping d) || isSet (td_starting d)).
    + simpl. destruct (decide _) as [->|]; [apply lookup_delete_eq|by apply lookup_delete_ne].
    + destruct (_ <? _); simpl; destruct (decide _) as [->|];
        [apply lookup_insert_eq|by apply lookup_insert_ne|apply lookup_delete_eq|by apply lookup_delete_ne].
  - simpl. by destruct (decide _) as [->|].
Qed.

(** Results come from the entry they name. *)
Lemma checkRank_id c d k r : (checkOf c d k).1 = Some r -> vs_id r = td_deploymentId d.
Proof.
  unfold checkOf, checkRank. destruct (c_inspect c (td_deploymentId d)) as [nm state rc| |reason]; [| |done].
  - destruct (isSet (td_stopping d) && _); [done|]. destruct (failing state rc && _); [by intros [= <-]|].
    destruct (negb (String.eqb state "running")); [by intros [= <-]|].
    destruct (default 0%Z (td_rank d) =? 0)%Z; [|by intros [= <-]].
    pose proof (readMetrics_id (c_scrape c) (c_now c) d (blankStatus d (String.eqb state "running") (td_rank d))
                  (forget_absent (td_deploymentId d) k)) as Hr.
    destruct (readMetrics _ _ _ _ _) as [s k2]. by intros [= <-].
  - destruct (_ || _); [done|]. destruct (_ <? _); [done|]. by intros [= <-].
Qed.


(** The loop over distinct entries. *)
Lemma checkAll_absent c ds k j :
  NoDup (map td_deploymentId ds) ->
  ck_absent (checkAll (checkOf c) ds k).2 !! j =
  match js_find (isEntry j) ds with
  | Some d => absent_step d (c_inspect c j) (ck_absent k !! j)
  | None => ck_absent k !! j
  end.
Proof.
  revert k. induction ds as [|d ds IH]; intros k Hnd; [done|]. cbn [checkAll js_find].
  apply NoDup_cons in Hnd as [Hd Hnd]. pose proof (checkRank_absent c d k j) as Hc.
  destruct (checkOf c d k) as [r k1]. specialize (IH k1 Hnd).
  destruct (checkAll (checkOf c) ds k1) as [rs k2]. simpl in *. rewrite IH.
  destruct (isEntry j d) eqn:E.
  - apply isEntry_eq in E as <-. rewrite decide_True in Hc by done.
    replace (js_find (isEntry (td_deploymentId d)) ds) with (@None TrackedDeployment); [done|].
    symmetry. apply js_find_None. intros x Hx. destruct (isEntry (td_deploymentId d) x) eqn:Ex; [|done].
    apply isEntry_eq in Ex. exfalso. apply Hd, list_elem_of_fmap. by exists x.
  - rewrite decide_False in Hc; [by rewrite Hc|]. intros Hj.
    assert (isEntry j d = true) by (by apply isEntry_eq). congruence.
Qed.

Lemma checkAll_results c ds k r :
  NoDup (map td_deploymentId ds) -> r ∈ (checkAll (checkOf c) ds k).1 ->
  exists d k0, d ∈ ds /\ (checkOf c d k0).1 = Some r /\
               ck_absent k0 !! td_deploymentId d = ck_absent k !! td_deploymentId d.
Proof.
  revert k. induction ds as [|d ds IH]; intros k Hnd; [intros ?%elem_of_nil; done|]. cbn [checkAll].
  apply NoDup_cons in Hnd as [Hd Hnd].
  pose proof (fun j => checkRank_absent c d k j) as Hc. destruct (checkOf c d k) as [q k1] eqn:Eq.
  specialize (IH k1 Hnd). destruct (checkAll (checkOf c) ds k1) as [rs k2]. simpl in *. intros Hr.
  assert (q = Some r \/ r ∈ rs) as [->|Hin].
  { destruct q; [apply elem_of_cons in Hr as [->|]|]; auto. }
  - exists d, k. split; [left|]. by rewrite Eq.
  - destruct (IH Hin) as (d' & k0 & Hd' & Hr' & Hk). exists d', k0. split; [by right|].
    split; [done|]. rewrite Hk, Hc, decide_False; [done|]. intros Heq.
    apply Hd, list_elem_of_fmap. by exists d'.
Qed.




Definition callAll (cs : list call) (k : checks) : checks :=
  foldl (fun k c => (callChecks c k).2) k cs.

Definition no_checks : checks := {| ck_absent := ∅; ck_tokens := ∅ |}.

Lemma callChecks_absent c k id :
  NoDup (map td_deploymentId (c_store c)) ->
  ck_absent (callChecks c k).2 !! id =
  match js_find (isEntry id) (List.filter isDgxrun (c_store c)) with
  | Some d => absent_step d (c_inspect c id) (ck_absent k !! id)
  | None => ck_absent k !! id
  end.
Proof.
  intros Hnd. unfold callChecks, checkDgxrunDeployments.
  rewrite <- (checkAll_absent c _ k id) by (by apply NoDup_map_filter). unfold checkOf.
  by destruct (checkAll _ _ _) as [rs k'].
Qed.


(** ** From a status to a report *)






(** * Two loops, one counter *)

Lemma checkAll_intro c ds k d :
  NoDup (map td_deploymentId ds) -> d ∈ ds ->
  exists k0, ck_absent k0 !! td_deploymentId d = ck_absent k !! td_deploymentId d /\
    forall r, (checkOf c d k0).1 = Some r -> r ∈ (checkAll (checkOf c) ds k).1.
Proof.
  revert k. induction ds as [|x ds IH]; intros k Hnd Hd; [by apply elem_of_nil in Hd|]. cbn [checkAll].
  apply NoDup_cons in Hnd as [Hx Hnd].
  pose proof (fun j => checkRank_absent c x k j) as Hc. destruct (checkOf c x k) as [q k1] eqn:Eq.
  specialize (IH k1 Hnd). apply elem_of_cons in Hd as [->|Hd].
  - exists k. split; [done|]. intros r. rewrite Eq. simpl. intros ->.
    destruct (checkAll (checkOf c) ds k1). left.
  - destruct (IH Hd) as (k0 & Hk & Hr). exists k0. simpl in Hc. rewrite Hc, decide_False in Hk.
    + split; [done|]. intros r Hq. specialize (Hr r Hq).
      destruct (checkAll (checkOf c) ds k1) as [rs k2]. simpl in *. destruct q; [by right|done].
    + intros Heq. apply Hx, list_elem_of_fmap. by exists d.
Qed.

Definition idle_rank (d : TrackedDeployment) : Prop :=
  td_kind d = Some KDgxrun /\ isSet (td_stopping d) = false /\ isSet (td_starting d) = false.

Lemma find_entry_unique id d (ds : store) :
  NoDup (map td_deploymentId ds) -> d ∈ ds -> td_deploymentId d = id -> js_find (isEntry id) ds = Some d.
Proof.
  intros Hnd Hd Hid. induction ds as [|x ds IH]; [by apply elem_of_nil in Hd|]. simpl.
  apply NoDup_cons in Hnd as [Hx Hnd]. apply elem_of_cons in Hd as [->|Hd].
  - by rewrite (proj2 (isEntry_eq id x) Hid).
  - destruct (isEntry id x) eqn:E; [|by apply IH]. apply isEntry_eq in E.
    destruct Hx. apply list_elem_of_fmap. exists d. split; [congruence|done].
Qed.

Section Vanished.
Context (s : store) (d : TrackedDeployment).
Hypothesis (Hnd : NoDup (map td_deploymentId s)) (Hd : d ∈ s) (Hidle : idle_rank d).
Local Notation id := (td_deploymentId d).

Definition gone_call (c : call) : Prop := c_store c = s /\ c_inspect c id = Absent.

Lemma rank_found : js_find (isEntry id) (List.filter isDgxrun s) = Some d.
Proof.
  apply find_entry_unique; [by apply NoDup_map_filter| |done]. apply elem_of_filter_bool.
  split; [done|]. by apply bool_decide_eq_true, Hidle.
Qed.

Lemma gone_counter cs k :
  Forall gone_call cs -> ck_absent k !! id = None ->
  ck_absent (callAll cs k) !! id = if Nat.odd (length cs) then Some 1 else None.
Proof.
  intros Hcs Hk. induction cs as [|c cs IH] using rev_ind; [done|].
  apply Forall_app in Hcs as [Hcs [[Hc Ha] _]%Forall_cons]. specialize (IH Hcs).
  unfold callAll in *. rewrite foldl_app, length_app. cbn [foldl length].
  rewrite callChecks_absent by (by rewrite Hc). rewrite Hc, rank_found, Ha, IH.
  destruct Hidle as (_ & H1 & H2). unfold absent_step. rewrite H1, H2. simpl orb. cbn iota.
  replace (length cs + 1)%nat with (S (length cs)) by lia. rewrite Nat.odd_succ, <- Nat.negb_odd.
  by destruct (Nat.odd (length cs)).
Qed.

Lemma gone_result c k r :
  gone_call c -> r ∈ (callChecks c k).1 -> vs_id r = id -> is_Some (ck_absent k !! id).
Proof.
  intros [Hc Ha] Hr Hid. unfold callChecks, checkDgxrunDeployments in Hr.
  assert (r ∈ (checkAll (checkOf c) (List.filter isDgxrun (c_store c)) k).1) as Hin.
  { unfold checkOf. by destruct (checkAll _ _ _) as [rs k']. }
  apply checkAll_results in Hin as (e & k0 & He & Hq & Hk); [|rewrite Hc; by apply NoDup_map_filter].
  pose proof (checkRank_id _ _ _ _ Hq) as Hide.
  assert (Some e = Some d) as [= ->].
  { rewrite <- rank_found. symmetry. apply find_entry_unique; [by apply NoDup_map_filter|by rewrite <- Hc|congruence]. }
  unfold checkOf, checkRank in Hq. rewrite Ha in Hq. destruct Hidle as (_ & H1 & H2).
  rewrite H1, H2 in Hq. rewrite <- Hk. by destruct (ck_absent k0 !! id).
Qed.

Lemma gone_reported c k :
  gone_call c -> ck_absent k !! id = Some 1 ->
  deadStatus d (td_rank d) "container missing" ∈ (callChecks c k).1.
Proof.
  intros [Hc Ha] Hk. destruct (checkAll_intro c (List.filter isDgxrun s) k d) as (k0 & Hk0 & Hr).
  { by apply NoDup_map_filter. }
  { apply elem_of_filter_bool. split; [done|]. by apply bool_decide_eq_true, Hidle. }
  specialize (Hr (deadStatus d (td_rank d) "container missing")).
  unfold callChecks, checkDgxrunDeployments. rewrite Hc. unfold checkOf in *.
  destruct (checkAll _ _ _) as [rs k']. apply Hr. unfold checkRank. rewrite Ha.
  destruct Hidle as (_ & H1 & H2). rewrite H1, H2, Hk0, Hk. done.
Qed.

(** C11: Whether the death of a rank whose container vanished is ever reported
    depends on parity.  The metrics loop (every 5 s) and the health loop (every
    15 s) run the same check over one counter, which starts again when it
    reaches two, and only the health loop reports.  Let docker call a tracked
    idle rank absent from now on, [m] metrics ticks run before the next health
    tick, and each later period have three metrics ticks and one health tick:
    the health tick of period [q] reports the rank exactly when [m] is odd, so
    with [m] even no health tick ever does. *)
Theorem vanished_rank_by_parity cs c k m q :
  Forall gone_call (c :: cs) -> ck_absent k !! id = None -> length cs = m + 4 * q ->
  ((exists r, r ∈ (callChecks c (callAll cs k)).1 /\ vs_id r = id) <-> Nat.odd m = true).
Proof.
  intros [Hc Hcs]%Forall_cons Hk Hlen. pose proof (gone_counter cs k Hcs Hk) as Hn.
  assert (Nat.odd (length cs) = Nat.odd m) as Ho.
  { rewrite Hlen, Nat.odd_add. replace (4 * q) with (2 * (2 * q)) by lia.
    rewrite Nat.odd_mul. simpl. by destruct (Nat.odd m). }
  rewrite Ho in Hn. split.
  - intros (r & Hr & Hid). apply gone_result in Hr; [|done|done]. rewrite Hn in Hr.
    destruct (Nat.odd m); [done|]. by apply is_Some_None in Hr.
  - intros Hm. rewrite Hm in Hn. eexists. split; [by apply gone_reported|done].
Qed.
End Vanished.

(** * What is reported failed although it is coming up *)

(** Two failures are reported of ranks that are coming up, and a failed rank
    makes the manager tear every rank down.  A container docker has created and
    not yet started is not failing to the check, yet the health loop reads its
    status as dead, reports it and stops it.  And a reconnect in the middle of a
    launch, when docker rightly calls the container absent, reports the rank
    failed: the reconciliation does not look at the entry's [starting] and
    [stopping] flags, which keep the health check silent about the same entry. *)
Theorem coming_up_reported_failed d k capture scrape now vram link l rank :
  idle_rank d -> lp_sent l = [] -> link (td_deploymentId d) = true ->
  let created := fun _ : string => Found "c" "created" (zn 0) in
  failing "created" (zn 0) = false /\
  (exists s, checkRank created capture scrape now d k = (Some s, forget_absent (td_deploymentId d) k) /\
     exists error, MStatus (td_deploymentId d) "failed" (Some error) None None ∈ lp_sent (onRankStatus vram link l s) /\
     td_deploymentId d ∈ lp_stopped (onRankStatus vram link l s)) /\
  reconcileDgxrunAction Absent rank =
    Report "failed" (Some "dgxrun rank not running after agent restart") /\
  forall flagged, (td_starting flagged = Some true \/ td_stopping flagged = Some true) ->
    (checkRank (fun _ => Absent) capture scrape now flagged k).1 = None.
Proof.
  intros (Hk & Hs & Hg) Hl Hup created. split; [done|]. split; [|split; [done|]].
  - exists (blankStatus d false (td_rank d)). split.
    + unfold checkRank, created. rewrite Hs. done.
    + eexists. unfold onRankStatus. cbn [vs_containerRunning vs_alive blankStatus negb andb vs_capturedLog
        vs_crashLoop isSet default]. cbn [disown say lp_sent lp_stopped vs_id blankStatus]. rewrite Hl, Hup.
      split; [left|apply elem_of_app; right; left].
  - intros f [Hf|Hf]; unfold checkRank; rewrite Hf; simpl; [|done]. by rewrite orb_true_r.
Qed.

(** ** Concrete runs *)


(** * Log lines and metrics *)

Example shards_line :
  parseLoadingShards "x Loading safetensors checkpoint shards:  42% Completed | 35/83 [00:10<00:12]" =
  Some {| pg_percent := Fin 42; pg_current := Fin 35; pg_total := Fin 83; pg_elapsed := None; pg_eta := None |}.
Proof. by vm_compute. Qed.

Example fetching_line :
  (fun p => (num_str (pg_percent p), pg_elapsed p, pg_eta p)) <$>
    parseFetchingProgress "Fetching 56 files:   2%|#         | 1/56 [00:00<00:24,  2.21it/s]" =
  Some ("2", Some "00:00", Some "00:24").
Proof. by vm_compute. Qed.

Example carriage_returns :
  collapseCarriageReturns ("a" +:+ String cr ("b" +:+ String nl ("c" +:+ String cr ""))) =
  "b" +:+ String nl "c".
Proof. by vm_compute. Qed.

Example metrics_text :
  vm_tokens (parseVllmMetrics ("# HELP" +:+ String nl ("vllm:generation_tokens_total{a=b} 1250.0"))) =
  Some (Fin (12500 # 10)).
Proof. by vm_compute. Qed.

Example tps : option_map num_str (computeTps (Some (zn 100, 0%Z)) (zn 350, 5000%Z)) = Some "50".
Proof. by vm_compute. Qed.

(** * Docker's answers *)

Example inspect_answers :
  classifyDockerInspect (Some 1%Z) "" "Error: No such object: dgxrun_d1" "n" None = Absent /\
  classifyDockerInspect None "" "" "n" (Some "docker timed out after 10000ms") =
    Unknown "docker timed out after 10000ms" /\
  classifyDockerInspect (Some 0%Z) ("running 0" +:+ String nl "") "" "n" None = Found "n" "running" (Fin 0).
Proof. by vm_compute. Qed.

(** * Ollama *)

(** The transitions of one model over a sequence of readings. *)
Fixpoint transitions (id : string) (last : gmap string string) (loaded : list bool) : list string :=
  match loaded with
  | [] => []
  | b :: bs =>
      let '(last, t) := Ollama.onHealth b id last in
      match t with Some t => t :: transitions id last bs | None => transitions id last bs end
  end.

Fixpoint alternates (next : string) (l : list string) : Prop :=
  match l with
  | [] => True
  | t :: l => t = next /\ alternates (if String.eqb next "running" then "evicted" else "running") l
  end.

Lemma ollama_alternates id loaded : forall last,
  match last !! id with
  | None | Some "evicted" => alternates "running" (transitions id last loaded)
  | Some "running" => alternates "evicted" (transitions id last loaded)
  | _ => True
  end.
Proof.
  assert (H : forall last,
    ((last !! id = None \/ last !! id = Some "evicted") -> alternates "running" (transitions id last loaded)) /\
    (last !! id = Some "running" -> alternates "evicted" (transitions id last loaded))).
  { induction loaded as [|b bs IH]; intros last; [done|]. cbn [transitions].
    unfold Ollama.onHealth, Ollama.decideOllamaStateTransition. destruct (IH last) as [IH1 IH2].
    split.
    - intros Hl. destruct b; cbn [negb andb].
      + rewrite bool_decide_true by (by destruct Hl; auto). cbn.
        split; [done|]. apply IH. apply lookup_insert_eq.
      + rewrite bool_decide_false by (by destruct Hl as [->| ->]). by apply IH1.
    - intros Hl. destruct b; cbn [negb andb].
      + rewrite bool_decide_false by (rewrite Hl; by intros [?|?]). by apply IH2.
      + rewrite bool_decide_true by done. cbn. split; [done|]. apply IH. right. apply lookup_insert_eq. }
  intros last. destruct (H last) as [H1 H2]. destruct (last !! id) as [t|]; [|auto].
  repeat case_match; auto.
Qed.

(** * Witnesses *)

Lemma phases_move_forward_witness :
  announced ∅ [("d1", "starting"); ("d1", "loading"); ("d1", "downloading"); ("d1", "failed"); ("d1", "running")] =
    [("d1", "starting"); ("d1", "loading"); ("d1", "failed"); ("d1", "running")] /\
  announced ∅ [("d1", "failed")] = [("d1", "failed")].
Proof.
  split; [by vm_compute|].
  destruct (phases_move_forward "d1" ∅ []) as (_ & _ & _ & H). by apply (H "d1" "failed").
Defined.

Definition rank0 : TrackedDeployment :=
  set_starting false (Machine.launchEntry
    (default (Machine.Build_order "" demo 0 0 "" 0 NaN None) (Machine.readOrder payload)) "now").

Definition lookFor (answer : DgxrunInspect) : call :=
  {| c_store := [rank0]; c_inspect := fun _ => answer; c_capture := fun _ => "";
     c_scrape := fun _ => None; c_now := 0 |}.

Lemma rank0_idle : idle_rank rank0.
Proof. split; [|split]; by vm_compute. Qed.

Lemma one_rank : NoDup (map td_deploymentId [rank0]).
Proof. apply NoDup_singleton. Qed.

Definition silent : loop := {| lp_last := ∅; lp_vram := ∅; lp_sent := []; lp_stopped := [] |}.


Lemma vanished_rank_by_parity_witness :
  ~ (exists r, r ∈ (callChecks (lookFor Absent) (callAll (replicate 6 (lookFor Absent)) no_checks)).1 /\
               vs_id r = "d1") /\
  (exists r, r ∈ (callChecks (lookFor Absent) (callAll (replicate 5 (lookFor Absent)) no_checks)).1 /\
             vs_id r = "d1").
Proof.
  assert (forall n, Forall (gone_call [rank0] rank0) (lookFor Absent :: replicate n (lookFor Absent))) as Hg.
  { intros n. constructor; [done|]. apply Forall_replicate. done. }
  split.
  - intros H. apply (vanished_rank_by_parity [rank0] rank0 one_rank ltac:(left) rank0_idle
      (replicate 6 (lookFor Absent)) (lookFor Absent) no_checks 2 1 (Hg 6) eq_refl eq_refl) in H. done.
  - apply (vanished_rank_by_parity [rank0] rank0 one_rank ltac:(left) rank0_idle
      (replicate 5 (lookFor Absent)) (lookFor Absent) no_checks 1 1 (Hg 5) eq_refl eq_refl). reflexivity.
Defined.

Lemma coming_up_reported_failed_witness :
  reconcileDgxrunAction Absent 0 = Report "failed" (Some "dgxrun rank not running after agent restart") /\
  (checkRank (fun _ => Absent) (fun _ => "") (fun _ => None) 0 (set_starting true rank0) no_checks).1 = None.
Proof.
  destruct (coming_up_reported_failed rank0 no_checks (fun _ => "") (fun _ => None) 0 (zn 0) (fun _ => true) silent 0
              rank0_idle eq_refl eq_refl) as (_ & _ & H & Hf).
  split; [exact H|]. apply Hf. by left.
Defined.
