(* ===== verification/Jobs.v ===== *)
(** Benchmark jobs on the eval node: what the agent asks systemd to run and how it
    answers for it (packages/agent/src/jobs/*.ts, caps/job-cap.ts, caps/registry.ts
    and the input rules of caps/exec-cap.ts).

    The files of the job directories are a map from paths to contents.  systemd is
    a parameter: what [systemd-run] and [systemctl] print and return.  [readSync]
    gives the bytes asked for; a chunk is bytes, its decoding is left out. *)
From S2P Require Import Prelude JsNum LaunchArgs.

Module Spec.
Import Shell.

(** [/^[A-Za-z0-9]+$/] *)
Definition SAFE_RUN_ID (s : string) : bool := negb (String.eqb s "") && str_all is_alnum s.

Definition assertSafeRunId (runId : string) : result string () :=
  guard_or (SAFE_RUN_ID runId) ("unsafe runId (expected /^[A-Za-z0-9]+$/): " +:+ runId).

Definition jobUnitName (runId : string) : result string string :=
  _ ← assertSafeRunId runId; Ok ("dgxbench-" +:+ runId).

Definition jobDir (home runId : string) : result string string :=
  _ ← assertSafeRunId runId; Ok (home +:+ "/.dgx-agent/jobs/" +:+ runId).

Definition line_cmd (argv : list string) : string := str_join " " (map shQuote argv) +:+ " > log 2>&1".

Definition script_find (outputDir resultGlob : string) : string :=
  "f=$(find " +:+ shQuote outputDir +:+ " -name " +:+ shQuote resultGlob +:+
  " -print -quit 2>/dev/null)".

Definition script_copy : string :=
  "[ -n " +:+ String dq ("$f" +:+ String dq (" ] && cp " +:+ String dq ("$f" +:+ String dq " result.json"))).

Definition script_exit : string :=
  "printf " +:+ String sq ("%s" +:+ String sq (" " +:+ String dq ("$code" +:+ String dq
    " > exit.tmp && mv exit.tmp exit"))).

Definition wrapperLines (argv : list string) (dir outputDir resultGlob : string) : list string :=
  ["#!/bin/sh"; "cd " +:+ shQuote dir +:+ " || exit 127"; "mkdir -p " +:+ shQuote outputDir;
   line_cmd argv; "code=$?"; script_find outputDir resultGlob; script_copy; script_exit; ""].

Definition buildWrapperScript (argv : list string) (dir outputDir resultGlob : string) : string :=
  str_join (String nl "") (wrapperLines argv dir outputDir resultGlob).

Definition buildSystemdRunArgv (unit dir user scriptPath : string) : list string :=
  let home := "/home/" +:+ user in
  ["sudo"; "-n"; "systemd-run"; "--unit=" +:+ unit; "-p"; "User=" +:+ user;
   "-p"; "WorkingDirectory=" +:+ dir; "-p"; "RemainAfterExit=yes";
   "-p"; "Environment=HOME=" +:+ home;
   "-p"; "Environment=PATH=" +:+ home +:+
         "/.local/bin:/usr/local/sbin:/usr/local/bin:/usr/sbin:/usr/bin:/sbin:/bin";
   "/bin/sh"; scriptPath].

(** [planRead]: from where to where, and whether it starts over. *)
Definition planRead (prevOffset : num) (size : Z) : num * Z * bool :=
  let truncated := negb (is_finite prevOffset) || num_lt prevOffset (zn 0) ||
                   num_lt (zn size) prevOffset in
  (if truncated then zn 0 else prevOffset, size, truncated).

Definition JOB_RETENTION_MS : Z := 14 * 86400000.

Definition stalePaths (entries : list (string * Z)) (now retention : Z) : list string :=
  map fst (List.filter (fun e : string * Z => (retention <? now - e.2)%Z) entries).

(** ** systemctl show *)

Inductive JobStatus :=
  | Active
  | Exited (code : Z)
  | Missing
  | Unknown (reason : string).

Definition ACTIVE_STATES : list string := ["active"; "activating"; "reloading"].
Definition FINISHED_STATES : list string := ["inactive"; "failed"; "deactivating"].

Definition mem (x : string) (l : list string) : bool := existsb (String.eqb x) l.

(** The text before and after the first [=], when it is not at the start. *)
Fixpoint cut_eq (s : string) : option (string * string) :=
  match s with
  | EmptyString => None
  | String c r =>
      if Ascii.eqb c "=" then Some ("", r)
      else match cut_eq r with Some (a, b) => Some (String c a, b) | None => None end
  end.

Definition parseProps (stdout : string) : list (string * string) :=
  foldl (fun m line => match cut_eq line with
                       | Some (k, v) => if String.eqb k "" then m else al_set m (str_trim k) (str_trim v)
                       | None => m
                       end) [] (str_split nl stdout).

(** [/^-?\d+$/], and the number it denotes. *)
Definition intText (s : string) : option Z :=
  let '(neg, r) := match s with String "-" r => (true, r) | _ => (false, s) end in
  if negb (String.eqb r "") && str_all is_digit r then
    let '(v, _, _) := digits 10 0 0 r in Some (if neg then (- v)%Z else v)
  else None.

Definition status_text (status : option Z) : string :=
  match status with Some c => pretty c | None => "null" end.

Definition parseSystemctlShow (status : option Z) (stdout stderr : string) : JobStatus :=
  match status with
  | Some 0%Z =>
      let props := parseProps stdout in
      let load := al_get props "LoadState" in
      let active := al_get props "ActiveState" in
      match truthy load, truthy active with
      | None, None => Unknown "systemctl produced no recognisable properties"
      | _, _ =>
          if bool_decide (load = Some "not-found") then Missing
          else match truthy active with
            | Some a =>
                if mem a ACTIVE_STATES then Active
                else if mem a FINISHED_STATES then
                  match al_get props "ExecMainStatus" with
                  | Some raw =>
                      match intText raw with
                      | Some code => Exited code
                      | None => Unknown ("ActiveState=" +:+ a +:+ " but ExecMainStatus=" +:+ raw)
                      end
                  | None => Unknown ("ActiveState=" +:+ a +:+ " but ExecMainStatus=undefined")
                  end
                else Unknown ("unrecognised ActiveState=" +:+ a)
            | None => Unknown ("unrecognised ActiveState=" +:+ default "<absent>" active)
            end
      end
  | _ => Unknown ("systemctl exited " +:+ status_text status +:+ ": " +:+ str_take 200 (str_trim stderr))
  end.

End Spec.

Module JobCap.
Import Spec.

(** The job files of a node: contents by path. *)
Notation files := (gmap string string).

(** What a process run to its end gave; [None] when it could not be spawned. *)
Record RunOut := { ro_code : option Z; ro_stdout : string; ro_stderr : string }.

(** The answers of the capabilities. *)
Inductive data :=
  | Started (unit dir outputDir : string)
  | Status (s : JobStatus)
  | Logs (chunk : string) (nextOffset : Z) (truncated : bool)
  | Stopped
  | Result (raw : option string).

Record job_paths := {
  jp_dir : string; jp_outputDir : string; jp_script : string; jp_log : string; jp_exit : string;
  jp_result : string; jp_unit : string }.

Section Node.
Context (home user : string).

Definition paths (runId : string) : result string job_paths :=
  dir ← jobDir home runId;
  unit ← jobUnitName runId;
  Ok {| jp_dir := dir; jp_outputDir := dir +:+ "/out"; jp_script := dir +:+ "/cmd.sh";
        jp_log := dir +:+ "/log"; jp_exit := dir +:+ "/exit"; jp_result := dir +:+ "/result.json";
        jp_unit := unit |}.

(** [rmSync] of a directory. *)
Definition removeDir (p : string) (fs : files) : files :=
  filter (fun kv => kv.1 <> p /\ String.prefix (p +:+ "/") kv.1 = false) fs.

(** [job.start]: prune, write the script, hand it to systemd. *)
Definition start (entries : list (string * Z)) (now : Z) (systemdRun : list string -> option RunOut)
    (runId : string) (argv : list string) (resultGlob : option string) (fs : files) :
    result string data * files :=
  match argv with
  | [] => (Err "job.start: argv required", fs)
  | _ =>
      let fs := foldl (fun fs p => removeDir p fs) fs (stalePaths entries now JOB_RETENTION_MS) in
      match paths runId with
      | Err e => (Err e, fs)
      | Ok p =>
          let fs := <[jp_script p := buildWrapperScript argv (jp_dir p) (jp_outputDir p)
                                       (default "result.json" resultGlob)]> fs in
          match systemdRun (buildSystemdRunArgv (jp_unit p) (jp_dir p) user (jp_script p)) with
          | None => (Err "spawn failed", fs)
          | Some r =>
              if bool_decide (ro_code r = Some 0%Z)
              then (Ok (Started (jp_unit p) (jp_dir p) (jp_outputDir p)), fs)
              else (Err ("systemd-run failed (exit " +:+ status_text (ro_code r) +:+ "): " +:+
                         str_take 300 (str_trim (ro_stderr r))), fs)
          end
      end
  end.

(** The exit file's verdict. *)
Definition exitFile (p : job_paths) (fs : files) : option Z :=
  raw ← fs !! jp_exit p; intText (str_trim raw).

(** [job.status] *)
Definition status (systemctl : list string -> option RunOut) (runId : string) (fs : files) :
    result string data :=
  p ← paths runId;
  r ← of_option (systemctl ["systemctl"; "show"; jp_unit p; "-p"; "LoadState"; "-p"; "ActiveState";
                            "-p"; "ExecMainStatus"]) "spawn failed";
  let parsed := parseSystemctlShow (ro_code r) (ro_stdout r) (ro_stderr r) in
  Ok (Status match parsed with
      | Missing | Active =>
          match exitFile p fs with Some code => Exited code | None => parsed end
      | _ => parsed
      end).

(** [readFileSlice]: the bytes of [[from, to)]. *)
Definition slice (s : string) (from to : Z) : string :=
  str_take (Z.to_nat (to - from)) (str_drop (Z.to_nat from) s).

(** [job.logs]: offsets are whole bytes, as [nextOffset] gives them. *)
Definition logs (runId : string) (offset : option Z) (fs : files) : result string data :=
  p ← paths runId;
  match fs !! jp_log p with
  | None => Ok (Logs "" 0 false)
  | Some text =>
      let '(from, to, truncated) :=
        planRead (zn (default 0%Z offset)) (Z.of_nat (String.length text)) in
      Ok (Logs (slice text (match from with Fin q => Qfloor q | _ => 0%Z end) to) to truncated)
  end.

(** [job.cancel]: what [systemctl stop] answers does not matter. *)
Definition cancel (runId : string) : result string data := _ ← paths runId; Ok Stopped.

(** [job.result] *)
Definition result_ (runId : string) (fs : files) : result string data :=
  p ← paths runId; Ok (Result (fs !! jp_result p)).

End Node.

(** ** The registry *)

Section Registry.
Context {input output : Type}.

Definition registry := list (string * (input -> result string output)).

Definition register (name : string) (h : input -> result string output) (r : registry) : registry :=
  al_set r name h.

Definition dispatch (r : registry) (name : string) (i : input) : result string output :=
  match al_get r name with
  | None => Err ("unknown capability: " +:+ name)
  | Some handle => handle i
  end.

End Registry.

(** ** The exec capability's rules *)

Inductive execError := CmdRequired | ReasonRequired.

(** What [exec] spawns, and its deadline in milliseconds. *)
Definition execPlan (cmd : option string) (args : option (list string)) (timeoutMs : option Z)
    (reason : option string) : result execError (string * list string * Z) :=
  cmd ← of_option (truthy cmd) CmdRequired;
  r ← of_option (truthy reason) ReasonRequired;
  _ ← guard_or (negb (String.eqb (str_trim r) "")) ReasonRequired;
  Ok (cmd, default [] args, Z.min (Z.max (default 30000 timeoutMs) 1) 300000)%Z.

End JobCap.
