(* ===== verification/JobsFacts.v ===== *)
(** Facts of [Jobs]: what a run id can name, what a start touches, what a status
    may conclude, and the command line of the wrapper script. *)
From S2P Require Import Prelude JsNum LaunchArgs LaunchArgsFacts Jobs.
Import Shell Spec JobCap.

(** * Run ids and paths *)

Lemma safe_id s : SAFE_RUN_ID s = true <-> str_all is_alnum s = true /\ s <> "".
Proof. unfold SAFE_RUN_ID. rewrite andb_true_iff, negb_true_iff, String.eqb_neq. tauto. Qed.

Lemma paths_Ok home runId p :
  paths home runId = Ok p ->
  SAFE_RUN_ID runId = true /\ jp_dir p = home +:+ "/.dgx-agent/jobs/" +:+ runId /\
  jp_script p = jp_dir p +:+ "/cmd.sh" /\ jp_log p = jp_dir p +:+ "/log" /\
  jp_exit p = jp_dir p +:+ "/exit" /\ jp_result p = jp_dir p +:+ "/result.json" /\
  jp_unit p = "dgxbench-" +:+ runId.
Proof.
  unfold paths, jobDir, jobUnitName, assertSafeRunId. intros H. ok_inv.
  cbn [jp_dir jp_script jp_log jp_exit jp_result jp_unit]. done.
Qed.

Lemma paths_unsafe home runId : SAFE_RUN_ID runId = false -> exists e, paths home runId = Err e.
Proof. intros H. unfold paths, jobDir, assertSafeRunId. rewrite H. by eexists. Qed.

(** An id of letters and digits ends where the next slash is. *)
Lemma id_segment a : forall b x y,
  str_all is_alnum a = true -> str_all is_alnum b = true ->
  (a +:+ String "/" x) = (b +:+ String "/" y) -> a = b.
Proof.
  induction a as [|c a IH]; intros [|d b] x y Ha Hb E; [done| | |].
  - injection E as <- _. discriminate Hb.
  - injection E as -> _. discriminate Ha.
  - cbn [str_all] in Ha, Hb. apply andb_true_iff in Ha as [_ Ha], Hb as [_ Hb].
    injection E as -> E. f_equal. by apply (IH b x y).
Qed.

(** No file of one run's directory is a file of another's. *)
Lemma job_dirs_apart home r1 r2 p1 p2 f1 f2 :
  paths home r1 = Ok p1 -> paths home r2 = Ok p2 ->
  (jp_dir p1 +:+ String "/" f1) = (jp_dir p2 +:+ String "/" f2) -> r1 = r2.
Proof.
  intros (H1 & -> & _)%paths_Ok (H2 & -> & _)%paths_Ok.
  apply safe_id in H1 as [H1 _], H2 as [H2 _]. rewrite !str_app_assoc.
  intros E%str_app_inj_l%str_app_inj_l. by apply (id_segment _ _ f1 f2).
Qed.

Lemma removeDir_lookup p fs path :
  removeDir p fs !! path =
  if decide (path <> p /\ String.prefix (p +:+ "/") path = false) then fs !! path else None.
Proof.
  unfold removeDir. rewrite map_lookup_filter. destruct (fs !! path) as [v|]; simpl.
  - destruct (decide _) as [Hd|Hd]; [by rewrite option_guard_True by exact Hd|].
    by rewrite option_guard_False by exact Hd.
  - by destruct (decide _).
Qed.

Lemma prune_keeps stale fs path :
  (forall d, d ∈ stale -> path <> d /\ String.prefix (d +:+ "/") path = false) ->
  foldl (fun fs p => removeDir p fs) fs stale !! path = fs !! path.
Proof.
  revert fs. induction stale as [|d stale IH]; intros fs H; [done|]. cbn [foldl].
  rewrite IH; [|intros d' ?; apply H; by right].
  rewrite removeDir_lookup, decide_True; [done|]. apply H. left.
Qed.

(** What [job.start] changes: the files of pruned directories go, its own script is
    written, and nothing else. *)
Lemma start_lookup home user entries now sd runId argv glob fs path :
  (forall d, d ∈ stalePaths entries now JOB_RETENTION_MS ->
             path <> d /\ String.prefix (d +:+ "/") path = false) ->
  (forall p, paths home runId = Ok p -> path <> jp_script p) ->
  (start home user entries now sd runId argv glob fs).2 !! path = fs !! path.
Proof.
  intros Hst Hp. unfold start. destruct argv as [|a argv]; [done|].
  destruct (paths home runId) as [p|e] eqn:E; [|by apply prune_keeps].
  destruct (sd _) as [r|]; [destruct (bool_decide _)|];
    cbn [snd]; rewrite lookup_insert_ne by (symmetry; by apply Hp); by apply prune_keeps.
Qed.

Lemma stale_spec entries now ret d :
  d ∈ stalePaths entries now ret <-> exists m, (d, m) ∈ entries /\ (ret < now - m)%Z.
Proof.
  unfold stalePaths. rewrite list_elem_of_fmap. split.
  - intros ([d' m] & -> & [Hin Hm]%elem_of_filter_bool). exists m. split; [done|].
    by apply Z.ltb_lt in Hm.
  - intros (m & Hin & Hm). exists (d, m). split; [done|]. apply elem_of_filter_bool.
    split; [done|]. by apply Z.ltb_lt.
Qed.

Lemma prefix_slash_dir a b f :
  str_all is_alnum a = true -> str_all is_alnum b = true ->
  String.prefix (a +:+ "/") (b +:+ String "/" f) = true -> a = b.
Proof.
  intros Ha Hb (u & E)%prefix_spec. rewrite str_app_assoc in E.
  symmetry in E. by apply (id_segment a b u f).
Qed.

(** Starting a benchmark job leaves the files of every other job alone: whatever
    the run id, the command and the answer of systemd, a file in the directory of
    another run changes only when that run's directory was listed with a time of last
    change more than fourteen days old.  Listed are the directories of runs. *)
Theorem start_isolated home user entries now sd runId argv glob fs other p f :
  (forall d m, (d, m) ∈ entries ->
     exists id, d = home +:+ "/.dgx-agent/jobs/" +:+ id /\ SAFE_RUN_ID id = true) ->
  paths home other = Ok p -> other <> runId ->
  (forall m, (jp_dir p, m) ∈ entries -> (now - m <= JOB_RETENTION_MS)%Z) ->
  (start home user entries now sd runId argv glob fs).2 !! (jp_dir p +:+ String "/" f) =
  fs !! (jp_dir p +:+ String "/" f).
Proof.
  intros Hent Hp Hne Hfresh. pose proof (paths_Ok _ _ _ Hp) as (Hs & Hd & _).
  apply safe_id in Hs as [Hs _]. apply start_lookup.
  - intros d (m & Hin & Hm)%stale_spec. destruct (Hent d m Hin) as (id & -> & Hid).
    apply safe_id in Hid as [Hid Hid0]. assert (id <> other) as Hio.
    { intros ->. rewrite <- Hd in Hin. apply Hfresh in Hin. lia. }
    rewrite Hd, !str_app_assoc. split.
    + intros E%str_app_inj_l%str_app_inj_l. clear -Hid E.
      revert Hid E. generalize id. induction other as [|c o IH]; intros [|d s] Hid E; try done.
      * injection E as <- _. discriminate Hid.
      * cbn [str_all] in Hid. apply andb_true_iff in Hid as [_ Hid]. injection E as _ E.
        by apply (IH s).
    + apply not_true_is_false. intros (u & E)%prefix_spec. rewrite !str_app_assoc in E.
      apply str_app_inj_l, str_app_inj_l in E. symmetry in E. apply Hio.
      by apply (id_segment id other u f).
  - intros p' Hp' E. apply Hne. pose proof (paths_Ok _ _ _ Hp') as (_ & _ & Hscr & _).
    rewrite Hscr in E. by apply (job_dirs_apart home other runId p p' f "cmd.sh").
Qed.

(** * What a status may conclude *)

Definition answered (r : RunOut) (k v : string) : Prop :=
  ro_code r = Some 0%Z /\ al_get (parseProps (ro_stdout r)) k = Some v.

(** What systemd says of a unit: that it has none, that it runs, that its main process ended
    with a status. *)
Definition denies (r : RunOut) : Prop := answered r "LoadState" "not-found".
Definition unitRuns (r : RunOut) : Prop :=
  ~ denies r /\ exists a, answered r "ActiveState" a /\ a ∈ ["active"; "activating"; "reloading"].
Definition ended (r : RunOut) (c : Z) : Prop :=
  ~ denies r /\
  exists a raw, answered r "ActiveState" a /\ a ∈ ["inactive"; "failed"; "deactivating"] /\
                answered r "ExecMainStatus" raw /\ intText raw = Some c.

Lemma mem_In a l : mem a l = true <-> a ∈ l.
Proof.
  unfold mem. rewrite existsb_exists. split.
  - intros (x & Hx & ->%String.eqb_eq). by apply list_elem_of_In.
  - intros H. exists a. by rewrite <- list_elem_of_In, String.eqb_refl.
Qed.

(** Without an answer there is nothing it says; with one, it says one thing at most. *)
Lemma silent r : ro_code r <> Some 0%Z -> ~ denies r /\ ~ unitRuns r /\ forall c, ~ ended r c.
Proof.
  intros Hc. unfold denies, unitRuns, ended, answered.
  split; [by intros [? _]|]. split; [by intros [_ (? & [? _] & _)]|by intros c [_ (? & ? & [? _] & _)]].
Qed.

Lemma says_active r a :
  ro_code r = Some 0%Z -> al_get (parseProps (ro_stdout r)) "ActiveState" = a ->
  (unitRuns r -> exists x, a = Some x /\ x ∈ ACTIVE_STATES) /\
  (forall c, ended r c -> exists x raw, a = Some x /\ x ∈ FINISHED_STATES /\
     al_get (parseProps (ro_stdout r)) "ExecMainStatus" = Some raw /\ intText raw = Some c).
Proof.
  intros Hc <-. split.
  - intros [_ (x & [_ Hx] & Hin)]. by exists x.
  - intros c [_ (x & raw & [_ Hx] & Hin & [_ Hr] & Hi)]. by exists x, raw.
Qed.

(** The parse says what systemd said, and is inconclusive otherwise. *)
Lemma parse_says r :
  match parseSystemctlShow (ro_code r) (ro_stdout r) (ro_stderr r) with
  | Missing => denies r
  | Active => unitRuns r
  | Exited c => ended r c
  | Unknown _ => ~ denies r /\ ~ unitRuns r /\ forall c, ~ ended r c
  end.
Proof.
  destruct (decide (ro_code r = Some 0%Z)) as [Hc|Hc].
  2: { pose proof (silent r Hc). unfold parseSystemctlShow. by destruct (ro_code r) as [[| |]|]. }
  destruct (says_active r _ Hc eq_refl) as [Hruns Hended].
  unfold parseSystemctlShow. rewrite Hc. set (props := parseProps _) in *.
  destruct (decide (al_get props "LoadState" = Some "not-found")) as [Hl|Hl].
  { rewrite Hl. cbn [truthy]. by rewrite bool_decide_true. }
  assert (~ denies r) as Hd by (by intros [_ ?]).
  rewrite (bool_decide_false _ Hl).
  destruct (truthy (al_get props "ActiveState")) as [a|] eqn:Ea.
  2: { assert (forall (l : list string) x, x ∈ l -> "" ∉ l -> al_get props "ActiveState" <> Some x) as Hno.
       { intros l x Hx Hl' E. rewrite E in Ea. by destruct x. }
       assert (~ unitRuns r /\ forall c, ~ ended r c) as [H1 H2].
       { split; [intros (x & Hx & Hin)%Hruns|intros c (x & raw & Hx & Hin & _)%Hended];
           by apply (Hno _ _ Hin); [apply (bool_decide_unpack _); vm_compute|]. }
       by destruct (truthy (al_get props "LoadState")). }
  apply truthy_Some in Ea as [Ea _]. rewrite Ea in Hruns, Hended.
  destruct (mem a ACTIVE_STATES) eqn:E1; [|destruct (mem a FINISHED_STATES) eqn:E2].
  - apply mem_In in E1. assert (unitRuns r) by (split; [done|by exists a]). by destruct (truthy _).
  - apply mem_In in E2. assert (~ unitRuns r) as Hr.
    { intros (x & [= <-] & Hin)%Hruns. apply mem_In in Hin. congruence. }
    destruct (al_get props "ExecMainStatus") as [raw|] eqn:Eraw; [destruct (intText raw) as [c|] eqn:Ei|].
    + assert (ended r c) by (split; [done|by exists a, raw]). by destruct (truthy _).
    + assert (forall c, ~ ended r c) by (intros c (? & ? & _ & _ & [= <-] & ?)%Hended; congruence).
      by destruct (truthy _).
    + assert (forall c, ~ ended r c) by (by intros c (? & ? & _ & _ & ? & _)%Hended). by destruct (truthy _).
  - assert (~ unitRuns r) by (intros (x & [= <-] & Hin)%Hruns; apply mem_In in Hin; congruence).
    assert (forall c, ~ ended r c)
      by (intros c (x & ? & [= <-] & Hin & _)%Hended; apply mem_In in Hin; congruence).
    by destruct (truthy _).
Qed.

(** C25: A benchmark job is reported finished, gone or running only on evidence.  [Exited c]
    means that systemd answered, denying the unit or calling it active, and the wrapper's
    exit file holds [c], or that systemd itself reports the unit finished with the status
    [c]; [Missing] means systemd answered that it has no such unit and there is no exit file
    to read; [Active] that it calls the unit active and there is none.  When systemd could
    not be asked, or its answer says none of these, the job is neither: the status is
    unknown, and the files are not consulted. *)
Theorem status_evidence home systemctl runId fs s :
  status home systemctl runId fs = Ok (Status s) ->
  exists p r, paths home runId = Ok p /\
    systemctl ["systemctl"; "show"; jp_unit p; "-p"; "LoadState"; "-p"; "ActiveState";
               "-p"; "ExecMainStatus"] = Some r /\
    let exitHolds c := exists raw, fs !! jp_exit p = Some raw /\ intText (str_trim raw) = Some c in
    match s with
    | Exited c => ((denies r \/ unitRuns r) /\ exitHolds c) \/ ended r c
    | Missing => denies r /\ forall c, ~ exitHolds c
    | Active => unitRuns r /\ forall c, ~ exitHolds c
    | Unknown _ => ~ denies r /\ ~ unitRuns r /\ forall c, ~ ended r c
    end /\
    (~ denies r -> ~ unitRuns r ->
       forall fs', status home systemctl runId fs' = Ok (Status s)).
Proof.
  unfold status. intros H. apply bind_Ok in H as (p & Hp & H).
  apply bind_Ok in H as (r & Hr & H). apply of_option_Ok in Hr.
  exists p, r. split; [done|]. split; [done|]. cbv zeta.
  assert (forall c, exitFile p fs = Some c -> exists raw, fs !! jp_exit p = Some raw /\ intText (str_trim raw) = Some c)
    as Hex by (unfold exitFile; intros c Hc; destruct (fs !! jp_exit p) as [raw|]; [by exists raw|done]).
  assert (exitFile p fs = None -> forall c, ~ exists raw, fs !! jp_exit p = Some raw /\ intText (str_trim raw) = Some c)
    as Hno by (unfold exitFile; intros Hc c (raw & Hraw & Hi); rewrite Hraw in Hc; cbn in Hc; congruence).
  pose proof (parse_says r) as Hs. rewrite Hp. cbn [mbind result_bind]. rewrite Hr.
  cbn [mbind result_bind of_option].
  destruct (parseSystemctlShow _ _ _) as [|c| |why] eqn:E.
  - destruct (exitFile p fs) as [c|] eqn:Ec; injection H as <-; (split; [|by intros _ []]);
      [left; split; [by right|by apply Hex]|by split; [|apply Hno]].
  - injection H as <-. split; [by right|done].
  - destruct (exitFile p fs) as [c|] eqn:Ec; injection H as <-; (split; [|by intros []]);
      [left; split; [by left|by apply Hex]|by split; [|apply Hno]].
  - injection H as <-. by split.
Qed.

(** * The wrapper's command line *)

(** Splitting the line that runs the tool gives the command word for word, then the
    redirection. *)
Lemma wrapper_command argv :
  argv <> [] -> tokenizeCommand (line_cmd argv) = argv ++ [">"; "log"; "2>&1"].
Proof.
  intros Hne. unfold tokenizeCommand, line_cmd, str_join.
  induction argv as [|v [|w argv] IH]; [done| |].
  - change (String.concat " " (map shQuote [v])) with (shQuote v).
    rewrite tokens_shQuote. by vm_compute.
  - change (String.concat " " (map shQuote (v :: w :: argv)))
      with (shQuote v +:+ String " " (String.concat " " (map shQuote (w :: argv)))).
    rewrite str_app_assoc, tokens_shQuote, app_String. cbn [tokens]. simpl is_sep. cbn [orb].
    rewrite IH by done. done.
Qed.
