(* ===== verification/RemoteRun.v ===== *)
(** Running a benchmark on the eval node (benchmarks/remote-runner.ts) and in the
    manager's container (benchmarks/orchestrator.ts): module [Poll] is the manager's
    loop over a channel to the node's agent, a type class; module [Node] is the
    instance a node gives, the handlers of [Jobs] behind a transport that may lose
    any call; module [Runner] is what both runners promise to what sits above. *)
From S2P Require Import Prelude JsNum Jobs.
Import Spec.

(** [SpawnTrackedResult], which [runTrackedRemote] resolves with as well. *)
Record SpawnTrackedResult := { sr_exitCode : option Z; sr_rawOutput : option string }.

Module Poll.

(** The calls the loop makes, each with the answer of the capability channel: [Err] is
    [ok: false].  [ch_sleep] is the wait between two rounds. *)
Class Channel (W : Type) := {
  ch_start : list string -> string -> W -> result string () * W;
  ch_logs : Z -> W -> result string (string * Z * bool) * W;
  ch_status : W -> result string JobStatus * W;
  ch_result : W -> result string (option string) * W;
  ch_sleep : W -> W }.

Inductive action := Continue | Finish | Fail_.

Definition nextPollAction (status : JobStatus) (hasExitFile : bool) : action :=
  match status with
  | Exited _ => Finish
  | Active => Continue
  | Unknown _ => Continue
  | Missing => if hasExitFile then Finish else Fail_
  end.

(** What the caller is told on the way: [onLog] and [onOffset]. *)
Inductive event := OnLog (line : string) | OnOffset (offset : Z).

(** [call]: the data of an answer, [null] of a failure. *)
Definition call {A} (r : result string A) : option A :=
  match r with Ok a => Some a | Err _ => None end.

Section Loop.
Context {W : Type} `{Channel W}.

Definition nonempty (l : string) : bool := negb (String.eqb l "").

Definition drain (offset : Z) (w : W) : Z * list event * W :=
  let '(r, w) := ch_logs offset w in
  match call r with
  | None => (offset, [], w)
  | Some (chunk, nextOffset, truncated) =>
      let offset := if truncated : bool then 0%Z else offset in
      let lines := map OnLog (List.filter nonempty (str_split nl chunk)) in
      if (nextOffset =? offset)%Z then (offset, lines, w)
      else (nextOffset, lines ++ [OnOffset nextOffset], w)
  end.

(** What one round of the loop ends with: another round, or the run's result. *)
Inductive verdict := Again | Done (r : result string SpawnTrackedResult).

Definition vanished (runId nodeId : string) : string :=
  "job " +:+ runId +:+ " vanished on " +:+ nodeId +:+ " (unit gone, no exit file, no result)".

Definition round (runId nodeId : string) (offset : Z) (w : W) : verdict * Z * list event * W :=
  let '(offset, evs, w) := drain offset w in
  let '(st, w) := ch_status w in
  let s := default (Unknown "cap call failed") (call st) in
  let '(finishedResult, w) :=
    match s with
    | Missing => let '(r, w) := ch_result w in (call r, w)
    | _ => (None, w)
    end in
  let hasResult := match finishedResult with Some (Some _) => true | _ => false end in
  match nextPollAction s hasResult with
  | Fail_ => (Done (Err (vanished runId nodeId)), offset, evs, w)
  | Continue => (Again, offset, evs, ch_sleep w)
  | Finish =>
      let '(offset, evs', w) := drain offset w in
      match s with
      | Exited c =>
          let '(r, w) := ch_result w in
          let raw := if (c =? 0)%Z then default None (call r) else None in
          (Done (Ok {| sr_exitCode := Some c; sr_rawOutput := raw |}), offset, evs ++ evs', w)
      | _ =>
          (Done (Ok {| sr_exitCode := Some 0%Z; sr_rawOutput := default None finishedResult |}),
           offset, evs ++ evs', w)
      end
  end.

(** The [for (;;)]: [None] when [fuel] rounds did not end it. *)
Fixpoint rounds (fuel : nat) (runId nodeId : string) (offset : Z) (w : W) :
    option (result string SpawnTrackedResult) * Z * list event * W :=
  match fuel with
  | O => (None, offset, [], w)
  | S k =>
      match round runId nodeId offset w with
      | (Done r, offset, evs, w) => (Some r, offset, evs, w)
      | (Again, offset, evs, w) =>
          let '(r, offset, evs', w) := rounds k runId nodeId offset w in (r, offset, evs ++ evs', w)
      end
  end.

Record RemoteRunOpts := {
  ro_runId : string; ro_nodeId : string; ro_argv : list string; ro_resultGlob : option string;
  ro_startOffset : option Z; ro_skipStart : bool }.

Definition runTrackedRemote (fuel : nat) (o : RemoteRunOpts) (w : W) :
    option (result string SpawnTrackedResult) * Z * list event * W :=
  let offset := default 0%Z (ro_startOffset o) in
  let go w := rounds fuel (ro_runId o) (ro_nodeId o) offset w in
  if ro_skipStart o then go w
  else
    let '(r, w) := ch_start (ro_argv o) (default "result.json" (ro_resultGlob o)) w in
    match r with
    | Err e => (Some (Err ("job.start failed: " +:+ e)), offset, [], w)
    | Ok () => go w
    end.

End Loop.
End Poll.

(** ** A node behind a transport that may lose calls *)
Module Node.
Import JobCap Poll.

Inductive op := OpStart | OpLogs | OpStatus | OpResult.

(** A node over time: at each instant the files of its jobs and what the processes it
    spawns answer; and which calls the transport loses. *)
Record timeline := Timeline {
  tl_files : nat -> files;
  tl_run : nat -> list string -> option RunOut;
  tl_lost : op -> nat -> bool }.

Section Agent.
Context (home user runId : string) (tl : timeline).

(** The world is the instant; each call and each wait takes one. *)
Definition instant := nat.

Definition answer {A} (o : op) (t : instant) (r : result string data) (f : data -> option A) :
    result string A * instant :=
  (if tl_lost tl o t then Err "cap timeout"
   else match r with Ok d => of_option (f d) "" | Err e => Err e end, S t).

#[export] Instance node_channel : Channel instant := {
  ch_start argv glob t :=
    answer OpStart t (start home user [] 0 (tl_run tl t) runId argv (Some glob) (tl_files tl t)).1
      (fun d => match d with Started _ _ _ => Some () | _ => None end);
  ch_logs offset t :=
    answer OpLogs t (logs home runId (Some offset) (tl_files tl t))
      (fun d => match d with Logs c n b => Some (c, n, b) | _ => None end);
  ch_status t :=
    answer OpStatus t (status home (tl_run tl t) runId (tl_files tl t))
      (fun d => match d with Status s => Some s | _ => None end);
  ch_result t :=
    answer OpResult t (result_ home runId (tl_files tl t))
      (fun d => match d with Result r => Some r | _ => None end);
  ch_sleep t := S t }.

End Agent.
End Node.

(** ** The two runners *)
Module Runner.
Import Poll.

(** What a run of a tool resolves or rejects with; [None] while it goes on. *)
Class Runner (R : Type) := {
  run : R -> option (result string SpawnTrackedResult);
  (** A result file is only read after exit code 0. *)
  raw_exit : forall r s, run r = Some (Ok s) -> sr_rawOutput s <> None -> sr_exitCode s = Some 0%Z }.

(** The end of a child of the manager's own container, as [spawnTracked]'s [close]
    listener finds it: the exit code, the path [resultFile] gives, whether it exists,
    and what reading it gives. *)
Record local_end := LocalEnd {
  le_code : option Z; le_resultPath : option string; le_exists : string -> bool;
  le_read : string -> option string }.

Definition spawnTracked (e : local_end) : SpawnTrackedResult :=
  {| sr_exitCode := le_code e;
     sr_rawOutput :=
       if bool_decide (le_code e = Some 0%Z) then
         path ← truthy (le_resultPath e); if le_exists e path then le_read e path else None
       else None |}.

(** [dispatch]: by [BENCH_RUNNER]; the remote one needs a node and a channel. *)
Section Dispatch.
Context {W : Type} `{Channel W}.

Inductive request :=
  | LocalRun (e : option local_end)
  | RemoteRun (runnerNodeId : option string) (invoke : option W) (fuel : nat) (o : RemoteRunOpts).

Definition no_runner : string :=
  "remote runner requires runnerNodeId + invoke (set BENCH_RUNNER=local for dev)".

Definition dispatch (r : request) : option (result string SpawnTrackedResult) :=
  match r with
  | LocalRun e => Ok ∘ spawnTracked <$> e
  | RemoteRun node invoke fuel o =>
      match truthy node, invoke with
      | Some _, Some w => (runTrackedRemote fuel o w).1.1.1
      | _, _ => Some (Err no_runner)
      end
  end.

End Dispatch.
End Runner.
