(* ===== verification/RemoteFacts.v ===== *)
(** Facts of [RemoteRun]: the manager's loop refines looking at the node directly,
    ends, and delivers the bytes of the log once and in order. *)
From S2P Require Import Prelude JsNum Jobs JobsFacts RemoteRun.
Import Spec JobCap Poll Node Runner.

(** * The promise of the runners *)

Section Law.
Context {W : Type} `{Channel W}.

Lemma round_law rid nid off w s off' evs w' :
  round rid nid off w = (Done (Ok s), off', evs, w') ->
  sr_rawOutput s <> None -> sr_exitCode s = Some 0%Z.
Proof.
  unfold round. intros E Hraw.
  repeat case_match; simplify_eq; simpl in *; try done.
  f_equal. by apply Z.eqb_eq.
Qed.

Lemma rounds_law fuel rid nid : forall off w s,
  (rounds fuel rid nid off w).1.1.1 = Some (Ok s) ->
  sr_rawOutput s <> None -> sr_exitCode s = Some 0%Z.
Proof.
  induction fuel as [|k IH]; intros off w s; [done|]. cbn [rounds].
  destruct (round rid nid off w) as [[[[|r] off1] evs] w1] eqn:E.
  - specialize (IH off1 w1 s). by destruct (rounds k rid nid off1 w1) as [[[? ?] ?] ?].
  - simpl. intros [= ->]. by apply (round_law _ _ _ _ _ _ _ _ E).
Qed.

Lemma dispatch_law (r : request (W := W)) s :
  dispatch r = Some (Ok s) -> sr_rawOutput s <> None -> sr_exitCode s = Some 0%Z.
Proof.
  destruct r as [[e|]|node invoke fuel o]; cbn [dispatch]; [|done|].
  - intros [= <-]. unfold spawnTracked. cbn [sr_rawOutput sr_exitCode].
    by destruct (bool_decide_reflect (le_code e = Some 0%Z)).
  - destruct (truthy node); [|done]. destruct invoke as [w|]; [|done].
    unfold runTrackedRemote. destruct (ro_skipStart o); [apply rounds_law|].
    destruct (ch_start _ _ w) as [[[]|e] w1]; [apply rounds_law|done].
Qed.

#[export] Instance dispatch_runner : Runner (request (W := W)) :=
  { run := dispatch; raw_exit := dispatch_law }.

End Law.

(** * Text *)

Fixpoint no_nl (s : string) : string :=
  match s with
  | EmptyString => EmptyString
  | String c r => if Ascii.eqb c nl then no_nl r else String c (no_nl r)
  end.

(** What [onLog] was given, end to end, and what [onOffset] was given. *)
Definition text (evs : list event) : string :=
  String.concat "" (omap (fun e => match e with OnLog l => Some l | OnOffset _ => None end) evs).

Lemma concat_app_str l k :
  String.concat "" (l ++ k) = (String.concat "" l +:+ String.concat "" k).
Proof.
  induction l as [|a l IH]; [done|].
  change ((a :: l) ++ k) with (a :: (l ++ k)). by rewrite !concat_cons, IH, str_app_assoc.
Qed.

Lemma text_app a b : text (a ++ b) = (text a +:+ text b).
Proof. unfold text. by rewrite omap_app, concat_app_str. Qed.

Lemma text_lines ls : text (map OnLog ls) = String.concat "" ls.
Proof. unfold text. f_equal. induction ls as [|l ls IH]; [done|]. csimpl. by rewrite IH. Qed.

Lemma concat_nonempty ls : String.concat "" (List.filter nonempty ls) = String.concat "" ls.
Proof.
  induction ls as [|l ls IH]; [done|]. cbn [List.filter]. unfold nonempty at 1.
  destruct (String.eqb_spec l "") as [->|Hl]; cbn [negb]; rewrite ?concat_cons, IH; done.
Qed.

Lemma concat_split s : String.concat "" (str_split nl s) = no_nl s.
Proof.
  induction s as [|c s IH]; [done|]. cbn [str_split no_nl].
  destruct (Ascii.eqb c nl); [by rewrite concat_cons, IH|].
  rewrite <- IH. destruct (str_split nl s) as [|w ws]; [done|]. by rewrite !concat_cons.
Qed.

Lemma no_nl_app a b : no_nl (a +:+ b) = (no_nl a +:+ no_nl b).
Proof.
  induction a as [|c a IH]; [done|]. rewrite app_String. cbn [no_nl].
  destruct (Ascii.eqb c nl); by rewrite IH.
Qed.

Lemma take_app_le n s u : (n <= String.length s)%nat -> str_take n (s +:+ u) = str_take n s.
Proof.
  revert n. induction s as [|c s IH]; intros [|n] H; simpl in *; try lia; [by destruct u|done|].
  f_equal. apply IH. lia.
Qed.

Lemma drop_app_le n s u : (n <= String.length s)%nat -> str_drop n (s +:+ u) = (str_drop n s +:+ u).
Proof.
  revert n. induction s as [|c s IH]; intros [|n] H; simpl in *; try lia; try done.
  apply IH. lia.
Qed.

Lemma drop_length n s : String.length (str_drop n s) = (String.length s - n)%nat.
Proof. revert n. by induction s as [|c s IH]; intros [|n]; simpl. Qed.

Lemma take_split n m s :
  str_take (n + m) s = (str_take n s +:+ str_take m (str_drop n s)).
Proof.
  revert m s. induction n as [|n IH]; intros m [|c s]; simpl; try done; [by destruct m|].
  rewrite app_String. f_equal. apply IH.
Qed.

Lemma drop_drop n m s : str_drop m (str_drop n s) = str_drop (n + m) s.
Proof. revert s. induction n as [|n IH]; intros [|c s]; simpl; [done|done|by destruct m|apply IH]. Qed.

Lemma slice_app s a b c :
  (0 <= a <= b)%Z -> (b <= c)%Z -> (slice s a b +:+ slice s b c) = slice s a c.
Proof.
  intros Hab Hbc. unfold slice.
  replace (Z.to_nat (c - a)) with (Z.to_nat (b - a) + Z.to_nat (c - b))%nat by lia.
  rewrite take_split, drop_drop. do 3 f_equal. lia.
Qed.

Lemma slice_grow s u a b :
  (0 <= a <= b)%Z -> (b <= Z.of_nat (String.length s))%Z -> slice (s +:+ u) a b = slice s a b.
Proof.
  intros Ha Hb. unfold slice. rewrite drop_app_le by lia. apply take_app_le.
  rewrite drop_length. lia.
Qed.

Lemma slice_nil s a : slice s a a = "".
Proof. unfold slice. rewrite Z.sub_diag. by destruct (str_drop _ _). Qed.

(** * A node over time *)

Section Timeline.
Context (home user runId : string) (tl : timeline) (p : job_paths) (Hp : paths home runId = Ok p).

#[local] Existing Instance node_channel.
#[local] Instance chan : Channel instant := node_channel home user runId tl.

(** What asking the agent for the status at an instant gives. *)
Definition statusAt (t : instant) : result string data :=
  status home (tl_run tl t) runId (tl_files tl t).
Definition logAt (t : instant) : string := default "" (tl_files tl t !! jp_log p).
Definition resultAt (t : instant) : option string := tl_files tl t !! jp_result p.

(** ** The specification: what looking at the node would report

    What a run that began at [t0] may come back with, over a channel that loses any call:
    the job's own exit code as the node showed it since, with the result file of that
    instant or a later one for code 0 -- or without, when the answer about the result was
    lost; success with the result file of a job whose unit was gone; a job whose unit was
    gone and that had no result file, or whose answer about it was lost; a start that was
    lost or refused. *)
Inductive observed (o : RemoteRunOpts) (t0 : instant) : result string SpawnTrackedResult -> Prop :=
  | obs_exit t t' c :
      (t0 <= t <= t')%nat -> statusAt t = Ok (Status (Exited c)) ->
      observed o t0 (Ok {| sr_exitCode := Some c;
                           sr_rawOutput := if (c =? 0)%Z && negb (tl_lost tl OpResult t')
                                           then resultAt t' else None |})
  | obs_result t t' raw :
      (t0 <= t <= t')%nat -> statusAt t = Ok (Status Missing) ->
      tl_lost tl OpResult t' = false -> resultAt t' = Some raw ->
      observed o t0 (Ok {| sr_exitCode := Some 0%Z; sr_rawOutput := Some raw |})
  | obs_vanished t t' :
      (t0 <= t <= t')%nat -> statusAt t = Ok (Status Missing) ->
      tl_lost tl OpResult t' = true \/ resultAt t' = None ->
      observed o t0 (Err (vanished runId (ro_nodeId o)))
  | obs_unstarted e :
      ro_skipStart o = false ->
      tl_lost tl OpStart t0 = true \/
      (start home user [] 0 (tl_run tl t0) runId (ro_argv o)
         (Some (default "result.json" (ro_resultGlob o))) (tl_files tl t0)).1 = Err e ->
      observed o t0 (Err ("job.start failed: " +:+ e)).

Lemma drain_time off t o evs t' : drain off t = (o, evs, t') -> t' = S t.
Proof. unfold drain. simpl. unfold answer. by repeat case_match; intros [= <- <- <-]. Qed.

Lemma status_call t : ch_status t = answer tl OpStatus t (statusAt t)
  (fun d => match d with Status s => Some s | _ => None end).
Proof. done. Qed.

Lemma ask_status t s :
  call (ch_status t).1 = Some s -> statusAt t = Ok (Status s) /\ tl_lost tl OpStatus t = false.
Proof.
  rewrite status_call. unfold answer. cbn [fst].
  destruct (tl_lost tl OpStatus t); [done|]. destruct (statusAt t) as [d|]; [|done].
  destruct d; cbn; try done. by intros [= ->].
Qed.

Lemma ask_result t :
  ch_result t = (if tl_lost tl OpResult t then Err "cap timeout" else Ok (resultAt t), S t).
Proof.
  unfold ch_result, chan, node_channel, answer, result_. rewrite Hp. by destruct (tl_lost tl OpResult t).
Qed.

Lemma start_started run argv glob fs d :
  (start home user [] 0 run runId argv glob fs).1 = Ok d -> exists a b c, d = Started a b c.
Proof. unfold start. rewrite Hp. repeat case_match; simpl; try done. intros [= <-]. by eexists _, _, _. Qed.

Lemma start_refused argv glob t e w :
  ch_start argv glob t = (Err e, w) ->
  tl_lost tl OpStart t = true \/
  (start home user [] 0 (tl_run tl t) runId argv (Some glob) (tl_files tl t)).1 = Err e.
Proof.
  unfold ch_start, chan, node_channel, answer. destruct (tl_lost tl OpStart t); [by left|].
  destruct (start _ _ _ _ _ _ _ _ _).1 as [d|e'] eqn:Es; intros [= E _]; right; [|by rewrite E].
  apply start_started in Es as (? & ? & ? & ->). done.
Qed.

Lemma start_time argv glob t r w : ch_start argv glob t = (r, w) -> w = S t.
Proof. unfold ch_start, chan, node_channel, answer. by intros [= _ <-]. Qed.

(** One round: when it is not the last, time has passed; when it is, the result is one
    the specification allows. *)
Lemma round_again nid off t off' evs t' :
  round runId nid off t = (Again, off', evs, t') -> (t < t')%nat.
Proof.
  unfold round. destruct (drain off t) as [[o e] w] eqn:Ed. apply drain_time in Ed as ->.
  rewrite status_call. unfold answer.
  set (s := default _ _). destruct s as [|c| |why] eqn:Es; cbn [nextPollAction].
  - intros [= <- <- <-]. simpl. lia.
  - destruct (drain o _) as [[? ?] ?]. destruct (ch_result _). done.
  - destruct (ch_result _) as [r w]. destruct (call r) as [[raw|]|]; cbn [nextPollAction]; [|done|done].
    destruct (drain o _) as [[? ?] ?]. done.
  - intros [= <- <- <-]. simpl. lia.
Qed.

Lemma round_done o t0 off t r off' evs t' :
  (t0 <= t)%nat -> round runId (ro_nodeId o) off t = (Done r, off', evs, t') -> observed o t0 r.
Proof.
  intros Ht0. unfold round. destruct (drain off t) as [[o1 e] w] eqn:Ed. apply drain_time in Ed as ->.
  pose proof (ask_status (S t)) as Hs. rewrite status_call in *. unfold answer in *. cbn [fst] in Hs.
  set (a := if tl_lost tl OpStatus (S t) then _ else _) in *.
  destruct (call a) as [s|]; cbn [from_option id]; [|done]. destruct (Hs s eq_refl) as [Hst _].
  destruct s as [|c| |why]; cbn [from_option id nextPollAction]; [done| | |done].
  - destruct (drain o1 _) as [[o2 e2] w2] eqn:E2. apply drain_time in E2 as ->.
    rewrite ask_result. intros [= <- _ _ _].
    pose proof (obs_exit o t0 (S t) (S (S (S t))) c ltac:(lia) Hst) as H.
    by destruct (tl_lost tl OpResult _), (c =? 0)%Z.
  - rewrite ask_result. destruct (tl_lost tl OpResult (S (S t))) eqn:El; cbn [from_option id call nextPollAction].
    { intros [= <- _ _ _]. apply (obs_vanished o t0 (S t) (S (S t))); [lia|done|by left]. }
    destruct (resultAt (S (S t))) as [raw|] eqn:Er; cbn [nextPollAction].
    + destruct (drain o1 _) as [[o2 e2] w2]. intros [= <- _ _ _].
      by apply (obs_result o t0 (S t) (S (S t))); [lia|..].
    + intros [= <- _ _ _]. apply (obs_vanished o t0 (S t) (S (S t))); [lia|done|by right].
Qed.

Lemma rounds_done o t0 fuel : forall off (t : instant) r,
  (t0 <= t)%nat -> (rounds fuel runId (ro_nodeId o) off t).1.1.1 = Some r -> observed o t0 r.
Proof.
  induction fuel as [|k IH]; intros off t r Ht0; [done|]. cbn [rounds].
  destruct (round runId (ro_nodeId o) off t) as [[[[|r1] off1] evs] t1] eqn:E.
  - pose proof (round_again _ _ _ _ _ _ E) as Ht. specialize (IH off1 t1 r ltac:(lia)).
    by destruct (rounds k runId (ro_nodeId o) off1 t1) as [[[? ?] ?] ?].
  - simpl. intros [= ->]. by apply (round_done _ _ _ _ _ _ _ _ Ht0 E).
Qed.

(** ** Ending *)

Lemma rounds_end nid fuel : forall off t T,
  (forall t', (T <= t')%nat -> tl_lost tl OpStatus t' = false /\
     exists s, statusAt t' = Ok (Status s) /\ match s with Exited _ | Missing => True | _ => False end) ->
  (T < t + fuel)%nat -> fuel <> 0%nat -> is_Some ((rounds fuel runId nid off t).1.1.1).
Proof.
  induction fuel as [|k IH]; intros off t T HT Hf Hx; [lia|]. cbn [rounds].
  destruct (round runId nid off t) as [[[[|r] o1] evs] t1] eqn:E; [|by eexists].
  pose proof (round_again _ _ _ _ _ _ E) as Ht.
  destruct (decide (T <= S t)%nat) as [HTt|HTt].
  - exfalso. destruct (HT (S t) HTt) as (Hl & s & Hs & Hv).
    revert E. unfold round. destruct (drain off t) as [[o e] w] eqn:Ed.
    apply drain_time in Ed as ->. rewrite status_call. unfold answer. rewrite Hl, Hs.
    cbn [of_option call from_option id]. destruct s as [|c| |why]; try done.
    + cbn [nextPollAction]. destruct (drain o _) as [[? ?] ?]. by destruct (ch_result _).
    + destruct (ch_result _) as [r w]. destruct (call r) as [[raw|]|]; cbn [nextPollAction]; [|done|done].
      by destruct (drain o _) as [[? ?] ?].
  - specialize (IH o1 t1 T HT). destruct (rounds k runId nid o1 t1) as [[[? ?] ?] ?].
    apply IH; lia.
Qed.

(** C21: Running a benchmark over a channel that may lose any call -- to start the job, to
    read its log, to ask its status or its result -- refines looking at the node: whatever
    the manager's run returns is what the node showed at some instant since the run began.
    A returned exit code is the one the node reported and its raw output is the job's result
    file, kept only for exit code 0; a run is declared vanished only when systemd denied the
    unit, no exit file was readable and no result file was seen afterwards; no answer about
    the status, lost or inconclusive, is a verdict.  A lost answer about the result reads as
    no result ([lost_result_fails_run]): it may take the output of a run that exited, or
    make a run vanish whose unit is gone; it never makes up a code or an output. *)
Theorem remote_refines o fuel t r off evs t' :
  ro_runId o = runId ->
  runTrackedRemote fuel o t = (Some r, off, evs, t') ->
  observed o t r.
Proof.
  unfold runTrackedRemote. intros ->. set (off0 := default 0%Z (ro_startOffset o)). cbv zeta.
  destruct (ro_skipStart o) eqn:Hskip.
  - intros E. apply (rounds_done o t fuel off0 t); [done|]. by rewrite E.
  - destruct (ch_start _ _ t) as [[[]|e] t1] eqn:Hs; intros E.
    + apply start_time in Hs as ->. apply (rounds_done o t fuel off0 (S t)); [lia|]. by rewrite E.
    + injection E as <- _ _ _. apply obs_unstarted; [done|]. by eapply start_refused.
Qed.

(** A run whose job comes to an end is brought to an end: once, from some instant on,
    the status gets through and is a verdict, the loop returns after at most that many
    rounds, whatever was lost or inconclusive before, from whatever offset. *)
Theorem remote_run_ends o t T :
  ro_runId o = runId -> ro_skipStart o = true ->
  (forall t', (T <= t')%nat -> tl_lost tl OpStatus t' = false /\
     exists s, statusAt t' = Ok (Status s) /\ match s with Exited _ | Missing => True | _ => False end) ->
  is_Some ((runTrackedRemote (S T) o t).1.1.1).
Proof.
  intros Hid Hskip HT. unfold runTrackedRemote. rewrite Hid, Hskip.
  apply (rounds_end (ro_nodeId o) (S T) _ t T); [done|lia|done].
Qed.

(** ** The log *)

(** Every byte of the log but the newlines reaches [onLog], once and in order, from the
    offset the run started at to the one it ends with. *)
Context (grows : forall t, exists u, logAt (S t) = (logAt t +:+ u)).

Lemma log_later t t' : (t <= t')%nat -> exists u, logAt t' = (logAt t +:+ u).
Proof.
  induction 1 as [|t' _ [u IH]]; [exists ""; by rewrite app_empty_r|].
  destruct (grows t') as [v ->]. exists (u +:+ v). by rewrite IH, str_app_assoc.
Qed.

Definition size (t : instant) : Z := Z.of_nat (String.length (logAt t)).

Lemma size_mono t t' : (t <= t')%nat -> (size t <= size t')%Z.
Proof. intros (u & E)%log_later. unfold size. rewrite E, str_length_app. lia. Qed.

Lemma logs_at t off :
  (0 <= off <= size t)%Z ->
  logs home runId (Some off) (tl_files tl t) = Ok (Logs (slice (logAt t) off (size t)) (size t) false).
Proof.
  intros Ho. unfold logs, size, logAt in *. rewrite Hp. cbn [mbind result_bind].
  destruct (tl_files tl t !! jp_log p) as [l|]; cbn [from_option id default] in *.
  - unfold planRead.
    rewrite !zn_lt. destruct (Z.ltb_spec off 0), (Z.ltb_spec (Z.of_nat (String.length l)) off); try lia.
    cbn [is_finite zn negb orb]. by rewrite (Qfloor_Z off).
  - simpl in Ho. replace off with 0%Z by lia. done.
Qed.

Lemma drain_spec t off o evs t' :
  (0 <= off <= size t)%Z -> drain off t = (o, evs, t') ->
  t' = S t /\ (off <= o <= size t)%Z /\ text evs = no_nl (slice (logAt t) off o).
Proof.
  intros Ho. unfold drain. cbn [ch_logs chan node_channel]. unfold answer.
  destruct (tl_lost tl OpLogs t).
  { intros [= <- <- <-]. rewrite slice_nil. split; [done|]. split; [lia|done]. }
  rewrite (logs_at t off Ho). cbn [of_option call].
  destruct (Z.eqb_spec (size t) off) as [E|E]; intros [= <- <- <-]; (split; [done|]); (split; [lia|]).
  - by rewrite text_lines, concat_nonempty, concat_split, E.
  - rewrite text_app, text_lines, concat_nonempty, concat_split. by rewrite app_empty_r.
Qed.

(** What has been delivered when the offset is [o] at time [t]. *)
Definition got (a o : Z) (t : instant) (evs : list event) : Prop :=
  (a <= o <= size t)%Z /\ text evs = no_nl (slice (logAt t) a o).

Lemma got_later a o t t' evs : (0 <= a)%Z -> got a o t evs -> (t <= t')%nat -> got a o t' evs.
Proof.
  intros Ha [Ho E] Ht. pose proof (size_mono _ _ Ht). destruct (log_later _ _ Ht) as (u & Eu).
  split; [lia|]. rewrite E, Eu, slice_grow; [done|lia|]. unfold size in Ho. lia.
Qed.

Lemma got_app a b c t evs evs' :
  (0 <= a)%Z -> got a b t evs -> got b c t evs' -> got a c t (evs ++ evs').
Proof.
  intros Ha [Hb E1] [Hc E2]. split; [lia|].
  rewrite text_app, E1, E2, <- no_nl_app, slice_app; [done|lia|lia].
Qed.

Lemma drain_got t off o evs t' :
  (0 <= off <= size t)%Z -> drain off t = (o, evs, t') -> t' = S t /\ got off o t' evs.
Proof.
  intros Ho E. destruct (drain_spec _ _ _ _ _ Ho E) as (-> & Ho' & Ht). split; [done|].
  apply (got_later _ _ t); [lia|by split|lia].
Qed.

Lemma round_got nid off t v o evs t' :
  (0 <= off <= size t)%Z -> round runId nid off t = (v, o, evs, t') ->
  (t < t')%nat /\ got off o t' evs.
Proof.
  intros Ho. unfold round. destruct (drain off t) as [[o1 e1] w1] eqn:E1.
  destruct (drain_got _ _ _ _ _ Ho E1) as [-> G1]. rewrite status_call. unfold answer.
  set (s := from_option id _ _). pose proof G1 as [Ho1 _].
  assert (forall w, (S t <= w)%nat -> (t < w)%nat /\ got off o1 w e1) as Hlater.
  { intros w Hw. split; [lia|]. apply (got_later _ _ (S t)); [lia|done|lia]. }
  assert (forall w o2 e2 w2 w3, (S t <= w)%nat -> drain o1 w = (o2, e2, w2) -> (w2 <= w3)%nat ->
    (t < w3)%nat /\ got off o2 w3 (e1 ++ e2)) as Hagain.
  { intros w o2 e2 w2 w3 Hw E2 H3. pose proof (size_mono (S t) w Hw).
    assert (0 <= o1 <= size w)%Z as Ho1w by lia.
    destruct (drain_got _ _ _ _ _ Ho1w E2) as [-> G2]. split; [lia|].
    apply (got_later _ _ (S w)); [lia| |lia]. apply (got_app _ o1); [lia| |done].
    apply (got_later _ _ (S t)); [lia|done|lia]. }
  destruct s as [|c| |why]; cbn [nextPollAction].
  - intros [= <- <- <- <-]. apply Hlater. cbn. lia.
  - destruct (drain o1 _) as [[o2 e2] w2] eqn:E2. cbn [ch_result chan node_channel].
    unfold answer. intros [= <- <- <- <-]. eapply Hagain; [|exact E2|]; lia.
  - cbn [ch_result chan node_channel]. unfold answer.
    set (r := call _). destruct r as [[raw|]|]; cbn [nextPollAction].
    + destruct (drain o1 _) as [[o2 e2] w2] eqn:E2. intros [= <- <- <- <-].
      eapply Hagain; [|exact E2|]; lia.
    + intros [= <- <- <- <-]. apply Hlater. lia.
    + intros [= <- <- <- <-]. apply Hlater. lia.
  - intros [= <- <- <- <-]. apply Hlater. cbn. lia.
Qed.

Lemma rounds_got nid fuel : forall off t v o evs t',
  (0 <= off <= size t)%Z -> rounds fuel runId nid off t = (v, o, evs, t') ->
  (t <= t')%nat /\ got off o t' evs.
Proof.
  induction fuel as [|k IH]; intros off t v o evs t' Ho; cbn [rounds].
  - intros [= <- <- <- <-]. split; [lia|]. split; [lia|]. by rewrite slice_nil.
  - destruct (round runId nid off t) as [[[[|r] o1] e1] t1] eqn:E1;
      destruct (round_got _ _ _ _ _ _ _ Ho E1) as [Ht G1].
    + destruct (rounds k runId nid o1 t1) as [[[v2 o2] e2] t2] eqn:E2. intros [= <- <- <- <-].
      pose proof G1 as [Ho1 _].
      assert (0 <= o1 <= size t1)%Z as Ho1' by lia.
      destruct (IH _ _ _ _ _ _ Ho1' E2) as [Ht2 G2]. split; [lia|].
      apply (got_app _ o1); [lia| |done]. apply (got_later _ _ t1); [lia|done|done].
    + intros [= <- <- <- <-]. split; [lia|done].
Qed.

(** The log of a remote run is delivered exactly: between the offset a run starts or
    is resumed at and the offset it ends with, every byte of the job's log other than the
    newlines reaches [onLog] once and in order, whichever calls were lost on the way,
    and the final offset lies within the log.  A resumed run therefore repeats nothing
    and skips nothing.  (Lines are another matter: see [chunk_splits_line].) *)
Theorem log_delivered_once o fuel t r off evs t' :
  ro_runId o = runId -> (0 <= default 0%Z (ro_startOffset o) <= size t)%Z ->
  runTrackedRemote fuel o t = (r, off, evs, t') ->
  (default 0%Z (ro_startOffset o) <= off <= size t')%Z /\
  text evs = no_nl (slice (logAt t') (default 0%Z (ro_startOffset o)) off).
Proof.
  intros Hid Ha. unfold runTrackedRemote. rewrite Hid.
  set (a := default 0%Z (ro_startOffset o)) in *.
  destruct (ro_skipStart o).
  - intros E. by destruct (rounds_got _ _ _ _ _ _ _ _ Ha E) as [_ G].
  - destruct (ch_start _ _ t) as [[[]|e] t1] eqn:Es.
    + assert (t1 = S t) as -> by (cbn in Es; unfold answer in Es; by injection Es as _ <-).
      pose proof (size_mono t (S t) ltac:(lia)). intros E.
      assert (0 <= a <= size (S t))%Z as Ha' by lia.
      by destruct (rounds_got _ _ _ _ _ _ _ _ Ha' E) as [_ G].
    + intros [= <- <- <- <-]. assert (t1 = S t) as -> by (cbn in Es; unfold answer in Es; by injection Es as _ <-).
      pose proof (size_mono t (S t) ltac:(lia)). split; [lia|]. by rewrite slice_nil.
Qed.

End Timeline.
