(* ===== verification/BenchParse.v ===== *)
(** What a benchmark run's output is taken to say (benchmarks/parser.ts,
    tool-eval-parser.ts, lm-eval-parser.ts, finalize-outcome.ts, null-completions.ts,
    extraction-failure.ts, proxy-loss.ts, reasoning.ts and the body rewrite of
    reasoning-proxy.ts), a module per file.  [JSON.parse] is the caller's: a parser takes
    what it made of the text.  The entries of an object are listed in the order
    [Object.entries] gives them; an object has no properties but its own. *)
From Stdlib Require Import QArith.Qabs.
From S2P Require Import Prelude JsNum Recipes.

(** ** Reading a parsed value *)

(** [v[k]] on a value that is neither [null] nor [undefined]. *)
Definition jindex (l : list json) (k : string) : option json :=
  al_get (imap (fun i x => (pretty i, x)) l) k.

Definition jprop (v : json) (k : string) : option json :=
  match v with JObj l => obj_get l k | JArr l => jindex l k | _ => None end.

(** [v?.[k]] that throws on [null] and on [undefined]. *)
Definition jfield (v : option json) (k : string) : result string (option json) :=
  match v with
  | None | Some JNull => Err ("Cannot read properties (reading '" +:+ k +:+ "')")
  | Some v => Ok (jprop v k)
  end.

(** [v && typeof v === "object"] *)
Definition jobject (v : option json) : option json :=
  match v with Some (JObj l) => Some (JObj l) | Some (JArr l) => Some (JArr l) | _ => None end.

(** [Object.entries(v)] of an object or array. *)
Definition jentries (v : json) : list (string * json) :=
  match v with
  | JObj l => l
  | JArr l => imap (fun i x => (pretty i, x)) l
  | JStr s => imap (fun i c => (pretty i, JStr (String c ""))) (String.list_ascii_of_string s)
  | _ => []
  end.

(** [typeof v === "number" && Number.isFinite(v) ? v : null] *)
Definition numOrNull (v : option json) : option Q :=
  match v with Some (JNum (Fin q)) => Some q | _ => None end.

(** The values [for (const x of v)] and [v.map] go through. *)
Definition jiter (v : json) : result string (list json) :=
  match v with
  | JArr l => Ok l
  | JStr s => Ok (map (fun c => JStr (String c "")) (String.list_ascii_of_string s))
  | _ => Err "is not iterable"
  end.

(** The first error of a loop stops it. *)
Fixpoint mapR {A B} (f : A -> result string B) (l : list A) : result string (list B) :=
  match l with
  | [] => Ok []
  | x :: l' => y ← f x; ys ← mapR f l'; Ok (y :: ys)
  end.

Definition q_sum (l : list Q) : Q := foldl Qplus 0%Q l.

(** A sum over [n > 0] terms, divided by their number. *)
Definition q_mean (l : list Q) : option Q :=
  match l with [] => None | _ => Some (q_sum l / inject_Z (Z.of_nat (length l)))%Q end.

Module Benchy.

Record BenchmarkResultInput := {
  br_opType : string; br_pp : Q; br_tg : Q; br_depth : Q; br_concurrency : Q; br_tps : Q;
  br_peakTps : option Q; br_ttfrMs : option Q; br_estPptMs : option Q; br_e2eTtftMs : option Q;
  br_tpsStdev : option Q; br_ttfrStdev : option Q }.

Definition num (row : json) (key : string) : result string Q :=
  v ← jfield (Some row) key;
  of_option (numOrNull v) ("benchmark row missing required numeric field: " +:+ key).

Definition nestedNum (row : json) (key sub : string) : result string Q :=
  v ← jfield (Some row) key;
  o ← of_option (jobject v) ("benchmark row missing required metric object: " +:+ key);
  of_option (numOrNull (jprop o sub))
    ("benchmark row missing required numeric field: " +:+ key +:+ "." +:+ sub).

Definition optNestedNum (row : json) (key sub : string) : result string (option Q) :=
  v ← jfield (Some row) key; Ok (o ← jobject v; numOrNull (jprop o sub)).

(** The two rows of one entry of [benchmarks]. *)
Definition twoRows (b : json) : result string (list BenchmarkResultInput) :=
  pp ← num b "prompt_size"; tg ← num b "response_size"; depth ← num b "context_size";
  concurrency ← num b "concurrency";
  ttfrMs ← optNestedNum b "ttfr" "mean"; ttfrStdev ← optNestedNum b "ttfr" "std";
  estPptMs ← optNestedNum b "est_ppt" "mean"; e2eTtftMs ← optNestedNum b "e2e_ttft" "mean";
  peakTgTps ← optNestedNum b "peak_throughput" "mean";
  ppTps ← nestedNum b "pp_throughput" "mean"; ppStd ← optNestedNum b "pp_throughput" "std";
  tgTps ← nestedNum b "tg_throughput" "mean"; tgStd ← optNestedNum b "tg_throughput" "std";
  let row op tps peak std :=
    {| br_opType := op; br_pp := pp; br_tg := tg; br_depth := depth; br_concurrency := concurrency;
       br_tps := tps; br_peakTps := peak; br_ttfrMs := ttfrMs; br_estPptMs := estPptMs;
       br_e2eTtftMs := e2eTtftMs; br_tpsStdev := std; br_ttfrStdev := ttfrStdev |} in
  Ok [row "pp" ppTps None ppStd; row "tg" tgTps peakTgTps tgStd].

Definition parseBenchyResults (parsed : jtext) : result string (list BenchmarkResultInput) :=
  parsed ← of_option parsed "failed to parse llama-benchy JSON";
  f ← jfield (Some parsed) "benchmarks";
  benchmarks ← jiter (default (JArr []) (jnullish f (Some (JArr []))));
  rows ← mapR twoRows benchmarks;
  Ok (concat rows).

Record Summary := { sm_meanTps : option Q; sm_meanTtfrMs : option Q }.

Definition summarizeResults (rows : list BenchmarkResultInput) : Summary :=
  match rows with
  | [] => {| sm_meanTps := None; sm_meanTtfrMs := None |}
  | _ =>
      let tgRows := List.filter (fun r => String.eqb (br_opType r) "tg") rows in
      {| sm_meanTps := q_mean (map br_tps tgRows);
         sm_meanTtfrMs := q_mean (omap br_ttfrMs (match tgRows with [] => rows | _ => tgRows end)) |}
  end.

End Benchy.

Module ToolEval.

Record ToolEvalCategoryInput := {
  tc_code : string; tc_label : string; tc_percent : Q; tc_earned : Q; tc_maxPoints : Q;
  tc_passCount : Q; tc_partialCount : Q; tc_failCount : Q }.

Record ToolEvalSummary := {
  ts_finalScore : Q; ts_rating : string; ts_deployability : option Q;
  ts_responsiveness : option Q; ts_totalScenarios : Q; ts_totalPoints : option Q;
  ts_maxPoints : option Q; ts_safetyWarnings : list string;
  ts_categories : list ToolEvalCategoryInput }.

Definition reqNum (o : json) (key : string) : result string Q :=
  v ← jfield (Some o) key;
  of_option (numOrNull v) ("tool-eval result missing required numeric field: " +:+ key).

Definition reqStr (o : json) (key : string) : result string string :=
  v ← jfield (Some o) key;
  of_option (jstr v) ("tool-eval result missing required string field: " +:+ key).

Definition optNum (o : json) (key : string) : option Q := numOrNull (jprop o key).

Definition category (cat : json) : result string ToolEvalCategoryInput :=
  code ← reqStr cat "category"; label ← reqStr cat "label"; percent ← reqNum cat "percent";
  earned ← reqNum cat "earned"; maxPoints ← reqNum cat "max";
  passCount ← reqNum cat "pass_count"; partialCount ← reqNum cat "partial_count";
  failCount ← reqNum cat "fail_count";
  Ok {| tc_code := code; tc_label := label; tc_percent := percent; tc_earned := earned;
        tc_maxPoints := maxPoints; tc_passCount := passCount; tc_partialCount := partialCount;
        tc_failCount := failCount |}.

Definition parseToolEvalResults (parsed : jtext) : result string ToolEvalSummary :=
  parsed ← of_option parsed "failed to parse tool-eval JSON";
  v ← jfield (Some parsed) "scores";
  s ← of_option (jobject v) "tool-eval result missing required object: scores";
  rawCats ← of_option (match jprop s "category_scores" with Some (JArr l) => Some l | _ => None end)
              "tool-eval result missing required array: scores.category_scores";
  categories ← mapR category rawCats;
  let safetyWarnings := match jprop parsed "safety_warnings" with
                        | Some (JArr l) => map Recipe.string_of l
                        | _ => []
                        end in
  finalScore ← reqNum parsed "final_score"; rating ← reqStr parsed "rating";
  totalScenarios ← reqNum parsed "total_scenarios";
  Ok {| ts_finalScore := finalScore; ts_rating := rating;
        ts_deployability := optNum parsed "deployability";
        ts_responsiveness := optNum parsed "responsiveness";
        ts_totalScenarios := totalScenarios; ts_totalPoints := optNum s "total_points";
        ts_maxPoints := optNum s "max_points"; ts_safetyWarnings := safetyWarnings;
        ts_categories := categories |}.

End ToolEval.

Module LmEval.

Record AccuracyMetricInput := {
  am_task : string; am_metric : string; am_value : Q; am_stderr : option Q; am_isGroup : bool;
  am_nSamples : option Q; am_filter : option string }.

Record LmEvalSummary := { ls_primaryScore : Q; ls_metrics : list AccuracyMetricInput }.

(** The text up to the last comma, and from it. *)
Fixpoint cut_last_comma (s : string) : option (string * string) :=
  match s with
  | EmptyString => None
  | String c r =>
      match cut_last_comma r with
      | Some (a, b) => Some (String c a, b)
      | None => if Ascii.eqb c "," then Some ("", String c r) else None
      end
  end.

(** The metric's name and its filter with the comma, empty when there is none. *)
Definition splitKey (key : string) : string * string :=
  match cut_last_comma key with Some (a, b) => (a, b) | None => (key, "") end.

Definition metricRow (task : string) (entry : json) (isGroup : bool) (nSamples : option Q)
    (kv : string * json) : option AccuracyMetricInput :=
  let '(key, value) := kv in
  if String.eqb key "alias" then None
  else
    let '(metricName, filter) := splitKey key in
    if str_ends_with "_stderr" metricName then None
    else match numOrNull (Some value) with
      | None => None
      | Some numeric =>
          Some {| am_task := task; am_metric := metricName; am_value := numeric;
                  am_stderr := numOrNull (jprop entry (metricName +:+ "_stderr" +:+ filter));
                  am_isGroup := isGroup; am_nSamples := nSamples;
                  am_filter := if String.eqb filter "" then None else Some (str_drop 1 filter) |}
      end.

(** [Object.prototype.hasOwnProperty.call(v, k)] *)
Definition hasOwn (v : json) (k : string) : bool :=
  match v with
  | JArr _ => String.eqb k "length" || bool_decide (is_Some (jprop v k))
  | _ => bool_decide (is_Some (jprop v k))
  end.

Definition taskRows (groups nSamplesAll : json) (tv : string * json) : list AccuracyMetricInput :=
  let '(task, taskVal) := tv in
  match jobject (Some taskVal) with
  | None => []
  | Some entry =>
      let nInfo := jprop nSamplesAll task in
      let nSamples := if jtruthy nInfo then n ← nInfo; numOrNull (jprop n "effective") else None in
      omap (metricRow task entry (hasOwn groups task) nSamples) (jentries entry)
  end.

(** The keys of the primary metric, and the one the headline is taken from. *)
Definition primaryKey (primaryMetric k : string) : bool :=
  (String.eqb k primaryMetric || String.prefix (primaryMetric +:+ ",") k) &&
  negb (str_includes "_stderr" k).

Definition orElse {A} (a b : option A) : option A := match a with Some _ => a | None => b end.

Definition chosenKey (primaryMetric : string) (entry : json) : option string :=
  let keys := List.filter (primaryKey primaryMetric) (map fst (jentries entry)) in
  let score k := default (-1)%Q (numOrNull (jprop entry k)) in
  orElse (js_find (String.eqb (primaryMetric +:+ ",none")) keys)
    (orElse (js_find (str_ends_with ",flexible-extract") keys)
       (head (js_sort (fun a b => Qle_bool (score b) (score a)) keys))).

Definition parseLmEvalResults (parsed : jtext) (primaryTask primaryMetric : string) :
    result string LmEvalSummary :=
  parsed ← of_option parsed "failed to parse lm-eval JSON";
  o ← of_option (jobj (Some parsed)) "lm-eval result missing required object: results";
  results ← of_option (jobject (obj_get o "results")) "lm-eval result missing required object: results";
  let groups := default (JObj []) (jobject (obj_get o "groups")) in
  let nSamplesAll := default (JObj []) (jobject (obj_get o "n-samples")) in
  let metrics := flat_map (taskRows groups nSamplesAll) (jentries results) in
  let entry := jprop results primaryTask in
  let primary :=
    if jtruthy entry
    then e ← entry; k ← chosenKey primaryMetric e; numOrNull (jprop e k)
    else None in
  let fallback := am_value <$> js_find (fun m => String.eqb (am_task m) primaryTask &&
                                                 String.eqb (am_metric m) primaryMetric) metrics in
  primary ← of_option (orElse primary fallback)
              ("lm-eval result missing primary metric: " +:+ primaryTask +:+ "/" +:+ primaryMetric);
  Ok {| ls_primaryScore := (primary * 100)%Q; ls_metrics := metrics |}.

End LmEval.

Module Outcome.

Inductive FinalizeOutcome := Complete | FailWith (reason : string).

Record FinalizeInput := {
  fi_tool : string; fi_exitCode : option Z; fi_hasSummary : bool; fi_rowCount : option Z;
  fi_parseError : option string }.

Definition code_text (c : option Z) : string := match c with Some z => pretty z | None => "null" end.

Definition decideFinalize (i : FinalizeInput) : FinalizeOutcome :=
  if negb (bool_decide (fi_exitCode i = Some 0%Z))
  then FailWith (fi_tool i +:+ " exited with code " +:+ code_text (fi_exitCode i))
  else
    let producedRows := match fi_rowCount i with None => true | Some n => (0 <? n)%Z end in
    if fi_hasSummary i && producedRows then Complete
    else match truthy (fi_parseError i) with
      | Some e => FailWith e
      | None =>
          if negb (fi_hasSummary i) then FailWith (fi_tool i +:+ " exited 0 but produced no summary")
          else FailWith (fi_tool i +:+ " exited 0 but produced no result rows")
      end.

End Outcome.

Module Nulls.
Import LmEval.

Definition NULL_CONTENT_MESSAGE : string := "API returned null content".

Definition isNullCompletionLine (line : string) : bool := str_includes NULL_CONTENT_MESSAGE line.

Definition countNullCompletions (logText : string) : nat :=
  if String.eqb logText "" then 0%nat
  else length (List.filter isNullCompletionLine (str_split nl logText)).

Inductive severity := Minor | Material.

Record NullCompletionFinding := {
  nf_count : Q; nf_nSamples : option Q; nf_share : option Q; nf_maxUpliftPoints : option Q;
  nf_severity : severity }.

(** A nullable number that is finite and above zero. *)
Definition positive (v : option num) : option Q :=
  match v with Some (Fin q) => if Qle_bool q 0 then None else Some q | _ => None end.

Definition assessNullCompletions (count nSamples stderr : option num) : option NullCompletionFinding :=
  count ← positive count;
  let nSamples := positive nSamples in
  let share := (fun n => count / n)%Q <$> nSamples in
  let maxUpliftPoints := (fun s => s * 100)%Q <$> share in
  let stderrPoints := (fun s => s * 100)%Q <$> positive stderr in
  Some {| nf_count := count; nf_nSamples := nSamples; nf_share := share;
          nf_maxUpliftPoints := maxUpliftPoints;
          nf_severity := match maxUpliftPoints, stderrPoints with
                         | Some u, Some e => if Qle_bool u e then Minor else Material
                         | _, _ => Material
                         end |}.

Definition headlineRowFor (accuracyScore : option Q) (metrics : list AccuracyMetricInput) :
    option AccuracyMetricInput :=
  match List.filter (fun m => negb (am_isGroup m)) metrics with
  | [] => None
  | r0 :: rs =>
      let near s m := negb (Qle_bool (1 # 1000000) (Qabs (am_value m * 100 - s))) in
      let n m := default 0%Q (am_nSamples m) in
      orElse (s ← accuracyScore; js_find (near s) (r0 :: rs))
        (Some (foldl (fun best m => if Qle_bool (n m) (n best) then best else m) r0 (r0 :: rs)))
  end.

(** From the columns of a row; the stored metrics are those a summary had. *)
Definition nullCompletionFindingFor (nullCompletions : option Z) (accuracyScore : option Q)
    (accuracyMetrics : option (list AccuracyMetricInput)) : option NullCompletionFinding :=
  n ← nullCompletions;
  if (n <=? 0)%Z then None
  else
    let headline := headlineRowFor accuracyScore (default [] accuracyMetrics) in
    assessNullCompletions (Some (zn n)) (Fin <$> (h ← headline; am_nSamples h))
      (Fin <$> (h ← headline; am_stderr h)).

End Nulls.

Module Extraction.
Import LmEval.

Inductive severity := Failed | Partial.

Record ExtractionFinding := {
  ef_task : string; ef_metric : string; ef_zeroFilters : list (option string); ef_bestValue : Q;
  ef_bestFilter : option string; ef_severity : severity }.

(** The key of a group, with its NUL separators. *)
Definition groupKey (m : AccuracyMetricInput) : string :=
  am_task m +:+ String (ascii_of_nat 0) (am_metric m +:+
    String (ascii_of_nat 0) (match am_nSamples m with Some n => num_str (Fin n) | None => "" end)).

Definition isZero (m : AccuracyMetricInput) : bool := Qeq_bool (am_value m) 0.

Definition best (r0 : AccuracyMetricInput) (rs : list AccuracyMetricInput) : AccuracyMetricInput :=
  foldl (fun a b => if Qle_bool (am_value b) (am_value a) then a else b) r0 rs.

Definition groupFinding (rows : list AccuracyMetricInput) : option ExtractionFinding :=
  match rows with
  | [] => None
  | r0 :: rs =>
      let zeros := List.filter isZero rows in
      if bool_decide (zeros = []) then None
      else
        let hasNonZeroSibling := bool_decide (length zeros < length rows)%nat in
        if negb hasNonZeroSibling && bool_decide (length rows < 2)%nat then None
        else Some {| ef_task := am_task r0; ef_metric := am_metric r0;
                     ef_zeroFilters := map am_filter zeros; ef_bestValue := am_value (best r0 rs);
                     ef_bestFilter := am_filter (best r0 rs);
                     ef_severity := if hasNonZeroSibling then Partial else Failed |}
  end.

Definition detectExtractionFindings (metrics : list AccuracyMetricInput) : list ExtractionFinding :=
  omap (fun g => groupFinding g.2) (group_by groupKey metrics).

(** From a stored blob: [None] is an absent column, [Some None] unparseable text. *)
Definition storedRow (r : json) : option AccuracyMetricInput :=
  o ← jobject (Some r);
  task ← jstr (jprop o "task"); metric ← jstr (jprop o "metric");
  value ← numOrNull (jprop o "value");
  Some {| am_task := task; am_metric := metric; am_value := value;
          am_stderr := numOrNull (jprop o "stderr");
          am_isGroup := match jprop o "isGroup" with Some (JBool true) => true | _ => false end;
          am_nSamples := numOrNull (jprop o "nSamples"); am_filter := jstr (jprop o "filter") |}.

Definition extractionFindingsFor (accuracyMetrics : option jtext) : list ExtractionFinding :=
  match accuracyMetrics with
  | Some (Some (JArr l)) => detectExtractionFindings (omap storedRow l)
  | _ => []
  end.

End Extraction.

Module ProxyLoss.

Record ProxyLossEvidence := { pe_host : string; pe_port : string; pe_line : string }.

(** The longest prefix of characters satisfying [f], and the rest. *)
Fixpoint span (f : ascii -> bool) (s : string) : string * string :=
  match s with
  | String c r => if f c then let '(a, b) := span f r in (String c a, b) else ("", s)
  | EmptyString => ("", "")
  end.

Definition literal (l s : string) : option string :=
  if String.prefix l s then Some (str_drop (String.length l) s) else None.

(** [REFUSED] at the start of [s]: the host and the digits of the port. *)
Definition refusedHere (s : string) : option (string * string) :=
  s ← literal ("HTTPConnection(host=" +:+ String sq "") s;
  let '(host, s) := span (fun c => negb (Ascii.eqb c sq)) s in
  s ← literal (String sq ",") s;
  s ← literal "port=" (span is_ws s).2;
  let '(port, s) := span is_digit s in
  s ← literal "):" s;
  _ ← literal "Failed to establish a new connection" (span is_ws s).2;
  if String.eqb host "" || String.eqb port "" then None else Some (host, port).

(** [REFUSED.exec(line)]: the leftmost match. *)
Fixpoint refused (s : string) : option (string * string) :=
  match refusedHere s with
  | Some hp => Some hp
  | None => match s with String _ r => refused r | EmptyString => None end
  end.

Section Url.
(** [new URL(u)]: [None] is a throw; otherwise the host name, the port, empty when it is
    the protocol's default, and the protocol. *)
Context (parseUrl : string -> option (string * string * string)).

Definition hostPortOf (url : string) : option (string * string) :=
  '(hostname, port, protocol) ← parseUrl url;
  Some (hostname, js_or (Some port) (if String.eqb protocol "https:" then "443" else "80")).

Definition evidenceIn (hosts : list string) (endpoint : option (string * string)) (line : string) :
    option ProxyLossEvidence :=
  '(host, port) ← refused line;
  if negb (mem_str host hosts) then None
  else if bool_decide (endpoint = Some (host, port)) then None
  else Some {| pe_host := host; pe_port := port; pe_line := str_trim line |}.

Fixpoint firstSome {A B} (f : A -> option B) (l : list A) : option B :=
  match l with
  | [] => None
  | x :: l' => match f x with Some y => Some y | None => firstSome f l' end
  end.

Definition detectProxyLoss (logText : string) (proxyHosts : list (option string))
    (endpointUrl : option string) : option ProxyLossEvidence :=
  if String.eqb logText "" then None
  else
    match omap truthy proxyHosts with
    | [] => None
    | hosts => firstSome (evidenceIn hosts (u ← truthy endpointUrl; hostPortOf u)) (str_split nl logText)
    end.

(** [Number(port)] in a template. *)
Definition port_text (port : string) : string := num_str (number_of_string port).

Definition proxyLossReason (e : ProxyLossEvidence) : string :=
  "the manager restarted mid-run: lm-eval lost the reasoning proxy at " +:+
  pe_host e +:+ ":" +:+ port_text (pe_port e) +:+
  ", which lives inside the manager process on an ephemeral " +:+
  "port and does not survive a container restart. The lm-eval job itself was " +:+
  "fine — only its target went away. Avoid rebuilding the server while an " +:+
  "accuracy run is in flight (#22).".

Definition explainFailure (reason logText : string) (proxyHosts : list (option string))
    (endpointUrl : option string) : string :=
  match detectProxyLoss logText proxyHosts endpointUrl with
  | None => reason
  | Some e => reason +:+ " — " +:+ proxyLossReason e
  end.

End Url.

Definition proxyLostAtRestartReason : string :=
  "ended by the manager: this accuracy run's reasoning proxy lived inside the " +:+
  "manager process and did not survive the restart, so the lm-eval job on the " +:+
  "eval node was still running but had nothing to talk to. The job was " +:+
  "cancelled rather than left to burn GPU until it failed. Avoid rebuilding " +:+
  "the server while an accuracy run is in flight (#22).".

End ProxyLoss.

Module Reasoning.

(** The position of the first match of a tag, whatever the case of its letters; [pat] is
    in lower case. *)
Fixpoint findTag (pat s : string) : option nat :=
  if String.prefix pat (str_lower s) then Some 0
  else match s with
       | String _ r => S <$> findTag pat r
       | EmptyString => None
       end.

Definition OPEN : string := "<think>".
Definition CLOSE : string := "</think>".

(** [content.replace(/<think>[\s\S]*?<\/think>/gi, "")]: an opening tag goes with the next
    closing one; when there is none, no later opening tag has one either. *)
Fixpoint dropBlocks (fuel : nat) (s : string) : string :=
  match fuel with
  | O => s
  | S k =>
      match findTag OPEN s with
      | None => s
      | Some i =>
          let after := str_drop (i + String.length OPEN) s in
          match findTag CLOSE after with
          | None => s
          | Some j => str_take i s +:+ dropBlocks k (str_drop (j + String.length CLOSE) after)
          end
      end
  end.

(** [out.slice(last.index + last[0].length)] for the last closing tag. *)
Fixpoint afterLastClose (fuel : nat) (s : string) : string :=
  match fuel with
  | O => s
  | S k =>
      match findTag CLOSE s with
      | None => s
      | Some j => afterLastClose k (str_drop (j + String.length CLOSE) s)
      end
  end.

Definition stripReasoning (content : string) : string :=
  if String.eqb content "" then content
  else
    let out := dropBlocks (String.length content) content in
    let out := afterLastClose (String.length out) out in
    let out := match findTag OPEN out with Some i => str_take i out | None => out end in
    str_trim out.

(** The rewrite of a chat completion: [None] leaves the text as it came. *)
Definition rewriteChoice (c : json) : option json :=
  match c with
  | JNull => None
  | JObj o =>
      Some match obj_get o "message" with
           | Some (JObj m) =>
               match obj_get m "content" with
               | Some (JStr t) => JObj (obj_set o "message" (JObj (obj_set m "content" (JStr (stripReasoning t)))))
               | _ => c
               end
           | _ => c
           end
  | _ => Some c
  end.

Fixpoint mapO {A B} (f : A -> option B) (l : list A) : option (list B) :=
  match l with
  | [] => Some []
  | x :: l' => y ← f x; ys ← mapO f l'; Some (y :: ys)
  end.

Definition rewriteChatBody (parsed : jtext) : option json :=
  match parsed with
  | Some (JObj o) =>
      match obj_get o "choices" with
      | Some (JArr cs) => cs' ← mapO rewriteChoice cs; Some (JObj (obj_set o "choices" (JArr cs')))
      | _ => None
      end
  | _ => None
  end.

Example strip_ex :
  map stripReasoning
    ["<think>a</think> b"; "a </THINK> b <think> c </think> d"; "x<think>y"; " plain "; "";
     "<think>1</think>A<think>2</think>B"] =
  ["b"; "b  d"; "x"; "plain"; ""; "AB"].
Proof. by vm_compute. Qed.

End Reasoning.
