(* ===== verification/BenchParseFacts.v ===== *)
(** Facts of [BenchParse]: the rows and the mean of a throughput run, the headline of an
    accuracy run, when a run counts as completed, what the warnings on a score say, and
    the stripped answer of a reasoning model. *)
From Stdlib Require Import QArith.Qabs Lqa.
From S2P Require Import Prelude JsNum Recipes RecipeFacts RemoteFacts BenchParse.

(** * Loops that stop at the first error *)

Lemma mapR_Forall2 {A B} (f : A -> result string B) l ys :
  mapR f l = Ok ys -> Forall2 (fun x y => f x = Ok y) l ys.
Proof.
  revert ys. induction l as [|x l IH]; cbn [mapR]; intros ys H; ok_inv; [constructor|].
  constructor; [done|by apply IH].
Qed.

Lemma jobject_Some v o : jobject v = Some o -> v = Some o.
Proof. destruct v as [[]|]; simpl; congruence. Qed.

(** * Means *)

Lemma q_sum_shift l a : (foldl Qplus a l == a + q_sum l)%Q.
Proof.
  unfold q_sum. revert a. induction l as [|x l IH]; intros a; cbn [foldl]; [ring|].
  rewrite (IH (a + x)%Q), (IH (0 + x)%Q). ring.
Qed.

Lemma q_sum_bounds l lo hi :
  (forall x, x ∈ l -> (lo <= x <= hi)%Q) ->
  (lo * inject_Z (Z.of_nat (length l)) <= q_sum l <= hi * inject_Z (Z.of_nat (length l)))%Q.
Proof.
  induction l as [|x l IH]; intros H.
  { change (inject_Z (Z.of_nat (@length Q []))) with 0%Q. change (q_sum []) with 0%Q. split; lra. }
  destruct IH as [IH1 IH2]; [intros y ?; apply H; by right|].
  destruct (H x ltac:(left)) as [Hx1 Hx2].
  assert (q_sum (x :: l) == x + q_sum l)%Q as E.
  { unfold q_sum at 1. cbn [foldl]. rewrite q_sum_shift. ring. }
  assert (inject_Z (Z.of_nat (length (x :: l))) == inject_Z (Z.of_nat (length l)) + 1)%Q as En.
  { cbn [length]. rewrite Nat2Z.inj_succ. unfold Z.succ. by rewrite inject_Z_plus. }
  rewrite E, En. split; lra.
Qed.

(** A mean lies between any bounds of its terms. *)
Lemma q_mean_bounds l m lo hi :
  q_mean l = Some m -> (forall x, x ∈ l -> (lo <= x <= hi)%Q) -> (lo <= m <= hi)%Q.
Proof.
  intros Hm Hl. pose proof (q_sum_bounds l lo hi Hl) as [H1 H2].
  assert (0 < inject_Z (Z.of_nat (length l)))%Q as Hn.
  { destruct l; [done|]. cbn [length]. unfold inject_Z, Qlt. cbn. lia. }
  assert (m = q_sum l / inject_Z (Z.of_nat (length l)))%Q as -> by (destruct l; [done|by injection Hm as <-]).
  split; [by apply Qle_shift_div_l|by apply Qle_shift_div_r].
Qed.

Lemma q_mean_Some l : l <> [] -> is_Some (q_mean l).
Proof. destruct l; [done|]. intros _. by eexists. Qed.

(** * A throughput run *)
Section Throughput.
Import Benchy.

Lemma twoRows_shape b rows :
  twoRows b = Ok rows ->
  exists x y, rows = [x; y] /\ br_opType x = "pp" /\ br_opType y = "tg" /\
    br_peakTps x = None /\ br_ttfrMs x = br_ttfrMs y /\
    nestedNum b "pp_throughput" "mean" = Ok (br_tps x) /\
    nestedNum b "tg_throughput" "mean" = Ok (br_tps y).
Proof.
  unfold twoRows. intros H. ok_inv. eexists _, _. split; [reflexivity|].
  cbn [br_opType br_peakTps br_ttfrMs br_tps]. repeat split; done.
Qed.

Lemma concat_two_rows bs rows :
  Forall2 (fun b r => twoRows b = Ok r) bs rows ->
  length (concat rows) = (2 * length bs)%nat /\
  (forall r, r ∈ concat rows -> br_opType r = "pp" \/ br_opType r = "tg") /\
  Forall2 (fun b r => nestedNum b "tg_throughput" "mean" = Ok (br_tps r)) bs
    (List.filter (fun r => String.eqb (br_opType r) "tg") (concat rows)).
Proof.
  induction 1 as [|b r bs rows Hb _ (IH1 & IH2 & IH3)]; [split; [done|]; split; [|constructor]|].
  { intros r ?%elem_of_nil. done. }
  destruct (twoRows_shape b r Hb) as (x & y & -> & Hx & Hy & _ & _ & _ & Hty).
  cbn [concat app length]. split; [lia|]. split.
  - intros z [->|[->|Hz]%elem_of_cons]%elem_of_cons; [by left|by right|by apply IH2].
  - cbn [List.filter]. rewrite Hx, Hy. cbn [String.eqb Ascii.eqb eqb]. by constructor.
Qed.

(** Parsing a throughput result gives two rows per workload or nothing at all, and the
    headline speed is a decode speed: for any result with at least one workload the mean
    is there, and it lies between any bounds of the workloads' own token-generation
    throughputs, whatever the prefill throughputs are; a result with no workload has no
    rows, so it cannot complete ([decideFinalize_complete]). *)
Theorem benchy_headline parsed rows :
  parseBenchyResults parsed = Ok rows ->
  exists bs, length rows = (2 * length bs)%nat /\
    (rows = [] -> sm_meanTps (summarizeResults rows) = None) /\
    (rows <> [] -> exists m, sm_meanTps (summarizeResults rows) = Some m /\
       forall lo hi,
         (forall b t, b ∈ bs -> nestedNum b "tg_throughput" "mean" = Ok t -> (lo <= t <= hi)%Q) ->
         (lo <= m <= hi)%Q).
Proof.
  unfold parseBenchyResults. intros H. ok_inv. exists v1.
  destruct (concat_two_rows _ _ (mapR_Forall2 _ _ _ H3)) as (Hlen & _ & Htg).
  split; [done|]. split; [by intros ->|]. intros Hne.
  set (tg := List.filter _ _) in Htg.
  assert (sm_meanTps (summarizeResults (concat v2)) = q_mean (map br_tps tg)) as ->.
  { unfold summarizeResults. by destruct (concat v2). }
  destruct (q_mean_Some (map br_tps tg)) as [m Hm].
  { intros E%map_eq_nil. rewrite E in Htg. inversion Htg; subst. cbn in Hlen.
    by destruct (concat v2). }
  exists m. split; [done|]. intros lo hi Hb. apply (q_mean_bounds _ _ _ _ Hm).
  intros x (r & -> & Hr)%list_elem_of_fmap.
  apply list_elem_of_lookup in Hr as [i Hi].
  destruct (Forall2_lookup_r _ _ _ _ _ Htg Hi) as (b & Hbi & Ht). apply (Hb b); [|done].
  by apply list_elem_of_lookup_2 in Hbi.
Qed.

End Throughput.

(** * What counts as completed *)
Section Finish.
Import Outcome.

Lemma decideFinalize_complete i :
  decideFinalize i = Complete <->
  fi_exitCode i = Some 0%Z /\ fi_hasSummary i = true /\
  match fi_rowCount i with Some n => (0 < n)%Z | None => True end.
Proof.
  unfold decideFinalize. destruct (bool_decide_reflect (fi_exitCode i = Some 0%Z)) as [E|E];
    cbn [negb]; [|by intuition].
  destruct (fi_hasSummary i); cbn [andb negb].
  - destruct (fi_rowCount i) as [n|]; [|done].
    destruct (Z.ltb_spec 0 n); [done|]. destruct (truthy _); (split; [done|]); intros (_ & _ & ?); lia.
  - destruct (truthy _); (split; [done|]); by intros (_ & ? & _).
Qed.

End Finish.

(** * The headline of an accuracy run *)
Section Headline.
Import LmEval.

Lemma cut_last_comma_spec s a b : cut_last_comma s = Some (a, b) -> s = (a +:+ b) /\ b <> "".
Proof.
  revert a b. induction s as [|c s IH]; cbn [cut_last_comma]; [done|]. intros a b.
  destruct (cut_last_comma s) as [[a' b']|].
  - intros [= <- <-]. destruct (IH a' b' eq_refl) as [-> Hb]. done.
  - destruct (Ascii.eqb c ","); [|done]. intros [= <- <-]. done.
Qed.

Lemma splitKey_spec key m f : splitKey key = (m, f) -> key = (m +:+ f).
Proof.
  unfold splitKey. destruct (cut_last_comma key) as [[a b]|] eqn:E; intros [= <- <-].
  - by apply cut_last_comma_spec in E as [-> _].
  - by rewrite app_empty_r.
Qed.

(** A stored row is a number of the result under a key of its task, never a standard error
    passed off as a score. *)
Lemma metricRow_spec task entry g n kv m :
  metricRow task entry g n kv = Some m ->
  am_task m = task /\ kv.2 = JNum (Fin (am_value m)) /\
  kv.1 = (am_metric m +:+ match am_filter m with Some f => (splitKey kv.1).2 | None => "" end) /\
  str_ends_with "_stderr" (am_metric m) = false.
Proof.
  unfold metricRow. destruct kv as [key value]. cbn [fst snd].
  destruct (String.eqb key "alias"); [done|]. destruct (splitKey key) as [mn f] eqn:Es.
  destruct (str_ends_with "_stderr" mn) eqn:Ee; [done|].
  destruct value as [| |[| |q]| | |]; try done. cbn [numOrNull].
  intros [= <-]. cbn [am_task am_value am_metric am_filter snd]. apply splitKey_spec in Es.
  destruct (String.eqb_spec f "") as [->|Hf]; repeat split; done.
Qed.

Lemma js_find_str k keys : k ∈ keys -> js_find (String.eqb k) keys = Some k.
Proof.
  intros Hk. destruct (js_find (String.eqb k) keys) as [k'|] eqn:E.
  - apply js_find_Some in E as [_ E%String.eqb_eq]. by subst.
  - rewrite js_find_None in E. specialize (E k Hk). by rewrite String.eqb_refl in E.
Qed.

Lemma js_find_str_None k keys : k ∉ keys -> js_find (String.eqb k) keys = None.
Proof.
  intros Hk. apply js_find_None. intros x Hx. apply String.eqb_neq. by intros ->.
Qed.

(** A key of an object that holds a value is among its entries. *)
Lemma al_get_key {V} (l : list (string * V)) k v : al_get l k = Some v -> k ∈ map fst l.
Proof.
  intros H. destruct (decide (k ∈ l.*1)) as [Hin|Hin]; [exact Hin|].
  apply al_get_None in Hin. congruence.
Qed.

Lemma jprop_entry e k v : jprop e k = Some v -> k ∈ map fst (jentries e).
Proof. destruct e; cbn [jprop jentries]; try done; apply al_get_key. Qed.

(** No key of [keys] has a greater score than the first of the sorted list. *)
Lemma head_sorted (score : string -> Q) keys k x :
  head (js_sort (fun a b => Qle_bool (score b) (score a)) keys) = Some k -> x ∈ keys ->
  k ∈ keys /\ (score x <= score k)%Q.
Proof.
  intros Hh Hx. set (le := fun a b => _) in Hh.
  assert (StronglySorted (fun a b => le a b = true) (js_sort le keys)) as Hs.
  { apply js_sort_sorted; unfold le.
    - intros a b. rewrite !Qle_bool_iff. destruct (Qlt_le_dec (score b) (score a)); [left|right]; lra.
    - intros a b c. rewrite !Qle_bool_iff. lra. }
  apply (elem_of_js_sort le) in Hx.
  destruct (js_sort le keys) as [|y l] eqn:E; [done|]. injection Hh as ->. split.
  - apply (elem_of_js_sort le). rewrite E. left.
  - apply StronglySorted_inv in Hs as [_ Hs]. apply elem_of_cons in Hx as [->|Hx]; [lra|].
    rewrite Forall_forall in Hs. apply Hs in Hx. unfold le in Hx. by apply Qle_bool_iff in Hx.
Qed.

(** The key the headline comes from: the [none] filter when the metric has one, else a
    [flexible-extract] one, else the best of them all. *)
Lemma chosenKey_spec pm e k :
  chosenKey pm e = Some k ->
  let keys := List.filter (primaryKey pm) (map fst (jentries e)) in
  k ∈ keys /\
  ((pm +:+ ",none") ∈ keys -> k = (pm +:+ ",none")) /\
  ((pm +:+ ",none") ∉ keys -> (exists f, f ∈ keys /\ str_ends_with ",flexible-extract" f = true) ->
     str_ends_with ",flexible-extract" k = true) /\
  ((pm +:+ ",none") ∉ keys -> (forall f, f ∈ keys -> str_ends_with ",flexible-extract" f = false) ->
     forall f q, f ∈ keys -> numOrNull (jprop e f) = Some q -> (0 <= q)%Q ->
       exists q', numOrNull (jprop e k) = Some q' /\ (q <= q')%Q).
Proof.
  unfold chosenKey. set (keys := List.filter _ _). intros H.
  destruct (decide ((pm +:+ ",none") ∈ keys)) as [Hn|Hn].
  { rewrite (js_find_str _ _ Hn) in H. injection H as <-. done. }
  rewrite (js_find_str_None _ _ Hn) in H. cbn [orElse] in H.
  destruct (js_find _ keys) as [f|] eqn:Ef; cbn [orElse] in H.
  { injection H as <-. apply js_find_Some in Ef as [Hf Hff]. split; [done|]. split; [done|].
    split; [done|]. intros _ Hno. rewrite (Hno _ Hf) in Hff. done. }
  rewrite js_find_None in Ef. set (score := fun k => default (-1)%Q (numOrNull (jprop e k))) in H.
  assert (forall x, x ∈ keys -> k ∈ keys /\ (score x <= score k)%Q) as Hbest
    by (intros x; by apply (head_sorted score)).
  assert (exists x, x ∈ keys) as [x Hx].
  { destruct keys as [|x ?]; [done|]. exists x. left. }
  split; [by apply (Hbest x)|]. split; [done|]. split.
  - intros _ (f & Hf & Hff). rewrite (Ef _ Hf) in Hff. done.
  - intros _ _ f q Hf Hq Hq1. destruct (Hbest f Hf) as [_ Hle]. unfold score in Hle.
    rewrite Hq in Hle. destruct (numOrNull (jprop e k)) as [q'|]; cbn [from_option id] in Hle.
    + eauto.
    + lra.
Qed.

(** The headline score of an accuracy run is 100 times a number the result holds for
    the primary task.  When the task's entry has the primary metric, that is the number
    under the key [metric,none] if there is one, else under a [flexible-extract] filter,
    else the greatest over its filters, so a filter that found nothing cannot stand for
    the score; a standard error is never taken for it.  Otherwise, or when that entry is
    not a number, it is the value of a row of the same task and metric. *)
Theorem lmeval_headline parsed task pm s :
  parseLmEvalResults parsed task pm = Ok s ->
  exists q, ls_primaryScore s = (q * 100)%Q /\
    ((exists o results e k, parsed = Some (JObj o) /\ obj_get o "results" = Some results /\
       jprop results task = Some e /\ numOrNull (jprop e k) = Some q /\
       let keys := List.filter (primaryKey pm) (map fst (jentries e)) in
       k ∈ keys /\ str_includes "_stderr" k = false /\
       ((pm +:+ ",none") ∈ keys -> k = (pm +:+ ",none")) /\
       ((pm +:+ ",none") ∉ keys ->
          (exists f, f ∈ keys /\ str_ends_with ",flexible-extract" f = true) ->
          str_ends_with ",flexible-extract" k = true) /\
       ((pm +:+ ",none") ∉ keys ->
          (forall f, f ∈ keys -> str_ends_with ",flexible-extract" f = false) ->
          forall f x, f ∈ keys -> numOrNull (jprop e f) = Some x -> (0 <= x)%Q -> (x <= q)%Q)) \/
     (exists m, m ∈ ls_metrics s /\ am_task m = task /\ am_metric m = pm /\ am_value m = q)).
Proof.
  unfold parseLmEvalResults. intros H.
  apply bind_Ok in H as (v & ->%of_option_Ok & H). apply bind_Ok in H as (o & Ho%of_option_Ok & H).
  assert (v = JObj o) as -> by (destruct v; simplify_eq/=; done).
  apply bind_Ok in H as (results & Hr%of_option_Ok%jobject_Some & H).
  set (metrics := flat_map _ _) in H. apply bind_Ok in H as (q & Hq%of_option_Ok & H).
  apply Ok_inj in H as <-. cbn [ls_primaryScore ls_metrics]. exists q. split; [done|].
  set (direct := if jtruthy _ then _ else None) in Hq. destruct direct as [q1|] eqn:Ed.
  - left. injection Hq as ->. unfold direct in Ed. destruct (jtruthy _); [|done].
    destruct (jprop results task) as [e|] eqn:Ee; [|done]. cbn [mbind option_bind] in Ed.
    destruct (chosenKey pm e) as [k|] eqn:Ek; [|done]. cbn [mbind option_bind] in Ed.
    exists o, results, e, k. destruct (chosenKey_spec _ _ _ Ek) as (H1 & H2 & H3 & H4).
    do 4 (split; [done|]). cbn zeta. split; [done|]. split.
    { apply elem_of_filter_bool in H1 as [_ H1]. unfold primaryKey in H1.
      apply andb_true_iff in H1 as [_ H1]. by apply negb_true_iff. }
    split; [done|]. split; [done|]. intros Hn Hf f x Hfk Hx Hx0.
    destruct (H4 Hn Hf f x Hfk Hx Hx0) as (q' & Hq' & Hle). by simplify_eq.
  - right. cbn [orElse] in Hq. destruct (js_find _ metrics) as [m|] eqn:Em; [|done].
    injection Hq as Hq. apply js_find_Some in Em as [Hm Hmm].
    apply andb_true_iff in Hmm as [Ht%String.eqb_eq Hmet%String.eqb_eq]. by exists m.
Qed.

End Headline.

(** * Warnings on a score *)
Section Warnings.
Import LmEval Extraction.

Lemma filter_length_lt {A} (f : A -> bool) l :
  (length (List.filter f l) < length l)%nat <-> exists x, x ∈ l /\ f x = false.
Proof.
  induction l as [|y l IH]; [cbn; split; [lia|by intros (x & ?%elem_of_nil & _)]|].
  cbn [List.filter length]. destruct (f y) eqn:E; cbn [length].
  - rewrite <- Nat.succ_lt_mono, IH. split; intros (x & Hx & Hf); exists x; (split; [|done]).
    + by right.
    + apply elem_of_cons in Hx as [->|Hx]; [congruence|done].
  - split; [|intros _; pose proof (List.filter_length_le f l); lia].
    intros _. exists y. split; [left|done].
Qed.

Lemma groupFinding_spec rows f :
  groupFinding rows = Some f <->
  exists r0 rs, rows = r0 :: rs /\ (exists z, z ∈ rows /\ isZero z = true) /\
    ((exists x, x ∈ rows /\ isZero x = false) \/ (2 <= length rows)%nat) /\
    f = {| ef_task := am_task r0; ef_metric := am_metric r0;
           ef_zeroFilters := map am_filter (List.filter isZero rows);
           ef_bestValue := am_value (best r0 rs); ef_bestFilter := am_filter (best r0 rs);
           ef_severity := if bool_decide (length (List.filter isZero rows) < length rows)%nat
                          then Partial else Failed |}.
Proof.
  destruct rows as [|r0 rs]; [split; [done|by intros (? & ? & ? & _)]|]. cbn [groupFinding].
  set (zeros := List.filter isZero (r0 :: rs)).
  assert (zeros <> [] <-> exists z, z ∈ r0 :: rs /\ isZero z = true) as Hz.
  { unfold zeros. split.
    - intros Hne. destruct (List.filter _ _) as [|z zs] eqn:E; [done|]. exists z.
      apply elem_of_filter_bool. rewrite E. left.
    - intros (z & Hz%elem_of_filter_bool) E. rewrite E in Hz. by apply elem_of_nil in Hz. }
  pose proof (filter_length_lt isZero (r0 :: rs)) as Hlt. fold zeros in Hlt.
  destruct (bool_decide_reflect (zeros = [])) as [E|E].
  { split; [done|]. intros (r & s & [= <- <-] & Hex & _). by apply Hz in Hex. }
  destruct (bool_decide_reflect (length zeros < length (r0 :: rs))%nat) as [E1|E1]; cbn [negb andb].
  - split; [intros [= <-]; exists r0, rs|intros (r & s & [= <- <-] & _ & _ & ->)]; [|done].
    split; [done|]. split; [by apply Hz|]. split; [left; by apply Hlt|done].
  - destruct (bool_decide_reflect (length (r0 :: rs) < 2)%nat) as [E2|E2].
    + split; [done|]. intros (r & s & [= <- <-] & _ & [Hx%Hlt|Hx] & _); [done|lia].
    + split; [intros [= <-]; exists r0, rs|intros (r & s & [= <- <-] & _ & _ & ->)]; [|done].
      split; [done|]. split; [by apply Hz|]. split; [right; lia|done].
Qed.

(** A score is flagged as an extraction artefact exactly when its own rows show it: a
    finding is reported for the rows of one task, metric and sample count if and only if
    one of them is zero and either another is not (partial) or at least two rows agree
    that nothing was found (failed).  A lone zero is never reported, and rows measured
    over different numbers of samples are never compared. *)
Theorem extraction_findings_iff metrics f :
  f ∈ detectExtractionFindings metrics <->
  exists k r0 rs,
    List.filter (fun m => bool_decide (groupKey m = k)) metrics = r0 :: rs /\
    (exists z, z ∈ r0 :: rs /\ isZero z = true) /\
    ((exists x, x ∈ r0 :: rs /\ isZero x = false) \/ (2 <= length (r0 :: rs))%nat) /\
    f = {| ef_task := am_task r0; ef_metric := am_metric r0;
           ef_zeroFilters := map am_filter (List.filter isZero (r0 :: rs));
           ef_bestValue := am_value (best r0 rs); ef_bestFilter := am_filter (best r0 rs);
           ef_severity := if bool_decide (length (List.filter isZero (r0 :: rs)) < length (r0 :: rs))%nat
                          then Partial else Failed |}.
Proof.
  unfold detectExtractionFindings. rewrite list_elem_of_omap. split.
  - intros ([k rows] & Hg & Hf). apply group_by_elem in Hg as [Hrows _]. cbn [snd] in Hf.
    apply groupFinding_spec in Hf as (r0 & rs & -> & H). exists k, r0, rs.
    rewrite filter_decide_eq in Hrows. done.
  - intros (k & r0 & rs & Hrows & H). exists (k, r0 :: rs). split.
    + apply group_by_elem. split; [|done]. by rewrite filter_decide_eq.
    + cbn [snd]. apply groupFinding_spec. by exists r0, rs.
Qed.

Import Nulls.

Lemma positive_spec v q : positive v = Some q <-> v = Some (Fin q) /\ (0 < q)%Q.
Proof.
  unfold positive. destruct v as [[| |x]|]; try (split; [done|by intros [? _]]).
  destruct (Qle_bool x 0) eqn:E.
  - apply Qle_bool_iff in E. split; [done|]. intros [[= <-] ?]. lra.
  - assert (0 < x)%Q.
    { apply Qnot_le_lt. intros H. apply Qle_bool_iff in H. congruence. }
    split; [by intros [= <-]|by intros [[= <-] _]].
Qed.

(** The empties of a run are called minor only when they are known to weigh less than the
    score's own standard error. *)
Lemma nulls_minor_iff count nSamples stderr f :
  assessNullCompletions count nSamples stderr = Some f ->
  (nf_severity f = Minor <->
   exists c n e, count = Some (Fin c) /\ nSamples = Some (Fin n) /\ stderr = Some (Fin e) /\
     (0 < c)%Q /\ (0 < n)%Q /\ (0 < e)%Q /\ (c / n <= e)%Q).
Proof.
  unfold assessNullCompletions. destruct (positive count) as [c|] eqn:Ec; [|done].
  apply positive_spec in Ec as [-> Hc]. cbn [mbind option_bind]. intros [= <-]. cbn [nf_severity].
  destruct (positive nSamples) as [n|] eqn:En; cbn.
  2:{ split; [done|]. intros (? & n & ? & _ & Hn & _ & _ & Hn' & _).
      assert (positive nSamples = Some n) by by apply positive_spec. congruence. }
  apply positive_spec in En as [-> Hn]. destruct (positive stderr) as [e|] eqn:Ee; cbn.
  2:{ split; [done|]. intros (? & ? & e & _ & _ & He & _ & _ & He' & _).
      assert (positive stderr = Some e) by by apply positive_spec. congruence. }
  apply positive_spec in Ee as [-> He].
  destruct (Qle_bool (c / n * 100) (e * 100)) eqn:Ele.
  - apply Qle_bool_iff in Ele. split; [|done]. intros _. exists c, n, e. repeat split; try done. lra.
  - split; [done|]. intros (? & ? & ? & [= <-] & [= <-] & [= <-] & _ & _ & _ & Hle).
    assert (c / n * 100 <= e * 100)%Q as H by lra. apply Qle_bool_iff in H. congruence.
Qed.

End Warnings.

(** * Why a run failed *)
Section Explain.
Import ProxyLoss.
Context (parseUrl : string -> option (string * string * string)).

Lemma firstSome_Some {A B} (f : A -> option B) l y :
  firstSome f l = Some y -> exists x, x ∈ l /\ f x = Some y.
Proof.
  induction l as [|x l IH]; cbn [firstSome]; [done|]. destruct (f x) eqn:E.
  - intros [= ->]. exists x. split; [left|done].
  - intros (z & Hz & Hf)%IH. exists z. split; [by right|done].
Qed.

(** A failed accuracy run is blamed on the manager's restart only on evidence: the
    reason is either passed on as it was, or extended by a host and a port that a line
    of the run's own log says refused a connection, the host being one the reasoning
    proxy was advertised on, and the two together not being the model endpoint's. *)
Theorem explain_on_evidence reason logText hosts endpointUrl :
  explainFailure parseUrl reason logText hosts endpointUrl = reason \/
  exists host port line,
    line ∈ str_split nl logText /\ refused line = Some (host, port) /\
    (exists h, Some h ∈ hosts /\ h = host /\ h <> "") /\
    (forall u, endpointUrl = Some u -> u <> "" -> hostPortOf parseUrl u <> Some (host, port)) /\
    explainFailure parseUrl reason logText hosts endpointUrl =
      (reason +:+ " — " +:+ proxyLossReason
         {| pe_host := host; pe_port := port; pe_line := str_trim line |}).
Proof.
  unfold explainFailure, detectProxyLoss. destruct (String.eqb logText ""); [by left|].
  destruct (omap truthy hosts) as [|h0 hs] eqn:Eh; [by left|].
  destruct (firstSome _ _) as [e|] eqn:Ef; [|by left].
  apply firstSome_Some in Ef as (line & Hl & He). right. unfold evidenceIn in He.
  destruct (refused line) as [[host port]|] eqn:Er; [|done]. cbn [mbind option_bind] in He.
  destruct (mem_str host (h0 :: hs)) eqn:Em; cbn [negb] in He; [|done].
  destruct (bool_decide_reflect ((u ← truthy endpointUrl; hostPortOf parseUrl u) = Some (host, port)))
    as [E|E]; [done|].
  injection He as <-. exists host, port, line. split; [done|]. split; [done|]. split; [|split; [|done]].
  - apply mem_str_spec in Em. rewrite <- Eh in Em.
    apply list_elem_of_omap in Em as (h & Hh & [-> Hne]%truthy_Some). by exists host.
  - intros u -> Hu Hhp. apply E. assert (truthy (Some u) = Some u) as -> by by apply truthy_Some.
    done.
Qed.

End Explain.

(** * A reasoning model's answer *)
Section Strip.
Import Reasoning.

Definition tag_at (pat s : string) (i : nat) : bool := String.prefix pat (str_lower (str_drop i s)).

Lemma findTag_None pat s :
  pat <> "" -> (findTag pat s = None <-> forall i, tag_at pat s i = false).
Proof.
  intros Hp. unfold tag_at. induction s as [|c s IH].
  - cbn [findTag]. destruct pat as [|p pat]; [done|]. cbn. split; [by intros _ [|i]|done].
  - cbn [findTag]. destruct (String.prefix pat (str_lower (String c s))) eqn:E.
    + split; [done|]. intros H. specialize (H 0%nat). cbn [str_drop] in H. congruence.
    + destruct (findTag pat s) as [j|]; cbn.
      * split; [done|]. intros H. destruct IH as [_ IH]. discriminate IH. intros i. apply (H (S i)).
      * split; [|done]. intros _ [|i]; [done|]. by apply IH.
Qed.

Lemma findTag_Some pat s i :
  findTag pat s = Some i -> tag_at pat s i = true /\ forall j, (j < i)%nat -> tag_at pat s j = false.
Proof.
  unfold tag_at. revert i. induction s as [|c s IH]; intros i; cbn [findTag].
  - destruct (String.prefix pat (str_lower "")) eqn:E; [|done]. intros [= <-]. split; [done|lia].
  - destruct (String.prefix pat (str_lower (String c s))) eqn:E.
    + intros [= <-]. split; [done|lia].
    + destruct (findTag pat s) as [j|]; [|done]. intros [= <-].
      destruct (IH j eq_refl) as [H1 H2]. split; [done|].
      intros [|k] Hk; [done|]. apply H2. lia.
Qed.

Lemma tag_at_drop pat s n i : tag_at pat (str_drop n s) i = tag_at pat s (n + i).
Proof. unfold tag_at. by rewrite drop_drop. Qed.

Lemma prefix_take pat n s :
  String.prefix pat (str_lower (str_take n s)) = true -> String.prefix pat (str_lower s) = true.
Proof.
  revert n s. induction pat as [|p pat IH]; intros n s; [by destruct (str_lower s)|].
  destruct n as [|n], s as [|c s]; try done. cbn. destruct (ascii_dec _ _); [|done]. apply IH.
Qed.

Lemma drop_take n i s : str_drop i (str_take n s) = str_take (n - i) (str_drop i s).
Proof.
  revert n s. induction i as [|i IH]; intros n s; [by rewrite Nat.sub_0_r|].
  destruct n as [|n], s as [|c s]; simpl; try done; by destruct (n - i)%nat.
Qed.

Lemma tag_at_take pat s n i : tag_at pat (str_take n s) i = true -> tag_at pat s i = true.
Proof. unfold tag_at. rewrite drop_take. apply prefix_take. Qed.

Lemma tag_at_take_end pat s n i : pat <> "" -> (n <= i)%nat -> tag_at pat (str_take n s) i = false.
Proof.
  intros Hp Hi. unfold tag_at. rewrite drop_take. replace (n - i)%nat with 0%nat by lia.
  by destruct pat, (str_drop i s).
Qed.

(** A tag is gone from a part of a text it is gone from. *)
Lemma no_tag_drop pat s n : pat <> "" -> findTag pat s = None -> findTag pat (str_drop n s) = None.
Proof. intros Hp. rewrite !findTag_None by done. intros H i. by rewrite tag_at_drop. Qed.

Lemma no_tag_take pat s n : pat <> "" -> findTag pat s = None -> findTag pat (str_take n s) = None.
Proof.
  intros Hp. rewrite !findTag_None by done. intros H i. apply not_true_is_false.
  intros Ht%tag_at_take. by rewrite H in Ht.
Qed.

Lemma trim_left_drop s : exists n, trim_left s = str_drop n s.
Proof.
  induction s as [|c s [n IH]]; [by exists 0%nat|]. cbn [trim_left].
  destruct (is_ws c); [by exists (S n)|by exists 0%nat].
Qed.

Lemma trim_right_take s : exists n, trim_right s = str_take n s.
Proof.
  induction s as [|c s [n IH]]; [by exists 0%nat|]. cbn [trim_right]. rewrite IH.
  destruct (str_take n s) as [|d r] eqn:E.
  - destruct (is_ws c); [by exists 0%nat|exists 1%nat; by destruct s].
  - exists (S n). cbn [str_take]. by rewrite E.
Qed.

Lemma no_tag_trim pat s : pat <> "" -> findTag pat s = None -> findTag pat (str_trim s) = None.
Proof.
  intros Hp H. unfold str_trim. destruct (trim_right_take (trim_left s)) as [m ->].
  destruct (trim_left_drop s) as [n ->]. by apply no_tag_take, no_tag_drop.
Qed.

Lemma tag_fits pat s i : pat <> "" -> tag_at pat s i = true -> (i < String.length s)%nat.
Proof.
  intros Hp H. destruct (decide (i < String.length s)%nat) as [|Hi]; [done|].
  unfold tag_at in H. assert (str_drop i s = "") as E.
  { pose proof (drop_length i s) as Hl. destruct (str_drop i s); [done|]. cbn in Hl. lia. }
  rewrite E in H. by destruct pat.
Qed.

Lemma afterLastClose_none fuel s :
  (String.length s <= fuel)%nat -> findTag CLOSE (afterLastClose fuel s) = None.
Proof.
  revert s. induction fuel as [|k IH]; intros s Hf; cbn [afterLastClose].
  - by destruct s; [|cbn in Hf; lia].
  - destruct (findTag CLOSE s) as [j|] eqn:E; [|done]. apply IH.
    apply findTag_Some in E as [E _]. apply tag_fits in E; [|done].
    rewrite drop_length. cbn [String.length CLOSE]. lia.
Qed.

Lemma cut_open_none s :
  findTag OPEN (match findTag OPEN s with Some i => str_take i s | None => s end) = None.
Proof.
  destruct (findTag OPEN s) as [i|] eqn:E; [|done]. apply findTag_None; [done|]. intros j.
  destruct (decide (i <= j)%nat) as [Hj|Hj]; [by apply tag_at_take_end|].
  apply findTag_Some in E as [_ E]. apply not_true_is_false. intros Ht%tag_at_take.
  rewrite E in Ht; [done|lia].
Qed.

(** What a reasoning model's answer is scored on holds no trace of its thinking: the
    stripped content has neither an opening nor a closing tag left, in any case of
    letters and wherever tags were nested, repeated, unmatched or formed by the removal
    itself; and an answer without tags is only trimmed. *)
Theorem strip_no_tags content :
  findTag OPEN (stripReasoning content) = None /\
  findTag CLOSE (stripReasoning content) = None /\
  (findTag OPEN content = None -> findTag CLOSE content = None ->
   stripReasoning content = str_trim content).
Proof.
  unfold stripReasoning. destruct (String.eqb_spec content "") as [->|Hne]; [done|].
  set (out := dropBlocks _ _). set (out2 := afterLastClose _ out).
  split; [apply no_tag_trim, cut_open_none; done|]. split.
  - apply no_tag_trim; [done|]. assert (findTag CLOSE out2 = None) by by apply afterLastClose_none.
    destruct (findTag OPEN out2); [by apply no_tag_take|done].
  - intros Ho Hc. assert (out = content) as E.
    { unfold out. destruct (String.length content); [done|]. cbn [dropBlocks]. by rewrite Ho. }
    assert (out2 = content) as ->; [|by rewrite Ho].
    unfold out2. rewrite E. destruct (String.length content); [done|]. cbn [afterLastClose].
    by rewrite Hc.
Qed.

End Strip.
