(* ===== verification/BenchConfig.v ===== *)
(** What a benchmark is asked to do: the presets (benchmarks/presets.ts) in module
    [Presets], the arguments of the three tools (benchmarks/args.ts, tool-eval-args.ts,
    lm-eval-args.ts) in [Args], and the choice of the eval node (benchmarks/eval-node.ts)
    in [EvalNode].  A custom throughput configuration is whatever JSON the request held;
    labels and descriptions of presets are left out. *)
From S2P Require Import Prelude JsNum Recipes Admission BenchParse.

Module Presets.

Definition DEFAULT_NUM_CONCURRENT : Z := 8.

Record ToolEvalConfig := {
  tl_short : bool; tl_hardmode : bool; tl_contextPressure : option num; tl_seed : num }.

Record AccuracyConfig := {
  ac_tasks : list string; ac_primaryTask : string; ac_primaryMetric : string;
  ac_limit : option num; ac_numFewshot : option num; ac_maxGenToks : num;
  ac_applyChatTemplate : bool; ac_reasoning : bool; ac_seed : num;
  ac_numConcurrent : option num; ac_systemInstruction : option string; ac_timeout : option num }.

(** A run's kind with its configuration. *)
Inductive run_config :=
  | Throughput (c : json)
  | ToolEval (c : ToolEvalConfig)
  | Accuracy (c : AccuracyConfig).

Definition kind (c : run_config) : string :=
  match c with Throughput _ => "throughput" | ToolEval _ => "tool-eval" | Accuracy _ => "accuracy" end.

Record BenchmarkPreset := { bp_id : string; bp_config : run_config }.

Record AccuracyBench := {
  ab_idBase : string; ab_task : string; ab_primaryMetric : string; ab_quickLimit : Z;
  ab_maxGenToks : Z; ab_longGenToks : option Z; ab_answerFormatInstruction : option string }.

Definition bench idBase task metric quick maxGen :=
  {| ab_idBase := idBase; ab_task := task; ab_primaryMetric := metric; ab_quickLimit := quick;
     ab_maxGenToks := maxGen; ab_longGenToks := None; ab_answerFormatInstruction := None |}.

Definition ACCURACY_BENCHES : list AccuracyBench :=
  [bench "ifeval" "ifeval" "prompt_level_strict_acc" 100 2048;
   bench "mmlu-pro" "mmlu_pro" "exact_match" 200 4096;
   {| ab_idBase := "gpqa-diamond"; ab_task := "gpqa_diamond_cot_zeroshot";
      ab_primaryMetric := "exact_match"; ab_quickLimit := 50; ab_maxGenToks := 4096;
      ab_longGenToks := Some 32768;
      ab_answerFormatInstruction :=
        Some ("After your reasoning, end your reply with a final line in exactly this form: " +:+
              "The answer is (X) - where X is the letter A, B, C or D of the correct choice. " +:+
              "This exact wording is required.") |};
   bench "gsm8k" "gsm8k_cot" "exact_match" 200 2048;
   bench "bbh" "bbh_cot_zeroshot" "exact_match" 40 4096;
   bench "math-hard" "leaderboard_math_hard" "exact_match" 100 4096]%Z.

Definition SLOWEST_PER_REQUEST_TOKS_PER_SEC : Z := 5.

(** [Math.ceil(a / b)] *)
Definition ceil_div (a b : Z) : Z := (- ((- a) / b))%Z.

Definition baseConfig (b : AccuracyBench) : AccuracyConfig :=
  {| ac_tasks := [ab_task b]; ac_primaryTask := ab_task b; ac_primaryMetric := ab_primaryMetric b;
     ac_limit := None; ac_numFewshot := None; ac_maxGenToks := zn (ab_maxGenToks b);
     ac_applyChatTemplate := true; ac_reasoning := true; ac_seed := zn 42;
     ac_numConcurrent := Some (zn DEFAULT_NUM_CONCURRENT); ac_systemInstruction := None;
     ac_timeout := None |}.

Definition set_limit (n : Z) (c : AccuracyConfig) : AccuracyConfig :=
  {| ac_tasks := ac_tasks c; ac_primaryTask := ac_primaryTask c;
     ac_primaryMetric := ac_primaryMetric c; ac_limit := Some (zn n);
     ac_numFewshot := ac_numFewshot c; ac_maxGenToks := ac_maxGenToks c;
     ac_applyChatTemplate := ac_applyChatTemplate c; ac_reasoning := ac_reasoning c;
     ac_seed := ac_seed c; ac_numConcurrent := ac_numConcurrent c;
     ac_systemInstruction := ac_systemInstruction c; ac_timeout := ac_timeout c |}.

(** [{ ...base, maxGenToks, timeout, systemInstruction }] *)
Definition longGen (toks : Z) (instruction : option string) (c : AccuracyConfig) : AccuracyConfig :=
  {| ac_tasks := ac_tasks c; ac_primaryTask := ac_primaryTask c;
     ac_primaryMetric := ac_primaryMetric c; ac_limit := ac_limit c;
     ac_numFewshot := ac_numFewshot c; ac_maxGenToks := zn toks;
     ac_applyChatTemplate := ac_applyChatTemplate c; ac_reasoning := ac_reasoning c;
     ac_seed := ac_seed c; ac_numConcurrent := ac_numConcurrent c;
     ac_systemInstruction := instruction;
     ac_timeout := Some (zn (ceil_div toks SLOWEST_PER_REQUEST_TOKS_PER_SEC)) |}.

Definition presetsOf (b : AccuracyBench) : list BenchmarkPreset :=
  let p suffix c := {| bp_id := "acc-" +:+ ab_idBase b +:+ suffix; bp_config := Accuracy c |} in
  [p "-quick" (set_limit (ab_quickLimit b) (baseConfig b)); p "-full" (baseConfig b)] ++
  match ab_longGenToks b with
  | Some n =>
      if (n =? 0)%Z then []
      else p "-full-longgen" (longGen n None (baseConfig b)) ::
           match truthy (ab_answerFormatInstruction b) with
           | Some i => [p "-full-longgen-formatted" (longGen n (Some i) (baseConfig b))]
           | None => []
           end
  | None => []
  end.

Definition accuracyPresets : list BenchmarkPreset := flat_map presetsOf ACCURACY_BENCHES.

Definition jnums (l : list Z) : json := JArr (map (fun z => JNum (zn z)) l).

Definition throughput (id : string) (pp tg depth : list Z) (runs : Z) (concurrency : list Z)
    (latencyMode : string) (skipCoherence : bool) : BenchmarkPreset :=
  {| bp_id := id;
     bp_config := Throughput (JObj
       [("pp", jnums pp); ("tg", jnums tg); ("depth", jnums depth); ("runs", JNum (zn runs));
        ("concurrency", jnums concurrency); ("latencyMode", JStr latencyMode);
        ("enablePrefixCaching", JBool false); ("skipCoherence", JBool skipCoherence)]) |}.

Definition toolEval (id : string) (short hardmode : bool) (pressure : option num) : BenchmarkPreset :=
  {| bp_id := id;
     bp_config := ToolEval {| tl_short := short; tl_hardmode := hardmode;
                              tl_contextPressure := pressure; tl_seed := zn 42 |} |}.

Definition BENCHMARK_PRESETS : list BenchmarkPreset :=
  [throughput "quick-smoke" [128] [32] [0] 1 [1] "api" false;
   throughput "chat-short" [512] [128] [0] 3 [1; 4] "api" false;
   throughput "chat-long" [2048] [128] [0; 4096] 3 [1; 4] "api" false;
   throughput "code-32k" [8192] [512] [0; 16384; 32000] 2 [1] "api" true;
   throughput "throughput" [512] [128] [0] 2 [1; 4; 16; 32; 64] "none" false;
   toolEval "tool-eval-quick" true false None;
   toolEval "tool-eval-full" false false None;
   toolEval "tool-eval-hardmode" false true None;
   toolEval "tool-eval-pressure" false false (Some (Fin (3 # 4)))]%Z ++ accuracyPresets.

Definition getPreset (id : string) : option BenchmarkPreset :=
  js_find (fun p => String.eqb (bp_id p) id) BENCHMARK_PRESETS.

End Presets.

Module Args.
Import Presets.

(** A throughput configuration is a request's JSON: reading it may throw.  An argument
    that is [undefined] is the [null] it is sent as. *)
Definition field (c : json) (k : string) : option json := jprop c k.

(** [...config[k].map(String)] *)
Definition spreadStrings (c : json) (k : string) : result string (list json) :=
  match field c k with
  | Some (JArr l) => Ok (map (fun v => JStr (Recipe.string_of v)) l)
  | _ => Err ("config." +:+ k +:+ ".map is not a function")
  end.

(** [String(config[k])] *)
Definition stringField (c : json) (k : string) : json :=
  JStr match field c k with Some v => Recipe.string_of v | None => "undefined" end.

Definition strs (l : list string) : list json := map JStr l.

Definition buildBenchyArgs (config : json) (baseUrl modelName outputPath : string) :
    result string (list json) :=
  pp ← spreadStrings config "pp"; tg ← spreadStrings config "tg";
  depth ← spreadStrings config "depth"; concurrency ← spreadStrings config "concurrency";
  Ok (strs ["--base-url"; baseUrl; "--model"; modelName; "--format"; "json";
            "--save-result"; outputPath; "--pp"] ++ pp ++
      strs ["--tg"] ++ tg ++ strs ["--depth"] ++ depth ++ strs ["--concurrency"] ++ concurrency ++
      [JStr "--runs"; stringField config "runs"; JStr "--latency-mode";
       default JNull (field config "latencyMode")] ++
      (if jtruthy (field config "enablePrefixCaching") then strs ["--enable-prefix-caching"] else []) ++
      (if jtruthy (field config "skipCoherence") then strs ["--skip-coherence"] else [])).

Definition buildToolEvalArgs (config : ToolEvalConfig) (baseUrl modelName outputPath : string) :
    list string :=
  ["--base-url"; baseUrl; "--model"; modelName; "--json-file"; outputPath;
   "--seed"; num_str (tl_seed config)] ++
  (if tl_short config then ["--short"] else []) ++
  (if tl_hardmode config then ["--hardmode"] else []) ++
  match tl_contextPressure config with
  | Some p => ["--context-pressure"; num_str p]
  | None => []
  end.

Definition DEFAULT_TIMEOUT_S : Z := 1800.

(** [Number.isInteger(v) && v > 0] *)
Definition positiveInt (v : option num) : option num :=
  match v with
  | Some (Fin q) => if Qeq_bool q (inject_Z (Qfloor q)) && num_lt (zn 0) (Fin q) then Some (Fin q) else None
  | _ => None
  end.

Definition resolveNumConcurrent (v : option num) : num :=
  default (zn DEFAULT_NUM_CONCURRENT) (positiveInt v).

Definition modelArgs (config : AccuracyConfig) (baseUrl modelName : string) : string :=
  str_join ","
    ["base_url=" +:+ baseUrl +:+ "/chat/completions"; "model=" +:+ modelName;
     "num_concurrent=" +:+ num_str (resolveNumConcurrent (ac_numConcurrent config));
     "timeout=" +:+ num_str (default (zn DEFAULT_TIMEOUT_S) (positiveInt (ac_timeout config)));
     "tokenized_requests=False"].

Definition buildLmEvalArgs (config : AccuracyConfig) (baseUrl modelName outputDir : string) :
    list string :=
  ["--model"; "local-chat-completions"; "--model_args"; modelArgs config baseUrl modelName;
   "--tasks"; str_join "," (ac_tasks config);
   "--gen_kwargs"; "max_gen_toks=" +:+ num_str (ac_maxGenToks config);
   "--seed"; num_str (ac_seed config); "--output_path"; outputDir; "--log_samples"] ++
  (let instruction := str_trim (default "" (ac_systemInstruction config)) in
   if String.eqb instruction "" then [] else ["--system_instruction"; instruction]) ++
  (if ac_applyChatTemplate config then ["--apply_chat_template"] else []) ++
  match ac_limit config with Some n => ["--limit"; num_str n] | None => [] end ++
  match ac_numFewshot config with Some n => ["--num_fewshot"; num_str n] | None => [] end.

End Args.

Module EvalNode.

Record EvalNodeCandidate := { en_id : string; en_name : string; en_role : option string; en_status : string }.

Definition online (nodes : list EvalNodeCandidate) : list EvalNodeCandidate :=
  List.filter (fun n => Role.isEvalNode (en_role n) && String.eqb (en_status n) "online") nodes.

Definition resolveEvalNode (nodes : list EvalNodeCandidate) (explicitId : option string) :
    result string string :=
  let online := online nodes in
  match truthy explicitId with
  | Some id =>
      match js_find (fun n => String.eqb (en_id n) id) online with
      | Some hit => Ok (en_id hit)
      | None => Err ("EVAL_NODE_ID=" +:+ id +:+ " is not an online eval node")
      end
  | None =>
      match online with
      | [] => Err ("no online node with role " +:+ String dq ("eval" +:+ String dq ""))
      | [n] => Ok (en_id n)
      | _ => Err ("multiple online eval nodes (" +:+ str_join ", " (map en_name online) +:+
                  "); set EVAL_NODE_ID")
      end
  end.

End EvalNode.
