(* ===== verification/Bench.v ===== *)
(** A benchmark run from its request to its last status (benchmarks/orchestrator.ts,
    execute.ts, reconcile.ts, boot-reconcile.ts and routes/benchmarks.ts): module [Tools]
    is what the three wrappers resolve with, over any runner ([RemoteRun.Runner]);
    [Execute] the start of an execution and the decision that ends it; [Post] the rules
    of the POST route; [Runs] the table of runs with the executions on it, a step
    relation over what the routes, the executions and a restart do.

    A process in which a promise rejects with nobody listening exits ([Crash]).  [JSON.parse]
    is a parameter, [JSON.stringify] its inverse. *)
From S2P Require Import Prelude JsNum Schema Recipes Admission Deployments Jobs RemoteRun BenchParse BenchConfig.
Import Presets.

(** ** What the wrappers resolve with *)
Module Tools.
Import Runner.

Record RunBenchmarkResult := {
  rb_exitCode : option Z; rb_results : list Benchy.BenchmarkResultInput;
  rb_summary : Benchy.Summary; rb_rawOutput : option string }.

Record RunToolEvalResult := {
  rt_exitCode : option Z; rt_summary : option ToolEval.ToolEvalSummary;
  rt_rawOutput : option string }.

Record RunAccuracyResult := {
  ra_exitCode : option Z; ra_summary : option LmEval.LmEvalSummary;
  ra_rawOutput : option string; ra_error : option string }.

Section Over.
Context {R : Type} `{Runner R} (parseJson : string -> jtext).

(** The text to parse: only after exit code 0, when there is one. *)
Definition toParse (s : SpawnTrackedResult) : option string :=
  if bool_decide (sr_exitCode s = Some 0%Z) then sr_rawOutput s else None.

Definition ofBenchmark (s : SpawnTrackedResult) : RunBenchmarkResult :=
  let results := match toParse s with
                 | Some raw => match Benchy.parseBenchyResults (parseJson raw) with
                               | Ok rows => rows
                               | Err _ => []
                               end
                 | None => []
                 end in
  {| rb_exitCode := sr_exitCode s; rb_results := results;
     rb_summary := Benchy.summarizeResults results; rb_rawOutput := sr_rawOutput s |}.

Definition ofToolEval (s : SpawnTrackedResult) : RunToolEvalResult :=
  {| rt_exitCode := sr_exitCode s; rt_rawOutput := sr_rawOutput s;
     rt_summary := match toParse s with
                   | Some raw => match ToolEval.parseToolEvalResults (parseJson raw) with
                                 | Ok x => Some x
                                 | Err _ => None
                                 end
                   | None => None
                   end |}.

Definition ofAccuracy (c : AccuracyConfig) (s : SpawnTrackedResult) : RunAccuracyResult :=
  let parsed := raw ← toParse s;
                Some (LmEval.parseLmEvalResults (parseJson raw) (ac_primaryTask c) (ac_primaryMetric c)) in
  {| ra_exitCode := sr_exitCode s; ra_rawOutput := sr_rawOutput s;
     ra_summary := match parsed with Some (Ok x) => Some x | _ => None end;
     ra_error := match parsed with Some (Err e) => Some e | _ => None end |}.

(** [runBenchmark], [runToolEval] and [runAccuracy]: [None] while the tool runs. *)
Definition runBenchmark (q : R) : option (result string RunBenchmarkResult) :=
  match run q with Some r => Some (ofBenchmark <$> r) | None => None end.
Definition runToolEval (q : R) : option (result string RunToolEvalResult) :=
  match run q with Some r => Some (ofToolEval <$> r) | None => None end.
Definition runAccuracy (c : AccuracyConfig) (q : R) : option (result string RunAccuracyResult) :=
  match run q with Some r => Some (ofAccuracy c <$> r) | None => None end.

End Over.
End Tools.

(** ** Rows *)

Inductive run_result :=
  | RThroughput (rows : list Benchy.BenchmarkResultInput) (summary : Benchy.Summary)
  | RToolEval (summary : ToolEval.ToolEvalSummary)
  | RAccuracy (summary : LmEval.LmEvalSummary) (nullCompletions : option nat).

Record run_row := RunRow {
  r_id : string; r_deploymentId : string; r_presetId : option string; r_config : run_config;
  r_modelName : string; r_endpointUrl : string; r_servedModelName : string; r_status : string;
  r_error : option string; r_runnerNodeId : option string; r_logOffset : Z;
  r_rawOutput : option string; r_result : option run_result }.

#[export] Instance run_hasid : HasId run_row := r_id.

(** The [data] of an update: status and error, and what a finalizer adds. *)
Record run_patch := RunPatch {
  pt_status : string; pt_error : option string; pt_rawOutput : option (option string);
  pt_result : option run_result }.

Definition patch_run (p : run_patch) (r : run_row) : run_row :=
  RunRow (r_id r) (r_deploymentId r) (r_presetId r) (r_config r) (r_modelName r) (r_endpointUrl r)
    (r_servedModelName r) (pt_status p)
    (match pt_error p with Some e => Some e | None => r_error r end)
    (r_runnerNodeId r) (r_logOffset r)
    (default (r_rawOutput r) (pt_rawOutput p))
    (match pt_result p with Some x => Some x | None => r_result r end).

Definition inFlight (r : run_row) : bool :=
  String.eqb (r_status r) "pending" || String.eqb (r_status r) "running".

(** ** Starting and ending an execution *)
Module Execute.
Import Tools Outcome.

(** [ev_logDir]: what [mkdirSync] of the log directory throws when the run is executed, if
    anything. *)
Record env := {
  ev_sharedStorage : string; ev_benchySpec : string; ev_toolEvalSpec : string;
  ev_lmEvalSpec : string; ev_advertiseHost : option string;
  ev_logDir : string -> option string }.

(** The command line of a run; [proxyPort] is where its reasoning proxy listens.  What
    throws here throws in [executeRun] itself: the log directory that [benchmarkIo] makes
    for any run, and the configuration of a throughput run. *)
Definition commandOf (e : env) (proxyPort : Z) (row : run_row) : result string (list json) :=
  match ev_logDir e (r_id row) with Some error => Err error | None => Ok () end;;
  let remote := bool_decide (is_Some (r_runnerNodeId row)) in
  let dir := ev_sharedStorage e +:+ "/benchmarks/" +:+ r_id row in
  let toolOutputPath := if remote then "out/result.json" else dir +:+ "/result.json" in
  let toolOutputDir := if remote then "out" else dir in
  match r_config row with
  | Accuracy c =>
      let proxyHost := if remote then js_or (ev_advertiseHost e) "127.0.0.1" else "127.0.0.1" in
      let baseUrl := if ac_reasoning c
                     then "http://" +:+ proxyHost +:+ ":" +:+ pretty proxyPort +:+ "/v1"
                     else r_endpointUrl row in
      Ok (Args.strs (["uvx"; "--from"; ev_lmEvalSpec e; "lm_eval"] ++
                     Args.buildLmEvalArgs c baseUrl (r_servedModelName row) toolOutputDir))
  | ToolEval c =>
      Ok (Args.strs (["uvx"; "--from"; ev_toolEvalSpec e; "tool-eval-bench"] ++
                     Args.buildToolEvalArgs c (r_endpointUrl row) (r_servedModelName row) toolOutputPath))
  | Throughput c =>
      args ← Args.buildBenchyArgs c (r_endpointUrl row) (r_servedModelName row) toolOutputPath;
      Ok (Args.strs ["uvx"; "--from"; ev_benchySpec e; "llama-benchy"] ++ args)
  end.

(** How the promise of a wrapper settled. *)
Inductive settled :=
  | EndThroughput (r : RunBenchmarkResult)
  | EndToolEval (r : RunToolEvalResult)
  | EndAccuracy (r : RunAccuracyResult)
  | Threw (message : string).

Definition failed (message : string) : run_patch := RunPatch "failed" (Some message) None None.

Section Final.
Context (parseUrl : string -> option (string * string * string)) (advertiseHost : option string).

(** [explainAccuracyFailure] on the log of the run, when it can be read. *)
Definition explainAccuracyFailure (log : option string) (reason : string) (endpointUrl : option string) :
    string :=
  match log with
  | None => reason
  | Some log =>
      ProxyLoss.explainFailure parseUrl reason log [advertiseHost; Some "127.0.0.1"] endpointUrl
  end.

(** What [finalizeAccuracy], [finalizeToolEval], [finalizeThroughput] or [finishFailed]
    writes, given the row it finds; [None] leaves a canceled run alone.  The second read
    of a finalizer that fails a run is the same step. *)
Definition finalize (row : option run_row) (log : option string) (s : settled) : option run_patch :=
  if bool_decide (r_status <$> row = Some "canceled") then None
  else Some match s with
  | Threw message => failed message
  | EndThroughput r =>
      match decideFinalize {| fi_tool := "llama-benchy"; fi_exitCode := rb_exitCode r;
                              fi_hasSummary := true;
                              fi_rowCount := Some (Z.of_nat (length (rb_results r)));
                              fi_parseError := None |} with
      | Complete => RunPatch "completed" None (Some (rb_rawOutput r))
                      (Some (RThroughput (rb_results r) (rb_summary r)))
      | FailWith reason => failed reason
      end
  | EndToolEval r =>
      match decideFinalize {| fi_tool := "tool-eval-bench"; fi_exitCode := rt_exitCode r;
                              fi_hasSummary := bool_decide (is_Some (rt_summary r));
                              fi_rowCount := None; fi_parseError := None |}, rt_summary r with
      | Complete, Some x => RunPatch "completed" None (Some (rt_rawOutput r)) (Some (RToolEval x))
      | FailWith reason, _ => failed reason
      | Complete, None => failed "tool-eval-bench produced no summary"
      end
  | EndAccuracy r =>
      let outcome := decideFinalize {| fi_tool := "lm-eval"; fi_exitCode := ra_exitCode r;
                                       fi_hasSummary := bool_decide (is_Some (ra_summary r));
                                       fi_rowCount := None; fi_parseError := ra_error r |} in
      match outcome, ra_summary r with
      | Complete, Some x =>
          RunPatch "completed" None (Some (ra_rawOutput r))
            (Some (RAccuracy x (Nulls.countNullCompletions <$> log)))
      | FailWith reason, _ =>
          if bool_decide (ra_exitCode r = Some 0%Z)
          then RunPatch "failed" (Some reason) (Some (ra_rawOutput r)) None
          else failed (explainAccuracyFailure log reason (r_endpointUrl <$> row))
      | Complete, None =>
          failed (explainAccuracyFailure log "lm-eval produced no summary" (r_endpointUrl <$> row))
      end
  end.

End Final.

(** The run's log file after the lines [onLog] was given. *)
Definition logFile (evs : list Poll.event) : string :=
  String.concat "" (omap (fun ev => match ev with
                                    | Poll.OnLog line => Some (line +:+ String nl "")
                                    | Poll.OnOffset _ => None
                                    end) evs).

(** [reconcileAction] *)
Inductive reconcile_action := Resume | Finalize | FailOrphan | FailLegacy | FailProxyLost.

Definition reconcileAction (runnerNodeId : option string) (usesManagerProxy : bool)
    (status : option Spec.JobStatus) : reconcile_action :=
  match truthy runnerNodeId with
  | None => FailLegacy
  | Some _ =>
      match status with
      | None => Resume
      | Some Spec.Active => if usesManagerProxy then FailProxyLost else Resume
      | Some (Spec.Unknown _) => Resume
      | Some (Spec.Exited _) => Finalize
      | Some Spec.Missing => FailOrphan
      end
  end.

Definition usesManagerProxy (row : run_row) : bool :=
  match r_config row with Accuracy c => ac_reasoning c | _ => false end.

End Execute.

(** ** The POST route *)
Module Post.

Inductive refusal :=
  | NoDeploymentId | NoConfig | BothConfigs | UnknownDeployment | NotRunning | AlreadyRunning
  | NoRunner (detail : string) | UnknownPreset | BadNumConcurrent | BadSystemInstruction
  | BadTimeout | NoEndpoint (why : string).

Record body := {
  b_deploymentId : option string; b_presetId : option string; b_config : option json;
  b_numConcurrent : option json; b_systemInstruction : option json; b_timeout : option json }.

(** [Number(v)] *)
Definition toNumber (v : json) : num :=
  match v with
  | JNull => zn 0
  | JBool b => zn (if b then 1 else 0)
  | JNum n => n
  | v => number_of_string (Recipe.string_of v)
  end.

(** An integer between 1 and [hi]. *)
Definition intUpTo (hi : Z) (v : json) : option Z :=
  match toNumber v with
  | Fin q =>
      let z := Qfloor q in
      if Qeq_bool q (inject_Z z) && (1 <=? z)%Z && (z <=? hi)%Z then Some z else None
  | _ => None
  end.

Definition instructionOk (v : json) : option string :=
  match v with
  | JStr s => if negb (String.eqb (str_trim s) "") && bool_decide (String.length s <= 2000)%nat
              then Some s else None
  | _ => None
  end.

(** The three overrides of an accuracy run, each when the request holds it. *)
Definition overrides (b : body) (c : AccuracyConfig) : result refusal AccuracyConfig :=
  nc ← match b_numConcurrent b with
       | None => Ok (ac_numConcurrent c)
       | Some v => n ← of_option (intUpTo 256 v) BadNumConcurrent; Ok (Some (zn n))
       end;
  si ← match b_systemInstruction b with
       | None => Ok (ac_systemInstruction c)
       | Some v => s ← of_option (instructionOk v) BadSystemInstruction; Ok (Some s)
       end;
  tm ← match b_timeout b with
       | None => Ok (ac_timeout c)
       | Some v => t ← of_option (intUpTo 86400 v) BadTimeout; Ok (Some (zn t))
       end;
  Ok {| ac_tasks := ac_tasks c; ac_primaryTask := ac_primaryTask c;
        ac_primaryMetric := ac_primaryMetric c; ac_limit := ac_limit c;
        ac_numFewshot := ac_numFewshot c; ac_maxGenToks := ac_maxGenToks c;
        ac_applyChatTemplate := ac_applyChatTemplate c; ac_reasoning := ac_reasoning c;
        ac_seed := ac_seed c; ac_numConcurrent := nc; ac_systemInstruction := si;
        ac_timeout := tm |}.

Definition chooseConfig (b : body) : result refusal run_config :=
  match truthy (b_presetId b) with
  | Some pid =>
      preset ← of_option (getPreset pid) UnknownPreset;
      match bp_config preset with
      | Accuracy c => c ← overrides b c; Ok (Accuracy c)
      | c => Ok c
      end
  | None => Ok (Throughput (default JNull (b_config b)))
  end.

Definition candidate (n : node) : EvalNode.EvalNodeCandidate :=
  {| EvalNode.en_id := n_id n; EvalNode.en_name := n_name n; EvalNode.en_role := n_role n;
     EvalNode.en_status := n_status n |}.

Record mode := { md_local : bool; md_evalNodeId : option string }.

(** The route up to the row it creates; [newId] is the id the database gives. *)
Definition plan (m : mode) (s : db) (runs : list run_row) (newId : string) (b : body) :
    result refusal run_row :=
  did ← of_option (truthy (b_deploymentId b)) NoDeploymentId;
  let hasPreset := bool_decide (is_Some (truthy (b_presetId b))) in
  let hasConfig := jtruthy (b_config b) in
  _ ← guard_or (hasPreset || hasConfig) NoConfig;
  _ ← guard_or (negb (hasPreset && hasConfig)) BothConfigs;
  d ← of_option (tbl_find did (deployments s)) UnknownDeployment;
  _ ← guard_or (String.eqb (d_status d) "running") NotRunning;
  _ ← guard_or (negb (existsb (fun r => String.eqb (r_deploymentId r) did && inFlight r) runs))
        AlreadyRunning;
  runnerNodeId ←
    (if md_local m then Ok None
     else match EvalNode.resolveEvalNode (map candidate (nodes s)) (md_evalNodeId m) with
          | Ok id => Ok (Some id)
          | Err detail => Err (NoRunner detail)
          end);
  config ← chooseConfig b;
  url ← match Names.deploymentEndpointUrl (n ← node_of s d; n_ipAddress n) (d_port d) with
        | Ok u => Ok (u +:+ "/v1")
        | Err e => Err (NoEndpoint e)
        end;
  let modelName := match model_of s d with Some m => m_name m | None => "" end in
  Ok (RunRow newId did (b_presetId b) config modelName url
        (default (default modelName (d_displayName d)) (d_publishedName d))
        "running" None runnerNodeId 0 None None).

End Post.

(** ** The table of runs, and what happens on it *)
Module Runs.
Import Runner Tools Execute.

(** [posts]: rows the POST route has decided on and not yet created.  [executing]: the runs
    whose wrapper has not settled, with their configuration.  [ending]: updates decided
    and not yet written.  [cancels]: the [job.cancel] requests sent.  [issued]: the ids
    the database has given out.  [stale]: the rows the boot read as pending or running and
    has not come to yet. *)
Record state := State {
  runs : list run_row; issued : list string; posts : list run_row;
  executing : list (string * run_config); ending : list (string * run_patch);
  cancels : list string; stale : list run_row }.

Inductive outcome :=
  | Next (s : state)
  | Thrown (s : state)     (** the route answers 500 *)
  | Crash (s : state).     (** the process exits: only the table survives *)

Definition set_runs (f : list run_row -> list run_row) (s : state) : state :=
  State (f (runs s)) (issued s) (posts s) (executing s) (ending s) (cancels s) (stale s).
Definition set_posts (l : list run_row) (s : state) : state :=
  State (runs s) (issued s) l (executing s) (ending s) (cancels s) (stale s).
Definition set_executing (l : list (string * run_config)) (s : state) : state :=
  State (runs s) (issued s) (posts s) l (ending s) (cancels s) (stale s).
Definition set_ending (l : list (string * run_patch)) (s : state) : state :=
  State (runs s) (issued s) (posts s) (executing s) l (cancels s) (stale s).
Definition set_cancels (l : list string) (s : state) : state :=
  State (runs s) (issued s) (posts s) (executing s) (ending s) l (stale s).
Definition set_stale (l : list run_row) (s : state) : state :=
  State (runs s) (issued s) (posts s) (executing s) (ending s) (cancels s) l.

(** Take the first entry of an id out of a list. *)
Fixpoint take_out {A} (key : A -> string) (id : string) (l : list A) : option (A * list A) :=
  match l with
  | [] => None
  | x :: l' =>
      if String.eqb (key x) id then Some (x, l')
      else '(y, r) ← take_out key id l'; Some (y, x :: r)
  end.

Section Machine.
Context (e : env) (proxyPort : Z) (parseUrl : string -> option (string * string * string))
        (parseJson : string -> jtext).

(** [executeRun]: it starts the wrapper, or throws before that. *)
Definition executeRun (row : run_row) (s : state) : result string state :=
  _ ← commandOf e proxyPort row;
  Ok (set_executing ((r_id row, r_config row) :: executing s) s).

(** The POST route up to its creation of a row, and from there on. *)
Definition post (m : Post.mode) (d : db) (newId : string) (b : Post.body) (s : state) :
    result Post.refusal state :=
  row ← Post.plan m d (runs s) newId b;
  Ok (State (runs s) (newId :: issued s) (row :: posts s) (executing s) (ending s) (cancels s) (stale s)).

Definition create (id : string) (s : state) : option outcome :=
  '(row, rest) ← take_out r_id id (posts s);
  let s := set_posts rest (set_runs (fun t => t ++ [row]) s) in
  Some match executeRun row s with Ok s => Next s | Err _ => Thrown s end.

(** What the wrapper makes of the end of its tool. *)
Definition settledOf (c : run_config) (r : result string SpawnTrackedResult) : settled :=
  match r with
  | Err message => Threw message
  | Ok x =>
      match c with
      | Throughput _ => EndThroughput (ofBenchmark parseJson x)
      | ToolEval _ => EndToolEval (ofToolEval parseJson x)
      | Accuracy a => EndAccuracy (ofAccuracy parseJson a x)
      end
  end.

(** A wrapper settles, and the finalizer reads the row. *)
Definition settle (id : string) (log : option string) (r : result string SpawnTrackedResult)
    (s : state) : option outcome :=
  '(x, rest) ← take_out fst id (executing s);
  let s := set_executing rest s in
  Some match finalize parseUrl (ev_advertiseHost e) (tbl_find id (runs s)) log (settledOf x.2 r) with
  | None => Next s
  | Some p => Next (set_ending ((id, p) :: ending s) s)
  end.

(** The finalizer writes.  An update of a row that is gone throws; [finishFailed] then
    finds no canceled run, throws too, and nobody listens. *)
Definition write (id : string) (s : state) : option outcome :=
  '(x, rest) ← take_out fst id (ending s);
  let s := set_ending rest s in
  Some match tbl_find id (runs s) with
  | Some _ => Next (set_runs (tbl_update id (patch_run x.2)) s)
  | None => Crash s
  end.

(** [cancelBenchmark]: the job, or the child, of an executing run is told to stop. *)
Definition cancelBenchmark (id : string) (s : state) : state :=
  set_cancels (if mem_str id (map fst (executing s)) then id :: cancels s else cancels s) s.

(** POST /:id/cancel; [None] is the 404. *)
Definition cancelRoute (id : string) (s : state) : option state :=
  _ ← tbl_find id (runs s);
  Some (set_runs (tbl_update id (patch_run (RunPatch "canceled" None None None)))
          (cancelBenchmark id s)).

(** DELETE /:id *)
Definition deleteRoute (id : string) (s : state) : option state :=
  _ ← tbl_find id (runs s); Some (set_runs (tbl_delete id) s).

(** ** A boot: [reconcileStaleRuns]

    It reads the rows pending or running, and takes them one at a time; each waits for what
    its agent answers to [job.status], if anything ([answer]), and requests come in
    between.  A write on a row that is gone by then, and an [executeRun] that throws, end
    the process: nobody listens to the promise. *)
Definition bootState (table : list run_row) (ids : list string) : state :=
  State table ids [] [] [] [] (List.filter inFlight table).

Definition bootFail (row : run_row) (why : string) (s : state) : outcome :=
  match tbl_find (r_id row) (runs s) with
  | Some _ => Next (set_runs (tbl_update (r_id row) (patch_run (failed why))) s)
  | None => Crash s
  end.

Definition bootRow (answer : option Spec.JobStatus) (row : run_row) (s : state) : outcome :=
  match truthy (r_runnerNodeId row) with
  | None => bootFail row "server restarted before run completed" s
  | Some _ =>
      match reconcileAction (r_runnerNodeId row) (usesManagerProxy row) answer with
      | FailOrphan => bootFail row "job vanished across manager restart" s
      | FailProxyLost =>
          bootFail row ProxyLoss.proxyLostAtRestartReason (set_cancels (r_id row :: cancels s) s)
      | _ => match executeRun row s with Ok s => Next s | Err _ => Crash s end
      end
  end.

Definition reconcile (answer : option Spec.JobStatus) (s : state) : option outcome :=
  match stale s with
  | [] => None
  | row :: rest => Some (bootRow answer row (set_stale rest s))
  end.

(** ** Steps *)

Inductive world := Up (s : state) | Down (table : list run_row) (ids : list string).

Definition after (o : outcome) : world :=
  match o with Next s | Thrown s => Up s | Crash s => Down (runs s) (issued s) end.

Context {R : Type} `{Runner R}.

Inductive step : world -> world -> Prop :=
  | step_post m d newId b s s' :
      newId ∉ issued s -> post m d newId b s = Ok s' -> step (Up s) (Up s')
  | step_create id s o : create id s = Some o -> step (Up s) (after o)
  | step_settle q id log r s o :
      run q = Some r -> settle id log r s = Some o -> step (Up s) (after o)
  | step_write id s o : write id s = Some o -> step (Up s) (after o)
  | step_cancel id s s' : cancelRoute id s = Some s' -> step (Up s) (Up s')
  | step_delete id s s' : deleteRoute id s = Some s' -> step (Up s) (Up s')
  | step_kill s : step (Up s) (Down (runs s) (issued s))
  | step_boot t ids : step (Down t ids) (Up (bootState t ids))
  | step_reconcile answer s o : reconcile answer s = Some o -> step (Up s) (after o).

Inductive reachable : world -> Prop :=
  | reach_init : reachable (Down [] [])
  | reach_step w w' : reachable w -> step w w' -> reachable w'.

Inductive steps : world -> world -> Prop :=
  | steps_refl w : steps w w
  | steps_step w w' w'' : step w w' -> steps w' w'' -> steps w w''.

End Machine.
End Runs.
