(* ===== verification/BenchFacts.v ===== *)
(** Facts of [Bench]: what a completed run is, who ends a run in flight, what a cancel is
    worth, and what a boot makes of the runs it finds. *)
From S2P Require Import Prelude JsNum Schema Recipes Admission Deployments Jobs RemoteRun BenchParse BenchConfig Bench BenchParseFacts.
Import Presets Runner Tools Execute Runs.

(** * Taking an entry out of a list *)

Lemma take_out_Some {A} (key : A -> string) id l x rest :
  take_out key id l = Some (x, rest) ->
  key x = id /\ (forall y, y ∈ l <-> y = x \/ y ∈ rest).
Proof.
  revert x rest. induction l as [|z l IH]; intros x rest; cbn [take_out]; [done|].
  destruct (String.eqb_spec (key z) id) as [E|E].
  - intros [= <- <-]. split; [done|]. intros y. apply elem_of_cons.
  - destruct (take_out key id l) as [[y r]|]; [|done]. cbn. intros [= -> <-].
    destruct (IH x r eq_refl) as [Hk Hl]. split; [done|]. intros w.
    rewrite !elem_of_cons, Hl. tauto.
Qed.

Lemma take_out_perm {A} (key : A -> string) id l x rest :
  take_out key id l = Some (x, rest) -> l ≡ₚ x :: rest.
Proof.
  revert x rest. induction l as [|z l IH]; intros x rest; cbn [take_out]; [done|].
  destruct (String.eqb (key z) id); [by intros [= <- <-]|].
  destruct (take_out key id l) as [[y r]|]; [|done]. cbn. intros [= -> <-].
  rewrite (IH x r eq_refl). apply Permutation_swap.
Qed.

Lemma take_out_None {A} (key : A -> string) id l :
  take_out key id l = None <-> id ∉ map key l.
Proof.
  induction l as [|z l IH]; cbn [take_out map]; [split; [by intros _ ?%elem_of_nil|done]|].
  rewrite elem_of_cons. destruct (String.eqb_spec (key z) id) as [->|E]; [split; [done|tauto]|].
  destruct (take_out key id l) as [[y r]|].
  - split; [done|]. intros H. exfalso. apply H. right.
    destruct (decide (id ∈ map key l)) as [|Hn]; [done|]. by apply IH in Hn.
  - split; [|done]. intros _ [->|Hin]; [done|]. by apply IH in Hin.
Qed.

Lemma take_out_other {A} (key : A -> string) id l x rest j :
  take_out key id l = Some (x, rest) -> j <> id -> j ∈ map key l -> j ∈ map key rest.
Proof.
  intros H Hj (y & -> & Hy)%list_elem_of_fmap. apply take_out_Some in H as [Hk Hl].
  apply Hl in Hy as [->|Hy]; [congruence|]. apply list_elem_of_fmap. by exists y.
Qed.

Lemma tbl_update_cases {A} `{HasId A} id (f : A -> A) t r :
  r ∈ tbl_update id f t ->
  exists r0, r0 ∈ t /\ ((row_id r0 <> id /\ r = r0) \/ (row_id r0 = id /\ r = f r0)).
Proof.
  intros (r0 & -> & Hr)%list_elem_of_fmap. exists r0. split; [done|].
  destruct (String.eqb_spec (row_id r0) id); [by right|by left].
Qed.

Lemma patch_run_id p r : row_id (patch_run p r) = row_id r.
Proof. done. Qed.

(** * The wrappers over any runner *)
Section Client.
Context {R : Type} `{Runner R} (parseJson : string -> jtext).

(** A result that arrives is parsed, and nothing else is recorded: proved from the
    promise of the runners alone. *)
Lemma arrived_is_parsed q s :
  run q = Some (Ok s) -> toParse s = sr_rawOutput s.
Proof.
  intros Hq. unfold toParse. destruct (sr_rawOutput s) as [raw|] eqn:E.
  - rewrite bool_decide_true; [done|]. apply (raw_exit q s Hq). by rewrite E.
  - by destruct (bool_decide _).
Qed.

Lemma toParse_exit s raw : toParse s = Some raw -> sr_exitCode s = Some 0%Z /\ sr_rawOutput s = Some raw.
Proof. unfold toParse. destruct (bool_decide_reflect (sr_exitCode s = Some 0%Z)); done. Qed.

(** Whatever runner is below, a benchmark wrapper resolves with exactly what its tool
    left: the exit code and the raw output are the runner's, there are rows only if the
    tool exited with 0 and its result file parses to them, and a result file that arrived
    is always parsed, never dropped. *)
Theorem wrapper_contract q r :
  runBenchmark parseJson q = Some (Ok r) ->
  exists s, run q = Some (Ok s) /\ rb_exitCode r = sr_exitCode s /\ rb_rawOutput r = sr_rawOutput s /\
    rb_summary r = Benchy.summarizeResults (rb_results r) /\
    (rb_results r <> [] -> sr_exitCode s = Some 0%Z) /\
    match sr_rawOutput s with
    | Some raw => match Benchy.parseBenchyResults (parseJson raw) with
                  | Ok rows => rb_results r = rows
                  | Err _ => rb_results r = []
                  end
    | None => rb_results r = []
    end.
Proof.
  unfold runBenchmark. destruct (run q) as [[s|]|] eqn:Hq; [|done|done]. intros [= <-].
  exists s. cbn [rb_exitCode rb_rawOutput rb_summary rb_results ofBenchmark].
  rewrite (arrived_is_parsed q s Hq). repeat (split; [done|]). split.
  - destruct (sr_rawOutput s) eqn:E; [|done]. intros _. apply (raw_exit q s Hq). by rewrite E.
  - destruct (sr_rawOutput s) as [raw|]; [|done]. by destruct (Benchy.parseBenchyResults _).
Qed.

End Client.

Section Machine.
Context (e : env) (proxyPort : Z) (parseUrl : string -> option (string * string * string))
        (parseJson : string -> jtext).
Context {R : Type} `{Runner R}.

Notation step := (step e proxyPort parseUrl parseJson (R := R)).
Notation reachable := (reachable e proxyPort parseUrl parseJson (R := R)).
Notation executeRun := (executeRun e proxyPort).

(** * What a completed run is *)

(** A stored result is what the stored output parses to. *)
Definition evidence (raw : option string) (res : option run_result) : Prop :=
  exists text x, raw = Some text /\ res = Some x /\
    match x with
    | RThroughput rows sm =>
        Benchy.parseBenchyResults (parseJson text) = Ok rows /\ rows <> [] /\
        sm = Benchy.summarizeResults rows
    | RToolEval t => ToolEval.parseToolEvalResults (parseJson text) = Ok t
    | RAccuracy a _ => exists task metric, LmEval.parseLmEvalResults (parseJson text) task metric = Ok a
    end.

Definition patch_ok (p : run_patch) : Prop :=
  pt_status p = "failed" \/
  (pt_status p = "completed" /\ exists raw, pt_rawOutput p = Some raw /\ evidence raw (pt_result p)).

Definition row_ok (r : run_row) : Prop :=
  r_status r = "completed" -> evidence (r_rawOutput r) (r_result r).

Lemma finalize_benchmark row log x p :
  finalize parseUrl (ev_advertiseHost e) row log (EndThroughput (ofBenchmark parseJson x)) = Some p ->
  patch_ok p.
Proof.
  unfold finalize. destruct (bool_decide _); [done|]. intros [= <-].
  destruct (Outcome.decideFinalize _) eqn:E; [|by left]. right.
  apply decideFinalize_complete in E. cbn in E. destruct E as (Hx & _ & Hrows).
  split; [done|]. eexists. split; [done|]. cbn [pt_result rb_rawOutput rb_results rb_summary ofBenchmark] in *.
  destruct (toParse x) as [raw|] eqn:Et; [|cbn in Hrows; lia].
  apply toParse_exit in Et as [_ Hraw].
  destruct (Benchy.parseBenchyResults (parseJson raw)) as [rows|] eqn:Ep; [|cbn in Hrows; lia].
  exists raw, (RThroughput rows (Benchy.summarizeResults rows)). split; [done|]. split; [done|].
  split; [done|]. split; [|done]. intros ->. cbn in Hrows. lia.
Qed.

Lemma finalize_toolEval row log x p :
  finalize parseUrl (ev_advertiseHost e) row log (EndToolEval (ofToolEval parseJson x)) = Some p ->
  patch_ok p.
Proof.
  unfold finalize. destruct (bool_decide _); [done|].
  unfold ofToolEval. cbn [rt_summary rt_rawOutput rt_exitCode].
  destruct (toParse x) as [raw|] eqn:Et;
    [|intros [= <-]; destruct (Outcome.decideFinalize _); by left].
  apply toParse_exit in Et as [_ Hraw].
  destruct (ToolEval.parseToolEvalResults (parseJson raw)) as [t|] eqn:Ep;
    (intros [= <-]; destruct (Outcome.decideFinalize _)); try by left.
  right. split; [done|]. eexists. split; [done|]. by exists raw, (RToolEval t).
Qed.

Lemma finalize_accuracy row log c x p :
  finalize parseUrl (ev_advertiseHost e) row log (EndAccuracy (ofAccuracy parseJson c x)) = Some p ->
  patch_ok p.
Proof.
  unfold finalize. destruct (bool_decide _); [done|].
  unfold ofAccuracy. cbn [ra_summary ra_rawOutput ra_exitCode ra_error].
  destruct (toParse x) as [raw|] eqn:Et; cbn [mbind option_bind];
    [|intros [= <-]; destruct (Outcome.decideFinalize _); [by left|destruct (bool_decide _); by left]].
  apply toParse_exit in Et as [_ Hraw].
  destruct (LmEval.parseLmEvalResults (parseJson raw) _ _) as [a|] eqn:Ep;
    (intros [= <-]; destruct (Outcome.decideFinalize _); [|destruct (bool_decide _); by left]);
    [|by left].
  right. split; [done|]. eexists. split; [done|].
  exists raw, (RAccuracy a (Nulls.countNullCompletions <$> log)). eauto 8.
Qed.

Lemma finalize_ok row log c r p :
  finalize parseUrl (ev_advertiseHost e) row log (settledOf parseJson c r) = Some p -> patch_ok p.
Proof.
  destruct r as [x|m].
  - destruct c; cbn [settledOf];
      [apply finalize_benchmark|apply finalize_toolEval|apply finalize_accuracy].
  - cbn [settledOf]. unfold finalize. destruct (bool_decide _); [done|]. intros [= <-]. by left.
Qed.

Lemma patch_row_ok p r : patch_ok p -> row_ok (patch_run p r).
Proof.
  unfold row_ok. intros [E|[E (raw & Hr & He)]]; cbn [r_status patch_run]; rewrite E; [done|].
  intros _. cbn [r_rawOutput r_result patch_run]. rewrite Hr. cbn [from_option id].
  destruct He as (text & x & -> & Hx & He). rewrite Hx. by exists text, x.
Qed.

(** * Who ends a run in flight *)

(** [executeRun] throws on it: its configuration is not one, or its log has no directory. *)
Definition malformed (r : run_row) : Prop := exists err, commandOf e proxyPort r = Err err.

Definition attended (s : state) (r : run_row) : Prop :=
  inFlight r = true ->
  r_id r ∈ map fst (executing s) \/ r_id r ∈ map fst (ending s) \/ malformed r \/
  r_id r ∈ map r_id (stale s).

(** Ids are unique, among the rows and those to be created, and were all given out. *)
Definition ids_ok (l : list run_row) (ids : list string) : Prop :=
  NoDup (map r_id l) /\ forall r, r ∈ l -> r_id r ∈ ids.

Record inv (s : state) : Prop := Inv {
  inv_ids : ids_ok (runs s ++ posts s) (issued s);
  inv_rows : forall r, r ∈ runs s -> row_ok r;
  inv_attended : forall r, r ∈ runs s -> attended s r;
  inv_posts : forall r, r ∈ posts s -> r_status r = "running";
  inv_ending : forall x, x ∈ ending s -> patch_ok x.2 }.

Lemma patch_ok_ends p r : patch_ok p -> inFlight (patch_run p r) = false.
Proof. unfold inFlight. by intros [E|[E _]]; cbn [r_status patch_run]; rewrite E. Qed.

Lemma ids_perm l k ids : l ≡ₚ k -> ids_ok l ids -> ids_ok k ids.
Proof.
  intros E [H1 H2]. split; [by rewrite <- E|]. intros r Hr. apply H2. by rewrite E.
Qed.

Lemma ids_update id p l k ids :
  ids_ok (l ++ k) ids -> ids_ok (tbl_update id (patch_run p) l ++ k) ids.
Proof.
  assert (map r_id (tbl_update id (patch_run p) l) = map r_id l) as E.
  { unfold tbl_update. rewrite map_map. apply map_ext. intros r. by destruct (String.eqb _ _). }
  intros [H1 H2]. split; [by rewrite map_app, E, <- map_app|].
  intros r [(r0 & Hr0 & [[_ ->]|[_ ->]])%tbl_update_cases|Hr]%elem_of_app;
    [|change (r_id (patch_run p r0)) with (r_id r0)|]; apply H2, elem_of_app; tauto.
Qed.

Lemma ids_sub l l' k ids : NoDup (map r_id (l' ++ k)) -> (forall r, r ∈ l' -> r ∈ l) ->
  ids_ok (l ++ k) ids -> ids_ok (l' ++ k) ids.
Proof.
  intros Hnd Hl [_ H2]. split; [done|]. intros r [Hr|Hr]%elem_of_app; apply H2, elem_of_app; auto.
Qed.

Lemma inv_update s id p :
  inv s -> (patch_ok p \/ pt_status p = "canceled") -> inv (set_runs (tbl_update id (patch_run p)) s).
Proof.
  intros [H0 H1 H2 H3 H4] Hp.
  constructor; cbn [runs set_runs posts ending executing issued]; [by apply ids_update| | |done|done].
  - intros r (r0 & Hr0 & [[_ ->]|[_ ->]])%tbl_update_cases; [by apply H1|].
    destruct Hp as [Hp|Hp]; [by apply patch_row_ok|]. unfold row_ok. cbn [r_status patch_run].
    by rewrite Hp.
  - intros r (r0 & Hr0 & [[_ ->]|[_ ->]])%tbl_update_cases; [by apply H2|].
    unfold attended. destruct Hp as [Hp|Hp]; [by rewrite patch_ok_ends|].
    unfold inFlight. cbn [r_status patch_run]. by rewrite Hp.
Qed.

Lemma executeRun_Ok row s s' :
  executeRun row s = Ok s' -> s' = set_executing ((r_id row, r_config row) :: executing s) s.
Proof. unfold Runs.executeRun. intros H1. ok_inv. done. Qed.

Lemma attended_more s s' r :
  attended s r -> stale s' = stale s ->
  (forall j, j ∈ map fst (executing s) -> j ∈ map fst (executing s') \/ j ∈ map fst (ending s')) ->
  (forall j, j ∈ map fst (ending s) -> j ∈ map fst (ending s')) ->
  attended s' r.
Proof.
  intros Ha Hst H1 H2 Hf. rewrite Hst. destruct (Ha Hf) as [Hr|[Hr|Hr]]; [apply H1 in Hr|apply H2 in Hr|]; tauto.
Qed.

(** What is left when the process ends. *)
Lemma inv_table s : inv s -> (forall r, r ∈ runs s -> row_ok r) /\ ids_ok (runs s) (issued s).
Proof.
  intros [[Hnd Hin] H1 _ _ _]. split; [done|]. rewrite map_app in Hnd.
  apply NoDup_app in Hnd as (Hnd & _ & _). split; [done|].
  intros r Hr. apply Hin, elem_of_app. by left.
Qed.

Lemma plan_row m d t id b row :
  Post.plan m d t id b = Ok row -> r_id row = id /\ r_status row = "running" /\ inFlight row = true.
Proof. unfold Post.plan. intros H1. ok_inv. done. Qed.

Lemma post_inv m d id b s s' : id ∉ issued s -> inv s -> post m d id b s = Ok s' -> inv s'.
Proof.
  intros Hid [H0 H1 H2 H3 H4]. unfold post. intros E. apply bind_Ok in E as (row & Hp & E).
  apply Ok_inj in E as <-. apply plan_row in Hp as (Hri & Hs & _).
  constructor; cbn [runs posts ending issued]; [| | |by intros r [->|?]%elem_of_cons; auto|done].
  { apply (ids_perm (row :: (runs s ++ posts s))); [by rewrite Permutation_middle|].
    destruct H0 as [Hnd Hin]. split.
    - cbn [map]. apply NoDup_cons. split; [|done]. rewrite Hri.
      intros (r & Hr & Hrin)%list_elem_of_fmap. apply Hid. rewrite Hr. by apply Hin.
    - intros r [->|Hr]%elem_of_cons; [rewrite Hri; left|right; by apply Hin]. }
  { done. }
  intros r Hr. by apply (attended_more s); [apply H2|done| |]; cbn [executing ending]; auto.
Qed.

Definition out_inv (o : outcome) : Prop :=
  match o with
  | Next s | Thrown s => inv s
  | Crash s => (forall r, r ∈ runs s -> row_ok r) /\ ids_ok (runs s) (issued s)
  end.

Lemma create_inv id s o : inv s -> create e proxyPort id s = Some o -> out_inv o.
Proof.
  intros [H0 H1 H2 H3 H4]. unfold create.
  destruct (take_out r_id id (posts s)) as [[row rest]|] eqn:Et; [|done]. cbn [mbind option_bind].
  assert (ids_ok ((runs s ++ [row]) ++ rest) (issued s)) as Hids.
  { apply (ids_perm (runs s ++ posts s)); [|done]. by rewrite (take_out_perm _ _ _ _ _ Et), <- app_assoc. }
  apply take_out_Some in Et as [_ Hposts].
  assert (r_status row = "running") as Hrun by (apply H3, Hposts; by left).
  set (s1 := set_posts rest _).
  assert (forall r, r ∈ runs s1 -> r = row \/ r ∈ runs s) as Hrows.
  { intros r. cbn [runs s1 set_posts set_runs]. rewrite elem_of_app, list_elem_of_singleton. tauto. }
  assert (forall r, r ∈ runs s1 -> row_ok r) as Hok.
  { intros r [->|Hr]%Hrows; [by unfold row_ok; rewrite Hrun|by apply H1]. }
  assert (forall r, r ∈ rest -> r_status r = "running") as Hrest.
  { intros r Hr. apply H3, Hposts. by right. }
  intros [= <-]. destruct (executeRun row s1) as [s2|err] eqn:Ex; cbn [out_inv].
  - apply executeRun_Ok in Ex as ->.
    constructor; cbn [runs posts ending set_executing]; [done|done| |done|done].
    intros r [->|Hr]%Hrows; [intros _; left; left|].
    apply (attended_more s); [by apply H2|done| |]; cbn [executing ending set_executing map]; [|done].
    intros j Hj. left. by right.
  - constructor; cbn [s1 runs posts ending set_posts set_runs]; [done|done| |done|done].
    intros r [->|Hr]%Hrows; [|by apply (attended_more s); [apply H2|done| |]; cbn; auto].
    intros _. right. right. left. unfold Runs.executeRun in Ex. exists err.
    by destruct (commandOf e proxyPort row); simplify_eq/=.
Qed.

Lemma settle_inv id log r s o :
  inv s -> settle e parseUrl parseJson id log r s = Some o -> out_inv o.
Proof.
  intros [H0 H1 H2 H3 H4]. unfold settle.
  destruct (take_out fst id (executing s)) as [[x rest]|] eqn:Et; [|done]. cbn [mbind option_bind snd].
  pose proof (fun j Hj Hin => take_out_other _ _ _ _ _ j Et Hj Hin) as Hoth.
  destruct (finalize _ _ _ _ _) as [p|] eqn:Ef; intros [= <-]; cbn [out_inv].
  - apply finalize_ok in Ef.
    constructor; cbn [runs posts ending set_ending set_executing executing]; [done|done| |done|].
    + intros r0 Hr0. apply (attended_more s); [by apply H2|done| |];
        cbn [executing ending set_ending set_executing map fst].
      * intros j Hj. destruct (decide (j = id)) as [->|Hne]; [right; left|left; by apply Hoth].
      * intros j Hj. by right.
    + by intros y [->|?]%elem_of_cons; [|apply H4].
  - constructor; cbn [runs posts ending set_executing]; [done|done| |done|done].
    intros r0 Hr0 Hf. destruct (decide (r_id r0 = id)) as [Hid|Hid].
    + (* the finalizer left the row alone: it is canceled *)
      exfalso. unfold finalize in Ef. cbn [runs set_executing] in Ef.
      destruct (bool_decide_reflect (r_status <$> tbl_find id (runs s) = Some "canceled")) as [Hc|];
        [|done].
      destruct H0 as [Hnd _]. rewrite map_app in Hnd. apply NoDup_app in Hnd as (Hnd & _ & _).
      assert (tbl_find id (runs s) = Some r0) as E0 by (rewrite <- Hid; by apply (tbl_find_row (runs s) r0)).
      rewrite E0 in Hc. injection Hc as Hc.
      unfold inFlight in Hf. by rewrite Hc in Hf.
    + destruct (H2 r0 Hr0 Hf) as [Hj|Hj]; [left; by apply Hoth|by right].
Qed.

Lemma write_inv id s o : inv s -> write id s = Some o -> out_inv o.
Proof.
  intros [H0 H1 H2 H3 H4]. unfold write.
  destruct (take_out fst id (ending s)) as [[x rest]|] eqn:Et; [|done].
  cbn [mbind option_bind snd runs set_ending].
  pose proof (take_out_Some _ _ _ _ _ Et) as [_ Hend].
  assert (patch_ok x.2) as Hx by (apply H4, Hend; by left).
  destruct (tbl_find id (runs s)) as [r0|] eqn:Er; intros [= <-]; cbn [out_inv].
  - constructor; cbn [runs posts ending set_runs set_ending issued executing]; [by apply ids_update| | |done|].
    + intros r (r1 & Hr1 & [[_ ->]|[_ ->]])%tbl_update_cases; [by apply H1|by apply patch_row_ok].
    + intros r (r1 & Hr1 & [[Hne ->]|[_ ->]])%tbl_update_cases; intros Hf;
        [|by rewrite patch_ok_ends in Hf].
      destruct (H2 r1 Hr1 Hf) as [Hj|[Hj|Hj]]; [by left| |by right; right].
      right. left. by apply (take_out_other _ _ _ _ _ _ Et).
    + intros y Hy. apply H4, Hend. by right.
  - apply (inv_table s). by constructor.
Qed.

Lemma cancel_inv id s s' : inv s -> cancelRoute id s = Some s' -> inv s'.
Proof.
  intros Hi. unfold cancelRoute. destruct (tbl_find id (runs s)); [|done]. intros [= <-].
  apply inv_update; [|by right]. by destruct Hi; constructor.
Qed.

Lemma delete_inv id s s' : inv s -> deleteRoute id s = Some s' -> inv s'.
Proof.
  intros [H0 H1 H2 H3 H4]. unfold deleteRoute. destruct (tbl_find id (runs s)); [|done]. intros [= <-].
  assert (forall r, r ∈ tbl_delete id (runs s) -> r ∈ runs s) as Hsub
    by (intros r0 [? _]%elem_of_tbl_delete; done).
  constructor; cbn [runs set_runs posts ending issued executing];
    [|by auto|intros r0 ?; apply (attended_more s); cbn; auto|done|done].
  apply (ids_sub (runs s)); [|done|done]. destruct H0 as [Hnd _]. rewrite map_app in Hnd |- *.
  apply NoDup_app in Hnd as (Hr & Hd & Hp). apply NoDup_app. split; [by apply NoDup_map_filter|].
  split; [|done]. intros j (x & -> & Hx)%list_elem_of_fmap. apply Hd, list_elem_of_fmap.
  exists x. split; [done|by apply Hsub].
Qed.

(** ** A boot *)

Lemma bootState_inv t ids :
  (forall r, r ∈ t -> row_ok r) -> ids_ok t ids -> inv (bootState t ids).
Proof.
  intros Hok Hids. constructor; cbn [bootState runs posts ending issued executing stale]; [|done| | |].
  - by rewrite app_nil_r.
  - intros r Hr Hf. do 3 right. apply list_elem_of_fmap. exists r. split; [done|].
    by apply elem_of_filter_bool.
  - by intros r ?%elem_of_nil.
  - by intros r ?%elem_of_nil.
Qed.

(** While the head of the list is taken, it is the only row not attended. *)
Definition boot_inv (row : run_row) (s : state) : Prop :=
  ids_ok (runs s ++ posts s) (issued s) /\ (forall r, r ∈ runs s -> row_ok r) /\
  (forall r, r ∈ runs s -> r_id r <> r_id row -> attended s r) /\
  (forall r, r ∈ posts s -> r_status r = "running") /\ (forall x, x ∈ ending s -> patch_ok x.2).

Lemma boot_inv_table row s : boot_inv row s -> out_inv (Crash s).
Proof.
  intros ([Hnd Hin] & H1 & _). split; [done|]. rewrite map_app in Hnd.
  apply NoDup_app in Hnd as (Hnd & _ & _). split; [done|].
  intros r Hr. apply Hin, elem_of_app. by left.
Qed.

Lemma bootFail_inv row why s : boot_inv row s -> out_inv (bootFail row why s).
Proof.
  intros Hi. unfold bootFail. destruct (tbl_find _ _) as [r0|]; [|by eapply boot_inv_table].
  destruct Hi as (H0 & H1 & H2 & H3 & H4). cbn [out_inv].
  constructor; cbn [runs posts ending set_runs issued executing]; [by apply ids_update| | |done|done].
  - intros r (r1 & Hr1 & [[_ ->]|[_ ->]])%tbl_update_cases; [by apply H1|]. apply patch_row_ok. by left.
  - intros r (r1 & Hr1 & [[Hne ->]|[_ ->]])%tbl_update_cases; [by apply H2|]. by intros Hf.
Qed.

Lemma bootRow_inv answer row s : boot_inv row s -> out_inv (bootRow e proxyPort answer row s).
Proof.
  intros Hi. assert (out_inv (match executeRun row s with Ok s => Next s | Err _ => Crash s end)) as Hex.
  { destruct (executeRun row s) as [s2|err] eqn:E; cbn [out_inv].
    - apply executeRun_Ok in E as ->. destruct Hi as (H0 & H1 & H2 & H3 & H4).
      constructor; cbn [runs posts ending set_executing issued]; [done|done| |done|done].
      intros r Hr Hf. cbn [executing set_executing ending stale map fst].
      destruct (decide (r_id r = r_id row)) as [->|Hne]; [left; left|].
      destruct (H2 r Hr Hne Hf) as [?|?]; [left; by right|by right].
    - by eapply boot_inv_table. }
  unfold bootRow. destruct (truthy _); [|by apply bootFail_inv].
  destruct (reconcileAction _ _ _); [exact Hex|exact Hex|by apply bootFail_inv|exact Hex|by apply bootFail_inv].
Qed.

Lemma reconcile_inv answer s o : inv s -> reconcile e proxyPort answer s = Some o -> out_inv o.
Proof.
  intros [H0 H1 H2 H3 H4]. unfold reconcile. destruct (stale s) as [|row rest] eqn:Es; [done|].
  intros [= <-]. apply bootRow_inv. split_and!; [done|done| |done|done].
  intros r Hr Hne Hf. cbn [executing ending stale set_stale].
  destruct (H2 r Hr Hf) as [?|[?|[?|Hin]]]; [auto..|]. do 3 right. rewrite Es in Hin. cbn [map] in Hin.
  by apply elem_of_cons in Hin as [?|?].
Qed.

(** * Every reachable state *)

Definition world_inv (w : world) : Prop :=
  match w with
  | Up s => inv s
  | Down t ids => (forall r, r ∈ t -> row_ok r) /\ ids_ok t ids
  end.

Lemma out_world o : out_inv o -> world_inv (after o).
Proof. by destruct o. Qed.

Lemma run_step_inv w w' : world_inv w -> step w w' -> world_inv w'.
Proof.
  intros Hw Hs. destruct Hs as [m d newId b s s' Hn Hp|id s o Hc|q id log r s o Hq Hse|id s o Hwr
    |id s s' Hc|id s s' Hd|s|t ids|answer s o Hrec]; cbn [world_inv] in *.
  - by apply (post_inv m d newId b s s').
  - apply out_world. by apply (create_inv id s).
  - apply out_world. by apply (settle_inv id log r s).
  - apply out_world. by apply (write_inv id s).
  - by apply (cancel_inv id s).
  - by apply (delete_inv id s).
  - by apply inv_table.
  - by apply bootState_inv; apply Hw.
  - apply out_world. by apply (reconcile_inv answer s).
Qed.

Lemma reachable_inv w : reachable w -> world_inv w.
Proof.
  induction 1 as [|w w' _ IH Hs]; [|by apply (run_step_inv w)].
  split; [by intros r ?%elem_of_nil|]. split; [apply NoDup_nil_2|by intros r ?%elem_of_nil].
Qed.


(** * Cancelling *)

Definition table (w : world) : list run_row := match w with Up s => runs s | Down t _ => t end.

(** A canceled id: no row of it can come back to life. *)
Definition sticks (id : string) (w : world) : Prop :=
  (forall r, r ∈ table w -> r_id r = id -> r_status r = "canceled") /\
  match w with
  | Up s => id ∈ issued s /\ id ∉ map r_id (posts s) /\
            (id ∉ map fst (ending s) \/ id ∉ map r_id (runs s)) /\ id ∉ map r_id (stale s)
  | Down _ ids => id ∈ ids
  end.

Lemma update_sticks (id j : string) (p : run_patch) (t : list run_row) :
  (forall r, r ∈ t -> r_id r = id -> r_status r = "canceled") ->
  (j <> id \/ pt_status p = "canceled") ->
  forall r, r ∈ tbl_update j (patch_run p) t -> r_id r = id -> r_status r = "canceled".
Proof.
  intros Ht Hj r (r1 & Hr1 & [[_ ->]|[Hid ->]])%tbl_update_cases Hr; [by apply Ht|].
  destruct Hj as [Hj|Hj]; [|done]. exfalso. apply Hj. by rewrite <- Hid.
Qed.

Lemma update_ids j p t : map r_id (tbl_update j (patch_run p) t) = map r_id t.
Proof. apply (tbl_update_ids (A := run_row)). done. Qed.

Lemma boot_sticks answer id s o :
  sticks id (Up s) -> reconcile e proxyPort answer s = Some o -> sticks id (after o).
Proof.
  intros (Hc & Hi & Hn & Ho & Hs). unfold reconcile. destruct (stale s) as [|row rest]; [done|].
  intros [= <-]. cbn [map] in Hs. rewrite elem_of_cons in Hs.
  assert (r_id row <> id) as Hne by (intros <-; tauto).
  set (s1 := set_stale rest s).
  assert (forall why cs, sticks id (after (bootFail row why (set_cancels cs s1)))) as Hfail.
  { intros why cs. unfold bootFail. cbn [runs s1 set_stale set_cancels].
    destruct (tbl_find _ _); [|by split]. split.
    - cbn [table runs set_runs set_cancels set_stale]. apply update_sticks; [done|by left].
    - cbn [after issued posts ending runs stale set_runs set_cancels set_stale]. rewrite update_ids. tauto. }
  assert (sticks id (after match executeRun row s1 with Ok s => Next s | Err _ => Crash s1 end)) as Hex.
  { destruct (executeRun row s1) as [s2|err] eqn:E; [|by split].
    apply executeRun_Ok in E as ->. split; [done|]. cbn [after issued posts ending runs stale set_executing s1 set_stale]. tauto. }
  unfold bootRow. pose proof (Hfail "server restarted before run completed" (cancels s1)) as Hlocal.
  pose proof (Hfail "job vanished across manager restart" (cancels s1)) as Hgone.
  destruct (truthy _); [|exact Hlocal].
  destruct (reconcileAction _ _ _); [exact Hex|exact Hex|exact Hgone|exact Hex|apply Hfail].
Qed.

Lemma settle_sticks id j log r s o :
  sticks id (Up s) -> settle e parseUrl parseJson j log r s = Some o -> sticks id (after o).
Proof.
  intros (Hc & Hi & Hn & Ho & Hst). unfold settle.
  destruct (take_out fst j (executing s)) as [[x rest]|]; [|done]. cbn [mbind option_bind].
  cbn [runs set_executing ending]. destruct (finalize _ _ _ _ _) as [p|] eqn:Ef; intros [= <-].
  - split; [done|]. split; [done|]. split; [done|]. split; [|done].
    cbn [ending set_ending map fst runs set_executing].
    destruct (decide (id ∈ map r_id (runs s))) as [Hin|Hin]; [|by right]. left.
    destruct Ho as [Ho|Ho]; [|done]. rewrite elem_of_cons. intros [->|?]; [|done].
    apply list_elem_of_fmap in Hin as (r0 & Hr0 & Hin).
    destruct (tbl_find j (runs s)) as [r1|] eqn:Er.
    + apply tbl_find_Some in Er as [Hr1 Hr1id]. unfold finalize in Ef.
      rewrite bool_decide_true in Ef; [done|]. cbn. by rewrite (Hc r1).
    + rewrite tbl_find_None in Er. by destruct (Er r0 Hin).
  - by split.
Qed.

Lemma step_sticks id w w' : world_inv w -> sticks id w -> step w w' -> sticks id w'.
Proof.
  intros Hw Hs Hstep. destruct Hstep as [m d newId b s s' Hn Hp|j s o Hcr|q j log r s o Hq Hse|j s o Hwr
    |j s s' Hca|j s s' Hd|s|t ids|answer s o Hrec].
  - destruct Hs as (Hc & Hi & Hnp & Ho & Hst). unfold post in Hp. apply bind_Ok in Hp as (row & Hp & E).
    apply Ok_inj in E as <-. apply plan_row in Hp as (Hri & _ & _). split; [done|].
    cbn [issued posts map]. split; [by right|]. split; [|done].
    rewrite elem_of_cons. intros [E|?]; [|done]. apply Hn. by rewrite <- Hri, <- E.
  - destruct Hs as (Hc & Hi & Hnp & Ho & Hst). unfold create in Hcr.
    destruct (take_out r_id j (posts s)) as [[row rest]|] eqn:Et; [|done]. cbn [mbind option_bind] in Hcr.
    apply take_out_Some in Et as [_ Hposts].
    assert (r_id row <> id) as Hne.
    { intros E. apply Hnp, list_elem_of_fmap. exists row. split; [done|]. apply Hposts. by left. }
    set (s1 := set_posts rest _) in Hcr.
    assert (sticks id (Up s1)) as Hs1.
    { split; [|split; [done|split; [|split; [|done]]]]; cbn [table runs posts ending s1 set_posts set_runs].
      - intros r [Hr|Hr%list_elem_of_singleton]%elem_of_app; [by apply Hc|by subst].
      - intros (r & Hr & Hin)%list_elem_of_fmap. apply Hnp, list_elem_of_fmap. exists r.
        split; [done|]. apply Hposts. by right.
      - destruct Ho as [Ho|Ho]; [by left|right]. rewrite map_app. intros [?|Hx]%elem_of_app; [done|].
        cbn in Hx. apply list_elem_of_singleton in Hx. by symmetry in Hx. }
    injection Hcr as <-. destruct (executeRun row s1) as [s2|] eqn:Ex; [|done].
    by apply executeRun_Ok in Ex as ->.
  - by apply (settle_sticks id j log r s).
  - destruct Hs as (Hc & Hi & Hnp & Ho & Hst). unfold write in Hwr.
    destruct (take_out fst j (ending s)) as [[x rest]|] eqn:Et; [|done].
    cbn [mbind option_bind runs set_ending] in Hwr. apply take_out_Some in Et as [Hx Hend].
    assert (id ∉ map fst rest \/ id ∉ map r_id (runs s)) as Ho'.
    { destruct Ho as [Ho|Ho]; [left|by right]. intros (y & Hy & Hin)%list_elem_of_fmap. apply Ho.
      apply list_elem_of_fmap. exists y. split; [done|]. apply Hend. by right. }
    destruct (tbl_find j (runs s)) as [r0|] eqn:Er; injection Hwr as <-; [|by split].
    apply tbl_find_Some in Er as [Hr0 Hr0id]. split; cbn [table runs set_runs set_ending].
    + apply update_sticks; [done|]. left. intros ->. destruct Ho as [Ho|Ho].
      * apply Ho, list_elem_of_fmap. exists x. split; [done|]. apply Hend. by left.
      * apply Ho, list_elem_of_fmap. by exists r0.
    + cbn [after issued posts ending runs set_runs set_ending]. by rewrite update_ids.
  - destruct Hs as (Hc & Hi & Hnp & Ho & Hst). unfold cancelRoute in Hca.
    destruct (tbl_find j (runs s)); [|done]. injection Hca as <-.
    split; cbn [table runs set_runs issued posts ending].
    + apply update_sticks; [done|by right].
    + by rewrite update_ids.
  - destruct Hs as (Hc & Hi & Hnp & Ho & Hst). unfold deleteRoute in Hd.
    destruct (tbl_find j (runs s)); [|done]. injection Hd as <-.
    split; cbn [table runs set_runs issued posts ending].
    + intros r' [Hr' _]%elem_of_tbl_delete. by apply Hc.
    + split; [done|]. split; [done|]. split; [|done]. destruct Ho as [Ho|Ho]; [by left|right].
      intros (y & Hy & [Hin _]%elem_of_tbl_delete)%list_elem_of_fmap. apply Ho, list_elem_of_fmap.
      by exists y.
  - destruct Hs as (Hc & Hi & _). by split.
  - destruct Hs as (Hc & Hi). split; [done|]. split; [done|]. cbn [posts ending stale bootState].
    split; [by intros ?%elem_of_nil|]. split; [left; by intros ?%elem_of_nil|].
    intros (r & Hid & [Hr Hf]%elem_of_filter_bool)%list_elem_of_fmap. unfold inFlight in Hf.
    by rewrite (Hc r Hr (eq_sym Hid)) in Hf.
  - by eapply boot_sticks.
Qed.

(** A cancel sticks unless the run had already ended: canceling a run whose final
    update was not yet decided, and that no boot has yet to come to, leaves it canceled, until it is deleted, whatever the
    routes, the end of its tool, later restarts and crashes do, and asks its node to
    stop the job while its wrapper executes.  But a run whose final update was decided
    just before, and not yet written, ends as that update says: the cancel is lost. *)
Theorem cancel_sticks_or_is_lost id s s' :
  reachable (Up s) -> cancelRoute id s = Some s' ->
  (id ∈ map fst (executing s) -> id ∈ cancels s') /\
  (id ∉ map fst (ending s) -> id ∉ map r_id (stale s) ->
     forall w, steps e proxyPort parseUrl parseJson (R := R) (Up s') w ->
     forall r, r ∈ table w -> r_id r = id -> r_status r = "canceled") /\
  (forall x rest, take_out fst id (ending s) = Some (x, rest) ->
     exists s'' r, write id s' = Some (Next s'') /\ tbl_find id (runs s'') = Some r /\
                   r_status r = pt_status x.2 /\ r_status r <> "canceled").
Proof.
  intros Hreach Hc. pose proof (reachable_inv _ Hreach) as Hi. cbn [world_inv] in Hi.
  pose proof (cancel_inv id s s' Hi Hc) as Hi'. unfold cancelRoute in Hc.
  destruct (tbl_find id (runs s)) as [r0|] eqn:Er; [|done]. injection Hc as Hc. split; [|split].
  - intros Hx. rewrite <- Hc. cbn [cancels set_runs cancelBenchmark set_cancels]. unfold mem_str.
    rewrite bool_decide_true by done. left.
  - intros Hne Hst w Hw.
    assert (sticks id (Up s')) as Hs.
    { apply tbl_find_Some in Er as [Hr0 Hid0]. rewrite <- Hc. cbn [set_runs].
      split; cbn [table runs issued posts ending stale set_runs cancelBenchmark set_cancels].
      - intros r (r1 & Hr1 & [[Hn ->]|[_ ->]])%tbl_update_cases Hr; [by destruct Hn|done].
      - destruct Hi as [[Hnd Hin] _ _ _ _]. split; [|split; [|split; [by left|done]]].
        + rewrite <- Hid0. apply Hin, elem_of_app. by left.
        + intros (y & Hy & Hyin)%list_elem_of_fmap. rewrite map_app in Hnd.
          apply NoDup_app in Hnd as (_ & Hd & _). apply (Hd id); apply list_elem_of_fmap;
            [by exists r0|by exists y]. }
    clear -Hw Hs Hi'. remember (Up s') as w0 eqn:E0.
    assert (world_inv w0) as Hw0 by (by rewrite E0). clear E0 Hi'.
    induction Hw as [w|w1 w2 w3 H12 _ IH]; [apply Hs|].
    apply IH; [by apply (step_sticks id w1)|by apply (run_step_inv w1)].
  - intros x rest Hx. rewrite <- Hc. unfold write. cbn [ending set_runs cancelBenchmark set_cancels]. rewrite Hx.
    cbn [mbind option_bind runs set_ending set_runs cancelBenchmark set_cancels].
    pose proof (take_out_Some _ _ _ _ _ Hx) as [_ Hend].
    assert (patch_ok x.2) as Hp by (apply (inv_ending s Hi), Hend; by left).
    rewrite (tbl_find_update id _ (patch_run_id _)), String.eqb_refl, Er. cbn [fmap option_fmap option_map].
    eexists _, _. split; [reflexivity|]. cbn [runs set_runs set_ending cancelBenchmark set_cancels].
    rewrite !(tbl_find_update id _ (patch_run_id _)), String.eqb_refl, Er.
    split; [reflexivity|]. split; [done|]. by destruct Hp as [E|[E _]]; cbn; rewrite E.
Qed.

End Machine.
