(* ===== verification/BenchBootFacts.v ===== *)
(** More facts of [Bench]: what a boot does with each run it finds, and two ways a request
    brings the process down: deleting a run that is executing, and a configuration that
    [executeRun] throws on. *)
From S2P Require Import Prelude JsNum Schema Recipes Admission Deployments Jobs RemoteRun BenchParse BenchConfig Bench BenchParseFacts BenchFacts.
Import Presets Runner Tools Execute Runs.

Section Boot.
Context (e : env) (proxyPort : Z).

Notation bootRow := (bootRow e proxyPort).
Notation reconcile := (reconcile e proxyPort).
Notation malformed := (malformed e proxyPort).

(** A boot that no request comes in between: one turn after the other, [st] being what the
    agent of each run answers. *)
Fixpoint bootRows (st : string -> option Spec.JobStatus) (rows : list run_row) (s : state) : outcome :=
  match rows with
  | [] => Next s
  | row :: rest =>
      match bootRow (st (r_id row)) row (set_stale rest s) with Next s => bootRows st rest s | o => o end
  end.

Definition boot (st : string -> option Spec.JobStatus) (table : list run_row) (ids : list string) : outcome :=
  let s := bootState table ids in bootRows st (stale s) s.

(** What the code means to do with a run found pending or running: why it is failed, or
    that it is executed again. *)
Inductive decision := Fails (why : string) | FailsAndCancels (why : string) | Resumes.

Definition decide_ (row : run_row) (answer : option Spec.JobStatus) : decision :=
  match truthy (r_runnerNodeId row), answer with
  | None, _ => Fails "server restarted before run completed"
  | Some _, Some Spec.Missing => Fails "job vanished across manager restart"
  | Some _, Some Spec.Active =>
      if usesManagerProxy row then FailsAndCancels ProxyLoss.proxyLostAtRestartReason else Resumes
  | Some _, _ => Resumes
  end.

(** What becomes of it. *)
Definition fate (st : string -> option Spec.JobStatus) (row : run_row) (s : state) : Prop :=
  let found r := tbl_find (r_id row) (runs s) = Some r in
  match decide_ row (st (r_id row)) with
  | Fails why => found (patch_run (failed why) row)
  | FailsAndCancels why => found (patch_run (failed why) row) /\ r_id row ∈ cancels s
  | Resumes => found row /\ r_id row ∈ map fst (executing s)
  end.

(** ** One turn, whatever came before it *)

Lemma find_patch id p t j :
  tbl_find j (tbl_update id (patch_run p) t) =
  if String.eqb j id then patch_run p <$> tbl_find j t else tbl_find j t.
Proof. apply (tbl_find_update id (patch_run p) (patch_run_id p)). Qed.

Lemma executeRun_cases row s :
  (executeRun e proxyPort row s = Ok (set_executing ((r_id row, r_config row) :: executing s) s) /\ ~ malformed row) \/
  ((exists err, executeRun e proxyPort row s = Err err) /\ malformed row).
Proof.
  unfold Runs.executeRun, BenchFacts.malformed. destruct (commandOf e proxyPort row) as [c|err]; [left|right].
  - split; [done|]. by intros [? ?].
  - split; by eexists.
Qed.

(** A turn fails the row as it is then -- a canceled one too -- and ends the process when it
    is gone; or executes the run as the boot read it, whatever became of its row, and ends
    the process when that throws. *)
Lemma turn answer row s :
  bootRow answer row s =
  match decide_ row answer with
  | Fails why => bootFail row why s
  | FailsAndCancels why => bootFail row why (set_cancels (r_id row :: cancels s) s)
  | Resumes => match executeRun e proxyPort row s with Ok s => Next s | Err _ => Crash s end
  end.
Proof.
  unfold Runs.bootRow, decide_, reconcileAction. destruct (truthy (r_runnerNodeId row)); [|done].
  destruct answer as [[| | |]|]; try done. by destruct (usesManagerProxy row).
Qed.

(** A cancel that comes before the boot does is overwritten, and a delete that does brings
    the manager down: of a run of the old container's own, of one whose job is gone and of
    one whose proxy died. *)
Theorem reconcile_after_requests answer s row rest why :
  stale s = row :: rest ->
  decide_ row answer = Fails why \/ decide_ row answer = FailsAndCancels why ->
  match tbl_find (r_id row) (runs s) with
  | Some now => exists s', reconcile answer s = Some (Next s') /\
      tbl_find (r_id row) (runs s') = Some (patch_run (failed why) now)
  | None => exists s', reconcile answer s = Some (Crash s') /\ runs s' = runs s
  end.
Proof.
  intros Hst Hd. unfold Runs.reconcile. rewrite Hst, turn.
  destruct Hd as [-> | ->]; unfold bootFail; cbn [runs set_stale set_cancels];
    (destruct (tbl_find _ (runs s)) as [now|] eqn:E; eexists; (split; [done|]);
     cbn [runs set_runs set_stale set_cancels]; [by rewrite find_patch, String.eqb_refl, E|done]).
Qed.

(** ** A boot without requests in between *)

(** A row other than the one at hand is left alone, and nothing recorded is lost. *)
Definition grows (s s' : state) (j : string) : Prop :=
  tbl_find j (runs s') = tbl_find j (runs s) /\
  (forall i, i ∈ map fst (executing s) -> i ∈ map fst (executing s')) /\
  (forall i, i ∈ cancels s -> i ∈ cancels s').

Lemma fate_grows st row s s' : grows s s' (r_id row) -> fate st row s -> fate st row s'.
Proof.
  intros (Hf & He & Hc). unfold fate. rewrite Hf. destruct (decide_ _ _); intuition.
Qed.

Lemma grows_chain s1 s2 s3 j : grows s1 s2 j -> grows s2 s3 j -> grows s1 s3 j.
Proof. intros (A1 & A2 & A3) (B1 & B2 & B3). split; [congruence|]. split; auto. Qed.

Definition stops_at (st : string -> option Spec.JobStatus) (row : run_row) : Prop :=
  decide_ row (st (r_id row)) = Resumes /\ malformed row.

(** A turn of a row that is as the boot read it. *)
Lemma bootRow_fate st row s :
  tbl_find (r_id row) (runs s) = Some row ->
  (stops_at st row /\ bootRow (st (r_id row)) row s = Crash s) \/
  (~ stops_at st row /\ exists s', bootRow (st (r_id row)) row s = Next s' /\ fate st row s' /\ map r_id (runs s') = map r_id (runs s) /\
     forall j, j <> r_id row -> grows s s' j).
Proof.
  intros Hrow. rewrite turn. unfold stops_at, fate. destruct (decide_ _ _) as [why|why|].
  1, 2: right; split; [by intros [? _]|]; unfold bootFail; cbn [runs set_cancels]; rewrite Hrow;
    eexists; (split; [done|]); cbn [runs cancels set_runs set_cancels];
    rewrite find_patch, String.eqb_refl, Hrow; (split; [try (split; [|left]); done|]);
    (split; [apply update_ids|]); intros j Hj; (split; [cbn [runs set_runs set_cancels]; rewrite find_patch;
      by destruct (String.eqb_spec j (r_id row))|]); (split; [done|]);
    cbn [cancels set_runs set_cancels]; intros i Hi; by (right || idtac).
  destruct (executeRun_cases row s) as [[-> Hm]|[[err ->] Hm]]; [right|by left].
  split; [by intros [_ ?]|]. eexists. split; [done|]. cbn [runs executing set_executing map fst].
  split; [split; [done|left]|]. split; [done|]. intros j _. split; [done|]. split; [|done].
  intros i Hi. by right.
Qed.

Lemma bootRows_fate st rows s :
  NoDup (map r_id rows) -> (forall r, r ∈ rows -> tbl_find (r_id r) (runs s) = Some r) ->
  ((forall r, r ∈ rows -> ~ stops_at st r) ->
     exists s', bootRows st rows s = Next s' /\
       (forall r, r ∈ rows -> fate st r s') /\ (forall j, j ∉ map r_id rows -> grows s s' j)) /\
  (forall r, r ∈ rows -> stops_at st r ->
     exists s', bootRows st rows s = Crash s' /\ map r_id (runs s') = map r_id (runs s) /\
       tbl_find (r_id r) (runs s') = Some r).
Proof.
  revert s. induction rows as [|row rest IH]; intros s Hnd Hrows; cbn [bootRows].
  { split; [|by intros r ?%elem_of_nil]. intros _. exists s. split_and!; [done|by intros r ?%elem_of_nil|].
    by intros j _. }
  cbn [map] in Hnd. apply NoDup_cons in Hnd as [Hn Hnd].
  assert (forall r, r ∈ rest -> r_id r <> r_id row) as Hne.
  { intros r Hr Heq. apply Hn. rewrite <- Heq. apply list_elem_of_fmap. by exists r. }
  destruct (bootRow_fate st row (set_stale rest s) (Hrows row ltac:(left)))
    as [[Hs ->]|[Hs (s1 & E & Hf & Hids & Hg)]].
  { split; [intros Hall; by destruct (Hall row ltac:(left))|]. intros r Hr _. eexists. split; [done|].
    split; [done|]. by apply Hrows. }
  rewrite E. destruct (IH s1 Hnd) as [IH1 IH2].
  { intros r Hr. destruct (Hg (r_id r) (Hne r Hr)) as [-> _]. apply Hrows. by right. }
  split.
  - intros Hall. destruct IH1 as (s' & Hb & H1 & H2); [intros r Hr; apply Hall; by right|].
    exists s'. split; [done|]. split.
    + intros r [->|Hr]%elem_of_cons; [|by apply H1]. apply (fate_grows st row s1); [by apply H2|done].
    + intros j Hj. cbn [map] in Hj. rewrite elem_of_cons in Hj.
      apply (grows_chain s s1); [apply Hg; tauto|apply H2; tauto].
  - intros r [->|Hr]%elem_of_cons Hsr; [done|]. destruct (IH2 r Hr Hsr) as (s' & Hb & Hids' & Hfr).
    exists s'. split; [done|]. by rewrite Hids', Hids.
Qed.

Lemma boot_fate st t ids :
  NoDup (map r_id t) ->
  ((forall r, r ∈ t -> inFlight r = true -> ~ stops_at st r) ->
     exists s, boot st t ids = Next s /\
       forall r, r ∈ t -> if inFlight r then fate st r s else tbl_find (r_id r) (runs s) = Some r) /\
  (forall r, r ∈ t -> inFlight r = true -> stops_at st r ->
     exists s, boot st t ids = Crash s /\ map r_id (runs s) = map r_id t /\
       tbl_find (r_id r) (runs s) = Some r).
Proof.
  intros Hnd. unfold boot. set (s0 := bootState t ids).
  assert (forall x, x ∈ t -> tbl_find (r_id x) t = Some x) as Hfind
    by (intros x Hx; by apply (tbl_find_row t x)).
  destruct (bootRows_fate st (stale s0) s0) as [H1 H2].
  { by apply NoDup_map_filter. }
  { intros x [Hx _]%elem_of_filter_bool. by apply Hfind. }
  split.
  - intros Hall. destruct H1 as (s & Hb & Hf & Hg).
    { intros r [Hr Hi]%elem_of_filter_bool. by apply Hall. }
    exists s. split; [done|]. intros r Hr.
    destruct (inFlight r) eqn:Ef; [apply Hf; by apply elem_of_filter_bool|].
    destruct (Hg (r_id r)) as [-> _]; [|by apply Hfind].
    intros (y & Hy & [Hyt Hyf]%elem_of_filter_bool)%list_elem_of_fmap.
    assert (y = r) as ->; [|congruence]. by apply (NoDup_map_inj r_id t).
  - intros r Hr Hf Hs. apply H2; [by apply elem_of_filter_bool|done].
Qed.

(** * A configuration that is none *)

(** The rules of the route that concern a deployment already benchmarked. *)
Lemma plan_deployment m d t id b row :
  Post.plan m d t id b = Ok row ->
  truthy (Post.b_deploymentId b) = Some (r_deploymentId row) /\
  forall r, r ∈ t -> r_deploymentId r = r_deploymentId row -> inFlight r = false.
Proof.
  unfold Post.plan. intros H. apply bind_Ok in H as (did & Hd%of_option_Ok & H). ok_inv.
  cbn [r_deploymentId]. split; [done|]. intros r Hr Hdep.
  match goal with G : negb (existsb _ _) = true |- _ => rename G into Hno end.
  apply negb_true_iff in Hno. apply not_true_is_false. intros Hf.
  assert (existsb (fun r => String.eqb (r_deploymentId r) did && inFlight r) t = true) as Hex; [|congruence].
  apply existsb_exists. exists r. split; [by apply list_elem_of_In|].
  by rewrite Hdep, String.eqb_refl, Hf.
Qed.

(** A custom configuration nobody checks poisons the manager.  A request the route
    accepts with a configuration [executeRun] cannot read (an empty object is one) leaves
    a run marked running that nothing executes, although the route answers 500; every
    later request for that deployment is refused because of it; and at every later boot
    that finds the run before its agent has connected, the manager exits, with the run
    still there for the next boot. *)
Theorem malformed_config_poisons m d newId b s row :
  newId ∉ map r_id (posts s) ->
  Post.plan m d (runs s) newId b = Ok row -> malformed row ->
  truthy (r_runnerNodeId row) <> None ->
  exists s1 s2, post m d newId b s = Ok s1 /\ create e proxyPort newId s1 = Some (Thrown s2) /\
    row ∈ runs s2 /\ r_status row = "running" /\ executing s2 = executing s /\
    (forall m' d' id' b' row', Post.b_deploymentId b' = Post.b_deploymentId b ->
       Post.plan m' d' (runs s2) id' b' <> Ok row') /\
    (forall t ids, row ∈ t -> NoDup (map r_id t) ->
       exists s3, boot (fun _ => None) t ids = Crash s3 /\ row ∈ runs s3 /\
                  NoDup (map r_id (runs s3))).
Proof.
  intros Hposts Hplan Hmal Hrun. pose proof (plan_row _ _ _ _ _ _ Hplan) as (Hid & Hst & Hfl).
  pose proof (plan_deployment _ _ _ _ _ _ Hplan) as [Hdep _].
  eexists _, (State (runs s ++ [row]) (newId :: issued s) (posts s) (executing s) (ending s) (cancels s) (stale s)).
  split; [unfold post; rewrite Hplan; reflexivity|]. split.
  - unfold create. cbn [posts take_out]. rewrite Hid, String.eqb_refl. cbn [mbind option_bind].
    unfold executeRun. destruct Hmal as [err ->]. done.
  - cbn [runs executing]. assert (row ∈ runs s ++ [row]) as Hin.
    { apply elem_of_app. right. by apply list_elem_of_singleton. }
    split; [done|]. split; [done|]. split; [done|]. split.
    + intros m' d' id' b' row' Hb Hp. pose proof (plan_deployment _ _ _ _ _ _ Hp) as [Hd Hno].
      rewrite Hb, Hdep in Hd. injection Hd as Hd. by rewrite (Hno row Hin Hd) in Hfl.
    + intros t ids Ht Hnd. destruct (boot_fate (fun _ => None) t ids Hnd) as [_ Hb].
      destruct (Hb row Ht Hfl) as (s3 & E & Hids & Hf).
      { split; [|by exists (match commandOf e proxyPort row with Err x => x | Ok _ => "" end); destruct Hmal as [? ->]].
        unfold decide_. by destruct (truthy (r_runnerNodeId row)). }
      exists s3. split; [done|]. rewrite Hids. split; [|done]. by apply tbl_find_Some in Hf as [? _].
Qed.

(** * Deleting a run that executes *)

(** Deleting a run that is still executing brings the manager down when the run ends:
    the route neither refuses nor stops the job, and whatever the tool then ends with,
    the update of its missing row throws, and so does the handler of that error. *)
Theorem delete_running_crashes parseUrl parseJson id s x rest log r :
  tbl_find id (runs s) <> None -> take_out fst id (executing s) = Some (x, rest) ->
  exists s1 s2 s3, deleteRoute id s = Some s1 /\ cancels s1 = cancels s /\
    settle e parseUrl parseJson id log r s1 = Some (Next s2) /\
    write id s2 = Some (Crash s3) /\ runs s3 = tbl_delete id (runs s).
Proof.
  intros Hf Hx. unfold deleteRoute. destruct (tbl_find id (runs s)) as [row|]; [|done].
  cbn [mbind option_bind]. eexists _, _, _. split; [reflexivity|]. split; [done|].
  assert (tbl_find id (tbl_delete id (runs s)) = None) as Hgone.
  { apply tbl_find_None. by intros y [_ Hy]%elem_of_tbl_delete. }
  split.
  - unfold settle. cbn [executing set_runs]. rewrite Hx. cbn [mbind option_bind].
    cbn [runs set_executing set_runs]. rewrite Hgone. unfold finalize. cbn [fmap option_fmap option_map].
    rewrite bool_decide_false by done. reflexivity.
  - unfold write. cbn [ending set_ending take_out fst]. rewrite String.eqb_refl.
    cbn [mbind option_bind runs set_ending set_executing set_runs]. rewrite Hgone. done.
Qed.

(** * The turns of a boot are steps *)

Section Steps.
Context (parseUrl : string -> option (string * string * string)) (parseJson : string -> jtext).
Context {R : Type} `{HR : Runner R}.

Notation steps := (steps e proxyPort parseUrl parseJson (R := R)).

Lemma bootRow_stale answer row s s' : bootRow answer row s = Next s' -> stale s' = stale s.
Proof.
  rewrite turn. destruct (decide_ _ _); unfold bootFail; [| |destruct (executeRun_cases row s) as [[-> _]|[[err ->] _]]];
    try (destruct (tbl_find _ _); [|done]); by intros [= <-].
Qed.

Lemma bootRows_steps st rows s s' :
  stale s = rows -> bootRows st rows s = Next s' -> steps (Up s) (Up s') /\ stale s' = [].
Proof.
  revert s. induction rows as [|row rest IH]; intros s Hst; cbn [bootRows].
  { intros [= <-]. split; [constructor|done]. }
  destruct (bootRow _ row _) as [s1|s1|s1] eqn:E; [|done..]. intros Hb.
  destruct (IH s1 (bootRow_stale _ _ _ _ E) Hb) as [H1 H2]. split; [|done].
  apply (steps_step e proxyPort parseUrl parseJson _ (Up s1)); [|done]. change (Up s1) with (after (Next s1)).
  apply (step_reconcile e proxyPort parseUrl parseJson (st (r_id row))). unfold Runs.reconcile. by rewrite Hst, E.
Qed.

(** C24: A restart leaves no run behind.  A boot that no request comes in between takes every
    row it finds pending or running, and only those: the old container's own children are
    failed; those on the eval node are failed only when systemd denied their unit, or when
    their job still runs but its reasoning proxy died with the manager (and then the job is
    asked to stop); every other one, in particular one whose agent could not be asked, is
    executing again and unchanged.  It goes down exactly when it comes to a run to be
    executed again on which [executeRun] throws, which it leaves as it was, for the next
    boot. *)
Theorem boot_spec st t ids :
  NoDup (map r_id t) ->
  ((forall r, r ∈ t -> inFlight r = true -> ~ stops_at st r) ->
     exists s, boot st t ids = Next s /\ steps (Up (bootState t ids)) (Up s) /\ stale s = [] /\
       forall r, r ∈ t -> if inFlight r then fate st r s else tbl_find (r_id r) (runs s) = Some r) /\
  (forall r, r ∈ t -> inFlight r = true -> stops_at st r ->
     exists s, boot st t ids = Crash s /\ map r_id (runs s) = map r_id t /\
       tbl_find (r_id r) (runs s) = Some r).
Proof.
  intros Hnd. destruct (boot_fate st t ids Hnd) as [H1 H2]. split; [|exact H2].
  intros Hall. destruct (H1 Hall) as (s & Hb & Hf). exists s.
  destruct (bootRows_steps st _ (bootState t ids) s eq_refl Hb) as [Hs Hst]. by split_and!.
Qed.

End Steps.

End Boot.
