(* ===== verification/BenchConfigFacts.v ===== *)
(** Facts of [BenchConfig] and of the POST route's rules: the limits of an accuracy run,
    and the choice of the eval node. *)
From S2P Require Import Prelude JsNum Schema Recipes Admission Deployments BenchParse BenchConfig Bench BenchFacts.
Import Presets Args.

(** * Numbers in arguments *)

Lemma Qeq_floor_zn z : Qeq_bool (inject_Z z) (inject_Z (Qfloor (inject_Z z))) = true.
Proof. rewrite Qfloor_Z. by apply Qeq_bool_iff. Qed.

Lemma num_str_zn z : num_str (zn z) = pretty z.
Proof. unfold num_str, zn. by rewrite Qeq_floor_zn, Qfloor_Z. Qed.

Lemma positiveInt_zn z : (0 < z)%Z -> positiveInt (Some (zn z)) = Some (zn z).
Proof.
  intros Hz. unfold positiveInt. change (zn z) with (Fin (inject_Z z)) at 1. cbv beta iota.
  rewrite Qeq_floor_zn. cbn [andb]. change (Fin (inject_Z z)) with (zn z). rewrite zn_lt.
  by apply Z.ltb_lt in Hz as ->.
Qed.

(** * The presets *)

#[local] Instance num_eq_dec : EqDecision num.
Proof.
  intros [|a|[n d]] [|b|[n' d']]; try (right; discriminate); [by left| |].
  - destruct (Bool.bool_dec a b) as [->|]; [by left|right; congruence].
  - destruct (decide (n = n')) as [->|]; [|right; congruence].
    destruct (decide (d = d')) as [->|]; [by left|right; congruence].
Defined.

(** What the accuracy presets say of concurrency and timeout. *)
Definition saneb (c : AccuracyConfig) : bool :=
  match ac_numConcurrent c with Some n => bool_decide (n = zn 8) | None => false end &&
  match ac_timeout c with
  | None => true
  | Some t => bool_decide (t = zn 6554) && bool_decide (ac_maxGenToks c = zn 32768)
  end.

Lemma presets_sane p c :
  p ∈ BENCHMARK_PRESETS -> bp_config p = Accuracy c ->
  ac_numConcurrent c = Some (zn 8) /\
  (ac_timeout c = None \/ (ac_timeout c = Some (zn 6554) /\ ac_maxGenToks c = zn 32768)).
Proof.
  intros Hp Hc.
  assert (forallb (fun p => match bp_config p with Accuracy c => saneb c | _ => true end)
            BENCHMARK_PRESETS = true) as Hall by (by vm_compute).
  rewrite forallb_forall in Hall. apply list_elem_of_In in Hp. specialize (Hall p Hp).
  rewrite Hc in Hall. unfold saneb in Hall. apply andb_true_iff in Hall as [H1 H2].
  destruct (ac_numConcurrent c) as [n|]; [|done]. apply bool_decide_eq_true in H1 as ->.
  split; [done|]. destruct (ac_timeout c) as [t|]; [right|by left].
  apply andb_true_iff in H2 as [->%bool_decide_eq_true H2%bool_decide_eq_true]. done.
Qed.

(** * What an accepted request runs *)

Lemma intUpTo_spec hi v z : Post.intUpTo hi v = Some z -> (1 <= z <= hi)%Z.
Proof.
  unfold Post.intUpTo. destruct (Post.toNumber v) as [| |q]; [done|done|].
  destruct (_ && _ && _) eqn:E; [|done]. intros [= <-].
  apply andb_true_iff in E as [[_ H1]%andb_true_iff H2]. lia.
Qed.

Lemma overrides_spec b c c' :
  Post.overrides b c = Ok c' ->
  ((Post.b_numConcurrent b = None /\ ac_numConcurrent c' = ac_numConcurrent c) \/
   (Post.b_numConcurrent b <> None /\
    exists n, ac_numConcurrent c' = Some (zn n) /\ (1 <= n <= 256)%Z)) /\
  ((Post.b_timeout b = None /\ ac_timeout c' = ac_timeout c) \/
   (Post.b_timeout b <> None /\ exists t, ac_timeout c' = Some (zn t) /\ (1 <= t <= 86400)%Z)) /\
  ac_tasks c' = ac_tasks c /\ ac_primaryMetric c' = ac_primaryMetric c /\
  ac_maxGenToks c' = ac_maxGenToks c /\ ac_limit c' = ac_limit c /\ ac_seed c' = ac_seed c.
Proof.
  unfold Post.overrides. intros H. apply bind_Ok in H as (nc & Hnc & H).
  apply bind_Ok in H as (si & _ & H). apply bind_Ok in H as (tm & Htm & H).
  apply Ok_inj in H as <-. cbn. split; [|split; [|done]].
  - destruct (Post.b_numConcurrent b) as [v|]; [|left; by injection Hnc]. right. split; [done|]. ok_inv.
    match goal with G : Post.intUpTo _ _ = Some ?z |- _ => exists z; apply intUpTo_spec in G end. done.
  - destruct (Post.b_timeout b) as [v|]; [|left; by injection Htm]. right. split; [done|]. ok_inv.
    match goal with G : Post.intUpTo _ _ = Some ?z |- _ => exists z; apply intUpTo_spec in G end. done.
Qed.

(** The concurrency and the timeout the tool is given. *)
Lemma concurrency_of b c0 c :
  ac_numConcurrent c0 = Some (zn 8) -> Post.overrides b c0 = Ok c ->
  exists n, (1 <= n <= 256)%Z /\ resolveNumConcurrent (ac_numConcurrent c) = zn n /\
            (Post.b_numConcurrent b = None -> n = 8%Z).
Proof.
  intros Hn0 Hov. destruct (overrides_spec _ _ _ Hov) as ([[_ ->]|[Hb (n & -> & Hr)]] & _).
  - exists 8%Z. rewrite Hn0. split; [lia|]. split; [by vm_compute|done].
  - exists n. unfold resolveNumConcurrent. rewrite positiveInt_zn by lia. done.
Qed.

Lemma timeout_of b c0 c :
  ac_timeout c0 = None \/ (ac_timeout c0 = Some (zn 6554) /\ ac_maxGenToks c0 = zn 32768) ->
  Post.overrides b c0 = Ok c ->
  exists tm, (1 <= tm <= 86400)%Z /\
    default (zn DEFAULT_TIMEOUT_S) (positiveInt (ac_timeout c)) = zn tm /\
    (Post.b_timeout b = None -> tm = 1800%Z \/ (tm = 6554%Z /\ ac_maxGenToks c = zn (5 * 6554 - 2))).
Proof.
  intros Ht0 Hov.
  destruct (overrides_spec _ _ _ Hov) as (_ & [[_ ->]|[Hb (n & -> & Hr)]] & _ & _ & Hg & _).
  - destruct Ht0 as [->|[-> Hg0]].
    + exists 1800%Z. split; [lia|]. split; [done|by left].
    + exists 6554%Z. split; [lia|]. split; [by vm_compute|]. right. by rewrite Hg, Hg0.
  - exists n. rewrite positiveInt_zn by lia. done.
Qed.

Lemma plan_config m d t id b row :
  Post.plan m d t id b = Ok row -> Post.chooseConfig b = Ok (r_config row).
Proof. unfold Post.plan. intros H. ok_inv. done. Qed.

(** An accuracy run the route accepts is one of the presets' tasks within limits the
    request cannot leave: the stored configuration has the preset's tasks, metric, cap,
    sample limit and seed, and the arguments of the tool always name a concurrency
    between 1 and 256, 8 unless the request says otherwise, and a timeout between 1 and
    86,400 seconds; without an override the timeout is the tool's default 1,800 s, or one
    that lets five tokens a second reach the generation cap. *)
Theorem accuracy_limits m d t id b row c baseUrl modelName :
  Post.plan m d t id b = Ok row -> r_config row = Accuracy c ->
  exists pid p c0 n tm,
    truthy (Post.b_presetId b) = Some pid /\ getPreset pid = Some p /\ bp_config p = Accuracy c0 /\
    ac_tasks c = ac_tasks c0 /\ ac_primaryMetric c = ac_primaryMetric c0 /\
    ac_maxGenToks c = ac_maxGenToks c0 /\ ac_limit c = ac_limit c0 /\ ac_seed c = ac_seed c0 /\
    (1 <= n <= 256)%Z /\ (1 <= tm <= 86400)%Z /\
    modelArgs c baseUrl modelName =
      str_join "," ["base_url=" +:+ baseUrl +:+ "/chat/completions"; "model=" +:+ modelName;
                    "num_concurrent=" +:+ pretty n; "timeout=" +:+ pretty tm;
                    "tokenized_requests=False"] /\
    (Post.b_numConcurrent b = None -> n = 8%Z) /\
    (Post.b_timeout b = None ->
       tm = 1800%Z \/ (tm = 6554%Z /\ ac_maxGenToks c = zn (5 * 6554 - 2))).
Proof.
  intros Hp%plan_config Hc. rewrite Hc in Hp. unfold Post.chooseConfig in Hp.
  destruct (truthy (Post.b_presetId b)) as [pid|]; [|done].
  apply bind_Ok in Hp as (p & Hget%of_option_Ok & Hp).
  destruct (bp_config p) as [| |c0] eqn:Hc0; [done|done|].
  apply bind_Ok in Hp as (c1 & Hov & Hp). injection Hp as ->.
  pose proof Hget as Hin. apply js_find_Some in Hin as [Hin _].
  destruct (presets_sane p c0 Hin Hc0) as [Hn0 Ht0].
  pose proof (overrides_spec _ _ _ Hov) as (_ & _ & H1 & H3 & H4 & H5 & H6).
  destruct (concurrency_of _ _ _ Hn0 Hov) as (n & Hnr & Hne & Hn8).
  destruct (timeout_of _ _ _ Ht0 Hov) as (tm & Htr & Hte & Ht18).
  exists pid, p, c0, n, tm. do 8 (split; [done|]). split; [done|]. split; [done|].
  split; [|done]. unfold modelArgs. by rewrite Hne, Hte, !num_str_zn.
Qed.

(** * The eval node *)

(** A benchmark's runner is never a coin flip: a node is chosen exactly when it is the
    online eval node named in the configuration, or, with none named, the only online
    eval node there is. *)
Theorem resolveEvalNode_iff nodes explicitId id :
  EvalNode.resolveEvalNode nodes explicitId = Ok id <->
  match truthy explicitId with
  | Some x => id = x /\ x ∈ map EvalNode.en_id (EvalNode.online nodes)
  | None => exists n, EvalNode.online nodes = [n] /\ EvalNode.en_id n = id
  end.
Proof.
  unfold EvalNode.resolveEvalNode. destruct (truthy explicitId) as [x|].
  - destruct (js_find _ _) as [n|] eqn:E.
    + apply js_find_Some in E as [Hin Hx%String.eqb_eq]. split.
      * intros [= <-]. split; [done|]. apply list_elem_of_fmap. by exists n.
      * intros [-> _]. by rewrite Hx.
    + rewrite js_find_None in E. split; [done|].
      intros [_ (n & -> & Hn)%list_elem_of_fmap]. specialize (E n Hn). by rewrite String.eqb_refl in E.
  - destruct (EvalNode.online nodes) as [|n [|n' l]]; split; try done.
    + by intros (? & ? & _).
    + intros [= <-]. by exists n.
    + by intros (? & [= <-] & <-).
    + by intros (? & ? & _).
Qed.
