(* ===== verification/BenchExamples.v ===== *)
(** The benchmark theorems at concrete inputs, and the defects that concrete runs show. *)
From Stdlib Require Import Lqa.
From S2P Require Import Prelude JsNum Schema Recipes Admission Deployments LaunchArgs Jobs JobsFacts RemoteRun RemoteFacts BenchParse BenchParseFacts BenchConfig BenchConfigFacts Bench BenchFacts BenchBootFacts.
Import Spec JobCap Poll Node Runner Tools Execute Runs.

Definition line1 (s : string) : string := s +:+ String nl "".

(** * A node over time *)

Definition HOME : string := "/home/u".
Definition P1 : job_paths :=
  {| jp_dir := "/home/u/.dgx-agent/jobs/r1"; jp_outputDir := "/home/u/.dgx-agent/jobs/r1/out";
     jp_script := "/home/u/.dgx-agent/jobs/r1/cmd.sh"; jp_log := "/home/u/.dgx-agent/jobs/r1/log";
     jp_exit := "/home/u/.dgx-agent/jobs/r1/exit";
     jp_result := "/home/u/.dgx-agent/jobs/r1/result.json"; jp_unit := "dgxbench-r1" |}.

Lemma P1_paths : paths HOME "r1" = Ok P1.
Proof. by vm_compute. Qed.

Definition shows (load active main : string) : option RunOut :=
  Some {| ro_code := Some 0%Z; ro_stderr := "";
          ro_stdout := line1 ("LoadState=" +:+ load) +:+ line1 ("ActiveState=" +:+ active) +:+
                       line1 ("ExecMainStatus=" +:+ main) |}.

(** The job writes its log in two pieces and has exited with 0 from instant 6 on; the
    call for its status at instant 1 is lost. *)
Definition files1 (t : nat) : files :=
  if (t <? 3)%nat then {[ jp_log P1 := "API returned nu" ]}
  else if (t <? 6)%nat then {[ jp_log P1 := line1 "API returned null content" ]}
  else {[ jp_log P1 := line1 "API returned null content"; jp_exit P1 := "0"; jp_result P1 := "{}" ]}.

Definition tl1 : timeline :=
  {| tl_files := files1; tl_run := fun _ _ => shows "loaded" "active" "0";
     tl_lost := fun o t => match o with OpStatus => (t =? 1)%nat | _ => false end |}.

Definition opts1 : RemoteRunOpts :=
  {| ro_runId := "r1"; ro_nodeId := "n1"; ro_argv := ["uvx"]; ro_resultGlob := None;
     ro_startOffset := None; ro_skipStart := true |}.

#[local] Instance chan1 : Channel instant := node_channel HOME "u" "r1" tl1.

Definition out1 := runTrackedRemote 6 opts1 0%nat.

Example out1_ex :
  out1.1.1.1 = Some (Ok {| sr_exitCode := Some 0%Z; sr_rawOutput := Some "{}" |}) /\
  out1.1.1.2 = 26%Z /\ out1.1.2 = [OnLog "API returned nu"; OnOffset 15%Z; OnLog "ll content"; OnOffset 26%Z].
Proof. by vm_compute. Qed.

(** A function of time with three stages. *)
Lemma stages {A} (f : nat -> A) (a b c : A) t :
  f = (fun t => if (t <? 3)%nat then a else if (t <? 6)%nat then b else c) ->
  (t < 3 /\ f t = a)%nat \/ (3 <= t < 6 /\ f t = b)%nat \/ (6 <= t /\ f t = c)%nat.
Proof. intros ->. destruct (Nat.ltb_spec t 3), (Nat.ltb_spec t 6); auto; lia. Qed.

Lemma grows1 t : exists u,
  default "" (files1 (S t) !! jp_log P1) = (default "" (files1 t !! jp_log P1) +:+ u).
Proof.
  destruct (stages files1 _ _ _ t eq_refl) as [[Ht ->]|[[Ht ->]|[Ht ->]]];
    destruct (stages files1 _ _ _ (S t) eq_refl) as [[Ht' ->]|[[Ht' ->]|[Ht' ->]]]; try lia.
  - by exists "".
  - by exists (line1 "ll content").
  - by exists "".
  - by exists "".
  - by exists "".
Qed.

Lemma remote_refines_witness :
  observed HOME "u" "r1" tl1 P1 opts1 0%nat
    (Ok {| sr_exitCode := Some 0%Z; sr_rawOutput := Some "{}" |}).
Proof.
  destruct out1 as [[[r o] evs] t'] eqn:E.
  pose proof (proj1 out1_ex) as Hr. rewrite E in Hr. cbn in Hr. subst r.
  exact (remote_refines HOME "u" "r1" tl1 P1 P1_paths opts1 6 0%nat _ o evs t' eq_refl E).
Defined.

Lemma verdict1 t : (6 <= t)%nat -> status HOME (tl_run tl1 t) "r1" (files1 t) = Ok (Status (Exited 0)).
Proof.
  intros H. destruct (stages files1 _ _ _ t eq_refl) as [[Ht _]|[[Ht _]|[Ht ->]]]; try lia.
  by vm_compute.
Qed.

Lemma remote_run_ends_witness : is_Some ((runTrackedRemote 7 opts1 0%nat).1.1.1).
Proof.
  apply (remote_run_ends HOME "u" "r1" tl1 opts1 0%nat 6); [done|done|].
  intros t Ht. split; [cbn; apply Nat.eqb_neq; lia|]. exists (Exited 0). split; [|done].
  by apply verdict1.
Defined.

Lemma log_delivered_once_witness :
  text out1.1.2 = no_nl (slice (logAt tl1 P1 out1.2) 0 out1.1.1.2).
Proof.
  destruct out1 as [[[r o] evs] t'] eqn:E.
  destruct (log_delivered_once HOME "u" "r1" tl1 P1 P1_paths grows1 opts1 6 0%nat r o evs t' eq_refl
    ltac:(vm_compute; split; discriminate) E) as [_ H]. exact H.
Defined.

(** The manager's log of that run has the line of the job's log cut in two at the poll
    between its halves: a completion that came back empty is not counted. *)
Theorem chunk_splits_line :
  logFile out1.1.2 = (line1 "API returned nu" +:+ line1 "ll content") /\
  Nulls.countNullCompletions (logFile out1.1.2) = 0%nat /\
  Nulls.countNullCompletions (logAt tl1 P1 out1.2) = 1%nat.
Proof. by vm_compute. Qed.

(** ** A lost answer about the result *)

Definition tl_loses (load active : string) (t0 : nat) : timeline :=
  {| tl_files := fun _ => if String.eqb load "loaded"
                          then {[ jp_exit P1 := "0"; jp_result P1 := "{}" ]}
                          else {[ jp_result P1 := "{}" ]};
     tl_run := fun _ _ => shows load active "0";
     tl_lost := fun o t => match o with OpResult => (t =? t0)%nat | _ => false end |}.

(** One lost answer to [job.result] decides a run: a job that exited 0 with its result file
    in place comes back without output, which fails the run; one whose unit is gone with
    the result file in place is declared vanished. *)
Theorem lost_result_fails_run :
  (runTrackedRemote (H := node_channel HOME "u" "r1" (tl_loses "loaded" "active" 3)) 4 opts1 0%nat).1.1.1 =
    Some (Ok {| sr_exitCode := Some 0%Z; sr_rawOutput := None |}) /\
  (runTrackedRemote (H := node_channel HOME "u" "r1" (tl_loses "not-found" "inactive" 2)) 4 opts1 0%nat).1.1.1 =
    Some (Err (vanished "r1" "n1")) /\
  forall parseJson, finalize (fun _ => None) None None None
      (EndThroughput (ofBenchmark parseJson {| sr_exitCode := Some 0%Z; sr_rawOutput := None |})) =
    Some (failed "llama-benchy exited 0 but produced no result rows").
Proof. split; [by vm_compute|]. split; [by vm_compute|]. done. Qed.

(** While a unit is stopping, its main process may still run and [ExecMainStatus] is 0. *)
Example deactivating_ex :
  parseSystemctlShow (Some 0%Z)
    (line1 "LoadState=loaded" +:+ line1 "ActiveState=deactivating" +:+ line1 "ExecMainStatus=0") "" =
  Exited 0.
Proof. by vm_compute. Qed.

(** ** The agent's side *)

Lemma status_evidence_witness :
  exists p r, paths HOME "r1" = Ok p /\
    tl_run tl1 6 ["systemctl"; "show"; jp_unit p; "-p"; "LoadState"; "-p"; "ActiveState";
                  "-p"; "ExecMainStatus"] = Some r /\
    (((denies r \/ unitRuns r) /\ exists raw, files1 6 !! jp_exit p = Some raw /\ intText (str_trim raw) = Some 0%Z) \/
     ended r 0).
Proof.
  destruct (status_evidence HOME (tl_run tl1 6) "r1" (files1 6) (Exited 0) (verdict1 6 (le_n 6)))
    as (p & r & H1 & H2 & H3 & _).
  by exists p, r.
Defined.

Lemma start_isolated_witness :
  (start HOME "u" [("/home/u/.dgx-agent/jobs/old", 0%Z)] 2000000000 (fun _ => None) "r2" ["uvx"] None
     {[ "/home/u/.dgx-agent/jobs/r1/log" := "x"; "/home/u/.dgx-agent/jobs/old/log" := "y" ]}).2
    !! ("/home/u/.dgx-agent/jobs/r1" +:+ String "/" "log") = Some "x".
Proof.
  rewrite (start_isolated HOME "u" _ _ _ "r2" _ _ _ "r1" P1 "log").
  - by vm_compute.
  - intros d m Hin. apply list_elem_of_singleton in Hin as [= -> ->]. exists "old".
    split; [by vm_compute|by vm_compute].
  - apply P1_paths.
  - done.
  - intros m Hin. apply list_elem_of_singleton in Hin as Hin'. discriminate Hin'.
Defined.

(** * The table of runs *)

Definition E0 : env :=
  {| ev_sharedStorage := "/mnt/tank"; ev_benchySpec := "llama-benchy"; ev_toolEvalSpec := "t";
     ev_lmEvalSpec := "lm-eval"; ev_advertiseHost := Some "10.0.0.1";
     ev_logDir := fun _ => None |}.
Definition url0 (u : string) : option (string * string * string) := None.

(** What [JSON.parse] makes of the one result file there is. *)
Definition mean (z : Z) : json := JObj [("mean", JNum (zn z))].
Definition json0 (s : string) : jtext :=
  if String.eqb s "B" then
    Some (JObj [("benchmarks", JArr [JObj
      [("prompt_size", JNum (zn 128)); ("response_size", JNum (zn 32)); ("context_size", JNum (zn 0));
       ("concurrency", JNum (zn 1)); ("pp_throughput", mean 900); ("tg_throughput", mean 12)]])])
  else None.

Definition db0 : db :=
  {| nodes := [Node "n1" "spark1" (Some "10.0.0.2") "online" "on" None None None None None None None
                 "ready" true false None;
               Node "n2" "eval1" (Some "10.0.0.3") "online" "on" (Some "eval") None None None None None
                 None "ready" true false None];
     models := [ModelRow "m1" "qwen" "vllm" None];
     deployments := [Deployment "d1" (Some "chat") "n1" "m1" "running" None (Some 8000%Z) None None
                       false None None 0];
     clusterNodes := []; metrics := []; finetuneJobs := [] |}.

Definition mode0 : Post.mode := {| Post.md_local := false; Post.md_evalNodeId := None |}.
Definition body0 (preset : option string) (c : option json) : Post.body :=
  {| Post.b_deploymentId := Some "d1"; Post.b_presetId := preset; Post.b_config := c;
     Post.b_numConcurrent := None; Post.b_systemInstruction := None; Post.b_timeout := None |}.

Definition s0 : state := State [] [] [] [] [] [] [].
Definition the_state (o : option outcome) : state :=
  match o with Some (Next s) | Some (Thrown s) | Some (Crash s) => s | None => s0 end.
Definition the_post (id : string) (b : Post.body) (s : state) : state :=
  match post mode0 db0 id b s with Ok s => s | Err _ => s0 end.

(** A run of the preset, from its request to its result. *)
Definition s1 := the_post "r1" (body0 (Some "quick-smoke") None) s0.
Definition s2 := the_state (create E0 7 "r1" s1).
Definition end1 : result string SpawnTrackedResult :=
  Ok {| sr_exitCode := Some 0%Z; sr_rawOutput := Some "B" |}.
Definition s3 := the_state (settle E0 url0 json0 "r1" None end1 s2).
Definition s4 := the_state (write "r1" s3).

Definition q1 : request (W := instant) :=
  LocalRun (Some {| le_code := Some 0%Z; le_resultPath := Some "/r"; le_exists := fun _ => true;
                    le_read := fun _ => Some "B" |}).

Notation reach0 := (reachable E0 7 url0 json0 (R := request (W := instant))).

Lemma s1_eq : post mode0 db0 "r1" (body0 (Some "quick-smoke") None) s0 = Ok s1.
Proof. by vm_compute. Qed.
Lemma s2_eq : create E0 7 "r1" s1 = Some (Next s2).
Proof. by vm_compute. Qed.
Lemma s3_eq : settle E0 url0 json0 "r1" None end1 s2 = Some (Next s3).
Proof. by vm_compute. Qed.
Lemma fresh0 : "r1" ∉ issued s0.
Proof. by intros ?%elem_of_nil. Qed.

Section Trace.
Local Notation more H := (reach_step E0 7 url0 json0 _ _ H).

Lemma reach_s0 : reach0 (Up s0).
Proof. exact (more (reach_init E0 7 url0 json0) (step_boot E0 7 url0 json0 [] [])). Qed.
Lemma reach_s1 : reach0 (Up s1).
Proof. exact (more reach_s0 (step_post E0 7 url0 json0 _ _ _ _ _ _ fresh0 s1_eq)). Qed.
Lemma reach_s2 : reach0 (Up s2).
Proof. exact (more reach_s1 (step_create E0 7 url0 json0 "r1" s1 (Next s2) s2_eq)). Qed.
Lemma reach_s3 : reach0 (Up s3).
Proof. exact (more reach_s2 (step_settle E0 7 url0 json0 q1 "r1" None end1 s2 (Next s3) eq_refl s3_eq)). Qed.
End Trace.

Example life_ex :
  map r_status (runs s2) = ["running"] /\ map fst (executing s2) = ["r1"] /\
  map r_status (runs s4) = ["completed"] /\ map r_rawOutput (runs s4) = [Some "B"].
Proof. by vm_compute. Qed.

Definition row4 : run_row := default (RunRow "" "" None (Presets.Throughput JNull) "" "" "" "" None None 0 None None)
                               (head (runs s4)).


Definition canceled2 : state := default s0 (cancelRoute "r1" s2).
Definition canceled3 : state := default s0 (cancelRoute "r1" s3).

(** Canceled while it executes, the run stays canceled; canceled after its finalizer has
    decided, it ends completed. *)
Lemma cancel_sticks_or_is_lost_witness :
  (("r1" ∈ cancels canceled2) /\
   forall r, r ∈ table (Up canceled2) -> r_id r = "r1" -> r_status r = "canceled") /\
  exists s'' r, write "r1" canceled3 = Some (Next s'') /\ tbl_find "r1" (runs s'') = Some r /\
                r_status r = "completed".
Proof.
  destruct (cancel_sticks_or_is_lost E0 7 url0 json0 (R := request (W := instant)) "r1" s2 canceled2
    reach_s2 ltac:(by vm_compute)) as (H1 & H2 & _).
  destruct (cancel_sticks_or_is_lost E0 7 url0 json0 (R := request (W := instant)) "r1" s3 canceled3
    reach_s3 ltac:(by vm_compute)) as (_ & _ & H3).
  destruct (take_out fst "r1" (ending s3)) as [[x rest]|] eqn:Ex; [|discriminate Ex].
  destruct (H3 x rest eq_refl) as (s'' & r & Hw & Hf & Hs & _).
  assert (pt_status x.2 = "completed") as Hp by (vm_compute in Ex; by injection Ex as <- <-).
  split; [split|].
  - apply H1. left.
  - apply (H2 ltac:(by intros ?%elem_of_nil) ltac:(by intros ?%elem_of_nil) (Up canceled2)). apply steps_refl.
  - exists s'', r. by rewrite <- Hp.
Defined.

Definition booted : state := the_state (Some (boot E0 7 (fun _ => None) (runs s2) ["r1"])).

Definition row2 : run_row := default row4 (head (runs s2)).

(** The agent cannot be asked: the run goes on. *)
Lemma boot_spec_witness : r_status row2 = "running" /\ fate (fun _ => None) row2 booted.
Proof.
  split; [by vm_compute|].
  assert (row2 ∈ runs s2) as Hr by left.
  destruct (boot_spec E0 7 url0 json0 (R := request (W := instant)) (fun _ => None) (runs s2) ["r1"]
    (NoDup_singleton "r1")) as [H _].
  destruct H as (s & Hb & _ & _ & Hf).
  - assert (forallb (fun r => match commandOf E0 7 r with Ok _ => true | Err _ => false end) (runs s2) = true)
      as Hall by (by vm_compute).
    rewrite forallb_forall in Hall. intros r Hin%list_elem_of_In _ [_ [err Herr]].
    specialize (Hall r Hin). by rewrite Herr in Hall.
  - specialize (Hf row2 Hr). unfold booted. rewrite Hb. exact Hf.
Defined.

(** While the boot waits for the agent, a request deletes the run: the turn of a run whose
    unit is gone brings the manager down; or cancels it: the turn overwrites the cancel. *)
Example deleted_before_its_turn :
  (s ← deleteRoute "r1" (bootState (runs s2) ["r1"]); reconcile E0 7 (Some Spec.Missing) s) =
  Some (Crash (State [] ["r1"] [] [] [] [] [])).
Proof. by vm_compute. Qed.
Example canceled_before_its_turn :
  match (s ← cancelRoute "r1" (bootState (runs s2) ["r1"]); reconcile E0 7 (Some Spec.Missing) s) with
  | Some (Next s) => map r_status (runs s) = ["failed"]
  | _ => False
  end.
Proof. by vm_compute. Qed.

Definition bad : run_row :=
  match Post.plan mode0 db0 [] "r9" (body0 None (Some (JObj []))) with Ok r => r | Err _ => row4 end.

Lemma malformed_config_poisons_witness :
  exists s1 s2, post mode0 db0 "r9" (body0 None (Some (JObj []))) s0 = Ok s1 /\
    create E0 7 "r9" s1 = Some (Thrown s2) /\ bad ∈ runs s2 /\
    exists s3, boot E0 7 (fun _ => None) [bad] ["r9"] = Crash s3 /\ bad ∈ runs s3.
Proof.
  destruct (malformed_config_poisons E0 7 mode0 db0 "r9" (body0 None (Some (JObj []))) s0 bad)
    as (a & b & H1 & H2 & H3 & _ & _ & _ & H4).
  - by intros ?%elem_of_nil.
  - by vm_compute.
  - exists "config.pp.map is not a function". by vm_compute.
  - by vm_compute.
  - exists a, b. split; [done|]. split; [done|]. split; [done|].
    destruct (H4 [bad] ["r9"]) as (s3' & Hb & Hin & _); [left|apply NoDup_singleton|].
    by exists s3'.
Defined.

Lemma delete_running_crashes_witness :
  exists a b c, deleteRoute "r1" s2 = Some a /\ cancels a = [] /\
    settle E0 url0 json0 "r1" None end1 a = Some (Next b) /\ write "r1" b = Some (Crash c) /\
    runs c = [].
Proof.
  destruct (take_out fst "r1" (executing s2)) as [[x rest]|] eqn:Ex; [|discriminate Ex].
  exact (delete_running_crashes E0 url0 json0 "r1" s2 x rest None end1 ltac:(by vm_compute) Ex).
Defined.

Lemma wrapper_contract_witness :
  exists s, run q1 = Some (Ok s) /\ sr_exitCode s = Some 0%Z /\ sr_rawOutput s = Some "B".
Proof.
  destruct (runBenchmark json0 q1) as [[r|]|] eqn:Er; [|discriminate Er|discriminate Er].
  destruct (wrapper_contract json0 q1 r Er) as (s & Hs & _ & Hraw & _ & Hx & _).
  exists s. split; [done|]. cbn in Hs. injection Hs as <-. by vm_compute.
Defined.

(** * Parsers *)

Definition rowsB : list Benchy.BenchmarkResultInput :=
  match Benchy.parseBenchyResults (json0 "B") with Ok r => r | Err _ => [] end.

Lemma benchy_headline_witness :
  exists m, Benchy.sm_meanTps (Benchy.summarizeResults rowsB) = Some m /\ (m <= 1000)%Q.
Proof.
  destruct (benchy_headline (json0 "B") rowsB ltac:(by vm_compute)) as (bs & _ & _ & H).
  destruct H as (m & Hm & _); [done|]. exists m. split; [done|].
  vm_compute in Hm. injection Hm as <-. vm_compute. discriminate.
Defined.

(** A result with a [strict-match] of 0 and a [flexible-extract] of 0.68. *)
Definition gpqa : jtext :=
  Some (JObj [("results", JObj [("gpqa", JObj
    [("alias", JStr "gpqa"); ("exact_match,strict-match", JNum (zn 0));
     ("exact_match_stderr,strict-match", JNum (zn 0));
     ("exact_match,flexible-extract", JNum (Fin (17 # 25)));
     ("exact_match_stderr,flexible-extract", JNum (Fin (1 # 100)))])])]).

Definition gpqaSummary : LmEval.LmEvalSummary :=
  match LmEval.parseLmEvalResults gpqa "gpqa" "exact_match" with
  | Ok s => s
  | Err _ => {| LmEval.ls_primaryScore := 0; LmEval.ls_metrics := [] |}
  end.

Example gpqa_ex : Qeq_bool (LmEval.ls_primaryScore gpqaSummary) 68 = true /\
  map LmEval.am_filter (LmEval.ls_metrics gpqaSummary) = [Some "strict-match"; Some "flexible-extract"] /\
  length (Extraction.detectExtractionFindings (LmEval.ls_metrics gpqaSummary)) = 1%nat.
Proof. by vm_compute. Qed.

Lemma lmeval_headline_witness : exists q, LmEval.ls_primaryScore gpqaSummary = (q * 100)%Q.
Proof.
  destruct (lmeval_headline gpqa "gpqa" "exact_match" gpqaSummary ltac:(by vm_compute)) as (q & Hq & _).
  by exists q.
Defined.

Lemma strip_no_tags_witness : Reasoning.stripReasoning " plain " = "plain".
Proof. exact (proj2 (proj2 (strip_no_tags " plain ")) eq_refl eq_refl). Defined.

(** A request with two overrides. *)
Definition body1 : Post.body :=
  {| Post.b_deploymentId := Some "d1"; Post.b_presetId := Some "acc-gpqa-diamond-full-longgen";
     Post.b_config := None; Post.b_numConcurrent := Some (JStr "16"); Post.b_systemInstruction := None;
     Post.b_timeout := None |}.
Definition row1 : run_row := match Post.plan mode0 db0 [] "r5" body1 with Ok r => r | Err _ => row4 end.

Lemma accuracy_limits_witness :
  exists c n tm, r_config row1 = Presets.Accuracy c /\ (1 <= n <= 256)%Z /\ (1 <= tm <= 86400)%Z.
Proof.
  destruct (r_config row1) as [| |c] eqn:Ec; [discriminate Ec|discriminate Ec|].
  destruct (accuracy_limits mode0 db0 [] "r5" body1 row1 c "http://x/v1" "m" ltac:(by vm_compute) Ec)
    as (_ & _ & _ & n & tm & _ & _ & _ & _ & _ & _ & _ & _ & Hn & Ht & _).
  by exists c, n, tm.
Defined.

Example args_ex :
  match r_config row1 with
  | Presets.Accuracy c => Args.modelArgs c "http://x/v1" "m"
  | _ => ""
  end = "base_url=http://x/v1/chat/completions,model=m,num_concurrent=16,timeout=6554,tokenized_requests=False".
Proof. by vm_compute. Qed.
