(* ===== verification/TrainParse.v ===== *)
(** What an agent reads in the output of a training (runtime/finetune.ts): the phase a
    line announces and the figures it carries, in [Parse]; the estimate of the time
    left, in [Speed]; what the handlers of the output, of a training it launched and of
    one it found running, report for a chunk, in [Output].

    Lines are bytes taken as ASCII: a progress bar's blocks are some bytes that are no
    [|].  A figure is the exact value of its text. *)
From S2P Require Import Prelude JsNum Recipes AgentHealth.
Import AgentHealth.Lines.

Module Speed.

(** [SpeedSmoother]: the samples, oldest first. *)
Definition samples := list num.
Definition maxSamples : nat := 20.

Definition push (speed : num) (s : samples) : samples :=
  if num_lt (zn 0) speed then
    let s := s ++ [speed] in if (maxSamples <? length s)%nat then drop 1 s else s
  else s.

(** [a / n] for a positive [n]. *)
Definition div_nat (a : num) (n : nat) : num :=
  match a with Fin q => Fin (q / inject_Z (Z.of_nat n))%Q | _ => a end.

Definition average (s : samples) : num :=
  match s with [] => zn 0 | _ => div_nat (foldl num_add (zn 0) s) (length s) end.

(** [Math.round(remaining / avg)] for an average that is not a number, infinite, or positive. *)
Definition quotient (remaining : Z) (avg : num) : num :=
  match avg with
  | NaN => NaN
  | Inf _ => zn 0
  | Fin q => zn (round_q (inject_Z remaining / q)%Q)
  end.

Definition eta (remaining : Z) (s : samples) : option num :=
  let avg := average s in
  if num_le avg (zn 0) || (remaining <=? 0)%Z then None else Some (quotient remaining avg).

End Speed.

Module Parse.

Inductive TrainingPhase :=
  | container | setup | downloading | loading | tokenizing | training | eval | saving.

#[export] Instance TrainingPhase_eq : EqDecision TrainingPhase.
Proof. solve_decision. Defined.

Definition phase_text (p : TrainingPhase) : string :=
  match p with
  | container => "container" | setup => "setup" | downloading => "downloading"
  | loading => "loading" | tokenizing => "tokenizing" | training => "training"
  | eval => "eval" | saving => "saving"
  end.

Record ProgressInfo := {
  pi_phase : TrainingPhase; pi_phaseProgress : option num; pi_step : option Z;
  pi_totalSteps : option Z; pi_loss : option num; pi_lr : option num;
  pi_evalLoss : option num; pi_iterSpeed : option num }.

Definition quoted (s : string) : string := String sq (s +:+ String sq "").

Definition detectPhase (line : string) : option TrainingPhase :=
  let l := str_lower line in
  let has s := str_includes s l in
  if has "starting container" || has "pulling image" then Some container
  else if has "container ready" || has "=== ready ===" then Some setup
  else if has "downloading" || (has "fetching" && (has "files" || has "model")) then Some downloading
  else if has "loading model" || has "loading weights" || has "from_pretrained" || has "model loaded"
    then Some loading
  else if has "tokeniz" then Some tokenizing
  else if has "[train]" || has "starting training" || has (quoted "loss") then Some training
  else if has "eval_loss" || has "evaluation" || has "running eval" then Some eval
  else if has "lora adapter saved" || has "save_pretrained" then Some saving
  else None.

(** An exponent, or nothing, at the front. *)
Definition exponentPrefix (s : string) : Z :=
  match s with
  | String c r =>
      if Ascii.eqb (lower_char c) "e" then
        let '(sign, r) := match r with
          | String "+" t => (1%Z, t) | String "-" t => ((-1)%Z, t) | _ => (1%Z, r) end in
        let '(v, _, _) := digits 10 0 0 r in (sign * v)%Z
      else 0%Z
  | EmptyString => 0%Z
  end.

(** [parseFloat]: the value of the longest prefix that is a decimal literal. *)
Definition parseFloat (s : string) : num :=
  let '(neg, t) := match s with
    | String "-" r => (true, r) | String "+" r => (false, r) | _ => (false, s) end in
  let '(i, ni, r) := digits 10 0 0 t in
  let '(f, nf, r) := match r with String "." u => digits 10 0 0 u | _ => (0%Z, 0%nat, r) end in
  if (ni + nf =? 0)%nat then NaN
  else let q := ((inject_Z i + inject_Z f * q_pow10 (- Z.of_nat nf)) * q_pow10 (exponentPrefix r))%Q in
       Fin (if neg : bool then (- q)%Q else q).

(** [parseInt] of a text of digits. *)
Definition parseDigits (s : string) : Z := let '(v, _, _) := digits 10 0 0 s in v.

Definition number_char (c : ascii) : bool := is_digit c || Ascii.eqb c ".".
Definition lr_char (c : ascii) : bool :=
  number_char c || Ascii.eqb c "e" || Ascii.eqb c "E" || Ascii.eqb c "+" || Ascii.eqb c "-".
Definition loss_char (c : ascii) : bool := lr_char c || Ascii.eqb c "?".

(** [[TRAIN]\s+step=(\d+)\/(\d+)\s+loss=([\d.eE+\-?]+)(?:\s+lr=([\d.eE+\-]+))?] *)
Definition trainLogAt (s : string) : option (string * string * string * option string) :=
  s ← eat "[TRAIN]" s; '(_, s) ← span1 is_ws s; s ← eat "step=" s;
  '(step, total, s) ← ratio s; '(_, s) ← span1 is_ws s; s ← eat "loss=" s;
  '(loss, s) ← span1 loss_char s;
  Some (step, total, loss,
        '(_, s) ← span1 is_ws s; s ← eat "lr=" s; '(lr, _) ← span1 lr_char s; Some lr).

(** [[EVAL]\s+eval_loss=([\d.]+)] *)
Definition evalLogAt (s : string) : option string :=
  s ← eat "[EVAL]" s; '(_, s) ← span1 is_ws s; s ← eat "eval_loss=" s;
  '(v, _) ← span1 number_char s; Some v.

(** [\{'key':\s*'?([\d.]+)] *)
Definition dictAt (key : string) (s : string) : option string :=
  s ← eat ("{" +:+ quoted key +:+ ":") s;
  let '(_, s) := span is_ws s in
  let s := match eat (String sq "") s with Some r => r | None => s end in
  '(v, _) ← span1 number_char s; Some v.

(** [.*\|\s*(\d+)\/(\d+)]: after the last bar that fits. *)
Fixpoint afterBar (s : string) : option (string * string) :=
  match s with
  | EmptyString => None
  | String c r =>
      match afterBar r with
      | Some x => Some x
      | None => if Ascii.eqb c "|" then '(a, b, _) ← ratio (span is_ws r).2; Some (a, b) else None
      end
  end.

(** [\s*(\d+)%\|.*\|\s*(\d+)\/(\d+)] *)
Definition tqdmAt (s : string) : option (string * string * string) :=
  let '(_, s) := span is_ws s in
  '(pct, s) ← span1 is_digit s; s ← eat "%|" s; '(a, b) ← afterBar s; Some (pct, a, b).

(** [([\d.]+)\s*unit] *)
Definition rateAt (unit s : string) : option string :=
  '(v, s) ← span1 number_char s; let '(_, s) := span is_ws s in _ ← eat unit s; Some v.

(** [loss[=:]\s*([\d.]+)] whatever the case. *)
Definition barLossAt (s : string) : option string :=
  if String.eqb (str_lower (str_take 4 s)) "loss" then
    let s := str_drop 4 s in
    s ← match eat "=" s with Some r => Some r | None => eat ":" s end;
    let '(_, s) := span is_ws s in '(v, _) ← span1 number_char s; Some v
  else None.

(** [1 / v] *)
Definition inverse (v : num) : num :=
  match v with
  | Fin q => if Qeq_bool q 0 then Inf false else Fin (/ q)
  | Inf _ => zn 0
  | NaN => NaN
  end.

Definition iterSpeed (line : string) : option num :=
  match leftmost (rateAt "it/s") line with
  | Some v => Some (parseFloat v)
  | None =>
      match leftmost (rateAt "s/it") line with
      | Some v => Some (inverse (parseFloat v))
      | None => parseFloat <$> leftmost (rateAt "examples/s") line
      end
  end.

(** [total > 0 ? step / total : 0] *)
Definition fraction (step total : Z) : num :=
  if (0 <? total)%Z then Fin (inject_Z step / inject_Z total) else zn 0.

Definition percent (pct : string) : num := Fin (inject_Z (parseDigits pct) / 100)%Q.

Definition figures (p : TrainingPhase) (loss evalLoss : option num) : ProgressInfo :=
  {| pi_phase := p; pi_phaseProgress := None; pi_step := None; pi_totalSteps := None;
     pi_loss := loss; pi_lr := None; pi_evalLoss := evalLoss; pi_iterSpeed := None |}.

(** A progress bar is the bar of the current phase. *)
Definition barProgress (line : string) (currentPhase : TrainingPhase) (pct current total : string) :
    ProgressInfo :=
  let speed := iterSpeed line in
  match currentPhase with
  | training =>
      let current := parseDigits current in
      let total := parseDigits total in
      {| pi_phase := training; pi_phaseProgress := Some (fraction current total);
         pi_step := Some current; pi_totalSteps := Some total;
         pi_loss := parseFloat <$> leftmost barLossAt line; pi_lr := None; pi_evalLoss := None;
         pi_iterSpeed := speed |}
  | p =>
      {| pi_phase := p; pi_phaseProgress := Some (percent pct); pi_step := None;
         pi_totalSteps := None; pi_loss := None; pi_lr := None; pi_evalLoss := None;
         pi_iterSpeed := speed |}
  end.

Definition trainLog (step total loss : string) (lr : option string) : ProgressInfo :=
  let step := parseDigits step in
  let total := parseDigits total in
  {| pi_phase := training; pi_phaseProgress := Some (fraction step total);
     pi_step := Some step; pi_totalSteps := Some total;
     pi_loss := if String.eqb loss "?" then None else Some (parseFloat loss);
     pi_lr := parseFloat <$> lr; pi_evalLoss := None; pi_iterSpeed := None |}.

Definition parseProgress (line : string) (currentPhase : TrainingPhase) : option ProgressInfo :=
  match leftmost trainLogAt line with
  | Some (step, total, loss, lr) => Some (trainLog step total loss lr)
  | None =>
      match leftmost evalLogAt line with
      | Some v => Some (figures eval None (Some (parseFloat v)))
      | None =>
          match leftmost (dictAt "loss") line with
          | Some v => Some (figures training (Some (parseFloat v)) None)
          | None =>
              match leftmost tqdmAt line with
              | Some (pct, a, b) => Some (barProgress line currentPhase pct a b)
              | None =>
                  match leftmost (dictAt "eval_loss") line with
                  | Some v => Some (figures eval (Some (parseFloat v)) None)
                  | None => None
                  end
              end
          end
      end
  end.

End Parse.

Module Output.
Import Parse Speed.

(** The arguments of [onProgress], or what the handler of a reattached log sends. *)
Record update := {
  up_phase : TrainingPhase; up_phaseProgress : num; up_step : option Z; up_totalSteps : option Z;
  up_loss : option num; up_lr : option num; up_evalLoss : option num; up_eta : option num }.

(** The variables the handler closes over. *)
Record meter := { mt_phase : TrainingPhase; mt_samples : samples }.

Definition phaseUpdate (p : TrainingPhase) (progress : num) : update :=
  {| up_phase := p; up_phaseProgress := progress; up_step := None; up_totalSteps := None;
     up_loss := None; up_lr := None; up_evalLoss := None; up_eta := None |}.

(** A phase the line announces: it begins at 0, with the samples dropped when the agent
    launched the training itself ([resets]). *)
Definition announced (resets : bool) (line : string) (m : meter) : meter * list update :=
  match detectPhase line with
  | Some p =>
      if decide (p = mt_phase m) then (m, [])
      else ({| mt_phase := p; mt_samples := if resets then [] else mt_samples m |},
            [phaseUpdate p (zn 0)])
  | None => (m, [])
  end.

(** [if (progress.iterSpeed)] *)
Definition fed (speed : option num) (s : samples) : samples :=
  match speed with Some v => if num_truthy v then push v s else s | None => s end.

Definition timeLeft (p : ProgressInfo) (s : samples) : option num :=
  match pi_step p, pi_totalSteps p with
  | Some step, Some total => eta (total - step) s
  | _, _ => None
  end.

Definition measured (line : string) (m : meter) : meter * list update :=
  match parseProgress line (mt_phase m) with
  | None => (m, [])
  | Some p =>
      let s := fed (pi_iterSpeed p) (mt_samples m) in
      ({| mt_phase := pi_phase p; mt_samples := s |},
       match pi_phaseProgress p with
       | Some x =>
           [{| up_phase := pi_phase p; up_phaseProgress := x; up_step := pi_step p;
               up_totalSteps := pi_totalSteps p; up_loss := pi_loss p; up_lr := pi_lr p;
               up_evalLoss := pi_evalLoss p; up_eta := timeLeft p s |}]
       | None =>
           match pi_loss p, pi_evalLoss p with
           | None, None => []
           | l, e => [{| up_phase := pi_phase p; up_phaseProgress := zn (-1); up_step := None;
                         up_totalSteps := None; up_loss := l; up_lr := pi_lr p;
                         up_evalLoss := e; up_eta := None |}]
           end
       end)
  end.

Definition handleLine (resets : bool) (line : string) (m : meter) : meter * list update :=
  let '(m, us) := announced resets line m in
  let '(m, vs) := measured line m in (m, us ++ vs).

(** [text.split(/[\n\r]+/)] without the pieces [line.trim()] leaves nothing of. *)
Definition is_break (c : ascii) : bool := Ascii.eqb c nl || Ascii.eqb c (ascii_of_nat 13).

Fixpoint pieces (s : string) : list string :=
  match s with
  | EmptyString => [""]
  | String c r =>
      if is_break c then "" :: pieces r
      else match pieces r with p :: ps => String c p :: ps | [] => [String c ""] end
  end.

Definition lines (text : string) : list string :=
  List.filter (fun l => negb (String.eqb (str_trim l) "")) (pieces text).

Fixpoint handleLines (resets : bool) (ls : list string) (m : meter) : meter * list update :=
  match ls with
  | [] => (m, [])
  | l :: ls =>
      let '(m, us) := handleLine resets l m in
      let '(m, vs) := handleLines resets ls m in (m, us ++ vs)
  end.

Definition handleOutput (text : string) (m : meter) : meter * list update :=
  handleLines true (lines text) m.

(** ** A log found running *)

(** [/marker (\S+)/i]: what follows the marker, in the line's own case. *)
Definition savedAt (marker s : string) : option string :=
  if String.eqb (str_lower (str_take (String.length marker) s)) (str_lower marker)
  then '(p, _) ← span1 (fun c => negb (is_ws c)) (str_drop (String.length marker) s); Some p
  else None.

Definition successMarker (isMerge : bool) (line : string) : option string :=
  leftmost (savedAt (if isMerge then "Merged model saved to " else "LoRA adapter saved to ")) line.

(** The alternatives of the pattern, whatever the case. *)
Definition failureMarker (line : string) : bool :=
  let l := str_lower line in
  existsb (fun s => str_includes s l)
    ["traceback (most recent call last)"; "runtimeerror"; "failed"; "train.py failed"; "merge.py failed"].

Inductive ending := Completed (output : string) | Failed_.

Record follower := { fo_meter : meter; fo_emitted : bool }.

Inductive followed := Progress (u : update) | Ended (e : ending).

Definition followLine (isMerge : bool) (line : string) (f : follower) : follower * list followed :=
  let '(m, us) := handleLine false line (fo_meter f) in
  let out := map Progress us in
  if fo_emitted f then ({| fo_meter := m; fo_emitted := true |}, out)
  else match successMarker isMerge line with
    | Some p => ({| fo_meter := m; fo_emitted := true |}, out ++ [Ended (Completed p)])
    | None =>
        if failureMarker line
        then ({| fo_meter := m; fo_emitted := true |}, out ++ [Ended Failed_])
        else ({| fo_meter := m; fo_emitted := false |}, out)
    end.

Fixpoint followLines (isMerge : bool) (ls : list string) (f : follower) : follower * list followed :=
  match ls with
  | [] => (f, [])
  | l :: ls =>
      let '(f, us) := followLine isMerge l f in
      let '(f, vs) := followLines isMerge ls f in (f, us ++ vs)
  end.

Definition handleReattach (isMerge : bool) (text : string) (f : follower) : follower * list followed :=
  followLines isMerge (lines text) f.

End Output.
