(* ===== verification/AgentTrain.v ===== *)
(** A node's fine-tune jobs (runtime/finetune.ts and the [cmd:finetune:*] cases of
    agent/src/index.ts): the command lines of a training, in [Args]; the jobs the agent
    launches, watches and stops as a step relation over the containers of its node and
    of the workers, in [Machine]; the merge of an adapter, in [Merge].

    A stretch of code between two awaits is one step, [execSync] included: nothing else
    runs in between.  What docker and ssh answer is the event's, except that a command in
    a container needs it to run and that a name can be taken once.  The log texts sent on
    the way are not modelled.  The entries of an object are listed in the order
    [Object.entries] gives them. *)
From S2P Require Import Prelude JsNum Recipes AgentHub TrainParse.
Import Parse Output.

Module Args.

Definition WORKSPACE : string := "/workspace".

Section Paths.
Context (SHARED_STORAGE : string).

(** The first occurrence of [sub] replaced, for [s.replace(sub, by)]. *)
Fixpoint replace_first (sub by_ s : string) : string :=
  match strip_prefix sub s with
  | Some r => by_ +:+ r
  | None => match s with String c r => String c (replace_first sub by_ r) | EmptyString => "" end
  end.

Definition toContainerPath (p : string) : string :=
  replace_first (SHARED_STORAGE +:+ "/") (WORKSPACE +:+ "/") p.
Definition toHostPath (p : string) : string :=
  replace_first (WORKSPACE +:+ "/") (SHARED_STORAGE +:+ "/") p.
End Paths.

(** What [discoverTrainingRecipes] gives of a recipe, as far as a launch reads it. *)
Record recipe := {
  rc_file : string; rc_base_model : string; rc_image : string; rc_build_context : option string;
  rc_entrypoint : string; rc_launch : string; rc_defaults : list (string * json) }.

(** [cmd:finetune:start] *)
Record order := {
  or_jobId : string; or_recipeFile : string; or_dataset : string; or_outputDir : string;
  or_config : list (string * json); or_clusterNodeIps : option (list string);
  or_resume : bool }.

(** The agent's environment. *)
Record environment := {
  en_shared : string; en_hfToken : option string; en_sshUser : string; en_home : string;
  en_infiniband : bool }.

(** [isMultiNode] and the nodes it launches workers on. *)
Definition isMultiNode (o : order) : bool := (1 <? length (default [] (or_clusterNodeIps o)))%nat.
Definition workerIps (o : order) : option (list string) :=
  if isMultiNode o then Some (tail (default [] (or_clusterNodeIps o))) else None.

Definition containerName (jobId : string) : string := "dgx-finetune-" +:+ str_take 12 jobId.

Definition repoPath : string := WORKSPACE +:+ "/src/github/dgx-manager-fine-tune-recipes/".
Definition entrypointPath (o : order) (r : recipe) : string :=
  repoPath +:+ or_recipeFile o +:+ "/" +:+ rc_entrypoint r.
Definition launchPath (o : order) (r : recipe) : string :=
  repoPath +:+ or_recipeFile o +:+ "/" +:+ rc_launch r.

Definition NCCL : list string :=
  ["NCCL_IB_DISABLE=0"; "NCCL_SOCKET_IFNAME=enp1s0f0np0"; "GLOO_SOCKET_IFNAME=enp1s0f0np0";
   "NCCL_IB_HCA=rocep1s0f0"].

Definition flagged (flag : string) (vs : list string) : list string := flat_map (fun v => [flag; v]) vs.

(** The words of the head's [docker run]. *)
Definition dockerArgs (e : environment) (o : order) (r : recipe) : list string :=
  ["run"; "-d"; "--name"; containerName (or_jobId o); "--gpus"; "all"; "--network"; "host";
   "--ipc"; "host"; "--privileged"; "--ulimit"; "memlock=-1"; "--shm-size=1g"; "--user"; "root"] ++
  flagged "-e" ["CUDA_VISIBLE_DEVICES=0"; "PYTHONUNBUFFERED=1"; "HF_HOME=" +:+ WORKSPACE +:+ "/models";
                "HF_HUB_OFFLINE=0"; "HF_DATASETS_CACHE=/tmp/hf_datasets_cache"] ++
  match truthy (en_hfToken e) with Some t => ["-e"; "HF_TOKEN=" +:+ t] | None => [] end ++
  (if en_infiniband e then "--device=/dev/infiniband/" :: flagged "-e" NCCL else []) ++
  ["-v"; en_shared e +:+ ":" +:+ WORKSPACE] ++
  (if isMultiNode o then ["-v"; en_home e +:+ "/.ssh:/tmp/.ssh:ro"] else []) ++
  ["--entrypoint"; "bash"; rc_image r; entrypointPath o r].

(** A worker's [docker run]; [filter(Boolean)] drops an absent token. *)
Definition workerDockerCmd (e : environment) (o : order) (r : recipe) : string :=
  str_join " " (List.filter (fun s => negb (String.eqb s ""))
    (["docker run -d"; "--name " +:+ containerName (or_jobId o);
      "--gpus all --network host --ipc host --privileged";
      "--ulimit memlock=-1 --shm-size=1g --user root";
      "-e CUDA_VISIBLE_DEVICES=0 -e PYTHONUNBUFFERED=1";
      "-e HF_HOME=" +:+ WORKSPACE +:+ "/models -e HF_HUB_OFFLINE=0"] ++
     map (fun v => "-e " +:+ v) NCCL ++
     ["--device=/dev/infiniband/";
      match truthy (en_hfToken e) with Some t => "-e HF_TOKEN=" +:+ t | None => "" end;
      "-v " +:+ en_shared e +:+ ":" +:+ WORKSPACE;
      "-v /home/" +:+ en_sshUser e +:+ "/.ssh:/tmp/.ssh:ro";
      "--entrypoint bash " +:+ rc_image r; entrypointPath o r])).

Definition resolvedDataset (e : environment) (o : order) : string :=
  if String.prefix (en_shared e +:+ "/") (or_dataset o)
  then toContainerPath (en_shared e) (or_dataset o) else or_dataset o.

(** [merged] as command-line arguments: [null] and the target modules are left out of the loop. *)
Definition configArgs (merged : list (string * json)) : list string :=
  flat_map (fun '(k, v) =>
    match v with
    | JNull => []
    | _ => if String.eqb k "lora_target_modules" then [] else ["--" +:+ k; Recipe.string_of v]
    end) merged ++
  match obj_get merged "lora_target_modules" with
  | Some v => if jtruthy (Some v) then ["--lora_target_modules"; Recipe.string_of v] else []
  | None => []
  end.

Definition trainArgs (e : environment) (o : order) (r : recipe) : list string :=
  ["--model_name"; rc_base_model r; "--dataset"; resolvedDataset e o; "--output_dir"; or_outputDir o] ++
  configArgs (obj_spread (rc_defaults r) (or_config o)) ++
  (if or_resume o then ["--resume_from_checkpoint"; "true"] else []).

Definition hostfileArgs : list string := ["--hostfile"; "/tmp/hostfile.txt"].

(** What [docker exec] starts in the head's container. *)
Definition headCommand (e : environment) (o : order) (r : recipe) : list string :=
  "bash" :: launchPath o r :: (if isMultiNode o then hostfileArgs else []) ++ trainArgs e o r.

(** What [bash -c] is given in a worker's container: the arguments, joined, and a log. *)
Definition workerCommand (e : environment) (o : order) (r : recipe) : string :=
  "bash " +:+ launchPath o r +:+ " --hostfile /tmp/hostfile.txt " +:+ str_join " " (trainArgs e o r).

Definition workerLogPath (o : order) (ip : string) : string :=
  or_outputDir o +:+ "/worker-" +:+ str_map (fun c => if Ascii.eqb c "." then "_" else c)%char ip +:+ ".log".

Definition workerLaunchCmd (e : environment) (o : order) (r : recipe) (ip : string) : string :=
  "docker exec -d " +:+ containerName (or_jobId o) +:+ " bash -c " +:+
  quoted (workerCommand e o r +:+ " > " +:+ workerLogPath o ip +:+ " 2>&1").

Definition hostfileContent (o : order) : string :=
  str_join (String bs "n") (map (fun ip => ip +:+ " slots=1") (default [] (or_clusterNodeIps o))).

End Args.

Module Machine.
Import Args.

(** A host is the agent's node ([None]) or a worker. *)
Notation containers := (gmap (option string * string) bool).

Definition isRunning (d : containers) (h : option string) (name : string) : bool :=
  match d !! (h, name) with Some b => b | None => false end.

(** The process of a job: not started, running, or ended. *)
Inductive proc := NotStarted | Alive | Gone.

#[export] Instance proc_eq : EqDecision proc.
Proof. solve_decision. Defined.

(** [FinetuneInstance], and what the closures of its launch keep: the meter of its output.
    [in_follows] is a log found running instead of a launch: whether it is a merge's, and
    whether its end was sent. *)
Record instance := {
  in_jobId : string; in_containerName : string; in_workerIps : option (list string);
  in_aborted : bool; in_proc : proc; in_watchdog : bool; in_meter : meter; in_outputDir : string;
  in_follows : option (bool * bool) }.

Definition with_aborted (i : instance) : instance :=
  Build_instance (in_jobId i) (in_containerName i) (in_workerIps i) true (in_proc i)
    (in_watchdog i) (in_meter i) (in_outputDir i) (in_follows i).
Definition with_proc (p : proc) (i : instance) : instance :=
  Build_instance (in_jobId i) (in_containerName i) (in_workerIps i) (in_aborted i) p
    (in_watchdog i) (in_meter i) (in_outputDir i) (in_follows i).
Definition with_watchdog (b : bool) (i : instance) : instance :=
  Build_instance (in_jobId i) (in_containerName i) (in_workerIps i) (in_aborted i) (in_proc i)
    b (in_meter i) (in_outputDir i) (in_follows i).
Definition with_output (m : meter) (f : option (bool * bool)) (i : instance) : instance :=
  Build_instance (in_jobId i) (in_containerName i) (in_workerIps i) (in_aborted i) (in_proc i)
    (in_watchdog i) m (in_outputDir i) f.

(** Where a launch waits: for the import of the recipes; for an image to build; between two
    probes of its container, since [start]; between two probes of the first of the workers
    left.  The number is the instance its closure holds. *)
Inductive task :=
  | TImport (o : order)
  | TBuild (o : order) (rc : recipe) (r : nat)
  | TReady (o : order) (rc : recipe) (r : nat) (start : Z)
  | TWorker (o : order) (rc : recipe) (r : nat) (ip : string) (rest : list string) (attempt : nat).

Definition task_ref (t : task) : option nat :=
  match t with
  | TImport _ => None
  | TBuild _ _ r | TReady _ _ r _ | TWorker _ _ r _ _ _ => Some r
  end.

(** [ag_heap]: the instances ever made, [ag_running] the map [running] into it.
    [ag_outputs]: the directories of the shared storage, with the list of workers kept there.
    [ag_open]: whether [ws.readyState] is [OPEN].  [ag_log]: the messages [sendMsg] was
    given, each with whether the socket was open then. *)
Record agent := {
  ag_heap : list instance; ag_running : gmap string nat; ag_tasks : list task;
  ag_docker : containers; ag_outputs : gmap string (option (list string));
  ag_log : list (bool * message); ag_open : bool }.

Definition init : agent :=
  {| ag_heap := []; ag_running := ∅; ag_tasks := []; ag_docker := ∅; ag_outputs := ∅;
     ag_log := []; ag_open := true |}.

Definition went (up : bool) (m : bool * message) : option message :=
  if Bool.eqb m.1 up then Some m.2 else None.

(** What went out, and what was dropped because the link was down. *)
Definition ag_sent (a : agent) : list message := omap (went true) (ag_log a).
Definition ag_lost (a : agent) : list message := omap (went false) (ag_log a).

Definition set_heap f a := Build_agent (f (ag_heap a)) (ag_running a) (ag_tasks a) (ag_docker a) (ag_outputs a) (ag_log a) (ag_open a).
Definition set_running f a := Build_agent (ag_heap a) (f (ag_running a)) (ag_tasks a) (ag_docker a) (ag_outputs a) (ag_log a) (ag_open a).
Definition set_tasks f a := Build_agent (ag_heap a) (ag_running a) (f (ag_tasks a)) (ag_docker a) (ag_outputs a) (ag_log a) (ag_open a).
Definition set_docker f a := Build_agent (ag_heap a) (ag_running a) (ag_tasks a) (f (ag_docker a)) (ag_outputs a) (ag_log a) (ag_open a).
Definition set_outputs f a := Build_agent (ag_heap a) (ag_running a) (ag_tasks a) (ag_docker a) (f (ag_outputs a)) (ag_log a) (ag_open a).
Definition set_open (up : bool) a := Build_agent (ag_heap a) (ag_running a) (ag_tasks a) (ag_docker a) (ag_outputs a) (ag_log a) up.

(** [sendMsg]: only an open socket takes a message. *)
Definition send (ms : list message) a :=
  Build_agent (ag_heap a) (ag_running a) (ag_tasks a) (ag_docker a) (ag_outputs a)
    (ag_log a ++ map (pair (ag_open a)) ms) (ag_open a).

Definition spawn (t : task) : agent -> agent := set_tasks (fun ts => ts ++ [t]).
Definition settle (i : nat) : agent -> agent := set_tasks (delete i).
Definition advance (i : nat) (t : task) : agent -> agent := set_tasks <[i := t]>.
Definition update_ref (r : nat) (f : instance -> instance) : agent -> agent := set_heap (alter f r).

(** ** Messages *)

Definition complete (jobId status : string) (outputPath error : option string) : message :=
  FinetuneComplete jobId status outputPath error.
Definition failed (jobId error : string) : message := complete jobId "failed" None (Some error).

(** A number survives [JSON.stringify] when it is finite; otherwise it arrives as [null]. *)
Definition wire (n : num) : option num := if is_finite n then Some n else None.

Definition progressMessage (jobId : string) (u : update) : message :=
  FinetuneProgress
    {| pm_jobId := jobId; pm_phase := phase_text (up_phase u);
       pm_phaseProgress := wire (up_phaseProgress u); pm_step := up_step u;
       pm_loss := l ← up_loss u; wire l; pm_lr := l ← up_lr u; wire l;
       pm_evalLoss := l ← up_evalLoss u; wire l |}.

(** ** Docker *)

(** What a command the code runs is answered.  [an_ok] of a [docker exec] is only asked
    when the container runs, that of a [docker run] when the name is free. *)
Inductive call :=
  | CMkdir | CInspect | CPull | CRun | CProbe | CHostfile | CRm
  | CWorkerRun (ip : string) | CWorkerProbe (ip : string) | CWorkerHostfile (ip : string)
  | CWorkerLaunch (ip : string) | CWorkerRm (ip : string).

Record answers := { an_ok : call -> bool; an_error : string; an_now : Z }.

Definition rm (ok : bool) (h : option string) (name : string) (d : containers) : containers :=
  if ok then delete (h, name) d else d.

(** A name is given to one container at a time, running or not. *)
Definition nameFree (d : containers) (h : option string) (name : string) : bool :=
  bool_decide (d !! (h, name) = None).

Definition rmWorkers (x : answers) (name : string) (ips : list string) (d : containers) : containers :=
  foldl (fun d ip => rm (an_ok x (CWorkerRm ip)) (Some ip) name d) d ips.

(** [cleanup]: the timer and the workers are those of the job's entry, if it has one. *)
Definition cleanup (x : answers) (name jobId : string) (a : agent) : agent :=
  let entry := ag_running a !! jobId in
  let ips := default [] (r ← entry; i ← ag_heap a !! r; in_workerIps i) in
  let a := match entry with Some r => update_ref r (with_watchdog false) a | None => a end in
  let a := set_docker (fun d => rm (an_ok x CRm) None name (rmWorkers x name ips d)) a in
  set_running (delete jobId) a.

(** [onComplete("failed", ...)], [cleanup], and the launch is over. *)
Definition fail_ (x : answers) (i : nat) (o : order) (error : string) (a : agent) : agent :=
  cleanup x (containerName (or_jobId o)) (or_jobId o)
    (send [failed (or_jobId o) error] (settle i a)).

Definition thrown (x : answers) (i : nat) (o : order) (a : agent) : agent :=
  fail_ x i o ("Failed to start training: " +:+ an_error x) a.

(** [if (instance.aborted) { cleanup(...); return; }] *)
Definition isAborted (r : nat) (a : agent) : bool :=
  match ag_heap a !! r with Some i => in_aborted i | None => false end.

Definition withdraw (x : answers) (i : nat) (o : order) (a : agent) : agent :=
  cleanup x (containerName (or_jobId o)) (or_jobId o) (settle i a).

(** The training is started in the head's container, with the watchdog of a cluster. *)
Definition launch (i : nat) (o : order) (r : nat) (a : agent) : agent :=
  settle i (update_ref r (fun n => with_proc Alive (with_watchdog (isMultiNode o) n)) a).

Definition workerFailed (x : answers) (i : nat) (o : order) (ip : string) (a : agent) : agent :=
  fail_ x i o ("Failed to start worker " +:+ ip +:+ ": " +:+ an_error x) a.

(** The loop over the workers from the first of [ips] on: its container is replaced and
    probed once; when it is up it gets the hostfile and its training, and the loop goes on. *)
Fixpoint startWorkers (x : answers) (i : nat) (o : order) (rc : recipe) (r : nat)
    (ips : list string) (a : agent) : agent :=
  let name := containerName (or_jobId o) in
  match ips with
  | [] => launch i o r a
  | ip :: rest =>
      let a := set_docker (rm (an_ok x (CWorkerRm ip)) (Some ip) name) a in
      if negb (nameFree (ag_docker a) (Some ip) name && an_ok x (CWorkerRun ip))
      then workerFailed x i o ip a
      else
        let a := set_docker <[(Some ip, name) := true]> a in
        if negb (an_ok x (CWorkerProbe ip)) then advance i (TWorker o rc r ip rest 0) a
        else if an_ok x (CWorkerHostfile ip) && an_ok x (CWorkerLaunch ip)
        then startWorkers x i o rc r rest a
        else workerFailed x i o ip a
  end.

(** A later probe of a worker. *)
Definition probeWorker (x : answers) (i : nat) (o : order) (rc : recipe) (r : nat) (ip : string)
    (rest : list string) (attempt : nat) (a : agent) : agent :=
  let up := isRunning (ag_docker a) (Some ip) (containerName (or_jobId o)) in
  if up && an_ok x (CWorkerProbe ip) then
    if an_ok x (CWorkerHostfile ip) && an_ok x (CWorkerLaunch ip)
    then startWorkers x i o rc r rest a
    else workerFailed x i o ip a
  else advance i (TWorker o rc r ip rest attempt) a.

(** The container is ready. *)
Definition ready (x : answers) (i : nat) (o : order) (rc : recipe) (r : nat) (a : agent) : agent :=
  if isAborted r a then withdraw x i o a
  else match workerIps o with
    | None => launch i o r a
    | Some ips => if an_ok x CHostfile then startWorkers x i o rc r ips a else thrown x i o a
    end.

Definition READY_TIMEOUT : Z := 300000.

(** One round of [waitForReady]; [aborted] is looked at when it is over. *)
Definition waitForReady (x : answers) (i : nat) (o : order) (rc : recipe) (r : nat) (start : Z)
    (a : agent) : agent :=
  if (an_now x - start <? READY_TIMEOUT)%Z then
    if isRunning (ag_docker a) None (containerName (or_jobId o)) && an_ok x CProbe
    then ready x i o rc r a
    else advance i (TReady o rc r start) a
  else fail_ x i o "Container setup timed out after 5 minutes" a.

(** From the image on: the output directory, the pull, [docker run]. *)
Definition runContainer (x : answers) (sh : string) (i : nat) (o : order) (rc : recipe) (r : nat)
    (a : agent) : agent :=
  let name := containerName (or_jobId o) in
  let a := if an_ok x CMkdir
           then set_outputs (partial_alter (fun v => Some (default None v)) (toHostPath sh (or_outputDir o))) a
           else a in
  if match truthy (rc_build_context rc) with None => negb (an_ok x CPull) | Some _ => false end
  then thrown x i o a
  else if nameFree (ag_docker a) None name && an_ok x CRun then
    let a := set_docker <[(None, name) := true]> a in
    if isAborted r a then withdraw x i o a
    else waitForReady x i o rc r (an_now x) a
  else thrown x i o a.

Definition newInstance (o : order) : instance :=
  {| in_jobId := or_jobId o; in_containerName := containerName (or_jobId o);
     in_workerIps := workerIps o; in_aborted := false; in_proc := NotStarted; in_watchdog := false;
     in_meter := {| mt_phase := setup; mt_samples := [] |}; in_outputDir := or_outputDir o;
     in_follows := None |}.

(** [mkdir -p] and [persistClusterWorkers]: a write into a missing directory fails. *)
Definition persistClusterWorkers (x : answers) (dir : string) (ips : list string)
    (outputs : gmap string (option (list string))) : gmap string (option (list string)) :=
  if an_ok x CMkdir then <[dir := Some ips]> outputs
  else alter (fun _ => Some ips) dir outputs.

(** The import is there: find the recipe, register the job, clear the name, see to the image. *)
Definition imported (x : answers) (sh : string) (i : nat) (o : order) (rc : option recipe)
    (a : agent) : agent :=
  match rc with
  | None => send [failed (or_jobId o) ("Could not parse recipe: " +:+ or_recipeFile o)] (settle i a)
  | Some rc =>
      let r := length (ag_heap a) in
      let a := set_running <[or_jobId o := r]> (set_heap (fun h => h ++ [newInstance o]) a) in
      let a := match workerIps o with
               | Some ips => set_outputs (persistClusterWorkers x (toHostPath sh (or_outputDir o)) ips) a
               | None => a
               end in
      let a := set_docker (rm (an_ok x CRm) None (containerName (or_jobId o))) a in
      match truthy (rc_build_context rc) with
      | Some _ => if an_ok x CInspect then runContainer x sh i o rc r a
                  else advance i (TBuild o rc r) a
      | None => runContainer x sh i o rc r a
      end
  end.

(** ** Stopping *)

(** The first directory whose name the job's id begins ([ls] lists them in order). *)
Definition findOutputDirForJob (sh jobId : string) (outputs : gmap string (option (list string))) :
    option string :=
  let pre := sh +:+ "/outputs/" +:+ jobId in
  head (js_sort str_le (List.filter (fun d => String.prefix pre d &&
    negb (str_includes "/" (str_drop (String.length pre) d))) (map fst (map_to_list outputs)))).

Definition persistedWorkers (sh jobId : string) (a : agent) : option (list string) :=
  d ← findOutputDirForJob sh jobId (ag_outputs a); ips ← ag_outputs a !! d; ips.

Definition forceCleanupJob (x : answers) (sh jobId : string) (a : agent) : agent :=
  let name := containerName jobId in
  let ips := default [] (persistedWorkers sh jobId a) in
  set_docker (fun d => rmWorkers x name ips (rm (an_ok x CRm) None name d)) a.

(** [stopFinetuneJob]: the process is signalled, its end is an event of its own. *)
Definition stopFinetuneJob (x : answers) (sh jobId : string) (a : agent) : agent :=
  match r ← ag_running a !! jobId; (r,.) <$> ag_heap a !! r with
  | Some (r, i) => cleanup x (in_containerName i) jobId (update_ref r with_aborted a)
  | None => forceCleanupJob x sh jobId a
  end.

(** [cmd:finetune:stop] and [cmd:finetune:cancel]: confirmed whatever was there to stop. *)
Definition onStop (x : answers) (sh jobId : string) (a : agent) : agent :=
  send [complete jobId "stopped" None None] (stopFinetuneJob x sh jobId a).

(** ** What happens to a training *)

(** Its process ended. *)
Definition onExit (x : answers) (r : nat) (n : instance) (code : option Z) (a : agent) : agent :=
  let a := update_ref r (with_proc Gone) a in
  if in_aborted n then a
  else
    let ms := match code with
              | Some 0%Z =>
                  [progressMessage (in_jobId n) (phaseUpdate saving (zn 1));
                   complete (in_jobId n) "completed" (Some (in_outputDir n +:+ "/lora_adapter")) None]
              | _ => [failed (in_jobId n) ("Training exited with code " +:+
                                           match code with Some c => pretty c | None => "null" end)]
              end in
    cleanup x (in_containerName n) (in_jobId n) (send ms a).

(** The status [docker inspect] gives of a worker's container, when ssh gets through. *)
Definition workerStatus (reach : string -> bool) (d : containers) (ip name : string) : option string :=
  if reach ip then
    Some (match d !! (Some ip, name) with
          | Some true => "running" | Some false => "exited" | None => "missing" end)
  else None.

Definition lostWorker (reach : string -> bool) (d : containers) (name : string) (ips : list string) :
    option (string * string) :=
  head (omap (fun ip => s ← workerStatus reach d ip name;
                        if String.eqb s "running" then None else Some (ip, s)) ips).

(** A tick of the watchdog. *)
Definition onTick (x : answers) (reach : string -> bool) (r : nat) (n : instance) (a : agent) : agent :=
  if in_aborted n then a
  else match lostWorker reach (ag_docker a) (in_containerName n) (default [] (in_workerIps n)) with
    | None => a
    | Some (ip, s) =>
        send [failed (in_jobId n) ("Worker " +:+ ip +:+ " container exited (" +:+ s +:+ ")")]
          (cleanup x (in_containerName n) (in_jobId n)
             (update_ref r (fun n => with_aborted (with_watchdog false n)) a))
    end.

(** A chunk of the training's output, or of a log found running. *)
Definition onOutput (r : nat) (n : instance) (text : string) (a : agent) : agent :=
  match in_follows n with
  | None =>
      let '(m, us) := handleOutput text (in_meter n) in
      send (map (progressMessage (in_jobId n)) us) (update_ref r (with_output m None) a)
  | Some (isMerge, emitted) =>
      let '(f, es) := handleReattach isMerge text {| fo_meter := in_meter n; fo_emitted := emitted |} in
      let j := in_jobId n in
      let lost := "training failed (detected via reattached log)" in
      let message_of e :=
        match e with
        | Progress u => if isMerge : bool then MergeProgress j else progressMessage j u
        | Ended (Completed p) => if isMerge : bool then MergeComplete j (Some "completed") (Some p)
                                 else complete j "completed" (Some p) None
        | Ended Failed_ => if isMerge : bool then MergeComplete j (Some "failed") None else failed j lost
        end in
      send (map message_of es)
        (update_ref r (with_output (fo_meter f) (Some (isMerge, fo_emitted f))) a)
  end.

(** ** The agent restarts *)

Definition jobIdPrefix (name : string) : string :=
  NodeIp.remove_first "dgx-merge-" (NodeIp.remove_first "dgx-finetune-" name).

(** One container [docker ps] lists, with the log found in it or not. *)
Definition reattach (sh : string) (a : agent) (c : string * bool) : agent :=
  let '(name, hasLog) := c in
  let isMerge := String.prefix "dgx-merge-" name in
  let p := jobIdPrefix name in
  if String.eqb p "" || negb hasLog then a
  else
    let n := {| in_jobId := p; in_containerName := name; in_workerIps := persistedWorkers sh p a;
                in_aborted := false; in_proc := Alive; in_watchdog := false;
                in_meter := {| mt_phase := if isMerge then loading else training; mt_samples := [] |};
                in_outputDir := ""; in_follows := Some (isMerge, false) |} in
    set_running <[p := length (ag_heap a)]> (set_heap (fun h => h ++ [n]) a).

(** The socket opens: [reattachFinetuneJobs], which looks at no entry there is already. *)
Definition onOpen (sh : string) (ps : list (string * bool)) (a : agent) : agent :=
  foldl (reattach sh) (set_open true a) ps.

(** The memory of the old process is gone; the new one connects. *)
Definition onRestart (sh : string) (ps : list (string * bool)) (a : agent) : agent :=
  onOpen sh ps (set_tasks (fun _ => []) (set_running (fun _ => ∅) (set_heap (fun _ => []) a))).

(** ** Events *)

Inductive event :=
  | Start (o : order) (recipeExists : bool)
  | Imported (i : nat) (rc : option recipe) (x : answers)
  | Built (i : nat) (code : Z) (x : answers)
  | Woke (i : nat) (x : answers)
  | Stop (jobId : string) (x : answers)
  | Exited (r : nat) (code : option Z) (x : answers)
  | Ticked (r : nat) (reach : string -> bool) (x : answers)
  | Printed (r : nat) (text : string)
  | Dies (h : option string) (name : string)
  | Restarted (ps : list (string * bool))
  | Closed
  | Opened (ps : list (string * bool)).

(** What [docker ps] may list. *)
Definition listed (a : agent) (ps : list (string * bool)) : bool :=
  forallb (fun c => isRunning (ag_docker a) None c.1 || String.prefix "dgx-merge-" c.1) ps.

Section Steps.
Context (sh : string).

Definition step (a : agent) (e : event) : option agent :=
  match e with
  | Start o exists_ =>
      Some (if exists_ then spawn (TImport o) a
            else send [failed (or_jobId o) ("Recipe not found: " +:+ or_recipeFile o)] a)
  | Imported i rc x =>
      match ag_tasks a !! i with
      | Some (TImport o) => Some (imported x sh i o rc a)
      | _ => None
      end
  | Built i code x =>
      match ag_tasks a !! i with
      | Some (TBuild o rc r) =>
          Some (if (code =? 0)%Z then runContainer x sh i o rc r a else thrown x i o a)
      | _ => None
      end
  | Woke i x =>
      match ag_tasks a !! i with
      | Some (TReady o rc r start) => Some (waitForReady x i o rc r start a)
      | Some (TWorker o rc r ip rest k) =>
          Some (if (S k <? 60)%nat then probeWorker x i o rc r ip rest (S k) a
                else fail_ x i o ("Worker " +:+ ip +:+ " setup timed out") a)
      | _ => None
      end
  | Stop jobId x => Some (onStop x sh jobId a)
  | Exited r code x =>
      match ag_heap a !! r with
      | Some n => match in_proc n, in_follows n with
                  | Alive, None => Some (onExit x r n code a)
                  | Alive, Some _ => Some (update_ref r (with_proc Gone) a)
                  | _, _ => None
                  end
      | None => None
      end
  | Ticked r reach x =>
      match ag_heap a !! r with
      | Some n => if in_watchdog n then Some (onTick x reach r n a) else None
      | None => None
      end
  | Printed r text =>
      match ag_heap a !! r with
      | Some n => match in_proc n with NotStarted => None | _ => Some (onOutput r n text a) end
      | None => None
      end
  | Dies h name =>
      match ag_docker a !! (h, name) with
      | Some true => Some (set_docker <[(h, name) := false]> a)
      | _ => None
      end
  | Restarted ps => if listed a ps then Some (onRestart sh ps a) else None
  | Closed => Some (set_open false a)
  | Opened ps => if listed a ps then Some (onOpen sh ps a) else None
  end.

Fixpoint run (a : agent) (es : list event) : option agent :=
  match es with
  | [] => Some a
  | e :: es => a' ← step a e; run a' es
  end.

End Steps.
End Machine.

(** ** [mergeLoraAdapter] *)
Module Merge.
Import Args Machine.

Record order := {
  mo_jobId : string; mo_baseModel : string; mo_adapterPath : string; mo_mergedOutputDir : string;
  mo_mergeScript : option string }.

Definition containerName (jobId : string) : string := "dgx-merge-" +:+ str_take 12 jobId.

Definition mergeScript (o : order) : string :=
  repoPath +:+ js_or (mo_mergeScript o) "scripts/merge.py".

(** What [docker exec] is given. *)
Definition mergeCommand (sh : string) (o : order) : list string :=
  ["exec"; containerName (mo_jobId o); "python"; mergeScript o; "--base_model"; mo_baseModel o;
   "--adapter_path"; toContainerPath sh (mo_adapterPath o);
   "--output_dir"; toContainerPath sh (mo_mergedOutputDir o)].

(** What the callbacks are told. *)
Inductive told :=
  | OnProgress (phase : TrainingPhase) (progress : num)
  | OnComplete (status : string) (outputPath error : option string).

Definition MARKS : list (string * (TrainingPhase * num)) :=
  [("loading base model", (loading, Fin (1 # 10))); ("base model loaded", (loading, Fin (4 # 10)));
   ("adapter loaded", (loading, Fin (5 # 10))); ("merge complete", (saving, Fin (6 # 10)));
   ("saving merged model", (saving, Fin (7 # 10))); ("model saved", (saving, Fin (9 # 10)));
   ("saving tokenizer", (saving, Fin (95 # 100)))].

(** A chunk of its output. *)
Definition chunkProgress (text : string) : list told :=
  let l := str_lower text in
  omap (fun '(mark, (p, v)) => if str_includes mark l then Some (OnProgress p v) else None) MARKS.

(** The answers to the [docker rm -f] before and after, to [docker run] and to [pip install];
    the output of the merge and the code it ends with. *)
Record answers := {
  ma_clear : bool; ma_run : bool; ma_pip : bool; ma_error : string; ma_chunks : list string;
  ma_code : option Z; ma_remove : bool }.

Definition mergeLoraAdapter (x : answers) (o : order) (d : containers) : list told * containers :=
  let name := containerName (mo_jobId o) in
  let remove d := rm (ma_remove x) None name d in
  let d := rm (ma_clear x) None name d in
  let begun := [OnProgress loading (zn 0)] in
  let failed e := [OnComplete "failed" None (Some e)] in
  if nameFree d None name && ma_run x then
    let d := <[(None, name) := true]> d in
    if ma_pip x then
      (begun ++ concat (map chunkProgress (ma_chunks x)) ++
       match ma_code x with
       | Some 0%Z => [OnProgress saving (zn 1); OnComplete "completed" (Some (mo_mergedOutputDir o)) None]
       | c => failed ("Merge failed with exit code " +:+
                      match c with Some c => pretty c | None => "null" end)
       end, remove d)
    else (begun ++ failed ("Failed to install merge deps: " +:+ ma_error x), remove d)
  else (begun ++ failed ("Merge error: " +:+ ma_error x), remove d).

(** [cmd:finetune:merge] *)
Definition onMerge (x : answers) (o : order) (d : containers) : list message * containers :=
  let '(ts, d) := mergeLoraAdapter x o d in
  (map (fun t => match t with
                 | OnProgress _ _ => MergeProgress (mo_jobId o)
                 | OnComplete s p _ => MergeComplete (mo_jobId o) (Some s) p
                 end) ts, d).

End Merge.

(** ** [quantizeMergedToFp8] *)
Module Quantize.
Import Args Machine.

Record order := {
  qo_jobId : string; qo_mergedPath : string; qo_quantizedOutputDir : string; qo_quantizeScript : string }.

Definition containerName (jobId : string) : string := "dgx-quantize-" +:+ str_take 12 jobId.

(** What [docker exec] is given. *)
Definition quantizeCommand (sh : string) (o : order) : list string :=
  ["exec"; containerName (qo_jobId o); "python"; repoPath +:+ qo_quantizeScript o;
   "--model-dir"; toContainerPath sh (qo_mergedPath o);
   "--output-dir"; toContainerPath sh (qo_quantizedOutputDir o)].

Inductive told :=
  | OnProgress (phase : string) (progress : num)
  | OnComplete (status : string) (outputPath error : option string).

Definition MARKS : list (string * (string * num)) :=
  [("[quantize_fp8] loading model", ("loading", Fin (1 # 10)));
   ("[quantize_fp8] model loaded", ("loading", Fin (3 # 10)));
   ("[quantize_fp8] applying fp8_dynamic", ("quantizing", Fin (5 # 10)));
   ("[quantize_fp8] quantization complete", ("quantizing", Fin (8 # 10)));
   ("[quantize_fp8] saving fp8 model", ("saving", Fin (85 # 100)));
   ("[quantize_fp8] fp8 model saved", ("saving", Fin (95 # 100)));
   ("[quantize_fp8] ok", ("saving", zn 1))].

(** The first of the marks a line has. *)
Definition detectQuantizeProgress (line : string) : option (string * num) :=
  snd <$> js_find (fun m => str_includes m.1 (str_lower line)) MARKS.

Definition chunkProgress (text : string) : list told :=
  omap (fun line => '(p, v) ← detectQuantizeProgress line; Some (OnProgress p v)) (str_split nl text).

(** The answers to [docker rm -f] before and after, to [docker run] and to [pip install]; the
    output and the code of the quantization. *)
Record answers := {
  qa_clear : bool; qa_run : bool; qa_pip : bool; qa_error : string; qa_chunks : list string;
  qa_code : option Z; qa_remove : bool }.

(** What is told, and the error the promise is rejected with when there is one: a [docker run]
    that fails is not caught. *)
Definition quantizeMergedToFp8 (x : answers) (o : order) (d : containers) :
    list told * result string () * containers :=
  let name := containerName (qo_jobId o) in
  let remove d := rm (qa_remove x) None name d in
  let d := rm (qa_clear x) None name d in
  let begun := [OnProgress "loading" (zn 0)] in
  let failed e := [OnComplete "failed" None (Some e)] in
  if nameFree d None name && qa_run x then
    let d := <[(None, name) := true]> d in
    if qa_pip x then
      (begun ++ concat (map chunkProgress (qa_chunks x)) ++
       match qa_code x with
       | Some 0%Z => [OnComplete "completed" (Some (qo_quantizedOutputDir o)) None]
       | c => failed ("Quantize failed with exit code " +:+
                      match c with Some c => pretty c | None => "null" end)
       end, Ok (), remove d)
    else (begun ++ failed ("Failed to install quantization deps: " +:+ qa_error x), Ok (), remove d)
  else (begun, Err (qa_error x), remove d).

(** [cmd:finetune:quantize]: nobody waits for the promise, so that its rejection ends the agent. *)
Definition onQuantize (x : answers) (o : order) (d : containers) :
    list message * result string () * containers :=
  let '(ts, r, d) := quantizeMergedToFp8 x o d in
  (map (fun t => match t with
                 | OnProgress _ _ => QuantizeProgress (qo_jobId o)
                 | OnComplete s p e => QuantizeComplete (qo_jobId o) s p e
                 end) ts, r, d).

End Quantize.
