(* ===== verification/AgentTrainFacts.v ===== *)
(** The jobs of a node: what a step of a launch comes to, what is tracked, that no launch
    is forgotten and that set-ups end; what a stop does, at once and late. *)
From S2P Require Import Prelude JsNum Recipes AgentHub TrainParse AgentTrain.
Import Args Machine.

(** ** The heap, timers apart *)

Definition quiet (a : agent) : list instance := map (with_watchdog false) (ag_heap a).

Definition task_order (t : task) : order :=
  match t with TImport o | TBuild o _ _ | TReady o _ _ _ | TWorker o _ _ _ _ _ => o end.

(** The messages so far, and the link. *)
Definition out (a : agent) := (ag_log a, ag_open a).

Lemma out_log a b : out a = out b -> ag_log a = ag_log b.
Proof. by intros [= ? _]. Qed.

Lemma quiet_alter r f h :
  (forall n, with_watchdog false (f n) = with_watchdog false n) ->
  map (with_watchdog false) (alter f r h) = map (with_watchdog false) h.
Proof.
  intros Hf. revert r. induction h as [|n h IH]; intros [|r]; cbn; [done..| |].
  - by rewrite Hf.
  - f_equal. apply IH.
Qed.

Lemma cleanup_spec x name j a :
  ag_running (cleanup x name j a) = delete j (ag_running a) /\
  ag_tasks (cleanup x name j a) = ag_tasks a /\ out (cleanup x name j a) = out a /\
  ag_outputs (cleanup x name j a) = ag_outputs a /\ quiet (cleanup x name j a) = quiet a.
Proof.
  unfold cleanup. destruct (ag_running a !! j) as [r|]; [|done].
  repeat split; [done..|]. unfold quiet; cbn. by apply quiet_alter.
Qed.

Lemma quiet_lookup a a' r n :
  quiet a' = quiet a -> ag_heap a !! r = Some n ->
  exists n', ag_heap a' !! r = Some n' /\ with_watchdog false n' = with_watchdog false n.
Proof.
  intros Hq Hn. apply (f_equal (lookup r)) in Hq. unfold quiet in Hq.
  rewrite !list_lookup_fmap, Hn in Hq. destruct (ag_heap a' !! r) as [n'|]; [|done].
  exists n'. split; [done|]. by apply (inj Some) in Hq.
Qed.

(** ** What a step of a launch comes to *)

Inductive outcome (i : nat) (o : order) (r : nat) (a a' : agent) : Prop :=
  | OFailed e :
      ag_tasks a' = delete i (ag_tasks a) -> quiet a' = quiet a ->
      ag_running a' = delete (or_jobId o) (ag_running a) ->
      out a' = out (send [failed (or_jobId o) e] a) -> outcome i o r a a'
  | OWithdrawn :
      isAborted r a = true -> ag_tasks a' = delete i (ag_tasks a) -> quiet a' = quiet a ->
      ag_running a' = delete (or_jobId o) (ag_running a) -> out a' = out a ->
      outcome i o r a a'
  | OLaunched :
      ag_tasks a' = delete i (ag_tasks a) ->
      ag_heap a' = alter (fun n => with_proc Alive (with_watchdog (isMultiNode o) n)) r (ag_heap a) ->
      ag_running a' = ag_running a -> out a' = out a -> outcome i o r a a'
  | OWaits t :
      task_ref t = Some r -> task_order t = o -> ag_tasks a' = <[i := t]> (ag_tasks a) ->
      ag_heap a' = ag_heap a -> ag_running a' = ag_running a -> out a' = out a ->
      outcome i o r a a'.

(** The state but for docker and the shared storage. *)
Definition memory (a : agent) := (ag_heap a, ag_running a, ag_tasks a, out a).

Lemma outcome_memory i o r a b a' : memory b = memory a -> outcome i o r b a' -> outcome i o r a a'.
Proof.
  destruct a, b. intros [= -> -> -> -> ->].
  by destruct 1 as [e| | |]; [apply (OFailed _ _ _ _ _ e)|eapply OWithdrawn|eapply OLaunched|eapply OWaits].
Qed.

Lemma fail_outcome x i o r e a : outcome i o r a (fail_ x i o e a).
Proof.
  unfold fail_. destruct (cleanup_spec x (containerName (or_jobId o)) (or_jobId o)
    (send [failed (or_jobId o) e] (settle i a))) as (Hr & Ht & Hs & _ & Hq).
  eapply OFailed; [exact Ht|exact Hq|exact Hr|exact Hs].
Qed.

Lemma withdraw_outcome x i o r a : isAborted r a = true -> outcome i o r a (withdraw x i o a).
Proof.
  intros Ha. unfold withdraw. destruct (cleanup_spec x (containerName (or_jobId o)) (or_jobId o)
    (settle i a)) as (Hr & Ht & Hs & _ & Hq).
  apply OWithdrawn; [exact Ha|exact Ht|exact Hq|exact Hr|exact Hs].
Qed.

Lemma launch_outcome i o r a : outcome i o r a (launch i o r a).
Proof. by eapply OLaunched. Qed.

Lemma advance_outcome i o r a t :
  task_ref t = Some r -> task_order t = o -> outcome i o r a (advance i t a).
Proof. intros Hr Ho. by apply (OWaits i o r a _ t). Qed.

Lemma startWorkers_outcome x i o rc r ips a : outcome i o r a (startWorkers x i o rc r ips a).
Proof.
  revert a. induction ips as [|ip rest IH]; intros a; cbn; [apply launch_outcome|].
  destruct (negb _); [eapply outcome_memory; [|apply fail_outcome]; done|].
  destruct (negb _); [eapply outcome_memory; [|by apply advance_outcome]; done|].
  destruct (_ && _); eapply outcome_memory; [|apply IH| |apply fail_outcome]; done.
Qed.

Lemma probeWorker_outcome x i o rc r ip rest k a :
  outcome i o r a (probeWorker x i o rc r ip rest k a).
Proof.
  unfold probeWorker. destruct (_ && _); [|by apply advance_outcome].
  destruct (_ && _); [apply startWorkers_outcome|apply fail_outcome].
Qed.

Lemma ready_outcome x i o rc r a : outcome i o r a (ready x i o rc r a).
Proof.
  unfold ready. destruct (isAborted r a) eqn:Ha; [by apply withdraw_outcome|].
  destruct (workerIps o); [|apply launch_outcome].
  destruct (an_ok x CHostfile); [apply startWorkers_outcome|apply fail_outcome].
Qed.

Lemma waitForReady_outcome x i o rc r start a : outcome i o r a (waitForReady x i o rc r start a).
Proof.
  unfold waitForReady. destruct (_ <? _)%Z; [|apply fail_outcome].
  destruct (_ && _); [apply ready_outcome|by apply advance_outcome].
Qed.

Lemma runContainer_outcome x sh i o rc r a : outcome i o r a (runContainer x sh i o rc r a).
Proof.
  unfold runContainer. set (b := if an_ok x CMkdir then _ else a).
  assert (memory b = memory a) as Hm by (unfold b; by destruct (an_ok x CMkdir)).
  destruct (match truthy _ with None => _ | Some _ => _ end);
    [eapply outcome_memory; [done|apply fail_outcome]|].
  destruct (_ && _); [|eapply outcome_memory; [done|apply fail_outcome]].
  destruct (isAborted _ _) eqn:Ha; eapply outcome_memory.
  2: by apply withdraw_outcome.
  3: by apply waitForReady_outcome.
  all: by rewrite <- Hm.
Qed.

(** ** What is tracked *)

(** An instance as its timer and process change. *)
Definition same_job (n n' : instance) : Prop :=
  in_jobId n' = in_jobId n /\ in_containerName n' = in_containerName n /\
  in_workerIps n' = in_workerIps n /\ (in_follows n' = None <-> in_follows n = None).

Lemma quiet_fields n n' :
  with_watchdog false n' = with_watchdog false n ->
  same_job n n' /\ in_aborted n' = in_aborted n /\ in_proc n' = in_proc n.
Proof. destruct n, n'; cbn. unfold same_job; cbn. intros H. injection H. by intros; subst. Qed.

(** [running] leads to instances that were not aborted and bear its key; a launch in flight
    holds the instance of its job. *)
Record wf (a : agent) : Prop := {
  wf_running j r : ag_running a !! j = Some r ->
    exists n, ag_heap a !! r = Some n /\ in_jobId n = j /\ in_aborted n = false /\
              (in_follows n = None -> in_containerName n = containerName j);
  wf_tasks t r : t ∈ ag_tasks a -> task_ref t = Some r ->
    exists n, ag_heap a !! r = Some n /\ in_jobId n = or_jobId (task_order t) /\ in_follows n = None }.

Lemma wf_init : wf init.
Proof. split; [done|]. intros t r Ht. cbn in Ht. set_solver. Qed.

Definition of_job (t : task) (r : nat) (h : list instance) : Prop :=
  exists n, h !! r = Some n /\ in_jobId n = or_jobId (task_order t) /\ in_follows n = None.

(** A step that makes no instance keeps [wf]. *)
Lemma wf_keep a a' :
  wf a ->
  (forall r n, ag_heap a !! r = Some n -> exists n', ag_heap a' !! r = Some n' /\ same_job n n' /\
     (in_aborted n' = in_aborted n \/ ag_running a' !! in_jobId n <> Some r)) ->
  (forall j r, ag_running a' !! j = Some r -> ag_running a !! j = Some r) ->
  (forall t r, t ∈ ag_tasks a' -> task_ref t = Some r -> t ∈ ag_tasks a \/ of_job t r (ag_heap a)) ->
  wf a'.
Proof.
  intros [Hr Ht] Hh Hrun Htasks. split.
  - intros j r Hj. destruct (Hr j r (Hrun _ _ Hj)) as (n & Hn & Hid & Hab & Hc).
    destruct (Hh _ _ Hn) as (n' & Hn' & (Hi & Hcn & _ & Hf) & Hab'). exists n'.
    rewrite Hi, Hcn. split_and!; [done..| |by intros ?%Hf; auto].
    destruct Hab' as [->|Hx]; [done|]. by rewrite Hid in Hx.
  - intros t r Ht' Href. destruct (Htasks t r Ht' Href) as [Hin|Hof].
    1: destruct (Ht t r Hin Href) as (n & Hn & Hid & Hf).
    2: destruct Hof as (n & Hn & Hid & Hf).
    all: destruct (Hh _ _ Hn) as (n' & Hn' & (Hi & _ & _ & Hf') & _); exists n';
      split_and!; [done|congruence|by apply Hf'].
Qed.

Lemma quiet_keeps a a' r n :
  quiet a' = quiet a -> ag_heap a !! r = Some n ->
  exists n', ag_heap a' !! r = Some n' /\ same_job n n' /\
    (in_aborted n' = in_aborted n \/ ag_running a' !! in_jobId n <> Some r).
Proof.
  intros Hq Hn. destruct (quiet_lookup _ _ _ _ Hq Hn) as (n' & Hn' & Hw).
  destruct (quiet_fields _ _ Hw) as (? & ? & ?). eauto.
Qed.

Lemma outcome_wf i o r a a' :
  wf a -> (exists n, ag_heap a !! r = Some n /\ in_jobId n = or_jobId o /\ in_follows n = None) ->
  outcome i o r a a' -> wf a'.
Proof.
  intros Hwf Hn Hout. apply (wf_keep a); [done|..]; destruct Hout as
    [e Ht Hq Hr _|_ Ht Hq Hr _|Ht Hh Hr _|t Htr Hto Ht Hh Hr _].
  - intros r' n'. by apply quiet_keeps.
  - intros r' n'. by apply quiet_keeps.
  - intros r' n' Hn'. rewrite Hh. destruct (decide (r = r')) as [->|Hne].
    + rewrite list_lookup_alter_eq, Hn'. eexists. split; [done|]. by split; [|left].
    + rewrite list_lookup_alter_ne by done. exists n'. by split; [|split; [|left]].
  - intros r' n' Hn'. rewrite Hh. exists n'. by split; [|split; [|left]].
  - intros j r'. rewrite Hr, lookup_delete_Some. by intros [_ ?].
  - intros j r'. rewrite Hr, lookup_delete_Some. by intros [_ ?].
  - by rewrite Hr.
  - by rewrite Hr.
  - intros t r' Hin _. rewrite Ht in Hin. left. by eapply elem_of_delete.
  - intros t r' Hin _. rewrite Ht in Hin. left. by eapply elem_of_delete.
  - intros t r' Hin _. rewrite Ht in Hin. left. by eapply elem_of_delete.
  - intros t' r' Hin Href. rewrite Ht in Hin.
    apply elem_of_insert_inv in Hin as [->|Hin]; [|by left]. right.
    rewrite Htr in Href. injection Href as <-. unfold of_job. by rewrite Hto.
Qed.

(** ** The steps of a launch, and its registration *)

Definition registered (x : answers) (sh : string) (o : order) (a : agent) : agent :=
  let a := set_running <[or_jobId o := length (ag_heap a)]> (set_heap (fun h => h ++ [newInstance o]) a) in
  let a := match workerIps o with
           | Some ips => set_outputs (persistClusterWorkers x (toHostPath sh (or_outputDir o)) ips) a
           | None => a
           end in
  set_docker (rm (an_ok x CRm) None (containerName (or_jobId o))) a.

Lemma registered_spec x sh o a :
  ag_heap (registered x sh o a) = ag_heap a ++ [newInstance o] /\
  ag_running (registered x sh o a) = <[or_jobId o := length (ag_heap a)]> (ag_running a) /\
  ag_tasks (registered x sh o a) = ag_tasks a /\ out (registered x sh o a) = out a.
Proof. unfold registered. by destruct (workerIps o). Qed.

Lemma imported_outcome x sh i o rc a :
  outcome i o (length (ag_heap a)) (registered x sh o a) (imported x sh i o (Some rc) a).
Proof.
  unfold imported. fold (registered x sh o a).
  destruct (truthy (rc_build_context rc)); [destruct (an_ok x CInspect)|].
  - apply runContainer_outcome.
  - by apply advance_outcome.
  - apply runContainer_outcome.
Qed.

Lemma registered_new x sh o a :
  ag_heap (registered x sh o a) !! length (ag_heap a) = Some (newInstance o).
Proof.
  destruct (registered_spec x sh o a) as (-> & _). by rewrite lookup_app_r, Nat.sub_diag by done.
Qed.

Lemma registered_wf x sh o a : wf a -> wf (registered x sh o a).
Proof.
  intros [Hr Ht]. destruct (registered_spec x sh o a) as (Eh & Er & Et & _). split.
  - intros j r. rewrite Er. destruct (decide (or_jobId o = j)) as [<-|Hne].
    + rewrite lookup_insert_eq. intros [= <-]. exists (newInstance o). by rewrite registered_new.
    + rewrite lookup_insert_ne by done. intros Hj. destruct (Hr _ _ Hj) as (n & Hn & Hx).
      exists n. rewrite Eh. by rewrite (lookup_app_l_Some _ _ _ _ Hn).
  - rewrite Et, Eh. intros t r Hin Href. destruct (Ht t r Hin Href) as (n & Hn & Hx).
    exists n. by rewrite (lookup_app_l_Some _ _ _ _ Hn).
Qed.

(** A launch in flight, at whatever wait, goes on by an [outcome]. *)
Lemma task_step sh a e a' i x :
  step sh a e = Some a' ->
  match e with Built i' _ x' | Woke i' x' => i' = i /\ x' = x | _ => False end ->
  exists t r, ag_tasks a !! i = Some t /\ task_ref t = Some r /\ outcome i (task_order t) r a a'.
Proof.
  intros Hs He. destruct e; try done; destruct He as [-> ->]; cbn -[Nat.ltb] in Hs;
    destruct (ag_tasks a !! i) as [[o|o rc r|o rc r start|o rc r ip rest k]|] eqn:Et; try done;
    injection Hs as <-; eexists; exists r; (split; [done|]); (split; [done|]).
  - destruct (_ =? _)%Z; [apply runContainer_outcome|apply fail_outcome].
  - apply waitForReady_outcome.
  - destruct (Nat.ltb _ _); [apply probeWorker_outcome|apply fail_outcome].
Qed.

(** ** No launch is forgotten *)

(** A completion of [j] was given to [sendMsg] since. *)
Definition told (a a' : agent) (j : string) : Prop :=
  exists ms up st p e, ag_log a' = ag_log a ++ ms /\ (up, complete j st p e) ∈ ms.

(** A launch that goes on: nobody aborted it, and it waits or its training runs. *)
Definition live (a : agent) (j : string) (r : nat) : Prop :=
  exists n, ag_heap a !! r = Some n /\ in_jobId n = j /\ in_aborted n = false /\
            in_follows n = None /\
            ((exists t, t ∈ ag_tasks a /\ task_ref t = Some r) \/ in_proc n = Alive).

Lemma live_keep a a' j r n n' :
  ag_heap a !! r = Some n -> in_jobId n = j -> in_follows n = None ->
  ag_heap a' !! r = Some n' -> same_job n n' -> in_aborted n' = false ->
  ((exists t, t ∈ ag_tasks a' /\ task_ref t = Some r) \/ in_proc n' = Alive) -> live a' j r.
Proof.
  intros ? Hj Hf Hn' (Hi & _ & _ & Hf') Ha Hw. exists n'.
  split_and!; [done|congruence|done|by apply Hf'|done].
Qed.

Lemma outcome_self i o r a a' n :
  is_Some (ag_tasks a !! i) -> ag_heap a !! r = Some n -> in_jobId n = or_jobId o ->
  in_aborted n = false -> in_follows n = None ->
  outcome i o r a a' -> live a' (or_jobId o) r \/ told a a' (or_jobId o).
Proof.
  intros Hi Hn Hj Hab Hf Hout. destruct Hout as [e _ _ _ Hs|Hx _ _ _ _|Ht Hh _ _|t Htr _ Ht Hh _ _].
  - right. injection Hs as Hs _. eexists _, _, _, _, _. split; [exact Hs|]. by apply list_elem_of_singleton.
  - unfold isAborted in Hx. rewrite Hn in Hx. congruence.
  - left. eapply live_keep; [done..| | | |].
    + rewrite Hh, list_lookup_alter_eq, Hn. done.
    + done.
    + done.
    + by right.
  - left. eapply live_keep; [done..| | | |].
    + by rewrite Hh.
    + done.
    + done.
    + left. exists t. split; [|done]. rewrite Ht. apply list_elem_of_lookup. exists i.
      apply list_lookup_insert_eq. by apply lookup_lt_is_Some.
Qed.

Lemma outcome_other i o r0 a a' j r t0 :
  ag_tasks a !! i = Some t0 -> task_ref t0 <> Some r -> r <> r0 ->
  outcome i o r0 a a' -> live a j r -> live a' j r.
Proof.
  intros Hi Ht0 Hr Hout (n & Hn & Hj & Hab & Hf & Hw).
  assert (exists n', ag_heap a' !! r = Some n' /\ same_job n n' /\ in_aborted n' = in_aborted n /\
                     in_proc n' = in_proc n) as (n' & Hn' & Hsame & Hab' & Hp').
  { destruct Hout as [e _ Hq _ _|_ _ Hq _ _|_ Hh _ _|t _ _ _ Hh _ _].
    1, 2: destruct (quiet_lookup _ _ _ _ Hq Hn) as (n' & Hn' & Hx); exists n';
      destruct (quiet_fields _ _ Hx) as (? & ? & ?); by split_and!.
    - exists n. by rewrite Hh, list_lookup_alter_ne.
    - exists n. by rewrite Hh. }
  apply (live_keep a a' j r n n'); [done..|congruence|].
  destruct Hw as [(t & Hin & Htr)|Hp]; [|right; congruence]. left. exists t. split; [|done].
  destruct Hout as [e Ht _ _ _|_ Ht _ _ _|Ht _ _ _|t' _ _ Ht _ _ _]; rewrite Ht.
  4: destruct (elem_of_insert_or _ _ _ _ t' Hi Hin) as [->|?]; [congruence|done].
  all: destruct (elem_of_delete_or _ _ _ _ Hi Hin) as [->|?]; [congruence|done].
Qed.

(** A launch in flight that takes a step. *)
Lemma outcome_live i t r0 a a' j r :
  ag_tasks a !! i = Some t -> task_ref t = Some r0 ->
  (exists n, ag_heap a !! r0 = Some n /\ in_jobId n = or_jobId (task_order t) /\ in_follows n = None) ->
  outcome i (task_order t) r0 a a' -> live a j r -> live a' j r \/ told a a' j.
Proof.
  intros Hi Ht (n & Hn & Hj & Hf) Hout Hlive. destruct (decide (r = r0)) as [->|Hne].
  - destruct Hlive as (n' & Hn' & Hj' & Hab & _). replace n' with n in * by congruence.
    replace j with (or_jobId (task_order t)) by congruence. by eapply outcome_self.
  - left. eapply outcome_other; [done| |done..]. congruence.
Qed.

(** ** The other events *)

(** An event of the instance [r1] alone: tasks stay, timers may stop. *)
Definition moved (f : instance -> instance) (r1 : nat) (a a' : agent) : Prop :=
  ag_tasks a' = ag_tasks a /\
  quiet a' = map (with_watchdog false) (alter f r1 (ag_heap a)).

Lemma moved_other f r1 a a' r n :
  moved f r1 a a' -> r <> r1 -> ag_heap a !! r = Some n ->
  exists n', ag_heap a' !! r = Some n' /\ same_job n n' /\ in_aborted n' = in_aborted n /\
             in_proc n' = in_proc n.
Proof.
  intros [_ Hq] Hne Hn.
  destruct (quiet_lookup (set_heap (alter f r1) a) a' r n Hq) as (n' & Hn' & Hx).
  { cbn. by rewrite list_lookup_alter_ne. }
  exists n'. destruct (quiet_fields _ _ Hx) as (? & ? & ?). by split_and!.
Qed.

Lemma moved_self f r1 a a' n :
  moved f r1 a a' -> ag_heap a !! r1 = Some n ->
  exists n', ag_heap a' !! r1 = Some n' /\ same_job (f n) n' /\ in_aborted n' = in_aborted (f n) /\
             in_proc n' = in_proc (f n).
Proof.
  intros [_ Hq] Hn.
  destruct (quiet_lookup (set_heap (alter f r1) a) a' r1 (f n) Hq) as (n' & Hn' & Hx).
  { cbn. by rewrite list_lookup_alter_eq, Hn. }
  exists n'. destruct (quiet_fields _ _ Hx) as (? & ? & ?). by split_and!.
Qed.

Lemma moved_cleanup x name j f r1 a ms :
  moved f r1 a (cleanup x name j (send ms (update_ref r1 f a))).
Proof. destruct (cleanup_spec x name j (send ms (update_ref r1 f a))) as (_ & Ht & _ & _ & Hq). done. Qed.

Lemma moved_live f r1 a a' j r :
  moved f r1 a a' -> live a j r ->
  (r <> r1 -> live a' j r) /\
  (r = r1 -> (forall n, ag_heap a !! r1 = Some n -> same_job n (f n)) ->
   (forall n, ag_heap a !! r1 = Some n -> in_aborted (f n) = in_aborted n /\ in_proc (f n) = in_proc n) ->
   live a' j r).
Proof.
  intros Hm (n & Hn & Hj & Hab & Hf & Hw). split.
  - intros Hne. destruct (moved_other _ _ _ _ _ _ Hm Hne Hn) as (n' & Hn' & Hs & Ha & Hp).
    apply (live_keep a a' j r n n'); [done..|congruence|]. destruct Hm as [-> _]. by rewrite Hp.
  - intros -> Hsame Hkeep. destruct (moved_self _ _ _ _ _ Hm Hn) as (n' & Hn' & Hs & Ha & Hp).
    destruct (Hkeep _ Hn) as [Ha' Hp']. specialize (Hsame _ Hn).
    apply (live_keep a a' j r1 n n'); [done..| |congruence|].
    + unfold same_job in *. destruct Hs as (?&?&?&?), Hsame as (?&?&?&?). by split_and!; [congruence..|tauto].
    + destruct Hm as [-> _]. by rewrite Hp, Hp'.
Qed.

Lemma moved_id r a : moved id r a a.
Proof. split; [done|]. unfold quiet. symmetry. by apply quiet_alter. Qed.

(** What an event about the instance [r1] does to it: what it sends when it ends it. *)
Record settled (f : instance -> instance) (r1 : nat) (a a' : agent) : Prop := {
  se_moved : moved f r1 a a';
  se_running j r : ag_running a' !! j = Some r -> ag_running a !! j = Some r;
  se_job n : ag_heap a !! r1 = Some n -> same_job n (f n);
  se_tracked n : ag_heap a !! r1 = Some n ->
    in_aborted (f n) = in_aborted n \/ ag_running a' !! in_jobId n = None;
  se_told n : ag_heap a !! r1 = Some n -> in_follows n = None -> in_aborted n = false ->
    (in_aborted (f n) = false /\ in_proc (f n) = in_proc n) \/ told a a' (in_jobId n);
  se_sent : exists ms, ag_log a' = ag_log a ++ ms }.

Lemma settled_id r a ms a' :
  memory a' = memory (send ms a) -> settled id r a a'.
Proof.
  unfold memory. destruct a, a'; cbn. intros [= -> -> -> -> ->].
  split; cbn; [|done| |by left|by left|by eexists].
  - split; [done|]. unfold quiet; cbn. symmetry. by apply quiet_alter.
  - intros n _. unfold same_job. by split_and!.
Qed.

(** The job's entry goes, and its end is told. *)
Lemma settled_cleanup f r1 a a' n :
  moved f r1 a a' -> ag_heap a !! r1 = Some n -> same_job n (f n) ->
  ag_running a' = delete (in_jobId n) (ag_running a) -> told a a' (in_jobId n) ->
  settled f r1 a a'.
Proof.
  intros Hm Hn Hs Hr Ht. split; [done|..].
  - intros j r. rewrite Hr, lookup_delete_Some. by intros [_ ?].
  - intros n' Hn'. by replace n' with n by congruence.
  - intros n' Hn'. right. replace n' with n by congruence. rewrite Hr. apply lookup_delete_eq.
  - intros n' Hn' _ _. right. by replace n' with n by congruence.
  - destruct Ht as (ms & up & st & p & e & Hms & _). by exists ms.
Qed.

Lemma told_by_send a a' j ms st p e :
  out a' = out (send ms a) -> complete j st p e ∈ ms -> told a a' j.
Proof.
  intros [= Hs _] Hin. exists (map (pair (ag_open a)) ms), (ag_open a), st, p, e. split; [done|].
  apply list_elem_of_fmap. by eexists.
Qed.

Lemma told_after a b ms j st p e :
  out b = out a -> complete j st p e ∈ ms -> told a (send ms b) j.
Proof. intros [= Hs Ho]. apply told_by_send. unfold out, send; cbn. by rewrite Hs, Ho. Qed.

Lemma exit_settled x r n code a :
  ag_heap a !! r = Some n -> in_follows n = None ->
  settled (with_proc Gone) r a (onExit x r n code a).
Proof.
  intros Hn Hf. unfold onExit. destruct (in_aborted n) eqn:Hab.
  - split; cbn.
    + by split.
    + done.
    + intros n' _. unfold same_job. by split_and!.
    + by left.
    + intros n' Hn'. congruence.
    + exists []. by rewrite app_nil_r.
  - set (ms := match code with Some 0%Z => _ | _ => _ end).
    destruct (cleanup_spec x (in_containerName n) (in_jobId n)
      (send ms (update_ref r (with_proc Gone) a))) as (Hr & _ & Hs & _).
    apply (settled_cleanup _ _ _ _ n); [apply moved_cleanup|done|by split_and!|exact Hr|].
    assert (exists st p e, complete (in_jobId n) st p e ∈ ms) as (st & p & e & Hin).
    { destruct code as [[|c|c]|]; do 3 eexists; subst ms; [by right; left|by left..]. }
    exact (told_by_send _ _ _ _ _ _ _ Hs Hin).
Qed.

Lemma tick_settled x reach r n a :
  ag_heap a !! r = Some n -> exists f, settled f r a (onTick x reach r n a).
Proof.
  intros Hn. unfold onTick.
  assert (exists f, settled f r a a) as Hsame.
  { exists id. apply (settled_id r a []). unfold memory, out; cbn. by rewrite app_nil_r. }
  destruct (in_aborted n); [done|]. destruct (lostWorker _ _ _ _) as [[ip s]|]; [|done].
  set (f := fun n => with_aborted (with_watchdog false n)). exists f.
  destruct (cleanup_spec x (in_containerName n) (in_jobId n) (update_ref r f a))
    as (Hr & Ht & Hs & _ & Hq).
  apply (settled_cleanup _ _ _ _ n); [split; [exact Ht|exact Hq]|done|by split_and!|exact Hr|].
  eapply told_after; [exact Hs|by left].
Qed.

Lemma output_settled r n text a :
  ag_heap a !! r = Some n -> exists f, settled f r a (onOutput r n text a).
Proof.
  intros Hn. unfold onOutput. destruct (in_follows n) as [[b em]|] eqn:Hf.
  - destruct (Output.handleReattach _ _ _) as [fo es].
    exists (with_output (Output.fo_meter fo) (Some (b, Output.fo_emitted fo))). split; cbn.
    + by split.
    + done.
    + intros n' Hn'. replace n' with n by congruence. split_and!; [done..|]. cbn. rewrite Hf. by split.
    + by left.
    + by left.
    + by eexists.
  - destruct (Output.handleOutput _ _) as [m us]. exists (with_output m None). split; cbn.
    + by split.
    + done.
    + intros n' Hn'. replace n' with n by congruence. by split_and!.
    + by left.
    + by left.
    + by eexists.
Qed.

Lemma stop_settled x sh j a :
  wf a -> exists f r, settled f r a (onStop x sh j a).
Proof.
  intros Hwf. unfold onStop, stopFinetuneJob.
  destruct (ag_running a !! j) as [r|] eqn:Hj; cbn [mbind option_bind].
  - destruct (wf_running _ Hwf _ _ Hj) as (n & Hn & Hid & _ & _). rewrite Hn. cbn [fmap option_fmap option_map].
    exists with_aborted, r. destruct (cleanup_spec x (in_containerName n) j (update_ref r with_aborted a))
      as (Hr & Ht & Hs & _ & Hq).
    apply (settled_cleanup _ _ _ _ n); [split; [exact Ht|exact Hq]|done|by split_and!| |].
    + rewrite Hid. exact Hr.
    + rewrite Hid. eapply told_after; [exact Hs|by left].
  - exists id, 0. by apply (settled_id _ _ [complete j "stopped" None None]).
Qed.

(** ** [wf] holds throughout *)

Lemma settled_wf f r a a' : wf a -> settled f r a a' -> wf a'.
Proof.
  intros Hwf [Hm Hr Hs Ht _ _]. apply (wf_keep a); [done| |done|].
  - intros r' n Hn. destruct (decide (r' = r)) as [->|Hne].
    + destruct (moved_self _ _ _ _ _ Hm Hn) as (n' & Hn' & Hsame & Ha & _).
      exists n'. specialize (Hs _ Hn). split_and!; [done| |].
      * unfold same_job in *. destruct Hs as (?&?&?&?), Hsame as (?&?&?&?).
        by split_and!; [congruence..|tauto].
      * destruct (Ht _ Hn) as [Hx|Hx]; [left; congruence|right; by rewrite Hx].
    + destruct (moved_other _ _ _ _ _ _ Hm Hne Hn) as (n' & Hn' & ? & ? & _).
      exists n'. split_and!; [done..|by left].
  - intros t r' Hin _. destruct Hm as [Hts _]. left. by rewrite <- Hts.
Qed.

Lemma settled_live f r0 a a' j r : settled f r0 a a' -> live a j r -> live a' j r \/ told a a' j.
Proof.
  intros [Hm _ Hs _ Ht _] Hlive. destruct (moved_live _ _ _ _ _ _ Hm Hlive) as [Ho Hself].
  destruct (decide (r = r0)) as [->|Hne]; [|left; by apply Ho].
  destruct Hlive as (n & Hn & Hj & Hab & Hf & _).
  destruct (Ht _ Hn Hf Hab) as [[Ha Hp]|Hx]; [|right; by rewrite <- Hj]. left.
  apply Hself; [done|done|]. intros n' Hn'. replace n' with n by congruence. by rewrite Hab.
Qed.

Lemma wf_same a a' ms : memory a' = memory (send ms a) -> wf a -> wf a'.
Proof. destruct a, a'. intros [= -> -> -> -> ->] [Hr Ht]. by split. Qed.

Lemma reattach_wf sh a c : wf a -> wf (reattach sh a c).
Proof.
  intros [Hr Ht]. destruct c as [name b]. unfold reattach. destruct (_ || _); [by split|]. split; cbn.
  - intros j r. destruct (decide (jobIdPrefix name = j)) as [<-|Hne].
    + rewrite lookup_insert_eq. intros [= <-]. eexists.
      rewrite lookup_app_r, Nat.sub_diag by done. split; [done|]. by split_and!.
    + rewrite lookup_insert_ne by done. intros Hj. destruct (Hr _ _ Hj) as (n & Hn & Hx).
      exists n. by rewrite (lookup_app_l_Some _ _ _ _ Hn).
  - intros t r Hin Href. destruct (Ht t r Hin Href) as (n & Hn & Hx).
    exists n. by rewrite (lookup_app_l_Some _ _ _ _ Hn).
Qed.

Lemma open_wf sh ps a : wf a -> wf (onOpen sh ps a).
Proof.
  unfold onOpen. intros Ha. assert (wf (set_open true a)) as Hb by (destruct Ha; by split).
  revert Hb. generalize (set_open true a). clear a Ha.
  induction ps as [|c ps IH]; intros b Hb; cbn; [done|]. by apply IH, reattach_wf.
Qed.

Lemma restart_wf sh ps a : wf (onRestart sh ps a).
Proof. apply open_wf. split; cbn; [done|]. intros t r Ht. set_solver. Qed.

(** A socket that opens only adds followers. *)
Lemma open_spec sh ps a :
  (exists ns, ag_heap (onOpen sh ps a) = ag_heap a ++ ns) /\
  ag_tasks (onOpen sh ps a) = ag_tasks a /\ ag_log (onOpen sh ps a) = ag_log a /\
  ag_open (onOpen sh ps a) = true.
Proof.
  unfold onOpen. assert (forall b, (exists ns, ag_heap (foldl (reattach sh) b ps) = ag_heap b ++ ns) /\
    ag_tasks (foldl (reattach sh) b ps) = ag_tasks b /\ out (foldl (reattach sh) b ps) = out b) as H.
  { induction ps as [|[name l] ps IH]; intros b; cbn [foldl].
    - split; [exists []; by rewrite app_nil_r|done].
    - destruct (IH (reattach sh b (name, l))) as ([ns ->] & -> & ->). unfold reattach.
      destruct (_ || _); [by split; [eexists|]|]. split; [|done]. cbn. eexists. by rewrite <- app_assoc. }
  destruct (H (set_open true a)) as (Hh & Ht & [= Hl Ho]). done.
Qed.

(** An event that is no launch's own step and no restart. *)
Lemma other_step sh a e a' :
  wf a -> step sh a e = Some a' ->
  match e with
  | Exited _ _ _ | Ticked _ _ _ | Printed _ _ | Stop _ _ | Dies _ _ | Closed => True | _ => False end ->
  exists f r, settled f r a a'.
Proof.
  intros Hwf Hs He. destruct e as [| | | |j x|r code x|r reach x|r text|h name| | |]; try done; cbn in Hs.
  - injection Hs as <-. by apply stop_settled.
  - destruct (ag_heap a !! r) as [n|] eqn:Hn; [|done]. destruct (in_proc n) eqn:Hp; try done.
    destruct (in_follows n) eqn:Hf; injection Hs as <-; exists (with_proc Gone), r.
    + split; cbn; [by split|done|intros n' _; by split_and!|by left| |].
      * intros n' Hn'. congruence.
      * exists []. by rewrite app_nil_r.
    + by apply exit_settled.
  - destruct (ag_heap a !! r) as [n|] eqn:Hn; [|done]. destruct (in_watchdog n); [|done].
    injection Hs as <-. destruct (tick_settled x reach r n a Hn) as [f Hf]. eauto.
  - destruct (ag_heap a !! r) as [n|] eqn:Hn; [|done].
    assert (a' = onOutput r n text a) as -> by (by destruct (in_proc n); congruence).
    destruct (output_settled r n text a Hn) as [f Hf]. eauto.
  - destruct (ag_docker a !! (h, name)) as [[]|]; try done. injection Hs as <-. exists id, 0.
    apply (settled_id _ _ []). unfold memory, out; cbn. by rewrite app_nil_r.
  - injection Hs as <-. exists id, 0. split; cbn; [exact (moved_id 0 a)|done| |by left|by left|].
    + intros n _. unfold same_job. by split_and!.
    + exists []. by rewrite app_nil_r.
Qed.

(** The steps of a launch whose import is there. *)
Lemma import_step sh a i rc x a' :
  step sh a (Imported i rc x) = Some a' ->
  exists o, ag_tasks a !! i = Some (TImport o) /\
    match rc with
    | None => exists e, memory a' = memory (send [failed (or_jobId o) e] (settle i a))
    | Some _ => outcome i o (length (ag_heap a)) (registered x sh o a) a'
    end.
Proof.
  cbn. destruct (ag_tasks a !! i) as [[o| | |]|]; try done. intros [= <-]. exists o.
  split; [done|]. destruct rc as [rc|]; [apply imported_outcome|].
  by exists ("Could not parse recipe: " +:+ or_recipeFile o).
Qed.

Lemma step_wf sh a e a' : wf a -> step sh a e = Some a' -> wf a'.
Proof.
  intros Hwf Hs. destruct e as [o b|i rc x|i code x|i x|j x|r code x|r reach x|r text|h name|ps| |ps].
  5-9, 11: destruct (other_step sh a _ a' Hwf Hs I) as (f & r' & Hf); by eapply settled_wf.
  - cbn in Hs. injection Hs as <-. destruct b; [|by eapply wf_same].
    destruct Hwf as [Hr Ht]. split; [done|]. cbn. intros t r [Hin|Hin%list_elem_of_singleton]%elem_of_app;
      [by apply Ht|by subst].
  - destruct (import_step _ _ _ _ _ _ Hs) as (o & Hi & Ho). destruct rc as [rc|].
    + eapply outcome_wf; [by apply registered_wf| |exact Ho]. exists (newInstance o).
      by rewrite registered_new.
    + destruct Ho as [e Ho]. apply (wf_same (settle i a) _ _ Ho). destruct Hwf as [Hr Ht]. split; [done|].
      cbn. intros t r Hin%elem_of_delete. by apply Ht.
  - destruct (task_step sh a _ a' i x Hs (conj eq_refl eq_refl)) as (t & r & Hi & Ht & Ho).
    eapply outcome_wf; [done| |exact Ho]. apply (wf_tasks _ Hwf); [by eapply list_elem_of_lookup_2|done].
  - destruct (task_step sh a _ a' i x Hs (conj eq_refl eq_refl)) as (t & r & Hi & Ht & Ho).
    eapply outcome_wf; [done| |exact Ho]. apply (wf_tasks _ Hwf); [by eapply list_elem_of_lookup_2|done].
  - cbn in Hs. destruct (listed _ _); [|done]. injection Hs as <-. apply restart_wf.
  - cbn in Hs. destruct (listed _ _); [|done]. injection Hs as <-. by apply open_wf.
Qed.

Lemma run_wf sh a es a' : wf a -> run sh a es = Some a' -> wf a'.
Proof.
  revert a. induction es as [|e es IH]; intros a Hwf Hr; cbn [run] in Hr; [by injection Hr as <-|].
  destruct (step sh a e) as [b|] eqn:Hs; [|done]. cbn in Hr. eapply IH; [by eapply step_wf|done].
Qed.

(** ** Runs *)

(** What was sent and made stays. *)
Definition grown (a a' : agent) : Prop :=
  (exists ms, ag_log a' = ag_log a ++ ms) /\ length (ag_heap a) <= length (ag_heap a').

Definition restarts (e : event) : bool := match e with Restarted _ => true | _ => false end.

Lemma quiet_length a a' : quiet a' = quiet a -> length (ag_heap a') = length (ag_heap a).
Proof. intros H%(f_equal length). unfold quiet in H. by rewrite !length_map in H. Qed.

Lemma outcome_grown i o r a a' : outcome i o r a a' -> grown a a'.
Proof.
  unfold grown. destruct 1 as [e _ Hq _ [= Hs _]|_ _ Hq _ [= Hs _]|_ Hh _ [= Hs _]|t _ _ _ Hh _ [= Hs _]].
  - rewrite (quiet_length _ _ Hq). split; [by eexists|done].
  - rewrite (quiet_length _ _ Hq). split; [exists []; by rewrite app_nil_r|done].
  - rewrite Hh, length_alter. split; [exists []; by rewrite app_nil_r|done].
  - rewrite Hh. split; [exists []; by rewrite app_nil_r|done].
Qed.

Lemma settled_grown f r a a' : settled f r a a' -> grown a a'.
Proof.
  intros [[_ Hq] _ _ _ _ Hs]. split; [done|].
  apply (f_equal length) in Hq. unfold quiet in Hq. rewrite !length_map, length_alter in Hq. lia.
Qed.

Lemma registered_grown x sh o a a' : grown (registered x sh o a) a' -> grown a a'.
Proof.
  destruct (registered_spec x sh o a) as (Eh & _ & _ & Es%out_log). intros [[ms Hs] Hl].
  rewrite Eh, length_app in Hl. rewrite Es in Hs. split; [by exists ms|lia].
Qed.

Lemma step_grown sh a e a' : wf a -> restarts e = false -> step sh a e = Some a' -> grown a a'.
Proof.
  intros Hwf He Hs. destruct e as [o b|i rc x|i code x|i x|j x|r code x|r reach x|r text|h name|ps| |ps].
  5-9, 11: destruct (other_step sh a _ a' Hwf Hs I) as (f & r' & Hf); by eapply settled_grown.
  - cbn in Hs. injection Hs as <-. destruct b; (split; [|done]); cbn; [exists []; by rewrite app_nil_r|by eexists].
  - destruct (import_step _ _ _ _ _ _ Hs) as (o & Hi & Ho). destruct rc as [rc|].
    + eapply registered_grown, outcome_grown, Ho.
    + destruct Ho as [e Ho]. unfold memory in Ho. injection Ho as Hh _ _ Hm _. split; [by eexists|].
      rewrite Hh. done.
  - destruct (task_step sh a _ a' i x Hs (conj eq_refl eq_refl)) as (t & r & _ & _ & Ho).
    by eapply outcome_grown.
  - destruct (task_step sh a _ a' i x Hs (conj eq_refl eq_refl)) as (t & r & _ & _ & Ho).
    by eapply outcome_grown.
  - done.
  - cbn in Hs. destruct (listed _ _); [|done]. injection Hs as <-.
    destruct (open_spec sh ps a) as ([ns Hh] & _ & Hl & _). split; [exists []; by rewrite app_nil_r|].
    rewrite Hh, length_app. lia.
Qed.

Lemma told_trans a b c j : told a b j -> grown b c -> told a c j.
Proof.
  intros (ms & up & st & p & e & Hs & Hin) [[ms' Hs'] _].
  exists (ms ++ ms'), up, st, p, e. split; [by rewrite Hs', Hs, app_assoc|set_solver].
Qed.

Lemma grown_told a b c j : grown a b -> told b c j -> told a c j.
Proof.
  intros [[ms' Hs'] _] (ms & up & st & p & e & Hs & Hin).
  exists (ms' ++ ms), up, st, p, e. split; [by rewrite Hs, Hs', app_assoc|set_solver].
Qed.

Lemma step_live sh a e a' j r :
  wf a -> restarts e = false -> step sh a e = Some a' -> live a j r -> live a' j r \/ told a a' j.
Proof.
  intros Hwf He Hs Hl.
  destruct e as [o b|i rc x|i code x|i x|j' x|r' code x|r' reach x|r' text|h name|ps| |ps].
  5-9, 11: destruct (other_step sh a _ a' Hwf Hs I) as (f & r0 & Hf); by eapply settled_live.
  - cbn in Hs. injection Hs as <-. left. destruct Hl as (n & Hn & Hj & Ha & Hf & Hw).
    destruct b; exists n; (split_and!; [done..|]); [|done].
    destruct Hw as [(t & Hin & Ht)|Hp]; [left|by right]. exists t. split; [cbn; set_solver|done].
  - destruct (import_step _ _ _ _ _ _ Hs) as (o & Hi & Ho). left.
    destruct Hl as (n & Hn & Hl). destruct rc as [rc|].
    + destruct (registered_spec x sh o a) as (Eh & _ & Et & _).
      eapply (outcome_other i o _ _ _ j r (TImport o)); [by rewrite Et|done| |exact Ho|].
      * apply lookup_lt_Some in Hn. lia.
      * exists n. rewrite Eh, Et, (lookup_app_l_Some _ _ _ _ Hn). done.
    + destruct Ho as [e Ho]. unfold memory in Ho. injection Ho as Hh _ Ht _ _.
      exists n. rewrite Hh, Ht. split; [done|]. destruct Hl as (? & ? & ? & Hw). split_and!; [done..|].
      destruct Hw as [(t & Hin & Htr)|Hp]; [left|by right]. exists t. split; [|done]. cbn.
      destruct (elem_of_delete_or _ _ _ _ Hi Hin) as [->|?]; done.
  - destruct (task_step sh a _ a' i x Hs (conj eq_refl eq_refl)) as (t & r0 & Hi & Ht & Ho).
    eapply outcome_live; [done..| |done|done]. apply (wf_tasks _ Hwf); [by eapply list_elem_of_lookup_2|done].
  - destruct (task_step sh a _ a' i x Hs (conj eq_refl eq_refl)) as (t & r0 & Hi & Ht & Ho).
    eapply outcome_live; [done..| |done|done]. apply (wf_tasks _ Hwf); [by eapply list_elem_of_lookup_2|done].
  - done.
  - cbn in Hs. destruct (listed _ _); [|done]. injection Hs as <-. left.
    destruct (open_spec sh ps a) as ([ns Hh] & Ht & _). destruct Hl as (n & Hn & Hl).
    exists n. rewrite Hh, Ht. split; [by rewrite (lookup_app_l_Some _ _ _ _ Hn)|done].
Qed.

(** The tasks other than the one that takes the step stay. *)
Lemma outcome_rest i o r a a' t0 t :
  ag_tasks a !! i = Some t0 -> t ∈ delete i (ag_tasks a) -> outcome i o r a a' -> t ∈ ag_tasks a'.
Proof.
  intros Hi Hin [e Ht _ _ _|_ Ht _ _ _|Ht _ _ _|t' _ _ Ht _ _ _]; rewrite Ht; [done..|].
  destruct (split_at _ _ _ Hi) as (l1 & l2 & _ & Hd & Hins). rewrite Hd in Hin. rewrite Hins. set_solver.
Qed.

(** A launch that waits for the import. *)
Lemma step_import sh a e a' o :
  wf a -> restarts e = false -> step sh a e = Some a' -> TImport o ∈ ag_tasks a ->
  TImport o ∈ ag_tasks a' \/ live a' (or_jobId o) (length (ag_heap a)) \/ told a a' (or_jobId o).
Proof.
  intros Hwf He Hs Hin.
  destruct e as [o' b|i rc x|i code x|i x|j' x|r' code x|r' reach x|r' text|h name|ps| |ps].
  5-9, 11: destruct (other_step sh a _ a' Hwf Hs I) as (f & r0 & [[Ht _] _ _ _ _ _]); left; by rewrite Ht.
  - cbn in Hs. injection Hs as <-. left. destruct b; [|done]. cbn. set_solver.
  - destruct (import_step _ _ _ _ _ _ Hs) as (o' & Hi & Ho).
    destruct (elem_of_delete_or _ _ _ _ Hi Hin) as [[= <-]|Hrest].
    + right. destruct rc as [rc|].
      * destruct (registered_spec x sh o a) as (_ & _ & Et & Es).
        destruct (outcome_self i o _ _ a' (newInstance o) ltac:(by rewrite Et, Hi) (registered_new x sh o a)
                    eq_refl eq_refl eq_refl Ho) as [?|Ht]; [by left|right].
        apply out_log in Es. eapply grown_told; [|exact Ht]. split; [exists []; by rewrite Es, app_nil_r|].
        destruct (registered_spec x sh o a) as (-> & _). rewrite length_app. lia.
      * right. destruct Ho as [e Ho]. unfold memory in Ho. injection Ho as _ _ _ Hm Ho'.
        apply (told_by_send a a' _ [failed (or_jobId o) e] "failed" None (Some e)); [|by left].
        unfold out. by rewrite Hm, Ho'.
    + left. destruct rc as [rc|].
      * destruct (registered_spec x sh o' a) as (_ & _ & Et & _).
        eapply (outcome_rest i); [by rewrite Et|by rewrite Et|exact Ho].
      * destruct Ho as [e Ho]. unfold memory in Ho. injection Ho as _ _ Ht _ _. by rewrite Ht.
  - destruct (task_step sh a _ a' i x Hs (conj eq_refl eq_refl)) as (t & r & Hi & Ht & Ho). left.
    destruct (elem_of_delete_or _ _ _ _ Hi Hin) as [<-|Hrest]; [done|]. by eapply outcome_rest.
  - destruct (task_step sh a _ a' i x Hs (conj eq_refl eq_refl)) as (t & r & Hi & Ht & Ho). left.
    destruct (elem_of_delete_or _ _ _ _ Hi Hin) as [<-|Hrest]; [done|]. by eapply outcome_rest.
  - done.
  - cbn in Hs. destruct (listed _ _); [|done]. injection Hs as <-. left.
    by destruct (open_spec sh ps a) as (_ & -> & _).
Qed.

(** Where a launch ordered when the state was [a] stands in [b]. *)
Definition accounted (a b : agent) (o : order) : Prop :=
  TImport o ∈ ag_tasks b \/ (exists r, length (ag_heap a) <= r /\ live b (or_jobId o) r) \/
  told a b (or_jobId o).

Lemma grown_trans a b c : grown a b -> grown b c -> grown a c.
Proof.
  intros [[ms Hs] Hl] [[ms' Hs'] Hl']. split; [|lia]. exists (ms ++ ms'). by rewrite Hs', Hs, app_assoc.
Qed.

Lemma accounted_step sh a b e c o :
  wf b -> grown a b -> restarts e = false -> step sh b e = Some c ->
  accounted a b o -> accounted a c o.
Proof.
  intros Hwf Hg He Hs [Hin|[(r & Hr & Hl)|Ht]].
  - destruct (step_import _ _ _ _ _ Hwf He Hs Hin) as [?|[?|?]]; [by left|right; left|right; right].
    + exists (length (ag_heap b)). by split; [apply Hg|].
    + by eapply grown_told.
  - destruct (step_live _ _ _ _ _ _ Hwf He Hs Hl); right; [left; eauto|right; by eapply grown_told].
  - right; right. eapply told_trans; [done|]. by eapply step_grown.
Qed.

Lemma accounted_run sh a b es c o :
  wf b -> grown a b -> Forall (fun e => restarts e = false) es -> run sh b es = Some c ->
  accounted a b o -> accounted a c o.
Proof.
  revert b. induction es as [|e es IH]; intros b Hwf Hg Hes Hr Hacc; cbn [run] in Hr.
  - by injection Hr as <-.
  - apply Forall_cons in Hes as [He Hes]. destruct (step sh b e) as [b'|] eqn:Hs; [|done].
    cbn in Hr. apply (IH b'); [by eapply step_wf| |done|done|by eapply accounted_step].
    eapply grown_trans; [done|]. by eapply step_grown.
Qed.

(** ** The link *)

Definition stays_up (e : event) : Prop := e <> Closed.

Lemma went_app b l1 l2 : omap (went b) (l1 ++ l2) = omap (went b) l1 ++ omap (went b) l2.
Proof. apply omap_app. Qed.

Lemma went_tagged b up ms :
  omap (went b) (map (pair up) ms) = if Bool.eqb up b then ms else [].
Proof. induction ms as [|m ms IH]; cbn; [by destruct (Bool.eqb up b)|]. unfold went at 1. cbn [fst snd].
  rewrite IH. by destruct (Bool.eqb up b).
Qed.

(** On an open socket everything said goes out. *)
Lemma sent_open a b ms :
  ag_open a = true -> ag_log b = ag_log a ++ map (pair (ag_open a)) ms ->
  ag_sent b = ag_sent a ++ ms /\ ag_lost b = ag_lost a.
Proof.
  intros Ho Hl. unfold ag_sent, ag_lost. rewrite Hl, !went_app, !went_tagged, Ho. cbn.
  by rewrite app_nil_r.
Qed.

Lemma out_spec a b : out b = out a -> ag_sent b = ag_sent a /\ ag_lost b = ag_lost a /\ ag_open b = ag_open a.
Proof. unfold ag_sent, ag_lost. by intros [= -> ->]. Qed.

(** What an agent whose output is that of [a] says next, when the link of [a] is up. *)
Lemma sent_next a b ms : out b = out a -> ag_open a = true -> ag_sent (send ms b) = ag_sent a ++ ms.
Proof. intros [= Hl Ho] Ha. apply sent_open; [done|]. cbn. by rewrite Hl, Ho. Qed.

(** While the link is up, nothing is lost. *)
Definition up_since (a b : agent) : Prop := ag_open b = true /\ ag_lost b = ag_lost a.

Lemma up_out a b c : out c = out b -> up_since a b -> up_since a c.
Proof. intros (_ & Hl & Ho)%out_spec [H1 H2]. split; congruence. Qed.

Lemma up_send a b c ms : out c = out (send ms b) -> up_since a b -> up_since a c.
Proof.
  intros [= Hl Ho] [H1 H2]. split; [congruence|].
  destruct (sent_open b c ms H1 Hl) as [_ ->]. done.
Qed.

Lemma up_outcome i o r a0 a a' : outcome i o r a a' -> up_since a0 a -> up_since a0 a'.
Proof.
  destruct 1 as [e _ _ _ Hs|_ _ _ _ Hs|_ _ _ Hs|t _ _ _ _ _ Hs];
    [by apply (up_send _ _ _ [failed (or_jobId o) e])|by apply up_out..].
Qed.

Lemma up_cleanup x name j a0 a : up_since a0 a -> up_since a0 (cleanup x name j a).
Proof. apply up_out. apply cleanup_spec. Qed.

Lemma up_stop x sh j a0 a : up_since a0 a -> up_since a0 (onStop x sh j a).
Proof.
  intros H. unfold onStop. eapply (up_send _ (stopFinetuneJob x sh j a)); [reflexivity|].
  unfold stopFinetuneJob. destruct (_ ≫= _) as [[r n]|]; [by apply up_cleanup|exact H].
Qed.

Lemma up_step sh a0 a e a' :
  step sh a e = Some a' -> stays_up e -> up_since a0 a -> up_since a0 a'.
Proof.
  intros Hs He H.
  destruct e as [o b|i rc x|i code x|i x|j x|r code x|r reach x|r text|h name|ps| |ps]; try done.
  2: { destruct (import_step _ _ _ _ _ _ Hs) as (o & _ & Ho). destruct rc as [rc|].
       - eapply up_outcome; [exact Ho|]. eapply up_out; [apply registered_spec|exact H].
       - destruct Ho as [e Ho]. injection Ho as _ _ _ Hl Ho.
         apply (up_send _ a _ [failed (or_jobId o) e]); [unfold out; by rewrite Hl, Ho|exact H]. }
  2: { destruct (task_step sh a _ a' i x Hs (conj eq_refl eq_refl)) as (t & r & _ & _ & Ho). by eapply up_outcome. }
  2: { destruct (task_step sh a _ a' i x Hs (conj eq_refl eq_refl)) as (t & r & _ & _ & Ho). by eapply up_outcome. }
  all: cbn in Hs.
  - injection Hs as <-. destruct b; [exact H|].
    by apply (up_send _ a _ [failed (or_jobId o) ("Recipe not found: " +:+ or_recipeFile o)]).
  - injection Hs as <-. by apply up_stop.
  - destruct (ag_heap a !! r) as [n|]; [|done]. destruct (in_proc n); try done.
    destruct (in_follows n); injection Hs as <-; [exact H|]. unfold onExit.
    destruct (in_aborted n); [exact H|]. apply up_cleanup. by eapply (up_send _ a).
  - destruct (ag_heap a !! r) as [n|]; [|done]. destruct (in_watchdog n); [|done].
    injection Hs as <-. unfold onTick. destruct (in_aborted n); [done|].
    destruct (lostWorker _ _ _ _) as [[ip s]|]; [|done].
    eapply (up_send _ (cleanup _ _ _ _)); [reflexivity|]. by apply up_cleanup.
  - destruct (ag_heap a !! r) as [n|]; [|done].
    assert (a' = onOutput r n text a) as -> by (by destruct (in_proc n); congruence).
    unfold onOutput. destruct (in_follows n) as [[b em]|].
    + destruct (Output.handleReattach _ _ _) as [f es]. by eapply (up_send _ a).
    + destruct (Output.handleOutput _ _) as [m us]. by eapply (up_send _ a).
  - destruct (ag_docker a !! (h, name)) as [[]|]; try done. by injection Hs as <-.
  - destruct (listed _ _); [|done]. injection Hs as <-. unfold onRestart.
    destruct (open_spec sh ps (set_tasks (fun _ => []) (set_running (fun _ => ∅) (set_heap (fun _ => []) a))))
      as (_ & _ & Hl & Ho). split; [exact Ho|]. destruct H as [_ H]. rewrite <- H. unfold ag_lost. by rewrite Hl.
  - destruct (listed _ _); [|done]. injection Hs as <-. destruct (open_spec sh ps a) as (_ & _ & Hl & Ho).
    split; [exact Ho|]. destruct H as [_ H]. rewrite <- H. unfold ag_lost. by rewrite Hl.
Qed.

Lemma up_run sh a0 a es b :
  run sh a es = Some b -> Forall stays_up es -> up_since a0 a -> up_since a0 b.
Proof.
  revert a. induction es as [|e es IH]; intros a Hr Hes H; cbn [run] in Hr; [by injection Hr as <-|].
  apply Forall_cons in Hes as [He Hes]. destruct (step sh a e) as [c|] eqn:Hs; [|done].
  cbn in Hr. apply (IH c); [done|done|]. by eapply up_step.
Qed.

(** A completion of [j] is among the messages that came to [l]. *)
Definition completes (j : string) (l : list message) : Prop := exists st p e, complete j st p e ∈ l.

Lemma told_completes a b j :
  told a b j -> exists ms ls, ag_sent b = ag_sent a ++ ms /\ ag_lost b = ag_lost a ++ ls /\
    (completes j ms \/ completes j ls).
Proof.
  intros (ms & up & st & p & e & Hl & Hin). exists (omap (went true) ms), (omap (went false) ms).
  unfold ag_sent, ag_lost. rewrite Hl, !went_app. split_and!; [done..|].
  destruct up; [left|right]; exists st, p, e; apply list_elem_of_omap; by eexists.
Qed.

(** C16: No launch is forgotten: whatever happens to the node short of a restart of its agent,
    the link going down and up included, a launch that was ordered still waits for the
    recipes, or is set up or trains, not aborted, as an instance made since, or the manager
    was sent a completion of its job since the order, or the completion was dropped because
    the link was down (and is never sent again).  While the link stays up nothing is
    dropped. *)
Theorem no_launch_forgotten sh es0 a o recipeExists es b :
  run sh init es0 = Some a -> Forall (fun e => restarts e = false) es ->
  run sh a (Start o recipeExists :: es) = Some b ->
  (TImport o ∈ ag_tasks b \/ (exists r, length (ag_heap a) <= r /\ live b (or_jobId o) r) \/
   exists ms ls, ag_sent b = ag_sent a ++ ms /\ ag_lost b = ag_lost a ++ ls /\
     (completes (or_jobId o) ms \/ completes (or_jobId o) ls)) /\
  (ag_open a = true -> Forall (fun e => e <> Closed) es -> ag_lost b = ag_lost a).
Proof.
  intros Ha Hes Hr. pose proof (run_wf _ _ _ _ wf_init Ha) as Hwf. split.
  - assert (accounted a b o) as [?|[?|Ht]]; [|by left|by right; left|].
    2: { right; right. by apply told_completes. }
    cbn [run] in Hr. destruct (step sh a (Start o recipeExists)) as [a1|] eqn:Hs; [|done]. cbn in Hr.
    eapply accounted_run; [exact (step_wf _ _ _ _ Hwf Hs)|exact (step_grown _ _ (Start o recipeExists) _ Hwf eq_refl Hs)|done|done|].
    cbn in Hs. injection Hs as <-. destruct recipeExists; [left; cbn; set_solver|].
    right; right. by eapply told_after; [reflexivity|left].
  - intros Ho Hup. assert (up_since a b) as [_ ?]; [|done].
    eapply (up_run sh a a); [exact Hr|by constructor|by split].
Qed.
