(* ===== verification/AgentTrainStops.v ===== *)
(** How a node's fine-tune jobs end: set-ups end, what a stop removes and what comes after
    it, a lost worker, and what becomes of a training found running after a restart, up to
    the rows of the manager that receives the messages. *)
From S2P Require Import Prelude JsNum Recipes Schema AgentHub TrainParse AgentTrain AgentTrainFacts.
Import Args Machine.

(** ** Set-ups end *)

Definition workers (o : order) : nat := length (default [] (workerIps o)).

(** The wakes a wait may still take, when [c] have passed. *)
Definition weight (c : nat) (t : task) : nat :=
  match t with
  | TReady o _ _ _ => S (59 - c) + 60 * workers o
  | TWorker _ _ _ _ rest k => 60 * length rest + (60 - k)
  | _ => 0
  end.

Definition waiting (t : task) : bool :=
  match t with TReady _ _ _ _ => true | TWorker _ _ _ _ _ k => (k <? 60)%nat | _ => false end.

Lemma fail_tasks x o e a t : ag_tasks a = [t] -> ag_tasks (fail_ x 0 o e a) = [].
Proof.
  intros Ha. unfold fail_. destruct (cleanup_spec x (containerName (or_jobId o)) (or_jobId o)
    (send [failed (or_jobId o) e] (settle 0 a))) as (_ & -> & _). cbn. by rewrite Ha.
Qed.

Lemma withdraw_tasks x o a t : ag_tasks a = [t] -> ag_tasks (withdraw x 0 o a) = [].
Proof.
  intros Ha. unfold withdraw. destruct (cleanup_spec x (containerName (or_jobId o)) (or_jobId o)
    (settle 0 a)) as (_ & -> & _). cbn. by rewrite Ha.
Qed.

(** What the loop over the workers leaves to wait for. *)
Lemma startWorkers_tasks x o rc r ips a t :
  ag_tasks a = [t] ->
  ag_tasks (startWorkers x 0 o rc r ips a) = [] \/
  exists ip rest, ag_tasks (startWorkers x 0 o rc r ips a) = [TWorker o rc r ip rest 0] /\
                  (length rest < length ips)%nat.
Proof.
  revert a. induction ips as [|ip ips IH]; intros a Ha; cbn; [left; cbn; by rewrite Ha|].
  destruct (negb _); [left; by eapply fail_tasks|].
  destruct (negb _); [right; exists ip, ips; cbn; rewrite Ha; auto|].
  destruct (_ && _); [|left; by eapply fail_tasks].
  destruct (IH (set_docker <[(Some ip, containerName (or_jobId o)) := true]>
    (set_docker (rm (an_ok x (CWorkerRm ip)) (Some ip) (containerName (or_jobId o))) a)) Ha)
    as [Hi|(ip' & rest & Hi & Hl)]; [by left|right]. exists ip', rest. split; [exact Hi|lia].
Qed.

Lemma ready_tasks x o rc r a t :
  ag_tasks a = [t] ->
  ag_tasks (ready x 0 o rc r a) = [] \/
  exists ip rest, ag_tasks (ready x 0 o rc r a) = [TWorker o rc r ip rest 0] /\
                  (length rest < workers o)%nat.
Proof.
  intros Ha. unfold ready, workers. destruct (isAborted r a); [left; by eapply withdraw_tasks|].
  destruct (workerIps o) as [ips|]; [|left; cbn; by rewrite Ha].
  destruct (an_ok x CHostfile); [by eapply startWorkers_tasks|left; by eapply fail_tasks].
Qed.

(** A wake of the only launch in flight ends it or leaves it less to wait. *)
Lemma woke_weight sh a x c t :
  ag_tasks a = [t] -> waiting t = true ->
  match t with TReady _ _ _ start => (start + 5000 * (Z.of_nat c + 1) <= an_now x)%Z | _ => True end ->
  exists b, step sh a (Woke 0 x) = Some b /\
    (ag_tasks b = [] \/
     exists t', ag_tasks b = [t'] /\ waiting t' = true /\ (weight (S c) t' < weight c t)%nat /\
       match t' with TReady _ _ _ _ => t' = t | _ => True end).
Proof.
  intros Ha Hw Ht. destruct t as [| |o rc r start|o rc r ip rest k]; try done;
    cbn [step]; rewrite Ha; cbn [lookup list_lookup]; (eexists; split; [done|]).
  - unfold waitForReady, READY_TIMEOUT. destruct (_ <? _)%Z eqn:Hlate; [|left; by eapply fail_tasks].
    apply Z.ltb_lt in Hlate.
    destruct (_ && _); [|right; exists (TReady o rc r start); cbn [ag_tasks advance set_tasks]; rewrite Ha;
      split_and!; [done|done|cbn; lia|done]].
    destruct (ready_tasks x o rc r a _ Ha) as [?|(ip & rest & Hr & Hl)]; [by left|right].
    exists (TWorker o rc r ip rest 0). split_and!; [exact Hr|done|cbn; lia|done].
  - cbn in Hw. apply Nat.leb_le in Hw.
    destruct (S k <? 60)%nat eqn:Hk; [|left; by eapply fail_tasks]. apply Nat.ltb_lt in Hk.
    unfold probeWorker. destruct (_ && _).
    + destruct (_ && _); [|left; by eapply fail_tasks].
      destruct (startWorkers_tasks x o rc r rest a _ Ha) as [?|(ip' & rest' & Hr & Hl)]; [by left|right].
      exists (TWorker o rc r ip' rest' 0). split_and!; [exact Hr|done|cbn; lia|done].
    + right. exists (TWorker o rc r ip rest (S k)). cbn [ag_tasks advance set_tasks]. rewrite Ha.
      split_and!; [done|by apply Nat.ltb_lt|cbn; lia|done].
Qed.

(** The wakes of a launch that is alone on its node, each five seconds at least after the last:
    the first [m] of them. *)
Definition wakes (xs : list answers) : list event := map (Woke 0) xs.

Lemma wakes_end sh xs c a t :
  ag_tasks a = [t] -> waiting t = true ->
  match t with
  | TReady _ _ _ start =>
      forall k x, xs !! k = Some x -> (start + 5000 * (Z.of_nat (c + k) + 1) <= an_now x)%Z
  | _ => True
  end ->
  (weight c t <= length xs)%nat ->
  exists m b, (m <= weight c t)%nat /\ run sh a (wakes (take m xs)) = Some b /\ ag_tasks b = [].
Proof.
  revert c a t. induction xs as [|x xs IH]; intros c a t Ha Hw Hnow Hlen.
  { exfalso. destruct t as [| |o rc r start|o rc r ip rest k]; cbn in *; try done; [lia|].
    apply Nat.leb_le in Hw. lia. }
  destruct (woke_weight sh a x c t Ha Hw) as (b & Hb & [Hend|(t' & Ht' & Hw' & Hlt & Hsame)]).
  { destruct t; try done. specialize (Hnow 0 x eq_refl). by rewrite Nat.add_0_r in Hnow. }
  - exists 1, b. assert (0 < weight c t)%nat as Hpos.
    { destruct t; cbn in *; try done; [lia|]. apply Nat.leb_le in Hw. lia. }
    split; [lia|]. split; [|done]. cbn [wakes map take run]. rewrite Hb. by destruct xs.
  - destruct (IH (S c) b t' Ht' Hw') as (m & b' & Hm & Hr & Hb').
    + destruct t'; try done. subst t. intros k y Hy. specialize (Hnow (S k) y Hy).
      by replace (S c + k)%nat with (c + S k)%nat by lia.
    + cbn in Hlen. lia.
    + exists (S m), b'. split; [lia|]. split; [|done]. unfold wakes. cbn [take map run]. by rewrite Hb.
Qed.

(** C18: Set-ups end: the launch of a container that has just been started, alone on its node and
    woken every five seconds or less often, is over after at most sixty wakes and sixty more
    for every worker, whatever docker and the workers answer. *)
Theorem setups_end sh a o rc r start xs :
  ag_tasks a = [TReady o rc r start] ->
  (forall k x, xs !! k = Some x -> (start + 5000 * (Z.of_nat k + 1) <= an_now x)%Z) ->
  (60 + 60 * workers o <= length xs)%nat ->
  exists m b, (m <= 60 + 60 * workers o)%nat /\ run sh a (wakes (take m xs)) = Some b /\ ag_tasks b = [].
Proof. intros Ha Hnow Hlen. by apply (wakes_end sh xs 0 a _ Ha). Qed.

(** ** What a stop removes *)

(** Every removal the code asks for is carried out. *)
Definition removes (x : answers) : Prop := an_ok x CRm = true /\ forall ip, an_ok x (CWorkerRm ip) = true.

Lemma rm_lookup (ok : bool) (h0 : option string) (name : string) (d : containers) (h : option string) (n : string) :
  ok = true -> rm ok h0 name d !! (h, n) = if decide ((h0, name) = (h, n)) then None else d !! (h, n).
Proof.
  intros ->. unfold rm. destruct (decide _) as [[= <- <-]|Hne]; [apply lookup_delete_eq|].
  by rewrite lookup_delete_ne.
Qed.

Lemma rmWorkers_lookup x name ips d h n :
  removes x ->
  rmWorkers x name ips d !! (h, n) =
    if decide (n = name /\ h ∈ map Some ips) then None else d !! (h, n).
Proof.
  intros [_ Hx]. unfold rmWorkers. revert d. induction ips as [|ip ips IH]; intros d; cbn [foldl map].
  - rewrite decide_False; [done|]. intros [_ ?%elem_of_nil]. done.
  - rewrite IH, rm_lookup by done.
    destruct (decide (n = name /\ h ∈ map Some ips)) as [[-> ?]|H];
      [by rewrite decide_True by (split; [done|by right])|].
    destruct (decide ((Some ip, name) = (h, n))) as [[= <- <-]|Hne].
    + by rewrite decide_True by (split; [done|by left]).
    + rewrite decide_False; [done|]. intros [-> [->|Hin]%elem_of_cons]; [done|]. by apply H.
Qed.

(** The containers of a name on this node and on [ips], removed in either order. *)
Lemma rm_everywhere x name ips d h n :
  removes x ->
  rm (an_ok x CRm) None name (rmWorkers x name ips d) !! (h, n) =
    (if decide (n = name /\ h ∈ None :: map Some ips) then None else d !! (h, n)) /\
  rmWorkers x name ips (rm (an_ok x CRm) None name d) !! (h, n) =
    (if decide (n = name /\ h ∈ None :: map Some ips) then None else d !! (h, n)).
Proof.
  intros Hx. rewrite rmWorkers_lookup, !rm_lookup, rmWorkers_lookup by (done || apply Hx).
  repeat destruct (decide _) as [?|?]; try done; exfalso; set_solver.
Qed.


Lemma cleanup_docker x name j a :
  ag_docker (cleanup x name j a) =
  rm (an_ok x CRm) None name
    (rmWorkers x name (default [] (r ← ag_running a !! j; i ← ag_heap a !! r; in_workerIps i)) (ag_docker a)).
Proof. unfold cleanup. by destruct (ag_running a !! j). Qed.


(** ** The manager's rows *)

(** The hub receives messages of an agent's socket, one after the other. *)
Definition deliver (w : world) (ws : nat) (now : Z) (ms : list message) : world :=
  foldl (fun w m => (onMessage w ws m now "" (fun _ => None)).1) w ms.

Definition jobRow (w : world) (jobId : string) : option finetune_job :=
  tbl_find jobId (finetuneJobs (w_db w)).

Lemma complete_row w ws now j st p e row :
  is_Some (conns w !! ws) -> jobRow w j = Some row ->
  let w' := (onMessage w ws (complete j st p e) now "" (fun _ => None)).1 in
  is_Some (conns w' !! ws) /\
  exists row', jobRow w' j = Some row' /\ f_status row' = st /\ f_outputPath row' = p.
Proof.
  intros [c Hc] Hrow. unfold onMessage, complete. rewrite Hc. unfold onFinetuneComplete, jobReport, job_update.
  unfold jobRow in Hrow. rewrite Hrow. cbn [fst]. split; [by exists c|].
  unfold jobRow. cbn [w_db set_db finetuneJobs db_jobs].
  rewrite tbl_find_update by apply patch_job_id. rewrite String.eqb_refl, Hrow.
  eexists. split; [done|]. by destruct row, e.
Qed.

(** The last completion of a job decides its row. *)
Lemma deliver_last w ws now j st1 p1 e1 st p e row :
  is_Some (conns w !! ws) -> jobRow w j = Some row ->
  exists row', jobRow (deliver w ws now [complete j st1 p1 e1; complete j st p e]) j = Some row' /\
               f_status row' = st.
Proof.
  intros Hc Hrow. cbn [deliver foldl].
  destruct (complete_row w ws now j st1 p1 e1 row Hc Hrow) as (Hc' & row1 & Hrow1 & _).
  destruct (complete_row _ ws now j st p e row1 Hc' Hrow1) as (_ & row2 & Hrow2 & Hst & _). eauto.
Qed.

(** ** What comes after a stop *)

(** A probe in time of a container that is not there changes nothing. *)
Lemma probe_absent sh a i o rc r start y :
  ag_tasks a !! i = Some (TReady o rc r start) ->
  isRunning (ag_docker a) None (containerName (or_jobId o)) = false ->
  (an_now y - start < READY_TIMEOUT)%Z -> step sh a (Woke i y) = Some a.
Proof.
  intros Hi Hd Hy. cbn [step]. rewrite Hi. unfold waitForReady. rewrite Hd.
  apply Z.ltb_lt in Hy. rewrite Hy. cbn [andb]. unfold advance, set_tasks. rewrite list_insert_id by done.
  by destruct a.
Qed.

Lemma probes_absent sh a i o rc r start ys es :
  ag_tasks a !! i = Some (TReady o rc r start) ->
  isRunning (ag_docker a) None (containerName (or_jobId o)) = false ->
  Forall (fun y => an_now y - start < READY_TIMEOUT)%Z ys ->
  run sh a (map (Woke i) ys ++ es) = run sh a es.
Proof.
  intros Hi Hd. induction 1 as [|y ys Hy _ IH]; [done|]. cbn [map app run].
  by rewrite (probe_absent _ _ _ _ _ _ _ _ Hi Hd Hy).
Qed.

Lemma stop_of_launch sh a x j r n :
  ag_running a !! j = Some r -> ag_heap a !! r = Some n -> an_ok x CRm = true ->
  let b := onStop x sh j a in
  ag_tasks b = ag_tasks a /\ ag_running b = delete j (ag_running a) /\
  (ag_open a = true -> ag_sent b = ag_sent a ++ [complete j "stopped" None None]) /\
  ag_open b = ag_open a /\ isRunning (ag_docker b) None (in_containerName n) = false /\ isAborted r b = true.
Proof.
  intros Hj Hn Hx. unfold onStop, stopFinetuneJob. rewrite Hj. cbn [mbind option_bind]. rewrite Hn.
  cbn [fmap option_fmap option_map].
  destruct (cleanup_spec x (in_containerName n) j (update_ref r with_aborted a)) as (Hr & Ht & Hs & _ & Hq).
  split_and!; [exact Ht|exact Hr|by apply sent_next|by injection Hs|..].
  - cbn [ag_docker send]. unfold isRunning. by rewrite cleanup_docker, rm_lookup, decide_True.
  - destruct (quiet_lookup _ _ r (with_aborted n) Hq) as (n' & Hn' & Hx').
    { cbn [ag_heap update_ref set_heap]. by rewrite list_lookup_alter_eq, Hn. }
    unfold isAborted. cbn [ag_heap send]. rewrite Hn'. by destruct (quiet_fields _ _ Hx') as (_ & -> & _).
Qed.

(** A stop while the container sets up does not stick: the launch goes on probing the container
    that the stop removed, and when the five minutes are over it reports the job as failed, so
    that the job's row says "failed" however the manager took the stop. *)
Theorem stopped_setup_reported_failed sh es a i o rc r start x ys z :
  run sh init es = Some a ->
  ag_tasks a !! i = Some (TReady o rc r start) -> ag_running a !! or_jobId o = Some r ->
  ag_open a = true -> an_ok x CRm = true ->
  Forall (fun y => an_now y - start < READY_TIMEOUT)%Z ys -> (READY_TIMEOUT <= an_now z - start)%Z ->
  exists b ms,
    run sh a (Stop (or_jobId o) x :: map (Woke i) ys ++ [Woke i z]) = Some b /\
    ag_sent b = ag_sent a ++ ms /\
    ms = [complete (or_jobId o) "stopped" None None;
          failed (or_jobId o) "Container setup timed out after 5 minutes"] /\
    forall w ws now row, is_Some (conns w !! ws) -> jobRow w (or_jobId o) = Some row ->
      exists row', jobRow (deliver w ws now ms) (or_jobId o) = Some row' /\ f_status row' = "failed".
Proof.
  intros Ha Hi Hj Ho Hx Hys Hz. pose proof (run_wf _ _ _ _ wf_init Ha) as Hwf.
  destruct (wf_running _ Hwf _ _ Hj) as (n & Hn & _ & _ & Hc).
  destruct (wf_tasks _ Hwf _ r (list_elem_of_lookup_2 _ _ _ Hi) eq_refl) as (n' & Hn' & _ & Hf).
  replace n' with n in Hf by congruence.
  destruct (stop_of_launch sh a x _ r n Hj Hn Hx) as (Ht & _ & Hs & Ho' & Hd & _).
  rewrite (Hc Hf) in Hd. specialize (Hs Ho). rewrite Ho in Ho'.
  set (b := onStop x sh (or_jobId o) a) in *. rewrite <- Ht in Hi.
  exists (fail_ z i o "Container setup timed out after 5 minutes" b), (drop (length (ag_sent a))
    (ag_sent (fail_ z i o "Container setup timed out after 5 minutes" b))).
  assert (ag_sent (fail_ z i o "Container setup timed out after 5 minutes" b) = ag_sent a ++
    [complete (or_jobId o) "stopped" None None;
     failed (or_jobId o) "Container setup timed out after 5 minutes"]) as Hsent.
  { unfold fail_. destruct (cleanup_spec z (containerName (or_jobId o)) (or_jobId o)
      (send [failed (or_jobId o) "Container setup timed out after 5 minutes"] (settle i b)))
      as (_ & _ & Hq & _). apply out_spec in Hq as (-> & _). rewrite (sent_next b) by done.
    by rewrite Hs, <- app_assoc. }
  rewrite Hsent, drop_app_length. split_and!; [|done|done|].
  - cbn [run]. change (step sh a (Stop (or_jobId o) x)) with (Some b). cbn [mbind option_bind].
    rewrite (probes_absent _ _ _ _ _ _ _ _ _ Hi Hd Hys). cbn [run step]. rewrite Hi. unfold waitForReady.
    by rewrite (proj2 (Z.ltb_ge _ _) Hz).
  - intros w ws now row Hc' Hrow. by eapply deliver_last.
Qed.

(** A launch that was stopped while its container set up ends the job that was started again:
    the container it finds ready is the new one, which it removes, with the new launch's
    entry, telling nobody; the training that runs there then ends with an error of its own,
    and the job is reported failed. *)
Theorem stale_launch_ends_resumed sh es a i o rc r start r' n x :
  run sh init es = Some a ->
  ag_tasks a !! i = Some (TReady o rc r start) -> isAborted r a = true ->
  ag_running a !! or_jobId o = Some r' -> ag_heap a !! r' = Some n -> in_follows n = None ->
  in_proc n = Alive ->
  (an_now x - start < READY_TIMEOUT)%Z -> isRunning (ag_docker a) None (containerName (or_jobId o)) = true ->
  an_ok x CProbe = true -> an_ok x CRm = true -> ag_open a = true ->
  exists b, step sh a (Woke i x) = Some b /\
    ag_running b !! or_jobId o = None /\ ag_docker b !! (None, containerName (or_jobId o)) = None /\
    ag_sent b = ag_sent a /\
    forall y, exists c, step sh b (Exited r' (Some 137%Z) y) = Some c /\
      ag_sent c = ag_sent a ++ [failed (or_jobId o) "Training exited with code 137"].
Proof.
  intros Ha Hi Hab Hj Hn Hf Hp Hnow Hd Hok Hx Ho. pose proof (run_wf _ _ _ _ wf_init Ha) as Hwf.
  destruct (wf_running _ Hwf _ _ Hj) as (n0 & Hn0 & Hid & Hna & Hc).
  replace n0 with n in * by congruence. clear n0 Hn0. specialize (Hc Hf).
  destruct (cleanup_spec x (containerName (or_jobId o)) (or_jobId o) (settle i a)) as (Hr & _ & Hs & _ & Hq).
  set (b := cleanup x (containerName (or_jobId o)) (or_jobId o) (settle i a)) in *.
  assert (step sh a (Woke i x) = Some b) as Hb.
  { cbn [step]. rewrite Hi. unfold waitForReady. rewrite Hd, Hok, (proj2 (Z.ltb_lt _ _) Hnow).
    cbn [andb]. unfold ready. by rewrite Hab. }
  exists b. split_and!; [exact Hb|rewrite Hr; apply lookup_delete_eq| |apply (out_spec (settle i a)), Hs|].
  - unfold b. by rewrite cleanup_docker, rm_lookup, decide_True.
  - intros y. destruct (quiet_lookup _ _ r' n Hq Hn) as (n' & Hn' & Hw).
    destruct (quiet_fields _ _ Hw) as ((Hid' & _ & _ & Hf') & Hab' & Hp').
    eexists. split.
    + cbn [step]. by rewrite Hn', Hp', Hp, (proj2 Hf' Hf).
    + unfold onExit. rewrite Hab', Hna, Hid', Hid.
      destruct (cleanup_spec y (in_containerName n') (or_jobId o)
        (send [failed (or_jobId o) ("Training exited with code " +:+ pretty 137%Z)]
           (update_ref r' (with_proc Gone) b))) as (_ & _ & Hsent & _).
      apply out_spec in Hsent as (-> & _). by apply sent_next.
Qed.

(** ** A lost worker *)

(** A tick of the watchdog that finds a worker's container gone, with ssh through, ends the job:
    the entry goes, the containers are removed, one failure is told, and neither the process's
    end nor another tick tells anything more. *)
Theorem lost_worker_told_once sh es a r n reach x ip s :
  run sh init es = Some a -> ag_heap a !! r = Some n -> in_watchdog n = true -> in_aborted n = false ->
  in_proc n = Alive -> in_follows n = None -> ag_running a !! in_jobId n = Some r -> removes x ->
  lostWorker reach (ag_docker a) (in_containerName n) (default [] (in_workerIps n)) = Some (ip, s) ->
  ag_open a = true ->
  exists b, step sh a (Ticked r reach x) = Some b /\
    ag_sent b = ag_sent a ++ [failed (in_jobId n) ("Worker " +:+ ip +:+ " container exited (" +:+ s +:+ ")")] /\
    ag_running b !! in_jobId n = None /\
    (forall h, h ∈ None :: map Some (default [] (in_workerIps n)) ->
       ag_docker b !! (h, in_containerName n) = None) /\
    (forall reach' y, step sh b (Ticked r reach' y) = None) /\
    forall code y c, step sh b (Exited r code y) = Some c -> ag_sent c = ag_sent b.
Proof.
  intros Ha Hn Hw Hab Hp Hf Hj Hx Hlost Ho.
  set (f := fun n => with_aborted (with_watchdog false n)).
  destruct (cleanup_spec x (in_containerName n) (in_jobId n) (update_ref r f a)) as (Hr & _ & Hs & _ & _).
  assert (ag_heap (update_ref r f a) !! r = Some (f n)) as Hfn.
  { cbn [ag_heap update_ref set_heap]. by rewrite list_lookup_alter_eq, Hn. }
  assert (ag_heap (cleanup x (in_containerName n) (in_jobId n) (update_ref r f a)) !! r = Some (f n)) as Hn'.
  { unfold cleanup. change (ag_running (update_ref r f a)) with (ag_running a). rewrite Hj.
    cbn [ag_heap set_running set_docker]. cbn [update_ref set_heap ag_heap] in Hfn |- *.
    by rewrite list_lookup_alter_eq, Hfn. }
  pose proof (cleanup_docker x (in_containerName n) (in_jobId n) (update_ref r f a)) as Hdk.
  change (ag_running (update_ref r f a)) with (ag_running a) in Hdk. rewrite Hj in Hdk.
  cbn [mbind option_bind] in Hdk. rewrite Hfn in Hdk.
  change (in_workerIps (f n)) with (in_workerIps n) in Hdk.
  exists (send [failed (in_jobId n) ("Worker " +:+ ip +:+ " container exited (" +:+ s +:+ ")")]
    (cleanup x (in_containerName n) (in_jobId n) (update_ref r f a))).
  assert (step sh a (Ticked r reach x) = Some (send
    [failed (in_jobId n) ("Worker " +:+ ip +:+ " container exited (" +:+ s +:+ ")")]
    (cleanup x (in_containerName n) (in_jobId n) (update_ref r f a)))) as Hstep.
  { cbn [step]. rewrite Hn, Hw. unfold onTick. by rewrite Hab, Hlost. }
  set (c := cleanup _ _ _ _) in *. clearbody c. split_and!; [exact Hstep|by apply sent_next|..];
    cbn [ag_running ag_docker send].
  - rewrite Hr. apply lookup_delete_eq.
  - intros h Hh. rewrite Hdk.
    destruct (rm_everywhere x (in_containerName n) (default [] (in_workerIps n)) (ag_docker a) h
      (in_containerName n) Hx) as [Hrm _]. etrans; [exact Hrm|]. by rewrite decide_True.
  - intros reach' y. cbn [step ag_heap send]. by rewrite Hn'.
  - intros code y d. cbn [step ag_heap send]. rewrite Hn'. change (in_proc (f n)) with (in_proc n).
    change (in_follows (f n)) with (in_follows n). rewrite Hp, Hf. by intros [= <-].
Qed.

(** ** A training found running *)

Definition statuses (w : world) : list (string * string) :=
  map (fun r => (f_id r, f_status r)) (finetuneJobs (w_db w)).

(** The messages of a followed training: progress, or completions of [p]. *)
Definition about (p : string) (m : message) : Prop :=
  match m with
  | FinetuneComplete j _ _ _ => j = p
  | FinetuneProgress pm => pm_jobId pm = p
  | _ => False
  end.

Lemma update_statuses j cs w w' :
  (forall r, f_status (patch_job cs r) = f_status r) ->
  job_update j cs w = Some w' -> statuses w' = statuses w.
Proof.
  intros Hcs. unfold job_update. destruct (tbl_find _ _); [|done]. intros [= <-].
  unfold statuses. cbn [w_db set_db finetuneJobs db_jobs]. unfold tbl_update. rewrite map_map.
  apply map_ext. intros r. destruct (String.eqb _ _); [|done].
  rewrite Hcs. f_equal. apply (patch_job_id cs r).
Qed.

Lemma progress_statuses w m : statuses (onFinetuneProgress w m).1 = statuses w.
Proof.
  unfold onFinetuneProgress. set (j := resolveJobId w (pm_jobId m)).
  assert (forall p, statuses (default w (job_update j [JobProgress p] w)) = statuses w) as Hp.
  { intros p. destruct (job_update _ _ w) as [w'|] eqn:E; [|done]. cbn.
    eapply update_statuses; [|exact E]. by intros []. }
  set (w1 := match pm_phaseProgress m with Some p => _ | None => w end).
  assert (statuses w1 = statuses w) as H1.
  { unfold w1. destruct (pm_phaseProgress m); [|done]. destruct (_ && _); [apply Hp|done]. }
  set (w2 := match pm_step m with Some _ => _ | None => w1 end).
  assert (statuses w2 = statuses w) as H2.
  { unfold w2. destruct (pm_step m), (pm_loss m); try done. destruct (String.eqb _ _); [|done].
    unfold upsertMetric. destruct (tbl_find _ _); exact H1. }
  cbn [fst]. destruct (pm_evalLoss m); [|exact H2]. unfold attachEvalLoss.
  destruct (List.filter _ _); exact H2.
Qed.

Lemma lost_statuses p w ws now m :
  (forall row, row ∈ finetuneJobs (w_db w) -> f_id row <> p) -> about p m ->
  statuses (onMessage w ws m now "" (fun _ => None)).1 = statuses w.
Proof.
  intros Hrows Hm. unfold onMessage. destruct (conns w !! ws) as [c|]; [|done].
  destruct m; try done; cbn in Hm; [apply progress_statuses|]. subst jobId.
  unfold onFinetuneComplete, jobReport, job_update.
  destruct (tbl_find p (finetuneJobs (w_db w))) as [row|] eqn:E; [|done].
  apply tbl_find_Some in E as [Hin Hid]. by destruct (Hrows _ Hin).
Qed.

Lemma ids_of_statuses w w' p :
  statuses w' = statuses w -> (forall row, row ∈ finetuneJobs (w_db w) -> f_id row <> p) ->
  forall row, row ∈ finetuneJobs (w_db w') -> f_id row <> p.
Proof.
  intros Hs Hrows row Hin Hid.
  assert ((f_id row, f_status row) ∈ statuses w) as Hx.
  { rewrite <- Hs. by apply list_elem_of_fmap_2 with (f := fun r => (f_id r, f_status r)). }
  apply list_elem_of_fmap in Hx as (row' & [= Hi _] & Hin'). apply (Hrows _ Hin'). congruence.
Qed.

Lemma deliver_lost p w ws now ms :
  (forall row, row ∈ finetuneJobs (w_db w) -> f_id row <> p) -> Forall (about p) ms ->
  statuses (deliver w ws now ms) = statuses w.
Proof.
  intros Hrows Hms. revert w Hrows. induction Hms as [|m ms Hm _ IH]; intros w Hrows; [done|].
  cbn [deliver foldl]. pose proof (lost_statuses p w ws now m Hrows Hm) as Hs.
  etrans; [apply IH; by eapply ids_of_statuses|exact Hs].
Qed.

Lemma remove_absent (sub : string) s :
  (forall t, String.prefix sub (sub +:+ t) = true -> str_all is_alnum (sub +:+ t) = false) ->
  str_all is_alnum s = true -> NodeIp.remove_first sub s = s.
Proof.
  intros Hsub. induction s as [|c s IH]; intros Hs; cbn [NodeIp.remove_first]; unfold strip_prefix;
    (destruct (String.prefix sub _) eqn:E; [|]).
  1, 3: exfalso; apply prefix_spec in E as (t & E); rewrite E in Hs;
    rewrite Hsub in Hs by apply prefix_app; done.
  - done.
  - cbn in Hs. apply andb_true_iff in Hs as [_ Hs]. by rewrite IH.
Qed.

Lemma alnum_take n s : str_all is_alnum s = true -> str_all is_alnum (str_take n s) = true.
Proof.
  revert s. induction n as [|n IH]; intros [|c s]; try done. cbn. rewrite !andb_true_iff.
  intros [? ?]. auto.
Qed.

Lemma jobIdPrefix_containerName id :
  str_all is_alnum id = true -> jobIdPrefix (containerName id) = str_take 12 id.
Proof.
  intros Hid. unfold jobIdPrefix, containerName.
  assert (NodeIp.remove_first "dgx-finetune-" ("dgx-finetune-" +:+ str_take 12 id) = str_take 12 id) as ->.
  { unfold NodeIp.remove_first, strip_prefix. generalize (str_take 12 id). intros t. by destruct t. }
  apply remove_absent; [done|]. by apply alnum_take.
Qed.

Lemma str_take_length n s : String.length (str_take n s) = Nat.min n (String.length s).
Proof. revert s. induction n as [|n IH]; intros [|c s]; try done. cbn. by rewrite IH. Qed.

(** The log of [p]'s training is followed as the instance [r]. *)
Definition following (p : string) (r : nat) (a : agent) : Prop :=
  exists n em, ag_heap a !! r = Some n /\ in_jobId n = p /\ in_follows n = Some (false, em).

Lemma followed_output p r a text b sh :
  following p r a -> ag_open a = true -> step sh a (Printed r text) = Some b ->
  following p r b /\ ag_open b = true /\ ag_running b = ag_running a /\
  exists ms, ag_sent b = ag_sent a ++ ms /\ Forall (about p) ms.
Proof.
  intros (n & em & Hn & Hj & Hf) Ho Hs. cbn [step] in Hs. rewrite Hn in Hs.
  assert (b = onOutput r n text a) as -> by (destruct (in_proc n); congruence). clear Hs.
  unfold onOutput. rewrite Hf. destruct (Output.handleReattach _ _ _) as [f es]. rewrite Hj. split_and!.
  - eexists _, (Output.fo_emitted f). cbn [ag_heap send update_ref set_heap].
    rewrite list_lookup_alter_eq, Hn. by split_and!.
  - done.
  - done.
  - eexists. split; [by apply sent_next|]. apply Forall_forall. intros m Hm. apply list_elem_of_fmap in Hm as (e & -> & _).
    by destruct e as [u|[o|]].
Qed.

Lemma followed_outputs p r a texts b sh :
  following p r a -> ag_open a = true -> run sh a (map (Printed r) texts) = Some b ->
  ag_running b = ag_running a /\ exists ms, ag_sent b = ag_sent a ++ ms /\ Forall (about p) ms.
Proof.
  revert a. induction texts as [|t texts IH]; intros a Hfo Ho Hr; cbn [map run] in Hr.
  - injection Hr as <-. split; [done|]. exists []. by rewrite app_nil_r.
  - destruct (step sh a (Printed r t)) as [a1|] eqn:Hs; [|done]. cbn [mbind option_bind] in Hr.
    destruct (followed_output _ _ _ _ _ _ Hfo Ho Hs) as (Hfo1 & Ho1 & Hr1 & ms1 & Hs1 & Hm1).
    destruct (IH a1 Hfo1 Ho1 Hr) as (Hr2 & ms2 & Hs2 & Hm2). split; [by rewrite Hr2|].
    exists (ms1 ++ ms2). split; [by rewrite Hs2, Hs1, app_assoc|by apply Forall_app].
Qed.

(** After a restart of the agent a training goes on, but its end is lost: the entry and the
    messages of the log that is followed bear the first twelve characters of the job's id,
    which the manager completes for progress and not for completions, so that nothing the log
    says changes the status of any job; and a stop of the job does not find the entry. *)
Theorem reattached_completion_lost sh a id texts b :
  str_all is_alnum id = true -> (12 < String.length id)%nat ->
  run sh (onRestart sh [(containerName id, true)] a) (map (Printed 0) texts) = Some b ->
  exists ms, ag_sent b = ag_sent a ++ ms /\
    (forall w ws now, (forall row, row ∈ finetuneJobs (w_db w) -> (12 < String.length (f_id row))%nat) ->
       statuses (deliver w ws now ms) = statuses w) /\
    forall x, ag_running (onStop x sh id b) = {[ str_take 12 id := 0 ]}.
Proof.
  intros Hid Hlen Hr.
  assert (String.length (str_take 12 id) = 12) as Hp12 by (rewrite str_take_length; lia).
  assert (following (str_take 12 id) 0 (onRestart sh [(containerName id, true)] a) /\
          ag_running (onRestart sh [(containerName id, true)] a) = {[ str_take 12 id := 0 ]} /\
          ag_sent (onRestart sh [(containerName id, true)] a) = ag_sent a /\
          ag_open (onRestart sh [(containerName id, true)] a) = true) as (Hfo & Hrun & Hsent & Hopen).
  { unfold onRestart, onOpen. cbn [foldl reattach]. rewrite jobIdPrefix_containerName by done.
    destruct (String.eqb_spec (str_take 12 id) "") as [E|_]; [by rewrite E in Hp12|].
    cbn [orb negb]. split_and!; [|done..]. eexists _, false. by split_and!. }
  destruct (followed_outputs _ _ _ _ _ _ Hfo Hopen Hr) as (Hrb & ms & Hms & Hall).
  exists ms. split; [by rewrite Hms, Hsent|]. split.
  - intros w ws now Hrows. apply (deliver_lost (str_take 12 id)); [|done].
    intros row Hin Heq. specialize (Hrows row Hin). rewrite Heq in Hrows. lia.
  - intros x. unfold onStop, stopFinetuneJob.
    assert (ag_running b !! id = None) as ->.
    { rewrite Hrb, Hrun, lookup_singleton_ne; [done|]. intros E. rewrite <- E in Hlen. lia. }
    cbn [mbind option_bind]. cbn [ag_running send]. unfold forceCleanupJob. cbn [ag_running set_docker].
    by rewrite Hrb.
Qed.
