(* ===== verification/TrainFacts.v ===== *)
(** What is read in the output of a training, from the line to the manager's rows; the
    arguments head and workers train with; what merges and quantizations tell. *)
From S2P Require Import Prelude JsNum Recipes LaunchArgs LaunchArgsFacts AgentHealth Schema AgentHub TrainParse AgentTrain AgentTrainStops AgentTrainFacts.
Import AgentHealth.Lines Parse Output Machine.

(** ** Matching *)

Lemma str_drop_app s t : str_drop (String.length s) (s +:+ t) = t.
Proof. induction s as [|c s IH]; [by destruct t|]. rewrite app_String. exact IH. Qed.

Lemma eat_app lit r : eat lit (lit +:+ r) = Some r.
Proof. unfold eat. by rewrite prefix_app, str_drop_app. Qed.

(** The text starts with no character of the class. *)
Definition stops (p : ascii -> bool) (s : string) : bool :=
  match s with String c _ => negb (p c) | EmptyString => true end.

Lemma span_app p v r : str_all p v = true -> stops p r = true -> span p (v +:+ r) = (v, r).
Proof.
  intros Hv Hr. induction v as [|c v IH].
  - rewrite app_empty_l. destruct r as [|c r]; [done|]. cbn in *. by destruct (p c).
  - cbn in Hv. apply andb_true_iff in Hv as [Hc Hv]. rewrite app_String. cbn [span]. by rewrite Hc, IH.
Qed.

Lemma span1_app p v r :
  str_all p v = true -> v <> "" -> stops p r = true -> span1 p (v +:+ r) = Some (v, r).
Proof. intros Hv Hne Hr. unfold span1. rewrite span_app by done. by destruct v. Qed.

Lemma leftmost_here {A} (f : string -> option A) s a : f s = Some a -> leftmost f s = Some a.
Proof. intros H. destruct s; cbn; by rewrite H. Qed.

(** A pattern that needs what no suffix of the text has does not match. *)
Lemma leftmost_none {A} (f : string -> option A) (p : ascii -> bool) s :
  (forall t, str_all p t = true -> f t = None) -> str_all p s = true -> leftmost f s = None.
Proof.
  intros Hf. induction s as [|c s IH]; intros Hs; cbn [leftmost]; rewrite (Hf _ Hs); [done|].
  cbn in Hs. apply andb_true_iff in Hs as [_ Hs]. auto.
Qed.

Lemma eat_absent c lit p t :
  p c = false -> str_all p t = true -> eat (String c lit) t = None.
Proof.
  intros Hc Ht. unfold eat. destruct (String.prefix _ _) eqn:E; [|done].
  apply prefix_spec in E as (u & ->). rewrite app_String in Ht. cbn in Ht. by rewrite Hc in Ht.
Qed.


(** ** The lines of the training *)

Definition trainLine (step total loss lr : string) : string :=
  "[TRAIN] step=" +:+ step +:+ "/" +:+ total +:+ " loss=" +:+ loss +:+ " lr=" +:+ lr.

(** A text of one or more characters of a class. *)
Definition text_of (p : ascii -> bool) (s : string) : Prop := str_all p s = true /\ s <> "".

Lemma lr_char_loss s : str_all lr_char s = true -> str_all loss_char s = true.
Proof. apply str_all_impl. intros c Hc. unfold loss_char. by rewrite Hc. Qed.

Lemma number_char_lr s : str_all number_char s = true -> str_all lr_char s = true.
Proof. apply str_all_impl. intros c Hc. unfold lr_char. by rewrite Hc. Qed.

Lemma trainLog_parsed step total loss lr :
  text_of is_digit step -> text_of is_digit total -> text_of lr_char loss -> text_of lr_char lr ->
  leftmost trainLogAt (trainLine step total loss lr) = Some (step, total, loss, Some lr).
Proof.
  intros [Hs Hs0] [Ht Ht0] [Hl Hl0] [Hr Hr0]. apply leftmost_here. unfold trainLogAt, trainLine.
  change ("[TRAIN] step=" +:+ ?x) with ("[TRAIN]" +:+ (" " +:+ ("step=" +:+ x))).
  rewrite eat_app. cbn [mbind option_bind].
  rewrite span1_app by done. cbn [mbind option_bind]. rewrite eat_app. cbn [mbind option_bind].
  unfold ratio. rewrite span1_app by done. cbn [mbind option_bind]. rewrite eat_app. cbn [mbind option_bind].
  change (" loss=" +:+ ?x) with (" " +:+ ("loss=" +:+ x)).
  rewrite span1_app by done. cbn [mbind option_bind]. rewrite span1_app by done. cbn [mbind option_bind].
  rewrite eat_app. cbn [mbind option_bind]. change (" lr=" +:+ ?x) with (" " +:+ ("lr=" +:+ x)).
  rewrite span1_app by (done || by apply lr_char_loss). cbn [mbind option_bind].
  rewrite span1_app by done. cbn [mbind option_bind]. rewrite eat_app. cbn [mbind option_bind].
  rewrite <- (app_empty_r lr) at 1. by rewrite span1_app.
Qed.

(** What the handler of the output makes of such a line, in whatever phase. *)
Lemma train_line_update resets line m p :
  (forall ph, parseProgress line ph = Some p) -> pi_phaseProgress p <> None ->
  exists us u, (handleLine resets line m).2 = us ++ [u] /\ Forall (fun v => up_loss v = None) us /\
    up_phase u = pi_phase p /\ up_step u = pi_step p /\ up_loss u = pi_loss p /\ up_lr u = pi_lr p /\
    up_evalLoss u = pi_evalLoss p /\ Some (up_phaseProgress u) = pi_phaseProgress p.
Proof.
  intros Hp Hx. unfold handleLine. destruct (announced resets line m) as [m1 us] eqn:Ha.
  assert (Forall (fun v => up_loss v = None) us) as Hus.
  { unfold announced in Ha. destruct (detectPhase line); [|injection Ha as <- <-; constructor].
    destruct (decide _); injection Ha as <- <-; by repeat constructor. }
  unfold measured. rewrite Hp. destruct (pi_phaseProgress p) as [x|] eqn:E; [|done].
  eexists us, _. split_and!; [reflexivity|done..].
Qed.

Lemma upsert_there jobId st loss lr w row :
  jobRow w jobId = Some row ->
  exists t, t ∈ w_training (upsertMetric jobId st loss lr w) /\ tm_jobId t = jobId /\ tm_step t = st /\
            tm_loss t = loss.
Proof.
  unfold jobRow, upsertMetric. intros ->. cbn [w_training set_training].
  destruct (existsb _ (w_training w)) eqn:E.
  - apply existsb_exists in E as (t & Hin & Ht). apply list_elem_of_In in Hin.
    pose proof Ht as [Hj%String.eqb_eq Hst%Z.eqb_eq]%andb_true_iff.
    exists (TrainingMetric (tm_jobId t) (tm_step t) loss (keep (tm_lr t) lr) (tm_evalLoss t)).
    split; [|done]. apply list_elem_of_fmap. exists t. by rewrite Ht.
  - exists (TrainingMetric jobId st loss lr None). split; [set_solver|done].
Qed.

Lemma attach_keeps jobId e w t :
  t ∈ w_training w -> exists t', t' ∈ w_training (attachEvalLoss jobId e w) /\
    tm_jobId t' = tm_jobId t /\ tm_step t' = tm_step t /\ tm_loss t' = tm_loss t.
Proof.
  intros Hin. unfold attachEvalLoss. destruct (List.filter _ _) as [|t0 ts]; [by exists t|].
  cbn [w_training set_training]. eexists. split; [by apply (list_elem_of_fmap_2 _ _ t)|].
  cbn beta. by destruct (_ && _).
Qed.

Lemma jobRow_statuses w w' j : statuses w' = statuses w -> is_Some (jobRow w j) -> is_Some (jobRow w' j).
Proof.
  intros Hs [row Hrow]. unfold jobRow in *. apply tbl_find_Some in Hrow as [Hin Hid].
  destruct (tbl_find j (finetuneJobs (w_db w'))) as [r|] eqn:E; [by exists r|].
  rewrite tbl_find_None in E. assert ((f_id row, f_status row) ∈ statuses w') as Hx.
  { rewrite Hs. by apply (list_elem_of_fmap_2 (fun r => (f_id r, f_status r))). }
  apply list_elem_of_fmap in Hx as (r & [= Hi _] & Hr). destruct (E r Hr).
  unfold row_id, finetune_hasid in *. congruence.
Qed.

(** A progress message with a step and a loss leaves the step's row with that loss. *)
Lemma progress_row w m row :
  jobRow w (pm_jobId m) = Some row -> (20 <= String.length (pm_jobId m))%nat ->
  pm_phase m = "training" -> forall st l, pm_step m = Some st -> pm_loss m = Some l ->
  exists t, t ∈ w_training (onFinetuneProgress w m).1 /\ tm_jobId t = pm_jobId m /\ tm_step t = st /\
            tm_loss t = l.
Proof.
  intros Hrow Hlen Hph st l Hst Hl. unfold onFinetuneProgress, resolveJobId.
  rewrite (proj2 (Nat.ltb_ge _ _) Hlen), Hph, Hst, Hl. change (String.eqb "training" "training") with true.
  cbn [andb fst]. set (w1 := match pm_phaseProgress m with Some _ => _ | None => w end).
  assert (is_Some (jobRow w1 (pm_jobId m))) as [row1 Hrow1].
  { apply (jobRow_statuses w); [|by exists row]. unfold w1. destruct (pm_phaseProgress m) as [p|]; [|done].
    destruct (num_lt _ _); [|done]. destruct (job_update _ _ w) eqn:E; [|done]. cbn [from_option id].
    eapply update_statuses; [|exact E]. by intros []. }
  destruct (upsert_there _ st l (pm_lr m) w1 row1 Hrow1) as (t & Hin & Hj & Hs & Hlo).
  destruct (pm_evalLoss m) as [e|]; [|by exists t].
  destruct (attach_keeps (pm_jobId m) e _ t Hin) as (t' & Hin' & H1 & H2 & H3).
  exists t'. split_and!; [done|congruence..].
Qed.

Lemma onMessage_progress w ws now j u :
  is_Some (conns w !! ws) ->
  exists pm, progressMessage j u = FinetuneProgress pm /\
    (onMessage w ws (progressMessage j u) now "" (fun _ => None)).1 = (onFinetuneProgress w pm).1.
Proof. intros [c Hc]. eexists. split; [done|]. unfold onMessage. by rewrite Hc. Qed.

Lemma progress_conns w pm : conns (onFinetuneProgress w pm).1 = conns w.
Proof.
  unfold onFinetuneProgress. cbn [fst]. set (j := resolveJobId w (pm_jobId pm)).
  set (w1 := match pm_phaseProgress pm with Some _ => _ | None => w end).
  assert (conns w1 = conns w) as H1.
  { unfold w1. destruct (pm_phaseProgress pm); [|done]. destruct (_ && _); [|done].
    unfold job_update. by destruct (tbl_find _ _). }
  set (w2 := match pm_step pm with Some _ => _ | None => w1 end).
  assert (conns w2 = conns w) as H2.
  { unfold w2. destruct (pm_step pm), (pm_loss pm); try done. destruct (String.eqb _ _); [|done].
    unfold upsertMetric. destruct (tbl_find _ _); exact H1. }
  destruct (pm_evalLoss pm); [|exact H2]. unfold attachEvalLoss. destruct (List.filter _ _); exact H2.
Qed.

(** Progress messages leave the socket and the job there. *)
Lemma deliver_progress w ws now j us :
  is_Some (conns w !! ws) -> is_Some (jobRow w j) ->
  is_Some (conns (deliver w ws now (map (progressMessage j) us)) !! ws) /\
  is_Some (jobRow (deliver w ws now (map (progressMessage j) us)) j).
Proof.
  revert w. induction us as [|u us IH]; intros w Hc Hrow; [done|]. cbn [map deliver foldl].
  destruct (onMessage_progress w ws now j u Hc) as (pm & _ & ->). apply IH.
  - by rewrite progress_conns.
  - by apply (jobRow_statuses w); [apply progress_statuses|].
Qed.

(** A step the training prints becomes a row of the manager: whatever phase the agent took the
    training to be in, the messages it sends for the line leave a metric of that job and that
    step with the loss that was printed. *)
Theorem train_line_becomes_row w ws now j step total loss lr q resets m :
  is_Some (conns w !! ws) -> is_Some (jobRow w j) -> (20 <= String.length j)%nat ->
  text_of is_digit step -> text_of is_digit total -> text_of lr_char loss -> text_of lr_char lr ->
  parseFloat loss = Fin q ->
  let us := (handleLine resets (trainLine step total loss lr) m).2 in
  exists t, t ∈ w_training (deliver w ws now (map (progressMessage j) us)) /\
    tm_jobId t = j /\ tm_step t = parseDigits step /\ tm_loss t = Fin q.
Proof.
  intros Hc Hrow Hlen Hs Ht Hl Hr Hq. cbn zeta.
  pose proof (trainLog_parsed step total loss lr Hs Ht Hl Hr) as Hparse.
  assert (loss <> "?") as Hne by (intros ->; by destruct Hl).
  destruct (train_line_update resets (trainLine step total loss lr) m (trainLog step total loss (Some lr)))
    as (us & u & -> & _ & Hu & Hust & Hul & _).
  { intros ph. unfold parseProgress. by rewrite Hparse. }
  { done. }
  rewrite map_app. unfold deliver. rewrite foldl_app. fold (deliver w ws now (map (progressMessage j) us)).
  destruct (deliver_progress w ws now j us Hc Hrow) as [Hc' [row' Hrow']].
  cbn [map foldl]. destruct (onMessage_progress _ ws now j u Hc') as (pm & Epm & ->).
  unfold progressMessage in Epm. injection Epm as <-.
  cbn [trainLog pi_phase pi_step pi_loss] in Hu, Hust, Hul.
  set (pm := Build_progressMsg _ _ _ _ _ _ _).
  apply (progress_row _ pm row' Hrow' Hlen); cbn [pm pm_phase pm_step pm_loss]; [by rewrite Hu|exact Hust|].
  rewrite Hul. apply String.eqb_neq in Hne. rewrite Hne. cbn [mbind option_bind]. by rewrite Hq.
Qed.

(** ** The evaluation's loss *)

Definition evalLine (v : string) : string := "[EVAL] eval_loss=" +:+ v.
Definition evalDict (v : string) : string := "{" +:+ quoted "eval_loss" +:+ ": " +:+ v +:+ "}".

Definition isnt (d c : ascii) : bool := negb (Ascii.eqb c d).

Lemma number_isnt d s :
  number_char d = false -> str_all number_char s = true -> str_all (isnt d) s = true.
Proof.
  intros Hd. apply str_all_impl. intros c Hc. unfold isnt. apply negb_true_iff, Ascii.eqb_neq.
  intros ->. congruence.
Qed.

Lemma span_rest (p q : ascii -> bool) s : str_all q s = true -> str_all q (span p s).2 = true.
Proof.
  induction s as [|c s IH]; [done|]. cbn. intros Hs. pose proof Hs as [_ Hs']%andb_true_iff.
  destruct (p c); [|done]. destruct (span p s) as [a b]. by apply IH.
Qed.

Lemma trainLogAt_absent t : str_all (isnt "[") t = true -> trainLogAt t = None.
Proof. intros Ht. unfold trainLogAt. by rewrite (eat_absent _ _ (isnt "[")). Qed.

Lemma evalLogAt_absent t : str_all (isnt "[") t = true -> evalLogAt t = None.
Proof. intros Ht. unfold evalLogAt. by rewrite (eat_absent _ _ (isnt "[")). Qed.

Lemma dictAt_absent key t : str_all (isnt "{") t = true -> dictAt key t = None.
Proof.
  intros Ht. unfold dictAt. change ("{" +:+ ?x) with (String "{" x).
  by rewrite (eat_absent _ _ (isnt "{")).
Qed.

Lemma tqdmAt_absent t : str_all (isnt "%") t = true -> tqdmAt t = None.
Proof.
  intros Ht. unfold tqdmAt. pose proof (span_rest is_ws _ _ Ht) as H1.
  destruct (span is_ws t) as [w s]. cbn in H1. unfold span1.
  pose proof (span_rest is_digit _ _ H1) as H2. destruct (span is_digit s) as [pct r]. cbn in H2.
  destruct pct; [done|]. cbn [mbind option_bind]. by rewrite (eat_absent _ _ (isnt "%")).
Qed.

Lemma evalDict_all d v :
  str_all (isnt d) "{'eval_loss': }" = true -> number_char d = false -> str_all number_char v = true ->
  str_all (isnt d) (evalDict v) = true.
Proof.
  intros Hd Hn Hv. unfold evalDict. rewrite !str_all_app, (number_isnt d v Hn Hv).
  change "{'eval_loss': }" with ("{" +:+ (quoted "eval_loss" +:+ (": " +:+ "}"))) in Hd.
  rewrite !str_all_app in Hd. rewrite !andb_true_iff in Hd |- *. tauto.
Qed.

Lemma evalDict_parsed v ph :
  text_of number_char v -> parseProgress (evalDict v) ph = Some (figures eval (Some (parseFloat v)) None).
Proof.
  intros [Hv Hne]. unfold parseProgress.
  rewrite (leftmost_none _ _ _ trainLogAt_absent) by (by apply evalDict_all).
  rewrite (leftmost_none _ _ _ evalLogAt_absent) by (by apply evalDict_all).
  assert (leftmost (dictAt "loss") (evalDict v) = None) as ->.
  { unfold evalDict. rewrite app_String. cbn [leftmost].
    change (dictAt "loss" _) with (@None string).
    apply (leftmost_none _ _ _ (dictAt_absent "loss")). rewrite app_empty_l, !str_all_app.
    by rewrite (number_isnt "{" v eq_refl Hv). }
  rewrite (leftmost_none _ _ _ tqdmAt_absent) by (by apply evalDict_all).
  assert (dictAt "eval_loss" (evalDict v) = Some v) as Hd.
  { unfold dictAt, evalDict.
    change ("{" +:+ quoted "eval_loss" +:+ ": " +:+ v +:+ "}")
      with (("{" +:+ quoted "eval_loss" +:+ ":") +:+ (" " +:+ (v +:+ "}"))).
    rewrite eat_app. cbn [mbind option_bind]. destruct v as [|c v]; [done|].
    pose proof Hv as [Hc _]%andb_true_iff. rewrite span_app; [|done|].
    - assert (eat (String sq "") (String c v +:+ "}") = None) as ->.
      { rewrite app_String. unfold eat. cbn. destruct (ascii_dec sq c) as [<-|]; done. }
      by rewrite span1_app.
    - rewrite app_String. cbn. unfold number_char, is_digit, in_range, is_ws, in_range in *.
      clear -Hc. revert c Hc. by intros [[] [] [] [] [] [] [] []]. }
  by rewrite (leftmost_here _ _ _ Hd).
Qed.

(** A message without an evaluation's loss and without the loss of a step makes no metric. *)
Lemma no_metric w pm :
  pm_evalLoss pm = None -> pm_step pm = None \/ pm_loss pm = None ->
  w_training (onFinetuneProgress w pm).1 = w_training w.
Proof.
  intros He Hs. unfold onFinetuneProgress. rewrite He. cbn [fst].
  set (w1 := match pm_phaseProgress pm with Some _ => _ | None => w end).
  assert (w_training w1 = w_training w) as H1.
  { unfold w1. destruct (pm_phaseProgress pm); [|done]. destruct (_ && _); [|done].
    unfold job_update. by destruct (tbl_find _ _). }
  destruct Hs as [-> | ->]; [exact H1|]. destruct (pm_step pm); exact H1.
Qed.

Lemma deliver_no_metric w ws now j us :
  is_Some (conns w !! ws) -> Forall (fun u => up_step u = None /\ up_evalLoss u = None) us ->
  w_training (deliver w ws now (map (progressMessage j) us)) = w_training w.
Proof.
  intros Hc Hus. revert w Hc. induction Hus as [|u us [Hs He] _ IH]; intros w Hc; [done|].
  cbn [map deliver foldl]. destruct (onMessage_progress w ws now j u Hc) as (pm & Epm & E). rewrite E.
  etrans; [apply IH; by rewrite progress_conns|]. injection Epm as <-. apply no_metric; cbn; [|left].
  - by rewrite He.
  - exact Hs.
Qed.

Lemma announced_plain resets line m :
  Forall (fun u => up_step u = None /\ up_evalLoss u = None) (announced resets line m).2.
Proof.
  unfold announced. destruct (detectPhase line); [|constructor].
  destruct (decide _); by repeat constructor.
Qed.

(** The evaluation's loss gets through in one of the two forms the code reads it in.  A line
    [[EVAL] eval_loss=...] is reported as [evalLoss].  The dictionary that the trainer prints
    is read under the same phase but reported as the loss of no step, so that no metric of the
    manager changes. *)
Theorem eval_dict_is_lost w ws now j v resets m :
  is_Some (conns w !! ws) -> text_of number_char v ->
  w_training (deliver w ws now (map (progressMessage j) (handleLine resets (evalDict v) m).2)) =
    w_training w /\
  exists us u, (handleLine resets (evalLine v) m).2 = us ++ [u] /\ up_phase u = eval /\
    up_evalLoss u = Some (parseFloat v).
Proof.
  intros Hc Hv. split.
  - apply deliver_no_metric; [done|]. unfold handleLine.
    pose proof (announced_plain resets (evalDict v) m) as Hus.
    destruct (announced resets (evalDict v) m) as [m1 us]. cbn [snd] in Hus.
    unfold measured. rewrite evalDict_parsed by done. cbn. apply Forall_app. split; [done|].
    by repeat constructor.
  - assert (forall ph, parseProgress (evalLine v) ph = Some (figures eval None (Some (parseFloat v)))) as Hp.
    { intros ph. unfold parseProgress.
      assert (leftmost trainLogAt (evalLine v) = None) as ->.
      { unfold evalLine. change ("[EVAL] eval_loss=" +:+ v) with (String "[" ("EVAL] eval_loss=" +:+ v)).
        cbn [leftmost]. change (trainLogAt (String "[" _)) with (@None (string * string * string * option string)).
        apply (leftmost_none _ _ _ trainLogAt_absent). rewrite str_all_app.
        by rewrite (number_isnt "[" v eq_refl (proj1 Hv)). }
      assert (evalLogAt (evalLine v) = Some v) as He.
      { unfold evalLogAt, evalLine.
        change ("[EVAL] eval_loss=" +:+ v) with ("[EVAL]" +:+ (" " +:+ ("eval_loss=" +:+ v))).
        rewrite eat_app. cbn [mbind option_bind]. rewrite span1_app by done. cbn [mbind option_bind].
        rewrite eat_app. cbn [mbind option_bind]. destruct Hv as [Hv Hne].
        rewrite <- (app_empty_r v) at 1. by rewrite span1_app. }
      by rewrite (leftmost_here _ _ _ He). }
    unfold handleLine. destruct (announced resets (evalLine v) m) as [m1 us]. unfold measured. rewrite Hp.
    by eexists us, _.
Qed.

(** ** Bounds *)

Definition positive (v : num) : Prop := num_lt (zn 0) v = true.

Definition meter_ok (m : meter) : Prop :=
  (length (mt_samples m) <= Speed.maxSamples)%nat /\ Forall positive (mt_samples m).

(** A number that is zero or more, or [-1] for a loss without progress. *)
Definition share_ok (x : num) : Prop := exists q, x = Fin q /\ (0 <= q \/ q == -1)%Q.

Definition update_ok (u : update) : Prop :=
  share_ok (up_phaseProgress u) /\
  forall t, up_eta u = Some t -> exists z, t = zn z /\ (0 <= z)%Z.

Lemma push_ok v s :
  (length s <= Speed.maxSamples)%nat -> Forall positive s ->
  (length (Speed.push v s) <= Speed.maxSamples)%nat /\ Forall positive (Speed.push v s).
Proof.
  intros Hl Hs. unfold Speed.push. destruct (num_lt (zn 0) v) eqn:Hv; [|done].
  assert (Forall positive (s ++ [v])) as Hall by (apply Forall_app; by repeat constructor).
  cbn zeta. destruct (_ <? _)%nat eqn:E.
  - split; [rewrite length_drop, length_app; cbn; unfold Speed.maxSamples in *; lia|by apply Forall_drop].
  - apply Nat.ltb_ge in E. done.
Qed.

Lemma positive_fin q : positive (Fin q) -> (0 < q)%Q.
Proof.
  unfold positive. cbn. intros Hq%negb_true_iff. destruct (Qlt_le_dec 0 q) as [?|Hle]; [done|].
  apply Qle_bool_iff in Hle. unfold inject_Z in Hq. congruence.
Qed.

Lemma positive_add a b : num_le (zn 0) a = true -> positive b -> num_le (zn 0) (num_add a b) = true.
Proof.
  intros Ha Hb. destruct a as [|[]|p], b as [|[]|q]; try done. apply positive_fin in Hb. cbn in *.
  apply Qle_bool_iff in Ha. apply Qle_bool_iff. change (inject_Z 0) with (0 + 0)%Q.
  apply Qplus_le_compat; [exact Ha|by apply Qlt_le_weak].
Qed.

Lemma sum_nonneg s acc :
  num_le (zn 0) acc = true -> Forall positive s -> num_le (zn 0) (foldl num_add acc s) = true.
Proof.
  intros Ha Hs. revert acc Ha. induction Hs as [|v s Hv _ IH]; intros acc Ha; [done|].
  cbn. by apply IH, positive_add.
Qed.

Lemma average_number s : Forall positive s -> Speed.average s <> NaN.
Proof.
  intros Hs. unfold Speed.average. destruct s as [|v s]; [done|].
  pose proof (sum_nonneg (v :: s) (zn 0) eq_refl Hs) as H.
  by destruct (foldl num_add (zn 0) (v :: s)).
Qed.

Lemma eta_ok n s t : Forall positive s -> Speed.eta n s = Some t -> exists z, t = zn z /\ (0 <= z)%Z.
Proof.
  intros Hs. unfold Speed.eta. pose proof (average_number s Hs) as Hn.
  destruct (num_le _ _ || _) eqn:E; [done|]. apply orb_false_iff in E as [Hle Hr].
  intros [= <-]. destruct (Speed.average s) as [|b|q]; [done|by exists 0%Z|].
  cbn [Speed.quotient]. eexists. split; [done|]. apply Z.leb_gt in Hr. rewrite <- (round_q_Z 0). apply round_q_mono.
  change (inject_Z 0) with 0%Q.
  apply Qle_shift_div_l; [apply positive_fin; unfold positive, num_lt; cbn [zn]; by rewrite Hle|].
  rewrite Qmult_0_l. change 0%Q with (inject_Z 0). rewrite <- Zle_Qle. lia.
Qed.

Lemma fraction_ok a b : (0 <= a)%Z -> share_ok (fraction a b).
Proof.
  intros Ha. unfold fraction. destruct (0 <? b)%Z eqn:E; [|exists 0%Q; split; [done|left; apply Qle_refl]].
  eexists. split; [done|left]. apply Z.ltb_lt in E. apply Qle_shift_div_l.
  - change 0%Q with (inject_Z 0). by rewrite <- Zlt_Qlt.
  - rewrite Qmult_0_l. change 0%Q with (inject_Z 0). by rewrite <- Zle_Qle.
Qed.

Lemma digits_nonneg base : forall s acc len, (0 <= base)%Z -> (0 <= acc)%Z ->
  (0 <= (digits base acc len s).1.1)%Z.
Proof.
  induction s as [|c s IH]; intros acc len Hb Ha; cbn; [done|].
  destruct (digit_val c) as [d|] eqn:E; [|done]. destruct (d <? base)%Z; [|done]. apply IH; [done|].
  assert (0 <= d)%Z; [|nia]. unfold digit_val in E. unfold is_digit, is_lower, is_upper, in_range in E.
  destruct (_ && _) eqn:E1; [injection E as <-; apply andb_true_iff in E1 as [?%N.leb_le _]; lia|].
  destruct ((97 <=? code c)%N && _) eqn:E2; [injection E as <-; apply andb_true_iff in E2 as [?%N.leb_le _]; lia|].
  destruct ((65 <=? code c)%N && _) eqn:E3; [injection E as <-; apply andb_true_iff in E3 as [?%N.leb_le _]; lia|done].
Qed.

Lemma parseDigits_nonneg s : (0 <= parseDigits s)%Z.
Proof.
  unfold parseDigits. pose proof (digits_nonneg 10 s 0 0 ltac:(lia) ltac:(lia)) as H.
  by destruct (digits 10 0 0 s) as [[v n] r].
Qed.

Lemma percent_ok pct : share_ok (percent pct).
Proof.
  unfold percent. eexists. split; [done|left]. apply Qle_shift_div_l; [done|].
  rewrite Qmult_0_l. change 0%Q with (inject_Z 0). rewrite <- Zle_Qle. apply parseDigits_nonneg.
Qed.

(** The progress of a parsed line is a share of zero or more. *)
Lemma parseProgress_share line ph p x :
  parseProgress line ph = Some p -> pi_phaseProgress p = Some x -> share_ok x.
Proof.
  unfold parseProgress. destruct (leftmost trainLogAt line) as [[[[step total] loss] lr]|].
  { intros [= <-] [= <-]. apply fraction_ok, parseDigits_nonneg. }
  destruct (leftmost evalLogAt line); [by intros [= <-]|].
  destruct (leftmost (dictAt "loss") line); [by intros [= <-]|].
  destruct (leftmost tqdmAt line) as [[[pct a] b]|].
  - intros [= <-]. unfold barProgress. destruct ph; intros [= <-];
      [apply percent_ok..| |apply percent_ok|apply percent_ok]. apply fraction_ok, parseDigits_nonneg.
  - destruct (leftmost (dictAt "eval_loss") line); [by intros [= <-]|done].
Qed.

Lemma measured_ok line m :
  meter_ok m -> meter_ok (measured line m).1 /\ Forall update_ok (measured line m).2.
Proof.
  intros [Hl Hs]. unfold measured. destruct (parseProgress line (mt_phase m)) as [p|] eqn:E; [|done].
  assert (meter_ok {| mt_phase := pi_phase p; mt_samples := fed (pi_iterSpeed p) (mt_samples m) |}) as Hm.
  { unfold meter_ok; cbn. unfold fed. destruct (pi_iterSpeed p) as [v|]; [|done].
    destruct (num_truthy v); [by apply push_ok|done]. }
  split; [exact Hm|]. cbn [snd]. destruct (pi_phaseProgress p) as [x|] eqn:Ex.
  - constructor; [|constructor]. split; [by eapply parseProgress_share|]. cbn. unfold timeLeft.
    intros t. destruct (pi_step p), (pi_totalSteps p); try done. apply eta_ok, Hm.
  - assert (share_ok (zn (-1))) by (exists (-1)%Q; split; [done|by right]).
    destruct (pi_loss p), (pi_evalLoss p); [..|constructor]; (constructor; [|constructor]); by split.
Qed.

Lemma announced_ok resets line m :
  meter_ok m -> meter_ok (announced resets line m).1 /\ Forall update_ok (announced resets line m).2.
Proof.
  intros Hm. unfold announced. destruct (detectPhase line) as [p|]; [|done]. destruct (decide _); [done|].
  split.
  - destruct resets; [split; cbn; [lia|constructor]|exact Hm].
  - constructor; [|constructor]. split; [|done]. exists 0%Q. split; [done|left; apply Qle_refl].
Qed.

Lemma handleLines_ok resets ls m :
  meter_ok m -> meter_ok (handleLines resets ls m).1 /\ Forall update_ok (handleLines resets ls m).2.
Proof.
  revert m. induction ls as [|l ls IH]; intros m Hm; cbn [handleLines]; [done|]. unfold handleLine.
  destruct (announced_ok resets l m Hm) as [H1 U1]. destruct (announced resets l m) as [m1 us1]. cbn in H1, U1.
  destruct (measured_ok l m1 H1) as [H2 U2]. destruct (measured l m1) as [m2 us2]. cbn in H2, U2.
  destruct (IH m2 H2) as [H3 U3]. destruct (handleLines resets ls m2) as [m3 us3]. cbn in *.
  split; [done|]. by rewrite !Forall_app.
Qed.

(** Whatever a training prints, the agent keeps at most twenty speeds, all above zero, and what
    it reports is a number: the share is zero or more, or [-1] with a loss alone, and the
    seconds left, if any, are a whole number, zero or more, never [NaN] nor infinite. *)
Theorem updates_bounded chunks m :
  meter_ok m ->
  let '(m', us) := foldl (fun '(m, us) text => let '(m', vs) := handleOutput text m in (m', us ++ vs))
                     (m, []) chunks in
  meter_ok m' /\ Forall update_ok us.
Proof.
  intros Hm. assert (forall us, Forall update_ok us ->
    let '(m', us') := foldl (fun '(m, us) text => let '(m', vs) := handleOutput text m in (m', us ++ vs))
                        (m, us) chunks in meter_ok m' /\ Forall update_ok us') as H; [|by apply H].
  revert m Hm. induction chunks as [|c cs IH]; intros m Hm us Hus; cbn [foldl]; [done|].
  destruct (handleLines_ok true (lines c) m Hm) as [H1 U1]. unfold handleOutput.
  destruct (handleLines true (lines c) m) as [m1 vs]. apply IH; [done|by apply Forall_app].
Qed.

(** ** Head and workers *)

(** A word that the shells between the agent and a worker's [bash -c] leave as it is. *)
Definition safe_char (c : ascii) : bool :=
  is_alnum c || existsb (Ascii.eqb c) ["-"; "_"; "."; "/"; ":"; "="; ","; "+"; "@"; "%"]%char.

Definition safe_word (w : string) : Prop := str_all safe_char w = true /\ w <> "".

Lemma safe_plain w : str_all safe_char w = true -> str_all plain_char w = true.
Proof. apply str_all_impl. by intros [[] [] [] [] [] [] [] []]. Qed.

Lemma tokens_join ws : Forall safe_word ws -> Shell.tokens Shell.Plain "" false (str_join " " ws) = ws.
Proof.
  induction ws as [|w ws IH]; intros Hws; [done|]. apply Forall_cons in Hws as [[Hw Hne] Hws].
  apply safe_plain in Hw. destruct ws as [|w' ws].
  - cbn [str_join String.concat]. rewrite <- (app_empty_r w) at 1. rewrite tokens_plain by done. done.
  - change (str_join " " (w :: w' :: ws)) with (w +:+ String " " (str_join " " (w' :: ws))).
    rewrite tokens_word by done. by rewrite IH.
Qed.

(** Every worker of a cluster trains with the words the head trains with: the line that the
    agent joins for [bash -c] splits into the arguments it gives [docker exec] for the head,
    when none of them has a character that a shell takes apart. *)
Theorem worker_runs_heads_arguments e o r :
  Args.isMultiNode o = true ->
  Forall safe_word (Args.launchPath o r :: Args.trainArgs e o r) ->
  Shell.tokenizeCommand (Args.workerCommand e o r) = Args.headCommand e o r.
Proof.
  intros Hm Hws. unfold Args.headCommand. rewrite Hm. apply Forall_cons in Hws as [Hl Hws].
  assert (Args.trainArgs e o r <> []) as Hne by (unfold Args.trainArgs; done).
  unfold Shell.tokenizeCommand, Args.workerCommand.
  assert ("bash " +:+ Args.launchPath o r +:+ " --hostfile /tmp/hostfile.txt " +:+
            str_join " " (Args.trainArgs e o r) =
          str_join " " ("bash" :: Args.launchPath o r :: Args.hostfileArgs ++ Args.trainArgs e o r)) as ->.
  { by destruct (Args.trainArgs e o r). }
  apply tokens_join. constructor; [by split|]. constructor; [done|]. do 2 (constructor; [by split|]). exact Hws.
Qed.

(** ** Merging and quantizing *)

Definition isEnd (t : Merge.told) : bool := match t with Merge.OnComplete _ _ _ => true | _ => false end.

Lemma chunks_tell_no_end cs : Forall (fun t => isEnd t = false) (concat (map Merge.chunkProgress cs)).
Proof.
  apply Forall_concat, Forall_forall. intros ts Hts. apply list_elem_of_fmap in Hts as (c & -> & _).
  apply Forall_forall. intros t Ht. unfold Merge.chunkProgress in Ht.
  apply list_elem_of_omap in Ht as ([mark [p v]] & _ & E). destruct (str_includes _ _); [|done].
  by injection E as <-.
Qed.

(** The merge of an adapter tells its end once and last, on every branch, completed exactly
    when the name was free, docker and pip did as told and the script exited with 0, and
    leaves no container of its name when the last removal is carried out. *)
Theorem merge_ends_once x o d :
  let '(ts, d') := Merge.mergeLoraAdapter x o d in
  let name := Merge.containerName (Merge.mo_jobId o) in
  exists before st p e, ts = before ++ [Merge.OnComplete st p e] /\
    Forall (fun t => isEnd t = false) before /\
    (st = "completed" <->
       (Merge.ma_clear x = true \/ d !! (None, name) = None) /\ Merge.ma_run x = true /\
       Merge.ma_pip x = true /\ Merge.ma_code x = Some 0%Z) /\
    (Merge.ma_remove x = true -> d' !! (None, name) = None).
Proof.
  unfold Merge.mergeLoraAdapter. set (name := Merge.containerName _).
  assert (forall d, Merge.ma_remove x = true -> rm (Merge.ma_remove x) None name d !! (None, name) = None) as Hrm.
  { intros d0 Hx. by rewrite rm_lookup, decide_True. }
  assert (nameFree (rm (Merge.ma_clear x) None name d) None name = true <->
          Merge.ma_clear x = true \/ d !! (None, name) = None) as Hfree.
  { unfold nameFree. rewrite bool_decide_eq_true. destruct (Merge.ma_clear x) eqn:E.
    - rewrite rm_lookup, decide_True by done. naive_solver.
    - unfold rm. naive_solver. }
  pose proof (chunks_tell_no_end (Merge.ma_chunks x)) as Hc.
  destruct (nameFree _ _ _) eqn:Hf, (Merge.ma_run x) eqn:Hr; cbn [andb].
  1: destruct (Merge.ma_pip x) eqn:Hp; [destruct (Merge.ma_code x) as [[|c|c]|] eqn:Hcode|].
  1: rewrite app_assoc; change [?a; ?b] with ([a] ++ [b]); rewrite app_assoc.
  all: try (rewrite app_assoc); eexists _, _, _, _; (split; [reflexivity|]);
    (split; [repeat (apply Forall_app; split); repeat constructor; exact Hc || done|]);
    (split; [|by auto]); naive_solver.
Qed.

Definition isQuantEnd (t : Quantize.told) : bool :=
  match t with Quantize.OnComplete _ _ _ => true | _ => false end.

Lemma quant_chunks_tell_no_end cs :
  Forall (fun t => isQuantEnd t = false) (concat (map Quantize.chunkProgress cs)).
Proof.
  apply Forall_concat, Forall_forall. intros ts Hts. apply list_elem_of_fmap in Hts as (c & -> & _).
  apply Forall_forall. intros t Ht. unfold Quantize.chunkProgress in Ht.
  apply list_elem_of_omap in Ht as (line & _ & E).
  destruct (Quantize.detectQuantizeProgress line) as [[p v]|]; [|done]. by injection E as <-.
Qed.

(** A quantization whose container does not start is told to nobody: when docker refuses to run
    it, the promise is rejected, which ends the agent, without a completion, so that the
    manager's tables stay as they are and the job goes on "quantizing"; in every other case
    the end is told once and last. *)
Theorem quantize_failed_run_untold x o d :
  let '(ts, r, d') := Quantize.quantizeMergedToFp8 x o d in
  let name := Quantize.containerName (Quantize.qo_jobId o) in
  let runs := (Quantize.qa_clear x || nameFree d None name) && Quantize.qa_run x in
  if runs
  then is_ok r /\ exists before st p e, ts = before ++ [Quantize.OnComplete st p e] /\
         Forall (fun t => isQuantEnd t = false) before
  else r = Err (Quantize.qa_error x) /\
       forall w ws now, deliver w ws now (Quantize.onQuantize x o d).1.1 = w.
Proof.
  destruct (Quantize.quantizeMergedToFp8 x o d) as [[ts r] d'] eqn:E.
  assert (forall w ws now j, (onMessage w ws (QuantizeProgress j) now "" (fun _ => None)).1 = w) as Hp.
  { intros. unfold onMessage. by destruct (conns w !! ws). }
  unfold Quantize.onQuantize. rewrite E. cbn [fst snd]. unfold Quantize.quantizeMergedToFp8 in E.
  set (name := Quantize.containerName _) in *.
  assert (nameFree (rm (Quantize.qa_clear x) None name d) None name =
          Quantize.qa_clear x || nameFree d None name) as Hfree.
  { destruct (Quantize.qa_clear x); [|done]. unfold nameFree. by rewrite rm_lookup, decide_True. }
  rewrite Hfree in E. pose proof (quant_chunks_tell_no_end (Quantize.qa_chunks x)) as Hc.
  destruct ((_ || _) && Quantize.qa_run x).
  - destruct (Quantize.qa_pip x); injection E as <- <- <-; (split; [by eexists|]).
    + exists (Quantize.OnProgress "loading" (zn 0) :: concat (map Quantize.chunkProgress (Quantize.qa_chunks x))).
      destruct (Quantize.qa_code x) as [[|c|c]|]; eexists _, _, _; (split; [reflexivity|]);
        by constructor.
    + exists [Quantize.OnProgress "loading" (zn 0)]. eexists _, _, _. split; [reflexivity|]. by repeat constructor.
  - injection E as <- <- <-. split; [done|]. intros w ws now. cbn. apply Hp.
Qed.

(** ** Concrete runs *)
Import Args Machine Parse Output.

Definition sh : string := "/mnt/tank".
Definition jobA : string := "cmabcdefghijklmnopqrstuvw".

Definition orderA : order :=
  {| or_jobId := jobA; or_recipeFile := "recipes/gemma"; or_dataset := "/mnt/tank/data/sql";
     or_outputDir := "/workspace/outputs/" +:+ jobA; or_config := [("epochs", JNum (zn 3))];
     or_clusterNodeIps := None; or_resume := false |}.
Definition orderC : order :=
  {| or_jobId := jobA; or_recipeFile := "recipes/gemma"; or_dataset := "b-mc2/sql-create-context";
     or_outputDir := "/workspace/outputs/" +:+ jobA; or_config := [("epochs", JNum (zn 3))];
     or_clusterNodeIps := Some ["10.0.0.1"; "10.0.0.2"]; or_resume := false |}.
Definition recipeA : recipe :=
  {| rc_file := "recipes/gemma"; rc_base_model := "google/gemma-3"; rc_image := "nvcr.io/pytorch";
     rc_build_context := None; rc_entrypoint := "entrypoint.sh"; rc_launch := "launch.sh";
     rc_defaults := [("lr", JStr "2e-4")] |}.

(** Everything works; or the container is not ready yet. *)
Definition yes (now : Z) : answers := {| an_ok := fun _ => true; an_error := ""; an_now := now |}.
Definition notReady (now : Z) : answers :=
  {| an_ok := fun c => match c with CProbe => false | _ => true end; an_error := ""; an_now := now |}.

Definition reached (es : list event) : agent := default init (run sh init es).

(** The container has been started and is not ready. *)
Definition settingUpEvents (o : order) : list event := [Start o true; Imported 0 (Some recipeA) (notReady 0)].
Definition settingUp : agent := reached (settingUpEvents orderA).

Example settingUp_waits :
  run sh init (settingUpEvents orderA) = Some settingUp /\
  ag_tasks settingUp = [TReady orderA recipeA 0 0] /\ ag_running settingUp !! jobA = Some 0 /\
  isRunning (ag_docker settingUp) None "dgx-finetune-cmabcdefghij" = true.
Proof. by split_and!; vm_compute. Qed.

(** A training that runs and ends. *)
Definition trained : list event :=
  [Woke 0 (yes 5000); Printed 0 "[TRAIN] step=5/50 loss=2.5 lr=2e-4"; Exited 0 (Some 0%Z) (yes 9000)].

Example training_reports :
  ag_sent <$> run sh settingUp trained =
  Some [progressMessage jobA (phaseUpdate training (zn 0));
        progressMessage jobA
          {| up_phase := training; up_phaseProgress := fraction 5 50; up_step := Some 5%Z;
             up_totalSteps := Some 50%Z; up_loss := Some (parseFloat "2.5");
             up_lr := Some (parseFloat "2e-4"); up_evalLoss := None; up_eta := None |};
        progressMessage jobA (phaseUpdate saving (zn 1));
        complete jobA "completed" (Some ("/workspace/outputs/" +:+ jobA +:+ "/lora_adapter")) None].
Proof. by vm_compute. Qed.

Definition trainedState : agent := reached (Start orderA true :: Imported 0 (Some recipeA) (notReady 0) :: trained).

Lemma trained_run : run sh init (Start orderA true :: Imported 0 (Some recipeA) (notReady 0) :: trained) = Some trainedState.
Proof. by vm_compute. Qed.

Lemma no_launch_forgotten_witness :
  (TImport orderA ∈ ag_tasks trainedState \/ (exists r, 0 <= r /\ live trainedState jobA r) \/
   exists ms ls, ag_sent trainedState = ms /\ ag_lost trainedState = ls /\
     (completes jobA ms \/ completes jobA ls)) /\
  ag_lost trainedState = [].
Proof.
  destruct (no_launch_forgotten sh [] init orderA true (Imported 0 (Some recipeA) (notReady 0) :: trained) trainedState) as [Ht Hup].
  - reflexivity.
  - repeat constructor.
  - exact trained_run.
  - split; [exact Ht|]. apply Hup; [reflexivity|by repeat constructor].
Defined.

(** A training that ends while the link is down: nobody is told, then or later. *)
Example completion_dropped :
  (fun a => (ag_sent a, ag_running a !! jobA)) <$>
    run sh settingUp [Woke 0 (yes 5000); Closed; Exited 0 (Some 0%Z) (yes 9000); Opened []] =
  Some ([], None).
Proof. by vm_compute. Qed.

(** Sixty probes, five seconds apart. *)
Definition probes : list answers := map (fun k => notReady (5000 * Z.of_nat k)) (seq 1 60).

Lemma probes_spaced k x : probes !! k = Some x -> (0 + 5000 * (Z.of_nat k + 1) <= an_now x)%Z.
Proof.
  unfold probes. rewrite list_lookup_fmap. intros H. apply fmap_Some in H as (i & Hi & ->).
  apply lookup_seq in Hi as [-> _]. cbn [an_now notReady]. lia.
Qed.

Lemma setups_end_witness :
  exists m b, (m <= 60 + 60 * workers orderA)%nat /\ run sh settingUp (wakes (take m probes)) = Some b /\
              ag_tasks b = [].
Proof.
  apply (setups_end sh settingUp orderA recipeA 0 0 probes).
  - vm_compute. reflexivity.
  - exact probes_spaced.
  - vm_compute. lia.
Defined.

Lemma yes_removes now : removes (yes now).
Proof. by split. Qed.


Lemma stopped_setup_reported_failed_witness : exists b ms,
  run sh settingUp (Stop jobA (yes 1000) :: map (Woke 0) [notReady 5000] ++ [Woke 0 (notReady 300000)]) = Some b /\
  ag_sent b = ag_sent settingUp ++ ms /\
  ms = [complete jobA "stopped" None None; failed jobA "Container setup timed out after 5 minutes"] /\
  forall w ws now row, is_Some (conns w !! ws) -> jobRow w jobA = Some row ->
    exists row', jobRow (deliver w ws now ms) jobA = Some row' /\ f_status row' = "failed".
Proof.
  apply (stopped_setup_reported_failed sh (settingUpEvents orderA) settingUp 0 orderA recipeA 0 0).
  - vm_compute. reflexivity.
  - vm_compute. reflexivity.
  - vm_compute. reflexivity.
  - vm_compute. reflexivity.
  - reflexivity.
  - constructor; [vm_compute; reflexivity|constructor].
  - vm_compute. discriminate.
Defined.

(** Stopped while it set up, and started again: the second training runs. *)
Definition resumedEvents : list event :=
  settingUpEvents orderA ++ [Stop jobA (yes 1000); Start orderA true; Imported 1 (Some recipeA) (yes 2000)].
Definition resumed : agent := reached resumedEvents.

Definition second : instance :=
  with_proc Alive (with_watchdog false (newInstance orderA)).

Lemma stale_launch_ends_resumed_witness : exists b,
  step sh resumed (Woke 0 (yes 5000)) = Some b /\ ag_running b !! jobA = None /\
  ag_docker b !! (None, "dgx-finetune-cmabcdefghij") = None /\ ag_sent b = ag_sent resumed /\
  forall y, exists c, step sh b (Exited 1 (Some 137%Z) y) = Some c /\
    ag_sent c = ag_sent resumed ++ [failed jobA "Training exited with code 137"].
Proof.
  apply (stale_launch_ends_resumed sh resumedEvents resumed 0 orderA recipeA 0 0 1 second (yes 5000));
    vm_compute; reflexivity.
Defined.

(** A cluster whose worker's container died. *)
Definition lostEvents : list event :=
  [Start orderC true; Imported 0 (Some recipeA) (yes 0); Dies (Some "10.0.0.2") "dgx-finetune-cmabcdefghij"].
Definition lost : agent := reached lostEvents.

Lemma lost_worker_told_once_witness : exists b, step sh lost (Ticked 0 (fun _ => true) (yes 30000)) = Some b /\
  ag_sent b = ag_sent lost ++ [failed jobA "Worker 10.0.0.2 container exited (exited)"] /\
  ag_running b !! jobA = None /\
  (forall h, h ∈ [None; Some "10.0.0.2"] -> ag_docker b !! (h, "dgx-finetune-cmabcdefghij") = None) /\
  (forall reach' y, step sh b (Ticked 0 reach' y) = None) /\
  forall code y c, step sh b (Exited 0 code y) = Some c -> ag_sent c = ag_sent b.
Proof.
  apply (lost_worker_told_once sh lostEvents lost 0
    (with_proc Alive (with_watchdog true (newInstance orderC))) (fun _ => true) (yes 30000) "10.0.0.2" "exited");
    try (vm_compute; reflexivity). apply yes_removes.
Defined.

(** The agent restarts while the training runs, which then ends well. *)
Definition running : agent := reached (settingUpEvents orderA ++ [Woke 0 (yes 5000)]).
Definition restarted : agent := onRestart sh [(containerName jobA, true)] running.
Definition saved : string := "LoRA adapter saved to /workspace/outputs/x/lora_adapter".
Definition followed : agent := default init (run sh restarted [Printed 0 saved]).

Example followed_completes :
  ag_sent followed =
  [progressMessage "cmabcdefghij" (phaseUpdate Parse.saving (zn 0));
   complete "cmabcdefghij" "completed" (Some "/workspace/outputs/x/lora_adapter") None].
Proof. by vm_compute. Qed.

Lemma reattached_completion_lost_witness : exists ms, ag_sent followed = ag_sent running ++ ms /\
  (forall w ws now, (forall row, row ∈ finetuneJobs (w_db w) -> (12 < String.length (f_id row))%nat) ->
     statuses (deliver w ws now ms) = statuses w) /\
  forall x, ag_running (onStop x sh jobA followed) = {[ str_take 12 jobA := 0 ]}.
Proof.
  apply (reattached_completion_lost sh running jobA [saved] followed).
  - vm_compute. reflexivity.
  - vm_compute. lia.
  - vm_compute. reflexivity.
Defined.

(** A resumed job keeps the output directory of the job it resumes: after a restart of the agent
    its workers are not found, and a stop leaves their containers. *)
Definition jobB : string := "cmzzzzzzzzzzzzzzzzzzzzzzz".
Definition orderB : order :=
  {| or_jobId := jobB; or_recipeFile := "recipes/gemma"; or_dataset := "d"; or_outputDir := or_outputDir orderC;
     or_config := []; or_clusterNodeIps := or_clusterNodeIps orderC; or_resume := true |}.

Example resumed_workers_left :
  (fun a => (ag_docker a !! (None, "dgx-finetune-cmzzzzzzzzzz"), ag_docker a !! (Some "10.0.0.2", "dgx-finetune-cmzzzzzzzzzz")))
  <$> run sh init [Start orderB true; Imported 0 (Some recipeA) (yes 0); Restarted [("dgx-finetune-cmzzzzzzzzzz", false)];
                   Stop jobB (yes 9000)]
  = Some (None, Some true).
Proof. by vm_compute. Qed.

(** A manager with the job and the agent's socket. *)
Definition row : finetune_job :=
  FineTuneJob jobA "n1" None "starting" None None [] (Some "recipes/gemma") "google/gemma-3" "lora" "d" None
    None None None None None None None None None None.
Definition manager : world :=
  set_conns (<[0 := Conn (Some "n1") None None true]>) (started (Db [] [] [] [] [] [row]) [] []).

Definition fresh : meter := {| mt_phase := setup; mt_samples := [] |}.

Lemma train_line_becomes_row_witness : exists t,
  t ∈ w_training (deliver manager 0 0 (map (progressMessage jobA)
        (handleLine true (trainLine "5" "50" "2.5" "2e-4") fresh).2)) /\
  tm_jobId t = jobA /\ tm_step t = parseDigits "5" /\ tm_loss t = parseFloat "2.5".
Proof.
  apply (train_line_becomes_row manager 0 0 jobA "5" "50" "2.5" "2e-4"
    (match parseFloat "2.5" with Fin q => q | _ => 0%Q end) true fresh); try done; try (by eexists).
  vm_compute. lia.
Defined.

Lemma eval_dict_is_lost_witness :
  w_training (deliver manager 0 0 (map (progressMessage jobA) (handleLine true (evalDict "1.25") fresh).2)) =
    w_training manager /\
  exists us u, (handleLine true (evalLine "1.25") fresh).2 = us ++ [u] /\ up_phase u = Parse.eval /\
    up_evalLoss u = Some (parseFloat "1.25").
Proof. apply (eval_dict_is_lost manager 0 0 jobA "1.25" true fresh); [by eexists|by split]. Defined.

Lemma updates_bounded_witness :
  let '(m', us) := foldl (fun '(m, us) text => let '(m', vs) := handleOutput text m in (m', us ++ vs))
                     (fresh, []) ["Loading weights"; " 33%|###    | 1/3 [00:02<00:04, 2.66it/s]"] in
  meter_ok m' /\ Forall update_ok us.
Proof. apply (updates_bounded ["Loading weights"; " 33%|###    | 1/3 [00:02<00:04, 2.66it/s]"] fresh). split; [cbn; lia|constructor]. Defined.

(** A small loss in the trainer's dictionary is cut before its exponent. *)
Example small_loss_cut :
  pi_loss <$> parseProgress ("{" +:+ quoted "loss" +:+ ": 5e-05}") training = Some (Some (parseFloat "5")).
Proof. by vm_compute. Qed.

Definition environmentA : environment :=
  {| en_shared := "/mnt/tank"; en_hfToken := None; en_sshUser := "daniel"; en_home := "/root";
     en_infiniband := true |}.

Lemma worker_runs_heads_arguments_witness :
  Shell.tokenizeCommand (workerCommand environmentA orderC recipeA) = headCommand environmentA orderC recipeA.
Proof.
  apply (worker_runs_heads_arguments environmentA orderC recipeA); [reflexivity|].
  assert (forall w, str_all safe_char w && negb (String.eqb w "") = true -> safe_word w) as Hw.
  { intros w [H1 H2%negb_true_iff%String.eqb_neq]%andb_true_iff. by split. }
  repeat (constructor; [apply Hw; vm_compute; reflexivity|]). constructor.
Defined.

(** A value with a blank reaches the head as one argument and the workers as two. *)
Definition spaced : order :=
  {| or_jobId := jobA; or_recipeFile := "recipes/gemma"; or_dataset := "d"; or_outputDir := "/workspace/outputs/x";
     or_config := [("run_name", JStr "my run")]; or_clusterNodeIps := or_clusterNodeIps orderC;
     or_resume := false |}.

Example spaced_value_splits :
  length (Shell.tokenizeCommand (workerCommand environmentA spaced recipeA)) =
  S (length (headCommand environmentA spaced recipeA)).
Proof. by vm_compute. Qed.
