(* ===== verification/HfCache.v ===== *)
(** The HuggingFace caches: what an agent finds on its disk and removes from it
    ([agent/runtime/hf-cache.ts], the [cmd:hf-cache:*] cases of [agent/index.ts]), and what
    the manager makes of the inventories it is sent ([hf-cache/grouping.ts],
    [hf-cache/repo-deployment.ts], [routes/hf-cache.ts]).

    A directory is a tree, with entries that are gone by the time they are looked at and
    entries that may not be read; times are milliseconds, and [toISOString] is an argument.
    [rm] is a command that may fail. *)
From S2P Require Import Prelude JsNum Schema Admission Gateway Deployments Recipes Routes DeployRoute AgentHub.

Module Repo.

Inductive RepoKind :=
  | Model | Dataset
  (** a name every object inherits, which [KIND_BY_PREFIX[name]] also finds *)
  | Inherited (name : string).

#[export] Instance RepoKind_eq_dec : EqDecision RepoKind.
Proof. solve_decision. Defined.

Definition kindName (k : RepoKind) : string :=
  match k with Model => "model" | Dataset => "dataset" | Inherited n => n end.

Definition object_prototype : list string :=
  ["constructor"; "toString"; "valueOf"; "hasOwnProperty"; "isPrototypeOf"; "propertyIsEnumerable";
   "toLocaleString"; "__proto__"; "__defineGetter__"; "__defineSetter__"; "__lookupGetter__";
   "__lookupSetter__"].

Definition KIND_BY_PREFIX (p : string) : option RepoKind :=
  if String.eqb p "models" then Some Model
  else if String.eqb p "datasets" then Some Dataset
  else if mem_str p object_prototype then Some (Inherited p) else None.

(** [s.split("--")] *)
Fixpoint split_dashes (s : string) : list string :=
  match s with
  | String "-" (String "-" r) => "" :: split_dashes r
  | String c r => match split_dashes r with w :: ws => String c w :: ws | [] => [String c ""] end
  | EmptyString => [""]
  end.

Definition parseRepoDirName (dirName : string) : option (RepoKind * string) :=
  match split_dashes dirName with
  | p :: segments =>
      if (length segments =? 0)%nat then None
      else
        kind ← KIND_BY_PREFIX p;
        if existsb (String.eqb "") segments then None
        else Some (kind, str_join "/" segments)
  | [] => None
  end.

Definition repoDirName (kind repoId : string) : string :=
  kind +:+ "s--" +:+ str_join "--" (str_split "/" repoId).

Definition segment_char (c : ascii) : bool :=
  is_alnum c || Ascii.eqb c "." || Ascii.eqb c "_" || Ascii.eqb c "-".

(** [/^[A-Za-z0-9._-]+$/] *)
Definition REPO_SEGMENT_RE (s : string) : bool := negb (String.eqb s "") && str_all segment_char s.

Definition isSafeRepoId (repoId : string) : bool :=
  let segments := str_split "/" repoId in
  (length segments <=? 2)%nat &&
  forallb (fun s => REPO_SEGMENT_RE s && negb (String.eqb s ".") && negb (String.eqb s "..")) segments.

End Repo.

Module Disk.
Import Repo.

Inductive errno := ENOENT | EACCES | EPERM | Other (what : string).
#[export] Instance errno_eq_dec : EqDecision errno.
Proof. solve_decision. Defined.

(** An entry as [readdir] lists it, with what looking at it finds.  [Leaf]: a file or
    not ([isFile]), its size and its [mtimeMs]; [Dir]: its [mtimeMs] and its entries;
    [Broken]: listed as a directory or not, looking at it throws. *)
Inductive entry :=
  | Leaf (isFile : bool) (size mtime : Z)
  | Dir (mtime : Z) (entries : list (string * entry))
  | Broken (isDirectory : bool) (e : errno).

Definition isDirectory (e : entry) : bool :=
  match e with Leaf _ _ _ => false | Dir _ _ => true | Broken d _ => d end.

Record WalkStats := { sizeBytes : Z; nFiles : Z; lastModifiedMs : Z }.

Definition no_stats : WalkStats := {| sizeBytes := 0; nFiles := 0; lastModifiedMs := 0 |}.
Definition add_stats (a b : WalkStats) : WalkStats :=
  {| sizeBytes := sizeBytes a + sizeBytes b; nFiles := nFiles a + nFiles b;
     lastModifiedMs := Z.max (lastModifiedMs a) (lastModifiedMs b) |}.

(** One turn of the loop: what the [try] came to, [ENOENT] swallowed. *)
Definition tolerate (acc : WalkStats) (r : result errno WalkStats) : result errno WalkStats :=
  match r with
  | Ok s => Ok (add_stats acc s)
  | Err ENOENT => Ok acc
  | Err e => Err e
  end.

(** [visit e] is what the body of the [try] adds for the entry [e]; for a directory it is
    [walk] of it. *)
Fixpoint visit (e : entry) : result errno WalkStats :=
  match e with
  | Leaf f size mtime =>
      Ok {| sizeBytes := size; nFiles := if f then 1 else 0; lastModifiedMs := Z.max 0 mtime |}
  | Broken _ err => Err err
  | Dir _ entries =>
      (fix loop acc es := match es with
                          | [] => Ok acc
                          | (_, x) :: es' => acc' ← tolerate acc (visit x); loop acc' es'
                          end) no_stats entries
  end.

Definition walk (dir : entry) : result errno WalkStats :=
  match dir with
  | Leaf _ _ _ => Err (Other "ENOTDIR")
  | _ => visit dir
  end.

Definition lookup (name : string) (dir : entry) : option entry :=
  match dir with Dir _ es => al_get es name | _ => None end.

Record CachedRepo := {
  repoId : string; kind : RepoKind; rp_size : Z; rp_files : Z; revisions : Z; lastModified : Z }.

(** The body of the [try] for one directory of [hub]. *)
Definition scanRepo (parsed : RepoKind * string) (repoDir : entry) : result errno CachedRepo :=
  stats ← walk repoDir;
  revs ← match lookup "snapshots" repoDir with
         | None | Some (Broken _ ENOENT) => Ok 0%Z
         | Some (Dir _ es) => Ok (Z.of_nat (length (List.filter (fun x => isDirectory x.2) es)))
         | Some (Leaf _ _ _) => Err (Other "ENOTDIR")
         | Some (Broken _ e) => Err e
         end;
  mtime ← match repoDir with Dir m _ => Ok m | Leaf _ _ m => Ok m | Broken _ e => Err e end;
  Ok {| repoId := parsed.2; kind := parsed.1; rp_size := sizeBytes stats; rp_files := nFiles stats;
        revisions := revs;
        lastModified := if (lastModifiedMs stats =? 0)%Z then mtime else lastModifiedMs stats |}.

Fixpoint scanHub (es : list (string * entry)) : result errno (list CachedRepo) :=
  match es with
  | [] => Ok []
  | (name, e) :: es' =>
      if negb (isDirectory e) then scanHub es'
      else match parseRepoDirName name with
           | None => scanHub es'
           | Some parsed =>
               match scanRepo parsed e with
               | Ok r => rs ← scanHub es'; Ok (r :: rs)
               | Err ENOENT => scanHub es'
               | Err err => Err err
               end
           end
  end.

(** [hfHome]: the tree at that path, if it exists. *)
Definition scanHfCache (hfHome : option entry) : result errno (list CachedRepo) :=
  match hfHome with
  | None => Err (Other "HF_HOME does not exist")
  | Some home =>
      match lookup "hub" home with
      | None | Some (Broken _ ENOENT) => Ok []
      | Some (Dir _ es) => scanHub es
      | Some (Leaf _ _ _) => Err (Other "ENOTDIR")
      | Some (Broken _ e) => Err e
      end
  end.

(** ** Deleting

    Paths are the strings [resolve] gives; [cwd] and [hfHome] come as segments and as
    text, as in [Recipes.Path]. *)
Section Delete.
Context (cwd : list string) (hfHome : string).

Definition hub : list string := Path.resolveSegs (Path.resolveSegs cwd hfHome) "hub".
Definition target (kind repoId : string) : list string := Path.resolveSegs hub (repoDirName kind repoId).

Inductive deleteError := InvalidId | OutsideHub | NotInCache | RmFailed (e : errno) | SudoFailed.

(** The commands issued on a path. *)
Inductive command := RmSync (path : string) | SudoRm (path : string).

Definition deleteCachedRepo (exists_ : string -> bool) (rm : string -> result errno ())
    (sudo : string -> bool) (kind repoId : string) : list command * result deleteError () :=
  if negb (isSafeRepoId repoId) then ([], Err InvalidId)
  else
    let path := Path.pathOf (target kind repoId) in
    if negb (String.prefix (Path.pathOf hub +:+ "/") path) then ([], Err OutsideHub)
    else if negb (exists_ path) then ([], Err NotInCache)
    else match rm path with
         | Ok _ => ([RmSync path], Ok ())
         | Err e =>
             if negb (bool_decide (e = EACCES)) && negb (bool_decide (e = EPERM))
             then ([RmSync path], Err (RmFailed e))
             else ([RmSync path; SudoRm path], if sudo path then Ok () else Err SudoFailed)
         end.
End Delete.

Definition command_path (c : command) : string := match c with RmSync p | SudoRm p => p end.

(** ** The inventory *)

Record payload := {
  py_cacheId : string; py_scannedAt : string; py_totalBytes : Z; py_diskFree : Z;
  py_error : option string; py_unconfigured : bool; py_repos : list CachedRepo }.

Section Inventory.
Context (now : string) (errText : errno -> string).

(** [cacheId]: what [readOrCreateCacheId] came to; [statfs]: free bytes, or its throw. *)
Definition buildInventory (hfHome : option entry) (explicit : bool)
    (cacheId : result errno string) (statfs : result errno Z) : result errno payload :=
  if negb explicit && negb (bool_decide (is_Some hfHome))
  then Ok {| py_cacheId := ""; py_scannedAt := now; py_totalBytes := 0; py_diskFree := 0;
             py_error := None; py_unconfigured := true; py_repos := [] |}
  else
    id ← cacheId;
    repos ← scanHfCache hfHome;
    free ← statfs;
    Ok {| py_cacheId := id; py_scannedAt := now;
          py_totalBytes := foldl (fun sum r => (sum + rp_size r)%Z) 0%Z repos; py_diskFree := free;
          py_error := None; py_unconfigured := false; py_repos := repos |}.

Definition with_error (e : option string) (p : payload) : payload :=
  {| py_cacheId := py_cacheId p; py_scannedAt := py_scannedAt p; py_totalBytes := py_totalBytes p;
     py_diskFree := py_diskFree p; py_error := e; py_unconfigured := py_unconfigured p;
     py_repos := py_repos p |}.

(** The one message [sendHfCacheInventory] sends. *)
Definition sendHfCacheInventory (error : option string) (inv : result errno payload) : payload :=
  match inv with
  | Ok p => with_error (match truthy error with Some e => Some e | None => py_error p end) p
  | Err err =>
      {| py_cacheId := ""; py_scannedAt := now; py_totalBytes := 0; py_diskFree := 0;
         py_error := Some (match truthy error with
                           | Some e => e +:+ "; scan also failed: " +:+ errText err
                           | None => "scan failed: " +:+ errText err end);
         py_unconfigured := false; py_repos := [] |}
  end.

(** [cmd:hf-cache:delete]: the commands and the message; [after] is the inventory taken
    once they have run. *)
Definition onHfDelete (showErr : deleteError -> string) (repoId : string)
    (r : list command * result deleteError ()) (after : result errno payload) : list command * payload :=
  (r.1, match r.2 with
        | Ok _ => sendHfCacheInventory None after
        | Err e => sendHfCacheInventory (Some ("delete " +:+ repoId +:+ " failed: " +:+ showErr e)) after
        end).
End Inventory.

End Disk.

(** ** The identity of a cache: [readOrCreateCacheId] on several nodes

    The marker is one file on the shared storage.  Reading it, creating it ([wx]) and
    writing into it are separate instants, and a node may die between any two. *)
Module CacheId.

Inductive phase :=
  | Start | Missing (id : string) | Created (id : string) | Lost | Got (id : string) | Unreadable.
#[export] Instance phase_eq_dec : EqDecision phase.
Proof. solve_decision. Defined.

Record state := { marker : option string; node : list phase }.

Definition readMarker (m : option string) : option string := truthy (str_trim <$> m).

(** What the node at [ph] does next; [uuid] is what [randomUUID()] would give. *)
Definition act (uuid : string) (m : option string) (ph : phase) : option string * phase :=
  match ph with
  | Start => (m, match readMarker m with Some id => Got id | None => Missing uuid end)
  | Missing id => match m with None => (Some "", Created id) | Some _ => (m, Lost) end
  | Created id => (Some (id +:+ String nl ""), Got id)
  | Lost => (m, match readMarker m with Some id => Got id | None => Unreadable end)
  | Got _ | Unreadable => (m, ph)
  end.

(** [randomUUID()]: thirty-six hexadecimal digits and dashes. *)
Definition is_uuid (u : string) : Prop :=
  String.length u = 36%nat /\ str_all (fun c => Mac.is_hex c || Ascii.eqb c "-") u = true.

Inductive step : state -> state -> Prop :=
  | Act s i ph uuid :
      node s !! i = Some ph -> is_uuid uuid ->
      step s {| marker := (act uuid (marker s) ph).1;
                node := <[i := (act uuid (marker s) ph).2]> (node s) |}
  (** the agent is restarted, or asks again *)
  | Again s i : step s {| marker := marker s; node := <[i := Start]> (node s) |}.

Definition reachable : state -> state -> Prop := rtc step.

End CacheId.

(** ** The manager *)
Module Grouping.

Record HfCacheRepo := {
  repoId : string; kind : string; sizeBytes : num; nFiles : num; revisions : num;
  lastModified : string }.

Record HfCacheNodeInventory := {
  nodeId : string; cacheId : string; hfHome : string; scannedAt : string; totalBytes : num;
  diskFreeBytes : num; inv_error : option string; unconfigured : option bool;
  repos : list HfCacheRepo }.

Record CacheGroup := { g_cacheId : string; nodeIds : list string; newest : HfCacheNodeInventory }.

Definition cacheGroupKey (inv : HfCacheNodeInventory) : string :=
  js_or (Some (cacheId inv)) ("node:" +:+ nodeId inv).

(** [xs.reduce((a, b) => at(a) >= at(b) ? a : b)] on [x :: xs] *)
Definition latest {A} (at_ : A -> string) (x : A) (xs : list A) : A :=
  foldl (fun a b => if str_le (at_ b) (at_ a) then a else b) x xs.

Definition groupInventories (inventories : list HfCacheNodeInventory) : list CacheGroup :=
  omap (fun '(id, members) =>
          match members with
          | [] => None
          | m :: ms => Some {| g_cacheId := id; nodeIds := map nodeId members;
                               newest := latest scannedAt m ms |}
          end) (group_by cacheGroupKey inventories).

Definition matchRepoToModels (repoId : string) (candidates : list string) : bool :=
  existsb (fun c => String.eqb (str_lower c) (str_lower repoId)) candidates.

(** A text column that is [NULL] or empty is no column; one that does not parse, and one
    that parses to [null], throw inside the [try]. *)
Definition configField (k : string) (configJson : option jtext) : option string :=
  match configJson with
  | Some (Some v) => jstr (jget (Some v) k)
  | _ => None
  end.

Definition deploymentModelCandidates (modelName : option string) (configJson : option jtext) :
    list string :=
  option_list (truthy modelName) ++ option_list (configField "modelName" configJson).

(** [[...new Set(xs)]] *)
Definition dedupe (xs : list string) : list string :=
  foldl (fun seen x => if mem_str x seen then seen else seen ++ [x]) [] xs.

Definition deploymentRepoKeys (modelName : option string) (configJson : option jtext)
    (recipeModel finetuneBaseModel : option string) : list string :=
  let raw := deploymentModelCandidates modelName configJson ++
             option_list (truthy recipeModel) ++ option_list (truthy finetuneBaseModel) in
  dedupe (List.filter (fun s => (0 <? String.length s)%nat) (map str_lower raw)).

Definition newerIso (a b : option string) : option string :=
  match a, b with
  | None, _ => b
  | _, None => a
  | Some x, Some y => if str_le y x then a else b
  end.

Record DeploymentUsage := {
  us_status : string; us_nodeId : string; us_createdAt : string; us_label : string;
  us_candidates : list string; us_clusterNodeIds : list string }.

Definition TERMINAL_STATUSES : list string := ["stopped"; "failed"].

Definition touches (repoId : string) (groupNodeIds : list string) (d : DeploymentUsage) : bool :=
  (mem_str (us_nodeId d) groupNodeIds ||
   existsb (fun id => mem_str id groupNodeIds) (us_clusterNodeIds d)) &&
  matchRepoToModels repoId (us_candidates d).

Definition isActive (d : DeploymentUsage) : bool := negb (mem_str (us_status d) TERMINAL_STATUSES).

(** [inUse], [inUseBy], [lastDeployedAt]. *)
Definition repoUsage (repoId : string) (groupNodeIds : list string)
    (deployments : list DeploymentUsage) : bool * list string * option string :=
  let touching := List.filter (touches repoId groupNodeIds) deployments in
  let active := List.filter isActive touching in
  ((0 <? length active)%nat, map us_label active,
   match touching with
   | [] => None
   | d :: ds => Some (us_createdAt (latest us_createdAt d ds))
   end).

(** ** The durable dates: the table [RepoDeployment], a row per lower-cased id *)

Definition recordRepoDeployment (keys : list string) (at_ : string) (t : list (string * string)) :
    list (string * string) :=
  foldl (fun t k => al_set t k at_) t keys.

Definition loadRepoLastDeployed (t : list (string * string)) : string -> option string := al_get t.

(** [agent:hf-cache] from an identified socket: [Map.set] keeps the place of a key. *)
Definition storeInventory (inv : HfCacheNodeInventory)
    (m : list (string * HfCacheNodeInventory)) : list (string * HfCacheNodeInventory) :=
  al_set m (nodeId inv) inv.
Definition getHfCacheInventories (m : list (string * HfCacheNodeInventory)) :
    list HfCacheNodeInventory := m.*2.

End Grouping.

Module CacheRoute.
Import Grouping.

Section Route.
Context (iso : Z -> string) (dgxrunCatalog : list Recipe.CatalogRecipe) (agentRecipes : list agentRecipe).

(** [recipeHfId]: later entries win; agents' after the server's. *)
Definition recipeHfId (file : string) : option string :=
  let put m (r : string * option string) :=
    match truthy r.2 with Some model => al_set m r.1 model | None => m end in
  al_get (foldl put [] (map (fun r => (Recipe.cr_file r, Recipe.cr_model r)) dgxrunCatalog ++
                        map (fun r => (ar_file r, ar_model r)) agentRecipes)) file.

Definition baseModelOf (s : db) (m : model_row) : option string :=
  jid ← m_finetuneJobId m; j ← tbl_find jid (finetuneJobs s); truthy (Some (f_baseModel j)).

(** [None] when the model's row is missing, where Prisma throws. *)
Definition usageOf (s : db) (d : deployment) : option DeploymentUsage :=
  m ← model_of s d;
  let recipe := (f ← truthy (configField "recipeFile" (d_config d)); recipeHfId f) in
  Some {| us_status := d_status d; us_nodeId := d_nodeId d; us_createdAt := iso (d_createdAt d);
          us_label := default (m_name m) (d_displayName d);
          us_candidates := deploymentModelCandidates (Some (m_name m)) (d_config d) ++
                           option_list (truthy recipe) ++ option_list (baseModelOf s m);
          us_clusterNodeIds := map cn_nodeId
            (List.filter (fun c => String.eqb (cn_deploymentId c) (d_id d)) (clusterNodes s)) |}.

Definition loadDeploymentUsage (s : db) : option (list DeploymentUsage) :=
  mapM (usageOf s) (deployments s).

(** One cached repo in the answer of [GET]. *)
Record repoView := {
  rv_repo : HfCacheRepo; rv_inUse : bool; rv_inUseBy : list string; rv_lastDeployedAt : option string }.
Record cacheView := {
  cv_group : CacheGroup; cv_nodes : list (string * string * bool); cv_repos : list repoView }.

(** [conns]: [isAgentOnline]; [t]: the durable dates. *)
Definition getCaches (online : string -> bool) (s : db) (t : list (string * string))
    (invs : list HfCacheNodeInventory) : option (list cacheView) :=
  usage ← loadDeploymentUsage s;
  Some (map (fun g =>
    {| cv_group := g;
       cv_nodes := map (fun id => (id, match tbl_find id (nodes s) with
                                       | Some n => n_name n | None => id end, online id)) (nodeIds g);
       cv_repos := map (fun r =>
         let '(inUse, by_, last) := repoUsage (repoId r) (nodeIds g) usage in
         {| rv_repo := r; rv_inUse := inUse; rv_inUseBy := by_;
            rv_lastDeployedAt := newerIso last (loadRepoLastDeployed t (str_lower (repoId r))) |})
         (repos (newest g)) |}) (groupInventories invs)).

Inductive refusal :=
  | NoAgents                              (* 503 *)
  | MissingRepoId                         (* 400 *)
  | UnknownCache | NotInCache             (* 404 *)
  | InUse (by_ : list string)             (* 409 *)
  | NoConnectedAgent                      (* 503 *)
  | Throws.

(** [connected]: [getConnectedNodeIds()].  The nodes that are told to scan. *)
Definition postScan (connected : list string) : result refusal (list string) :=
  if (length connected =? 0)%nat then Err NoAgents else Ok connected.

(** The node that is told to delete, and the kind. *)
Definition deleteRepo (online : string -> bool) (s : db) (invs : list HfCacheNodeInventory)
    (cacheId : string) (repoIdQuery kindQuery : option string) :
    result refusal (string * string * string) :=
  let rid := default "" repoIdQuery in
  let k := if bool_decide (kindQuery = Some "dataset") then "dataset" else "model" in
  _ ← guard_or (negb (String.eqb rid "")) MissingRepoId;
  group ← of_option (js_find (fun g => String.eqb (g_cacheId g) cacheId) (groupInventories invs)) UnknownCache;
  _ ← of_option (js_find (fun r => String.eqb (repoId r) rid && String.eqb (kind r) k)
                         (repos (newest group))) NotInCache;
  usage ← of_option (loadDeploymentUsage s) Throws;
  let '(inUse, by_, _) := repoUsage rid (nodeIds group) usage in
  _ ← guard_or (negb inUse) (InUse by_);
  exec ← of_option (truthy (js_find online (nodeIds group))) NoConnectedAgent;
  Ok (exec, rid, k).

End Route.
End CacheRoute.
