(* ===== verification/HfCacheFacts.v ===== *)
(** HuggingFace caches: the names of directories, what a delete may remove, the identity
    of a cache, groups, and when the manager orders a delete. *)
From S2P Require Import Prelude JsNum Schema Admission Gateway Deployments Recipes RecipeFacts Routes DeployRoute AgentHub HfCache.

(** * Names of directories *)
Section Names.
Import Repo Path.

Lemma split_dashes_cons s : exists w ws, split_dashes s = w :: ws.
Proof.
  assert (forall n s, (String.length s < n)%nat -> exists w ws, split_dashes s = w :: ws) as H.
  { clear s. intros n. induction n as [|n IH]; intros s Hn; [lia|]. destruct s as [|c s]; [by eexists _, _|].
    cbn [split_dashes]. simpl in Hn.
    assert (exists w ws, match split_dashes s with w :: ws => String c w :: ws | [] => [String c ""] end = w :: ws)
      as Hs by (destruct (split_dashes s); by eexists _, _).
    destruct c as [[] [] [] [] [] [] [] []]; try exact Hs. destruct s as [|d r]; [exact Hs|].
    destruct d as [[] [] [] [] [] [] [] []]; try exact Hs. by eexists _, _. }
  apply (H (S (String.length s))). lia.
Qed.

Lemma split_dashes_two r : split_dashes (String "-" (String "-" r)) = "" :: split_dashes r.
Proof. done. Qed.

(** The other case of the split: the text does not begin with two dashes. *)
Lemma split_dashes_one c s w ws :
  String.prefix "--" (String c s) = false -> split_dashes s = w :: ws ->
  split_dashes (String c s) = String c w :: ws.
Proof.
  intros Hp Hs. cbn [split_dashes]. rewrite Hs.
  destruct c as [[] [] [] [] [] [] [] []]; try done. destruct s as [|d r]; [done|].
  destruct d as [[] [] [] [] [] [] [] []]; try done. by destruct r.
Qed.

Lemma dashes_or c s :
  String.prefix "--" (String c s) = false \/ exists r, String c s = String "-" (String "-" r).
Proof.
  destruct (String.prefix "--" (String c s)) eqn:E; [right|by left].
  apply prefix_spec in E as [u ->]. by exists u.
Qed.

(** Induction along the split. *)
Lemma dashes_ind (P : string -> Prop) :
  P EmptyString -> (forall r, P r -> P (String "-" (String "-" r))) ->
  (forall c s, String.prefix "--" (String c s) = false -> P s -> P (String c s)) ->
  forall s, P s.
Proof.
  intros H0 H2 H1 s.
  assert (forall n s, (String.length s < n)%nat -> P s) as H; [|apply (H (S (String.length s))); lia].
  clear s. intros n. induction n as [|n IH]; intros s Hn; [lia|]. destruct s as [|c s]; [done|].
  destruct (dashes_or c s) as [E|[r E]].
  - apply H1; [done|]. apply IH. simpl in Hn. lia.
  - rewrite E. apply H2, IH. rewrite E in Hn. simpl in Hn. lia.
Qed.

Lemma join_split_dashes s : str_join "--" (split_dashes s) = s.
Proof.
  induction s as [|r IH|c s Hp IH] using dashes_ind; [done| |].
  - destruct (split_dashes_cons r) as (w & ws & E). rewrite split_dashes_two, E, str_join_cons, <- E, IH.
    done.
  - destruct (split_dashes_cons s) as (w & ws & E). rewrite (split_dashes_one _ _ _ _ Hp E).
    rewrite E in IH. rewrite <- IH. destruct ws; done.
Qed.

Lemma split_dashes_all p s : str_all p s = true -> Forall (fun w => str_all p w = true) (split_dashes s).
Proof.
  induction s as [|r IH|c s Hp IH] using dashes_ind; intros H; [by constructor| |].
  - cbn [str_all] in H. apply andb_prop in H as [_ H]. apply andb_prop in H as [_ H].
    rewrite split_dashes_two. constructor; [done|]. by apply IH.
  - cbn [str_all] in H. apply andb_prop in H as [Hc H]. specialize (IH H).
    destruct (split_dashes_cons s) as (w & ws & E). rewrite (split_dashes_one _ _ _ _ Hp E).
    rewrite E in IH. apply Forall_cons in IH as [Hw Hws]. constructor; [|done]. cbn [str_all]. by rewrite Hc, Hw.
Qed.

Lemma split_join_slash segs :
  segs <> [] -> Forall (fun w => str_all no_slash w = true) segs -> str_split "/" (str_join "/" segs) = segs.
Proof. exact (str_split_join "/" segs). Qed.

(** No two dashes in a row, nor after one more dash is appended. *)
Definition clean (s : string) : bool := negb (str_includes "--" s).
Definition joins (s : string) : bool := clean (s +:+ "-").

Lemma split_dashes_clean w : clean w = true -> split_dashes w = [w].
Proof.
  unfold clean. induction w as [|c w IH]; [done|].
  cbn [str_includes]. rewrite negb_orb. intros [Hp%negb_true_iff Hw]%andb_prop.
  exact (split_dashes_one _ _ _ _ Hp (IH Hw)).
Qed.

Lemma joins_tail c w : joins (String c w) = true -> joins w = true.
Proof.
  unfold joins, clean. rewrite app_String. cbn [str_includes]. rewrite negb_orb. by intros [_ ?]%andb_prop.
Qed.

Lemma split_dashes_joins w t :
  joins w = true -> split_dashes (w +:+ String "-" (String "-" t)) = w :: split_dashes t.
Proof.
  induction w as [|c w IH]; [done|]. intros H. specialize (IH (joins_tail _ _ H)).
  rewrite app_String. apply split_dashes_one; [|exact IH].
  unfold joins, clean in H. rewrite app_String in H. cbn [str_includes] in H. rewrite negb_orb in H.
  apply andb_prop in H as [H%negb_true_iff _]. destruct w as [|d w]; [|].
  - cbn [String.append String.prefix] in H |- *. destruct (ascii_dec "-" c); [|done].
    by destruct (ascii_dec "-" "-").
  - rewrite !app_String in *. cbn [String.prefix] in H |- *. destruct (ascii_dec "-" c); [|done].
    destruct (ascii_dec "-" d); [|done]. by destruct (w +:+ "-").
Qed.

(** All segments but the last join; the last is clean. *)
Fixpoint encodable (segs : list string) : bool :=
  match segs with
  | [] => false
  | [s] => clean s
  | s :: rest => joins s && encodable rest
  end.

Lemma split_join_dashes segs : encodable segs = true -> split_dashes (str_join "--" segs) = segs.
Proof.
  induction segs as [|w ws IH]; [done|]. destruct ws as [|v ws].
  - apply split_dashes_clean.
  - cbn [encodable]. intros [Hw H]%andb_prop. rewrite str_join_cons.
    change ("--" +:+ ?t) with (String "-" (String "-" t)). rewrite split_dashes_joins by done.
    f_equal. by apply IH.
Qed.

Definition plain (k : RepoKind) : Prop := k = Model \/ k = Dataset.

Lemma kind_prefix k : plain k -> KIND_BY_PREFIX (kindName k +:+ "s") = Some k /\ joins (kindName k +:+ "s") = true.
Proof. by intros [-> | ->]. Qed.

Lemma prefix_kind p k : KIND_BY_PREFIX p = Some k -> plain k -> p = kindName k +:+ "s".
Proof.
  unfold KIND_BY_PREFIX. destruct (String.eqb_spec p "models") as [->|]; [by intros [= <-]|].
  destruct (String.eqb_spec p "datasets") as [->|]; [by intros [= <-]|].
  destruct (mem_str p object_prototype); [|done]. by intros [= <-] [|].
Qed.

(** Directory names and repository ids.  The name made for an id whose segments are
    real and contain no two dashes in a row (nor end in a dash, but for the last) is read
    back as that kind and that id.  Conversely whatever directory a scan reads as a model
    or dataset, the name made for the id it found is that directory's, so a listed
    repository names the directory it was found in, even if its id holds two dashes. *)
Theorem repoDirName_roundtrip :
  (forall k segs, plain k -> encodable segs = true ->
     Forall (fun s => s <> "" /\ str_all no_slash s = true) segs ->
     parseRepoDirName (repoDirName (kindName k) (str_join "/" segs)) = Some (k, str_join "/" segs)) /\
  (forall d k id, plain k -> str_all no_slash d = true ->
     parseRepoDirName d = Some (k, id) -> repoDirName (kindName k) id = d).
Proof.
  split.
  - intros k segs Hk He Hs. assert (segs <> []) as Hne by by destruct segs.
    unfold repoDirName. rewrite split_join_slash; [|done|eapply Forall_impl; [exact Hs|]; by intros s [_ ?]].
    destruct (kind_prefix k Hk) as [Hp Hj]. unfold parseRepoDirName.
    replace (kindName k +:+ "s--" +:+ str_join "--" segs)
      with ((kindName k +:+ "s") +:+ String "-" (String "-" (str_join "--" segs)))
      by (by rewrite str_app_assoc).
    rewrite split_dashes_joins, split_join_dashes by done. rewrite Hp.
    replace (length segs =? 0)%nat with false by (by destruct segs).
    replace (existsb (String.eqb "") segs) with false; [done|]. symmetry. apply not_true_iff_false.
    intros (x & Hx%list_elem_of_In & Hq%String.eqb_eq)%existsb_exists. subst x.
    rewrite Forall_forall in Hs. apply Hs in Hx as [Hx _]. by apply Hx.
  - intros d k id Hk Hd. unfold parseRepoDirName.
    pose proof (join_split_dashes d) as Hj. pose proof (split_dashes_all _ _ Hd) as Ha.
    destruct (split_dashes d) as [|p segs]; [done|].
    destruct (decide (segs = [])) as [->|Hne]; [done|].
    replace (length segs =? 0)%nat with false by (by destruct segs).
    destruct (existsb (String.eqb "") segs); [by destruct (KIND_BY_PREFIX p)|].
    destruct (KIND_BY_PREFIX p) as [k'|] eqn:Ek; [|done]. intros [= -> <-].
    apply Forall_cons in Ha as [_ Ha]. unfold repoDirName.
    rewrite split_join_slash by done.
    rewrite <- Hj, (prefix_kind _ _ Ek Hk). destruct segs; [done|].
    by rewrite str_join_cons, str_app_assoc.
Qed.

End Names.

(** * What a delete removes *)
Section Delete.
Import Repo Path Disk.
Context (cwd : list string) (hfHome : string) (Hcwd : Forall seg_ok cwd).

Lemma hub_ok : Forall seg_ok (hub cwd hfHome).
Proof using Hcwd. by apply resolveSegs_ok, resolveSegs_ok. Qed.

Lemma hub_nonempty : hub cwd hfHome <> [].
Proof.
  unfold hub, resolveSegs. cbn [isAbsolute String.prefix str_split].
  assert (forall acc, collapse acc ["hub"] <> []) as H by (intros acc; simpl; by destruct (rev acc)).
  exact (H _).
Qed.

Lemma resolveSegs_name base d :
  str_all no_slash d = true -> d <> "" -> d <> "." -> d <> ".." -> resolveSegs base d = base ++ [d].
Proof.
  intros Hd H1 H2 H3. unfold resolveSegs.
  assert (isAbsolute d = false) as ->.
  { unfold isAbsolute. destruct d as [|c d]; [done|]. cbn [String.prefix].
    destruct (ascii_dec "/" c) as [<-|]; [|done]. cbn in Hd. done. }
  rewrite (str_split_word "/" d) by done. simpl. apply String.eqb_neq in H1, H2, H3. rewrite H1, H2, H3. simpl.
  by rewrite rev_involutive.
Qed.

Lemma target_below kind id :
  String.prefix (pathOf (hub cwd hfHome) +:+ "/") (pathOf (target cwd hfHome kind id)) = true ->
  exists rest, target cwd hfHome kind id = hub cwd hfHome ++ rest /\ rest <> [].
Proof using Hcwd.
  pose proof hub_nonempty as Hne. pose proof hub_ok as Hb.
  assert (Forall seg_ok (target cwd hfHome kind id)) as Ht by by apply resolveSegs_ok.
  revert Hne Hb Ht. generalize (hub cwd hfHome) as b, (target cwd hfHome kind id) as t.
  intros b t Hne Hb Ht H. destruct (decide (t = [])) as [->|Hn].
  - exfalso. rewrite pathOf_flat in H by done. destruct b as [|x b]; [done|].
    apply Forall_cons in Hb as [(Hx & _) _]. destruct x as [|c x]; [done|]. clear - H.
    apply prefix_spec in H as [u H]. unfold flat in H. cbn in H. done.
  - rewrite !pathOf_flat in H by done. by apply flat_prefix in H.
Qed.

(** C31: A delete stays inside the cache and removes the directory that was listed.
    Whatever kind and id the order names, every path given to [rm] or to [sudo rm] is the
    hub directory, then one or more names that are neither empty nor dots nor hold a slash
    -- a strict descendant -- and nothing is run unless the id is safe and the path exists.
    For a directory the scan listed under a safe id, the path is that very directory of
    the hub.  It succeeds exactly when a command did. *)
Theorem delete_contained exists_ rm sudo kind id :
  let r := deleteCachedRepo cwd hfHome exists_ rm sudo kind id in
  (forall c, c ∈ r.1 -> exists rest, rest <> [] /\
     Forall (fun s => s <> "" /\ s <> "." /\ s <> ".." /\ str_all no_slash s = true) rest /\
     command_path c = pathOf (hub cwd hfHome ++ rest) /\ exists_ (command_path c) = true /\
     isSafeRepoId id = true) /\
  (forall k d, plain k -> kind = kindName k -> str_all no_slash d = true ->
     parseRepoDirName d = Some (k, id) -> forall c, c ∈ r.1 ->
     command_path c = pathOf (hub cwd hfHome ++ [d])) /\
  (r.2 = Ok () <-> exists c, c ∈ r.1 /\
     match c with RmSync p => rm p = Ok () | SudoRm p => sudo p = true end).
Proof using Hcwd.
  intros r.
  assert (forall c, c ∈ r.1 -> command_path c = pathOf (target cwd hfHome kind id) /\
    isSafeRepoId id = true /\ exists_ (command_path c) = true /\
    String.prefix (pathOf (hub cwd hfHome) +:+ "/") (pathOf (target cwd hfHome kind id)) = true) as Hc.
  { subst r. unfold deleteCachedRepo. intros c.
    destruct (isSafeRepoId id); [|by intros ?%elem_of_nil].
    destruct (String.prefix _ _); [|by intros ?%elem_of_nil].
    destruct (exists_ _) eqn:Ex; [|by intros ?%elem_of_nil]. cbn [negb].
    destruct (rm _) as [|e]; [|destruct (negb _ && negb _)]; cbn;
      rewrite ?elem_of_cons, ?elem_of_nil; intros Hin; destruct_or? Hin; subst; try done. }
  split; [|split].
  - intros c Hin. destruct (Hc c Hin) as (-> & Hs & Hx & Hp).
    apply target_below in Hp as (rest & E & Hr). exists rest. rewrite <- E. split; [done|]. split; [|done].
    assert (Forall seg_ok (target cwd hfHome kind id)) as Ht by exact (resolveSegs_ok _ _ hub_ok).
    rewrite E in Ht. by apply Forall_app in Ht as [_ Ht].
  - intros k d Hk -> Hd Hparse c Hin. destruct (Hc c Hin) as (-> & _ & _ & _). f_equal.
    unfold target. destruct repoDirName_roundtrip as [_ Hr]. rewrite (Hr d k id Hk Hd Hparse).
    apply (Hr d k id Hk Hd) in Hparse. apply resolveSegs_name; [done|..];
      destruct Hk as [-> | ->]; by rewrite <- Hparse.
  - subst r. unfold deleteCachedRepo. clear Hc.
    assert (forall e, @Err deleteError () e = Ok () <-> exists c : command, c ∈ @nil command /\
      match c with RmSync p => rm p = Ok () | SudoRm p => sudo p = true end) as Hnil.
    { intros e. split; [done|]. by intros (c & ?%elem_of_nil & _). }
    destruct (isSafeRepoId id); [|apply Hnil]. destruct (String.prefix _ _); [|apply Hnil].
    destruct (exists_ _); [|apply Hnil]. cbn [negb]. set (p := pathOf _).
    destruct (rm p) as [[]|e] eqn:Er; cbn.
    + split; [|done]. intros _. exists (RmSync p). split; [left|done].
    + destruct (negb _ && negb _); cbn.
      * split; [done|]. intros (c & Hin%list_elem_of_singleton & H). subst c. congruence.
      * destruct (sudo p) eqn:Es; (split; [try done|]); [|intros (c & Hin & H)|].
        -- intros _. exists (SudoRm p). split; [right; left|done].
        -- done.
        -- intros (c & Hin & H). rewrite !elem_of_cons, elem_of_nil in Hin. destruct_or? Hin; subst; congruence.
Qed.

End Delete.

(** * What a scan counts *)
Section Scan.
Import Repo Disk.

(** The leaves below an entry that are still there, without looking into what is gone. *)
Fixpoint leaves (e : entry) : list (bool * Z * Z) :=
  match e with
  | Leaf f size mtime => [(f, size, mtime)]
  | Dir _ es => concat (map (fun x => leaves x.2) es)
  | Broken _ _ => []
  end.

(** Nothing below fails to be read but what was removed meanwhile. *)
Fixpoint only_races (e : entry) : bool :=
  match e with
  | Leaf _ _ _ => true
  | Dir _ es => forallb (fun x => only_races x.2) es
  | Broken _ err => bool_decide (err = ENOENT)
  end.

Definition stats_of (l : list (bool * Z * Z)) : WalkStats :=
  foldl (fun acc '(f, size, mtime) =>
           add_stats acc {| sizeBytes := size; nFiles := if (f : bool) then 1 else 0;
                            lastModifiedMs := Z.max 0 mtime |}) no_stats l.

Fixpoint entry_rec' (P : entry -> Prop) (HL : forall f s m, P (Leaf f s m))
    (HD : forall m es, Forall (fun x => P x.2) es -> P (Dir m es)) (HB : forall d e, P (Broken d e))
    (e : entry) : P e :=
  match e with
  | Leaf f s m => HL f s m
  | Dir m es => HD m es ((fix go es : Forall (fun x => P x.2) es :=
      match es with
      | [] => Forall_nil_2 _
      | x :: es' => Forall_cons_2 _ _ _ (entry_rec' P HL HD HB x.2) (go es')
      end) es)
  | Broken d e => HB d e
  end.

Lemma add_stats_assoc a b c : add_stats a (add_stats b c) = add_stats (add_stats a b) c.
Proof. unfold add_stats; cbn. f_equal; lia. Qed.

Lemma add_stats_stats_of a l :
  (0 <= lastModifiedMs a)%Z ->
  foldl (fun acc '(f, size, mtime) =>
           add_stats acc {| sizeBytes := size; nFiles := if (f : bool) then 1 else 0;
                            lastModifiedMs := Z.max 0 mtime |}) a l = add_stats a (stats_of l).
Proof.
  unfold stats_of. revert a. induction l as [|[[f s] m] l IH] using rev_ind; intros a Ha.
  - destruct a; unfold add_stats; cbn in *. f_equal; lia.
  - rewrite !foldl_app. cbn. rewrite IH by done. by rewrite add_stats_assoc.
Qed.

Lemma stats_of_nonneg l : (0 <= lastModifiedMs (stats_of l))%Z.
Proof. induction l as [|[[f s] m] l IH] using rev_ind; unfold stats_of in *; rewrite ?foldl_app; cbn in *; lia. Qed.

(** What a walk counts.  When nothing fails but entries that are removed while it runs,
    the walk of a directory succeeds, and its bytes, files and newest time are those of
    exactly the entries below it that are still there, each counted once. *)
Theorem walk_counts_leaves d :
  (forall f s m, d <> Leaf f s m) -> only_races d = true ->
  match d with Broken _ _ => walk d = Err ENOENT | _ => walk d = Ok (stats_of (leaves d)) end.
Proof.
  intros Hl H. assert (match d with Broken _ _ => visit d = Err ENOENT
    | _ => visit d = Ok (stats_of (leaves d)) end) as Hv; [|by destruct d; [destruct (Hl isFile size mtime)| |]].
  clear Hl. induction d as [f s m|m es IH|b e] using entry_rec'.
  - unfold stats_of; cbn. unfold add_stats; cbn. do 2 f_equal. lia.
  - cbn [only_races] in H. cbn [visit leaves].
    enough (forall acc, (0 <= lastModifiedMs acc)%Z ->
      (fix loop acc es := match es with
        | [] => Ok acc
        | (_, x) :: es' => acc' ← tolerate acc (visit x); loop acc' es'
        end) acc es = @Ok errno _ (add_stats acc (stats_of (concat (map (fun x => leaves x.2) es))))) as Hgo.
    { rewrite Hgo by done. f_equal. symmetry. apply (add_stats_stats_of no_stats). done. }
    induction IH as [|[n x] es Hx _ IHes]; intros acc Ha.
    + f_equal. destruct acc; unfold add_stats; cbn in *. f_equal; lia.
    + cbn [forallb] in H. apply andb_prop in H as [H1 H2]. cbn in Hx, H1. specialize (Hx H1).
      cbn [map concat]. unfold stats_of at 1. rewrite foldl_app. fold (stats_of (leaves x)).
      assert (tolerate acc (visit x) = Ok (add_stats acc (stats_of (leaves x)))) as ->.
      { destruct x as [| |b e]; [by rewrite Hx..|]. rewrite Hx. cbn. f_equal.
        destruct acc; unfold add_stats; cbn in *. f_equal; lia. }
      cbn [mbind result_bind]. rewrite IHes by (done || (cbn; pose proof (stats_of_nonneg (leaves x)); lia)).
      rewrite add_stats_stats_of by apply stats_of_nonneg. by rewrite add_stats_assoc.
  - cbn in H |- *. by apply bool_decide_eq_true in H as ->.
Qed.

(** What a scan lists it found in the hub, under the kind and id of the directory's name. *)
Lemma scanHub_listed es rs r :
  scanHub es = Ok rs -> r ∈ rs ->
  exists name e, (name, e) ∈ es /\ isDirectory e = true /\ parseRepoDirName name = Some (kind r, repoId r).
Proof.
  revert rs. induction es as [|[name e] es IH]; intros rs; cbn [scanHub].
  - intros [= <-] ?%elem_of_nil. done.
  - assert (forall rs', scanHub es = Ok rs' -> r ∈ rs' -> exists name0 e0, (name0, e0) ∈ (name, e) :: es /\
      isDirectory e0 = true /\ parseRepoDirName name0 = Some (kind r, repoId r)) as Hrest.
    { intros rs' H1 H2. destruct (IH _ H1 H2) as (n & x & ? & ? & ?). exists n, x. split; [by right|done]. }
    destruct (isDirectory e) eqn:Ed; cbn [negb]; [|by apply Hrest].
    destruct (parseRepoDirName name) as [parsed|] eqn:Ep; [|by apply Hrest].
    destruct (scanRepo parsed e) as [r0|[]] eqn:Er; [|by apply Hrest|done..].
    destruct (scanHub es) as [rs'|] eqn:Es; [|done]. cbn. intros [= <-] [->|Hin]%elem_of_cons; [|by eapply Hrest].
    exists name, e. split; [left|]. split; [done|]. rewrite Ep. unfold scanRepo in Er.
    apply bind_Ok in Er as (? & _ & Er). apply bind_Ok in Er as (? & _ & Er).
    apply bind_Ok in Er as (? & _ & [= <-]). by destruct parsed.
Qed.

End Scan.

(** * One identity for a shared cache *)
Section Identity.
Import CacheId.

Lemma is_uuid_written u : is_uuid u -> readMarker (Some (u +:+ String nl "")) = Some u.
Proof.
  intros [Hl Hu]. unfold readMarker. cbn [fmap option_fmap option_map].
  assert (str_all (fun c => negb (is_ws c)) u = true) as Hw.
  { eapply str_all_impl; [|exact Hu]. intros c. clear.
    destruct c as [[] [] [] [] [] [] [] []]; vm_compute; done. }
  clear Hu. assert (forall v, str_all (fun c => negb (is_ws c)) v = true -> v <> "" ->
    trim_right (v +:+ String nl "") = v) as Hr.
  { clear. intros v. induction v as [|c v IH]; [done|]. cbn [str_all]. intros [Hc Hv]%andb_prop _.
    rewrite app_String. destruct v as [|d v].
    - cbn. apply negb_true_iff in Hc. by rewrite Hc.
    - cbn [trim_right]. rewrite (IH Hv) by done. by apply negb_true_iff in Hc; rewrite ?Hc. }
  assert (u <> "") as Hne by (by intros ->).
  unfold str_trim. assert (trim_left (u +:+ String nl "") = u +:+ String nl "") as ->.
  { destruct u as [|c u]; [done|]. cbn [str_all] in Hw. apply andb_prop in Hw as [Hc%negb_true_iff _].
    rewrite app_String. cbn [trim_left]. by rewrite Hc. }
  rewrite Hr by done. by apply truthy_Some.
Qed.

(** Who is between creating the file and writing it. *)
Definition writing (s : state) (i : nat) : Prop := exists id, node s !! i = Some (Created id).

Record inv (s : state) : Prop := {
  inv_got : forall i id, node s !! i = Some (Got id) -> readMarker (marker s) = Some id;
  inv_writing : forall i, writing s i -> marker s = Some "";
  inv_one : forall i j, writing s i -> writing s j -> i = j;
  inv_uuid : forall i id, node s !! i = Some (Missing id) \/ node s !! i = Some (Created id) -> is_uuid id }.

(** Putting a phase that is not [Created] at [i] leaves others' phases. *)
Lemma insert_phase (l : list phase) i ph j q :
  <[i := ph]> l !! j = Some q -> (j = i /\ q = ph) \/ (j <> i /\ l !! j = Some q).
Proof. rewrite list_lookup_insert_Some. intros [(-> & <- & _)|[? ?]]; [by left|right; split; [congruence|done]]. Qed.

(** A step that keeps the marker and puts a harmless phase. *)
Lemma inv_quiet s i ph :
  inv s -> (forall id, ph <> Created id) ->
  (forall id, ph = Got id -> readMarker (marker s) = Some id) ->
  (forall id, ph = Missing id -> is_uuid id) ->
  inv {| marker := marker s; node := <[i := ph]> (node s) |}.
Proof.
  intros I Hc Hg Hm.
  assert (forall j, writing {| marker := marker s; node := <[i := ph]> (node s) |} j -> writing s j) as Hw.
  { intros j [id H]. cbn in H. apply insert_phase in H as [[_ E]|[_ H]]; [by destruct (Hc id)|]. by exists id. }
  split; cbn.
  - intros j id [[_ E]|[_ H]]%insert_phase; [by apply Hg|by eapply inv_got].
  - intros j ?%Hw. by eapply inv_writing.
  - intros j k ?%Hw ?%Hw. by eapply inv_one.
  - intros j id [H|H]; apply insert_phase in H as [[_ E]|[_ H]].
    + by apply Hm.
    + by eapply inv_uuid; [|left].
    + by destruct (Hc id).
    + by eapply inv_uuid; [|right].
Qed.

Lemma inv_step s s' : inv s -> step s s' -> inv s'.
Proof.
  intros I H. destruct H as [s i ph uuid Hi Hu|s i]; [|by apply inv_quiet].
  destruct ph as [|id|id| |id|]; cbn.
  - apply inv_quiet; [done|..]; destruct (readMarker (marker s)) eqn:E; naive_solver.
  - destruct (marker s) as [m|] eqn:Em; [rewrite <- Em; by apply inv_quiet|].
    assert (forall j, writing s j -> False) as Hno.
    { intros j Hj. apply (inv_writing _ I) in Hj. congruence. }
    assert (forall j id0, node s !! j = Some (Got id0) -> False) as Hng.
    { intros j id0 Hj. apply (inv_got _ I) in Hj. by rewrite Em in Hj. }
    assert (forall j, writing {| marker := Some ""; node := <[i := Created id]> (node s) |} j -> j = i) as Hw.
    { intros j [q H]. cbn in H. apply insert_phase in H as [[-> _]|[_ H]]; [done|]. destruct (Hno j). by exists q. }
    split; cbn.
    + intros j q [[_ [=]]|[_ H]]%insert_phase. by destruct (Hng j q).
    + done.
    + intros j k ->%Hw ->%Hw. done.
    + intros j q [H|H]; apply insert_phase in H as [[_ E]|[_ H]]; try done.
      * by eapply (inv_uuid _ I); left.
      * injection E as ->. by eapply (inv_uuid _ I); left.
      * by eapply (inv_uuid _ I); right.
  - assert (is_uuid id) as Hid by (by eapply (inv_uuid _ I); right).
    assert (marker s = Some "") as Em by (eapply (inv_writing _ I); by exists id).
    assert (forall j, writing {| marker := Some (id +:+ String nl ""); node := <[i := Got id]> (node s) |} j -> False) as Hw.
    { intros j [q H]. cbn in H. apply insert_phase in H as [[_ E]|[Hji H]]; [done|].
      apply Hji, (inv_one _ I); by eexists. }
    split; cbn -[readMarker].
    + intros j q [[_ [= ->]]|[_ H]]%insert_phase; [by apply is_uuid_written|].
      apply (inv_got _ I) in H. by rewrite Em in H.
    + by intros j ?%Hw.
    + by intros j k ?%Hw.
    + intros j q [H|H]; apply insert_phase in H as [[_ E]|[_ H]]; try done.
      * by eapply (inv_uuid _ I); left.
      * by eapply (inv_uuid _ I); right.
  - apply inv_quiet; [done|..]; destruct (readMarker (marker s)) eqn:E; naive_solver.
  - apply inv_quiet; [done|..]; [done| |done]. intros q [= ->]. by eapply inv_got.
  - by apply inv_quiet.
Qed.

(** Nodes that have all yet to ask. *)
Definition fresh (m : option string) (n : nat) : state := {| marker := m; node := replicate n Start |}.

Lemma inv_fresh m n : inv (fresh m n).
Proof.
  assert (forall i ph, node (fresh m n) !! i = Some ph -> ph = Start) as H.
  { intros i ph E. by apply lookup_replicate in E as [-> _]. }
  split.
  - by intros i id ?%H.
  - by intros i [id ?%H].
  - by intros i j [id ?%H].
  - by intros i id [?%H|?%H].
Qed.

Lemma inv_reachable s s' : inv s -> reachable s s' -> inv s'.
Proof. intros I H. induction H as [|s s1 s2 Hs _ IH]; [done|]. by apply IH, (inv_step s). Qed.

(** Nodes sharing a cache agree on its identity.  Whatever the marker held at first,
    over every interleaving of any number of agents asking, creating, writing and being
    restarted, two agents that have an identity have the same one, it is what the marker
    says, and it stays so in every later state. *)
Theorem cache_identity_agreed m n s s' i j a b :
  reachable (fresh m n) s -> reachable s s' ->
  node s !! i = Some (Got a) -> node s' !! j = Some (Got b) ->
  a = b /\ readMarker (marker s) = Some a /\ readMarker (marker s') = Some a.
Proof.
  intros H1 H2 Hi Hj. pose proof (inv_reachable _ _ (inv_fresh m n) H1) as I.
  pose proof (inv_got _ I _ _ Hi) as Ha. clear H1 Hi.
  assert (readMarker (marker s') = Some a /\ inv s') as [Ha' I'].
  { clear Hj. induction H2 as [|s s1 s2 Hs _ IH]; [done|]. apply IH; [by eapply inv_step|].
    destruct Hs as [s k ph uuid Hk Hu|]; [|done]. destruct ph as [|id|id| |id|]; cbn -[readMarker]; try done.
    - by destruct (marker s).
    - assert (marker s = Some "") as E by (eapply (inv_writing _ I); by exists id). by rewrite E in Ha. }
  pose proof (inv_got _ I' _ _ Hj). split; [congruence|done].
Qed.

(** A marker left empty is final.  An agent that dies between creating the marker and
    writing it leaves an empty file (as the first part shows for the very first node to
    ask); from then on, however often any agent asks, the file stays as it is and no agent
    ever has an identity, so the cache is never listed again until someone removes it. *)
Theorem empty_marker_is_final :
  (forall n, (0 < n)%nat -> reachable (fresh None n) (fresh (Some "") n)) /\
  (forall s s', readMarker (marker s) = None -> marker s <> None ->
     (forall i, ~ writing s i) -> (forall i id, node s !! i <> Some (Got id)) ->
     reachable s s' -> marker s' = marker s /\ forall i id, node s' !! i <> Some (Got id)).
Proof.
  split.
  - intros n Hn. set (u := "00000000-0000-4000-8000-000000000000").
    assert (is_uuid u) as Hu by done.
    assert (node (fresh None n) !! 0%nat = Some Start) as H0 by (by apply lookup_replicate).
    assert (forall ph, <[0%nat := ph]> (replicate n Start) !! 0%nat = Some ph) as Hl.
    { intros ph. apply list_lookup_insert_eq. by rewrite length_replicate. }
    eapply rtc_l; [exact (Act (fresh None n) 0 Start u H0 Hu)|]. cbn.
    eapply rtc_l; [exact (Act {| marker := None; node := _ |} 0 (Missing u) u (Hl _) Hu)|]. cbn.
    eapply rtc_l; [exact (Again {| marker := Some ""; node := _ |} 0)|]. cbn.
    rewrite !list_insert_insert_eq. unfold fresh. rewrite list_insert_id; [constructor|done].
  - intros s s' Hr Hm Hw Hg H. induction H as [|s s1 s2 Hs _ IH]; [done|].
    assert (marker s1 = marker s /\ (forall i, ~ writing s1 i) /\ forall i id, node s1 !! i <> Some (Got id))
      as (Em & Hw1 & Hg1).
    { destruct Hs as [s k ph uuid Hk Hu|s k]; cbn.
      - assert ((act uuid (marker s) ph).1 = marker s /\ (forall id, (act uuid (marker s) ph).2 <> Created id /\
          (act uuid (marker s) ph).2 <> Got id)) as [Em Hph].
        { destruct ph as [|id|id| |id|]; cbn -[readMarker]; rewrite ?Hr; try done.
          - by destruct (marker s).
          - destruct (Hw k). by exists id.
          - by destruct (Hg k id). }
        split; [done|]. split.
        + intros i [id H]. cbn in H. apply insert_phase in H as [[_ E]|[_ H]]; [by destruct (Hph id)|].
          apply (Hw i). by exists id.
        + intros i id [[_ E]|[_ H]]%insert_phase; [by destruct (Hph id)|by apply (Hg i id)].
      - split; [done|]. split.
        + intros i [id H]. cbn in H. apply insert_phase in H as [[_ [=]]|[_ H]]. apply (Hw i). by exists id.
        + intros i id [[_ [=]]|[_ H]]%insert_phase. by apply (Hg i id). }
    rewrite <- Em in *. by apply IH.
Qed.

End Identity.

(** * Groups, and when a delete is ordered *)
Section Groups.
Import Grouping.

Lemma latest_spec {A} (at_ : A -> string) x xs :
  latest at_ x xs ∈ x :: xs /\ forall y, y ∈ x :: xs -> str_le (at_ y) (at_ (latest at_ x xs)) = true.
Proof.
  unfold latest. revert x. induction xs as [|z xs IH]; intros x; cbn [foldl].
  - split; [left|]. intros y ->%list_elem_of_singleton. by destruct (str_le_total (at_ x) (at_ x)).
  - set (m := if str_le (at_ z) (at_ x) then x else z). destruct (IH m) as [Hin Hmax].
    assert (str_le (at_ x) (at_ m) = true /\ str_le (at_ z) (at_ m) = true /\ (m = x \/ m = z)) as (Hx & Hz & Hm).
    { subst m. destruct (str_le (at_ z) (at_ x)) eqn:E.
      - split; [by destruct (str_le_total (at_ x) (at_ x))|]. split; [done|by left].
      - split; [|split; [by destruct (str_le_total (at_ z) (at_ z))|by right]].
        destruct (str_le_total (at_ x) (at_ z)); [done|congruence]. }
    assert (str_le (at_ m) (at_ (foldl (fun a b => if str_le (at_ b) (at_ a) then a else b) m xs)) = true) as Hl
      by (apply Hmax; left).
    split.
    + apply elem_of_cons in Hin as [->|Hin]; [destruct Hm as [->| ->]; [left|right; left]|by right; right].
    + intros y. rewrite !elem_of_cons. intros [->|[->|Hy]]; [by eapply str_le_trans..|].
      apply Hmax. by right.
Qed.

Lemma groupInventories_elem invs g :
  g ∈ groupInventories invs <->
  exists members m ms, (g_cacheId g, members) ∈ group_by cacheGroupKey invs /\ members = m :: ms /\
    g = {| g_cacheId := g_cacheId g; nodeIds := map nodeId members; newest := latest scannedAt m ms |}.
Proof.
  unfold groupInventories. rewrite list_elem_of_omap. split.
  - intros ([id members] & Hin & H). destruct members as [|m ms]; [done|]. injection H as <-. cbn.
    by exists (m :: ms), m, ms.
  - intros (members & m & ms & Hin & -> & E). exists (g_cacheId g, m :: ms). split; [done|]. exact (f_equal Some (eq_sym E)).
Qed.

Lemma groupInventories_ids invs : NoDup (map g_cacheId (groupInventories invs)).
Proof.
  assert (map g_cacheId (groupInventories invs) = (group_by cacheGroupKey invs).*1) as ->; [|apply group_by_NoDup].
  unfold groupInventories.
  assert (Forall (fun g : string * list HfCacheNodeInventory => g.2 <> []) (group_by cacheGroupKey invs)) as H.
  { apply Forall_forall. intros [k vs] Hin. apply group_by_elem in Hin as [_ H]. done. }
  induction H as [|[k vs] gs Hv _ IH]; [done|]. cbn in *. destruct vs as [|v vs]; [done|]. cbn. by f_equal.
Qed.

(** Cache groups partition the nodes that reported.  Every inventory's node is in
    exactly one group, as often as it reported; a group holds the inventories with its
    identity (failed scans, which have none, each their own group), and shows the contents
    of a member whose scan is no older than any other's. *)
Theorem groupInventories_partition invs :
  concat (map nodeIds (groupInventories invs)) ≡ₚ map nodeId invs /\
  NoDup (map g_cacheId (groupInventories invs)) /\
  (forall g, g ∈ groupInventories invs ->
     nodeIds g = map nodeId (filter (fun inv => cacheGroupKey inv = g_cacheId g) invs) /\
     newest g ∈ invs /\ cacheGroupKey (newest g) = g_cacheId g /\
     forall inv, inv ∈ invs -> cacheGroupKey inv = g_cacheId g ->
       nodeId inv ∈ nodeIds g /\ str_le (scannedAt inv) (scannedAt (newest g)) = true).
Proof.
  split; [|split; [apply groupInventories_ids|]].
  - transitivity (map nodeId (concat (group_by cacheGroupKey invs).*2)).
    + unfold groupInventories. induction (group_by cacheGroupKey invs) as [|[k vs] gs IH]; [done|].
      cbn. rewrite map_app. destruct vs as [|v vs]; cbn; [exact IH|]. by rewrite IH.
    + apply Permutation_map, group_by_concat.
  - intros g (members & m & ms & Hin & Em & ->)%groupInventories_elem. cbn.
    apply group_by_elem in Hin as [Hf _]. cbn in Hf.
    destruct (latest_spec scannedAt m ms) as [Hl Hmax]. rewrite <- Em in Hl, Hmax.
    split; [by rewrite Hf|]. assert (forall x, x ∈ members <-> x ∈ invs /\ cacheGroupKey x = g_cacheId g) as Hm.
    { intros x. rewrite Hf, list_elem_of_filter. tauto. }
    apply Hm in Hl as [? ?]. split; [done|]. split; [done|]. intros inv H1 H2.
    assert (inv ∈ members) as Hi by by apply Hm. split; [|by apply Hmax]. by apply list_elem_of_fmap_2.
Qed.

Lemma matchRepoToModels_spec rid cs :
  matchRepoToModels rid cs = true <-> exists c, c ∈ cs /\ str_lower c = str_lower rid.
Proof.
  unfold matchRepoToModels. rewrite existsb_exists. setoid_rewrite <- list_elem_of_In.
  by setoid_rewrite String.eqb_eq.
Qed.

Lemma dedupe_elem xs x : x ∈ dedupe xs <-> x ∈ xs.
Proof.
  unfold dedupe. induction xs as [|y xs IH] using rev_ind; [done|]. rewrite foldl_app, elem_of_app. cbn.
  destruct (mem_str y _) eqn:E.
  - apply mem_str_spec in E. rewrite list_elem_of_singleton. rewrite <- IH. naive_solver.
  - rewrite elem_of_app, IH. done.
Qed.

Lemma dedupe_NoDup xs : NoDup (dedupe xs).
Proof.
  unfold dedupe. induction xs as [|y xs IH] using rev_ind; [constructor|]. rewrite foldl_app. cbn.
  destruct (mem_str y _) eqn:E; [done|]. apply NoDup_app. split; [done|]. split; [|apply NoDup_singleton].
  intros x Hx ->%list_elem_of_singleton. apply mem_str_spec in Hx. congruence.
Qed.

Lemma deploymentRepoKeys_elem mn cfg rm bm rid :
  str_lower rid ∈ deploymentRepoKeys mn cfg rm bm <->
  rid <> "" /\ matchRepoToModels rid (deploymentModelCandidates mn cfg ++ option_list (truthy rm) ++
                                        option_list (truthy bm)) = true.
Proof.
  unfold deploymentRepoKeys. rewrite dedupe_elem, elem_of_filter_bool, list_elem_of_fmap, matchRepoToModels_spec.
  assert ((0 <? String.length (str_lower rid))%nat = true <-> rid <> "") as -> by (by destruct rid). naive_solver.
Qed.

Lemma recordRepoDeployment_get keys at_ t k :
  al_get (recordRepoDeployment keys at_ t) k = if mem_str k keys then Some at_ else al_get t k.
Proof.
  unfold recordRepoDeployment. induction keys as [|j keys IH] using rev_ind; [done|].
  rewrite foldl_app. cbn. rewrite al_get_set, IH. unfold mem_str.
  rewrite (bool_decide_ext (k ∈ keys ++ [j]) (k = j \/ k ∈ keys))
    by (rewrite elem_of_app, list_elem_of_singleton; tauto).
  destruct (decide (k = j)) as [->|Hk]; [by rewrite bool_decide_true by (by left)|].
  by rewrite (bool_decide_ext (k = j \/ k ∈ keys) (k ∈ keys)) by tauto.
Qed.

Lemma newerIso_ge a b x : newerIso a (Some b) = Some x -> str_le b x = true.
Proof.
  destruct a as [a|]; cbn; [|intros [= <-]; by destruct (str_le_total b b)].
  destruct (str_le b a) eqn:E; intros [= <-]; [done|]. by destruct (str_le_total b b).
Qed.

End Groups.

Section Route.
Import Grouping CacheRoute.
Context (iso : Z -> string) (dgxrunCatalog : list Recipe.CatalogRecipe) (agentRecipes : list agentRecipe).

Notation usage_of := (usageOf iso dgxrunCatalog agentRecipes).
Notation delete_repo := (deleteRepo iso dgxrunCatalog agentRecipes).

(** A name under which a deployment knows its weights. *)
Definition knows (s : db) (d : deployment) (name : string) : Prop :=
  exists m, model_of s d = Some m /\
  ((name <> "" /\ name = m_name m) \/
   configField "modelName" (d_config d) = Some name \/
   (exists f, truthy (configField "recipeFile" (d_config d)) = Some f /\ name <> "" /\
      recipeHfId dgxrunCatalog agentRecipes f = Some name) \/
   baseModelOf s m = Some name).

(** A node of the group runs the deployment. *)
Definition runs_on (s : db) (d : deployment) (ids : list string) : Prop :=
  d_nodeId d ∈ ids \/
  exists c, c ∈ clusterNodes s /\ cn_deploymentId c = d_id d /\ cn_nodeId c ∈ ids.

Lemma option_list_elem {A} (o : option A) x : x ∈ option_list o <-> o = Some x.
Proof. destruct o; cbn; rewrite ?list_elem_of_singleton, ?elem_of_nil; naive_solver. Qed.

Lemma truthy_name o name : truthy o = Some name <-> o = Some name /\ name <> "".
Proof. apply truthy_Some. Qed.

Lemma usageOf_candidates s d u name :
  usage_of s d = Some u -> (name ∈ us_candidates u <-> knows s d name).
Proof.
  unfold usageOf, knows. destruct (model_of s d) as [m|]; [|done]. intros [= <-].
  cbn [us_candidates]. unfold deploymentModelCandidates.
  rewrite !elem_of_app, !option_list_elem, !truthy_name. split.
  - intros [[[[= <-] ?]|?]|[[H ?]|?]]; exists m; (split; [done|]); [by left|by right; left| |by do 3 right].
    right; right; left. destruct (truthy _) as [f|]; [|done]. by exists f.
  - intros (m' & [= <-] & [[? ->]|[?|[(f & Hf & ? & Hr)|?]]]); [tauto..| |tauto].
    right. left. by rewrite Hf.
Qed.

Lemma usageOf_touches s d u ids rid :
  usage_of s d = Some u ->
  touches rid ids u = true <->
  runs_on s d ids /\ exists name, knows s d name /\ str_lower name = str_lower rid.
Proof.
  intros Hu. unfold touches. rewrite andb_true_iff, orb_true_iff, mem_str_spec, existsb_exists,
    matchRepoToModels_spec. setoid_rewrite (usageOf_candidates s d u _ Hu).
  unfold usageOf in Hu. destruct (model_of s d) as [m|]; [|done]. injection Hu as <-. cbn.
  unfold runs_on. setoid_rewrite mem_str_spec. setoid_rewrite <- list_elem_of_In.
  setoid_rewrite list_elem_of_fmap. setoid_rewrite elem_of_filter_bool. setoid_rewrite String.eqb_eq. naive_solver.
Qed.

Lemma usageOf_status s d u : usage_of s d = Some u -> us_status u = d_status d.
Proof. unfold usageOf. destruct (model_of s d); [|done]. by intros [= <-]. Qed.

(** Who keeps a repository of the group from being removed. *)
Definition holds (s : db) (ids : list string) (rid : string) (d : deployment) : Prop :=
  d ∈ deployments s /\ d_status d ∉ TERMINAL_STATUSES /\ runs_on s d ids /\
  exists name, knows s d name /\ str_lower name = str_lower rid.

Lemma repoUsage_holders s usage rid ids :
  loadDeploymentUsage iso dgxrunCatalog agentRecipes s = Some usage ->
  (repoUsage rid ids usage).1.1 = true <-> exists d, holds s ids rid d.
Proof.
  intros Hl. apply mapM_Some_1 in Hl. unfold repoUsage. cbn [fst snd].
  rewrite Nat.ltb_lt. split.
  - intros H. destruct (List.filter isActive _) as [|u us] eqn:E; [cbn in H; lia|].
    assert (u ∈ u :: us) as Hin by left. rewrite <- E in Hin.
    apply elem_of_filter_bool in Hin as [Hin Ha]. apply elem_of_filter_bool in Hin as [Hin Ht].
    destruct (list_elem_of_lookup_1 _ _ Hin) as [i Hi].
    destruct (Forall2_lookup_r _ _ _ _ _ Hl Hi) as (d & Hd & Hu).
    exists d. apply (usageOf_touches s d u ids rid Hu) in Ht as [? ?].
    split; [by eapply list_elem_of_lookup_2|]. split; [|done].
    unfold isActive in Ha. rewrite (usageOf_status _ _ _ Hu) in Ha. rewrite <- mem_str_spec.
    by apply negb_true_iff, not_true_iff_false in Ha.
  - intros (d & Hd & Hs & Hr & Hn). destruct (list_elem_of_lookup_1 _ _ Hd) as [i Hi].
    destruct (Forall2_lookup_l _ _ _ _ _ Hl Hi) as (u & Hu & Huu).
    assert (u ∈ List.filter isActive (List.filter (touches rid ids) usage)) as Hin.
    { rewrite !elem_of_filter_bool. split; [split; [by eapply list_elem_of_lookup_2|]|].
      - by apply (usageOf_touches s d u ids rid Huu).
      - unfold isActive. rewrite (usageOf_status _ _ _ Huu). by apply negb_true_iff, not_true_iff_false;
          rewrite mem_str_spec. }
    destruct (List.filter isActive _); [by apply elem_of_nil in Hin|cbn; lia].
Qed.

(** A delete is ordered only when nothing holds the repository.  When the route sends
    the order, it goes to a connected node of the named group, the group's newest inventory
    lists that repository and kind, and no deployment that is not stopped or failed runs on
    a node of the group, as head or as member, under any name it knows its weights by (its
    model's name, the configured name, the recipe's repository in either catalog, the base
    model of its fine-tune job), whatever the case of the letters. *)
Theorem deleteRepo_guarded online s invs cid rq kq exec rid k :
  delete_repo online s invs cid rq kq = Ok (exec, rid, k) ->
  rq = Some rid /\ rid <> "" /\ online exec = true /\
  exists g, g ∈ groupInventories invs /\ g_cacheId g = cid /\ exec ∈ nodeIds g /\
    (exists r, r ∈ repos (newest g) /\ repoId r = rid /\ kind r = k) /\
    forall d, ~ holds s (nodeIds g) rid d.
Proof.
  unfold deleteRepo. set (k0 := if bool_decide _ then _ else _). set (rid0 := default "" rq). intros H.
  apply bind_Ok in H as (u & Hr%guard_or_Ok & H). clear u.
  apply bind_Ok in H as (g & Hg%of_option_Ok & H). apply bind_Ok in H as (r & Hrep%of_option_Ok & H).
  apply bind_Ok in H as (usage & Hl%of_option_Ok & H).
  destruct (repoUsage rid0 (nodeIds g) usage) as [[inUse by_] last] eqn:Eu.
  apply bind_Ok in H as (u & Hu%guard_or_Ok & H). apply bind_Ok in H as (e & He%of_option_Ok & [= -> <- <-]).
  apply truthy_Some in He as [[? ?]%js_find_Some _].
  apply js_find_Some in Hg as [? Hg%String.eqb_eq]. apply js_find_Some in Hrep as [? Hrep].
  apply andb_prop in Hrep as [?%String.eqb_eq ?%String.eqb_eq].
  apply negb_true_iff, String.eqb_neq in Hr. split; [by subst rid0; destruct rq|]. split; [done|]. split; [done|].
  exists g. split; [done|]. split; [done|]. split; [done|]. split; [by exists r|]. intros d Hd.
  apply negb_true_iff in Hu. assert ((repoUsage rid0 (nodeIds g) usage).1.1 = true) as Ht.
  { apply (repoUsage_holders s usage rid0 (nodeIds g) Hl). by exists d. }
  rewrite Eu in Ht. cbn in Ht. congruence.
Qed.

(** The guard sees only nodes that reported.  The inventories are kept in the manager's
    memory and a node counts as sharing the cache only once its own inventory arrived, so a
    deployment on nodes that have not reported since the manager started, whatever it serves
    from the same disk, changes nothing: the delete of the very files it holds open is
    ordered as if it were not there. *)
Theorem deleteRepo_unreported online s invs cid rq kq d m :
  model_of s d = Some m ->
  (forall inv, inv ∈ invs -> ~ runs_on s d [nodeId inv]) ->
  delete_repo online (db_deployments (fun ds => ds ++ [d]) s) invs cid rq kq =
  delete_repo online s invs cid rq kq.
Proof.
  intros Hm Hno. set (s' := db_deployments _ s). unfold deleteRepo.
  destruct (guard_or _ _) as [|]; [|done]. cbn [mbind result_bind].
  destruct (js_find _ (groupInventories invs)) as [g|] eqn:Eg; [|done]. cbn [of_option mbind result_bind].
  destruct (js_find _ (repos (newest g))) as [r|]; [|done]. cbn [of_option mbind result_bind].
  assert (forall d', usage_of s' d' = usage_of s d') as Hu by done.
  unfold loadDeploymentUsage. change (deployments s') with (deployments s ++ [d]).
  assert (exists u, usage_of s d = Some u) as [u Ed] by (unfold usageOf; rewrite Hm; by eexists).
  assert (mapM (usage_of s') (deployments s ++ [d]) =
    (us ← mapM (usage_of s) (deployments s); Some (us ++ [u]))) as ->.
  { rewrite <- (mapM_ext (usage_of s) (usage_of s') _ Hu). induction (deployments s) as [|x xs IH]; cbn.
    - rewrite Ed. done.
    - destruct (usage_of s x); [|done]. cbn. cbn in IH. rewrite IH. by destruct (mapM _ xs). }
  destruct (mapM _ (deployments s)) as [us|]; [|done]. cbn [of_option mbind option_bind result_bind].
  assert (touches (default "" rq) (nodeIds g) u = false) as Ht.
  { apply not_true_iff_false. rewrite (usageOf_touches s d u _ _ Ed). intros [Hr _].
    apply js_find_Some in Eg as [Hg _]. destruct (groupInventories_partition invs) as (_ & _ & Hp).
    destruct (Hp g Hg) as (Hids & _).
    assert (forall id, id ∈ nodeIds g -> exists inv, inv ∈ invs /\ id = nodeId inv) as Hid.
    { intros id. rewrite Hids, list_elem_of_fmap. intros (inv & -> & Hin). exists inv.
      by apply list_elem_of_filter in Hin as [_ ?]. }
    destruct Hr as [Hr|(c & Hc & Hcd & Hr)]; destruct (Hid _ Hr) as (inv & Hin & E); apply (Hno inv Hin).
    - left. rewrite E. left.
    - right. exists c. rewrite E. split; [done|]. split; [done|left]. }
  unfold repoUsage. rewrite List.filter_app. cbn [List.filter]. rewrite Ht. by rewrite app_nil_r.
Qed.

Lemma group_found invs g :
  g ∈ groupInventories invs ->
  js_find (fun x => String.eqb (g_cacheId x) (g_cacheId g)) (groupInventories invs) = Some g.
Proof.
  intros Hg. destruct (js_find_exists (fun x => String.eqb (g_cacheId x) (g_cacheId g)) _ g Hg) as [g' E];
    [by apply String.eqb_refl|].
  rewrite E. f_equal. apply js_find_Some in E as [Hg' Heq%String.eqb_eq].
  by apply (NoDup_map_inj g_cacheId (groupInventories invs)); [apply groupInventories_ids|..].
Qed.

Lemma getCaches_view online s t invs views cv rv :
  getCaches iso dgxrunCatalog agentRecipes online s t invs = Some views -> cv ∈ views -> rv ∈ cv_repos cv ->
  exists usage g, loadDeploymentUsage iso dgxrunCatalog agentRecipes s = Some usage /\
    g ∈ groupInventories invs /\ cv_group cv = g /\ rv_repo rv ∈ repos (newest g) /\
    rv_inUse rv = (repoUsage (repoId (rv_repo rv)) (nodeIds g) usage).1.1 /\
    rv_inUseBy rv = (repoUsage (repoId (rv_repo rv)) (nodeIds g) usage).1.2 /\
    rv_lastDeployedAt rv = newerIso (repoUsage (repoId (rv_repo rv)) (nodeIds g) usage).2
                             (al_get t (str_lower (repoId (rv_repo rv)))).
Proof.
  unfold getCaches. destruct (loadDeploymentUsage _ _ _ s) as [usage|]; [|done]. intros [= <-].
  rewrite list_elem_of_fmap. intros (g & -> & Hg) Hrv. cbn [cv_repos] in Hrv.
  apply list_elem_of_fmap in Hrv as (r & -> & Hr). exists usage, g. cbn [cv_group].
  by destruct (repoUsage (repoId r) (nodeIds g) usage) as [[? ?] ?].
Qed.

(** The list and the guard agree.  A repository the list shows as in use is exactly one
    whose delete is refused, in the same state, with the same deployments named. *)
Theorem list_agrees_with_guard online s t invs views cv rv :
  getCaches iso dgxrunCatalog agentRecipes online s t invs = Some views -> cv ∈ views -> rv ∈ cv_repos cv ->
  repoId (rv_repo rv) <> "" -> kind (rv_repo rv) ∈ ["model"; "dataset"] ->
  let answer := delete_repo online s invs (g_cacheId (cv_group cv)) (Some (repoId (rv_repo rv)))
                  (Some (kind (rv_repo rv))) in
  if rv_inUse rv then answer = Err (InUse (rv_inUseBy rv)) else forall by_, answer <> Err (InUse by_).
Proof.
  intros Hv Hcv Hrv Hne Hk. destruct (getCaches_view _ _ _ _ _ _ _ Hv Hcv Hrv)
    as (usage & g & Hl & Hg & -> & Hr & -> & -> & _). cbv zeta. unfold deleteRepo.
  assert ((if bool_decide (Some (kind (rv_repo rv)) = Some "dataset") then "dataset" else "model") =
    kind (rv_repo rv)) as ->.
  { rewrite !elem_of_cons, elem_of_nil in Hk. by destruct_or? Hk; rewrite Hk. }
  cbn [from_option default id]. apply String.eqb_neq in Hne. rewrite Hne. cbn [negb guard_or mbind result_bind].
  rewrite group_found by done. cbn [of_option mbind result_bind].
  destruct (js_find_exists (fun r => String.eqb (repoId r) (repoId (rv_repo rv)) &&
    String.eqb (kind r) (kind (rv_repo rv))) _ _ Hr) as [r' ->]; [by rewrite !String.eqb_refl|].
  cbn [of_option mbind result_bind]. rewrite Hl. cbn [of_option mbind result_bind].
  change (default "" (Some (repoId (rv_repo rv)))) with (repoId (rv_repo rv)).
  destruct (repoUsage _ _ _) as [[[] by_] last]; cbn [fst snd negb guard_or mbind result_bind]; [done|].
  by destruct (truthy (js_find online (nodeIds g))); intros ? [=].
Qed.

(** The date of a deployment survives its row.  Once a deployment that knew its weights
    under the repository's name (in any case of the letters) was recorded, every later list
    shows a date for the repository no older than that, whatever deployments are left. *)
Theorem last_deployed_survives online s t invs views cv rv mn cfg rm bm at_ :
  getCaches iso dgxrunCatalog agentRecipes online s
    (recordRepoDeployment (deploymentRepoKeys mn cfg rm bm) at_ t) invs = Some views ->
  cv ∈ views -> rv ∈ cv_repos cv -> repoId (rv_repo rv) <> "" ->
  matchRepoToModels (repoId (rv_repo rv))
    (deploymentModelCandidates mn cfg ++ option_list (truthy rm) ++ option_list (truthy bm)) = true ->
  exists x, rv_lastDeployedAt rv = Some x /\ str_le at_ x = true.
Proof.
  intros Hv Hcv Hrv Hne Hm. destruct (getCaches_view _ _ _ _ _ _ _ Hv Hcv Hrv)
    as (usage & g & _ & _ & _ & _ & _ & _ & E). rewrite E, recordRepoDeployment_get.
  assert (mem_str (str_lower (repoId (rv_repo rv))) (deploymentRepoKeys mn cfg rm bm) = true) as ->.
  { by apply mem_str_spec, deploymentRepoKeys_elem. }
  destruct (newerIso _ (Some at_)) as [x|] eqn:En; [|unfold newerIso in En; by repeat case_match].
  exists x. split; [done|]. by eapply newerIso_ge.
Qed.

End Route.

(** ** Concrete runs *)

Import Repo.

Example parse_ex :
  map parseRepoDirName ["models--org--name"; "datasets--squad"; "spaces--a--b"; "models--"; "models--a--b--c";
                        "constructor--x"; ".locks"] =
  [Some (Model, "org/name"); Some (Dataset, "squad"); None; None; Some (Model, "a/b/c");
   Some (Inherited "constructor", "x"); None].
Proof. by vm_compute. Qed.

(** An id whose segment ends in a dash does not come back. *)
Example trailing_dash_ex : parseRepoDirName (repoDirName "model" "a-/b") = Some (Model, "a/-b").
Proof. by vm_compute. Qed.

Example safe_ex : map isSafeRepoId ["org/name"; "gpt2"; "../x"; "a/b/c"; "a//b"; "."; "a/.."] =
  [true; true; false; false; false; false; false].
Proof. by vm_compute. Qed.

Lemma repoDirName_roundtrip_witness :
  parseRepoDirName (repoDirName "model" "org/name") = Some (Model, "org/name").
Proof.
  apply (proj1 repoDirName_roundtrip Model ["org"; "name"]); [by left|by vm_compute|].
  constructor; [by vm_compute|]. constructor; [by vm_compute|constructor].
Defined.

Module OneDisk.
Import Disk.

Definition home : entry :=
  Dir 5 [("hub", Dir 5 [
    ("models--org--name", Dir 5 [
       ("blobs", Dir 5 [("x", Leaf true 100 70); ("y.incomplete", Broken false ENOENT)]);
       ("snapshots", Dir 5 [("rev1", Dir 5 [("config.json", Leaf false 20 60)])])]);
    (".locks", Dir 5 []); ("version.txt", Leaf true 1 1)])].

Example scan_ex : scanHfCache (Some home) =
  Ok [{| repoId := "org/name"; kind := Model; rp_size := 120; rp_files := 1; revisions := 1;
         lastModified := 70 |}].
Proof. by vm_compute. Qed.

Lemma walk_counts_leaves_witness : walk home = Ok (stats_of (leaves home)).
Proof. apply (walk_counts_leaves home); [done|by vm_compute]. Defined.

Definition here (p : string) : bool := String.eqb p "/mnt/models/hub/models--org--name".
Definition denied (_ : string) : result errno () := Err EACCES.

Example delete_ex :
  deleteCachedRepo [] "/mnt/models" here denied (fun _ => true) "model" "org/name" =
  ([RmSync "/mnt/models/hub/models--org--name"; SudoRm "/mnt/models/hub/models--org--name"], Ok ()).
Proof. by vm_compute. Qed.

(** The kind is not checked by the agent; the prefix test is what stops this one. *)
Example hostile_kind_ex :
  deleteCachedRepo [] "/mnt/models" (fun _ => true) denied (fun _ => true) "../../../etc/x" "name" = ([], Err OutsideHub).
Proof. by vm_compute. Qed.

Lemma delete_contained_witness :
  command_path (SudoRm "/mnt/models/hub/models--org--name") =
  Path.pathOf (hub [] "/mnt/models" ++ ["models--org--name"]).
Proof.
  destruct (delete_contained [] "/mnt/models" (Forall_nil_2 _) here denied (fun _ => true) "model" "org/name")
    as (_ & H & _).
  apply (H Model "models--org--name"); [by left|done|by vm_compute|by vm_compute|]. vm_compute. right. left.
Defined.

End OneDisk.

Module Identity.
Import CacheId.

Definition u1 : string := "11111111-1111-4111-8111-111111111111".
Definition u2 : string := "22222222-2222-4222-8222-222222222222".

(** Both nodes find no marker; the first creates it, the second loses the race and reads
    what was written. *)
Definition written : state :=
  {| marker := Some (u1 +:+ String nl ""); node := [Got u1; Missing u2] |}.
Definition settled : state :=
  {| marker := Some (u1 +:+ String nl ""); node := [Got u1; Got u1] |}.

Lemma race_written : reachable (fresh None 2) written.
Proof.
  assert (is_uuid u1) as H1 by done. assert (is_uuid u2) as H2 by done.
  eapply rtc_l; [exact (Act (fresh None 2) 0 Start u1 eq_refl H1)|].
  eapply rtc_l; [exact (Act {| marker := None; node := [Missing u1; Start] |} 1 Start u2 eq_refl H2)|].
  eapply rtc_l; [exact (Act {| marker := None; node := [Missing u1; Missing u2] |} 0 (Missing u1) u1 eq_refl H1)|].
  eapply rtc_l; [exact (Act {| marker := Some ""; node := [Created u1; Missing u2] |} 0 (Created u1) u1 eq_refl H1)|].
  constructor.
Qed.

Lemma race_settled : reachable written settled.
Proof.
  assert (is_uuid u1) as H1 by done.
  eapply rtc_l; [exact (Act written 1 (Missing u2) u1 eq_refl H1)|].
  eapply rtc_l; [exact (Act {| marker := marker written; node := [Got u1; Lost] |} 1 Lost u1 eq_refl H1)|].
  constructor.
Qed.

Lemma cache_identity_agreed_witness : u1 = u1 /\ readMarker (marker settled) = Some u1.
Proof.
  destruct (cache_identity_agreed None 2 written settled 0 1 u1 u1 race_written race_settled eq_refl eq_refl)
    as (H & _ & H'). exact (conj H H').
Defined.

Lemma empty_marker_is_final_witness : marker (fresh (Some "") 1) = Some "".
Proof.
  destruct empty_marker_is_final as [H1 H2].
  apply (H2 (fresh (Some "") 1) (fresh (Some "") 1)); [done|done| | |constructor].
  - intros [|i] [id H]; discriminate H.
  - intros [|i] id; discriminate.
Defined.

End Identity.

(** ** The manager's side *)
Module Two.
Import Grouping CacheRoute.

Definition repo : HfCacheRepo :=
  {| repoId := "Org/Name"; kind := "model"; sizeBytes := zn 120; nFiles := zn 1; revisions := zn 1;
     lastModified := "2026-01-01" |}.
Definition inv (n at_ : string) : HfCacheNodeInventory :=
  {| nodeId := n; cacheId := "c"; hfHome := "/mnt/models"; scannedAt := at_; totalBytes := zn 120;
     diskFreeBytes := zn 1; inv_error := None; unconfigured := None; repos := [repo] |}.

Definition dep (status node : string) : deployment :=
  Deployment "d1" None node "m1" status None None None None false None None 0.
Definition tables (d : deployment) : db :=
  Db [] [ModelRow "m1" "org/name" "vllm" None] [d] [] [] [].

Definition ask (s : db) (invs : list HfCacheNodeInventory) :=
  deleteRepo (fun _ => "2026") [] [] (fun _ => true) s invs "c" (Some "Org/Name") None.

Example groups_ex : map (fun g => (g_cacheId g, nodeIds g, scannedAt (newest g)))
    (groupInventories [inv "n1" "2026-01"; inv "n2" "2026-02"]) = [("c", ["n1"; "n2"], "2026-02")].
Proof. by vm_compute. Qed.

Example busy_ex : ask (tables (dep "running" "n2")) [inv "n1" "1"; inv "n2" "2"] = Err (InUse ["org/name"]).
Proof. by vm_compute. Qed.

Lemma deleteRepo_guarded_witness :
  exists g, g ∈ groupInventories [inv "n1" "1"; inv "n2" "2"] /\
    forall d, ~ holds [] [] (tables (dep "stopped" "n2")) (nodeIds g) "Org/Name" d.
Proof.
  destruct (deleteRepo_guarded (fun _ => "2026") [] [] (fun _ => true) (tables (dep "stopped" "n2"))
    [inv "n1" "1"; inv "n2" "2"] "c" (Some "Org/Name") None "n1" "Org/Name" "model" eq_refl)
    as (_ & _ & _ & g & Hg & _ & _ & _ & H). exact (ex_intro _ g (conj Hg H)).
Defined.

(** The same deployment, running, on a node whose inventory has not arrived. *)
Lemma deleteRepo_unreported_witness :
  ask (tables (dep "running" "n2")) [inv "n1" "1"] = Ok ("n1", "Org/Name", "model").
Proof.
  refine (eq_trans (deleteRepo_unreported (fun _ => "2026") [] [] (fun _ => true)
    (Db [] [ModelRow "m1" "org/name" "vllm" None] [] [] [] []) [inv "n1" "1"] "c" (Some "Org/Name") None
    (dep "running" "n2") (ModelRow "m1" "org/name" "vllm" None) _ _) _).
  - done.
  - intros i Hi. apply list_elem_of_singleton in Hi as ->. intros [H|(c & H & _)].
    + by apply list_elem_of_singleton in H.
    + by apply elem_of_nil in H.
  - by vm_compute.
Defined.

End Two.
