(* ===== verification/Firewall.v ===== *)
(** The agent's firewall for Ollama ([agent/firewall.ts]): the steps, their application over
    a packet filter that may refuse any command, the audit check, and what success means
    for a packet.

    iptables is not part of the program: class [Netfilter] states what the code relies on,
    and [Table] is an instance.  [new URL] is an argument. *)
From S2P Require Import Prelude.

Definition CHAIN : string := "DGX_AGENT_OLLAMA".
Definition OLLAMA_PORT : string := "11434".

Definition host_char (c : ascii) : bool :=
  is_alnum c || Ascii.eqb c "_" || Ascii.eqb c "." || Ascii.eqb c ":" || Ascii.eqb c "-".

(** [/^[0-9a-zA-Z_.:-]+$/] *)
Definition HOST_RE (s : string) : bool := negb (String.eqb s "") && str_all host_char s.

Inductive FirewallStep :=
  | Run (argv : list string)
  | Tolerate (argv : list string)
  | CheckThen (check then_ : list string).

Inductive FamilyResult := Pending | Applied | Failed.
#[export] Instance FamilyResult_eq_dec : EqDecision FamilyResult.
Proof. solve_decision. Defined.

Record FirewallState := { v4 : FamilyResult; v6 : FamilyResult }.

Inductive audit := Green | Yellow | Red.

Definition firewallAuditCheck (s : FirewallState) : audit :=
  if bool_decide (v4 s = Applied) && bool_decide (v6 s = Applied) then Green
  else if bool_decide (v4 s = Pending) || bool_decide (v6 s = Pending) then Yellow
  else if bool_decide (v4 s = Applied) then Yellow else Red.

Inductive hostError := Unparseable | NoHost | NotHostLike.

Definition assertHostLike (managerHost : string) : result hostError () :=
  guard_or (HOST_RE managerHost) NotHostLike.

(** [url]: the [hostname] of [new URL(managerUrl)], or its throw. *)
Definition parseManagerHost (url : string -> option string) (managerUrl : string) : result hostError string :=
  h ← of_option (url managerUrl) Unparseable;
  _ ← guard_or (negb (String.eqb h "")) NoHost;
  Ok h.

Definition jump : list string := ["INPUT"; "-p"; "tcp"; "--dport"; OLLAMA_PORT; "-j"; CHAIN].

Definition familySteps (tool : string) (managerHost : option string) : list FirewallStep :=
  [Tolerate [tool; "-N"; CHAIN]; Run [tool; "-F"; CHAIN]] ++
  match managerHost with
  | Some h => [Run [tool; "-A"; CHAIN; "-s"; h; "-j"; "ACCEPT"]]
  | None => []
  end ++
  [Run [tool; "-A"; CHAIN; "-i"; "lo"; "-j"; "ACCEPT"]; Run [tool; "-A"; CHAIN; "-j"; "DROP"];
   CheckThen ([tool; "-C"] ++ jump) ([tool; "-I"] ++ jump)].

Definition buildFirewallSteps (managerHost : string) : result hostError (list FirewallStep) :=
  _ ← assertHostLike managerHost;
  Ok (familySteps "iptables" (Some managerHost) ++ familySteps "ip6tables" None).

Section Apply.
(** [exec cmd args]: the state after it, and whether it exited with zero. *)
Context {K : Type} (exec : string -> list string -> K -> K * bool).

Definition sudo (argv : list string) (k : K) : K * bool := exec "sudo" ("-n" :: argv) k.

(** One turn of the loop: the state, and whether the family goes on. *)
Definition applyStep (st : FirewallStep) (k : K) : K * bool :=
  match st with
  | Tolerate argv => ((sudo argv k).1, true)
  | Run argv => sudo argv k
  | CheckThen check then_ =>
      let '(k1, present) := sudo check k in if (present : bool) then (k1, true) else sudo then_ k1
  end.

Fixpoint applyFamily (steps : list FirewallStep) (k : K) : K * bool :=
  match steps with
  | [] => (k, true)
  | st :: rest => let '(k1, ok) := applyStep st k in if (ok : bool) then applyFamily rest k1 else (k1, false)
  end.

Definition outcome (ok : bool) : FamilyResult := if ok then Applied else Failed.

(** The states of the filter and of the module, at the start, after each family. *)
Definition applyOllamaFirewall (url : string -> option string) (managerUrl : string) (k : K) :
    list (K * FirewallState) :=
  let start := (k, {| v4 := Pending; v6 := Pending |}) in
  match (h ← parseManagerHost url managerUrl; _ ← assertHostLike h; Ok h) with
  | Err _ => [start; (k, {| v4 := Failed; v6 := Failed |})]
  | Ok host =>
      let '(k4, v4ok) := applyFamily (familySteps "iptables" (Some host)) k in
      let '(k6, v6ok) := applyFamily (familySteps "ip6tables" None) k4 in
      [start; (k4, {| v4 := outcome v4ok; v6 := Pending |});
       (k6, {| v4 := outcome v4ok; v6 := outcome v6ok |})]
  end.
End Apply.

(** ** What the code relies on

    The filter of each family holds the rules of the agent's chain, if it exists, and the
    [INPUT] chain; a command that fails changes nothing, and none touches the other
    family. *)
Class Netfilter (K : Type) (exec : string -> list string -> K -> K * bool)
    (chain : string -> K -> option (list (list string))) (input : string -> K -> list (list string)) := {
  nf_fail : forall argv k, (sudo exec argv k).2 = false -> (sudo exec argv k).1 = k;
  nf_other : forall tool argv k t, t <> tool ->
    chain t (sudo exec (tool :: argv) k).1 = chain t k /\ input t (sudo exec (tool :: argv) k).1 = input t k;
  nf_new : forall tool k, let r := sudo exec [tool; "-N"; CHAIN] k in
    r.2 = true -> chain tool k = None /\ chain tool r.1 = Some [] /\ input tool r.1 = input tool k;
  nf_flush : forall tool k, let r := sudo exec [tool; "-F"; CHAIN] k in
    r.2 = true -> is_Some (chain tool k) /\ chain tool r.1 = Some [] /\ input tool r.1 = input tool k;
  nf_append : forall tool rule k, let r := sudo exec ([tool; "-A"; CHAIN] ++ rule) k in
    r.2 = true -> exists rs, chain tool k = Some rs /\ chain tool r.1 = Some (rs ++ [rule]) /\
                             input tool r.1 = input tool k;
  nf_check : forall tool k, let r := sudo exec ([tool; "-C"] ++ jump) k in
    r.1 = k /\ (r.2 = true -> tail jump ∈ input tool k);
  nf_insert : forall tool k, let r := sudo exec ([tool; "-I"] ++ jump) k in
    r.2 = true -> input tool r.1 = tail jump :: input tool k /\ chain tool r.1 = chain tool k }.

(** The rules of a family's chain. *)
Definition rulesOf (managerHost : option string) : list (list string) :=
  match managerHost with Some h => [["-s"; h; "-j"; "ACCEPT"]] | None => [] end ++
  [["-i"; "lo"; "-j"; "ACCEPT"]; ["-j"; "DROP"]].

(** What a chain does to a packet: the first rule that matches decides; [Back]: none does,
    the packet goes back to [INPUT]; [Unclear]: a rule comes first of which nothing is known,
    so that it may accept.  [resolves h]: the addresses [h] stood for when the rule was
    added. *)
Record packet := { pk_src : string; pk_iface : string }.

Inductive decision := Accepted | Dropped | Back | Unclear.

Fixpoint packetVerdict (resolves : string -> string -> bool) (rules : list (list string)) (p : packet) : decision :=
  match rules with
  | [] => Back
  | ["-s"; h; "-j"; "ACCEPT"] :: rest => if resolves h (pk_src p) then Accepted else packetVerdict resolves rest p
  | ["-i"; i; "-j"; "ACCEPT"] :: rest => if String.eqb i (pk_iface p) then Accepted else packetVerdict resolves rest p
  | ["-j"; "DROP"] :: _ => Dropped
  | _ => Unclear
  end.

Section Facts.
Context {K : Type} (exec : string -> list string -> K -> K * bool)
  (chain : string -> K -> option (list (list string))) (input : string -> K -> list (list string))
  `{NF : !Netfilter K exec chain input}.

Notation family := (applyFamily exec).

Lemma applyFamily_app a b k :
  family (a ++ b) k = let '(k1, ok) := family a k in if (ok : bool) then family b k1 else (k1, false).
Proof.
  revert k. induction a as [|st a IH]; intros k; [done|]. cbn. destruct (applyStep exec st k) as [k1 []]; [|done].
  apply IH.
Qed.

(** Appending rules one after the other. *)
Lemma appends tool rules k rs :
  chain tool k = Some rs ->
  let r := family (map (fun rule => Run ([tool; "-A"; CHAIN] ++ rule)) rules) k in
  (exists done_, done_ `prefix_of` rules /\ chain tool r.1 = Some (rs ++ done_) /\
     (r.2 = true -> done_ = rules)) /\ input tool r.1 = input tool k.
Proof using NF.
  revert k rs. induction rules as [|rule rules IH]; intros k rs Hc; cbn [map applyFamily fst snd].
  - split; [|done]. exists []. by rewrite app_nil_r.
  - change (applyStep exec (Run ([tool; "-A"; CHAIN] ++ rule)) k) with (sudo exec ([tool; "-A"; CHAIN] ++ rule) k).
    destruct (sudo exec ([tool; "-A"; CHAIN] ++ rule) k) as [k1 ok] eqn:E. destruct ok.
    + pose proof (nf_append tool rule k) as Ha. rewrite E in Ha. destruct (Ha eq_refl) as (rs' & E1 & E2 & E3).
      cbn [fst] in E2, E3. assert (rs' = rs) as -> by congruence.
      destruct (IH k1 (rs ++ [rule]) E2) as ((d & Hd & Hc' & Hr) & Hi). split; [|by rewrite Hi].
      exists (rule :: d). split; [by apply prefix_cons|]. rewrite Hc', <- app_assoc. split; [done|].
      intros Ht. by rewrite (Hr Ht).
    + cbn [fst snd]. pose proof (nf_fail ([tool; "-A"; CHAIN] ++ rule) k) as Hf. rewrite E in Hf.
      cbn in Hf. rewrite (Hf eq_refl). split; [|done]. exists []. rewrite app_nil_r.
      split; [apply prefix_nil|done].
Qed.

Definition appendSteps (tool : string) (host : option string) : list FirewallStep :=
  map (fun rule => Run ([tool; "-A"; CHAIN] ++ rule)) (rulesOf host).

Lemma familySteps_split tool host :
  familySteps tool host =
  [Tolerate [tool; "-N"; CHAIN]; Run [tool; "-F"; CHAIN]] ++ appendSteps tool host ++
  [CheckThen ([tool; "-C"] ++ jump) ([tool; "-I"] ++ jump)].
Proof. by destruct host. Qed.

(** The chain is there and empty, and [INPUT] as it was, or nothing changed. *)
Lemma reset tool k :
  let r := family [Tolerate [tool; "-N"; CHAIN]; Run [tool; "-F"; CHAIN]] k in
  input tool r.1 = input tool k /\
  if r.2 then chain tool r.1 = Some [] else chain tool r.1 = chain tool k \/ chain tool r.1 = Some [].
Proof using NF.
  cbn [applyFamily applyStep fst snd].
  assert (input tool (sudo exec [tool; "-N"; CHAIN] k).1 = input tool k /\
    (chain tool (sudo exec [tool; "-N"; CHAIN] k).1 = chain tool k \/
     chain tool (sudo exec [tool; "-N"; CHAIN] k).1 = Some [])) as [Hi Hc].
  { destruct ((sudo exec [tool; "-N"; CHAIN] k).2) eqn:E.
    - destruct (nf_new tool k E) as (_ & ? & ?). by split; [|right].
    - rewrite (nf_fail _ _ E). by split; [|left]. }
  set (k1 := (sudo exec [tool; "-N"; CHAIN] k).1) in *. clearbody k1.
  destruct (sudo exec [tool; "-F"; CHAIN] k1) as [k2 ok] eqn:E. destruct ok; cbn [fst snd].
  - pose proof (nf_flush tool k1) as Hf. rewrite E in Hf. destruct (Hf eq_refl) as (_ & ? & ?). cbn in *.
    split; [congruence|done].
  - pose proof (nf_fail [tool; "-F"; CHAIN] k1) as Hf. rewrite E in Hf. cbn in Hf. by rewrite (Hf eq_refl).
Qed.

(** What applying a family's rules comes to.  On success the chain is exactly the
    accepts and the drop, in that order, and [INPUT] jumps to it: it keeps its rules, with
    the jump put in front unless it was there, so that applying again adds nothing.  On a
    failure [INPUT] is as it was but for that jump, and the chain is as it was or a prefix
    of the rules, most of which do not end in the drop: what a first run had closed, a
    second that fails half way leaves open. *)
Theorem applyFamily_spec tool host k :
  let r := family (familySteps tool host) k in
  if r.2 then
    chain tool r.1 = Some (rulesOf host) /\
    (input tool r.1 = input tool k /\ tail jump ∈ input tool k \/ input tool r.1 = tail jump :: input tool k)
  else
    input tool r.1 = input tool k /\
    (chain tool r.1 = chain tool k \/ exists done_, done_ `prefix_of` rulesOf host /\ chain tool r.1 = Some done_).
Proof using NF.
  rewrite familySteps_split. cbv zeta. rewrite applyFamily_app.
  pose proof (reset tool k) as [Hi Hc]. destruct (family [_; _] k) as [k1 ok1]. cbn [fst snd] in Hi, Hc.
  destruct ok1; cbn [fst snd].
  2: { split; [done|]. destruct Hc as [?|?]; [by left|right]. exists []. split; [apply prefix_nil|done]. }
  rewrite applyFamily_app. pose proof (appends tool (rulesOf host) k1 [] Hc) as ((d & Hd & Hch & Hr) & Hin).
  fold (appendSteps tool host) in Hch, Hr, Hin.
  destruct (family (appendSteps tool host) k1) as [k2 ok2]. cbn [fst snd app] in Hch, Hr, Hin.
  destruct ok2; cbn [fst snd].
  2: { split; [congruence|]. right. by exists d. }
  rewrite (Hr eq_refl) in Hch. cbn [applyFamily].
  change (applyStep exec (CheckThen ?c ?t) k2) with
    (let '(k1, present) := sudo exec c k2 in if (present : bool) then (k1, true) else sudo exec t k1).
  destruct (nf_check tool k2) as [Hck Hpr].
  destruct (sudo exec ([tool; "-C"] ++ jump) k2) as [k3 present]. cbn [fst snd] in Hck, Hpr. subst k3.
  destruct present; cbn [fst snd].
  - split; [done|]. left. split; [congruence|]. specialize (Hpr eq_refl). congruence.
  - pose proof (nf_insert tool k2) as Hins. pose proof (nf_fail ([tool; "-I"] ++ jump) k2) as Hf.
    destruct (sudo exec ([tool; "-I"] ++ jump) k2) as [k4 ok4]. cbn [fst snd] in Hins, Hf.
    destruct ok4; cbn [fst snd].
    + destruct (Hins eq_refl) as [E1 E2]. split; [congruence|]. right. congruence.
    + rewrite (Hf eq_refl). split; [congruence|]. right. exists (rulesOf host). split; [done|congruence].
Qed.

(** Steps of one family leave the other alone. *)
Lemma applyStep_other tool st k t :
  t <> tool ->
  match st with Run a | Tolerate a => head a = Some tool
              | CheckThen c th => head c = Some tool /\ head th = Some tool end ->
  chain t (applyStep exec st k).1 = chain t k /\ input t (applyStep exec st k).1 = input t k.
Proof using NF.
  intros Ht. assert (forall argv k0, head argv = Some tool ->
    chain t (sudo exec argv k0).1 = chain t k0 /\ input t (sudo exec argv k0).1 = input t k0) as Ho.
  { intros [|a argv] k0; [done|]. intros [= ->]. by apply nf_other. }
  destruct st as [argv|argv|c th]; cbn [applyStep fst].
  - by apply Ho.
  - by apply Ho.
  - intros [Hc Hth]. destruct (Ho c k Hc) as [E1 E2]. destruct (sudo exec c k) as [k1 []]; [done|].
    cbn in E1, E2. destruct (Ho th k1 Hth) as [E3 E4]. by rewrite E3, E4.
Qed.

Lemma applyFamily_other tool steps k t :
  t <> tool ->
  Forall (fun st => match st with Run a | Tolerate a => head a = Some tool
                    | CheckThen c th => head c = Some tool /\ head th = Some tool end) steps ->
  chain t (family steps k).1 = chain t k /\ input t (family steps k).1 = input t k.
Proof using NF.
  intros Ht H. revert k. induction H as [|st steps Hst _ IH]; intros k; [done|]. cbn [applyFamily].
  destruct (applyStep_other tool st k t Ht Hst) as [E1 E2].
  destruct (applyStep exec st k) as [k1 ok]. cbn [fst] in E1, E2. destruct ok; cbn [fst]; [|done].
  destruct (IH k1) as [E3 E4]. by rewrite E3, E4.
Qed.

Lemma familySteps_tool tool host :
  Forall (fun st => match st with Run a | Tolerate a => head a = Some tool
                    | CheckThen c th => head c = Some tool /\ head th = Some tool end) (familySteps tool host).
Proof. destruct host; repeat constructor. Qed.

(** C32: A green check means the API is closed.  Whenever, while the firewall is applied or
    after, the self-audit would answer green, each family has the jump from [INPUT] for
    packets to the API's port and its chain holds exactly its rules, the manager's accept
    being over IPv4 only; then of the packets that reach the jump only the manager's and
    those of the loopback device are accepted, over IPv6 the loopback's only, and every
    other one is dropped.  The check is red exactly when the IPv4 rules were given up and
    the IPv6 ones have been tried. *)
Theorem green_means_closed url managerUrl k k' s resolves p :
  (k', s) ∈ applyOllamaFirewall exec url managerUrl k ->
  (firewallAuditCheck s = Green -> exists host rules4 rules6,
     url managerUrl = Some host /\ HOST_RE host = true /\
     ["-p"; "tcp"; "--dport"; "11434"; "-j"; "DGX_AGENT_OLLAMA"] ∈ input "iptables" k' /\
     ["-p"; "tcp"; "--dport"; "11434"; "-j"; "DGX_AGENT_OLLAMA"] ∈ input "ip6tables" k' /\
     chain "iptables" k' = Some rules4 /\ chain "ip6tables" k' = Some rules6 /\
     rules4 = [["-s"; host; "-j"; "ACCEPT"]; ["-i"; "lo"; "-j"; "ACCEPT"]; ["-j"; "DROP"]] /\
     rules6 = [["-i"; "lo"; "-j"; "ACCEPT"]; ["-j"; "DROP"]] /\
     packetVerdict resolves rules4 p =
       (if resolves host (pk_src p) || String.eqb "lo" (pk_iface p) then Accepted else Dropped) /\
     packetVerdict resolves rules6 p = (if String.eqb "lo" (pk_iface p) then Accepted else Dropped)) /\
  (firewallAuditCheck s = Red <-> v4 s = Failed /\ v6 s <> Pending).
Proof using NF.
  intros H. split; [|destruct s as [[] []]; split;
    (by intros [=]) || (by intros [? ?]) || done].
  intros Hg. assert (v4 s = Applied /\ v6 s = Applied) as [H4 H6] by (by destruct s as [[] []]).
  unfold applyOllamaFirewall, parseManagerHost, assertHostLike in H.
  destruct (url managerUrl) as [host|] eqn:Eu.
  2: { cbn in H. rewrite !elem_of_cons, elem_of_nil in H. destruct_or? H; by inversion H; subst. }
  cbn [of_option mbind result_bind] in H.
  destruct (negb (String.eqb host "")); cbn [guard_or mbind result_bind] in H.
  2: { rewrite !elem_of_cons, elem_of_nil in H. destruct_or? H; by inversion H; subst. }
  destruct (HOST_RE host) eqn:Eh; cbn [guard_or mbind result_bind] in H.
  2: { rewrite !elem_of_cons, elem_of_nil in H. destruct_or? H; by inversion H; subst. }
  pose proof (applyFamily_spec "iptables" (Some host) k) as S4.
  destruct (family (familySteps "iptables" (Some host)) k) as [k4 v4ok] eqn:E4.
  pose proof (applyFamily_spec "ip6tables" None k4) as S6.
  pose proof (applyFamily_other "ip6tables" (familySteps "ip6tables" None) k4 "iptables" ltac:(done)
    (familySteps_tool _ _)) as [O1 O2].
  destruct (family (familySteps "ip6tables" None) k4) as [k6 v6ok] eqn:E6. cbn [fst snd] in *.
  rewrite !elem_of_cons, elem_of_nil in H. destruct_or? H; try done; inversion H; subst; cbn in H4, H6; try done.
  destruct v4ok, v6ok; try done. destruct S4 as [C4 I4], S6 as [C6 I6].
  exists host, (rulesOf (Some host)), (rulesOf None). split; [done|]. split; [done|].
  split; [change (tail jump ∈ input "iptables" k6); rewrite O2; destruct I4 as [[-> ?]| ->]; [done|left]|].
  split; [change (tail jump ∈ input "ip6tables" k6); destruct I6 as [[-> ?]| ->]; [done|left]|].
  split; [by rewrite O1, C4|]. split; [done|]. split; [done|]. split; [done|]. cbn -[String.eqb]. split.
  - by destruct (resolves host (pk_src p)), (String.eqb "lo" (pk_iface p)).
  - by destruct (String.eqb "lo" (pk_iface p)).
Qed.

(** No word of a command comes from outside but a host.  Every word of every step is
    fixed or the manager's host, and consists of letters, digits and [_.:-]: no command
    holds a space, a quote or any other character of the shell. *)
Theorem steps_words host steps st w :
  buildFirewallSteps host = Ok steps -> st ∈ steps ->
  match st with Run a | Tolerate a => w ∈ a | CheckThen c t => w ∈ c \/ w ∈ t end ->
  str_all host_char w = true.
Proof.
  unfold buildFirewallSteps, assertHostLike. destruct (HOST_RE host) eqn:Eh; [|done]. intros [= <-].
  apply andb_prop in Eh as [_ Eh]. unfold familySteps, jump. cbn [app].
  rewrite !elem_of_cons, elem_of_nil. intros Hst. destruct_or? Hst; subst; cbn [app];
    rewrite !elem_of_cons, elem_of_nil; intros Hw; destruct_or? Hw; subst; (done || by vm_compute).
Qed.

End Facts.

(** ** An instance: two tables, and a host that refuses some commands *)
Module Table.

Record family := { rules : option (list (list string)); inp : list (list string) }.
Definition state := string -> family.

Definition set_of (tool : string) (f : family) (s : state) : state :=
  fun t => if String.eqb t tool then f else s t.

(** One command that changes a family. *)
Definition command (op : string) (rule : list string) (f : family) : option family :=
  if String.eqb op "-N" then
    match rules f with None => Some {| rules := Some []; inp := inp f |} | Some _ => None end
  else if String.eqb op "-F" then _ ← rules f; Some {| rules := Some []; inp := inp f |}
  else if String.eqb op "-A" then rs ← rules f; Some {| rules := Some (rs ++ [rule]); inp := inp f |}
  else if String.eqb op "-I" then Some {| rules := rules f; inp := rule :: inp f |}
  else None.

(** [refuse]: the commands sudo does not allow. *)
Definition exec (refuse : list string -> bool) (cmd : string) (args : list string) (s : state) : state * bool :=
  match args with
  | _ :: tool :: op :: _ :: rule =>
      if refuse (tool :: op :: rule) then (s, false)
      else if String.eqb op "-C" then (s, bool_decide (rule ∈ inp (s tool)))
      else match command op rule (s tool) with Some f => (set_of tool f s, true) | None => (s, false) end
  | _ => (s, false)
  end.

Definition chain (tool : string) (s : state) : option (list (list string)) := rules (s tool).
Definition input (tool : string) (s : state) : list (list string) := inp (s tool).

#[export] Instance table_netfilter refuse : Netfilter state (exec refuse) chain input.
Proof.
  assert (forall tool f s, set_of tool f s tool = f) as Hs.
  { intros tool f s. unfold set_of. by rewrite String.eqb_refl. }
  split.
  - intros argv k. unfold sudo, exec. destruct argv as [|tool [|op [|c rule]]]; try done.
    destruct (refuse _); [done|]. destruct (String.eqb op "-C"); [done|]. by destruct (command _ _ _).
  - intros tool argv k t Ht. unfold sudo, exec. destruct argv as [|op [|c rule]]; try done.
    destruct (refuse _); [done|]. destruct (String.eqb op "-C"); [done|].
    destruct (command _ _ _); [|done]. unfold chain, input, set_of. cbn [fst].
    apply String.eqb_neq in Ht. by rewrite Ht.
  - intros tool k. unfold sudo, exec, chain, input. cbn. destruct (refuse _); [done|].
    destruct (rules (k tool)); [done|]. cbn [fst snd]. by rewrite !Hs.
  - intros tool k. unfold sudo, exec, chain, input. cbn. destruct (refuse _); [done|].
    destruct (rules (k tool)); [|done]. cbn [fst snd mbind option_bind]. rewrite !Hs. by split; [eexists|].
  - intros tool rule k. unfold sudo, exec, chain, input. cbn. destruct (refuse _); [done|].
    destruct (rules (k tool)) as [rs|]; [|done]. cbn [fst snd mbind option_bind]. rewrite !Hs.
    intros _. by exists rs.
  - intros tool k. unfold sudo, exec, chain, input. cbn -[bool_decide]. destruct (refuse _); [done|].
    cbn [fst snd]. split; [done|]. by intros ?%bool_decide_eq_true.
  - intros tool k. unfold sudo, exec, chain, input. cbn. destruct (refuse _); [done|].
    cbn [fst snd]. by rewrite !Hs.
Qed.

Definition bare : state := fun _ => {| rules := None; inp := [["ACCEPT"]] |}.
Definition url (_ : string) : option string := Some "10.0.0.1".
Definition willing (_ : list string) : bool := false.
(** A sudo that allows everything but adding the drop. *)
Definition no_drop (argv : list string) : bool := bool_decide (argv = ["iptables"; "-A"; "-j"; "DROP"]).

Definition after (r : list (state * FirewallState)) : option (option (list (list string)) * list (list string) * audit) :=
  (fun x => (chain "iptables" x.1, input "iptables" x.1, firewallAuditCheck x.2)) <$> last r.

Example closed_ex : after (applyOllamaFirewall (exec willing) url "ws://10.0.0.1:4000" bare) =
  Some (Some (rulesOf (Some "10.0.0.1")), [tail jump; ["ACCEPT"]], Green).
Proof. by vm_compute. Qed.

(** A chain that was closed is open once a later run is refused its last rule. *)
Example reopened_ex : forall k, last (applyOllamaFirewall (exec willing) url "" bare) = Some k ->
  after (applyOllamaFirewall (exec no_drop) url "" k.1) =
  Some (Some [["-s"; "10.0.0.1"; "-j"; "ACCEPT"]; ["-i"; "lo"; "-j"; "ACCEPT"]], [tail jump; ["ACCEPT"]], Red).
Proof. intros k [= <-]. by vm_compute. Qed.

Lemma green_means_closed_witness : exists s, (firewallAuditCheck s.2 = Green) /\
  tail jump ∈ input "iptables" s.1 /\
  exists rules, chain "iptables" s.1 = Some rules /\
    packetVerdict String.eqb rules {| pk_src := "10.0.0.9"; pk_iface := "eth0" |} = Dropped.
Proof.
  destruct (last (applyOllamaFirewall (exec willing) url "" bare)) as [[k s]|] eqn:E; [|done].
  exists (k, s). apply last_Some in E as [l E].
  assert (firewallAuditCheck s = Green) as Hg.
  { assert (last (applyOllamaFirewall (exec willing) url "" bare) = Some (k, s)) as El by (rewrite E; apply last_snoc).
    injection El as <- <-. done. }
  destruct (green_means_closed (exec willing) chain input url "" bare k s String.eqb
    {| pk_src := "10.0.0.9"; pk_iface := "eth0" |}) as [H _].
  { rewrite E, elem_of_app. right. left. }
  destruct (H Hg) as (host & rules4 & rules6 & [= <-] & _ & Hj & _ & Hc & _ & _ & _ & Hv & _).
  exact (conj Hg (conj Hj (ex_intro _ rules4 (conj Hc Hv)))).
Defined.

Lemma applyFamily_spec_witness :
  chain "iptables" (applyFamily (exec willing) (familySteps "iptables" (Some "10.0.0.1")) bare).1 =
  Some (rulesOf (Some "10.0.0.1")).
Proof. exact (proj1 (applyFamily_spec (exec willing) chain input "iptables" (Some "10.0.0.1") bare)). Defined.

Lemma steps_words_witness : str_all host_char "DGX_AGENT_OLLAMA" = true.
Proof.
  apply (steps_words "10.0.0.1" (familySteps "iptables" (Some "10.0.0.1") ++ familySteps "ip6tables" None)
    (Tolerate ["iptables"; "-N"; CHAIN]) CHAIN eq_refl); [left|do 2 right; left].
Defined.

End Table.
