(* ===== verification/Updater.v ===== *)
(** How an agent replaces itself ([agent/updater.ts], [agent/update-launch.ts], the
    [cmd:update] case and the [open] handler of [agent/index.ts]).

    The disk is the four directories under [/opt]; a shell command is refused, is done, or
    is done and still throws (it timed out).  The updater is a process: restarting the
    agent's unit may end it.  The clock, the marker's time and the bundle are arguments. *)
From S2P Require Import Prelude JsNum.

(** [!!argv1 && basename(argv1).startsWith("dgx-updater-")] *)
Definition isUpdaterEntrypoint (argv1 : option string) : bool :=
  match truthy argv1 with
  | None => false
  | Some p =>
      let name := default "" (last (List.filter (fun s => negb (String.eqb s "")) (str_split "/" p))) in
      String.prefix "dgx-updater-" name
  end.

Inductive VerifyResult := VerifyOk | VerifyBad (reason : string) | VerifyThrows.

(** [pkg]: what [JSON.parse] makes of the file, [None] when it cannot be read or parsed;
    [null] has no property. *)
Definition verifyExtractedBundle (pkg : jtext) (version : string) : VerifyResult :=
  match pkg with
  | None => VerifyBad "package.json unreadable"
  | Some JNull => VerifyThrows
  | Some v => if bool_decide (jstr (jget (Some v) "version") = Some version) then VerifyOk
              else VerifyBad "version mismatch"
  end.

Definition healthCheckPasses (markerMtimeMs : option Z) (restartMs : Z) : bool :=
  match markerMtimeMs with Some t => (restartMs <=? t)%Z | None => false end.

(** ** The disk and the shell *)

(** A directory: whose agent it is, and what was moved into it. *)
Record dir := Dir { agent : string; inside : list string }.

Inductive answer := Done | Refused | DoneThrew.

Inductive outcome := Success | FailedUpdate | RolledBack | RollbackFailed.
#[export] Instance outcome_eq_dec : EqDecision outcome.
Proof. solve_decision. Defined.

Record st := St {
  cur : option dir; old : option dir; new_ : option dir; failed : option dir;
  running : option string;              (* the agent the unit last started *)
  results : list outcome;               (* [update-result.json], as written *)
  answers : list answer }.              (* for the commands to come; [Done] after the last *)

Inductive place := Cur | Old | New | FailedDir.
#[export] Instance place_eq_dec : EqDecision place.
Proof. solve_decision. Defined.

Definition at_ (p : place) (s : st) : option dir :=
  match p with Cur => cur s | Old => old s | New => new_ s | FailedDir => failed s end.
Definition put (p : place) (d : option dir) (s : st) : st :=
  let 'St c o n f r w a := s in
  match p with
  | Cur => St d o n f r w a | Old => St c d n f r w a
  | New => St c o d f r w a | FailedDir => St c o n d r w a
  end.
Definition set_running (r : option string) (s : st) : st :=
  St (cur s) (old s) (new_ s) (failed s) r (results s) (answers s).
Definition set_results (w : list outcome) (s : st) : st :=
  St (cur s) (old s) (new_ s) (failed s) (running s) w (answers s).
Definition set_answers (a : list answer) (s : st) : st :=
  St (cur s) (old s) (new_ s) (failed s) (running s) (results s) a.

(** [Killed]: the process ended; [Waiting]: it is still polling when the fuel is used up. *)
Inductive exit (A : Type) := Ret (a : A) | Throw | Killed | Waiting.
Arguments Ret {A} a.
Arguments Throw {A}.
Arguments Killed {A}.
Arguments Waiting {A}.

Definition M (A : Type) := st -> exit A * st.
#[export] Instance M_ret : MRet M := fun A a s => (Ret a, s).
#[export] Instance M_bind : MBind M := fun A B f m s =>
  match m s with (Ret a, s') => f a s' | (Throw, s') => (Throw, s') | (Killed, s') => (Killed, s')
            | (Waiting, s') => (Waiting, s') end.
Definition catch {A} (m : M A) (h : M A) : M A := fun s =>
  match m s with (Throw, s') => h s' | r => r end.
Definition throw {A} : M A := fun s => (Throw, s).

(** A command with its effect, [None] when it fails by itself. *)
Definition shell (effect : st -> option st) : M () := fun s =>
  let s0 := set_answers (tail (answers s)) s in
  match default Done (head (answers s)) with
  | Refused => (Throw, s0)
  | Done => match effect s0 with Some s' => (Ret (), s') | None => (Throw, s0) end
  | DoneThrew => (Throw, default s0 (effect s0))
  end.

Definition rm (p : place) : M () := shell (fun s => Some (put p None s)).

(** [mv a b]: into [b] when that directory exists. *)
Definition moved (a b : place) (s : st) : option st :=
  d ← at_ a s;
  Some (put a None (put b (Some match at_ b s with
                                | None => d
                                | Some e => Dir (agent e) (inside e ++ [agent d]) end) s)).
Definition mv (a b : place) : M () := shell (moved a b).

Definition restarted (s : st) : option st := Some (set_running (agent <$> cur s) s).

(** [sudo systemctl restart dgx-agent]: what is in [/opt/dgx-agent] runs; unless the
    updater [survives] the restart of the unit, it ends here. *)
Definition restart (survives : bool) : M () := fun s =>
  let r := shell restarted s in
  match default Done (head (answers s)) with
  | Refused => r
  | _ => if survives then r else (Killed, r.2)
  end.

Definition atomicSwap : M () :=
  _ ← rm Old;
  _ ← mv Cur Old;
  catch (mv New Cur) (_ ← catch (mv Old Cur) (mret ()); throw).

Definition atomicRollback (survives : bool) : M () :=
  _ ← rm FailedDir;
  _ ← mv Cur FailedDir;
  _ ← mv Old Cur;
  restart survives.

Definition writeResult (o : outcome) : M () := fun s => (Ret (), set_results (results s ++ [o]) s).

Definition HEALTH_WINDOW_MS : Z := 90000.

Section Update.
(** [nows k], [markers k]: the clock at the [k]-th look after the restart and the marker's
    time at the poll after it; [bundle]: the agent in the bundle and its [package.json]. *)
Context (survives : bool) (nows : nat -> Z) (markers : nat -> option Z)
  (bundle : string) (pkg : jtext) (version : string).

(** The [while] from its [k]-th look: whether the new agent was seen. *)
Fixpoint awaitConnected (fuel : nat) (restartMs : Z) (k : nat) : option bool :=
  match fuel with
  | O => None
  | S fuel =>
      if (HEALTH_WINDOW_MS <=? nows k - restartMs)%Z then Some false
      else if healthCheckPasses (markers k) restartMs then Some true
      else awaitConnected fuel restartMs (S k)
  end.

(** [download] and [preserveNodeId] touch none of the four directories; the latter runs its
    command only when there is an id to keep, and otherwise cannot fail. *)
Definition download : M () := shell Some.
Definition extract : M () := _ ← shell (fun s => Some (put New (Some (Dir "" [])) s));
                             shell (fun s => Some (put New (Some (Dir bundle [])) s)).
Definition preserveNodeId : M () := shell Some.

(** The end of an update whose new agent did not connect, and of one that threw after the
    swap. *)
Definition rollBack : M () :=
  catch (_ ← atomicRollback survives; writeResult RolledBack) (writeResult RollbackFailed).

(** The [try] up to the swap: [true] once swapped, [false] when the bundle was refused. *)
Definition installNew : M bool :=
  _ ← download;
  _ ← extract;
  match verifyExtractedBundle pkg version with
  | VerifyThrows => throw
  | VerifyBad _ => _ ← writeResult FailedUpdate; mret false
  | VerifyOk => _ ← preserveNodeId; _ ← atomicSwap; mret true
  end.

(** The rest of the [try]; its own [rollback] is in a [try] of its own, so that only the
    restart can reach the outer [catch]. *)
Definition health (fuel : nat) : M () :=
  match awaitConnected fuel (nows 0) 1 with
  | Some true => writeResult Success
  | Some false => rollBack
  | None => fun s => (Waiting, s)
  end.

(** [swapped] tells the two branches of the outer [catch] apart: before the swap it reports
    a failure, after it (the restart threw) it rolls back. *)
Definition runUpdate (fuel : nat) : M () :=
  swapped ← catch installNew (_ ← writeResult FailedUpdate; mret false);
  if (swapped : bool) then
    ok ← catch (_ ← restart survives; mret true) (mret false);
    if (ok : bool) then health fuel else rollBack
  else mret ().
End Update.

(** ** Launching, and what an agent does when it connects *)

(** [/run/dgx-agent]: [None] when the agent's user may not create it, where every command
    on it fails and is ignored. *)
Record runDir := { connected : option Z; updating : bool; result_ : option outcome }.

Definition lockExists (r : option runDir) : bool := match r with Some d => updating d | None => false end.
Definition set_updating (b : bool) (d : runDir) : runDir :=
  {| connected := connected d; updating := b; result_ := result_ d |}.
Definition makeLock (r : option runDir) : option runDir := set_updating true <$> r.

(** Whether a copy of the updater was started.  [copyOk]: [cp] may throw, after the lock. *)
Definition launchUpdater (copyOk : bool) (r : option runDir) : option runDir * bool :=
  if lockExists r then (r, false) else (makeLock r, copyOk).

(** The start of the [open] handler: the marker, the lock, the report of an update. *)
Definition onOpen (now : Z) (r : option runDir) : option runDir * option outcome :=
  match r with
  | None => (None, None)
  | Some d =>
      ((Some {| connected := Some now; updating := false; result_ := None |}),
       match result_ d with Some Success | None => None | Some o => Some o end)
  end.

(** The end of the updater: [.finally(releaseLock)]. *)
Definition releaseLock (r : option runDir) : option runDir := set_updating false <$> r.
