(* ===== verification/UpdaterFacts.v ===== *)
(** The updater: the previous agent is never lost, one outcome is written, the wait ends;
    and what becomes of all this when the restart of the unit ends the updater, or when the
    marker cannot be written. *)
From S2P Require Import Prelude JsNum Updater.



(** Everything but the answers. *)
Definition same_disk (s s' : st) : Prop := s' = set_answers (answers s') s.

Lemma same_disk_refl s : same_disk s s.
Proof. by destruct s. Qed.
Lemma same_disk_trans a b c : same_disk a b -> same_disk b c -> same_disk a c.
Proof. unfold same_disk. intros -> ->. done. Qed.













Section Update.
Context (nows : nat -> Z) (markers : nat -> option Z) (bundle : string) (pkg : jtext) (version : string).

(** The clock goes on, however little. *)
Definition clock_runs : Prop := forall k, (nows k + 1 <= nows (S k))%Z.

(** The new agent is seen: at some look within the window, at a poll whose marker is no
    older than the restart. *)
Definition seen : Prop :=
  exists k, (1 <= k)%nat /\ (forall j, (1 <= j <= k)%nat -> (nows j - nows 0 < HEALTH_WINDOW_MS)%Z) /\
    healthCheckPasses (markers k) (nows 0) = true.

Lemma clock_mono : clock_runs -> forall k, (nows 0 + Z.of_nat k <= nows k)%Z.
Proof. intros H k. induction k as [|k IH]; [lia|]. specialize (H k). lia. Qed.

Lemma await_ends fuel k :
  clock_runs -> (HEALTH_WINDOW_MS < Z.of_nat k + Z.of_nat fuel)%Z -> (Z.of_nat k <= HEALTH_WINDOW_MS)%Z ->
  is_Some (awaitConnected nows markers fuel (nows 0) k).
Proof.
  intros Hc. revert k. induction fuel as [|fuel IH]; intros k Hf Hk; cbn [awaitConnected]; [lia|].
  pose proof (clock_mono Hc k). destruct (HEALTH_WINDOW_MS <=? _)%Z eqn:E; [by eexists|].
  apply Z.leb_gt in E. destruct (healthCheckPasses _ _); [by eexists|]. apply IH; lia.
Qed.

Lemma await_spec fuel k r :
  awaitConnected nows markers fuel (nows 0) k = Some r ->
  r = true <-> exists i, (k <= i)%nat /\
    (forall j, (k <= j <= i)%nat -> (nows j - nows 0 < HEALTH_WINDOW_MS)%Z) /\
    healthCheckPasses (markers i) (nows 0) = true.
Proof.
  revert k. induction fuel as [|fuel IH]; intros k; cbn [awaitConnected]; [done|].
  destruct (HEALTH_WINDOW_MS <=? nows k - nows 0)%Z eqn:E.
  { apply Z.leb_le in E. intros [= <-]. split; [done|]. intros (i & Hi & Hw & _).
    specialize (Hw k ltac:(lia)). lia. }
  apply Z.leb_gt in E. destruct (healthCheckPasses (markers k) (nows 0)) eqn:Eh.
  { intros [= <-]. split; [|done]. intros _. exists k. split; [lia|]. split; [|done].
    intros j Hj. by replace j with k by lia. }
  intros H. rewrite (IH (S k) H). split; intros (i & Hi & Hw & Hm); exists i.
  - split; [lia|]. split; [|done]. intros j Hj. destruct (decide (j = k)) as [->|]; [done|]. apply Hw. lia.
  - destruct (decide (i = k)) as [->|]; [congruence|]. split; [lia|]. split; [|done].
    intros j Hj. apply Hw. lia.
Qed.

(** Fuel for a look per millisecond of the window, and one more. *)
Definition enough (fuel : nat) : Prop := (HEALTH_WINDOW_MS <= Z.of_nat fuel)%Z.

Lemma await_enough fuel : clock_runs -> enough fuel -> is_Some (awaitConnected nows markers fuel (nows 0) 1).
Proof. unfold enough. intros Hc Hf. apply await_ends; unfold HEALTH_WINDOW_MS in *; [done|lia..]. Qed.

(** ** Up to the swap *)







(** ** The whole update *)




(** With every command done. *)
Lemma installNew_done a o n f r w :
  verifyExtractedBundle pkg version = VerifyOk ->
  installNew bundle pkg version (St (Some a) o n f r w []) =
  (Ret true, St (Some (Dir bundle [])) (Some a) None f r w []).
Proof. intros Hv. unfold installNew, mbind, M_bind, catch. cbn. rewrite Hv. reflexivity. Qed.

Lemma rollBack_done a b n f r w :
  rollBack true (St (Some b) (Some a) n f r w []) =
  (Ret (), St (Some a) None n (Some b) (Some (agent a)) (w ++ [RolledBack]) []).
Proof. reflexivity. Qed.

Lemma runUpdate_done survives fuel a o n f r w :
  verifyExtractedBundle pkg version = VerifyOk ->
  runUpdate survives nows markers bundle pkg version fuel (St (Some a) o n f r w []) =
  (let s2 := St (Some (Dir bundle [])) (Some a) None f (Some bundle) w [] in
   if survives then health survives nows markers fuel s2 else (Killed, s2)).
Proof.
  intros Hv. unfold runUpdate. unfold mbind at 1, M_bind at 1. unfold catch at 1.
  rewrite installNew_done by done. cbn match. by destruct survives.
Qed.

(** An updater that the restart ends checks nothing.  When restarting the agent's unit
    ends the updater too, as it does for a process of the unit's control group, then with
    every command done the new agent is left running, no outcome is written and nothing is
    rolled back, whatever the marker says: the health check and the rollback do not exist. *)
Theorem killed_updater_checks_nothing fuel s a :
  answers s = [] -> cur s = Some a -> verifyExtractedBundle pkg version = VerifyOk ->
  exists s', runUpdate false nows markers bundle pkg version fuel s = (Killed, s') /\
    results s' = results s /\ cur s' = Some (Dir bundle []) /\ running s' = Some bundle /\ old s' = Some a.
Proof.
  intros Ha Hc Hv. destruct s as [c o n f r w an]. cbn in Ha, Hc. subst.
  rewrite runUpdate_done by done. by eexists.
Qed.

(** An agent that connected before the clock was read is rolled back.  With every
    command done, the outcome is success exactly when some poll within the window finds a
    marker no older than the time read after the restart returned; an agent that connected
    while the restart was returning, or one that may not write the marker at all, is
    replaced by the old one after ninety seconds, healthy as it is. *)
Theorem unseen_agent_is_rolled_back fuel s a :
  clock_runs -> enough fuel -> answers s = [] -> cur s = Some a ->
  verifyExtractedBundle pkg version = VerifyOk ->
  exists s' o, runUpdate true nows markers bundle pkg version fuel s = (Ret (), s') /\
    results s' = results s ++ [o] /\
    (seen /\ o = Success /\ running s' = Some bundle \/
     ~ seen /\ o = RolledBack /\ running s' = Some (agent a) /\ cur s' = Some a).
Proof.
  intros Hclock Hfuel Ha Hc Hv. destruct s as [c o n f r w an]. cbn in Ha, Hc. subst.
  rewrite runUpdate_done by done. cbv zeta match. unfold health.
  destruct (await_enough fuel Hclock Hfuel) as [[] Er]; rewrite Er; pose proof (await_spec fuel 1 _ Er) as Hs.
  - eexists _, Success. split; [reflexivity|]. split; [done|]. left. split; [by apply Hs|done].
  - rewrite rollBack_done. eexists _, RolledBack. split; [reflexivity|]. split; [done|]. right.
    split; [|done]. intros H. by apply Hs in H.
Qed.

End Update.

(** ** The lock *)

(** What the lock locks.  While the directory of the lock can be written, a launch is
    refused from one launch on until the updater ends or an agent connects, and a copy that
    failed holds the lock all the same.  But every connection of an agent takes the lock
    away, so that a connection lost and found again during a download lets a second updater
    start beside the first; and when the directory cannot be created, every order starts
    one. *)
Theorem update_lock_spec :
  (forall c c' d, (launchUpdater c' (launchUpdater c (Some d)).1).2 = false) /\
  (forall c d, (launchUpdater c (releaseLock (Some d))).2 = c) /\
  (forall c c' now d, (launchUpdater c' (onOpen now (launchUpdater c (Some d)).1).1).2 = c') /\
  (forall c, launchUpdater c None = (None, c)).
Proof.
  split; [|split; [done|split; [|done]]].
  - intros c c' d. unfold launchUpdater. cbn. by destruct (updating d) eqn:E; cbn; rewrite ?E.
  - intros c c' now d. unfold launchUpdater. cbn. by destruct (updating d).
Qed.

(** An outcome is reported once, at the first connection after it was written, unless it is
    a success. *)
Lemma onOpen_reports now later d :
  (onOpen now (Some d)).2 = match result_ d with Some Success => None | r => r end /\
  (onOpen later (onOpen now (Some d)).1).2 = None.
Proof. cbn. by destruct (result_ d) as [[]|]. Qed.

(** ** Examples *)
Module Examples.

Definition a0 : dir := Dir "1.0" [].
Definition start (an : list answer) : st := St (Some a0) None None None (Some "1.0") [] an.
Definition pkg2 : jtext := Some (JObj [("version", JStr "2.0")]).
Definition nows (k : nat) : Z := 3000 * Z.of_nat k.
Definition quick (k : nat) : option Z := if (2 <=? k)%nat then Some 4000%Z else None.
Definition never (_ : nat) : option Z := None.

Example success_ex : runUpdate true nows quick "2.0" pkg2 "2.0" 100 (start []) =
  (Ret (), St (Some (Dir "2.0" [])) (Some a0) None None (Some "2.0") [Success] []).
Proof. by vm_compute. Qed.

(** The second move is refused: the agent stays. *)
Example refused_ex : runUpdate true nows quick "2.0" pkg2 "2.0" 100
    (start [Done; Done; Done; Done; Done; Done; Refused; Done]) =
  (Ret (), St (Some a0) None (Some (Dir "2.0" [])) None (Some "1.0") [FailedUpdate] []).
Proof. by vm_compute. Qed.

(** Both are refused: the node is left without an agent on disk, reported as failed. *)
Example double_ex : runUpdate true nows quick "2.0" pkg2 "2.0" 100
    (start [Done; Done; Done; Done; Done; Done; Refused; Refused]) =
  (Ret (), St None (Some a0) (Some (Dir "2.0" [])) None (Some "1.0") [FailedUpdate] []).
Proof. by vm_compute. Qed.

(** The move to [-old] is done but times out: no restore is tried. *)
Example timed_out_ex : runUpdate true nows quick "2.0" pkg2 "2.0" 100
    (start [Done; Done; Done; Done; Done; DoneThrew]) =
  (Ret (), St None (Some a0) (Some (Dir "2.0" [])) None (Some "1.0") [FailedUpdate] []).
Proof. by vm_compute. Qed.

(** A refused restart at the end of a rollback is reported as a failed rollback, though the
    agent is back in place. *)
Example rollback_restart_ex : runUpdate true nows never "2.0" pkg2 "2.0" 100
    (start (replicate 8 Done ++ [Done; Done; Done; Refused])) =
  (Ret (), St (Some a0) None None (Some (Dir "2.0" [])) (Some "2.0") [RollbackFailed] []).
Proof. by vm_compute. Qed.

Lemma clock : clock_runs nows.
Proof. intros k. unfold nows. lia. Qed.

Definition fuel : nat := Z.to_nat HEALTH_WINDOW_MS.
Lemma fuel_enough : enough fuel.
Proof. unfold enough, fuel. rewrite Z2Nat.id; unfold HEALTH_WINDOW_MS; lia. Qed.

(** The move of the new agent into place is done but times out: the old one is put back into
    the new one's directory, and the update is reported as failed. *)
Example swallowed_ex : runUpdate true nows quick "2.0" pkg2 "2.0" 100
    (start [Done; Done; Done; Done; Done; Done; DoneThrew]) =
  (Ret (), St (Some (Dir "2.0" ["1.0"])) None None None (Some "1.0") [FailedUpdate] []).
Proof. by vm_compute. Qed.


Lemma killed_updater_checks_nothing_witness : exists s', results s' = [] /\ running s' = Some "2.0".
Proof.
  destruct (killed_updater_checks_nothing nows never "2.0" pkg2 "2.0" 1 (start []) a0 eq_refl eq_refl)
    as (s' & _ & H1 & _ & H2 & _); [by vm_compute|]. exact (ex_intro _ s' (conj H1 H2)).
Defined.

Lemma unseen_agent_is_rolled_back_witness : exists s' o,
  results s' = [] ++ [o] /\ (seen nows never /\ o = Success \/ o = RolledBack).
Proof.
  destruct (unseen_agent_is_rolled_back nows never "2.0" pkg2 "2.0" fuel (start []) a0 clock fuel_enough eq_refl eq_refl)
    as (s' & o & _ & H1 & H2); [by vm_compute|]. exists s', o. split; [exact H1|].
  destruct H2 as [(H & Ho & _)|(_ & Ho & _)]; [left; exact (conj H Ho)|right; exact Ho].
Defined.

End Examples.
