(* ===== verification/TrainRecipes.v ===== *)
(** The training recipes an agent offers ([agent/training-recipes.ts]) and the templates a
    fine-tuned model is served from ([agent/runtime/inference-template.ts]).

    File names and texts are arguments; a recipe is the JSON object the parser makes. *)
From S2P Require Import Prelude JsNum Recipes.
Import Lines.

Definition word_char (c : ascii) : bool := is_alnum c || Ascii.eqb c "_".
Definition key_start (c : ascii) : bool := is_upper c || is_lower c || Ascii.eqb c "_".
Definition has_eol (s : string) : bool := negb (str_all (fun c => negb (is_eol c)) s).

Module Yaml.

(** [rawLine.replace(/#.*$/, "")]: the dot stops at a line terminator, so that a sharp
    before a carriage return is kept. *)
Fixpoint strip_comment (s : string) : string :=
  match s with
  | EmptyString => EmptyString
  | String c r => if Ascii.eqb c "#" && negb (has_eol r) then EmptyString else String c (strip_comment r)
  end.

(** The pattern of both kinds of entry, a word, a colon and the rest of the line: the key
    and what follows the colon and its white space. *)
Definition entry (s : string) : option (string * string) :=
  match s with
  | String c _ =>
      if key_start c then
        let k := take_while word_char s in
        match skip is_ws (skip word_char s) with
        | String ":" r => let v := skip is_ws r in if has_eol v then None else Some (k, v)
        | _ => None
        end
      else None
  | EmptyString => None
  end.

Definition quoted_by (q : ascii) (s : string) : bool :=
  String.prefix (String q "") s && str_ends_with (String q "") s.

(** [s.slice(1, -1)] *)
Definition slice1 (s : string) : string := str_take (String.length s - 2) (str_drop 1 s).

(** [/^-?\d+$/] and [/^-?\d+\.\d+$/], with their values. *)
Definition unsigned (s : string) : option json :=
  let '(i, ni, r) := digits 10 0 0 s in
  if (ni =? 0)%nat then None
  else match r with
  | EmptyString => Some (JNum (zn i))
  | String "." t =>
      let '(f, nf, r') := digits 10 0 0 t in
      if (nf =? 0)%nat || negb (String.eqb r' "") then None
      else Some (JNum (Fin (Qplus (inject_Z i) (Qmult (inject_Z f) (q_pow10 (- Z.of_nat nf))))))
  | _ => None
  end.

Definition negate (v : json) : json := match v with JNum n => JNum (num_mul (zn (-1)) n) | _ => v end.

Definition number (s : string) : option json :=
  match s with String "-" r => negate <$> unsigned r | _ => unsigned s end.

Definition parseValue (s : string) : json :=
  let trimmed := str_trim s in
  if String.eqb trimmed "true" then JBool true
  else if String.eqb trimmed "false" then JBool false
  else if String.eqb trimmed "{}" then JObj []
  else match number trimmed with
  | Some n => n
  | None => if quoted_by dq trimmed || quoted_by sq trimmed then JStr (slice1 trimmed) else JStr trimmed
  end.

(** [result], and the key whose map is [currentMap]; that map is the object in [result]. *)
Definition acc := (list (string * json) * option string)%type.

Definition nestedOf (result : list (string * json)) (k : string) : list (string * json) :=
  match obj_get result k with Some (JObj m) => m | _ => [] end.

(** An indented entry of the current map. *)
Definition nestedEntry (line : string) (cur : option string) : option (string * (string * string)) :=
  if (2 <=? String.length line - String.length (trim_left line))%nat
  then k0 ← cur; kv ← entry (str_trim line); Some (k0, kv) else None.

Definition parseLine (st : acc) (rawLine : string) : acc :=
  let line := trim_right (strip_comment rawLine) in
  if String.eqb (str_trim line) "" then st
  else match nestedEntry line st.2 with
  | Some (k0, (k, v)) => (obj_set st.1 k0 (JObj (obj_set (nestedOf st.1 k0) k (parseValue v))), st.2)
  | None =>
      match entry line with
      | None => st
      | Some (k, v) =>
          let val := str_trim v in
          if String.eqb val "|" || String.eqb val ">" then (st.1, None)
          else if String.eqb val "" then (obj_set st.1 k (JObj []), Some k)
          else if String.eqb val "{}" then (obj_set st.1 k (JObj []), None)
          else (obj_set st.1 k (parseValue val), None)
      end
  end.

Definition parseRecipeYaml (text : string) : list (string * json) :=
  (foldl parseLine ([], None) (str_split nl text)).1.

End Yaml.

Module Template.

Definition MERGED_PATH_PLACEHOLDER : string := "{{MERGED_MODEL_PATH}}".

(** [s.split(pat).join(v)], for a pattern that is not empty. *)
Fixpoint replaceAll (fuel : nat) (pat v s : string) : string :=
  match fuel with
  | O => s
  | S fuel =>
      match strip_prefix pat s with
      | Some r => v +:+ replaceAll fuel pat v r
      | None => match s with String c r => String c (replaceAll fuel pat v r) | EmptyString => EmptyString end
      end
  end.

(** [/^ {2}served_model_name:\s*\S/m] *)
Definition servedAt (s : string) : option () :=
  r ← strip_prefix "  served_model_name:" s;
  match skip is_ws r with EmptyString => None | _ => Some () end.

Definition hasServedName (s : string) : bool := bool_decide (is_Some (exec_lines servedAt s)).

(** What follows the last newline of the white space [s] starts with. *)
Fixpoint after_last_nl (best : option string) (s : string) : option string :=
  match s with
  | String c r => if is_ws c then after_last_nl (if Ascii.eqb c nl then Some r else best) r else best
  | EmptyString => best
  end.

(** [/^defaults:\s*\n/m] at a line start: what follows the match. *)
Definition defaultsAt (s : string) : option string :=
  r ← strip_prefix "defaults:" s; after_last_nl None r.

(** The text before the first line that matches, and what follows the match.  [here]: at a
    line start. *)
Fixpoint splitDefaults (here : bool) (s : string) : option (string * string) :=
  match (if here then defaultsAt s else None) with
  | Some rest => Some ("", rest)
  | None => match s with
            | EmptyString => None
            | String c r => '(pre, rest) ← splitDefaults (is_eol c) r; Some (String c pre, rest)
            end
  end.

(** The patterns [String.replace] expands in its second argument: [$$], [$&], and the text
    before and after the match. *)
Fixpoint expand (pre matched rest s : string) : string :=
  match s with
  | String "$" (String d r) =>
      if Ascii.eqb d "$" then String "$" (expand pre matched rest r)
      else if Ascii.eqb d "&" then matched +:+ expand pre matched rest r
      else if Ascii.eqb d "`" then pre +:+ expand pre matched rest r
      else if Ascii.eqb d sq then rest +:+ expand pre matched rest r
      else String "$" (String d (expand pre matched rest r))
  | String c r => String c (expand pre matched rest r)
  | EmptyString => EmptyString
  end.

Definition served_line (name : string) : string :=
  "defaults:" +:+ String nl ("  served_model_name: " +:+ name +:+ String nl "").

(** [None]: the throw. *)
Definition applyFinetuneSubstitutions (yaml modelPath servedModelName : string) : option string :=
  let out := replaceAll (S (String.length yaml)) MERGED_PATH_PLACEHOLDER modelPath yaml in
  if hasServedName out then Some out
  else
    '(pre, rest) ← splitDefaults true out;
    let matched := str_take (String.length out - String.length pre - String.length rest)
                            (str_drop (String.length pre) out) in
    Some (pre +:+ expand pre matched rest (served_line servedModelName) +:+ rest).

(** ** Variants *)

Definition slug_char (c : ascii) : bool := is_lower c || is_digit c || Ascii.eqb c "-".
(** [[a-z0-9][a-z0-9-]*] *)
Definition is_slug (s : string) : bool :=
  match s with String c _ => (is_lower c || is_digit c) && str_all slug_char s | EmptyString => false end.

Definition inferenceVariantIdFromFilename (filename : string) : option string :=
  if String.eqb filename "inference.yaml" then Some "default"
  else
    r ← strip_prefix "inference-" filename;
    if str_ends_with ".yaml" r then
      let id := strip_suffix ".yaml" r in if is_slug id then Some id else None
    else None.

Definition inferenceFilenameForId (id : string) : string :=
  if String.eqb id "default" || String.eqb id "bf16" then "inference.yaml"
  else "inference-" +:+ id +:+ ".yaml".

Record InferenceVariant := {
  iv_id : string; iv_filename : string; iv_name : string; iv_description : option string }.

Definition stripYamlQuotes (v : string) : string :=
  if Yaml.quoted_by dq v || Yaml.quoted_by sq v then Yaml.slice1 v else v.

(** The last character of white space that is not a line terminator. *)
Fixpoint last_blank (best : option string) (s : string) : option string :=
  match s with
  | String c r => last_blank (if is_eol c then best else Some (String c "")) r
  | EmptyString => best
  end.

(** [/^key:\s*(.+?)\s*$/m] at a line start: the rest of the first line that is not blank,
    on that line or later; with nothing but white space left, its last blank. *)
Definition fieldAt (key s : string) : option string :=
  r ← strip_prefix (key +:+ ":") s;
  match skip is_ws r with
  | EmptyString => last_blank None r
  | v => Some (trim_right (take_while (fun c => negb (is_eol c)) v))
  end.

(** What sorts before what, by the sign of the comparator. *)
Definition variant_lt (a b : InferenceVariant) : bool :=
  if String.eqb (iv_id a) "default" then true
  else if String.eqb (iv_id b) "default" then false
  else str_lt (iv_id a) (iv_id b).

(** [readFile]: [None] when the file cannot be read. *)
Definition readVariant (readFile : string -> option string) (filename : string) : option InferenceVariant :=
  id ← inferenceVariantIdFromFilename filename;
  let text := default "" (readFile filename) in
  Some {| iv_id := id; iv_filename := filename;
          iv_name := match exec_lines (fieldAt "name") text with Some v => stripYamlQuotes v | None => id end;
          iv_description := stripYamlQuotes <$> exec_lines (fieldAt "description") text |}.

Definition listInferenceVariants (readDir : option (list string)) (readFile : string -> option string) :
    list InferenceVariant :=
  match readDir with
  | None => []
  | Some entries => js_sort (fun a b => negb (variant_lt b a)) (omap (readVariant readFile) entries)
  end.

(** [dir]: the files there; the name of the template. *)
Definition findInferenceTemplate (dir : list string) (variant : string) : option string :=
  let f := inferenceFilenameForId variant in if mem_str f dir then Some f else None.

Definition renderSparkrunFinetuneRecipe (mergedModelPath servedModelName container : string)
    (maxModelLen gpuMem : option num) : string :=
  str_join (String nl "")
    ["model: " +:+ mergedModelPath; "runtime: vllm"; "container: " +:+ container; "defaults:";
     "  port: 8000"; "  host: 0.0.0.0"; "  tensor_parallel: 1";
     "  gpu_memory_utilization: " +:+ num_str (default (Fin (85 # 100)) gpuMem);
     "  max_model_len: " +:+ num_str (default (zn 4096) maxModelLen);
     "  served_model_name: " +:+ servedModelName; "command: |";
     "  vllm serve " +:+ mergedModelPath +:+ " --host {host} --port {port} " +:+ String bs "";
     "    --max-model-len {max_model_len} --gpu-memory-utilization {gpu_memory_utilization} " +:+ String bs "";
     "    -tp {tensor_parallel} --served-model-name {served_model_name} " +:+ String bs "";
     "    --enable-auto-tool-choice --tool-call-parser qwen3_xml --reasoning-parser qwen3 --dtype auto"; ""].

(** The part of [cmd:finetune:deploy] that makes the recipe: the template of the variant if
    the recipe ships one, else a synthesised one; [None] when it throws, which is reported
    as a failed deployment.  [template f]: the text of the template [f], [None] when reading
    it throws. *)
Definition deployRecipe (dir : option (list string)) (template : string -> option string)
    (artifactVariant : option string) (modelPath servedModelName : string) (deployContainer : option string)
    (maxModelLen gpuMem : num) : option string :=
  match (d ← dir; findInferenceTemplate d (default "bf16" artifactVariant)) with
  | Some f => raw ← template f; applyFinetuneSubstitutions raw modelPath servedModelName
  | None => Some (renderSparkrunFinetuneRecipe modelPath servedModelName (js_or deployContainer "vllm-node")
                    (Some maxModelLen) (Some gpuMem))
  end.

End Template.

Module Discover.

Record TrainingRecipe := {
  tr_file : string; tr_fields : list (string * json); tr_container : list (string * json);
  tr_scripts : list (string * json); tr_defaults : json; tr_hardware : list (string * json);
  tr_deploy : option (list (string * json)); tr_variants : list Template.InferenceVariant }.

(** [o[k] || d], and [o[k]]; a property of what is no object is [undefined]. *)
Definition or_ (o : option json) (k : string) (d : json) : string * json := (k, default d (jor (jget o k) (Some d))).
Definition own (o : option json) (k : string) : list (string * json) :=
  match jget o k with Some v => [(k, v)] | None => [] end.

(** [(parsed[k] as Record) || {}] *)
Definition sub (parsed : list (string * json)) (k : string) : json :=
  default (JObj []) (jor (obj_get parsed k) (Some (JObj []))).

Definition discoverOne (name : string) (parsed : list (string * json)) (variants : list Template.InferenceVariant) :
    TrainingRecipe :=
  let p := Some (JObj parsed) in
  let container := Some (sub parsed "container") in
  let scripts := Some (sub parsed "scripts") in
  let hardware := Some (sub parsed "hardware") in
  {| tr_file := "recipes/" +:+ name;
     tr_fields := [or_ p "name" (JStr name)] ++ own p "description" ++
       [or_ p "base_model" (JStr ""); or_ p "framework" (JStr "deepspeed"); or_ p "method" (JStr "lora")] ++
       own p "dataset_format";
     tr_container := [or_ container "image" (JStr ""); or_ container "name" (JStr "dgx-finetune")] ++
       own container "build_context";
     tr_scripts := [or_ scripts "entrypoint" (JStr "entrypoint.sh"); or_ scripts "train" (JStr "train.py");
       or_ scripts "launch" (JStr "launch.sh")] ++ own scripts "ds_config" ++ own scripts "merge" ++
       own scripts "quantize_fp8";
     tr_defaults := sub parsed "defaults";
     tr_hardware := [or_ hardware "min_nodes" (JNum (zn 1)); or_ hardware "gpus_per_node" (JNum (zn 1));
       or_ hardware "vram_estimate_mb" (JNum (zn 0))];
     tr_deploy := if jtruthy (obj_get parsed "deploy") then
         let d := obj_get parsed "deploy" in
         Some ([or_ d "container" (JStr "vllm-node")] ++ own d "gpu_memory_utilization" ++ own d "max_model_len")
       else None;
     tr_variants := variants |}.

(** A directory below [recipes]: its name, whether it is one, its [recipe.yaml] if there is
    one ([Some None]: it cannot be read), its files. *)
Record entry := {
  en_name : string; en_isDirectory : bool; en_yaml : option (option string);
  en_files : option (list string); en_read : string -> option string }.

(** [repo]: whether the repository is there or could be cloned; [recipesDir]: the entries
    of [recipes], if that exists. *)
Definition discoverTrainingRecipes (repo : bool) (recipesDir : option (list entry)) : list TrainingRecipe :=
  if negb repo then []
  else match recipesDir with
  | None => []
  | Some es => omap (fun e =>
      if negb (en_isDirectory e) || String.prefix "_" (en_name e) then None
      else
        raw ← en_yaml e; text ← raw;
        Some (discoverOne (en_name e) (Yaml.parseRecipeYaml text)
                (Template.listInferenceVariants (en_files e) (en_read e)))) es
  end.

End Discover.
