(* ===== verification/TrainRecipesFacts.v ===== *)
(** Training recipes: what is printed is read back, which template a variant's id finds,
    and what the substitution of a template changes. *)
From S2P Require Import Prelude JsNum Recipes AgentHealth Deployments DeploymentFacts AgentTrain AgentTrainStops TrainParse TrainFacts TrainRecipes.
Import Recipes.Lines.

(** ** Texts *)

Lemma strip_prefix_app p r : strip_prefix p (p +:+ r) = Some r.
Proof. unfold strip_prefix. by rewrite prefix_app, str_drop_app. Qed.

Lemma strip_prefix_Some p s r : strip_prefix p s = Some r -> s = p +:+ r.
Proof.
  unfold strip_prefix. destruct (String.prefix p s) eqn:E; [|done]. apply prefix_spec in E as [u ->].
  rewrite str_drop_app. by intros [= ->].
Qed.

Lemma str_take_app s t : str_take (String.length s) (s +:+ t) = s.
Proof. induction s as [|c s IH]; [by destruct t|]. rewrite app_String. cbn. by f_equal. Qed.

Lemma ends_with_app s t : str_ends_with t (s +:+ t) = true /\ strip_suffix t (s +:+ t) = s.
Proof.
  assert (str_ends_with t (s +:+ t) = true) as H.
  { unfold str_ends_with. apply bool_decide_eq_true. rewrite str_length_app.
    replace (String.length s + String.length t - String.length t)%nat with (String.length s) by lia.
    by rewrite str_drop_app. }
  split; [done|]. unfold strip_suffix. rewrite H, str_length_app.
  replace (String.length s + String.length t - String.length t)%nat with (String.length s) by lia.
  apply str_take_app.
Qed.

Lemma take_drop n s : str_take n s +:+ str_drop n s = s.
Proof. revert s. induction n as [|n IH]; intros [|c s]; try done. cbn. by rewrite app_String, IH. Qed.

Lemma ends_with_inv t s : str_ends_with t s = true -> s = strip_suffix t s +:+ t.
Proof.
  intros H. unfold strip_suffix. rewrite H. unfold str_ends_with in H. apply bool_decide_eq_true in H.
  rewrite <- (take_drop (String.length s - String.length t) s) at 1. by rewrite <- H.
Qed.

Lemma skip_app p v r : str_all p v = true -> skip p (v +:+ r) = skip p r.
Proof.
  induction v as [|c v IH]; [done|]. cbn [str_all]. intros [Hc Hv]%andb_prop. rewrite app_String. cbn [skip].
  by rewrite Hc, IH.
Qed.

Lemma skip_stop p s : stops p s = true -> skip p s = s.
Proof. destruct s as [|c s]; [done|]. cbn [skip stops]. intros H%negb_true_iff. by rewrite H. Qed.

Lemma take_while_app p v r : str_all p v = true -> stops p r = true -> take_while p (v +:+ r) = v.
Proof.
  intros Hv Hr. induction v as [|c v IH].
  - destruct r as [|c r]; [done|]. cbn [stops] in Hr. apply negb_true_iff in Hr.
    rewrite app_empty_l. cbn [take_while]. by rewrite Hr.
  - cbn [str_all] in Hv. apply andb_prop in Hv as [Hc Hv]. rewrite app_String. cbn [take_while].
    by rewrite Hc, IH.
Qed.

(** * Variants *)
Section Variants.
Import Template.

Lemma filename_inv f id :
  inferenceVariantIdFromFilename f = Some id ->
  f = "inference.yaml" /\ id = "default" \/ f = "inference-" +:+ id +:+ ".yaml" /\ is_slug id = true.
Proof.
  unfold inferenceVariantIdFromFilename. destruct (String.eqb_spec f "inference.yaml") as [->|].
  { intros [= <-]. by left. }
  destruct (strip_prefix "inference-" f) as [r|] eqn:E; [|done]. apply strip_prefix_Some in E as ->.
  cbn [mbind option_bind]. destruct (str_ends_with ".yaml" r) eqn:Es; [|done].
  destruct (is_slug (strip_suffix ".yaml" r)) eqn:Ei; [|done]. intros [= <-]. right.
  split; [|done]. by rewrite <- (ends_with_inv _ _ Es).
Qed.

(** A listed variant is the one its id finds.  Every template the listing shows, but two
    names, is found again under its id; those two, [inference-default.yaml] and
    [inference-bf16.yaml], are listed under ids that stand for [inference.yaml], so that
    choosing them serves that file, or none.  Conversely every slug but [bf16] comes back
    from the file name made for it. *)
Theorem variant_found dir readFile v :
  v ∈ listInferenceVariants (Some dir) readFile ->
  (iv_filename v <> "inference-default.yaml" -> iv_filename v <> "inference-bf16.yaml" ->
     findInferenceTemplate dir (iv_id v) = Some (iv_filename v)) /\
  (iv_filename v = "inference-default.yaml" \/ iv_filename v = "inference-bf16.yaml" ->
     findInferenceTemplate dir (iv_id v) =
     if mem_str "inference.yaml" dir then Some "inference.yaml" else None) /\
  (forall id, is_slug id = true -> id <> "bf16" ->
     inferenceVariantIdFromFilename (inferenceFilenameForId id) = Some id).
Proof.
  cbn [listInferenceVariants]. rewrite elem_of_js_sort, list_elem_of_omap. intros (f & Hf & Hr).
  unfold readVariant in Hr. destruct (inferenceVariantIdFromFilename f) as [id|] eqn:E; [|done].
  cbn [mbind option_bind] in Hr. injection Hr as <-. cbn [iv_filename iv_id].
  apply mem_str_spec in Hf as Hm. unfold findInferenceTemplate. split; [|split].
  - intros H1 H2. apply filename_inv in E as [[-> ->]|[-> Hs]]; [cbn; by rewrite Hm|].
    unfold inferenceFilenameForId. destruct (String.eqb_spec id "default") as [->|]; [by destruct H1|].
    destruct (String.eqb_spec id "bf16") as [->|]; [by destruct H2|]. cbn [orb]. by rewrite Hm.
  - intros [-> | ->]; vm_compute in E; injection E as <-; done.
  - intros i Hi Hb. unfold inferenceFilenameForId. apply String.eqb_neq in Hb. rewrite Hb.
    destruct (String.eqb_spec i "default") as [->|]; [done|]. cbn [orb].
    unfold inferenceVariantIdFromFilename.
    assert (String.eqb ("inference-" +:+ i +:+ ".yaml") "inference.yaml" = false) as ->.
    { apply String.eqb_neq. intros Heq. cbn in Heq. discriminate Heq. }
    rewrite strip_prefix_app. cbn [mbind option_bind]. destruct (ends_with_app i ".yaml") as [-> ->]. by rewrite Hi.
Qed.

(** ** The substitution *)

Lemma first_line_elem {A} (m : string -> option A) starts s :
  s ∈ starts -> is_Some (m s) -> is_Some (first_line m starts).
Proof.
  induction starts as [|x xs IH]; [by intros ?%elem_of_nil|]. cbn. intros [->|H]%elem_of_cons Hm.
  - destruct Hm as [a ->]. by eexists.
  - destruct (m x); [by eexists|by apply IH].
Qed.

Lemma line_starts_from_app a c b : is_eol c = true -> b ∈ line_starts_from (a +:+ String c b).
Proof.
  intros Hc. induction a as [|d a IH]; cbn [line_starts_from].
  - rewrite app_empty_l. cbn [line_starts_from]. rewrite Hc. left.
  - rewrite app_String. cbn [line_starts_from]. destruct (is_eol d); [right|]; exact IH.
Qed.

Lemma after_last_nl_spec best s r :
  after_last_nl best s = Some r -> best = Some r \/ exists b, s = b +:+ r /\ str_all is_ws b = true.
Proof.
  revert best. induction s as [|c s IH]; intros best; cbn [after_last_nl]; [by left|].
  destruct (is_ws c) eqn:Hc; [|by left]. intros [H|(b & -> & Hw)]%IH.
  - destruct (Ascii.eqb c nl) eqn:En; [|by left]. injection H as <-. right. exists (String c "").
    split; [done|]. cbn [str_all]. by rewrite Hc.
  - right. exists (String c b). split; [done|]. cbn [str_all]. by rewrite Hc, Hw.
Qed.

(** Where the block was found: what precedes it ends a line. *)
Lemma splitDefaults_at here s pre rest :
  splitDefaults here s = Some (pre, rest) ->
  exists m, s = pre +:+ m +:+ rest /\ (exists b, m = "defaults:" +:+ b /\ str_all is_ws b = true) /\
    ((pre = "" /\ here = true) \/ exists a c, pre = a +:+ String c "" /\ is_eol c = true).
Proof.
  revert here pre. induction s as [|c s IH]; intros here pre; cbn [splitDefaults].
  - destruct here; [|done]. unfold defaultsAt. by vm_compute.
  - destruct (if here then defaultsAt (String c s) else None) as [r|] eqn:E.
    + intros [= <- <-]. destruct here; [|done]. unfold defaultsAt in E.
      destruct (strip_prefix "defaults:" (String c s)) as [q|] eqn:Eq; [|done]. cbn [mbind option_bind] in E.
      apply strip_prefix_Some in Eq. apply after_last_nl_spec in E as [E|(b & -> & Hw)]; [done|].
      exists ("defaults:" +:+ b). rewrite app_empty_l, Eq, str_app_assoc. split; [done|].
      split; [by exists b|]. by left.
    + destruct (splitDefaults (is_eol c) s) as [[p q]|] eqn:Es; [|done]. intros [= <- <-].
      destruct (IH _ _ Es) as (m & -> & Hm & Hp). exists m. rewrite app_String. split; [done|]. split; [done|].
      right. destruct Hp as [[-> Hc]|(a & d & -> & Hd)].
      * exists "", c. done.
      * exists (String c a), d. by rewrite app_String.
Qed.

Lemma expand_plain pre m rest s : str_all (not_char "$") s = true -> expand pre m rest s = s.
Proof.
  induction s as [|c s IH]; [done|]. cbn [str_all]. intros [Hc Hs]%andb_prop. unfold not_char in Hc.
  destruct c as [[] [] [] [] [] [] [] []]; cbn [expand]; try (by rewrite IH).
Qed.

(** What a template becomes.  With every placeholder replaced by the path, a template
    that names the served model at two blanks of indent is used as it is; otherwise its
    first top-level [defaults:] line that nothing but white space follows gets the name as
    its first child, and nothing else changes but white space after that line; a template
    with neither is refused.  The name is exactly the one ordered, and the result then
    names a served model, provided it holds no dollar sign. *)
Theorem substitution_spec yaml path name :
  let out := replaceAll (S (String.length yaml)) MERGED_PATH_PLACEHOLDER path yaml in
  str_all (not_char "$") name = true -> skip is_ws name <> "" ->
  match applyFinetuneSubstitutions yaml path name with
  | Some res =>
      hasServedName res = true /\
      (res = out \/ hasServedName out = false /\ exists pre b rest,
         out = pre +:+ "defaults:" +:+ b +:+ rest /\ str_all is_ws b = true /\
         res = pre +:+ served_line name +:+ rest)
  | None => hasServedName out = false /\ splitDefaults true out = None
  end.
Proof.
  intros out Hd Hne. unfold applyFinetuneSubstitutions. fold out. destruct (hasServedName out) eqn:Eh.
  { split; [done|]. by left. }
  destruct (splitDefaults true out) as [[pre rest]|] eqn:Es; [|done]. cbn [mbind option_bind].
  destruct (splitDefaults_at _ _ _ _ Es) as (m & E & (b & -> & Hw) & Hp).
  rewrite expand_plain.
  2: { unfold served_line. rewrite !str_all_app. cbn [str_all]. rewrite !str_all_app, Hd. by vm_compute. }
  split.
  - unfold hasServedName. apply bool_decide_eq_true. unfold exec_lines.
    eapply (first_line_elem _ _ ("  served_model_name: " +:+ name +:+ String nl rest)).
    + unfold line_starts. right. unfold served_line.
      replace (pre +:+ ("defaults:" +:+ String nl ("  served_model_name: " +:+ name +:+ String nl "")) +:+ rest)
        with ((pre +:+ "defaults:") +:+ String nl ("  served_model_name: " +:+ name +:+ String nl rest)).
      * by apply line_starts_from_app.
      * rewrite !str_app_assoc, !app_String, !str_app_assoc. done.
    + unfold servedAt. change ("  served_model_name: " +:+ ?x) with ("  served_model_name:" +:+ String " " x).
      rewrite strip_prefix_app. cbn [mbind option_bind skip is_ws].
      change (is_ws " ") with true. cbn match.
      assert (skip is_ws (name +:+ String nl rest) <> "") as H.
      { clear - Hne. induction name as [|c n IH]; [done|]. rewrite app_String. cbn [skip] in *.
        destruct (is_ws c); [by apply IH|done]. }
      destruct (skip is_ws (name +:+ String nl rest)); [done|]. by eexists.
  - right. split; [done|]. exists pre, b, rest. by rewrite E, str_app_assoc.
Qed.

End Variants.

(** * Recipes are read as they are written *)
Section Yaml.
Import Yaml.

Definition ident (k : string) : Prop :=
  str_all word_char k = true /\ match k with String c _ => key_start c = true | EmptyString => False end.

Definition line_char (c : ascii) : bool := not_char "#" c && negb (is_eol c).

(** A value that needs no quotes: trimmed, on one line, without a sharp, and read as itself. *)
Definition plain_value (v : string) : Prop :=
  v <> "" /\ str_all line_char v = true /\ str_trim v = v /\ parseValue v = JStr v /\
  v ∉ ["|"; ">"; "{}"].

Inductive item := Flat (k v : string) | Map (k : string) (kvs : list (string * string)).

Definition item_key (i : item) : string := match i with Flat k _ | Map k _ => k end.
Definition item_lines (i : item) : list string :=
  match i with
  | Flat k v => [k +:+ ": " +:+ v]
  | Map k kvs => (k +:+ ":") :: map (fun kv => "  " +:+ kv.1 +:+ ": " +:+ kv.2) kvs
  end.
Definition item_value (i : item) : json :=
  match i with
  | Flat _ v => JStr v
  | Map _ kvs => JObj (map (fun kv => (kv.1, JStr kv.2)) kvs)
  end.
Definition item_ok (i : item) : Prop :=
  ident (item_key i) /\
  match i with
  | Flat _ v => plain_value v
  | Map _ kvs => NoDup kvs.*1 /\ Forall (fun kv => ident kv.1 /\ plain_value kv.2) kvs
  end.

Definition render (items : list item) : string := str_join (String nl "") (concat (map item_lines items)).

Lemma word_line c : word_char c = true -> line_char c = true /\ is_ws c = false /\ c <> ":"%char.
Proof. destruct c as [[] [] [] [] [] [] [] []]; vm_compute; done. Qed.

Lemma key_line k : str_all word_char k = true -> str_all line_char k = true.
Proof. apply str_all_impl. intros c H. by destruct (word_line c H). Qed.

Lemma strip_comment_id s : str_all line_char s = true -> strip_comment s = s.
Proof.
  induction s as [|c s IH]; [done|]. cbn [str_all strip_comment]. intros [Hc Hs]%andb_prop.
  unfold line_char, not_char in Hc. apply andb_prop in Hc as [Hc _]. apply negb_true_iff in Hc. rewrite Hc.
  cbn [andb]. by rewrite IH.
Qed.

Lemma has_eol_line s : str_all line_char s = true -> has_eol s = false.
Proof.
  intros H. unfold has_eol. apply negb_false_iff. eapply str_all_impl; [|exact H].
  intros c Hc. by apply andb_prop in Hc as [_ Hc].
Qed.

Lemma trim_right_tail a v : trim_right v = v -> v <> "" -> trim_right (a +:+ v) = a +:+ v.
Proof.
  intros Hv Hne. induction a as [|c a IH]; [done|]. rewrite app_String. cbn [trim_right]. rewrite IH.
  destruct (a +:+ v) eqn:E; [|done]. destruct a; [|done]. by destruct v.
Qed.

Lemma trimmed_ends v : str_trim v = v -> trim_right v = v /\ stops is_ws v = true.
Proof.
  intros H. assert (trim_right v = v) as Hr.
  { rewrite <- H. unfold str_trim. by rewrite trim_right_idem. }
  split; [done|]. destruct v as [|c v]; [done|]. unfold str_trim in H. cbn [trim_left] in H.
  cbn [stops]. destruct (is_ws c) eqn:Hc; [|done]. exfalso.
  assert (exists d r, trim_left v = String d r) as (d & r & E).
  { destruct (trim_left v); [done|by eexists _, _]. }
  pose proof (trim_left_head _ _ _ E) as Hd. rewrite E in H.
  apply trim_right_head in H as [r' H]. injection H as -> _. congruence.
Qed.

Lemma take_while_all p v : str_all p v = true -> take_while p v = v /\ skip p v = "".
Proof.
  intros Hv. split.
  - rewrite <- (app_empty_r v) at 1. by apply take_while_app.
  - rewrite <- (app_empty_r v). by rewrite skip_app.
Qed.

Section Entry.
Context (k : string) (Hk : ident k).

Lemma key_word : str_all word_char k = true.
Proof using Hk. apply Hk. Qed.

Lemma key_cons : exists c r, k = String c r /\ key_start c = true /\ is_ws c = false.
Proof using Hk.
  destruct Hk as [Hw Hs]. destruct k as [|c r]; [done|]. exists c, r. split; [done|]. split; [done|].
  cbn [str_all] in Hw. apply andb_prop in Hw as [Hc _]. by destruct (word_line c Hc) as (_ & ? & _).
Qed.

(** An entry with a value, and one that opens a map. *)
Lemma entry_value v : stops is_ws v = true -> str_all line_char v = true -> entry (k +:+ ": " +:+ v) = Some (k, v).
Proof using Hk.
  intros Hs Hl. destruct key_cons as (c & r & E & Hc & _). unfold entry.
  assert (exists r', k +:+ ": " +:+ v = String c r') as [r' E'] by (rewrite E; by eexists).
  rewrite E' at 1. cbn match. rewrite Hc. rewrite (take_while_app _ k (": " +:+ v)) by (by apply key_word || done).
  rewrite (skip_app _ k) by apply key_word. change (skip word_char (": " +:+ v)) with (": " +:+ v).
  change (skip is_ws (": " +:+ v)) with (String ":" (String " " v)). cbn match.
  change (skip is_ws (String " " v)) with (skip is_ws v). rewrite skip_stop by done. cbv zeta.
  by rewrite has_eol_line.
Qed.

Lemma entry_open : entry (k +:+ ":") = Some (k, "").
Proof using Hk.
  destruct key_cons as (c & r & E & Hc & _). unfold entry.
  assert (exists r', k +:+ ":" = String c r') as [r' E'] by (rewrite E; by eexists).
  rewrite E' at 1. cbn match. rewrite Hc. rewrite (take_while_app _ k ":") by (by apply key_word || done).
  by rewrite (skip_app _ k) by apply key_word.
Qed.

Lemma line_start t : trim_left (k +:+ t) = k +:+ t /\ str_trim (k +:+ t) <> "".
Proof using Hk.
  destruct key_cons as (c & r & E & _ & Hw). subst k. rewrite app_String.
  assert (trim_left (String c (r +:+ t)) = String c (r +:+ t)) as H by (cbn [trim_left]; by rewrite Hw).
  split; [done|]. unfold str_trim. rewrite H. cbn [trim_right]. destruct (trim_right (r +:+ t)); [by rewrite Hw|done].
Qed.

Lemma not_nested t cur : nestedEntry (k +:+ t) cur = None.
Proof using Hk. unfold nestedEntry. destruct (line_start t) as [-> _]. by rewrite Nat.sub_diag. Qed.

Lemma parseLine_flat st v : plain_value v -> parseLine st (k +:+ ": " +:+ v) = (obj_set st.1 k (JStr v), None).
Proof using Hk.
  intros (Hne & Hl & Ht & Hp & Hn). destruct (trimmed_ends v Ht) as [Hr Hs]. unfold parseLine.
  assert (str_all line_char (k +:+ ": " +:+ v) = true) as Hall.
  { rewrite str_all_app, (key_line k key_word). exact Hl. }
  rewrite strip_comment_id by done.
  replace (trim_right (k +:+ ": " +:+ v)) with (k +:+ ": " +:+ v).
  2: { symmetry. rewrite <- (str_app_assoc k ": " v). by apply trim_right_tail. }
  destruct (line_start (": " +:+ v)) as [_ Hne']. apply String.eqb_neq in Hne'. rewrite Hne', not_nested.
  rewrite entry_value by done. cbv zeta match. rewrite Ht, Hp.
  assert (String.eqb v "|" = false /\ String.eqb v ">" = false /\ String.eqb v "{}" = false) as (-> & -> & ->).
  { rewrite !String.eqb_neq. rewrite !not_elem_of_cons in Hn. tauto. }
  apply String.eqb_neq in Hne. by rewrite Hne.
Qed.

Lemma parseLine_open st : parseLine st (k +:+ ":") = (obj_set st.1 k (JObj []), Some k).
Proof using Hk.
  unfold parseLine. assert (str_all line_char (k +:+ ":") = true) as Hall.
  { by rewrite str_all_app, (key_line k key_word). }
  rewrite strip_comment_id by done.
  rewrite (trim_right_tail k ":") by done. destruct (line_start ":") as [_ Hne]. apply String.eqb_neq in Hne.
  rewrite Hne, not_nested, entry_open. done.
Qed.

Lemma parseLine_nested r k0 v :
  plain_value v ->
  parseLine (r, Some k0) ("  " +:+ k +:+ ": " +:+ v) =
  (obj_set r k0 (JObj (obj_set (nestedOf r k0) k (JStr v))), Some k0).
Proof using Hk.
  intros (Hne & Hl & Ht & Hp & Hn). destruct (trimmed_ends v Ht) as [Hr Hs].
  set (body := k +:+ ": " +:+ v). unfold parseLine.
  assert (str_all line_char body = true) as Hall.
  { subst body. rewrite str_all_app, (key_line k key_word). exact Hl. }
  assert (trim_right body = body) as Hb.
  { subst body. rewrite <- (str_app_assoc k ": " v). by apply trim_right_tail. }
  destruct (line_start (": " +:+ v)) as [Hbl Hne']. fold body in Hbl, Hne'.
  rewrite (strip_comment_id ("  " +:+ body)) by exact Hall.
  rewrite (trim_right_tail "  " body) by (done || (subst body; destruct key_cons as (? & ? & -> & _); done)).
  assert (trim_left ("  " +:+ body) = body) as Htl by exact Hbl.
  assert (str_trim ("  " +:+ body) = body) as Htt by (unfold str_trim; by rewrite Htl).
  rewrite Htt. assert (String.eqb body "" = false) as ->.
  { apply String.eqb_neq. intros E. apply Hne'. rewrite E. done. }
  unfold nestedEntry. rewrite Htl, Htt.
  assert ((2 <=? String.length ("  " +:+ body) - String.length body)%nat = true) as ->.
  { rewrite str_length_app. apply Nat.leb_le. cbn. lia. }
  subst body. rewrite entry_value by done. cbn [mbind option_bind snd fst]. by rewrite Hp.
Qed.
End Entry.

Lemma obj_set_fresh (l : list (string * json)) k v : k ∉ l.*1 -> obj_set l k v = l ++ [(k, v)].
Proof.
  unfold obj_set. induction l as [|[j w] l IH]; [done|]. cbn. rewrite not_elem_of_cons. intros [H1 H2].
  case_decide; [congruence|]. by rewrite IH.
Qed.

Lemma obj_set_last (l : list (string * json)) k v w : k ∉ l.*1 -> obj_set (l ++ [(k, v)]) k w = l ++ [(k, w)].
Proof.
  unfold obj_set. induction l as [|[j u] l IH]; cbn; [by case_decide|]. rewrite not_elem_of_cons. intros [H1 H2].
  case_decide; [congruence|]. by rewrite IH.
Qed.

Lemma obj_get_last (l : list (string * json)) k v : k ∉ l.*1 -> obj_get (l ++ [(k, v)]) k = Some v.
Proof.
  unfold obj_get. induction l as [|[j u] l IH]; cbn; [by case_decide|]. rewrite not_elem_of_cons. intros [H1 H2].
  case_decide; [congruence|]. by rewrite IH.
Qed.

Lemma parse_map_lines r k m kvs :
  k ∉ r.*1 -> NoDup (m.*1 ++ kvs.*1) -> Forall (fun kv => ident kv.1 /\ plain_value kv.2) kvs ->
  foldl parseLine (r ++ [(k, JObj m)], Some k) (map (fun kv => "  " +:+ kv.1 +:+ ": " +:+ kv.2) kvs) =
  (r ++ [(k, JObj (m ++ map (fun kv => (kv.1, JStr kv.2)) kvs))], Some k).
Proof.
  intros Hk. revert m. induction kvs as [|[a v] kvs IH]; intros m Hnd Hok; cbn [map foldl].
  - by rewrite app_nil_r.
  - apply Forall_cons in Hok as [[Ha Hv] Hok]. cbn [fst snd] in *.
    rewrite parseLine_nested by done. unfold nestedOf. rewrite obj_get_last by done.
    cbn [fmap list_fmap fst] in Hnd.
    assert (a ∉ m.*1) as Hf.
    { intros Hin. apply NoDup_app in Hnd as (_ & Hd & _). apply (Hd a Hin). left. }
    rewrite (obj_set_fresh m), obj_set_last by done. rewrite (IH (m ++ [(a, JStr v)])); [|clear IH|done].
    + by rewrite <- app_assoc.
    + rewrite fmap_app, <- app_assoc. exact Hnd.
Qed.

Lemma parse_items items r cur :
  NoDup (r.*1 ++ map item_key items) -> Forall item_ok items ->
  (foldl parseLine (r, cur) (concat (map item_lines items))).1 =
  r ++ map (fun i => (item_key i, item_value i)) items.
Proof.
  revert r cur. induction items as [|i items IH]; intros r cur Hnd Hok; cbn [map concat].
  - by rewrite app_nil_r.
  - apply Forall_cons in Hok as [[Hk Hi] Hok]. rewrite foldl_app. cbn [map] in Hnd.
    assert (item_key i ∉ r.*1) as Hf.
    { intros Hin. apply NoDup_app in Hnd as (_ & Hd & _). apply (Hd _ Hin). left. }
    assert (forall v, NoDup ((r ++ [(item_key i, v)] : list (string * json)).*1 ++ map item_key items)) as Hnd'.
    { intros v. rewrite fmap_app, <- app_assoc. exact Hnd. }
    destruct i as [k v|k kvs]; cbn [item_lines foldl item_key item_value] in *.
    + rewrite parseLine_flat by done. cbn [fst]. rewrite obj_set_fresh by done.
      rewrite IH by done. by rewrite <- app_assoc.
    + rewrite parseLine_open by done. cbn [fst]. rewrite obj_set_fresh by done.
      destruct Hi as [Hn Hkv]. rewrite (parse_map_lines r k []) by done. rewrite IH by done. by rewrite <- app_assoc.
Qed.

(** A recipe is read as it was written.  A file of top-level entries and maps one level
    deep, with distinct names and values that need no quotes, is parsed into exactly those
    entries, in their order. *)
Theorem recipe_roundtrip items :
  items <> [] -> NoDup (map item_key items) -> Forall item_ok items ->
  parseRecipeYaml (render items) = map (fun i => (item_key i, item_value i)) items.
Proof.
  intros Hne Hnd Hok. unfold parseRecipeYaml, render.
  assert (Forall (fun l => str_all line_char l = true) (concat (map item_lines items))) as Hl.
  { clear Hnd Hne. induction Hok as [|i items [Hk Hi] _ IH]; [constructor|]. cbn [map concat].
    apply Forall_app. split; [|exact IH]. destruct Hk as [Hk _]. apply key_line in Hk.
    destruct i as [k v|k kvs]; cbn [item_lines item_key] in *.
    - constructor; [|constructor]. rewrite str_all_app, Hk. by destruct Hi as (_ & ? & _).
    - constructor; [by rewrite str_all_app, Hk|]. apply Forall_map. destruct Hi as [_ Hi].
      eapply Forall_impl; [exact Hi|]. intros [a v] [[Ha _] (_ & Hv & _)]. apply key_line in Ha. cbn [fst snd] in *.
      change (str_all line_char (a +:+ ": " +:+ v) = true). by rewrite str_all_app, Ha. }
  rewrite str_split_join.
  - by apply (parse_items items [] None).
  - destruct items as [|[] items]; done.
  - eapply Forall_impl; [exact Hl|]. intros w. apply str_all_impl. intros c Hc.
    unfold line_char, is_eol in Hc. unfold not_char. apply andb_prop in Hc as [_ Hc].
    rewrite negb_orb in Hc. by apply andb_prop in Hc as [Hc _].
Qed.

End Yaml.

(** ** Examples *)
Module Examples.
Import Yaml Template.

Definition text : string := str_join (String nl "")
  ["name: Gemma LoRA   # shown"; "base_model: google/gemma"; "scripts:"; "  train: train.py"; "  steps: 10";
   "description: |"; "  a: not read"; "hardware: {}"].

Example parse_yaml_ex : parseRecipeYaml text =
  [("name", JStr "Gemma LoRA"); ("base_model", JStr "google/gemma");
   ("scripts", JObj [("train", JStr "train.py"); ("steps", JNum (zn 10))]); ("hardware", JObj [])].
Proof. by vm_compute. Qed.

(** A sharp inside quotes cuts the value; one before a carriage return is kept. *)
Example sharp_ex : parseRecipeYaml ("name: " +:+ String dq ("a #1" +:+ String dq "")) = [("name", JStr (String dq "a"))] /\
  parseRecipeYaml ("name: a # b" +:+ String (ascii_of_nat 13) "") = [("name", JStr "a # b")].
Proof. split; by vm_compute. Qed.

(** An empty [name:] takes the line after it. *)
Example empty_name_ex : exec_lines (fieldAt "name") ("name:" +:+ String nl "model: m") = Some "model: m".
Proof. by vm_compute. Qed.

Definition template : string := "model: {{MERGED_MODEL_PATH}}" +:+ String nl ("defaults:" +:+ String nl "  port: 8000").

Example subst_ex : applyFinetuneSubstitutions template "/out/merged" "mine" =
  Some ("model: /out/merged" +:+ String nl ("defaults:" +:+ String nl ("  served_model_name: mine" +:+ String nl "  port: 8000"))).
Proof. by vm_compute. Qed.

(** A dollar sign in the name: [$&] becomes the matched line. *)
Example dollar_ex : applyFinetuneSubstitutions ("defaults:" +:+ String nl "") "/o" "a$&b" =
  Some ("defaults:" +:+ String nl ("  served_model_name: adefaults:" +:+ String nl ("b" +:+ String nl ""))).
Proof. by vm_compute. Qed.

Lemma substitution_spec_witness :
  exists res, applyFinetuneSubstitutions template "/out/merged" "mine" = Some res /\ hasServedName res = true.
Proof.
  pose proof (substitution_spec template "/out/merged" "mine" eq_refl ltac:(by vm_compute)) as H.
  cbv zeta in H. destruct (applyFinetuneSubstitutions template "/out/merged" "mine") as [res|] eqn:E.
  - exists res. exact (conj eq_refl (proj1 H)).
  - vm_compute in E. discriminate E.
Defined.

Lemma variant_found_witness : findInferenceTemplate ["inference.yaml"; "inference-fp8.yaml"] "fp8" = Some "inference-fp8.yaml".
Proof.
  apply (variant_found ["inference.yaml"; "inference-fp8.yaml"] (fun _ => None)
    {| iv_id := "fp8"; iv_filename := "inference-fp8.yaml"; iv_name := "fp8"; iv_description := None |});
    [|by vm_compute..]. vm_compute. right. left.
Defined.

Definition items : list item := [Flat "name" "Gemma LoRA"; Map "scripts" [("train", "train.py")]].

Lemma recipe_roundtrip_witness : parseRecipeYaml (render items) =
  [("name", JStr "Gemma LoRA"); ("scripts", JObj [("train", JStr "train.py")])].
Proof.
  assert (plain_value "Gemma LoRA" /\ plain_value "train.py") as [H1 H2].
  { split; (split; [done|split; [by vm_compute|split; [by vm_compute|split; [by vm_compute|]]]]);
      intros H; rewrite !elem_of_cons, elem_of_nil in H; destruct_or? H; discriminate H || done. }
  apply (recipe_roundtrip items); [done| |].
  - apply NoDup_cons. split; [intros H; by apply list_elem_of_singleton in H|apply NoDup_singleton].
  - constructor; [|constructor; [|constructor]].
    + split; [by vm_compute|exact H1].
    + split; [by vm_compute|]. split; [apply NoDup_singleton|]. constructor; [|constructor].
      split; [by vm_compute|exact H2].
Defined.

End Examples.
