(* ===== verification/Sparkrun.v ===== *)
(** The sparkrun runtime of an agent ([agent/runtime/sparkrun.ts], [sparkrun-args.ts],
    [sparkrun-parse.ts], [recipes.ts] and the sparkrun cases of [agent/index.ts]): the
    command line, the listing, the cluster id found in a launcher's output, and the
    launches and stops of a node as steps over processes that end when they like.

    Progress bars, the inline recipe's file and the output of [sparkrun logs] are left
    out; [docker] and [uvx] answer as arguments.  Messages are those handed to [sendMsg],
    which drops them while the socket is not open. *)
From S2P Require Import Prelude JsNum Schema Admission Gateway Deployments Recipes Routes DeployRoute LaunchArgs AgentLaunch AgentHealth.
Import Store.

Module Args.

Record SparkrunLaunchOptions := {
  so_hosts : list string; so_tp : option Z; so_pp : option Z; so_port : option num;
  so_gpuMem : option num; so_maxModelLen : option num; so_servedModelName : option string;
  so_options : list (string * string); so_recipeName : option string }.

Definition flag (name : string) (v : option string) : list string :=
  match v with Some x => [name; x] | None => [] end.

Definition buildSparkrunArgs (recipeRef : string) (o : SparkrunLaunchOptions) : list string :=
  ["run"; recipeRef; "--no-follow"] ++
  flag "-H" (if (0 <? length (so_hosts o))%nat then Some (str_join "," (so_hosts o)) else None) ++
  flag "--tp" (Some (pretty (default (Z.of_nat (length (so_hosts o))) (so_tp o)))) ++
  flag "--pp" (pretty <$> so_pp o) ++
  flag "--port" (num_str <$> so_port o) ++
  flag "--gpu-mem" (num_str <$> so_gpuMem o) ++
  flag "--max-model-len" (num_str <$> so_maxModelLen o) ++
  flag "--served-model-name" (truthy (so_servedModelName o)) ++
  concat (map (fun kv => ["-o"; kv.1 +:+ "=" +:+ kv.2]) (so_options o)).

End Args.

Module Parse.

Definition word_char (c : ascii) : bool := is_alnum c || Ascii.eqb c "_".
Definition hex_char (c : ascii) : bool := is_digit c || in_range 97 102 c.

Fixpoint span (p : ascii -> bool) (s : string) : string * string :=
  match s with
  | String c r => if p c then let '(a, b) := span p r in (String c a, b) else (EmptyString, s)
  | EmptyString => (EmptyString, EmptyString)
  end.

Definition boundary (s : string) : bool := match s with String c _ => negb (word_char c) | EmptyString => true end.

(** [sparkrun_[0-9a-f]+\b] here. *)
Definition tokenHere (s : string) : option string :=
  r ← strip_prefix "sparkrun_" s;
  let '(h, rest) := span hex_char r in
  if negb (String.eqb h "") && boundary rest then Some ("sparkrun_" +:+ h) else None.

(** The first match of a pattern that begins at a word boundary.  [prev]: the character
    before is part of a word. *)
Fixpoint firstWord {A} (here : string -> option A) (prev : bool) (s : string) : option A :=
  match (if prev then None else here s) with
  | Some a => Some a
  | None => match s with String c r => firstWord here (word_char c) r | EmptyString => None end
  end.

Definition sparkrunToken (s : string) : option string := firstWord tokenHere false s.

Fixpoint skip_ws (s : string) : string :=
  match s with String c r => if is_ws c then skip_ws r else s | EmptyString => EmptyString end.

(** [/\bCluster\s*:/i] *)
Definition labelHere (s : string) : option () :=
  r ← strip_prefix "cluster" (str_lower s);
  match skip_ws r with String ":" _ => Some () | _ => None end.
Definition hasLabel (line : string) : bool := bool_decide (is_Some (firstWord labelHere false line)).

Fixpoint firstLabelled (lines : list string) : option string :=
  match lines with
  | [] => None
  | l :: rest =>
      match (if hasLabel l then sparkrunToken l else None) with
      | Some t => Some t
      | None => firstLabelled rest
      end
  end.

Definition parseClusterId (runOutput : string) : option string :=
  match firstLabelled (str_split nl runOutput) with
  | Some t => Some t
  | None => sparkrunToken runOutput
  end.

(** ** The listing *)

Record SparkrunRecipeSummary := {
  sp_ref : string; sp_name : string; sp_description : option json;
  sp_runtime : option json; sp_registry : option json; sp_model : option string;
  sp_minNodes : num; sp_tpDefault : option num; sp_gpuMemDefault : option num }.

Definition numOrUndef (v : option json) : option num :=
  match v with
  | None | Some JNull => None
  | Some (JStr "") => None
  | _ => let n := toNum v in if is_finite n then Some n else None
  end.

(** [a ?? b]; [None] is [undefined]. *)
Definition js_text (v : option json) : string := match v with Some x => Recipes.Recipe.string_of x | None => "undefined" end.

(** One element; [None] when reading a property of it throws. *)
Definition summaryOf (r : json) : option SparkrunRecipeSummary :=
  match r with
  | JNull => None
  | _ =>
      let g k := jget (Some r) k in
      Some {| sp_ref := js_text (jnullish (g "ref") (jnullish (g "id") (g "name")));
              sp_name := js_text (jnullish (g "name") (jnullish (g "ref") (g "id")));
              sp_description := if jtruthy (g "description") then g "description" else None;
              sp_runtime := g "runtime"; sp_registry := g "registry";
              sp_model := if jtruthy (g "model") then Some (js_text (g "model")) else None;
              sp_minNodes := toNum (jnullish (g "min_nodes") (Some (JNum (zn 1))));
              sp_tpDefault := numOrUndef (g "tp"); sp_gpuMemDefault := numOrUndef (g "gpu_mem") |}
  end.

(** The JSON branch: [None] when it throws. *)
Definition fromJson (data : jtext) : option (list SparkrunRecipeSummary) :=
  v ← data;
  match v with
  | JArr l => mapM summaryOf l
  | JNull => None
  | _ => match jnullish (jget (Some v) "recipes") (Some (JArr [])) with
         | Some (JArr l) => mapM summaryOf l
         | _ => None
         end
  end.

(** [l.split(/\s{2,}|\t/)]; [fuel]: the length of the text. *)
Fixpoint splitColumns (fuel : nat) (cur : string) (s : string) : list string :=
  match fuel, s with
  | S fuel, String c r =>
      if is_ws c && (match r with String d _ => is_ws d | EmptyString => false end)
      then cur :: splitColumns fuel "" (skip_ws s)
      else if Ascii.eqb c (ascii_of_nat 9) then cur :: splitColumns fuel "" r
      else splitColumns fuel (cur +:+ String c "") r
  | _, _ => [cur]
  end.

(** [/^name\b/i], [/^-+$/] *)
Definition headerLine (l : string) : bool :=
  match strip_prefix "name" (str_lower l) with Some r => boundary r | None => false end.
Definition ruleLine (l : string) : bool := negb (String.eqb l "") && str_all (fun c => Ascii.eqb c "-") l.

Definition lineSummary (l : string) : SparkrunRecipeSummary :=
  let '(ref, rest) := match splitColumns (String.length l) "" l with x :: xs => (x, xs) | [] => ("", []) end in
  {| sp_ref := str_trim ref; sp_name := str_trim ref;
     sp_description := JStr <$> truthy (Some (str_trim (str_join " " rest)));
     sp_runtime := None; sp_registry := None; sp_model := None;
     sp_minNodes := zn 1; sp_tpDefault := None; sp_gpuMemDefault := None |}.

(** [parse]: [JSON.parse]. *)
Definition parseSparkrunList (parse : string -> jtext) (raw : string) : list SparkrunRecipeSummary :=
  let text := str_trim raw in
  if String.eqb text "" then []
  else
    let fromText := map lineSummary (List.filter (fun l => negb (String.eqb l "") && negb (headerLine l) && negb (ruleLine l))
                                       (map str_trim (str_split nl text))) in
    if String.prefix "[" text || String.prefix "{" text
    then default fromText (fromJson (parse text)) else fromText.

Inductive RecipeArch := amd64 | arm64 | any.

Definition AMD64_REGISTRIES : list string := ["@rtx"; "@dgx-amd64"].

Definition deriveRecipeArch (ref : string) : RecipeArch :=
  if String.prefix "ollama:" ref then any
  else if existsb (fun reg => String.prefix (reg +:+ "/") ref) AMD64_REGISTRIES then amd64
  else arm64.

Record Defaults := {
  df_tensor_parallel : num; df_gpu_memory_utilization : num; df_port : num; df_max_model_len : string }.
Record Recipe := {
  rc_file : string; rc_name : string; rc_description : option json; rc_model : option string; rc_container : string;
  rc_cluster_only : option bool; rc_solo_only : option bool; rc_arch : RecipeArch; rc_defaults : Defaults }.

Definition toRecipe (s : SparkrunRecipeSummary) : Recipe :=
  {| rc_file := sp_ref s; rc_name := sp_name s; rc_description := sp_description s; rc_model := sp_model s;
     rc_container := "sparkrun"; rc_arch := deriveRecipeArch (sp_ref s);
     rc_cluster_only := if num_lt (zn 1) (sp_minNodes s) then Some true else None; rc_solo_only := None;
     rc_defaults := {| df_tensor_parallel := default (zn 1) (sp_tpDefault s);
                       df_gpu_memory_utilization := default (Fin (85 # 100)) (sp_gpuMemDefault s);
                       df_port := zn 8000; df_max_model_len := "" |} |}.

Definition discoverRecipes (parse : string -> jtext) (out : option string) : list Recipe :=
  match out with Some o => map toRecipe (parseSparkrunList parse o) | None => [] end.

End Parse.

Module Crash.

(** [ps]: the names docker lists; [logs]: its standard error and output. *)
Definition containerNameFor (ps : string) : option string :=
  truthy (head (str_split nl (str_trim ps))).

Definition headCap (s : string) (n : nat) : string :=
  let t := str_trim s in
  if (n <? String.length t)%nat then str_take n t +:+ String nl "…[truncated]" else t.

Definition snapshotContainerLogs (clusterId : option string) (ps : string) (logs : string * string) : string :=
  match truthy clusterId with
  | None => ""
  | Some _ =>
      match containerNameFor ps with
      | None => ""
      | Some _ =>
          let err := headCap logs.1 (N.to_nat 120000) in
          let out := headCap logs.2 (N.to_nat 40000) in
          str_trim (str_join (String nl "") (List.filter (fun s => negb (String.eqb s "")) [err; out]))
      end
  end.

(** What it tells docker to stop, and the text. *)
Definition captureCrashedContainerLogs (clusterId : option string) (ps ps' : string) (logs : string * string) :
    option string * string :=
  match truthy clusterId with
  | None => (None, "")
  | Some _ => match containerNameFor ps with
              | None => (None, "")
              | Some name => (Some name, snapshotContainerLogs clusterId ps' logs)
              end
  end.

Definition resolveHfHome (env : option string) (shared : string) : string := default (shared +:+ "/models") env.
Definition isHfHomeExplicit (env : option string) : bool := bool_decide (is_Some env).

End Crash.

Module Machine.
Import Args Parse.

Record order := { od_id : string; od_ref : string; od_opts : SparkrunLaunchOptions }.

(** A [sparkrun run]: the closure of [launchSparkrun] and the [Launcher] it shares with the
    map. *)
Record launcher := {
  la_order : order; la_killed : bool; la_buf : string; la_clusterId : option string; la_phase : string }.

Definition with_phase (phase : string) (l : launcher) : launcher :=
  {| la_order := la_order l; la_killed := la_killed l; la_buf := la_buf l; la_clusterId := la_clusterId l;
     la_phase := phase |}.
Definition with_buf (buf : string) (found : option string) (l : launcher) : launcher :=
  {| la_order := la_order l; la_killed := la_killed l; la_buf := buf; la_clusterId := found; la_phase := la_phase l |}.
Definition mark_killed (l : launcher) : launcher :=
  {| la_order := la_order l; la_killed := true; la_buf := la_buf l; la_clusterId := la_clusterId l;
     la_phase := la_phase l |}.

Inductive message :=
  | Status (id status : string) (port : option num) (error : option string) (deleteAfter : option bool)
  | Log (id text : string).

Record stop := { sp_id : string; sp_delete : bool }.

Record agent := {
  ag_store : store; ag_launchers : gmap string nat; ag_followers : gmap string nat;
  ag_heap : list launcher; ag_stops : list stop; ag_sent : list message;
  ag_signals : list nat }.               (* the launchers whose process group was killed *)

Definition tell (ms : list message) (a : agent) : agent :=
  {| ag_store := ag_store a; ag_launchers := ag_launchers a; ag_followers := ag_followers a;
     ag_heap := ag_heap a; ag_stops := ag_stops a; ag_sent := ag_sent a ++ ms; ag_signals := ag_signals a |}.
Definition set_store (s : store) (a : agent) : agent :=
  {| ag_store := s; ag_launchers := ag_launchers a; ag_followers := ag_followers a;
     ag_heap := ag_heap a; ag_stops := ag_stops a; ag_sent := ag_sent a; ag_signals := ag_signals a |}.
Definition set_launchers (m : gmap string nat) (a : agent) : agent :=
  {| ag_store := ag_store a; ag_launchers := m; ag_followers := ag_followers a;
     ag_heap := ag_heap a; ag_stops := ag_stops a; ag_sent := ag_sent a; ag_signals := ag_signals a |}.
Definition set_followers (m : gmap string nat) (a : agent) : agent :=
  {| ag_store := ag_store a; ag_launchers := ag_launchers a; ag_followers := m;
     ag_heap := ag_heap a; ag_stops := ag_stops a; ag_sent := ag_sent a; ag_signals := ag_signals a |}.
Definition set_heap (h : list launcher) (a : agent) : agent :=
  {| ag_store := ag_store a; ag_launchers := ag_launchers a; ag_followers := ag_followers a;
     ag_heap := h; ag_stops := ag_stops a; ag_sent := ag_sent a; ag_signals := ag_signals a |}.
Definition set_stops (l : list stop) (a : agent) : agent :=
  {| ag_store := ag_store a; ag_launchers := ag_launchers a; ag_followers := ag_followers a;
     ag_heap := ag_heap a; ag_stops := l; ag_sent := ag_sent a; ag_signals := ag_signals a |}.

Definition signal (n : nat) (a : agent) : agent :=
  {| ag_store := ag_store a; ag_launchers := ag_launchers a; ag_followers := ag_followers a;
     ag_heap := ag_heap a; ag_stops := ag_stops a; ag_sent := ag_sent a; ag_signals := ag_signals a ++ [n] |}.

Definition opt_port (o : order) : num := default (zn 8000) (so_port (od_opts o)).

Definition ref_entry (now : string) (o : order) (clusterId : option string) : TrackedDeployment :=
  {| td_deploymentId := od_id o; td_recipeFile := od_ref o;
     td_recipeName := default (od_ref o) (so_recipeName (od_opts o));
     td_port := opt_port o; td_startedAt := now;
     td_clusterNodes := Some (so_hosts (od_opts o)); td_clusterId := clusterId;
     td_tp := Some (default (Z.of_nat (length (so_hosts (od_opts o)))) (so_tp (od_opts o)));
     td_kind := Some KSparkrun; td_rank := None; td_masterAddr := None; td_masterPort := None;
     td_stopping := None; td_starting := None |}.

(** [persist()] *)
Definition persist (now : string) (o : order) (clusterId : option string) (a : agent) : agent :=
  set_store (saveDeployment (ag_store a) (ref_entry now o clusterId)) a.

(** [cmd:deploy] of a sparkrun deployment. *)
Definition startSparkrun (now : string) (o : order) (a : agent) : agent :=
  let a1 := tell [Status (od_id o) "starting" None None None] a in
  let n := length (ag_heap a1) in
  let a2 := set_heap (ag_heap a1 ++ [{| la_order := o; la_killed := false; la_buf := ""; la_clusterId := None;
                                        la_phase := "starting" |}]) a1 in
  persist now o None (set_launchers (<[od_id o := n]> (ag_launchers a2)) a2).

(** The [onLog] of [cmd:deploy]. *)
Definition onLog (n : nat) (l : launcher) (line : string) (a : agent) : agent :=
  let id := od_id (la_order l) in
  let a1 := tell [Log id (AgentHealth.Lines.collapseCarriageReturns line)] a in
  match Phase.detectPhase line with
  | Some phase =>
      if String.eqb phase (la_phase l) then a1
      else tell [Status id phase (if String.eqb phase "running" then Some (opt_port (la_order l)) else None) None None]
             (set_heap (alter (with_phase phase) n (ag_heap a1)) a1)
  | None => a1
  end.

(** [onData]: output of the launcher [n], which may still come after it was killed and
    after it ended. *)
Definition onData (now : string) (n : nat) (chunk : string) (a : agent) : agent :=
  match ag_heap a !! n with
  | None => a
  | Some l =>
      let a1 := onLog n l chunk a in
      match la_clusterId l with
      | Some _ => a1
      | None =>
          let buf := la_buf l +:+ chunk in
          let found := parseClusterId buf in
          let a2 := set_heap (alter (with_buf buf found) n (ag_heap a1)) a1 in
          match found with
          | None => a2
          | Some c =>
              let id := od_id (la_order l) in
              set_followers (<[id := n]> (ag_followers a2)) (persist now (la_order l) (Some c) a2)
          end
      end
  end.

(** The launcher's [exit]. *)
Definition onExit (n : nat) (code : option Z) (a : agent) : agent :=
  match ag_heap a !! n with
  | None => a
  | Some l =>
      let id := od_id (la_order l) in
      let a1 := set_launchers (delete id (ag_launchers a)) a in
      if la_killed l then a1
      else if bool_decide (code = Some 0%Z) then a1
      else tell [Status id "failed" None (Some ("Sparkrun launch failed with exit code " +:+ Cancel.code_text code)) None] a1
  end.

(** The start of [stopSparkrun]. *)
Definition kill (id : string) (a : agent) : agent :=
  let a1 := match ag_launchers a !! id with
            | Some n => set_launchers (delete id (ag_launchers a))
                (signal n (set_heap (alter mark_killed n (ag_heap a)) a))
            | None => a
            end in
  set_followers (delete id (ag_followers a1)) a1.

Definition stop_notice : string := String nl "=== Stop requested by user — stopping sparkrun workload ===" +:+ String nl "".

(** [cmd:undeploy] of a deployment the store has, up to the wait for [sparkrun stop]; of
    one it has not (no dgxrun container being there), to the end. *)
Definition undeploySparkrun (id : string) (deleteAfter : bool) (a : agent) : agent :=
  let a0 := tell [Status id "stopping" None None None] a in
  match tracked (ag_store a0) id with
  | Some d =>
      let a1 := set_store (saveDeployment (ag_store a0) (set_stopping true d)) (tell [Log id stop_notice] a0) in
      let a2 := kill id a1 in
      set_stops (ag_stops a2 ++ [{| sp_id := id; sp_delete := deleteAfter |}]) a2
  | None => tell [Status id "stopped" None None (Some deleteAfter)] a0
  end.

(** What [sparkrun stop] is asked to stop. *)
Definition sparkrunTarget (d : TrackedDeployment) : string := default (td_recipeFile d) (td_clusterId d).

(** [sparkrun stop] came back, one way or the other: the [finally], and the report. *)
Definition stopReturned (i : nat) (ok : bool) (a : agent) : agent :=
  match ag_stops a !! i with
  | None => a
  | Some s =>
      tell [Status (sp_id s) "stopped" None None (Some (sp_delete s))]
        (set_store (removeDeployment (ag_store a) (sp_id s)) (set_stops (delete i (ag_stops a)) a))
  end.

Inductive event :=
  | Deploy (now : string) (o : order)
  | Data (now : string) (n : nat) (chunk : string)
  | Exit (n : nat) (code : option Z)
  | Undeploy (id : string) (deleteAfter : bool)
  | StopEnded (i : nat) (ok : bool).

Definition react (e : event) (a : agent) : agent :=
  match e with
  | Deploy now o => startSparkrun now o a
  | Data now n chunk => onData now n chunk a
  | Exit n code => onExit n code a
  | Undeploy id del => undeploySparkrun id del a
  | StopEnded i ok => stopReturned i ok a
  end.

Definition run (es : list event) (a : agent) : agent := foldl (fun a e => react e a) a es.

Definition idle : agent :=
  {| ag_store := []; ag_launchers := ∅; ag_followers := ∅; ag_heap := []; ag_stops := []; ag_sent := []; ag_signals := [] |}.

End Machine.
