(* ===== verification/SparkrunFacts.v ===== *)
(** sparkrun: what the command line says, which cluster id a launcher's output gives, and
    what stops and late output leave of a launch. *)
From S2P Require Import Prelude JsNum Schema Admission Gateway Deployments Recipes Routes DeployRoute LaunchArgs AgentLaunch AgentLaunchFacts Sparkrun.
Import Store Sparkrun.Args Sparkrun.Parse Sparkrun.Machine.

(** * The command line *)

(** The words after the positional ones, read as options with a value. *)
Fixpoint optionsOf (args : list string) : list (string * string) :=
  match args with n :: v :: rest => (n, v) :: optionsOf rest | _ => [] end.

Lemma optionsOf_flag n v rest : optionsOf (flag n v ++ rest) = option_list ((fun x => (n, x)) <$> v) ++ optionsOf rest.
Proof. by destruct v. Qed.

Lemma optionsOf_rest (kvs : list (string * string)) :
  optionsOf (concat (map (fun kv => ["-o"; kv.1 +:+ "=" +:+ kv.2]) kvs)) =
  map (fun kv => ("-o", kv.1 +:+ "=" +:+ kv.2)) kvs.
Proof. induction kvs as [|kv kvs IH]; [done|]. cbn. by rewrite IH. Qed.

(** What sparkrun reads of an order.  The command line is [run], the recipe and
    [--no-follow], then options with one value each: every size the order gives under its
    own flag, none for what it leaves out, the tensor parallelism always (one per host
    unless ordered), the hosts unless there are none, and the passed-through options. *)
Theorem sparkrun_options ref o :
  exists rest, buildSparkrunArgs ref o = ["run"; ref; "--no-follow"] ++ rest /\
  optionsOf rest =
    option_list (if (0 <? length (so_hosts o))%nat then Some ("-H", str_join "," (so_hosts o)) else None) ++
    [("--tp", pretty (default (Z.of_nat (length (so_hosts o))) (so_tp o)))] ++
    option_list ((fun v => ("--pp", pretty v)) <$> so_pp o) ++
    option_list ((fun v => ("--port", num_str v)) <$> so_port o) ++
    option_list ((fun v => ("--gpu-mem", num_str v)) <$> so_gpuMem o) ++
    option_list ((fun v => ("--max-model-len", num_str v)) <$> so_maxModelLen o) ++
    option_list ((fun v => ("--served-model-name", v)) <$> truthy (so_servedModelName o)) ++
    map (fun kv => ("-o", kv.1 +:+ "=" +:+ kv.2)) (so_options o).
Proof.
  unfold buildSparkrunArgs. eexists. split; [reflexivity|].
  rewrite !optionsOf_flag, optionsOf_rest.
  destruct (0 <? length (so_hosts o))%nat, (so_pp o), (so_port o), (so_gpuMem o), (so_maxModelLen o),
    (truthy (so_servedModelName o)); done.
Qed.

(** * The cluster id *)

Definition hex (h : string) : Prop := str_all hex_char h = true /\ h <> "".

Lemma hex_word c : hex_char c = true -> word_char c = true /\ Ascii.eqb c nl = false.
Proof. destruct c as [[] [] [] [] [] [] [] []]; vm_compute; done. Qed.

Lemma span_hex h rest : str_all hex_char h = true -> boundary rest = true -> span hex_char (h +:+ rest) = (h, rest).
Proof.
  intros Hh Hb. induction h as [|c h IH].
  - rewrite app_empty_l. destruct rest as [|c r]; [done|]. cbn [boundary] in Hb. cbn [span].
    destruct (hex_char c) eqn:E; [|done]. apply hex_word in E as [E _]. by rewrite E in Hb.
  - cbn [str_all] in Hh. apply andb_prop in Hh as [Hc Hh]. rewrite app_String. cbn [span]. by rewrite Hc, IH.
Qed.

Lemma token_line h rest :
  hex h -> boundary rest = true ->
  sparkrunToken ("Cluster: sparkrun_" +:+ h +:+ rest) = Some ("sparkrun_" +:+ h) /\
  hasLabel ("Cluster: sparkrun_" +:+ h +:+ rest) = true.
Proof.
  intros [Hh Hne] Hb. split.
  - unfold sparkrunToken. set (t := h +:+ rest).
    assert (firstWord tokenHere false ("Cluster: sparkrun_" +:+ t) = firstWord tokenHere false ("sparkrun_" +:+ t)) as -> by done.
    assert (tokenHere ("sparkrun_" +:+ t) = Some ("sparkrun_" +:+ h)) as Ht.
    { unfold tokenHere. change (strip_prefix "sparkrun_" ("sparkrun_" +:+ t)) with
        (strip_prefix "" t). unfold strip_prefix. assert (String.prefix "" t = true) as -> by (by destruct t).
      change (str_drop (String.length "") t) with t. cbn [mbind option_bind]. subst t. rewrite span_hex by done.
      apply String.eqb_neq in Hne. by rewrite Hne, Hb. }
    change ("sparkrun_" +:+ t) with (String "s" ("parkrun_" +:+ t)) in *. cbn [firstWord]. by rewrite Ht.
  - unfold hasLabel. apply bool_decide_eq_true. eexists. reflexivity.
Qed.

Lemma hex_no_nl h : str_all hex_char h = true -> str_all (not_char nl) h = true.
Proof. apply str_all_impl. intros c Hc. unfold not_char. by destruct (hex_word c Hc) as [_ ->]. Qed.

(** The canonical line, whole, is read whole. *)
Lemma parseClusterId_line h post :
  hex h -> parseClusterId ("Cluster: sparkrun_" +:+ h +:+ String nl post) = Some ("sparkrun_" +:+ h).
Proof.
  intros Hh. unfold parseClusterId.
  replace ("Cluster: sparkrun_" +:+ h +:+ String nl post) with (("Cluster: sparkrun_" +:+ h) +:+ String nl post)
    by (by rewrite str_app_assoc).
  rewrite str_split_app by (rewrite str_all_app, (hex_no_nl h (proj1 Hh)); done). cbn [firstLabelled].
  destruct (token_line h "" Hh) as [Ht Hl]; [done|]. rewrite app_empty_r in Ht, Hl. by rewrite Hl, Ht.
Qed.

(** So is the part of it that a chunk ends in. *)
Lemma parseClusterId_cut h : hex h -> parseClusterId ("Cluster: sparkrun_" +:+ h) = Some ("sparkrun_" +:+ h).
Proof.
  intros Hh. unfold parseClusterId.
  rewrite str_split_word by (rewrite str_all_app, (hex_no_nl h (proj1 Hh)); done). cbn [firstLabelled].
  destruct (token_line h "" Hh) as [Ht Hl]; [done|]. rewrite app_empty_r in Ht, Hl. by rewrite Hl, Ht.
Qed.

(** * Launches and stops *)

Lemma onLog_spec n l line a :
  let a' := onLog n l line a in
  ag_store a' = ag_store a /\ ag_launchers a' = ag_launchers a /\ ag_stops a' = ag_stops a /\
  ag_followers a' = ag_followers a /\
  (forall k, (fun x => (la_order x, la_killed x, la_buf x, la_clusterId x)) <$> ag_heap a' !! k =
             (fun x => (la_order x, la_killed x, la_buf x, la_clusterId x)) <$> ag_heap a !! k) /\
  (forall m, m ∈ ag_sent a' -> m ∈ ag_sent a \/
     (exists t, m = Log (od_id (la_order l)) t) \/
     (exists p, Phase.detectPhase line = Some p /\ m = Status (od_id (la_order l)) p
       (if String.eqb p "running" then Some (opt_port (la_order l)) else None) None None)).
Proof.
  unfold onLog. cbv zeta. destruct (Phase.detectPhase line) as [p|] eqn:E; [destruct (String.eqb p (la_phase l))|];
    cbn; (split; [done|split; [done|split; [done|split; [done|split]]]]); try done.
  - intros m. rewrite elem_of_app, list_elem_of_singleton. intros [?| ->]; [by left|right; left; by eexists].
  - intros k. destruct (decide (k = n)) as [->|Hk]; [|by rewrite list_lookup_alter_ne].
    rewrite list_lookup_alter_eq. by destruct (ag_heap a !! n).
  - intros m. rewrite !elem_of_app, !list_elem_of_singleton. intros [[?| ->]| ->];
      [by left|right; left; by eexists|right; right; by exists p].
  - intros m. rewrite elem_of_app, list_elem_of_singleton. intros [?| ->]; [by left|right; left; by eexists].
Qed.

(** What the launcher knows of its cluster, in the store. *)
Lemma onData_finds now n chunk a l c :
  ag_heap a !! n = Some l -> la_clusterId l = None -> parseClusterId (la_buf l +:+ chunk) = Some c ->
  let a' := onData now n chunk a in
  tracked (ag_store a') (od_id (la_order l)) = Some (ref_entry now (la_order l) (Some c)) /\
  la_clusterId <$> ag_heap a' !! n = Some (Some c) /\ la_order <$> ag_heap a' !! n = Some (la_order l) /\
  ag_stops a' = ag_stops a.
Proof.
  intros Hl Hn Hp. cbv zeta. unfold onData. rewrite Hl, Hn, Hp.
  destruct (onLog_spec n l chunk a) as (_ & _ & Hs & _ & Hh & _). specialize (Hh n). rewrite Hl in Hh.
  cbn [set_followers set_heap persist set_store ag_store ag_heap ag_stops].
  rewrite tracked_save. cbn [ref_entry td_deploymentId]. rewrite decide_True by done. split; [done|].
  rewrite list_lookup_alter_eq. destruct (ag_heap (onLog n l chunk a) !! n) as [x|]; [|done].
  cbn in Hh |- *. injection Hh as -> _ _ _. done.
Qed.

(** Once found the id is kept, whatever else is printed. *)
Lemma onData_keeps now n chunk a l c :
  ag_heap a !! n = Some l -> la_clusterId l = Some c ->
  ag_store (onData now n chunk a) = ag_store a /\
  la_clusterId <$> ag_heap (onData now n chunk a) !! n = Some (Some c).
Proof.
  intros Hl Hc. unfold onData. rewrite Hl, Hc.
  destruct (onLog_spec n l chunk a) as (Hs & _ & _ & _ & Hh & _). split; [done|]. specialize (Hh n).
  rewrite Hl in Hh. destruct (ag_heap (onLog n l chunk a) !! n) as [x|]; [|done].
  cbn in Hh |- *. injection Hh as _ _ _ ->. by rewrite Hc.
Qed.

(** A cluster id cut by a chunk is never completed.  When the launcher's output is
    delivered with the id split in two, the digits that came first are taken for the whole
    id at once, and nothing printed later changes it: the deployment is stored, followed
    and, when it is stopped, looked for under an id no workload has. *)
Theorem cut_cluster_id_sticks a n l h later now now' :
  ag_heap a !! n = Some l -> la_clusterId l = None -> la_buf l = "" -> hex h ->
  let a' := onData now' n later (onData now n ("Cluster: sparkrun_" +:+ h) a) in
  exists d, tracked (ag_store a') (od_id (la_order l)) = Some d /\ sparkrunTarget d = "sparkrun_" +:+ h /\
    la_clusterId <$> ag_heap a' !! n = Some (Some ("sparkrun_" +:+ h)).
Proof.
  intros Hl Hn Hb Hh. cbv zeta.
  destruct (onData_finds now n ("Cluster: sparkrun_" +:+ h) a l ("sparkrun_" +:+ h) Hl Hn) as (Ht & Hc & Ho & _).
  { rewrite Hb, app_empty_l. by apply parseClusterId_cut. }
  destruct (ag_heap (onData now n ("Cluster: sparkrun_" +:+ h) a) !! n) as [l'|] eqn:El; [|done].
  injection Hc as Hc. destruct (onData_keeps now' n later _ l' _ El Hc) as [-> Hk].
  eexists. split; [exact Ht|]. split; [done|exact Hk].
Qed.

(** A stop of sparkrun is confirmed whatever it did.  When [sparkrun stop] comes back,
    with an error as without one, the deployment leaves the store and is reported stopped:
    a workload that could not be stopped runs on with nobody watching it. *)
Theorem sparkrun_stop_confirmed a i s ok :
  ag_stops a !! i = Some s ->
  let a' := stopReturned i ok a in
  tracked (ag_store a') (sp_id s) = None /\
  ag_sent a' = ag_sent a ++ [Status (sp_id s) "stopped" None None (Some (sp_delete s))] /\
  a' = stopReturned i (negb ok) a.
Proof.
  intros Hs. unfold stopReturned. rewrite Hs. cbv zeta. cbn [tell set_store set_stops ag_store ag_sent].
  rewrite tracked_remove, decide_True by done. done.
Qed.

(** A launch that was stopped comes back.  The output of a killed launcher is still
    read: if the cluster id reaches the agent only after the stop was confirmed, the
    deployment is put back into the store, with no mark of a stop, and the manager's last
    word of it is that it stopped; a health check then finds it missing and reports it
    failed. *)
Theorem stopped_launch_comes_back a n l i s ok chunk c now :
  ag_heap a !! n = Some l -> la_killed l = true -> la_clusterId l = None ->
  parseClusterId (la_buf l +:+ chunk) = Some c ->
  ag_stops a !! i = Some s -> sp_id s = od_id (la_order l) -> Phase.detectPhase chunk = None ->
  let a' := onData now n chunk (stopReturned i ok a) in
  tracked (ag_store (stopReturned i ok a)) (sp_id s) = None /\
  (exists d, tracked (ag_store a') (sp_id s) = Some d /\ td_stopping d = None /\ td_kind d = Some KSparkrun) /\
  exists sent, ag_sent a' = sent ++ [Status (sp_id s) "stopped" None None (Some (sp_delete s)); Log (sp_id s) (AgentHealth.Lines.collapseCarriageReturns chunk)].
Proof.
  intros Hl _ Hn Hp Hs Hid Hph. cbv zeta. destruct (sparkrun_stop_confirmed a i s ok Hs) as (H1 & H2 & _).
  split; [done|].
  assert (ag_heap (stopReturned i ok a) !! n = Some l) as Hl' by (unfold stopReturned; by rewrite Hs).
  destruct (onData_finds now n chunk _ l c Hl' Hn Hp) as (Ht & _). split.
  - eexists. rewrite Hid. split; [exact Ht|done].
  - exists (ag_sent a). unfold onData. rewrite Hl', Hn, Hp. unfold onLog. rewrite Hph. cbn -[stopReturned].
    rewrite H2, <- app_assoc, Hid. done.
Qed.

(** The map from deployments to launchers: whom a stop will kill. *)
Definition armed (a : agent) (id : string) (n : nat) : Prop := ag_launchers a !! id = Some n.

(** A stop after an old launcher's end kills nobody.  The end of a launcher takes its
    deployment's entry out of the map whoever it stands for.  So when the launcher of a
    stopped deployment ends after the deployment was started again, the next stop does not
    kill the new launcher: its download runs on, and should it fail the failure is reported
    of a deployment that was stopped. *)
Theorem late_exit_disarms_stop a n l m l' code code' del :
  ag_heap a !! n = Some l -> ag_heap a !! m = Some l' -> la_killed l' = false ->
  od_id (la_order l) = od_id (la_order l') -> armed a (od_id (la_order l')) m ->
  let a1 := onExit n code a in
  let a2 := undeploySparkrun (od_id (la_order l')) del a1 in
  ag_heap a2 = ag_heap a1 /\ ag_heap a2 !! m = Some l' /\
  (code' <> Some 0%Z ->
   Status (od_id (la_order l')) "failed" None (Some ("Sparkrun launch failed with exit code " +:+ Cancel.code_text code')) None
     ∈ ag_sent (onExit m code' a2)).
Proof.
  intros Hl Hl' Hk Hid _. cbv zeta.
  assert (forall b, ag_launchers b !! od_id (la_order l') = None ->
    ag_heap (undeploySparkrun (od_id (la_order l')) del b) = ag_heap b) as Hu.
  { intros b Hb. unfold undeploySparkrun. destruct (tracked _ _) as [d|]; [|done]. unfold kill. cbn. by rewrite Hb. }
  assert (ag_launchers (onExit n code a) !! od_id (la_order l') = None /\ ag_heap (onExit n code a) = ag_heap a)
    as [Hn Hh].
  { unfold onExit. rewrite Hl. rewrite <- Hid.
    destruct (la_killed l); [|case_bool_decide]; cbn; (split; [apply lookup_delete_eq|done]). }
  rewrite (Hu _ Hn), Hh. split; [done|]. split; [done|]. intros Hc.
  unfold onExit at 1. rewrite (Hu _ Hn), Hh, Hl', Hk, bool_decide_false by done. cbn.
  rewrite elem_of_app, list_elem_of_singleton. by right.
Qed.

(** ** Over every run *)

Record inv (a : agent) : Prop := {
  inv_armed : forall id n, armed a id n -> exists l, ag_heap a !! n = Some l /\ od_id (la_order l) = id /\ la_killed l = false;
  inv_kind : forall d, d ∈ ag_store a -> td_kind d = Some KSparkrun;
  inv_nodup : NoDup (map td_deploymentId (ag_store a)) }.

Lemma save_inv s d :
  td_kind d = Some KSparkrun ->
  (forall x, x ∈ s -> td_kind x = Some KSparkrun) -> NoDup (map td_deploymentId s) ->
  (forall x, x ∈ saveDeployment s d -> td_kind x = Some KSparkrun) /\ NoDup (map td_deploymentId (saveDeployment s d)).
Proof.
  intros Hd Hs Hn. unfold saveDeployment, removeDeployment. split.
  - intros x. rewrite elem_of_app, list_elem_of_singleton, elem_of_filter_bool. intros [[Hx _]| ->]; [by apply Hs|done].
  - rewrite map_app. apply NoDup_app. split; [by apply NoDup_map_filter|]. split; [|apply NoDup_singleton].
    intros i Hi Hi'. apply list_elem_of_singleton in Hi'. subst i.
    apply list_elem_of_fmap in Hi as (y & Hy & Hin). apply elem_of_filter_bool in Hin as [_ Hin].
    apply negb_true_iff, not_true_iff_false in Hin. apply Hin. by apply isEntry_eq.
Qed.

(** Same order and mark, at every place. *)
Definition same_marks (h h' : list launcher) : Prop :=
  forall k, (fun x => (la_order x, la_killed x)) <$> h' !! k = (fun x => (la_order x, la_killed x)) <$> h !! k.

Lemma armed_same a a' :
  (forall id n, armed a' id n -> armed a id n) -> same_marks (ag_heap a) (ag_heap a') ->
  (forall id n, armed a id n -> exists l, ag_heap a !! n = Some l /\ od_id (la_order l) = id /\ la_killed l = false) ->
  forall id n, armed a' id n -> exists l, ag_heap a' !! n = Some l /\ od_id (la_order l) = id /\ la_killed l = false.
Proof.
  intros Hl Hm I id n H. destruct (I id n (Hl _ _ H)) as (l & E & <- & Hk). specialize (Hm n). rewrite E in Hm.
  destruct (ag_heap a' !! n) as [l'|]; [|done]. cbn in Hm. injection Hm as Ho Hk'. exists l'.
  rewrite Ho, Hk'. done.
Qed.

Lemma alter_marks f n h :
  (forall x, la_order (f x) = la_order x /\ la_killed (f x) = la_killed x) -> same_marks h (alter f n h).
Proof.
  intros Hf k. destruct (decide (k = n)) as [->|Hk]; [|by rewrite list_lookup_alter_ne].
  rewrite list_lookup_alter_eq. destruct (h !! n) as [x|]; [|done]. cbn. by destruct (Hf x) as [-> ->].
Qed.

Lemma onLog_marks n l line a : same_marks (ag_heap a) (ag_heap (onLog n l line a)).
Proof.
  intros k. destruct (onLog_spec n l line a) as (_ & _ & _ & _ & H & _). specialize (H k).
  destruct (ag_heap (onLog n l line a) !! k), (ag_heap a !! k); cbn in *; congruence.
Qed.

Lemma inv_data now n chunk a : inv a -> inv (onData now n chunk a).
Proof.
  intros I. unfold onData. destruct (ag_heap a !! n) as [l|] eqn:El; [|done].
  destruct (onLog_spec n l chunk a) as (Es & Ea & _). pose proof (onLog_marks n l chunk a) as Hm.
  set (a1 := onLog n l chunk a) in *. clearbody a1.
  assert (inv a1) as I1.
  { split; [|rewrite Es; apply I..]. eapply armed_same; [|exact Hm|apply I]. intros id k. unfold armed. by rewrite Ea. }
  destruct (la_clusterId l); [done|].
  assert (inv (set_heap (alter (with_buf (la_buf l +:+ chunk) (parseClusterId (la_buf l +:+ chunk))) n (ag_heap a1)) a1)) as I2.
  { split; [|apply I1..]. apply (armed_same a1); [done| |apply I1]. by apply alter_marks. }
  destruct (parseClusterId (la_buf l +:+ chunk)) as [c|]; [|exact I2].
  destruct (save_inv (ag_store a1) (ref_entry now (la_order l) (Some c))) as [H1 H2]; [done|apply I1..|].
  split; [|exact H1|exact H2]. intros id k Hk. exact (inv_armed _ I2 id k Hk).
Qed.

Lemma inv_deploy now o a : inv a -> inv (startSparkrun now o a).
Proof.
  intros I. destruct (save_inv (ag_store a) (ref_entry now o None)) as [H1 H2]; [done|apply I..|].
  split; [|exact H1|exact H2]. intros id n Hn. unfold armed, startSparkrun in *. cbn in *.
  apply lookup_insert_Some in Hn as [[<- <-]|[Hne Hn]].
  - eexists. split; [by apply list_lookup_middle|]. done.
  - destruct (inv_armed _ I id n Hn) as (l & E & ? & ?). exists l.
    split; [|done]. rewrite lookup_app_l; [done|]. by eapply lookup_lt_Some.
Qed.

Lemma inv_exit n code a : inv a -> inv (onExit n code a).
Proof.
  intros I. unfold onExit. destruct (ag_heap a !! n) as [l|]; [|done].
  assert (inv (set_launchers (delete (od_id (la_order l)) (ag_launchers a)) a)) as I1.
  { split; [|apply I..]. intros id k. unfold armed. cbn. intros [_ H]%lookup_delete_Some. exact (inv_armed _ I id k H). }
  destruct (la_killed l); [done|]. case_bool_decide; [done|]. split; apply I1.
Qed.

Lemma inv_undeploy id del a : inv a -> inv (undeploySparkrun id del a).
Proof.
  intros I. unfold undeploySparkrun. cbn [tell ag_store]. destruct (tracked (ag_store a) id) as [d|] eqn:E; [|split; apply I].
  apply js_find_Some in E as [Hd _]. pose proof (inv_kind _ I d Hd) as Hk.
  destruct (save_inv (ag_store a) (set_stopping true d)) as [H1 H2]; [done|apply I..|].
  unfold kill. cbn. destruct (ag_launchers a !! id) as [n|] eqn:En; [|split; [apply I|exact H1|exact H2]].
  split; [|exact H1|exact H2]. intros j k. unfold armed. cbn. intros [Hj H]%lookup_delete_Some.
  destruct (inv_armed _ I j k H) as (l & E & Hid & Hkl). exists l. split; [|done].
  rewrite list_lookup_alter_ne; [done|]. intros <-.
  destruct (inv_armed _ I id n En) as (l2 & E2 & Hid2 & _). congruence.
Qed.

Lemma inv_stopEnded i ok a : inv a -> inv (stopReturned i ok a).
Proof.
  intros I. unfold stopReturned. destruct (ag_stops a !! i) as [s|]; [|done]. split; [apply I|..].
  - intros d Hd. cbn in Hd. apply elem_of_filter_bool in Hd as [Hd _]. by apply I.
  - cbn. apply NoDup_map_filter, I.
Qed.

Lemma inv_run es a : inv a -> inv (run es a).
Proof.
  revert a. induction es as [|e es IH]; intros a I; [done|]. apply IH. destruct e; cbn.
  - by apply inv_deploy.
  - by apply inv_data.
  - by apply inv_exit.
  - by apply inv_undeploy.
  - by apply inv_stopEnded.
Qed.

(** ** Processes, from the trace alone *)

(** The deployment of the [n]th launcher, and whether it ended. *)
Definition launched (es : list event) (n : nat) : option string :=
  omap (fun e => match e with Deploy _ o => Some (od_id o) | _ => None end) es !! n.
Definition ended (es : list event) (n : nat) : Prop :=
  exists pre code post, es = pre ++ Exit n code :: post /\ is_Some (launched pre n).

Lemma launched_app es es' n d : launched es n = Some d -> launched (es ++ es') n = Some d.
Proof. unfold launched. intros H. rewrite omap_app. by apply lookup_app_l_Some. Qed.

Lemma ended_launched es n : ended es n -> is_Some (launched es n).
Proof. intros (pre & code & post & -> & [d H]). exists d. by apply launched_app. Qed.

Lemma ended_snoc es e n :
  ended (es ++ [e]) n -> ended es n \/ (exists code, e = Exit n code) /\ is_Some (launched es n).
Proof.
  intros (pre & code & post & E & H). destruct post as [|x post _] using rev_ind.
  - apply app_inj_tail in E as [-> ->]. right. by split; [exists code|].
  - rewrite app_comm_cons, app_assoc in E. apply app_inj_tail in E as [-> ->]. left. by exists pre, code, post.
Qed.

(** The agent's records against the trace: every launcher by its deployment; the mark says that
    its processes were killed; none in the map has ended. *)
Record trail (es : list event) (a : agent) : Prop := {
  tr_launched : forall n, (fun l => od_id (la_order l)) <$> ag_heap a !! n = launched es n;
  tr_killed : forall n l, ag_heap a !! n = Some l -> la_killed l = true <-> n ∈ ag_signals a;
  tr_signals : forall n, n ∈ ag_signals a -> n < length (ag_heap a);
  tr_armed : forall id n, armed a id n -> ~ ended es n }.

Lemma same_marks_length h h' : same_marks h h' -> length h = length h'.
Proof.
  intros H. apply Nat.le_antisymm; apply Nat.nlt_ge; intros Hlt.
  - apply lookup_lt_is_Some in Hlt as [x Hx]. specialize (H (length h')).
    by rewrite Hx, (lookup_ge_None_2 h') in H.
  - apply lookup_lt_is_Some in Hlt as [x Hx]. specialize (H (length h)).
    by rewrite Hx, (lookup_ge_None_2 h) in H.
Qed.

(** A step that starts no launcher and kills none. *)
Lemma trail_same es e a a' :
  trail es a -> (forall now o, e <> Deploy now o) -> same_marks (ag_heap a) (ag_heap a') -> ag_signals a' = ag_signals a ->
  (forall id n, armed a' id n -> armed a id n /\ forall code, e = Exit n code -> launched es n = None) -> trail (es ++ [e]) a'.
Proof.
  intros [T1 T2 T3 T4] He Hm Hs Ha.
  assert (forall n, launched (es ++ [e]) n = launched es n) as Hl.
  { intros n. unfold launched. rewrite omap_app. destruct e; cbn; rewrite ?app_nil_r; try done. by destruct (He now o). }
  split.
  - intros n. rewrite Hl, <- T1. specialize (Hm n). destruct (ag_heap a' !! n), (ag_heap a !! n); cbn in *; congruence.
  - intros n l H. specialize (Hm n). rewrite H, Hs in *. destruct (ag_heap a !! n) as [l0|] eqn:E; [|done].
    cbn in Hm. injection Hm as _ ->. by apply T2.
  - intros n. rewrite Hs, <- (same_marks_length _ _ Hm). apply T3.
  - intros id n H. destruct (Ha id n H) as [H1 H2]. intros [Hend|[[code ->] [d Hd]]]%ended_snoc; [by apply (T4 id n)|].
    by rewrite (H2 code) in Hd.
Qed.

Lemma trail_deploy es now o a : trail es a -> trail (es ++ [Deploy now o]) (startSparkrun now o a).
Proof.
  intros [T1 T2 T3 T4]. assert (launched es (length (ag_heap a)) = None) as Hnew by (by rewrite <- T1, lookup_ge_None_2).
  assert (forall n, launched (es ++ [Deploy now o]) n =
    if decide (n = length (ag_heap a)) then Some (od_id o) else launched es n) as Hl.
  { intros n. unfold launched in *. rewrite omap_app. cbn. set (L := omap _ es) in *.
    assert (length L = length (ag_heap a)) as EL.
    { apply Nat.le_antisymm; apply Nat.nlt_ge; intros Hlt; [by apply lookup_ge_None in Hnew; lia|].
      apply lookup_lt_is_Some in Hlt as [l Hx]. specialize (T1 (length L)). rewrite Hx, (lookup_ge_None_2 L) in T1 by done. done. }
    rewrite <- EL. destruct (decide (n = length L)) as [->|Hne]; [by apply list_lookup_middle|].
    destruct (Nat.lt_ge_cases n (length L)); [by apply lookup_app_l|].
    rewrite !lookup_ge_None_2; [done|done|rewrite length_app; cbn; lia]. }
  split.
  - intros n. rewrite Hl. cbn. destruct (decide (n = length (ag_heap a))) as [->|Hne]; [by rewrite list_lookup_middle|].
    destruct (Nat.lt_ge_cases n (length (ag_heap a))); [by rewrite lookup_app_l|].
    rewrite <- T1, !lookup_ge_None_2; [done|done|rewrite length_app; cbn; lia].
  - intros n l. cbn. intros [H|[H E]]%lookup_app_Some; [by apply T2|]. apply list_lookup_singleton_Some in E as [Hn <-].
    cbn. split; [done|]. intros Hin%T3. lia.
  - intros n Hin%T3. cbn. rewrite length_app. cbn. lia.
  - intros id n H. unfold armed, startSparkrun in H. cbn in H. intros [Hend|[[code [=]] _]]%ended_snoc.
    apply lookup_insert_Some in H as [[_ <-]|[_ H]]; [|by apply (T4 id n)].
    apply ended_launched in Hend as [d Hd]. congruence.
Qed.

Lemma onData_same now n chunk a :
  same_marks (ag_heap a) (ag_heap (onData now n chunk a)) /\ ag_signals (onData now n chunk a) = ag_signals a /\
  ag_launchers (onData now n chunk a) = ag_launchers a.
Proof.
  unfold onData. destruct (ag_heap a !! n) as [l|]; [|done].
  pose proof (onLog_marks n l chunk a) as Hm. destruct (onLog_spec n l chunk a) as (_ & El & _).
  assert (ag_signals (onLog n l chunk a) = ag_signals a) as Es.
  { unfold onLog. destruct (Phase.detectPhase chunk); [|done]. by destruct (String.eqb _ _). }
  destruct (la_clusterId l); [done|]. set (found := parseClusterId _).
  assert (same_marks (ag_heap a) (alter (with_buf (la_buf l +:+ chunk) found) n (ag_heap (onLog n l chunk a)))) as Ha.
  { intros k. rewrite <- (Hm k). by apply alter_marks. }
  by destruct found.
Qed.

Lemma trail_undeploy es id del a : inv a -> trail es a -> trail (es ++ [Undeploy id del]) (undeploySparkrun id del a).
Proof.
  intros I T. destruct (tracked (ag_store a) id) as [d|] eqn:E.
  2: { eapply trail_same; [exact T|done|..]; unfold undeploySparkrun; cbn [tell ag_store]; rewrite E; done. }
  destruct (ag_launchers a !! id) as [k|] eqn:Ek.
  2: { eapply trail_same; [exact T|done|..]; unfold undeploySparkrun; cbn [tell ag_store]; rewrite E; unfold kill; cbn; rewrite Ek; done. }
  destruct (inv_armed _ I id k Ek) as (l & El & Hid & Hk). destruct T as [T1 T2 T3 T4].
  unfold undeploySparkrun. cbn [tell ag_store]. rewrite E. unfold kill. cbn. rewrite Ek.
  assert (forall n, launched (es ++ [Undeploy id del]) n = launched es n) as Hl.
  { intros n. unfold launched. by rewrite omap_app, app_nil_r. }
  split; cbn.
  - intros n. rewrite Hl, <- T1. destruct (decide (n = k)) as [->|Hne]; [|by rewrite list_lookup_alter_ne].
    rewrite list_lookup_alter_eq. by destruct (ag_heap a !! k).
  - intros n x. rewrite elem_of_app, list_elem_of_singleton. destruct (decide (n = k)) as [->|Hne].
    + rewrite list_lookup_alter_eq, El. intros [= <-]. cbn. split; [by right|done].
    + rewrite list_lookup_alter_ne by done. intros Hx. rewrite (T2 n x Hx). split; [by left|by intros [?|?]].
  - intros n. rewrite length_alter, elem_of_app, list_elem_of_singleton. intros [Hin| ->]; [by apply T3|by eapply lookup_lt_Some].
  - intros j n. unfold armed. cbn. intros [_ H]%lookup_delete_Some [Hend|[[code [=]] _]]%ended_snoc. by apply (T4 j n).
Qed.

Lemma trail_step es e a : inv a -> trail es a -> trail (es ++ [e]) (react e a).
Proof.
  intros I T. destruct e as [now o|now n chunk|n code|id del|i ok]; cbn [react].
  - by apply trail_deploy.
  - destruct (onData_same now n chunk a) as (H1 & H2 & H3). apply (trail_same _ _ a); try done.
    intros id k. unfold armed. by rewrite H3.
  - unfold onExit. destruct (ag_heap a !! n) as [l|] eqn:El.
    2: { apply (trail_same _ _ a); try done. intros id k H. split; [done|]. intros c [= <- <-]. by rewrite <- (tr_launched _ _ T), El. }
    assert (trail (es ++ [Exit n code]) (set_launchers (delete (od_id (la_order l)) (ag_launchers a)) a)) as T'.
    { apply (trail_same _ _ a); try done. intros id k. unfold armed. cbn. intros [Hne H]%lookup_delete_Some. split; [done|].
      intros c [= <- <-]. destruct (inv_armed _ I id n H) as (x & Ex & Hid & _). congruence. }
    destruct (la_killed l); [done|]. case_bool_decide; [done|]. destruct T'. by split.
  - by apply trail_undeploy.
  - apply (trail_same _ _ a); try done; unfold stopReturned; by destruct (ag_stops a !! i).
Qed.

Lemma trail_run es : inv (run es idle) /\ trail es (run es idle).
Proof.
  assert (inv idle) as I0 by (split; [by intros id n H|by intros d ?%elem_of_nil|constructor]).
  split; [by apply inv_run|]. induction es as [|e es IH] using rev_ind.
  - split; [done|done|by intros n ?%elem_of_nil|]. intros id n H. done.
  - unfold run in *. rewrite foldl_app. cbn [foldl]. apply trail_step; [by apply (inv_run es)|done].
Qed.

Lemma signals_grow es a : ag_signals a `prefix_of` ag_signals (run es a).
Proof.
  revert a. induction es as [|e es IH]; intros a; [done|]. etrans; [|apply (IH (react e a))].
  destruct e as [now o|now n chunk|n code|id del|i ok]; cbn [react].
  - done.
  - by rewrite (proj1 (proj2 (onData_same now n chunk a))).
  - unfold onExit. destruct (ag_heap a !! n) as [l|]; [|done]. destruct (la_killed l); [done|]. by case_bool_decide.
  - unfold undeploySparkrun. cbn [tell ag_store]. destruct (tracked (ag_store a) id); [|done]. unfold kill. cbn.
    destruct (ag_launchers a !! id); [|done]. by apply prefix_app_r.
  - unfold stopReturned. by destruct (ag_stops a !! i).
Qed.

(** C37: Who is in the map, who is killed, and whose end is reported.  Over every run of
    orders, output, ends and stops, launchers being numbered in the order they were started:
    the store has one entry per deployment, sparkrun's.  The map holds for a deployment a
    launcher that was started for it, has not ended and was not killed.  A stop of a deployment
    of the store kills the process group of the launcher the map holds, takes it out, and kills
    nothing else.  And the end of a launcher never changes the store, and is reported, as the
    failure of its deployment, exactly when it was not killed and its code is not zero; a
    launcher once killed stays so. *)
Theorem sparkrun_runs_sound es :
  let a := run es idle in
  NoDup (map td_deploymentId (ag_store a)) /\ (forall d, d ∈ ag_store a -> td_kind d = Some KSparkrun) /\
  (forall id n, armed a id n -> launched es n = Some id /\ ~ ended es n /\ n ∉ ag_signals a) /\
  (forall id del, let b := undeploySparkrun id del a in
     ag_signals b = ag_signals a ++ (if tracked (ag_store a) id then option_list (ag_launchers a !! id) else []) /\
     (tracked (ag_store a) id <> None -> forall n, ~ armed b id n)) /\
  (forall n id code, launched es n = Some id ->
     let b := onExit n code a in
     ag_store b = ag_store a /\
     ag_sent b = ag_sent a ++ (if decide (n ∈ ag_signals a \/ code = Some 0%Z) then []
       else [Status id "failed" None (Some ("Sparkrun launch failed with exit code " +:+ Cancel.code_text code)) None])) /\
  (forall es', ag_signals a `prefix_of` ag_signals (run es' a)).
Proof.
  cbv zeta. destruct (trail_run es) as [I T]. set (a := run es idle) in *. clearbody a.
  split; [apply I|]. split; [apply I|]. split; [|split; [|split; [|intros es'; apply signals_grow]]].
  - intros id n H. destruct (inv_armed _ I id n H) as (l & El & Hid & Hk). split; [|split].
    + by rewrite <- (tr_launched _ _ T), El, <- Hid.
    + by apply (tr_armed _ _ T id).
    + rewrite <- (tr_killed _ _ T n l El). congruence.
  - intros id del. unfold undeploySparkrun. cbn [tell ag_store]. destruct (tracked (ag_store a) id); [|by rewrite app_nil_r].
    unfold kill, armed. cbn. destruct (ag_launchers a !! id) as [k|] eqn:E; cbn; rewrite ?app_nil_r; (split; [done|]); intros _ n.
    + by rewrite lookup_delete_eq.
    + by rewrite E.
  - intros n id code H. rewrite <- (tr_launched _ _ T) in H. unfold onExit.
    destruct (ag_heap a !! n) as [l|] eqn:El; [|done]. injection H as Hid. pose proof (tr_killed _ _ T n l El) as Hk.
    destruct (la_killed l).
    + rewrite decide_True by (left; by apply Hk). by rewrite app_nil_r.
    + case_bool_decide as Hc; cbn; [rewrite decide_True by (by right); by rewrite app_nil_r|].
      rewrite decide_False by (intros [Hin%Hk|?]; done). by rewrite Hid.
Qed.

(** * Concrete runs *)

Module Examples.

Definition opts0 : SparkrunLaunchOptions :=
  {| so_hosts := ["192.168.1.5"; "192.168.1.6"]; so_tp := None; so_pp := Some 2%Z; so_port := Some (zn 8000); so_gpuMem := None;
     so_maxModelLen := None; so_servedModelName := Some "qwen"; so_options := [("dtype", "bf16")];
     so_recipeName := Some "@official/qwen" |}.
Definition order0 : order := {| od_id := "d1"; od_ref := "@official/qwen"; od_opts := opts0 |}.

Example command_line :
  buildSparkrunArgs "@official/qwen" opts0 =
  ["run"; "@official/qwen"; "--no-follow"; "-H"; "192.168.1.5,192.168.1.6"; "--tp"; "2"; "--pp"; "2";
   "--port"; "8000"; "--served-model-name"; "qwen"; "-o"; "dtype=bf16"].
Proof. reflexivity. Qed.

Example a_table :
  map (fun s => (sp_ref s, sp_description s))
    (parseSparkrunList (fun _ => None)
      ("Name   Description" +:+ String nl ("-----" +:+ String nl ("@official/qwen  A  model" +:+ String nl "tiny")))) =
  [("@official/qwen", Some (JStr "A model")); ("tiny", None)].
Proof. reflexivity. Qed.

(** JSON that does not parse is read as a table. *)
Example torn_json :
  map sp_ref (parseSparkrunList (fun _ => None) ("[{ " +:+ String dq ("name" +:+ String dq ": "))) =
  ["[{ " +:+ String dq ("name" +:+ String dq ":")].
Proof. reflexivity. Qed.

Example labelled_first :
  parseClusterId ("see sparkrun_aa" +:+ String nl "  cluster : sparkrun_bb0") = Some "sparkrun_bb0" /\
  parseClusterId "id: sparkrun_12ab_solo" = None /\ parseClusterId "x sparkrun_12ab." = Some "sparkrun_12ab".
Proof. repeat split; reflexivity. Qed.

Definition started : agent := startSparkrun "t0" order0 idle.
Definition fresh : launcher :=
  {| la_order := order0; la_killed := false; la_buf := ""; la_clusterId := None; la_phase := "starting" |}.

Lemma cut_cluster_id_sticks_witness :
  hex "4f2a" /\
  exists d, tracked (ag_store (onData "t2" 0 ("9c" +:+ String nl "") (onData "t1" 0 ("Cluster: sparkrun_" +:+ "4f2a") started))) "d1" = Some d
    /\ sparkrunTarget d = "sparkrun_4f2a".
Proof.
  split; [split; [reflexivity|discriminate]|].
  destruct (cut_cluster_id_sticks started 0 fresh "4f2a" ("9c" +:+ String nl "") "t1" "t2") as (d & H1 & H2 & _);
    [reflexivity|reflexivity|reflexivity|split; [reflexivity|discriminate]|].
  exists d. split; [exact H1|exact H2].
Defined.

(** Ordered, and stopped while it downloads. *)
Definition stopped : agent := undeploySparkrun "d1" false started.

Lemma sparkrun_stop_confirmed_witness :
  tracked (ag_store stopped) "d1" <> None /\ tracked (ag_store (stopReturned 0 false stopped)) "d1" = None.
Proof.
  split; [discriminate|].
  exact (proj1 (sparkrun_stop_confirmed stopped 0 {| sp_id := "d1"; sp_delete := false |} false eq_refl)).
Defined.

Lemma stopped_launch_comes_back_witness :
  tracked (ag_store (stopReturned 0 true stopped)) "d1" = None /\
  exists d, tracked (ag_store (onData "t3" 0 ("Cluster: sparkrun_ab1" +:+ String nl "") (stopReturned 0 true stopped))) "d1" = Some d.
Proof.
  destruct (stopped_launch_comes_back stopped 0 (mark_killed fresh) 0 {| sp_id := "d1"; sp_delete := false |} true
    ("Cluster: sparkrun_ab1" +:+ String nl "") "sparkrun_ab1" "t3") as (H1 & (d & H2 & _) & _); try reflexivity.
  split; [exact H1|exists d; exact H2].
Defined.

(** Ordered, stopped, and ordered again before the first launcher has ended. *)
Definition again : agent := startSparkrun "t4" order0 (stopReturned 0 true stopped).

Lemma late_exit_disarms_stop_witness :
  let a1 := onExit 0 (Some 143%Z) again in
  ag_heap (undeploySparkrun "d1" false a1) !! 1%nat = Some fresh.
Proof.
  intros a1. exact (proj1 (proj2 (late_exit_disarms_stop again 0 (mark_killed fresh) 1 fresh (Some 143%Z) None false
    eq_refl eq_refl eq_refl eq_refl eq_refl))).
Defined.

(** The phases come in the order of the text: after "application startup complete" a line
    about loading reports the deployment loading again. *)
Example running_then_loading :
  let a := onData "t2" 0 "loading weights" (onData "t1" 0 "application startup complete" started) in
  ag_sent a = [Status "d1" "starting" None None None; Log "d1" "application startup complete";
               Status "d1" "running" (Some (zn 8000)) None None; Log "d1" "loading weights";
               Status "d1" "loading" None None None].
Proof. reflexivity. Qed.

End Examples.
