(* ===== verification/OllamaRuntime.v ===== *)
(** Ollama on an agent ([agent/runtime/ollama.ts] and its cases of [agent/index.ts]): the
    stream of a pull, in [Pull]; waiting for the service, in [Ready]; what is loaded, in
    [Loaded]; and deploys and stops of a node as steps, in [Machine].

    Ollama's HTTP interface, systemd and the clock answer as arguments.  A chunk is bytes and
    each is decoded by itself, so that a character cut by a chunk boundary becomes
    replacement characters.  Awaits that only ask are one step with what follows them.
    Messages are those handed to [sendMsg], which drops them while the socket is not open. *)
From S2P Require Import Prelude JsNum Schema Admission Gateway Deployments Recipes Routes DeployRoute LaunchArgs AgentLaunch AgentHealth.
Import Store.

Definition num_div (a b : num) : num :=
  match a, b with
  | NaN, _ | _, NaN | Inf _, Inf _ => NaN
  | Inf s, Fin q => Inf (xorb s (q_neg q))
  | Fin _, Inf _ => zn 0
  | Fin p, Fin q => if Qeq_bool q 0 then (if Qeq_bool p 0 then NaN else Inf (q_neg p)) else Fin (p / q)%Q
  end.

Definition ollamaPort : num := zn 11434.

(** [Buffer.prototype.toString()]: the bytes decoded as UTF-8, every maximal piece of an
    ill-formed sequence replaced by U+FFFD; text is its UTF-8 bytes. *)
Module Utf8.

Definition replacement : string :=
  String (ascii_of_N 239) (String (ascii_of_N 191) (String (ascii_of_N 189) "")).

(** The bytes still needed, the bounds of the next, and those of the character so far. *)
Record pending := { pd_need : nat; pd_lo : N; pd_hi : N; pd_seen : string }.

Definition one (c : ascii) : string := String c "".
Definition within (lo hi : N) (c : ascii) : bool := ((lo <=? N_of_ascii c) && (N_of_ascii c <=? hi))%N.

(** The first byte of a character. *)
Definition lead (c : ascii) : string * option pending :=
  let more n (lo hi : N) := ("", Some {| pd_need := n; pd_lo := lo; pd_hi := hi; pd_seen := one c |}) in
  if within 0 127 c then (one c, None)
  else if within 194 223 c then more 1 128%N 191%N
  else if within 224 224 c then more 2 160%N 191%N
  else if within 237 237 c then more 2 128%N 159%N
  else if within 225 239 c then more 2 128%N 191%N
  else if within 240 240 c then more 3 144%N 191%N
  else if within 241 243 c then more 3 128%N 191%N
  else if within 244 244 c then more 3 128%N 143%N
  else (replacement, None).

Definition step (c : ascii) (st : option pending) : string * option pending :=
  match st with
  | None => lead c
  | Some p =>
      if within (pd_lo p) (pd_hi p) c then
        match pd_need p with
        | S (S n) => ("", Some {| pd_need := S n; pd_lo := 128; pd_hi := 191; pd_seen := pd_seen p +:+ one c |})
        | _ => (pd_seen p +:+ one c, None)
        end
      else let '(out, st') := lead c in (replacement +:+ out, st')
  end.

Fixpoint run (s : string) (st : option pending) : string * option pending :=
  match s with
  | EmptyString => ("", st)
  | String c s => let '(out, st1) := step c st in let '(rest, st2) := run s st1 in (out +:+ rest, st2)
  end.

Definition toString (bytes : string) : string :=
  let '(out, st) := run bytes None in out +:+ match st with Some _ => replacement | None => "" end.

End Utf8.

Module Pull.

Record OllamaPullProgress := {
  pp_status : string; pp_percent : option num; pp_current : option num; pp_total : option num }.

(** The closure of [pullModel]: [buffer], what it logged and reported, and the first
    [reject]. *)
Record pull := {
  pl_buffer : string; pl_log : list string; pl_progress : list OllamaPullProgress; pl_rejected : option string }.

Definition begin : pull := {| pl_buffer := ""; pl_log := []; pl_progress := []; pl_rejected := None |}.

Definition text_of (v : option json) : string :=
  match v with Some x => Recipes.Recipe.string_of x | None => "undefined" end.

Definition percentOf (msg : option json) : option num :=
  let c := jget msg "completed" in let t := jget msg "total" in
  if jtruthy c && jtruthy t then Some (num_round (num_mul (num_div (toNum c) (toNum t)) (zn 100))) else None.

Definition progressOf (msg : option json) : OllamaPullProgress :=
  {| pp_status := text_of (jget msg "status"); pp_percent := percentOf msg;
     pp_current := jnum (jget msg "completed"); pp_total := jnum (jget msg "total") |}.

Definition logOf (msg : option json) : string :=
  text_of (jget msg "status") +:+
  match percentOf msg with Some p => " " +:+ num_str p +:+ "%" | None => "" end +:+ String nl "".

Definition add_status (msg : option json) (p : pull) : pull :=
  if jtruthy (jget msg "status")
  then {| pl_buffer := pl_buffer p; pl_log := pl_log p ++ [logOf msg];
          pl_progress := pl_progress p ++ [progressOf msg]; pl_rejected := pl_rejected p |}
  else p.

(** The first [reject] settles the promise. *)
Definition reject (e : string) (p : pull) : pull :=
  {| pl_buffer := pl_buffer p; pl_log := pl_log p; pl_progress := pl_progress p;
     pl_rejected := Some (default e (pl_rejected p)) |}.

Definition set_buffer (b : string) (p : pull) : pull :=
  {| pl_buffer := b; pl_log := pl_log p; pl_progress := pl_progress p; pl_rejected := pl_rejected p |}.

Definition errorOf (msg : option json) : option string :=
  let e := jget msg "error" in if jtruthy e then Some (text_of e) else None.

Section Stream.
(** [JSON.parse]. *)
Context (parse : string -> jtext).

(** The loop over the lines of a chunk; an error ends it. *)
Fixpoint onLines (lines : list string) (p : pull) : pull :=
  match lines with
  | [] => p
  | line :: rest =>
      if String.eqb (str_trim line) "" then onLines rest p
      else
        match parse line with
        | None => onLines rest p
        | msg =>
            let p1 := add_status msg p in
            match errorOf msg with Some e => reject e p1 | None => onLines rest p1 end
        end
  end.

(** The [data] handler. *)
Definition onChunk (p : pull) (chunk : string) : pull :=
  let lines := str_split nl (pl_buffer p +:+ Utf8.toString chunk) in
  onLines (removelast lines) (set_buffer (List.last lines "") p).

Definition onChunks (chunks : list string) (p : pull) : pull := foldl onChunk p chunks.

End Stream.

(** The errors of the connection, as [String(err)]. *)
Inductive closing := Ended | ResponseError (e : string) | RequestError (e : string).

(** What the promise settles with, an error as [String(err)]; [aborted]: the signal's state when the request ends. *)
Definition settlePull (aborted : bool) (p : pull) (c : closing) : result string () :=
  match pl_rejected p with
  | Some e => Err ("Error: " +:+ e)
  | None =>
      match c with
      | Ended => Ok ()
      | ResponseError e => Err e
      | RequestError e => if aborted then Ok () else Err e
      end
  end.

End Pull.

Module Ready.

Record OllamaReadyBudget := { maxAttempts : option nat; intervalMs : option Z }.

Definition OLLAMA_BOOT_READY_BUDGET : OllamaReadyBudget := {| maxAttempts := Some 90; intervalMs := Some 2000%Z |}.

(** [isRunning k]: the answer to the [k]th question, from 0 on.  The probes after the start,
    from the [k]th on, [room] of them at most. *)
Fixpoint poll (isRunning : nat -> bool) (k room : nat) : option nat :=
  match room with
  | O => None
  | S room => if isRunning k then Some k else poll isRunning (S k) room
  end.

Definition start_line : string := "Ollama service not running, starting it (systemctl start ollama)..." +:+ String nl "".
Definition started_line : string := "Ollama service started." +:+ String nl "".

Definition unreachable (attempts : nat) (ms : Z) : string :=
  "Ollama service was started but the API did not become reachable after " +:+ pretty (Z.of_nat attempts) +:+
  " attempts over ~" +:+ pretty (round_q (Z.of_nat attempts * ms # 1000)) +:+ "s (port 11434)".

(** The outcome, the log, and how many times it slept. *)
Definition ensureOllamaRunning (isRunning : nat -> bool) (startService : result string ()) (opts : OllamaReadyBudget) :
    result string () * list string * nat :=
  let attempts := default 10 (maxAttempts opts) in
  let ms := default 2000%Z (intervalMs opts) in
  if isRunning 0 then (Ok (), [], 0)
  else
    match startService with
    | Err e => (Err ("Failed to start Ollama service: " +:+ e), [start_line], 0)
    | Ok _ =>
        match poll isRunning 1 attempts with
        | Some k => (Ok (), [start_line; started_line], k)
        | None => (Err (unreachable attempts ms), [start_line], attempts)
        end
    end.

Definition ollamaStartArgv : list string := ["-n"; "systemctl"; "start"; "--no-block"; "ollama"].

End Ready.

Module Loaded.

(** [/api/ps] *)
Definition models := list (string * num).

Definition megabytes (size : num) : num := num_round (num_mul size (Fin (1 # 1048576))).

Definition findModel (ps : models) (modelName : string) : option (string * num) :=
  js_find (fun m : string * num => String.prefix modelName m.1) ps.

Record OllamaStatus := { os_deploymentId : string; os_modelName : string; os_loaded : bool; os_vramUsed : option num }.

(** [ps]: [None] when the request fails. *)
Definition checkOllamaHealth (active : gmap string string) (ps : option models) (id : string) : option OllamaStatus :=
  match truthy (active !! id) with
  | None => None
  | Some name =>
      let m := match ps with Some l => findModel l name | None => None end in
      Some {| os_deploymentId := id; os_modelName := name; os_loaded := bool_decide (is_Some m);
              os_vramUsed := megabytes ∘ snd <$> m |}
  end.

(** What the health tick sends of all that is loaded. *)
Definition loadedModels (ps : models) : list (string * num) := map (fun m => (m.1, megabytes m.2)) ps.

End Loaded.

Module Machine.
Import Loaded.

Inductive message :=
  | Status (id status : string) (port vramActual : option num) (error : option string) (deleteAfter : option bool)
  | Log (id text : string)
  | PullProgress (id : string) (p : Pull.OllamaPullProgress).

Inductive stage := Ensuring | Pulling | Loading | Over.

(** A call of [deployModel] and its abort controller. *)
Record task := { tk_id : string; tk_model : string; tk_embedding : bool; tk_aborted : bool; tk_stage : stage }.

Definition set_stage (s : stage) (t : task) : task :=
  {| tk_id := tk_id t; tk_model := tk_model t; tk_embedding := tk_embedding t; tk_aborted := tk_aborted t; tk_stage := s |}.
Definition abort (t : task) : task :=
  {| tk_id := tk_id t; tk_model := tk_model t; tk_embedding := tk_embedding t; tk_aborted := true; tk_stage := tk_stage t |}.

(** A stop waiting for the unload of a model. *)
Record stop := { st_id : string; st_model : string; st_delete : bool }.

Record agent := {
  og_store : store; og_active : gmap string string; og_controllers : gmap string nat;
  og_lastState : gmap string string; og_tasks : list task; og_stops : list stop; og_sent : list message }.

Definition set_store (s : store) (a : agent) : agent :=
  {| og_store := s; og_active := og_active a; og_controllers := og_controllers a; og_lastState := og_lastState a;
     og_tasks := og_tasks a; og_stops := og_stops a; og_sent := og_sent a |}.
Definition set_active (m : gmap string string) (a : agent) : agent :=
  {| og_store := og_store a; og_active := m; og_controllers := og_controllers a; og_lastState := og_lastState a;
     og_tasks := og_tasks a; og_stops := og_stops a; og_sent := og_sent a |}.
Definition set_controllers (m : gmap string nat) (a : agent) : agent :=
  {| og_store := og_store a; og_active := og_active a; og_controllers := m; og_lastState := og_lastState a;
     og_tasks := og_tasks a; og_stops := og_stops a; og_sent := og_sent a |}.
Definition set_lastState (m : gmap string string) (a : agent) : agent :=
  {| og_store := og_store a; og_active := og_active a; og_controllers := og_controllers a; og_lastState := m;
     og_tasks := og_tasks a; og_stops := og_stops a; og_sent := og_sent a |}.
Definition set_tasks (l : list task) (a : agent) : agent :=
  {| og_store := og_store a; og_active := og_active a; og_controllers := og_controllers a; og_lastState := og_lastState a;
     og_tasks := l; og_stops := og_stops a; og_sent := og_sent a |}.
Definition set_stops (l : list stop) (a : agent) : agent :=
  {| og_store := og_store a; og_active := og_active a; og_controllers := og_controllers a; og_lastState := og_lastState a;
     og_tasks := og_tasks a; og_stops := l; og_sent := og_sent a |}.
Definition post (ms : list message) (a : agent) : agent :=
  {| og_store := og_store a; og_active := og_active a; og_controllers := og_controllers a; og_lastState := og_lastState a;
     og_tasks := og_tasks a; og_stops := og_stops a; og_sent := og_sent a ++ ms |}.

Definition logLines (id : string) (l : list string) : list message := map (Log id) l.

Definition ollama_entry (now id modelName : string) : TrackedDeployment :=
  {| td_deploymentId := id; td_recipeFile := modelName; td_recipeName := modelName; td_port := ollamaPort;
     td_startedAt := now; td_clusterNodes := None; td_clusterId := None; td_tp := None; td_kind := Some KOllama;
     td_rank := None; td_masterAddr := None; td_masterPort := None; td_stopping := None; td_starting := None |}.

(** [cmd:deploy] of an Ollama model, up to [deployModel]'s first wait. *)
Definition orderModel (now id modelName : string) (embedding : bool) (a : agent) : agent :=
  let a1 := post [Status id "starting" None None None None] (set_lastState (delete id (og_lastState a)) a) in
  let a2 := set_store (saveDeployment (og_store a1) (ollama_entry now id modelName))
              (set_active (<[id := modelName]> (og_active a1)) a1) in
  set_controllers (<[id := length (og_tasks a2)]> (og_controllers a2))
    (set_tasks (og_tasks a2 ++ [{| tk_id := id; tk_model := modelName; tk_embedding := embedding;
                                   tk_aborted := false; tk_stage := Ensuring |}]) a2).

Definition move (n : nat) (s : stage) (a : agent) : agent := set_tasks (alter (set_stage s) n (og_tasks a)) a.

(** The [catch] of [deployModel], and its caller's; [e]: [String(err)]. *)
Definition fail (n : nat) (t : task) (e : string) (a : agent) : agent :=
  let id := tk_id t in
  let err := Some e in
  move n Over
    (post [Status id "failed" None None err None; Status id "failed" None None err None]
       (set_store (removeDeployment (og_store a) id) (set_active (delete id (og_active a)) a))).

(** The caller's [then]. *)
Definition succeed (n : nat) (t : task) (vramActual : num) (a : agent) : agent :=
  move n Over (post [Status (tk_id t) "running" (Some ollamaPort) (Some vramActual) None None] a).

Definition pulling_line (m : string) : string := "Pulling " +:+ m +:+ "..." +:+ String nl "".
Definition pulled_line : string := "Pull complete." +:+ String nl "".
Definition loading_line (m : string) : string := "Loading " +:+ m +:+ " into GPU memory..." +:+ String nl "".
Definition running_line (m : string) (vram : num) : string :=
  m +:+ " is running on port 11434 (" +:+ num_str (num_round (num_mul vram (Fin (1 # 1024)))) +:+ "GB VRAM)" +:+ String nl "".

(** [deployModel] after the wait for the service, up to the pull. *)
Definition onEnsured (n : nat) (isRunning : nat -> bool) (startService : result string ()) (a : agent) : agent :=
  match og_tasks a !! n with
  | Some t =>
      match tk_stage t with
      | Ensuring =>
          let '(r, log, _) := Ready.ensureOllamaRunning isRunning startService
                                {| Ready.maxAttempts := None; Ready.intervalMs := None |} in
          let a1 := post (logLines (tk_id t) log) a in
          match r with
          | Err e => fail n t ("Error: " +:+ e) a1
          | Ok _ =>
              let a2 := post [Status (tk_id t) "downloading" None None None None; Log (tk_id t) (pulling_line (tk_model t))] a1 in
              if tk_aborted t then fail n t "Error: Aborted" a2 else move n Pulling a2
          end
      | _ => a
      end
  | None => a
  end.

(** From the pull to the load. *)
Definition onPulled (n : nat) (parse : string -> jtext) (chunks : list string) (c : Pull.closing) (a : agent) : agent :=
  match og_tasks a !! n with
  | Some t =>
      match tk_stage t with
      | Pulling =>
          let id := tk_id t in
          let p := Pull.onChunks parse chunks Pull.begin in
          let a1 := post (logLines id (Pull.pl_log p) ++ map (PullProgress id) (Pull.pl_progress p)) a in
          match Pull.settlePull (tk_aborted t) p c with
          | Err e => fail n t e a1
          | Ok _ =>
              if tk_aborted t then succeed n t (zn 0) a1
              else move n Loading
                     (post [Log id pulled_line; Status id "loading" None None None None; Log id (loading_line (tk_model t))] a1)
          end
      | _ => a
      end
  | None => a
  end.

(** From the load to the end: the load's outcome, and what [/api/ps] lists. *)
Definition onLoaded (n : nat) (load : result string ()) (ps : result string models) (a : agent) : agent :=
  match og_tasks a !! n with
  | Some t =>
      match tk_stage t with
      | Loading =>
          match load, ps with
          | Err e, _ | Ok _, Err e => fail n t e a
          | Ok _, Ok l =>
              match findModel l (tk_model t) with
              | None => fail n t "Error: Model not in GPU memory after loading" a
              | Some m =>
                  let vram := megabytes m.2 in
                  succeed n t vram (post [Log (tk_id t) (running_line (tk_model t) vram)] a)
              end
          end
      | _ => a
      end
  | None => a
  end.

(** The end of [stopModel], and the report of [cmd:undeploy]. *)
Definition finishStop (id : string) (deleteAfter : bool) (a : agent) : agent :=
  post [Status id "stopped" None None None (Some deleteAfter)] (set_store (removeDeployment (og_store a) id) a).

(** [cmd:undeploy] of an Ollama deployment, up to the wait for the unload. *)
Definition undeployModel (id : string) (modelNameOverride : option string) (deleteAfter : bool) (a : agent) : agent :=
  let a0 := post [Status id "stopping" None None None None] a in
  let a1 := match tracked (og_store a0) id with
            | Some d => set_store (saveDeployment (og_store a0) (set_stopping true d)) a0
            | None => a0
            end in
  let a2 := match og_controllers a1 !! id with
            | Some n => set_controllers (delete id (og_controllers a1)) (set_tasks (alter abort n (og_tasks a1)) a1)
            | None => a1
            end in
  match truthy (match truthy (og_active a2 !! id) with Some m => Some m | None => modelNameOverride end) with
  | None => finishStop id deleteAfter a2
  | Some m => set_stops (og_stops a2 ++ [{| st_id := id; st_model := m; st_delete := deleteAfter |}]) a2
  end.

(** The unload came back, one way or the other. *)
Definition onUnloaded (i : nat) (a : agent) : agent :=
  match og_stops a !! i with
  | None => a
  | Some s =>
      let a1 := set_stops (delete i (og_stops a)) a in
      finishStop (st_id s) (st_delete s) (set_active (delete (st_id s) (og_active a1)) a1)
  end.

(** [trackOllamaDeployment], as the reconnect reconcile calls it: of an entry it has just
    read again and that is not being stopped. *)
Definition onTrack (id : string) (a : agent) : agent :=
  match tracked (og_store a) id with
  | Some d => if default false (td_stopping d) || negb (Ollama.isOllama d) then a
              else set_active (<[id := td_recipeFile d]> (og_active a)) a
  | None => a
  end.

(** The health tick's look at one tracked deployment. *)
Definition tickOne (ps : option models) (id : string) (a : agent) : agent :=
  match checkOllamaHealth (og_active a) ps id with
  | None => a
  | Some h =>
      match Ollama.onHealth (os_loaded h) id (og_lastState a) with
      | (last, Some "evicted") =>
          post [Status id "evicted" None (Some (zn 0))
                  (Some ("Model " +:+ os_modelName h +:+ " was unloaded from GPU memory")) None] (set_lastState last a)
      | (last, Some _) =>
          post [Status id "running" (Some ollamaPort) (os_vramUsed h) None None] (set_lastState last a)
      | (_, None) => a
      end
  end.

(** The agent's process starts again: what is in memory is gone. *)
Definition onRestart (a : agent) : agent :=
  {| og_store := og_store a; og_active := ∅; og_controllers := ∅; og_lastState := ∅; og_tasks := []; og_stops := [];
     og_sent := og_sent a |}.

Inductive event :=
  | Order (now id modelName : string) (embedding : bool)
  | Ensured (n : nat) (isRunning : nat -> bool) (startService : result string ())
  | Pulled (n : nat) (parse : string -> jtext) (chunks : list string) (c : Pull.closing)
  | LoadEnded (n : nat) (load : result string ()) (ps : result string models)
  | Undeploy (id : string) (modelName : option string) (deleteAfter : bool)
  | Unloaded (i : nat)
  | Track (id : string)
  | Tick (ps : option models) (id : string)
  | Restarted.

(** An order without a model's name is not one of Ollama. *)
Definition react (e : event) (a : agent) : agent :=
  match e with
  | Order now id m emb => if String.eqb m "" then a else orderModel now id m emb a
  | Ensured n r s => onEnsured n r s a
  | Pulled n parse chunks c => onPulled n parse chunks c a
  | LoadEnded n l ps => onLoaded n l ps a
  | Undeploy id m del => undeployModel id m del a
  | Unloaded i => onUnloaded i a
  | Track id => onTrack id a
  | Tick ps id => tickOne ps id a
  | Restarted => onRestart a
  end.

Definition run (es : list event) (a : agent) : agent := foldl (fun a e => react e a) a es.

Definition idle : agent :=
  {| og_store := []; og_active := ∅; og_controllers := ∅; og_lastState := ∅; og_tasks := []; og_stops := []; og_sent := [] |}.

End Machine.
