(* ===== verification/OllamaRuntimeFacts.v ===== *)
(** Ollama on an agent: what a pull's outcome depends on, decoding chunk by chunk, the wait
    for the service is bounded, and what stops and late failures leave of a deployment. *)
From S2P Require Import Prelude JsNum Schema Admission Gateway Deployments Recipes Routes DeployRoute LaunchArgs AgentLaunch AgentLaunchFacts AgentHealth OllamaRuntime.
Import Store OllamaRuntime.Pull OllamaRuntime.Ready OllamaRuntime.Loaded OllamaRuntime.Machine.

(** * Decoding *)

(** What the handler reads: the chunks, each decoded by itself. *)
Definition decoded (chunks : list string) : string := String.concat "" (map Utf8.toString chunks).

Lemma decoded_cons c chunks : decoded (c :: chunks) = Utf8.toString c +:+ decoded chunks.
Proof. apply concat_cons. Qed.

Module Utf8Facts.
Import Utf8.

(** The bytes end with a character, or with what can begin none. *)
Definition whole (bytes : string) : Prop := (run bytes None).2 = None.

Lemma run_app x y st :
  run (x +:+ y) st = let '(o1, st1) := run x st in let '(o2, st2) := run y st1 in (o1 +:+ o2, st2).
Proof.
  revert st. induction x as [|c x IH]; intros st; [rewrite app_empty_l; cbn [run]; destruct (run y st); by rewrite app_empty_l|]. rewrite app_String. cbn [run].
  destruct (step c st) as [o1 st1]. rewrite IH. destruct (run x st1) as [o2 st2], (run y st2) as [o3 st3].
  by rewrite str_app_assoc.
Qed.

Lemma decoded_whole chunks : Forall whole chunks -> decoded chunks = toString (String.concat "" chunks).
Proof.
  intros H. assert (run (String.concat "" chunks) None = (decoded chunks, None)) as E.
  { induction H as [|c chunks Hc H IH]; [done|]. rewrite concat_cons, decoded_cons, run_app. unfold toString.
    unfold whole in Hc. destruct (run c None) as [o st]. cbn in Hc. subst st. rewrite IH. by rewrite app_empty_r. }
  unfold toString. rewrite E. by rewrite app_empty_r.
Qed.

(** Line feeds. *)
Fixpoint feeds (s : string) : nat :=
  match s with EmptyString => 0 | String c s => (if Ascii.eqb c nl then 1 else 0) + feeds s end.

Lemma feeds_split s : length (str_split nl s) = S (feeds s).
Proof.
  induction s as [|c s IH]; [done|]. cbn [str_split feeds]. destruct (Ascii.eqb c nl); [by cbn; rewrite IH|].
  destruct (str_split nl s); [done|exact IH].
Qed.

Lemma feeds_app x y : feeds (x +:+ y) = feeds x + feeds y.
Proof. induction x as [|c x IH]; [done|]. rewrite app_String. cbn. rewrite IH. lia. Qed.

(** A character under way has no line feed, and none can come next. *)
Definition quiet (st : option pending) : Prop :=
  match st with None => True | Some p => (128 <= pd_lo p)%N /\ feeds (pd_seen p) = 0 end.

Lemma lead_feeds c : feeds (lead c).1 = feeds (one c) /\ quiet (lead c).2.
Proof. destruct c as [[] [] [] [] [] [] [] []]; vm_compute; (split; [reflexivity|]); try done; by split. Qed.

Lemma within_feeds lo hi c : (128 <= lo)%N -> within lo hi c = true -> feeds (one c) = 0.
Proof.
  intros Hlo [H _]%andb_prop. apply N.leb_le in H. cbn. destruct (Ascii.eqb c nl) eqn:E; [|done].
  apply Ascii.eqb_eq in E. subst c. change (N_of_ascii nl) with 10%N in H. lia.
Qed.

Lemma step_feeds c st : quiet st -> feeds (step c st).1 = feeds (one c) /\ quiet (step c st).2.
Proof.
  destruct st as [[n lo hi seen]|]; [|intros _; apply lead_feeds]. cbn [quiet step pd_need pd_lo pd_hi pd_seen].
  intros [Hlo Hs]. destruct (within lo hi c) eqn:E.
  - apply (within_feeds lo hi c Hlo) in E. destruct n as [|[|n]]; cbn [fst snd quiet]; rewrite ?feeds_app, ?Hs, ?E.
    all: cbn [feeds pd_lo pd_seen]; rewrite ?feeds_app, ?Hs, ?E; (split; [done|]); (exact I || (split; [lia|done])).
  - pose proof (lead_feeds c) as [H1 H2]. destruct (lead c) as [o st]. cbn [fst snd] in *. by rewrite feeds_app.
Qed.

Lemma run_feeds s st : quiet st -> feeds (run s st).1 = feeds s.
Proof.
  revert st. induction s as [|c s IH]; intros st H; [done|]. cbn [run]. destruct (step_feeds c st H) as [E Q].
  destruct (step c st) as [o st1]. cbn [fst snd] in *. specialize (IH st1 Q). destruct (run s st1) as [r st2].
  cbn [fst] in *. rewrite feeds_app, E, IH. cbn. lia.
Qed.

Lemma toString_feeds s : feeds (toString s) = feeds s.
Proof.
  unfold toString. rewrite <- (run_feeds s None I). destruct (run s None) as [o [p|]]; rewrite feeds_app;
    cbn [fst]; [change (feeds replacement) with 0|change (feeds "") with 0]; lia.
Qed.

Lemma decoded_lines chunks : length (str_split nl (decoded chunks)) = length (str_split nl (String.concat "" chunks)).
Proof.
  rewrite !feeds_split. f_equal. induction chunks as [|c chunks IH]; [done|].
  by rewrite decoded_cons, concat_cons, !feeds_app, toString_feeds, IH.
Qed.

(** An e with an acute accent, whole and cut in two. *)
Definition e_acute : string := String (ascii_of_N 195) (String (ascii_of_N 169) "").
Example whole_e : toString e_acute = e_acute /\ whole e_acute.
Proof. by split. Qed.
Example cut_e : decoded [String (ascii_of_N 195) ""; String (ascii_of_N 169) ""] = replacement +:+ replacement.
Proof. reflexivity. Qed.

End Utf8Facts.

(** * The stream of a pull *)

Lemma split_nonempty sep s : str_split sep s <> [].
Proof. destruct s as [|c s]; cbn; [done|]. by destruct (Ascii.eqb c sep), (str_split sep s). Qed.

Lemma split_single sep s w : str_split sep s = [w] -> s = w.
Proof.
  revert w. induction s as [|c s IH]; intros w; cbn; [congruence|].
  destruct (Ascii.eqb c sep).
  - intros [= _ H]. by apply split_nonempty in H.
  - destruct (str_split sep s) as [|v vs] eqn:E; [by apply split_nonempty in E|].
    intros [= <- ->]. by rewrite (IH v).
Qed.

Lemma removelast_cons {A} (x : A) l : l <> [] -> removelast (x :: l) = x :: removelast l.
Proof. by destruct l. Qed.

Lemma last_cons_nonempty {A} (x : A) l d : l <> [] -> List.last (x :: l) d = List.last l d.
Proof. by destruct l. Qed.

(** A text that grows: the complete lines only grow, and what is left of the last line is
    all that the rest is read with. *)
Lemma split_grows sep x y :
  let w := List.last (str_split sep x) "" in
  removelast (str_split sep (x +:+ y)) = removelast (str_split sep x) ++ removelast (str_split sep (w +:+ y)) /\
  List.last (str_split sep (x +:+ y)) "" = List.last (str_split sep (w +:+ y)) "".
Proof.
  induction x as [|c x IH]; cbv zeta in *; [done|]. rewrite app_String. cbn [str_split].
  destruct (Ascii.eqb c sep) eqn:E.
  - rewrite !removelast_cons, !last_cons_nonempty by apply split_nonempty. destruct IH as [-> ->]. done.
  - destruct (str_split sep x) as [|w ws] eqn:Ex; [by apply split_nonempty in Ex|].
    destruct ws as [|w' ws].
    + cbn [removelast List.last app] in IH |- *. apply split_single in Ex. subst w.
      rewrite app_String. cbn [str_split]. by rewrite E.
    + rewrite (removelast_cons w) in IH by done. rewrite (last_cons_nonempty w) in IH by done.
      destruct (str_split sep (x +:+ y)) as [|v vs] eqn:Ey; [by apply split_nonempty in Ey|].
      destruct IH as [H1 H2]. destruct vs as [|v' vs]; [by destruct ws|].
      rewrite (removelast_cons v) in H1 by done. rewrite (last_cons_nonempty v) in H2 by done. cbn [app] in H1.
      injection H1 as -> H1.
      rewrite (removelast_cons (String c w) (v' :: vs)), (removelast_cons (String c w) (w' :: ws)),
        (last_cons_nonempty (String c w) (v' :: vs)), (last_cons_nonempty (String c w) (w' :: ws)) by done.
      split; [exact (f_equal (cons (String c w)) H1)|exact H2].
Qed.

Section Stream.
Context (parse : string -> jtext).

Definition messageOf (line : string) : option json :=
  if String.eqb (str_trim line) "" then None else parse line.
Definition messagesOf (lines : list string) : list json := omap messageOf lines.

Definition errorsOf (lines : list string) : list string := omap (fun m => errorOf (Some m)) (messagesOf lines).
Definition statusesOf (lines : list string) : list json :=
  List.filter (fun m => jtruthy (jget (Some m) "status")) (messagesOf lines).

Lemma onLines_message line rest p :
  onLines parse (line :: rest) p =
  match messageOf line with
  | None => onLines parse rest p
  | Some m => match errorOf (Some m) with
              | Some e => reject e (add_status (Some m) p)
              | None => onLines parse rest (add_status (Some m) p)
              end
  end.
Proof. cbn [onLines]. unfold messageOf. destruct (String.eqb _ _); [done|]. by destruct (parse line). Qed.

Lemma add_status_spec m p :
  let p' := add_status (Some m) p in
  pl_buffer p' = pl_buffer p /\ pl_rejected p' = pl_rejected p /\
  pl_log p' = pl_log p ++ map (fun m => logOf (Some m)) (List.filter (fun m => jtruthy (jget (Some m) "status")) [m]) /\
  pl_progress p' = pl_progress p ++ map (fun m => progressOf (Some m)) (List.filter (fun m => jtruthy (jget (Some m) "status")) [m]).
Proof.
  unfold add_status. cbn [List.filter]. destruct (jtruthy (jget (Some m) "status")); cbn; rewrite ?app_nil_r; done.
Qed.

Lemma onLines_spec lines p :
  let p' := onLines parse lines p in
  pl_buffer p' = pl_buffer p /\
  pl_rejected p' = match pl_rejected p with Some e => Some e | None => head (errorsOf lines) end /\
  (errorsOf lines = [] ->
   pl_log p' = pl_log p ++ map (fun m => logOf (Some m)) (statusesOf lines) /\
   pl_progress p' = pl_progress p ++ map (fun m => progressOf (Some m)) (statusesOf lines)).
Proof.
  revert p. induction lines as [|line rest IH]; intros p; cbv zeta in *.
  - cbn. rewrite !app_nil_r. by destruct (pl_rejected p).
  - rewrite onLines_message. unfold errorsOf, statusesOf, messagesOf in *. cbn [omap list_omap].
    destruct (messageOf line) as [m|]; [|exact (IH p)].
    destruct (add_status_spec m p) as (Hb & Hr & Hl & Hp). cbn [omap list_omap].
    destruct (errorOf (Some m)) as [e|].
    + cbn. rewrite Hb, Hr. split; [done|]. split; [by destruct (pl_rejected p)|done].
    + destruct (IH (add_status (Some m) p)) as (-> & -> & H). rewrite Hb, Hr. split; [done|]. split; [done|].
      intros He. destruct (H He) as [-> ->]. rewrite Hl, Hp. cbn [List.filter].
      destruct (jtruthy (jget (Some m) "status")); cbn; rewrite <- ?app_assoc; done.
Qed.

(** The lines a text has in full: what follows its last line feed is none. *)
Definition completeLines (text : string) : list string := removelast (str_split nl text).

Lemma onChunks_spec chunks p text :
  pl_buffer p = List.last (str_split nl text) "" -> pl_rejected p = head (errorsOf (completeLines text)) ->
  (errorsOf (completeLines text) = [] ->
   pl_log p = map (fun m => logOf (Some m)) (statusesOf (completeLines text)) /\
   pl_progress p = map (fun m => progressOf (Some m)) (statusesOf (completeLines text))) ->
  let p' := onChunks parse chunks p in
  let whole := completeLines (text +:+ decoded chunks) in
  pl_rejected p' = head (errorsOf whole) /\
  (errorsOf whole = [] ->
   pl_log p' = map (fun m => logOf (Some m)) (statusesOf whole) /\
   pl_progress p' = map (fun m => progressOf (Some m)) (statusesOf whole)).
Proof.
  revert p text. induction chunks as [|d chunks IH]; intros p text Hb Hr Hl; cbv zeta in *.
  - cbn. rewrite app_empty_r. by split.
  - rewrite decoded_cons, <- str_app_assoc. unfold onChunks. cbn [foldl]. set (c := Utf8.toString d).
    destruct (split_grows nl text c) as [G1 G2]. rewrite <- Hb in G1, G2.
    destruct (onLines_spec (removelast (str_split nl (pl_buffer p +:+ c)))
      (set_buffer (List.last (str_split nl (pl_buffer p +:+ c)) "") p)) as (Hb' & Hr' & Hl').
    assert (errorsOf (completeLines (text +:+ c)) = errorsOf (completeLines text) ++
      errorsOf (removelast (str_split nl (pl_buffer p +:+ c)))) as He.
    { unfold completeLines. rewrite G1. unfold errorsOf, messagesOf. by rewrite !omap_app. }
    apply (IH (onChunk parse p d) (text +:+ c)); unfold onChunk; fold c.
    + by rewrite Hb', G2.
    + rewrite Hr', He. cbn [set_buffer pl_rejected]. rewrite Hr. by destruct (errorsOf (completeLines text)).
    + rewrite He. intros [H1 H2]%app_nil. destruct (Hl H1) as [L1 L2], (Hl' H2) as [-> ->]. cbn [set_buffer pl_log pl_progress].
      rewrite L1, L2. unfold completeLines. rewrite G1. unfold statusesOf, messagesOf.
      by rewrite omap_app, List.filter_app, !map_app.
Qed.

(** C34: How a pull ends follows from the text of its chunks, each decoded by itself.
    Whatever the chunks, the promise settles by the first error among the complete lines of
    their decodings joined, and where there is none by how the connection ended; and without
    an error what is logged and reported is one line and one step of progress per complete
    line with a status.  Where no chunk ends inside a character, that text is the decoding of
    the whole stream, so that nothing of this depends on the cuts; a chunk that does end
    inside one changes characters of a line, but never how many lines there are. *)
Theorem pull_outcome chunks aborted c :
  let text := decoded chunks in
  let lines := completeLines text in
  let p := onChunks parse chunks begin in
  settlePull aborted p c =
    match errorsOf lines, c with
    | e :: _, _ => Err ("Error: " +:+ e)
    | [], Ended => Ok ()
    | [], ResponseError e => Err e
    | [], RequestError e => if aborted then Ok () else Err e
    end /\
  (errorsOf lines = [] ->
   pl_log p = map (fun m => logOf (Some m)) (statusesOf lines) /\
   pl_progress p = map (fun m => progressOf (Some m)) (statusesOf lines)) /\
  (Forall Utf8Facts.whole chunks -> text = Utf8.toString (String.concat "" chunks)) /\
  length (str_split nl text) = length (str_split nl (String.concat "" chunks)).
Proof.
  cbv zeta. destruct (onChunks_spec chunks begin "") as [Hr Hl]; [done..|]. rewrite app_empty_l in Hr, Hl.
  split; [|split; [exact Hl|]].
  - unfold settlePull. rewrite Hr. by destruct (errorsOf _), c.
  - split; [apply Utf8Facts.decoded_whole|apply Utf8Facts.decoded_lines].
Qed.

End Stream.

(** * Waiting for the service *)

Lemma poll_spec isRunning k room :
  match poll isRunning k room with
  | Some j => k <= j < k + room /\ isRunning j = true /\ forall i, k <= i < j -> isRunning i = false
  | None => forall i, k <= i < k + room -> isRunning i = false
  end.
Proof.
  revert k. induction room as [|room IH]; intros k; cbn; [lia|]. destruct (isRunning k) eqn:E.
  - split; [lia|]. split; [done|lia].
  - specialize (IH (S k)). destruct (poll isRunning (S k) room) as [j|].
    + destruct IH as (? & ? & H). split; [lia|]. split; [done|]. intros i Hi.
      destruct (decide (i = k)) as [->|]; [done|]. apply H. lia.
    + intros i Hi. destruct (decide (i = k)) as [->|]; [done|]. apply IH. lia.
Qed.

(** The wait for Ollama is bounded and tells the truth.  It succeeds exactly when the
    service answers at once, or its start is accepted and it answers one of the questions
    asked after that; it sleeps no more often than the budget says, stops at the first
    answer, and a service that already answers is not started. *)
Theorem ensureOllamaRunning_spec isRunning startService opts :
  let attempts := default 10 (maxAttempts opts) in
  let '(r, log, slept) := ensureOllamaRunning isRunning startService opts in
  slept <= attempts /\
  (r = Ok () <-> isRunning 0 = true \/
                 startService = Ok () /\ exists k, 1 <= k <= attempts /\ isRunning k = true) /\
  (r = Ok () -> isRunning slept = true /\ forall j, j < slept -> isRunning j = false) /\
  (log = [] <-> isRunning 0 = true).
Proof.
  cbv zeta. unfold ensureOllamaRunning. destruct (isRunning 0) eqn:E0.
  { split; [lia|]. split; [split; [by left|done]|]. split; [|done]. intros _. split; [done|lia]. }
  destruct startService as [[]|e].
  2:{ split; [lia|]. split; [split; [done|by intros [?|[? _]]]|]. by split. }
  set (attempts := default 10 (maxAttempts opts)). pose proof (poll_spec isRunning 1 attempts) as H.
  destruct (poll isRunning 1 attempts) as [k|].
  - destruct H as (Hk & Hr & Hf). split; [lia|]. split.
    { split; [|done]. intros _. right. split; [done|]. exists k. split; [lia|done]. }
    split; [|done]. intros _. split; [done|]. intros j Hj. destruct j as [|j]; [done|]. apply Hf. lia.
  - split; [lia|]. split; [|done]. split; [done|].
    intros [?|(_ & k & Hk & Hr)]; [done|]. rewrite H in Hr by lia. done.
Qed.

(** * What is loaded *)

(** A model stands for every model its name begins.  As long as any loaded model has a
    name that begins with the deployment's, the deployment counts as loaded, with that
    model's memory: the tick never reports it evicted. *)
Theorem longer_name_hides_eviction ps id name suffix size a :
  og_active a !! id = Some name -> name <> "" -> (name +:+ suffix, size) ∈ ps ->
  (exists h, checkOllamaHealth (og_active a) (Some ps) id = Some h /\ os_loaded h = true) /\
  forall e, Status id "evicted" None (Some (zn 0)) e None ∈ og_sent (tickOne (Some ps) id a) ->
            Status id "evicted" None (Some (zn 0)) e None ∈ og_sent a.
Proof.
  intros Ha Hn Hin.
  assert (exists h, checkOllamaHealth (og_active a) (Some ps) id = Some h /\ os_loaded h = true) as (h & Hh & Hl).
  { unfold checkOllamaHealth. rewrite Ha. assert (truthy (Some name) = Some name) as -> by (by destruct name).
    eexists. split; [done|]. cbn [os_loaded]. apply bool_decide_eq_true. unfold findModel.
    destruct (js_find _ ps) eqn:E; [by eexists|]. exfalso. pose proof (proj1 (js_find_None _ _) E _ Hin) as E'. cbn [fst] in E'.
    by rewrite prefix_app in E'. }
  split; [by exists h|]. intros e. unfold tickOne. rewrite Hh. unfold Ollama.onHealth, Ollama.decideOllamaStateTransition.
  rewrite Hl. cbn [negb andb]. destruct (bool_decide _); [|done]. cbn.
  rewrite elem_of_app, list_elem_of_singleton. intros [?|[=]]; done.
Qed.

(** * Stops *)

Lemma undeploy_spec id ov del a n t m :
  og_tasks a !! n = Some t -> og_controllers a !! id = Some n -> og_active a !! id = Some m -> m <> "" ->
  let b := undeployModel id ov del a in
  og_tasks b !! n = Some (abort t) /\ og_active b = og_active a /\
  og_stops b = og_stops a ++ [{| st_id := id; st_model := m; st_delete := del |}].
Proof.
  intros Ht Hc Ha Hm. unfold undeployModel. cbv zeta.
  assert (forall o : option string, truthy (match truthy (Some m) with Some x => Some x | None => o end) = Some m) as Hov
    by (by destruct m).
  destruct (tracked _ id) as [d|]; cbn [post set_store og_controllers og_tasks og_active og_stops]; rewrite Hc; cbn;
    rewrite Ha, Hov; cbn; by rewrite list_lookup_alter_eq, Ht.
Qed.

(** The stop of a deployment that is being launched, with the unload behind it. *)
Definition stopWhole (id : string) (ov : option string) (del : bool) (a : agent) : agent :=
  onUnloaded (length (og_stops a)) (undeployModel id ov del a).

Lemma stopWhole_spec id ov del a n t m :
  og_tasks a !! n = Some t -> og_controllers a !! id = Some n -> og_active a !! id = Some m -> m <> "" ->
  let b := stopWhole id ov del a in
  tracked (og_store b) id = None /\ og_active b !! id = None /\ og_tasks b !! n = Some (abort t) /\
  og_stops b = og_stops a /\ exists sent, og_sent b = sent ++ [Status id "stopped" None None None (Some del)].
Proof.
  intros Ht Hc Ha Hm. cbv zeta. destruct (undeploy_spec id ov del a n t m Ht Hc Ha Hm) as (H1 & H2 & H3).
  unfold stopWhole, onUnloaded. rewrite H3, lookup_app_r, Nat.sub_diag by done. cbn [lookup list_lookup].
  unfold finishStop. cbn [post set_store set_active set_stops og_store og_active og_tasks og_stops og_sent st_id st_delete].
  rewrite tracked_remove, decide_True, lookup_delete_eq by done.
  split; [done|]. split; [done|]. split; [done|]. split; [|by eexists].
  rewrite delete_take_drop, take_app_length, drop_ge by (rewrite length_app; cbn; lia). by rewrite app_nil_r.
Qed.

Lemma fail_spec n t e a :
  tracked (og_store (fail n t e a)) (tk_id t) = None /\ og_active (fail n t e a) !! tk_id t = None /\
  (forall k, k <> n -> og_tasks (fail n t e a) !! k = og_tasks a !! k) /\
  let told := Status (tk_id t) "failed" None None (Some e) None in og_sent (fail n t e a) = (og_sent a ++ [told]) ++ [told].
Proof.
  unfold fail, move, post, set_tasks. cbn -[tracked removeDeployment]. rewrite tracked_remove, decide_True, <- app_assoc by done.
  split; [done|]. split; [apply lookup_delete_eq|]. split; [|done]. intros k Hk. by rewrite list_lookup_alter_ne.
Qed.

(** A launch outlives its stop.  A stop only raises the launch's abort signal: the
    launch goes on after the manager was told the deployment stopped, and its own end is
    the manager's last word.  Stopped while the model was pulled, the deployment is reported
    running, with no memory; while it was loaded, running; while the service was started,
    failed.  In each case the agent itself has no record of it left. *)
Theorem launch_outlives_its_stop id ov del a n t m :
  og_tasks a !! n = Some t -> tk_id t = id -> og_controllers a !! id = Some n -> og_active a !! id = Some m -> m <> "" ->
  let b := stopWhole id ov del a in
  let untracked c := tracked (og_store c) id = None /\ og_active c !! id = None in
  let lastWord c status := exists sent port vram err, og_sent c = sent ++ [Status id status port vram err None] in
  (tk_stage t = Pulling -> forall parse chunks c, settlePull true (onChunks parse chunks begin) c = Ok () ->
     untracked (onPulled n parse chunks c b) /\ lastWord (onPulled n parse chunks c b) "running") /\
  (tk_stage t = Loading -> forall l x, findModel l (tk_model t) = Some x ->
     untracked (onLoaded n (Ok ()) (Ok l) b) /\ lastWord (onLoaded n (Ok ()) (Ok l) b) "running") /\
  (tk_stage t = Ensuring -> forall answers start,
     untracked (onEnsured n answers start b) /\ lastWord (onEnsured n answers start b) "failed").
Proof.
  intros Ht Hid Hc Ha Hm. destruct (stopWhole_spec id ov del a n t m Ht Hc Ha Hm) as (H1 & H2 & H3 & _ & _).
  cbv zeta. set (b := stopWhole id ov del a) in *. clearbody b. subst id. split; [|split].
  - intros Hs parse chunks c Hp. unfold onPulled. rewrite H3. cbn [abort tk_stage tk_aborted tk_id]. rewrite Hs, Hp.
    split; [done|]. do 4 eexists. reflexivity.
  - intros Hs l x Hx. unfold onLoaded. rewrite H3. cbn [abort tk_stage tk_aborted tk_id tk_model]. rewrite Hs, Hx.
    split; [done|]. do 4 eexists. reflexivity.
  - intros Hs answers start. unfold onEnsured. rewrite H3. cbn [abort tk_stage tk_aborted tk_id]. rewrite Hs.
    destruct (Ready.ensureOllamaRunning _ _ _) as [[[u|e] log] k];
      match goal with |- context [fail ?n ?t ?e ?a] => destruct (fail_spec n t e a) as (F1 & F2 & _ & ->) end;
      (split; [by split|]); by do 4 eexists.
Qed.

(** A late failure forgets the newer launch.  When a launch fails, what the agent
    remembers under the deployment's id goes, whichever launch put it there: a newer launch
    of the same deployment runs on untracked, and no tick looks at it.  And each failure is
    reported twice. *)
Theorem late_failure_forgets a n t e ps :
  og_tasks a !! n = Some t -> tk_stage t = Loading ->
  let b := onLoaded n (Err e) ps a in
  tracked (og_store b) (tk_id t) = None /\ og_active b !! tk_id t = None /\
  (forall k, k <> n -> og_tasks b !! k = og_tasks a !! k) /\
  (forall ps', tickOne ps' (tk_id t) b = b) /\
  og_sent b = og_sent a ++ replicate 2 (Status (tk_id t) "failed" None None (Some e) None).
Proof.
  intros Ht Hs. cbv zeta. unfold onLoaded. rewrite Ht, Hs. destruct (fail_spec n t e a) as (F1 & F2 & F3 & ->).
  rewrite <- app_assoc. split; [done|]. split; [done|]. split; [done|]. split; [|done].
  intros ps'. unfold tickOne, checkOllamaHealth. by rewrite F2.
Qed.

(** ** Over every run *)

Definition entryOk (d : TrackedDeployment) : Prop := td_kind d = Some KOllama /\ td_recipeFile d <> "".

Record inv (a : agent) : Prop := {
  inv_active : forall id m, og_active a !! id = Some m ->
    exists d, tracked (og_store a) id = Some d /\ td_recipeFile d = m;
  inv_entries : forall d, d ∈ og_store a -> entryOk d;
  inv_nodup : NoDup (map td_deploymentId (og_store a)) }.

(** What the invariant reads. *)
Lemma inv_reads a b :
  inv a -> og_store b = og_store a -> og_active b = og_active a -> inv b.
Proof. intros [I1 I2 I3] Hs Ha. split; rewrite Hs; [|done..]. by rewrite Ha. Qed.

Lemma inv_forget a id : inv a ->
  inv (set_store (removeDeployment (og_store a) id) (set_active (delete id (og_active a)) a)).
Proof.
  intros [I1 I2 I3]. split; cbn [set_store set_active og_store og_active].
  - intros i m [Hne H]%lookup_delete_Some. destruct (I1 i m H) as (d & Hd & Hm). exists d. split; [|done].
    by rewrite tracked_remove, decide_False.
  - intros d [Hd _]%elem_of_filter_bool. by apply I2.
  - apply NoDup_map_filter, I3.
Qed.

Lemma inv_save a d (m : gmap string string) :
  inv a -> entryOk d ->
  (m = og_active a /\ (forall d', tracked (og_store a) (td_deploymentId d) = Some d' -> td_recipeFile d' = td_recipeFile d)
   \/ m = <[td_deploymentId d := td_recipeFile d]> (og_active a)) ->
  inv (set_store (saveDeployment (og_store a) d) (set_active m a)).
Proof.
  intros [I1 I2 I3] Hd Hm. split; cbn [set_store set_active og_store og_active].
  - intros i x Hx. rewrite tracked_save. case_decide as Hi.
    + exists d. split; [done|]. destruct Hm as [[-> Hm]| ->].
      * destruct (I1 i x Hx) as (d' & Hd' & <-). symmetry. apply Hm. by rewrite Hi.
      * rewrite Hi, lookup_insert_eq in Hx. by injection Hx.
    + apply I1. destruct Hm as [[-> _]| ->]; [done|]. by rewrite lookup_insert_ne in Hx.
  - intros x. unfold saveDeployment. rewrite elem_of_app, list_elem_of_singleton.
    intros [[Hx _]%elem_of_filter_bool| ->]; [by apply I2|done].
  - unfold saveDeployment. rewrite map_app. apply NoDup_app. split; [by apply NoDup_map_filter|].
    split; [|apply NoDup_singleton]. intros i Hi Hi'. apply list_elem_of_singleton in Hi'. subst i.
    apply list_elem_of_fmap in Hi as (y & Hy & Hin). apply elem_of_filter_bool in Hin as [_ Hin].
    apply negb_true_iff, not_true_iff_false in Hin. apply Hin. by apply isEntry_eq.
Qed.

Lemma inv_fail n t e a : inv a -> inv (fail n t e a).
Proof. intros I. by apply (inv_reads _ _ (inv_forget a (tk_id t) I)). Qed.

Lemma inv_order now id m emb a : inv a -> m <> "" -> inv (orderModel now id m emb a).
Proof.
  intros I Hm.
  apply (inv_reads (set_store (saveDeployment (og_store a) (ollama_entry now id m)) (set_active (<[id := m]> (og_active a)) a))).
  - apply (inv_save a (ollama_entry now id m)); [done|by split|by right].
  - done.
  - done.
Qed.

Lemma inv_stopModel id ov del a : inv a -> inv (undeployModel id ov del a).
Proof.
  intros I. unfold undeployModel. cbn [post og_store].
  set (a1 := match tracked (og_store a) id with Some d => _ | None => _ end).
  assert (inv a1) as I1.
  { unfold a1. destruct (tracked (og_store a) id) as [d|] eqn:E; [|by apply (inv_reads a)].
    apply (inv_reads (set_store (saveDeployment (og_store a) (set_stopping true d)) (set_active (og_active a) a)));
      [|done|done].
    pose proof (js_find_Some _ _ _ E) as [Hd Hid]. apply isEntry_eq in Hid.
    apply inv_save; [done|exact (inv_entries _ I d Hd)|]. left. split; [done|]. cbn [set_stopping td_deploymentId].
    rewrite Hid, E. by intros d' [= <-]. }
  clearbody a1.
  set (a2 := match og_controllers a1 !! id with Some n => _ | None => _ end).
  assert (inv a2) as I2 by (unfold a2; destruct (og_controllers a1 !! id); by apply (inv_reads a1)).
  clearbody a2. destruct (truthy _) as [m|] eqn:Em; [by apply (inv_reads a2)|].
  apply (inv_reads (set_store (removeDeployment (og_store a2) id) (set_active (delete id (og_active a2)) a2))).
  - by apply inv_forget.
  - done.
  - cbn. destruct (og_active a2 !! id) as [x|] eqn:Ex; [|by rewrite delete_id].
    destruct (inv_active _ I2 id x Ex) as (d & Hd & <-). apply js_find_Some in Hd as [Hd _].
    destruct (inv_entries _ I2 d Hd) as [_ Hne]. by destruct (td_recipeFile d).
Qed.

Lemma inv_steps e a : inv a -> inv (react e a).
Proof.
  intros I. destruct e as [now id m emb|n r s|n parse chunks c|n l ps|id ov del|i|id|ps id|]; cbn [react].
  - destruct (String.eqb_spec m ""); [done|by apply inv_order].
  - unfold onEnsured. destruct (og_tasks a !! n) as [t|]; [|done]. destruct (tk_stage t); try done.
    destruct (Ready.ensureOllamaRunning _ _ _) as [[[u|e] log] k]; [|apply inv_fail; by apply (inv_reads a)].
    destruct (tk_aborted t); [apply inv_fail|]; by apply (inv_reads a).
  - unfold onPulled. destruct (og_tasks a !! n) as [t|]; [|done]. destruct (tk_stage t); try done.
    destruct (settlePull _ _ _); [destruct (tk_aborted t); by apply (inv_reads a)|apply inv_fail; by apply (inv_reads a)].
  - unfold onLoaded. destruct (og_tasks a !! n) as [t|]; [|done]. destruct (tk_stage t); try done.
    destruct l as [u|e]; [|by apply inv_fail]. destruct ps as [l|e]; [|by apply inv_fail].
    destruct (findModel l (tk_model t)); [by apply (inv_reads a)|by apply inv_fail].
  - by apply inv_stopModel.
  - unfold onUnloaded. destruct (og_stops a !! i) as [s|]; [|done]. by apply (inv_reads _ _ (inv_forget a (st_id s) I)).
  - unfold onTrack. destruct (tracked (og_store a) id) as [d|] eqn:E; [|done]. destruct (_ || _); [done|].
    destruct I as [I1 I2 I3]. split; [|done..]. cbn. intros i x [[<- <-]|[_ H]]%lookup_insert_Some; [by exists d|by apply I1].
  - unfold tickOne. destruct (checkOllamaHealth _ _ _) as [h|]; [|done].
    destruct (Ollama.onHealth _ _ _) as [last [s|]]; [|done].
    repeat (match goal with |- context [match ?s with _ => _ end] => destruct s end); by apply (inv_reads a).
  - destruct I as [I1 I2 I3]. by split.
Qed.

(** What is tracked is recorded.  Over every run of orders, ends, stops, ticks,
    reconnects and restarts of the agent: a deployment the agent watches has an entry on
    disk, of Ollama's kind and of the model it is watched for, so that a restart can find
    it; and no deployment has two entries. *)
Theorem ollama_tracked_recorded es :
  let a := run es idle in
  (forall id m, og_active a !! id = Some m ->
     exists d, tracked (og_store a) id = Some d /\ td_kind d = Some KOllama /\ td_recipeFile d = m /\ m <> "") /\
  NoDup (map td_deploymentId (og_store a)).
Proof.
  assert (inv (run es idle)) as I.
  { unfold run. assert (inv idle) as I by (split; [done|by intros d ?%elem_of_nil|constructor]).
    revert I. generalize idle. induction es as [|e es IH]; intros a I; [done|]. apply IH. by apply inv_steps. }
  cbv zeta. split; [|exact (inv_nodup _ I)]. intros id m Hm. destruct (inv_active _ I id m Hm) as (d & Hd & <-).
  exists d. split; [done|]. apply js_find_Some in Hd as [Hd _]. by destruct (inv_entries _ I d Hd).
Qed.

(** * Concrete runs *)

Module Examples.

(** The text of a pull, as Ollama writes it, and its parse. *)
Definition st_line : string := "S".
Definition er_line : string := "E".
Definition parse0 (s : string) : jtext :=
  if String.eqb s "S" then Some (JObj [("status", JStr "downloading"); ("completed", JNum (zn 1)); ("total", JNum (zn 3))])
  else if String.eqb s "E" then Some (JObj [("error", JStr "no space")]) else None.

Example cut_stream :
  let p := onChunks parse0 ["S" +:+ String nl "S"; String nl ""; "E" +:+ String nl "S"] begin in
  pl_log p = ["downloading 33%" +:+ String nl ""; "downloading 33%" +:+ String nl ""] /\
  settlePull false p Ended = Err "Error: no space".
Proof. repeat split; reflexivity. Qed.

(** The answer to a refused pull is an object without a line feed: it is never read, and
    the pull is complete. *)
Example refused_pull_completes : settlePull false (onChunks parse0 ["E"] begin) Ended = Ok ().
Proof. reflexivity. Qed.

Example boot_budget :
  ensureOllamaRunning (fun _ => false) (Ok ()) OLLAMA_BOOT_READY_BUDGET =
  (Err ("Ollama service was started but the API did not become reachable after 90 attempts over ~180s (port 11434)"),
   [start_line], 90).
Proof. reflexivity. Qed.

Definition active0 : agent := set_active {["d1" := "llama3"]} idle.

Lemma longer_name_hides_eviction_witness :
  exists h, checkOllamaHealth (og_active active0) (Some [("llama3.1:8b", zn 5000000000)]) "d1" = Some h /\ os_loaded h = true.
Proof.
  destruct (longer_name_hides_eviction [("llama3.1:8b", zn 5000000000)] "d1" "llama3" ".1:8b" (zn 5000000000) active0)
    as [H _]; [reflexivity|discriminate|left|exact H].
Defined.

Definition ordered : agent := orderModel "t0" "d1" "llama3" false idle.
Definition task1 : task := {| tk_id := "d1"; tk_model := "llama3"; tk_embedding := false; tk_aborted := false; tk_stage := Pulling |}.
Definition pulling : agent := onEnsured 0 (fun _ => true) (Ok ()) ordered.

Lemma launch_outlives_its_stop_witness :
  tracked (og_store (onPulled 0 parse0 [] (RequestError "aborted") (stopWhole "d1" None true pulling))) "d1" = None.
Proof.
  destruct (launch_outlives_its_stop "d1" None true pulling 0 task1 "llama3") as (H & _);
    [reflexivity|reflexivity|reflexivity|reflexivity|discriminate|].
  exact (proj1 (proj1 (H eq_refl parse0 [] (RequestError "aborted") eq_refl))).
Defined.

(** What the manager was told of it. *)
Example stopped_then_running :
  og_sent (onPulled 0 parse0 [] (RequestError "aborted") (stopWhole "d1" None true pulling)) =
  og_sent pulling ++ [Status "d1" "stopping" None None None None; Status "d1" "stopped" None None None (Some true);
                      Status "d1" "running" (Some ollamaPort) (Some (zn 0)) None None].
Proof. reflexivity. Qed.

(** Loading, and ordered again meanwhile. *)
Definition twice : agent := orderModel "t1" "d1" "llama3" false (onPulled 0 parse0 [] Ended pulling).

Lemma late_failure_forgets_witness :
  og_active twice !! "d1" = Some "llama3" /\
  og_active (onLoaded 0 (Err "TimeoutError") (Ok []) twice) !! "d1" = None.
Proof.
  split; [reflexivity|].
  exact (proj1 (proj2 (late_failure_forgets twice 0 (set_stage Loading task1) "TimeoutError" (Ok []) eq_refl eq_refl))).
Defined.

End Examples.
