(* ===== verification/PeerHealth.v ===== *)
(** Whether a machine keeps up with its peers: the verdicts on the members of a pool, in
    [Pool] ([server/health/peer-throughput.ts]); the words the dashboard gives them, in
    [View] ([dashboard/lib/peer-throughput.ts]); and the check of how much a model writes,
    in [Verbose] ([server/eval/verboseness.ts], [run-verboseness.ts]).

    Rates are rational numbers: a column of floats holds no [NaN].  Text lengths count
    bytes. *)
From Stdlib Require Import Qabs.
From S2P Require Import Prelude JsNum Schema.

Module Pool.

Record MemberInput := {
  mi_deploymentId : string; mi_nodeId : string; mi_nodeName : string; mi_modelId : string;
  mi_deploymentsOnNode : Z; mi_rates : list Q }.

Inductive NotComparableReason :=
  | SingleMember | InsufficientSamples | IdleMember | MultiDeploymentNode | ModelMismatch | NoComparablePeers.

Inductive MemberState := MOk | MSuspect | MNotComparable (reason : NotComparableReason).

Record MemberVerdict := {
  mv_deploymentId : string; mv_node : string; mv_state : MemberState; mv_rate : option Q;
  mv_peerRates : list (string * Q); mv_ratio : option Q }.

Definition SUSPECT_RATIO : Q := 8 # 10.
Definition MIN_SAMPLES : nat := 60.

Definition median (xs : list Q) : option Q :=
  match xs with
  | [] => None
  | _ =>
      let s := js_sort Qle_bool xs in
      let n := length s in
      if Nat.even n then
        match s !! (n / 2 - 1)%nat, s !! (n / 2)%nat with
        | Some a, Some b => Some ((a + b) / 2)%Q
        | _, _ => None
        end
      else s !! ((n - 1) / 2)%nat
  end.

Definition attributable (m : MemberInput) : bool := (mi_deploymentsOnNode m <=? 1)%Z.
Definition comparable (m : MemberInput) : bool := attributable m && (MIN_SAMPLES <=? length (mi_rates m))%nat.

Section Evaluate.
Context (members : list MemberInput).

(** [new Map(members.map((m) => [m.deploymentId, median(m.rates)]))] *)
Definition rateMap : list (string * option Q) :=
  foldl (fun l m => al_set l (mi_deploymentId m) (median (mi_rates m))) [] members.
Definition rateOf (id : string) : option Q := mjoin (al_get rateMap id).

Definition modelIds : list string := remove_dups (map mi_modelId members).
Definition mixedModels : bool := (1 <? length modelIds)%nat.

Definition peerRates (m : MemberInput) : list (string * Q) :=
  omap (fun p => r ← rateOf (mi_deploymentId p); Some (mi_nodeName p, r))
    (List.filter (fun p => negb (String.eqb (mi_deploymentId p) (mi_deploymentId m)) && comparable p) members).

(** A median of zero is falsy. *)
Definition ratioOf (rate peerMedian : option Q) : option Q :=
  match rate, peerMedian with
  | Some r, Some pm => if Qeq_bool pm 0 then None else Some (r / pm)%Q
  | _, _ => None
  end.

Definition stateOf (m : MemberInput) : MemberState :=
  if (length members =? 1)%nat then MNotComparable SingleMember
  else if mixedModels then MNotComparable ModelMismatch
  else if negb (attributable m) then MNotComparable MultiDeploymentNode
  else if (length (mi_rates m) =? 0)%nat then MNotComparable IdleMember
  else if negb (comparable m) then MNotComparable InsufficientSamples
  else if (length (peerRates m) =? 0)%nat then MNotComparable NoComparablePeers
  else match ratioOf (rateOf (mi_deploymentId m)) (median (map snd (peerRates m))) with
       | Some r => if negb (Qle_bool SUSPECT_RATIO r) then MSuspect else MOk
       | None => MOk
       end.

Definition evaluatePool : list MemberVerdict :=
  map (fun m =>
    let rate := rateOf (mi_deploymentId m) in
    {| mv_deploymentId := mi_deploymentId m; mv_node := mi_nodeName m; mv_state := stateOf m; mv_rate := rate;
       mv_peerRates := peerRates m; mv_ratio := ratioOf rate (median (map snd (peerRates m))) |}) members.

End Evaluate.

Definition WINDOW_MINUTES : Z := 60.

Record PoolMemberRef := {
  pm_deploymentId : string; pm_nodeId : string; pm_nodeName : string; pm_modelId : string; pm_publishedName : string }.

(** The samples of a node in the window, and the running deployments on it. *)
Definition ratesByNode (samples : list metric_row) (since : Z) (nodeId : string) : list Q :=
  omap (fun s => if String.eqb (mt_nodeId s) nodeId && (since <=? mt_timestamp s)%Z then mt_tps s else None) samples.
Definition countByNode (deployments : list deployment) (nodeId : string) : option Z :=
  let n := length (List.filter (fun d => String.eqb (d_nodeId d) nodeId && String.eqb (d_status d) "running") deployments) in
  if (n =? 0)%nat then None else Some (Z.of_nat n).

Definition inputOf (samples : list metric_row) (deployments : list deployment) (since : Z) (m : PoolMemberRef) : MemberInput :=
  {| mi_deploymentId := pm_deploymentId m; mi_nodeId := pm_nodeId m; mi_nodeName := pm_nodeName m;
     mi_modelId := pm_modelId m; mi_deploymentsOnNode := default 1%Z (countByNode deployments (pm_nodeId m));
     mi_rates := ratesByNode samples since (pm_nodeId m) |}.

(** The verdicts, by deployment; [now] in milliseconds. *)
Definition assessThroughput (samples : list metric_row) (deployments : list deployment) (members : list PoolMemberRef)
    (now : Z) : list (string * MemberVerdict) :=
  let since := (now - WINDOW_MINUTES * 60000)%Z in
  let pools := group_by pm_publishedName members in
  foldl (fun acc v => al_set acc (mv_deploymentId v) v) []
    (concat (map (fun pool => evaluatePool (map (inputOf samples deployments since) pool.2)) pools)).

End Pool.

Module View.
Import Pool.

Inductive tone := ToneOk | ToneSuspect | ToneMuted.
Record ThroughputView := { tv_tone : tone; tv_label : string; tv_detail : option string }.

Definition reasonText (r : NotComparableReason) : string :=
  match r with
  | SingleMember => "nothing to compare against — this pool has one member"
  | InsufficientSamples => "too little traffic in the window to take a median"
  | IdleMember => "served nothing in the window"
  | MultiDeploymentNode => "another deployment shares this node, so its rate is a sum"
  | ModelMismatch => "pool members are serving different models"
  | NoComparablePeers => "no peer had a usable rate in the window"
  end.

(** [x.toFixed(1)] *)
Definition toFixed1 (q : Q) : string :=
  let n := round_q (Qabs.Qabs q * 10) in
  (if negb (Qle_bool 0 q) then "-" else "") +:+ pretty (n / 10)%Z +:+ "." +:+ pretty (n mod 10)%Z.
Definition rateText (r : option Q) : string := match r with Some q => toFixed1 q | None => "undefined" end.

Definition percentText (ratio : Q) : string := pretty (round_q (ratio * 100)) +:+ "%".

Definition describeThroughput (v : option MemberVerdict) : option ThroughputView :=
  v ← v;
  let window := pretty WINDOW_MINUTES in
  let pct := percentText <$> mv_ratio v in
  Some match mv_state v with
  | MNotComparable r => {| tv_tone := ToneMuted; tv_label := "not compared"; tv_detail := Some (reasonText r) |}
  | MSuspect =>
      let n := length (mv_peerRates v) in
      {| tv_tone := ToneSuspect; tv_label := "behind peers";
         tv_detail := Some (rateText (mv_rate v) +:+ " t/s against " +:+ rateText (median (map snd (mv_peerRates v))) +:+
                            " t/s across " +:+ pretty (Z.of_nat n) +:+ " " +:+ (if (n =? 1)%nat then "peer" else "peers") +:+
                            " over " +:+ window +:+ " min (" +:+ default "null" pct +:+ ")") |}
  | MOk =>
      {| tv_tone := ToneOk; tv_label := rateText (mv_rate v) +:+ " t/s";
         tv_detail := (fun p => p +:+ " of the peer median over " +:+ window +:+ " min") <$> pct |}
  end.

(** A pool of the gateway view: its members' nodes and verdicts. *)
Definition pool := list (string * option MemberVerdict).

Definition isSuspect (v : option MemberVerdict) : bool :=
  match v with Some v => match mv_state v with MSuspect => true | _ => false end | None => false end.

Definition flagMember (found : list (string * MemberVerdict)) (m : string * option MemberVerdict) :
    list (string * MemberVerdict) :=
  match m.2 with
  | Some v => if isSuspect (Some v) then al_set found m.1 v else found
  | None => found
  end.
Definition suspectedNodes (pools : list pool) : list (string * MemberVerdict) := foldl flagMember [] (concat pools).

End View.

Module Verbose.

Inductive ThinkMode := ThinkOn | ThinkOff | ThinkMedium.
#[export] Instance ThinkMode_eq_dec : EqDecision ThinkMode.
Proof. solve_decision. Defined.

Record ResponseLengths := { rl_completionTokens : Z; rl_reasoningChars : nat; rl_contentChars : nat }.

Record ChatMessageLike := { cm_content : option string; cm_reasoning : option string; cm_reasoning_content : option string }.

Definition q_trunc (q : Q) : Z := if Qle_bool 0 q then Qfloor q else Qceiling q.

(** [usage]: [completion_tokens], when it is there. *)
Definition parseResponseLengths (m : option ChatMessageLike) (usage : option num) : ResponseLengths :=
  let reasoning := default "" (m ← m; match cm_reasoning m with Some r => Some r | None => cm_reasoning_content m end) in
  let content := default "" (m ≫= cm_content) in
  {| rl_completionTokens := match default (zn 0) usage with Fin q => Z.max 0 (q_trunc q) | _ => 0%Z end;
     rl_reasoningChars := String.length reasoning; rl_contentChars := String.length content |}.

Record VerbSample := { vb_prompt : string; vb_mode : ThinkMode; vb_lengths : ResponseLengths }.
Record VerbVerdict := { vv_prompt : string; vv_mode : ThinkMode; vv_lengths : ResponseLengths; vv_overBudget : bool }.
Record VerbSummary := {
  vs_verdicts : list VerbVerdict; vs_meanTokensByMode : ThinkMode -> option Q; vs_overBudgetCount : nat;
  vs_thinkingOverheadRatio : option Q }.

Definition meanFor (samples : list VerbSample) (mode : ThinkMode) : option Q :=
  let xs := map (fun s => rl_completionTokens (vb_lengths s)) (List.filter (fun s => bool_decide (vb_mode s = mode)) samples) in
  match xs with
  | [] => None
  | _ => Some (inject_Z (foldl Z.add 0%Z xs) / inject_Z (Z.of_nat (length xs)))%Q
  end.

(** [maxCompletionTokens] may be [NaN], as [parseInt] of a text that is no number. *)
Definition evaluateVerboseness (samples : list VerbSample) (maxCompletionTokens : num) : VerbSummary :=
  let verdicts := map (fun s => {| vv_prompt := vb_prompt s; vv_mode := vb_mode s; vv_lengths := vb_lengths s;
                                   vv_overBudget := num_lt maxCompletionTokens (zn (rl_completionTokens (vb_lengths s))) |})
                    samples in
  {| vs_verdicts := verdicts; vs_meanTokensByMode := meanFor samples;
     vs_overBudgetCount := length (List.filter vv_overBudget verdicts);
     vs_thinkingOverheadRatio :=
       match meanFor samples ThinkOn, meanFor samples ThinkOff with
       | Some on, Some off => if negb (Qle_bool off 0) then Some (on / off)%Q else None
       | _, _ => None
       end |}.

(** The value after [--name]. *)
Fixpoint argAfter (flag : string) (argv : list string) : option (option string) :=
  match argv with
  | [] => None
  | a :: rest => if String.eqb a flag then Some (head rest) else argAfter flag rest
  end.
Definition arg (argv : list string) (name : string) (def : option string) : option string :=
  match argAfter ("--" +:+ name) argv with Some (Some v) => Some v | _ => def end.
Definition hasFlag (argv : list string) (name : string) : bool := mem_str ("--" +:+ name) argv.

Definition modeOf (s : string) : option ThinkMode :=
  if String.eqb s "on" then Some ThinkOn else if String.eqb s "off" then Some ThinkOff
  else if String.eqb s "medium" then Some ThinkMedium else None.

Definition PROMPT_IDS : list string := ["reasoning"; "explain"; "trivial"; "instruction"].

Record listed := { ls_id : string; ls_displayName : option string; ls_status : string; ls_port : option Z; ls_ip : string }.

(** Where the questions go: the address, and the model's name when it is given. *)
Definition resolveEndpoint (argv : list string) (deployments : list listed) : result string (string * option string) :=
  match truthy (arg argv "endpoint" None) with
  | Some e =>
      match truthy (arg argv "model" None) with
      | None => Err "--endpoint requires --model"
      | Some m => Ok (match String.get (String.length e - 1) e with
                      | Some "/"%char => str_take (String.length e - 1) e
                      | _ => e
                      end, Some m)
      end
  | None =>
      match truthy (arg argv "deployment" None) with
      | None => Err "provide --deployment <id|displayName> or --endpoint <url> --model <name>"
      | Some dep =>
          match js_find (fun x => String.eqb (ls_id x) dep || bool_decide (ls_displayName x = Some dep)) deployments with
          | None => Err ("deployment '" +:+ dep +:+ "' not found")
          | Some d =>
              let port := match ls_port d with Some p => if (p =? 0)%Z then None else Some p | None => None end in
              match port with
              | Some p => if String.eqb (ls_status d) "running" then Ok ("http://" +:+ ls_ip d +:+ ":" +:+ pretty p, None)
                          else Err ("deployment '" +:+ dep +:+ "' is " +:+ ls_status d +:+ " (port " +:+ pretty p +:+ ")")
              | None => Err ("deployment '" +:+ dep +:+ "' is " +:+ ls_status d +:+ " (port " +:+
                             match ls_port d with Some p => pretty p | None => "null" end +:+ ")")
              end
          end
      end
  end.

(** The whole run, after the endpoint is resolved.  [call id mode]: the answer to a prompt,
    [None] when the request fails or the status is no success.  [budget]: what [parseInt]
    reads. *)
Definition samplesOf (call : string -> ThinkMode -> option ResponseLengths) (modes : list ThinkMode) : list VerbSample :=
  concat (map (fun id => omap (fun mode => (fun l => {| vb_prompt := id; vb_mode := mode; vb_lengths := l |}) <$> call id mode)
                           modes) PROMPT_IDS).

Definition modesOf (argv : list string) : list ThinkMode :=
  omap modeOf (str_split "," (default "" (arg argv "modes" (Some "on,off,medium")))).

(** The summary, and the exit code. *)
Definition runVerboseness (argv : list string) (budget : num) (call : string -> ThinkMode -> option ResponseLengths) :
    VerbSummary * Z :=
  let summary := evaluateVerboseness (samplesOf call (modesOf argv)) budget in
  (summary, if (0 <? vs_overBudgetCount summary)%nat && negb (hasFlag argv "no-fail") then 1%Z else 0%Z).

End Verbose.
