(* ===== verification/PeerHealthFacts.v ===== *)
(** Peers: what the median is, when a member is suspect and that never all are, what the
    dashboard shows of it, and what the gate on a model's verboseness tests. *)
From Stdlib Require Import Qabs Lqa Qfield.
From S2P Require Import Prelude JsNum Schema PeerHealth.
Import PeerHealth.Pool PeerHealth.View PeerHealth.Verbose.

(** * The median *)

Lemma q_sorted xs : StronglySorted (fun a b => Qle_bool a b = true) (js_sort Qle_bool xs).
Proof.
  apply js_sort_sorted.
  - intros a b. rewrite !Qle_bool_iff. destruct (Qlt_le_dec a b); [left|right]; lra.
  - intros a b c. rewrite !Qle_bool_iff. lra.
Qed.

Lemma sorted_at s i j a b :
  StronglySorted (fun a b => Qle_bool a b = true) s -> i <= j -> s !! i = Some a -> s !! j = Some b -> (a <= b)%Q.
Proof.
  intros Hs. revert i j. induction Hs as [|x s Hs IH Hx]; intros i j Hij Hi Hj; [done|].
  destruct i as [|i], j as [|j]; cbn in Hi, Hj; [| |lia|].
  - simplify_eq. lra.
  - simplify_eq. rewrite Forall_forall in Hx. apply Qle_bool_iff, Hx. by eapply list_elem_of_lookup_2.
  - eapply (IH i j); [lia|done..].
Qed.

Lemma filter_length_prefix {A} (p : A -> bool) l n :
  n <= length l -> (forall i x, i < n -> l !! i = Some x -> p x = true) -> n <= length (List.filter p l).
Proof.
  revert n. induction l as [|x l IH]; intros n Hn Hp; cbn in *; [lia|]. destruct n as [|n]; [lia|].
  rewrite (Hp 0 x) by (done || lia). cbn. assert (n <= length (List.filter p l)); [|lia].
  apply IH; [lia|]. intros i y Hi Hy. apply (Hp (S i)); [lia|done].
Qed.

Lemma filter_length_suffix {A} (p : A -> bool) l n :
  (forall i x, n <= i -> l !! i = Some x -> p x = true) -> length l - n <= length (List.filter p l).
Proof.
  revert n. induction l as [|x l IH]; intros n Hp; cbn; [lia|]. destruct n as [|n].
  - rewrite (Hp 0 x) by (done || lia). cbn. specialize (IH 0). assert (length l - 0 <= length (List.filter p l)); [|lia].
    apply IH. intros i y _ Hy. apply (Hp (S i)); [lia|done].
  - assert (length l - n <= length (List.filter p l)) by (apply IH; intros i y Hi Hy; apply (Hp (S i)); [lia|done]).
    destruct (p x); cbn; lia.
Qed.

Lemma filter_perm_length {A} (p : A -> bool) l k : l ≡ₚ k -> length (List.filter p l) = length (List.filter p k).
Proof. induction 1; cbn; repeat (destruct (p _); cbn); lia. Qed.

(** The two elements the median lies between, in the sorted list. *)
Lemma median_between xs m :
  median xs = Some m ->
  let s := js_sort Qle_bool xs in
  exists i j a b, s !! i = Some a /\ s !! j = Some b /\ (a <= m)%Q /\ (m <= b)%Q /\
    i <= j /\ length xs <= 2 * (i + 1) /\ 2 * j <= length xs.
Proof.
  unfold median. destruct xs as [|x xs]; [done|]. set (l := x :: xs). cbv zeta.
  pose proof (q_sorted l) as Hs. pose proof (js_sort_length Qle_bool l) as Hl.
  assert (1 <= length l) by (cbn; lia). clearbody l. set (s := js_sort Qle_bool l) in *. clearbody s. rewrite Hl.
  destruct (Nat.even (length l)) eqn:Ev.
  - apply Nat.even_spec in Ev as [k Hk]. rewrite Hk, Nat.mul_comm, Nat.div_mul by lia.
    destruct (s !! (k - 1)) as [a|] eqn:Ea; [|done]. destruct (s !! k) as [b|] eqn:Eb; [|done]. intros [= <-].
    exists (k - 1), k, a, b. assert (a <= b)%Q as Hab by (eapply (sorted_at s (k - 1) k); [done|lia|done..]).
    assert (a <= (a + b) / 2 /\ (a + b) / 2 <= b)%Q as [? ?].
    { split; [apply Qle_shift_div_l|apply Qle_shift_div_r]; lra. }
    repeat split; try done; lia.
  - intros Hm. assert (Nat.odd (length l) = true) as Hodd by (by rewrite <- Nat.negb_even, Ev).
    apply Nat.odd_spec in Hodd as [k Hk]. replace ((length l - 1) / 2) with k in Hm.
    + exists k, k, m, m. repeat split; try done; try lra; lia.
    + rewrite Hk. replace (2 * k + 1 - 1) with (k * 2) by lia. by rewrite Nat.div_mul by lia.
Qed.

(** The median is one.  Of any rates there is a median, and at least half of the rates
    are no greater than it and at least half no smaller, whatever order the samples came in. *)
Theorem median_halves xs :
  xs <> [] ->
  exists m, median xs = Some m /\
    length xs <= 2 * length (List.filter (fun x => Qle_bool x m) xs) /\
    length xs <= 2 * length (List.filter (fun x => Qle_bool m x) xs).
Proof.
  intros Hne. destruct (median xs) as [m|] eqn:E.
  - exists m. split; [done|]. destruct (median_between xs m E) as (i & j & a & b & Hi & Hj & Ha & Hb & Hij & H1 & H2).
    pose proof (q_sorted xs) as Hs. pose proof (js_sort_length Qle_bool xs) as Hl. rewrite <- Hl in H1, H2.
    rewrite <- (filter_perm_length (fun x => Qle_bool x m) _ _ (js_sort_perm Qle_bool xs)).
    rewrite <- (filter_perm_length (fun x => Qle_bool m x) _ _ (js_sort_perm Qle_bool xs)). rewrite <- Hl. split.
    + assert (i + 1 <= length (List.filter (fun x => Qle_bool x m) (js_sort Qle_bool xs))); [|lia].
      apply filter_length_prefix; [apply lookup_lt_Some in Hi; lia|]. intros k x Hk Hx. apply Qle_bool_iff.
      pose proof (sorted_at _ k i x a Hs ltac:(lia) Hx Hi). lra.
    + assert (length (js_sort Qle_bool xs) - j <= length (List.filter (fun x => Qle_bool m x) (js_sort Qle_bool xs))); [|lia].
      apply filter_length_suffix. intros k x Hk Hx. apply Qle_bool_iff.
      pose proof (sorted_at _ j k b x Hs Hk Hj Hx). lra.
  - exfalso. unfold median in E. destruct xs as [|x xs]; [done|]. set (l := x :: xs) in *.
    pose proof (js_sort_length Qle_bool l) as Hl. assert (1 <= length l) by (cbn; lia). clearbody l.
    set (s := js_sort Qle_bool l) in *. clearbody s. destruct (Nat.even (length s)) eqn:Ev.
    + assert (length s / 2 < length s) by (apply Nat.div_lt; lia).
      destruct (lookup_lt_is_Some_2 s (length s / 2 - 1)) as [a Ha]; [lia|].
      destruct (lookup_lt_is_Some_2 s (length s / 2)) as [b Hb]; [lia|]. by rewrite Ha, Hb in E.
    + destruct (lookup_lt_is_Some_2 s ((length s - 1) / 2)) as [a Ha]; [|congruence].
      pose proof (Nat.div_le_upper_bound (length s - 1) 2 (length s - 1)). lia.
Qed.

Lemma median_bounds xs m :
  median xs = Some m ->
  forall lo hi, (forall x, x ∈ xs -> (lo <= x <= hi)%Q) -> (lo <= m <= hi)%Q.
Proof.
  intros E lo hi H. destruct (median_between xs m E) as (i & j & a & b & Hi & Hj & Ha & Hb & _).
  apply list_elem_of_lookup_2 in Hi, Hj. rewrite elem_of_js_sort in Hi, Hj.
  destruct (H a Hi), (H b Hj). lra.
Qed.

(** * The verdicts *)

Lemma loop_lookup {A V} (key : A -> string) (f : A -> V) xs x :
  NoDup (map key xs) -> x ∈ xs -> al_get (foldl (fun l m => al_set l (key m) (f m)) [] xs) (key x) = Some (f x).
Proof.
  induction xs as [|y xs IH] using rev_ind; intros Hn Hx; [by apply elem_of_nil in Hx|].
  rewrite foldl_app. cbn. rewrite al_get_set. rewrite map_app in Hn. apply NoDup_app in Hn as (Hn & Hd & _).
  apply elem_of_app in Hx as [Hx|Hx%list_elem_of_singleton].
  - rewrite decide_False; [by apply IH|]. intros E. apply (Hd (key x)); [by apply list_elem_of_fmap_2|].
    rewrite E. left.
  - subst. by rewrite decide_True.
Qed.

Section Verdicts.
Context (members : list MemberInput) (Hn : NoDup (map mi_deploymentId members)).

Lemma rateOf_member m : m ∈ members -> rateOf members (mi_deploymentId m) = median (mi_rates m).
Proof. intros Hm. unfold rateOf, rateMap. by rewrite (loop_lookup mi_deploymentId (fun m => median (mi_rates m))). Qed.

Lemma comparable_rate p : comparable p = true -> exists r, median (mi_rates p) = Some r.
Proof.
  unfold comparable. intros [_ Hl%Nat.leb_le]%andb_prop. destruct (median_halves (mi_rates p)) as (r & Hr & _).
  - intros E. rewrite E in Hl. cbn in Hl. unfold MIN_SAMPLES in Hl. lia.
  - by exists r.
Qed.

Definition isPeer (m p : MemberInput) : bool :=
  negb (String.eqb (mi_deploymentId p) (mi_deploymentId m)) && comparable p.
Definition peersOf (m : MemberInput) : list MemberInput := List.filter (isPeer m) members.

Lemma peersOf_elem m p : p ∈ peersOf m <-> p ∈ members /\ mi_deploymentId p <> mi_deploymentId m /\ comparable p = true.
Proof.
  unfold peersOf, isPeer. rewrite elem_of_filter_bool, andb_true_iff, negb_true_iff, String.eqb_neq. tauto.
Qed.

Lemma peer_rates m :
  Forall2 (fun p r => r.1 = mi_nodeName p /\ median (mi_rates p) = Some r.2) (peersOf m) (peerRates members m).
Proof.
  unfold peerRates. fold (isPeer m). change (List.filter _ members) with (peersOf m).
  assert (forall p, p ∈ peersOf m -> p ∈ members /\ comparable p = true) as H by (intros p; rewrite peersOf_elem; tauto).
  induction (peersOf m) as [|p ps IH]; [constructor|].
  destruct (H p ltac:(left)) as [Hp Hc]. destruct (comparable_rate p Hc) as (r & Hr).
  cbn [omap list_omap]. rewrite (rateOf_member p Hp), Hr. cbn [mbind option_bind].
  constructor; [done|]. apply IH. intros q Hq. apply H. by right.
Qed.

Lemma mixedModels_false m : m ∈ members -> mixedModels members = false <-> forall p, p ∈ members -> mi_modelId p = mi_modelId m.
Proof.
  intros Hm. unfold mixedModels, modelIds. rewrite Nat.ltb_ge.
  assert (forall x, x ∈ remove_dups (map mi_modelId members) <-> exists p, p ∈ members /\ mi_modelId p = x) as Hd.
  { intros x. rewrite elem_of_remove_dups. rewrite (list_elem_of_fmap mi_modelId). naive_solver. }
  pose proof (NoDup_remove_dups (map mi_modelId members)) as Hnd.
  destruct (remove_dups (map mi_modelId members)) as [|x [|y l]]; cbn [length].
  - exfalso. apply (elem_of_nil (mi_modelId m)), Hd. by exists m.
  - split; [intros _ p Hp|lia].
    assert (mi_modelId m ∈ [x]) as <-%list_elem_of_singleton by (apply Hd; by exists m).
    assert (mi_modelId p ∈ [mi_modelId m]) as ?%list_elem_of_singleton; [|done]. apply Hd. by exists p.
  - split; [lia|]. intros H. exfalso.
    destruct (proj1 (Hd x) ltac:(left)) as (p & Hp & <-), (proj1 (Hd y) ltac:(right; left)) as (q & Hq & <-).
    rewrite (H p Hp), (H q Hq) in Hnd. apply NoDup_cons in Hnd as [Hnd _]. apply Hnd. left.
Qed.

Lemma single_no_peers m : m ∈ members -> length members = 1 -> peersOf m = [].
Proof.
  intros Hm Hl. apply elem_of_nil_inv. intros p [Hp [Hne _]]%peersOf_elem. apply Hne.
  destruct members as [|x [|y l]]; [done| |done]. apply list_elem_of_singleton in Hm, Hp. by subst.
Qed.

(** The rates a member is held against. *)
Definition peerMedians (m : MemberInput) : list Q := omap (fun p => median (mi_rates p)) (peersOf m).

Lemma peerMedians_spec m : map snd (peerRates members m) = peerMedians m.
Proof.
  unfold peerMedians. induction (peer_rates m) as [|p r ps rs [_ Hr] _ IH]; [done|].
  cbn [map omap list_omap]. by rewrite Hr, IH.
Qed.

Lemma suspect_spec m :
  m ∈ members ->
  stateOf members m = MSuspect <->
  (forall p, p ∈ members -> mi_modelId p = mi_modelId m) /\ comparable m = true /\
  exists r pm, median (mi_rates m) = Some r /\ median (peerMedians m) = Some pm /\ ~ (pm == 0)%Q /\ (r / pm < 8 # 10)%Q.
Proof.
  intros Hm. rewrite <- (mixedModels_false m Hm). unfold stateOf. rewrite rateOf_member, peerMedians_spec by done.
  assert (length (peerRates members m) = length (peersOf m)) as Hpl by (symmetry; eapply Forall2_length, peer_rates).
  assert (comparable m = attributable m && (MIN_SAMPLES <=? length (mi_rates m))%nat) as Hc by done.
  destruct (length members =? 1)%nat eqn:E1.
  { apply Nat.eqb_eq in E1. split; [done|]. intros (_ & _ & r & pm & _ & H & _). unfold peerMedians in H.
    by rewrite (single_no_peers m Hm E1) in H. }
  destruct (mixedModels members); [split; [done|by intros [? _]]|].
  destruct (attributable m); cbn [negb]; [|rewrite Hc; split; [done|by intros (_ & ? & _)]].
  destruct (length (mi_rates m) =? 0)%nat eqn:E0.
  { apply Nat.eqb_eq in E0. rewrite Hc, E0. split; [done|by intros (_ & ? & _)]. }
  destruct (comparable m); cbn [negb]; [|split; [done|by intros (_ & ? & _)]].
  destruct (length (peerRates members m) =? 0)%nat eqn:Ep.
  { apply Nat.eqb_eq in Ep. rewrite Hpl in Ep. apply nil_length_inv in Ep. split; [done|].
    intros (_ & _ & r & pm & _ & H & _). unfold peerMedians in H. by rewrite Ep in H. }
  unfold ratioOf. destruct (median (mi_rates m)) as [r|]; [|split; [done|naive_solver]].
  destruct (median (peerMedians m)) as [pm|]; [|split; [done|naive_solver]].
  destruct (Qeq_bool pm 0) eqn:Eq.
  { apply Qeq_bool_iff in Eq. split; [done|]. intros (_ & _ & r' & pm' & [= <-] & [= <-] & Hz & _). by destruct Hz. }
  assert (~ pm == 0)%Q by (by rewrite <- Qeq_bool_iff, Eq).
  destruct (Qle_bool SUSPECT_RATIO (r / pm)) eqn:El; cbn [negb].
  - apply Qle_bool_iff in El. unfold SUSPECT_RATIO in El. split; [done|].
    intros (_ & _ & r' & pm' & [= <-] & [= <-] & _ & Hlt). lra.
  - split; [|done]. intros _. split; [done|]. split; [done|]. exists r, pm. split; [done|]. split; [done|]. split; [done|].
    apply Qnot_le_lt. unfold SUSPECT_RATIO in El. by rewrite <- Qle_bool_iff, El.
Qed.

Lemma fastest_ok m :
  m ∈ members -> (forall p x, p ∈ members -> x ∈ mi_rates p -> (0 <= x)%Q) ->
  (forall p r rm, p ∈ members -> comparable p = true -> median (mi_rates p) = Some r -> median (mi_rates m) = Some rm -> (r <= rm)%Q) ->
  stateOf members m <> MSuspect.
Proof.
  intros Hm Hpos Hmax [_ (_ & r & pm & Hr & Hpm & Hz & Hlt)]%suspect_spec; [|done].
  assert (0 <= pm <= r)%Q as Hb.
  { apply (median_bounds _ _ Hpm). intros x Hx. unfold peerMedians in Hx.
    apply list_elem_of_omap in Hx as (p & [Hp [_ Hc]]%peersOf_elem & Hx). split.
    - destruct (median_between _ _ Hx) as (i & j & a & b & Hi & _ & Ha & _). apply list_elem_of_lookup_2 in Hi.
      rewrite elem_of_js_sort in Hi. pose proof (Hpos p a Hp Hi). lra.
    - by apply (Hmax p x r). }
  assert (0 < pm)%Q as Hp by (apply Qnot_le_lt; intros ?; apply Hz; apply Qle_antisym; [done|apply Hb]).
  apply (Qmult_lt_r _ _ pm Hp) in Hlt. unfold Qdiv in Hlt.
  rewrite <- Qmult_assoc, (Qmult_comm (/ pm)), Qmult_inv_r, Qmult_1_r in Hlt by done.
  destruct Hb. lra.
Qed.

End Verdicts.

(** When a member is suspect.  A member of a pool is called suspect exactly when every
    member serves the same model, its own node runs nothing else and has 60 samples, some
    other member is as comparable, the median of those members' medians is not zero, and
    its own median is below four fifths of that. *)
Theorem suspect_iff members m :
  NoDup (map mi_deploymentId members) -> m ∈ members ->
  stateOf members m = MSuspect <->
  (forall p, p ∈ members -> mi_modelId p = mi_modelId m) /\
  (mi_deploymentsOnNode m <= 1)%Z /\ 60 <= length (mi_rates m) /\
  exists r pm, median (mi_rates m) = Some r /\
    median (omap (fun p => median (mi_rates p))
              (List.filter (fun p => negb (String.eqb (mi_deploymentId p) (mi_deploymentId m)) && comparable p) members)) = Some pm /\
    ~ (pm == 0)%Q /\ (r / pm < 8 # 10)%Q.
Proof.
  intros Hn Hm. rewrite (suspect_spec members Hn m Hm). unfold comparable at 1, attributable.
  rewrite andb_true_iff, Z.leb_le, Nat.leb_le. unfold MIN_SAMPLES. tauto.
Qed.

(** A list has an element no other is above. *)
Lemma exists_max {A} (f : A -> Q) l : l <> [] -> exists x, x ∈ l /\ forall y, y ∈ l -> (f y <= f x)%Q.
Proof.
  induction l as [|x l IH]; [done|]. intros _. destruct l as [|y l].
  - exists x. split; [left|]. intros y ->%list_elem_of_singleton. lra.
  - destruct IH as (z & Hz & Hmax); [done|]. destruct (Qlt_le_dec (f z) (f x)) as [Hlt|Hle].
    + exists x. split; [left|]. intros u [->|Hu]%elem_of_cons; [lra|]. specialize (Hmax u Hu). lra.
    + exists z. split; [by right|]. intros u [->|Hu]%elem_of_cons; [done|by apply Hmax].
Qed.

(** Never is every member of a pool suspect.  Whatever the samples, as long as no rate
    is negative, the comparable member with the greatest median is not suspect; so a pool
    that is slow as a whole, or a pool of one, is never reported from the inside. *)
Theorem not_all_suspect members :
  NoDup (map mi_deploymentId members) -> members <> [] ->
  (forall p x, p ∈ members -> x ∈ mi_rates p -> (0 <= x)%Q) ->
  (exists m, m ∈ members /\ stateOf members m <> MSuspect) /\
  forall m, m ∈ members ->
    (forall p r rm, p ∈ members -> comparable p = true -> median (mi_rates p) = Some r -> median (mi_rates m) = Some rm -> (r <= rm)%Q) ->
    stateOf members m <> MSuspect.
Proof.
  intros Hn Hne Hpos. split; [|intros m Hm; by apply fastest_ok].
  destruct (decide (List.filter comparable members = [])) as [Hc|Hc].
  - destruct members as [|m l] eqn:E; [done|]. rewrite <- E in *. exists m. split; [rewrite E; left|].
    intros (_ & Hcm & _)%suspect_spec; [|done|rewrite E; left].
    apply (elem_of_nil m). rewrite <- Hc, elem_of_filter_bool. split; [rewrite E; left|done].
  - destruct (exists_max (fun p => default 0%Q (median (mi_rates p))) _ Hc) as (m & Hm & Hmax).
    apply elem_of_filter_bool in Hm as [Hm Hcm]. exists m. split; [done|]. apply fastest_ok; [done..|].
    intros p r rm Hp Hcp Hr Hrm. specialize (Hmax p). rewrite Hr, Hrm in Hmax. apply Hmax.
    by apply elem_of_filter_bool.
Qed.

(** Each member is judged in its own pool.  Every published member gets one verdict, and
    it is the one the members with its published name, and they alone, give: judged on the
    samples of the last hour of their nodes, and on how many deployments run there now. *)
Theorem assessed_in_own_pool samples deployments members now m :
  NoDup (map pm_deploymentId members) -> m ∈ members ->
  let ms := map (inputOf samples deployments (now - WINDOW_MINUTES * 60000))
              (filter (fun p => pm_publishedName p = pm_publishedName m) members) in
  let i := inputOf samples deployments (now - WINDOW_MINUTES * 60000) m in
  i ∈ ms /\
  exists v, al_get (assessThroughput samples deployments members now) (pm_deploymentId m) = Some v /\
    v ∈ evaluatePool ms /\ mv_deploymentId v = pm_deploymentId m /\ mv_state v = stateOf ms i.
Proof.
  intros Hn Hm ms i.
  assert (i ∈ ms) as Hi by (apply list_elem_of_fmap_2, list_elem_of_filter; done).
  split; [done|]. unfold assessThroughput. set (since := (now - WINDOW_MINUTES * 60000)%Z) in *.
  set (pools := group_by pm_publishedName members).
  set (vs := concat (map (fun pool => evaluatePool (map (inputOf samples deployments since) pool.2)) pools)).
  assert (map mv_deploymentId vs ≡ₚ map pm_deploymentId members) as Hperm.
  { unfold vs. rewrite concat_map, map_map.
    rewrite <- (Permutation_map pm_deploymentId (group_by_concat pm_publishedName members)). fold pools.
    rewrite concat_map. apply reflexive_eq. f_equal. change (snd <$> pools) with (map snd pools). rewrite map_map.
    apply map_ext. intros [k ps]. cbn [snd]. unfold evaluatePool. by rewrite !map_map. }
  set (v := {| mv_deploymentId := mi_deploymentId i; mv_node := mi_nodeName i; mv_state := stateOf ms i;
               mv_rate := rateOf ms (mi_deploymentId i); mv_peerRates := peerRates ms i;
               mv_ratio := ratioOf (rateOf ms (mi_deploymentId i)) (median (map snd (peerRates ms i))) |}).
  assert (v ∈ evaluatePool ms) as Hv by (unfold evaluatePool, v; apply list_elem_of_fmap; exists i; done).
  assert (v ∈ vs) as Hvs.
  { unfold vs. apply list_elem_of_In, in_concat. exists (evaluatePool ms). split; [|by apply list_elem_of_In].
    apply list_elem_of_In, list_elem_of_fmap. exists (pm_publishedName m, filter (fun p => pm_publishedName p = pm_publishedName m) members).
    split; [done|]. apply group_by_elem. split; [done|]. intros E. apply (elem_of_nil m). rewrite <- E.
    by apply list_elem_of_filter. }
  exists v. split; [|done]. change (pm_deploymentId m) with (mv_deploymentId v).
  apply (loop_lookup mv_deploymentId (fun v => v)); [by rewrite Hperm|done].
Qed.

(** * What the dashboard shows *)

Lemma flags_snoc l m : foldl flagMember [] (l ++ [m]) = flagMember (foldl flagMember [] l) m.
Proof. by rewrite foldl_app. Qed.

(** A node is flagged for any suspect member.  The overview flags a node exactly when a
    pool has a suspect member on it, with such a member's verdict, once; and a verdict is
    worded as behind its peers exactly when it is suspect. *)
Theorem suspects_are_shown pools node :
  (forall v, al_get (suspectedNodes pools) node = Some v -> exists p, p ∈ pools /\ (node, Some v) ∈ p /\ mv_state v = MSuspect) /\
  (forall p v, p ∈ pools -> (node, Some v) ∈ p -> mv_state v = MSuspect -> is_Some (al_get (suspectedNodes pools) node)) /\
  NoDup (suspectedNodes pools).*1 /\
  forall v t, describeThroughput (Some v) = Some t -> tv_tone t = ToneSuspect <-> mv_state v = MSuspect.
Proof.
  assert (forall v, isSuspect (Some v) = true <-> mv_state v = MSuspect) as Hs.
  { intros v. unfold isSuspect. destruct (mv_state v); done. }
  split; [|split; [|split]].
  - intros v. unfold suspectedNodes. assert (forall x, x ∈ concat pools -> exists p, p ∈ pools /\ x ∈ p) as Hc.
    { intros x Hx. apply list_elem_of_In, in_concat in Hx as (p & Hp & Hx). exists p. by rewrite !list_elem_of_In. }
    revert Hc. generalize (concat pools) as l. intros l Hc.
    induction l as [|m l IH] using rev_ind; [done|]. rewrite flags_snoc. unfold flagMember at 1.
    assert (forall x, x ∈ l -> exists p, p ∈ pools /\ x ∈ p) as Hl by (intros x Hx; apply Hc, elem_of_app; by left).
    specialize (IH Hl). destruct m as [n [u|]]; cbn [fst snd]; [|done].
    destruct (isSuspect (Some u)) eqn:E; [|done]. rewrite al_get_set. case_decide as Hd; [|done]. intros [= <-]. subst.
    destruct (Hc (n, Some u)) as (p & Hp & Hx); [apply elem_of_app; right; left|]. exists p. by rewrite <- Hs.
  - intros p v Hp Hx Hv. unfold suspectedNodes.
    assert ((node, Some v) ∈ concat pools) as Hin.
    { apply list_elem_of_In, in_concat. exists p. by rewrite <- !list_elem_of_In. }
    clear Hp Hx. induction (concat pools) as [|m l IH] using rev_ind; [by apply elem_of_nil in Hin|].
    rewrite flags_snoc. unfold flagMember at 1. apply elem_of_app in Hin as [Hin|Hin%list_elem_of_singleton].
    + specialize (IH Hin). destruct m as [n [u|]]; cbn [fst snd]; [|done]. destruct (isSuspect _); [|done].
      rewrite al_get_set. case_decide; [by eexists|done].
    + subst m. cbn [fst snd]. rewrite (proj2 (Hs v) Hv), al_get_set, decide_True by done. by eexists.
  - unfold suspectedNodes. induction (concat pools) as [|m l IH] using rev_ind; [constructor|].
    rewrite flags_snoc. unfold flagMember at 1. destruct m as [n [u|]]; cbn [fst snd]; [|done].
    destruct (isSuspect _); [by apply al_set_NoDup|done].
  - intros v t [= <-]. cbn. destruct (mv_state v); done.
Qed.

(** * The verboseness gate *)

Lemma filter_positive {A} (p : A -> bool) l : 0 < length (List.filter p l) <-> exists x, x ∈ l /\ p x = true.
Proof.
  split.
  - destruct (List.filter p l) as [|x k] eqn:E; cbn; [lia|]. intros _. exists x. rewrite <- elem_of_filter_bool, E. left.
  - intros (x & Hx%elem_of_filter_bool). destruct (List.filter p l); [by apply elem_of_nil in Hx|cbn; lia].
Qed.

(** What the verboseness gate tests.  The run exits with an error exactly when some
    answer that came is above the budget and the gate is not switched off.  So it passes
    when no request is answered at all, and whatever the answers when the budget given is
    no number. *)
Theorem verboseness_gate argv budget call :
  let code := (runVerboseness argv budget call).2 in
  (code = 1%Z <->
   hasFlag argv "no-fail" = false /\
   exists id mode l, id ∈ PROMPT_IDS /\ mode ∈ modesOf argv /\ call id mode = Some l /\
     num_lt budget (zn (rl_completionTokens l)) = true) /\
  (code = 0%Z \/ code = 1%Z) /\
  ((forall id mode, call id mode = None) -> code = 0%Z) /\
  (budget = NaN -> code = 0%Z).
Proof.
  cbv zeta. unfold runVerboseness. cbn [snd]. set (n := vs_overBudgetCount _).
  assert ((0 <? n)%nat = true <-> exists id mode l, id ∈ PROMPT_IDS /\ mode ∈ modesOf argv /\ call id mode = Some l /\
     num_lt budget (zn (rl_completionTokens l)) = true) as Hn.
  { unfold n. cbn [evaluateVerboseness vs_overBudgetCount]. rewrite Nat.ltb_lt. set (vs := map _ (samplesOf _ _)).
    rewrite filter_positive.
    unfold vs, samplesOf. split.
    - intros (v & Hv & Ho). apply list_elem_of_fmap in Hv as (s & -> & Hin). cbn in Ho.
      apply list_elem_of_In, in_concat in Hin as (x & Hx & Hin). apply list_elem_of_In in Hx, Hin.
      apply list_elem_of_fmap in Hx as (id & -> & Hid). apply list_elem_of_omap in Hin as (mode & Hmode & Hs).
      destruct (call id mode) as [l|] eqn:El; [|done]. injection Hs as <-. by exists id, mode, l.
    - intros (id & mode & l & Hid & Hmode & Hl & Ho). eexists. split.
      + apply list_elem_of_fmap. eexists. split; [reflexivity|]. apply list_elem_of_In, in_concat. eexists. split.
        * apply list_elem_of_In, list_elem_of_fmap. exists id. split; [reflexivity|done].
        * apply list_elem_of_In, list_elem_of_omap. exists mode. split; [done|]. rewrite Hl. reflexivity.
      + done. }
  split; [|split; [|split]].
  - rewrite <- Hn. destruct (0 <? n)%nat, (hasFlag argv "no-fail"); cbn; naive_solver.
  - destruct ((0 <? n)%nat && _); [by right|by left].
  - intros Hc. destruct (0 <? n)%nat; [|done]. destruct (proj1 Hn eq_refl) as (id & mode & l & _ & _ & Hl & _).
    by rewrite Hc in Hl.
  - intros ->. destruct (0 <? n)%nat; [|done]. by destruct (proj1 Hn eq_refl) as (id & mode & l & _ & _ & _ & Hl).
Qed.

(** * Examples *)

Module Examples.

Definition member (id : string) (count : Z) (rate : Q) : MemberInput :=
  {| mi_deploymentId := id; mi_nodeId := id; mi_nodeName := id; mi_modelId := "m"; mi_deploymentsOnNode := count;
     mi_rates := replicate 60 rate |}.
Definition pair : list MemberInput := [member "a" 1 30; member "b" 1 60].

Lemma suspect_iff_witness : stateOf pair (member "a" 1 30) = MSuspect /\ (30 / 60 < 8 # 10)%Q.
Proof.
  assert (stateOf pair (member "a" 1 30) = MSuspect) as H by (vm_compute; reflexivity).
  split; [exact H|].
  apply (suspect_iff pair (member "a" 1 30)) in H as (_ & _ & _ & r & pm & Hr & Hpm & _ & Hlt).
  - vm_compute in Hr, Hpm. injection Hr as <-. injection Hpm as <-. exact Hlt.
  - vm_compute. repeat constructor; set_solver.
  - left.
Defined.

Lemma median_halves_witness : exists m, median [3; 1; 2]%Q = Some m /\ 3 <= 2 * length (List.filter (fun x => Qle_bool x m) [3; 1; 2]%Q).
Proof.
  destruct (median_halves [3; 1; 2]%Q) as (m & H1 & H2 & _); [discriminate|]. exists m. split; [exact H1|exact H2].
Defined.

Lemma not_all_suspect_witness : exists m, m ∈ pair /\ stateOf pair m <> MSuspect.
Proof.
  refine (proj1 (not_all_suspect pair _ _ _)).
  - vm_compute. repeat constructor; set_solver.
  - discriminate.
  - intros p x [->|[->|Hp%elem_of_nil]%elem_of_cons]%elem_of_cons Hx; [..|done];
      apply elem_of_replicate in Hx as [-> _]; vm_compute; discriminate.
Defined.

(** Three members, one of which shares its node: it is not judged, and judges nobody. *)
Example shared_node :
  map (fun m => stateOf (member "c" 2 5 :: pair) m) (member "c" 2 5 :: pair) =
  [MNotComparable MultiDeploymentNode; MSuspect; MOk].
Proof. vm_compute. reflexivity. Qed.

(** Peers whose median is zero: nothing is suspect, whatever the member's rate. *)
Example idle_peers : map (stateOf [member "a" 1 0; member "b" 1 0]) [member "a" 1 0; member "b" 1 0] = [MOk; MOk].
Proof. vm_compute. reflexivity. Qed.

Definition ref1 : PoolMemberRef :=
  {| pm_deploymentId := "d1"; pm_nodeId := "n1"; pm_nodeName := "spark"; pm_modelId := "m"; pm_publishedName := "q" |}.

Lemma assessed_in_own_pool_witness :
  exists v, al_get (assessThroughput [] [] [ref1] 0) "d1" = Some v /\ mv_state v = MNotComparable SingleMember.
Proof.
  destruct (assessed_in_own_pool [] [] [ref1] 0 ref1) as (_ & v & H1 & _ & _ & H2).
  - repeat constructor. set_solver.
  - left.
  - exists v. split; [exact H1|]. rewrite H2. reflexivity.
Defined.

Example words :
  describeThroughput (head (evaluatePool pair)) =
  Some {| tv_tone := ToneSuspect; tv_label := "behind peers";
          tv_detail := Some "30.0 t/s against 60.0 t/s across 1 peer over 60 min (50%)" |}.
Proof. vm_compute. reflexivity. Qed.

Example endpoint_arguments :
  resolveEndpoint ["--endpoint"; "http://h:8000/"; "--model"; "m"] [] = Ok ("http://h:8000", Some "m") /\
  resolveEndpoint ["--endpoint"; "http://h:8000/"; "--model"] [] = Err "--endpoint requires --model" /\
  modesOf ["--modes"; "off,loud,on"] = [ThinkOff; ThinkOn].
Proof. repeat split; reflexivity. Qed.

End Examples.
