(* ===== verification/KnownHosts.v ===== *)
(** The manager's seeding of the cluster's known hosts ([server/ssh/known-hosts.ts],
    [known-hosts-trigger.ts]): the addresses gathered and trusted, the script and the
    report, in [Hosts]; the single flight, the throttle and the debounce, in [Guard].

    A node's answers over SSH and the clock are arguments. *)
From S2P Require Import Prelude JsNum Schema Admission Gateway Deployments Recipes Routes DeployRoute AgentHub LaunchArgs AgentLaunch AgentHealth Sparkrun.

Module Hosts.
Import Sparkrun.Parse.

Record NodeForSeed := {
  ns_id : string; ns_host : string; ns_ipAddress : option string; ns_fastIpAddress : option string }.

Record PerNodeResult := {
  pn_nodeId : string; pn_host : string; pn_ipsSeeded : nat; pn_ok : bool; pn_error : option string }.
Record ReseedReport := { rr_trustedIps : list string; rr_perNode : list PerNodeResult; rr_skipped : bool }.

(** [\d{1,3}] followed by what is next. *)
Definition octetHere (s : string) : option (string * string) :=
  let '(d, rest) := span is_digit s in
  if (1 <=? String.length d)%nat && (String.length d <=? 3)%nat then Some (d, rest) else None.

Definition dottedHere (s : string) : option (string * string) :=
  '(a, r) ← octetHere s; r ← strip_prefix "." r;
  '(b, r) ← octetHere r; r ← strip_prefix "." r;
  '(c, r) ← octetHere r; r ← strip_prefix "." r;
  '(d, r) ← octetHere r;
  Some (a +:+ "." +:+ b +:+ "." +:+ c +:+ "." +:+ d, r).

(** [inet\s+(<dottedHere>)\/\d+] here: the group, and what follows the match. *)
Definition inetHere (s : string) : option (string * string) :=
  r ← strip_prefix "inet" s;
  let r' := skip_ws r in
  if String.eqb r r' then None
  else
    '(ip, r) ← dottedHere r'; r ← strip_prefix "/" r;
    let '(d, rest) := span is_digit r in
    if String.eqb d "" then None else Some (ip, rest).

(** The matches of the global pattern; [fuel]: the length of the text.  [prev]: the
    character before is part of a word. *)
Fixpoint inetAll (fuel : nat) (prev : bool) (s : string) : list string :=
  match fuel with
  | O => []
  | S fuel =>
      match (if prev then None else inetHere s) with
      | Some (ip, rest) => ip :: inetAll fuel true rest
      | None => match s with String c r => inetAll fuel (word_char c) r | EmptyString => [] end
      end
  end.

Definition parseGlobalIpv4s (ipAddrOutput : string) : list string :=
  inetAll (S (String.length ipAddrOutput)) false ipAddrOutput.

Definition slash24 (ip : string) : string := str_join "." (take 3 (str_split "." ip)).

Definition prefixesOf (nodes : list NodeForSeed) : list string :=
  concat (map (fun n =>
    (if NodeIp.isValidIpv4 (ns_ipAddress n) then option_list (slash24 <$> ns_ipAddress n) else []) ++
    (if NodeIp.isValidIpv4 (ns_fastIpAddress n) then option_list (slash24 <$> ns_fastIpAddress n) else [])) nodes).

Definition filterToClusterSubnets (ips : list string) (nodes : list NodeForSeed) : list string :=
  js_sort str_le
    (remove_dups (List.filter (fun ip => NodeIp.isValidIpv4 (Some ip) && mem_str (slash24 ip) (prefixesOf nodes)) ips)).

Definition removal (ip : string) : string :=
  "sudo ssh-keygen -f /etc/ssh/ssh_known_hosts -R " +:+ ip +:+ " >/dev/null 2>&1 || true".
Definition keyscan (ips : list string) : string :=
  "ssh-keyscan -T 5 " +:+ str_join " " ips +:+ " 2>/dev/null | sudo tee -a /etc/ssh/ssh_known_hosts >/dev/null".

Definition scriptText (ips : list string) : string :=
  str_join (String nl "")
    ["sudo touch /etc/ssh/ssh_known_hosts"; str_join (String nl "") (map removal ips); keyscan ips;
     "sudo sort -u /etc/ssh/ssh_known_hosts -o /etc/ssh/ssh_known_hosts"].

Definition buildKeyscanSeedScript (ips : list string) : result string string :=
  match ips with
  | [] => Err "buildKeyscanSeedScript: no IPs"
  | _ => match js_find (fun ip => negb (NodeIp.isValidIpv4 (Some ip))) ips with
         | Some ip => Err ("buildKeyscanSeedScript: invalid IPv4 " +:+ ip)
         | None => Ok (scriptText ips)
         end
  end.

(** [gather n]: the exit code and the output of [ip addr] on a node, [None] when it is not
    reached; [seed n script]: the exit code and standard error, or the error's message. *)
Section Reseed.
Context (gather : NodeForSeed -> option (Z * string)) (seed : NodeForSeed -> string -> result string (Z * string)).

Definition discovered (nodes : list NodeForSeed) : list string :=
  concat (map (fun n => match gather n with
                        | Some (code, out) => if (code =? 0)%Z then parseGlobalIpv4s out else []
                        | None => []
                        end) nodes).

Definition seedNode (script : string) (count : nat) (n : NodeForSeed) : PerNodeResult :=
  match seed n script with
  | Ok (code, stderr) =>
      let ok := (code =? 0)%Z in
      {| pn_nodeId := ns_id n; pn_host := ns_host n; pn_ipsSeeded := if ok then count else 0; pn_ok := ok;
         pn_error := if ok then None else Some (js_or (Some stderr) ("exit " +:+ pretty code)) |}
  | Err e => {| pn_nodeId := ns_id n; pn_host := ns_host n; pn_ipsSeeded := 0; pn_ok := false; pn_error := Some e |}
  end.

(** [Err]: the promise rejects. *)
Definition doReseed (nodes : list NodeForSeed) : result string ReseedReport :=
  let trusted := filterToClusterSubnets (discovered nodes) nodes in
  if (length trusted =? 0)%nat then Ok {| rr_trustedIps := trusted; rr_perNode := []; rr_skipped := false |}
  else
    match buildKeyscanSeedScript trusted with
    | Err e => Err e
    | Ok script =>
        Ok {| rr_trustedIps := trusted; rr_perNode := map (seedNode script (length trusted)) nodes; rr_skipped := false |}
    end.

End Reseed.

Definition loadOnlineSeedNodes (ns : list node) : list NodeForSeed :=
  omap (fun n => ip ← n_ipAddress n;
          if String.eqb (n_status n) "online" && NodeIp.isValidIpv4 (Some ip)
          then Some {| ns_id := n_id n; ns_host := ip; ns_ipAddress := Some ip; ns_fastIpAddress := n_fastIpAddress n |}
          else None) ns.

End Hosts.

Module Guard.
Import Hosts.

Definition THROTTLE_MS : Z := 5 * 60 * 1000.

(** [inFlight]: the nodes of the run under way. *)
Record guard := { gd_inFlight : option (list NodeForSeed); gd_lastRunAt : option Z }.

Definition resetKnownHostsGuard : guard := {| gd_inFlight := None; gd_lastRunAt := None |}.

(** What a call of [reseedClusterKnownHosts] gets: the promise of the run under way, the
    report of a throttled call, or a run of its own. *)
Inductive outcome := Joined (nodes : list NodeForSeed) | Throttled | Started (nodes : list NodeForSeed).

Definition throttled (now : Z) (g : guard) : bool :=
  match gd_lastRunAt g with Some t => (now - t <? THROTTLE_MS)%Z | None => false end.

Definition reseedClusterKnownHosts (nodes : list NodeForSeed) (force : bool) (now : Z) (g : guard) : guard * outcome :=
  match gd_inFlight g with
  | Some running => (g, Joined running)
  | None =>
      if negb force && throttled now g then (g, Throttled)
      else ({| gd_inFlight := Some nodes; gd_lastRunAt := gd_lastRunAt g |}, Started nodes)
  end.

(** The run ends: with a report, or by an exception. *)
Definition ended (ok : bool) (now : Z) (g : guard) : guard :=
  match gd_inFlight g with
  | Some _ => {| gd_inFlight := None; gd_lastRunAt := if ok then Some now else gd_lastRunAt g |}
  | None => g
  end.

Inductive event :=
  | Call (nodes : list NodeForSeed) (force : bool) (now : Z)
  | End (ok : bool) (now : Z).

Definition react (g : guard) (e : event) : guard :=
  match e with
  | Call nodes force now => (reseedClusterKnownHosts nodes force now g).1
  | End ok now => ended ok now g
  end.

Definition run (es : list event) : guard := foldl react resetKnownHostsGuard es.

(** [scheduleDebouncedReseed]: [pending], when the timer goes off.  The times it does,
    for calls at the given times. *)
Fixpoint fires (delayMs : Z) (pending : option Z) (calls : list Z) : list Z :=
  match calls with
  | [] => option_list pending
  | t :: rest =>
      match pending with
      | Some due => if (due <=? t)%Z then due :: fires delayMs (Some (t + delayMs)%Z) rest
                    else fires delayMs (Some (t + delayMs)%Z) rest
      | None => fires delayMs (Some (t + delayMs)%Z) rest
      end
  end.

Definition scheduleDebouncedReseed (calls : list Z) : list Z := fires 10000 None calls.

End Guard.
