(* ===== verification/KnownHostsFacts.v ===== *)
(** Known hosts: what is trusted and what reaches a shell, one run at a time, what a call
    during a run gets, and that a burst of reconnects makes one run. *)
From S2P Require Import Prelude JsNum Schema Admission Gateway Deployments Recipes Routes DeployRoute AgentHub LaunchArgs AgentLaunch AgentHealth Sparkrun TrainRecipesFacts KnownHosts.
Import Sparkrun.Parse KnownHosts.Hosts KnownHosts.Guard.

(** * Addresses *)

Definition ip_char (c : ascii) : bool := is_digit c || Ascii.eqb c ".".

Lemma split_not_nil sep s : str_split sep s <> [].
Proof. destruct s as [|c s]; cbn; [done|]. by destruct (Ascii.eqb c sep), (str_split sep s). Qed.

Lemma join_split sep s : str_join (String sep "") (str_split sep s) = s.
Proof.
  induction s as [|c s IH]; [done|]. cbn [str_split]. pose proof (split_not_nil sep s) as Hne.
  destruct (str_split sep s) as [|w ws]; [done|]. destruct (Ascii.eqb c sep) eqn:E.
  - apply Ascii.eqb_eq in E as ->. rewrite str_join_cons. by rewrite IH.
  - destruct ws as [|v ws]; [by rewrite <- IH|]. rewrite str_join_cons in *. by rewrite <- IH.
Qed.

Lemma valid_chars ip : NodeIp.isValidIpv4 (Some ip) = true -> str_all ip_char ip = true.
Proof.
  unfold NodeIp.isValidIpv4. destruct (truthy (Some ip)) as [s|] eqn:Et; [|done].
  assert (s = ip) as -> by (by destruct ip; simplify_eq/=). rewrite <- (join_split "." ip) at 2.
  destruct (str_split "." ip) as [|a [|b [|c [|d [|]]]]]; try done.
  assert (forall o, NodeIp.octet o = true -> str_all ip_char o = true) as Ho.
  { intros o [[_ H]%andb_prop _]%andb_prop. revert H. apply str_all_impl. intros x. unfold ip_char. by intros ->. }
  intros [[[Ha%Ho Hb%Ho]%andb_prop Hc%Ho]%andb_prop Hd%Ho]%andb_prop.
  rewrite !str_join_cons, !str_all_app. change (str_join (String "." "") [d]) with d. by rewrite Ha, Hb, Hc, Hd.
Qed.

Lemma str_le_sorted l : StronglySorted (fun a b => str_le a b = true) (js_sort str_le l).
Proof. apply js_sort_sorted; intros; [apply str_le_total|by eapply str_le_trans]. Qed.

Lemma prefixesOf_elem nodes p :
  p ∈ prefixesOf nodes <->
  exists n a, n ∈ nodes /\ (ns_ipAddress n = Some a \/ ns_fastIpAddress n = Some a) /\
    NodeIp.isValidIpv4 (Some a) = true /\ slash24 a = p.
Proof.
  unfold prefixesOf. rewrite list_elem_of_In, in_concat. split.
  - intros (x & Hx & Hp). apply list_elem_of_In, list_elem_of_fmap in Hx as (n & -> & Hn). apply list_elem_of_In in Hp.
    exists n. apply elem_of_app in Hp as [Hp|Hp].
    + destruct (ns_ipAddress n) as [a|] eqn:E; [|by apply elem_of_nil in Hp]. destruct (NodeIp.isValidIpv4 _) eqn:Ev; [|by apply elem_of_nil in Hp].
      apply list_elem_of_singleton in Hp. exists a. naive_solver.
    + destruct (ns_fastIpAddress n) as [a|] eqn:E; [|by apply elem_of_nil in Hp]. destruct (NodeIp.isValidIpv4 _) eqn:Ev; [|by apply elem_of_nil in Hp].
      apply list_elem_of_singleton in Hp. exists a. naive_solver.
  - intros (n & a & Hn & Ha & Hv & <-). eexists. split; [apply list_elem_of_In, list_elem_of_fmap; by exists n|].
    apply list_elem_of_In, elem_of_app. destruct Ha as [-> | ->]; [left|right]; rewrite Hv; left.
Qed.

(** ** An address, and where a text prints one, spelled *)

Definition octetOk (s : string) : Prop :=
  (1 <= String.length s <= 3)%nat /\ str_all is_digit s = true /\ ((digits 10 0 0 s).1.1 <= 255)%Z.
Definition quad (a b c d : string) : string := a +:+ "." +:+ b +:+ "." +:+ c +:+ "." +:+ d.

Lemma octet_ok s : NodeIp.octet s = true <-> octetOk s.
Proof. unfold NodeIp.octet, octetOk. rewrite !andb_true_iff, !Nat.leb_le, Z.leb_le. tauto. Qed.

Lemma digits_not_dot s : str_all is_digit s = true -> str_all (not_char ".") s = true.
Proof. apply str_all_impl. intros c Hc. unfold not_char. destruct (Ascii.eqb c ".") eqn:E; [|done]. by apply Ascii.eqb_eq in E as ->. Qed.

Lemma split_quad a b c d :
  Forall (fun s => str_all is_digit s = true) [a; b; c; d] -> str_split "." (quad a b c d) = [a; b; c; d].
Proof.
  intros H. repeat (apply Forall_cons in H as [?%digits_not_dot H]). unfold quad.
  change ("." +:+ b +:+ "." +:+ c +:+ "." +:+ d) with (String "." (b +:+ String "." (c +:+ String "." d))).
  by rewrite !str_split_app, str_split_word.
Qed.

Lemma valid_quad ip :
  NodeIp.isValidIpv4 (Some ip) = true <-> exists a b c d, ip = quad a b c d /\ Forall octetOk [a; b; c; d].
Proof.
  split.
  - unfold NodeIp.isValidIpv4. destruct (truthy (Some ip)) as [s|] eqn:Et; [|done].
    assert (s = ip) as -> by (by destruct ip; simplify_eq/=). pose proof (join_split "." ip) as Hj.
    destruct (str_split "." ip) as [|a [|b [|c [|d [|]]]]]; try done.
    rewrite !andb_true_iff, !octet_ok. intros [[[Ha Hb] Hc] Hd]. exists a, b, c, d. split; [by rewrite <- Hj|by rewrite !Forall_cons, Forall_nil].
  - intros (a & b & c & d & -> & H). unfold NodeIp.isValidIpv4.
    assert (truthy (Some (quad a b c d)) = Some (quad a b c d)) as ->.
    { unfold quad. destruct a; [|done]. apply Forall_cons in H as [[Hl _] _]. cbn in Hl. lia. }
    rewrite split_quad by (eapply Forall_impl; [exact H|]; by intros x (_ & ? & _)).
    repeat (apply Forall_cons in H as [?%octet_ok H]). by rewrite !andb_true_iff.
Qed.

Lemma slash24_quad a b c d : Forall octetOk [a; b; c; d] -> slash24 (quad a b c d) = a +:+ "." +:+ b +:+ "." +:+ c.
Proof.
  intros H. unfold slash24. rewrite split_quad by (eapply Forall_impl; [exact H|]; by intros x (_ & ? & _)).
  cbn [take]. by rewrite !str_join_cons.
Qed.

(** The text so far ends inside a word. *)
Fixpoint inWord (prev : bool) (s : string) : bool :=
  match s with EmptyString => prev | String c r => inWord (word_char c) r end.

Definition digitsOf (s : string) : Prop := (1 <= String.length s <= 3)%nat /\ str_all is_digit s = true.

(** The word "inet", white space, four groups of one to three digits with dots between, a slash
    and a digit; [rest]: what follows that digit. *)
Definition shown (s a b c d rest : string) : Prop :=
  exists ws l, s = "inet" +:+ ws +:+ quad a b c d +:+ "/" +:+ String l rest /\
    ws <> "" /\ str_all is_ws ws = true /\ Forall digitsOf [a; b; c; d] /\ is_digit l = true.
Definition prints (out ip : string) : Prop :=
  exists pre s a b c d rest, out = pre +:+ s /\ inWord false pre = false /\ shown s a b c d rest /\ ip = quad a b c d.

Lemma span_stop p a c r : str_all p a = true -> p c = false -> span p (a +:+ String c r) = (a, String c r).
Proof.
  intros Ha Hc. induction a as [|x a IH]; [rewrite app_empty_l; cbn; by rewrite Hc|]. cbn in Ha. apply andb_prop in Ha as [Hx Ha].
  rewrite app_String. cbn [span]. by rewrite Hx, (IH Ha).
Qed.

Lemma span_parts p s : s = (span p s).1 +:+ (span p s).2 /\ str_all p (span p s).1 = true.
Proof.
  induction s as [|c s [IH1 IH2]]; [done|]. cbn [span]. destruct (p c) eqn:E; [|done].
  destruct (span p s) as [a b]. cbn [fst snd] in *. rewrite app_String, <- IH1. split; [done|]. cbn. by rewrite E.
Qed.

Lemma skip_ws_app ws r c : str_all is_ws ws = true -> is_ws c = false -> skip_ws (ws +:+ String c r) = String c r.
Proof.
  intros Hw Hc. induction ws as [|x ws IH]; [rewrite app_empty_l; cbn; by rewrite Hc|]. cbn in Hw. apply andb_prop in Hw as [Hx Hw].
  rewrite app_String. cbn [skip_ws]. by rewrite Hx, (IH Hw).
Qed.

Lemma skip_ws_parts s : exists ws, s = ws +:+ skip_ws s /\ str_all is_ws ws = true.
Proof.
  induction s as [|c s (ws & E & H)]; [by exists ""|]. cbn [skip_ws]. destruct (is_ws c) eqn:Ec; [|by exists ""].
  exists (String c ws). rewrite app_String, <- E. split; [done|]. cbn. by rewrite Ec.
Qed.

Lemma octetHere_Some s a r : octetHere s = Some (a, r) -> s = a +:+ r /\ digitsOf a.
Proof.
  unfold octetHere. destruct (span_parts is_digit s) as [E H]. destruct (span is_digit s) as [x y]. cbn [fst snd] in *.
  destruct (1 <=? String.length x)%nat eqn:E1; [|done]. destruct (String.length x <=? 3)%nat eqn:E2; [|done].
  apply Nat.leb_le in E1, E2. intros [= <- <-]. by split; [|split; [lia|]].
Qed.

Lemma octetHere_app a c r : digitsOf a -> is_digit c = false -> octetHere (a +:+ String c r) = Some (a, String c r).
Proof.
  intros [Hl Ha] Hc. unfold octetHere. rewrite span_stop by done.
  rewrite (proj2 (Nat.leb_le _ _)) by lia. by rewrite (proj2 (Nat.leb_le _ _)) by lia.
Qed.

Lemma dottedHere_Some s ip r :
  dottedHere s = Some (ip, r) -> exists a b c d, ip = quad a b c d /\ s = ip +:+ r /\ Forall digitsOf [a; b; c; d].
Proof.
  unfold dottedHere. destruct (octetHere s) as [[a r1]|] eqn:E1; [|done]. cbn.
  destruct (strip_prefix "." r1) as [r2|] eqn:E2; [|done]. cbn. destruct (octetHere r2) as [[b r3]|] eqn:E3; [|done]. cbn.
  destruct (strip_prefix "." r3) as [r4|] eqn:E4; [|done]. cbn. destruct (octetHere r4) as [[c r5]|] eqn:E5; [|done]. cbn.
  destruct (strip_prefix "." r5) as [r6|] eqn:E6; [|done]. cbn. destruct (octetHere r6) as [[d r7]|] eqn:E7; [|done].
  intros [= <- <-]. exists a, b, c, d. apply strip_prefix_Some in E2, E4, E6.
  apply octetHere_Some in E1 as [-> H1], E3 as [-> H2], E5 as [-> H3], E7 as [-> H4]. subst. unfold quad.
  split; [done|]. split; [by rewrite !str_app_assoc|by rewrite !Forall_cons, Forall_nil].
Qed.

Lemma dottedHere_app a b c d x r :
  Forall digitsOf [a; b; c; d] -> is_digit x = false -> dottedHere (quad a b c d +:+ String x r) = Some (quad a b c d, String x r).
Proof.
  intros H Hx. repeat (apply Forall_cons in H as [? H]). unfold quad. rewrite !str_app_assoc. unfold dottedHere.
  assert (forall u, strip_prefix "." (String "." u) = Some u) as Hs by (intros u; exact (strip_prefix_app "." u)).
  change (a +:+ "." +:+ b +:+ "." +:+ c +:+ "." +:+ d +:+ String x r) with
    (a +:+ String "." (b +:+ String "." (c +:+ String "." (d +:+ String x r)))).
  rewrite octetHere_app by done. cbn. rewrite Hs. cbn. rewrite octetHere_app by done. cbn. rewrite Hs. cbn.
  rewrite octetHere_app by done. cbn. rewrite Hs. cbn. by rewrite octetHere_app by done.
Qed.

(** *** The matches of the pattern *)

Lemma digits_words s : str_all is_digit s = true -> str_all word_char s = true.
Proof. apply str_all_impl. intros c Hc. unfold word_char, is_alnum. by rewrite Hc, ?orb_true_r. Qed.

Lemma inWord_app prev x y : inWord prev (x +:+ y) = inWord (inWord prev x) y.
Proof. revert prev. induction x as [|c x IH]; intros prev; [by rewrite app_empty_l|]. rewrite app_String. apply IH. Qed.

Lemma inWord_digit x l : is_digit l = true -> forall prev, inWord prev (x +:+ String l "") = true.
Proof. intros Hl prev. rewrite inWord_app. cbn. pose proof (digits_words (String l "")) as H. cbn in H. rewrite Hl in H. by destruct (word_char l); [|specialize (H eq_refl)]. Qed.

Lemma str_last_split s : s <> "" -> exists x l, s = x +:+ String l "".
Proof.
  induction s as [|c s IH]; [done|]. intros _. destruct s as [|d s]; [by exists "", c|].
  destruct (IH ltac:(done)) as (x & l & ->). by exists (String c x), l.
Qed.

Lemma digit_not_ws c : is_digit c = true -> is_ws c = false.
Proof. by destruct c as [[] [] [] [] [] [] [] []]. Qed.

(** What a match consumes: everything up to its last digit. *)
Lemma inetHere_Some s ip r :
  inetHere s = Some (ip, r) ->
  exists ws a b c d x l, s = "inet" +:+ ws +:+ quad a b c d +:+ "/" +:+ x +:+ String l r /\ ip = quad a b c d /\
    ws <> "" /\ str_all is_ws ws = true /\ Forall digitsOf [a; b; c; d] /\ str_all is_digit x = true /\ is_digit l = true.
Proof.
  unfold inetHere. destruct (strip_prefix "inet" s) as [r1|] eqn:E1; [|done]. cbn. apply strip_prefix_Some in E1 as ->.
  destruct (skip_ws_parts r1) as (ws & Er & Hws). destruct (String.eqb_spec r1 (skip_ws r1)) as [|Hne]; [done|].
  destruct (dottedHere (skip_ws r1)) as [[ip' r2]|] eqn:E2; [|done]. cbn.
  destruct (strip_prefix "/" r2) as [r3|] eqn:E3; [|done]. cbn. apply strip_prefix_Some in E3 as ->.
  destruct (span_parts is_digit r3) as [Ed Hd]. destruct (span is_digit r3) as [ds rest]. cbn [fst snd] in *.
  destruct (String.eqb_spec ds "") as [|Hds]; [done|]. intros [= <- <-].
  apply dottedHere_Some in E2 as (a & b & c & d & Eip & E2 & Hq). destruct (str_last_split ds Hds) as (x & l & ->).
  rewrite str_all_app in Hd. apply andb_prop in Hd as [Hx Hl]. cbn in Hl. rewrite andb_true_r in Hl.
  exists ws, a, b, c, d, x, l. rewrite Er, E2, Eip, Ed, !str_app_assoc. split; [done|]. split; [done|].
  split; [|done]. intros ->. by rewrite app_empty_l in Er.
Qed.

Lemma inetHere_shown s a b c d rest : shown s a b c d rest -> exists r, inetHere s = Some (quad a b c d, r).
Proof.
  intros (ws & l & -> & Hne & Hw & Hq & Hl). unfold inetHere. rewrite strip_prefix_app. cbn [mbind option_bind]. cbv zeta.
  assert (skip_ws (ws +:+ quad a b c d +:+ "/" +:+ String l rest) = quad a b c d +:+ "/" +:+ String l rest) as Hs.
  { apply Forall_cons in Hq as [[Hla Ha] _]. destruct a as [|x a]; [cbn in Hla; lia|]. unfold quad. rewrite !app_String.
    apply skip_ws_app; [done|]. cbn in Ha. apply andb_prop in Ha as [Ha _]. by apply digit_not_ws. }
  rewrite Hs.
  destruct (String.eqb_spec (ws +:+ quad a b c d +:+ "/" +:+ String l rest) (quad a b c d +:+ "/" +:+ String l rest)) as [E|_].
  { apply (f_equal String.length) in E. rewrite str_length_app in E. destruct ws; [done|]. cbn in E. lia. }
  change ("/" +:+ String l rest) with (String "/" (String l rest)).
  rewrite dottedHere_app by done. cbn [mbind option_bind]. change (String "/" (String l rest)) with ("/" +:+ String l rest).
  rewrite strip_prefix_app. cbn [mbind option_bind span]. rewrite Hl. destruct (span is_digit rest) as [u v]. by eexists.
Qed.

(** Two ways to cut a text. *)
Lemma cut_twice x y u v :
  x +:+ y = u +:+ v -> (exists w, u = x +:+ w /\ y = w +:+ v) \/ exists c w, x = u +:+ String c w /\ v = String c w +:+ y.
Proof.
  revert u. induction x as [|c x IH]; intros u E.
  - left. exists u. by rewrite app_empty_l in *.
  - destruct u as [|d u].
    + right. exists c, x. by rewrite app_empty_l in *.
    + rewrite !app_String in E. injection E as <- E. destruct (IH u E) as [(w & -> & ->)|(e & w & -> & ->)]; [left|right].
      * by exists w.
      * by exists e, w.
Qed.

(** No match begins inside another: only its first character can begin one. *)
Lemma shown_not_inside pre x s a b c d rest tail :
  str_all (not_char "i") x = true -> pre <> "" -> shown s a b c d rest -> String "i" x +:+ tail = pre +:+ s ->
  exists w, pre = String "i" x +:+ w /\ tail = w +:+ s.
Proof.
  intros Hx Hne (ws & l & -> & _) E. apply cut_twice in E as [(w & -> & ->)|(e & w & E & Ev)]; [by exists w|exfalso].
  destruct pre as [|p pre]; [done|]. rewrite app_String in E. injection E as <- ->. rewrite app_String in Ev.
  cbn in Ev. injection Ev as <- _. rewrite str_all_app in Hx. by apply andb_prop in Hx as [_ Hx].
Qed.

Lemma match_chars ws a b c d x l :
  str_all is_ws ws = true -> Forall digitsOf [a; b; c; d] -> str_all is_digit x = true -> is_digit l = true ->
  str_all (not_char "i") ("net" +:+ ws +:+ quad a b c d +:+ "/" +:+ x +:+ String l "") = true.
Proof.
  intros Hw Hq Hx Hl. repeat (apply Forall_cons in Hq as [[_ ?] Hq]).
  assert (forall s, str_all is_digit s = true -> str_all (not_char "i") s = true) as Hd.
  { intros s. apply str_all_impl. intros [[] [] [] [] [] [] [] []]; done. }
  assert (str_all (not_char "i") ws = true) as Hi by (revert Hw; apply str_all_impl; intros [[] [] [] [] [] [] [] []]; done).
  assert (str_all (not_char "i") (String l "") = true) as Hi' by (apply Hd; cbn; by rewrite Hl).
  unfold quad. rewrite !str_all_app, Hi, Hi', (Hd a), (Hd b), (Hd c), (Hd d), (Hd x) by done. reflexivity.
Qed.

(** A match, as what it consumes and the rest; what it consumes ends inside a word. *)
Lemma inetHere_consumes s ip r :
  inetHere s = Some (ip, r) -> exists x, s = String "i" x +:+ r /\ str_all (not_char "i") x = true /\
    (forall prev, inWord prev (String "i" x) = true) /\ exists a b c d rest, shown s a b c d rest /\ ip = quad a b c d.
Proof.
  intros (ws & a & b & c & d & x & l & -> & -> & Hne & Hw & Hq & Hx & Hl)%inetHere_Some.
  exists ("net" +:+ ws +:+ quad a b c d +:+ "/" +:+ x +:+ String l ""). split; [|split; [by apply match_chars|split]].
  - change ("inet" +:+ ws +:+ quad a b c d +:+ "/" +:+ x +:+ String l r) with
      (String "i" ("net" +:+ ws +:+ quad a b c d +:+ "/" +:+ x +:+ String l r)).
    rewrite (app_String "i"). f_equal. by rewrite !str_app_assoc.
  - intros prev. change (String "i" ("net" +:+ ws +:+ quad a b c d +:+ "/" +:+ x +:+ String l "")) with
      ("inet" +:+ ws +:+ quad a b c d +:+ "/" +:+ x +:+ String l ""). rewrite <- !str_app_assoc. by apply inWord_digit.
  - destruct x as [|y x].
    + exists a, b, c, d, r. split; [|done]. by exists ws, l.
    + cbn in Hx. apply andb_prop in Hx as [Hy Hx]. exists a, b, c, d, (x +:+ String l r). split; [|done].
      exists ws, y. by rewrite app_String.
Qed.

(** The addresses found are the ones printed. *)
Lemma inetAll_sound fuel prev s ip :
  ip ∈ inetAll fuel prev s -> exists pre t a b c d rest, s = pre +:+ t /\ inWord prev pre = false /\ shown t a b c d rest /\ ip = quad a b c d.
Proof.
  revert prev s. induction fuel as [|fuel IH]; intros prev s; cbn [inetAll]; [by intros ?%elem_of_nil|].
  assert (ip ∈ match s with String c r => inetAll fuel (word_char c) r | EmptyString => [] end ->
    exists pre t a b c d rest, s = pre +:+ t /\ inWord prev pre = false /\ shown t a b c d rest /\ ip = quad a b c d) as Hskip.
  { destruct s as [|c r]; [by intros ?%elem_of_nil|]. intros (pre & t & a & b & c' & d & rest & -> & Hp & H)%IH.
    by exists (String c pre), t, a, b, c', d, rest. }
  destruct prev; [by apply Hskip|]. destruct (inetHere s) as [[ip' r]|] eqn:E; [|by apply Hskip].
  apply inetHere_consumes in E as (x & Es & Hx & Hp & a & b & c & d & rest & Hs & ->). rewrite elem_of_cons. intros [->|Hin].
  - exists "", s, a, b, c, d, rest. by rewrite app_empty_l.
  - apply IH in Hin as (pre & t & a' & b' & c' & d' & rest' & -> & Hpre & H). exists (String "i" x +:+ pre), t, a', b', c', d', rest'.
    by rewrite str_app_assoc, inWord_app, Hp.
Qed.

Lemma inetAll_complete fuel prev pre s a b c d rest :
  String.length (pre +:+ s) < fuel -> inWord prev pre = false -> shown s a b c d rest -> quad a b c d ∈ inetAll fuel prev (pre +:+ s).
Proof.
  revert prev pre. induction fuel as [|fuel IH]; intros prev pre Hf Hp Hs; [lia|]. cbn [inetAll].
  destruct pre as [|e pre].
  - cbn in Hp. subst prev. rewrite app_empty_l. destruct (inetHere_shown _ _ _ _ _ _ Hs) as [r ->]. left.
  - assert (quad a b c d ∈ inetAll fuel (word_char e) (pre +:+ s)) as Hskip.
    { apply IH; [|exact Hp|done]. rewrite app_String in Hf. cbn in Hf. lia. }
    rewrite app_String. destruct prev; [exact Hskip|]. destruct (inetHere _) as [[ip' r]|] eqn:E; [|exact Hskip].
    apply inetHere_consumes in E as (x & Es & Hx & Hw & _). rewrite <- app_String in Es.
    destruct (shown_not_inside (String e pre) x s a b c d rest r Hx ltac:(done) Hs (eq_sym Es)) as (w & Ew & ->).
    rewrite Ew, inWord_app, Hw in Hp. right. apply IH; [|exact Hp|done].
    rewrite Ew in Hf. rewrite !str_length_app in *. cbn in Hf. lia.
Qed.

Lemma parse_prints out ip : ip ∈ parseGlobalIpv4s out <-> prints out ip.
Proof.
  unfold parseGlobalIpv4s, prints. split; [apply inetAll_sound|].
  intros (pre & s & a & b & c & d & rest & -> & Hp & Hs & ->). apply (inetAll_complete _ false pre s a b c d rest); [lia|done..].
Qed.

(** ** What is trusted *)

(** Where an address comes from, and why it is trusted: a node that was reached prints it, and
    some node has an address that differs from it in the last number at most. *)
Definition vouched (gather : NodeForSeed -> option (Z * string)) (nodes : list NodeForSeed) (ip : string) : Prop :=
  exists a b c d, ip = quad a b c d /\ Forall octetOk [a; b; c; d] /\
    (exists n out, n ∈ nodes /\ gather n = Some (0%Z, out) /\ prints out ip) /\
    exists n e, n ∈ nodes /\ octetOk e /\ (ns_ipAddress n = Some (quad a b c e) \/ ns_fastIpAddress n = Some (quad a b c e)).

Lemma prefixes_quad nodes a b c d :
  Forall octetOk [a; b; c; d] ->
  slash24 (quad a b c d) ∈ prefixesOf nodes <->
  exists n e, n ∈ nodes /\ octetOk e /\ (ns_ipAddress n = Some (quad a b c e) \/ ns_fastIpAddress n = Some (quad a b c e)).
Proof.
  intros H. rewrite prefixesOf_elem. split.
  - intros (n & x & Hn & Hx & (a' & b' & c' & e & -> & H')%valid_quad & E). rewrite !slash24_quad in E by done.
    exists n, e. assert (a' = a /\ b' = b /\ c' = c) as (-> & -> & ->); [|by rewrite !Forall_cons in H'; destruct_and?].
    assert (forall u v w, Forall octetOk [u; v; w; e] -> str_split "." (u +:+ "." +:+ v +:+ "." +:+ w) = [u; v; w]) as Hsp.
    { intros u v w Hu. repeat (apply Forall_cons in Hu as [(_ & ?%digits_not_dot & _) Hu]).
      change (u +:+ "." +:+ v +:+ "." +:+ w) with (u +:+ String "." (v +:+ String "." w)). by rewrite !str_split_app, str_split_word. }
    apply (f_equal (str_split ".")) in E. rewrite !Hsp in E; [by simplify_eq|..]; rewrite !Forall_cons in *; naive_solver.
  - intros (n & e & Hn & He & Hx). exists n, (quad a b c e).
    assert (Forall octetOk [a; b; c; e]) as H' by (rewrite !Forall_cons in *; naive_solver).
    split; [done|]. split; [done|]. split; [apply valid_quad; by exists a, b, c, e|]. by rewrite !slash24_quad.
Qed.

Lemma discovered_elem gather nodes ip :
  ip ∈ discovered gather nodes <-> exists n out, n ∈ nodes /\ gather n = Some (0%Z, out) /\ ip ∈ parseGlobalIpv4s out.
Proof.
  unfold discovered. rewrite list_elem_of_In, in_concat. split.
  - intros (x & Hx & Hd). apply list_elem_of_In, list_elem_of_fmap in Hx as (n & -> & Hn). apply list_elem_of_In in Hd.
    destruct (gather n) as [[code out]|] eqn:Eg; [|by apply elem_of_nil in Hd].
    destruct (Z.eqb_spec code 0) as [->|]; [|by apply elem_of_nil in Hd]. by exists n, out.
  - intros (n & out & Hn & Hg & Hip). eexists. split; [apply list_elem_of_In, list_elem_of_fmap; by exists n|].
    rewrite Hg. by apply list_elem_of_In.
Qed.

Lemma trusted_elem gather nodes ip :
  ip ∈ filterToClusterSubnets (discovered gather nodes) nodes <-> vouched gather nodes ip.
Proof.
  unfold filterToClusterSubnets, vouched. rewrite elem_of_js_sort, elem_of_remove_dups, elem_of_filter_bool, andb_true_iff.
  unfold mem_str. rewrite bool_decide_eq_true, discovered_elem, valid_quad. split.
  - intros [(n & out & Hn & Hg & Hi) [(a & b & c & d & -> & H) Hp]]. exists a, b, c, d. split; [done|]. split; [done|].
    split; [exists n, out; by rewrite <- parse_prints|by apply (prefixes_quad nodes a b c d)].
  - intros (a & b & c & d & -> & H & (n & out & Hn & Hg & Hi) & Hp). split.
    + exists n, out. by rewrite parse_prints.
    + split; [by exists a, b, c, d|by apply prefixes_quad].
Qed.

(** The script of a set of addresses, line by line: every address is removed, then all of them
    are scanned, at once. *)
Definition seedLines (ips : list string) : list string :=
  ["sudo touch /etc/ssh/ssh_known_hosts"] ++
  map (fun ip => str_join " " (["sudo"; "ssh-keygen"; "-f"; "/etc/ssh/ssh_known_hosts"; "-R"; ip] ++ [">/dev/null"; "2>&1"; "||"; "true"])) ips ++
  [str_join " " (["ssh-keyscan"; "-T"; "5"] ++ ips ++
     ["2>/dev/null"; "|"; "sudo"; "tee"; "-a"; "/etc/ssh/ssh_known_hosts"; ">/dev/null"]);
   "sudo sort -u /etc/ssh/ssh_known_hosts -o /etc/ssh/ssh_known_hosts"].

Lemma join_append sep xs ys : xs <> [] -> ys <> [] -> str_join sep (xs ++ ys) = str_join sep xs +:+ sep +:+ str_join sep ys.
Proof.
  intros Hx Hy. induction xs as [|x xs IH]; [done|]. destruct xs as [|x' xs].
  - destruct ys as [|y ys]; [done|]. reflexivity.
  - change (str_join sep ((x :: x' :: xs) ++ ys)) with (x +:+ sep +:+ str_join sep ((x' :: xs) ++ ys)).
    rewrite IH by done. change (str_join sep (x :: x' :: xs)) with (x +:+ sep +:+ str_join sep (x' :: xs)).
    by rewrite !str_app_assoc.
Qed.

Lemma script_lines ips : ips <> [] -> scriptText ips = str_join (String nl "") (seedLines ips).
Proof.
  intros Hne. unfold scriptText, seedLines.
  assert (map removal ips = map (fun ip => str_join " " (["sudo"; "ssh-keygen"; "-f"; "/etc/ssh/ssh_known_hosts"; "-R"; ip] ++
    [">/dev/null"; "2>&1"; "||"; "true"])) ips) as ->.
  { apply map_ext. intros ip. unfold removal. cbn [app]. rewrite !str_join_cons. done. }
  assert (keyscan ips = str_join " " (["ssh-keyscan"; "-T"; "5"] ++ ips ++
    ["2>/dev/null"; "|"; "sudo"; "tee"; "-a"; "/etc/ssh/ssh_known_hosts"; ">/dev/null"])) as ->.
  { unfold keyscan. rewrite join_append, join_append by (done || (by destruct ips)). reflexivity. }
  rewrite (join_append _ ["sudo touch /etc/ssh/ssh_known_hosts"]) by (done || (by destruct ips)).
  rewrite (join_append (String nl "") (map _ ips)) by (done || (by destruct ips)). reflexivity.
Qed.

Lemma script_built ips :
  ips <> [] -> (forall ip, ip ∈ ips -> NodeIp.isValidIpv4 (Some ip) = true) -> buildKeyscanSeedScript ips = Ok (scriptText ips).
Proof.
  intros Hne Hv. unfold buildKeyscanSeedScript. destruct ips as [|x l] eqn:E; [done|]. rewrite <- E in *.
  destruct (js_find _ ips) as [ip|] eqn:Ef; [|done]. apply js_find_Some in Ef as [Hin Hb]. by rewrite (Hv ip Hin) in Hb.
Qed.

(** C38: What the cluster's hosts are made to trust.  Whatever the nodes print, a reseed does
    not fail on it.  The trusted addresses are exactly those of four numbers up to 255 that the
    output of a node which was reached prints, after the word inet and before a slash, and that
    differ at most in the last number from an address some node is known under; they are
    sorted, each once, and made of digits and dots only.  With one at least every node, in
    order, is given the script that removes each of them and scans all of them, otherwise none
    is; and a node counts as seeded, with all the addresses, exactly when its script exits with
    zero. *)
Theorem reseed_spec gather seed nodes :
  exists r, doReseed gather seed nodes = Ok r /\
  (forall ip, ip ∈ rr_trustedIps r <-> vouched gather nodes ip) /\
  Forall (fun ip => str_all ip_char ip = true) (rr_trustedIps r) /\
  NoDup (rr_trustedIps r) /\ StronglySorted (fun a b => str_le a b = true) (rr_trustedIps r) /\
  if decide (rr_trustedIps r = []) then rr_perNode r = []
  else Forall2 (fun n p =>
    pn_nodeId p = ns_id n /\ pn_host p = ns_host n /\
    (pn_ok p = true <-> exists err, seed n (str_join (String nl "") (seedLines (rr_trustedIps r))) = Ok (0%Z, err)) /\
    (pn_ok p = true <-> pn_error p = None) /\ pn_ipsSeeded p = if pn_ok p then length (rr_trustedIps r) else 0)
    nodes (rr_perNode r).
Proof.
  unfold doReseed. pose proof (trusted_elem gather nodes) as Ht.
  assert (NoDup (filterToClusterSubnets (discovered gather nodes) nodes) /\
    StronglySorted (fun a b => str_le a b = true) (filterToClusterSubnets (discovered gather nodes) nodes)) as [Hnd Hss].
  { unfold filterToClusterSubnets. split; [rewrite js_sort_perm; apply NoDup_remove_dups|apply str_le_sorted]. }
  set (trusted := filterToClusterSubnets (discovered gather nodes) nodes) in *. clearbody trusted.
  assert (forall ip, ip ∈ trusted -> NodeIp.isValidIpv4 (Some ip) = true) as Hv.
  { intros ip (a & b & c & d & E & H & _)%Ht. apply valid_quad. by exists a, b, c, d. }
  assert (Forall (fun ip => str_all ip_char ip = true) trusted) as Hch.
  { apply Forall_forall. intros ip Hip. by apply valid_chars, Hv. }
  destruct (length trusted =? 0)%nat eqn:El.
  - apply Nat.eqb_eq, nil_length_inv in El. eexists. split; [done|]. cbn [rr_trustedIps rr_perNode].
    do 4 (split; [done|]). by rewrite decide_True.
  - assert (trusted <> []) as Hne by (intros E; by rewrite E in El).
    rewrite script_built by done.
    eexists. split; [done|]. cbn [rr_trustedIps rr_perNode]. do 4 (split; [done|]).
    rewrite decide_False by done. rewrite (script_lines trusted Hne). set (script := str_join _ _). clearbody script. clear.
    induction nodes as [|n ns IH]; constructor; [|exact IH]. unfold seedNode.
    destruct (seed n script) as [[code err]|e]; cbn; [|naive_solver].
    destruct (Z.eqb_spec code 0) as [->|Hc]; cbn; naive_solver.
Qed.

(** * One run at a time *)

(** While nothing ends well, the time of the last run stays. *)
Lemma lastRun_kept es g :
  (forall ok now, End ok now ∈ es -> ok = false) -> gd_lastRunAt (foldl react g es) = gd_lastRunAt g.
Proof.
  revert g. induction es as [|e es IH]; intros g He; [done|]. cbn. rewrite IH by (intros ok now H; apply (He ok now); by right).
  destruct e as [nodes force now|ok now]; cbn.
  - unfold reseedClusterKnownHosts. destruct (gd_inFlight g); [done|]. by destruct (negb force && _).
  - unfold ended. destruct (gd_inFlight g); [|done]. cbn. by rewrite (He ok now) by left.
Qed.

(** Runs are one at a time, and unforced ones five minutes apart.  After any history a
    call starts a run only when none is under way; and, unless it is forced, only five
    minutes after the end of the last run that ended with a report. *)
Theorem reseed_guarded es t es' nodes force now :
  is_Some (gd_inFlight (run es)) -> (forall ok now, End ok now ∈ es' -> ok = false) ->
  let g := run (es ++ [End true t] ++ es') in
  (reseedClusterKnownHosts nodes force now g).2 = Started nodes ->
  gd_inFlight g = None /\ (force = true \/ (now - t >= 300000)%Z).
Proof.
  intros [x Hx] He. cbv zeta. unfold run. rewrite !foldl_app. cbn [foldl]. fold (run es).
  set (g1 := react (run es) (End true t)). pose proof (lastRun_kept es' g1 He) as Hl.
  assert (gd_lastRunAt g1 = Some t) as Ht by (unfold g1; cbn; unfold ended; by rewrite Hx).
  rewrite Ht in Hl. set (g := foldl react g1 es') in *. unfold reseedClusterKnownHosts.
  destruct (gd_inFlight g); [done|]. split; [done|]. destruct force; [by left|]. right. revert H.
  cbn [negb andb]. unfold throttled, THROTTLE_MS. rewrite Hl. destruct (Z.ltb_spec (now - t) (5 * 60 * 1000)); [done|lia].
Qed.

(** A node that joins during a run is left out.  A call while a run is under way gets
    that run's report, of the nodes known when it began, forced or not; and when the run
    ends every unforced call of the next five minutes is turned away.  A node provisioned
    meanwhile is so neither seeded nor trusted until another call is made. *)
Theorem forced_call_swallowed g old nodes force now t later :
  gd_inFlight g = Some old -> (later - t < 300000)%Z ->
  reseedClusterKnownHosts nodes force now g = (g, Joined old) /\
  forall nodes', (reseedClusterKnownHosts nodes' false later (ended true t g)).2 = Throttled.
Proof.
  intros Hg Hl. split; [unfold reseedClusterKnownHosts; by rewrite Hg|]. intros nodes'. unfold ended, reseedClusterKnownHosts.
  rewrite Hg. cbn. unfold throttled, THROTTLE_MS. cbn. destruct (Z.ltb_spec (later - t) (5 * 60 * 1000)); [done|lia].
Qed.

(** * The debounce *)

(** Calls each of which comes before the timer of the one before goes off. *)
Fixpoint chained (delay : Z) (due : Z) (calls : list Z) : Prop :=
  match calls with [] => True | t :: rest => (t < due)%Z /\ chained delay (t + delay) rest end.

Lemma fires_chained delay due calls :
  chained delay due calls ->
  fires delay (Some due) calls = [match last calls with Some t => (t + delay)%Z | None => due end].
Proof.
  revert due. induction calls as [|t calls IH]; intros due H; [done|]. destruct H as [Ht H]. cbn [fires].
  rewrite (proj2 (Z.leb_gt due t) Ht), (IH _ H). destruct calls as [|c calls]; [done|].
  change (last (t :: c :: calls)) with (last (c :: calls)). destruct (last (c :: calls)) eqn:E; [done|]. by apply last_None in E.
Qed.

Lemma fires_due delay due calls :
  Sorted Z.le ((due - delay)%Z :: calls) -> exists f, f ∈ fires delay (Some due) calls /\ (due <= f)%Z.
Proof.
  revert due. induction calls as [|t calls IH]; intros due Hs; cbn [fires]; [exists due; split; [left|lia]|].
  apply Sorted_inv in Hs as [Hs Hle%HdRel_inv].
  destruct (Z.leb_spec due t) as [H|H]; [exists due; split; [left|lia]|].
  destruct (IH (t + delay)%Z) as (f & Hf & Hle'); [by replace (t + delay - delay)%Z with t by lia|].
  exists f. split; [done|lia].
Qed.

Lemma fires_every delay pending calls t :
  Sorted Z.le calls -> t ∈ calls -> exists f, f ∈ fires delay pending calls /\ (t + delay <= f)%Z.
Proof.
  revert pending. induction calls as [|u calls IH]; intros pending Hs Ht; [by apply elem_of_nil in Ht|].
  assert (exists f, f ∈ fires delay (Some (u + delay)%Z) calls /\ (t + delay <= f)%Z) as (f & Hf & Hle).
  { apply elem_of_cons in Ht as [->|Ht]; [|by apply IH; [apply Sorted_inv in Hs as [? _]|]].
    destruct (fires_due delay (u + delay) calls) as (f & Hf & Hle); [|by exists f].
    by replace (u + delay - delay)%Z with u by lia. }
  exists f. split; [|done]. cbn [fires]. destruct pending as [due|]; [|done]. destruct (due <=? u)%Z; [by right|done].
Qed.

Lemma fires_length delay pending calls :
  length (fires delay pending calls) <= length calls + length (option_list pending).
Proof.
  revert pending. induction calls as [|t calls IH]; intros pending; [cbn; lia|]. specialize (IH (Some (t + delay)%Z)).
  cbn [fires]. destruct pending as [due|]; [destruct (due <=? t)%Z|]; cbn in *; lia.
Qed.

(** A burst makes one run, and no call is forgotten.  Of any calls in the order of time
    each is followed by a reseed no sooner than ten seconds after it, and there are no more
    reseeds than calls; calls each within ten seconds of the one before make one alone, ten
    seconds after the last, however long they go on. *)
Theorem debounce_spec calls :
  Sorted Z.le calls ->
  (forall t, t ∈ calls -> exists f, f ∈ scheduleDebouncedReseed calls /\ (t + 10000 <= f)%Z) /\
  length (scheduleDebouncedReseed calls) <= length calls /\
  forall t rest, calls = t :: rest -> chained 10000 (t + 10000) rest ->
    scheduleDebouncedReseed calls = [(default t (last rest) + 10000)%Z].
Proof.
  intros Hs. unfold scheduleDebouncedReseed. split; [intros t; by apply fires_every|]. split.
  - pose proof (fires_length 10000 None calls). cbn in *. lia.
  - intros t rest -> Hc. cbn [fires]. rewrite (fires_chained _ _ _ Hc). by destruct (last rest).
Qed.

(** * Examples *)

Module Examples.

Definition ip_out : string :=
  "2: eth0    inet 192.168.1.5/24 brd 192.168.1.255 scope global eth0" +:+ String nl
  ("3: docker0 inet 172.17.0.1/16 scope global docker0" +:+ String nl "4: ib0 inet6 fe80::1/64 inet 1234.1.1.1/8").

Example addresses : parseGlobalIpv4s ip_out = ["192.168.1.5"; "172.17.0.1"].
Proof. vm_compute. reflexivity. Qed.

Definition n1 : NodeForSeed :=
  {| ns_id := "n1"; ns_host := "192.168.1.5"; ns_ipAddress := Some "192.168.1.5"; ns_fastIpAddress := Some "10.0.0.5" |}.

(** The docker bridge is not trusted. *)
Example one_node :
  rr_trustedIps <$> match doReseed (fun _ => Some (0%Z, ip_out)) (fun _ _ => Ok (0%Z, "")) [n1] with Ok r => Some r | _ => None end =
  Some ["192.168.1.5"].
Proof. vm_compute. reflexivity. Qed.

Example script_one :
  buildKeyscanSeedScript ["10.0.0.5; reboot"] = Err "buildKeyscanSeedScript: invalid IPv4 10.0.0.5; reboot".
Proof. vm_compute. reflexivity. Qed.

Lemma reseed_guarded_witness :
  let g := run ([Call [n1] false 0] ++ [End true 5] ++ []) in
  (reseedClusterKnownHosts [n1] false 300005 g).2 = Started [n1] /\ (300005 - 5 >= 300000)%Z.
Proof.
  intros g. split; [reflexivity|].
  destruct (reseed_guarded [Call [n1] false 0] 5 [] [n1] false 300005) as [_ [H|H]];
    [by eexists|by intros ok now H%elem_of_nil|reflexivity|discriminate|exact H].
Defined.

Definition busy : guard := {| gd_inFlight := Some [n1]; gd_lastRunAt := None |}.

Lemma forced_call_swallowed_witness :
  (reseedClusterKnownHosts [] true 7 busy).2 = Joined [n1] /\
  (reseedClusterKnownHosts [n1] false 60000 (ended true 10 busy)).2 = Throttled.
Proof.
  destruct (forced_call_swallowed busy [n1] [] true 7 10 60000 eq_refl ltac:(lia)) as [H1 H2].
  split; [by rewrite H1|exact (H2 [n1])].
Defined.

Lemma debounce_spec_witness : scheduleDebouncedReseed [0; 9000; 18000; 27000]%Z = [37000%Z].
Proof.
  destruct (debounce_spec [0; 9000; 18000; 27000]%Z) as (_ & _ & H); [repeat constructor; lia|].
  apply (H 0%Z [9000; 18000; 27000]%Z eq_refl). cbn. lia.
Defined.

End Examples.
