(* ===== verification/OllamaCatalog.v ===== *)
(** The manager's catalog of Ollama models ([server/ollama/catalog-parser.ts],
    [catalog-store.ts], [catalog-fetcher.ts], [routes/ollama-catalog.ts]): the cards of
    Ollama's page as entries, in [Cards]; what is kept in the settings table, and the rows
    that can be deployed, in [Catalog].

    What the HTML parser finds of a card, [Date.parse], [JSON.parse] and [JSON.stringify]
    are arguments. *)
From S2P Require Import Prelude JsNum Schema Admission Gateway Deployments Recipes Routes DeployRoute AgentHub HfCache.

Inductive modelType := Chat | Embedding.

Record OllamaCatalogEntry := {
  oe_name : string; oe_description : string; oe_type : modelType; oe_sizes : list string;
  oe_capabilities : list string; oe_updatedAt : option string }.

Module Cards.

(** A link of the page to a model: its target, the titles and texts found under it. *)
Record card := {
  cd_href : string; cd_title : option string; cd_description : string; cd_sizes : list string;
  cd_cloudClass : bool; cd_spans : list string; cd_capabilities : list string; cd_titles : list string }.

(** [href.replace(/^\/library\//, "").split(/[/?#]/)[0].trim()] *)
Definition cut_char (c : ascii) : bool := Ascii.eqb c "/" || Ascii.eqb c "?" || Ascii.eqb c "#".
Fixpoint until (p : ascii -> bool) (s : string) : string :=
  match s with String c r => if p c then EmptyString else String c (until p r) | EmptyString => EmptyString end.
Definition slugOf (href : string) : string :=
  str_trim (until cut_char (default href (strip_prefix "/library/" href))).

Definition nonEmpty (s : string) : bool := negb (String.eqb s "").
Definition hasCloudMarker (c : card) : bool :=
  cd_cloudClass c || existsb (fun s => String.eqb (str_lower (str_trim s)) "cloud") (cd_spans c).

(** [parseDate v]: the date as ISO text, [None] when [Date.parse] gives [NaN]. *)
Definition cardEntry (parseDate : string -> option string) (c : card) : option OllamaCatalogEntry :=
  let slug := slugOf (cd_href c) in
  if String.eqb slug "" then None
  else
    let sizes := List.filter nonEmpty (map str_trim (cd_sizes c)) in
    if (length sizes =? 0)%nat && hasCloudMarker c then None
    else
      let capabilities := List.filter nonEmpty (map (fun s => str_lower (str_trim s)) (cd_capabilities c)) in
      Some {| oe_name := js_or (str_trim <$> cd_title c) slug; oe_description := str_trim (cd_description c);
              oe_type := if mem_str "embedding" capabilities then Embedding else Chat;
              oe_sizes := sizes; oe_capabilities := capabilities;
              oe_updatedAt := head (omap (fun v => if String.eqb v "" then None else parseDate v) (cd_titles c)) |}.

(** [entries.filter((e) => (seen.has(e.name) ? false : seen.add(e.name)))] *)
Fixpoint firstOfName (seen : list string) (es : list OllamaCatalogEntry) : list OllamaCatalogEntry :=
  match es with
  | [] => []
  | e :: es => if mem_str (oe_name e) seen then firstOfName seen es
               else e :: firstOfName (oe_name e :: seen) es
  end.

(** [cards]: the links that begin with [/library/], in the order of the page; [None] when
    the HTML parser throws. *)
Definition parseCatalogHtml (parseDate : string -> option string) (cards : option (list card)) : list OllamaCatalogEntry :=
  match cards with
  | Some cs => firstOfName [] (omap (cardEntry parseDate) cs)
  | None => []
  end.

End Cards.

Module Catalog.

Definition CATALOG_KEY : string := "ollama.catalog.json".
Definition FETCHED_AT_KEY : string := "ollama.catalog.fetchedAt".
Definition ENABLED_KEY : string := "ollama.enabled.json".

(** The settings table. *)
Definition settings := gmap string string.
Definition readSetting (s : settings) (key : string) : option string := s !! key.
Definition writeSetting (key value : string) (s : settings) : settings := <[key := value]> s.

Record CatalogSnapshot := { sn_entries : list OllamaCatalogEntry; sn_fetchedAt : option string }.

Record AvailableTag := {
  at_tag : string; at_modelName : string; at_size : option string; at_type : modelType; at_description : string;
  at_capabilities : list string }.

Definition jstrs (l : list string) : json := JArr (map JStr l).

(** An entry as the JSON text has it. *)
Definition encode (e : OllamaCatalogEntry) : json :=
  JObj [("name", JStr (oe_name e)); ("description", JStr (oe_description e));
        ("type", JStr match oe_type e with Chat => "chat" | Embedding => "embedding" end);
        ("sizes", jstrs (oe_sizes e)); ("capabilities", jstrs (oe_capabilities e));
        ("updatedAt", match oe_updatedAt e with Some d => JStr d | None => JNull end)].

(** ... and as it is taken back: [writeCatalog] alone writes the text, so a value that is no
    entry does not occur. *)
Definition strsOf (v : option json) : list string := match v with Some (JArr l) => omap (fun x => jstr (Some x)) l | _ => [] end.
Definition decode (v : json) : OllamaCatalogEntry :=
  let g k := jget (Some v) k in
  {| oe_name := default "" (jstr (g "name")); oe_description := default "" (jstr (g "description"));
     oe_type := if bool_decide (jstr (g "type") = Some "embedding") then Embedding else Chat;
     oe_sizes := strsOf (g "sizes"); oe_capabilities := strsOf (g "capabilities"); oe_updatedAt := jstr (g "updatedAt") |}.

Section Store.
Context (parse : string -> jtext) (stringify : json -> string).

Definition readCatalog (s : settings) : CatalogSnapshot :=
  let fetchedAt := readSetting s FETCHED_AT_KEY in
  match truthy (readSetting s CATALOG_KEY) with
  | None => {| sn_entries := []; sn_fetchedAt := fetchedAt |}
  | Some raw =>
      {| sn_entries := match parse raw with Some (JArr l) => map decode l | _ => [] end; sn_fetchedAt := fetchedAt |}
  end.

Definition writeCatalog (entries : list OllamaCatalogEntry) (now : string) (s : settings) : settings :=
  writeSetting FETCHED_AT_KEY now (writeSetting CATALOG_KEY (stringify (JArr (map encode entries))) s).

Definition readEnabled (s : settings) : list string :=
  match truthy (readSetting s ENABLED_KEY) with
  | None => []
  | Some raw => match parse raw with Some (JArr l) => strsOf (Some (JArr l)) | _ => [] end
  end.

(** [Array.from(new Set(xs))] *)
Definition unique (xs : list string) : list string := HfCache.Grouping.dedupe xs.

Definition writeEnabled (tags : list string) (s : settings) : settings :=
  writeSetting ENABLED_KEY (stringify (jstrs (unique (List.filter (fun t => (0 <? String.length t)%nat) tags)))) s.

(** [tag.includes(":") ? tag.split(":", 2) : [tag, null]] *)
Definition tagParts (tag : string) : string * option string :=
  match str_split ":" tag with
  | name :: size :: _ => (name, Some size)
  | _ => (tag, None)
  end.

Definition rowOf (entries : list OllamaCatalogEntry) (tag : string) : option AvailableTag :=
  let '(modelName, size) := tagParts tag in
  entry ← al_get (foldl (fun m e => al_set m (oe_name e) e) [] entries) modelName;
  let fits := match size with
              | None => (length (oe_sizes entry) =? 0)%nat
              | Some z => mem_str z (oe_sizes entry)
              end in
  if fits then Some {| at_tag := tag; at_modelName := modelName; at_size := size; at_type := oe_type entry;
                       at_description := oe_description entry; at_capabilities := oe_capabilities entry |}
  else None.

Definition readAvailable (s : settings) : list AvailableTag :=
  omap (rowOf (sn_entries (readCatalog s))) (readEnabled s).

(** ** The routes *)

Inductive reply :=
  | RCatalog (c : CatalogSnapshot) | RRefreshed (entries : list OllamaCatalogEntry) (fetchedAt : string)
  | REnabled (names : list string) | RAvailable (rows : list AvailableTag) | RError (status : Z) (error : string).

(** [POST /catalog/refresh]; [page]: the page's cards, or the error that is thrown.  The last
    component: whether the dashboards are told. *)
Definition postRefresh (parseDate : string -> option string) (page : result string (option (list Cards.card)))
    (now : string) (s : settings) : settings * reply * bool :=
  match page with
  | Err e => (s, RError 502 e, false)
  | Ok cards =>
      let entries := Cards.parseCatalogHtml parseDate cards in
      (writeCatalog entries now s, RRefreshed entries now, true)
  end.

(** [PUT /enabled]; [body]: [req.body.enabled]. *)
Definition putEnabled (body : option json) (s : settings) : settings * reply * bool :=
  match body with
  | Some (JArr l) => let names := strsOf (Some (JArr l)) in (writeEnabled names s, REnabled names, true)
  | _ => (s, RError 400 "enabled must be an array of strings", false)
  end.

Definition getCatalog (s : settings) : reply := RCatalog (readCatalog s).
Definition getEnabled (s : settings) : reply := REnabled (readEnabled s).
Definition getAvailable (s : settings) : reply := RAvailable (readAvailable s).

End Store.

End Catalog.
