(* ===== verification/OllamaCatalogFacts.v ===== *)
(** Ollama's catalog: what of the page is kept, that the settings give back what was
    written, and which tags can be deployed. *)
From S2P Require Import Prelude JsNum Schema Admission Gateway Deployments Recipes RecipeFacts Routes DeployRoute AgentHub HfCache HfCacheFacts OllamaCatalog.
Import OllamaCatalog.Cards OllamaCatalog.Catalog.

(** * The page *)

Lemma firstOfName_spec seen es :
  NoDup (map oe_name (firstOfName seen es)) /\
  (forall e, e ∈ firstOfName seen es -> e ∈ es /\ oe_name e ∉ seen) /\
  (forall e, e ∈ es -> oe_name e ∉ seen -> exists e', e' ∈ firstOfName seen es /\ oe_name e' = oe_name e).
Proof.
  revert seen. induction es as [|x es IH]; intros seen; cbn [firstOfName].
  { split; [constructor|]. split; [by intros e ?%elem_of_nil|by intros e ?%elem_of_nil]. }
  destruct (mem_str (oe_name x) seen) eqn:E.
  - apply mem_str_spec in E. destruct (IH seen) as (H1 & H2 & H3). split; [done|]. split.
    + intros e He. destruct (H2 e He). split; [by right|done].
    + intros e [->|He]%elem_of_cons Hs; [done|by apply H3].
  - assert (oe_name x ∉ seen) as Hx by (rewrite <- mem_str_spec, E; done).
    destruct (IH (oe_name x :: seen)) as (H1 & H2 & H3). split; [|split].
    + cbn. apply NoDup_cons. split; [|done]. intros (e & He & Hin)%list_elem_of_fmap.
      destruct (H2 e Hin) as [_ Hn]. apply Hn. rewrite He. left.
    + intros e [->|He]%elem_of_cons; [split; [left|done]|]. destruct (H2 e He) as [Hin Hn].
      split; [by right|]. intros ?. apply Hn. by right.
    + intros e He Hs. destruct (decide (oe_name e = oe_name x)) as [Heq|Hne].
      { exists x. split; [left|done]. }
      apply elem_of_cons in He as [->|He]; [done|]. destruct (H3 e He) as (e' & He' & Hn).
      { intros [?|?]%elem_of_cons; done. }
      exists e'. split; [by right|done].
Qed.

Lemma elem_strs l x : x ∈ List.filter nonEmpty l <-> x ∈ l /\ x <> "".
Proof. rewrite elem_of_filter_bool. unfold nonEmpty. by rewrite negb_true_iff, String.eqb_neq. Qed.

(** What of the page is kept.  Every entry has a name of its own, comes from a card, and
    is a model that can be pulled: it has a size, or its card bears no mark of the cloud.
    No such card with a model's name is lost, but for a second one of the same name. *)
Theorem catalog_keeps_local_models parseDate cards :
  let es := parseCatalogHtml parseDate (Some cards) in
  NoDup (map oe_name es) /\
  (forall e, e ∈ es -> oe_name e <> "" /\ "" ∉ oe_sizes e /\
     exists c, c ∈ cards /\ cardEntry parseDate c = Some e /\ (oe_sizes e <> [] \/ hasCloudMarker c = false)) /\
  (forall c, c ∈ cards -> slugOf (cd_href c) <> "" ->
     (exists s, s ∈ cd_sizes c /\ str_trim s <> "") \/ hasCloudMarker c = false ->
     exists e, e ∈ es /\ oe_name e = js_or (str_trim <$> cd_title c) (slugOf (cd_href c))).
Proof.
  cbv zeta. cbn [parseCatalogHtml]. destruct (firstOfName_spec [] (omap (cardEntry parseDate) cards)) as (H1 & H2 & H3).
  split; [done|]. split.
  - intros e He. apply H2 in He as [He _]. apply list_elem_of_omap in He as (c & Hc & Ee). pose proof Ee as Ee'.
    unfold cardEntry in Ee. destruct (String.eqb_spec (slugOf (cd_href c)) ""); [done|].
    destruct (_ && _) eqn:Ec; [done|]. injection Ee as <-. cbn [oe_name oe_sizes]. split.
    + unfold js_or. destruct (truthy _) as [t|] eqn:Et; cbn; [|done]. destruct (cd_title c) as [x|]; [|done].
      cbn in Et. destruct (str_trim x); [done|]. by injection Et as <-.
    + split; [by intros [_ ?]%elem_strs|]. exists c. split; [done|]. split; [done|].
      apply andb_false_iff in Ec as [Ec|Ec]; [left; intros E; by rewrite E in Ec|by right].
  - intros c Hc Hs Hl.
    assert (exists e, cardEntry parseDate c = Some e /\ oe_name e = js_or (str_trim <$> cd_title c) (slugOf (cd_href c))) as (e & Ee & En).
    { unfold cardEntry. destruct (String.eqb_spec (slugOf (cd_href c)) ""); [done|].
      replace ((length (List.filter nonEmpty (map str_trim (cd_sizes c))) =? 0)%nat && hasCloudMarker c) with false; [by eexists|].
      symmetry. apply andb_false_iff. destruct Hl as [(s & Hs1 & Hs2)|?]; [left|by right].
      destruct (List.filter nonEmpty (map str_trim (cd_sizes c))) as [|x l] eqn:E; [|done].
      exfalso. apply (elem_of_nil (str_trim s)). rewrite <- E, elem_strs. split; [by apply list_elem_of_fmap_2|done]. }
    destruct (H3 e) as (e' & He' & En'); [apply list_elem_of_omap; by exists c|by apply not_elem_of_nil|].
    exists e'. by rewrite En', En.
Qed.

(** * The settings *)

Lemma strsOf_jstrs l : strsOf (Some (jstrs l)) = l.
Proof. cbn. induction l as [|x l IH]; [done|]. cbn in *. by rewrite IH. Qed.

Lemma decode_encode e : decode (encode e) = e.
Proof.
  destruct e as [n d t sz caps u]. unfold decode, encode, jget, obj_get. cbn [al_get oe_name oe_description oe_type oe_sizes oe_capabilities oe_updatedAt].
  repeat first [rewrite (decide_True (P := _ = _)) by done|rewrite (decide_False (P := _ = _)) by done].
  rewrite !strsOf_jstrs. by destruct t, u.
Qed.

Lemma setting_same k v s : readSetting (writeSetting k v s) k = Some v.
Proof. apply lookup_insert_eq. Qed.
Lemma setting_other k j v s : k <> j -> readSetting (writeSetting k v s) j = readSetting s j.
Proof. intros H. by apply lookup_insert_ne. Qed.

Section Store.
Context (parse : string -> jtext) (stringify : json -> string).

(** A value that survives [JSON.stringify] and [JSON.parse]; the text is never empty. *)
Definition survives (v : json) : Prop := parse (stringify v) = Some v /\ stringify v <> "".

Lemma truthy_text v : survives v -> truthy (Some (stringify v)) = Some (stringify v).
Proof. intros [_ H]. by destruct (stringify v). Qed.

(** The settings give back what was written.  After a refresh the catalog is read as it
    was parsed, with the time of the refresh, and the enabled tags are as before; after a
    change of the enabled tags they are read as given, each once and without empty ones,
    and the catalog is as before.  The answer to the change repeats the tags as given: it
    is what was saved only when none is empty or repeated. *)
Theorem settings_roundtrip s entries now tags :
  survives (JArr (map encode entries)) ->
  survives (jstrs (unique (List.filter (fun t => (0 <? String.length t)%nat) tags))) ->
  readCatalog parse (writeCatalog stringify entries now s) = {| sn_entries := entries; sn_fetchedAt := Some now |} /\
  readEnabled parse (writeCatalog stringify entries now s) = readEnabled parse s /\
  readCatalog parse (writeEnabled stringify tags s) = readCatalog parse s /\
  (let '(s', r, _) := putEnabled stringify (Some (jstrs tags)) s in
   r = REnabled tags /\
   (forall t, t ∈ readEnabled parse s' <-> t ∈ tags /\ t <> "") /\ NoDup (readEnabled parse s')).
Proof.
  intros Hc He. split; [|split; [|split]].
  - unfold readCatalog, writeCatalog. rewrite setting_same, setting_other, setting_same by done. rewrite truthy_text by done. destruct Hc as [-> _].
    f_equal. rewrite map_map. rewrite (map_ext _ (fun e => e)); [by rewrite map_id|apply decode_encode].
  - unfold readEnabled, writeCatalog. by rewrite !setting_other.
  - unfold readCatalog, writeEnabled. by rewrite !setting_other.
  - change (jstrs tags) with (JArr (map JStr tags)). cbn [putEnabled]. fold (jstrs tags). rewrite strsOf_jstrs. split; [done|].
    assert (readEnabled parse (writeEnabled stringify tags s) = unique (List.filter (fun t => (0 <? String.length t)%nat) tags)) as ->.
    { unfold readEnabled, writeEnabled. rewrite setting_same, truthy_text by done.
      destruct He as [-> _]. apply strsOf_jstrs. }
    split; [|apply dedupe_NoDup]. intros t. unfold unique. rewrite dedupe_elem, elem_of_filter_bool, Nat.ltb_lt.
    split; intros [H1 H2]; (split; [done|]); [intros ->; cbn in H2; lia|destruct t; [done|cbn; lia]].
Qed.

(** Which tags can be deployed.  An enabled tag gives a row exactly when the catalog has
    a model of its name and, if the tag names a size, that size, if it names none, no size
    at all; tags of models that are gone give none.  What follows a second colon is not
    looked at. *)
Theorem available_iff s entries row :
  sn_entries (readCatalog parse s) = entries -> NoDup (map oe_name entries) ->
  row ∈ readAvailable parse s <->
  at_tag row ∈ readEnabled parse s /\
  exists e, e ∈ entries /\
    row = {| at_tag := at_tag row; at_modelName := oe_name e; at_size := at_size row; at_type := oe_type e;
             at_description := oe_description e; at_capabilities := oe_capabilities e |} /\
    tagParts (at_tag row) = (oe_name e, at_size row) /\
    match at_size row with Some z => z ∈ oe_sizes e | None => oe_sizes e = [] end.
Proof.
  intros <- Hn. unfold readAvailable. set (entries := sn_entries (readCatalog parse s)) in *. clearbody entries.
  assert (forall name e, al_get (foldl (fun m e => al_set m (oe_name e) e) [] entries) name = Some e <-> e ∈ entries /\ oe_name e = name) as Hl.
  { intros name e. rewrite al_get_foldl. split.
    - intros [Hin Hb]%js_find_Some. apply bool_decide_eq_true in Hb. split; [|done].
      by rewrite list_elem_of_In, <- in_rev, <- list_elem_of_In in Hin.
    - intros [Hin <-]. destruct (js_find _ (rev entries)) as [x|] eqn:E.
      + apply js_find_Some in E as [Hx Hb]. apply bool_decide_eq_true in Hb.
        rewrite list_elem_of_In, <- in_rev, <- list_elem_of_In in Hx. f_equal. by apply (NoDup_map_inj oe_name entries).
      + assert (e ∈ rev entries) as Hr by (by rewrite list_elem_of_In, <- in_rev, <- list_elem_of_In).
        pose proof (proj1 (js_find_None _ _) E e Hr) as H. cbn in H. by rewrite bool_decide_true in H. }
  rewrite list_elem_of_omap. unfold rowOf. split.
  - intros (tag & Htag & Hr). destruct (tagParts tag) as [name size] eqn:Et.
    destruct (al_get _ name) as [e|] eqn:Eg; [|done]. apply Hl in Eg as [He <-]. cbn [mbind option_bind] in Hr.
    destruct size as [z|].
    + destruct (mem_str z (oe_sizes e)) eqn:Em; [|done]. injection Hr as <-. cbn. split; [done|]. exists e.
      apply mem_str_spec in Em. done.
    + destruct (oe_sizes e) as [|x l] eqn:Ez; [|done]. injection Hr as <-. cbn. split; [done|]. by exists e.
  - intros (Htag & e & He & -> & Et & Hf). cbn in *. exists (at_tag row). split; [done|]. rewrite Et.
    rewrite (proj2 (Hl (oe_name e) e)) by done. cbn. destruct (at_size row) as [z|].
    + apply mem_str_spec in Hf. by rewrite Hf.
    + by rewrite Hf.
Qed.

End Store.

Module Examples.

Definition llama : OllamaCatalogEntry :=
  {| oe_name := "llama3.1"; oe_description := ""; oe_type := Chat; oe_sizes := ["8b"; "70b"]; oe_capabilities := ["tools"];
     oe_updatedAt := None |}.
Definition nomic : OllamaCatalogEntry :=
  {| oe_name := "nomic-embed-text"; oe_description := ""; oe_type := Embedding; oe_sizes := []; oe_capabilities := ["embedding"];
     oe_updatedAt := None |}.

(** Two texts, enough for two settings. *)
Definition stringify0 (v : json) : string :=
  match v with JArr (JObj _ :: _) => "C" | JArr (JStr "llama3.1:8b:x" :: _) => "E" | _ => "O" end.
Definition tags0 : list string := ["llama3.1:8b:x"; "llama3.1"; "nomic-embed-text"].
Definition parse0 (s : string) : jtext :=
  if String.eqb s "C" then Some (JArr (map encode [llama; nomic])) else if String.eqb s "E" then Some (jstrs tags0) else None.
Definition s0 : settings := writeEnabled stringify0 tags0 (writeCatalog stringify0 [llama; nomic] "now" ∅).

Lemma settings_roundtrip_witness :
  readCatalog parse0 (writeCatalog stringify0 [llama; nomic] "now" ∅) =
    {| sn_entries := [llama; nomic]; sn_fetchedAt := Some "now" |} /\
  NoDup (readEnabled parse0 (putEnabled stringify0 (Some (jstrs tags0)) ∅).1.1).
Proof.
  destruct (settings_roundtrip parse0 stringify0 ∅ [llama; nomic] "now" tags0) as (H1 & _ & _ & _ & _ & H2).
  - split; [reflexivity|discriminate].
  - split; [reflexivity|discriminate].
  - split; [exact H1|exact H2].
Defined.

(** The tag with a third segment is offered as it stands; a sized model's bare name is not. *)
Lemma available_iff_witness : exists row, row ∈ readAvailable parse0 s0 /\ at_tag row = "llama3.1:8b:x".
Proof.
  exists {| at_tag := "llama3.1:8b:x"; at_modelName := "llama3.1"; at_size := Some "8b"; at_type := Chat; at_description := "";
            at_capabilities := ["tools"] |}.
  split; [|reflexivity]. apply (available_iff parse0 s0 [llama; nomic]).
  - reflexivity.
  - vm_compute. repeat constructor; set_solver.
  - split; [left|]. exists llama. split; [left|]. split; [reflexivity|]. split; [reflexivity|]. left.
Defined.

Example available_rows : map at_tag (readAvailable parse0 s0) = ["llama3.1:8b:x"; "nomic-embed-text"].
Proof. vm_compute. reflexivity. Qed.

Definition card0 (href title : string) (sizes spans caps : list string) : card :=
  {| cd_href := href; cd_title := Some title; cd_description := " d "; cd_sizes := sizes; cd_cloudClass := false;
     cd_spans := spans; cd_capabilities := caps; cd_titles := [title] |}.

Example a_page :
  map (fun e => (oe_name e, oe_type e)) (parseCatalogHtml (fun _ => None)
    (Some [card0 "/library/llama3.1?sort=new" "llama3.1" ["8b"] [] []; card0 "/library/kimi-k2" "kimi-k2" [] ["Cloud"] [];
           card0 "/library/nomic" " " [] [] ["Embedding"]; card0 "/library/llama3.1" "llama3.1" [] [] []])) =
  [("llama3.1", Chat); ("nomic", Embedding)].
Proof. vm_compute. reflexivity. Qed.

End Examples.
