(* ===== verification/Registries.v ===== *)
(** Recipe registries, from the manager's table to the file of an agent
    ([server/registries/validate.ts], [wire.ts], [push.ts], [seed.ts],
    [routes/registries.ts]; [agent/registries.ts]): the rules of a row, in [Rules]; the
    file's text, in [Render]; the routes over the table, in [Routes_].

    A request is a task that goes on from one access to the database to the next, other
    requests' accesses in between.  [localeCompare] and generated ids are arguments.  A request's body is a JSON object;
    the timestamps of a row are left out. *)
From S2P Require Import Prelude JsNum Schema AgentHealth.

Module Rules.

Record RegistryInput := {
  ri_name : string; ri_url : string; ri_subpath : string; ri_description : option string; ri_visible : bool;
  ri_tuningSubpath : option string; ri_benchmarkSubpath : option string; ri_modsSubpath : option string;
  ri_sortOrder : num }.

(** [/^[a-z0-9-]+$/], [/^(https?:\/\/|git:\/\/|ssh:\/\/|git@)/] *)
Definition NAME_RE (s : string) : bool :=
  negb (String.eqb s "") && str_all (fun c => is_digit c || in_range 97 122 c || Ascii.eqb c "-") s.
Definition URL_RE (s : string) : bool :=
  existsb (fun p => String.prefix p s) ["http://"; "https://"; "git://"; "ssh://"; "git@"].

Definition badPath (s : string) : bool :=
  String.eqb s "" || String.prefix "/" s || mem_str ".." (str_split "/" s).

Definition notNull (v : option json) : bool := match v with None | Some JNull => false | _ => true end.
Definition isStr (v : option json) : bool := bool_decide (is_Some (jstr v)).

(** The first of some keys that is rejected. *)
Definition firstBad (bad : option json -> bool) (i : json) (keys : list string) : option string :=
  js_find (fun k => bad (jget (Some i) k)) keys.

Definition OPTIONAL_PATHS : list string := ["tuningSubpath"; "benchmarkSubpath"; "modsSubpath"].
Definition badOptional (v : option json) : bool := match jstr v with Some s => badPath s | None => false end.

Definition validateRegistry (i : json) : result string RegistryInput :=
  match i with
  | JObj _ | JArr _ =>
      let g k := jget (Some i) k in
      match jstr (g "name"), jstr (g "url"), jstr (g "subpath") with
      | None, _, _ => Err "name must match ^[a-z0-9-]+$"
      | Some name, url, subpath =>
          if negb (NAME_RE name) then Err "name must match ^[a-z0-9-]+$"
          else
            match url with
            | None => Err "url must be an http(s)/git/ssh URL"
            | Some url =>
                if negb (URL_RE url) then Err "url must be an http(s)/git/ssh URL"
                else
                  match subpath with
                  | None => Err "subpath must be a non-empty relative path (no '..' or leading '/')"
                  | Some subpath =>
                      if badPath subpath then Err "subpath must be a non-empty relative path (no '..' or leading '/')"
                      else
                        match firstBad (fun v => notNull v && negb (isStr v)) i ("description" :: OPTIONAL_PATHS) with
                        | Some k => Err (k +:+ " must be a string")
                        | None =>
                            match firstBad badOptional i OPTIONAL_PATHS with
                            | Some k => Err (k +:+ " must be a relative path")
                            | None =>
                                if notNull (g "visible") && match g "visible" with Some (JBool _) => false | _ => true end
                                then Err "visible must be a boolean"
                                else if notNull (g "sortOrder") && negb (bool_decide (is_Some (jnum (g "sortOrder"))))
                                then Err "sortOrder must be a number"
                                else Ok {| ri_name := name; ri_url := url; ri_subpath := subpath;
                                           ri_description := jstr (g "description");
                                           ri_visible := match g "visible" with Some (JBool b) => b | _ => true end;
                                           ri_tuningSubpath := jstr (g "tuningSubpath");
                                           ri_benchmarkSubpath := jstr (g "benchmarkSubpath");
                                           ri_modsSubpath := jstr (g "modsSubpath");
                                           ri_sortOrder := default (zn 0) (jnum (g "sortOrder")) |}
                            end
                        end
                  end
            end
      end
  | _ => Err "Body must be an object"
  end.

End Rules.

Record registry := Registry {
  rg_id : string; rg_name : string; rg_url : string; rg_subpath : string; rg_description : option string;
  rg_visible : bool; rg_tuningSubpath : option string; rg_benchmarkSubpath : option string;
  rg_modsSubpath : option string; rg_sortOrder : Z }.

#[export] Instance registry_hasid : HasId registry := rg_id.

Record RegistryWire := {
  rw_name : string; rw_url : string; rw_subpath : string; rw_description : option string; rw_visible : option bool;
  rw_tuning_subpath : option string; rw_benchmark_subpath : option string; rw_mods_subpath : option string }.

Module Render.

(** The replacements of [q], one character at a time: none makes what a later one looks
    for, backslashes going first. *)
Fixpoint escaped (s : string) : string :=
  match s with
  | EmptyString => EmptyString
  | String c r =>
      if Ascii.eqb c bs then String bs (String bs (escaped r))
      else if Ascii.eqb c dq then String bs (String dq (escaped r))
      else if Ascii.eqb c nl then String bs (String "n" (escaped r))
      else if Ascii.eqb c AgentHealth.Lines.cr then String bs (String "r" (escaped r))
      else String c (escaped r)
  end.
Definition q (s : string) : string := String dq (escaped s +:+ String dq "").

Definition field (k : string) (v : option string) : list string :=
  match v with Some s => ["  " +:+ k +:+ ": " +:+ q s] | None => [] end.

Definition registryLines (r : RegistryWire) : list string :=
  ["- name: " +:+ q (rw_name r); "  url: " +:+ q (rw_url r); "  subpath: " +:+ q (rw_subpath r)] ++
  field "description" (rw_description r) ++
  (if bool_decide (rw_visible r = Some false) then ["  visible: false"] else []) ++
  field "tuning_subpath" (rw_tuning_subpath r) ++ field "benchmark_subpath" (rw_benchmark_subpath r) ++
  field "mods_subpath" (rw_mods_subpath r).

Definition renderRegistriesYaml (registries : list RegistryWire) : string :=
  match registries with
  | [] => "registries: []" +:+ String nl ""
  | _ => str_join (String nl "") ("registries:" :: concat (map registryLines registries)) +:+ String nl ""
  end.

(** [writeRegistriesFile]: the states of the disk it goes through; the temporary file is
    written a piece at a time, the rename is one step. *)
Definition writeRegistriesFile (path : string) (registries : list RegistryWire) (disk : gmap string string) :
    list (gmap string string) :=
  let tmp := path +:+ ".tmp" in
  let text := renderRegistriesYaml registries in
  let written n := <[tmp := String.substring 0 n text]> disk in
  disk :: map written (seq 0 (S (String.length text))) ++ [<[path := text]> (delete tmp disk)].

End Render.

Module Routes_.
Import Rules.

Section Wire.
(** [a.localeCompare(b) <= 0]. *)
Context (localeLe : string -> string -> bool).

Definition wireLe (a b : registry) : bool :=
  (rg_sortOrder a <? rg_sortOrder b)%Z || (rg_sortOrder a =? rg_sortOrder b)%Z && localeLe (rg_name a) (rg_name b).

Definition wireOf (r : registry) : RegistryWire :=
  {| rw_name := rg_name r; rw_url := rg_url r; rw_subpath := rg_subpath r; rw_description := rg_description r;
     rw_visible := if rg_visible r then None else Some false; rw_tuning_subpath := rg_tuningSubpath r;
     rw_benchmark_subpath := rg_benchmarkSubpath r; rw_mods_subpath := rg_modsSubpath r |}.

Definition registryRowsToWire (rows : list registry) : list RegistryWire := map wireOf (js_sort wireLe rows).

(** [cmd:set-registries]: to whom, and what. *)
Definition message := (string * list RegistryWire)%type.
Definition pushRegistriesToConnectedAgents (rows : list registry) (connected : list string) : list message :=
  map (fun id => (id, registryRowsToWire rows)) connected.
Definition pushRegistriesToAgent (rows : list registry) (nodeId : string) : message := (nodeId, registryRowsToWire rows).

Inductive reply := RRow (r : registry) | RDeleted | RBad (error : string) | RTaken (name : string) | RMissing | RLast | RThrow.

Definition clash (rows : list registry) (name : string) : bool := existsb (fun r => String.eqb (rg_name r) name) rows.

(** The row's columns; [None]: the order is no 32-bit integer, and the write throws. *)
Definition rowOf (id : string) (v : RegistryInput) : option registry :=
  order ← as_int32 (ri_sortOrder v);
  Some (Registry id (ri_name v) (ri_url v) (ri_subpath v) (ri_description v) (ri_visible v) (ri_tuningSubpath v)
          (ri_benchmarkSubpath v) (ri_modsSubpath v) order).

(** A request under way, by the access to the database it awaits: creating a row; asking for a
    clash of names; updating a row; counting the rows; deleting one; reading all of them for the
    push, after which [rp] is answered. *)
Inductive task :=
  | Creating (newId : string) (v : RegistryInput)
  | Renaming (id : string) (v : RegistryInput) | Updating (id : string) (v : RegistryInput)
  | Counting (id : string) | Deleting (id : string)
  | Pushing (rp : reply).

Definition postRegistry (newId : string) (body : json) (rows : list registry) : reply + task :=
  match validateRegistry body with
  | Err e => inl (RBad e)
  | Ok v => if clash rows (ri_name v) then inl (RTaken (ri_name v)) else inr (Creating newId v)
  end.

Definition optJson (v : option string) : json := match v with Some s => JStr s | None => JNull end.

(** The row as an object. *)
Definition fieldsOf (r : registry) : list (string * json) :=
  [("id", JStr (rg_id r)); ("name", JStr (rg_name r)); ("url", JStr (rg_url r)); ("subpath", JStr (rg_subpath r));
   ("description", optJson (rg_description r)); ("visible", JBool (rg_visible r));
   ("tuningSubpath", optJson (rg_tuningSubpath r)); ("benchmarkSubpath", optJson (rg_benchmarkSubpath r));
   ("modsSubpath", optJson (rg_modsSubpath r)); ("sortOrder", JNum (zn (rg_sortOrder r)))].

Definition patchRegistry (id : string) (body : list (string * json)) (rows : list registry) : reply + task :=
  match tbl_find id rows with
  | None => inl RMissing
  | Some current =>
      match validateRegistry (JObj (obj_spread (fieldsOf current) body)) with
      | Err e => inl (RBad e)
      | Ok v => if negb (String.eqb (ri_name v) (rg_name current)) then inr (Renaming id v) else inr (Updating id v)
      end
  end.

Definition deleteRegistry (id : string) (rows : list registry) : reply + task :=
  match tbl_find id rows with Some _ => inr (Counting id) | None => inr (Pushing RDeleted) end.

(** The writes; names are unique in the database, and a write that would break that, or that
    finds no row, throws. *)
Definition createRow (newId : string) (v : RegistryInput) (rows : list registry) : list registry * (reply + task) :=
  match rowOf newId v with
  | None => (rows, inl RThrow)
  | Some r => if clash rows (rg_name r) then (rows, inl RThrow) else (rows ++ [r], inr (Pushing (RRow r)))
  end.

Definition updateRow (id : string) (v : RegistryInput) (rows : list registry) : list registry * (reply + task) :=
  match tbl_find id rows, rowOf id v with
  | Some _, Some r =>
      if clash (tbl_delete id rows) (rg_name r) then (rows, inl RThrow)
      else (tbl_update id (fun _ => r) rows, inr (Pushing (RRow r)))
  | _, _ => (rows, inl RThrow)
  end.

Definition deleteRow (id : string) (rows : list registry) : list registry * (reply + task) :=
  match tbl_find id rows with
  | Some _ => (tbl_delete id rows, inr (Pushing RDeleted))
  | None => (rows, inl RThrow)
  end.

(** [seedDefaultRegistries]; [defaults]: the rows of [DEFAULT_REGISTRIES] under their new ids. *)
Definition seedDefaultRegistries (defaults rows : list registry) : list registry * nat :=
  if (0 <? length rows)%nat then (rows, 0) else (rows ++ defaults, length defaults).

(** [GET]: ordered by the database, which compares names byte by byte. *)
Definition listRegistries (rows : list registry) : list registry :=
  js_sort (fun a b => (rg_sortOrder a <? rg_sortOrder b)%Z || (rg_sortOrder a =? rg_sortOrder b)%Z && String.leb (rg_name a) (rg_name b)) rows.

Inductive request :=
  | Post (newId : string) (body : json)
  | Patch (id : string) (body : list (string * json))
  | Delete (id : string).

(** Up to the first await of a write. *)
Definition begin (rq : request) (rows : list registry) : reply + task :=
  match rq with
  | Post newId body => postRegistry newId body rows
  | Patch id body => patchRegistry id body rows
  | Delete id => deleteRegistry id rows
  end.

(** One access, and what follows it up to the next; [connected]: the agents, when it pushes. *)
Definition proceed (connected : list string) (t : task) (rows : list registry) :
    list registry * (reply + task) * list message :=
  match t with
  | Creating newId v => (createRow newId v rows, [])
  | Renaming id v => (rows, if clash rows (ri_name v) then inl (RTaken (ri_name v)) else inr (Updating id v), [])
  | Updating id v => (updateRow id v rows, [])
  | Counting id => (rows, if (length rows <=? 1)%nat then inl RLast else inr (Deleting id), [])
  | Deleting id => (deleteRow id rows, [])
  | Pushing rp => (rows, inl rp, pushRegistriesToConnectedAgents rows connected)
  end.

(** The requests under way, what was sent, and the answers. *)
Record server := Server {
  sv_rows : list registry; sv_tasks : list task; sv_sent : list message; sv_answers : list reply }.

Inductive event := Arrive (rq : request) | Proceed (k : nat) (connected : list string).

Definition tasks_of (next : reply + task) : list task := match next with inr t => [t] | inl _ => [] end.
Definition answers_of (next : reply + task) : list reply := match next with inl rp => [rp] | inr _ => [] end.

Definition step (s : server) (e : event) : server :=
  match e with
  | Arrive rq =>
      let next := begin rq (sv_rows s) in
      Server (sv_rows s) (sv_tasks s ++ tasks_of next) (sv_sent s) (sv_answers s ++ answers_of next)
  | Proceed k connected =>
      match sv_tasks s !! k with
      | None => s
      | Some t =>
          let '(rows, next, ms) := proceed connected t (sv_rows s) in
          Server rows (take k (sv_tasks s) ++ tasks_of next ++ drop (S k) (sv_tasks s)) (sv_sent s ++ ms)
            (sv_answers s ++ answers_of next)
      end
  end.
Definition run (es : list event) (s : server) : server := foldl step s es.
Definition start (rows : list registry) : server := Server rows [] [] [].

(** A request nothing comes between. *)
Definition handle (connected : list string) (rq : request) (rows : list registry) : server :=
  run [Arrive rq; Proceed 0 connected; Proceed 0 connected; Proceed 0 connected] (start rows).

End Wire.

(** [DEFAULT_REGISTRIES] without the generated ids. *)
Definition defaultRow (name url subpath description : string) (visible : bool) (tuning benchmark mods : option string)
    (order : Z) (id : string) : registry :=
  Registry id name url subpath (Some description) visible tuning benchmark mods order.

Definition DEFAULT_REGISTRIES : list (string -> registry) :=
  [defaultRow "sparkrun-testing" "https://github.com/dbotwinick/sparkrun-recipe-registry.git" "testing/recipes"
     "Sparkrun testing registry for recipes, tuning configs, and benchmark profiles" false
     (Some "testing/tuning") (Some "testing/benchmarking") None 0;
   defaultRow "sparkrun-transitional" "https://github.com/dbotwinick/sparkrun-recipe-registry.git" "transitional/recipes"
     "Transitional registry for recipes" true (Some "testing/tuning") None None 1;
   defaultRow "official" "https://github.com/spark-arena/recipe-registry.git" "official-recipes"
     "Official Spark Arena registry for recipes, tuning configs, and benchmark profiles" true
     (Some "tuning") (Some "benchmarking") (Some "official-mods") 2;
   defaultRow "experimental" "https://github.com/spark-arena/recipe-registry.git" "experimental-recipes"
     "Spark Arena registry for experimental recipes" false None None (Some "experimental-mods") 3;
   defaultRow "community" "https://github.com/spark-arena/community-recipe-registry.git" "recipes"
     "Community registry for sparkrun" false (Some "tuning") (Some "benchmarking") None 4;
   defaultRow "eugr" "https://github.com/eugr/spark-vllm-docker" "recipes"
     "Official eugr/spark-vllm-docker repo recipes" true None None (Some "mods") 5;
   defaultRow "atlas" "https://github.com/Avarok-Cybersecurity/atlas-recipes.git" "recipes"
     "Atlas recipes" false None None None 6].

End Routes_.
