(* ===== verification/RegistriesFacts.v ===== *)
(** Registries: the table stays valid and never empties request by request, every agent is
    sent all of it, and the file an agent writes reads back as what it was sent. *)
From S2P Require Import Prelude JsNum Schema AgentHealth Registries.
Import Registries.Rules Registries.Render Registries.Routes_.

(** * The file *)

(** A double-quoted scalar, read. *)
Fixpoint unescaped (s : string) : option string :=
  match s with
  | EmptyString => None
  | String c r =>
      if Ascii.eqb c dq then (if String.eqb r "" then Some "" else None)
      else if Ascii.eqb c bs
      then match r with
           | String d r' =>
               x ← (if Ascii.eqb d "n" then Some nl else if Ascii.eqb d "r" then Some AgentHealth.Lines.cr
                    else if Ascii.eqb d bs || Ascii.eqb d dq then Some d else None);
               t ← unescaped r'; Some (String x t)
           | EmptyString => None
           end
      else t ← unescaped r; Some (String c t)
  end.
Definition scalar (s : string) : string :=
  match s with
  | String c r => if Ascii.eqb c dq then default s (unescaped r) else s
  | EmptyString => s
  end.

Lemma unescaped_escaped s : unescaped (escaped s +:+ String dq "") = Some s.
Proof.
  induction s as [|c s IH]; [done|]. cbn [escaped].
  destruct (Ascii.eqb_spec c bs) as [->|Hb]; [rewrite !app_String; cbn -[escaped]; by rewrite IH|].
  destruct (Ascii.eqb_spec c dq) as [->|Hq]; [rewrite !app_String; cbn -[escaped]; by rewrite IH|].
  destruct (Ascii.eqb_spec c nl) as [->|Hn]; [rewrite !app_String; cbn -[escaped]; by rewrite IH|].
  destruct (Ascii.eqb_spec c AgentHealth.Lines.cr) as [->|Hc]; [rewrite !app_String; cbn -[escaped]; by rewrite IH|].
  rewrite app_String. cbn [unescaped].
  rewrite (proj2 (Ascii.eqb_neq c dq) Hq), (proj2 (Ascii.eqb_neq c bs) Hb). by rewrite IH.
Qed.

Lemma scalar_q s : scalar (q s) = s.
Proof. unfold scalar, q. rewrite Ascii.eqb_refl. by rewrite unescaped_escaped. Qed.

Lemma q_one_line s : str_all (not_char nl) (q s) = true.
Proof.
  unfold q. cbn. rewrite str_all_app. rewrite andb_true_r. induction s as [|c s IH]; [done|]. cbn [escaped].
  destruct (Ascii.eqb c bs); [by cbn|]. destruct (Ascii.eqb c dq); [by cbn|].
  destruct (Ascii.eqb c nl) eqn:En; [by cbn|]. destruct (Ascii.eqb c AgentHealth.Lines.cr); [by cbn|].
  cbn [str_all]. change (not_char nl c) with (negb (Ascii.eqb c nl)). by rewrite En.
Qed.

(** [k: v] *)
Fixpoint entryLine (s : string) : option (string * string) :=
  match s with
  | EmptyString => None
  | String c r =>
      if Ascii.eqb c ":" then match r with String " " v => Some ("", scalar v) | _ => None end
      else '(k, v) ← entryLine r; Some (String c k, v)
  end.

Definition items := list (list (string * string)).
Definition addField (its : items) (kv : string * string) : items := removelast its ++ [List.last its [] ++ [kv]].

(** A block sequence of flat maps, line by line. *)
Definition readLine (its : items) (line : string) : items :=
  match line with
  | String "-" (String " " r) => match entryLine r with Some kv => its ++ [[kv]] | None => its end
  | String " " (String " " r) => match entryLine r with Some kv => addField its kv | None => its end
  | _ => its
  end.
Definition readRegistries (text : string) : items := foldl readLine [] (str_split nl text).

(** What an agent was told of a registry. *)
Definition wireFields (r : RegistryWire) : list (string * string) :=
  [("name", rw_name r); ("url", rw_url r); ("subpath", rw_subpath r)] ++
  option_list ((fun v => ("description", v)) <$> rw_description r) ++
  (if bool_decide (rw_visible r = Some false) then [("visible", "false")] else []) ++
  option_list ((fun v => ("tuning_subpath", v)) <$> rw_tuning_subpath r) ++
  option_list ((fun v => ("benchmark_subpath", v)) <$> rw_benchmark_subpath r) ++
  option_list ((fun v => ("mods_subpath", v)) <$> rw_mods_subpath r).

Lemma addField_snoc its fs kv : addField (its ++ [fs]) kv = its ++ [fs ++ [kv]].
Proof. unfold addField. by rewrite removelast_last, last_last. Qed.

(** The keys of the file. *)
Definition fileKey (k : string) : Prop :=
  k ∈ ["name"; "url"; "subpath"; "description"; "tuning_subpath"; "benchmark_subpath"; "mods_subpath"].

Lemma entryLine_q k s : fileKey k -> entryLine (k +:+ ": " +:+ q s) = Some (k, s).
Proof.
  assert (forall v, scalar v = s -> fileKey k -> entryLine (k +:+ ": " +:+ v) = Some (k, s)) as H.
  { intros v Hv Hk. unfold fileKey in Hk. rewrite !elem_of_cons, elem_of_nil in Hk.
    destruct_or? Hk; subst k; rewrite !app_String, !app_empty_l; cbn -[scalar]; by rewrite Hv. }
  apply H, scalar_q.
Qed.

Lemma read_field k v its fs :
  fileKey k -> foldl readLine (its ++ [fs]) (field k v) = its ++ [fs ++ option_list ((fun x => (k, x)) <$> v)].
Proof.
  intros Hk. destruct v as [s|]; [|cbn; by rewrite app_nil_r]. cbn [field foldl].
  change ("  " +:+ k +:+ ": " +:+ q s) with (String " " (String " " (k +:+ ": " +:+ q s))).
  cbn [readLine]. rewrite entryLine_q by done. by rewrite addField_snoc.
Qed.

Lemma read_registry its r : foldl readLine its (registryLines r) = its ++ [wireFields r].
Proof.
  unfold registryLines, wireFields. rewrite foldl_app. set (rest := _ ++ _ ++ _).
  assert (foldl readLine its ["- name: " +:+ q (rw_name r); "  url: " +:+ q (rw_url r); "  subpath: " +:+ q (rw_subpath r)] =
          its ++ [[("name", rw_name r); ("url", rw_url r); ("subpath", rw_subpath r)]]) as ->.
  { pose proof (entryLine_q "name" (rw_name r) ltac:(left)) as H1.
    pose proof (entryLine_q "url" (rw_url r) ltac:(right; left)) as H2.
    pose proof (entryLine_q "subpath" (rw_subpath r) ltac:(do 2 right; left)) as H3.
    change ("- name: " +:+ q (rw_name r)) with (String "-" (String " " ("name" +:+ ": " +:+ q (rw_name r)))).
    change ("  url: " +:+ q (rw_url r)) with (String " " (String " " ("url" +:+ ": " +:+ q (rw_url r)))).
    change ("  subpath: " +:+ q (rw_subpath r)) with (String " " (String " " ("subpath" +:+ ": " +:+ q (rw_subpath r)))).
    cbn [foldl readLine]. by rewrite H1, H2, H3, !addField_snoc. }
  subst rest. rewrite !foldl_app. rewrite read_field by (do 3 right; left).
  destruct (bool_decide (rw_visible r = Some false)); cbn [foldl readLine entryLine].
  - change (Ascii.eqb "v" ":") with false. cbn -[foldl field option_list]. rewrite addField_snoc.
    rewrite !read_field by (unfold fileKey; set_solver). by rewrite <- !app_assoc.
  - rewrite !read_field by (unfold fileKey; set_solver). by rewrite <- !app_assoc.
Qed.

Lemma join_closed (ls : list string) :
  ls <> [] -> str_join (String nl "") ls +:+ String nl "" = str_join (String nl "") (ls ++ [""]).
Proof.
  induction ls as [|x ls IH]; [done|]. intros _. destruct ls as [|y ls]; [done|].
  cbn [app]. rewrite !str_join_cons, !str_app_assoc. rewrite IH by done. by destruct ls.
Qed.

Lemma lines_one_line r : Forall (fun l => str_all (not_char nl) l = true) (registryLines r).
Proof.
  unfold registryLines.
  assert (forall k v, str_all (not_char nl) k = true -> Forall (fun l => str_all (not_char nl) l = true) (field k v)) as Hf.
  { intros k [s|] Hk; [|constructor]. constructor; [|constructor]. rewrite !str_all_app, Hk. cbn -[q]. apply q_one_line. }
  rewrite !Forall_app. split; [repeat constructor; rewrite str_all_app; cbn -[q]; apply q_one_line|].
  split; [by apply Hf|]. split; [destruct (bool_decide _); repeat constructor|]. split; [by apply Hf|].
  split; by apply Hf.
Qed.

(** The file says what the manager sent.  Whatever names, addresses and descriptions
    hold, quotes, backslashes and line feeds included, the file an agent writes reads back
    as the registries it was sent, in their order, each with its own keys and no other: no
    value adds a key or a registry. *)
Theorem registries_file_roundtrip rs : readRegistries (renderRegistriesYaml rs) = map wireFields rs.
Proof.
  destruct rs as [|r rs]; [done|]. unfold renderRegistriesYaml, readRegistries. set (l := r :: rs).
  rewrite join_closed by done. rewrite str_split_join; [|done|].
  - rewrite <- app_comm_cons. cbn [foldl]. change (readLine [] "registries:") with ([] : items). rewrite foldl_app.
    assert (forall its, foldl readLine its (concat (map registryLines l)) = its ++ map wireFields l) as ->.
    { clearbody l. induction l as [|x l IH]; intros its; [by rewrite app_nil_r|]. cbn [map concat].
      rewrite foldl_app, read_registry, IH, <- app_assoc. done. }
    done.
  - constructor; [done|]. apply Forall_app. split; [|by repeat constructor]. apply Forall_concat, Forall_map.
    apply Forall_forall. intros x _. apply lines_one_line.
Qed.

(** The file is replaced at once.  Whenever the write of the file is cut short, the file
    is the old one or the whole new one. *)
Theorem registries_file_atomic path rs disk d :
  d ∈ writeRegistriesFile path rs disk -> d !! path = disk !! path \/ d !! path = Some (renderRegistriesYaml rs).
Proof.
  assert (path +:+ ".tmp" <> path) as Hne.
  { intros E. apply (f_equal String.length) in E. rewrite str_length_app in E. cbn in E. lia. }
  unfold writeRegistriesFile. rewrite elem_of_cons, elem_of_app, list_elem_of_singleton.
  intros [->|[(n & -> & _)%list_elem_of_fmap| ->]].
  - by left.
  - left. by rewrite lookup_insert_ne.
  - right. apply lookup_insert_eq.
Qed.

(** * The table *)

(** What the rules demand of a row. *)
Record rowOk (r : registry) : Prop := {
  ok_name : NAME_RE (rg_name r) = true;
  ok_url : URL_RE (rg_url r) = true;
  ok_subpath : badPath (rg_subpath r) = false;
  ok_optional : forall s, (rg_tuningSubpath r = Some s \/ rg_benchmarkSubpath r = Some s \/ rg_modsSubpath r = Some s) -> badPath s = false;
  ok_order : (-2147483648 <= rg_sortOrder r <= 2147483647)%Z }.








Section Wire.
Context (localeLe : string -> string -> bool).








(** The last list a node was sent. *)
Definition lastSent (node : string) (ms : list message) : option (list RegistryWire) :=
  last (map snd (List.filter (fun m => String.eqb m.1 node) ms)).




(** ** Runs *)














(** A patch that changes nothing leaves the row: a row of the table passes its own rules. *)
Lemma patch_nothing id rows r :
  tbl_find id rows = Some r -> rowOk r ->
  exists v, validateRegistry (JObj (obj_spread (fieldsOf r) [])) = Ok v /\ rowOf id v = Some r /\
    patchRegistry id [] rows = inr (Updating id v).
Proof.
  intros Hf [H1 H2 H3 H4 H5]. destruct (tbl_find_Some _ _ _ Hf) as [_ Hid]. change (rg_id r = id) in Hid.
  assert (exists v, validateRegistry (JObj (obj_spread (fieldsOf r) [])) = Ok v /\ rowOf id v = Some r /\ ri_name v = rg_name r) as (v & Hv & Hr & Hn).
  { assert (as_int32 (zn (rg_sortOrder r)) = Some (rg_sortOrder r)) as Hz by (apply as_int32_zn; lia).
    destruct r as [i n u s d vis tu be mo so].
    cbn [rg_id rg_name rg_url rg_subpath rg_tuningSubpath rg_benchmarkSubpath rg_modsSubpath rg_sortOrder] in *. subst i.
    assert (forall o, (o = tu \/ o = be \/ o = mo) -> badOptional (Some (optJson o)) = false) as Hb.
    { intros [x|] Ho; [|done]. unfold badOptional. cbn. apply H4. naive_solver. }
    pose proof (Hb tu ltac:(by left)) as B1. pose proof (Hb be ltac:(by right; left)) as B2.
    pose proof (Hb mo ltac:(by right; right)) as B3.
    eexists. split; [|split]. 
    - unfold validateRegistry, firstBad. set (fs := obj_spread _ _). cbn [OPTIONAL_PATHS js_find].
      change (jget (Some (JObj fs)) "name") with (Some (JStr n)).
      change (jget (Some (JObj fs)) "url") with (Some (JStr u)).
      change (jget (Some (JObj fs)) "subpath") with (Some (JStr s)).
      change (jget (Some (JObj fs)) "description") with (Some (optJson d)).
      change (jget (Some (JObj fs)) "visible") with (Some (JBool vis)).
      change (jget (Some (JObj fs)) "tuningSubpath") with (Some (optJson tu)).
      change (jget (Some (JObj fs)) "benchmarkSubpath") with (Some (optJson be)).
      change (jget (Some (JObj fs)) "modsSubpath") with (Some (optJson mo)).
      change (jget (Some (JObj fs)) "sortOrder") with (Some (JNum (zn so))).
      assert (forall o, notNull (Some (optJson o)) && negb (isStr (Some (optJson o))) = false) as Hs by (by intros [?|]).
      cbn [jstr]. rewrite H1, H2, H3, !Hs, B1, B2, B3. reflexivity.
    - unfold rowOf. cbn -[as_int32 optJson zn]. cbn [jnum default]. rewrite Hz. cbn. by destruct d, tu, be, mo.
    - done. }
  exists v. split; [done|]. split; [done|]. unfold patchRegistry. by rewrite Hf, Hv, Hn, String.eqb_refl.
Qed.

End Wire.

(** * Examples *)

Module Examples.

Definition seeded : list registry := zip_with (fun f id => f id) DEFAULT_REGISTRIES ["r0"; "r1"; "r2"; "r3"; "r4"; "r5"; "r6"].
Definition leb_locale (a b : string) : bool := String.leb a b.

Definition mine : json :=
  JObj [("name", JStr "rtx"); ("url", JStr "https://github.com/kreuzhofer/rtx-recipe-registry.git"); ("subpath", JStr "recipes")].

Example seeds_once : (seedDefaultRegistries seeded []).2 = 7%nat /\ seedDefaultRegistries seeded seeded = (seeded, 0%nat).
Proof. by vm_compute. Qed.

Notation answered rq rows := (sv_answers (handle leb_locale ["a"] rq rows)).

Example post_checks :
  answered (Post "n" mine) seeded =
    [RRow (Registry "n" "rtx" "https://github.com/kreuzhofer/rtx-recipe-registry.git" "recipes" None true None None None 0)] /\
  answered (Post "n" (JObj (obj_spread [("name", JStr "rtx"); ("url", JStr "git@h:o/r.git"); ("subpath", JStr "../x")] []))) seeded =
    [RBad "subpath must be a non-empty relative path (no '..' or leading '/')"] /\
  answered (Patch "r0" [("name", JStr "atlas")]) seeded = [RTaken "atlas"] /\
  answered (Delete "r0") (take 1 seeded) = [RLast].
Proof. by vm_compute. Qed.


(** The guard of the last row is read before the delete: of two deletes that both pass it
    first, the second empties the table, and the agents are told so. *)
Example deletes_interleaved_empty :
  let s := run leb_locale [Arrive (Delete "r0"); Arrive (Delete "r1"); Proceed 0 ["a"]; Proceed 1 ["a"]; Proceed 0 ["a"];
                           Proceed 1 ["a"]; Proceed 0 ["a"]; Proceed 0 ["a"]] (start (take 2 seeded)) in
  (sv_rows s, sv_answers s, sv_sent s) = ([], [RDeleted; RDeleted], [("a", []); ("a", [])]).
Proof. by vm_compute. Qed.

(** A new row, a patch and a delete, their accesses mixed. *)
Definition requests : list event :=
  [Arrive (Post "n" mine); Arrive (Patch "r3" [("visible", JBool true)]); Proceed 0 ["a"; "b"]; Arrive (Delete "r0");
   Proceed 1 ["b"]; Proceed 2 ["b"]; Proceed 0 ["a"; "b"]; Proceed 0 ["b"]; Proceed 0 ["b"; "c"]; Proceed 0 ["b"; "c"]].


Example registries_served :
  let s := run leb_locale requests (start seeded) in
  map rg_name (sv_rows s) = ["sparkrun-transitional"; "official"; "experimental"; "community"; "eugr"; "atlas"; "rtx"] /\
  map rw_name (default [] (lastSent "b" (sv_sent s))) = ["rtx"; "sparkrun-transitional"; "official"; "experimental"; "community"; "eugr"; "atlas"].
Proof. by vm_compute. Qed.

End Examples.
