(* ===== verification/AgentTools.v ===== *)
(** What an agent runs its commands with: [Capture] (agent: runtime/exec-capture.ts), the
    call whose answer docker's state is read from; [Exec] (agent: caps/exec-cap.ts), an
    operator's command; [DropCache] (agent: runtime/dgxrun/dgxrun-dropcache.ts), the loop
    that frees memory while a model loads; [Audit] (agent: self-audit.ts), the prerequisites
    it reports; [Shared] (agent: runtime/undeploy-policy.ts), whose the shared container is;
    [PowerCmd] (agent: runtime/power.ts), how it goes down.

    A child process is the events it emits and the signals it is sent; timers are events
    too, which happen only while armed. *)
From S2P Require Import Prelude JsNum AgentHealth Firewall Jobs NodeOps.

Module Capture.

Record ExecCapture := { ec_status : option Z; ec_stdout : string; ec_stderr : string; ec_error : option string }.

Inductive event :=
  | Data (into_err : bool) (chunk : string)
  | Deadline | HardDeadline
  | ErrorEv (error : string)
  | Close (code : option Z) (signal : option string).

Record state := State {
  cp_out : string; cp_err : string; cp_settled : option ExecCapture;
  cp_timer : bool; cp_hard : bool; cp_signals : list string }.

Definition started : state := State "" "" None true false [].

Definition append (maxBuffer : nat) (s chunk : string) : string :=
  if (String.length s <? maxBuffer)%nat then s +:+ chunk else s.

Definition collect (maxBuffer : nat) (into_err : bool) (chunk : string) (st : state) : state :=
  if into_err
  then State (cp_out st) (append maxBuffer (cp_err st) chunk) (cp_settled st) (cp_timer st) (cp_hard st) (cp_signals st)
  else State (append maxBuffer (cp_out st) chunk) (cp_err st) (cp_settled st) (cp_timer st) (cp_hard st) (cp_signals st).

Definition finish (status : option Z) (error : option string) (st : state) : state :=
  match cp_settled st with
  | Some _ => st
  | None => State (cp_out st) (cp_err st)
              (Some {| ec_status := status; ec_stdout := cp_out st; ec_stderr := cp_err st; ec_error := error |})
              false (cp_hard st) (cp_signals st)
  end.

Section Run.
Context (file : string) (timeout : Z) (maxBuffer : nat).

Definition onEvent (st : state) (e : event) : state :=
  match e with
  | Data into_err chunk => collect maxBuffer into_err chunk st
  | Deadline =>
      if cp_timer st
      then finish None (Some (file +:+ " timed out after " +:+ pretty timeout +:+ "ms"))
             (State (cp_out st) (cp_err st) (cp_settled st) false true (cp_signals st ++ ["SIGTERM"]))
      else st
  | HardDeadline =>
      if cp_hard st then State (cp_out st) (cp_err st) (cp_settled st) (cp_timer st) false (cp_signals st ++ ["SIGKILL"]) else st
  | ErrorEv error => finish None (Some error) st
  | Close code signal =>
      match truthy signal with
      | Some s => finish None (Some (file +:+ " killed with signal " +:+ s)) st
      | None => finish code None st
      end
  end.

Definition execCapture (es : list event) : state := foldl onEvent started es.

End Run.

End Capture.

Module Exec.
Import Jobs.JobCap.

Record ExecResult := { er_code : option Z; er_timedOut : bool }.
Record ExecAudit := { ea_cmd : string; ea_args : list string; ea_reason : string; ea_code : option Z; ea_timedOut : bool }.

Inductive event := Timer | Chunk (stream data : string) | Close (code : option Z) | Error (e : string).
#[export] Instance event_eq_dec : EqDecision event.
Proof. solve_decision. Defined.
Inductive output := EmitChunk (stream data : string) | Kill | Audit (a : ExecAudit) | Resolve (r : ExecResult) | Reject (e : string).

(** A promise takes the first of its settlements. *)
Record state := State { ex_timedOut : bool; ex_timer : bool; ex_settled : bool }.

Definition settle (st : state) (o : output) : list output := if ex_settled st then [] else [o].

Definition onEvent (cmd : string) (args : list string) (reason : string) (st : state) (e : event) : state * list output :=
  match e with
  | Timer => if ex_timer st then (State true false (ex_settled st), [Kill]) else (st, [])
  | Chunk stream data => (st, [EmitChunk stream data])
  | Close code =>
      (State (ex_timedOut st) false true,
       Audit {| ea_cmd := cmd; ea_args := args; ea_reason := reason; ea_code := code; ea_timedOut := ex_timedOut st |}
       :: settle st (Resolve {| er_code := code; er_timedOut := ex_timedOut st |}))
  | Error e => (State (ex_timedOut st) false true, settle st (Reject e))
  end.

Fixpoint onEvents (cmd : string) (args : list string) (reason : string) (es : list event) (st : state) : list output :=
  match es with
  | [] => []
  | e :: rest => let '(st', os) := onEvent cmd args reason st e in os ++ onEvents cmd args reason rest st'
  end.

Definition errorText (e : execError) : string :=
  match e with CmdRequired => "exec: cmd required" | ReasonRequired => "exec: reason required (audited)" end.

(** The handler: what it spawns, with which deadline, and what it emits. *)
Definition handle (cmd : option string) (args : option (list string)) (timeoutMs : option Z) (reason : option string)
    (es : list event) : option (string * list string * Z) * list output :=
  match execPlan cmd args timeoutMs reason with
  | Err e => (None, [Reject (errorText e)])
  | Ok (c, a, t) => (Some (c, a, t), onEvents c a (default "" reason) es (State false true false))
  end.

End Exec.

Module DropCache.

(** [dropCachesOnce]; [exec]: the exit status of a command. *)
Definition dropCmd : string := "sync; echo 3 > /proc/sys/vm/drop_caches".
Definition dropCachesOnce (exec : list string -> option Z) : bool * list (list string) :=
  let direct := ["sh"; "-c"; dropCmd] in
  let sudo := ["sudo"; "-n"; "sh"; "-c"; dropCmd] in
  if bool_decide (exec direct = Some 0%Z) then (true, [direct])
  else (bool_decide (exec sudo = Some 0%Z), [direct; sudo]).

(** [loops] (the two timers of a loop have one number), [inFlight], and the drops that are
    still running, each with its deployment. *)
Record state := State {
  loops : gmap string nat; inFlight : gset string; running : gmap nat string; loopSeq : nat; dropSeq : nat }.

Definition idle : state := State ∅ ∅ ∅ 0 0.

Inductive event :=
  | Start (id : string)
  | Tick (loop : nat) | Cap (loop : nat)
  | DropEnds (drop : nat)
  | Stop (id : string).

Definition unflag (id : string) (s : state) : state :=
  State (loops s) (inFlight s ∖ {[id]}) (running s) (loopSeq s) (dropSeq s).

Section Loop.
(** Does the drop call [done] when it has ended, or, like the default one, at once? *)
Context (awaits : bool).

Definition tick (id : string) (s : state) : state :=
  if bool_decide (id ∈ inFlight s) then s
  else
    let s := State (loops s) ({[id]} ∪ inFlight s) (<[dropSeq s := id]> (running s)) (loopSeq s) (S (dropSeq s)) in
    if awaits then s else unflag id s.

Definition startDropCacheLoop (id : string) (s : state) : state :=
  match loops s !! id with
  | Some _ => s
  | None => let s := tick id s in
            State (<[id := loopSeq s]> (loops s)) (inFlight s) (running s) (S (loopSeq s)) (dropSeq s)
  end.

Definition stopDropCacheLoop (id : string) (s : state) : state :=
  let s := unflag id s in
  match loops s !! id with
  | None => s
  | Some _ => State (delete id (loops s)) (inFlight s) (running s) (loopSeq s) (dropSeq s)
  end.

(** The deployment whose loop has these timers: cleared timers do not fire. *)
Definition timerOf (loop : nat) (s : state) : option string :=
  fst <$> js_find (fun p => Nat.eqb p.2 loop) (map_to_list (loops s)).

Definition onEvent (s : state) (e : event) : state :=
  match e with
  | Start id => startDropCacheLoop id s
  | Tick n => match timerOf n s with Some id => tick id s | None => s end
  | Cap n => match timerOf n s with Some id => stopDropCacheLoop id s | None => s end
  | DropEnds k =>
      match running s !! k with
      | Some id =>
          let s := State (loops s) (inFlight s) (delete k (running s)) (loopSeq s) (dropSeq s) in
          if awaits then unflag id s else s
      | None => s
      end
  | Stop id => stopDropCacheLoop id s
  end.

Definition runLoop (es : list event) : state := foldl onEvent idle es.
Definition isDropCacheLoopRunning (id : string) (s : state) : bool := bool_decide (is_Some (loops s !! id)).

End Loop.

End DropCache.

Module Audit.

Record SelfAuditCheck := { sc_name : string; sc_status : Firewall.audit; sc_detail : string }.
Record SelfAuditReport := { sr_systemInfo : string; sr_checks : list SelfAuditCheck }.

Definition probe (name : string) (out : option string) (detail : string -> string) (bad : Firewall.audit)
    (missing : string) : SelfAuditCheck :=
  match truthy out with
  | Some o => {| sc_name := name; sc_status := Firewall.Green; sc_detail := detail o |}
  | None => {| sc_name := name; sc_status := bad; sc_detail := missing |}
  end.

Definition firewallDetail (s : FirewallState) : string :=
  match firewallAuditCheck s with
  | Firewall.Green => ":11434 restricted to manager + loopback (IPv6: loopback-only)"
  | Firewall.Red => "IPv4 rules NOT applied — Ollama :11434 may be exposed. Check agent journal for [firewall] errors."
  | Firewall.Yellow =>
      if bool_decide (v4 s = Pending) || bool_decide (v6 s = Pending)
      then "Startup apply still in progress — re-audit on next reconnect"
      else "IPv4 rules active; IPv6 mirror failed (defense-in-depth only, Ollama binds IPv4)"
  end.

(** [replace(/^ollama version is\s*/i, "v")] *)
Definition ollamaVersion (s : string) : string :=
  let lit := "ollama version is" in
  if String.prefix lit (str_lower s) then "v" +:+ trim_left (str_drop (String.length lit) s) else s.

(** [run]: a command's output, trimmed, or nothing when it fails. *)
Definition selfAudit (run : string -> option string) (nodeVersion osHostname : string) (fw : FirewallState) : SelfAuditReport :=
  let ollama := match truthy (run "ollama --version 2>&1 | head -1") with
                | Some o => if str_includes "not found" (str_lower o) then None else Some o
                | None => None
                end in
  {| sr_checks :=
       [probe "NVIDIA Drivers" (run "nvidia-smi --query-gpu=name,memory.total --format=csv,noheader") (fun o => o)
          Firewall.Red "nvidia-smi unavailable";
        probe "Docker" (run "docker --version") (fun o => o) Firewall.Red "docker command not found";
        probe "nvidia-container-toolkit"
          (run "dpkg -l nvidia-container-toolkit 2>/dev/null | awk '/^ii/{print $3}' | head -1")
          (fun o => "Installed (" +:+ o +:+ ")") Firewall.Red "Not installed";
        {| sc_name := "Node.js"; sc_status := Firewall.Green; sc_detail := nodeVersion |};
        probe "Ollama" ollama ollamaVersion Firewall.Yellow "Not installed (optional)";
        {| sc_name := "Ollama Firewall"; sc_status := firewallAuditCheck fw; sc_detail := firewallDetail fw |};
        probe "NFS /mnt/tank" (run "findmnt -n /mnt/tank -o SOURCE,FSTYPE 2>/dev/null")
          (fun o => "Mounted (" +:+ o +:+ ")") Firewall.Yellow "Not mounted (optional)"];
     sr_systemInfo :=
       str_join (String nl "") (List.filter (fun s => negb (String.eqb s ""))
         [js_or (run "uname -srm") osHostname; js_or (run ". /etc/os-release && echo $PRETTY_NAME") ""]) |}.

End Audit.

Module Shared.

Definition shouldForceStopSharedContainer (targetId : string) (ownerIds : list string) (containerRunning : bool) : bool :=
  if negb containerRunning then false else mem_str targetId ownerIds.

(** The reduction keeps the first of equals. *)
Definition later (a b : string * string) : string * string := if String.leb b.2 a.2 then a else b.
Definition selectContainerOwnerId (tracked : list (string * string)) : option string :=
  match tracked with
  | [] => None
  | d :: ds => Some (foldl later d ds).1
  end.

End Shared.

Module PowerCmd.
Import NodeOps.Power.

Definition powerCommand (a : PowerAction) (force : bool) : string :=
  if force && match a with Sleep => false | _ => true end
  then "sudo systemctl --force --force " +:+ (if a is Reboot then "reboot" else "poweroff")
  else match a with
       | Reboot => "sudo systemctl --no-block reboot"
       | Shutdown => "sudo systemctl --no-block poweroff"
       | Sleep => "sudo systemctl suspend"
       end.

Definition powerUnitName (now : Z) : string := "dgx-power-" +:+ pretty now.

Definition powerLaunchCommand (unit scriptPath : string) : string :=
  "sudo systemd-run --unit=" +:+ unit +:+ " --slice=system.slice --collect bash " +:+ scriptPath.

End PowerCmd.
