(* ===== verification/AgentToolsFacts.v ===== *)
(** The calls of an agent settle once and in time, an unanswered inspect is never read as
    an absent container, drops of the page cache overlap at most once per stop, and the
    audit an agent sends is what the manager looks up. *)
From S2P Require Import Prelude JsNum Schema AgentHealth Firewall Jobs NodeOps AgentHub AgentTools.

Module CaptureFacts.
Import Capture.

Section Run.
Context (file : string) (timeout : Z) (maxBuffer : nat).

Notation step := (onEvent file timeout maxBuffer).

(** What node promises of a close: an exit code or a signal, not both and not neither. *)
Definition wellFormed (e : event) : Prop :=
  match e with
  | Close code signal => code = None <-> is_Some (truthy signal)
  | _ => True
  end.

(** A timer that is armed belongs to a call that has not settled; one that ran out settled it. *)
Record ok (st : state) : Prop := {
  ok_timer : cp_timer st = true <-> cp_settled st = None;
  ok_hard : cp_hard st = true -> is_Some (cp_settled st);
  ok_error : forall r, cp_settled st = Some r -> (ec_status r = None <-> is_Some (ec_error r)) }.

Lemma finish_ok status error st :
  (status = None <-> is_Some error) -> (cp_timer st = true -> cp_settled st = None) ->
  (forall r, cp_settled st = Some r -> (ec_status r = None <-> is_Some (ec_error r)) /\ cp_timer st = false) ->
  ok (finish status error st).
Proof.
  intros He Ht Hr. unfold finish. destruct (cp_settled st) as [r|] eqn:E.
  - destruct (Hr r eq_refl) as [H1 H2]. split; [rewrite E, H2; naive_solver|naive_solver|]. intros r' Hr'. rewrite E in Hr'.
    by injection Hr' as <-.
  - split; cbn; [naive_solver|naive_solver|]. by intros r [= <-].
Qed.

Lemma failed_error {A} (x : A) : @None Z = None <-> is_Some (Some x).
Proof. split; [by eexists|done]. Qed.

Lemma step_ok st e : ok st -> wellFormed e -> ok (step st e).
Proof.
  intros [O1 O2 O3] Hw. assert (forall r, cp_settled st = Some r -> (ec_status r = None <-> is_Some (ec_error r)) /\ cp_timer st = false) as Hs.
  { intros r Hr. split; [by apply O3|]. destruct (cp_timer st); [|done]. rewrite (proj1 O1 eq_refl) in Hr. done. }
  destruct e as [ie c| | |er|code sg]; cbn [onEvent].
  - unfold collect. destruct ie; by split.
  - destruct (cp_timer st) eqn:E; [|by split; rewrite ?E]. apply finish_ok; cbn; [apply failed_error|done|].
    rewrite (proj1 O1 eq_refl). done.
  - destruct (cp_hard st) eqn:E; by split; rewrite ?E.
  - apply finish_ok; [apply failed_error|naive_solver|done].
  - cbn [wellFormed] in Hw. destruct (truthy sg) as [s|]; (apply finish_ok; [|naive_solver|done]); [apply failed_error|].
    rewrite Hw. split; intros [? ?]; done.
Qed.

Lemma step_settled st e r : cp_settled st = Some r -> ok st -> cp_settled (step st e) = Some r.
Proof.
  intros Hr [O1 _ _]. destruct e as [ie c| | |er|code sg]; cbn [onEvent].
  - unfold collect. by destruct ie.
  - destruct (cp_timer st) eqn:E; [|done]. rewrite (proj1 O1 eq_refl) in Hr. done.
  - by destruct (cp_hard st).
  - unfold finish. by rewrite Hr.
  - unfold finish. rewrite Hr. by destruct (truthy sg).
Qed.

Lemma run_ok es st : ok st -> Forall wellFormed es -> ok (foldl step st es).
Proof. revert st. induction es as [|e es IH]; intros st O H; [done|]. apply Forall_cons in H as [H1 H2]. cbn. by apply IH; [apply step_ok|]. Qed.

Lemma run_settled es st r : cp_settled st = Some r -> ok st -> Forall wellFormed es -> cp_settled (foldl step st es) = Some r.
Proof.
  revert st. induction es as [|e es IH]; intros st Hr O H; [done|]. apply Forall_cons in H as [H1 H2]. cbn.
  apply IH; [by apply step_settled|by apply step_ok|done].
Qed.

Lemma started_ok : ok started.
Proof. split; cbn; naive_solver. Qed.

(** Settled once, and by the deadline at the latest, whatever the child does: the answer
    after any events is the answer after any more of them, a passed deadline has one, it
    has a status exactly when it has no error, and only a call that ran out of time sends
    signals. *)
Theorem capture_settles es more :
  Forall wellFormed (es ++ more) ->
  let st := execCapture file timeout maxBuffer es in
  (forall r, cp_settled st = Some r ->
    cp_settled (execCapture file timeout maxBuffer (es ++ more)) = Some r /\ (ec_status r = None <-> is_Some (ec_error r))) /\
  (Deadline ∈ es -> is_Some (cp_settled st)).
Proof.
  intros H st. apply Forall_app in H as [H1 H2]. pose proof (run_ok es started started_ok H1) as O. split.
  - intros r Hr. split; [|by apply O]. unfold execCapture. rewrite foldl_app. by apply run_settled.
  - intros (a & b & ->)%list_elem_of_split. subst st. unfold execCapture in *. rewrite foldl_app in *. cbn [foldl] in *.
    apply Forall_app in H1 as [Ha [_ Hb]%Forall_cons]. pose proof (run_ok a started started_ok Ha) as Oa.
    set (st := foldl step started a) in *. assert (is_Some (cp_settled (step st Deadline))) as [r Hr].
    { cbn. destruct (cp_timer st) eqn:E; [|destruct (cp_settled st) eqn:E'; [done|]; rewrite (proj2 (ok_timer _ Oa) E') in E; done].
      unfold finish. cbn. rewrite (proj1 (ok_timer _ Oa) E). by eexists. }
    exists r. apply run_settled; [done|by apply step_ok|done].
Qed.

(** ** What is captured *)

Definition chunks (into_err : bool) (es : list event) : list string :=
  omap (fun e => match e with Data ie c => if Bool.eqb ie into_err then Some c else None | _ => None end) es.

Definition appendAll (cs : list string) (s : string) : string := foldl (append maxBuffer) s cs.

Lemma finish_texts status error st : cp_out (finish status error st) = cp_out st /\ cp_err (finish status error st) = cp_err st.
Proof. unfold finish. by destruct (cp_settled st). Qed.

Lemma step_texts st e :
  cp_out (step st e) = appendAll (chunks false [e]) (cp_out st) /\ cp_err (step st e) = appendAll (chunks true [e]) (cp_err st).
Proof.
  destruct e as [[] c| | |er|code sg]; cbn; try done.
  - destruct (cp_timer st); [|done]. by destruct (finish_texts None (Some (file +:+ " timed out after " +:+ pretty timeout +:+ "ms"))
      (State (cp_out st) (cp_err st) (cp_settled st) false true (cp_signals st ++ ["SIGTERM"]))) as [-> ->].
  - by destruct (cp_hard st).
  - by destruct (finish_texts None (Some er) st) as [-> ->].
  - destruct (truthy sg) as [s|]; [by destruct (finish_texts None (Some (file +:+ " killed with signal " +:+ s)) st) as [-> ->]|].
    by destruct (finish_texts code None st) as [-> ->].
Qed.

Lemma run_texts es st :
  cp_out (foldl step st es) = appendAll (chunks false es) (cp_out st) /\
  cp_err (foldl step st es) = appendAll (chunks true es) (cp_err st).
Proof.
  revert st. induction es as [|e es IH]; intros st; [done|]. cbn [foldl]. destruct (IH (step st e)) as [-> ->].
  destruct (step_texts st e) as [-> ->]. unfold chunks, appendAll. cbn [omap list_omap].
  destruct e as [[] c| | |er|code sg]; done.
Qed.

Lemma appendAll_spec cs s :
  exists kept dropped, cs = kept ++ dropped /\ appendAll cs s = s +:+ str_join "" kept /\
    (dropped <> [] -> (maxBuffer <= String.length (appendAll cs s))%nat) /\
    (forall n, (String.length s < maxBuffer + n)%nat -> Forall (fun c => (String.length c <= n)%nat) cs ->
       (String.length (appendAll cs s) < maxBuffer + n)%nat).
Proof.
  revert s. induction cs as [|c cs IH]; intros s.
  { exists [], []. cbn. rewrite app_empty_r. split; [done|]. split; [done|]. split; [done|]. intros. done. }
  cbn [appendAll foldl]. unfold appendAll in *. cbn [foldl]. destruct (String.length s <? maxBuffer)%nat eqn:E.
  - assert (append maxBuffer s c = s +:+ c) as -> by (unfold append; by rewrite E). destruct (IH (s +:+ c)) as (k & d & -> & H1 & H2 & H3). exists (c :: k), d. split; [done|]. split; [|split; [done|]].
    + rewrite H1. rewrite str_app_assoc. f_equal. destruct k as [|x k]; [cbn; by rewrite app_empty_r|]. by rewrite str_join_cons.
    + intros n Hn [Hc Hcs]%Forall_cons. apply H3; [|done]. apply Nat.ltb_lt in E. rewrite str_length_app. lia.
  - assert (append maxBuffer s c = s) as -> by (unfold append; by rewrite E).
    apply Nat.ltb_ge in E. assert (foldl (append maxBuffer) s cs = s) as Hs.
    { clear IH. induction cs as [|x cs IH]; [done|]. cbn. unfold append at 2. by rewrite (proj2 (Nat.ltb_ge _ _) E). }
    rewrite Hs. exists [], (c :: cs). split; [done|]. split; [cbn; by rewrite app_empty_r|]. split; [done|]. intros n Hn _. done.
Qed.

(** What is captured is the beginning of what was printed, whole chunks of it; something is
    left out only once the limit is reached, and the limit is exceeded by less than a chunk. *)
Theorem capture_bounded es n :
  Forall (fun c => (String.length c <= n)%nat) (chunks false es) -> (0 < maxBuffer + n)%nat ->
  let out := cp_out (execCapture file timeout maxBuffer es) in
  (String.length out < maxBuffer + n)%nat /\
  exists kept dropped, chunks false es = kept ++ dropped /\ out = str_join "" kept /\
    (dropped <> [] -> (maxBuffer <= String.length out)%nat).
Proof.
  intros H Hn out. subst out. unfold execCapture. destruct (run_texts es started) as [-> _].
  destruct (appendAll_spec (chunks false es) (cp_out started)) as (k & d & H1 & H2 & H3 & H4).
  split; [by apply H4|]. exists k, d. done.
Qed.

End Run.

(** ** What a health check reads *)

Lemma prefix_sep sub a c b :
  str_all (not_char c) sub = true -> String.prefix sub (a +:+ String c b) = true -> String.prefix sub a = true.
Proof.
  revert a. induction sub as [|x sub IH]; intros a Hs Hp; [by destruct a|]. cbn [str_all] in Hs. apply andb_prop in Hs as [Hx Hs].
  destruct a as [|y a]; rewrite ?app_empty_l, ?app_String in Hp; cbn in Hp |- *.
  - destruct (Ascii.ascii_dec x c) as [-> |]; [|done]. unfold not_char in Hx. by rewrite Ascii.eqb_refl in Hx.
  - destruct (Ascii.ascii_dec x y); [|done]. by apply IH.
Qed.

(** A word is not made across a separator it does not hold. *)
Lemma includes_sep sub a c b :
  str_all (not_char c) sub = true -> sub <> "" ->
  str_includes sub (a +:+ String c b) = str_includes sub a || str_includes sub b.
Proof.
  intros Hs Hne. assert (forall t, str_includes sub t = true -> str_includes sub a || str_includes sub b = true -> True) as _ by done.
  apply eq_true_iff_eq. rewrite orb_true_iff. split.
  - induction a as [|y a IH]; rewrite ?app_empty_l, ?app_String; cbn [str_includes].
    + intros [Hp|Hi]%orb_prop; [|by right]. destruct sub as [|x sub]; [done|]. cbn in Hp, Hs.
      destruct (Ascii.ascii_dec x c) as [-> |]; [|done]. unfold not_char in Hs. by rewrite Ascii.eqb_refl in Hs.
    + intros [Hp|Hi]%orb_prop.
      * left. change (String y (a +:+ String c b)) with (String y a +:+ String c b) in Hp. apply prefix_sep in Hp; [|done]. by rewrite Hp.
      * destruct (IH Hi) as [H|H]; [left|by right]. by rewrite H, orb_true_r.
  - intros [H|H]; [by apply str_includes_app_l|]. apply str_includes_app_r. cbn [str_includes]. by rewrite H, orb_true_r.
Qed.

Lemma str_map_app f a b : str_map f (a +:+ b) = str_map f a +:+ str_map f b.
Proof. induction a as [|c a IH]; rewrite ?app_String; cbn [str_map]; [by rewrite !app_empty_l|]. by rewrite app_String, IH. Qed.

(** The inspect of a rank's container, as the health check makes it. *)
Definition inspectOf (name : string) (r : ExecCapture) : Inspect.DgxrunInspect :=
  Inspect.classifyDockerInspect (ec_status r) (ec_stdout r) (ec_stderr r) name (ec_error r).

Lemma join_app a b : str_join "" (a ++ b) = str_join "" a +:+ str_join "" b.
Proof.
  induction a as [|x [|y a] IH]; [by rewrite app_empty_l| |].
  - destruct b as [|z b]; [by cbn; rewrite app_empty_r|]. cbn [app]. by rewrite str_join_cons.
  - cbn [app] in *. by rewrite !str_join_cons, IH, str_app_assoc.
Qed.

(** Docker's denial, in any case: there is no such object, or no such container. *)
Definition denial (text : string) : Prop :=
  str_includes "no such object" (str_lower text) = true \/
  str_includes "no such container" (str_lower text) = true.

(** No end of [sub] begins [b]: an occurrence of [sub] does not run into [b]. *)
Definition apart (sub b : string) : Prop :=
  forall n, (n < String.length sub)%nat -> String.prefix (str_drop n sub) b = false.

Lemma apart_tail x sub b : apart (String x sub) b -> apart sub b.
Proof. intros H n Hn. apply (H (S n)). cbn. lia. Qed.

Lemma prefix_apart sub a b : apart sub b -> String.prefix sub (a +:+ b) = String.prefix sub a.
Proof.
  revert sub. induction a as [|y a IH]; intros [|x sub] H; rewrite ?app_empty_l, ?app_String; try done.
  - by destruct b.
  - apply (H 0). cbn. lia.
  - cbn. destruct (Ascii.ascii_dec x y); [|done]. apply IH. by eapply apart_tail.
Qed.

Lemma includes_apart sub a b :
  apart sub b -> sub <> "" -> str_includes sub b = false ->
  str_includes sub (a +:+ b) = str_includes sub a.
Proof.
  intros H Hne Hb. induction a as [|y a IH].
  - rewrite app_empty_l, Hb. by destruct sub.
  - rewrite app_String. cbn [str_includes]. by rewrite <- (app_String y), prefix_apart, IH.
Qed.

Definition late : string := " docker timed out after 10000ms".

Lemma late_apart sub : sub = "no such object" \/ sub = "no such container" -> apart sub late.
Proof. intros [-> | ->] n Hn; cbn in Hn; repeat (destruct n as [|n]; [by vm_compute|try lia]). Qed.

(** The inspect that ran out of time reads as absent exactly on docker's denial. *)
Lemma late_inspect name out err :
  let i := Inspect.classifyDockerInspect None out err name (Some "docker timed out after 10000ms") in
  (i = Inspect.Absent <-> denial err) /\ (~ denial err -> exists reason, i = Inspect.Unknown reason).
Proof.
  cbv zeta. unfold Inspect.classifyDockerInspect, denial.
  change (err +:+ " " +:+ default "" (Some "docker timed out after 10000ms")) with (err +:+ late).
  unfold str_lower. rewrite str_map_app. change (str_map lower_char late) with late.
  rewrite !includes_apart by (done || apply late_apart; auto).
  destruct (str_includes "no such object" _), (str_includes "no such container" _); cbn [orb];
    (split; [split; [by auto|try done; by intros [|]]|]); intros H; try (by destruct H; auto); by eexists.
Qed.

(** C19: A docker that does not answer is not a container that is gone.  When the deadline
    passes before docker ends, the inspect of a rank is absent exactly when docker's own denial
    ("no such object" or "no such container", in any case) stands in what was captured of
    stderr by then, and unknown otherwise: whatever else docker printed, on stdout or stderr,
    and whatever it does afterwards.  What was captured is the beginning of what docker printed
    there; so nothing short of a denial printed in time reads as absent. *)
Theorem timed_out_inspect_unknown maxBuffer before after name :
  Forall wellFormed (before ++ Deadline :: after) ->
  cp_settled (execCapture "docker" 10000 maxBuffer before) = None ->
  exists r rest,
    cp_settled (execCapture "docker" 10000 maxBuffer (before ++ Deadline :: after)) = Some r /\
    str_join "" (chunks true before) = ec_stderr r +:+ rest /\
    (inspectOf name r = Inspect.Absent <-> denial (ec_stderr r)) /\
    (~ denial (ec_stderr r) -> exists reason, inspectOf name r = Inspect.Unknown reason) /\
    (~ denial (str_join "" (chunks true before)) -> inspectOf name r <> Inspect.Absent).
Proof.
  intros H Hn. apply Forall_app in H as [Hb [_ Ha]%Forall_cons].
  pose proof (run_ok "docker" 10000 maxBuffer before started started_ok Hb) as O.
  destruct (run_texts "docker" 10000 maxBuffer before started) as [_ He].
  destruct (appendAll_spec maxBuffer (chunks true before) "") as (kept & dropped & Hk & Hs & _).
  unfold execCapture in *. change (cp_err started) with "" in He. rewrite Hs, app_empty_l in He.
  set (st := foldl _ started before) in *. pose proof (proj2 (ok_timer _ O) Hn) as Ht.
  set (r := {| ec_status := None; ec_stdout := cp_out st; ec_stderr := cp_err st;
               ec_error := Some "docker timed out after 10000ms" |}).
  assert (cp_settled (onEvent "docker" 10000 maxBuffer st Deadline) = Some r) as Hr.
  { cbn [onEvent]. rewrite Ht. unfold finish. cbn [cp_settled]. rewrite Hn. reflexivity. }
  assert (str_join "" (chunks true before) = ec_stderr r +:+ str_join "" dropped) as Hp.
  { cbn [ec_stderr r]. rewrite He, Hk. apply join_app. }
  destruct (late_inspect name (cp_out st) (cp_err st)) as [Hiff Hun].
  exists r, (str_join "" dropped). split_and!; [|exact Hp|exact Hiff|exact Hun|].
  - rewrite foldl_app. cbn [foldl]. apply run_settled; [done| |done]. by apply step_ok.
  - intros Hd Habs. apply Hd. rewrite Hp. apply Hiff in Habs. unfold denial, str_lower in *.
    rewrite str_map_app. destruct Habs as [Ha'|Ha']; [left|right]; by apply str_includes_app_l.
Qed.

End CaptureFacts.

(** * An operator's command *)

Module ExecFacts.
Import Jobs.JobCap Exec.

(** The last event that ends a command: its close or its failure to start. *)
Definition ends (e : event) : bool := match e with Close _ | Error _ => true | _ => false end.

Definition isSettle (o : output) : bool := match o with Resolve _ | Reject _ => true | _ => false end.
Definition isAudit (o : output) : bool := match o with Audit _ => true | _ => false end.

Lemma settled_emits cmd args reason es st :
  ex_settled st = true -> Forall (fun o => isSettle o = false) (onEvents cmd args reason es st).
Proof.
  revert st. induction es as [|e es IH]; intros st Hs; [constructor|]. cbn [onEvents].
  destruct e as [|s d|code|er]; cbn [onEvent].
  - destruct (ex_timer st); cbn [app]; [constructor; [done|]|]; by apply IH.
  - constructor; [done|]. by apply IH.
  - unfold settle. rewrite Hs. cbn [app]. constructor; [done|]. by apply IH.
  - unfold settle. rewrite Hs. cbn [app]. by apply IH.
Qed.

Lemma quiet_emits cmd args reason es st :
  forallb (fun e => negb (ends e)) es = true ->
  Forall (fun o => isSettle o = false /\ isAudit o = false) (onEvents cmd args reason es st).
Proof.
  revert st. induction es as [|e es IH]; intros st H; [constructor|]. cbn in H. apply andb_prop in H as [He H]. cbn [onEvents].
  destruct e as [|s d|code|er]; cbn [onEvent]; try done.
  - destruct (ex_timer st); cbn [app]; [constructor; [done|]|]; by apply IH.
  - constructor; [done|]. by apply IH.
Qed.

(** Did the deadline pass? *)
Definition passed (es : list event) (st : state) : bool :=
  ex_timedOut st || ex_timer st && existsb (fun e => match e with Timer => true | _ => false end) es.

Lemma onEvents_app cmd args reason a e b st :
  forallb (fun x => negb (ends x)) a = true ->
  exists out st', onEvents cmd args reason (a ++ e :: b) st = out ++ (onEvent cmd args reason st' e).2 ++
      onEvents cmd args reason b (onEvent cmd args reason st' e).1 /\
    Forall (fun o => isSettle o = false /\ isAudit o = false) out /\ ex_settled st' = ex_settled st /\ ex_timedOut st' = passed a st.
Proof.
  revert st. induction a as [|x a IH]; intros st H.
  { exists [], st. cbn [app onEvents]. destruct (onEvent cmd args reason st e) as [st' os]. cbn [fst snd].
    split; [done|]. split; [constructor|]. split; [done|]. unfold passed. cbn. by rewrite andb_false_r, orb_false_r. }
  cbn in H. apply andb_prop in H as [Hx H]. cbn [app onEvents].
  destruct (onEvent cmd args reason st x) as [st1 os] eqn:E. destruct (IH st1 H) as (out & st' & -> & Hq & Hs & Ht).
  exists (os ++ out), st'. split; [by rewrite <- app_assoc|]. rewrite Hs, Ht. unfold passed.
  destruct x as [|s d|code|er]; cbn [onEvent] in E; try done.
  - destruct (ex_timer st) eqn:Et; injection E as <- <-; cbn; rewrite ?Et.
    + split; [by constructor|]. split; [done|]. by rewrite orb_true_r.
    + split; [done|]. by split.
  - injection E as <- <-. cbn. split; [by constructor|]. by split.
Qed.

(** One answer, one record.  A command without a name or a stated reason spawns
    nothing and is refused.  Any other is spawned with a deadline between a millisecond and
    five minutes, and up to its end settles exactly once: with its code, and with whether the
    deadline had passed, recorded under its reason, when it closes; with the error, and with
    no record, when it cannot be started; whatever comes later settles nothing. *)
Theorem exec_answers_once cmd args timeoutMs reason a e b :
  forallb (fun x => negb (ends x)) a = true -> ends e = true ->
  match handle cmd args timeoutMs reason (a ++ e :: b) with
  | (None, os) => (truthy cmd = None \/ str_trim (default "" reason) = "") /\ exists t, os = [Reject t]
  | (Some (c, args', deadline), os) =>
      cmd = Some c /\ args' = default [] args /\ (1 <= deadline <= 300000)%Z /\
      exists before after,
        os = before ++ (match e with
                        | Close code =>
                            [Audit {| ea_cmd := c; ea_args := args'; ea_reason := default "" reason; ea_code := code;
                                      ea_timedOut := bool_decide (Timer ∈ a) |};
                             Resolve {| er_code := code; er_timedOut := bool_decide (Timer ∈ a) |}]
                        | Error t => [Reject t]
                        | _ => []
                        end) ++ after /\
        Forall (fun o => isSettle o = false /\ isAudit o = false) before /\ Forall (fun o => isSettle o = false) after
  end.
Proof.
  intros Ha He. unfold handle, execPlan. destruct (truthy cmd) as [c|] eqn:Ec; [|cbn; split; [by left|by eexists]].
  cbn [of_option mbind result_bind]. destruct (truthy reason) as [r|] eqn:Er; cbn [of_option mbind result_bind].
  2:{ split; [right|by eexists]. by apply truthy_None in Er as [-> | ->]. }
  apply truthy_Some in Er as [-> Hr]. unfold guard_or. destruct (String.eqb_spec (str_trim r) "") as [Et|Et]; cbn [negb mbind result_bind].
  { split; [by right|by eexists]. }
  apply truthy_Some in Ec as [-> _]. split; [done|]. split; [done|]. split; [lia|]. change (default "" (Some r)) with r.
  destruct (onEvents_app c (default [] args) r a e b (State false true false) Ha) as (out & st' & -> & Hq & Hs & Ht).
  assert (ex_timedOut st' = bool_decide (Timer ∈ a)) as Htimer.
  { rewrite Ht. unfold passed. cbn. apply eq_true_iff_eq. rewrite existsb_exists, bool_decide_eq_true. setoid_rewrite <- list_elem_of_In.
    split; [intros (x & Hx & Hy); by destruct x|]. intros Hx. by exists Timer. }
  exists out. cbn in Hs. destruct e as [|s d|code|er]; try done; cbn [onEvent fst snd]; unfold settle; rewrite Hs, ?Htimer.
  - eexists. split; [reflexivity|]. split; [done|]. by apply settled_emits.
  - eexists. split; [reflexivity|]. split; [done|]. by apply settled_emits.
Qed.

End ExecFacts.

(** * The loop that drops the page cache *)

Module DropFacts.
Import DropCache.

(** The drops of a deployment that are still running. *)
Definition drops (id : string) (s : state) : nat :=
  size (filter (fun p : nat * string => p.2 = id) (running s)).

(** Does the event stop the deployment's loop? *)
Definition stopped (id : string) (s : state) (e : event) : bool :=
  match e with
  | Stop i => String.eqb i id
  | Cap n => bool_decide (timerOf n s = Some id)
  | _ => false
  end.
Fixpoint stops (awaits : bool) (id : string) (s : state) (es : list event) : nat :=
  match es with
  | [] => 0
  | e :: rest => (if stopped id s e then 1 else 0) + stops awaits id (onEvent awaits s e) rest
  end.

(** Numbers are given out in order, each once. *)
Record numbered (s : state) : Prop := {
  nb_drops : forall k, is_Some (running s !! k) -> (k < dropSeq s)%nat;
  nb_loops : forall id n, loops s !! id = Some n -> (n < loopSeq s)%nat;
  nb_inj : forall i j n, loops s !! i = Some n -> loops s !! j = Some n -> i = j }.

Lemma timerOf_Some n s id : timerOf n s = Some id -> loops s !! id = Some n.
Proof.
  unfold timerOf. destruct (js_find _ _) as [[i m]|] eqn:E; cbn; [|done]. intros [= <-].
  apply js_find_Some in E as [Hin Hm]. apply elem_of_map_to_list in Hin. by apply Nat.eqb_eq in Hm as <-.
Qed.

Lemma timerOf_None n s : timerOf n s = None <-> forall id, loops s !! id <> Some n.
Proof.
  unfold timerOf. rewrite fmap_None, js_find_None. split.
  - intros H id Hl. apply elem_of_map_to_list, H in Hl. cbn in Hl. by rewrite Nat.eqb_refl in Hl.
  - intros H [i m] Hin. apply elem_of_map_to_list in Hin. apply not_true_iff_false. intros Hm. apply Nat.eqb_eq in Hm. cbn in Hm. subst m.
    by apply (H i).
Qed.

Section Awaits.
Context (awaits : bool).
Notation step := (onEvent awaits).

Lemma unflag_numbered id s : numbered s -> numbered (unflag id s).
Proof. intros [H1 H2 H3]. by split. Qed.

Lemma tick_numbered id s : numbered s -> numbered (tick awaits id s).
Proof.
  intros H. unfold tick. destruct (bool_decide _); [done|].
  assert (numbered (State (loops s) ({[id]} ∪ inFlight s) (<[dropSeq s := id]> (running s)) (loopSeq s) (S (dropSeq s)))) as Hn.
  { destruct H as [H1 H2 H3]. split; cbn; [|done..]. intros k [v Hk]. apply lookup_insert_Some in Hk as [[<- _]|[_ Hk]]; [lia|].
    pose proof (H1 k ltac:(by eexists)). lia. }
  by destruct awaits; [|apply unflag_numbered].
Qed.

Lemma tick_loops id s : loops (tick awaits id s) = loops s /\ loopSeq (tick awaits id s) = loopSeq s.
Proof. unfold tick. destruct (bool_decide _); [done|]. by destruct awaits. Qed.

Lemma stop_numbered id s : numbered s -> numbered (stopDropCacheLoop id s).
Proof.
  intros H. unfold stopDropCacheLoop. apply (unflag_numbered id) in H. set (s' := unflag id s) in *. cbn [loops].
  destruct (loops s' !! id) as [l|]; [|done]. destruct H as [H1 H2 H3]. split; cbn; [done| |].
  - intros i m Hi. apply lookup_delete_Some in Hi as [_ Hi]. by apply (H2 i).
  - intros i j m Hi Hj. apply lookup_delete_Some in Hi as [_ Hi], Hj as [_ Hj]. by apply (H3 i j m).
Qed.

Lemma step_numbered s e : numbered s -> numbered (step s e).
Proof.
  intros H. destruct e as [id|n|n|k|id]; cbn [onEvent].
  - unfold startDropCacheLoop. destruct (loops s !! id) eqn:E; [done|]. pose proof (tick_numbered id s H) as [H1 H2 H3].
    destruct (tick_loops id s) as [El Eq]. rewrite El, Eq in *. split; cbn; [done| |].
    + intros i n Hi. apply lookup_insert_Some in Hi as [[_ <-]|[_ Hi]]; [lia|]. pose proof (H2 i n Hi). lia.
    + intros i j n Hi Hj. apply lookup_insert_Some in Hi as [[<- <-]|[_ Hi]], Hj as [[<- E2]|[_ Hj]]; try done.
      * pose proof (H2 _ _ Hj). lia.
      * subst n. pose proof (H2 _ _ Hi). lia.
      * by apply (H3 i j n).
  - destruct (timerOf n s); [by apply tick_numbered|done].
  - destruct (timerOf n s); [by apply stop_numbered|done].
  - destruct (running s !! k) as [id|] eqn:E; [|done].
    assert (numbered (State (loops s) (inFlight s) (delete k (running s)) (loopSeq s) (dropSeq s))) as Hn.
    { destruct H as [H1 H2 H3]. split; cbn; [|done..]. intros j [v Hj]. apply lookup_delete_Some in Hj as [_ Hj]. apply H1. by eexists. }
    by destruct awaits; [apply unflag_numbered|].
  - by apply stop_numbered.
Qed.

Lemma idle_numbered : numbered idle.
Proof. split; cbn; [intros k [v Hv]| |]; set_solver. Qed.

Lemma stop_loops id s : loops (stopDropCacheLoop id s) = delete id (loops s).
Proof.
  unfold stopDropCacheLoop. cbn [loops unflag]. destruct (loops s !! id) eqn:E; [done|]. cbn. by rewrite delete_id.
Qed.

Lemma step_dead n s e : timerOf n s = None -> (n < loopSeq s)%nat -> timerOf n (step s e) = None /\ (n < loopSeq (step s e))%nat.
Proof.
  intros Hn Hl. rewrite timerOf_None in Hn. destruct e as [id|m|m|k|id]; cbn [onEvent].
  - unfold startDropCacheLoop. destruct (loops s !! id) eqn:E; [by rewrite timerOf_None|]. destruct (tick_loops id s) as [El Eq].
    rewrite timerOf_None. cbn. rewrite El, Eq. split; [|lia]. intros i Hi. apply lookup_insert_Some in Hi as [[_ Hi]|[_ Hi]]; [lia|].
    by apply (Hn i).
  - destruct (timerOf m s) as [id|]; [|by rewrite timerOf_None]. destruct (tick_loops id s) as [El Eq].
    by rewrite timerOf_None, El, Eq.
  - destruct (timerOf m s) as [id|]; [|by rewrite timerOf_None]. rewrite timerOf_None, stop_loops. split.
    + intros i Hi. apply lookup_delete_Some in Hi as [_ Hi]. by apply (Hn i).
    + unfold stopDropCacheLoop. cbn [loops unflag]. by destruct (loops s !! id).
  - destruct (running s !! k); [|by rewrite timerOf_None]. rewrite timerOf_None. by destruct awaits.
  - rewrite timerOf_None, stop_loops. split.
    + intros i Hi. apply lookup_delete_Some in Hi as [_ Hi]. by apply (Hn i).
    + unfold stopDropCacheLoop. cbn [loops unflag]. by destruct (loops s !! id).
Qed.

(** The timers of a stopped loop are gone for good: neither its interval nor its backstop
    touches the loop that the deployment's next launch starts. *)
Lemma stopped_timers_dead before id n after :
  timerOf n (runLoop awaits before) = Some id ->
  timerOf n (runLoop awaits (before ++ Stop id :: after)) = None.
Proof.
  intros H. unfold runLoop in *. rewrite foldl_app. cbn [foldl onEvent].
  assert (numbered (foldl step idle before)) as Hn.
  { clear H. enough (forall s, numbered s -> numbered (foldl step s before)) as He by (apply He, idle_numbered).
    induction before as [|e es IH]; intros s Hs; [done|]. cbn. by apply IH, step_numbered. }
  set (s := foldl step idle before) in *. apply timerOf_Some in H.
  assert (timerOf n (stopDropCacheLoop id s) = None /\ (n < loopSeq (stopDropCacheLoop id s))%nat) as H0.
  { rewrite timerOf_None, stop_loops. split.
    - intros i Hi. apply lookup_delete_Some in Hi as [Hne Hi]. by apply Hne, (nb_inj _ Hn id i n).
    - unfold stopDropCacheLoop. cbn [loops unflag]. rewrite H. cbn. by apply (nb_loops _ Hn id). }
  generalize dependent (stopDropCacheLoop id s). clear. induction after as [|e es IH]; intros s [H1 H2]; [done|]. cbn.
  apply IH. by apply step_dead.
Qed.

End Awaits.

Lemma drops_insert id i k s l r t fl :
  running s !! k = None ->
  drops id (State l fl (<[k := i]> (running s)) r t) = ((if decide (i = id) then 1 else 0) + drops id s)%nat.
Proof.
  intros Hk. unfold drops. cbn [running]. rewrite map_filter_insert. cbn [snd]. destruct (decide (i = id)).
  - rewrite map_size_insert_None; [done|]. apply map_lookup_filter_None. by left.
  - by rewrite delete_id by done.
Qed.

Lemma drops_delete id i k s l r t fl :
  running s !! k = Some i ->
  drops id s = ((if decide (i = id) then 1 else 0) + drops id (State l fl (delete k (running s)) r t))%nat.
Proof.
  intros Hk. rewrite <- (drops_insert id i k (State l fl (delete k (running s)) r t) (loops s) (loopSeq s) (dropSeq s) (inFlight s)).
  - cbn. rewrite insert_delete_eq, insert_id by done. by destruct s.
  - apply lookup_delete_eq.
Qed.

(** What may run: one drop while the deployment is flagged, and one more per stop. *)
Definition room (id : string) (s : state) (n : nat) : Prop :=
  (drops id s <= (if decide (id ∈ inFlight s) then 1 else 0) + n)%nat.

Lemma tick_room id i s n : numbered s -> room id s n -> room id (tick true i s) n.
Proof.
  intros Hn H. unfold tick. destruct (bool_decide_reflect (i ∈ inFlight s)) as [|Hf]; [done|]. unfold room in *.
  rewrite drops_insert. 2:{ destruct (running s !! dropSeq s) eqn:E; [|done]. pose proof (nb_drops _ Hn (dropSeq s) ltac:(by eexists)). lia. }
  cbn [inFlight]. destruct (decide (i = id)) as [-> |Hi].
  - rewrite decide_False in H by done. rewrite decide_True by set_solver. lia.
  - destruct (decide (id ∈ inFlight s)); [rewrite decide_True by set_solver|rewrite decide_False by set_solver]; lia.
Qed.

Lemma stop_room id i s n :
  room id s n -> room id (stopDropCacheLoop i s) ((if String.eqb i id then 1 else 0) + n).
Proof.
  intros H. unfold room in *. assert (drops id (stopDropCacheLoop i s) = drops id s) as ->.
  { unfold stopDropCacheLoop. cbn [loops unflag]. by destruct (loops s !! i). }
  assert (inFlight (stopDropCacheLoop i s) = inFlight s ∖ {[i]}) as ->.
  { unfold stopDropCacheLoop. cbn [loops unflag]. by destruct (loops s !! i). }
  destruct (String.eqb_spec i id) as [-> |Hi].
  - destruct (decide (id ∈ inFlight s)); rewrite decide_False by set_solver; lia.
  - destruct (decide (id ∈ inFlight s)); [rewrite decide_True by set_solver|rewrite decide_False by set_solver]; lia.
Qed.

Lemma step_room id s e n :
  numbered s -> room id s n -> room id (onEvent true s e) ((if stopped id s e then 1 else 0) + n).
Proof.
  intros Hn H. destruct e as [i|m|m|k|i]; cbn [onEvent stopped].
  - unfold startDropCacheLoop. destruct (loops s !! i); [done|]. by apply (tick_room id i) in H.
  - destruct (timerOf m s) as [i|]; [by apply tick_room|done].
  - destruct (timerOf m s) as [i|] eqn:E; [|by rewrite bool_decide_false].
    replace (bool_decide (Some i = Some id)) with (String.eqb i id); [by apply stop_room|].
    destruct (String.eqb_spec i id) as [-> |Hi]; [by rewrite bool_decide_true|rewrite bool_decide_false; congruence].
  - destruct (running s !! k) as [i|] eqn:E; [|done]. unfold room in *.
    rewrite (drops_delete id i k s (loops s) (loopSeq s) (dropSeq s) (inFlight s) E) in H.
    unfold drops in *. cbn [running unflag inFlight] in *. destruct (decide (i = id)) as [-> |Hi].
    + rewrite decide_False by set_solver. destruct (decide (id ∈ inFlight s)); lia.
    + destruct (decide (id ∈ inFlight s)); [rewrite decide_True by set_solver|rewrite decide_False by set_solver]; lia.
  - by apply stop_room.
Qed.

(** Drops overlap once per stop.  With a drop that says when it ended, over every run of
    starts, ticks, ends, stops and backstops, a deployment's drops that run at once are one,
    and one more for each time its loop was stopped: a stop forgets the drop in flight. *)
Theorem drops_overlap id es :
  (drops id (runLoop true es) <= 1 + stops true id idle es)%nat.
Proof.
  enough (forall s n, numbered s -> room id s n -> (drops id (foldl (onEvent true) s es) <= 1 + (stops true id s es + n))%nat) as H.
  { specialize (H idle 0%nat idle_numbered). unfold runLoop. unfold room, drops in H. cbn in H.
    rewrite map_filter_empty, map_size_empty in H. specialize (H ltac:(lia)). unfold drops. lia. }
  induction es as [|e es IH]; intros s n Hn Hr; cbn [foldl stops].
  - unfold room in Hr. destruct (decide _); lia.
  - pose proof (step_room id s e n Hn Hr) as H1. apply (step_numbered true s e) in Hn.
    specialize (IH _ _ Hn H1). lia.
Qed.

(** The drop the agent runs says it ended when it began: no tick is ever skipped, and drops
    pile up as long as they last. *)
Theorem default_drop_never_skips es n id :
  timerOf n (runLoop false es) = Some id ->
  drops id (runLoop false (es ++ [Tick n])) = S (drops id (runLoop false es)).
Proof.
  intros H. unfold runLoop in *. rewrite foldl_app. cbn [foldl onEvent].
  assert (numbered (foldl (onEvent false) idle es) /\ inFlight (foldl (onEvent false) idle es) = ∅) as [Hn Hf].
  { clear H. enough (forall s, numbered s -> inFlight s = ∅ -> numbered (foldl (onEvent false) s es) /\ inFlight (foldl (onEvent false) s es) = ∅) as He
      by (apply He; [apply idle_numbered|done]).
    induction es as [|e es IH]; intros s Hs Hf; [done|]. cbn. apply IH; [by apply step_numbered|].
    assert (forall i s, inFlight s = ∅ -> inFlight (tick false i s) = ∅) as Ht.
    { intros i s' Hs'. unfold tick. destruct (bool_decide _); [done|]. cbn. set_solver. }
    assert (forall i s, inFlight s = ∅ -> inFlight (stopDropCacheLoop i s) = ∅) as Hst.
    { intros i s' Hs'. unfold stopDropCacheLoop. cbn [loops unflag]. destruct (loops s' !! i); cbn; set_solver. }
    destruct e as [i|m|m|k|i]; cbn [onEvent].
    - unfold startDropCacheLoop. destruct (loops s !! i); [done|]. cbn [inFlight]. by apply Ht.
    - destruct (timerOf m s); [by apply Ht|done].
    - destruct (timerOf m s); [by apply Hst|done].
    - by destruct (running s !! k).
    - by apply Hst. }
  rewrite H. unfold tick. rewrite Hf, bool_decide_false by set_solver. unfold unflag, drops. cbn [running].
  pose proof (drops_insert id id (dropSeq (foldl (onEvent false) idle es)) (foldl (onEvent false) idle es) ∅ 0%nat 0%nat ∅) as Hd.
  unfold drops in Hd. cbn [running] in Hd. rewrite Hd; [by rewrite decide_True|].
  destruct (running _ !! dropSeq _) eqn:E; [|done]. pose proof (nb_drops _ Hn _ ltac:(by eexists)). lia.
Qed.

End DropFacts.

(** * The audit, the shared container, power *)

Module ReportFacts.
Import AgentTools.Audit Shared.

(** The checks as the message carries them. *)
Definition statusName (a : Firewall.audit) : string :=
  match a with Firewall.Green => "green" | Firewall.Yellow => "yellow" | Firewall.Red => "red" end.
Definition wire (r : SelfAuditReport) : list AgentHub.auditCheck :=
  map (fun c => {| AgentHub.ac_name := sc_name c; AgentHub.ac_status := statusName (sc_status c) |}) (sr_checks r).

Lemma probe_name name out detail bad missing : sc_name (probe name out detail bad missing) = name.
Proof. unfold probe. by destruct (truthy out). Qed.

Lemma probe_green name out detail bad missing :
  bad <> Firewall.Green ->
  String.eqb (statusName (sc_status (probe name out detail bad missing))) "green" = bool_decide (is_Some (truthy out)).
Proof. intros Hb. unfold probe. destruct (truthy out); [done|]. by destruct bad. Qed.

(** The manager finds what the agent meant: the flags it keeps of a node's Docker and
    Ollama are whether the commands answered, and a firewall check is never taken for the one
    of Ollama. *)
Theorem audit_as_recorded run version host fw :
  let checks := wire (selfAudit run version host fw) in
  AgentHub.checkGreen checks "Docker" = bool_decide (is_Some (truthy (run "docker --version"))) /\
  AgentHub.checkGreen checks "Ollama" =
    match truthy (run "ollama --version 2>&1 | head -1") with
    | Some o => negb (str_includes "not found" (str_lower o))
    | None => false
    end /\
  AgentHub.checkGreen checks "Ollama Firewall" = match firewallAuditCheck fw with Firewall.Green => true | _ => false end.
Proof.
  cbn zeta. unfold wire, selfAudit. set (ollama := match truthy _ with Some _ => _ | None => None end).
  unfold AgentHub.checkGreen. cbn [sr_checks map]. cbn [js_find AgentHub.ac_name AgentHub.ac_status sc_name sc_status fmap option_fmap option_map].
  rewrite !probe_name. cbn [String.eqb Ascii.eqb Bool.eqb AgentHub.ac_status fmap option_fmap option_map AgentHub.ac_name].
  rewrite !probe_green by done. split; [done|]. split; [|by destruct (firewallAuditCheck fw)].
  subst ollama. destruct (truthy (run "ollama --version 2>&1 | head -1")) as [o|] eqn:E; [|done].
  destruct (str_includes "not found" (str_lower o)); [done|]. apply truthy_Some in E as [_ E]. by destruct o.
Qed.

Lemma later_spec ds d :
  foldl later d ds ∈ d :: ds /\ forall x, x ∈ d :: ds -> str_le x.2 (foldl later d ds).2 = true.
Proof.
  revert d. induction ds as [|e ds IH]; intros d; cbn [foldl].
  - split; [left|]. intros x ->%list_elem_of_singleton. by destruct (str_le_total d.2 d.2).
  - destruct (IH (later d e)) as [H1 H2]. assert (later d e = d \/ later d e = e) as Hl by (unfold later; destruct (String.leb _ _); auto).
    assert (str_le d.2 (later d e).2 = true /\ str_le e.2 (later d e).2 = true) as [Hd He].
    { unfold later. destruct (String.leb e.2 d.2) eqn:E.
      - split; [by destruct (str_le_total d.2 d.2)|done].
      - destruct (str_le_total d.2 e.2) as [H|H]; [|unfold str_le in H; congruence]. split; [done|]. by destruct (str_le_total e.2 e.2). }
    split.
    + apply elem_of_cons in H1 as [->|H1]; [|by do 2 right]. destruct Hl as [-> | ->]; [left|right; left].
    + intros x [->|[->|Hx]%elem_of_cons]%elem_of_cons; [eapply str_le_trans; [exact Hd|]|eapply str_le_trans; [exact He|]|];
        apply H2; [left|left|by right].
Qed.

(** The owner of the shared container is a tracked deployment that none started after. *)
Lemma owner_is_latest tracked id :
  selectContainerOwnerId tracked = Some id ->
  exists at_, (id, at_) ∈ tracked /\ forall d, d ∈ tracked -> str_le d.2 at_ = true.
Proof.
  destruct tracked as [|d ds]; [done|]. intros [= <-]. destruct (later_spec ds d) as [H1 H2].
  exists (foldl later d ds).2. split; [by destruct (foldl later d ds)|done].
Qed.

(** The agent and the manager's SSH fallback send a node down the same way. *)
Lemma agent_power_command a force : PowerCmd.powerCommand a force = NodeOps.Power.powerCommand a force.
Proof. by destruct a, force. Qed.

End ReportFacts.

(** * Examples *)

Module Examples.
Import CaptureFacts Capture.

Definition hanging : list event := [Data false "runn"; Data true "dial tcp: no such host"; Deadline; HardDeadline; Close None (Some "SIGKILL")].

Example inspect_hangs :
  let st := execCapture "docker" 10000 1048576 hanging in
  (ec_error <$> cp_settled st) = Some (Some "docker timed out after 10000ms") /\ cp_signals st = ["SIGTERM"; "SIGKILL"] /\
  (inspectOf "dgxrun-d" <$> cp_settled st) = Some (Inspect.Unknown "docker timed out after 10000ms").
Proof. by vm_compute. Qed.

Example limit_is_exceeded_by_a_chunk : cp_out (execCapture "docker" 10000 4 [Data false "abc"; Data false "defgh"; Data false "i"]) = "abcdefgh".
Proof. reflexivity. Qed.

Lemma timed_out_inspect_unknown_witness : exists r reason,
  cp_settled (execCapture "docker" 10000 1048576 hanging) = Some r /\ inspectOf "dgxrun-d" r = Inspect.Unknown reason.
Proof.
  destruct (timed_out_inspect_unknown 1048576 [Data false "runn"; Data true "dial tcp: no such host"] [HardDeadline; Close None (Some "SIGKILL")] "dgxrun-d")
    as (r & rest & Hr & Hp & _ & Hun & _).
  - repeat constructor; by eexists.
  - reflexivity.
  - vm_compute in Hr. injection Hr as <-. destruct Hun as [reason H]; [intros [H|H]; vm_compute in H; discriminate|].
    eexists _, reason. split; [reflexivity|exact H].
Defined.

Lemma exec_answers_once_witness :
  match Exec.handle (Some "sleep") (Some ["9"]) (Some 0%Z) (Some "drain") [Exec.Chunk "stdout" "x"; Exec.Timer; Exec.Close None; Exec.Error "late"] with
  | (None, os) => (truthy (Some "sleep") = None \/ str_trim "drain" = "") /\ exists t, os = [Exec.Reject t]
  | (Some (c, args', deadline), os) =>
      Some "sleep" = Some c /\ args' = ["9"] /\ (1 <= deadline <= 300000)%Z /\
      exists before after,
        os = before ++ [Exec.Audit (Exec.Build_ExecAudit c args' "drain" None true); Exec.Resolve (Exec.Build_ExecResult None true)] ++ after /\
        Forall (fun o => ExecFacts.isSettle o = false /\ ExecFacts.isAudit o = false) before /\ Forall (fun o => ExecFacts.isSettle o = false) after
  end.
Proof.
  apply (ExecFacts.exec_answers_once (Some "sleep") (Some ["9"]) (Some 0%Z) (Some "drain")
    [Exec.Chunk "stdout" "x"; Exec.Timer] (Exec.Close None) [Exec.Error "late"]); reflexivity.
Defined.

(** A drop that outlives its loop runs beside the next launch's, and its end unflags that
    one's: two at once, after one stop. *)
Example drops_twice :
  let es := [DropCache.Start "d"; DropCache.Stop "d"; DropCache.Start "d"; DropCache.DropEnds 0; DropCache.Tick 1] in
  DropFacts.drops "d" (DropCache.runLoop true es) = 2%nat /\ DropFacts.stops true "d" DropCache.idle es = 1%nat.
Proof. by vm_compute. Qed.

Example default_piles_up :
  DropFacts.drops "d" (DropCache.runLoop false [DropCache.Start "d"; DropCache.Tick 0; DropCache.Tick 0; DropCache.Tick 0]) = 4%nat.
Proof. by vm_compute. Qed.

End Examples.
