(* ===== verification/SysInfo.v ===== *)
(** What a node says about itself ([agent/metrics.ts], [agent/sysinfo/*.ts]) and what the
    manager keeps of it ([server/metrics-buffer.ts], [server/metric-retention.ts]): the
    readings of /proc, in [Proc]; rates between two readings, in [Rates]; the GPU and the
    whole sample, in [Sample]; the manager's window and its clean-up, in [Buffer] and
    [Retention].

    Files and commands are arguments, [None] when they cannot be read; the clock too. *)
From S2P Require Import Prelude JsNum AgentHealth TrainParse NodeOps.
Import AgentHealth.Lines.

Module Proc.

(** A match of a pattern that starts with [^], with the multiline flag: the first line
    start at which [f] matches. *)
Fixpoint lineMatch {A} (f : string -> option A) (at_start : bool) (s : string) : option A :=
  match (if at_start then f s else None) with
  | Some v => Some v
  | None => match s with
            | String c r => lineMatch f (Ascii.eqb c nl || Ascii.eqb c cr) r
            | EmptyString => None
            end
  end.

(** [key:\s+(\d+)\s+kB] *)
Definition kbAt (key s : string) : option Z :=
  s ← eat (key +:+ ":") s; '(_, s) ← span1 is_ws s; '(d, s) ← span1 is_digit s; '(_, s) ← span1 is_ws s;
  _ ← eat "kB" s; Some (Parse.parseDigits d).

(** [Math.round(kb / 1024)] *)
Definition toMb (kb : Z) : Z := round_q (inject_Z kb / inject_Z 1024).
Definition kb (text key : string) : Z :=
  match lineMatch (kbAt key) true text with Some v => toMb v | None => 0 end.

Record MemoryInfo := { mi_totalMb : Z; mi_availableMb : Z; mi_freeMb : Z; mi_cachedMb : Z; mi_swapTotalMb : Z; mi_swapFreeMb : Z }.
Definition parseMeminfo (text : string) : MemoryInfo :=
  {| mi_totalMb := kb text "MemTotal"; mi_availableMb := kb text "MemAvailable"; mi_freeMb := kb text "MemFree";
     mi_cachedMb := kb text "Cached"; mi_swapTotalMb := kb text "SwapTotal"; mi_swapFreeMb := kb text "SwapFree" |}.

Definition is_num_char (c : ascii) : bool := is_digit c || Ascii.eqb c ".".
(** [\s+name=([\d.]+)] *)
Definition avgAt (name s : string) : option (num * string) :=
  '(_, s) ← span1 is_ws s; s ← eat (name +:+ "=") s; '(d, s) ← span1 is_num_char s; Some (Parse.parseFloat d, s).

Record PsiLine := { psi_avg10 : num; psi_avg60 : num; psi_avg300 : num; psi_total : Z }.
Record Pressure := { ps_some : PsiLine; ps_full : option PsiLine }.

Definition psiAt (kind s : string) : option PsiLine :=
  s ← eat kind s; '(a, s) ← avgAt "avg10" s; '(b, s) ← avgAt "avg60" s; '(c, s) ← avgAt "avg300" s;
  '(_, s) ← span1 is_ws s; s ← eat "total=" s; '(t, _) ← span1 is_digit s;
  Some {| psi_avg10 := a; psi_avg60 := b; psi_avg300 := c; psi_total := Parse.parseDigits t |}.
Definition psiLine (text kind : string) : option PsiLine := lineMatch (psiAt kind) true text.

Definition parsePressure (text : string) : Pressure :=
  {| ps_some := default {| psi_avg10 := zn 0; psi_avg60 := zn 0; psi_avg300 := zn 0; psi_total := 0 |} (psiLine text "some");
     ps_full := psiLine text "full" |}.

(** [text.trim().split(/\s+/)] *)
Definition fieldsOf (text : string) : list string :=
  match List.filter (fun w => negb (String.eqb w "")) (str_split " " (str_map (fun c => if is_ws c then " "%char else c) text)) with
  | [] => [""]
  | ws => ws
  end.

(** [parseInt(s, 10) || 0], [parseFloat(s) || 0] *)
Definition intOr0 (s : option string) : Z := match s with Some s => Power.segment s | None => 0 end.
Definition floatOr0 (s : option string) : num :=
  match s with
  | Some s => let n := Parse.parseFloat (trim_left s) in if num_truthy n then n else zn 0
  | None => zn 0
  end.

Record LoadInfo := { li_load1 : num; li_load5 : num; li_load15 : num; li_runnable : Z; li_totalProcs : Z }.
Definition parseLoadavg (text : string) : LoadInfo :=
  let p := fieldsOf text in
  let rt := str_split "/" (default "0/0" (p !! 3)) in
  {| li_load1 := floatOr0 (p !! 0); li_load5 := floatOr0 (p !! 1); li_load15 := floatOr0 (p !! 2);
     li_runnable := intOr0 (rt !! 0); li_totalProcs := intOr0 (rt !! 1) |}.

Record FdInfo := { fd_allocated : Z; fd_max : Z }.
Definition parseFileNr (text : string) : FdInfo :=
  let p := fieldsOf text in {| fd_allocated := intOr0 (p !! 0); fd_max := intOr0 (p !! 2) |}.

Definition TCP_STATES : list (string * string) :=
  [("01", "ESTABLISHED"); ("02", "SYN_SENT"); ("03", "SYN_RECV"); ("04", "FIN_WAIT1"); ("05", "FIN_WAIT2");
   ("06", "TIME_WAIT"); ("07", "CLOSE"); ("08", "CLOSE_WAIT"); ("09", "LAST_ACK"); ("0A", "LISTEN"); ("0B", "CLOSING")].

Definition upper_char (c : ascii) : ascii := if is_lower c then ascii_of_N (code c - 32) else c.
Definition str_upper : string -> string := str_map upper_char.

(** [port.toString(16).toUpperCase().padStart(4, "0")] of a port: four digits. *)
Definition hexDigit (n : N) : ascii := ascii_of_N (if (n <? 10)%N then 48 + n else 55 + n).
Definition hexPort (port : N) : string :=
  String (hexDigit (port / 4096)) (String (hexDigit (port / 256 mod 16)) (String (hexDigit (port / 16 mod 16)) (String (hexDigit (port mod 16)) ""))).

(** The state of a row whose local port it is. *)
Definition rowState (port : N) (line : string) : option string :=
  let cols := fieldsOf line in
  if (length cols <? 4)%nat then None
  else
    c1 ← cols !! 1; c3 ← cols !! 3;
    lp ← str_split ":" c1 !! 1;
    if String.eqb (str_upper lp) (hexPort port) then Some (default c3 (al_get TCP_STATES (str_upper c3))) else None.

Definition tally (out : gmap string nat) (st : string) : gmap string nat := <[st := S (default 0 (out !! st))]> out.
Definition parseProcNetTcpByPort (text : string) (port : N) : gmap string nat :=
  foldl tally ∅ (omap (rowState port) (str_split nl text)).

(** [readSysInfo]; [readText]: a file's text, [thermal]: the names under the thermal class. *)
Record SysReadings := {
  sy_memory : MemoryInfo; sy_cpu : Pressure; sy_mem : Pressure; sy_io : Pressure; sy_load : LoadInfo; sy_fds : FdInfo;
  sy_sshd : gmap string nat; sy_thermalsC : list Z }.

Definition addCounts (a b : gmap string nat) : gmap string nat := union_with (fun x y => Some (x + y)%nat) a b.
Definition toC (raw : string) : Z := round_q (inject_Z (Power.segment raw) / inject_Z 1000).

Definition readSysInfo (readText : string -> option string) (thermal : option (list string)) : SysReadings :=
  let safe p := default "" (readText p) in
  {| sy_sshd := addCounts (parseProcNetTcpByPort (safe "/proc/net/tcp") 22) (parseProcNetTcpByPort (safe "/proc/net/tcp6") 22);
     sy_thermalsC :=
       List.filter (fun n => (0 <? n)%Z)
         (map (fun d => toC (safe ("/sys/class/thermal/" +:+ d +:+ "/temp")))
            (List.filter (String.prefix "thermal_zone") (default [] thermal)));
     sy_memory := parseMeminfo (safe "/proc/meminfo");
     sy_cpu := parsePressure (safe "/proc/pressure/cpu");
     sy_mem := parsePressure (safe "/proc/pressure/memory");
     sy_io := parsePressure (safe "/proc/pressure/io");
     sy_load := parseLoadavg (safe "/proc/loadavg");
     sy_fds := parseFileNr (safe "/proc/sys/fs/file-nr") |}.

Record Diag := { dg_sys : SysReadings; dg_pidCount : nat; dg_kmsgTail : list string; dg_gpu : option string }.

(** [procs]: the names under /proc; the probe's failure is no GPU. *)
Definition collectDiag (readText : string -> option string) (thermal procs : option (list string)) (gpu : option string) : Diag :=
  {| dg_sys := readSysInfo readText thermal;
     dg_pidCount := length (List.filter (fun d => negb (String.eqb d "") && str_all is_digit d) (default [] procs));
     dg_kmsgTail := []; dg_gpu := str_trim <$> gpu |}.

End Proc.

Module Rates.
Import Proc.

Record rate := { rt_name : string; rt_rx : num; rt_tx : num }.
Definition counters := (num * num * Z)%type.

(** [Math.round((rx - prev.rx) / elapsed)], [elapsed] in seconds. *)
Definition perSec (unit : Z) (now prev : num) (ms : Z) : num :=
  num_round (num_mul (num_mul (num_sub now prev) (zn unit)) (Fin (inject_Z 1000 / inject_Z ms))).

(** One device's reading, in units of so many bytes. *)
Definition sampleOne (unit : Z) (time : Z) (acc : list rate * gmap string counters) (r : string * (num * num)) :
    list rate * gmap string counters :=
  let '(name, (rx, tx)) := r in
  let rates := match acc.2 !! name with
    | Some (prx, ptx, t) =>
        if (0 <? time - t)%Z then [{| rt_name := name; rt_rx := perSec unit rx prx (time - t); rt_tx := perSec unit tx ptx (time - t) |}]
        else []
    | None => []
    end in
  (acc.1 ++ rates, <[name := (rx, tx, time)]> acc.2).

Definition sampleAll (unit time : Z) (readings : list (string * (num * num))) (prev : gmap string counters) :
    list rate * gmap string counters :=
  foldl (sampleOne unit time) ([], prev) readings.

Definition IGNORED_IFACE_PREFIXES : list string := ["lo"; "docker"; "br-"; "veth"; "wl"].

(** [out]: the second column of [ip -4 -o addr show]. *)
Definition getActiveInterfaces (out : option string) : list string :=
  match out with
  | None => []
  | Some o => List.filter (fun n => negb (String.eqb n "") && negb (existsb (fun p => String.prefix p n) IGNORED_IFACE_PREFIXES))
                (map str_trim (str_split nl (str_trim o)))
  end.

(** [parseInt(text.trim())] of a counter. *)
Definition parseCount (s : string) : num :=
  let t := str_trim s in
  let '(neg, u) := match t with String "-" r => (true, r) | String "+" r => (false, r) | _ => (false, t) end in
  let '(v, n, _) := digits 10 0 0 u in
  if (n =? 0)%nat then NaN else zn (if neg : bool then - v else v)%Z.

(** The devices both of whose files can be read. *)
Definition readBoth (read : string -> string -> option string) (rxFile txFile : string) (names : list string) :
    list (string * (num * num)) :=
  omap (fun n => rx ← read n rxFile; tx ← read n txFile; Some (n, (parseCount rx, parseCount tx))) names.

Definition collectNetworkMetrics (out : option string) (read : string -> string -> option string) (now : Z)
    (prev : gmap string counters) : list rate * gmap string counters :=
  sampleAll 1 now (readBoth read "rx_bytes" "tx_bytes" (getActiveInterfaces out)) prev.

(** The counters of InfiniBand are in words of four bytes. *)
Definition collectRdmaMetrics (devs : option (list string)) (read : string -> string -> option string) (now : Z)
    (prev : gmap string counters) : list rate * gmap string counters :=
  let scaled := map (fun r : string * (num * num) => (r.1, (num_mul r.2.1 (zn 4), num_mul r.2.2 (zn 4))))
                  (readBoth read "port_rcv_data" "port_xmit_data" (default [] devs)) in
  sampleAll 1 now scaled prev.

(** [/^(nvme\d+n\d+|sd[a-z]+|md\d+)$/] *)
Definition digitsOnly (s : string) : bool := negb (String.eqb s "") && str_all is_digit s.
Definition DISK_DEVICE_RE (s : string) : bool :=
  match eat "nvme" s with
  | Some t => match span1 is_digit t with Some (_, String "n" u) => digitsOnly u | _ => false end
  | None => false
  end ||
  match eat "sd" s with Some t => negb (String.eqb t "") && str_all is_lower t | None => false end ||
  match eat "md" s with Some t => digitsOnly t | None => false end.

Definition diskRow (line : string) : option (string * (num * num)) :=
  let fields := fieldsOf line in
  if (length fields <? 10)%nat then None
  else
    name ← fields !! 2; r ← fields !! 5; w ← fields !! 9;
    if negb (DISK_DEVICE_RE name) then None
    else match parseCount r, parseCount w with
         | NaN, _ | _, NaN => None
         | a, b => Some (name, (a, b))
         end.

(** Sectors of 512 bytes. *)
Definition collectDiskMetrics (raw : option string) (now : Z) (prev : gmap string counters) : list rate * gmap string counters :=
  match raw with
  | None => ([], prev)
  | Some text => sampleAll 512 now (omap diskRow (str_split nl text)) prev
  end.

End Rates.

Module Sample.
Import Proc Rates.

Record MemoryMetrics := { mm_total : Z; mm_available : Z; mm_cached : Z; mm_swapTotal : Z; mm_swapUsed : Z }.
Definition collectMemoryMetrics (raw : option string) : option MemoryMetrics :=
  (fun text => {| mm_total := kb text "MemTotal"; mm_available := kb text "MemAvailable"; mm_cached := kb text "Cached";
                  mm_swapTotal := kb text "SwapTotal"; mm_swapUsed := Z.max 0 (kb text "SwapTotal" - kb text "SwapFree") |}) <$> raw.

Record PressureMetrics := { pm_memory : option num; pm_io : option num; pm_cpu : option num }.
Definition some10At (s : string) : option num := s ← eat "some" s; fst <$> avgAt "avg10" s.
Definition collectPressureMetrics (read : string -> option string) : option PressureMetrics :=
  let get r := text ← read r; lineMatch some10At true text in
  match get "memory", get "io", get "cpu" with
  | None, None, None => None
  | m, i, c => Some {| pm_memory := m; pm_io := i; pm_cpu := c |}
  end.

(** [parseInt(s) || 0] of a field that may be missing. *)
Definition lines (s : string) : list string := List.filter (fun l => negb (String.eqb l "")) (str_split nl (str_trim s)).
Definition getProcessGpuMemory (out : option string) : Z :=
  match out with
  | None => 0
  | Some o => foldl (fun sum l => sum + Power.segment (str_trim l))%Z 0%Z (lines o)
  end.

(** [Mem:\s+(\d+)] *)
Definition memAt (s : string) : option Z :=
  s ← eat "Mem:" s; '(_, s) ← span1 is_ws s; '(d, _) ← span1 is_digit s; Some (Parse.parseDigits d).
(** [totalmem]: bytes, [None] when it throws; [free]: the output of [free -m]. *)
Definition getSystemMemoryMB (totalmem : option Z) (free : option string) : Z :=
  let mb := match totalmem with Some b => round_q (inject_Z b / inject_Z 1048576) | None => 0%Z end in
  if (0 <? mb)%Z then mb
  else match free with Some out => default 0%Z (leftmost memAt out) | None => 0%Z end.

(** The columns nvidia-smi was asked for, and the fallbacks of a node that shares its
    memory with its GPU. *)
Record GpuReading := { gr_model : string; gr_vramTotal : Z; gr_util : num; gr_vramUsed : Z; gr_temperature : option num }.

Definition collectGpu (smi : option string) (procMem : Z) (sysMem : Z) : GpuReading :=
  match smi with
  | None => {| gr_model := "Unknown (nvidia-smi unavailable)"; gr_vramTotal := sysMem; gr_util := zn 0; gr_vramUsed := 0; gr_temperature := None |}
  | Some out =>
      let parts := map str_trim (str_split "," (str_trim out)) in
      let used := intOr0 (parts !! 3) in
      let total := intOr0 (parts !! 1) in
      {| gr_model := js_or (parts !! 0) "Unknown GPU";
         gr_vramTotal := if bool_decide (parts !! 1 = Some "[N/A]") || (total =? 0)%Z then sysMem else total;
         gr_util := floatOr0 (parts !! 2);
         gr_vramUsed := if bool_decide (parts !! 3 = Some "[N/A]") || (used =? 0)%Z then procMem else used;
         gr_temperature := match truthy (parts !! 4) with
                           | Some t => if String.eqb t "[N/A]" then None else Some (Parse.parseFloat t)
                           | None => None
                           end |}
  end.

End Sample.

(** [MetricsBuffer] *)
Module Buffer.
Section Buffer.
Context {A : Type}.

Definition MAX_SAMPLES : nat := 720.
Definition buffers := gmap string (list A).

Definition push (nodeId : string) (sample : A) (b : buffers) : buffers :=
  let buf := default [] (b !! nodeId) ++ [sample] in
  <[nodeId := if (MAX_SAMPLES <? length buf)%nat then tail buf else buf]> b.
Definition getHistory (nodeId : string) (b : buffers) : list A := default [] (b !! nodeId).
Definition remove (nodeId : string) (b : buffers) : buffers := delete nodeId b.

Inductive op := Push (nodeId : string) (sample : A) | Remove (nodeId : string).
Definition apply (b : buffers) (o : op) : buffers :=
  match o with Push n s => push n s b | Remove n => remove n b end.

End Buffer.
Arguments buffers : clear implicits.
Arguments op : clear implicits.
End Buffer.

(** [metric-retention.ts]: a table of samples with their times, in milliseconds. *)
Module Retention.
Section Retention.
Context {A : Type} (timeOf : A -> Z).

Definition pruneMetricsOlderThan (before : Z) (rows : list A) : list A * nat :=
  (List.filter (fun r => negb (timeOf r <? before)%Z) rows, length (List.filter (fun r => (timeOf r <? before)%Z) rows)).

(** One run of the loop: a database that fails leaves the rows. *)
Definition retentionRun (retentionDays now : Z) (dbFails : bool) (rows : list A) : list A :=
  if dbFails then rows else (pruneMetricsOlderThan (now - retentionDays * 86400 * 1000) rows).1.

(** What happens to the table: samples are written, and the loop runs, at once and then
    every so often. *)
Inductive event := Write (row : A) | Run (now : Z) (dbFails : bool).
Definition onEvent (retentionDays : Z) (rows : list A) (e : event) : list A :=
  match e with Write r => rows ++ [r] | Run now f => retentionRun retentionDays now f rows end.

End Retention.
Arguments event : clear implicits.
End Retention.
