(* ===== verification/SysInfoFacts.v ===== *)
(** What a node reports is what the kernel says: fields of /proc come back as they are
    printed, sockets are counted once, the rates of a device add up to what its counters
    moved; and the manager keeps the last hour of it. *)
From S2P Require Import Prelude JsNum AgentHealth TrainParse TrainFacts NodeOps SysInfo.
Import AgentHealth.Lines Proc.

(** * Fields *)

Lemma pretty_char_digit x : (x < 10)%N -> is_digit (pretty_N_char x) = true /\ digit_val (pretty_N_char x) = Some (Z.of_N x).
Proof. intros H. destruct x as [|p]; [done|]. do 4 (destruct p as [p|p|]; try done; try lia). Qed.

Lemma digits_pretty_go x : forall s, exists k, (0 < x -> 0 < k)%N /\
  (forall acc len, digits 10 acc len (pretty_N_go x s) = digits 10 (acc * 10 ^ Z.of_N k + Z.of_N x) (len + N.to_nat k) s) /\
  (str_all is_digit (pretty_N_go x s) = str_all is_digit s).
Proof.
  induction (N.lt_wf_0 x) as [x _ IH]. intros s. destruct (decide (0 < x)%N) as [Hx|Hx].
  - rewrite pretty_N_go_step by done. assert (x / 10 < x)%N as Hlt by (by apply N.div_lt).
    assert (x mod 10 < 10)%N as Hm by (by apply N.mod_lt).
    destruct (pretty_char_digit _ Hm) as [Hd Hv]. destruct (IH _ Hlt (String (pretty_N_char (x mod 10)) s)) as (k & _ & Hk & Ha).
    exists (k + 1)%N. split; [lia|]. split.
    + intros acc len. rewrite Hk. cbn [digits]. rewrite Hv, (proj2 (Z.ltb_lt _ _)) by lia. f_equal; [|lia].
      rewrite N2Z.inj_add, Z.pow_add_r by lia. rewrite (N.div_mod x 10) at 3 by done. rewrite !N2Z.inj_add, !N2Z.inj_mul. lia.
    + rewrite Ha. cbn [str_all]. by rewrite Hd.
  - assert (x = 0%N) as -> by lia. rewrite pretty_N_go_0. exists 0%N. split; [lia|]. split; [|done].
    intros acc len. f_equal; lia.
Qed.

Lemma pretty_digits (n : N) : Parse.parseDigits (pretty n) = Z.of_N n /\ str_all is_digit (pretty n) = true /\ pretty n <> "".
Proof.
  unfold Parse.parseDigits. change (pretty n) with (if decide (n = 0)%N then "0" else pretty_N_go n "").
  destruct (decide (n = 0)%N) as [-> |Hn]; [done|]. destruct (digits_pretty_go n "") as (k & H0 & H1 & H2).
  rewrite H2. pose proof (H1 0%Z 0%nat) as Hz. rewrite Hz. split; [done|]. split; [done|]. intros E. rewrite E in Hz. cbn in Hz.
  injection Hz as _ Hz. lia.
Qed.

(** Lines of text. *)
Definition oneLine (s : string) : bool := str_all (fun c => not_char nl c && not_char cr c) s.

Lemma lineMatch_skip {A} (f : string -> option A) l t :
  oneLine l = true -> lineMatch f false (l +:+ t) = lineMatch f false t.
Proof.
  induction l as [|c l IH]; intros H; [by rewrite app_empty_l|]. cbn in H. apply andb_prop in H as [Hc H].
  rewrite app_String. cbn [lineMatch]. apply andb_prop in Hc as [H1 H2]. unfold not_char in *.
  rewrite (proj1 (negb_true_iff _) H1), (proj1 (negb_true_iff _) H2). by apply IH.
Qed.

Lemma lineMatch_line {A} (f : string -> option A) l rest :
  oneLine l = true ->
  lineMatch f true (l +:+ String nl rest) =
  match f (l +:+ String nl rest) with Some v => Some v | None => lineMatch f true rest end.
Proof.
  intros H. destruct l as [|c l].
  - rewrite app_empty_l. cbn [lineMatch]. by rewrite Ascii.eqb_refl.
  - rewrite app_String. cbn [lineMatch]. destruct (f _); [done|]. cbn in H. apply andb_prop in H as [Hc H].
    apply andb_prop in Hc as [H1 H2]. unfold not_char in *. rewrite (proj1 (negb_true_iff _) H1), (proj1 (negb_true_iff _) H2).
    cbn [orb]. rewrite lineMatch_skip by done. cbn [lineMatch]. by rewrite Ascii.eqb_refl.
Qed.

Fixpoint spaces (n : nat) : string := match n with O => "" | S m => String " " (spaces m) end.

(** A field as /proc/meminfo prints it: name, padding, value. *)
Definition field := (string * nat * N)%type.
Definition fieldLine (f : field) : string :=
  let '(key, pad, n) := f in key +:+ ":" +:+ spaces (S pad) +:+ pretty n +:+ " kB".
Fixpoint meminfoText (fs : list field) : string :=
  match fs with [] => "" | f :: r => fieldLine f +:+ String nl (meminfoText r) end.

Definition keyOk (k : string) : bool := str_all (fun c => not_char ":" c && not_char nl c && not_char cr c) k.

Lemma key_split a b x y :
  str_all (not_char ":") a = true -> str_all (not_char ":") b = true -> a +:+ String ":" x = b +:+ String ":" y -> a = b.
Proof.
  revert b. induction a as [|c a IH]; intros [|d b] Ha Hb E; rewrite ?app_empty_l, ?app_String in E; [done| | |].
  - injection E as <- _. done.
  - injection E as -> _. done.
  - injection E as -> E. cbn in Ha, Hb. apply andb_prop in Ha as [_ Ha], Hb as [_ Hb]. f_equal. by apply IH.
Qed.

Lemma spaces_ws n : str_all is_ws (spaces (S n)) = true.
Proof. induction n as [|n IH]; [done|]. exact IH. Qed.

Lemma digit_first s t : str_all is_digit s = true -> s <> "" -> stops is_ws (s +:+ t) = true.
Proof.
  destruct s as [|c s]; [done|]. intros H _. rewrite app_String. cbn in *. apply andb_prop in H as [H _].
  unfold is_digit, is_ws, in_range in *. apply andb_prop in H as [H1%N.leb_le H2%N.leb_le].
  apply negb_true_iff, orb_false_iff. split; [apply andb_false_iff; right; apply N.leb_gt; lia|apply N.eqb_neq; lia].
Qed.

Lemma kbAt_same key pad n t : kbAt key (fieldLine (key, pad, n) +:+ t) = Some (Z.of_N n).
Proof.
  destruct (pretty_digits n) as (Hp & Hd & Hne). unfold kbAt, fieldLine. rewrite !str_app_assoc.
  rewrite <- (str_app_assoc key ":"). rewrite eat_app. cbn [mbind option_bind].
  rewrite span1_app; [|apply spaces_ws|done|by apply digit_first]. cbn [mbind option_bind].
  rewrite span1_app by done. cbn [mbind option_bind].
  change (" kB" +:+ t) with (" " +:+ ("kB" +:+ t)). rewrite span1_app by done. cbn [mbind option_bind].
  rewrite eat_app. cbn [mbind option_bind]. by rewrite Hp.
Qed.

Lemma keyOk_colon k : keyOk k = true -> str_all (not_char ":") k = true.
Proof. apply str_all_impl. intros c H. by apply andb_prop in H as [[H _]%andb_prop _]. Qed.

Lemma kbAt_other key key' pad n t :
  keyOk key = true -> keyOk key' = true -> key <> key' -> kbAt key (fieldLine (key', pad, n) +:+ t) = None.
Proof.
  intros H1 H2 Hne. unfold kbAt, fieldLine, eat. destruct (String.prefix _ _) eqn:E; [|done]. exfalso. apply Hne.
  apply prefix_spec in E as (u & E). rewrite !str_app_assoc in E.
  change (":" +:+ (spaces (S pad) +:+ (pretty n +:+ (" kB" +:+ t)))) with (String ":" (spaces (S pad) +:+ (pretty n +:+ (" kB" +:+ t)))) in E.
  change (":" +:+ u) with (String ":" u) in E. symmetry.
  by eapply key_split; [apply keyOk_colon|apply keyOk_colon|]; eauto.
Qed.

Lemma fieldLine_one key pad n : keyOk key = true -> oneLine (fieldLine (key, pad, n)) = true.
Proof.
  intros H. destruct (pretty_digits n) as (_ & Hd & _). unfold oneLine, fieldLine. rewrite !str_all_app.
  rewrite !andb_true_iff. split; [revert H; apply str_all_impl; intros c Hc; apply andb_prop in Hc as [[_ H2]%andb_prop H3]; by rewrite H2, H3|].
  split; [done|]. split; [|split; [|done]].
  - induction pad as [|pad IH]; [done|]. exact IH.
  - revert Hd. apply str_all_impl. intros c Hc. unfold not_char. destruct (Ascii.eqb_spec c nl) as [-> |]; [done|].
    by destruct (Ascii.eqb_spec c cr) as [-> |].
Qed.

(** A field of /proc/meminfo is the kernel's number.  Whatever the names (without a
    colon), the order and the padding of the fields, and whatever other fields end in the same
    letters, the first field of a name is read to the megabyte, and a name that is not there
    reads zero. *)
Theorem meminfo_field fs key :
  Forall (fun f => keyOk f.1.1 = true) fs -> keyOk key = true ->
  kb (meminfoText fs) key =
  match js_find (fun f => String.eqb f.1.1 key) fs with
  | Some (_, _, n) => toMb (Z.of_N n)
  | None => 0%Z
  end.
Proof.
  intros Hfs Hk. unfold kb. enough (lineMatch (kbAt key) true (meminfoText fs) =
    (fun f : field => Z.of_N f.2) <$> js_find (fun f => String.eqb f.1.1 key) fs) as ->.
  { by destruct (js_find _ fs) as [[[? ?] ?]|]. }
  induction fs as [|[[k pad] n] fs IH]; [by destruct key|]. apply Forall_cons in Hfs as [H1 H2]. cbn [meminfoText js_find fst].
  rewrite lineMatch_line by (by apply fieldLine_one). destruct (String.eqb_spec k key) as [-> |Hne].
  - by rewrite kbAt_same.
  - rewrite (kbAt_other key k pad n _ Hk H1) by congruence. by apply IH.
Qed.

(** * Sockets *)

Definition rowsIn (st : string) (port : N) (text : string) : nat :=
  length (List.filter (fun r => bool_decide (r = Some st)) (map (rowState port) (str_split nl text))).

Lemma tally_lookup sts m st :
  default 0%nat (foldl tally m sts !! st) = (default 0%nat (m !! st) + length (List.filter (String.eqb st) sts))%nat.
Proof.
  revert m. induction sts as [|x sts IH]; intros m; cbn [foldl List.filter]; [cbn; lia|]. rewrite IH. unfold tally at 1.
  destruct (String.eqb_spec st x) as [-> |Hne].
  - rewrite lookup_insert_eq. cbn. lia.
  - rewrite lookup_insert_ne by done. lia.
Qed.

Lemma tcp_counts text port st : default 0%nat (parseProcNetTcpByPort text port !! st) = rowsIn st port text.
Proof.
  unfold parseProcNetTcpByPort, rowsIn. rewrite tally_lookup, lookup_empty. cbn.
  induction (str_split nl text) as [|l ls IH]; [done|]. cbn [omap list_omap map List.filter].
  destruct (rowState port l) as [x|]; cbn [List.filter].
  - destruct (String.eqb_spec st x) as [-> |Hne]; [rewrite bool_decide_true by done; cbn; by f_equal|].
    by rewrite bool_decide_false by congruence.
  - by rewrite bool_decide_false by done.
Qed.

(** The sockets of the SSH port: in each state, the rows of the two tables of the kernel. *)
Theorem sshd_counts readText thermal st :
  default 0%nat (sy_sshd (readSysInfo readText thermal) !! st) =
  (rowsIn st 22 (default "" (readText "/proc/net/tcp")) + rowsIn st 22 (default "" (readText "/proc/net/tcp6")))%nat.
Proof.
  unfold readSysInfo, addCounts. cbn [sy_sshd]. rewrite lookup_union_with, <- !tcp_counts.
  destruct (_ !! st), (_ !! st); cbn; lia.
Qed.

(** * Rates *)

Module RateFacts.
Import Rates.

Lemma round_q_near n ms q :
  (0 < ms)%Z -> (q == inject_Z n / inject_Z ms)%Q -> (Z.abs (2 * (round_q q * ms - n)) <= ms)%Z.
Proof.
  intros Hms Hq. destruct ms as [|p|p]; [done| |done]. unfold round_q.
  assert (q + (1 # 2) == (2 * n + Z.pos p) # (2 * p))%Q as Hh.
  { rewrite Hq. unfold Qeq, Qdiv, Qmult, Qplus, Qinv, inject_Z. cbn. lia. }
  rewrite (Qfloor_comp _ _ Hh). unfold Qfloor. pose proof (Z.div_mod (2 * n + Z.pos p) (Z.pos (2 * p)) ltac:(done)) as Hd.
  pose proof (Z.mod_pos_bound (2 * n + Z.pos p) (Z.pos (2 * p)) ltac:(done)) as Hb. rewrite Pos2Z.inj_mul in *.
  set (d := ((2 * n + Z.pos p) / (2 * Z.pos p))%Z) in *. set (m := ((2 * n + Z.pos p) mod (2 * Z.pos p))%Z) in *. nia.
Qed.

(** The nearest integer to what the counter moved per second. *)
Lemma perSec_near unit a p ms :
  (0 < ms)%Z -> exists r, perSec unit (zn a) (zn p) ms = zn r /\ (Z.abs (2 * (r * ms - 1000 * unit * (a - p))) <= ms)%Z.
Proof.
  intros Hms. unfold perSec, num_sub. cbn [num_mul num_add num_round zn]. eexists. split; [reflexivity|].
  apply round_q_near; [done|]. unfold Qdiv. rewrite !inject_Z_mult. unfold Z.sub. rewrite inject_Z_plus, inject_Z_opp. change (inject_Z (-1)) with (-1)%Q. 
  assert (~ inject_Z ms == 0)%Q by (intros E; unfold Qeq in E; cbn in E; lia). field. done.
Qed.

(** The rates a sample holds for a device, in bytes per second: [way] is the receive or read
    rate, or the send or write rate. *)
Definition valueOf (way : rate -> num) (name : string) (rs : list rate) : Z :=
  match js_find (fun r => String.eqb (rt_name r) name) rs with
  | Some r => match way r with Fin q => Qfloor q | _ => 0 end
  | None => 0
  end.

Lemma js_find_app {A} (p : A -> bool) a b : js_find p (a ++ b) = match js_find p a with Some x => Some x | None => js_find p b end.
Proof. induction a as [|x a IH]; [done|]. cbn. by destruct (p x). Qed.

Section Device.
Context (unit : Z) (name : string).
Notation find := (js_find (fun r => String.eqb (rt_name r) name)).

Lemma other_device t l acc :
  name ∉ map fst l ->
  (foldl (sampleOne unit t) acc l).2 !! name = acc.2 !! name /\ find (foldl (sampleOne unit t) acc l).1 = find acc.1.
Proof.
  revert acc. induction l as [|[n [rx tx]] l IH]; intros acc Hn; [done|]. cbn [map fst] in Hn.
  apply not_elem_of_cons in Hn as [Hne Hn]. cbn [foldl]. destruct (IH (sampleOne unit t acc (n, (rx, tx))) Hn) as [-> ->].
  unfold sampleOne. cbn [fst snd]. rewrite lookup_insert_ne by done. split; [done|]. rewrite js_find_app.
  destruct (find acc.1); [done|]. destruct (acc.2 !! n) as [[[prx ptx] t0]|]; [|done]. destruct (0 <? t - t0)%Z; [|done].
  cbn. by rewrite (proj2 (String.eqb_neq _ _) (not_eq_sym Hne)).
Qed.

Lemma own_device t rd prev a b p q t0 :
  NoDup (map fst rd) -> (name, (a, b)) ∈ rd -> prev !! name = Some ((p, q, t0) : counters) -> (t0 < t)%Z ->
  find (sampleAll unit t rd prev).1 = Some {| rt_name := name; rt_rx := perSec unit a p (t - t0); rt_tx := perSec unit b q (t - t0) |} /\
  (sampleAll unit t rd prev).2 !! name = Some ((a, b, t) : counters).
Proof.
  intros Hd Hin Hp Ht. apply list_elem_of_split in Hin as (l1 & l2 & ->). rewrite map_app in Hd. cbn [map fst] in Hd.
  apply NoDup_app in Hd as (_ & Hd & H2). apply NoDup_cons in H2 as [H2 _].
  assert (name ∉ map fst l1) as H1 by (intros H; apply (Hd _ H); left).
  unfold sampleAll. rewrite foldl_app. cbn [foldl]. destruct (other_device t l1 ([], prev) H1) as [E1 E2].
  set (acc := foldl _ ([], prev) l1) in *. cbn [fst snd] in E1, E2.
  destruct (other_device t l2 (sampleOne unit t acc (name, (a, b))) H2) as [-> ->]. unfold sampleOne. cbn [fst snd].
  change (num * num * Z)%type with counters. rewrite lookup_insert_eq, E1, Hp, js_find_app, E2. cbn [js_find]. rewrite (proj2 (Z.ltb_lt _ _)) by lia. cbn [js_find rt_name].
  by rewrite String.eqb_refl.
Qed.

(** Rounds of readings, and the rates each reports. *)
Definition round := (Z * list (string * (num * num)))%type.
Fixpoint reports (prev : gmap string counters) (rs : list round) : list (Z * list rate) :=
  match rs with
  | [] => []
  | (t, rd) :: rest => let r := sampleAll unit t rd prev in (t, r.1) :: reports r.2 rest
  end.

(** A rate, taken over the time since the round before, in milliseconds. *)
Fixpoint reported (way : rate -> num) (t0 : Z) (l : list (Z * list rate)) : Z :=
  match l with
  | [] => 0
  | (t, rs) :: rest => valueOf way name rs * (t - t0) + reported way t rest
  end.

(** The device's two counters in the rounds, at rising times; where they end. *)
Inductive counting : Z -> Z -> Z -> list round -> Z -> Z -> Z -> Prop :=
  | counting_nil t x y : counting t x y [] t x y
  | counting_cons t0 x0 y0 t x y rd rest t1 x1 y1 :
      (t0 < t)%Z -> NoDup (map fst rd) -> (name, (zn x, zn y)) ∈ rd -> counting t x y rest t1 x1 y1 ->
      counting t0 x0 y0 ((t, rd) :: rest) t1 x1 y1.

(** C36: Rates add up, each way.  Over any rounds of readings at rising times, whatever other
    devices come and go, the rates of a device, each over the time since the reading before, are
    what its counter moved from the first reading to the last, to within half a byte for each
    second: the receive rates for what it received and the send rates for what it sent (read and
    written, for a disk).  Nothing is counted twice and nothing is left out, even when a counter
    is set back. *)
Theorem rates_add_up prev rs t0 x0 y0 t1 x1 y1 :
  prev !! name = Some ((zn x0, zn y0, t0) : counters) -> counting t0 x0 y0 rs t1 x1 y1 ->
  (Z.abs (2 * (reported rt_rx t0 (reports prev rs) - 1000 * unit * (x1 - x0))) <= t1 - t0)%Z /\
  (Z.abs (2 * (reported rt_tx t0 (reports prev rs) - 1000 * unit * (y1 - y0))) <= t1 - t0)%Z.
Proof.
  intros Hp Hc. revert prev Hp.
  induction Hc as [t x y|t0 x0 y0 t x y rd rest t1 x1 y1 Ht Hd Hin Hc IH]; intros prev Hp; cbn [reports reported].
  - lia.
  - destruct (own_device t rd prev _ _ _ _ t0 Hd Hin Hp Ht) as [Hf Hn]. destruct (IH _ Hn) as [IHx IHy].
    destruct (perSec_near unit x x0 (t - t0) ltac:(lia)) as (r & Hr & Hb).
    destruct (perSec_near unit y y0 (t - t0) ltac:(lia)) as (w & Hw & Hv).
    unfold valueOf. rewrite Hf. cbn [rt_rx rt_tx]. rewrite Hr, Hw. cbn [zn]. rewrite !Qfloor_Z. lia.
Qed.

End Device.

End RateFacts.

(** * The GPU *)

(** A node that has memory never reports a GPU without. *)
Theorem vram_never_zero smi procMem totalmem free :
  (0 < Sample.getSystemMemoryMB totalmem free)%Z ->
  Sample.gr_vramTotal (Sample.collectGpu smi procMem (Sample.getSystemMemoryMB totalmem free)) <> 0%Z.
Proof.
  intros H. unfold Sample.collectGpu. destruct smi as [out|]; cbn [Sample.gr_vramTotal]; [|lia].
  destruct (bool_decide _); cbn [orb]; [lia|]. destruct (Z.eqb_spec (intOr0 (map str_trim (str_split "," (str_trim out)) !! 1)) 0); lia.
Qed.

(** * The manager's window *)

Module BufferFacts.
Import Buffer.

Section Window.
Context {A : Type}.

(** What a node sent since it was last removed. *)
Definition sent (nodeId : string) (acc : list A) (o : op A) : list A :=
  match o with
  | Push n s => if String.eqb n nodeId then acc ++ [s] else acc
  | Remove n => if String.eqb n nodeId then [] else acc
  end.

Lemma lastN_push (n : nat) (l : list A) x :
  (0 < n)%nat -> let b := drop (length l - n) l ++ [x] in
  drop (length (l ++ [x]) - n) (l ++ [x]) = if (n <? length b)%nat then tail b else b.
Proof.
  intros Hn b. subst b. rewrite !length_app, length_drop. cbn [length]. destruct (Nat.ltb_spec n (length l - (length l - n) + 1)) as [H|H].
  - assert (n <= length l)%nat by lia. replace (length l + 1 - n)%nat with (S (length l - n)) by lia.
    assert (forall (m : list A) k, drop (S k) m = tail (drop k m)) as Hd.
    { intros m. induction m as [|y m IH]; intros [|k]; [done..|]. cbn. by destruct k; [|rewrite <- IH]. }
    rewrite Hd, drop_app_le by lia. done.
  - replace (length l + 1 - n)%nat with 0%nat by lia. replace (length l - n)%nat with 0%nat by lia. done.
Qed.

(** The window is the last hour.  After any samples and removals of nodes, the history
    of a node is the last 720 samples it sent since it was removed, in their order. *)
Theorem buffer_window (ops : list (op A)) nodeId :
  let all := foldl (sent nodeId) [] ops in
  getHistory nodeId (foldl apply ∅ ops) = drop (length all - MAX_SAMPLES) all.
Proof.
  cbn zeta. induction ops as [|o ops IH] using rev_ind; [done|]. rewrite !foldl_app. cbn [foldl].
  set (b := foldl apply ∅ ops) in *. set (all := foldl (sent nodeId) [] ops) in *.
  destruct o as [n s|n]; cbn [apply sent]; unfold getHistory, push, remove, buffers in *; destruct (String.eqb_spec n nodeId) as [-> |Hne].
  - rewrite lookup_insert_eq. cbn [default]. rewrite IH. unfold MAX_SAMPLES. by rewrite (lastN_push 720) by lia.
  - by rewrite lookup_insert_ne.
  - by rewrite lookup_delete_eq.
  - by rewrite lookup_delete_ne.
Qed.

End Window.

(** ** The table of samples *)

Section Rows.
Context {A : Type} (timeOf : A -> Z) (days : Z).

Definition cutoff (now : Z) : Z := (now - days * 86400 * 1000)%Z.

(** A run deletes exactly what is older than its day, counts it, and a run whose database
    fails deletes nothing; whatever the runs, a row stays while it is younger than the cut of
    each of them, and nothing older survives one that works. *)
Theorem retention_exact (es : list (Retention.event A)) rows row :
  row ∈ rows ->
  (forall now f, Retention.Run now f ∈ es -> (cutoff now <= timeOf row)%Z) ->
  row ∈ foldl (Retention.onEvent timeOf days) rows es.
Proof.
  revert rows. induction es as [|e es IH]; intros rows Hin Hr; [done|]. cbn [foldl]. apply IH.
  - destruct e as [r|now f]; cbn; [by apply elem_of_app; left|]. unfold Retention.retentionRun. destruct f; [done|].
    apply elem_of_filter_bool. split; [done|]. apply negb_true_iff, Z.ltb_ge. apply (Hr now false). left.
  - intros now f H. apply (Hr now f). by right.
Qed.

Lemma prune_exact before rows :
  let '(rows', n) := Retention.pruneMetricsOlderThan timeOf before rows in
  (forall r, r ∈ rows' <-> r ∈ rows /\ (before <= timeOf r)%Z) /\ (length rows' + n = length rows)%nat.
Proof.
  unfold Retention.pruneMetricsOlderThan. split.
  - intros r. rewrite elem_of_filter_bool, negb_true_iff, Z.ltb_ge. done.
  - induction rows as [|r rows IH]; [done|]. cbn. destruct (timeOf r <? before)%Z; cbn; lia.
Qed.

Lemma run_bounds now rows r :
  r ∈ Retention.onEvent timeOf days rows (Retention.Run now false) -> (cutoff now <= timeOf r)%Z.
Proof. cbn. intros [_ H]%elem_of_filter_bool. by apply negb_true_iff, Z.ltb_ge in H. Qed.

End Rows.

End BufferFacts.

(** * Examples *)

Module Examples.
Import Rates RateFacts.

Definition meminfo : list field :=
  [(("MemTotal", 6%nat), 127535340%N); (("MemFree", 9%nat), 869000%N); (("MemAvailable", 3%nat), 7100000%N);
   (("SwapCached", 9%nat), 77%N); (("Cached", 9%nat), 9900000%N); (("SwapTotal", 12%nat), 0%N)].

Example meminfo_parsed :
  parseMeminfo (meminfoText meminfo) =
  {| mi_totalMb := 124546; mi_availableMb := 6934; mi_freeMb := 849; mi_cachedMb := 9668; mi_swapTotalMb := 0; mi_swapFreeMb := 0 |}.
Proof. by vm_compute. Qed.

Lemma meminfo_field_witness : kb (meminfoText meminfo) "Cached" = toMb (Z.of_N 9900000).
Proof. apply (meminfo_field meminfo "Cached"); [repeat constructor|reflexivity]. Defined.

Definition tcp : string :=
  str_join (String nl "")
    ["  sl  local_address rem_address   st tx_queue"; "0: 00000000:0016 00000000:0000 0A 0 0"; "1: 0100007F:0016 0200007F:C000 01 0 0";
     "2: 0100007F:0016 0300007F:C001 03 0 0"; "3: 0100007F:0016 0300007F:C002 03 0 0"; "4: 00000000:0050 00000000:0000 0A 0 0"].

Example tcp_tally :
  map (fun st => parseProcNetTcpByPort tcp 22 !! st) ["LISTEN"; "ESTABLISHED"; "SYN_RECV"; "TIME_WAIT"] = [Some 1; Some 1; Some 2; None]%nat.
Proof. by vm_compute. Qed.

Example pressure_parsed :
  let p := parsePressure ("some avg10=1.23 avg60=4.56 avg300=7.89 total=12345" +:+ String nl "full avg10=0.10 avg60=0.20 avg300=0.30 total=678") in
  (num_str (psi_avg10 (ps_some p)), psi_total (ps_some p), psi_total <$> ps_full p) = ("1.23", 12345%Z, Some 678%Z).
Proof. by vm_compute. Qed.

Example loadavg_parsed :
  let l := parseLoadavg "2.15 1.80 1.44 3/1234 99999" in (num_str (li_load1 l), li_runnable l, li_totalProcs l) = ("2.15", 3%Z, 1234%Z).
Proof. by vm_compute. Qed.

Example disks_named :
  map DISK_DEVICE_RE ["nvme0n1"; "sda"; "md0"; "nvme0n1p1"; "sda1"; "loop0"; "dm-0"] = [true; true; true; false; false; false; false].
Proof. by vm_compute. Qed.

(** A node that shares its memory: nvidia-smi has no numbers. *)
Example gb10_falls_back :
  let g := Sample.collectGpu (Some "NVIDIA GB10, [N/A], 12, [N/A], 45") 5000 (Sample.getSystemMemoryMB (Some 130596188160%Z) None) in
  (Sample.gr_model g, Sample.gr_vramTotal g, Sample.gr_vramUsed g) = ("NVIDIA GB10", 124546%Z, 5000%Z).
Proof. by vm_compute. Qed.

Definition before : gmap string counters := {["eth0" := (zn 1000, zn 0, 0%Z)]}.
Definition rounds : list round :=
  [(3000%Z, [("eth0", (zn 2000, zn 7)); ("eth1", (zn 5, zn 5))]); (5000%Z, [("eth0", (zn 2500, zn 700))]);
   (9000%Z, [("eth1", (zn 9, zn 9)); ("eth0", (zn 100, zn 900))])].

Lemma rounds_count : counting "eth0" 0 1000 0 rounds 9000 100 900.
Proof.
  repeat (eapply counting_cons; [lia|apply (bool_decide_unpack _); by vm_compute|cbn; rewrite !elem_of_cons; by auto|]).
  constructor.
Qed.

Lemma rates_add_up_witness :
  (Z.abs (2 * (reported "eth0" rt_rx 0 (reports 1 before rounds) - 1000 * 1 * (100 - 1000))) <= 9000 - 0)%Z /\
  (Z.abs (2 * (reported "eth0" rt_tx 0 (reports 1 before rounds) - 1000 * 1 * (900 - 0))) <= 9000 - 0)%Z.
Proof. apply (rates_add_up 1 "eth0" before rounds 0 1000 0 9000 100 900); [reflexivity|apply rounds_count]. Defined.

(** A counter that is set back, as when a driver is reloaded, is a negative rate. *)
Example rates_seen : map (fun r => (valueOf rt_rx "eth0" r.2, valueOf rt_tx "eth0" r.2)) (reports 1 before rounds) =
  [(333, 2); (250, 347); (-600, 50)]%Z.
Proof. by vm_compute. Qed.

Lemma retention_exact_witness :
  (86400000%Z : Z) ∈ foldl (Retention.onEvent (fun t => t) 7) [86400000%Z; 0%Z] [Retention.Run 691200000 false].
Proof.
  apply (BufferFacts.retention_exact (fun t => t) 7 [Retention.Run 691200000%Z false]).
  - left.
  - intros now f [= -> ->]%list_elem_of_singleton. unfold BufferFacts.cutoff. lia.
Defined.

Example retention_run : foldl (Retention.onEvent (fun t => t) 7) [86400000%Z; 0%Z] [Retention.Run 691200000 false] = [86400000%Z].
Proof. by vm_compute. Qed.

End Examples.
