(* ===== verification/AgentLink.v ===== *)
(** How an agent finds its manager and answers for its node ([agent/index.ts]): who it is,
    in [Identity]; the address on the fast fabric, in [FastIp]; connecting, registering and
    coming back, in [Link]; the numbers of a metrics tick, in [Tick]; going down on request,
    in [PowerDown].

    The socket library, the disk's success and the clock are arguments or events. *)
From S2P Require Import Prelude JsNum Schema AgentHub AgentLaunch AgentHealth NodeOps AgentTools.
Import AgentHealth.Lines.

Module Identity.

(** [file]: the text of the node-id file, when it exists; [env]: NODE_ID. *)
Definition resolveNodeId (file env : option string) : string :=
  let envId := default "" env in
  match file with
  | Some text => if String.eqb (str_trim text) "" then if String.eqb envId "unknown" then "" else envId else str_trim text
  | None => if String.eqb envId "unknown" then "" else envId
  end.

End Identity.

Module FastIp.
Import NodeOps.Wol.

(** [parseInt(s, 10)]; [None]: not a number. *)
Definition parseInt10 (s : string) : option Z :=
  let t := trim_left s in
  let '(neg, u) := match t with String "-" r => (true, r) | String "+" r => (false, r) | _ => (false, t) end in
  let '(v, n, _) := digits 10 0 0 u in
  if (n =? 0)%nat then None else Some (if neg : bool then - v else v)%Z.

(** [((acc << 8) + oct) >>> 0]; what is not a number is zero to [>>>]. *)
Definition ipToInt (ip : string) : Z :=
  foldl (fun acc oct => match parseInt10 oct with Some o => ushr (shl acc 8 + o) 0 | None => 0%Z end) 0%Z (str_split "." ip).

(** [/inet\s+(\d+\.\d+\.\d+\.\d+)\/(\d+)/] *)
Definition inetAt (s : string) : option string :=
  s ← eat "inet" s; '(_, s) ← span1 is_ws s;
  '(a, s) ← span1 is_digit s; s ← eat "." s; '(b, s) ← span1 is_digit s; s ← eat "." s;
  '(c, s) ← span1 is_digit s; s ← eat "." s; '(d, s) ← span1 is_digit s; s ← eat "/" s; _ ← span1 is_digit s;
  Some (a +:+ "." +:+ b +:+ "." +:+ c +:+ "." +:+ d).

Definition candidatesOf (out : string) : list string := omap (leftmost inetAt) (str_split nl out).

(** [mask === 0 ? 0 : (~0 << (32 - mask)) >>> 0]; no mask shifts by nothing. *)
Definition maskInt (mask : option Z) : Z :=
  match mask with
  | Some m => if (m =? 0)%Z then 0%Z else ushr (shl (bnot 0) (32 - m)) 0
  | None => ushr (bnot 0) 0
  end.

Definition band (a b : Z) : Z := ushr (Z.land (to_int32 a) (to_int32 b)) 0.

Definition inSubnet (subnet ip : string) : bool :=
  let parts := str_split "/" subnet in
  let m := maskInt (s ← parts !! 1; parseInt10 s) in
  (band (ipToInt ip) m =? band (ipToInt (default "" (head parts))) m)%Z.

Definition FAST_NET_SUBNETS (env : option string) : list string :=
  List.filter (fun s => negb (String.eqb s "")) (map str_trim (str_split "," (js_or env "192.168.100.0/24"))).

(** The loops over the subnets and, within, the addresses. *)
Fixpoint firstFast (candidates subnets : list string) : option string :=
  match subnets with
  | [] => None
  | s :: rest => match js_find (inSubnet s) candidates with Some ip => Some ip | None => firstFast candidates rest end
  end.

(** [out]: the output of [ip -4 -o addr show], when it answers. *)
Definition detectFastIp (out : option string) (subnets : list string) : option string :=
  o ← out; firstFast (candidatesOf o) subnets.

End FastIp.

Module Link.

Definition RECONNECT_BASE : Z := 1000.
Definition RECONNECT_MAX : Z := 30000.

(** The socket: none, with a timer set; opening; open, registered or not; asked to close. *)
Inductive phase := Waiting (ms : Z) | Connecting | Open_ (registered : bool) | Closing.

(** The process ([nodeId], [reconnectDelay], the socket) and what outlives it. *)
Record agent := Agent {
  ag_nodeId : string; ag_delay : Z; ag_phase : phase;
  ag_file : option string; ag_env : option string; ag_token : string }.

Definition set_phase (p : phase) (a : agent) : agent :=
  Agent (ag_nodeId a) (ag_delay a) p (ag_file a) (ag_env a) (ag_token a).

Inductive output :=
  | Register (nodeId : string)
  | RegisterToken (token : string)
  | Setup.

Inductive event :=
  | Connect (** the timer fires *)
  | Opened
  | Accepted (nodeId : string) (written : bool)
  | Rejected
  | ErrorEv
  | Closed
  | Restart. (** the process is started again *)

(** [connect()] at the end of the file. *)
Definition boot (file env : option string) (token : string) : agent :=
  Agent (Identity.resolveNodeId file env) RECONNECT_BASE Connecting file env token.

Definition onOpen (a : agent) : agent * list output :=
  let a := Agent (ag_nodeId a) RECONNECT_BASE (ag_phase a) (ag_file a) (ag_env a) (ag_token a) in
  if negb (String.eqb (ag_nodeId a) "") then (set_phase (Open_ true) a, [Register (ag_nodeId a); Setup])
  else if negb (String.eqb (ag_token a) "") then (set_phase (Open_ false) a, [RegisterToken (ag_token a)])
  else (set_phase Closing a, []).

Definition onAccepted (id : string) (written : bool) (a : agent) : agent * list output :=
  (Agent id (ag_delay a) (Open_ true) (if written then Some id else ag_file a) (ag_env a) (ag_token a), [Setup]).

Definition onClose (a : agent) : agent :=
  Agent (ag_nodeId a) (Z.min (ag_delay a * 2) RECONNECT_MAX) (Waiting (ag_delay a)) (ag_file a) (ag_env a) (ag_token a).

(** What each socket does in its phase; others do not happen. *)
Definition step (a : agent) (e : event) : agent * list output :=
  match e, ag_phase a with
  | Connect, Waiting _ => (set_phase Connecting a, [])
  | Opened, Connecting => onOpen a
  | Accepted id w, Open_ _ => onAccepted id w a
  | Accepted id w, Closing => let '(a, os) := onAccepted id w a in (set_phase Closing a, os)
  | Rejected, Open_ _ => (set_phase Closing a, [])
  | ErrorEv, (Connecting | Open_ _) => (set_phase Closing a, [])
  | Closed, (Connecting | Open_ _ | Closing) => (onClose a, [])
  | Restart, _ => (boot (ag_file a) (ag_env a) (ag_token a), [])
  | _, _ => (a, [])
  end.

Fixpoint run (a : agent) (es : list event) : agent * list output :=
  match es with
  | [] => (a, [])
  | e :: rest => let '(a1, os) := step a e in let '(a2, os') := run a1 rest in (a2, os ++ os')
  end.

End Link.

Module Tick.
Import Health.

(** [?? 0] over a status's reading. *)
Definition total (read : VllmStatus -> option num) (ss : list VllmStatus) : num :=
  foldl (fun sum s => num_add sum (default (zn 0) (read s))) (zn 0) ss.

(** The requests and the throughput of a tick, from the checks of both kinds.  The waiting
    requests are added too, but no check sets their number ([Health.VllmStatus]). *)
Definition enrich (sparkrun dgxrun : list VllmStatus) : option num * option num :=
  let active := List.filter vs_containerRunning sparkrun in
  let '(reqs, tps) := match active with
    | [] => (None, None)
    | _ => (Some (total vs_requestsRunning active),
            let t := total vs_tps active in if num_truthy t then Some t else None)
    end in
  match List.filter vs_containerRunning dgxrun with
  | [] => (reqs, tps)
  | dgx =>
      let dgxTps := total vs_tps dgx in
      (Some (num_add (default (zn 0) reqs) (total vs_requestsRunning dgx)),
       if num_lt (zn 0) dgxTps then Some (num_add (default (zn 0) tps) dgxTps) else tps)
  end.

End Tick.

Module PowerDown.
Import NodeOps.Power.

Definition parseAction (action : option string) : option PowerAction :=
  match action with
  | Some "reboot" => Some Reboot
  | Some "shutdown" => Some Shutdown
  | Some "sleep" => Some Sleep
  | _ => None
  end.

(** [/\bdev\s+(\S+)/] *)
Definition devAt (s : string) : option string :=
  s ← eat "dev" s; '(_, s) ← span1 is_ws s; fst <$> span1 (fun c => negb (is_ws c)) s.
Definition word_char (c : ascii) : bool := is_alnum c || Ascii.eqb c "_".
Fixpoint findDev (prev : bool) (s : string) : option string :=
  match (if prev then None else devAt s) with
  | Some v => Some v
  | None => match s with String c r => findDev (word_char c) r | EmptyString => None end
  end.

Inductive message := PowerAccepted (action : string) (force : bool) (mac : option string) | PowerError (action error : string).

(** [route]: the output of [ip route get]; [address]: the interface's file; both may throw,
    and so may [launch], the commands run with it.  [now] names the unit. *)
Definition script (cmd : string) : string :=
  "#!/bin/bash" +:+ String nl "set +e" +:+ String nl "sleep 1" +:+ String nl cmd +:+ String nl "".

Definition readMac (a : PowerAction) (route : option string) (address : string -> option string) : option string * list string :=
  match route ≫= findDev false with
  | None => (None, [])
  | Some iface =>
      match address iface with
      | None => (None, [])
      | Some text => (truthy (Some (str_lower (str_trim text))),
                      match a with Reboot => [] | _ => ["sudo ethtool -s " +:+ iface +:+ " wol g"] end)
      end
  end.

Definition onPower (action : option string) (force : bool) (route : option string) (address : string -> option string)
    (now : Z) (launch : string -> string -> option string) : message * list string :=
  match parseAction action with
  | None => (PowerError (default "undefined" action) "invalid action", [])
  | Some a =>
      let '(mac, armed) := readMac a route address in
      let text := script (PowerCmd.powerCommand a force) in
      let cmd := PowerCmd.powerLaunchCommand (PowerCmd.powerUnitName now) "/tmp/dgx-power.sh" in
      match launch text cmd with
      | None => (PowerAccepted (default "" action) force mac, armed ++ [cmd])
      | Some err => (PowerError (default "" action) err, armed ++ [cmd])
      end
  end.

(** The hub's message for it: a report without an address changes nothing there. *)
Definition toHub (m : message) : AgentHub.message :=
  match m with
  | PowerAccepted _ _ mac => AgentHub.PowerAccepted (default "" mac)
  | PowerError _ _ => AgentHub.PowerError
  end.

(** [cmd:deprovision]: what the script runs once the agent is gone. *)
Definition deprovisionScript : list string :=
  ["set +e"; "sleep 2"; "sudo systemctl stop dgx-agent"; "sudo systemctl disable dgx-agent";
   "sudo rm -f /etc/systemd/system/dgx-agent.service"; "sudo rm -f /etc/sudoers.d/dgx-agent"; "sudo systemctl daemon-reload";
   "sudo rm -rf /opt/dgx-agent /opt/dgx-agent-old /opt/dgx-agent-new"; "rm -f /tmp/dgx-deprovision.sh"].

End PowerDown.
