(* ===== verification/AgentLinkFacts.v ===== *)
(** An agent comes back within half a minute, spends its token once and keeps the identity
    it was given, names an address of the fast fabric by the bits of the subnet, and
    acknowledges going down only when it will. *)
From S2P Require Import Prelude JsNum Schema AgentHub AgentLaunch AgentHealth NodeOps NodeOpsFacts AgentHubFacts AgentTools AgentToolsFacts AgentLink.

(** * Coming back *)

Module LinkFacts.
Import Link.

Definition delayOk (d : Z) : Prop := (RECONNECT_BASE <= d <= RECONNECT_MAX)%Z.
Definition linkOk (a : agent) : Prop :=
  delayOk (ag_delay a) /\ match ag_phase a with Waiting ms => delayOk ms | _ => True end.

Lemma link_boot_ok file env token : linkOk (boot file env token).
Proof. split; [|done]. unfold delayOk, boot, RECONNECT_BASE, RECONNECT_MAX. cbn. lia. Qed.

Lemma onAccepted_ok id w a : linkOk a -> linkOk (onAccepted id w a).1.
Proof. intros [H _]. by split. Qed.

Lemma link_step_ok a e : linkOk a -> linkOk (step a e).1.
Proof.
  intros H. pose proof H as [H1 H2]. assert (delayOk RECONNECT_BASE) as Hb by (unfold delayOk, RECONNECT_BASE, RECONNECT_MAX; lia).
  destruct e as [| |id w| | | |]; cbn [step]; try apply link_boot_ok; destruct (ag_phase a) as [ms| |r|] eqn:E; cbn [fst]; try done;
    try (by split); try (by apply onAccepted_ok).
  - unfold onOpen. cbn. destruct (negb _); [by split|]. destruct (negb _); by split.
  - destruct H1. split; cbn; [|by split]. unfold delayOk, RECONNECT_BASE, RECONNECT_MAX in *. lia.
  - destruct H1. split; cbn; [|by split]. unfold delayOk, RECONNECT_BASE, RECONNECT_MAX in *. lia.
  - destruct H1. split; cbn; [|by split]. unfold delayOk, RECONNECT_BASE, RECONNECT_MAX in *. lia.
Qed.

(** Whatever happens, an agent without a socket waits between one second and thirty. *)
Theorem reconnects_in_time es file env token ms :
  ag_phase (run (boot file env token) es).1 = Waiting ms -> (1000 <= ms <= 30000)%Z.
Proof.
  assert (forall a, linkOk a -> linkOk (run a es).1) as H.
  { induction es as [|e es IH]; intros a Ha; [done|]. cbn [run]. pose proof (link_step_ok a e Ha) as H1.
    destruct (step a e) as [a1 os]. specialize (IH a1 H1). by destruct (run a1 es). }
  intros Hp. destruct (H _ (link_boot_ok file env token)) as [_ H2]. by rewrite Hp in H2.
Qed.

(** Attempts that fail one after the other. *)
Fixpoint failures (n : nat) : list event := match n with O => [] | S m => Closed :: Connect :: failures m end.

Lemma backoff_from n a :
  ag_phase a = Connecting -> (0 < ag_delay a <= RECONNECT_MAX)%Z ->
  ag_phase (run a (failures n)).1 = Connecting /\ ag_delay (run a (failures n)).1 = Z.min (ag_delay a * 2 ^ Z.of_nat n) RECONNECT_MAX.
Proof.
  unfold RECONNECT_MAX. revert a. induction n as [|n IH]; intros a Hp Hd.
  - cbn. split; [done|]. lia.
  - cbn [failures run step]. rewrite Hp. cbn [step onClose ag_phase]. cbn [run step ag_phase onClose set_phase].
    set (a1 := set_phase Connecting (onClose a)).
    destruct (IH a1) as [H1 H2]; [done|unfold a1, RECONNECT_MAX; cbn; unfold RECONNECT_MAX; lia|].
    change (set_phase Connecting (onClose a)) with a1. destruct (run a1 (failures n)) as [a2 os]. cbn [fst] in *. split; [done|].
    rewrite H2. unfold a1. cbn. unfold RECONNECT_MAX. rewrite Nat2Z.inj_succ, Z.pow_succ_r by lia.
    assert (0 < 2 ^ Z.of_nat n)%Z by (apply Z.pow_pos_nonneg; lia). nia.
Qed.

(** The n-th attempt in a row that fails is followed by a wait of a second doubled n-1
    times, and no more than thirty. *)
Lemma backoff_doubles n file env token :
  let a := (run (boot file env token) (failures n ++ [Closed])).1 in
  ag_phase a = Waiting (Z.min (1000 * 2 ^ Z.of_nat n) 30000).
Proof.
  assert (forall es a e, (run a (es ++ [e])).1 = (step (run a es).1 e).1) as Happ.
  { induction es as [|x es IH]; intros a e; cbn [app run]; [cbn [fst]; by destruct (step a e)|].
    destruct (step a x) as [a1 os]. specialize (IH a1 e). destruct (run a1 (es ++ [e])), (run a1 es). exact IH. }
  cbn zeta. rewrite Happ. destruct (backoff_from n (boot file env token)) as [H1 H2]; [done|unfold boot, RECONNECT_BASE, RECONNECT_MAX; cbn; lia|].
  unfold step. rewrite H1. cbn [fst ag_phase onClose]. by rewrite H2.
Qed.

(** * Who it is *)

(** An id as the manager generates it: no blanks around it. *)
Definition idOk (id : string) : Prop := id <> "" /\ str_trim id = id.
Definition knows (a : agent) : Prop := ag_nodeId a <> "" /\ exists text, ag_file a = Some text /\ str_trim text <> "".

Lemma knows_step a e :
  knows a -> (forall id w, e = Accepted id w -> idOk id) ->
  knows (step a e).1 /\ forall t, RegisterToken t ∉ (step a e).2.
Proof.
  intros [Hn (text & Hf & Ht)] Hid.
  assert (knows a) as Hk by (split; [done|]; by exists text).
  assert (forall id w, idOk id -> knows (onAccepted id w a).1) as Hacc.
  { intros id w [I1 I2]. split; [done|]. cbn. destruct w; [exists id; by rewrite I2|by exists text]. }
  assert (knows (boot (ag_file a) (ag_env a) (ag_token a))) as Hb.
  { split; [|by exists text]. cbn. unfold Identity.resolveNodeId. rewrite Hf. by rewrite (proj2 (String.eqb_neq _ _) Ht). }
  assert (knows (onOpen a).1 /\ forall t, RegisterToken t ∉ (onOpen a).2) as Ho.
  { unfold onOpen. cbn -[String.eqb]. rewrite (proj2 (String.eqb_neq _ _) Hn). split; [done|]. intros t. cbn. intros Hx. rewrite !elem_of_cons, elem_of_nil in Hx. naive_solver. }
  assert (forall t, RegisterToken t ∉ [Setup]) as Hs by (intros t [?|?%elem_of_nil]%elem_of_cons; done).
  destruct e as [| |id w| | | |]; cbn [step]; destruct (ag_phase a) as [ms| |r|];
    try (split; [done|intros t; apply not_elem_of_nil]); try done;
    destruct (Hacc id w (Hid id w eq_refl)) as [K1 K2]; by split; [split|].
Qed.

Lemma run_knows es a :
  knows a -> (forall id w, Accepted id w ∈ es -> idOk id) -> forall t, RegisterToken t ∉ (run a es).2.
Proof.
  revert a. induction es as [|e es IH]; intros a Hk Hid t; cbn [run]; [apply not_elem_of_nil|].
  destruct (knows_step a e Hk) as [H1 H2]; [intros id w ->; apply (Hid id w); left|].
  destruct (step a e) as [a1 os]. cbn [fst snd] in *. specialize (IH a1 H1 ltac:(intros id w H; apply (Hid id w); by right) t).
  destruct (run a1 es) as [a2 os']. cbn [snd] in *. rewrite elem_of_app. intros [H|H]; [by apply (H2 t)|done].
Qed.

(** A token is spent once.  Once an agent was accepted and could write its id down, it
    never sends its token again, through any number of disconnects, refusals and restarts. *)
Theorem token_sent_once before id after t a :
  let '(a0, _) := run a before in
  (exists r, ag_phase a0 = Open_ r) -> (forall i w, Accepted i w ∈ Accepted id true :: after -> idOk i) ->
  RegisterToken t ∉ (run a0 (Accepted id true :: after)).2.
Proof.
  destruct (run a before) as [a0 os0]. intros [r Hr] Hid. cbn [run step]. rewrite Hr.
  pose proof (Hid id true ltac:(left)) as [I1 I2].
  pose proof (run_knows after (onAccepted id true a0).1) as H. unfold onAccepted in *. cbn [fst] in H.
  set (a1 := Agent id (ag_delay a0) (Open_ true) (Some id) (ag_env a0) (ag_token a0)) in *.
  destruct (run a1 after) as [a2 os] eqn:E. cbn [snd]. rewrite elem_of_app, list_elem_of_singleton. intros [?|Hin]; [done|].
  apply (H ltac:(split; [done|]; exists id; by rewrite I2)) in Hin; [done|].
  intros i w Hi. apply (Hid i w). by right.
Qed.

(** An id that could not be written is lost with the process: the agent sends the token it
    has spent, which the manager refuses from then on, every second. *)
Lemma unwritten_id_is_lost id token a tok :
  token <> "" -> ag_file a = None -> ag_env a = None -> ag_token a = token -> ag_phase a = Open_ false ->
  (run a [Accepted id false; Restart; Opened]).2 = [Setup; RegisterToken token] /\
  (jt_revokedAt tok = None -> is_Some (jt_usedAt tok) -> forall now, AgentHub.tokenRefusal now tok = Some "Token has already been used") /\
  ag_phase (run a [Accepted id false; Restart; Opened; Rejected; Closed; Connect; Opened; Rejected; Closed]).1 = Waiting 1000.
Proof.
  intros Ht Hf He Hk Hp. destruct a as [i d p f e k]. cbn in *. subst f e k p. destruct token as [|c t]; [done|]. split; [reflexivity|].
  split; [|reflexivity]. intros Hr Hu now. unfold AgentHub.tokenRefusal. rewrite Hr.
  rewrite bool_decide_false by (by intros [? ?]). by rewrite bool_decide_true.
Qed.

End LinkFacts.

(** * The fast fabric *)

Module FastIpFacts.
Import FastIp NodeOps.Wol.

(** The mask of a prefix keeps the bits above it. *)
Lemma maskInt_bits p : (0 <= p <= 32)%Z -> maskInt (Some p) = Z.ldiff (Z.ones 32) (Z.ones (32 - p)).
Proof.
  intros H. assert (forallb (fun n => maskInt (Some (Z.of_nat n)) =? Z.ldiff (Z.ones 32) (Z.ones (32 - Z.of_nat n)))%Z (seq 0 33) = true) as Hall
    by (by vm_compute).
  rewrite forallb_forall in Hall. specialize (Hall (Z.to_nat p)). rewrite Z2Nat.id in Hall by lia.
  apply Z.eqb_eq, Hall, in_seq. lia.
Qed.

Lemma mod_ones z n : (0 <= n)%Z -> (z mod 2 ^ n)%Z = Z.land z (Z.ones n).
Proof. intros H. by rewrite Z.land_ones. Qed.

Lemma to_int32_ones z : Z.land (to_int32 z) (Z.ones 32) = Z.land z (Z.ones 32).
Proof. rewrite <- !mod_ones by lia. apply to_int32_mod. Qed.

Lemma band_keep x p : (0 <= x < 2 ^ 32)%Z -> (0 <= p <= 32)%Z -> band x (maskInt (Some p)) = (x / 2 ^ (32 - p) * 2 ^ (32 - p))%Z.
Proof.
  intros Hx Hp. unfold band. rewrite ushr_0, mod_ones by lia. set (M := maskInt (Some p)).
  replace (Z.land (Z.land (to_int32 x) (to_int32 M)) (Z.ones 32))
    with (Z.land (Z.land (to_int32 x) (Z.ones 32)) (Z.land (to_int32 M) (Z.ones 32))).
  2:{ apply Z.bits_inj'. intros n Hn. rewrite !Z.land_spec. by destruct (Z.testbit (to_int32 x) n), (Z.testbit (to_int32 M) n), (Z.testbit (Z.ones 32) n). }
  rewrite !to_int32_ones. unfold M. rewrite maskInt_bits by done.
  assert (Z.land x (Z.ones 32) = x) as -> by (rewrite <- mod_ones by lia; by apply Z.mod_small).
  rewrite <- Z.shiftr_div_pow2, <- Z.shiftl_mul_pow2, <- Z.ldiff_ones_r by lia.
  apply Z.bits_inj'. intros n Hn. rewrite !Z.land_spec, !Z.ldiff_spec.
  assert (Z.testbit x n = Z.testbit x n && Z.testbit (Z.ones 32) n) as Hb.
  { rewrite <- Z.land_spec. f_equal. rewrite <- mod_ones by lia. symmetry. by apply Z.mod_small. }
  destruct (Z.testbit (Z.ones 32) n) eqn:E; cbn; [by rewrite andb_true_r|]. rewrite andb_false_r in Hb. by rewrite Hb.
Qed.

Lemma ipToInt_range ip : (0 <= ipToInt ip < 2 ^ 32)%Z.
Proof.
  unfold ipToInt. enough (forall l acc, (0 <= acc < 2 ^ 32)%Z -> (0 <= foldl (fun acc oct => match parseInt10 oct with Some o => ushr (shl acc 8 + o) 0 | None => 0%Z end) acc l < 2 ^ 32)%Z) as H by (apply H; lia).
  induction l as [|o l IH]; intros acc Hacc; [done|]. cbn [foldl]. apply IH. destruct (parseInt10 o); [|lia].
  rewrite ushr_0. apply Z.mod_pos_bound. lia.
Qed.

(** The integer of a dotted address. *)
Lemma ipToInt_spec ip a b c d va vb vc vd :
  str_split "." ip = [a; b; c; d] -> parseInt10 a = Some va -> parseInt10 b = Some vb -> parseInt10 c = Some vc -> parseInt10 d = Some vd ->
  (0 <= va < 256 -> 0 <= vb < 256 -> 0 <= vc < 256 -> 0 <= vd < 256 ->
   ipToInt ip = va * 2 ^ 24 + vb * 2 ^ 16 + vc * 2 ^ 8 + vd)%Z.
Proof.
  intros Hs Ha Hb Hc Hd ? ? ? ?. unfold ipToInt. rewrite Hs. cbn [foldl]. rewrite Ha, Hb, Hc, Hd, !ushr_0, !shl8_add_mod.
  change (2 ^ 32)%Z with 4294967296%Z. change (2 ^ 24)%Z with 16777216%Z. change (2 ^ 16)%Z with 65536%Z. change (2 ^ 8)%Z with 256%Z.
  rewrite (Z.mod_small (0 * 256 + va)) by lia. rewrite (Z.mod_small (va * 256 + vb)) by lia.
  rewrite (Z.mod_small ((va * 256 + vb) * 256 + vc)) by lia. rewrite Z.mod_small; lia.
Qed.

(** In a subnet: the same high bits. *)
Lemma inSubnet_spec subnet base bits p ip :
  str_split "/" subnet = [base; bits] -> parseInt10 bits = Some p -> (0 <= p <= 32)%Z ->
  inSubnet subnet ip = true <-> (ipToInt ip / 2 ^ (32 - p) = ipToInt base / 2 ^ (32 - p))%Z.
Proof.
  intros Hs Hb Hp. unfold inSubnet. rewrite Hs. cbn [lookup list_lookup head default mbind option_bind]. rewrite Hb.
  rewrite !band_keep by (done || apply ipToInt_range). rewrite Z.eqb_eq.
  assert (0 < 2 ^ (32 - p))%Z by (apply Z.pow_pos_nonneg; lia). split; [|by intros ->]. intros E. by apply Z.mul_cancel_r in E; [|lia].
Qed.

(** The address on the fast fabric.  It is one of the node's own addresses and in one
    of the subnets, the first subnet (the left one wins) that any of them is in, and the first
    of the node's addresses in it; there is none exactly when no address is in any subnet. *)
Theorem fast_ip_spec out subnets :
  let cs := candidatesOf out in
  match detectFastIp (Some out) subnets with
  | Some ip => exists before s after earlier later,
      subnets = before ++ s :: after /\ cs = earlier ++ ip :: later /\ inSubnet s ip = true /\
      (forall i, i ∈ earlier -> inSubnet s i = false) /\ (forall b i, b ∈ before -> i ∈ cs -> inSubnet b i = false)
  | None => forall s i, s ∈ subnets -> i ∈ cs -> inSubnet s i = false
  end.
Proof.
  cbn zeta. unfold detectFastIp. cbn [mbind option_bind]. set (cs := candidatesOf out).
  induction subnets as [|s ss IH]; cbn [firstFast]; [intros s i Hs; by apply not_elem_of_nil in Hs|].
  destruct (js_find (inSubnet s) cs) as [ip|] eqn:E.
  - assert (exists earlier later, cs = earlier ++ ip :: later /\ inSubnet s ip = true /\ forall i, i ∈ earlier -> inSubnet s i = false) as (e & l & H1 & H2 & H3).
    { clear IH. induction cs as [|x cs IH]; [done|]. cbn in E. destruct (inSubnet s x) eqn:Ex.
      - injection E as <-. exists [], cs. split; [done|]. split; [done|]. intros i Hi. by apply not_elem_of_nil in Hi.
      - destruct (IH E) as (e & l & -> & H2 & H3). exists (x :: e), l. split; [done|]. split; [done|].
        intros i [->|Hi]%elem_of_cons; [done|by apply H3]. }
    exists [], s, ss, e, l. split; [done|]. split; [done|]. split; [done|]. split; [done|]. intros b i Hb. by apply not_elem_of_nil in Hb.
  - rewrite js_find_None in E. destruct (firstFast cs ss) as [ip|].
    + destruct IH as (b & s' & a & e & l & -> & H1 & H2 & H3 & H4). exists (s :: b), s', a, e, l. split; [done|]. split; [done|].
      split; [done|]. split; [done|]. intros x i [->|Hx]%elem_of_cons Hi; [by apply E|by apply (H4 x)].
    + intros x i [->|Hx]%elem_of_cons Hi; [by apply E|by apply IH].
Qed.

End FastIpFacts.

(** * A tick, and going down *)

Module DownFacts.
Import Link PowerDown NodeOps.Power.

Lemma enrich_idle ss ds :
  (Tick.enrich ss ds).1 = None <->
  forall s, s ∈ ss ++ ds -> Health.vs_containerRunning s = false.
Proof.
  unfold Tick.enrich. destruct (List.filter Health.vs_containerRunning ss) as [|x l] eqn:Es, (List.filter Health.vs_containerRunning ds) as [|y m] eqn:Ed; cbn.
  - split; [|done]. intros _ s Hs. apply not_true_iff_false. intros Hr. apply elem_of_app in Hs as [Hs|Hs];
      [assert (s ∈ List.filter Health.vs_containerRunning ss) as H by (by apply elem_of_filter_bool); rewrite Es in H
      |assert (s ∈ List.filter Health.vs_containerRunning ds) as H by (by apply elem_of_filter_bool); rewrite Ed in H];
      by apply not_elem_of_nil in H.
  - split; [done|]. intros H. assert (y ∈ List.filter Health.vs_containerRunning ds) as [Hy Hr]%elem_of_filter_bool by (rewrite Ed; left).
    rewrite (H y) in Hr by (apply elem_of_app; by right). done.
  - split; [done|]. intros H. assert (x ∈ List.filter Health.vs_containerRunning ss) as [Hy Hr]%elem_of_filter_bool by (rewrite Es; left).
    rewrite (H x) in Hr by (apply elem_of_app; by left). done.
  - split; [done|]. intros H. assert (x ∈ List.filter Health.vs_containerRunning ss) as [Hy Hr]%elem_of_filter_bool by (rewrite Es; left).
    rewrite (H x) in Hr by (apply elem_of_app; by left). done.
Qed.

Lemma split_all (p : ascii -> bool) sep s : p sep = true -> Forall (fun w => str_all p w = true) (str_split sep s) -> str_all p s = true.
Proof.
  intros Hsep. induction s as [|c s IH]; [done|]. cbn [str_split str_all]. destruct (Ascii.eqb_spec c sep) as [-> |].
  - intros [_ H]%Forall_cons. by rewrite Hsep, IH.
  - destruct (str_split sep s) as [|w ws]; intros [H1 H2]%Forall_cons; cbn in H1; apply andb_prop in H1 as [Hc H1]; rewrite Hc; cbn.
    + by apply IH.
    + apply IH. by constructor.
Qed.

Lemma plain_normal s : str_all (fun c => negb (is_ws c) && negb (is_upper c)) s = true -> str_lower (str_trim s) = s.
Proof.
  intros H. assert (trim_left s = s) as Hl by (destruct s as [|c s]; [done|]; cbn in H |- *; by destruct (is_ws c)).
  unfold str_trim. rewrite Hl. clear Hl. assert (trim_right s = s) as ->.
  { induction s as [|c s IH]; [done|]. cbn in H |- *. apply andb_prop in H as [Hc H]. rewrite (IH H). destruct s; [|done].
    by destruct (is_ws c). }
  unfold str_lower. induction s as [|c s IH]; [done|]. cbn in H |- *. apply andb_prop in H as [Hc H]. rewrite (IH H).
  unfold lower_char. apply andb_prop in Hc as [_ Hc]. by destruct (is_upper c).
Qed.

(** An address in the form the rules want is its own normal form. *)
Lemma normalizeMac_id mac : Mac.MAC_RE mac = true -> Mac.normalizeMac mac = Some mac.
Proof.
  intros H. assert (str_lower (str_trim mac) = mac) as E; [|unfold Mac.normalizeMac; by rewrite E, H].
  apply plain_normal, (split_all _ ":"); [done|]. unfold Mac.MAC_RE in H. apply andb_prop in H as [_ H].
  apply Forall_forall. intros w Hw. rewrite forallb_forall in H. apply list_elem_of_In, H in Hw.
  unfold Mac.octet2 in Hw. apply andb_prop in Hw as [_ Hw]. revert Hw. apply str_all_impl. intros c Hc.
  unfold Mac.is_hex, is_ws, is_upper, is_digit, in_range in *. apply orb_prop in Hc as [Hc|Hc];
    apply andb_prop in Hc as [H1%N.leb_le H2%N.leb_le]; rewrite andb_true_iff, !negb_true_iff, orb_false_iff, !andb_false_iff, N.eqb_neq, !N.leb_gt; lia.
Qed.

(** Going down is acknowledged when it was launched.  The agent answers a request once;
    it says accepted exactly when the action is one of the three and the command that does it
    was launched, the same command the manager sends over SSH; and an address of the right
    form that it reports is the one the node's row holds afterwards. *)
Theorem power_acknowledged action force route address now launch :
  let '(m, cmds) := onPower action force route address now launch in
  ((exists x f mac, m = PowerAccepted x f mac) <->
   exists a, parseAction action = Some a /\
     launch (script (NodeOps.Power.powerCommand a force)) (PowerCmd.powerLaunchCommand (PowerCmd.powerUnitName now) "/tmp/dgx-power.sh") = None) /\
  (forall x f mac w n row, m = PowerAccepted x f (Some mac) -> Mac.MAC_RE mac = true -> tbl_find n (nodes (w_db w)) = Some row ->
     n_macAddress <$> tbl_find n (nodes (w_db (AgentHub.onPowerAccepted w n mac).1)) = Some (Some mac)).
Proof.
  unfold onPower. assert (forall mac w n row, Mac.MAC_RE mac = true -> tbl_find n (nodes (w_db w)) = Some row ->
     n_macAddress <$> tbl_find n (nodes (w_db (AgentHub.onPowerAccepted w n mac).1)) = Some (Some mac)) as Hrow.
  { intros mac w n row Hm Hf. unfold AgentHub.onPowerAccepted. rewrite normalizeMac_id by done. cbn [fst].
    by rewrite AgentHubFacts.tbl_find_quiet, String.eqb_refl, Hf. }
  destruct (parseAction action) as [a|].
  2:{ split; [|intros; by eapply Hrow]. split; [by intros (? & ? & ? & ?)|by intros (? & ? & _)]. }
  destruct (readMac a route address) as [mac armed]. rewrite (ReportFacts.agent_power_command a force).
  destruct (launch _ _) as [err|] eqn:E; (split; [|intros; by eapply Hrow]); split.
  - by intros (? & ? & ? & ?).
  - intros (a' & [= <-] & Hl). by rewrite E in Hl.
  - intros _. by exists a.
  - intros _. by eexists _, _, _.
Qed.

End DownFacts.

(** * Examples *)

Module Examples.
Import Link FastIp.

Definition ipOut : string :=
  str_join (String nl "") ["1: lo    inet 127.0.0.1/8 scope host lo"; "5: enp1s0    inet 192.168.44.17/24 brd 192.168.44.255 scope global";
                           "7: enP2p1    inet 192.168.100.17/24 brd 192.168.100.255"].

Example fast_ips :
  map (fun e => detectFastIp (Some ipOut) (FAST_NET_SUBNETS e))
    [None; Some "10.0.0.0/8, 192.168.44.0/24"; Some "10.0.0.0/8"; Some "192.168.44.17"; Some "0.0.0.0/0"] =
  [Some "192.168.100.17"; Some "192.168.44.17"; None; Some "192.168.44.17"; Some "127.0.0.1"].
Proof. by vm_compute. Qed.

Example identities :
  map (fun x => Identity.resolveNodeId x.1 x.2) [(Some "n1 ", Some "n2"); (Some " ", Some "n2"); (None, Some "unknown"); (None, None)] =
  ["n1"; "n2"; ""; ""].
Proof. by vm_compute. Qed.

Example first_days :
  (run (boot None None "tok") [Opened; Accepted "n1" true; Closed; Connect; Opened; Restart; Opened]).2 =
  [RegisterToken "tok"; Setup; Register "n1"; Setup; Register "n1"; Setup].
Proof. by vm_compute. Qed.

Lemma token_sent_once_witness :
  RegisterToken "tok" ∉ (run (run (boot None None "tok") [Opened]).1 (Accepted "n1" true :: [Closed; Connect; Opened; Rejected; Restart; Opened])).2.
Proof.
  apply (LinkFacts.token_sent_once [Opened] "n1" [Closed; Connect; Opened; Rejected; Restart; Opened] "tok" (boot None None "tok")).
  - by exists false.
  - intros i w Hin. assert (i = "n1") as -> by (rewrite !elem_of_cons, elem_of_nil in Hin; naive_solver). by split.
Defined.

End Examples.
