(* ===== verification/Admin.v ===== *)
(** The manager's smaller tables and lists: join tokens in [Tokens] ([routes/tokens.ts]),
    settings in [Settings] ([routes/settings.ts]), datasets in [Datasets]
    ([routes/datasets.ts]), models in [Models] ([routes/models.ts]), the recipe lists in
    [Lists] ([routes/recipes.ts], [routes/training-recipes.ts],
    [deployments/dgxrun-catalog.ts]), and who is told of events in [Sinks] ([sse.ts],
    [ws/dashboard-hub.ts]).

    Random tokens, generated ids, dates and the parsers are arguments; a refused write is a
    throw, which the server answers with 500. *)
From S2P Require Import Prelude JsNum Schema Admission Gateway Recipes Routes AgentHub OllamaCatalog.

Module Tokens.

(** A row: what registration reads of it, and the columns only the list shows. *)
Record tokenRow := TokenRow { tr_token : join_token; tr_label : option string; tr_createdAt : Z }.
#[export] Instance tokenRow_hasid : HasId tokenRow := fun r => jt_id (tr_token r).

(** [expiresAt]: a date as [new Date] makes it of the body's value, [None] being no date. *)
Definition createToken (id token : string) (label : option string) (expiresAt : option (option Z)) (now : Z)
    (rows : list tokenRow) : result string (list tokenRow * tokenRow) :=
  match expiresAt with
  | Some None => Err "Invalid date"
  | _ =>
      let r := TokenRow (JoinToken id token (match expiresAt with Some d => d | None => None end) None None None) (truthy label) now in
      Ok (rows ++ [r], r)
  end.

Inductive tokenStatus := SRevoked | SUsed | SExpired | SActive.
#[export] Instance tokenStatus_eq_dec : EqDecision tokenStatus.
Proof. solve_decision. Defined.

Definition statusOf (now : Z) (t : join_token) : tokenStatus :=
  if bool_decide (is_Some (jt_revokedAt t)) then SRevoked
  else if bool_decide (is_Some (jt_usedAt t)) then SUsed
  else match jt_expiresAt t with
       | Some e => if (e <? now)%Z then SExpired else SActive
       | None => SActive
       end.

Record masked := Masked {
  mk_id : string; mk_label : option string; mk_tokenSuffix : string; mk_expiresAt : option Z; mk_usedAt : option Z;
  mk_usedByNodeId : option string; mk_revokedAt : option Z; mk_createdAt : Z; mk_status : tokenStatus }.

(** [s.slice(-8)] *)
Definition last8 (s : string) : string := str_drop (String.length s - 8) s.

Definition mask (now : Z) (r : tokenRow) : masked :=
  let t := tr_token r in
  Masked (jt_id t) (tr_label r) (last8 (jt_token t)) (jt_expiresAt t) (jt_usedAt t) (jt_usedByNodeId t) (jt_revokedAt t)
    (tr_createdAt r) (statusOf now t).

Definition listTokens (now : Z) (rows : list tokenRow) : list masked :=
  map (mask now) (js_sort (fun a b => (tr_createdAt b <=? tr_createdAt a)%Z) rows).

Definition revoke (now : Z) (r : tokenRow) : tokenRow :=
  let t := tr_token r in
  TokenRow (JoinToken (jt_id t) (jt_token t) (jt_expiresAt t) (jt_usedAt t) (jt_usedByNodeId t) (Some now)) (tr_label r) (tr_createdAt r).

(** [DELETE]: no such row is a throw. *)
Definition revokeToken (id : string) (now : Z) (rows : list tokenRow) : option (list tokenRow) :=
  match tbl_find id rows with Some _ => Some (tbl_update id (revoke now) rows) | None => None end.

(** Registration's write, from [AgentHub]. *)
Definition markUsed (now : Z) (nodeId : string) (r : tokenRow) : tokenRow :=
  let t := tr_token r in
  TokenRow (JoinToken (jt_id t) (jt_token t) (jt_expiresAt t) (Some now) (Some nodeId) (jt_revokedAt t)) (tr_label r) (tr_createdAt r).

End Tokens.

Module Settings.

(** [String(v)] *)
Fixpoint js_String (v : json) : string :=
  match v with
  | JNull => "null"
  | JBool b => if b then "true" else "false"
  | JNum n => num_str n
  | JStr s => s
  | JArr l => str_join "," (map (fun x => match x with JNull => "" | _ => js_String x end) l)
  | JObj _ => "[object Object]"
  end.

Definition getSettings (s : OllamaCatalog.Catalog.settings) : OllamaCatalog.Catalog.settings := s.

(** [PUT]: an upsert for each entry of the body. *)
Definition putSettings (body : list (string * json)) (s : OllamaCatalog.Catalog.settings) : OllamaCatalog.Catalog.settings :=
  foldl (fun s kv => OllamaCatalog.Catalog.writeSetting kv.1 (js_String kv.2) s) s body.

End Settings.

Module Datasets.

Record dataset := Dataset {
  ds_id : string; ds_name : string; ds_description : option string; ds_format : string; ds_source : string;
  ds_path : option string; ds_huggingfaceId : option string; ds_size : option Z; ds_sampleCount : option Z }.
#[export] Instance dataset_hasid : HasId dataset := ds_id.

Inductive entry := File (text : string) | Dir.
Notation disk := (gmap string entry).

Section Routes.
(** [JSON.parse]; the storage's directory of datasets. *)
Context (parse : string -> option json) (DATASETS_DIR : string).

Definition hasKey (l : list (string * json)) (k : string) : bool := bool_decide (is_Some (obj_get l k)).

Definition detectFormat (row : list (string * json)) : string :=
  if hasKey row "conversations" then "sharegpt"
  else if hasKey row "messages" then "openai"
  else if hasKey row "instruction" then "instruct"
  else if hasKey row "question" || hasKey row "context" then "qa"
  else "jsonl".

(** The lines that are not blank: a carriage return ends a line too. *)
Definition samples (text : string) : list string :=
  List.filter (fun l => negb (String.eqb (str_trim l) ""))
    (str_split nl (str_map (fun c => if (code c =? 13)%N then nl else c) text)).

(** [in] throws on what is no object, and on an array finds none of the keys. *)
Definition formatOf (line : string) : string :=
  match parse line with Some (JObj l) => detectFormat l | _ => "jsonl" end.

Definition analyzeFile (text : string) : Z * string :=
  let ls := samples text in
  (Z.of_nat (length ls), match ls with l :: _ => formatOf l | [] => "jsonl" end).

Inductive reply := Created (d : dataset) | BadRequest (error : string) | NotFound (error : string) | Throw
                 | Preview (rows : list json) (message : option string) | Deleted.

Record body := {
  b_name : option string; b_description : option string; b_format : option string; b_source : option string;
  b_path : option string; b_huggingfaceId : option string }.
(** The file multer stored: where, and its name. *)
Record upload := { up_path : string; up_originalname : string }.

Definition explicit (f : option string) : option string :=
  f ← truthy f; if String.eqb f "auto" then None else Some f.

(** The columns are 32-bit integers. *)
Definition int32 (z : Z) : bool := (-2147483648 <=? z)%Z && (z <=? 2147483647)%Z.

Definition postUpload (newId name : string) (b : body) (f : upload) (rows : list dataset) (fs : disk) :
    list dataset * disk * reply :=
  let d := Dataset newId name (truthy (b_description b)) (js_or (b_format b) "jsonl") "upload" None None None None in
  let dir := DATASETS_DIR +:+ "/" +:+ newId in
  let dest := dir +:+ "/" +:+ up_originalname f in
  match fs !! up_path f with
  | Some (File text) =>
      let fs' := delete (up_path f) (<[dest := File text]> (<[dir := Dir]> fs)) in
      let size := Z.of_nat (String.length text) in
      let '(count, detected) := analyzeFile text in
      let d' := Dataset newId name (truthy (b_description b)) (default detected (explicit (b_format b))) "upload"
                  (Some dest) None (Some size) (Some count) in
      if int32 size && int32 count then (rows ++ [d'], fs', Created d') else (rows ++ [d], fs', Throw)
  | _ => (rows ++ [d], <[dir := Dir]> fs, Throw)
  end.

Definition postPath (newId name path : string) (b : body) (rows : list dataset) (fs : disk) : list dataset * disk * reply :=
  let make fmt size count :=
    Dataset newId name (truthy (b_description b)) fmt "path" (Some path) None size count in
  match fs !! path with
  | None => let d := make (js_or (b_format b) "jsonl") None None in (rows ++ [d], fs, Created d)
  | Some Dir => (rows, fs, Throw)
  | Some (File text) =>
      let size := Z.of_nat (String.length text) in
      let '(count, detected) := analyzeFile text in
      let d := make (default detected (explicit (b_format b))) (Some size) (Some count) in
      if int32 size && int32 count then (rows ++ [d], fs, Created d) else (rows, fs, Throw)
  end.

Definition postDataset (newId : string) (b : body) (file : option upload) (rows : list dataset) (fs : disk) :
    list dataset * disk * reply :=
  match truthy (b_name b) with
  | None => (rows, fs, BadRequest "name is required")
  | Some name =>
      match file with
      | Some f => postUpload newId name b f rows fs
      | None =>
          if bool_decide (truthy (b_source b) = Some "huggingface") then
            match truthy (b_huggingfaceId b) with
            | None => (rows, fs, BadRequest "huggingfaceId is required for HuggingFace datasets")
            | Some hf => let d := Dataset newId name (truthy (b_description b)) (js_or (b_format b) "jsonl") "huggingface"
                                    None (Some hf) None None in
                         (rows ++ [d], fs, Created d)
            end
          else
            match truthy (b_path b) with
            | None => (rows, fs, BadRequest "path is required, or upload a file")
            | Some path => postPath newId name path b rows fs
            end
      end
  end.

(** [limit]: [parseInt(req.query.limit) || 10]. *)
Definition parseLine (line : string) : json := default (JObj [("_raw", JStr line)]) (parse line).
Definition previewLimit (limit : Z) : nat := Z.to_nat (Z.max 1 (Z.min (if (limit =? 0)%Z then 10 else limit) 100)).

Definition previewDataset (id : string) (limit : Z) (rows : list dataset) (fs : disk) : reply :=
  match tbl_find id rows with
  | None => NotFound "Dataset not found"
  | Some d =>
      if String.eqb (ds_source d) "huggingface" then Preview [] (Some "Preview not available for HuggingFace datasets")
      else
        match path ← truthy (ds_path d); fs !! path with
        | None => NotFound "Dataset file not found on disk"
        | Some Dir => Throw
        | Some (File text) => Preview (map parseLine (take (previewLimit limit) (samples text))) None
        end
  end.

(** [rm(dir, { recursive: true })] *)
Definition under (dir p : string) : bool := String.eqb p dir || String.prefix (dir +:+ "/") p.
Definition rmTree (dir : string) (fs : disk) : disk := filter (fun p => under dir p.1 = false) fs.

Definition deleteDataset (id : string) (rows : list dataset) (fs : disk) : list dataset * disk * reply :=
  match tbl_find id rows with
  | None => (rows, fs, NotFound "Dataset not found")
  | Some d =>
      (tbl_delete id rows,
       if String.eqb (ds_source d) "upload" then rmTree (DATASETS_DIR +:+ "/" +:+ ds_id d) fs else fs, Deleted)
  end.

Definition getDataset (id : string) (rows : list dataset) : result string dataset :=
  of_option (tbl_find id rows) "Dataset not found".

End Routes.

End Datasets.

Module Models.

(** [POST], [DELETE]: a name is unique, a row that does not exist or that deployments refer to
    is not deleted. *)
Definition createModel (newId : string) (name runtime : option string) (models : list model_row) :
    list model_row * result string model_row :=
  match truthy name, truthy runtime with
  | Some n, Some r =>
      if existsb (fun m => String.eqb (m_name m) n) models then (models, Err "Unique constraint failed")
      else let m := ModelRow newId n r None in (models ++ [m], Ok m)
  | _, _ => (models, Err "name and runtime required")
  end.

Definition deleteModel (id : string) (ds : list deployment) (models : list model_row) : list model_row * result string () :=
  match tbl_find id models with
  | None => (models, Err "Record to delete does not exist")
  | Some _ => if existsb (fun d => String.eqb (d_modelId d) id) ds then (models, Err "Foreign key constraint violated")
              else (tbl_delete id models, Ok ())
  end.

End Models.

Module Lists.
Import Recipes.Recipe.

(** [_cache]: what was read, until it is dropped; [load]: the directory as it is now. *)
Definition getDgxrunCatalog (cache : option (list CatalogRecipe)) (load : list CatalogRecipe) :
    list CatalogRecipe * option (list CatalogRecipe) :=
  match cache with Some c => (c, cache) | None => (load, Some load) end.
Definition refreshDgxrunCatalog : option (list CatalogRecipe) := None.

Definition archName (a : Arch.RecipeArch) : string :=
  match a with Arch.Amd64 => "amd64" | Arch.Arm64 => "arm64" | Arch.AnyArch => "any" end.

(** An entry of the answer: of the catalog or of an agent. *)
Definition offered := (CatalogRecipe + agentRecipe)%type.
Definition offeredArch (r : offered) : string :=
  match r with inl c => cr_arch c | inr a => archName (ar_arch a) end.

(** [node]: the row of the queried node and its architecture. *)
Definition listRecipes (catalog : list CatalogRecipe) (agents : list agentRecipe) (nodeId : option string) (ns : list node) :
    list offered :=
  let recipes := map inl catalog ++ map inr agents in
  match truthy (n ← (i ← truthy nodeId; tbl_find i ns); n_arch n) with
  | None => recipes
  | Some arch => List.filter (fun r => String.eqb (offeredArch r) arch || String.eqb (offeredArch r) "any") recipes
  end.

(** [POST /refresh]: the nodes that are in the map are sent an order; the answer counts them. *)
Definition refreshRecipes (w : AgentHub.world) : list (option nat) * nat :=
  let ids := elements (AgentHub.getConnectedNodeIds w) in
  (map (AgentHub.sendToAgent w) ids, length ids).

End Lists.

Module Sinks.

(** The streams of the dashboards, and its sockets with whether they are open. *)
Record sinks := { sse : gset nat; sockets : gmap nat bool }.
Inductive event :=
  | Sse (client : nat) | SseClosed (client : nat)
  | Socket (ws : nat) | SocketClosing (ws : nat) | SocketClosed (ws : nat).

Definition onEvent (s : sinks) (e : event) : sinks :=
  match e with
  | Sse c => {| sse := {[c]} ∪ sse s; sockets := sockets s |}
  | SseClosed c => {| sse := sse s ∖ {[c]}; sockets := sockets s |}
  | Socket w => {| sse := sse s; sockets := <[w := true]> (sockets s) |}
  | SocketClosing w => {| sse := sse s; sockets := match sockets s !! w with Some _ => <[w := false]> (sockets s) | None => sockets s end |}
  | SocketClosed w => {| sse := sse s; sockets := delete w (sockets s) |}
  end.

(** Who gets a broadcast of either kind. *)
Definition broadcast (s : sinks) : gset nat := sse s.
Definition broadcastWs (s : sinks) : gset nat := dom (filter (fun p => p.2 = true) (sockets s)).

End Sinks.
