(* ===== verification/AdminFacts.v ===== *)
(** Tokens are shown without giving them away and as registration judges them, a revoked one
    is dead for good; settings are what was last put; a dataset's row says what its file
    holds, and deleting it deletes nothing of another; broadcasts reach who is connected. *)
From S2P Require Import Prelude JsNum Schema Admission Gateway Recipes Routes AgentHub AgentHubFacts OllamaCatalog Admin.

(** * Tokens *)

Module TokenFacts.
Import Tokens.

(** What the list says of a token is what registration will say to whoever brings it. *)
Lemma status_refusal now t :
  AgentHub.tokenRefusal now t =
  match statusOf now t with
  | SRevoked => Some "Token has been revoked"
  | SUsed => Some "Token has already been used"
  | SExpired => Some "Token has expired"
  | SActive => None
  end.
Proof.
  unfold AgentHub.tokenRefusal, statusOf. destruct (bool_decide (is_Some (jt_revokedAt t))); [done|].
  destruct (bool_decide (is_Some (jt_usedAt t))); [done|]. destruct (jt_expiresAt t) as [e|]; [|done]. by destruct (e <? now)%Z.
Qed.

(** Everything the list may depend on: all of a row but the token before its last eight
    characters. *)
Definition sameButSecret (a b : tokenRow) : Prop :=
  tr_label a = tr_label b /\ tr_createdAt a = tr_createdAt b /\ last8 (jt_token (tr_token a)) = last8 (jt_token (tr_token b)) /\
  jt_id (tr_token a) = jt_id (tr_token b) /\ jt_expiresAt (tr_token a) = jt_expiresAt (tr_token b) /\
  jt_usedAt (tr_token a) = jt_usedAt (tr_token b) /\ jt_usedByNodeId (tr_token a) = jt_usedByNodeId (tr_token b) /\
  jt_revokedAt (tr_token a) = jt_revokedAt (tr_token b).

Lemma mask_same now a b : sameButSecret a b -> mask now a = mask now b.
Proof. intros (H1 & H2 & H3 & H4 & H5 & H6 & H7 & H8). unfold mask, statusOf. by rewrite H1, H2, H3, H4, H5, H6, H7, H8. Qed.

Lemma insert_same (le : tokenRow -> tokenRow -> bool) x y l k :
  (forall a b c d, sameButSecret a b -> sameButSecret c d -> le a c = le b d) ->
  sameButSecret x y -> Forall2 sameButSecret l k -> Forall2 sameButSecret (sort_insert le x l) (sort_insert le y k).
Proof.
  intros Hle Hxy H. induction H as [|a b l k Hab H IH]; cbn; [by constructor|].
  rewrite (Hle x y a b) by done. destruct (le y b); repeat (constructor; [done|]); done.
Qed.

(** The list keeps the secret and tells the truth.  Two tables that differ only in the
    tokens before their last eight characters give the same list; the list has a line for
    every row; and a line says active exactly when registration would let that token in at
    that moment, and otherwise the reason registration refuses it for. *)
Theorem tokens_listed now rows rows' :
  Forall2 sameButSecret rows rows' ->
  listTokens now rows = listTokens now rows' /\
  map mk_id (listTokens now rows) ≡ₚ map (fun r => jt_id (tr_token r)) rows /\
  forall m, m ∈ listTokens now rows -> exists r, r ∈ rows /\ m = mask now r /\
    AgentHub.tokenRefusal now (tr_token r) =
      match mk_status m with
      | SRevoked => Some "Token has been revoked"
      | SUsed => Some "Token has already been used"
      | SExpired => Some "Token has expired"
      | SActive => None
      end.
Proof.
  intros H. unfold listTokens. set (le := fun a b => (tr_createdAt b <=? tr_createdAt a)%Z). split; [|split].
  - assert (Forall2 sameButSecret (js_sort le rows) (js_sort le rows')) as Hs.
    { induction H as [|a b l k Hab H IH]; cbn; [constructor|]. apply insert_same; [|done|done].
      intros u v x y (_ & Hu & _) (_ & Hx & _). unfold le. by rewrite Hu, Hx. }
    induction Hs as [|a b l k Hab Hs IH]; [done|]. cbn. f_equal; [by apply mask_same|done].
  - rewrite map_map. cbn. apply Permutation_map. by rewrite js_sort_perm.
  - intros m (r & -> & Hr)%list_elem_of_fmap. exists r. rewrite js_sort_perm in Hr. split; [done|]. split; [done|]. apply status_refusal.
Qed.

(** What can happen to the table. *)
Inductive op :=
  | Create (id token : string) (label : option string) (expiresAt : option (option Z)) (now : Z)
  | Revoke (id : string) (now : Z)
  | Use (id nodeId : string) (now : Z).
Definition apply (rows : list tokenRow) (o : op) : list tokenRow :=
  match o with
  | Create id token label ex now => match createToken id token label ex now rows with Ok (rows', _) => rows' | Err _ => rows end
  | Revoke id now => default rows (revokeToken id now rows)
  | Use id n now => tbl_update id (markUsed now n) rows
  end.

Definition dead (token : string) (rows : list tokenRow) : Prop :=
  exists r, r ∈ rows /\ jt_token (tr_token r) = token /\ is_Some (jt_revokedAt (tr_token r)).

Lemma dead_update token id f rows :
  (forall r, jt_token (tr_token (f r)) = jt_token (tr_token r) /\ (is_Some (jt_revokedAt (tr_token r)) -> is_Some (jt_revokedAt (tr_token (f r))))) ->
  dead token rows -> dead token (tbl_update id f rows).
Proof.
  intros Hf (r & Hr & Ht & Hd). destruct (Hf r) as [H1 H2]. destruct (String.eqb (row_id r) id) eqn:E.
  - exists (f r). split; [apply elem_of_tbl_update; exists r; by rewrite E|]. rewrite H1. by auto.
  - exists r. split; [apply elem_of_tbl_update; exists r; by rewrite E|]. done.
Qed.

(** Revoking is for good: no later creation, use or revocation brings the row back, and
    whenever it is looked at, registration refuses it. *)
Lemma revoked_stays ops token rows now :
  dead token rows -> exists r, r ∈ foldl apply rows ops /\ jt_token (tr_token r) = token /\
    AgentHub.tokenRefusal now (tr_token r) = Some "Token has been revoked".
Proof.
  intros H. assert (dead token (foldl apply rows ops)) as (r & Hr & Ht & Hd).
  { revert rows H. induction ops as [|o ops IH]; intros rows H; [done|]. cbn. apply IH. destruct o as [id tk l ex n|id n|id nd n]; cbn.
    - unfold createToken. destruct H as (r & Hr & Hx). destruct ex as [[e|]|]; [exists r; split; [apply elem_of_app; by left|done]| |
        exists r; split; [apply elem_of_app; by left|done]]. by exists r.
    - unfold revokeToken. destruct (tbl_find id rows); cbn; [|done]. by apply dead_update.
    - by apply dead_update. }
  exists r. split; [done|]. split; [done|]. unfold AgentHub.tokenRefusal. by rewrite bool_decide_true.
Qed.

End TokenFacts.

(** * Settings *)

Module SettingFacts.
Import Settings.

(** A put changes the keys it names, to the text of its last value for them, and no other. *)
Lemma putSettings_spec body s k :
  putSettings body s !! k = match obj_get (rev body) k with Some v => Some (js_String v) | None => s !! k end.
Proof.
  unfold putSettings, OllamaCatalog.Catalog.settings in *. induction body as [|[k' v] body IH] using rev_ind; [done|]. rewrite foldl_app, rev_app_distr. cbn [foldl rev app fst snd].
  unfold OllamaCatalog.Catalog.writeSetting at 1. change OllamaCatalog.Catalog.settings with (gmap string string). unfold obj_get in *. cbn [al_get]. destruct (decide (k = k')) as [-> |Hne].
  - by rewrite lookup_insert_eq.
  - by rewrite lookup_insert_ne.
Qed.

End SettingFacts.

(** * Models *)

Module ModelFacts.
Import Models.

(** Names stay unique, and deployments never lose their model. *)
Lemma models_kept newId name runtime id (ds : list deployment) ms :
  NoDup (map m_name ms) -> Forall (fun d => is_Some (tbl_find (d_modelId d) ms)) ds ->
  NoDup (map m_name (createModel newId name runtime ms).1) /\
  NoDup (map m_name (deleteModel id ds ms).1) /\
  Forall (fun d => is_Some (tbl_find (d_modelId d) (deleteModel id ds ms).1)) ds.
Proof.
  intros Hn Hd. split; [|split].
  - unfold createModel. destruct (truthy name) as [n|]; [|done]. destruct (truthy runtime) as [r|]; [|done].
    destruct (existsb _ ms) eqn:E; [done|]. cbn. rewrite map_app. apply NoDup_app. split; [done|]. split; [|apply NoDup_singleton].
    intros x Hx ->%list_elem_of_singleton. apply list_elem_of_fmap in Hx as (m & E1 & Hm). cbn in E1.
    apply not_true_iff_false in E. apply E, existsb_exists. exists m. split; [by apply list_elem_of_In|]. rewrite E1. apply String.eqb_refl.
  - unfold deleteModel. destruct (tbl_find id ms); [|done]. destruct (existsb _ ds); [done|]. by apply NoDup_map_filter.
  - unfold deleteModel. destruct (tbl_find id ms); [|done]. destruct (existsb _ ds) eqn:E; [done|]. cbn [fst].
    rewrite Forall_forall in *. intros d Hin. rewrite tbl_find_delete; [by apply Hd|]. intros Hid.
    apply not_true_iff_false in E. apply E, existsb_exists. exists d. split; [by apply list_elem_of_In|]. by apply String.eqb_eq.
Qed.

End ModelFacts.

(** * Datasets *)

Module DatasetFacts.
Import Datasets.

Section Routes.
Context (parse : string -> option json) (DATASETS_DIR : string).
Notation post := (postDataset parse DATASETS_DIR).
Notation del := (deleteDataset DATASETS_DIR).
Notation ownDir id := (DATASETS_DIR +:+ "/" +:+ id).

(** What a row says of its file. *)
Definition describes (fs : disk) (d : dataset) : Prop :=
  match ds_size d, ds_sampleCount d with
  | Some size, Some count =>
      exists path text, ds_path d = Some path /\ fs !! path = Some (File text) /\
        size = Z.of_nat (String.length text) /\ count = Z.of_nat (length (samples text))
  | None, None => True
  | _, _ => False
  end.

Lemma length_app_ne (d x : string) : d <> d +:+ "/" +:+ x.
Proof. intros E. apply (f_equal String.length) in E. rewrite !str_length_app in E. cbn in E. lia. Qed.

(** A dataset's row says what its file holds.  A post changes the table only to append
    the row it answers, except that an upload whose size or whose number of lines is beyond 32
    bits, or whose temporary file is gone, leaves a row without a path and fails; a row with a
    size and a count has them of its file: its bytes, and its lines that are not blank; an
    upload's file is in the row's own directory, and nothing else on the disk but the temporary
    file and that directory is touched. *)
Theorem post_describes newId b file rows fs :
  (forall f, file = Some f -> under (ownDir newId) (up_path f) = false) ->
  let '(rows', fs', r) := post newId b file rows fs in
  (forall p, p <> default "" (up_path <$> file) -> under (ownDir newId) p = false -> fs' !! p = fs !! p) /\
  match r with
  | Created d => rows' = rows ++ [d] /\ describes fs' d /\
      (file <> None -> exists x, ds_path d = Some (ownDir newId +:+ "/" +:+ x))
  | BadRequest _ => rows' = rows /\ fs' = fs
  | Throw => rows' = rows /\ file = None \/
      exists f d, file = Some f /\ rows' = rows ++ [d] /\ ds_path d = None /\
        (forall text, fs !! up_path f = Some (File text) -> int32 (Z.of_nat (String.length text)) && int32 (Z.of_nat (length (samples text))) = false)
  | _ => False
  end.
Proof.
  intros Htmp. unfold postDataset. destruct (truthy (b_name b)) as [name|]; [|done]. destruct file as [f|].
  - specialize (Htmp f eq_refl). unfold postUpload. set (dir := ownDir newId) in *. cbn [fmap option_fmap option_map default].
    assert (forall x, under dir (dir +:+ "/" +:+ x) = true) as Hu.
    { intros x. unfold under. apply orb_true_iff. right. rewrite <- str_app_assoc. apply prefix_app. }
    assert (under dir dir = true) as Hd by (unfold under; by rewrite String.eqb_refl).
    destruct (fs !! up_path f) as [[text|]|] eqn:Ef; cbn [analyzeFile].
    + assert (forall p, p <> up_path f -> under dir p = false ->
        delete (up_path f) (<[dir +:+ "/" +:+ up_originalname f := File text]> (<[dir := Dir]> fs)) !! p = fs !! p) as Hfs.
      { intros p Hp Hup. rewrite lookup_delete_ne by done.
        rewrite !lookup_insert_ne; [done| |]; intros <-; [by rewrite Hd in Hup|by rewrite Hu in Hup]. }
      destruct (int32 _ && int32 _) eqn:E; (split; [done|]).
      * split; [done|]. split; [|intros _; by exists (up_originalname f)]. exists (dir +:+ "/" +:+ up_originalname f), text.
        split; [done|]. split; [|done]. rewrite lookup_delete_ne; [apply lookup_insert_eq|]. intros Eq. rewrite Eq, Hu in Htmp. done.
      * right. exists f. eexists. split; [done|]. split; [done|]. split; [done|]. intros t Ht. assert (t = text) as -> by congruence. done.
    + split; [intros p _ Hup; rewrite lookup_insert_ne; [done|]; intros <-; by rewrite Hd in Hup|].
      right. exists f. eexists. split; [done|]. split; [done|]. split; [done|]. intros t Ht. congruence.
    + split; [intros p _ Hup; rewrite lookup_insert_ne; [done|]; intros <-; by rewrite Hd in Hup|].
      right. exists f. eexists. split; [done|]. split; [done|]. split; [done|]. intros t Ht. congruence.
  - destruct (bool_decide _).
    { destruct (truthy (b_huggingfaceId b)); (split; [done|]); [|done]. split; [done|]. by split. }
    destruct (truthy (b_path b)) as [path|]; [|done]. unfold postPath. destruct (fs !! path) as [[text|]|] eqn:Ef; cbn [analyzeFile].
    + destruct (int32 _ && int32 _); (split; [done|]); [|by left]. split; [done|]. split; [|done]. by exists path, text.
    + split; [done|]. by left.
    + split; [done|]. split; [done|]. by split.
Qed.

(** Deleting a dataset deletes nothing of another.  The row goes; of the disk, what is
    under an uploaded dataset's own directory goes, and nothing else, and for the other kinds
    nothing at all; other rows stay. *)
Theorem delete_own_files id rows fs :
  let '(rows', fs', r) := del id rows fs in
  match tbl_find id rows with
  | None => r = NotFound "Dataset not found" /\ rows' = rows /\ fs' = fs
  | Some d => r = Deleted /\ (forall x, x ∈ rows' <-> x ∈ rows /\ ds_id x <> id) /\
      forall p, fs' !! p = if String.eqb (ds_source d) "upload" && under (ownDir id) p then None else fs !! p
  end.
Proof.
  unfold deleteDataset. destruct (tbl_find id rows) as [d|] eqn:E; [|done]. split; [done|]. split.
  - intros x. apply elem_of_tbl_delete.
  - apply tbl_find_Some in E as [_ Hid]. change (ds_id d = id) in Hid. intros p. destruct (String.eqb (ds_source d) "upload"); [|done].
    unfold rmTree. cbn [andb]. rewrite Hid. destruct (under (ownDir id) p) eqn:Eu.
    + apply map_lookup_filter_None. right. intros v _ H. cbn in H. by rewrite Eu in H.
    + destruct (fs !! p) as [v|] eqn:Ev.
      * by apply map_lookup_filter_Some.
      * apply map_lookup_filter_None. by left.
Qed.

(** Directories of different rows do not nest, so the files of another upload stay. *)
Lemma other_dir_apart id id' x :
  str_all (not_char "/") id = true -> str_all (not_char "/") id' = true -> id <> id' ->
  under (ownDir id) (ownDir id' +:+ "/" +:+ x) = false.
Proof.
  intros H1 H2 Hne. unfold under. apply orb_false_iff.
  assert (forall a b y z, str_all (not_char "/") a = true -> str_all (not_char "/") b = true -> a +:+ "/" +:+ y = b +:+ "/" +:+ z -> a = b) as Hinj.
  { induction a as [|c a IH]; intros [|e b] y z Ha Hb E; [done| | |].
    - injection E as <- _. done.
    - injection E as -> _. done.
    - rewrite !app_String in E. injection E as -> E. cbn in Ha, Hb. apply andb_prop in Ha as [_ Ha], Hb as [_ Hb]. f_equal. by eapply IH. }
  split.
  - apply String.eqb_neq. intros E. rewrite !str_app_assoc in E. do 2 apply str_app_inj_l in E. 
    assert (str_all (not_char "/") (id' +:+ "/" +:+ x) = true) as Hc by (by rewrite E). rewrite !str_all_app in Hc.
    apply andb_prop in Hc as [_ Hc]. done.
  - apply not_true_iff_false. intros (u & E)%prefix_spec. rewrite !str_app_assoc in E. do 2 apply str_app_inj_l in E.
    apply Hne. symmetry. by eapply Hinj.
Qed.

(** Any file the server can read can be registered and read back through the preview: the
    path of a registration is not confined to the storage. *)
Lemma preview_reads_any_file newId name path text limit fs :
  name <> "" -> path <> "" -> fs !! path = Some (File text) ->
  int32 (Z.of_nat (String.length text)) && int32 (Z.of_nat (length (samples text))) = true ->
  let '(rows', fs', _) := post newId {| b_name := Some name; b_description := None; b_format := None; b_source := None;
                                         b_path := Some path; b_huggingfaceId := None |} None [] fs in
  previewDataset parse newId limit rows' fs' = Preview (map (parseLine parse) (take (previewLimit limit) (samples text))) None.
Proof.
  intros Hn Hp Hf Hi. unfold postDataset. cbn [b_name b_source b_path].
  assert (truthy (Some name) = Some name) as -> by (by apply truthy_Some). rewrite bool_decide_false by done.
  assert (truthy (Some path) = Some path) as Ht by (by apply truthy_Some). rewrite Ht. unfold postPath. rewrite Hf. cbn [analyzeFile].
  rewrite Hi. unfold previewDataset. cbn -[truthy previewLimit String.eqb]. unfold tbl_find. cbn [js_find]. unfold row_id, dataset_hasid. cbn [ds_id].
  rewrite String.eqb_refl. cbn -[truthy previewLimit]. rewrite Ht. cbn -[previewLimit]. by rewrite Hf.
Qed.

End Routes.

End DatasetFacts.

(** * Lists and sinks *)

Module ListFacts.
Import Lists.

(** A node is offered what it can run: with a known architecture, the recipes for it and
    those for any, of both sources and in their order; without one, all. *)
Lemma listRecipes_spec catalog agents id ns r :
  let node := i ← truthy id; tbl_find i ns in
  r ∈ listRecipes catalog agents id ns <->
  r ∈ map inl catalog ++ map inr agents /\
  match truthy (n ← node; n_arch n) with
  | Some arch => offeredArch r = arch \/ offeredArch r = "any"
  | None => True
  end.
Proof.
  cbn zeta. unfold listRecipes. destruct (truthy _) as [arch|]; [|naive_solver].
  rewrite elem_of_filter_bool, orb_true_iff, !String.eqb_eq. done.
Qed.

(** A refresh is ordered of every node in the map; those whose socket is gone count, too. *)
Lemma refresh_counts w :
  let '(sent, n) := refreshRecipes w in
  n = size (AgentHub.getConnectedNodeIds w) /\
  (forall ws, Some ws ∈ sent <-> exists id, id ∈ AgentHub.getConnectedNodeIds w /\ AgentHub.sendToAgent w id = Some ws).
Proof.
  unfold refreshRecipes. split; [done|]. intros ws. rewrite list_elem_of_fmap. split.
  - intros (id & E & Hid). exists id. by rewrite <- elem_of_elements.
  - intros (id & Hid & E). exists id. by rewrite elem_of_elements.
Qed.

End ListFacts.

Module SinkFacts.
Import Sinks.

(** Open at the end: opened, and not closed since. *)
Definition tracks (c : nat) (on : bool) (e : event) : bool :=
  match e with
  | Socket w => if decide (w = c) then true else on
  | SocketClosing w | SocketClosed w => if decide (w = c) then false else on
  | _ => on
  end.

(** A broadcast reaches exactly the sockets that were opened and have not begun to close. *)
Lemma broadcast_reaches es c :
  c ∈ broadcastWs (foldl onEvent {| sse := ∅; sockets := ∅ |} es) <-> foldl (tracks c) false es = true.
Proof.
  assert (forall s, c ∈ broadcastWs s <-> sockets s !! c = Some true) as Hb.
  { intros s. unfold broadcastWs. rewrite elem_of_dom. split.
    - intros [v [H1 H2]%map_lookup_filter_Some]. cbn in H2. by subst v.
    - intros H. exists true. by apply map_lookup_filter_Some. }
  rewrite Hb. enough (forall s on, (sockets s !! c = Some true <-> on = true) ->
    sockets (foldl onEvent s es) !! c = Some true <-> foldl (tracks c) on es = true) as H by (by apply H).
  induction es as [|e es IH]; intros s on H; [done|]. cbn. apply IH.
  destruct e as [k|k|k|k|k]; cbn; try done; destruct (decide (k = c)) as [-> |Hne].
  - by rewrite lookup_insert_eq.
  - by rewrite lookup_insert_ne.
  - destruct (sockets s !! c) eqn:E; [by rewrite lookup_insert_eq|by rewrite E].
  - destruct (sockets s !! k); [by rewrite lookup_insert_ne|done].
  - by rewrite lookup_delete_eq.
  - by rewrite lookup_delete_ne.
Qed.

End SinkFacts.

(** * Examples *)

Module Examples.
Import Tokens Datasets.

Definition row (id token : string) (used revoked expires : option Z) (created : Z) : tokenRow :=
  TokenRow (JoinToken id token expires used None revoked) None created.
Definition rows1 : list tokenRow :=
  [row "a" "11111111aaaaaaaa" None None None 1; row "b" "22222222bbbbbbbb" (Some 5%Z) None None 2;
   row "c" "33333333cccccccc" None None (Some 10%Z) 3; row "d" "44444444dddddddd" (Some 5%Z) (Some 6%Z) None 4].
Definition rows2 : list tokenRow :=
  [row "a" "99999999aaaaaaaa" None None None 1; row "b" "22222222bbbbbbbb" (Some 5%Z) None None 2;
   row "c" "00000000cccccccc" None None (Some 10%Z) 3; row "d" "44444444dddddddd" (Some 5%Z) (Some 6%Z) None 4].

Example tokens_shown :
  map (fun m => (mk_id m, mk_tokenSuffix m, mk_status m)) (listTokens 20 rows1) =
  [("d", "dddddddd", SRevoked); ("c", "cccccccc", SExpired); ("b", "bbbbbbbb", SUsed); ("a", "aaaaaaaa", SActive)].
Proof. by vm_compute. Qed.

Lemma rows_same : Forall2 TokenFacts.sameButSecret rows1 rows2.
Proof. repeat (constructor; [repeat split|]). constructor. Qed.

Lemma tokens_listed_witness :
  listTokens 20 rows1 = listTokens 20 rows2 /\
  map mk_id (listTokens 20 rows1) ≡ₚ map (fun r => jt_id (tr_token r)) rows1 /\
  forall m, m ∈ listTokens 20 rows1 -> exists r, r ∈ rows1 /\ m = mask 20 r /\
    AgentHub.tokenRefusal 20 (tr_token r) =
      match mk_status m with
      | SRevoked => Some "Token has been revoked"
      | SUsed => Some "Token has already been used"
      | SExpired => Some "Token has expired"
      | SActive => None
      end.
Proof. apply (TokenFacts.tokens_listed 20 rows1 rows2 rows_same). Defined.

Definition parse (s : string) : option json :=
  if String.prefix "{" s then Some (JObj [("messages", JArr [])]) else None.
Definition b (fmt : option string) : body :=
  {| b_name := Some "chat"; b_description := None; b_format := fmt; b_source := None; b_path := None; b_huggingfaceId := None |}.
Definition text : string := str_join (String nl "") ["{..}"; ""; "  "; "{..}"; "oops"].
Definition fs : disk := {["/tmp/u1" := File text]} ∪ {["/mnt/tank/datasets/old/x.jsonl" := File "y"]}.

Example upload_read :
  (postDataset parse "/mnt/tank/datasets" "d1" (b (Some "auto")) (Some {| up_path := "/tmp/u1"; up_originalname := "c.jsonl" |}) [] fs).2 =
  Created (Dataset "d1" "chat" None "openai" "upload" (Some "/mnt/tank/datasets/d1/c.jsonl") None (Some 18%Z) (Some 3%Z)).
Proof. by vm_compute. Qed.

Lemma post_describes_witness :
  let '(rows', fs', r) := postDataset parse "/mnt/tank/datasets" "d1" (b None) (Some {| up_path := "/tmp/u1"; up_originalname := "c.jsonl" |}) [] fs in
  (forall p, p <> default "" (up_path <$> Some {| up_path := "/tmp/u1"; up_originalname := "c.jsonl" |}) ->
     under "/mnt/tank/datasets/d1" p = false -> fs' !! p = fs !! p) /\
  match r with
  | Created d => rows' = [] ++ [d] /\ DatasetFacts.describes fs' d /\
      (Some {| up_path := "/tmp/u1"; up_originalname := "c.jsonl" |} <> None -> exists x, ds_path d = Some ("/mnt/tank/datasets/d1" +:+ "/" +:+ x))
  | BadRequest _ => rows' = [] /\ fs' = fs
  | Throw => rows' = [] /\ Some {| up_path := "/tmp/u1"; up_originalname := "c.jsonl" |} = None \/
      exists f d, Some {| up_path := "/tmp/u1"; up_originalname := "c.jsonl" |} = Some f /\ rows' = [] ++ [d] /\ ds_path d = None /\
        (forall text, fs !! up_path f = Some (File text) -> int32 (Z.of_nat (String.length text)) && int32 (Z.of_nat (length (samples text))) = false)
  | _ => False
  end.
Proof.
  apply (DatasetFacts.post_describes parse "/mnt/tank/datasets" "d1" (b None) (Some {| up_path := "/tmp/u1"; up_originalname := "c.jsonl" |}) [] fs).
  intros f [= <-]. reflexivity.
Defined.

(** [auto] is a format nobody detects when there is no file to look into. *)
Example auto_stays :
  (fun r => match r with Created d => Some (ds_format d) | _ => None end)
    (postDataset parse "/mnt/tank/datasets" "d2"
       {| b_name := Some "x"; b_description := None; b_format := Some "auto"; b_source := Some "huggingface"; b_path := None; b_huggingfaceId := Some "o/r" |}
       None [] fs).2 = Some "auto".
Proof. by vm_compute. Qed.

Example settings_text :
  map (fun k => Settings.putSettings [("a", JNum (zn 5)); ("b", JArr [JNull; JStr "x"]); ("a", JBool true)] {["c" := "old"]} !! k) ["a"; "b"; "c"; "d"] =
  [Some "true"; Some ",x"; Some "old"; None].
Proof. by vm_compute. Qed.

End Examples.
