(* ===== verification/Provision.v ===== *)
(** What the manager does to a node over SSH: [Ssh] ([ssh/executor.ts]), one command and its
    answer; [DropIn] ([ollama/dropin.ts] and the Ollama part of [ssh/provisioner.ts]), the
    policy for Ollama's service as text and as what a shell makes of it; [Prereq]
    ([ssh/provisioner.ts], [ssh/eval-profile.ts]), the audit of a node and the installation
    of what it lacks.

    The connection's events, the answers of commands, what Ollama's installer leaves and
    whether the shared storage is mounted are arguments. *)
From S2P Require Import Prelude JsNum Admission AgentHub NodeOps Firewall.

(** A text in double quotes, a text of lines. *)
Definition quoted (s : string) : string := String dq (s +:+ String dq "").
Definition unlines (ls : list string) : string := str_join (String nl "") ls.

Module Ssh.

Record SshResult := { ss_code : Z; ss_stdout : string; ss_stderr : string }.

(** [home]: the directory of [homedir()]. *)
Definition findPrivateKey (existsSync : string -> bool) (SSH_KEY_PATH : option string) (home : string) :
    result string string :=
  let sshDir := home +:+ "/.ssh" in
  let candidates := match truthy SSH_KEY_PATH with Some p => [p] | None => [] end ++
    [sshDir +:+ "/id_ed25519_shared"; sshDir +:+ "/id_ed25519"; sshDir +:+ "/id_rsa"] in
  of_option (js_find existsSync candidates) "No SSH private key found".

Inductive event :=
  | Timer
  | Ready (refused : option string)
  | Stdout (data : string) | Stderr (data : string)
  | Close (code : option Z) (** no code when a signal ended the command *)
  | ErrorEv (err : string).

Record state := State {
  sx_out : string; sx_err : string; sx_timer : bool; sx_ends : nat; sx_settled : option (result string SshResult) }.

(** A promise takes its first settlement. *)
Definition settle (r : result string SshResult) (ends : nat) (s : state) : state :=
  State (sx_out s) (sx_err s) false (sx_ends s + ends)
    (match sx_settled s with Some v => Some v | None => Some r end).

Definition onEvent (timeout : Z) (s : state) (e : event) : state :=
  match e with
  | Timer => if sx_timer s then settle (Err ("SSH command timed out after " +:+ pretty timeout +:+ "ms")) 1 s else s
  | Ready (Some err) => settle (Err err) 1 s
  | Ready None => s
  | Stdout d => State (sx_out s +:+ d) (sx_err s) (sx_timer s) (sx_ends s) (sx_settled s)
  | Stderr d => State (sx_out s) (sx_err s +:+ d) (sx_timer s) (sx_ends s) (sx_settled s)
  | Close code =>
      settle (Ok {| ss_code := default 0%Z code; ss_stdout := str_trim (sx_out s); ss_stderr := str_trim (sx_err s) |}) 1 s
  | ErrorEv err => settle (Err err) 0 s
  end.

(** A key that cannot be found or read rejects the promise before anything is connected; its
    timer stays armed. *)
Definition started (key : result string string) : state :=
  State "" "" true 0 (match key with Ok _ => None | Err e => Some (Err e) end).

Definition sshExec (key : result string string) (timeout : option Z) (es : list event) : state :=
  foldl (onEvent (default 30000%Z timeout)) (started key) es.

End Ssh.

Module DropIn.

(** ** The text *)

Definition OLLAMA_MANAGED_MARKER : string := ".installed-by-dgx-manager".

Definition OLLAMA_UNIVERSAL_SETTINGS : list string :=
  ["Environment=OLLAMA_HOST=0.0.0.0"; "Environment=OLLAMA_MAX_LOADED_MODELS=0"; "Environment=OLLAMA_KEEP_ALIVE=-1"].
Definition OLLAMA_OWNERSHIP_SETTINGS : list string := ["User="; "Environment=HOME="; "Environment=OLLAMA_MODELS="].

Definition isManaged : string := "[ " +:+ quoted "$OLLAMA_MANAGED" +:+ " = " +:+ quoted "1" +:+ " ]".

Definition ollamaDropInBody (userExpr storageExpr sudo : string) : string :=
  let models := quoted (storageExpr +:+ "/models/ollama") in
  unlines
    ["{";
     "  echo " +:+ quoted "[Service]";
     "  if " +:+ isManaged +:+ "; then";
     "    echo " +:+ quoted ("User=" +:+ userExpr);
     "    echo " +:+ quoted ("Environment=HOME=/home/" +:+ userExpr);
     "  fi";
     "  echo " +:+ quoted "Environment=OLLAMA_HOST=0.0.0.0";
     "  echo " +:+ quoted "Environment=OLLAMA_MAX_LOADED_MODELS=0";
     "  echo " +:+ quoted "Environment=OLLAMA_KEEP_ALIVE=-1";
     "  if " +:+ isManaged +:+ " && mountpoint -q " +:+ quoted storageExpr +:+ "; then";
     "    echo " +:+ quoted ("Environment=OLLAMA_MODELS=" +:+ storageExpr +:+ "/models/ollama");
     "    " +:+ sudo +:+ "mkdir -p " +:+ models;
     "    " +:+ sudo +:+ "chown -R " +:+ quoted userExpr +:+ ":" +:+ quoted userExpr +:+ " " +:+ models +:+ " 2>/dev/null || true";
     "  fi";
     "}"].

Definition ollamaOwnershipProbe (markerDirExpr sudo installCmd : string) : string :=
  unlines
    ["OLLAMA_MARKER=" +:+ quoted (markerDirExpr +:+ "/" +:+ OLLAMA_MANAGED_MARKER);
     "OLLAMA_OVERRIDE=" +:+ quoted (markerDirExpr +:+ "/override.conf");
     "if systemctl list-unit-files ollama.service >/dev/null 2>&1; then";
     "  # Already present. Ours only if we recorded it as such — except on a node";
     "  # provisioned before the marker existed, whose override still carries the";
     "  # ownership settings only we write. Backfill rather than disown it: dropping";
     "  # those settings would restart Ollama onto a different model store, which is";
     "  # the very failure this whole guard exists to prevent.";
     "  if [ ! -e " +:+ quoted "$OLLAMA_MARKER" +:+ " ] && grep -qE '^(User=|Environment=OLLAMA_MODELS=)' " +:+ quoted "$OLLAMA_OVERRIDE" +:+ " 2>/dev/null; then";
     "    " +:+ sudo +:+ "touch " +:+ quoted "$OLLAMA_MARKER";
     "  fi";
     "else";
     "  " +:+ installCmd;
     "  " +:+ sudo +:+ "mkdir -p " +:+ quoted markerDirExpr;
     "  " +:+ sudo +:+ "touch " +:+ quoted "$OLLAMA_MARKER";
     "fi";
     "if [ -e " +:+ quoted "$OLLAMA_MARKER" +:+ " ]; then OLLAMA_MANAGED=1; else OLLAMA_MANAGED=0; fi"].

(** The words that reach a shell of the node's administrator. *)
Definition user_first (c : ascii) : bool := is_upper c || is_lower c || Ascii.eqb c "_".
Definition user_char (c : ascii) : bool := is_alnum c || Ascii.eqb c "_" || Ascii.eqb c "-".
Definition validUser (s : string) : bool :=
  match s with String c r => user_first c && str_all user_char r | EmptyString => false end.
Definition path_char (c : ascii) : bool :=
  is_alnum c || Ascii.eqb c "." || Ascii.eqb c "_" || Ascii.eqb c "-" || Ascii.eqb c "/".
Definition safePath (s : string) : bool :=
  match s with String c r => Ascii.eqb c "/" && str_all path_char r | EmptyString => false end.

(** [json]: [JSON.stringify] of the refused text. *)
Definition ollamaInstallCmd (json : string -> string) (sshUser dropinDir storage : string) : result string string :=
  guard_or (validUser sshUser) ("ollamaInstallCmd: invalid sshUser " +:+ json sshUser);;
  guard_or (safePath dropinDir) ("ollamaInstallCmd: unsafe dropin dir " +:+ json dropinDir);;
  guard_or (safePath storage) ("ollamaInstallCmd: unsafe shared storage " +:+ json storage);;
  Ok (unlines
    ["set -euo pipefail";
     "DROPIN_DIR=" +:+ quoted dropinDir;
     "STORAGE=" +:+ quoted storage;
     "";
     "sudo mkdir -p " +:+ quoted "$DROPIN_DIR";
     ollamaOwnershipProbe "$DROPIN_DIR" "sudo " "curl -fsSL https://ollama.ai/install.sh | sh";
     "";
     "OVERRIDE=" +:+ quoted "$DROPIN_DIR/override.conf";
     "OVERRIDE_NEW=" +:+ quoted "$(mktemp)";
     "trap 'rm -f " +:+ quoted "$OVERRIDE_NEW" +:+ "' EXIT";
     ollamaDropInBody sshUser "$STORAGE" "sudo " +:+ " > " +:+ quoted "$OVERRIDE_NEW";
     "";
     "if sudo cmp -s " +:+ quoted "$OVERRIDE_NEW" +:+ " " +:+ quoted "$OVERRIDE" +:+ " 2>/dev/null; then";
     "  :";
     "else";
     "  sudo install -m 0644 " +:+ quoted "$OVERRIDE_NEW" +:+ " " +:+ quoted "$OVERRIDE";
     "  sudo systemctl daemon-reload";
     "  sudo systemctl restart ollama";
     "fi";
     "";
     "sudo systemctl disable ollama"]).

(** ** The body as a program

    The commands the body is made of, with their text. *)
Inductive condition := GManaged | GMounted.
Inductive simple :=
  | Echo (text : string)
  | MkModels | ChownModels.
Inductive command := Do (c : simple) | When (gs : list condition) (body : list simple).

Definition dropInProgram (userExpr storageExpr : string) : list command :=
  [Do (Echo "[Service]");
   When [GManaged] [Echo ("User=" +:+ userExpr); Echo ("Environment=HOME=/home/" +:+ userExpr)];
   Do (Echo "Environment=OLLAMA_HOST=0.0.0.0");
   Do (Echo "Environment=OLLAMA_MAX_LOADED_MODELS=0");
   Do (Echo "Environment=OLLAMA_KEEP_ALIVE=-1");
   When [GManaged; GMounted]
     [Echo ("Environment=OLLAMA_MODELS=" +:+ storageExpr +:+ "/models/ollama"); MkModels; ChownModels]].

Section Render.
Context (userExpr storageExpr sudo : string).

Definition renderGuard (g : condition) : string :=
  match g with GManaged => isManaged | GMounted => "mountpoint -q " +:+ quoted storageExpr end.
Definition renderSimple (c : simple) : string :=
  let models := quoted (storageExpr +:+ "/models/ollama") in
  match c with
  | Echo t => "echo " +:+ quoted t
  | MkModels => sudo +:+ "mkdir -p " +:+ models
  | ChownModels => sudo +:+ "chown -R " +:+ quoted userExpr +:+ ":" +:+ quoted userExpr +:+ " " +:+ models +:+ " 2>/dev/null || true"
  end.
Definition renderCommand (c : command) : list string :=
  match c with
  | Do c => ["  " +:+ renderSimple c]
  | When gs body =>
      ["  if " +:+ str_join " && " (map renderGuard gs) +:+ "; then"] ++ map (fun c => "    " +:+ renderSimple c) body ++ ["  fi"]
  end.
Definition render (cs : list command) : string := unlines (["{"] ++ flat_map renderCommand cs ++ ["}"]).
End Render.

(** ** What the script does *)

(** The node: Ollama's unit, the marker, the override on disk; the override the service was
    last restarted with, how often that was, and whether it starts at boot. *)
Record machine := Machine {
  mc_unit : bool; mc_marker : bool; mc_override : option string;
  mc_loaded : option string; mc_restarts : nat; mc_enabled : bool }.

(** A command the script runs, which may be refused ([sudo]) or fail. *)
Inductive action := AMkDir | AMkDirAgain | ATouch | AMkTemp | AMkModels | ACmp | AInstall | AReload | ARestart | ADisable.

(** One run's surroundings. [en_installer]: whether Ollama's installer leaves the unit, and
    whether it ends with zero. *)
Record env := Env { en_ok : action -> bool; en_installer : bool * bool; en_mounted : bool }.

(** A script under [set -e]: [None] when it has ended. *)
Definition M (A : Type) := machine -> option A * machine.
#[export] Instance M_ret : MRet M := fun A a m => (Some a, m).
#[export] Instance M_bind : MBind M := fun A B f x m =>
  match x m with (Some a, m') => f a m' | (None, m') => (None, m') end.
Definition read {A} (f : machine -> A) : M A := fun m => (Some (f m), m).

Section Run.
Context (e : env).

Definition run (a : action) (effect : machine -> machine) : M () := fun m =>
  if en_ok e a then (Some (), effect m) else (None, m).

Definition touched (m : machine) : machine :=
  Machine (mc_unit m) true (mc_override m) (mc_loaded m) (mc_restarts m) (mc_enabled m).
Definition installed (new : string) (m : machine) : machine :=
  Machine (mc_unit m) (mc_marker m) (Some new) (mc_loaded m) (mc_restarts m) (mc_enabled m).
Definition restarted (m : machine) : machine :=
  Machine (mc_unit m) (mc_marker m) (mc_override m) (mc_override m) (S (mc_restarts m)) (mc_enabled m).
Definition disabled (m : machine) : machine :=
  Machine (mc_unit m) (mc_marker m) (mc_override m) (mc_loaded m) (mc_restarts m) false.

(** Ollama's installer starts and enables the service it makes. *)
Definition installer : M () := fun m =>
  let '(unit, zero) := en_installer e in
  (if zero : bool then Some () else None,
   Machine unit (mc_marker m) (mc_override m) (mc_loaded m) (mc_restarts m) (unit || mc_enabled m)).

(** [grep -qE '^(User=|Environment=OLLAMA_MODELS=)'] *)
Definition ownershipLine (l : string) : bool := String.prefix "User=" l || String.prefix "Environment=OLLAMA_MODELS=" l.
Definition claims (text : option string) : bool :=
  match text with Some t => existsb ownershipLine (str_split nl t) | None => false end.

Definition ownership : M bool :=
  unit ← read mc_unit;
  (if unit : bool then
     backfill ← read (fun m => negb (mc_marker m) && claims (mc_override m));
     if backfill : bool then run ATouch touched else mret ()
   else
     installer;; run AMkDirAgain (fun m => m);; run ATouch touched);;
  read mc_marker.

(** [expand]: what the shell makes of the variables in a text in double quotes; a dollar
    without a name stays. *)
Definition word_char (c : ascii) : bool := is_alnum c || Ascii.eqb c "_".
Definition valueOf (vars : list (string * string)) (name : string) : string :=
  if String.eqb name "" then "$" else default "" (al_get vars name).
Fixpoint expandFrom (vars : list (string * string)) (name : option string) (s : string) : string :=
  match s, name with
  | EmptyString, None => ""
  | EmptyString, Some n => valueOf vars n
  | String c r, None => if Ascii.eqb c "$" then expandFrom vars (Some "") r else String c (expandFrom vars None r)
  | String c r, Some n =>
      if word_char c then expandFrom vars (Some (n +:+ String c "")) r
      else valueOf vars n +:+ (if Ascii.eqb c "$" then expandFrom vars (Some "") r else String c (expandFrom vars None r))
  end.
Definition expand (vars : list (string * string)) (s : string) : string := expandFrom vars None s.

Section Body.
Context (vars : list (string * string)) (managed : bool).

Definition holds (g : condition) : bool := match g with GManaged => managed | GMounted => en_mounted e end.

Definition runSimple (out : list string) (c : simple) : M (list string) :=
  match c with
  | Echo t => mret (out ++ [expand vars t])
  | MkModels => run AMkModels (fun m => m);; mret out
  | ChownModels => mret out (* [|| true] *)
  end.

Fixpoint runAll (cs : list simple) (out : list string) : M (list string) :=
  match cs with [] => mret out | c :: cs => out ← runSimple out c; runAll cs out end.

Fixpoint runBody (cs : list command) (out : list string) : M (list string) :=
  match cs with
  | [] => mret out
  | Do c :: cs => out ← runSimple out c; runBody cs out
  | When gs body :: cs => out ← (if forallb holds gs then runAll body out else mret out); runBody cs out
  end.
End Body.

(** What [echo]s print: every line ends. *)
Definition printed (ls : list string) : string := foldr (fun l s => l +:+ String nl s) "" ls.

Definition same (new : string) (m : machine) : bool := en_ok e ACmp && bool_decide (mc_override m = Some new).

Definition ollamaInstall (sshUser storage : string) : M () :=
  run AMkDir (fun m => m);;
  managed ← ownership;
  run AMkTemp (fun m => m);;
  ls ← runBody [("STORAGE", storage)] managed (dropInProgram sshUser "$STORAGE") [];
  unchanged ← read (same (printed ls));
  (if unchanged : bool then mret ()
   else run AInstall (installed (printed ls));; run AReload (fun m => m);; run ARestart restarted);;
  run ADisable disabled.

End Run.

(** Provisioning again and again, whatever the runs meet. *)
Definition provisionings (sshUser storage : string) (es : list env) (m : machine) : machine :=
  foldl (fun m e => (ollamaInstall e sshUser storage m).2) m es.

End DropIn.

Module Prereq.
Import Ssh.

(** ** sparkrun's commands *)

Definition SPARKRUN_PKG : string := "sparkrun>=0.3.3".
Definition SPARKRUN : string := "uvx --from " +:+ SPARKRUN_PKG +:+ " sparkrun".
Definition sparkrunAuditCmd : string := SPARKRUN +:+ " --version >/dev/null 2>&1 && echo installed".
Definition sparkrunSetupCmds (host : string) : list string :=
  [SPARKRUN +:+ " setup install -H " +:+ host; SPARKRUN +:+ " setup docker-group -H " +:+ host;
   SPARKRUN +:+ " setup earlyoom -H " +:+ host].
Definition sparkrunMeshCmd (hosts : list string) : string := SPARKRUN +:+ " setup ssh -H " +:+ str_join "," hosts.
Definition sparkrunPrewarmCmd (recipe host : string) : string := SPARKRUN +:+ " run " +:+ recipe +:+ " -H " +:+ host +:+ " --no-follow".

(** ** Checks *)

Record PrereqCheck := Check_ { pc_name : string; pc_status : audit; pc_detail : string }.
#[export] Instance audit_eq_dec : EqDecision audit.
Proof. solve_decision. Defined.
#[export] Instance PrereqCheck_eq_dec : EqDecision PrereqCheck.
Proof. solve_decision. Defined.

Definition ollamaAuditCmd : string :=
  "if command -v ollama >/dev/null 2>&1; then ollama --version 2>&1 | grep -oP 'version is \K[0-9.]+'; systemctl is-active ollama 2>/dev/null || true; fi".

(** [/^[0-9][0-9.]*$/] *)
Definition isVersion (l : string) : bool :=
  match l with String c r => is_digit c && str_all (fun c => is_digit c || Ascii.eqb c ".") r | EmptyString => false end.

Definition evalOllamaAudit (stdout : string) : PrereqCheck :=
  let lines := List.filter (fun l => negb (String.eqb l "")) (map str_trim (str_split nl stdout)) in
  match lines with
  | [] => Check_ "Ollama" Yellow "Not installed — can auto-install"
  | _ => Check_ "Ollama" Green
           (match js_find isVersion lines with Some v => "v" +:+ v | None => "installed (version unknown)" end +:+
            " (service " +:+ (if mem_str "active" lines then "running" else "stopped") +:+ ")")
  end.

Definition EVAL_NODE_CHECK_NAMES : list string := ["Node.js"; "uv (uvx)"].
Definition checksForRole {A} (name : A -> string) (items : list A) (role : option string) : list A :=
  if Role.isEvalNode role then List.filter (fun c => mem_str (name c) EVAL_NODE_CHECK_NAMES) items else items.

Definition evalSudoCheck (sudoAvailable : bool) : PrereqCheck :=
  Check_ "Passwordless sudo (eval)" (if sudoAvailable then Green else Red)
    (if sudoAvailable then "Available — job.* can run `sudo -n systemd-run`"
     else "MISSING — an eval node needs passwordless sudo for `sudo -n systemd-run`; add a NOPASSWD sudoers rule").

Record item := Item { it_name : string; it_cmd : string; it_eval : SshResult -> PrereqCheck }.

(** The two ways an answer is read: by its code, by a word in its output. *)
Definition byCode (name cmd : string) (missing : audit) (lacks : string) : item :=
  Item name cmd (fun r => if (ss_code r =? 0)%Z then Check_ name Green (ss_stdout r) else Check_ name missing lacks).
Definition byWord (name cmd word present : string) (missing : audit) (lacks : string) : item :=
  Item name cmd (fun r => if str_includes word (ss_stdout r) then Check_ name Green present else Check_ name missing lacks).

Section Audit.
Context (SHARED_STORAGE : string).

Definition checkItems (sudo : bool) : list item :=
  let bySudo := if sudo then Yellow else Red in
  let lacks := if sudo then "Not installed — can auto-install" else "Not installed — need sudo" in
  [byCode "NVIDIA Drivers" "nvidia-smi --query-gpu=name,memory.total --format=csv,noheader 2>/dev/null" Red
     "nvidia-smi not found — install drivers manually";
   byCode "Docker" "docker --version 2>/dev/null" bySudo lacks;
   byWord "Docker group" ("id -nG " +:+ quoted "$USER" +:+ " | tr ' ' '\n' | grep -qx docker && echo member") "member" "User in docker group"
     bySudo (if sudo then "User not in docker group — can auto-install" else "User not in docker group — need sudo");
   byWord "uv (uvx)" ("test -x " +:+ quoted "$HOME/.local/bin/uvx" +:+ " && echo installed") "installed" "Installed"
     Yellow "Not installed — can auto-install (no sudo needed)";
   byWord "nvidia-container-toolkit" "dpkg -l nvidia-container-toolkit 2>/dev/null | grep -q ^ii && echo installed" "installed" "Installed"
     bySudo lacks;
   byCode "Node.js" "node --version 2>/dev/null" bySudo lacks;
   Item "Ollama" ollamaAuditCmd (fun r => evalOllamaAudit (ss_stdout r));
   byWord ("NFS " +:+ SHARED_STORAGE) ("mountpoint -q " +:+ SHARED_STORAGE +:+ " && echo mounted") "mounted" "Mounted"
     Red "Not mounted — configure NFS manually";
   byWord "sparkrun" sparkrunAuditCmd "installed" ("Installed (" +:+ SPARKRUN_PKG +:+ ")")
     Yellow "Not installed — can auto-install (no sudo needed)"].

Record ProvisionReport := Report {
  rp_reachable : bool; rp_sudoAvailable : bool; rp_systemInfo : string; rp_checks : list PrereqCheck }.

(** What leaves the manager: a command for the node, an event for the dashboards. *)
Inductive effect := Ssh (cmd : string) (timeout : option Z) | Emit (step status : string) (detail : option string).

Definition colour (a : audit) : string := match a with Green => "green" | Yellow => "yellow" | Red => "red" end.

(** [nodeId]: of a node with a row; the others are audited in silence. *)
Definition emit (nodeId : option string) (step status : string) (detail : option string) : list effect :=
  match truthy nodeId with Some _ => [Emit step status detail] | None => [] end.

Section Node.
(** [ssh]: how the node answers a command. *)
Context (host : string) (nodeId : option string) (ssh : string -> result string SshResult).

Definition check (cmd : string) : SshResult :=
  match ssh cmd with Ok r => r | Err _ => {| ss_code := -1; ss_stdout := ""; ss_stderr := "unreachable" |} end.

Definition auditItem (i : item) : list effect * PrereqCheck :=
  let c := it_eval i (check (it_cmd i)) in
  (emit nodeId (it_name i) "checking" None ++ [Ssh (it_cmd i) None] ++ emit nodeId (it_name i) (colour (pc_status c)) (Some (pc_detail c)), c).

(** The address for Wake-on-LAN; nothing of this fails the audit. *)
Definition captureMac : list effect * option string :=
  match truthy nodeId, Power.macCaptureCmd host with
  | Some _, Some cmd =>
      ([Ssh cmd (Some 10000%Z)], match ssh cmd with Ok r => Mac.normalizeMac (ss_stdout r) | Err _ => None end)
  | _, _ => ([], None)
  end.

Definition auditNode (role : option string) : list effect * ProvisionReport * option string :=
  let connecting := emit nodeId "Connecting" "running" (Some ("SSH to " +:+ host +:+ "...")) ++ [Ssh "echo ok" None] in
  if negb (ss_code (check "echo ok") =? 0)%Z then
    (connecting ++ emit nodeId "Connecting" "failed" (Some "Unreachable"), Report false false "" [], None)
  else
    let sudo := (ss_code (check "sudo -n true") =? 0)%Z in
    let sysInfo := "uname -a && lsb_release -ds 2>/dev/null || true" in
    let items := map auditItem (checksForRole it_name (checkItems sudo) role) in
    let own := if Role.isEvalNode role then [evalSudoCheck sudo] else [] in
    let '(macCmds, mac) := captureMac in
    (connecting ++ emit nodeId "Connecting" "done" (Some "Reachable") ++
     emit nodeId "Sudo check" "running" None ++ [Ssh "sudo -n true" None] ++
     emit nodeId "Sudo check" "done" (Some (if sudo then "Available" else "Not available")) ++ [Ssh sysInfo None] ++
     flat_map fst items ++ flat_map (fun c => emit nodeId (pc_name c) (colour (pc_status c)) (Some (pc_detail c))) own ++ macCmds,
     Report true sudo (ss_stdout (check sysInfo)) (map snd items ++ own), mac).

(** ** Installation *)

(** The commands for a check, in order and each with its deadline: none for a name that is
    not one of these. *)
Section Install.
Context (json : string -> string) (SSH_USER : option string).

Definition dropinDir : string := "/etc/systemd/system/ollama.service.d".

Definition toolkitCmds : list string :=
  ["distribution=$(. /etc/os-release;echo $ID$VERSION_ID)";
   "curl -fsSL https://nvidia.github.io/libnvidia-container/gpgkey | sudo gpg --dearmor -o /usr/share/keyrings/nvidia-container-toolkit-keyring.gpg";
   "curl -s -L https://nvidia.github.io/libnvidia-container/stable/deb/nvidia-container-toolkit.list | sed 's#deb https://#deb [signed-by=/usr/share/keyrings/nvidia-container-toolkit-keyring.gpg] https://#g' | sudo tee /etc/apt/sources.list.d/nvidia-container-toolkit.list";
   "sudo apt-get update && sudo apt-get install -y nvidia-container-toolkit";
   "sudo nvidia-ctk runtime configure --runtime=docker && sudo systemctl restart docker"].

Definition installCmds (name : string) : result string (option (list (string * Z))) :=
  if String.eqb name "Docker" then
    Ok (Some [("curl -fsSL https://get.docker.com | sudo sh && sudo usermod -aG docker $USER", 120000%Z)])
  else if String.eqb name "Docker group" then Ok (Some [("sudo usermod -aG docker $USER", 30000%Z)])
  else if String.eqb name "uv (uvx)" then Ok (Some [("curl -LsSf https://astral.sh/uv/install.sh | sh", 60000%Z)])
  else if String.eqb name "nvidia-container-toolkit" then Ok (Some [(str_join " && " toolkitCmds, 120000%Z)])
  else if String.eqb name "Node.js" then
    Ok (Some [("curl -fsSL https://deb.nodesource.com/setup_22.x | sudo -E bash - && sudo apt-get install -y nodejs", 120000%Z)])
  else if String.eqb name "Ollama" then
    cmd ← DropIn.ollamaInstallCmd json (js_or SSH_USER "ubuntu") dropinDir SHARED_STORAGE; Ok (Some [(cmd, 300000%Z)])
  else if String.eqb name "sparkrun" then Ok (Some (map (fun c => (c, 120000%Z)) (sparkrunSetupCmds host)))
  else Ok None.

(** The commands in turn, up to one that fails; a rejected one ends everything. *)
Fixpoint runCmds (cmds : list (string * Z)) (last : SshResult) : list effect * result string SshResult :=
  match cmds with
  | [] => ([], Ok last)
  | (c, t) :: cmds =>
      match ssh c with
      | Err e => ([Ssh c (Some t)], Err e)
      | Ok r => if (ss_code r =? 0)%Z then let '(effs, r') := runCmds cmds r in (Ssh c (Some t) :: effs, r')
                else ([Ssh c (Some t)], Ok r)
      end
  end.

Definition prewarmNote (name : string) : list effect :=
  if String.eqb name "sparkrun" then
    emit nodeId "sparkrun" "info" (Some "Image pre-warm is opt-in (~15 min first-build). Use sparkrunPrewarmCmd() to trigger it explicitly.")
  else [].

(** One check: what was done, the lines of the log, and whether it threw. *)
Definition installOne (k n : nat) (name : string) : list effect * list string * option string :=
  let effs := emit nodeId name "installing" (Some ("Installing " +:+ name +:+ "... (" +:+ pretty k +:+ "/" +:+ pretty n +:+ ")")) in
  let logs := ["Installing " +:+ name +:+ "..."] in
  match installCmds name with
  | Err e => (effs, logs, Some e)
  | Ok None => (effs, logs, None)
  | Ok (Some cmds) =>
      match runCmds cmds {| ss_code := 0; ss_stdout := ""; ss_stderr := "" |} with
      | (cs, Err e) => (effs ++ cs, logs, Some e)
      | (cs, Ok r) =>
          let effs := effs ++ cs ++ prewarmNote name in
          if (ss_code r =? 0)%Z
          then (effs ++ emit nodeId name "installed" (Some (name +:+ " installed successfully")), logs ++ [name +:+ " installed"], None)
          else (effs ++ emit nodeId name "failed" (Some (name +:+ " install failed: " +:+ str_take 200 (ss_stderr r))),
                logs ++ [name +:+ " install failed: " +:+ ss_stderr r], None)
      end
  end.

Fixpoint installAll (k n : nat) (names : list string) : list effect * list string * option string :=
  match names with
  | [] => ([], [], None)
  | name :: rest =>
      match installOne k n name with
      | (effs, logs, Some e) => (effs, logs, Some e)
      | (effs, logs, None) => let '(effs', logs', r) := installAll (S k) n rest in (effs ++ effs', logs ++ logs', r)
      end
  end.

Definition toInstall (checks : list PrereqCheck) : list string :=
  map pc_name (List.filter (fun c => match pc_status c with Yellow => true | _ => false end) checks).

Definition provisionNode (checks : list PrereqCheck) : list effect * result string string :=
  let names := toInstall checks in
  match installAll 1 (length names) names with
  | (effs, _, Some e) => (effs, Err e)
  | (effs, logs, None) => (effs ++ emit nodeId "Re-auditing" "running" (Some "Verifying installation..."), Ok (unlines logs))
  end.

End Install.
End Node.
End Audit.
End Prereq.
