(* ===== verification/ProvisionFacts.v ===== *)
(** What [Provision] promises: a command over SSH settles once and in time, Ollama's drop-in
    never takes over a service it did not install and keeps the one it did, and an
    installation sends what an audit found missing and nothing else. *)
From S2P Require Import Prelude JsNum Admission AgentHub NodeOps Firewall Provision.

(** * One command *)

Module SshFacts.
Import Ssh.

(** What an event settles the promise with, while the timer is armed. *)
Definition answer (timeout : Z) (out err : string) (e : event) : option (result string SshResult) :=
  match e with
  | Timer => Some (Err ("SSH command timed out after " +:+ pretty timeout +:+ "ms"))
  | Ready (Some r) | ErrorEv r => Some (Err r)
  | Close code => Some (Ok {| ss_code := default 0%Z code; ss_stdout := str_trim out; ss_stderr := str_trim err |})
  | _ => None
  end.

Definition outOf (e : event) : string := match e with Stdout d => d | _ => "" end.
Definition errOf (e : event) : string := match e with Stderr d => d | _ => "" end.
Definition texts (f : event -> string) (es : list event) : string := foldl (fun s e => s +:+ f e) "" es.

Lemma settled_stays t es s v : sx_settled s = Some v -> sx_settled (foldl (onEvent t) s es) = Some v.
Proof.
  revert s. induction es as [|e es IH]; intros s H; [done|]. cbn [foldl]. apply IH.
  destruct e as [|[r|]|d|d|c|r]; cbn; try by rewrite H. by destruct (sx_timer s); cbn; rewrite ?H.
Qed.

Lemma quiet_run t es s :
  Forall (fun e => answer t "" "" e = None) es -> sx_settled s = None -> sx_timer s = true ->
  let s' := foldl (onEvent t) s es in
  sx_settled s' = None /\ sx_timer s' = true /\
  sx_out s' = foldl (fun s e => s +:+ outOf e) (sx_out s) es /\ sx_err s' = foldl (fun s e => s +:+ errOf e) (sx_err s) es.
Proof.
  revert s. induction es as [|e es IH]; intros s Hq Hs Ht; [done|]. apply Forall_cons in Hq as [Hq1 Hq2].
  cbn [foldl]. pose proof (IH (onEvent t s e) Hq2) as H.
  destruct e as [|[r|]|d|d|c|r]; cbn in Hq1; try done; cbn [onEvent outOf errOf sx_out sx_err sx_timer sx_settled] in *;
    rewrite ?app_empty_r in *; by apply H.
Qed.

(** The first thing that ends a command is its answer: what it printed until then with its
    exit code, the refusal, the error, or that it took too long; later events change nothing.
    A command that a signal ended counts as one that exited with zero. *)
Theorem ssh_first_answer k timeout a e b :
  let t := default 30000%Z timeout in
  Forall (fun e => answer t "" "" e = None) a -> answer t "" "" e <> None ->
  sx_settled (sshExec (Ok k) timeout (a ++ e :: b)) = answer t (texts outOf a) (texts errOf a) e.
Proof.
  cbn zeta. set (t := default 30000%Z timeout). intros Ha He. unfold sshExec. fold t. rewrite foldl_app. cbn [foldl].
  destruct (quiet_run t a (started (Ok k)) Ha eq_refl eq_refl) as (H1 & H2 & H3 & H4).
  set (s := foldl (onEvent t) (started (Ok k)) a) in *.
  enough (sx_settled (onEvent t s e) = answer t (texts outOf a) (texts errOf a) e) as H.
  { destruct (answer t (texts outOf a) (texts errOf a) e) as [v|] eqn:E; [by apply settled_stays|].
    exfalso. destruct e as [|[r|]|d|d|c|r]; done. }
  unfold texts. cbn in H3, H4. rewrite <- H3, <- H4. destruct e as [|[r|]|d|d|c|r]; cbn; rewrite ?H2; cbn; rewrite ?H1; congruence.
Qed.

Lemma findPrivateKey_spec ex env home p :
  findPrivateKey ex env home = Ok p -> ex p = true /\ (p = default "" env \/ String.prefix (home +:+ "/.ssh/") p = true).
Proof.
  unfold findPrivateKey. cbn zeta. intros H. apply of_option_Ok in H. apply js_find_Some in H as [Hin Hex].
  split; [done|]. apply elem_of_app in Hin as [Hin|Hin].
  - destruct (truthy env) as [q|] eqn:E; [|by apply not_elem_of_nil in Hin]. apply list_elem_of_singleton in Hin as ->.
    apply truthy_Some in E as [-> _]. by left.
  - right. rewrite !elem_of_cons, elem_of_nil in Hin. destruct Hin as [-> |[-> |[-> |[]]]];
      apply prefix_spec; rewrite !str_app_assoc; eexists; rewrite !str_app_assoc; reflexivity.
Qed.

End SshFacts.

(** * Ollama's drop-in *)

Module DropInFacts.
Import DropIn.

Lemma render_body userExpr storageExpr sudo :
  ollamaDropInBody userExpr storageExpr sudo = render userExpr storageExpr sudo (dropInProgram userExpr storageExpr).
Proof. reflexivity. Qed.

(** What the service is told: [managed] says whose it is. *)
Definition policy (user storage : string) (managed mounted : bool) : list string :=
  ["[Service]"] ++ (if managed then ["User=" +:+ user; "Environment=HOME=/home/" +:+ user] else []) ++
  OLLAMA_UNIVERSAL_SETTINGS ++
  (if managed && mounted then ["Environment=OLLAMA_MODELS=" +:+ storage +:+ "/models/ollama"] else []).

Lemma echo_plain vars s : str_all (not_char "$") s = true -> expand vars s = s.
Proof.
  unfold expand. induction s as [|c s IH]; [done|]. cbn. intros [Hc Hs]%andb_prop. unfold not_char in Hc.
  destruct (Ascii.eqb c "$"); [done|]. by rewrite IH.
Qed.

Lemma expand_models storage :
  expand [("STORAGE", storage)] "Environment=OLLAMA_MODELS=$STORAGE/models/ollama" = "Environment=OLLAMA_MODELS=" +:+ storage +:+ "/models/ollama".
Proof. reflexivity. Qed.

Lemma user_plain u (p : ascii -> bool) :
  validUser u = true -> (forall c, user_char c = true -> p c = true) -> str_all p u = true.
Proof.
  destruct u as [|c r]; [done|]. cbn. intros [Hc Hr]%andb_prop Hp. rewrite andb_true_iff. split.
  - apply Hp. unfold user_first, user_char, is_alnum in *. by destruct (is_upper c), (is_lower c), (Ascii.eqb c "_"); rewrite ?orb_true_r.
  - by apply (str_all_impl user_char).
Qed.

Lemma path_plain s (p : ascii -> bool) :
  safePath s = true -> (forall c, path_char c = true -> p c = true) -> str_all p s = true.
Proof.
  destruct s as [|c r]; [done|]. cbn. intros [Hc Hr]%andb_prop Hp. rewrite andb_true_iff. split.
  - apply Hp. unfold path_char. by rewrite Hc, !orb_true_r.
  - by apply (str_all_impl path_char).
Qed.

(** Neither holds a character a shell reads in double quotes, nor a line's end. *)
Lemma user_char_safe c d : user_char c = true -> user_char d = false -> not_char d c = true.
Proof. intros H1 H2. unfold not_char. destruct (Ascii.eqb_spec c d) as [-> |]; [congruence|done]. Qed.
Lemma path_char_safe c d : path_char c = true -> path_char d = false -> not_char d c = true.
Proof. intros H1 H2. unfold not_char. destruct (Ascii.eqb_spec c d) as [-> |]; [congruence|done]. Qed.

(** The lines of what was printed, and what follows the last line's end. *)
Lemma split_printed ls :
  Forall (fun l => str_all (not_char nl) l = true) ls -> str_split nl (printed ls) = ls ++ [""].
Proof.
  induction 1 as [|l ls Hl H IH]; [done|]. cbn [printed foldr]. fold (printed ls). by rewrite str_split_app, IH.
Qed.

Section Policy.
Context (u st : string) (Hu : validUser u = true) (Hst : safePath st = true).

Lemma no_user d : user_char d = false -> str_all (not_char d) u = true.
Proof using Hu. intros H. apply user_plain; [done|]. intros c Hc. by apply user_char_safe. Qed.
Lemma no_path d : path_char d = false -> str_all (not_char d) st = true.
Proof using Hst. intros H. apply path_plain; [done|]. intros c Hc. by apply path_char_safe. Qed.

(** The body prints the policy; it stops only when the directory of the models cannot be made. *)
Lemma body_run e managed m :
  runBody e [("STORAGE", st)] managed (dropInProgram u "$STORAGE") [] m =
  if managed && en_mounted e && negb (en_ok e AMkModels) then (None, m)
  else (Some (policy u st managed (en_mounted e)), m).
Proof using Hu.
  assert (expand [("STORAGE", st)] ("User=" +:+ u) = "User=" +:+ u) as E1.
  { apply echo_plain. rewrite str_all_app. by rewrite no_user. }
  assert (expand [("STORAGE", st)] ("Environment=HOME=/home/" +:+ u) = "Environment=HOME=/home/" +:+ u) as E2.
  { apply echo_plain. rewrite str_all_app. by rewrite no_user. }
  unfold policy, dropInProgram. cbn [runBody runAll forallb holds andb].
  unfold mbind, M_bind, mret, M_ret, runSimple, run. cbn [runAll].
  destruct managed, (en_mounted e); cbn -[expand expandFrom];
    rewrite ?E1, ?E2; change ("$STORAGE" +:+ "/models/ollama") with "$STORAGE/models/ollama";
    try destruct (en_ok e AMkModels); cbn -[expand expandFrom]; reflexivity.
Qed.

Definition text (managed mounted : bool) : string := printed (policy u st managed mounted).

Lemma policy_lines managed mounted : Forall (fun l => str_all (not_char nl) l = true) (policy u st managed mounted).
Proof using Hu Hst.
  pose proof (no_user nl eq_refl) as Nu. pose proof (no_path nl eq_refl) as Np. unfold policy.
  rewrite !Forall_app. split; [by repeat constructor|]. split; [|split; [by repeat constructor|]].
  - destruct managed; repeat constructor; rewrite str_all_app, Nu; done.
  - destruct (managed && mounted); repeat constructor. by rewrite !str_all_app, Np.
Qed.

Lemma claims_text managed mounted : claims (Some (text managed mounted)) = managed.
Proof using Hu Hst.
  unfold claims, text. rewrite split_printed by apply policy_lines. unfold policy. rewrite !existsb_app.
  assert (ownershipLine ("User=" +:+ u) = true) as E by (unfold ownershipLine; by rewrite prefix_app).
  destruct managed; cbn -[ownershipLine String.append]; [by rewrite E|done].
Qed.

Lemma ownership_run e m :
  ownership e m =
  if mc_unit m then
    if negb (mc_marker m) && claims (mc_override m) then if en_ok e ATouch then (Some true, touched m) else (None, m)
    else (Some (mc_marker m), m)
  else let m1 := (installer e m).2 in
    if (en_installer e).2 && en_ok e AMkDirAgain && en_ok e ATouch then (Some true, touched m1) else (None, m1).
Proof.
  unfold ownership, read, run, mbind, M_bind, mret, M_ret. destruct (mc_unit m).
  - destruct (negb (mc_marker m) && claims (mc_override m)); [|done]. by destruct (en_ok e ATouch).
  - unfold installer. destruct (en_installer e) as [unit [|]]; [|done]. cbn [fst snd andb].
    destruct (en_ok e AMkDirAgain); [|done]. cbn [andb]. by destruct (en_ok e ATouch).
Qed.

(** The script once it knows whose the service is. *)
Definition configure (e : env) (managed : bool) : M () :=
  run e AMkTemp (fun m => m);;
  ls ← runBody e [("STORAGE", st)] managed (dropInProgram u "$STORAGE") [];
  unchanged ← read (same e (printed ls));
  (if unchanged : bool then mret ()
   else run e AInstall (installed (printed ls));; run e AReload (fun m => m);; run e ARestart restarted);;
  run e ADisable disabled.

Lemma install_run e m :
  ollamaInstall e u st m =
  if en_ok e AMkDir then match ownership e m with (Some managed, m1) => configure e managed m1 | (None, m1) => (None, m1) end else (None, m).
Proof. unfold ollamaInstall, configure, mbind, M_bind. unfold run at 1. by destruct (en_ok e AMkDir). Qed.

(** What configuring comes to: it keeps the unit and the marker, touches override and service
    only to give them the policy, and gives it when it is not stopped; an override that holds
    it already is left alone. *)
Record configured (e : env) (managed : bool) (m : machine) (r : option ()) (m' : machine) : Prop := {
  cf_unit : mc_unit m' = mc_unit m;
  cf_marker : mc_marker m' = mc_marker m;
  cf_override : mc_override m' = mc_override m \/ mc_override m' = Some (text managed (en_mounted e));
  cf_loaded : mc_loaded m' = mc_loaded m \/ mc_loaded m' = Some (text managed (en_mounted e));
  cf_done : r = Some () -> mc_override m' = Some (text managed (en_mounted e)) /\ mc_enabled m' = false;
  cf_same : en_ok e ACmp = true -> mc_override m = Some (text managed (en_mounted e)) ->
    mc_restarts m' = mc_restarts m /\ mc_loaded m' = mc_loaded m /\ mc_override m' = mc_override m;
  cf_fresh : r = Some () -> mc_override m <> Some (text managed (en_mounted e)) -> mc_loaded m' = mc_override m' }.

Lemma configure_spec e managed m r m' : configure e managed m = (r, m') -> configured e managed m r m'.
Proof using Hu.
  unfold configure, mbind, M_bind. unfold run at 1. destruct (en_ok e AMkTemp).
  2:{ intros [= <- <-]. split; [done|done|by left|by left|done|done|done]. }
  rewrite body_run. fold (text managed (en_mounted e)).
  destruct (managed && en_mounted e && negb (en_ok e AMkModels)).
  { intros [= <- <-]. split; [done|done|by left|by left|done|done|done]. }
  unfold read, mret, M_ret, same. fold (text managed (en_mounted e)). set (t := text managed (en_mounted e)).
  destruct (en_ok e ACmp && bool_decide (mc_override m = Some t)) eqn:Es.
  { apply andb_prop in Es as [_ Es%bool_decide_eq_true]. unfold run, disabled.
    destruct (en_ok e ADisable); intros [= <- <-]; (split; [done|done|by left|by left| |done|done]); done. }
  assert (en_ok e ACmp = true -> mc_override m <> Some t) as Hne.
  { intros Ha Hb. by rewrite Ha, Hb, bool_decide_eq_true_2 in Es. }
  unfold run. destruct (en_ok e AInstall); [|intros [= <- <-]; split; [done|done|by left|by left|done|done|done]].
  destruct (en_ok e AReload); [|intros [= <- <-]; (split; [done|done|by right|by left|done|naive_solver|done])].
  destruct (en_ok e ARestart); [|intros [= <- <-]; (split; [done|done|by right|by left|done|naive_solver|done])].
  destruct (en_ok e ADisable); intros [= <- <-]; (split; [done|done|by right|by right|done|naive_solver|done]).
Qed.

(** The lines only the manager writes: of a user, and of a directory of models. *)
Definition ownLine (l : string) : Prop := (exists r, l = "User=" +:+ r) \/ exists r, l = "Environment=OLLAMA_MODELS=" +:+ r.
Definition hasOwnLine (m : machine) : Prop := exists t l, mc_override m = Some t /\ l ∈ str_split nl t /\ ownLine l.

(** Someone else's Ollama: present, not recorded as the manager's, its override without a line
    of the manager's.  One that is recorded.  One from before the record existed: its override
    has such a line. *)
Definition foreign (m : machine) : Prop := mc_unit m = true /\ mc_marker m = false /\ ~ hasOwnLine m.
Definition ours (m : machine) : Prop := mc_marker m = true.
Definition unrecorded (m : machine) : Prop := mc_unit m = true /\ mc_marker m = false /\ hasOwnLine m.

Lemma ownershipLine_spec l : ownershipLine l = true <-> ownLine l.
Proof. unfold ownershipLine, ownLine. by rewrite orb_true_iff, !prefix_spec. Qed.

Lemma claims_spec m : claims (mc_override m) = true <-> hasOwnLine m.
Proof.
  unfold claims, hasOwnLine. destruct (mc_override m) as [t|]; [|by split; [|intros (? & ? & ? & _)]].
  rewrite existsb_exists. split.
  - intros (l & Hl & Ho%ownershipLine_spec). exists t, l. by rewrite list_elem_of_In.
  - intros (t' & l & [= <-] & Hl & Ho%ownershipLine_spec). exists l. by rewrite <- list_elem_of_In.
Qed.

Lemma claims_not m : claims (mc_override m) = false <-> ~ hasOwnLine m.
Proof. rewrite <- claims_spec. by destruct (claims _). Qed.

(** The settings every Ollama gets, and those of one that is the manager's: the user, its home,
    and the shared directory of models when the storage was mounted as the run looked. *)
Definition everyConf : string :=
  printed ["[Service]"; "Environment=OLLAMA_HOST=0.0.0.0"; "Environment=OLLAMA_MAX_LOADED_MODELS=0";
           "Environment=OLLAMA_KEEP_ALIVE=-1"].
Definition ownConf (mounted : bool) : string :=
  printed (["[Service]"; "User=" +:+ u; "Environment=HOME=/home/" +:+ u; "Environment=OLLAMA_HOST=0.0.0.0";
            "Environment=OLLAMA_MAX_LOADED_MODELS=0"; "Environment=OLLAMA_KEEP_ALIVE=-1"] ++
           if mounted then ["Environment=OLLAMA_MODELS=" +:+ st +:+ "/models/ollama"] else []).

Lemma text_every mounted : text false mounted = everyConf.
Proof. reflexivity. Qed.
Lemma text_own mounted : text true mounted = ownConf mounted.
Proof. by destruct mounted. Qed.

Lemma install_foreign e m :
  foreign m ->
  let m' := (ollamaInstall e u st m).2 in
  foreign m' /\ (mc_override m' = mc_override m \/ mc_override m' = Some everyConf) /\
  (mc_loaded m' = mc_loaded m \/ mc_loaded m' = Some everyConf).
Proof using Hu Hst.
  intros (Hunit & Hm & Hc%claims_not). cbn zeta. rewrite install_run, ownership_run, Hunit, Hm, Hc. cbn [negb andb].
  destruct (en_ok e AMkDir); [|split; [by split_and!; [..|apply claims_not]|by split; left]].
  destruct (configure e false m) as [r m'] eqn:E. apply configure_spec in E as [U K O L _ _ _]. cbn [snd].
  rewrite text_every in O, L. split; [|done]. split_and!; [by rewrite U|by rewrite K|]. apply claims_not.
  by destruct O as [-> | ->]; [|rewrite <- (text_every false), claims_text].
Qed.

Lemma configure_ours e m0 m :
  mc_marker m0 = true -> mc_override m0 = mc_override m -> mc_loaded m0 = mc_loaded m ->
  let m' := (configure e true m0).2 in
  ours m' /\ (mc_override m' = mc_override m \/ mc_override m' = Some (ownConf (en_mounted e))) /\
  (mc_loaded m' = mc_loaded m \/ mc_loaded m' = Some (ownConf (en_mounted e))).
Proof using Hu.
  intros H1 H2 H3. cbn zeta. destruct (configure e true m0) as [r m'] eqn:E. apply configure_spec in E as [U K O L _ _ _].
  cbn [snd]. rewrite text_own, H2, H3 in *. unfold ours. by rewrite K.
Qed.

Lemma install_ours e m :
  ours m ->
  let m' := (ollamaInstall e u st m).2 in
  ours m' /\ (mc_override m' = mc_override m \/ mc_override m' = Some (ownConf (en_mounted e))) /\
  (mc_loaded m' = mc_loaded m \/ mc_loaded m' = Some (ownConf (en_mounted e))).
Proof using Hu Hst.
  intros Hm. unfold ours in Hm. cbn zeta. rewrite install_run, ownership_run, Hm. cbn [negb andb].
  destruct (en_ok e AMkDir); [|by split; [|split; left]].
  destruct (mc_unit m); [by apply configure_ours|]. unfold installer. destruct (en_installer e) as [unit zero]. cbn [fst snd].
  destruct (zero && _ && _); [by apply configure_ours|]. by split; [|split; left].
Qed.

(** C23: Ownership is kept on either side.  However often a node is provisioned, whatever
    fails on the way and whether or not the storage is mounted: an Ollama that is there, not
    recorded as the manager's and without a [User=] or [OLLAMA_MODELS] line in its override is
    never given a user, a home or a directory of models, its override being as it was or the
    settings every Ollama gets; one that is recorded stays so, and every override written for
    it claims the user and the home, and the directory of models exactly when the storage was
    mounted in that run; one that is not recorded but has such a line is taken for the
    manager's (from before the record existed) and recorded, as soon as a run can write the
    record; and a run that installs one and completes records it and claims it. *)
Theorem ownership_kept es m :
  let m' := provisionings u st es m in
  (foreign m -> foreign m' /\ (mc_override m' = mc_override m \/ mc_override m' = Some everyConf) /\
     (mc_loaded m' = mc_loaded m \/ mc_loaded m' = Some everyConf)) /\
  (ours m -> ours m' /\
     (mc_override m' = mc_override m \/ exists e, e ∈ es /\ mc_override m' = Some (ownConf (en_mounted e))) /\
     (mc_loaded m' = mc_loaded m \/ exists e, e ∈ es /\ mc_loaded m' = Some (ownConf (en_mounted e)))) /\
  (forall e, unrecorded m' -> en_ok e AMkDir = true ->
     ours (ollamaInstall e u st m').2 <-> en_ok e ATouch = true) /\
  (forall e, mc_unit m' = false -> (ollamaInstall e u st m').1 = Some () ->
     let m2 := (ollamaInstall e u st m').2 in ours m2 /\ mc_override m2 = Some (ownConf (en_mounted e)) /\ mc_enabled m2 = false).
Proof using Hu Hst.
  cbn zeta. split_and!.
  - unfold provisionings. revert m. induction es as [|e es IH]; intros m Hf; [by split; [|split; left]|]. cbn [foldl].
    destruct (install_foreign e m Hf) as (H1 & H2 & H3). destruct (IH _ H1) as (H4 & H5 & H6). split; [done|].
    split; [destruct H5 as [-> |]; [done|by right]|destruct H6 as [-> |]; [done|by right]].
  - unfold provisionings. revert m. induction es as [|e es IH]; intros m Ho; [by split; [|split; left]|]. cbn [foldl].
    destruct (install_ours e m Ho) as (H1 & H2 & H3). destruct (IH _ H1) as (H4 & H5 & H6). split; [done|].
    split; [destruct H5 as [-> |(e' & ? & ?)]; [destruct H2; [by left|]|]|destruct H6 as [-> |(e' & ? & ?)]; [destruct H3; [by left|]|]];
      right; eexists; (split; [|done]); set_solver.
  - intros e (Hunit & Hm & Hc%claims_spec) Hd. set (m0 := provisionings u st es m) in *.
    rewrite install_run, ownership_run, Hd, Hunit, Hm, Hc. cbn [negb andb]. destruct (en_ok e ATouch).
    + split; [done|]. intros _. by apply (configure_ours e (touched m0) m0).
    + unfold ours. cbn [snd]. by rewrite Hm.
  - intros e Hunit. set (m0 := provisionings u st es m) in *. rewrite install_run, ownership_run, Hunit. cbn zeta.
    destruct (en_ok e AMkDir); [|done]. destruct (_ && _ && _); [|done].
    destruct (configure e true _) as [r m'] eqn:E. apply configure_spec in E as C. cbn [fst snd]. intros Hr. unfold ours.
    rewrite (cf_marker _ _ _ _ _ C), <- text_own. split; [done|]. by apply (cf_done _ _ _ _ _ C).
Qed.

(** A node whose override is the policy's is left alone, even if the service was never
    restarted with it. *)
Lemma settled_node e m b :
  mc_unit m = true -> mc_marker m = b -> mc_override m = Some (text b (en_mounted e)) -> en_ok e ACmp = true ->
  let m' := (ollamaInstall e u st m).2 in
  mc_unit m' = true /\ mc_marker m' = b /\ mc_override m' = mc_override m /\ mc_loaded m' = mc_loaded m /\ mc_restarts m' = mc_restarts m.
Proof using Hu Hst.
  intros Hunit Hm Ho Ha. cbn zeta. rewrite install_run, ownership_run, Hunit, Hm. destruct (en_ok e AMkDir); [|done].
  rewrite Ho, claims_text. replace (negb b && b) with false by by destruct b.
  destruct (configure e b m) as [r m'] eqn:E. apply configure_spec in E as C. cbn [snd].
  destruct (cf_same _ _ _ _ _ C Ha Ho) as (H1 & H2 & H3).
  by rewrite (cf_unit _ _ _ _ _ C), (cf_marker _ _ _ _ _ C), H3, Ho.
Qed.

(** Provisioning again does not bounce a service: after a run that completed, a run that finds
    the storage as that one did restarts nothing and changes nothing of override and service. *)
Theorem rerun_quiet e e' m m1 :
  ollamaInstall e u st m = (Some (), m1) -> mc_unit m1 = true -> en_mounted e' = en_mounted e -> en_ok e' ACmp = true ->
  let m2 := (ollamaInstall e' u st m1).2 in
  mc_override m2 = mc_override m1 /\ mc_loaded m2 = mc_loaded m1 /\ mc_restarts m2 = mc_restarts m1.
Proof using Hu Hst.
  rewrite install_run. destruct (en_ok e AMkDir); [|done]. destruct (ownership e m) as [[b|] m0] eqn:Ep; [|done].
  intros C%configure_spec Hunit Hmt Ha. destruct (cf_done _ _ _ _ _ C eq_refl) as [Ho _].
  assert (mc_marker m0 = b) as Hb.
  { rewrite ownership_run in Ep. destruct (mc_unit m).
    - destruct (negb (mc_marker m) && _); [destruct (en_ok e ATouch)|]; naive_solver.
    - cbn zeta in Ep. destruct (_ && _ && _); naive_solver. }
  destruct (settled_node e' m1 b) as (_ & _ & H1 & H2 & H3); [done|by rewrite (cf_marker _ _ _ _ _ C)|by rewrite Hmt|done|done].
Qed.

(** A restart that was missed is never made up: when a run ended between writing the override
    and restarting the service, every later run finds the override in place and leaves the
    service with its old settings, as long as the storage stays as it was. *)
Theorem missed_restart_stays es m b mounted :
  mc_unit m = true -> mc_marker m = b -> mc_override m = Some (text b mounted) ->
  Forall (fun e => en_mounted e = mounted /\ en_ok e ACmp = true) es ->
  let m' := provisionings u st es m in mc_loaded m' = mc_loaded m /\ mc_restarts m' = mc_restarts m.
Proof using Hu Hst.
  unfold provisionings. intros H1 H2 H3 H. revert m H1 H2 H3. induction H as [|e es [He Ha] H IH]; intros m H1 H2 H3; [done|].
  cbn [foldl]. destruct (settled_node e m b H1 H2) as (U & B & O & L & R); [by rewrite He|done|].
  destruct (IH _ U B) as [L' R']; [by rewrite O|]. by rewrite L', R'.
Qed.

End Policy.
End DropInFacts.

(** * Audits and installations *)

Module PrereqFacts.
Import Ssh Prereq.

Section Node.
Context (SHARED_STORAGE host : string) (nodeId : option string).

(** What a check may find missing, for a node of a role and with or without sudo. *)
Definition installable (role : option string) (sudo : bool) : list string :=
  if Role.isEvalNode role then "uv (uvx)" :: (if sudo then ["Node.js"] else [])
  else (if sudo then ["Docker"; "Docker group"; "nvidia-container-toolkit"; "Node.js"] else []) ++ ["uv (uvx)"; "Ollama"; "sparkrun"].

Definition isYellow (c : PrereqCheck) : bool := match pc_status c with Yellow => true | _ => false end.

Lemma item_name sudo i r : i ∈ checkItems SHARED_STORAGE sudo -> pc_name (it_eval i r) = it_name i.
Proof.
  unfold checkItems. rewrite !elem_of_cons, elem_of_nil. unfold evalOllamaAudit.
  intros H. repeat destruct H as [-> | H]; [..|done]; cbn;
    try (by destruct (ss_code r =? 0)%Z); try (by destruct (str_includes _ _)). by destruct (List.filter _ _).
Qed.

Lemma item_yellow sudo i r :
  i ∈ checkItems SHARED_STORAGE sudo -> isYellow (it_eval i r) = true -> it_name i ∈ installable None sudo.
Proof.
  unfold checkItems. rewrite !elem_of_cons, elem_of_nil. unfold evalOllamaAudit, installable.
  intros H. repeat destruct H as [-> | H]; [..|done]; cbn; destruct sudo; cbn; rewrite ?elem_of_cons;
    try (destruct (ss_code r =? 0)%Z); try (destruct (str_includes _ _)); try done; tauto.
Qed.

(** An eval node is checked for the agent's runtime and uv only, in the order of the list. *)
Lemma eval_items role sudo :
  Role.isEvalNode role = true -> SHARED_STORAGE <> "" ->
  map it_name (checksForRole it_name (checkItems SHARED_STORAGE sudo) role) = ["uv (uvx)"; "Node.js"].
Proof.
  intros Hr Hs. unfold checksForRole. rewrite Hr. unfold checkItems, byCode, byWord. cbn [List.filter it_name].
  assert (mem_str ("NFS " +:+ SHARED_STORAGE) EVAL_NODE_CHECK_NAMES = false) as ->; [|done].
  unfold mem_str. apply bool_decide_eq_false. unfold EVAL_NODE_CHECK_NAMES. rewrite !elem_of_cons, elem_of_nil. by intros [H|[H|[]]].
Qed.

Lemma audit_checks ssh role c :
  c ∈ rp_checks (auditNode SHARED_STORAGE host nodeId ssh role).1.2 ->
  isYellow c = true -> pc_name c ∈ installable role (rp_sudoAvailable (auditNode SHARED_STORAGE host nodeId ssh role).1.2).
Proof.
  unfold auditNode. destruct (negb _); [by intros ?%not_elem_of_nil|].
  destruct (captureMac host nodeId ssh) as [macCmds mac]. cbn [fst snd rp_checks rp_sudoAvailable].
  set (sudo := (ss_code _ =? 0)%Z). rewrite elem_of_app. intros [H|H] Hy.
  - rewrite map_map in H. apply list_elem_of_In, in_map_iff in H as (i & <- & Hi%list_elem_of_In). cbn [snd auditItem] in *.
    unfold checksForRole in Hi. unfold installable. destruct (Role.isEvalNode role).
    + apply elem_of_filter_bool in Hi as [Hi Hn]. rewrite (item_name sudo) by done. apply (item_yellow sudo) in Hy; [|done].
      apply mem_str_spec in Hn. unfold EVAL_NODE_CHECK_NAMES in Hn. rewrite !elem_of_cons, elem_of_nil in Hn.
      destruct Hn as [Hn|[Hn|[]]]; rewrite Hn in *; [|by left].
      destruct sudo; [rewrite elem_of_cons; right; left|]. exfalso. cbn in Hy. rewrite !elem_of_cons, elem_of_nil in Hy. naive_solver.
    + rewrite (item_name sudo) by done. by apply (item_yellow sudo) in Hy.
  - destruct (Role.isEvalNode role); [|by apply not_elem_of_nil in H]. apply list_elem_of_singleton in H as ->. by destruct sudo.
Qed.

(** ** Installation *)

Section Install.
Context (json : string -> string) (SSH_USER : option string) (ssh : string -> result string SshResult).

Definition isSsh (e : effect) : bool := match e with Ssh _ _ => true | _ => false end.
Definition sent (es : list effect) : list effect := List.filter isSsh es.

Lemma sent_app a b : sent (a ++ b) = sent a ++ sent b.
Proof. apply List.filter_app. Qed.
Lemma sent_emit step status detail : sent (emit nodeId step status detail) = [].
Proof. unfold emit. by destruct (truthy nodeId). Qed.
Lemma sent_note name : sent (prewarmNote nodeId name) = [].
Proof. unfold prewarmNote. destruct (String.eqb name "sparkrun"); [apply sent_emit|done]. Qed.

Lemma sent_cmds cmds last : sent (runCmds ssh cmds last).1 = (runCmds ssh cmds last).1.
Proof.
  revert last. induction cmds as [|[c t] cmds IH]; intros last; [done|]. cbn [runCmds]. destruct (ssh c) as [r|]; [|done].
  destruct (ss_code r =? 0)%Z; [|done]. specialize (IH r). destruct (runCmds ssh cmds r). cbn in *. by rewrite IH.
Qed.

Notation one := (installOne SHARED_STORAGE host nodeId ssh json SSH_USER).
Notation all := (installAll SHARED_STORAGE host nodeId ssh json SSH_USER).
Notation cmdsOf := (installCmds SHARED_STORAGE host json SSH_USER).
Definition zero : SshResult := {| ss_code := 0; ss_stdout := ""; ss_stderr := "" |}.

(** Of one check: the commands sent, the lines of the log, what it throws. *)
Definition sentFor (name : string) : list effect :=
  match cmdsOf name with Ok (Some cmds) => (runCmds ssh cmds zero).1 | _ => [] end.
Definition throwsFor (name : string) : option string :=
  match cmdsOf name with
  | Err e => Some e
  | Ok None => None
  | Ok (Some cmds) => match (runCmds ssh cmds zero).2 with Err e => Some e | Ok _ => None end
  end.
Definition logFor (name : string) : list string :=
  ("Installing " +:+ name +:+ "...") ::
  match cmdsOf name with
  | Ok (Some cmds) => match (runCmds ssh cmds zero).2 with
                      | Ok r => [if (ss_code r =? 0)%Z then name +:+ " installed" else name +:+ " install failed: " +:+ ss_stderr r]
                      | Err _ => []
                      end
  | _ => []
  end.

Lemma one_spec k n name : sent (one k n name).1.1 = sentFor name /\ (one k n name).1.2 = logFor name /\ (one k n name).2 = throwsFor name.
Proof.
  unfold installOne, sentFor, logFor, throwsFor. fold zero. destruct (cmdsOf name) as [[cmds|]|e]; [|by cbn [fst snd]; rewrite sent_emit..].
  pose proof (sent_cmds cmds zero) as Hs. destruct (runCmds ssh cmds zero) as [cs [r|e]]; cbn [fst snd] in *.
  - destruct (ss_code r =? 0)%Z; cbn [fst snd]; by rewrite !sent_app, !sent_emit, sent_note, Hs, !app_nil_r.
  - by rewrite sent_app, sent_emit, Hs.
Qed.

Lemma all_spec k n names :
  match all k n names with
  | (effs, logs, None) =>
      sent effs = flat_map sentFor names /\ logs = flat_map logFor names /\ Forall (fun m => throwsFor m = None) names
  | (effs, _, Some e) => exists before name after,
      names = before ++ name :: after /\ Forall (fun m => throwsFor m = None) before /\ throwsFor name = Some e /\
      sent effs = flat_map sentFor (before ++ [name])
  end.
Proof.
  revert k. induction names as [|name names IH]; intros k; [done|]. cbn [installAll].
  destruct (one_spec k n name) as (H1 & H2 & H3). destruct (one k n name) as [[effs logs] [e|]]; cbn [fst snd] in *.
  - exists [], name, names. cbn. by rewrite app_nil_r, H1.
  - specialize (IH (S k)). destruct (all (S k) n names) as [[effs' logs'] [e|]].
    + destruct IH as (before & m & after & -> & Hb & Ht & Hs). exists (name :: before), m, after.
      split; [done|]. split; [by constructor|]. split; [done|]. by rewrite sent_app, H1, Hs.
    + destruct IH as (Hs & -> & Hf). rewrite sent_app, H1, H2, Hs. split; [done|]. split; [done|]. by constructor.
Qed.

(** An installation tries what is yellow, in order; it ends early only when a command could
    not be given to the node at all, and then with that error; otherwise its log has the
    outcome of every check. *)
Theorem provision_spec checks :
  let names := toInstall checks in
  match provisionNode SHARED_STORAGE host nodeId ssh json SSH_USER checks with
  | (effs, Ok log) =>
      sent effs = flat_map sentFor names /\ log = unlines (flat_map logFor names) /\ Forall (fun m => throwsFor m = None) names
  | (effs, Err e) => exists before name after,
      names = before ++ name :: after /\ Forall (fun m => throwsFor m = None) before /\ throwsFor name = Some e /\
      sent effs = flat_map sentFor (before ++ [name])
  end.
Proof.
  cbn zeta. unfold provisionNode. pose proof (all_spec 1 (length (toInstall checks)) (toInstall checks)) as H.
  destruct (all _ _ _) as [[effs logs] [e|]]; [done|]. destruct H as (H1 & -> & H2).
  by rewrite sent_app, sent_emit, app_nil_r.
Qed.

Lemma cmds_sent cmds last c t : Ssh c t ∈ (runCmds ssh cmds last).1 -> exists d, t = Some d /\ (c, d) ∈ cmds.
Proof.
  revert last. induction cmds as [|[x d] cmds IH]; intros last; [by intros ?%not_elem_of_nil|]. cbn [runCmds].
  destruct (ssh x) as [r|]; [destruct (ss_code r =? 0)%Z|]; [|intros [= -> ->]%list_elem_of_singleton; exists d; by split; [|left]..].
  specialize (IH r). destruct (runCmds ssh cmds r) as [effs o]. cbn [fst] in *. rewrite elem_of_cons. intros [[= -> ->]|H].
  - exists d. by split; [|left].
  - destruct (IH H) as (d' & ? & ?). exists d'. by split; [|right].
Qed.

Lemma sentFor_cmds name c t : Ssh c t ∈ sentFor name -> exists cmds d, cmdsOf name = Ok (Some cmds) /\ t = Some d /\ (c, d) ∈ cmds.
Proof.
  unfold sentFor. destruct (cmdsOf name) as [[cmds|]|]; [|by intros ?%not_elem_of_nil..].
  intros (d & H1 & H2)%cmds_sent. by exists cmds, d.
Qed.

(** Exit codes of zero, and nothing else, make a check count as installed. *)
Lemma cmds_worked cmds last :
  ss_code last = 0%Z ->
  (exists r, (runCmds ssh cmds last).2 = Ok r /\ ss_code r = 0%Z) <->
  Forall (fun c => exists r, ssh c.1 = Ok r /\ ss_code r = 0%Z) cmds.
Proof.
  revert last. induction cmds as [|[x d] cmds IH]; intros last Hl; [split; [by constructor|by exists last]|]. cbn [runCmds].
  rewrite Forall_cons. cbn [fst]. destruct (ssh x) as [r|e]; [|naive_solver]. destruct (Z.eqb_spec (ss_code r) 0).
  - specialize (IH r e). destruct (runCmds ssh cmds r) as [effs o]. cbn [snd] in *. rewrite IH. naive_solver.
  - naive_solver.
Qed.

End Install.

(** An installation sends what the audit found missing and may be installed there.
    Every command sent after an audit belongs to a check that came out yellow; an audit of an
    eval node makes only the agent's runtime and uv yellow, so that nothing that hosts models is
    put on it; without sudo only uv, sparkrun and Ollama are yellow; and an unreachable node is
    sent nothing. *)
Theorem provision_only_missing json user ssh ssh' role c t :
  let r := (auditNode SHARED_STORAGE host nodeId ssh role).1.2 in
  Ssh c t ∈ (provisionNode SHARED_STORAGE host nodeId ssh' json user (rp_checks r)).1 ->
  rp_reachable r = true /\
  exists k cmds d, k ∈ rp_checks r /\ pc_status k = Yellow /\ pc_name k ∈ installable role (rp_sudoAvailable r) /\
    installCmds SHARED_STORAGE host json user (pc_name k) = Ok (Some cmds) /\ t = Some d /\ (c, d) ∈ cmds.
Proof.
  cbn zeta. set (r := (auditNode SHARED_STORAGE host nodeId ssh role).1.2). intros Hin.
  assert (exists name, name ∈ toInstall (rp_checks r) /\ Ssh c t ∈ sentFor json user ssh' name) as (name & Hn & Hc).
  { assert (Ssh c t ∈ sent (provisionNode SHARED_STORAGE host nodeId ssh' json user (rp_checks r)).1) as H
      by (apply elem_of_filter_bool; by split).
    pose proof (provision_spec json user ssh' (rp_checks r)) as S. cbn zeta in S.
    destruct (provisionNode _ _ _ _ _ _ _) as [effs [log|e]]; cbn [fst] in H.
    - destruct S as (S & _). rewrite S in H. apply list_elem_of_In, in_flat_map in H as (name & H1 & H2).
      exists name. by rewrite !list_elem_of_In.
    - destruct S as (before & x & after & S1 & _ & _ & S). rewrite S in H. apply list_elem_of_In, in_flat_map in H as (name & H1 & H2).
      exists name. rewrite S1, !list_elem_of_In. split; [|done]. apply in_app_iff in H1 as [H1|[-> |[]]]; apply in_app_iff; [by left|right; by left]. }
  apply list_elem_of_fmap in Hn as (k & -> & Hk). apply elem_of_filter_bool in Hk as [Hk Hy].
  split.
  - unfold r, auditNode in *. destruct (negb _); [by apply not_elem_of_nil in Hk|]. by destruct (captureMac host nodeId ssh).
  - apply sentFor_cmds in Hc as (cmds & d & H1 & H2 & H3). exists k, cmds, d. split; [done|]. split; [by destruct (pc_status k)|].
    split; [by apply audit_checks|done].
Qed.

End Node.

End PrereqFacts.

(** * Concrete runs *)

Module ProvisionExamples.
Import DropIn DropInFacts Ssh Prereq PrereqFacts.

Definition fine (mounted : bool) : env := Env (fun _ => true) (true, true) mounted.
Definition failsAt (a : action) (mounted : bool) : env :=
  Env (fun b => match a, b with ARestart, ARestart | AReload, AReload | ATouch, ATouch => false | _, _ => true end) (true, true) mounted.
Definition bare : machine := Machine false false None None 0 false.
(** A hand-installed Ollama with an override of its own. *)
Definition handMade : machine :=
  Machine true false (Some (printed ["[Service]"; "Environment=OLLAMA_HOST=127.0.0.1"])) None 0 true.

Example first_install :
  let m := (ollamaInstall (fine true) "daniel" "/mnt/tank" bare).2 in
  (mc_marker m, mc_restarts m, mc_enabled m, default "" (mc_override m)) =
  (true, 1%nat, false, printed ["[Service]"; "User=daniel"; "Environment=HOME=/home/daniel"; "Environment=OLLAMA_HOST=0.0.0.0";
     "Environment=OLLAMA_MAX_LOADED_MODELS=0"; "Environment=OLLAMA_KEEP_ALIVE=-1"; "Environment=OLLAMA_MODELS=/mnt/tank/models/ollama"]).
Proof. by vm_compute. Qed.

(** The restart of the first run failed; the next runs see nothing to do. *)
Example restart_missed :
  let m := provisionings "daniel" "/mnt/tank" [failsAt ARestart true; fine true; fine true] bare in
  (mc_restarts m, mc_loaded m, bool_decide (is_Some (mc_override m))) = (0%nat, None, true).
Proof. by vm_compute. Qed.

(** The installer made the unit and failed: from then on it is someone else's. *)
Example failed_install_is_foreign :
  let m := provisionings "daniel" "/mnt/tank" [Env (fun _ => true) (true, false) true; fine true] bare in
  (mc_unit m, mc_marker m, mc_override m) = (true, false, Some (text "daniel" "/mnt/tank" false true)).
Proof. by vm_compute. Qed.

(** A node from before the marker is recognised by its override. *)
Example backfilled :
  let m := provisionings "daniel" "/mnt/tank" [fine false]
    (Machine true false (Some (printed ["[Service]"; "User=daniel"])) None 3 false) in
  (mc_marker m, mc_override m) = (true, Some (text "daniel" "/mnt/tank" true false)).
Proof. by vm_compute. Qed.

Lemma ownership_kept_witness :
  let m' := provisionings "daniel" "/mnt/tank" [fine true; failsAt AReload false] handMade in
  (foreign handMade -> foreign m' /\ (mc_override m' = mc_override handMade \/ mc_override m' = Some everyConf)) /\
  let m2 := (ollamaInstall (fine true) "daniel" "/mnt/tank" bare).2 in
  ours m2 /\ mc_override m2 = Some (ownConf "daniel" "/mnt/tank" true).
Proof.
  cbn zeta. split.
  - intros H. destruct (ownership_kept "daniel" "/mnt/tank" eq_refl eq_refl [fine true; failsAt AReload false] handMade)
      as (Hf & _). destruct (Hf H) as (H1 & H2 & _). by split.
  - destruct (ownership_kept "daniel" "/mnt/tank" eq_refl eq_refl [] bare) as (_ & _ & _ & Hi).
    destruct (Hi (fine true) eq_refl eq_refl) as (H1 & H2 & _). by split.
Defined.

Example handMade_is_foreign : foreign handMade.
Proof. split_and!; [done..|]. by apply claims_not. Qed.

Lemma rerun_quiet_witness :
  let m1 := (ollamaInstall (fine true) "daniel" "/mnt/tank" bare).2 in
  let m2 := (ollamaInstall (failsAt AReload true) "daniel" "/mnt/tank" m1).2 in
  mc_override m2 = mc_override m1 /\ mc_loaded m2 = mc_loaded m1 /\ mc_restarts m2 = mc_restarts m1.
Proof. apply (rerun_quiet "daniel" "/mnt/tank" eq_refl eq_refl (fine true) (failsAt AReload true) bare); reflexivity. Defined.

Lemma missed_restart_stays_witness :
  let m := (ollamaInstall (failsAt ARestart true) "daniel" "/mnt/tank" bare).2 in
  let m' := provisionings "daniel" "/mnt/tank" [fine true; fine true] m in
  mc_loaded m' = mc_loaded m /\ mc_restarts m' = mc_restarts m.
Proof.
  apply (missed_restart_stays "daniel" "/mnt/tank" eq_refl eq_refl [fine true; fine true] _ true true); try reflexivity.
  repeat constructor.
Defined.

Example names_checked :
  map (fun u => match ollamaInstallCmd (fun s => s) u "/etc/d" "/mnt/tank" with Ok _ => true | Err _ => false end)
    ["daniel"; "a-1_b"; ""; "1a"; "a b"; "a;rm"; "$(id)"] = [true; true; false; false; false; false; false].
Proof. by vm_compute. Qed.

(** ** A node with Docker, without the rest *)

Definition answer (out : string) (code : Z) : result string SshResult := Ok {| ss_code := code; ss_stdout := out; ss_stderr := "" |}.
Definition node (cmd : string) : result string SshResult :=
  if mem_str cmd ["echo ok"; "sudo -n true"] then answer "" 0
  else if String.prefix "docker" cmd then answer "Docker version 27" 0
  else if String.prefix "mountpoint" cmd then answer "mounted" 0
  else if String.prefix "nvidia-smi" cmd then answer "GB10, 122000" 0
  else if str_includes "get.docker.com" cmd then Err "connection lost"
  else if str_includes "usermod" cmd then answer "" 0
  else if str_includes "astral.sh" cmd then answer "" 1
  else answer "" 1.

Definition report := (auditNode "/mnt/tank" "10.0.0.5" (Some "n1") node None).1.2.

Example audited :
  map (fun c => (pc_name c, colour (pc_status c))) (rp_checks report) =
  [("NVIDIA Drivers", "green"); ("Docker", "green"); ("Docker group", "yellow"); ("uv (uvx)", "yellow"); ("nvidia-container-toolkit", "yellow");
   ("Node.js", "yellow"); ("Ollama", "yellow"); ("NFS /mnt/tank", "green"); ("sparkrun", "yellow")].
Proof. by vm_compute. Qed.

Definition sentTo (checks : list PrereqCheck) : list string :=
  flat_map (fun e => match e with Ssh c _ => [c] | _ => [] end)
    (provisionNode "/mnt/tank" "10.0.0.5" (Some "n1") node (fun s => s) (Some "daniel") checks).1.

Example first_commands : take 2 (sentTo (rp_checks report)) = ["sudo usermod -aG docker $USER"; "curl -LsSf https://astral.sh/uv/install.sh | sh"].
Proof. by vm_compute. Qed.

Lemma provision_only_missing_witness :
  rp_reachable report = true /\
  exists k cmds d, k ∈ rp_checks report /\ pc_status k = Yellow /\ pc_name k ∈ installable None (rp_sudoAvailable report) /\
    installCmds "/mnt/tank" "10.0.0.5" (fun s => s) (Some "daniel") (pc_name k) = Ok (Some cmds) /\
    Some 30000%Z = Some d /\ ("sudo usermod -aG docker $USER", d) ∈ cmds.
Proof.
  apply (provision_only_missing "/mnt/tank" "10.0.0.5" (Some "n1") (fun s => s) (Some "daniel") node node None
    "sudo usermod -aG docker $USER" (Some 30000%Z)).
  apply list_elem_of_In. apply (in_cons _ _ _). left. reflexivity.
Defined.

(** A command a signal ended is reported as installed. *)
Example killed_is_installed :
  sx_settled (sshExec (Ok "key") None [Ready None; Stderr "Killed"; Ssh.Close None]) = Some (Ok {| ss_code := 0; ss_stdout := ""; ss_stderr := "Killed" |}).
Proof. by vm_compute. Qed.

(** The agent's own report of an eval node calls Ollama optional, in yellow: installing from
    it puts Ollama on that node, which the audit's list for eval nodes leaves out. *)
Example self_audit_installs_ollama :
  match sentTo [Check_ "NVIDIA Drivers" Red "nvidia-smi unavailable"; Check_ "Docker" Red "docker command not found";
                Check_ "Ollama" Yellow "Not installed (optional)"; Check_ "NFS /mnt/tank" Yellow "Not mounted (optional)"] with
  | [cmd] => str_includes "curl -fsSL https://ollama.ai/install.sh | sh" cmd
  | _ => false
  end = true.
Proof. by vm_compute. Qed.

End ProvisionExamples.
