(* ===== verification/NodeAdmin.v ===== *)
(** The rest of the node routes ([routes/nodes.ts]): adding a node, renaming it, provisioning
    it, the lists, and the two capability requests an operator makes ([diag], [exec]).

    The table holds [provisionLog] beside the columns of [Schema]: a report as JSON, or the
    text of an error, which no [JSON.parse] accepts.  What runs after the answer (an audit, an
    installation) is a task that ends when it likes; [crashed] says that a rejection nobody
    handles ended the process.  The hub's writes to the same rows are steps too. *)
From S2P Require Import Prelude JsNum Schema Admission AgentHub NodeOps SysInfo Admin Firewall Provision.
Import Provision.Ssh Provision.Prereq.

Inductive provisionLog := Reported (r : ProvisionReport) | Failure (err : string).

Record nrow := NRow { nr_node : node; nr_log : option provisionLog }.
#[export] Instance nrow_hasid : HasId nrow := fun r => n_id (nr_node r).

(** A task: the audit of a new node; a request to provision that has read the row and awaits
    its write; the installation of what a report found missing. *)
Inductive task := AuditTask (id ip : string) (role : option string)
                | MarkTask (id : string) (ip role : option string) (checks : list PrereqCheck)
                | ProvisionTask (id ip : string) (role : option string) (checks : list PrereqCheck).

Record state := State { rows : list nrow; tasks : list task; crashed : bool }.

Definition set_rows (f : list nrow -> list nrow) (s : state) : state := State (f (rows s)) (tasks s) (crashed s).

Inductive reply :=
  | Created (n : node) | NodeReply (n : node) | Provisioning
  | BadRequest (error : string) | NotFound (error : string) | Conflict (error : string) | Throw.

(** * Writes *)

Definition patchRow (p : node_patch) (log : option provisionLog) (r : nrow) : nrow :=
  NRow (patch_node p (nr_node r)) (match log with Some l => Some l | None => nr_log r end).

(** [prisma.node.update]; [None]: no such row. *)
Definition updateRow (id : string) (p : node_patch) (log : option provisionLog) (rs : list nrow) : option (list nrow) :=
  match tbl_find id rs with Some _ => Some (tbl_update id (patchRow p log) rs) | None => None end.

Definition auditPatch (status : string) (gpu : option (option string)) (docker ollama : option bool) (mac : option string) : node_patch :=
  NodePatch None None None None None gpu None None None (Some status) docker ollama mac.

Definition checkIs (checks : list PrereqCheck) (name : string) : option PrereqCheck :=
  js_find (fun c => String.eqb (pc_name c) name) checks.
Definition isGreen (checks : list PrereqCheck) (name : string) : bool :=
  match checkIs checks name with Some c => bool_decide (pc_status c = Green) | None => false end.

(** * Requests *)

(** Requests are one step but for the one that provisions, which awaits its write. *)

(** [role]: as the body has it, [None] when it is undefined. *)
Definition createNode (newId : string) (name ipAddress : option string) (role : option json) (s : state) : state * reply :=
  match truthy name with
  | None => (s, BadRequest "name is required")
  | Some name =>
      if match role with None => true | Some (JStr r) => mem_str r ["gpu"; "eval"] | Some _ => false end then
        if existsb (fun r => String.eqb (n_name (nr_node r)) name) (rows s) then (s, Throw)
        else
          let r := match role with Some (JStr r) => r | _ => "gpu" end in
          let n := Node newId name (truthy ipAddress) "new" "on" (Some r) None None None None None None "pending" false false None in
          (State (rows s ++ [NRow n None])
             (match truthy ipAddress with Some ip => tasks s ++ [AuditTask newId ip (Some r)] | None => tasks s end) (crashed s),
           Created n)
      else (s, BadRequest ("Invalid role: " +:+ match role with Some r => Settings.js_String r | None => "undefined" end +:+
                           " (must be " +:+ quoted "gpu" +:+ " or " +:+ quoted "eval" +:+ ")"))
  end.

Definition withName (name : string) (n : node) : node :=
  Node (n_id n) name (n_ipAddress n) (n_status n) (n_powerState n) (n_role n) (n_vramTotal n) (n_arch n) (n_gpuModel n)
    (n_agentVersion n) (n_lastSeen n) (n_fastIpAddress n) (n_provisionStatus n) (n_dockerAvailable n) (n_ollamaInstalled n) (n_macAddress n).

Definition patchNode (id : string) (name : option json) (s : state) : state * reply :=
  match jstr name with
  | None => (s, BadRequest "name is required")
  | Some name =>
      let trimmed := str_trim name in
      if String.eqb trimmed "" then (s, BadRequest "name is required")
      else
        match tbl_find id (rows s) with
        | None => (s, NotFound "Node not found")
        | Some r =>
            if existsb (fun x => String.eqb (n_name (nr_node x)) trimmed && negb (String.eqb (row_id x) id)) (rows s)
            then (s, Conflict ("A node named " +:+ quoted trimmed +:+ " already exists"))
            else (set_rows (tbl_update id (fun x => NRow (withName trimmed (nr_node x)) (nr_log x))) s,
                  NodeReply (withName trimmed (nr_node r)))
        end
  end.

Definition add_task (t : task) (s : state) : state := State (rows s) (tasks s ++ [t]) (crashed s).

(** The request to provision up to its write; [None]: no answer yet. *)
Definition provision (id : string) (s : state) : state * option reply :=
  match tbl_find id (rows s) with
  | None => (s, Some (NotFound "Node not found"))
  | Some r =>
      match nr_log r with
      | None => (s, Some (BadRequest "Node has not been audited yet"))
      | Some (Failure _) => (s, Some Throw)
      | Some (Reported report) =>
          (add_task (MarkTask id (truthy (n_ipAddress (nr_node r))) (n_role (nr_node r)) (rp_checks report)) s, None)
      end
  end.

(** Its write and what follows, with what was read before it. *)
Definition marks (id : string) (ip role : option string) (checks : list PrereqCheck) (s : state) : state * reply :=
  match updateRow id (auditPatch "provisioning" None None None None) None (rows s) with
  | None => (s, Throw)
  | Some rs =>
      let s := set_rows (fun _ => rs) s in
      match ip with
      | None => (s, BadRequest "Cannot provision a node without an IP address (token-bootstrapped nodes are self-provisioned)")
      | Some ip => (add_task (ProvisionTask id ip role checks) s, Provisioning)
      end
  end.

(** * Tasks *)

Section Tasks.
Context (SHARED_STORAGE : string) (stringify : string -> string) (SSH_USER : option string).

(** The address an audit found is written at once, if the row is there. *)
Definition saveMac (id : string) (mac : option string) (s : state) : state :=
  match mac with
  | Some m => match updateRow id (NodePatch None None None None None None None None None None None None (Some m)) None (rows s) with
              | Some rs => set_rows (fun _ => rs) s
              | None => s
              end
  | None => s
  end.

Definition auditEnds (id ip : string) (role : option string) (ssh : string -> result string SshResult) (s : state) : state :=
  let '(_, report, mac) := auditNode SHARED_STORAGE ip (Some id) ssh role in
  let s := saveMac id mac s in
  let status := if rp_reachable report then "audited" else "unreachable" in
  let gpu := truthy (pc_detail <$> checkIs (rp_checks report) "NVIDIA Drivers") in
  match updateRow id (auditPatch status (Some gpu) (Some (isGreen (rp_checks report) "Docker"))
                        (Some (isGreen (rp_checks report) "Ollama")) None) (Some (Reported report)) (rows s) with
  | Some rs => set_rows (fun _ => rs) s
  | None => s
  end.

(** The handler of a failed installation, also reached when the write after it throws; when
    its own write throws nobody is left to catch. *)
Definition provisionFails (id err : string) (s : state) : state :=
  match updateRow id (auditPatch "failed" None None None None) (Some (Failure err)) (rows s) with
  | Some rs => set_rows (fun _ => rs) s
  | None => State (rows s) (tasks s) true
  end.

(** [ssh]: the answers while it installs, [ssh']: those of the audit after it. *)
Definition provisionEnds (id ip : string) (role : option string) (checks : list PrereqCheck)
    (ssh ssh' : string -> result string SshResult) (s : state) : state :=
  match (provisionNode SHARED_STORAGE ip (Some id) ssh stringify SSH_USER checks).2 with
  | Err err => provisionFails id ("Error: " +:+ err) s (* [String(err)] *)
  | Ok _ =>
      let '(_, report, mac) := auditNode SHARED_STORAGE ip (Some id) ssh' role in
      let s := saveMac id mac s in
      match updateRow id (auditPatch "provisioned" None (Some (isGreen (rp_checks report) "Docker"))
                            (Some (isGreen (rp_checks report) "Ollama")) None) (Some (Reported report)) (rows s) with
      | Some rs => set_rows (fun _ => rs) s
      | None => provisionFails id "Record to update not found." s
      end
  end.

(** * Runs *)

Inductive event :=
  | Create (newId : string) (name ipAddress : option string) (role : option json)
  | Patch (id : string) (name : option json)
  | Provision (id : string)
  | TaskEnds (k : nat) (ssh ssh' : string -> result string SshResult)
  | SelfAudit (id : string) (systemInfo : string) (checks : list PrereqCheck) (** the hub's, from the node's agent *)
  | Remove (id : string). (** an offboarding *)

Definition step (s : state) (e : event) : state :=
  if crashed s then s
  else
    match e with
    | Create newId name ip role => (createNode newId name ip role s).1
    | Patch id name => (patchNode id name s).1
    | Provision id => (provision id s).1
    | TaskEnds k ssh ssh' =>
        match tasks s !! k with
        | None => s
        | Some t =>
            let s := State (rows s) (delete k (tasks s)) (crashed s) in
            match t with
            | AuditTask id ip role => auditEnds id ip role ssh s
            | MarkTask id ip role checks => (marks id ip role checks s).1
            | ProvisionTask id ip role checks => provisionEnds id ip role checks ssh ssh' s
            end
        end
    | SelfAudit id systemInfo checks =>
        match updateRow id (auditPatch "agent-deployed" None (Some (isGreen checks "Docker")) (Some (isGreen checks "Ollama")) None)
                (Some (Reported (Report true true systemInfo checks))) (rows s) with
        | Some rs => set_rows (fun _ => rs) s
        | None => s
        end
    | Remove id => set_rows (tbl_delete id) s
    end.

Definition run (es : list event) (s : state) : state := foldl step s es.

End Tasks.

(** * Lists *)

(** The sample a node of the list shows: the last of its window. *)
Definition listNodes {A} (history : string -> list A) (rs : list nrow) : list (nrow * list A) :=
  map (fun r => (r, match last (history (row_id r)) with Some m => [m] | None => [] end))
    (js_sort (fun a b => String.leb (n_name (nr_node a)) (n_name (nr_node b))) rs).

Definition idleNodes (rs : list nrow) : list nrow :=
  js_sort (fun a b => String.leb (n_name (nr_node a)) (n_name (nr_node b)))
    (List.filter (fun r => String.eqb (n_status (nr_node r)) "online") rs).

Definition metricsHistory {A} (id : string) (b : Buffer.buffers A) : list A := Buffer.getHistory id b.

(** * Capabilities *)

Inductive capReply := CapOffline | CapBad (error : string) | CapFailed (error : string) | CapOk (data : option json).

(** How the promise of [invoke] is settled. *)
Definition resolved (v : Cap.settled) : bool * option json * option string :=
  match v with
  | Cap.TimedOut => (false, None, Some "cap timeout")
  | Cap.Answered ok data error => (ok, data, error)
  end.

Definition postDiag (online : bool) (v : Cap.settled) : capReply :=
  if negb online then CapOffline
  else let '(ok, data, error) := resolved v in if ok then CapOk data else CapFailed (default "diag failed" error).

(** [chunks]: what the agent streamed, of either stream, until the answer.  A spread of the
    answer's data, which is an object, with the output last. *)
Definition postExec (reason : option json) (online : bool) (v : Cap.settled) (chunks : list string) : capReply :=
  if match reason with Some r => jtruthy reason && negb (String.eqb (str_trim (Settings.js_String r)) "") | None => false end then
    if negb online then CapOffline
    else
      let '(ok, data, error) := resolved v in
      if ok then
        let fields := match data with Some (JObj l) => l | _ => [] end in
        CapOk (Some (JObj [("ok", JBool true); ("result", JObj (obj_spread fields [("output", JStr (foldl String.append "" chunks))]))]))
      else CapFailed (default "exec failed" error)
  else CapBad "reason required (audited)".
