(* ===== verification/NodeAdminFacts.v ===== *)
(** What [NodeAdmin] promises: over every run the table keeps its keys and its flags are those
    of the report it shows; which node can be provisioned again, and what ends the process. *)
From S2P Require Import Prelude JsNum Schema Admission AgentHub NodeOps SysInfo Admin Firewall Provision ProvisionFacts NodeAdmin.
Import Provision.Prereq.

Definition nameOf (r : nrow) : string := n_name (nr_node r).

Definition taskId (t : task) : string :=
  match t with AuditTask id _ _ => id | MarkTask id _ _ _ => id | ProvisionTask id _ _ _ => id end.




Lemma updateRow_inv id p log rs rs' : updateRow id p log rs = Some rs' -> rs' = tbl_update id (patchRow p log) rs.
Proof. unfold updateRow. destruct (tbl_find id rs); [congruence|done]. Qed.










(** ** Steps *)

Section Steps.
Context (SHARED_STORAGE : string) (stringify : string -> string) (SSH_USER : option string).

Notation step := (step SHARED_STORAGE stringify SSH_USER).
Notation run := (run SHARED_STORAGE stringify SSH_USER).

















Lemma saveMac_rest id mac s : tasks (saveMac id mac s) = tasks s /\ crashed (saveMac id mac s) = crashed s.
Proof. unfold saveMac. destruct mac as [m|]; [|done]. by destruct (updateRow _ _ _ _). Qed.








(** ** What ends the process *)

Lemma provisionFails_crash id err s :
  crashed (provisionFails id err s) = if tbl_find id (rows s) then crashed s else true.
Proof. unfold provisionFails, updateRow. by destruct (tbl_find id (rows s)). Qed.

Lemma saveMac_find id mac s j : is_Some (tbl_find j (rows (saveMac id mac s))) <-> is_Some (tbl_find j (rows s)).
Proof.
  unfold saveMac. destruct mac as [m|]; [|done]. destruct (updateRow _ _ _ _) as [rs|] eqn:E; [|done].
  apply updateRow_inv in E as ->. cbn [rows set_rows]. rewrite tbl_find_update by done.
  destruct (String.eqb j id); [|done]. by rewrite fmap_is_Some.
Qed.
Lemma provisionEnds_crash id ip role checks ssh ssh' s :
  crashed (provisionEnds SHARED_STORAGE stringify SSH_USER id ip role checks ssh ssh' s) =
  if tbl_find id (rows s) then crashed s else true.
Proof.
  unfold provisionEnds. destruct (provisionNode _ _ _ _ _ _ _).2 as [log|err]; [|apply provisionFails_crash].
  destruct (auditNode _ _ _ _ _) as [[effs rep] mac]. destruct (saveMac_rest id mac s) as [_ Hc]. pose proof (saveMac_find id mac s id) as Hf.
  destruct (updateRow _ _ _ _) as [rs|] eqn:E; unfold updateRow in E.
  - destruct (tbl_find id (rows (saveMac id mac s))); [|done]. cbn [crashed set_rows]. rewrite Hc.
    destruct (tbl_find id (rows s)); [done|]. destruct (proj1 Hf ltac:(by eexists)); done.
  - rewrite provisionFails_crash. destruct (tbl_find id (rows (saveMac id mac s))); [done|]. destruct (tbl_find id (rows s)); [|done].
    destruct (proj2 Hf ltac:(by eexists)); done.
Qed.

(** The manager's process ends exactly when an installation ends whose node was removed
    meanwhile: the write of the outcome throws, the handler's own write throws again, and
    nobody handles that. *)
Theorem crash_iff s e :
  crashed s = false ->
  crashed (step s e) = true <->
  exists k ssh ssh' id ip role checks, e = TaskEnds k ssh ssh' /\ tasks s !! k = Some (ProvisionTask id ip role checks) /\
    tbl_find id (rows s) = None.
Proof.
  intros Hc. unfold NodeAdmin.step. rewrite Hc.
  assert (forall P : Prop, ~ P -> (false = true <-> P)) as Hno by (intros P H; by split).
  destruct e as [newId name ip role|id name|id|k ssh ssh'|id info checks|id].
  - transitivity (false = true); [|apply Hno; naive_solver]. unfold createNode. destruct (truthy name); [|by cbn; rewrite Hc].
    destruct (match role with None => true | _ => _ end); [|by cbn; rewrite Hc]. destruct (existsb _ _); by cbn; rewrite Hc.
  - transitivity (false = true); [|apply Hno; naive_solver]. enough (crashed (patchNode id name s).1 = crashed s) as -> by by rewrite Hc.
    unfold patchNode. destruct (jstr name); [|done]. destruct (String.eqb _ _); [done|]. destruct (tbl_find id (rows s)); [|done].
    by destruct (existsb _ _).
  - transitivity (false = true); [|apply Hno; naive_solver]. enough (crashed (provision id s).1 = crashed s) as -> by by rewrite Hc.
    unfold provision. destruct (tbl_find id (rows s)) as [r|]; [|done]. by destruct (nr_log r) as [[rep|]|].
  - destruct (tasks s !! k) as [[id ip role|id ip role checks|id ip role checks]|] eqn:Ek.
    + transitivity (false = true); [|apply Hno; naive_solver]. unfold auditEnds. destruct (auditNode _ _ _ _ _) as [[effs rep] mac].
      destruct (saveMac_rest id mac (State (rows s) (delete k (tasks s)) false)) as [_ Hs]. cbn [crashed] in Hs.
      destruct (updateRow _ _ _ _); cbn [crashed set_rows]; by rewrite Hs.
    + transitivity (false = true); [|apply Hno; naive_solver]. unfold marks. destruct (updateRow _ _ _ _); [|done]. by destruct ip.
    + rewrite provisionEnds_crash. cbn [rows crashed]. destruct (tbl_find id (rows s)) as [r|] eqn:Ef; split; try done.
      * intros (k' & x & x' & id' & ip' & role' & c' & [= <- <- <-] & H1 & H2). rewrite Ek in H1. injection H1 as <- <- <- <-. congruence.
      * intros _. by exists k, ssh, ssh', id, ip, role, checks.
    + rewrite ?Hc. apply Hno. naive_solver.
  - transitivity (false = true); [|apply Hno; naive_solver]. destruct (updateRow _ _ _ _); cbn; by rewrite Hc.
  - cbn. rewrite ?Hc. apply Hno. naive_solver.
Qed.

(** ** A failed installation *)

(** What may happen to other nodes, and to this one short of a report of its agent. *)
Definition elsewhere (id : string) (e : event) : Prop :=
  match e with Create i _ _ _ => i <> id | SelfAudit i _ _ => i <> id | Remove i => i <> id | _ => True end.

Definition stuck (id err : string) (s : state) : Prop :=
  (exists r, tbl_find id (rows s) = Some r /\ nr_log r = Some (Failure err)) /\ Forall (fun t => taskId t <> id) (tasks s).

Lemma find_app id (rs ts : list nrow) r : tbl_find id rs = Some r -> tbl_find id (rs ++ ts) = Some r.
Proof. unfold tbl_find. induction rs as [|x rs IH]; [done|]. cbn. by destruct (String.eqb (row_id x) id). Qed.

Lemma find_other id i p log rs : i <> id -> tbl_find id (tbl_update i (patchRow p log) rs) = tbl_find id rs.
Proof. intros H. rewrite tbl_find_update by done. apply not_eq_sym, String.eqb_neq in H. by rewrite H. Qed.

(** A write to another node leaves this one. *)
Lemma updateRow_other id i p log rs rs' : i <> id -> updateRow i p log rs = Some rs' -> tbl_find id rs' = tbl_find id rs.
Proof. intros H ->%updateRow_inv. by apply find_other. Qed.

Lemma saveMac_other id i mac s : i <> id -> tbl_find id (rows (saveMac i mac s)) = tbl_find id (rows s).
Proof.
  intros H. unfold saveMac. destruct mac as [m|]; [|done]. destruct (updateRow _ _ _ _) as [rs|] eqn:E; [|done]. by eapply updateRow_other in E.
Qed.

Lemma fails_other id i err s : i <> id ->
  tbl_find id (rows (provisionFails i err s)) = tbl_find id (rows s) /\ tasks (provisionFails i err s) = tasks s.
Proof.
  intros H. unfold provisionFails. destruct (updateRow _ _ _ _) as [rs|] eqn:E; [|done]. split; [|done]. by eapply updateRow_other in E.
Qed.

Lemma auditEnds_other id i ip role ssh s : i <> id ->
  let s' := auditEnds SHARED_STORAGE i ip role ssh s in tbl_find id (rows s') = tbl_find id (rows s) /\ tasks s' = tasks s.
Proof.
  intros H. cbn zeta. unfold auditEnds. destruct (auditNode _ _ _ _ _) as [[effs rep] mac]. rewrite <- (saveMac_other id i mac s) by done.
  destruct (saveMac_rest i mac s) as [Ht _]. destruct (updateRow _ _ _ _) as [rs|] eqn:E; split; try done. by eapply updateRow_other in E.
Qed.

Lemma provisionEnds_other id i ip role checks ssh ssh' s : i <> id ->
  let s' := provisionEnds SHARED_STORAGE stringify SSH_USER i ip role checks ssh ssh' s in
  tbl_find id (rows s') = tbl_find id (rows s) /\ tasks s' = tasks s.
Proof.
  intros H. cbn zeta. unfold provisionEnds. destruct (provisionNode _ _ _ _ _ _ _).2; [|by apply fails_other].
  destruct (auditNode _ _ _ _ _) as [[effs rep] mac]. rewrite <- (saveMac_other id i mac s) by done.
  destruct (saveMac_rest i mac s) as [Ht _]. rewrite <- Ht. destruct (updateRow _ _ _ _) as [rs|] eqn:E; [|by apply fails_other].
  split; [|done]. by eapply updateRow_other in E.
Qed.

Lemma provision_stuck id err s : stuck id err s -> provision id s = (s, Some Throw).
Proof. intros [(r & Hr & Hl) _]. unfold provision. by rewrite Hr, Hl. Qed.

Lemma step_stuck id err s e : elsewhere id e -> stuck id err s -> stuck id err (step s e).
Proof.
  intros He Hs. pose proof Hs as [(r & Hr & Hl) Ht]. unfold NodeAdmin.step. destruct (crashed s); [done|].
  destruct e as [newId name ip role|i name|i|k ssh ssh'|i info checks|i]; cbn [elsewhere] in He.
  - unfold createNode. destruct (truthy name); [|done]. destruct (match role with None => true | _ => _ end); [|done].
    destruct (existsb _ _); [done|]. cbn [fst]. split; [exists r; split; [by apply find_app|done]|]. cbn [tasks].
    destruct (truthy ip); [|done]. apply Forall_app. split; [done|]. by constructor.
  - unfold patchNode. destruct (jstr name); [|done]. destruct (String.eqb _ _); [done|]. destruct (tbl_find i (rows s)); [|done].
    destruct (existsb _ _); [done|]. cbn [fst]. split; [|done]. cbn [rows set_rows]. rewrite tbl_find_update by done.
    destruct (String.eqb id i); [|by exists r]. rewrite Hr. by eexists.
  - destruct (String.eqb_spec i id) as [-> |Hne]; [by rewrite (provision_stuck id err s)|]. unfold provision.
    destruct (tbl_find i (rows s)) as [r'|]; [|done]. destruct (nr_log r') as [[rep|]|]; [|done..].
    split; [by exists r|]. apply Forall_app. split; [done|]. by constructor.
  - destruct (tasks s !! k) as [t|] eqn:Ek; [|done]. assert (taskId t <> id) as Hne by by apply (Forall_lookup_1 _ _ _ _ Ht Ek).
    assert (Forall (fun t => taskId t <> id) (delete k (tasks s))) as Hd.
    { apply Forall_forall. intros x Hx%elem_of_delete. by apply (proj1 (Forall_forall _ _) Ht). }
    set (s0 := State (rows s) (delete k (tasks s)) false).
    destruct t as [i ip role|i ip role checks|i ip role checks]; cbn [taskId] in Hne.
    + destruct (auditEnds_other id i ip role ssh s0 Hne) as [H1 H2]. split; [exists r; by rewrite H1|by rewrite H2].
    + unfold marks. destruct (updateRow _ _ _ _) as [rs|] eqn:E; [|split; [by exists r|done]].
      apply (updateRow_other id) in E; [|done]. assert (tbl_find id rs = Some r) as Er by by rewrite E.
      destruct ip; (split; [by exists r|]); [|done]. apply Forall_app. split; [done|]. by constructor.
    + destruct (provisionEnds_other id i ip role checks ssh ssh' s0 Hne) as [H1 H2]. split; [exists r; by rewrite H1|by rewrite H2].
  - destruct (updateRow _ _ _ _) as [rs|] eqn:E; [|done]. split; [|done]. exists r. cbn [rows set_rows].
    by rewrite (updateRow_other id i _ _ _ _ He E).
  - split; [|done]. exists r. cbn [rows set_rows]. by rewrite tbl_find_delete by congruence.
Qed.

(** An installation that failed cannot be tried again: the error's text stands where the
    report was, and parsing it throws, on every request, until the node's agent reports itself or
    the node is removed. *)
Theorem failed_installation_is_final id err es s :
  stuck id err s -> Forall (elsewhere id) es -> let s' := run es s in stuck id err s' /\ provision id s' = (s', Some Throw).
Proof.
  cbn zeta. intros Hs Hes. enough (stuck id err (run es s)) as H by (split; [done|by apply (provision_stuck id err)]).
  unfold NodeAdmin.run. revert s Hs. induction Hes as [|e es He Hes IH]; intros s Hs; [done|]. cbn [foldl]. by apply IH, step_stuck.
Qed.

End Steps.

(** A node without an address is marked as being provisioned before it is refused, whatever
    happened to its row since it was read, and no task will ever say otherwise. *)
Theorem refused_stays_provisioning id s r rep :
  tbl_find id (rows s) = Some r -> nr_log r = Some (Reported rep) -> truthy (n_ipAddress (nr_node r)) = None ->
  exists role checks, provision id s = (add_task (MarkTask id None role checks) s, None) /\
  forall s' r', tbl_find id (rows s') = Some r' ->
    let '(s2, a) := marks id None role checks s' in
    (exists e, a = BadRequest e) /\ tasks s2 = tasks s' /\
    tbl_find id (rows s2) = Some (patchRow (auditPatch "provisioning" None None None None) None r').
Proof.
  intros Hr Hl Hi. unfold provision. rewrite Hr, Hl, Hi. do 2 eexists. split; [reflexivity|]. intros s' r' Hr'.
  unfold marks, updateRow. rewrite Hr'. split; [by eexists|]. split; [done|]. cbn [rows set_rows].
  by rewrite tbl_find_update, String.eqb_refl, Hr'.
Qed.

(** ** Lists and capabilities *)

Lemma listNodes_spec {A} (history : string -> list A) rs :
  map fst (listNodes history rs) ≡ₚ rs /\ forall r ms, (r, ms) ∈ listNodes history rs -> ms = option_list (last (history (row_id r))).
Proof.
  unfold listNodes. split.
  - rewrite map_map. cbn [fst]. rewrite map_id. apply js_sort_perm.
  - intros r ms H. apply list_elem_of_fmap in H as (x & [= -> ->] & _). by destruct (last (history (row_id x))).
Qed.

Lemma texts_concat chunks acc : foldl String.append acc chunks = acc +:+ foldl String.append "" chunks.
Proof.
  revert acc. induction chunks as [|c cs IH]; intros acc; cbn [foldl]; [by rewrite app_empty_r|].
  rewrite (IH (acc +:+ c)), (IH ("" +:+ c)). by rewrite app_empty_l, str_app_assoc.
Qed.

(** What an operator's command is answered: nothing leaves without a reason or a connected
    agent; a timeout and a refusal are told; and the output is everything that was streamed,
    whatever the agent's own answer calls output. *)
Theorem postExec_spec reason online v chunks :
  match postExec reason online v chunks with
  | CapBad _ => jtruthy reason = false \/ exists r, reason = Some r /\ str_trim (Settings.js_String r) = ""
  | CapOffline => online = false
  | CapFailed e => online = true /\ (v = Cap.TimedOut /\ e = "cap timeout" \/ exists d e', v = Cap.Answered false d e' /\ e = default "exec failed" e')
  | CapOk data => online = true /\ exists d e' fields, v = Cap.Answered true d e' /\
      jget data "result" = Some (JObj fields) /\ obj_get fields "output" = Some (JStr (foldl String.append "" chunks))
  end.
Proof.
  unfold postExec. destruct reason as [r|]; [|by left]. destruct (jtruthy (Some r)) eqn:Er; cbn [andb]; [|by left].
  destruct (String.eqb_spec (str_trim (Settings.js_String r)) ""); cbn [negb]; [right; by exists r|].
  destruct online; [|done]. cbn [negb]. destruct v as [|ok d e']; cbn [resolved]; [split; [done|by left]|]. destruct ok.
  - split; [done|]. eexists d, e', _. split; [done|]. split; [reflexivity|]. by rewrite obj_get_spread.
  - split; [done|]. right. by exists d, e'.
Qed.

(** * Concrete runs *)

Module NodeAdminExamples.
Import ProvisionExamples.

Definition fresh : state := State [] [] false.
Notation runs := (run "/mnt/tank" (fun s => s) (Some "daniel")).

(** A node is added and audited. *)
Definition added : list event := [Create "n1" (Some "spark1") (Some "10.0.0.5") None; TaskEnds 0 node node].
Definition shown (s : state) : list (string * string * option string * bool) :=
  map (fun r => (nameOf r, n_provisionStatus (nr_node r), n_gpuModel (nr_node r), n_dockerAvailable (nr_node r))) (rows s).

Example audited_node : shown (runs added fresh) = [("spark1", "audited", Some "GB10, 122000", true)].
Proof. by vm_compute. Qed.

(** Nothing answers but the shell: the complaint about the driver becomes the GPU's model. *)
Definition noDriver (cmd : string) := if mem_str cmd ["echo ok"; "sudo -n true"] then answer "" 0 else answer "" 127.
Example complaint_is_gpu :
  map (fun r => n_gpuModel (nr_node r)) (rows (runs [Create "n1" (Some "spark1") (Some "10.0.0.5") None; TaskEnds 0 noDriver node] fresh)) =
  [Some "nvidia-smi not found — install drivers manually"].
Proof. by vm_compute. Qed.

(** An installation loses the connection; the node is stuck. *)
Definition lost (cmd : string) := if str_includes "usermod" cmd then Err "connection lost" else node cmd.
Definition failed : state := runs (added ++ [Provision "n1"; TaskEnds 0 lost node; TaskEnds 0 lost node]) fresh.

Example failed_shown : (shown failed, map nr_log (rows failed)) =
  ([("spark1", "failed", Some "GB10, 122000", true)], [Some (Failure "Error: connection lost")]).
Proof. by vm_compute. Qed.

Lemma failed_stuck : stuck "n1" "Error: connection lost" failed.
Proof. split; [|by vm_compute; constructor]. eexists. split; by vm_compute. Qed.

Lemma failed_installation_is_final_witness :
  let s' := runs [Provision "n1"; Patch "n1" (Some (JStr " spark-one ")); Provision "n1"] failed in
  stuck "n1" "Error: connection lost" s' /\ provision "n1" s' = (s', Some Throw).
Proof.
  apply (failed_installation_is_final "/mnt/tank" (fun s => s) (Some "daniel") "n1" "Error: connection lost" _ failed failed_stuck).
  repeat constructor.
Defined.

(** The node is removed while it is being provisioned. *)
Example removed_then_crashed : crashed (runs (added ++ [Provision "n1"; TaskEnds 0 node node; Remove "n1"; TaskEnds 0 node node]) fresh) = true.
Proof. by vm_compute. Qed.

(** Two requests: the installation of the first fails between the reading and the write of the
    second, whose own installation starts on a row that shows an error. *)
Definition crossed : list event :=
  added ++ [Provision "n1"; TaskEnds 0 lost node; Provision "n1"; TaskEnds 0 lost node; TaskEnds 0 node node].
Example crossed_row : (shown (runs crossed fresh), map nr_log (rows (runs crossed fresh)), length (tasks (runs crossed fresh))) =
  ([("spark1", "provisioning", Some "GB10, 122000", true)], [Some (Failure "Error: connection lost")], 1).
Proof. by vm_compute. Qed.



Example refused_names :
  map (fun e => match e with BadRequest m => m | Conflict m => m | _ => "" end)
    [(createNode "x" (Some "") None None fresh).2; (patchNode "n1" (Some (JStr "  ")) failed).2;
     (patchNode "n1" None failed).2; (createNode "x" (Some "a") None (Some JNull) fresh).2] =
  ["name is required"; "name is required"; "name is required";
   "Invalid role: null (must be " +:+ quoted "gpu" +:+ " or " +:+ quoted "eval" +:+ ")"].
Proof. by vm_compute. Qed.

End NodeAdminExamples.
