(* ===== verification/Dashboard.v ===== *)
(** The dashboard's own logic ([packages/dashboard]): what its pages make of the
    lists they load, of the live events and of what is typed into their forms.

    [Text] assembles log text, [Live] is the state of the deployments page under
    events, [Train] that of the fine-tuning page, [Stream] the event connection
    and the debounced callback.  Rendering is not modelled.  A page's rows are
    those of the API, so the rows of [Schema] stand for them where every column
    a page changes is one of theirs. *)
From S2P Require Import Prelude JsNum Schema Gateway Deployments AgentHub AgentHealth.

Module Text.
Import AgentHealth.Lines.

(** [buf.lastIndexOf(nl)] and the slice that follows it: the text up to and with
    its last line feed. *)
Fixpoint has_char (c : ascii) (s : string) : bool :=
  match s with EmptyString => false | String d r => Ascii.eqb d c || has_char c r end.

Fixpoint rewind (buf : string) : string :=
  match buf with
  | EmptyString => EmptyString
  | String c r => if Ascii.eqb c nl || has_char nl r then String c (rewind r) else EmptyString
  end.

(** [applyCarriageReturns] *)
Definition applyCarriageReturns (existing chunk : string) : string :=
  if negb (has_char cr chunk) then existing +:+ chunk
  else match str_split cr chunk with
       | [] => existing
       | p :: ps => foldl (fun buf p => rewind buf +:+ p) (existing +:+ p) ps
       end.

End Text.

Module Live.
Import Text Deployments.Status.

(** ** Rows of the deployments page *)

Record row := Row {
  rw_id : string; rw_nodeId : string; rw_status : string; rw_error : option string;
  rw_port : option num; rw_vramActual : option num; rw_clusterNodes : list string }.

Record progress := Progress {
  pr_phase : string; pr_phaseProgress : num; pr_current : option num; pr_total : option num;
  pr_eta : option string }.

Record pageNode := PageNode { pn_id : string; pn_status : string; pn_vramUsed : option num }.

(** What a handler fetches again. *)
Inductive refetch := IdleNodes | AllNodes | OllamaCatalog.

Record page := Page {
  pg_deployments : list row; pg_nodes : list pageNode; pg_idle : list pageNode;
  pg_progress : gmap string progress; pg_logs : gmap string string;
  pg_benchmarks : gmap string (string * string) }.

(** The events of the stream the page looks at, as [JSON.parse] yields them. *)
Inductive liveEvent :=
  | DeploymentStatus (deploymentId status : string) (port : option num) (error : option string)
      (vramActual : option num)
  | DeploymentLog (deploymentId log : string)
  | DeploymentProgress (deploymentId : string) (p : progress)
  | DeploymentCreated (dep : row)
  | DeploymentDeleted (deploymentId : string)
  | NodeStatus (nodeId status : string)
  | NodeMetrics (nodeId : string) (vramUsed : option num)
  | OllamaCatalogUpdated
  | BenchmarkEvent (id : string) (deploymentId : option string) (status : string).

#[export] Instance row_hasid : HasId row := rw_id.

Definition withStatus (status : string) (d : row) : row :=
  Row (rw_id d) (rw_nodeId d) status (rw_error d) (rw_port d) (rw_vramActual d) (rw_clusterNodes d).

(** The row under a status event; an empty error counts as none. *)
Definition reported (status : string) (port : option num) (error : option string)
    (vramActual : option num) (d : row) : row :=
  Row (rw_id d) (rw_nodeId d) status
    (match truthy error with
     | Some e => Some e
     | None => if String.eqb status "running" then None else rw_error d end)
    (match port with Some p => Some p | None => rw_port d end)
    (match vramActual with Some v => Some v | None => rw_vramActual d end)
    (rw_clusterNodes d).

(** Insert in front unless its id is there. *)
Definition insertRow (dep : row) (rows : list row) : list row :=
  if existsb (fun d => String.eqb (rw_id d) (rw_id dep)) rows then rows else dep :: rows.

Definition dropStale (id status : string) (m : gmap string progress) : gmap string progress :=
  match m !! id with
  | Some cur => if String.eqb (pr_phase cur) status then m else delete id m
  | None => m
  end.

Definition onNode (id : string) (f : pageNode -> pageNode) (ns : list pageNode) : list pageNode :=
  map (fun n => if String.eqb (pn_id n) id then f n else n) ns.

Definition withDeployments (rows : list row) (p : page) : page :=
  Page rows (pg_nodes p) (pg_idle p) (pg_progress p) (pg_logs p) (pg_benchmarks p).
Definition withNodes (ns : list pageNode) (p : page) : page :=
  Page (pg_deployments p) ns (pg_idle p) (pg_progress p) (pg_logs p) (pg_benchmarks p).
Definition withLogs (logs : gmap string string) (p : page) : page :=
  Page (pg_deployments p) (pg_nodes p) (pg_idle p) (pg_progress p) logs (pg_benchmarks p).

(** [handleSSE] *)
Definition handleSSE (p : page) (e : liveEvent) : page * list refetch :=
  match e with
  | DeploymentStatus id status port error vramActual =>
      (Page (tbl_update id (reported status port error vramActual) (pg_deployments p)) (pg_nodes p)
         (pg_idle p) (dropStale id status (pg_progress p))
         (match truthy error with
          | Some err => <[id := default "" (pg_logs p !! id) +:+ String nl ("[ERROR] " +:+ err)]> (pg_logs p)
          | None => pg_logs p end)
         (pg_benchmarks p),
       if mem_str status ["stopped"; "failed"] then [IdleNodes; AllNodes] else [])
  | DeploymentLog id log =>
      (withLogs (<[id := applyCarriageReturns (default "" (pg_logs p !! id)) log]> (pg_logs p)) p, [])
  | DeploymentProgress id pr =>
      (Page (pg_deployments p) (pg_nodes p) (pg_idle p) (<[id := pr]> (pg_progress p)) (pg_logs p)
         (pg_benchmarks p), [])
  | DeploymentCreated dep =>
      if String.eqb (rw_id dep) "" then (p, [])
      else (withDeployments (insertRow dep (pg_deployments p)) p, [IdleNodes])
  | DeploymentDeleted id =>
      (withDeployments (tbl_delete id (pg_deployments p)) p, [IdleNodes; AllNodes])
  | NodeStatus id status =>
      (withNodes (onNode id (fun n => PageNode (pn_id n) status (pn_vramUsed n)) (pg_nodes p)) p, [])
  | NodeMetrics id vramUsed =>
      (match vramUsed with
       | Some v => withNodes (onNode id (fun n => PageNode (pn_id n) (pn_status n) (Some v)) (pg_nodes p)) p
       | None => p end, [])
  | OllamaCatalogUpdated => (p, [OllamaCatalog])
  | BenchmarkEvent id deploymentId status =>
      (match truthy deploymentId with
       | Some d => Page (pg_deployments p) (pg_nodes p) (pg_idle p) (pg_progress p) (pg_logs p)
                     (<[d := (status, id)]> (pg_benchmarks p))
       | None => p end, [])
  end.

(** An answer to [refetchOpenLogs]: the file replaces the buffer unless empty. *)
Definition gotLog (id text : string) (p : page) : page :=
  if String.eqb text "" then p else withLogs (<[id := text]> (pg_logs p)) p.

(** [GET /api/deployments]: a row of the answer. *)
Definition loaded (s : db) (d : deployment) : row :=
  Row (d_id d) (d_nodeId d) (d_status d) (d_error d) (zn <$> d_port d) (zn <$> d_vramActual d)
    (map cn_nodeId (List.filter (fun c => String.eqb (cn_deploymentId c) (d_id d)) (clusterNodes s))).

(** What becomes of a server's effect on the wire: a number that is not finite
    is written as [null], which [??] takes for absent. *)
Definition wireNum (n : option num) : option num :=
  match n with Some v => if is_finite v then Some v else None | None => None end.

Definition onWire (e : effect) : option liveEvent :=
  match e with
  | BroadcastStatus id status port error vramActual =>
      Some (DeploymentStatus id status (wireNum port) error (wireNum vramActual))
  | BroadcastDeleted id => Some (DeploymentDeleted id)
  | SendUndeploy _ => None
  end.

(** The page over the events of the server's effects, in their order. *)
Definition watch (p : page) (effects : list effect) : page :=
  foldl (fun p e => (handleSSE p e).1) p (omap onWire effects).

(** ** What the buttons do to the rows *)

(** The answer of a deploy: the row is shown, its nodes leave the idle list. *)
Definition deployed (dep : row) (p : page) : page :=
  let usedIds := rw_nodeId dep :: rw_clusterNodes dep in
  Page (insertRow dep (pg_deployments p)) (pg_nodes p)
    (List.filter (fun n => negb (mem_str (pn_id n) usedIds)) (pg_idle p))
    (pg_progress p) (pg_logs p) (pg_benchmarks p).

Definition stopDeployment (id : string) (p : page) : page :=
  withDeployments (tbl_update id (withStatus "stopping") (pg_deployments p)) p.

Definition restartDeployment (id : string) (p : page) : page :=
  withDeployments (tbl_update id (withStatus "restarting") (pg_deployments p)) p.

End Live.

Module Train.

(** [jobPhases]: what is known of a job's phase. *)
Record jobPhase := JobPhase {
  jp_phase : string; jp_phaseProgress : num; jp_step : option num; jp_totalSteps : option num;
  jp_loss : option num; jp_etaSeconds : option num }.

(** [jobMetrics]: the loss curve as four parallel lists. *)
Record curve := Curve {
  cu_steps : list num; cu_losses : list num; cu_lrs : list num; cu_evalLosses : list (option num);
  cu_loaded : bool }.

Definition emptyCurve : curve := Curve [] [] [] [] false.

Record logPayload := LogPayload {
  lp_jobId : string; lp_phase : option string; lp_phaseProgress : option num;
  lp_step : option num; lp_totalSteps : option num; lp_loss : option num; lp_lr : option num;
  lp_evalLoss : option num; lp_etaSeconds : option num; lp_log : option string }.

Inductive trainEvent :=
  | Created (job : finetune_job)
  | Log (m : logPayload)
  | Status (jobId status : string) (outputPath error : option string)
  | MergeProgress (jobId : string) (log : option string)
  | MergeStatus (jobId : string) (status mergedPath : option string)
  | QuantizeProgress
  | QuantizeStatus (jobId status : string) (quantizedPath : option string).

Record trainPage := TrainPage {
  tp_jobs : list finetune_job; tp_logs : gmap string string; tp_phases : gmap string jobPhase;
  tp_metrics : gmap string curve }.

Definition withJobs (f : list finetune_job -> list finetune_job) (p : trainPage) : trainPage :=
  TrainPage (f (tp_jobs p)) (tp_logs p) (tp_phases p) (tp_metrics p).

Definition appendLog (id : string) (text : option string) (p : trainPage) : trainPage :=
  match truthy text with
  | Some t => TrainPage (tp_jobs p) (<[id := default "" (tp_logs p !! id) +:+ t]> (tp_logs p))
                (tp_phases p) (tp_metrics p)
  | None => p
  end.

Definition orElse {A} (a b : option A) : option A := match a with Some _ => a | None => b end.

Definition nextPhase (prev : option jobPhase) (phase : string) (m : logPayload) : jobPhase :=
  JobPhase phase
    (match lp_phaseProgress m with
     | Some v => if num_le (zn 0) v then v else default (zn 0) (jp_phaseProgress <$> prev)
     | None => default (zn 0) (jp_phaseProgress <$> prev) end)
    (orElse (lp_step m) (prev ≫= jp_step)) (orElse (lp_totalSteps m) (prev ≫= jp_totalSteps))
    (orElse (lp_loss m) (prev ≫= jp_loss)) (orElse (lp_etaSeconds m) (prev ≫= jp_etaSeconds)).

(** A starting job runs once it loads or trains; progress is kept while it trains. *)
Definition phaseJob (phase : string) (m : logPayload) (j : finetune_job) : finetune_job :=
  let j1 := if mem_str phase ["training"; "loading"] && String.eqb (f_status j) "starting"
            then patch_job [JobStatus "running"] j else j in
  match lp_phaseProgress m with
  | Some v => if String.eqb phase "training" && num_lt (zn 0) v
              then patch_job [JobProgress v] j1 else j1
  | None => j1
  end.

Definition onPhase (m : logPayload) (p : trainPage) : trainPage :=
  match truthy (lp_phase m) with
  | None => p
  | Some phase =>
      let id := lp_jobId m in
      TrainPage (tbl_update id (phaseJob phase m) (tp_jobs p)) (tp_logs p)
        (<[id := nextPhase (tp_phases p !! id) phase m]> (tp_phases p)) (tp_metrics p)
  end.

(** A step is plotted once, and only past the last one. *)
Definition addPoint (step loss : num) (m : logPayload) (c : curve) : option curve :=
  if match last (cu_steps c) with Some s => num_le step s | None => false end then None
  else Some (Curve (cu_steps c ++ [step]) (cu_losses c ++ [loss])
               (cu_lrs c ++ [default (zn 0) (lp_lr m)]) (cu_evalLosses c ++ [lp_evalLoss m])
               (cu_loaded c)).

Definition onPoint (m : logPayload) (p : trainPage) : trainPage :=
  match lp_step m, lp_loss m with
  | Some step, Some loss =>
      match addPoint step loss m (default emptyCurve (tp_metrics p !! lp_jobId m)) with
      | Some c => TrainPage (tp_jobs p) (tp_logs p) (tp_phases p) (<[lp_jobId m := c]> (tp_metrics p))
      | None => p
      end
  | _, _ => p
  end.

(** [handleSSE] of the page; the second part: whether the idle nodes are fetched. *)
Definition handleSSE (p : trainPage) (e : trainEvent) : trainPage * bool :=
  match e with
  | Created job =>
      (if String.eqb (f_id job) "" then p
       else withJobs (fun js => if existsb (fun j => String.eqb (f_id j) (f_id job)) js then js
                                else job :: js) p, false)
  | Log m => (onPoint m (onPhase m (appendLog (lp_jobId m) (lp_log m) p)), false)
  | Status id status outputPath error =>
      (appendLog id ((fun e => String nl ("[ERROR] " +:+ e +:+ String nl "")) <$> truthy error)
         (withJobs (tbl_update id (fun j =>
            patch_job [JobStatus status; JobOutputPath (orElse outputPath (f_outputPath j))] j)) p),
       mem_str status ["completed"; "failed"; "stopped"])
  | MergeProgress id log => (appendLog id log p, false)
  | MergeStatus id status mergedPath =>
      (withJobs (tbl_update id (fun j =>
         patch_job [JobMergeStatus status; JobMergedPath (orElse mergedPath (f_mergedPath j))] j)) p, false)
  | QuantizeProgress => (p, false)
  | QuantizeStatus id status quantizedPath =>
      (withJobs (tbl_update id (fun j =>
         patch_job [JobQuantStatus (Some (if String.eqb status "completed" then "quantized" else "failed"));
                    JobQuantPath (orElse quantizedPath (f_quantizedPath j))] j)) p, false)
  end.

(** The metrics loaded for a job, unless there are none. *)
Definition gotMetrics (id : string) (ms : list training_metric) (p : trainPage) : trainPage :=
  match ms with
  | [] => p
  | _ => TrainPage (tp_jobs p) (tp_logs p) (tp_phases p)
           (<[id := Curve (map (fun m => zn (tm_step m)) ms) (map tm_loss ms)
                      (map (fun m => default (zn 0) (tm_lr m)) ms) (map tm_evalLoss ms) true]>
              (tp_metrics p))
  end.

(** [formatEta] of a number of seconds: [Math.floor] of quotients. *)
Definition formatEta (seconds : option Z) : string :=
  match seconds with
  | None => ""
  | Some s =>
      if (s <=? 0)%Z then ""
      else if (s <? 60)%Z then "~" +:+ pretty s +:+ "s left"
      else let mins := (s / 60)%Z in
           if (mins <? 60)%Z then "~" +:+ pretty mins +:+ "m left"
           else "~" +:+ pretty (mins / 60)%Z +:+ "h " +:+ pretty (mins mod 60)%Z +:+ "m left"
  end.

(** [formatElapsed]; times in milliseconds. *)
Definition formatElapsed (startedAt completedAt : option Z) (now : Z) : string :=
  match startedAt with
  | None => ""
  | Some start =>
      let ms := (default now completedAt - start)%Z in
      let mins := (ms / 60000)%Z in
      if (60 <? mins)%Z then pretty (mins / 60)%Z +:+ "h " +:+ pretty (Z.rem mins 60) +:+ "m"
      else pretty mins +:+ "m " +:+ pretty (Z.rem ms 60000 / 1000)%Z +:+ "s"
  end.

(** *** What the page sends *)

(** [deployJob]: the path and the variant put into the link. *)
Definition deployPath (variant : string) (j : finetune_job) : string :=
  match truthy (f_quantizedPath j) with
  | Some q => if String.eqb variant "fp8" then q
              else js_or (f_mergedPath j) (default "null" (f_outputDir j) +:+ "/merged")
  | None => js_or (f_mergedPath j) (default "null" (f_outputDir j) +:+ "/merged")
  end.

Definition toggleResumeNode (nodeId : string) (prev : list string) : list string :=
  if mem_str nodeId prev then List.filter (fun id => negb (String.eqb id nodeId)) prev
  else prev ++ [nodeId].

(** The job of [startTraining]'s body that decides the nodes: as many idle ones as
    the recipe asks for, or the selected one. *)
Definition trainingNodes (minNodes : option nat) (idle : list string) (selected : string) :
    string + list string :=
  if (1 <? default 1 minNodes)%nat then inr (take (default 1 minNodes) idle) else inl selected.

End Train.

Module Forms.
Import Deployments.Names.

(** ** The suggested name *)

(** [raw.replace(/\s+/g, "-")]: each run of white space is one dash. *)
Fixpoint dashSpaces (inRun : bool) (s : string) : string :=
  match s with
  | EmptyString => EmptyString
  | String c r => if is_ws c then (if inRun then dashSpaces true r else String "-" (dashSpaces true r))
                  else String c (dashSpaces false r)
  end.

Fixpoint keepChars (p : ascii -> bool) (s : string) : string :=
  match s with
  | EmptyString => EmptyString
  | String c r => if p c then String c (keepChars p r) else keepChars p r
  end.

Definition sanitize (raw : string) : string :=
  str_take 128 (keepChars name_char (dashSpaces false (str_trim raw))).

Inductive runtimeMode := Vllm | OllamaMode | Finetune.

Definition defaultDisplayName (mode : runtimeMode) (recipeName finetuneDisplayName finetuneModel : option string) :
    string :=
  match mode with
  | Vllm => match truthy recipeName with Some n => sanitize n | None => "" end
  | Finetune =>
      let src := default (default "" finetuneModel) finetuneDisplayName in
      if String.eqb src "" then "" else sanitize src
  | OllamaMode => ""
  end.

(** ** The nodes of a cluster *)

(** [buildClusterNodeIds]; a [Set] iterates in the order of insertion. *)
Definition buildClusterNodeIds (headId : option string) (selected : list string) : list string :=
  let ids := selected in
  match truthy headId with
  | Some h => if mem_str h ids then h :: List.filter (fun id => negb (String.eqb id h)) ids else ids
  | None => ids
  end.

(** The picker: the chosen nodes in their order and the head ([""]: none). *)
Record picker := Picker { pk_selected : list string; pk_head : string }.

(** The effect that runs when the number of nodes needed, the recipe or the number
    of nodes changes; [candidates] are the ids of the online nodes that may serve. *)
Definition initSelection (required : nat) (candidates selected : list string) : list string :=
  if (required <=? 1)%nat then []
  else if (length (List.filter (fun id => mem_str id candidates) selected) =? required)%nat
       then selected else take required candidates.

(** The effect that runs when the selection changes. *)
Definition keepHead (p : picker) : picker :=
  match pk_selected p with
  | [] => Picker [] ""
  | id :: _ => if String.eqb (pk_head p) "" || negb (mem_str (pk_head p) (pk_selected p))
               then Picker (pk_selected p) id else p
  end.

Definition toggleNode (required : nat) (id : string) (selected : list string) : list string :=
  if mem_str id selected then List.filter (fun x => negb (String.eqb x id)) selected
  else if (length selected <? required)%nat then selected ++ [id] else selected.

Inductive pickEvent :=
  | Recompute (required : nat) (candidates : list string)
  | Toggle (required : nat) (id : string)
  | MakeHead (id : string).

(** The button that makes a node the head is shown on selected nodes only. *)
Definition pick (p : picker) (e : pickEvent) : picker :=
  match e with
  | Recompute required candidates =>
      keepHead (Picker (initSelection required candidates (pk_selected p)) (pk_head p))
  | Toggle required id => keepHead (Picker (toggleNode required id (pk_selected p)) (pk_head p))
  | MakeHead id => if mem_str id (pk_selected p) then Picker (pk_selected p) id else p
  end.

Definition canDeploy (required : nat) (p : picker) (selectedNode : string) (selectable : nat) : bool :=
  if (1 <? required)%nat then (length (pk_selected p) =? required)%nat
  else negb (String.eqb selectedNode "") || (1 <=? selectable)%nat.

(** ** Restarting with other settings *)

(** [String(v)] of a JSON value. *)
Fixpoint js_string (j : json) : string :=
  match j with
  | JNull => "null"
  | JBool b => if b then "true" else "false"
  | JNum n => num_str n
  | JStr s => s
  | JArr l => str_join "," (map (fun x => match x with JNull => "" | _ => js_string x end) l)
  | JObj _ => "[object Object]"
  end.

(** [pick(cfgVal, defVal)]; [null] and absent are the same to [!=]. *)
Definition pickValue (cfgVal defVal : option json) : string :=
  match cfgVal with
  | None | Some JNull => match defVal with None | Some JNull => "" | Some v => js_string v end
  | Some v => js_string v
  end.

Record fields := Fields {
  fl_port : string; fl_maxModelLen : string; fl_tensorParallel : string;
  fl_pipelineParallel : string; fl_gpuMem : string; fl_artifactVariant : string }.

(** [beginEditRestart]: the form of a deployment with this config and these
    recipe defaults. *)
Definition beginEditRestart (cfg recipeDefaults : option json) : fields :=
  Fields (pickValue (jget cfg "port") (jget recipeDefaults "port"))
    (pickValue (jget cfg "maxModelLen") (jget recipeDefaults "max_model_len"))
    (pickValue (jget cfg "tensorParallel") (jget recipeDefaults "tensor_parallel"))
    (pickValue (jget cfg "pipelineParallel") (jget recipeDefaults "pipeline_parallel"))
    (pickValue (jget cfg "gpuMem") (jget recipeDefaults "gpu_memory_utilization"))
    (match jget cfg "artifactVariant" with Some (JStr s) => s | _ => "default" end).

(** [parseInt(s)]: an optional sign, then the longest run of digits, hexadecimal
    ones behind [0x]. *)
Definition parseInt (s : string) : num :=
  let t := trim_left s in
  let '(neg, u) := match t with String "-" r => (true, r) | String "+" r => (false, r) | _ => (false, t) end in
  let '(v, n) := match u with
                 | String "0" (String "x" r) | String "0" (String "X" r) => (digits 16 0 0 r).1
                 | _ => (digits 10 0 0 u).1
                 end in
  if (n =? 0)%nat then NaN else zn (if neg : bool then - v else v)%Z.

(** [parseFloat(s)]: the longest prefix that is a decimal literal. *)
Fixpoint longestDecimal (n : nat) (s : string) : option Q :=
  match decimal (str_take n s) with
  | Some q => Some q
  | None => match n with O => None | S n' => longestDecimal n' s end
  end.

Definition parseFloat (s : string) : num :=
  let t := trim_left s in
  let '(neg, u) := match t with String "-" r => (true, r) | String "+" r => (false, r) | _ => (false, t) end in
  if String.prefix "Infinity" u then Inf neg
  else match longestDecimal (String.length u) u with
       | Some q => Fin (if neg : bool then Qopp q else q)
       | None => NaN
       end.

(** A number in a request's body. *)
Definition jsonNum (n : num) : json := if is_finite n then JNum n else JNull.

Definition whenGiven (s : string) (k : string) (v : json) (o : list (string * json)) :
    list (string * json) := if String.eqb s "" then o else o ++ [(k, v)].

(** [submitEditRestart]: the overrides sent. *)
Definition submitEditRestart (f : fields) : list (string * json) :=
  whenGiven (fl_artifactVariant f) "artifactVariant" (JStr (fl_artifactVariant f))
    (whenGiven (fl_gpuMem f) "gpuMem" (jsonNum (parseFloat (fl_gpuMem f)))
    (whenGiven (fl_pipelineParallel f) "pipelineParallel" (jsonNum (parseInt (fl_pipelineParallel f)))
    (whenGiven (fl_tensorParallel f) "tensorParallel" (jsonNum (parseInt (fl_tensorParallel f)))
    (whenGiven (fl_maxModelLen f) "maxModelLen" (jsonNum (parseInt (fl_maxModelLen f)))
    (whenGiven (fl_port f) "port" (jsonNum (parseInt (fl_port f))) []))))).

(** ** The age of an agent *)

(** [(xs[i] || 0)]: absent, [NaN] and zero read as zero. *)
Definition part (xs : list num) (i : nat) : num :=
  match xs !! i with Some n => if num_truthy n then n else zn 0 | None => zn 0 end.

Definition isOutdated (agentVersion expectedVersion : option string) : bool :=
  match truthy agentVersion, truthy expectedVersion with
  | Some a, Some e =>
      let agent := map number_of_string (str_split "." a) in
      let expected := map number_of_string (str_split "." e) in
      let at_i i := if num_lt (part agent i) (part expected i) then Some true
                    else if num_lt (part expected i) (part agent i) then Some false else None in
      match at_i 0, at_i 1, at_i 2 with
      | Some b, _, _ => b
      | None, Some b, _ => b
      | None, None, Some b => b
      | None, None, None => false
      end
  | _, _ => false
  end.

End Forms.

Module Stream.

(** ** The event stream of a page *)

(** A page's connections by number: which are open, how many reconnects are
    scheduled, whether [onopen] ever ran and how often the page was told to load
    again.  [st_mounted] is false after the page was left. *)
Record stream := St {
  st_open : gset nat; st_next : nat; st_current : option nat; st_timers : nat;
  st_connected : bool; st_wasConnected : bool; st_reloads : nat; st_mounted : bool }.

Inductive streamEvent :=
  | Opened (i : nat)   (* the connection is established *)
  | Failed (i : nat)   (* it fails or is lost *)
  | TimerFires
  | Unmount.

Definition connect (s : stream) : stream :=
  St ({[st_next s]} ∪ st_open s) (S (st_next s)) (Some (st_next s)) (st_timers s) (st_connected s)
    (st_wasConnected s) (st_reloads s) (st_mounted s).

(** The hook when the page appears. *)
Definition mounted : stream := connect (St ∅ 0 None 0 false false 0 true).

(** One event; [closeNotifies] tells a web socket, whose [close()] calls [onclose],
    from an event source, whose handlers stay silent once it is closed. *)
Definition streamStep (closeNotifies : bool) (s : stream) (e : streamEvent) : stream :=
  match e with
  | Opened i =>
      if bool_decide (i ∈ st_open s)
      then St (st_open s) (st_next s) (st_current s) (st_timers s) true true
             (if st_wasConnected s && negb closeNotifies then S (st_reloads s) else st_reloads s)
             (st_mounted s)
      else s
  | Failed i =>
      if bool_decide (i ∈ st_open s)
      then St (st_open s ∖ {[i]}) (st_next s) (st_current s) (S (st_timers s)) false
             (st_wasConnected s) (st_reloads s) (st_mounted s)
      else s
  | TimerFires =>
      match st_timers s with
      | O => s
      | S n => connect (St (st_open s) (st_next s) (st_current s) n (st_connected s)
                          (st_wasConnected s) (st_reloads s) (st_mounted s))
      end
  | Unmount =>
      if negb (st_mounted s) then s else
      match st_current s with
      | Some i => St (st_open s ∖ {[i]}) (st_next s) (st_current s)
                    (if closeNotifies && bool_decide (i ∈ st_open s) then S (st_timers s) else st_timers s)
                    (st_connected s) (st_wasConnected s) (st_reloads s) false
      | None => St (st_open s) (st_next s) None (st_timers s) (st_connected s) (st_wasConnected s)
                  (st_reloads s) false
      end
  end.

Definition useSSE (events : list streamEvent) : stream := foldl (streamStep false) mounted events.
Definition useDashboardWs (events : list streamEvent) : stream := foldl (streamStep true) mounted events.

(** ** The Ollama tags of the settings page *)

(** [useDebouncedCallback] around [persistEnabled]: what is shown, the save that
    is waiting, and the list the server holds. *)
Record tags := Tags { tg_enabled : list string; tg_pending : option (list string); tg_stored : list string }.

Inductive tagEvent :=
  | Load           (* the section appears and both answers arrive *)
  | ToggleTag (t : string)
  | Quiet          (* 400 ms pass without a toggle *)
  | Leave.         (* the section is left: a waiting save is dropped *)

Definition toggleTag (t : string) (l : list string) : list string :=
  if mem_str t l then List.filter (fun x => negb (String.eqb x t)) l else l ++ [t].

Definition tagStep (s : tags) (e : tagEvent) : tags :=
  match e with
  | Load => Tags (foldl (fun l t => if mem_str t l then l else l ++ [t]) [] (tg_stored s))
              (tg_pending s) (tg_stored s)
  | ToggleTag t => let next := toggleTag t (tg_enabled s) in Tags next (Some next) (tg_stored s)
  | Quiet => match tg_pending s with
             | Some l => Tags (tg_enabled s) None l
             | None => s end
  | Leave => Tags [] None (tg_stored s)
  end.

End Stream.

Module Lists.
Import Forms.

(** ** A job's launch settings *)

Definition LAUNCH_CONFIG_LABELS : list (string * string) :=
  [("learning_rate", "Learning rate"); ("batch_size", "Batch size"); ("max_seq_length", "Max seq length");
   ("lora_r", "LoRA rank (r)"); ("lora_alpha", "LoRA alpha"); ("num_train_epochs", "Epochs");
   ("max_steps", "Max steps")].

(** What [in] finds on any object literal besides its own keys. *)
Definition OBJECT_PROTOTYPE : list string :=
  ["constructor"; "__defineGetter__"; "__defineSetter__"; "hasOwnProperty"; "__lookupGetter__";
   "__lookupSetter__"; "isPrototypeOf"; "propertyIsEnumerable"; "toString"; "valueOf"; "__proto__";
   "toLocaleString"].

Definition inLabels (key : string) : bool :=
  mem_str key (map fst LAUNCH_CONFIG_LABELS) || mem_str key OBJECT_PROTOTYPE.

Record LaunchConfigEntry := Entry { le_key : string; le_label : string; le_value : json }.

Definition notNull (v : option json) : option json :=
  match v with None | Some JNull => None | Some v => Some v end.

(** [raw]: [None] when empty or absent, otherwise what [JSON.parse] makes of it. *)
Definition parseLaunchConfig (raw : option jtext) : list LaunchConfigEntry :=
  match raw with
  | Some (Some (JObj parsed)) =>
      omap (fun kl => Entry kl.1 kl.2 <$> notNull (obj_get parsed kl.1)) LAUNCH_CONFIG_LABELS ++
      omap (fun kv => if inLabels kv.1 then None else Entry kv.1 kv.1 <$> notNull (Some kv.2)) parsed
  | _ => []
  end.

(** ** A job's cluster *)

Definition isHead (c : string * string) : bool := String.eqb c.2 "head".

(** [formatClusterSummary]; a cluster row is its node's name and its role. *)
Definition formatClusterSummary (nodeId : string) (nodeName : option string)
    (clusterNodes : list (string * string)) : string :=
  match clusterNodes with
  | [] => default nodeId nodeName
  | _ =>
      let sorted := js_sort (fun a b => isHead a || negb (isHead b)) clusterNodes in
      let count := length sorted in
      pretty count +:+ " " +:+ (if (count =? 1)%nat then "node" else "nodes") +:+ ": " +:+
      str_join ", " (map (fun c => if isHead c then c.1 +:+ " (head)" else c.1) sorted)
  end.

(** ** Presets to filter by *)

Definition presetOptions (runs : list (option string)) : list string :=
  js_sort str_le (remove_dups (omap truthy runs)).

(** ** Power controls *)

Definition canWake (macAddress : option string) : bool :=
  match macAddress with Some m => negb (String.eqb (str_trim m) "") | None => false end.

Definition isNodeInactive (powerState : option string) : bool :=
  match powerState with Some s => mem_str s ["off"; "asleep"; "waking"] | None => false end.

Definition showWakeButton (powerState macAddress : option string) : bool :=
  isNodeInactive powerState && canWake macAddress.

(** [nodeMetricsPlaceholder]: waking or off, and whether Wake is advertised. *)
Inductive placeholder := NoMetrics | NoMac (waking : bool) | ClickWake (waking : bool).

Definition nodeMetricsPlaceholder (powerState macAddress : option string) : placeholder :=
  if negb (isNodeInactive powerState) then NoMetrics
  else let waking := bool_decide (powerState = Some "waking") in
       if negb (canWake macAddress) then NoMac waking else ClickWake waking.

(** ** The model cache *)

Fixpoint scale (fuel : nat) (v : Q) (i : nat) : Q * nat :=
  match fuel with
  | O => (v, i)
  | S f => if Qle_bool 1024 v then scale f (v / 1024)%Q (S i) else (v, i)
  end.

(** [formatBytes] of a finite number: at most four divisions, for five units. *)
Definition formatBytes (n : Q) : string :=
  if negb (Qle_bool 0 n) then "—"
  else let '(v, i) := scale 4 n 0 in
       (if Qle_bool 100 v then pretty (round_q v)
        else let d := round_q (v * 10) in pretty (d / 10)%Z +:+ "." +:+ pretty (d mod 10)%Z) +:+
       " " +:+ default "" (["B"; "KB"; "MB"; "GB"; "TB"] !! i).

Record CacheRepo := Repo {
  cr_repoId : string; cr_kind : string; cr_sizeBytes : Z; cr_revisions : Z;
  cr_lastModified : string; cr_lastDeployedAt : option string }.

Inductive SortColumn := ByRepoId | ByKind | BySize | ByRevisions | ByDownloaded | ByLastDeployed.

Section Sorting.
(** [localeCompare], whose order depends on the locale. *)
Context (localeCompare : string -> string -> Z).

Definition ASC (column : SortColumn) (a b : CacheRepo) : Z :=
  match column with
  | ByRepoId => localeCompare (cr_repoId a) (cr_repoId b)
  | ByKind => localeCompare (cr_kind a) (cr_kind b)
  | BySize => cr_sizeBytes a - cr_sizeBytes b
  | ByRevisions => cr_revisions a - cr_revisions b
  | ByDownloaded => if str_lt (cr_lastModified a) (cr_lastModified b) then -1
                    else if str_lt (cr_lastModified b) (cr_lastModified a) then 1 else 0
  | ByLastDeployed =>
      match cr_lastDeployedAt a, cr_lastDeployedAt b with
      | None, None => 0
      | None, Some _ => -1
      | Some _, None => 1
      | Some x, Some y => if String.eqb x y then 0 else if str_lt x y then -1 else 1
      end
  end%Z.

Definition compareRepos (column : SortColumn) (asc : bool) (a b : CacheRepo) : Z :=
  let primary := ASC column a b in
  if negb (primary =? 0)%Z then (if asc then primary else - primary)%Z
  else localeCompare (cr_repoId a) (cr_repoId b).

Definition sortRepos (repos : list CacheRepo) (column : SortColumn) (asc : bool) : list CacheRepo :=
  js_sort (fun a b => (compareRepos column asc a b <=? 0)%Z) repos.

End Sorting.

(** ** Requests *)

(** [apiFetch]: the parsed answer, or the error thrown; [json] is the body's parse. *)
Definition apiFetch (status : Z) (body : jtext) : result string json :=
  if (200 <=? status)%Z && (status <? 300)%Z
  then match body with Some j => Ok j | None => Err "SyntaxError" end
  else match body with
       | Some JNull => Err "TypeError"
       | _ => let e := jget body "error" in
              Err (if jtruthy e then default "" (js_string <$> e)
                   else "API error: " +:+ pretty status)
       end.

(** [reseedKnownHosts]: a 502 is a report. *)
Definition reseedKnownHosts (status : Z) (body : jtext) : result string json :=
  if ((200 <=? status)%Z && (status <? 300)%Z) || (status =? 502)%Z
  then match body with Some j => Ok j | None => Err "SyntaxError" end
  else match body with
       | Some JNull => Err "TypeError"
       | _ => let e := jget body "error" in
              Err (if jtruthy e then default "" (js_string <$> e)
                   else "Reseed failed: " +:+ pretty status)
       end.

End Lists.
