(* ===== verification/DashboardFacts.v ===== *)
(** The dashboard against the server: a page that watches the event stream
    shows what the server's tables hold, what it sends is what the routes accept,
    and where the two differ. *)
From S2P Require Import Prelude JsNum Schema Gateway Deployments DeploymentFacts StatusFacts AgentHub AgentHealth NodeOps SysInfoFacts Dashboard.

(** ** Log text *)
Module TextFacts.
Import Text Lines.

Lemma has_char_app c s t : has_char c (s +:+ t) = has_char c s || has_char c t.
Proof. induction s as [|d s IH]; simpl; [done|]. by rewrite IH, orb_assoc. Qed.

(** One character at a time: what the segments amount to. *)
Definition feed (buf : string) (c : ascii) : string :=
  if Ascii.eqb c cr then rewind buf else buf +:+ String c "".

Fixpoint feedAll (buf chunk : string) : string :=
  match chunk with EmptyString => buf | String c r => feedAll (feed buf c) r end.

Lemma feedAll_app buf a b : feedAll buf (a +:+ b) = feedAll (feedAll buf a) b.
Proof. revert buf. induction a as [|c a IH]; intros buf; simpl; [done|]. apply IH. Qed.

Lemma feedAll_plain buf w : has_char cr w = false -> feedAll buf w = buf +:+ w.
Proof.
  revert buf. induction w as [|c w IH]; intros buf; simpl; [by rewrite app_empty_r|].
  intros [Hc Hw]%orb_false_iff. rewrite IH by done. unfold feed. rewrite Hc.
  by rewrite str_app_assoc.
Qed.

Lemma split_cons s : exists w ws, str_split cr s = w :: ws.
Proof.
  destruct s as [|c s]; simpl; [eauto|]. destruct (Ascii.eqb c cr); [eauto|].
  destruct (str_split cr s); eauto.
Qed.

Lemma feedAll_split buf chunk :
  feedAll buf chunk =
  match str_split cr chunk with
  | [] => buf
  | p :: ps => foldl (fun buf p => rewind buf +:+ p) (buf +:+ p) ps
  end.
Proof.
  revert buf. induction chunk as [|c chunk IH]; intros buf; simpl; [by rewrite app_empty_r|].
  rewrite IH. unfold feed. destruct (split_cons chunk) as (w & ws & ->).
  destruct (Ascii.eqb c cr); simpl; by rewrite ?app_empty_r, ?str_app_assoc.
Qed.

Lemma applyCarriageReturns_feed existing chunk :
  applyCarriageReturns existing chunk = feedAll existing chunk.
Proof.
  unfold applyCarriageReturns. destruct (has_char cr chunk) eqn:E; simpl.
  - by rewrite feedAll_split.
  - by rewrite feedAll_plain.
Qed.

(** Where a log is cut into chunks does not matter to what the viewer shows. *)
Theorem chunks_are_immaterial existing chunks :
  foldl applyCarriageReturns existing chunks =
  applyCarriageReturns existing (str_join "" chunks).
Proof.
  revert existing. induction chunks as [|c chunks IH]; intros existing.
  { rewrite applyCarriageReturns_feed. done. }
  cbn [foldl]. rewrite IH, !applyCarriageReturns_feed, <- feedAll_app. f_equal.
  unfold str_join. destruct chunks; simpl; [by rewrite app_empty_r|done].
Qed.

Lemma has_char_includes c s : has_char c s = str_includes (String c "") s.
Proof.
  induction s as [|d s IH]; [done|].
  change (has_char c (String d s)) with (Ascii.eqb d c || has_char c s). rewrite IH.
  cbn [str_includes]. f_equal. cbn [String.prefix]. destruct (ascii_dec c d) as [->|Hne].
  - rewrite Ascii.eqb_refl. by destruct s.
  - apply Ascii.eqb_neq. congruence.
Qed.

Lemma split_pieces c s : Forall (fun p => has_char c p = false) (str_split c s).
Proof.
  induction s as [|d s IH]; simpl; [by repeat constructor|].
  destruct (Ascii.eqb d c) eqn:E; [by constructor|].
  destruct (str_split c s) as [|w ws]; [constructor; [simpl; by rewrite E|done]|].
  apply Forall_cons in IH as [Hw Hws]. constructor; [|done]. simpl. by rewrite E.
Qed.

Lemma lastPiece_clean segment : has_char cr (lastPiece segment) = false.
Proof.
  unfold lastPiece. rewrite <- has_char_includes.
  destruct (has_char cr segment) eqn:E; [|done].
  destruct (last _) as [p|] eqn:L; [|done]. simpl.
  apply last_Some_elem_of, list_elem_of_In, filter_In in L as [L _].
  apply list_elem_of_In in L. pose proof (split_pieces cr segment) as H.
  rewrite Forall_forall in H. by apply H.
Qed.

Lemma join_clean c sep ws :
  has_char c sep = false -> Forall (fun p => has_char c p = false) ws ->
  has_char c (str_join sep ws) = false.
Proof.
  intros Hc H. unfold str_join. induction H as [|w ws Hw Hws IH]; [done|]. cbn [String.concat].
  destruct ws as [|w' ws]; [done|]. by rewrite !has_char_app, Hw, IH, Hc.
Qed.

(** The viewer's rewinding is never used on an agent's log.  What an agent
    collapses holds no carriage return any more, so the page only ever appends:
    a progress bar that arrives an update per chunk is shown as all its updates
    behind one another, whatever the chunks are. *)
Theorem collapsed_logs_never_rewind existing chunks :
  foldl applyCarriageReturns existing (map collapseCarriageReturns chunks) =
  existing +:+ str_join "" (map collapseCarriageReturns chunks).
Proof.
  rewrite chunks_are_immaterial. unfold applyCarriageReturns.
  assert (has_char cr (str_join "" (map collapseCarriageReturns chunks)) = false) as ->; [|done].
  apply join_clean; [done|]. apply Forall_forall. intros p [c [-> _]]%list_elem_of_fmap.
  unfold collapseCarriageReturns. rewrite <- has_char_includes.
  destruct (has_char cr c) eqn:E; [|done]. apply join_clean; [done|].
  apply Forall_forall. intros q [segment [-> _]]%list_elem_of_fmap. apply lastPiece_clean.
Qed.

(** The updates of a progress bar, each in its own chunk, and a Windows line end:
    the first are strung together, the second erases the line it ends. *)
Example progress_strung_together :
  foldl applyCarriageReturns "" (map collapseCarriageReturns
    [String cr " 42%"; String cr " 43%"; String cr " 44%"]) = " 42% 43% 44%" /\
  foldl applyCarriageReturns "" [String cr " 42%"; String cr " 43%"; String cr " 44%"] = " 44%".
Proof. by vm_compute. Qed.

Example windows_line_is_erased :
  applyCarriageReturns "" ("ready" +:+ String cr (String nl "next")) = String nl "next".
Proof. by vm_compute. Qed.

End TextFacts.

(** ** The deployments page against the deployment table *)
Module LiveFacts.
Import Live Deployments.Names Deployments.Dispatch Deployments.Status.

(** A number the page shows for an integer column. *)
Definition shows (n : option num) (z : option Z) : Prop :=
  match n, z with
  | Some n, Some z => as_int32 n = Some z
  | None, None => True
  | _, _ => False
  end.

Definition sameRow (r : row) (d : deployment) : Prop :=
  rw_status r = d_status d /\ rw_error r = d_error d /\ shows (rw_port r) (d_port d) /\
  shows (rw_vramActual r) (d_vramActual d).

(** The page holds the rows of the table, with their live columns. *)
Definition mirrors (p : page) (s : db) : Prop :=
  forall id, match tbl_find id (pg_deployments p), tbl_find id (deployments s) with
             | Some r, Some d => sameRow r d
             | None, None => True
             | _, _ => False
             end.

(** A report of no memory at all from a deployment that is not at its end: the
    table takes the zero, the event leaves it out. *)
Definition zeroInUse (msg : DeploymentStatusMessage) : bool :=
  negb (isTerminalDeploymentStatus (ms_status msg)) &&
  match ms_vramActual msg with Some (ANum (Fin q)) => Qeq_bool q 0 | _ => false end.

Lemma wire_int n k : as_int32 n = Some k -> wireNum (Some n) = Some n.
Proof. by destruct n. Qed.

(** The columns of the patched row and the numbers of the event agree. *)
Lemma patch_shows msg p r d :
  statusPatch (deploymentStatusUpdate msg) = Some p -> zeroInUse msg = false ->
  sameRow r d ->
  forall port error vram, statusBroadcast msg =
    BroadcastStatus (ms_deploymentId msg) (ms_status msg) port error vram ->
  sameRow (reported (ms_status msg) (wireNum port) error (wireNum vram) r) (patch_deployment p d).
Proof.
  intros Hp Hz (Hs & He & Hpo & Hv) port error vram [= <- <- <-].
  destruct (patch_error msg p d Hp) as (Pst & Per & _).
  split; [by rewrite Pst|]. split.
  { rewrite Per. unfold errorAfter. simpl. by rewrite He. }
  unfold statusPatch in Hp.
  destruct (int_column (su_port _)) as [port|] eqn:Ep; [|discriminate Hp].
  cbn [mbind option_bind] in Hp.
  destruct (int_column (su_vramActual _)) as [v|] eqn:Ev; [|discriminate Hp].
  injection Hp as <-. cbn [p_port p_vramActual patch_deployment d_port d_vramActual reported
    rw_port rw_vramActual] in *. split.
  - cbn [su_port deploymentStatusUpdate] in Ep. destruct (ms_port msg) as [n|]; simpl in Ep.
    + apply bind_Some in Ep as (z & Hz' & [= <-]). by rewrite (wire_int _ _ Hz').
    + by injection Ep as <-.
  - cbn [su_vramActual deploymentStatusUpdate] in Ev. unfold zeroInUse in Hz.
    destruct (isTerminalDeploymentStatus (ms_status msg)).
    { simpl in Ev. by injection Ev as <-. }
    simpl in Hz.
    destruct (ms_vramActual msg) as [[n|t]|]; [..|by injection Ev as <-].
    + simpl in Ev. destruct n as [|neg|q]; [by injection Ev as <-..|].
      simpl in Ev. apply bind_Some in Ev as (z & Hz' & [= <-]).
      assert (num_truthy (Fin q) = true) as ->; [simpl; by rewrite Hz|]. exact Hz'.
    + destruct t as [|c t]; [by injection Ev as <-|]. cbn [String.eqb].
      set (n := number_of_string (String c t)). change (toNumber _) with n in Ev.
      destruct (is_finite n) eqn:F; simpl in Ev.
      * apply bind_Some in Ev as (z & Hz' & [= <-]). by rewrite (wire_int _ _ Hz').
      * injection Ev as <-. unfold wireNum. by rewrite F.
Qed.

(** What the page hears of one report. *)
Lemma heard s msg fetch p d port error vram :
  statusPatch (deploymentStatusUpdate msg) = Some p ->
  tbl_find (ms_deploymentId msg) (deployments s) = Some d ->
  statusBroadcast msg =
    BroadcastStatus (ms_deploymentId msg) (ms_status msg) port error vram ->
  omap onWire (handleDeploymentStatus s msg fetch).2 =
  DeploymentStatus (ms_deploymentId msg) (ms_status msg) (wireNum port) error (wireNum vram) ::
  (if String.eqb (ms_status msg) "stopped" && ms_deleteAfter msg
   then [DeploymentDeleted (ms_deploymentId msg)] else []).
Proof.
  intros Hp Hd Hb. unfold handleDeploymentStatus. rewrite Hp. unfold deployment_update. rewrite Hd.
  unfold afterStatus. set (us := if String.eqb _ "failed" then map SendUndeploy _ else []).
  assert (omap onWire us = []) as Hus.
  { unfold us. destruct (String.eqb _ "failed"); [|done].
    induction (coordinatedDgxrunTeardown _ _ _) as [|u l IH]; [done|]. exact IH. }
  rewrite Hb. destruct (_ && _); csimpl; rewrite ?omap_app, Hus; done.
Qed.

Lemma rows_after_status p id status port error vram j :
  tbl_find j (pg_deployments (handleSSE p (DeploymentStatus id status port error vram)).1) =
  if String.eqb j id then reported status port error vram <$> tbl_find j (pg_deployments p)
  else tbl_find j (pg_deployments p).
Proof. simpl. by apply tbl_find_update. Qed.

Lemma tbl_find_deleted {A} `{HasId A} id (t : list A) j :
  tbl_find j (tbl_delete id t) = if String.eqb j id then None else tbl_find j t.
Proof.
  destruct (String.eqb_spec j id) as [->|Hj]; [|by apply tbl_find_delete].
  apply tbl_find_None. by intros r [_ Hr]%elem_of_tbl_delete.
Qed.

(** One report, to the server and then to the page. *)
Lemma mirrors_step fetch s p msg :
  mirrors p s -> zeroInUse msg = false ->
  let '(s', effects) := handleDeploymentStatus s msg fetch in mirrors (watch p effects) s'.
Proof.
  intros Hm Hz. destruct (handleDeploymentStatus s msg fetch) as [s' effects] eqn:Hh.
  pose proof (fun j => handle_other s msg fetch j) as Hother. rewrite Hh in Hother.
  cbn [fst] in Hother.
  destruct (statusPatch (deploymentStatusUpdate msg)) as [pt|] eqn:Hp.
  2: { unfold handleDeploymentStatus in Hh. rewrite Hp in Hh. by injection Hh as <- <-. }
  destruct (tbl_find (ms_deploymentId msg) (deployments s)) as [d|] eqn:Hd.
  2: { unfold handleDeploymentStatus, deployment_update in Hh. rewrite Hp, Hd in Hh.
       by injection Hh as <- <-. }
  pose proof (Hm (ms_deploymentId msg)) as Hrow. rewrite Hd in Hrow.
  destruct (tbl_find (ms_deploymentId msg) (pg_deployments p)) as [r|] eqn:Hr; [|done].
  destruct (statusBroadcast msg) as [i st port error vram| |] eqn:Hb; [|discriminate Hb..].
  assert (i = ms_deploymentId msg /\ st = ms_status msg) as [-> ->] by by injection Hb.
  pose proof (heard s msg fetch pt d port error vram Hp Hd Hb) as Heard.
  pose proof (patch_shows msg pt r d Hp Hz Hrow port error vram Hb) as Hsame.
  rewrite Hh in Heard. simpl in Heard. unfold watch. rewrite Heard.
  set (p1 := (handleSSE p (DeploymentStatus (ms_deploymentId msg) (ms_status msg) (wireNum port)
                             error (wireNum vram))).1).
  pose proof (rows_after_status p (ms_deploymentId msg) (ms_status msg) (wireNum port) error
    (wireNum vram)) as Hrows. fold p1 in Hrows.
  intros j. destruct (_ && _) eqn:Hdel; simpl; fold p1.
  - rewrite tbl_find_deleted, Hrows. destruct (String.eqb_spec j (ms_deploymentId msg)) as [->|Hj].
    + unfold handleDeploymentStatus, deployment_update, afterStatus in Hh.
      rewrite Hp, Hd, Hdel in Hh. injection Hh as <- _. simpl.
      by rewrite tbl_find_deleted, String.eqb_refl.
    + rewrite (Hother j Hj). apply Hm.
  - rewrite Hrows. destruct (String.eqb_spec j (ms_deploymentId msg)) as [->|Hj].
    + rewrite Hr. simpl. pose proof (handle_self s msg fetch pt d Hp Hd Hdel) as (d' & Hd' & Hc).
      rewrite Hh in Hd'. simpl in Hd'. rewrite Hd'. by destruct Hc as [->|(_ & name & -> & _)].
    + rewrite (Hother j Hj). apply Hm.
Qed.

(** Reports served one after the other, the page hearing every event. *)
Definition reportAll (fetch : string -> option response) (acc : db * page)
    (msgs : list DeploymentStatusMessage) : db * page :=
  foldl (fun acc msg =>
    let r := handleDeploymentStatus acc.1 msg fetch in (r.1, watch acc.2 r.2)) acc msgs.

(** C40: The page shows what the table holds.  Whatever the agents report, in
    whatever order, and whatever the server makes of it, a page that held the rows
    of the table and hears every event still holds exactly its rows afterwards,
    with their status, error, port and memory; the one exception is a report of
    no memory from a deployment in use, which the table takes and the event omits. *)
Theorem page_mirrors_reports fetch msgs s p :
  mirrors p s -> Forall (fun msg => zeroInUse msg = false) msgs ->
  mirrors (reportAll fetch (s, p) msgs).2 (reportAll fetch (s, p) msgs).1.
Proof.
  intros Hm Hz. revert s p Hm. induction Hz as [|msg msgs Hmsg _ IH]; intros s p Hm; [done|].
  pose proof (mirrors_step fetch s p msg Hm Hmsg) as Hstep. unfold reportAll in *. cbn [foldl fst snd].
  destruct (handleDeploymentStatus s msg fetch) as [s1 effects]. by apply IH.
Qed.

Definition loadedPage (s : db) : page :=
  Page (map (loaded s) (deployments s)) [] [] ∅ ∅ ∅.

(** A page that just loaded mirrors the table. *)
Lemma loaded_mirrors s :
  Forall (fun d => forall z, d_port d = Some z \/ d_vramActual d = Some z ->
                   (-2147483648 <= z <= 2147483647)%Z) (deployments s) ->
  mirrors (loadedPage s) s.
Proof.
  intros Hb id. unfold loadedPage. simpl.
  assert (tbl_find id (map (loaded s) (deployments s)) = loaded s <$> tbl_find id (deployments s)) as ->.
  { clear Hb. unfold tbl_find. induction (deployments s) as [|d ds IH]; [done|]. simpl.
    change (row_id (loaded s d)) with (row_id d). by destruct (String.eqb (row_id d) id). }
  destruct (tbl_find id (deployments s)) as [d|] eqn:E; [|done]. simpl.
  apply tbl_find_Some in E as [Hd _]. rewrite Forall_forall in Hb. specialize (Hb d Hd).
  split; [done|]. split; [done|]. unfold shows. simpl.
  split; [destruct (d_port d) as [z|]|destruct (d_vramActual d) as [z|]]; try done; simpl;
    apply as_int32_zn; by eapply Hb; eauto.
Qed.

Lemma page_mirrors_reports_witness :
  let s := exS (exD "running" None) in
  let r := reportAll exFetch (s, loadedPage s)
             [exReport "failed" (Some "oom"); exReport "stopped" None] in
  mirrors r.2 r.1 /\ rw_error <$> tbl_find "d1" (pg_deployments r.2) = Some (Some "oom").
Proof.
  split; [|by vm_compute].
  apply (page_mirrors_reports exFetch [exReport "failed" (Some "oom"); exReport "stopped" None]);
    [|by repeat constructor].
  apply loaded_mirrors. constructor; [|constructor].
  intros z [Hz|Hz]; vm_compute in Hz; try discriminate Hz; injection Hz as <-; lia.
Defined.

(** The exception: a running deployment that reports no memory. *)
Example zero_is_lost :
  let msg := {| ms_deploymentId := "d1"; ms_status := "running"; ms_port := None; ms_error := None;
                ms_deleteAfter := false; ms_vramActual := Some (ANum (zn 0)) |} in
  let s := db_deployments (map (fun d => patch_deployment
    (DepPatch None None None None None (Some (Some 90%Z)) None) d)) (exS (exD "running" None)) in
  let '(s', effects) := handleDeploymentStatus s msg exFetch in
  d_vramActual <$> tbl_find "d1" (deployments s') = Some (Some 0%Z) /\
  rw_vramActual <$> tbl_find "d1" (pg_deployments (watch (loadedPage s) effects)) = Some (Some (zn 90)).
Proof. by vm_compute. Qed.

(** A list that was read before an event and arrives after it undoes the event on
    the page: the deployment stays starting there while the table says failed. *)
Example stale_list_wins :
  let s := exS (exD "starting" None) in
  let '(s', effects) := handleDeploymentStatus s (exReport "failed" (Some "oom")) exFetch in
  let answered := withDeployments (map (loaded s) (deployments s)) (watch (loadedPage s) effects) in
  rw_status <$> tbl_find "d1" (pg_deployments answered) = Some "starting" /\
  d_status <$> tbl_find "d1" (deployments s') = Some "failed".
Proof. by vm_compute. Qed.

End LiveFacts.

(** ** The fine-tuning page against the job table *)
Module TrainPageFacts.
Import Dashboard.Train.

(** What an agent reports of a job, with what only the page looks at. *)
Inductive jobMsg :=
  | MProgress (m : progressMsg) (log : option string) (totalSteps etaSeconds : option num)
  | MComplete (jobId status : string) (outputPath error : option string)
  | MMerge (jobId : string) (status mergedPath : option string)
  | MQuantize (jobId status : string) (quantizedPath error : option string).

(** The event of a handler that answered: the payload it broadcasts. *)
Definition announce {A} (r : world * list event) (e : A) : world * option A :=
  (r.1, match r.2 with [] => None | _ => Some e end).

Definition serve (now : Z) (w : world) (msg : jobMsg) : world * option trainEvent :=
  match msg with
  | MProgress m log totalSteps eta =>
      announce (onFinetuneProgress w m)
        (Log {| lp_jobId := resolveJobId w (pm_jobId m); lp_phase := Some (pm_phase m);
                lp_phaseProgress := pm_phaseProgress m; lp_step := zn <$> pm_step m;
                lp_totalSteps := totalSteps; lp_loss := pm_loss m; lp_lr := pm_lr m;
                lp_evalLoss := pm_evalLoss m; lp_etaSeconds := eta; lp_log := log |})
  | MComplete id status outputPath error =>
      announce (onFinetuneComplete w now id status outputPath error)
        (Status id status outputPath error)
  | MMerge id status mergedPath =>
      announce (onMergeComplete w id status mergedPath) (MergeStatus id status mergedPath)
  | MQuantize id status quantizedPath error =>
      announce (onQuantizeComplete w now id status quantizedPath error)
        (QuantizeStatus id status quantizedPath)
  end.

Definition hear (p : trainPage) (e : option trainEvent) : trainPage :=
  match e with Some e => (handleSSE p e).1 | None => p end.

(** The page's job and the table's: the same but for a start the page noticed,
    and with the same paths when [paths]. *)
Definition sameJob (paths : bool) (j d : finetune_job) : Prop :=
  f_progress j = f_progress d /\ f_mergeStatus j = f_mergeStatus d /\
  f_quantizationStatus j = f_quantizationStatus d /\
  (f_status j = f_status d \/ f_status j = "running" /\ f_status d = "starting") /\
  (paths = true -> f_outputPath j = f_outputPath d /\ f_mergedPath j = f_mergedPath d /\
                   f_quantizedPath j = f_quantizedPath d).

Definition jobsMirror (paths : bool) (js ds : list finetune_job) : Prop :=
  forall id, match tbl_find id js, tbl_find id ds with
             | Some j, Some d => sameJob paths j d
             | None, None => True
             | _, _ => False
             end.

Lemma update_mirrors paths id (f g : finetune_job -> finetune_job) js ds :
  (forall j, row_id (f j) = row_id j) -> (forall j, row_id (g j) = row_id j) ->
  (forall j d, sameJob paths j d -> sameJob paths (f j) (g d)) ->
  jobsMirror paths js ds -> jobsMirror paths (tbl_update id f js) (tbl_update id g ds).
Proof.
  intros Hf Hg Hfg H i. specialize (H i). rewrite !tbl_find_update by done.
  destruct (String.eqb i id); [|done].
  destruct (tbl_find i js), (tbl_find i ds); simpl; auto.
Qed.

(** A report that takes a path away: the table clears it, the page keeps its own. *)
Definition carriesPath (msg : jobMsg) : bool :=
  match msg with
  | MProgress _ _ _ _ => true
  | MComplete _ _ path _ | MMerge _ _ path => bool_decide (path <> None)
  | MQuantize _ status path _ => String.eqb status "completed" && bool_decide (path <> None)
  end.

Lemma jobs_of_update id cs w :
  finetuneJobs (w_db (default w (job_update id cs w))) =
  tbl_update id (patch_job cs) (finetuneJobs (w_db w)).
Proof.
  unfold job_update. destruct (tbl_find id (finetuneJobs (w_db w))) as [j|] eqn:E; [done|]. simpl.
  unfold tbl_update. induction (finetuneJobs (w_db w)) as [|j js IH]; [done|].
  unfold tbl_find in E. simpl in E |- *.
  destruct (String.eqb (row_id j) id); [discriminate E|]. by rewrite <- IH.
Qed.

Lemma jobs_of_report kind id cs w :
  finetuneJobs (w_db (jobReport w kind id cs).1) =
    tbl_update id (patch_job cs) (finetuneJobs (w_db w)) /\
  ((jobReport w kind id cs).2 = [] -> tbl_find id (finetuneJobs (w_db w)) = None).
Proof.
  rewrite <- jobs_of_update. unfold jobReport, job_update.
  destruct (tbl_find id (finetuneJobs (w_db w))); [|done]. by split.
Qed.

Lemma jobs_of_progress w m :
  finetuneJobs (w_db (onFinetuneProgress w m).1) =
  match pm_phaseProgress m with
  | Some v => if String.eqb (pm_phase m) "training" && num_lt (zn 0) v
              then tbl_update (resolveJobId w (pm_jobId m)) (patch_job [JobProgress v])
                     (finetuneJobs (w_db w))
              else finetuneJobs (w_db w)
  | None => finetuneJobs (w_db w)
  end.
Proof.
  assert (forall id e w, w_db (attachEvalLoss id e w) = w_db w) as Ha.
  { intros id e w0. unfold attachEvalLoss. by destruct (List.filter _ _). }
  assert (forall id st l lr w, w_db (upsertMetric id st l lr w) = w_db w) as Hu.
  { intros id st l lr w0. unfold upsertMetric. by destruct (tbl_find _ _). }
  unfold onFinetuneProgress. cbn -[num_lt].
  assert (forall (o : option num) id w0,
    w_db (match o with Some e => attachEvalLoss id e w0 | None => w0 end) = w_db w0) as He
    by (intros []; intros; by rewrite ?Ha).
  rewrite He. destruct (String.eqb (pm_phase m) "training"), (pm_step m), (pm_loss m);
    cbn -[num_lt]; rewrite ?Hu; destruct (pm_phaseProgress m) as [v|]; cbn -[num_lt]; try done;
    destruct (num_lt (zn 0) v); try done; apply jobs_of_update.
Qed.

(** A report is heard whenever a row changes. *)
Lemma report_step paths kind id cs w p f e :
  tp_jobs (handleSSE p e).1 = tbl_update id f (tp_jobs p) ->
  (forall j, row_id (f j) = row_id j) ->
  (forall j d, sameJob paths j d -> sameJob paths (f j) (patch_job cs d)) ->
  jobsMirror paths (tp_jobs p) (finetuneJobs (w_db w)) ->
  let '(w', o) := announce (jobReport w kind id cs) e in
  jobsMirror paths (tp_jobs (hear p o)) (finetuneJobs (w_db w')).
Proof.
  intros He Hf Hs H. unfold announce, jobReport, job_update.
  destruct (tbl_find id (finetuneJobs (w_db w))); [|exact H]. cbn [fst snd hear]. rewrite He.
  apply update_mirrors; [exact Hf|apply patch_job_id|exact Hs|exact H].
Qed.

Lemma job_on_page id f p e :
  tp_jobs (appendLog id e (withJobs f p)) = f (tp_jobs p).
Proof. unfold appendLog. by destruct (truthy e). Qed.

Lemma jobs_on_log m p :
  tp_jobs (handleSSE p (Log m)).1 =
  match truthy (lp_phase m) with
  | Some phase => tbl_update (lp_jobId m) (phaseJob phase m) (tp_jobs p)
  | None => tp_jobs p
  end.
Proof.
  simpl. unfold onPoint, onPhase, appendLog.
  destruct (truthy (lp_log m)), (truthy (lp_phase m)), (lp_step m), (lp_loss m); simpl; try done;
    by destruct (addPoint _ _ _ _).
Qed.

Lemma phaseJob_same paths m phase j d :
  sameJob paths j d ->
  sameJob paths (phaseJob phase m j)
    (match lp_phaseProgress m with
     | Some v => if String.eqb phase "training" && num_lt (zn 0) v
                 then patch_job [JobProgress v] d else d
     | None => d end).
Proof.
  intros (Hp & Hm & Hq & Hs & Hpaths). unfold phaseJob.
  set (j1 := if mem_str _ _ && _ then _ else j).
  assert (sameJob paths j1 d) as (Hp1 & Hm1 & Hq1 & Hs1 & Hpaths1).
  { unfold j1. destruct (_ && _) eqn:E; [|done].
    apply andb_prop in E as [_ E%String.eqb_eq]. destruct j. simpl in *.
    split; [exact Hp|]. split; [exact Hm|]. split; [exact Hq|]. split; [|exact Hpaths]. simpl.
    right. split; [done|]. destruct Hs as [Hs|[Hs _]]; congruence. }
  clearbody j1. destruct (lp_phaseProgress m) as [v|]; [|done].
  destruct (String.eqb phase "training" && num_lt (zn 0) v); [|done].
  by destruct j1, d.
Qed.

Lemma serve_step paths now w p msg :
  jobsMirror paths (tp_jobs p) (finetuneJobs (w_db w)) ->
  (paths = true -> carriesPath msg = true) ->
  let '(w', e) := serve now w msg in
  jobsMirror paths (tp_jobs (hear p e)) (finetuneJobs (w_db w')).
Proof.
  intros H Hc.
  destruct msg as [m log total eta|jid status path error|jid status path|jid status path error];
    cbn [serve].
  - unfold announce. change (onFinetuneProgress w m).2 with [JobEvent "finetune:log"
      (resolveJobId w (pm_jobId m))]. cbn [hear].
    rewrite jobs_on_log. cbn [lp_phase lp_jobId]. rewrite jobs_of_progress.
    set (lp := {| lp_jobId := _ |}).
    destruct (truthy (Some (pm_phase m))) as [phase|] eqn:T.
    + assert (phase = pm_phase m) as ->.
      { unfold truthy in T. destruct (pm_phase m); [done|]. by injection T as <-. }
      assert (forall i (g : finetune_job -> finetune_job), (forall j, row_id (g j) = row_id j) ->
        (forall j d, sameJob paths j d -> sameJob paths (phaseJob (pm_phase m) lp j) (g d)) ->
        jobsMirror paths (tbl_update i (phaseJob (pm_phase m) lp) (tp_jobs p))
          (tbl_update i g (finetuneJobs (w_db w)))) as Hup.
      { intros i g Hg Hs. apply update_mirrors; [|exact Hg|exact Hs|exact H].
        intros j. unfold phaseJob. destruct (mem_str _ _ && _), (lp_phaseProgress lp);
          repeat (destruct (_ && _)); by rewrite ?patch_job_id. }
      pose proof (fun j d => phaseJob_same paths lp (pm_phase m) j d) as Hph.
      change (lp_phaseProgress lp) with (pm_phaseProgress m) in Hph.
      assert (forall ds, jobsMirror paths (tbl_update (resolveJobId w (pm_jobId m))
        (phaseJob (pm_phase m) lp) (tp_jobs p)) (tbl_update (resolveJobId w (pm_jobId m)) (fun j => j) ds) ->
        jobsMirror paths (tbl_update (resolveJobId w (pm_jobId m)) (phaseJob (pm_phase m) lp) (tp_jobs p)) ds)
        as Hid.
      { intros ds Hds i. specialize (Hds i). rewrite (tbl_find_update _ (fun j => j)) in Hds by done.
        by destruct (String.eqb i _), (tbl_find i ds). }
      destruct (pm_phaseProgress m) as [v|]; [destruct (_ && _)|].
      * apply Hup; [apply patch_job_id|exact Hph].
      * apply Hid, Hup; [done|exact Hph].
      * apply Hid, Hup; [done|exact Hph].
    + destruct (pm_phase m) eqn:E; [|discriminate T]. simpl. by destruct (pm_phaseProgress m).
  - apply report_step with (f := fun j =>
      patch_job [JobStatus status; JobOutputPath (orElse path (f_outputPath j))] j);
      [apply job_on_page|by intros j; apply patch_job_id| |exact H].
    intros j d (? & ? & ? & ? & Hp). unfold sameJob. destruct j, d, error; simpl in *;
      do 3 (split; [done|]); (split; [by left|]); intros P; specialize (Hc P);
      destruct (Hp P) as (? & ? & ?); by destruct path.
  - apply report_step with (f := fun j =>
      patch_job [JobMergeStatus status; JobMergedPath (orElse path (f_mergedPath j))] j);
      [done|by intros j; apply patch_job_id| |exact H].
    intros j d (? & ? & ? & ? & Hp). unfold sameJob. destruct j, d; simpl in *.
    do 4 (split; [done|]). intros P. specialize (Hc P).
    destruct (Hp P) as (? & ? & ?). by destruct path.
  - apply report_step with (f := fun j =>
      patch_job [JobQuantStatus (Some (if String.eqb status "completed" then "quantized" else "failed"));
                 JobQuantPath (orElse path (f_quantizedPath j))] j);
      [done|by intros j; apply patch_job_id| |exact H].
    intros j d (? & ? & ? & ? & Hp). unfold sameJob. destruct j, d; simpl in *.
    do 4 (split; [done|]). intros P. specialize (Hc P).
    destruct (Hp P) as (? & ? & ?), (String.eqb status "completed"); [|done]. by destruct path.
Qed.

Definition serveAll (now : Z) (acc : world * trainPage) (msgs : list jobMsg) : world * trainPage :=
  foldl (fun acc msg => let r := serve now acc.1 msg in (r.1, hear acc.2 r.2)) acc msgs.

(** The fine-tuning page follows the job table.  Whatever the agents report of
    jobs, in whatever order, a page that held the table's jobs and hears every
    event keeps the same progress, merge and quantization states, and the same
    status but for a start it noticed itself and the table never records; the
    paths stay the same as long as no report takes one away. *)
Theorem page_follows_jobs now msgs w p :
  jobsMirror true (tp_jobs p) (finetuneJobs (w_db w)) ->
  let r := serveAll now (w, p) msgs in
  jobsMirror false (tp_jobs r.2) (finetuneJobs (w_db r.1)) /\
  (Forall (fun msg => carriesPath msg = true) msgs ->
   jobsMirror true (tp_jobs r.2) (finetuneJobs (w_db r.1))).
Proof.
  intros H r.
  assert (forall paths, jobsMirror paths (tp_jobs p) (finetuneJobs (w_db w)) ->
    (paths = true -> Forall (fun msg => carriesPath msg = true) msgs) ->
    jobsMirror paths (tp_jobs r.2) (finetuneJobs (w_db r.1))) as Hrun.
  { unfold r. clear. intros paths. revert w p.
    induction msgs as [|msg msgs IH]; intros w p H Hc; [done|].
    pose proof (serve_step paths now w p msg H) as Hs. unfold serveAll in *. cbn [foldl fst snd].
    destruct (serve now w msg) as [w1 e]. apply IH.
    - apply Hs. intros P. specialize (Hc P). by apply Forall_cons in Hc as [? _].
    - intros P. specialize (Hc P). by apply Forall_cons in Hc as [_ ?]. }
  split; [|by intros Hc; apply Hrun].
  apply Hrun; [|done]. intros i. specialize (H i).
  destruct (tbl_find i (tp_jobs p)), (tbl_find i _); try done.
  destruct H as (? & ? & ? & ? & _). by repeat split.
Qed.

(** A loss curve keeps its four lists in step, with rising steps. *)
Definition curveOk (c : curve) : Prop :=
  length (cu_losses c) = length (cu_steps c) /\ length (cu_lrs c) = length (cu_steps c) /\
  length (cu_evalLosses c) = length (cu_steps c) /\
  Forall (fun n => is_finite n = true) (cu_steps c) /\
  StronglySorted (fun a b => num_lt a b = true) (cu_steps c).

Lemma sorted_snoc {A} (R : A -> A -> Prop) l x :
  StronglySorted R l -> Forall (fun a => R a x) l -> StronglySorted R (l ++ [x]).
Proof.
  induction 1 as [|a l Hs IH Ha]; intros Hx; [by repeat constructor|]. simpl.
  apply Forall_cons in Hx as [Hax Hx]. constructor; [by apply IH|].
  apply Forall_app. split; [done|]. by repeat constructor.
Qed.

Lemma sorted_last {A} (R : A -> A -> Prop) l y a :
  StronglySorted R l -> last l = Some y -> a ∈ l -> a = y \/ R a y.
Proof.
  induction 1 as [|b l Hs IH Hb]; [done|]. intros Hl [->|Ha]%elem_of_cons.
  - destruct l as [|c l]; [left; by injection Hl|]. right.
    rewrite Forall_forall in Hb. apply Hb. by apply last_Some_elem_of.
  - destruct l as [|c l]; [by apply elem_of_nil in Ha|]. by apply IH.
Qed.

Lemma addPoint_ok step loss m c c' :
  curveOk c -> is_finite step = true -> addPoint step loss m c = Some c' -> curveOk c'.
Proof.
  intros (H1 & H2 & H3 & Hf & Hs) Hstep. unfold addPoint.
  destruct (last (cu_steps c)) as [s|] eqn:L; [destruct (num_le step s) eqn:E; [done|]|];
    intros [= <-]; unfold curveOk; simpl; rewrite !length_app; simpl;
    (split; [lia|]); (split; [lia|]); (split; [lia|]); (split; [apply Forall_app; by repeat constructor|]).
  - apply sorted_snoc; [done|]. apply Forall_forall. intros a Ha.
    rewrite Forall_forall in Hf. pose proof (Hf _ Ha) as Hfa.
    pose proof (Hf _ (last_Some_elem_of _ _ L)) as Hfs.
    destruct step as [| |x]; [done..|]. destruct s as [| |y]; [done..|]. destruct a as [| |z]; [done..|].
    destruct (sorted_last _ _ _ _ Hs L Ha) as [[= ->]|Hlt]; simpl in *; [by rewrite E|].
    apply negb_true_iff in Hlt. apply negb_true_iff.
    destruct (Qle_bool x z) eqn:X; [|done]. apply Qle_bool_iff in X.
    assert (~ (x <= y)%Q) by (rewrite <- Qle_bool_iff; congruence).
    assert (~ (y <= z)%Q) by (rewrite <- Qle_bool_iff; congruence).
    apply Qnot_le_lt in H, H0. exfalso. apply (Qlt_not_le y x H).
    apply Qle_trans with z; [exact X|]. by apply Qlt_le_weak.
  - destruct (cu_steps c) as [|a l]; [|by apply last_None in L]. simpl. by repeat constructor.
Qed.

Definition finiteStep (e : trainEvent) : bool :=
  match e with Log m => match lp_step m with Some n => is_finite n | None => true end | _ => true end.

Definition curvesOk (p : trainPage) : Prop := forall id c, tp_metrics p !! id = Some c -> curveOk c.

Lemma handleSSE_curves p e : curvesOk p -> finiteStep e = true -> curvesOk (handleSSE p e).1.
Proof.
  intros H Hf.
  assert (forall id t p, curvesOk p -> curvesOk (appendLog id t p)) as Hlog.
  { intros id t p0 H0. unfold appendLog. by destruct (truthy t). }
  destruct e as [job|m|id st path err|id log|id st path| |id st path]; simpl in *; try done;
    try (by apply Hlog).
  - by destruct (String.eqb (f_id job) "").
  - assert (curvesOk (onPhase m (appendLog (lp_jobId m) (lp_log m) p))) as H1.
    { unfold onPhase. destruct (truthy (lp_phase m)); by apply Hlog. }
    revert H1. generalize (onPhase m (appendLog (lp_jobId m) (lp_log m) p)). intros q Hq.
    unfold onPoint. destruct (lp_step m) as [step|], (lp_loss m) as [loss|]; try done.
    destruct (addPoint _ _ _ _) as [c'|] eqn:E; [|done]. intros id c. simpl.
    destruct (decide (id = lp_jobId m)) as [->|Hne].
    + rewrite lookup_insert_eq. intros [= <-]. eapply addPoint_ok; [|exact Hf|exact E].
      destruct (tp_metrics q !! lp_jobId m) as [c0|] eqn:L; [by eapply Hq|].
      split; [done|]. split; [done|]. split; [done|]. split; constructor.
    + rewrite lookup_insert_ne by done. apply Hq.
Qed.

(** The loss curves stay drawable.  Over any events whose steps are numbers,
    every job's curve keeps a loss, a rate and an evaluation entry for each of its
    steps, and its steps strictly rise, whatever is repeated or out of order. *)
Theorem curves_stay_drawable p events :
  curvesOk p -> Forall (fun e => finiteStep e = true) events ->
  curvesOk (foldl (fun p e => (handleSSE p e).1) p events).
Proof.
  intros H Hf. revert p H. induction Hf as [|e events He _ IH]; intros p H; [done|].
  simpl. apply IH. by apply handleSSE_curves.
Qed.

Definition emptyPage : trainPage := TrainPage [] ∅ ∅ ∅.

Definition logStep (step loss : Z) : trainEvent :=
  Log {| lp_jobId := "j"; lp_phase := Some "training"; lp_phaseProgress := None;
         lp_step := Some (zn step); lp_totalSteps := None; lp_loss := Some (zn loss); lp_lr := None;
         lp_evalLoss := None; lp_etaSeconds := None; lp_log := None |}.

Lemma curves_stay_drawable_witness :
  exists c, tp_metrics (foldl (fun p e => (handleSSE p e).1) emptyPage
              [logStep 1 9; logStep 2 8; logStep 2 7; logStep 1 6]) !! "j" = Some c /\
            curveOk c /\ cu_losses c = [zn 9; zn 8].
Proof.
  destruct (tp_metrics (foldl (fun p e => (handleSSE p e).1) emptyPage
              [logStep 1 9; logStep 2 8; logStep 2 7; logStep 1 6]) !! "j") as [c|] eqn:E;
    [|vm_compute in E; discriminate E].
  exists c. split; [done|]. split; [|vm_compute in E; by injection E as <-].
  apply (curves_stay_drawable emptyPage [logStep 1 9; logStep 2 8; logStep 2 7; logStep 1 6])
    with (id := "j"); [|by repeat constructor|exact E].
  intros i c0 Hc0. unfold emptyPage in Hc0. simpl in Hc0. by rewrite lookup_empty in Hc0.
Defined.

Definition exJob : finetune_job :=
  FineTuneJob "job-0000000000000001" "n1" None "starting" None None [] None "base" "lora" "data" None
    None None None None None (Some "/old") None None None None.

Definition exWorld : world := started (Db [] [] [] [] [] [exJob]) [] [].

Definition exMsgs : list jobMsg :=
  [MProgress {| pm_jobId := f_id exJob; pm_phase := "training"; pm_phaseProgress := Some (zn 40);
                pm_step := Some 2%Z; pm_loss := Some (zn 8); pm_lr := None; pm_evalLoss := None |}
     None None None;
   MComplete (f_id exJob) "completed" (Some "/out") None].

Lemma page_follows_jobs_witness :
  let r := serveAll 7 (exWorld, withJobs (fun _ => [exJob]) emptyPage) exMsgs in
  jobsMirror true (tp_jobs r.2) (finetuneJobs (w_db r.1)) /\
  (f_outputPath <$> head (tp_jobs r.2)) = Some (Some "/out").
Proof.
  split; [|by vm_compute].
  apply (page_follows_jobs 7 exMsgs exWorld (withJobs (fun _ => [exJob]) emptyPage));
    [|by repeat constructor].
  intros i. unfold tbl_find. simpl. destruct (String.eqb (row_id exJob) i) eqn:E; cbn in E; rewrite ?E; [|done].
  repeat split. by left.
Defined.

(** What is kept apart: after a failed merge the page still shows the old merged
    path, a training job is running on the page and starting in the table, and a
    step's figure is the first on the page and the last in the table. *)
Example failed_merge_keeps_path :
  let '(w', e) := serve 7 exWorld (MMerge (f_id exJob) (Some "failed") None) in
  f_mergedPath <$> head (finetuneJobs (w_db w')) = Some None /\
  f_mergedPath <$> head (tp_jobs (hear (withJobs (fun _ => [exJob]) emptyPage) e)) = Some (Some "/old").
Proof. by vm_compute. Qed.

Example running_only_on_the_page :
  let '(w', e) := serve 7 exWorld (List.hd (MMerge "" None None) exMsgs) in
  f_status <$> head (finetuneJobs (w_db w')) = Some "starting" /\
  f_status <$> head (tp_jobs (hear (withJobs (fun _ => [exJob]) emptyPage) e)) = Some "running".
Proof. by vm_compute. Qed.

(** A job that ended while the page was open has no end there: its duration goes on. *)
Example elapsed_goes_on :
  formatElapsed (Some 0%Z) None 60000 = "1m 0s" /\ formatElapsed (Some 0%Z) None 120000 = "2m 0s" /\
  formatElapsed (Some 0%Z) (Some 60000%Z) 120000 = "1m 0s".
Proof. by vm_compute. Qed.

End TrainPageFacts.

(** ** Forms *)
Module FormFacts.
Import Deployments.Names NodeOps.Power Dashboard.Forms.

Lemma keepChars_all p s : str_all p (keepChars p s) = true.
Proof. induction s as [|c s IH]; [done|]. simpl. destruct (p c) eqn:E; [|done]. simpl. by rewrite E. Qed.

Lemma str_take_all p n s : str_all p s = true -> str_all p (str_take n s) = true.
Proof.
  revert s. induction n as [|n IH]; intros [|c s]; simpl; [done..|].
  intros [-> H]%andb_prop. by apply IH.
Qed.

Lemma str_take_bound n s : (String.length (str_take n s) <= n)%nat.
Proof.
  revert s. induction n as [|n IH]; intros [|c s]; simpl; [lia..|]. specialize (IH s). lia.
Qed.

Lemma name_char_not_ws c : name_char c = true -> is_ws c = false.
Proof. by destruct c as [[] [] [] [] [] [] [] []]. Qed.

Lemma trim_name s : str_all name_char s = true -> str_trim s = s.
Proof.
  intros H. unfold str_trim. rewrite trim_left_id.
  - induction s as [|c s IH]; [done|]. simpl in *. apply andb_prop in H as [Hc H].
    rewrite (IH H). destruct s; [by rewrite (name_char_not_ws _ Hc)|done].
  - intros c r ->. simpl in H. apply andb_prop in H as [Hc _]. by apply name_char_not_ws.
Qed.

(** The suggested name is one the server takes.  Whatever a recipe or a model is
    called, the name put into the form is empty, and then not sent, or accepted by
    the deploy route as it stands. *)
Theorem suggestion_accepted mode recipeName finetuneDisplayName finetuneModel :
  let name := defaultDisplayName mode recipeName finetuneDisplayName finetuneModel in
  normalizeDisplayName (Some name) = Ok (if String.eqb name "" then None else Some name).
Proof.
  assert (forall raw, normalizeDisplayName (Some (sanitize raw)) =
            Ok (if String.eqb (sanitize raw) "" then None else Some (sanitize raw))) as Hs.
  { intros raw. pose proof (str_take_bound 128 (keepChars name_char (dashSpaces false (str_trim raw)))) as Hl.
    pose proof (str_take_all name_char 128 _ (keepChars_all name_char (dashSpaces false (str_trim raw)))) as Ha.
    unfold sanitize. set (s := str_take _ _) in *. clearbody s. unfold normalizeDisplayName.
    rewrite (trim_name s Ha). destruct s as [|c s]; [done|]. set (t := String c s) in *.
    change (String.length t =? 0)%nat with false. cbv iota.
    assert ((MAX_LENGTH <? String.length t)%nat = false) as ->.
    { unfold MAX_LENGTH. by apply Nat.ltb_ge. }
    unfold ALLOWED. by rewrite Ha. }
  destruct mode; simpl; [destruct (truthy recipeName); [apply Hs|done]|done|].
  destruct (String.eqb _ ""); [done|apply Hs].
Qed.

(** ** The picker *)

Definition pickerOk (p : picker) : Prop :=
  NoDup (pk_selected p) /\ "" ∉ pk_selected p /\ (pk_selected p = [] -> pk_head p = "") /\
  (pk_selected p <> [] -> pk_head p ∈ pk_selected p).

Definition goodPick (e : pickEvent) : Prop :=
  match e with
  | Recompute _ candidates => NoDup candidates /\ "" ∉ candidates
  | Toggle _ id | MakeHead id => id <> ""
  end.

Lemma keepHead_ok sel h : NoDup sel -> "" ∉ sel -> pickerOk (keepHead (Picker sel h)).
Proof.
  intros Hnd Hne. unfold keepHead. simpl. destruct sel as [|id sel]; [done|].
  destruct (String.eqb h "" || negb (mem_str h (id :: sel))) eqn:E; simpl.
  - split; [done|]. split; [done|]. split; [done|]. intros _. by left.
  - apply orb_false_iff in E as [_ E%negb_false_iff].
    split; [done|]. split; [done|]. split; [done|]. intros _. by apply mem_str_spec.
Qed.

Lemma NoDup_List_filter {A} (p : A -> bool) l : NoDup l -> NoDup (List.filter p l).
Proof.
  induction 1 as [|x l Hx Hl IH]; simpl; [constructor|]. destruct (p x); [|done].
  constructor; [|done]. intros [H _]%list_elem_of_In%filter_In. by apply Hx, list_elem_of_In.
Qed.

Lemma pick_ok p e : pickerOk p -> goodPick e -> pickerOk (pick p e).
Proof.
  intros Hok He. pose proof Hok as (Hnd & Hne & H0 & H1).
  destruct e as [required candidates|required id|id]; simpl in *.
  - destruct He as [He1 He2]. unfold initSelection.
    destruct (required <=? 1)%nat; [by apply keepHead_ok; [constructor|apply not_elem_of_nil]|].
    destruct (_ =? _)%nat; [by apply keepHead_ok|].
    apply keepHead_ok; [eapply sublist_NoDup; [exact He1|apply sublist_take]|].
    intros H. apply He2. by apply elem_of_take in H as (i & H%list_elem_of_lookup_2 & _).
  - unfold toggleNode. destruct (mem_str id _) eqn:E.
    + apply keepHead_ok; [by apply NoDup_List_filter|].
      intros [H _]%list_elem_of_In%filter_In. by apply Hne, list_elem_of_In.
    + destruct (_ <? _)%nat; [|by apply keepHead_ok]. apply keepHead_ok.
      * apply NoDup_app. split; [done|]. split; [|by apply NoDup_singleton]. intros x Hx Hx'.
        apply elem_of_cons in Hx' as [->|Hx']; [|by apply elem_of_nil in Hx'].
        apply mem_str_spec in Hx. congruence.
      * rewrite elem_of_app. intros [H|H]; [done|].
        apply elem_of_cons in H as [H|H]; [congruence|by apply elem_of_nil in H].
  - destruct (mem_str id _) eqn:E; [|done]. apply mem_str_spec in E.
    split; [done|]. split; [done|]. split; [|done]. simpl. intros Hn.
    by rewrite Hn in E; apply elem_of_nil in E.
Qed.

Lemma head_first h l :
  NoDup l -> h ∈ l -> h :: List.filter (fun id => negb (String.eqb id h)) l ≡ₚ l.
Proof.
  induction 1 as [|x l Hx Hl IH]; [by intros ?%elem_of_nil|].
  intros Hh. simpl. destruct (String.eqb_spec x h) as [->|Hne]; simpl.
  - constructor. clear IH Hl Hh. induction l as [|y l IH]; [done|]. simpl.
    apply not_elem_of_cons in Hx as [Hy Hx]. destruct (String.eqb_spec y h); [congruence|]. simpl.
    constructor. by apply IH.
  - apply elem_of_cons in Hh as [->|Hh]; [done|]. rewrite perm_swap. constructor. by apply IH.
Qed.

(** A cluster deploy names the nodes that were picked, head first.  After any
    use of the picker a form that may be sent names exactly the chosen nodes, once
    each, as many as the recipe asks for, and the chosen head first, which the
    deploy route takes for rank zero. *)
Theorem cluster_request_nodes events required selectedNode selectable :
  Forall goodPick events -> (1 < required)%nat ->
  let p := foldl pick (Picker [] "") events in
  canDeploy required p selectedNode selectable = true ->
  let ids := buildClusterNodeIds (Some (pk_head p)) (pk_selected p) in
  ids ≡ₚ pk_selected p /\ NoDup ids /\ length ids = required /\ head ids = Some (pk_head p).
Proof.
  intros Hev Hreq p Hcan.
  assert (pickerOk p) as (Hnd & Hne & _ & Hh).
  { unfold p. assert (pickerOk (Picker [] "")) as H0.
    { split; [constructor|]. split; [apply not_elem_of_nil|]. done. }
    revert H0. generalize (Picker [] ""). clear p Hcan.
    induction Hev as [|e events He _ IH]; intros q Hq; [done|]. simpl. by apply IH, pick_ok. }
  unfold canDeploy in Hcan. rewrite (proj2 (Nat.ltb_lt _ _) Hreq) in Hcan.
  apply Nat.eqb_eq in Hcan.
  assert (pk_selected p <> []) as Hsel by (intros E; rewrite E in Hcan; simpl in Hcan; lia).
  specialize (Hh Hsel). unfold buildClusterNodeIds.
  assert (truthy (Some (pk_head p)) = Some (pk_head p)) as ->.
  { unfold truthy. destruct (pk_head p); [by destruct Hne|done]. }
  rewrite (proj2 (mem_str_spec _ _) Hh). pose proof (head_first _ _ Hnd Hh) as Hp.
  split; [exact Hp|]. split; [by rewrite Hp|]. split; [by rewrite Hp|done].
Qed.

Lemma cluster_request_nodes_witness :
  let p := foldl pick (Picker [] "") [Recompute 2 ["a"; "b"; "c"]; Toggle 2 "a"; Toggle 2 "c"; MakeHead "c"] in
  buildClusterNodeIds (Some (pk_head p)) (pk_selected p) = ["c"; "b"] /\
  length (buildClusterNodeIds (Some (pk_head p)) (pk_selected p)) = 2%nat.
Proof.
  split; [by vm_compute|].
  apply (cluster_request_nodes [Recompute 2 ["a"; "b"; "c"]; Toggle 2 "a"; Toggle 2 "c"; MakeHead "c"]
    2 "" 0); [|lia|by vm_compute].
  repeat constructor; try done; by apply (bool_decide_unpack _).
Defined.

(** The picker trusts a count: when the recipe needs one node less while a chosen
    node has gone offline, the old choice of three is kept, the form is blocked, and
    unticking a node that works leaves the one that does not in the request. *)
Example offline_node_stays_picked :
  let p := foldl pick (Picker [] "") [Recompute 3 ["a"; "b"; "c"]; Recompute 2 ["b"; "c"]] in
  pk_selected p = ["a"; "b"; "c"] /\ canDeploy 2 p "" 0 = false /\
  let q := pick p (Toggle 2 "b") in
  canDeploy 2 q "" 0 = true /\ buildClusterNodeIds (Some (pk_head q)) (pk_selected q) = ["a"; "c"].
Proof. by vm_compute. Qed.

(** ** Agent versions *)

(** A version part both sides read the same: the page by [Number], the server by
    [parseInt]. *)
Definition plainPart (s : string) : bool :=
  match number_of_string s with
  | Fin q => Qeq_bool q (inject_Z (segment s)) | _ => false end.

Lemma num_lt_compat a b x y :
  (a == x)%Q -> (b == y)%Q -> num_lt (Fin a) (Fin b) = num_lt (Fin x) (Fin y).
Proof.
  intros E F. simpl. f_equal. destruct (Qle_bool b a) eqn:H1, (Qle_bool y x) eqn:H2; try done.
  - apply Qle_bool_iff in H1. rewrite E, F in H1. apply Qle_bool_iff in H1. congruence.
  - apply Qle_bool_iff in H2. rewrite <- E, <- F in H2. apply Qle_bool_iff in H2. congruence.
Qed.

Lemma plain_part s : plainPart s = true ->
  exists q, (if num_truthy (number_of_string s) then number_of_string s else zn 0) = Fin q /\
            (q == inject_Z (segment s))%Q.
Proof.
  unfold plainPart. destruct (number_of_string s) as [| |q]; [done..|]. intros H%Qeq_bool_iff. simpl.
  destruct (Qeq_bool q 0) eqn:E; simpl; [|by exists q].
  exists (inject_Z 0). split; [done|]. apply Qeq_bool_iff in E. by rewrite <- H, E.
Qed.

(** The page offers an upgrade exactly when the server would call the agent too
    old.  For versions of three plain parts the page's own comparison and the
    server's agree. *)
Theorem isOutdated_versionGte v e a b c x y z :
  str_split "." v = [a; b; c] -> str_split "." e = [x; y; z] ->
  Forall (fun s => plainPart s = true) [a; b; c; x; y; z] -> v <> "" -> e <> "" ->
  isOutdated (Some v) (Some e) = negb (versionGte (Some v) e).
Proof.
  intros Hv He Hp Hv0 He0. unfold isOutdated, versionGte, segments.
  assert (truthy (Some v) = Some v) as -> by (unfold truthy; by destruct v).
  assert (truthy (Some e) = Some e) as -> by (unfold truthy; by destruct e).
  rewrite Hv, He. cbn [map length Nat.max]. unfold part. cbn [lookup list_lookup].
  repeat (apply Forall_cons in Hp as [?%plain_part Hp]).
  repeat match goal with H : exists q, _ |- _ => destruct H as (? & -> & ?) end.
  repeat match goal with
    | E : (?p == _)%Q, F : (?q == _)%Q |- context [num_lt (Fin ?p) (Fin ?q)] =>
        rewrite (num_lt_compat _ _ _ _ E F) end.
  fold (zn (segment a)) (zn (segment b)) (zn (segment c)) (zn (segment x)) (zn (segment y)) (zn (segment z)).
  rewrite !zn_lt. cbn [gteFrom head default tail id]. unfold id.
  destruct (segment a <? segment x)%Z eqn:E1.
  { apply Z.ltb_lt in E1. by rewrite (proj2 (Z.ltb_ge (segment x) (segment a))) by lia. }
  destruct (segment x <? segment a)%Z; [done|].
  destruct (segment b <? segment y)%Z eqn:E2.
  { apply Z.ltb_lt in E2. by rewrite (proj2 (Z.ltb_ge (segment y) (segment b))) by lia. }
  destruct (segment y <? segment b)%Z; [done|].
  destruct (segment c <? segment z)%Z eqn:E3.
  { apply Z.ltb_lt in E3. by rewrite (proj2 (Z.ltb_ge (segment z) (segment c))) by lia. }
  by destruct (segment z <? segment c)%Z.
Qed.

Lemma isOutdated_versionGte_witness :
  isOutdated (Some "0.9.10") (Some "0.10.2") = negb (versionGte (Some "0.9.10") "0.10.2") /\
  isOutdated (Some "0.9.10") (Some "0.10.2") = true.
Proof.
  split; [|by vm_compute].
  apply (isOutdated_versionGte "0.9.10" "0.10.2" "0" "9" "10" "0" "10" "2"); try done.
  repeat constructor; by vm_compute.
Defined.

(** A suffix is where they differ: the page reads [3-rc] as zero, the server as three. *)
Example suffix_differs :
  isOutdated (Some "1.2.3-rc") (Some "1.2.3") = true /\ versionGte (Some "1.2.3-rc") "1.2.3" = true.
Proof. by vm_compute. Qed.

(** ** The restart form *)

Lemma digit_cases c : is_digit c = true ->
  is_ws c = false /\ Ascii.eqb c "-" = false /\ Ascii.eqb c "+" = false /\
  Ascii.eqb c "x" = false /\ Ascii.eqb c "X" = false.
Proof. by destruct c as [[] [] [] [] [] [] [] []]. Qed.

Lemma parseInt_digits s : s <> "" -> str_all is_digit s = true ->
  parseInt s = (let '(v, n) := (digits 10 0 0 s).1 in if (n =? 0)%nat then NaN else zn v).
Proof.
  intros Hne Hs. unfold parseInt.
  assert (trim_left s = s) as ->.
  { destruct s as [|c r]; [done|]. simpl in *. apply andb_prop in Hs as [Hc _].
    by rewrite (proj1 (digit_cases c Hc)). }
  assert (match s with String "-" r => (true, r) | String "+" r => (false, r) | _ => (false, s) end
          = (false, s)) as ->.
  { destruct s as [|c r]; [done|]. simpl in Hs. apply andb_prop in Hs as [Hc _]. clear Hne.
    revert Hc. by destruct c as [[] [] [] [] [] [] [] []]. }
  assert (match s with String "0" (String "x" r) | String "0" (String "X" r) => (digits 16 0 0 r).1
          | _ => (digits 10 0 0 s).1 end = (digits 10 0 0 s).1) as ->; [|done].
  destruct s as [|c [|d r]]; [done|by destruct c as [[] [] [] [] [] [] [] []]|].
  cbn [str_all] in Hs. apply andb_prop in Hs as [_ [Hd _]%andb_prop]. clear Hne.
  revert Hd. by destruct c as [[] [] [] [] [] [] [] []]; try done; destruct d as [[] [] [] [] [] [] [] []].
Qed.

Lemma parseInt_num_str z : (0 <= z)%Z -> parseInt (num_str (zn z)) = zn z.
Proof.
  intros Hz. assert (num_str (zn z) = pretty (Z.to_N z)) as ->.
  { unfold num_str, zn. rewrite Qfloor_Z.
    assert (Qeq_bool (inject_Z z) (inject_Z z) = true) as -> by by apply Qeq_bool_iff.
    by destruct z. }
  assert (exists n, z = Z.of_N n) as [n ->] by (exists (Z.to_N z); lia). rewrite N2Z.id. clear Hz.
  destruct (pretty_digits n) as (_ & Hall & Hne). rewrite parseInt_digits by done.
  change (pretty n) with (if decide (n = 0)%N then "0" else pretty_N_go n "").
  destruct (decide (n = 0)%N) as [->|Hn]; [done|].
  destruct (digits_pretty_go n "") as (k & H0 & H1 & _). rewrite H1. cbn [digits fst].
  assert ((0 + N.to_nat k =? 0)%nat = false) as -> by (apply Nat.eqb_neq; lia).
  done.
Qed.

(** Reopening the restart form and sending it unedited changes no setting.  For
    a deployment that runs with whole positive figures, its own or its recipe's,
    the request repeats exactly the figure in force for the port, the context
    length and both degrees of parallelism. *)
Theorem unedited_restart_repeats cfg defaults key defKey n :
  In (key, defKey) [("port", "port"); ("maxModelLen", "max_model_len");
                    ("tensorParallel", "tensor_parallel"); ("pipelineParallel", "pipeline_parallel")] ->
  (0 <= n)%Z ->
  jget (Some cfg) key = Some (JNum (zn n)) \/
  (jget (Some cfg) key = None /\ jget defaults defKey = Some (JNum (zn n))) ->
  obj_get (submitEditRestart (beginEditRestart (Some cfg) defaults)) key = Some (JNum (zn n)).
Proof.
  intros Hkey Hn Hv.
  assert (pickValue (jget (Some cfg) key) (jget defaults defKey) = num_str (zn n)) as Hpick
    by by destruct Hv as [->|[-> ->]].
  assert (String.eqb (num_str (zn n)) "" = false) as Hne.
  { pose proof (parseInt_num_str n Hn) as H. destruct (String.eqb_spec (num_str (zn n)) "") as [E|]; [|done].
    by rewrite E in H. }
  pose proof (parseInt_num_str n Hn) as Hint.
  unfold submitEditRestart, beginEditRestart, whenGiven, obj_get. cbn [fl_port fl_maxModelLen
    fl_tensorParallel fl_pipelineParallel fl_gpuMem fl_artifactVariant].
  repeat destruct Hkey as [[= <- <-]|Hkey]; try done; rewrite Hpick, Hne, Hint; cbn [jsonNum is_finite zn];
    repeat match goal with |- context [if ?b then _ else _] => destruct b; simpl end; done.
Qed.

Lemma unedited_restart_repeats_witness :
  obj_get (submitEditRestart (beginEditRestart (Some (JObj [("port", JNum (zn 8001))]))
            (Some (JObj [("tensor_parallel", JNum (zn 4))])))) "tensorParallel" = Some (JNum (zn 4)).
Proof.
  apply (unedited_restart_repeats (JObj [("port", JNum (zn 8001))]) _ "tensorParallel" "tensor_parallel" 4);
    [by right; right; left|lia|by right].
Defined.

(** What it adds: a variant, also to a deployment of a stock recipe, and the
    recipe's figures, which from then on are the deployment's own. *)
Example unedited_restart_adds :
  submitEditRestart (beginEditRestart (Some (JObj [("port", JNum (zn 8001))]))
    (Some (JObj [("tensor_parallel", JNum (zn 4))]))) =
  [("port", JNum (zn 8001)); ("tensorParallel", JNum (zn 4)); ("artifactVariant", JStr "default")].
Proof. by vm_compute. Qed.

End FormFacts.

(** ** Connections and saves *)
Module StreamFacts.
Import Dashboard.Stream.

(** Connections that are open, and reconnects that will open one. *)
Definition active (s : stream) : nat := size (st_open s) + st_timers s.

(** At most one of either, and an open connection is the current one. *)
Definition streamOk (s : stream) : Prop :=
  (active s <= 1)%nat /\ exists i, st_current s = Some i /\ (st_open s = ∅ \/ st_open s = {[i]}).

(** No event but leaving the page changes how many there are. *)
Lemma streamStep_active n s e :
  streamOk s -> (st_mounted s = false \/ e <> Unmount) ->
  streamOk (streamStep n s e) /\ active (streamStep n s e) = active s /\
  st_mounted (streamStep n s e) = st_mounted s.
Proof.
  intros Hok He. pose proof Hok as (Ha & i & Hi & Ho). unfold streamOk, active in *.
  destruct e as [j|j| |]; simpl.
  - by destruct (bool_decide _).
  - destruct (bool_decide (j ∈ st_open s)) eqn:E; [|done]. apply bool_decide_eq_true in E.
    destruct Ho as [Ho|Ho]; [set_solver|]. rewrite Ho in E, Ha.
    assert (j = i) as -> by set_solver. simpl.
    rewrite size_singleton in Ha. rewrite Ho, difference_diag_L, size_empty, size_singleton.
    split; [|by split; [lia|]]. split; [lia|]. eauto.
  - destruct (st_timers s) as [|k] eqn:T; [by rewrite T|]. simpl.
    destruct Ho as [Ho|Ho]; rewrite Ho in Ha; rewrite ?size_singleton, ?size_empty in Ha; [|lia].
    rewrite Ho, !union_empty_r_L, size_singleton, size_empty. split; [|by split; [lia|]].
    split; [lia|]. eexists. split; [done|]. right. by rewrite ?union_empty_r_L.
  - destruct He as [Hm|He]; [|done]. by rewrite Hm.
Qed.

Lemma run_active n s events :
  streamOk s -> (st_mounted s = false \/ Unmount ∉ events) ->
  let s' := foldl (streamStep n) s events in
  streamOk s' /\ active s' = active s /\ st_mounted s' = st_mounted s.
Proof.
  revert s. induction events as [|e events IH]; intros s Hok He; [done|]. simpl.
  destruct (streamStep_active n s e Hok) as (Hok' & Ha & Hm).
  { destruct He as [He|He]; [by left|right]. intros ->. apply He. left. }
  destruct (IH (streamStep n s e) Hok') as (H1 & H2 & H3).
  { rewrite Hm. destruct He as [He|He]; [by left|right]. intros H. apply He. by right. }
  split; [done|]. by rewrite H2, H3.
Qed.

(** One event stream while a page is shown, and one too many after it is left.
    As long as the page is shown there is exactly one open connection or one
    reconnect to come, whatever is lost and however often.  Leaving the page closes
    an open connection but not a reconnect to come: an event source that was waiting
    to reconnect, and a web socket in every case, is opened again afterwards and
    kept for good, with nothing left that closes it. *)
Theorem one_stream n shown afterwards :
  Unmount ∉ shown ->
  let s := foldl (streamStep n) mounted shown in
  let s' := foldl (streamStep n) mounted (shown ++ Unmount :: afterwards) in
  active s = 1%nat /\ active s' = (if n then 1 else st_timers s)%nat.
Proof.
  intros Hs s s'.
  assert (streamOk mounted) as H0.
  { split; [done|]. exists 0%nat. split; [done|]. right. simpl. by rewrite union_empty_r_L. }
  destruct (run_active n mounted shown H0) as (Hok & Ha & Hm); [by right|]. fold s in Hok, Ha, Hm.
  assert (active s = 1%nat) as Hact by by rewrite Ha.
  split; [exact Hact|]. unfold s'. rewrite foldl_app. fold s.
  change (foldl (streamStep n) s (Unmount :: afterwards)) with
    (foldl (streamStep n) (streamStep n s Unmount) afterwards).
  destruct Hok as (_ & i & Hi & Ho).
  assert (streamOk (streamStep n s Unmount) /\ st_mounted (streamStep n s Unmount) = false /\
          active (streamStep n s Unmount) = (if n then 1 else st_timers s)%nat) as (Hok' & Hm' & Ha').
  { simpl. rewrite Hm. simpl. rewrite Hi. unfold streamOk, active in *. simpl.
    destruct Ho as [Ho|Ho]; rewrite Ho in Hact; rewrite ?size_empty, ?size_singleton in Hact.
    - rewrite Ho, bool_decide_false, andb_false_r by set_solver.
      assert (∅ ∖ {[i]} = (∅ : gset nat)) as -> by set_solver. rewrite size_empty.
      split; [|split; [done|destruct n; lia]]. split; [lia|]. eauto.
    - rewrite Ho, bool_decide_true, andb_true_r, difference_diag_L, size_empty by set_solver.
      split; [|split; [done|destruct n; lia]]. split; [destruct n; lia|]. eauto. }
  destruct (run_active n (streamStep n s Unmount) afterwards Hok') as (_ & Hfin & _); [by left|].
  by rewrite Hfin.
Qed.

Lemma one_stream_witness :
  let s' := foldl (streamStep false) mounted ([Opened 0; Failed 0] ++ Unmount :: [TimerFires]) in
  active s' = 1%nat /\ st_open s' = {[1%nat]} /\ st_mounted s' = false.
Proof.
  split; [|by vm_compute].
  apply (one_stream false [Opened 0; Failed 0] [TimerFires]).
  intros H. repeat (apply elem_of_cons in H as [H|H]; [discriminate H|]). by apply elem_of_nil in H.
Defined.

(** ** The enabled tags *)

(** What is ticked is saved once it is left alone.  After any ticks that end with
    a pause the server holds what the section shows; each pause saves the last of
    the selections before it, and leaving the section drops what was not saved. *)
Theorem ticks_are_saved s toggles :
  let shown := foldl tagStep s (map ToggleTag toggles) in
  toggles <> [] ->
  tg_stored (tagStep shown Quiet) = tg_enabled shown /\
  tg_enabled shown = foldl (fun l t => toggleTag t l) (tg_enabled s) toggles /\
  tg_stored (tagStep (tagStep shown Leave) Quiet) = tg_stored s.
Proof.
  intros shown Hne.
  assert (shown = Tags (foldl (fun l t => toggleTag t l) (tg_enabled s) toggles)
                    (Some (foldl (fun l t => toggleTag t l) (tg_enabled s) toggles)) (tg_stored s)) as ->; [|done].
  unfold shown. clear shown. destruct toggles as [|t ts _] using rev_ind; [done|].
  rewrite map_app, !foldl_app. simpl.
  assert (forall ts s, tg_enabled (foldl tagStep s (map ToggleTag ts)) =
            foldl (fun l t => toggleTag t l) (tg_enabled s) ts /\
          tg_stored (foldl tagStep s (map ToggleTag ts)) = tg_stored s) as H.
  { clear. induction ts as [|t ts IH]; intros s; [done|]. simpl. by rewrite !(proj1 (IH _)), (proj2 (IH _)). }
  destruct (H ts s) as [-> ->]. done.
Qed.

Lemma ticks_are_saved_witness :
  tg_stored (tagStep (foldl tagStep (Tags ["a"] None ["a"]) (map ToggleTag ["b"; "a"])) Quiet) = ["b"].
Proof.
  destruct (ticks_are_saved (Tags ["a"] None ["a"]) ["b"; "a"]) as (-> & -> & _); [done|].
  by vm_compute.
Defined.

(** The section without its loaded selection: the first tick after a failed load
    replaces everything that was enabled. *)
Example tick_without_load : tg_stored (foldl tagStep (Tags [] None ["a"; "b"]) [ToggleTag "c"; Quiet]) = ["c"].
Proof. by vm_compute. Qed.

End StreamFacts.

(** ** Lists and labels *)
Module ListFacts.
Import Dashboard.Lists.

(** A job's launch settings: the entries are the settings that are not null and
    whose name no object carries by itself, the known ones first and in their order. *)
Theorem parseLaunchConfig_spec parsed k v :
  NoDup (map fst parsed) ->
  (exists label, Entry k label v ∈ parseLaunchConfig (Some (Some (JObj parsed)))) <->
  (k, v) ∈ parsed /\ v <> JNull /\
  (k ∈ map fst LAUNCH_CONFIG_LABELS \/ k ∉ OBJECT_PROTOTYPE).
Proof.
  intros Hnd. unfold parseLaunchConfig. assert (forall o, notNull o = Some v <-> o = Some v /\ v <> JNull) as Hnn.
  { intros [[]|]; simpl; split; try (intros [= <-]); try (intros [[= <-] ?]); try done. }
  assert ((k, v) ∈ parsed <-> obj_get parsed k = Some v) as Hget by by apply al_get_elem.
  split.
  - intros (label & [H|H]%elem_of_app).
    + apply list_elem_of_omap in H as ([k' l'] & Hin & H). simpl in H.
      destruct (notNull (obj_get parsed k')) as [v'|] eqn:E; [|done]. injection H as -> -> ->.
      apply Hnn in E as [E Hv]. rewrite Hget. split; [done|]. split; [done|]. left.
      apply list_elem_of_fmap. by exists (k, label).
    + apply list_elem_of_omap in H as ([k' v'] & Hin & H). cbn [fst snd] in H.
      destruct (inLabels k') eqn:E; [done|].
      destruct (notNull (Some v')) as [v''|] eqn:E'; [|done]. injection H as -> <- ->.
      apply Hnn in E' as [[= ->] Hv]. split; [done|]. split; [done|]. right.
      apply orb_false_iff in E as [_ E]. intros Hp. apply mem_str_spec in Hp. congruence.
  - intros (Hin & Hv & Hk). apply Hget in Hin as Hin'.
    destruct (decide (k ∈ map fst LAUNCH_CONFIG_LABELS)) as [Hl|Hl].
    + apply list_elem_of_fmap in Hl as ([k' label] & -> & Hl). exists label. apply elem_of_app. left.
      apply list_elem_of_omap. exists (k', label). split; [done|]. simpl in *.
      by rewrite (proj2 (Hnn _) (conj Hin' Hv)).
    + destruct Hk as [Hk|Hk]; [done|]. exists k. apply elem_of_app. right.
      apply list_elem_of_omap. exists (k, v). split; [done|]. cbn [fst snd].
      assert (inLabels k = false) as ->.
      { apply orb_false_iff. split; apply not_true_iff_false; by rewrite mem_str_spec. }
      by rewrite (proj2 (Hnn _) (conj eq_refl Hv)).
Qed.

(** A setting named like a member of every object is hidden. *)
Example hidden_setting :
  map le_key (parseLaunchConfig (Some (Some (JObj [("constructor", JNum (zn 1)); ("seed", JNum (zn 2));
                                                   ("lora_r", JNum (zn 8))])))) = ["lora_r"; "seed"].
Proof. by vm_compute. Qed.

(** The presets offered are those of the runs, once each and in order. *)
Lemma presetOptions_spec runs p :
  p ∈ presetOptions runs <-> Some p ∈ runs /\ p <> "".
Proof.
  unfold presetOptions. rewrite elem_of_js_sort, elem_of_remove_dups, list_elem_of_omap. split.
  - intros ([x|] & Hin & H); [|done]. unfold truthy in H. simpl in H. destruct x; [done|].
    by injection H as <-.
  - intros [Hin Hne]. exists (Some p). split; [done|]. unfold truthy. by destruct p.
Qed.

(** A card advertises its Wake button exactly when it shows one. *)
Theorem placeholder_matches_button powerState macAddress :
  (exists waking, nodeMetricsPlaceholder powerState macAddress = ClickWake waking) <->
  showWakeButton powerState macAddress = true.
Proof.
  unfold nodeMetricsPlaceholder, showWakeButton.
  destruct (isNodeInactive powerState), (canWake macAddress); simpl; split; try done; try (by intros []); eauto.
Qed.

(** ** The cache list *)

(** A comparison that answers consistently. *)
Definition consistent {A} (f : A -> A -> Z) : Prop :=
  (forall a b, (f a b < 0 <-> 0 < f b a)%Z) /\
  (forall a b c, (f a b <= 0 -> f b c <= 0 -> f a c <= 0)%Z).

Lemma consistent_zero {A} (f : A -> A -> Z) a b : consistent f -> f a b = 0%Z <-> f b a = 0%Z.
Proof. intros [Ha _]. pose proof (Ha a b). pose proof (Ha b a). lia. Qed.

Lemma consistent_neg {A} (f : A -> A -> Z) : consistent f -> consistent (fun a b => - f a b)%Z.
Proof.
  intros [Ha Ht]. split.
  - intros a b. pose proof (Ha a b). pose proof (Ha b a). lia.
  - intros a b c H1 H2. pose proof (Ha a b). pose proof (Ha b a). pose proof (Ha b c).
    pose proof (Ha c b). pose proof (Ha a c). pose proof (Ha c a). pose proof (Ht c b a). lia.
Qed.

Lemma consistent_lex {A} (f g : A -> A -> Z) :
  consistent f -> consistent g ->
  consistent (fun a b => if negb (f a b =? 0)%Z then f a b else g a b).
Proof.
  intros Hf Hg. pose proof (fun a b => consistent_zero f a b Hf) as Hz.
  destruct Hf as [Ha Ht], Hg as [Hga Hgt]. split.
  - intros a b. pose proof (Hz a b). pose proof (Ha a b). pose proof (Ha b a).
    pose proof (Hga a b). destruct (Z.eqb_spec (f a b) 0), (Z.eqb_spec (f b a) 0); simpl; lia.
  - intros a b c. pose proof (Ht a b c). pose proof (Ht b c a). pose proof (Ht c a b).
    pose proof (Hgt a b c). pose proof (Ha a b). pose proof (Ha b a). pose proof (Ha b c).
    pose proof (Ha c b). pose proof (Ha a c). pose proof (Ha c a).
    destruct (Z.eqb_spec (f a b) 0), (Z.eqb_spec (f b c) 0), (Z.eqb_spec (f a c) 0); simpl; lia.
Qed.

Lemma consistent_text {A} (key : A -> string) :
  consistent (fun a b => if str_lt (key a) (key b) then -1
                         else if str_lt (key b) (key a) then 1 else 0)%Z.
Proof.
  assert (forall a b, str_lt (key a) (key b) = true -> str_lt (key b) (key a) = false) as Has.
  { intros a b H. unfold str_lt, String.ltb in *. rewrite String.compare_antisym.
    by destruct (String.compare (key a) (key b)). }
  split.
  - intros a b. pose proof (Has a b). pose proof (Has b a).
    destruct (str_lt (key a) (key b)), (str_lt (key b) (key a)); try lia;
      specialize (H eq_refl); discriminate H.
  - assert (forall a b, ((if str_lt (key a) (key b) then -1
      else if str_lt (key b) (key a) then 1 else 0) <= 0)%Z <-> str_le (key a) (key b) = true) as Hle.
    { intros a b. unfold str_lt, str_le, String.ltb, String.leb. rewrite (String.compare_antisym (key b)).
      destruct (String.compare (key a) (key b)); simpl; split; intros; try done; lia. }
    intros a b c. rewrite !Hle. apply str_le_trans.
Qed.

Section Order.
Context (localeCompare : string -> string -> Z).
Context (lc_consistent : consistent localeCompare).
Context (lc_eq : forall a b, localeCompare a b = 0%Z -> a = b).

Lemma lc_on (key : CacheRepo -> string) : consistent (fun a b => localeCompare (key a) (key b)).
Proof. destruct lc_consistent as [Ha Ht]. split; intros; [apply Ha|by eapply Ht]. Qed.

Lemma ASC_consistent column : consistent (ASC localeCompare column).
Proof.
  destruct column.
  - apply lc_on.
  - apply lc_on.
  - split; unfold ASC; intros; lia.
  - split; unfold ASC; intros; lia.
  - apply (consistent_text cr_lastModified).
  - assert (forall a b, ASC localeCompare ByLastDeployed a b =
      match cr_lastDeployedAt a, cr_lastDeployedAt b with
      | None, None => 0 | None, Some _ => -1 | Some _, None => 1
      | Some x, Some y => if str_lt x y then -1 else if str_lt y x then 1 else 0 end%Z) as Heq.
    { intros a b. unfold ASC. destruct (cr_lastDeployedAt a) as [x|], (cr_lastDeployedAt b) as [y|]; try done.
      destruct (String.eqb_spec x y) as [->|Hne].
      - unfold str_lt, String.ltb. pose proof (String.compare_antisym y y) as Hy.
        by destruct (String.compare y y).
      - destruct (str_lt x y) eqn:E; [done|]. unfold str_lt, String.ltb in *.
        rewrite (String.compare_antisym y). destruct (String.compare x y) eqn:C; try done.
        by apply String.compare_eq_iff in C. }
    pose proof (consistent_text (fun x : string => x)) as [Ha Ht]. cbv beta in Ha, Ht.
    split; intros *; rewrite !Heq.
    + destruct (cr_lastDeployedAt a), (cr_lastDeployedAt b); try apply Ha; lia.
    + destruct (cr_lastDeployedAt a), (cr_lastDeployedAt b), (cr_lastDeployedAt c); try apply Ht; lia.
Qed.

Lemma compareRepos_consistent column asc : consistent (compareRepos localeCompare column asc).
Proof.
  pose proof (ASC_consistent column) as H.
  unfold compareRepos. destruct asc; simpl.
  - exact (consistent_lex _ _ H (lc_on cr_repoId)).
  - pose proof (consistent_lex _ _ (consistent_neg _ H) (lc_on cr_repoId)) as [Ha Ht].
    assert (forall a b, (if negb (ASC localeCompare column a b =? 0)%Z then - ASC localeCompare column a b
        else localeCompare (cr_repoId a) (cr_repoId b))%Z =
      (if negb (- ASC localeCompare column a b =? 0)%Z then - ASC localeCompare column a b
        else localeCompare (cr_repoId a) (cr_repoId b))%Z) as Heq.
    { intros a b. destruct (Z.eqb_spec (ASC localeCompare column a b) 0),
        (Z.eqb_spec (- ASC localeCompare column a b) 0); simpl; lia. }
    split; intros *; rewrite !Heq; [apply Ha|apply Ht].
Qed.

(** The order of the cache list depends on the rows only, not on how they came
    in: for every column and direction, as long as no two rows have one repository
    name, any two answers with the same rows are shown in the same order. *)
Theorem sortRepos_deterministic repos repos' column asc :
  repos ≡ₚ repos' -> NoDup (map cr_repoId repos) ->
  sortRepos localeCompare repos column asc = sortRepos localeCompare repos' column asc.
Proof.
  intros Hp Hnd. pose proof (compareRepos_consistent column asc) as Hcons.
  pose proof Hcons as [Ha Ht].
  set (le := fun a b => (compareRepos localeCompare column asc a b <=? 0)%Z).
  assert (forall x y, le x y = true \/ le y x = true) as Htot.
  { intros x y. unfold le. rewrite !Z.leb_le. pose proof (Ha x y). pose proof (Ha y x). lia. }
  assert (forall x y z, le x y = true -> le y z = true -> le x z = true) as Htr.
  { intros x y z. unfold le. rewrite !Z.leb_le. apply Ht. }
  apply (StronglySorted_unique_strong (fun a b => le a b = true)).
  - intros x y Hx Hy. unfold sortRepos in Hx, Hy. rewrite elem_of_js_sort in Hx, Hy.
    rewrite <- Hp in Hy. unfold le. rewrite !Z.leb_le. intros H1 H2.
    assert (compareRepos localeCompare column asc x y = 0%Z) as H0.
    { pose proof (Ha x y). pose proof (Ha y x). lia. }
    unfold compareRepos in H0. assert (cr_repoId x = cr_repoId y) as E.
    { apply lc_eq. destruct (Z.eqb_spec (ASC localeCompare column x y) 0); simpl in H0; [done|].
      destruct asc; lia. }
    by apply (NoDup_map_inj cr_repoId repos).
  - by apply js_sort_sorted.
  - by apply js_sort_sorted.
  - unfold sortRepos. by rewrite !js_sort_perm.
Qed.

End Order.

(** By code unit, which is how repository names in ASCII of one case compare. *)
Definition byCodeUnit (a b : string) : Z :=
  if str_lt a b then -1 else if str_lt b a then 1 else 0.

Definition cacheRow (id kind : string) (size : Z) : CacheRepo :=
  Repo id kind size 1 "2026-01-01" None.

Lemma sortRepos_deterministic_witness :
  sortRepos byCodeUnit [cacheRow "b" "model" 5; cacheRow "a" "model" 5] BySize false =
  sortRepos byCodeUnit [cacheRow "a" "model" 5; cacheRow "b" "model" 5] BySize false.
Proof.
  apply (sortRepos_deterministic byCodeUnit).
  - apply (consistent_text (fun x : string => x)).
  - intros a b. unfold byCodeUnit, str_lt, String.ltb. rewrite (String.compare_antisym b).
    destruct (String.compare a b) eqn:E; try done. intros _. by apply String.compare_eq_iff.
  - apply Permutation_swap.
  - by apply (bool_decide_unpack _).
Defined.

(** A model and a dataset of one name tie on every column but the kind, and are then
    shown in the order they came in. *)
Example same_name_depends_on_input :
  map cr_kind (sortRepos byCodeUnit [cacheRow "a" "model" 5; cacheRow "a" "dataset" 5] BySize true) =
    ["model"; "dataset"] /\
  map cr_kind (sortRepos byCodeUnit [cacheRow "a" "dataset" 5; cacheRow "a" "model" 5] BySize true) =
    ["dataset"; "model"].
Proof. by vm_compute. Qed.

(** A size just below a unit is rounded up to 1024 of the smaller one. *)
Example almost_a_megabyte : formatBytes 1048575 = "1024 KB" /\ formatBytes 1048576 = "1.0 MB".
Proof. by vm_compute. Qed.

(** A report of a failed reseed is a report; every other failure is an error that
    carries the server's reason when it gives one. *)
Lemma reseed_502 body : reseedKnownHosts 502 (Some body) = Ok body.
Proof. done. Qed.

Example api_errors :
  apiFetch 404 (Some (JObj [("error", JStr "no such node")])) = Err "no such node" /\
  apiFetch 502 None = Err "API error: 502" /\ apiFetch 204 None = Err "SyntaxError".
Proof. by vm_compute. Qed.

End ListFacts.
